(* ===== verification/_CoqProject ===== *)
-Q . S2P
Prelude.v
Packet.v
Codec.v
Tlv.v
Envelope.v
SwapWire.v
Swap.v
Reader.v
Crypto.v
SwapIntent.v
FundingVerify.v
SwapMessages.v
SwapCoordinator.v
SwapSession.v
SwapRecovery.v
SwapNode.v
Dedup.v
Fragment.v
Gcs.v
SwapLeg.v
SwapAtomic.v
Relay.v
StoreForward.v
Beacon.v
Settlement.v
Balance.v
Chat.v
Noise.v
Address.v
NimTx.v
Gateway.v
RequestUri.v
NimHtlc.v
BlockHeader.v
NimVerifier.v
BtcVerifier.v
Evm.v
UsdcLeg.v
EvmVerifier.v
LiveSigner.v
PolygonGateway.v
EthNode.v
NimmeshHtlc.v
SwapBuilder.v
BtcHtlc.v
SwapEngine.v
Engine.v
EngineLogic.v
EngineProps.v
Payment.v
MockRadio.v
Mesh.v
MeshLine.v
LiveDoor.v
UsdcSend.v
NimRpc.v
NodeFfi.v
Landing.v
SwapFfi.v
BtcGateway.v
Telemetry.v
Redaction.v
SwapSettles.v
