(* ===== verification/Prelude.v ===== *)
(** * nimmesh: a verification development of the offline mesh wallet core

    nimmesh ([crates/nimmesh-core]) is the Rust core of a wallet that works over
    a Bluetooth mesh.  Nodes flood binary packets; a payment is a signed
    transaction in an envelope, carried from node to node to a gateway with
    internet, which submits it and floods a receipt back; and two nodes that have
    found each other by flooded advertisements run a hash-time-locked atomic swap
    by exchanging swap messages over the same mesh.  Every decoder reads hostile
    input, and the payment and swap code moves funds.

    ** Parts and files (source names under [crates/nimmesh-core/src])

    Shared:
    - [Prelude] (this file): outcomes of fallible code, machine integers, slices
      and big-endian integers, shared lemmas, hints and tactics.
    - [Reader]: the bounds-checked reads of [swap_intent.rs], [swap_recovery.rs].
    - [Crypto]: the interface to the hash and signature crates.

    Packets and the mesh:
    - [Packet], [Codec] ([packet.rs], [codec.rs]): the packet, its padded encoder
      and strict decoder.  [Tlv], [Envelope] ([envelope.rs]): the record loop that
      [envelope.rs] and [swap_wire.rs] share, and the transaction envelope.
    - [Dedup], [Fragment], [Gcs], [StoreForward] ([dedup.rs], [fragment.rs],
      [gcs.rs], [store_forward.rs]): first-seen cache, fragmentation with bounded
      reassembly, the Golomb-coded filter and the gossip-sync cache.
    - [Relay] ([relay.rs], [citizen.rs], [ratelimit.rs]): the relay decision with its
      generator, the battery posture, the token buckets.
    - [Settlement], [Beacon], [Balance], [Chat] ([settlement.rs], [transport.rs],
      [pending_retry.rs], [beacon.rs], [reachability.rs], [balance.rs],
      [tx_history.rs], [chat.rs]): receipts and the ledger, head beacons, balance
      and history answers, the public chat.
    - [Noise] ([noise.rs]): the encrypted channel between two peers.
    - [Engine] ([engine.rs], [node.rs] and the handlers of the other modules): the
      worker of a node.  A handler is a computation over the node's context, state
      and log of effects, which returns or panics.  [EngineLogic] is the program
      logic for such computations, [EngineProps] what it proves of every run,
      [Payment] the composition of an origin and a gateway.
    - [MockRadio] ([mock_radio.rs], [radio.rs]): a mesh of such nodes over a simulated
      radio, with the steps of its threads; [Mesh] and [MeshLine] follow a payment
      through a line of relays in every interleaving.
    - [NodeFfi], [Landing] ([node.rs], [gateway_ffi.rs], [provider.rs] and the exported
      blocks of the other modules): what the app calls on a node, and the path of a
      signed transfer from the app through the mesh and an RPC node to a ledger.
    - [Telemetry], [Redaction] ([tick_stats.rs], [swap_health.rs], [swap_mirror.rs],
      [ffi_secret_redaction.rs]): the readings a node shows of itself, and the log
      texts of the records that carry key material.

    Nimiq:
    - [Address], [NimTx], [NimHtlc], [BlockHeader] ([nimiq/], [balance_proof.rs]):
      addresses and hex, transfers and the relay's signature filter, the
      transactions of a swap contract, headers and balance proofs.
    - [Gateway], [NimRpc] ([gateway.rs], [rpc.rs]): the gateway and RPC interfaces,
      the gateway over an RPC node, and the JSON-RPC client that implements it.
    - [RequestUri] ([request_uri.rs], [backup.rs]): payment links, backup reminder.

    Swaps:
    - [SwapWire], [SwapMessages], [SwapIntent] ([swap_wire.rs], [swap_messages.rs],
      [swap_intent.rs], [swap_rate.rs]): payloads, typed messages, advertisements
      and the rule by which two of them match.
    - [Swap] ([swap.rs]): the state machine of one side and its two safety gates.
      [SwapLeg], [UsdcLeg] ([swap_leg.rs], [swap_usdc_leg.rs]): an escrow with its
      contract.  [NimmeshHtlc] ([contracts/src/NimmeshHtlc.sol]): the escrow contract on
      Polygon, as transactions on its storage, and that the leg is its slot.  [SwapAtomic] runs the machine over two escrows against an
      arbitrary counterparty.
    - [FundingVerify], [SwapCoordinator], [SwapSession], [SwapRecovery], [SwapNode]
      (the [swap_*.rs] files of those names, with [swap_claim.rs],
      [swap_fast_tick.rs], [swap_head_gate.rs], [swap_leg_select.rs],
      [swap_signer.rs]): the decision to trust a funding, one side of one swap, all
      swaps of a node, their crash-recovery blob, and the driver that ties them to a
      signer and to the mesh.  [SwapSettles] plays two such nodes against each other,
      from the advertisements to the settled legs.
    - [NimVerifier], [BtcVerifier], [EvmVerifier] ([nim_verifier.rs],
      [btc_verifier.rs], [polygon_verifier.rs], [amoy_swap_verifier.rs]): the
      verifiers over chain endpoints, instances of the interface of [FundingVerify].
    - [SwapBuilder], [BtcHtlc], [SwapEngine] ([swap_builder.rs], [btc.rs],
      [swap_btc_leg.rs], [swap_engine.rs], [swap_sim.rs]): the NIM and Bitcoin legs,
      and the orchestrator of a NIM/BTC swap with its simulator.
    - [SwapFfi], [BtcGateway] ([swap_ffi.rs], [btc_gateway.rs], [btc_verifier.rs]): the
      handle through which the app drives that orchestrator, with its lock and error
      texts, and the HTTP clients of the Bitcoin leg.
    - [Evm], [PolygonGateway] ([evm_*.rs], [polygon_gateway.rs]): what is signed and
      sent on Polygon, and the JSON-RPC client.  [EthNode]: what the JSON-RPC documents
      say a node answers, block tags included, and the client over any such node.
    - [LiveSigner], [LiveDoor], [UsdcSend] ([live_swap_signer.rs],
      [mainnet_swap.rs], [swap_secret.rs], [swap_live_ffi.rs],
      [swap_live_ffi_live_impl.rs], [swap_participant_ffi.rs], [usdc_send_ffi.rs]):
      the signers that move real funds, the constructors that wire them to a node,
      the refunder, and the standalone USDC send.

    A Rust struct is a [Record] with the source's fields, an enum an [Inductive];
    a [&mut self] method is a function that returns the new state.  Integers are
    [Z] with the width written at the operation that can exceed it ([wrapN],
    [sat_add], [sat_sub] and the checked operations below); bytes are [Z] in
    [0, 256), and the [_ok] predicates state the ranges.  [HashMap] and [HashSet]
    are [gmap] and [gset].  A function that can fail and that indexes or slices
    returns [res E A], whose third outcome [Panic] is the Rust panic.  The worker is
    one thread that takes one job at a time, so a run of a node is a list of jobs
    and of callbacks between them; the theorems quantify over every such list.  A run
    of a mesh is a list of steps of its workers, radios and delivery thread.  The
    handlers of the swap driver return the state they leave together with their
    messages or a panic, which the worker's job passes on; an error the source drops
    with [.ok()] or [let _] is dropped, a panic never is.

    ** Parameters

    Code outside the repository is a class, with the laws the code relies on in a
    class of their own and an instance that satisfies them.
    - [Crypto], [Keccak], [EvmSigner] and their laws: output sizes, and that a
      signature verifies under its own key.  Unforgeability and collision freedom
      are not assumed; a theorem that needs one names the collision.
    - [BitcoinLib] with [BitcoinLaws], [Snow] with [TransportPair]: the [bitcoin]
      crate and the Noise library, of which only the round trip of the two ends of a
      handshake is assumed; the theorem on the channel names the forgeries it excludes.
    - [HttpPost], [HttpText]: an HTTP agent, and the parser of JSON bodies.  [Ledger],
      [NimLedger] and [BtcChain] are the chains behind a node or an indexer, which the
      clients are measured against; [EthNode], [NimNode] and [esplora_serves] state
      the documented answers of such a node, each with a node that satisfies it.
    - [IERC20]: the token behind the escrow contract, without laws.
    - [BitcoinText]: the address and transaction-id parsers of the [bitcoin] crate.
    - [BitcoinReads], [PolygonReads], [AmoyChain], [LiveChain], [SendChain],
      [GatewayRpc]: the endpoints as the code sees them; no law unless a theorem
      states that an endpoint is honest.
    - [RelayRng], [Clock], [Unicode]: the random source, the monotonic clock, the
      whitespace and case tables of the standard library; the table of characters that
      print as themselves is an argument of [Redaction]; the wall clock is an argument.

    Interfaces of the program are classes too, and clients are proved against them:
    [FundingVerifier], [SwapSigner], [SwapLeg] with [SwapLegLaws], [LegBuilder],
    [MeshGateway] with [GatewayTotal], [GatewayRpc] with [RpcTyped].

    ** What the theorems show

    - Atomicity ([SwapAtomic]): in every schedule of moves of the party, of time
      and of a counterparty that does what the chain allows, an initiator whose
      NIM is taken has the other leg or a claim of it that the chain will accept,
      a responder whose leg is taken has [delta_safe] blocks to take the NIM, and
      a leg nobody takes is refunded, except a responder's that learns the secret
      only past [T_A] ([late_secret_strands_leg]).  A broadcast claim is assumed to be included
      within the claim window of the ladder.
    - Codecs: every decoder is total on arbitrary bytes, accepts only in-range
      values and inverts its encoder; the packet, intent and chat decoders are
      characterised exactly by the byte strings they accept.
    - Swap stack: layers of refinement, from the transition table of [Swap] over
      coordinator, session and driver to the whole node ([engine_refines_swap]).  On
      top of it: the funding gate, funds are dropped only by a refund or an explicit
      removal, a secret is never reissued, a responder settles only on a confirmed
      claim, and every call of the signer is for a coordinator of the right phase whose
      counterparty's funding the verifier has seen in that run.  And it gets there:
      two nodes whose advertisements fit settle in five messages when the signers and
      chains serve them ([offers_settle]); any two participants of the door whose trades
      fit do ([participants_settle]).
    - Chain side: with an honest endpoint a funding that passes a verifier is on
      chain with the terms of the swap; the legs build exactly the transactions of
      the terms; every transaction a live signer signs carries them, whatever the
      endpoints answer; a mainnet door is pinned to the code's contract and token;
      every reported lock can be refunded (and is in the app's book while that has
      room); a USDC send moves exactly what was asked; the USDC leg is the slot of the
      escrow contract, call by call.
    - Clients: over any node that answers as documented, the Polygon and Nimiq clients
      return the ledger's values and hand it the bytes they are given; over an indexer
      in front of a chain, the Bitcoin client makes the funding gate say what the
      chain says.
    - The app's side: a swap handle is the engine on the terms it was given, cannot be
      wedged, and shows the secret only after a sufficient funding was reported or the
      unchecked [observe_nim_funded] was called; a record with key material prints
      exactly its public view; the stopwatch, the heartbeats and the discovery health
      show what their fields say.
    - Mesh node: no job panics, the swap driver included, and every table with a cap
      stays within it, whatever is received; submissions are distinct within the cache; what a node sends in
      answer to a frame is accounted for; a payment settles over origin and gateway.
    - Mesh: in every interleaving each node is a run of the engine alone, on frames its
      neighbours sent it; a payment crosses a line of up to six relays, is submitted once
      and settles, and over more it stops at the hop cap; a transfer the app signs and
      submits reaches the ledger behind the gateway ([signed_payment_lands]).
    - Recovery, links, Noise, filters: round trips, and a Noise channel on which nothing
      is forged delivers each message at most once and unchanged.

    Theorems that record behaviour the code does not mean to have:
    [funding_precedes_ladder_gate], [late_secret_strands_leg],
    [latched_signer_funds_twice], [usdc_escrowed_twice], [usdc_withdrawn_twice],
    [landed_not_keyed],
    [tombstones_lost_at_65536], [unknown_receipt_settles], [btc_liar_fakes_funding],
    [amoy_liar_fakes_funding], [engine_failure_is_final], [transposed_1B_accepted],
    [request_uri_panics], [varint_overflow_read], [guards_match_fragments],
    [empty_answer_resolves_lock], [short_timeout_refused], [signet_guard_takes_any_mention].

    ** Loops and fuel

    A loop that is not structural takes fuel, and a theorem shows that the fuel
    is enough: the TLV loop consumes a record header a turn and is given one
    turn more than the input has bytes (running out would be a [Panic], which the
    totality theorems exclude); [chunks] is given the payload length; the unary run of a
    Rice code one turn more than the buffer has bits; the re-dispatch of a
    reassembled fragment one level more than the bytes held ([dispatch_fuel],
    excluded by [worker_never_panics]).  A varint has at most ten bytes, a decimal
    of a [u64] at most twenty digits, a quantity at most thirty-two hex digits.
    The polling loops of the live signers have the code's own bounds.  All other
    loops are over finite lists or maps.

    ** Not modelled

    - The tests, the test hooks ([test_support.rs], [swap_node_test_hooks.rs], the
      constructors, fences and snapshot jobs under [cfg(test)]) and the counters that only
      they and the display read (frames sent, packets stored, intents dropped): no handler
      reads them, so they cannot change what a node does.
    - The demo server ([demo_http.rs]) and the programs under [examples/]: scripts over
      file systems, sockets and funded accounts that call the modelled functions.
    - The native radios and the generated bindings, which are not Rust code of the crate,
      and the meta-transaction forwarder contract ([contracts/src/NimmeshForwarder.sol]).
    - Sleeps, the draw of a random seed, the reading of a clock, and the log lines: their
      results are arguments where the code uses them.
    - Chain reorganisations in [SwapAtomic], which the confirmation depth of the funding
      gate is there for; and the accounts proof behind a balance, which the crate does not
      walk either. *)

From stdpp Require Import base list gmap strings.
From Stdlib Require Import ZArith Lia.
Open Scope Z_scope.

(** ** Outcomes of fallible Rust code

    [res E A] is the result of running a Rust function that returns
    [Result<A, E>] and that may also panic (an index or slice out of range,
    an [unwrap] of [None]).  A loop that is modelled with fuel also yields
    [Panic] when the fuel runs out, so a theorem that a function never
    yields [Panic] shows both that it does not panic and that its loop ends
    within the fuel it is given. *)

Inductive res (E A : Type) : Type :=
| Ok (a : A)
| Err (e : E)
| Panic.
Arguments Ok {E A} a.
Arguments Err {E A} e.
Arguments Panic {E A}.

Declare Scope rs_scope.
Delimit Scope rs_scope with rs.
Open Scope rs_scope.

Notation "'let?' x := c 'in' k" :=
  (match c with Ok x => k | Err e => Err e | Panic => Panic end)
  (at level 10, x pattern, c at level 200, k at level 200,
   format "'[v' 'let?'  x  :=  c  'in' '/' k ']'") : rs_scope.

(** [?] after [ok_or]: an option turned into an outcome. *)
Definition ok_or {E A} (o : option A) (e : E) : res E A :=
  match o with Some a => Ok a | None => Err e end.

Definition map_err {E E' A} (f : E -> E') (r : res E A) : res E' A :=
  match r with Ok a => Ok a | Err e => Err (f e) | Panic => Panic end.

Definition is_ok {E A} (r : res E A) : bool :=
  match r with Ok _ => true | _ => false end.

(** ** Machine integers

    A [u8], [u16], [u32], [u64] or [usize] is a [Z]; [uN w v] says that it
    is in the range of its width.  The wrapping casts and the checked and
    saturating operations are written out. *)

Definition uN (w v : Z) : Prop := 0 <= v < 2 ^ w.

Definition wrapN (w v : Z) : Z := v mod 2 ^ w.

Definition sat_sub (a b : Z) : Z := Z.max 0 (a - b).

Definition sat_add (w a b : Z) : Z := Z.min (2 ^ w - 1) (a + b).

Definition checked_add (w a b : Z) : option Z :=
  if a + b <? 2 ^ w then Some (a + b) else None.

Abbreviation byte := Z (only parsing).
Abbreviation bytes := (list Z) (only parsing).

Definition bytes_ok (l : bytes) : Prop := Forall (uN 8) l.

(** The length of a [Vec] or slice, as the [usize] the code computes with. *)
Definition len {A} (l : list A) : Z := Z.of_nat (length l).

(** [l[i]], which panics out of range. *)
Definition idx {E A} (l : list A) (i : Z) : res E A :=
  if 0 <=? i then
    match l !! Z.to_nat i with Some x => Ok x | None => Panic end
  else Panic.

(** [&l[a..b]], which panics out of range. *)
Definition slice {E A} (l : list A) (a b : Z) : res E (list A) :=
  if (0 <=? a) && (a <=? b) && (b <=? len l)
  then Ok (take (Z.to_nat (b - a)) (drop (Z.to_nat a) l))
  else Panic.

(** ** Big-endian integers: [to_be_bytes] and [from_be_bytes] *)

Fixpoint be_bytes (n : nat) (v : Z) : bytes :=
  match n with
  | O => []
  | S m => (v / 256 ^ Z.of_nat m) mod 256 :: be_bytes m v
  end.

Definition from_be (l : bytes) : Z := foldl (fun acc b => acc * 256 + b) 0 l.

(** [value.try_into::<[u8; N]>()]: succeeds on exactly [n] bytes. *)
Definition try_array (n : nat) (v : bytes) : option bytes :=
  if Nat.eqb (length v) n then Some v else None.

(** ** Automation *)

Create HintDb nimmesh.
Create Rewrite HintDb len.

(** Case analysis on the innermost [match] or [if] of the goal. *)
Ltac case_goal :=
  match goal with
  | |- context [match ?x with _ => _ end] =>
      lazymatch x with
      | context [match _ with _ => _ end] => fail
      | _ => let H := fresh "E" in destruct x eqn:H
      end
  end.

(** Case analysis on the innermost [match] or [if] of a hypothesis. *)
Ltac case_hyp H :=
  match type of H with
  | context [match ?x with _ => _ end] =>
      lazymatch x with
      | context [match _ with _ => _ end] => fail
      | _ => let H' := fresh "E" in destruct x eqn:H'
      end
  end.

(** Boolean tests of the code turned into propositions, everywhere. *)
Ltac bool_prop :=
  repeat match goal with
  | H : (_ && _) = true |- _ => apply andb_prop in H; destruct H
  | H : (_ || _) = false |- _ => apply orb_false_elim in H; destruct H
  | H : negb _ = true |- _ => apply negb_true_iff in H
  | H : negb _ = false |- _ => apply negb_false_iff in H
  | H : (_ <? _) = true |- _ => apply Z.ltb_lt in H
  | H : (_ <? _) = false |- _ => apply Z.ltb_ge in H
  | H : (_ <=? _) = true |- _ => apply Z.leb_le in H
  | H : (_ <=? _) = false |- _ => apply Z.leb_gt in H
  | H : (_ =? _) = true |- _ => apply Z.eqb_eq in H
  | H : (_ =? _) = false |- _ => apply Z.eqb_neq in H
  | H : (_ >? _) = true |- _ => rewrite Z.gtb_ltb in H
  | H : (_ >? _) = false |- _ => rewrite Z.gtb_ltb in H
  | H : (_ >=? _) = true |- _ => rewrite Z.geb_leb in H
  | H : (_ >=? _) = false |- _ => rewrite Z.geb_leb in H
  | H : bool_decide _ = true |- _ => apply bool_decide_eq_true in H
  | H : bool_decide _ = false |- _ => apply bool_decide_eq_false in H
  end.

(** Run a computation in a hypothesis to the end, branch by branch. *)
Ltac run H := repeat (case_hyp H; simplify_eq); bool_prop.

(** ** Lists and lengths *)

Lemma len_nonneg {A} (l : list A) : 0 <= len l.
Proof. unfold len; lia. Qed.

Lemma len_nil {A} : len (@nil A) = 0.
Proof. reflexivity. Qed.

Lemma len_cons {A} (x : A) l : len (x :: l) = 1 + len l.
Proof. unfold len; simpl; lia. Qed.

Lemma len_app {A} (l k : list A) : len (l ++ k) = len l + len k.
Proof. unfold len; rewrite length_app; lia. Qed.

Lemma len_take {A} n (l : list A) :
  0 <= n <= len l -> len (take (Z.to_nat n) l) = n.
Proof. unfold len; rewrite length_take; lia. Qed.

Lemma len_drop {A} n (l : list A) :
  0 <= n <= len l -> len (drop (Z.to_nat n) l) = len l - n.
Proof. unfold len; rewrite length_drop; lia. Qed.

Lemma len_replicate {A} n (x : A) :
  0 <= n -> len (replicate (Z.to_nat n) x) = n.
Proof. unfold len; rewrite length_replicate; lia. Qed.

Lemma len_eq_length {A} (l : list A) n : length l = n -> len l = Z.of_nat n.
Proof. unfold len; lia. Qed.

#[export] Hint Rewrite @len_cons @len_app : len.

(** Compute lengths in the goal; [len []] is by conversion. *)
Ltac len_simpl :=
  autorewrite with len;
  repeat match goal with
  | |- context [@len ?A []] => change (@len A []) with 0
  end.

Lemma idx_Some {E A} (l : list A) i x :
  0 <= i -> l !! Z.to_nat i = Some x -> @idx E A l i = Ok x.
Proof.
  intros Hi Hx. unfold idx. rewrite Hx.
  destruct (Z.leb_spec 0 i); [reflexivity | lia].
Qed.

(** In range, indexing returns an element of the list. *)
Lemma idx_ok {E A} (l : list A) i :
  0 <= i < len l -> exists x, @idx E A l i = Ok x /\ l !! Z.to_nat i = Some x.
Proof.
  unfold len. intros Hi.
  destruct (lookup_lt_is_Some_2 l (Z.to_nat i)) as [x Hx]; [lia|].
  exists x; split; [apply idx_Some; [lia | exact Hx] | exact Hx].
Qed.

Lemma idx_app {E A} (pre : list A) x post i :
  i = len pre -> @idx E A (pre ++ x :: post) i = Ok x.
Proof.
  intros ->. apply idx_Some; [apply len_nonneg|].
  unfold len. rewrite Nat2Z.id. apply list_lookup_middle; reflexivity.
Qed.

(** Indexing takes a list apart from the front, as [slice_drop] does. *)
Lemma idx_drop {E A} (l : list A) i x :
  @idx E A l i = Ok x -> drop (Z.to_nat i) l = x :: drop (Z.to_nat (i + 1)) l.
Proof.
  unfold idx. intros H. run H. replace (Z.to_nat (i + 1)) with (S (Z.to_nat i)) by lia.
  now apply drop_S.
Qed.

(** The same with the decomposition as an equation, for large literals. *)
Lemma idx_at {E A} (l pre : list A) x post i :
  l = pre ++ x :: post -> i = len pre -> @idx E A l i = Ok x.
Proof. intros ->. apply idx_app. Qed.

Lemma slice_ok {E A} (l : list A) a b :
  0 <= a <= b -> b <= len l ->
  @slice E A l a b = Ok (take (Z.to_nat (b - a)) (drop (Z.to_nat a) l)).
Proof.
  intros Ha Hb. unfold slice.
  destruct (Z.leb_spec 0 a), (Z.leb_spec a b), (Z.leb_spec b (len l));
    simpl; try lia; reflexivity.
Qed.

Lemma slice_inv {E A} (l : list A) a b v :
  @slice E A l a b = Ok v ->
  0 <= a <= b /\ b <= len l /\ v = take (Z.to_nat (b - a)) (drop (Z.to_nat a) l).
Proof. unfold slice; intros H; run H; repeat split; lia. Qed.

Lemma slice_len {E A} (l : list A) a b v :
  @slice E A l a b = Ok v -> len v = b - a.
Proof.
  intros (? & ? & ->)%slice_inv. apply len_take.
  rewrite len_drop; lia.
Qed.

(** Consecutive slices take a list apart from the front. *)
Lemma slice_drop {E A} (l : list A) a b v :
  @slice E A l a b = Ok v ->
  drop (Z.to_nat a) l = v ++ drop (Z.to_nat b) l.
Proof.
  intros (Ha & Hb & ->)%slice_inv.
  rewrite <- (take_drop (Z.to_nat (b - a)) (drop (Z.to_nat a) l)) at 1.
  rewrite drop_drop. do 2 f_equal. lia.
Qed.

(** A slice that lies exactly over the middle part of a concatenation. *)
Lemma slice_app {E A} (pre mid post : list A) a b :
  a = len pre -> b = a + len mid ->
  @slice E A (pre ++ mid ++ post) a b = Ok mid.
Proof.
  intros -> ->. pose proof (len_nonneg pre). pose proof (len_nonneg mid).
  pose proof (len_nonneg post).
  rewrite slice_ok by (rewrite ?len_app; lia).
  f_equal. unfold len.
  replace (Z.to_nat (Z.of_nat (length pre) + Z.of_nat (length mid)
                     - Z.of_nat (length pre))) with (length mid) by lia.
  rewrite Nat2Z.id, drop_app_length, take_app_length. reflexivity.
Qed.

Lemma slice_at {E A} (l pre mid post : list A) a b :
  l = pre ++ mid ++ post -> a = len pre -> b = a + len mid ->
  @slice E A l a b = Ok mid.
Proof. intros ->. apply slice_app. Qed.

Lemma slice_app_end {E A} (pre mid : list A) a b :
  a = len pre -> b = a + len mid -> @slice E A (pre ++ mid) a b = Ok mid.
Proof.
  intros Ha Hb. rewrite <- (app_nil_r mid) at 1. apply slice_app; assumption.
Qed.

Lemma slice_not_err {E A} (l : list A) a b e : @slice E A l a b <> Err e.
Proof. unfold slice. case_goal; discriminate. Qed.

Lemma slice_panic {E A} (l : list A) a b :
  @slice E A l a b = Panic -> ~ (0 <= a <= b /\ b <= len l).
Proof. intros H [? ?]. rewrite slice_ok in H by assumption. discriminate. Qed.

Lemma idx_not_err {E A} (l : list A) i e : @idx E A l i <> Err e.
Proof. unfold idx. repeat case_goal; discriminate. Qed.

Lemma idx_panic {E A} (l : list A) i : @idx E A l i = Panic -> ~ (0 <= i < len l).
Proof. intros H Hi. destruct (@idx_ok E A l i Hi) as (x & Hx & _). congruence. Qed.

(** Run the next slice or index of the goal; the side condition that it is in
    range is left to [lia]. *)
Ltac mem_case :=
  match goal with
  | |- context [@slice ?E ?A ?l ?a ?b] =>
      let v := fresh "v" in let H := fresh "Hsl" in
      destruct (@slice E A l a b) as [v|v|] eqn:H;
      [ | destruct (slice_not_err _ _ _ _ H)
        | exfalso; apply slice_panic in H; apply H; lia ]
  | |- context [@idx ?E ?A ?l ?i] =>
      let v := fresh "v" in let H := fresh "Hix" in
      destruct (@idx E A l i) as [v|v|] eqn:H;
      [ | destruct (idx_not_err _ _ _ H)
        | exfalso; apply idx_panic in H; apply H; lia ]
  end.

(** Walking along a concatenation to the part an index or a slice falls on. *)
Lemma slice_skip {E A} (x l : list A) a b :
  len x <= a <= b -> @slice E A (x ++ l) a b = slice l (a - len x) (b - len x).
Proof.
  pose proof (len_nonneg x). intros Hx. unfold slice. rewrite len_app.
  replace (b - len x - (a - len x)) with (b - a) by lia.
  replace (drop (Z.to_nat a) (x ++ l)) with (drop (Z.to_nat (a - len x)) l).
  - destruct (Z.leb_spec 0 a), (Z.leb_spec 0 (a - len x)), (Z.leb_spec a b), (Z.leb_spec (a - len x) (b - len x)),
      (Z.leb_spec b (len x + len l)), (Z.leb_spec (b - len x) (len l)); cbn; try lia; reflexivity.
  - rewrite drop_app_ge by (unfold len in *; lia). f_equal. unfold len. lia.
Qed.

Lemma slice_here {E A} (x l : list A) a b : a = 0 -> b = len x -> @slice E A (x ++ l) a b = Ok x.
Proof. intros -> ->. exact (@slice_app E A [] x l 0 (len x) eq_refl eq_refl). Qed.

Lemma slice_last {E A} (x : list A) a b : a = 0 -> b = len x -> @slice E A x a b = Ok x.
Proof. intros Ha Hb. rewrite <- (app_nil_r x) at 1. now apply slice_here. Qed.

Lemma idx_skip {E A} (x l : list A) i : len x <= i -> @idx E A (x ++ l) i = idx l (i - len x).
Proof.
  pose proof (len_nonneg x). intros Hi. unfold idx.
  destruct (Z.leb_spec 0 i), (Z.leb_spec 0 (i - len x)); try lia.
  rewrite lookup_app_r by (unfold len in *; lia).
  replace (Z.to_nat (i - len x)) with (Z.to_nat i - length x)%nat by (unfold len; lia). reflexivity.
Qed.

Lemma idx_here {E A} (x : A) l i : i = 0 -> @idx E A ([x] ++ l) i = Ok x.
Proof. now intros ->. Qed.

(** Run the next index or slice of a decoder on a concatenation whose part
    lengths are known ([Hs], in the form [len x = n]). *)
Ltac seek_lia := len_simpl; lia.
Ltac seek :=
  repeat first
    [ rewrite slice_here by seek_lia | rewrite slice_last by seek_lia
    | rewrite idx_here by seek_lia
    | rewrite slice_skip by seek_lia | rewrite idx_skip by seek_lia ].

(** ** Bytes *)

Lemma bytes_ok_app l k : bytes_ok (l ++ k) <-> bytes_ok l /\ bytes_ok k.
Proof. apply Forall_app. Qed.

Lemma bytes_ok_cons x l : bytes_ok (x :: l) <-> uN 8 x /\ bytes_ok l.
Proof. apply Forall_cons. Qed.

Lemma bytes_ok_nil : bytes_ok [].
Proof. constructor. Qed.

#[export] Hint Resolve bytes_ok_nil : nimmesh.

(** The byte range decided, for concrete inputs. *)
Definition bytes_okb (l : bytes) : bool := forallb (fun b => (0 <=? b) && (b <? 256)) l.

Lemma bytes_okb_ok l : bytes_okb l = true -> bytes_ok l.
Proof.
  unfold bytes_okb, bytes_ok. rewrite forallb_forall, Forall_forall.
  intros H x Hx. apply list_elem_of_In in Hx. specialize (H x Hx). bool_prop.
  unfold uN. lia.
Qed.

(** Byte-range goals on concatenations and literals. *)
Ltac bytes_tac :=
  rewrite ?bytes_ok_app, ?bytes_ok_cons; split_and!; auto with nimmesh.

Lemma bytes_ok_take n l : bytes_ok l -> bytes_ok (take n l).
Proof. apply Forall_take. Qed.

Lemma bytes_ok_drop n l : bytes_ok l -> bytes_ok (drop n l).
Proof. apply Forall_drop. Qed.

Lemma idx_byte {E} l i x : bytes_ok l -> @idx E _ l i = Ok x -> uN 8 x.
Proof. unfold idx. intros Hl H. run H. eapply Forall_lookup_1; eassumption. Qed.

Lemma bytes_ok_slice {E} l a b v :
  bytes_ok l -> @slice E _ l a b = Ok v -> bytes_ok v.
Proof.
  intros Hl (_ & _ & ->)%slice_inv. now apply bytes_ok_take, bytes_ok_drop.
Qed.

Lemma length_be_bytes n v : length (be_bytes n v) = n.
Proof. induction n; simpl; auto. Qed.

Lemma len_be_bytes n v : len (be_bytes n v) = Z.of_nat n.
Proof. unfold len; now rewrite length_be_bytes. Qed.

#[export] Hint Rewrite len_be_bytes : len.

Lemma be_bytes_ok n v : bytes_ok (be_bytes n v).
Proof.
  induction n; simpl; constructor; [|assumption].
  unfold uN. pose proof (Z.mod_pos_bound (v / 256 ^ Z.of_nat n) 256). lia.
Qed.

#[export] Hint Resolve be_bytes_ok : nimmesh.

Lemma from_be_acc l acc :
  foldl (fun a b => a * 256 + b) acc l
  = acc * 256 ^ len l + foldl (fun a b => a * 256 + b) 0 l.
Proof.
  revert acc; induction l as [|b l IH]; intros acc.
  - rewrite len_nil; simpl; lia.
  - simpl. rewrite IH, (IH (0 * 256 + b)), len_cons.
    rewrite Z.pow_add_r by (pose proof (len_nonneg l); lia). lia.
Qed.

Lemma from_be_cons b l : from_be (b :: l) = b * 256 ^ len l + from_be l.
Proof. unfold from_be; simpl. rewrite from_be_acc. lia. Qed.

Lemma from_be_be_bytes_mod n v :
  from_be (be_bytes n v) = v mod 256 ^ Z.of_nat n.
Proof.
  induction n as [|n IH].
  - simpl. unfold from_be; simpl. now rewrite Z.mod_1_r.
  - cbn [be_bytes]. rewrite from_be_cons, IH, len_be_bytes.
    replace (Z.of_nat (S n)) with (Z.of_nat n + 1) by lia.
    rewrite Z.pow_add_r by lia. change (256 ^ 1) with 256.
    rewrite Z.rem_mul_r by lia. lia.
Qed.

(** The round trip of [to_be_bytes] and [from_be_bytes]. *)
Lemma from_be_be_bytes n v :
  0 <= v < 256 ^ Z.of_nat n -> from_be (be_bytes n v) = v.
Proof. intros H. rewrite from_be_be_bytes_mod. now apply Z.mod_small. Qed.

Lemma from_be_bound l : bytes_ok l -> 0 <= from_be l < 256 ^ len l.
Proof.
  induction 1 as [|b l Hb Hl IH].
  - unfold from_be, len; simpl; lia.
  - rewrite from_be_cons, len_cons, Z.pow_add_r by (pose proof (len_nonneg l); lia).
    unfold uN in Hb. nia.
Qed.

Lemma from_be_uN n w (l : bytes) : bytes_ok l -> len l = n -> w = 8 * n -> 0 <= n -> uN w (from_be l).
Proof.
  intros Hb Hl -> Hn. pose proof (from_be_bound l Hb) as H. rewrite Hl in H. unfold uN.
  rewrite Z.pow_mul_r by lia. exact H.
Qed.

Lemma be_bytes_from_be l : bytes_ok l -> be_bytes (length l) (from_be l) = l.
Proof.
  induction 1 as [|b l Hb Hl IH]; [reflexivity|].
  simpl length. cbn [be_bytes].
  pose proof (from_be_bound l Hl) as Hbound. unfold len in Hbound.
  assert (Hrest : forall n k, (n <= length l)%nat ->
            be_bytes n (k * 256 ^ len l + from_be l) = be_bytes n (from_be l)).
  { intros n k. induction n as [|n IHn]; intros Hn; [reflexivity|].
    cbn [be_bytes]. rewrite IHn by lia. f_equal.
    unfold len. replace (Z.of_nat (length l))
      with ((Z.of_nat (length l) - Z.of_nat n - 1) + 1 + Z.of_nat n) by lia.
    rewrite !Z.pow_add_r by lia. change (256 ^ 1) with 256.
    rewrite !Z.mul_assoc, Z.div_add_l by lia.
    rewrite (Z.add_comm (_ * 256)), Z_mod_plus_full. reflexivity. }
  rewrite from_be_cons, Hrest, IH by lia. unfold len. f_equal.
  rewrite Z.div_add_l by lia. rewrite Z.div_small by lia.
  rewrite Z.add_0_r. now apply Z.mod_small.
Qed.

Lemma be_bytes_inj n v w :
  0 <= v < 256 ^ Z.of_nat n -> 0 <= w < 256 ^ Z.of_nat n ->
  be_bytes n v = be_bytes n w -> v = w.
Proof.
  intros Hv Hw H.
  rewrite <- (from_be_be_bytes n v Hv), <- (from_be_be_bytes n w Hw). now rewrite H.
Qed.

(** Take the first part off both sides of an equation of concatenations. *)
Ltac chop E H :=
  apply app_inj_1 in E as [H E]; [|rewrite ?length_be_bytes; unfold len in *; (reflexivity || lia)].

Lemma try_array_length n v : length v = n -> try_array n v = Some v.
Proof. intros <-. unfold try_array. now rewrite Nat.eqb_refl. Qed.

Lemma try_array_inv n v w : try_array n v = Some w -> w = v /\ length v = n.
Proof.
  unfold try_array. destruct (Nat.eqb_spec (length v) n); intros H; now simplify_eq.
Qed.

(** ** Machine-integer helpers *)

Lemma checked_add_small w a b : a + b < 2 ^ w -> checked_add w a b = Some (a + b).
Proof. intros H. unfold checked_add. now rewrite (proj2 (Z.ltb_lt _ _) H). Qed.

Lemma checked_add_inv w a b c : checked_add w a b = Some c -> c = a + b /\ c < 2 ^ w.
Proof. unfold checked_add. intros H. run H. lia. Qed.

Lemma uN_iff w v : uN w v <-> 0 <= v < 2 ^ w.
Proof. reflexivity. Qed.

(** A byte list equality test, [==] on arrays and vectors. *)
Definition bytes_eqb (a b : bytes) : bool := bool_decide (a = b).

(** ** Bits: shifting in and masking out *)

Lemma lor_shift_low a r p : 0 <= p -> 0 <= r < 2 ^ p -> Z.lor (a * 2 ^ p) r = a * 2 ^ p + r.
Proof.
  intros Hp Hr. rewrite <- Z.shiftl_mul_pow2 by exact Hp. symmetry.
  assert (H0 : Z.land (Z.shiftl a p) r = 0).
  { apply Z.bits_inj'. intros k Hk. rewrite Z.land_spec, Z.bits_0.
    destruct (Z.lt_ge_cases k p) as [Hlt|Hge].
    - now rewrite Z.shiftl_spec_low.
    - rewrite <- (Z.mod_small r (2 ^ p)) by exact Hr. rewrite Z.mod_pow2_bits_high by lia.
      apply andb_false_r. }
  rewrite Z.add_nocarry_lxor by exact H0. now apply Z.lxor_lor.
Qed.

(** [(x << k) | d] on a [w]-bit integer, with [d] below [2^k]: the low bits of
    [x] move up and [d] comes in below them. *)
Lemma shift_in w x k d :
  0 <= k <= w -> 0 <= d < 2 ^ k ->
  Z.lor (wrapN w (Z.shiftl x k)) d = (x mod 2 ^ (w - k)) * 2 ^ k + d.
Proof.
  intros Hk Hd. unfold wrapN. rewrite Z.shiftl_mul_pow2 by lia.
  replace (2 ^ w) with (2 ^ (w - k) * 2 ^ k) by (rewrite <- Z.pow_add_r by lia; f_equal; lia).
  rewrite Z.mul_mod_distr_r by lia. apply lor_shift_low; lia.
Qed.

(** What a shift-in leaves in the low [n + k] bits. *)
Lemma shift_in_mod w x k d n :
  0 <= n -> 0 <= k -> n + k <= w -> 0 <= d < 2 ^ k ->
  Z.lor (wrapN w (Z.shiftl x k)) d mod 2 ^ (n + k) = (x mod 2 ^ n) * 2 ^ k + d.
Proof.
  intros Hn Hk Hw Hd. rewrite shift_in by lia.
  rewrite Z.pow_add_r by lia. rewrite (Z.mul_comm (2 ^ n)), Z.rem_mul_r by lia.
  rewrite (Z.add_comm (_ * 2 ^ k)), Z_mod_plus_full, (Z.mod_small d) by lia.
  rewrite Z.div_add, (Z.div_small d), Z.add_0_l by lia.
  replace (w - k) with (n + (w - k - n)) by lia. rewrite (Z.pow_add_r 2 n) by lia.
  rewrite Z.rem_mul_r by lia. rewrite (Z.mul_comm (2 ^ n)), Z_mod_plus_full, Z.mod_mod by lia. lia.
Qed.

(** Taking the top [k] of the low [n + k] bits out. *)
Lemma mask_out x n k :
  0 <= n -> 0 <= k ->
  x mod 2 ^ (n + k) = Z.land (Z.shiftr x n) (Z.ones k) * 2 ^ n + x mod 2 ^ n.
Proof.
  intros Hn Hk. rewrite Z.land_ones by lia. rewrite Z.shiftr_div_pow2 by lia.
  rewrite Z.pow_add_r, Z.rem_mul_r by lia. lia.
Qed.
