(* ===== verification/Packet.v ===== *)
(** * Packet: the wire packet of the mesh ([packet.rs])

    The message types with their wire bytes, the flag byte and the packet
    record.  A fixed-size array [[u8; N]] is a list of bytes; [packet_ok] says
    that every field is in the range of its Rust type. *)

From stdpp Require Import base list.
From Stdlib Require Import ZArith Lia.
From S2P Require Import Prelude.
Open Scope Z_scope.

Definition VERSION : Z := 1.
Definition HEADER_LEN : Z := 14.
Definition PEER_ID_LEN : Z := 8.
Definition SIGNATURE_LEN : Z := 64.
Definition DEFAULT_TTL : Z := 7.
Definition BROADCAST_RECIPIENT : bytes := replicate 8 255.

Definition FLAG_HAS_RECIPIENT : Z := 1.
Definition FLAG_HAS_SIGNATURE : Z := 2.
Definition FLAG_IS_COMPRESSED : Z := 4.
Definition FLAG_HAS_ROUTE : Z := 8.
Definition FLAG_IS_RSR : Z := 16.
Definition DERIVED_FLAG_MASK : Z := Z.lor FLAG_HAS_RECIPIENT FLAG_HAS_SIGNATURE.

Inductive MessageType : Type :=
| MtFragment
| MtRequestSync
| MtNoiseEncrypted
| MtNimiqTx
| MtNimiqTxReceipt
| MtNimiqHeadBeacon
| MtNimiqBalanceQuery
| MtNimiqBalanceResponse
| MtNimiqBalanceProof
| MtSwapPropose
| MtSwapAccept
| MtNimiqTxHistoryQuery
| MtNimiqTxHistoryResponse
| MtSwapFundingProof
| MtSwapPreimageReveal
| MtSwapAbort
| MtSwapIntent
| MtChat.

#[export] Instance MessageType_eq_dec : EqDecision MessageType.
Proof. solve_decision. Defined.

Definition mt_to_u8 (t : MessageType) : Z :=
  match t with
  | MtFragment => 0x20
  | MtRequestSync => 0x21
  | MtNoiseEncrypted => 0x11
  | MtNimiqTx => 0x30
  | MtNimiqTxReceipt => 0x31
  | MtNimiqHeadBeacon => 0x32
  | MtNimiqBalanceQuery => 0x33
  | MtNimiqBalanceResponse => 0x34
  | MtNimiqBalanceProof => 0x37
  | MtSwapPropose => 0x40
  | MtSwapAccept => 0x41
  | MtNimiqTxHistoryQuery => 0x35
  | MtNimiqTxHistoryResponse => 0x36
  | MtSwapFundingProof => 0x42
  | MtSwapPreimageReveal => 0x43
  | MtSwapAbort => 0x44
  | MtSwapIntent => 0x45
  | MtChat => 0x50
  end.

Definition mt_from_u8 (b : Z) : option MessageType :=
  match b with
  | 0x11 => Some MtNoiseEncrypted
  | 0x20 => Some MtFragment
  | 0x21 => Some MtRequestSync
  | 0x30 => Some MtNimiqTx
  | 0x31 => Some MtNimiqTxReceipt
  | 0x32 => Some MtNimiqHeadBeacon
  | 0x33 => Some MtNimiqBalanceQuery
  | 0x35 => Some MtNimiqTxHistoryQuery
  | 0x36 => Some MtNimiqTxHistoryResponse
  | 0x34 => Some MtNimiqBalanceResponse
  | 0x37 => Some MtNimiqBalanceProof
  | 0x40 => Some MtSwapPropose
  | 0x41 => Some MtSwapAccept
  | 0x42 => Some MtSwapFundingProof
  | 0x43 => Some MtSwapPreimageReveal
  | 0x44 => Some MtSwapAbort
  | 0x45 => Some MtSwapIntent
  | 0x50 => Some MtChat
  | _ => None
  end.

Record PacketFlags : Type := mkFlags {
  is_compressed : bool;
  has_route : bool;
  is_rsr : bool
}.

#[export] Instance PacketFlags_eq_dec : EqDecision PacketFlags.
Proof. solve_decision. Defined.

Definition flags_default : PacketFlags := mkFlags false false false.

Definition to_wire (f : PacketFlags) (has_recipient has_signature : bool) : Z :=
  let byte := 0 in
  let byte := if has_recipient then Z.lor byte FLAG_HAS_RECIPIENT else byte in
  let byte := if has_signature then Z.lor byte FLAG_HAS_SIGNATURE else byte in
  let byte := if is_compressed f then Z.lor byte FLAG_IS_COMPRESSED else byte in
  let byte := if has_route f then Z.lor byte FLAG_HAS_ROUTE else byte in
  let byte := if is_rsr f then Z.lor byte FLAG_IS_RSR else byte in
  byte.

Definition from_wire (byte : Z) : PacketFlags :=
  mkFlags (negb (Z.land byte FLAG_IS_COMPRESSED =? 0))
          (negb (Z.land byte FLAG_HAS_ROUTE =? 0))
          (negb (Z.land byte FLAG_IS_RSR =? 0)).

(** [!known] on a [u8] is [255 - known]. *)
Definition wire_has_unknown_bits (byte : Z) : bool :=
  let known := Z.lor (Z.lor (Z.lor DERIVED_FLAG_MASK FLAG_IS_COMPRESSED)
                            FLAG_HAS_ROUTE) FLAG_IS_RSR in
  negb (Z.land byte (Z.lxor 255 known) =? 0).

Record Packet : Type := mkPacket {
  version : Z;
  msg_type : MessageType;
  ttl : Z;
  timestamp_ms : Z;
  flags : PacketFlags;
  sender_id : bytes;
  recipient_id : option bytes;
  payload : bytes;
  signature : option bytes
}.

#[export] Instance Packet_eq_dec : EqDecision Packet.
Proof. solve_decision. Defined.

Definition packet_new (t : MessageType) (sender : bytes) (p : bytes) : Packet :=
  {| version := VERSION; msg_type := t; ttl := DEFAULT_TTL; timestamp_ms := 0;
     flags := flags_default; sender_id := sender; recipient_id := None;
     payload := p; signature := None |}.

Definition has_recipient (p : Packet) : bool :=
  match recipient_id p with Some _ => true | None => false end.

Definition has_signature (p : Packet) : bool :=
  match signature p with Some _ => true | None => false end.

Definition unpadded_len (p : Packet) : Z :=
  HEADER_LEN + PEER_ID_LEN
  + (if has_recipient p then PEER_ID_LEN else 0)
  + len (payload p)
  + (if has_signature p then SIGNATURE_LEN else 0).

(** ** Well-formedness: every field in the range of its Rust type *)

Definition array_ok (n : Z) (b : bytes) : Prop := len b = n /\ bytes_ok b.

Record packet_ok (p : Packet) : Prop := {
  pk_version : uN 8 (version p);
  pk_ttl : uN 8 (ttl p);
  pk_ts : uN 64 (timestamp_ms p);
  pk_sender : array_ok 8 (sender_id p);
  pk_recipient : forall r, recipient_id p = Some r -> array_ok 8 r;
  pk_payload : bytes_ok (payload p);
  pk_signature : forall s, signature p = Some s -> array_ok 64 s
}.

(** ** Lemmas *)

Lemma mt_from_to t : mt_from_u8 (mt_to_u8 t) = Some t.
Proof. destruct t; reflexivity. Qed.

Lemma mt_to_u8_range t : uN 8 (mt_to_u8 t).
Proof. destruct t; unfold uN; simpl; lia. Qed.

(** The decoder accepts a type byte only if it is the byte of that type. *)
Lemma mt_from_u8_inv b t : mt_from_u8 b = Some t -> mt_to_u8 t = b.
Proof.
  unfold mt_from_u8. intros H.
  repeat (match type of H with
          | context [match ?x with _ => _ end] => is_var x; destruct x; try discriminate H
          end); injection H as <-; reflexivity.
Qed.

Lemma to_wire_range f r s : uN 8 (to_wire f r s).
Proof. destruct f as [[] [] []], r, s; unfold uN; vm_compute; split; congruence. Qed.

(** The structure-derived bits and the stored bits both survive the wire. *)
Lemma to_wire_bits f r s :
  from_wire (to_wire f r s) = f
  /\ wire_has_unknown_bits (to_wire f r s) = false
  /\ negb (Z.land (to_wire f r s) FLAG_HAS_RECIPIENT =? 0) = r
  /\ negb (Z.land (to_wire f r s) FLAG_HAS_SIGNATURE =? 0) = s.
Proof. destruct f as [[] [] []], r, s; vm_compute; auto. Qed.

#[export] Hint Resolve mt_to_u8_range to_wire_range : nimmesh.

Lemma unpadded_len_bounds p : 22 + len (payload p) <= unpadded_len p <= 94 + len (payload p).
Proof.
  unfold unpadded_len, HEADER_LEN, PEER_ID_LEN, SIGNATURE_LEN.
  destruct (has_recipient p), (has_signature p); lia.
Qed.

(** Conversely a byte with no unknown bit is the one [to_wire] assembles. *)
Lemma wire_bits_inv f :
  uN 8 f -> wire_has_unknown_bits f = false ->
  to_wire (from_wire f) (negb (Z.land f FLAG_HAS_RECIPIENT =? 0))
                        (negb (Z.land f FLAG_HAS_SIGNATURE =? 0)) = f.
Proof.
  intros Hf Hu.
  assert (Hall : forallb (fun f => wire_has_unknown_bits f ||
    (to_wire (from_wire f) (negb (Z.land f FLAG_HAS_RECIPIENT =? 0))
                           (negb (Z.land f FLAG_HAS_SIGNATURE =? 0)) =? f))
    (map Z.of_nat (seq 0 256)) = true) by (vm_compute; reflexivity).
  rewrite forallb_forall in Hall. specialize (Hall f). rewrite Hu in Hall.
  apply Z.eqb_eq, Hall. apply in_map_iff. exists (Z.to_nat f).
  unfold uN in Hf. rewrite in_seq. lia.
Qed.
