(* ===== verification/Codec.v ===== *)
(** * Codec: the padded binary codec of packets ([codec.rs]) *)

From stdpp Require Import base list.
From Stdlib Require Import ZArith Lia.
From S2P Require Import Prelude Packet.
Open Scope Z_scope.

Definition BLOCK_SIZES : list Z := [256; 512; 1024; 2048].
Definition MAX_PAYLOAD_LEN : Z := 65535.

Inductive CodecError : Type :=
| PayloadTooLarge (n : Z)
| Truncated (needed got : Z)
| UnsupportedVersion (found : Z)
| UnknownMessageType (found : Z)
| UnknownFlagBits (found : Z).

Definition optimal_block_size (n : Z) : option Z :=
  List.find (fun block => n <=? block) BLOCK_SIZES.

Definition apply_padding (buf : bytes) : bytes :=
  match optimal_block_size (len buf) with
  | None => buf
  | Some target =>
      let pad_needed := target - len buf in
      if (pad_needed =? 0) || (pad_needed >? 255) then buf
      else
        let pad_byte := wrapN 8 pad_needed in
        buf ++ replicate (Z.to_nat (target - len buf)) pad_byte
  end.

(** The structured bytes of a packet, before padding. *)
Definition encode_unpadded (p : Packet) : bytes :=
  let flags_byte := to_wire (flags p) (has_recipient p) (has_signature p) in
  [version p] ++ [mt_to_u8 (msg_type p)] ++ [ttl p]
  ++ be_bytes 8 (timestamp_ms p) ++ [flags_byte]
  ++ be_bytes 2 (wrapN 16 (len (payload p)))
  ++ sender_id p
  ++ (match recipient_id p with Some r => r | None => [] end)
  ++ payload p
  ++ (match signature p with Some s => s | None => [] end).

Definition encode (p : Packet) : res CodecError bytes :=
  let payload_len := len (payload p) in
  if payload_len >? MAX_PAYLOAD_LEN then Err (PayloadTooLarge payload_len)
  else Ok (apply_padding (encode_unpadded p)).

Definition USIZE_MAX : Z := 2 ^ 64 - 1.

Definition decode (b : bytes) : res CodecError Packet :=
  let min_len := HEADER_LEN + PEER_ID_LEN in
  if len b <? min_len then Err (Truncated min_len (len b)) else
  let? v := idx b 0 in
  if negb (v =? VERSION) then Err (UnsupportedVersion v) else
  let? ty := idx b 1 in
  let? msg_type := ok_or (mt_from_u8 ty) (UnknownMessageType ty) in
  let? ttl := idx b 2 in
  let? ts := slice b 3 11 in
  let timestamp_ms := from_be ts in
  let? flags_byte := idx b 11 in
  if wire_has_unknown_bits flags_byte then Err (UnknownFlagBits flags_byte) else
  let flags := from_wire flags_byte in
  let has_recipient := negb (Z.land flags_byte FLAG_HAS_RECIPIENT =? 0) in
  let has_signature := negb (Z.land flags_byte FLAG_HAS_SIGNATURE =? 0) in
  let? b12 := idx b 12 in
  let? b13 := idx b 13 in
  let payload_len := from_be [b12; b13] in
  let? needed :=
    ok_or
      (n ← checked_add 64 HEADER_LEN PEER_ID_LEN;
       n ← checked_add 64 n (if has_recipient then PEER_ID_LEN else 0);
       n ← checked_add 64 n payload_len;
       checked_add 64 n (if has_signature then SIGNATURE_LEN else 0))
      (Truncated USIZE_MAX (len b)) in
  if len b <? needed then Err (Truncated needed (len b)) else
  let off := HEADER_LEN in
  let? sender_id := slice b off (off + PEER_ID_LEN) in
  let off := off + PEER_ID_LEN in
  let? (recipient_id, off) :=
    if has_recipient then
      let? r := slice b off (off + PEER_ID_LEN) in Ok (Some r, off + PEER_ID_LEN)
    else Ok (None, off) in
  let? payload := slice b off (off + payload_len) in
  let off := off + payload_len in
  let? signature :=
    if has_signature then
      let? s := slice b off (off + SIGNATURE_LEN) in Ok (Some s)
    else Ok None in
  Ok {| version := v; msg_type := msg_type; ttl := ttl;
        timestamp_ms := timestamp_ms; flags := flags; sender_id := sender_id;
        recipient_id := recipient_id; payload := payload; signature := signature |}.

(** ** Lemmas on padding *)

Lemma optimal_block_size_spec n t :
  optimal_block_size n = Some t ->
  n <= t /\ In t BLOCK_SIZES /\ (forall t', In t' BLOCK_SIZES -> n <= t' -> t <= t').
Proof.
  unfold optimal_block_size, BLOCK_SIZES; simpl. intros H.
  repeat case_hyp H; simplify_eq; bool_prop;
    (split; [lia|split; [tauto|]]);
    intros t' Ht' Hn; repeat destruct Ht' as [<-|Ht']; try lia; destruct Ht'.
Qed.

Lemma apply_padding_prefix buf : exists pad, apply_padding buf = buf ++ pad.
Proof.
  unfold apply_padding. repeat case_goal; eauto; exists []; now rewrite app_nil_r.
Qed.

(** ** The decoder on structured bytes *)

Lemma idx_nth {E A} (l : list A) i x :
  l !! i = Some x -> @idx E A l (Z.of_nat i) = Ok x.
Proof. intros H. apply idx_Some; [lia|]. now rewrite Nat2Z.id. Qed.

Lemma be_bytes_2 v : be_bytes 2 v = [(v / 256) mod 256; v mod 256].
Proof. cbn [be_bytes]. change (256 ^ Z.of_nat 1) with 256.
  change (256 ^ Z.of_nat 0) with 1. now rewrite Z.div_1_r. Qed.

Lemma encode_unpadded_len p :
  packet_ok p -> len (encode_unpadded p) = unpadded_len p.
Proof.
  intros [_ _ _ [Hs _] Hr _ Hg]. unfold encode_unpadded, unpadded_len.
  len_simpl. rewrite Hs.
  unfold has_recipient, has_signature, HEADER_LEN, PEER_ID_LEN, SIGNATURE_LEN.
  destruct (recipient_id p) as [r|] eqn:Er; [destruct (Hr r eq_refl) as [Hr' _]; rewrite Hr'|];
  (destruct (signature p) as [s|] eqn:Es; [destruct (Hg s eq_refl) as [Hs' _]; rewrite Hs'|]);
  len_simpl; lia.
Qed.

Lemma encode_unpadded_bytes p : packet_ok p -> bytes_ok (encode_unpadded p).
Proof.
  intros [? ? ? [? ?] Hr ? Hg]. unfold encode_unpadded.
  rewrite !bytes_ok_app, !bytes_ok_cons.
  split_and!; auto with nimmesh.
  - destruct (recipient_id p) as [r|]; [exact (proj2 (Hr r eq_refl)) | auto with nimmesh].
  - destruct (signature p) as [s|]; [exact (proj2 (Hg s eq_refl)) | auto with nimmesh].
Qed.

Definition opt_bytes (o : option bytes) : bytes :=
  match o with Some r => r | None => [] end.

(** The frame as one list, header fields first. *)
Lemma encode_unpadded_shape p pad :
  encode_unpadded p ++ pad =
  version p :: mt_to_u8 (msg_type p) :: ttl p :: be_bytes 8 (timestamp_ms p)
  ++ to_wire (flags p) (has_recipient p) (has_signature p)
  :: (wrapN 16 (len (payload p)) / 256) mod 256 :: wrapN 16 (len (payload p)) mod 256
  :: sender_id p ++ opt_bytes (recipient_id p) ++ payload p
     ++ opt_bytes (signature p) ++ pad.
Proof. unfold encode_unpadded, opt_bytes. now rewrite be_bytes_2, <- !app_assoc. Qed.

(** The four variable parts of a frame, by their offsets. *)
Lemma frame_slices {E} (hd snd r pl s pad : bytes) o :
  o = len hd + len snd ->
  @slice E _ (hd ++ snd ++ r ++ pl ++ s ++ pad) (len hd) o = Ok snd
  /\ @slice E _ (hd ++ snd ++ r ++ pl ++ s ++ pad) o (o + len r) = Ok r
  /\ @slice E _ (hd ++ snd ++ r ++ pl ++ s ++ pad) (o + len r) (o + len r + len pl) = Ok pl
  /\ @slice E _ (hd ++ snd ++ r ++ pl ++ s ++ pad)
       (o + len r + len pl) (o + len r + len pl + len s) = Ok s.
Proof.
  intros ->. split_and!.
  - apply slice_app; lia.
  - apply (slice_at _ (hd ++ snd) r (pl ++ s ++ pad)); len_simpl; try lia. now rewrite <- app_assoc.
  - apply (slice_at _ (hd ++ snd ++ r) pl (s ++ pad)); len_simpl; try lia. now rewrite <- !app_assoc.
  - apply (slice_at _ (hd ++ snd ++ r ++ pl) s pad); len_simpl; try lia. now rewrite <- !app_assoc.
Qed.

(** Decoding structured bytes followed by any padding returns the packet. *)
Lemma decode_encode_unpadded p pad :
  packet_ok p -> version p = VERSION -> len (payload p) <= MAX_PAYLOAD_LEN ->
  decode (encode_unpadded p ++ pad) = Ok p.
Proof.
  intros Hok Hv Hpl.
  pose proof (encode_unpadded_len p Hok) as Hlen.
  pose proof (unpadded_len_bounds p) as Hlb.
  pose proof (len_nonneg (payload p)). pose proof (len_nonneg pad).
  destruct Hok as [_ _ Hts [Hs _] Hr _ Hg].
  pose proof (encode_unpadded_shape p pad) as Hb.
  destruct (to_wire_bits (flags p) (has_recipient p) (has_signature p))
    as (Hf & Hu & Hrb & Hsb).
  set (b := encode_unpadded p ++ pad) in *.
  assert (Hbl : len b = unpadded_len p + len pad) by (unfold b; now rewrite len_app, Hlen).
  clearbody b. clear Hlen.
  set (fb := to_wire (flags p) (has_recipient p) (has_signature p)) in *.
  clearbody fb. set (n := wrapN 16 (len (payload p))) in *.
  assert (Hn : from_be [(n / 256) mod 256; n mod 256] = len (payload p)).
  { rewrite <- be_bytes_2, from_be_be_bytes; unfold n, wrapN; unfold MAX_PAYLOAD_LEN in *;
      rewrite Z.mod_small; simpl; lia. }
  clearbody n. unfold decode. rewrite Hbl.
  unfold HEADER_LEN, PEER_ID_LEN, MAX_PAYLOAD_LEN in *.
  destruct (Z.ltb_spec (unpadded_len p + len pad) (14 + 8)); [lia|].
  rewrite (idx_at b [] _ _ 0 Hb) by reflexivity. rewrite Hv. simpl.
  rewrite Hv in Hb.
  rewrite (idx_at b [_] _ _ 1 Hb) by reflexivity. rewrite mt_from_to; simpl.
  rewrite (idx_at b [_; _] _ _ 2 Hb) by reflexivity.
  rewrite (slice_at b [_; _; _] _ _ 3 11 Hb) by reflexivity.
  rewrite (idx_at b ([_; _; _] ++ be_bytes 8 _) _ _ 11 Hb) by reflexivity.
  rewrite (idx_at b ([_; _; _] ++ be_bytes 8 _ ++ [_]) _ _ 12 Hb) by reflexivity.
  rewrite (idx_at b ([_; _; _] ++ be_bytes 8 _ ++ [_; _]) _ _ 13 Hb) by reflexivity.
  rewrite Hu, Hf, Hrb, Hsb, Hn, (from_be_be_bytes 8 _ Hts).
  change (b = ([VERSION; mt_to_u8 (msg_type p); ttl p] ++ be_bytes 8 (timestamp_ms p)
     ++ [fb; (n / 256) mod 256; n mod 256]) ++ sender_id p ++ opt_bytes (recipient_id p)
     ++ payload p ++ opt_bytes (signature p) ++ pad) in Hb.
  set (hd := [_; _; _] ++ _ ++ _) in Hb.
  assert (Hhd : len hd = 14) by reflexivity. clearbody hd.
  destruct (@frame_slices CodecError hd (sender_id p) (opt_bytes (recipient_id p)) (payload p)
              (opt_bytes (signature p)) pad (14 + 8)) as (H2 & H3 & H4 & H5); [lia|].
  rewrite <- Hb in H2, H3, H4, H5. rewrite Hhd in H2. clear Hb.
  rewrite H2. unfold unpadded_len, HEADER_LEN, PEER_ID_LEN, SIGNATURE_LEN in *.
  destruct p as [v ty tl ts fl snd rcp pl sg]; cbn -[Z.add Z.ltb Z.leb] in *. subst v.
  destruct rcp as [r|], sg as [s|]; cbn -[Z.add Z.ltb Z.leb] in *;
    try (destruct (Hr _ eq_refl) as [Hrl _]); try (destruct (Hg _ eq_refl) as [Hgl _]);
    rewrite ?Hrl, ?Hgl in *; change (@len Z []) with 0 in *; rewrite ?Z.add_0_r in *;
    repeat (rewrite checked_add_small by lia; cbn -[Z.add Z.ltb Z.leb]);
    rewrite ?Z.add_0_r in *;
    (match goal with |- context [?x <? ?y] => destruct (Z.ltb_spec x y); [lia|] end);
    rewrite ?H3, ?H4, ?H5; reflexivity.
Qed.

(** ** The decoder on arbitrary bytes *)

(** [decode] once the 14 header bytes are named. *)
Lemma decode_header_split (b : bytes) :
  14 <= len b -> exists b0 b1 b2 t0 t1 t2 t3 t4 t5 t6 t7 f l1 l2 rest,
    b = [b0; b1; b2; t0; t1; t2; t3; t4; t5; t6; t7; f; l1; l2] ++ rest.
Proof.
  intros H. do 14 (destruct b as [|? b]; [exfalso; revert H; unfold len; simpl; lia|]).
  do 15 eexists. reflexivity.
Qed.

(** The part of [decode] after the header, on the values the header gives. *)
Definition decode_tail (b : bytes) (hr hs : bool) (n : Z)
  : res CodecError (bytes * option bytes * bytes * option bytes) :=
  let? needed :=
    ok_or
      (n' ← checked_add 64 14 8;
       n' ← checked_add 64 n' (if hr then 8 else 0);
       n' ← checked_add 64 n' n;
       checked_add 64 n' (if hs then 64 else 0))
      (Truncated USIZE_MAX (len b)) in
  if len b <? needed then Err (Truncated needed (len b)) else
  let? sender := slice b 14 (14 + 8) in
  let? (rcp, off) :=
    if hr then let? r := slice b (14 + 8) (14 + 8 + 8) in Ok (Some r, 14 + 8 + 8)
    else Ok (None, 14 + 8) in
  let? pl := slice b off (off + n) in
  let? sg :=
    if hs then let? s := slice b (off + n) (off + n + 64) in Ok (Some s) else Ok None in
  Ok (sender, rcp, pl, sg).

Lemma decode_eq b0 b1 b2 t0 t1 t2 t3 t4 t5 t6 t7 f l1 l2 rest :
  let b := [b0; b1; b2; t0; t1; t2; t3; t4; t5; t6; t7; f; l1; l2] ++ rest in
  22 <= len b ->
  decode b =
  if negb (b0 =? VERSION) then Err (UnsupportedVersion b0) else
  let? mt := ok_or (mt_from_u8 b1) (UnknownMessageType b1) in
  if wire_has_unknown_bits f then Err (UnknownFlagBits f) else
  let? (x, sg) := decode_tail b (negb (Z.land f FLAG_HAS_RECIPIENT =? 0))
                 (negb (Z.land f FLAG_HAS_SIGNATURE =? 0)) (from_be [l1; l2]) in
  Ok (mkPacket b0 mt b2 (from_be [t0; t1; t2; t3; t4; t5; t6; t7]) (from_wire f)
        x.1.1 x.1.2 x.2 sg).
Proof.
  intros b Hl. unfold decode, decode_tail, HEADER_LEN, PEER_ID_LEN, SIGNATURE_LEN.
  destruct (Z.ltb_spec (len b) (14 + 8)) as [|_]; [lia|].
  rewrite (slice_at b [b0; b1; b2] [t0; t1; t2; t3; t4; t5; t6; t7]
             (f :: l1 :: l2 :: rest) 3 11 eq_refl) by reflexivity.
  change (@idx CodecError _ b 0) with (@Ok CodecError _ b0).
  change (@idx CodecError _ b 1) with (@Ok CodecError _ b1).
  change (@idx CodecError _ b 2) with (@Ok CodecError _ b2).
  change (@idx CodecError _ b 11) with (@Ok CodecError _ f).
  change (@idx CodecError _ b 12) with (@Ok CodecError _ l1).
  change (@idx CodecError _ b 13) with (@Ok CodecError _ l2).
  lazy beta iota.
  destruct (negb (b0 =? VERSION)), (mt_from_u8 b1), (wire_has_unknown_bits f); cbn [ok_or];
    try reflexivity.
  repeat (case_goal; try reflexivity); simplify_eq; reflexivity.
Qed.

Lemma decode_tail_spec b hr hs n :
  0 <= n <= MAX_PAYLOAD_LEN ->
  match decode_tail b hr hs n with
  | Panic => False
  | Err _ => True
  | Ok (sender, rcp, pl, sg) =>
      (exists pad, drop 14 b = sender ++ opt_bytes rcp ++ pl ++ opt_bytes sg ++ pad)
      /\ len sender = 8 /\ len pl = n
      /\ match rcp with Some r => hr = true /\ len r = 8 | None => hr = false end
      /\ match sg with Some s => hs = true /\ len s = 64 | None => hs = false end
  end.
Proof.
  intros Hn. unfold decode_tail, MAX_PAYLOAD_LEN in *.
  destruct hr, hs; repeat (rewrite checked_add_small by lia; cbn -[Z.add Z.ltb]);
    (match goal with |- context [?x <? ?y] => destruct (Z.ltb_spec x y); [exact I|] end);
    repeat mem_case;
    (split; [|split_and!; auto;
              match goal with H : slice _ _ _ = Ok ?v |- len ?v = _ =>
                apply slice_len in H; lia end]);
    repeat match goal with H : slice _ _ _ = Ok _ |- _ => apply slice_drop in H end;
    change (Z.to_nat 14) with 14%nat in *; eexists; simpl opt_bytes; simpl app;
    repeat match goal with H : drop _ ?l = _ |- context [drop _ ?l] => rewrite H end;
    reflexivity.
Qed.

Lemma from_be_2_bound l1 l2 : uN 8 l1 -> uN 8 l2 -> 0 <= from_be [l1; l2] <= MAX_PAYLOAD_LEN.
Proof. unfold uN, from_be, MAX_PAYLOAD_LEN; simpl. lia. Qed.

Lemma wrap_from_be_2 l1 l2 :
  uN 8 l1 -> uN 8 l2 -> wrapN 16 (from_be [l1; l2]) = from_be [l1; l2].
Proof.
  intros H1 H2. apply Z.mod_small.
  pose proof (from_be_2_bound l1 l2 H1 H2). unfold MAX_PAYLOAD_LEN in *. lia.
Qed.

Lemma from_be_2_hi l1 l2 :
  uN 8 l1 -> uN 8 l2 -> (from_be [l1; l2] / 256) mod 256 = l1.
Proof. unfold uN, from_be; simpl. intros. rewrite Z.div_add_l, Z.div_small, Z.mod_small; lia. Qed.

Lemma from_be_2_lo l1 l2 : uN 8 l1 -> uN 8 l2 -> from_be [l1; l2] mod 256 = l2.
Proof. unfold uN, from_be; simpl. intros. rewrite Z.add_comm, Z_mod_plus_full, Z.mod_small; lia. Qed.

(** What a successful decode has read: the structured bytes of the packet it
    returns, and nothing but padding after them. *)
Lemma decode_inv b p :
  bytes_ok b -> decode b = Ok p ->
  packet_ok p /\ version p = VERSION /\ len (payload p) <= MAX_PAYLOAD_LEN
  /\ exists pad, b = encode_unpadded p ++ pad.
Proof.
  intros Hok H. destruct (Z.ltb_spec (len b) 22) as [Hlt|Hl].
  { unfold decode, HEADER_LEN, PEER_ID_LEN in H.
    destruct (Z.ltb_spec (len b) (14 + 8)); [discriminate | lia]. }
  destruct (decode_header_split b) as (b0 & b1 & b2 & t0 & t1 & t2 & t3 & t4 & t5 & t6 & t7
    & f & l1 & l2 & rest & Hb); [lia|].
  rewrite Hb, decode_eq in H by (rewrite <- Hb; lia). rewrite <- Hb in H.
  rewrite Hb in Hok. simpl in Hok. rewrite !bytes_ok_cons in Hok.
  destruct Hok as (? & ? & ? & ? & ? & ? & ? & ? & ? & ? & ? & Hf & Hl1 & Hl2 & Hrest).
  destruct (Z.eqb_spec b0 VERSION) as [->|]; [|discriminate]. simpl in H.
  destruct (mt_from_u8 b1) as [mt|] eqn:Hmt; [|discriminate]. simpl in H.
  destruct (wire_has_unknown_bits f) eqn:Hu; [discriminate|].
  pose proof (decode_tail_spec b (negb (Z.land f FLAG_HAS_RECIPIENT =? 0))
                (negb (Z.land f FLAG_HAS_SIGNATURE =? 0)) _ (from_be_2_bound l1 l2 Hl1 Hl2)) as Ht.
  destruct (decode_tail _ _ _ _) as [[[[snd rcp] pl] sg]| |]; [|discriminate..].
  injection H as <-. destruct Ht as ((pad & Hd) & Hsl & Hpl & Hr & Hg).
  rewrite Hb in Hd. cbn [drop app] in Hd. rewrite drop_0 in Hd.
  rewrite Hd, !bytes_ok_app in Hrest. destruct Hrest as (Hos & Hor & Hop & Hog & _).
  pose proof (from_be_2_bound l1 l2 Hl1 Hl2).
  split; [constructor; simpl; auto|split; [reflexivity|split; [simpl; lia|]]].
  - apply (from_be_bound [_; _; _; _; _; _; _; _]). bytes_tac.
  - now split.
  - intros r ->. split; [apply Hr | exact Hor].
  - intros s ->. split; [apply Hg | exact Hog].
  - exists pad. rewrite encode_unpadded_shape.
    cbn [version msg_type ttl timestamp_ms flags sender_id recipient_id payload signature].
    assert (Hts : be_bytes 8 (from_be [t0; t1; t2; t3; t4; t5; t6; t7])
                  = [t0; t1; t2; t3; t4; t5; t6; t7])
      by (apply (be_bytes_from_be [t0; t1; t2; t3; t4; t5; t6; t7]); bytes_tac).
    rewrite Hts. clear Hts.
    rewrite (mt_from_u8_inv _ _ Hmt), Hpl, wrap_from_be_2, from_be_2_hi, from_be_2_lo by assumption.
    unfold has_recipient, has_signature; cbn [recipient_id signature].
    rewrite Hb, Hd. cbn [app]. do 11 f_equal. f_equal.
    etransitivity; [symmetry; exact (wire_bits_inv f Hf Hu)|].
    destruct rcp, sg; rewrite ?(proj1 Hr), ?(proj1 Hg), ?Hr, ?Hg; reflexivity.
Qed.

Lemma decode_no_panic b : bytes_ok b -> decode b <> Panic.
Proof.
  intros Hok. destruct (Z.ltb_spec (len b) 22) as [Hlt|Hl].
  { unfold decode, HEADER_LEN, PEER_ID_LEN.
    destruct (Z.ltb_spec (len b) (14 + 8)); [discriminate | lia]. }
  destruct (decode_header_split b) as (b0 & b1 & b2 & t0 & t1 & t2 & t3 & t4 & t5 & t6 & t7
    & f & l1 & l2 & rest & Hb); [lia|].
  rewrite Hb, decode_eq by (rewrite <- Hb; lia). rewrite <- Hb.
  assert (Hl12 : uN 8 l1 /\ uN 8 l2).
  { rewrite Hb in Hok. simpl in Hok. rewrite !bytes_ok_cons in Hok. tauto. }
  pose proof (decode_tail_spec b (negb (Z.land f FLAG_HAS_RECIPIENT =? 0))
    (negb (Z.land f FLAG_HAS_SIGNATURE =? 0)) _
    (from_be_2_bound l1 l2 (proj1 Hl12) (proj2 Hl12))) as Ht.
  repeat case_goal; try discriminate; destruct (mt_from_u8 b1); simplify_eq/=; tauto.
Qed.

(** ** Properties *)

(** C38: the decoder accepts exactly the frames of well-formed packets.  On any
    byte string [decode] does not panic, and it returns the packet [p] if and
    only if [p] is well-formed (every field in its Rust type), has the
    supported version and a payload of at most 65535 bytes, and the input is
    the structured bytes of [p] followed by arbitrary padding. *)
Theorem decode_exact (b : bytes) (Hb : bytes_ok b) :
  decode b <> Panic
  /\ forall p, decode b = Ok p <->
       packet_ok p /\ version p = VERSION /\ len (payload p) <= MAX_PAYLOAD_LEN
       /\ exists pad, b = encode_unpadded p ++ pad.
Proof.
  split; [now apply decode_no_panic|]. intros p; split.
  - now apply decode_inv.
  - intros (Hok & Hv & Hl & pad & ->). now apply decode_encode_unpadded.
Qed.

Definition sample_packet : Packet :=
  mkPacket 1 MtNimiqTx 7 1700000000000 (mkFlags false true false)
    [1; 2; 3; 4; 5; 6; 7; 8] (Some BROADCAST_RECIPIENT) [10; 20; 30] None.

Lemma decode_exact_witness :
  decode (encode_unpadded sample_packet ++ [9; 9]) <> Panic
  /\ decode (encode_unpadded sample_packet ++ [9; 9]) = Ok sample_packet.
Proof.
  split.
  - apply (decode_exact (encode_unpadded sample_packet ++ [9; 9])).
    now apply bytes_okb_ok.
  - vm_compute; reflexivity.
Defined.

Lemma encode_decode p b : packet_ok p -> version p = VERSION -> encode p = Ok b -> decode b = Ok p.
Proof.
  unfold encode. intros Hp Hv. destruct (len (payload p) >? MAX_PAYLOAD_LEN) eqn:E; [discriminate|].
  intros [= <-]. bool_prop. destruct (apply_padding_prefix (encode_unpadded p)) as [pad ->].
  now apply decode_encode_unpadded.
Qed.

Lemma encode_no_panic p : encode p <> Panic.
Proof. unfold encode. destruct (_ >? _); discriminate. Qed.

(** Encoding a well-formed packet and decoding the frame gives the packet
    back; encoding fails only on an over-long payload.  The frame is the
    structured bytes, at least 22 and at most [unpadded_len + 255] bytes long,
    and it has been grown to the smallest block of 256, 512, 1024, 2048 that
    fits it unless it is longer than 2048 or the gap is over 255 bytes. *)
Theorem encode_roundtrip (p : Packet) (Hp : packet_ok p) (Hv : version p = VERSION) :
  match encode p with
  | Ok b =>
      decode b = Ok p /\ bytes_ok b /\ unpadded_len p <= len b <= unpadded_len p + 255
      /\ match optimal_block_size (unpadded_len p) with
         | Some t => len b = t \/ (len b = unpadded_len p /\ t - unpadded_len p > 255)
         | None => len b = unpadded_len p
         end
  | Err e => e = PayloadTooLarge (len (payload p)) /\ len (payload p) > MAX_PAYLOAD_LEN
  | Panic => False
  end.
Proof.
  unfold encode. destruct (len (payload p) >? MAX_PAYLOAD_LEN) eqn:E; bool_prop; [auto with lia|].
  pose proof (encode_unpadded_len p Hp) as Hl. pose proof (encode_unpadded_bytes p Hp).
  destruct (apply_padding_prefix (encode_unpadded p)) as [pad Hpad].
  split; [rewrite Hpad; now apply decode_encode_unpadded|]. clear pad Hpad.
  unfold apply_padding. rewrite Hl.
  destruct (optimal_block_size (unpadded_len p)) as [t|] eqn:Ht; [|split_and!; auto; lia].
  apply optimal_block_size_spec in Ht as (Ht & _ & _).
  destruct ((t - unpadded_len p =? 0) || (t - unpadded_len p >? 255)) eqn:Ep.
  - apply orb_prop in Ep as [Ep|Ep]; bool_prop; split_and!; auto; lia.
  - bool_prop. rewrite len_app, Hl, len_replicate by lia.
    split_and!; try lia. apply bytes_ok_app; split; [assumption|].
    apply Forall_replicate. apply Z.mod_pos_bound; reflexivity.
Qed.

Lemma encode_roundtrip_witness :
  encode sample_packet = Ok (apply_padding (encode_unpadded sample_packet))
  /\ decode (apply_padding (encode_unpadded sample_packet)) = Ok sample_packet.
Proof.
  split; [reflexivity|].
  refine (proj1 (encode_roundtrip sample_packet _ eq_refl)).
  constructor; try (vm_compute; split; congruence).
  - split; [reflexivity | now apply bytes_okb_ok].
  - intros r [= <-]. split; [reflexivity | now apply bytes_okb_ok].
  - now apply bytes_okb_ok.
Defined.
