(* ===== verification/Tlv.v ===== *)
(** * Tlv: the type-length-value loop of the payload decoders

    [envelope.rs] ([push_tlv], [decode_envelope]) and [swap_wire.rs]
    ([push_tlv], [decode_swap]) walk a stream of [type | len | value] records
    with the same loop and differ only in the error type and in what a field
    does.  [tlv_loop] is that loop, over the truncation error [trunc] and the
    field action [field]; the lemmas relate it to the plain list of records
    [items] of the stream. *)

From stdpp Require Import base list.
From Stdlib Require Import ZArith Lia.
From S2P Require Import Prelude.
Open Scope Z_scope.

Definition MAX_TLV_VALUE_LEN : Z := 255.

Section tlv.
Context {E S : Type}.
Variable trunc : Z -> E.
Variable too_long : Z -> Z -> E.
Variable field : Z -> Z -> bytes -> S -> res E S.

Definition push_tlv (buf : bytes) (tlv_type : Z) (value : bytes) : res E bytes :=
  if len value >? MAX_TLV_VALUE_LEN then Err (too_long tlv_type (len value))
  else Ok (buf ++ [tlv_type] ++ [wrapN 8 (len value)] ++ value).

(** [if let Some(v) = o { push_tlv(&mut buf, t, f(v))?; }] *)
Definition push_opt {A} (buf : bytes) (t : Z) (f : A -> bytes) (o : option A) : res E bytes :=
  match o with Some v => push_tlv buf t (f v) | None => Ok buf end.

Fixpoint tlv_loop (fuel : nat) (b : bytes) (off : Z) (s : S) : res E S :=
  match fuel with
  | O => Panic
  | Datatypes.S fuel =>
      if off <? len b then
        if off + 2 >? len b then Err (trunc off) else
        let? tlv_type := idx b off in
        let? l := idx b (off + 1) in
        let value_start := off + 2 in
        let? value_end := ok_or (checked_add 64 value_start l) (trunc value_start) in
        if value_end >? len b then Err (trunc value_start) else
        let? value := slice b value_start value_end in
        let? s := field tlv_type l value s in
        tlv_loop fuel b value_end s
      else Ok s
  end.

(** The loop runs at most once per byte, and once more to stop. *)
Definition tlv_decode (b : bytes) (s : S) : res E S := tlv_loop (1 + length b) b 0 s.

(** ** The stream as a list of records *)

Definition tlv_bytes (it : Z * bytes) : bytes := it.1 :: wrapN 8 (len it.2) :: it.2.

Definition item_ok (it : Z * bytes) : Prop := uN 8 it.1 /\ len it.2 <= MAX_TLV_VALUE_LEN.

Fixpoint fold_fields (items : list (Z * bytes)) (s : S) : res E S :=
  match items with
  | [] => Ok s
  | (t, v) :: items => let? s := field t (len v) v s in fold_fields items s
  end.

Definition opt_item {A} (t : Z) (f : A -> bytes) (o : option A) : list (Z * bytes) :=
  match o with Some v => [(t, f v)] | None => [] end.

Fixpoint push_items (buf : bytes) (items : list (Z * bytes)) : res E bytes :=
  match items with
  | [] => Ok buf
  | (t, v) :: items => let? buf := push_tlv buf t v in push_items buf items
  end.

Lemma push_opt_items {A} buf t (f : A -> bytes) o :
  push_opt buf t f o = push_items buf (opt_item t f o).
Proof. destruct o; simpl; [now destruct (push_tlv _ _ _) | reflexivity]. Qed.

Lemma push_items_app buf a b :
  push_items buf (a ++ b) = let? buf' := push_items buf a in push_items buf' b.
Proof.
  revert buf; induction a as [|[t v] a IH]; intros buf; simpl; [reflexivity|].
  destruct (push_tlv buf t v); [apply IH | reflexivity..].
Qed.

Lemma push_tlv_item buf t v : push_tlv buf t v = push_items buf [(t, v)].
Proof. simpl. now destruct (push_tlv buf t v). Qed.

Lemma fold_fields_app a b s :
  fold_fields (a ++ b) s = let? s' := fold_fields a s in fold_fields b s'.
Proof.
  revert s; induction a as [|[t v] a IH]; intros s; simpl; [reflexivity|].
  destruct (field t (len v) v s); [apply IH | reflexivity..].
Qed.

(** Induction over the records: what every field action preserves holds at
    the end. *)
Lemma fold_fields_inv (P : S -> Prop) items s s' :
  (forall t v s s', bytes_ok v -> len v <= MAX_TLV_VALUE_LEN -> P s ->
     field t (len v) v s = Ok s' -> P s') ->
  Forall item_ok items -> Forall (fun it => bytes_ok it.2) items -> P s ->
  fold_fields items s = Ok s' -> P s'.
Proof.
  intros Hstep. revert s; induction items as [|[t v] items IH]; intros s Hi Hb Hs H; simpl in H.
  - congruence.
  - apply Forall_cons in Hi as [[_ Hl] Hi]. apply Forall_cons in Hb as [Hv Hb].
    destruct (field t (len v) v s) as [a| |] eqn:E'; [|discriminate..].
    exact (IH a Hi Hb (Hstep _ _ _ _ Hv Hl Hs E') H).
Qed.

Lemma fold_opt {A} t (f : A -> bytes) o s (upd : A -> S -> S) :
  (forall v, o = Some v -> field t (len (f v)) (f v) s = Ok (upd v s)) ->
  fold_fields (opt_item t f o) s = Ok (match o with Some v => upd v s | None => s end).
Proof. destruct o as [v|]; simpl; [intros H; now rewrite (H v) | reflexivity]. Qed.

(** Pushing records appends their bytes, and fails exactly on a long value. *)
Lemma push_items_ok buf items :
  Forall (fun it => len it.2 <= MAX_TLV_VALUE_LEN) items ->
  push_items buf items = Ok (buf ++ concat (map tlv_bytes items)).
Proof.
  intros H; revert buf; induction H as [|[t v] items Hv _ IH]; intros buf; simpl.
  - now rewrite app_nil_r.
  - unfold push_tlv. simpl in Hv. destruct (len v >? MAX_TLV_VALUE_LEN) eqn:Hg; bool_prop; [lia|].
    rewrite IH. f_equal. unfold tlv_bytes. simpl. now rewrite <- app_assoc.
Qed.

Lemma push_items_inv buf items b :
  push_items buf items = Ok b -> Forall (fun it => len it.2 <= MAX_TLV_VALUE_LEN) items.
Proof.
  revert buf; induction items as [|[t v] items IH]; intros buf H; constructor; simpl in H.
  - simpl. unfold push_tlv in H. destruct (len v >? MAX_TLV_VALUE_LEN) eqn:Hg;
      [discriminate | bool_prop; lia].
  - destruct (push_tlv buf t v); [eauto | discriminate..].
Qed.

Lemma push_items_err buf items er :
  push_items buf items = Err er ->
  exists t v, (t, v) ∈ items /\ MAX_TLV_VALUE_LEN < len v /\ er = too_long t (len v).
Proof.
  revert buf; induction items as [|[t v] items IH]; intros buf H; simpl in H; [discriminate|].
  unfold push_tlv in H. destruct (len v >? MAX_TLV_VALUE_LEN) eqn:Hg.
  - bool_prop. exists t, v. split; [left | split; [lia | congruence]].
  - destruct (IH _ H) as (t' & v' & Hi & Hr). exists t', v'. split; [now right | exact Hr].
Qed.

Lemma push_items_no_panic buf items : push_items buf items <> Panic.
Proof.
  revert buf; induction items as [|[t v] items IH]; intros buf; simpl; [discriminate|].
  unfold push_tlv. destruct (len v >? MAX_TLV_VALUE_LEN); [discriminate | apply IH].
Qed.

Lemma len_tlv_items (items : list (Z * bytes)) :
  Forall (fun it => len it.2 <= MAX_TLV_VALUE_LEN) items ->
  len (concat (map tlv_bytes items)) <= 257 * len items.
Proof.
  induction 1 as [|it items Hit _ IH]; [reflexivity|].
  cbn [map concat]. rewrite len_app, len_cons. unfold tlv_bytes at 1. len_simpl.
  unfold MAX_TLV_VALUE_LEN in *. lia.
Qed.

Lemma len_tlv_bytes it : len (tlv_bytes it) = 2 + len it.2.
Proof. unfold tlv_bytes. len_simpl. lia. Qed.

(** The loop over the bytes of well-formed records is the fold of the field
    actions over the records. *)
Lemma tlv_loop_items items : forall fuel pre s,
  Forall item_ok items ->
  len (pre ++ concat (map tlv_bytes items)) < 2 ^ 64 ->
  (length (concat (map tlv_bytes items)) < fuel)%nat ->
  tlv_loop fuel (pre ++ concat (map tlv_bytes items)) (len pre) s = fold_fields items s.
Proof.
  induction items as [|[t v] items IH]; intros fuel pre s Hok Hl Hf;
    (destruct fuel as [|fuel]; [lia|]); cbn [tlv_loop].
  - simpl. rewrite app_nil_r, Z.ltb_irrefl. reflexivity.
  - apply Forall_cons in Hok as [[_ Hv] Hok]. cbn [snd fst] in Hv.
    change (concat (map tlv_bytes ((t, v) :: items)))
      with (tlv_bytes (t, v) ++ concat (map tlv_bytes items)) in *.
    set (rest := concat (map tlv_bytes items)) in *.
    set (b := pre ++ tlv_bytes (t, v) ++ rest) in *.
    pose proof (len_nonneg pre). pose proof (len_nonneg rest). pose proof (len_nonneg v).
    assert (Hbl : len b = len pre + 2 + len v + len rest).
    { unfold b. rewrite !len_app, len_tlv_bytes. simpl. lia. }
    assert (Hw : wrapN 8 (len v) = len v).
    { apply Z.mod_small. unfold MAX_TLV_VALUE_LEN in *. lia. }
    destruct (Z.ltb_spec (len pre) (len b)); [|lia].
    destruct (len pre + 2 >? len b) eqn:Hg; bool_prop; [lia|].
    rewrite (idx_at b pre t (len v :: v ++ rest))
      by (unfold b, tlv_bytes; simpl; rewrite ?Hw; reflexivity).
    rewrite (idx_at b (pre ++ [t]) (len v) (v ++ rest))
      by (unfold b, tlv_bytes; simpl; rewrite ?Hw, <- ?app_assoc; len_simpl; lia || reflexivity).
    rewrite checked_add_small by lia. cbn [ok_or].
    destruct (len pre + 2 + len v >? len b) eqn:Hg2; bool_prop; [lia|].
    rewrite (slice_at b (pre ++ [t; len v]) v rest)
      by (unfold b, tlv_bytes; simpl; rewrite ?Hw, <- ?app_assoc; len_simpl; lia || reflexivity).
    cbn [fold_fields]. destruct (field t (len v) v s) as [s'| |]; [|reflexivity..].
    assert (Hb : b = (pre ++ tlv_bytes (t, v)) ++ rest) by (unfold b; now rewrite <- app_assoc).
    rewrite Hb. replace (len pre + 2 + len v) with (len (pre ++ tlv_bytes (t, v)))
      by (rewrite len_app, len_tlv_bytes; simpl; lia).
    apply IH; [assumption|rewrite <- Hb; assumption|].
    revert Hf. unfold tlv_bytes. simpl. rewrite length_app. lia.
Qed.

Lemma tlv_decode_items items s :
  Forall item_ok items -> len (concat (map tlv_bytes items)) < 2 ^ 64 ->
  tlv_decode (concat (map tlv_bytes items)) s = fold_fields items s.
Proof.
  intros Hok Hl. apply (tlv_loop_items items _ [] s Hok); simpl; [assumption | lia].
Qed.

(** ** Arbitrary input: the loop ends, does not panic, and has read records *)

Hypothesis field_no_panic : forall t v s,
  bytes_ok v -> len v <= MAX_TLV_VALUE_LEN -> field t (len v) v s <> Panic.

Lemma tlv_loop_spec fuel : forall b off s,
  bytes_ok b -> 0 <= off <= len b -> len b - off < Z.of_nat fuel ->
  match tlv_loop fuel b off s with
  | Panic => False
  | Err _ => True
  | Ok s' => exists items, Forall item_ok items
      /\ Forall (fun it => bytes_ok it.2) items
      /\ drop (Z.to_nat off) b = concat (map tlv_bytes items)
      /\ fold_fields items s = Ok s'
  end.
Proof.
  induction fuel as [|fuel IH]; intros b off s Hb Hoff Hf; [lia|]. cbn [tlv_loop].
  destruct (Z.ltb_spec off (len b)) as [Hlt|Hge].
  2: { exists []. split_and!; try constructor. simpl. apply drop_ge. unfold len in *. lia. }
  destruct (off + 2 >? len b) eqn:Hg; bool_prop; [exact I|].
  mem_case. mem_case. rename v into t, v0 into l.
  destruct (checked_add 64 (off + 2) l) as [ve|] eqn:Hve; cbn [ok_or]; [|exact I].
  apply checked_add_inv in Hve as [-> _].
  assert (Ht : uN 8 t /\ uN 8 l).
  { split; eapply idx_byte; eassumption. }
  destruct Ht as [Ht Hl]. unfold uN in Hl.
  destruct (off + 2 + l >? len b) eqn:Hg2; bool_prop; [exact I|].
  mem_case. rename v into val.
  pose proof (slice_len _ _ _ _ Hsl) as Hvl. pose proof (bytes_ok_slice _ _ _ _ Hb Hsl) as Hvb.
  assert (Hl' : l = len val) by lia. subst l.
  pose proof (field_no_panic t val s Hvb) as Hnp. unfold MAX_TLV_VALUE_LEN in Hnp.
  destruct (field t (len val) val s) as [s'|e|] eqn:Hfield; [|exact I|apply Hnp; [lia|reflexivity]].
  specialize (IH b (off + 2 + len val) s' Hb).
  destruct (tlv_loop fuel b (off + 2 + len val) s') as [s''|e|]; [|exact I|apply IH; lia].
  destruct IH as (items & Hi & Hio & Hd & Hff); [lia..|].
  exists ((t, val) :: items). split_and!.
  - constructor; [split; [exact Ht | simpl; unfold MAX_TLV_VALUE_LEN; lia] | exact Hi].
  - constructor; assumption.
  - simpl. rewrite <- Hd. apply slice_drop in Hsl.
    apply idx_drop in Hix. apply idx_drop in Hix0.
    rewrite Hix, Hix0. replace (off + 1 + 1) with (off + 2) by lia. rewrite Hsl.
    simpl. unfold wrapN. rewrite Z.mod_small by lia. reflexivity.
  - simpl. now rewrite Hfield.
Qed.

Lemma tlv_decode_no_panic b s : bytes_ok b -> tlv_decode b s <> Panic.
Proof.
  intros Hb H. pose proof (tlv_loop_spec (1 + length b) b 0 s Hb) as Hs.
  unfold tlv_decode in H. rewrite H in Hs. apply Hs; unfold len; lia.
Qed.

Lemma tlv_decode_inv b s s' :
  bytes_ok b -> tlv_decode b s = Ok s' ->
  exists items, Forall item_ok items /\ Forall (fun it => bytes_ok it.2) items
    /\ b = concat (map tlv_bytes items) /\ fold_fields items s = Ok s'.
Proof.
  intros Hb H. pose proof (tlv_loop_spec (1 + length b) b 0 s Hb) as Hs.
  unfold tlv_decode in H. rewrite H in Hs. apply Hs; unfold len; lia.
Qed.
End tlv.

(** An encoder that is a chain of pushes is [push_items] of its records. *)
Ltac push_chain :=
  rewrite ?push_tlv_item;
  repeat (rewrite push_items_app;
          match goal with
          | |- match push_items ?f ?b ?i with _ => _ end = _ =>
              destruct (push_items f b i) as [?buf|?e|]; [|reflexivity..]
          end; rewrite ?push_opt_items, ?push_tlv_item).
