(* ===== verification/Envelope.v ===== *)
(** * Envelope: the Nimiq transaction envelope ([envelope.rs])

    The TLV payload of a [nimiqTx] packet: its encoder, and its decoder as an
    instance of the record loop of [Tlv]. *)

From stdpp Require Import base list.
From Stdlib Require Import ZArith Lia.
From S2P Require Import Prelude Packet Tlv.
Open Scope Z_scope.

Definition T_TX_WIRE : Z := 0x01.
Definition T_NETWORK_ID : Z := 0x02.
Definition T_VALID_UNTIL : Z := 0x03.
Definition T_TX_ID : Z := 0x04.
Definition T_ENC_MEMO : Z := 0x05.
Definition T_WANT_RECEIPT : Z := 0x06.
Definition DEFAULT_NETWORK_ID : Z := 5.
Definition TX_ID_LEN : Z := 32.

Record NimiqEnvelope : Type := mkEnvelope {
  tx_wire : bytes;
  network_id : Z;
  valid_until : option Z;
  tx_id : option bytes;
  enc_memo : option bytes;
  want_receipt : bool
}.

#[export] Instance NimiqEnvelope_eq_dec : EqDecision NimiqEnvelope.
Proof. solve_decision. Defined.

Definition envelope_new (w : bytes) : NimiqEnvelope :=
  {| tx_wire := w; network_id := DEFAULT_NETWORK_ID; valid_until := None;
     tx_id := None; enc_memo := None; want_receipt := false |}.

Inductive EnvelopeError : Type :=
| ValueTooLong (tlv_type l : Z)
| EnvTruncated (offset : Z)
| BadFieldLength (tlv_type l : Z)
| MissingRequiredField (tlv_type : Z).

Definition encode_envelope (env : NimiqEnvelope) : res EnvelopeError bytes :=
  let buf := [] in
  let? buf := push_tlv ValueTooLong buf T_TX_WIRE (tx_wire env) in
  let? buf := push_tlv ValueTooLong buf T_NETWORK_ID [network_id env] in
  let? buf := push_opt ValueTooLong buf T_VALID_UNTIL (be_bytes 4) (valid_until env) in
  let? buf := push_opt ValueTooLong buf T_TX_ID id (tx_id env) in
  let? buf := push_opt ValueTooLong buf T_ENC_MEMO id (enc_memo env) in
  let? buf := if want_receipt env then push_tlv ValueTooLong buf T_WANT_RECEIPT [1]
              else Ok buf in
  Ok buf.

(** The mutable locals of [decode_envelope]. *)
Record EnvLocals : Type := mkLocals {
  l_tx_wire : option bytes;
  l_network_id : option Z;
  l_valid_until : option Z;
  l_tx_id : option bytes;
  l_enc_memo : option bytes;
  l_want_receipt : bool
}.

(** The [match tlv_type] of the loop body. *)
Definition env_field (t l : Z) (value : bytes) (s : EnvLocals) : res EnvelopeError EnvLocals :=
  let '(mkLocals tw ni vu ti em wr) := s in
  if t =? T_TX_WIRE then Ok (mkLocals (Some value) ni vu ti em wr)
  else if t =? T_NETWORK_ID then
    if negb (l =? 1) then Err (BadFieldLength t l) else
    let? x := idx value 0 in Ok (mkLocals tw (Some x) vu ti em wr)
  else if t =? T_VALID_UNTIL then
    if negb (l =? 4) then Err (BadFieldLength t l) else
    let? a := idx value 0 in let? b := idx value 1 in
    let? c := idx value 2 in let? d := idx value 3 in
    Ok (mkLocals tw ni (Some (from_be [a; b; c; d])) ti em wr)
  else if t =? T_TX_ID then
    if negb (l =? TX_ID_LEN) then Err (BadFieldLength t l) else
    Ok (mkLocals tw ni vu (Some value) em wr)
  else if t =? T_ENC_MEMO then Ok (mkLocals tw ni vu ti (Some value) wr)
  else if t =? T_WANT_RECEIPT then
    if negb (l =? 1) then Err (BadFieldLength t l) else
    let? x := idx value 0 in Ok (mkLocals tw ni vu ti em (negb (x =? 0)))
  else Ok s.

Definition decode_envelope (b : bytes) : res EnvelopeError NimiqEnvelope :=
  let? s := tlv_decode EnvTruncated env_field b (mkLocals None None None None None false) in
  let? tw := ok_or (l_tx_wire s) (MissingRequiredField T_TX_WIRE) in
  let? ni := ok_or (l_network_id s) (MissingRequiredField T_NETWORK_ID) in
  Ok {| tx_wire := tw; network_id := ni; valid_until := l_valid_until s;
        tx_id := l_tx_id s; enc_memo := l_enc_memo s; want_receipt := l_want_receipt s |}.

(** Every field in the range of its Rust type. *)
Record env_ok (e : NimiqEnvelope) : Prop := {
  eo_wire : bytes_ok (tx_wire e);
  eo_net : uN 8 (network_id e);
  eo_vu : forall v, valid_until e = Some v -> uN 32 v;
  eo_id : forall i, tx_id e = Some i -> array_ok 32 i;
  eo_memo : forall m, enc_memo e = Some m -> bytes_ok m
}.

(** ** Lemmas *)

(** The records [encode_envelope] emits, in ascending type order. *)
Definition env_items (e : NimiqEnvelope) : list (Z * bytes) :=
  [(T_TX_WIRE, tx_wire e)] ++ [(T_NETWORK_ID, [network_id e])]
  ++ opt_item T_VALID_UNTIL (be_bytes 4) (valid_until e)
  ++ opt_item T_TX_ID id (tx_id e) ++ opt_item T_ENC_MEMO id (enc_memo e)
  ++ (if want_receipt e then [(T_WANT_RECEIPT, [1])] else []).

Lemma encode_envelope_items e : encode_envelope e = push_items ValueTooLong [] (env_items e).
Proof.
  unfold encode_envelope, env_items. push_chain.
  destruct (want_receipt e); rewrite ?push_tlv_item; [|reflexivity].
  now destruct (push_items _ _ _).
Qed.

Lemma env_field_no_panic t v s :
  bytes_ok v -> len v <= MAX_TLV_VALUE_LEN -> env_field t (len v) v s <> Panic.
Proof.
  intros _ _. destruct s as [tw ni vu ti em wr]. unfold env_field.
  repeat (case_goal; bool_prop; try discriminate);
    match goal with H : idx _ _ = Panic |- _ => apply idx_panic in H; lia
                  | H : idx _ _ = Err _ |- _ => destruct (idx_not_err _ _ _ H) end.
Qed.

Lemma env_field_vu v tw ni vu ti em wr :
  uN 32 v ->
  env_field T_VALID_UNTIL (len (be_bytes 4 v)) (be_bytes 4 v) (mkLocals tw ni vu ti em wr)
  = Ok (mkLocals tw ni (Some v) ti em wr).
Proof.
  intros Hv. rewrite <- (from_be_be_bytes 4 v Hv) at 3. rewrite len_be_bytes. reflexivity.
Qed.

Lemma env_field_wire w tw ni vu ti em wr :
  env_field T_TX_WIRE (len w) w (mkLocals tw ni vu ti em wr)
  = Ok (mkLocals (Some w) ni vu ti em wr).
Proof. reflexivity. Qed.

Lemma env_field_net n tw ni vu ti em wr :
  env_field T_NETWORK_ID (len [n]) [n] (mkLocals tw ni vu ti em wr)
  = Ok (mkLocals tw (Some n) vu ti em wr).
Proof. reflexivity. Qed.

Lemma env_field_memo m tw ni vu ti em wr :
  env_field T_ENC_MEMO (len m) m (mkLocals tw ni vu ti em wr)
  = Ok (mkLocals tw ni vu ti (Some m) wr).
Proof. reflexivity. Qed.

Lemma env_field_id i tw ni vu ti em wr :
  len i = 32 ->
  env_field T_TX_ID (len i) i (mkLocals tw ni vu ti em wr)
  = Ok (mkLocals tw ni vu (Some i) em wr).
Proof. intros ->. reflexivity. Qed.

(** The field actions rebuild the envelope, one record at a time. *)
Lemma fold_env_items e :
  env_ok e ->
  fold_fields env_field (env_items e) (mkLocals None None None None None false)
  = Ok (mkLocals (Some (tx_wire e)) (Some (network_id e)) (valid_until e) (tx_id e)
          (enc_memo e) (want_receipt e)).
Proof.
  intros [Hw Hn Hv Hi Hm]. unfold env_items. cbn [app fold_fields].
  rewrite env_field_wire, env_field_net.
  destruct (valid_until e), (tx_id e), (enc_memo e), (want_receipt e);
    cbn [opt_item app fold_fields]; unfold id;
    repeat (first [ rewrite env_field_vu by (now apply Hv)
                  | rewrite env_field_id by (now apply Hi)
                  | rewrite env_field_memo ]; cbn iota); reflexivity.
Qed.

Lemma env_items_ok e b :
  env_ok e -> push_items ValueTooLong [] (env_items e) = Ok b ->
  Forall item_ok (env_items e) /\ b = concat (map tlv_bytes (env_items e)).
Proof.
  intros Hok H. pose proof (push_items_inv _ _ _ _ H) as Hl.
  rewrite push_items_ok in H by assumption. simplify_eq/=. split; [|reflexivity].
  apply (Forall_impl (fun it => uN 8 it.1 /\ len it.2 <= MAX_TLV_VALUE_LEN)); [|auto].
  apply Forall_and; split; [|assumption]. unfold env_items.
  destruct (valid_until e), (tx_id e), (enc_memo e), (want_receipt e); simpl;
    repeat (apply Forall_cons; split; [vm_compute; split; congruence|]); apply Forall_nil_2.
Qed.

Lemma len_env_items e : len (env_items e) <= 6.
Proof.
  unfold env_items.
  destruct (valid_until e), (tx_id e), (enc_memo e), (want_receipt e); simpl; len_simpl; lia.
Qed.

(** The decoder's locals stay in range, whatever records arrive. *)
Definition locals_ok (s : EnvLocals) : Prop :=
  (forall w, l_tx_wire s = Some w -> bytes_ok w /\ len w <= 255)
  /\ (forall n, l_network_id s = Some n -> uN 8 n)
  /\ (forall v, l_valid_until s = Some v -> uN 32 v)
  /\ (forall i, l_tx_id s = Some i -> array_ok 32 i)
  /\ (forall m, l_enc_memo s = Some m -> bytes_ok m /\ len m <= 255).

Lemma env_field_ok t v s s' :
  bytes_ok v -> len v <= MAX_TLV_VALUE_LEN -> locals_ok s ->
  env_field t (len v) v s = Ok s' -> locals_ok s'.
Proof.
  intros Hv Hl Hs H. unfold MAX_TLV_VALUE_LEN, locals_ok in *.
  destruct s as [tw ni vu ti em wr]; unfold env_field in H; simpl in Hs.
  destruct Hs as (H1 & H2 & H3 & H4 & H5).
  repeat (case_hyp H; try discriminate H); injection H as <-; bool_prop; simpl; split_and!; auto;
    intros ? [= <-]; auto; try (split; assumption).
  - eapply idx_byte; eassumption.
  - apply (from_be_bound [_; _; _; _]). bytes_tac; eapply idx_byte; eassumption.
Qed.

Lemma envelope_decode e b : env_ok e -> encode_envelope e = Ok b -> decode_envelope b = Ok e.
Proof.
  intros He. rewrite encode_envelope_items. intros Hp. destruct (env_items_ok e b He Hp) as [Hi ->].
  pose proof (len_tlv_items _ (push_items_inv _ _ _ _ Hp)) as Hl. pose proof (len_env_items e).
  unfold decode_envelope. rewrite tlv_decode_items, fold_env_items by (assumption || lia). now destruct e.
Qed.

Lemma encode_envelope_bytes e b : env_ok e -> encode_envelope e = Ok b -> bytes_ok b.
Proof.
  intros He. rewrite encode_envelope_items. intros Hp. destruct (env_items_ok e b He Hp) as [Hi ->].
  assert (Hv : Forall (fun it => bytes_ok it.2) (env_items e)).
  { destruct He as [Hw Hn _ Hid Hm]. unfold env_items. rewrite !Forall_app, !Forall_singleton.
    split_and!; [exact Hw | now apply bytes_ok_cons; split; [|constructor] | | | |].
    - destruct (valid_until e); cbn [opt_item]; [apply Forall_singleton, be_bytes_ok | apply Forall_nil_2].
    - destruct (tx_id e) as [i|]; cbn; [apply Forall_singleton, (proj2 (Hid i eq_refl)) | apply Forall_nil_2].
    - destruct (enc_memo e) as [m|]; cbn; [apply Forall_singleton, (Hm m eq_refl) | apply Forall_nil_2].
    - destruct (want_receipt e); [apply Forall_singleton; now apply bytes_okb_ok | apply Forall_nil_2]. }
  apply Forall_concat, Forall_map. clear Hp. induction Hi as [|it items [Ht Hl] _ IH]; [constructor|].
  inversion Hv; subst. constructor; [|auto]. unfold tlv_bytes. apply bytes_ok_cons. split; [exact Ht|].
  apply bytes_ok_cons. split; [now apply Z.mod_pos_bound | assumption].
Qed.

Lemma encode_envelope_no_panic e : encode_envelope e <> Panic.
Proof. rewrite encode_envelope_items. apply push_items_no_panic. Qed.

Lemma envelope_cases (e : NimiqEnvelope) (He : env_ok e) :
  match encode_envelope e with
  | Ok b => decode_envelope b = Ok e /\ len b <= 1542
  | Err (ValueTooLong t l) =>
      (t = T_TX_WIRE /\ l = len (tx_wire e) /\ 255 < l)
      \/ (t = T_ENC_MEMO /\ enc_memo e <> None /\ 255 < l)
  | _ => False
  end.
Proof.
  rewrite encode_envelope_items.
  destruct (push_items ValueTooLong [] (env_items e)) as [b|er|] eqn:Hp.
  - destruct (env_items_ok e b He Hp) as [Hi ->].
    pose proof (len_tlv_items _ (push_items_inv _ _ _ _ Hp)) as Hl.
    pose proof (len_env_items e). split; [|lia].
    apply envelope_decode; [assumption|]. now rewrite encode_envelope_items.
  - revert Hp. destruct He as [_ _ _ Hi _]. unfold env_items.
    destruct e as [w ni vu ti em wr]; simpl in Hi |- *. unfold push_tlv, MAX_TLV_VALUE_LEN.
    destruct (len w >? 255) eqn:Hw; [intros [= <-]; bool_prop; left; auto|].
    destruct vu, ti as [i|], em as [m|], wr; simpl; unfold push_tlv, id, MAX_TLV_VALUE_LEN;
      try (rewrite (proj1 (Hi i eq_refl))); simpl;
      try (destruct (len m >? 255) eqn:Hm; [intros [= <-]; bool_prop; right; auto|]);
      simpl; discriminate.
  - now apply push_items_no_panic in Hp.
Qed.

(** ** Properties *)

(** Encoding an envelope and decoding the bytes gives the envelope back,
    and the encoder fails only when the transaction bytes or the memo do not
    fit the one-byte length field. *)
Theorem envelope_roundtrip (e : NimiqEnvelope) (He : env_ok e) :
  match encode_envelope e with
  | Ok b => decode_envelope b = Ok e /\ len b <= 1542
  | Err (ValueTooLong t l) =>
      (t = T_TX_WIRE /\ l = len (tx_wire e) /\ 255 < l)
      \/ (t = T_ENC_MEMO /\ enc_memo e <> None /\ 255 < l)
  | _ => False
  end.
Proof. exact (envelope_cases e He). Qed.

Definition sample_envelope : NimiqEnvelope :=
  mkEnvelope [1; 2; 3] 5 (Some 123456) (Some (replicate 32 7)) None true.

Lemma sample_envelope_ok : env_ok sample_envelope.
Proof.
  constructor; simpl; try discriminate.
  - repeat constructor; vm_compute; congruence.
  - split; vm_compute; congruence.
  - intros ? [= <-]; split; vm_compute; congruence.
  - intros ? [= <-]. split; [reflexivity | now apply bytes_okb_ok].
Qed.

Lemma envelope_roundtrip_witness :
  exists b, encode_envelope sample_envelope = Ok b /\ decode_envelope b = Ok sample_envelope.
Proof.
  eexists; split; [reflexivity|].
  exact (proj1 (envelope_roundtrip sample_envelope sample_envelope_ok)).
Defined.

(** The envelope decoder is total on arbitrary bytes: it never panics, and
    an envelope it returns is in range (a transaction id of exactly 32 bytes,
    a network id of one byte, a [u32] validity height, values of at most 255
    bytes), so it re-encodes and decodes to itself. *)
Theorem decode_envelope_sound (b : bytes) (Hb : bytes_ok b) :
  decode_envelope b <> Panic
  /\ forall e, decode_envelope b = Ok e ->
       env_ok e /\ exists b', encode_envelope e = Ok b' /\ decode_envelope b' = Ok e.
Proof.
  unfold decode_envelope at 1 2. split.
  - pose proof (tlv_decode_no_panic EnvTruncated env_field env_field_no_panic b
                  (mkLocals None None None None None false) Hb) as Hn.
    destruct (tlv_decode _ _ _ _) as [s| |]; [|discriminate|congruence].
    destruct (l_tx_wire s), (l_network_id s); discriminate.
  - intros e H.
    destruct (tlv_decode _ _ _ _) as [s| |] eqn:Hd; [|discriminate..].
    apply (tlv_decode_inv _ _ env_field_no_panic) in Hd as (items & Hi & Hio & _ & Hf); [|assumption].
    apply (fold_fields_inv _ locals_ok) in Hf as (H1 & H2 & H3 & H4 & H5);
      [|apply env_field_ok | assumption.. | split_and!; discriminate].
    destruct (l_tx_wire s) as [w|] eqn:Ew, (l_network_id s) as [n|] eqn:En; simplify_eq/=.
    destruct (H1 w eq_refl) as [Hw Hwl]. pose proof (H2 n eq_refl) as Hn.
    match goal with |- env_ok ?e /\ _ => set (e0 := e) end.
    assert (He : env_ok e0) by (constructor; simpl; auto; intros m Hm; now apply H5).
    split; [exact He|]. rewrite encode_envelope_items.
    assert (Hp : push_items ValueTooLong [] (env_items e0)
                 = Ok (concat (map tlv_bytes (env_items e0)))).
    { apply push_items_ok. unfold env_items; simpl.
      destruct (l_valid_until s), (l_tx_id s) as [i|], (l_enc_memo s) as [m|], (l_want_receipt s);
      simpl; repeat (apply Forall_cons; split); try apply Forall_nil_2; simpl;
      try exact Hwl; try (vm_compute; congruence); unfold id;
      try (rewrite (proj1 (H4 i eq_refl)); vm_compute; congruence);
      try (exact (proj2 (H5 m eq_refl))). }
    eexists; split; [exact Hp|].
    destruct (env_items_ok e0 _ He Hp) as [Hi' _].
    pose proof (len_tlv_items _ (push_items_inv _ _ _ _ Hp)). pose proof (len_env_items e0).
    unfold decode_envelope. rewrite tlv_decode_items, fold_env_items by (assumption || lia).
    reflexivity.
Qed.

Lemma decode_envelope_sound_witness :
  decode_envelope [1; 1; 9; 2; 1; 5; 77; 0] <> Panic
  /\ decode_envelope [1; 1; 9; 2; 1; 5; 77; 0] = Ok (envelope_new [9]).
Proof.
  split; [|reflexivity].
  apply (decode_envelope_sound [1; 1; 9; 2; 1; 5; 77; 0]).
  now apply bytes_okb_ok.
Defined.
