(* ===== verification/SwapWire.v ===== *)
(** * SwapWire: the swap message payloads ([swap_wire.rs])

    One TLV record type for the five swap messages; the decoder is an instance
    of the record loop of [Tlv] and enforces the fields each message kind
    requires. *)

From stdpp Require Import base list.
From Stdlib Require Import ZArith Lia.
From S2P Require Import Prelude Packet Tlv.
Open Scope Z_scope.

Definition SWAP_ID_LEN : Z := 16.
Definition HASH_LEN : Z := 32.
Definition NIM_ADDRESS_LEN : Z := 20.
Definition BTC_PUBKEY_LEN : Z := 33.

Definition T_SWAP_ID : Z := 0x01.
Definition T_HASHLOCK : Z := 0x02.
Definition T_GIVE_AMOUNT : Z := 0x03.
Definition T_TAKE_AMOUNT : Z := 0x04.
Definition T_NIM_TIMEOUT : Z := 0x05.
Definition T_COUNTERPARTY_TIMEOUT : Z := 0x06.
Definition T_NIM_ADDRESS : Z := 0x07.
Definition T_COUNTERPARTY_ADDRESS : Z := 0x08.
Definition T_LEG : Z := 0x09.
Definition T_TX_WIRE : Z := 0x0A.
Definition T_TX_ID : Z := 0x0B.
Definition T_NETWORK_ID : Z := 0x0C.
Definition T_REASON : Z := 0x0D.
Definition T_BTC_PUBKEY : Z := 0x0E.
Definition T_PROPOSE_PUBKEY : Z := 0x0F.
Definition T_PROPOSE_SIG : Z := 0x10.

Inductive SwapLegId : Type := LegNim | LegCounterparty.

#[export] Instance SwapLegId_eq_dec : EqDecision SwapLegId.
Proof. solve_decision. Defined.

Definition leg_to_u8 (l : SwapLegId) : Z :=
  match l with LegNim => 0x00 | LegCounterparty => 0x01 end.

Definition leg_from_u8 (b : Z) : option SwapLegId :=
  match b with 0x00 => Some LegNim | 0x01 => Some LegCounterparty | _ => None end.

Inductive SwapKind : Type := Propose | Accept | FundingProof | PreimageReveal | Abort.

#[export] Instance SwapKind_eq_dec : EqDecision SwapKind.
Proof. solve_decision. Defined.

Definition message_type (k : SwapKind) : MessageType :=
  match k with
  | Propose => MtSwapPropose
  | Accept => MtSwapAccept
  | FundingProof => MtSwapFundingProof
  | PreimageReveal => MtSwapPreimageReveal
  | Abort => MtSwapAbort
  end.

Definition from_message_type (mt : MessageType) : option SwapKind :=
  match mt with
  | MtSwapPropose => Some Propose
  | MtSwapAccept => Some Accept
  | MtSwapFundingProof => Some FundingProof
  | MtSwapPreimageReveal => Some PreimageReveal
  | MtSwapAbort => Some Abort
  | _ => None
  end.

Record SwapEnvelope : Type := mkSwapEnvelope {
  e_swap_id : bytes;
  e_hashlock : option bytes;
  e_give_amount : option Z;
  e_take_amount : option Z;
  e_nim_timeout : option Z;
  e_counterparty_timeout : option Z;
  e_nim_address : option bytes;
  e_counterparty_address : option bytes;
  e_leg : option SwapLegId;
  e_tx_wire : option bytes;
  e_tx_id : option bytes;
  e_network_id : option Z;
  e_reason : option Z;
  e_btc_pubkey : option bytes;
  e_nim_pubkey : option bytes;
  e_propose_sig : option bytes
}.

#[export] Instance SwapEnvelope_eq_dec : EqDecision SwapEnvelope.
Proof. solve_decision. Defined.

(** [SwapEnvelope::new]; [Default::default()] is the zero id. *)
Definition swap_envelope_new (swap_id : bytes) : SwapEnvelope :=
  mkSwapEnvelope swap_id None None None None None None None None None None None None
    None None None.

Definition swap_envelope_default : SwapEnvelope := swap_envelope_new (replicate 16 0).

(** Field assignment, [env.field = ...]. *)
Definition set_swap_id (v : bytes) (e : SwapEnvelope) : SwapEnvelope :=
  mkSwapEnvelope v (e_hashlock e) (e_give_amount e) (e_take_amount e)
    (e_nim_timeout e) (e_counterparty_timeout e) (e_nim_address e)
    (e_counterparty_address e) (e_leg e) (e_tx_wire e) (e_tx_id e) (e_network_id e)
    (e_reason e) (e_btc_pubkey e) (e_nim_pubkey e) (e_propose_sig e).

Definition set_hashlock (v : option bytes) (e : SwapEnvelope) : SwapEnvelope :=
  mkSwapEnvelope (e_swap_id e) v (e_give_amount e) (e_take_amount e) (e_nim_timeout e)
    (e_counterparty_timeout e) (e_nim_address e) (e_counterparty_address e) (e_leg e)
    (e_tx_wire e) (e_tx_id e) (e_network_id e) (e_reason e) (e_btc_pubkey e)
    (e_nim_pubkey e) (e_propose_sig e).

Definition set_give_amount (v : option Z) (e : SwapEnvelope) : SwapEnvelope :=
  mkSwapEnvelope (e_swap_id e) (e_hashlock e) v (e_take_amount e) (e_nim_timeout e)
    (e_counterparty_timeout e) (e_nim_address e) (e_counterparty_address e) (e_leg e)
    (e_tx_wire e) (e_tx_id e) (e_network_id e) (e_reason e) (e_btc_pubkey e)
    (e_nim_pubkey e) (e_propose_sig e).

Definition set_take_amount (v : option Z) (e : SwapEnvelope) : SwapEnvelope :=
  mkSwapEnvelope (e_swap_id e) (e_hashlock e) (e_give_amount e) v (e_nim_timeout e)
    (e_counterparty_timeout e) (e_nim_address e) (e_counterparty_address e) (e_leg e)
    (e_tx_wire e) (e_tx_id e) (e_network_id e) (e_reason e) (e_btc_pubkey e)
    (e_nim_pubkey e) (e_propose_sig e).

Definition set_nim_timeout (v : option Z) (e : SwapEnvelope) : SwapEnvelope :=
  mkSwapEnvelope (e_swap_id e) (e_hashlock e) (e_give_amount e) (e_take_amount e) v
    (e_counterparty_timeout e) (e_nim_address e) (e_counterparty_address e) (e_leg e)
    (e_tx_wire e) (e_tx_id e) (e_network_id e) (e_reason e) (e_btc_pubkey e)
    (e_nim_pubkey e) (e_propose_sig e).

Definition set_counterparty_timeout (v : option Z) (e : SwapEnvelope) : SwapEnvelope :=
  mkSwapEnvelope (e_swap_id e) (e_hashlock e) (e_give_amount e) (e_take_amount e)
    (e_nim_timeout e) v (e_nim_address e) (e_counterparty_address e) (e_leg e)
    (e_tx_wire e) (e_tx_id e) (e_network_id e) (e_reason e) (e_btc_pubkey e)
    (e_nim_pubkey e) (e_propose_sig e).

Definition set_nim_address (v : option bytes) (e : SwapEnvelope) : SwapEnvelope :=
  mkSwapEnvelope (e_swap_id e) (e_hashlock e) (e_give_amount e) (e_take_amount e)
    (e_nim_timeout e) (e_counterparty_timeout e) v (e_counterparty_address e)
    (e_leg e) (e_tx_wire e) (e_tx_id e) (e_network_id e) (e_reason e) (e_btc_pubkey e)
    (e_nim_pubkey e) (e_propose_sig e).

Definition set_counterparty_address (v : option bytes) (e : SwapEnvelope) : SwapEnvelope :=
  mkSwapEnvelope (e_swap_id e) (e_hashlock e) (e_give_amount e) (e_take_amount e)
    (e_nim_timeout e) (e_counterparty_timeout e) (e_nim_address e) v (e_leg e)
    (e_tx_wire e) (e_tx_id e) (e_network_id e) (e_reason e) (e_btc_pubkey e)
    (e_nim_pubkey e) (e_propose_sig e).

Definition set_leg (v : option SwapLegId) (e : SwapEnvelope) : SwapEnvelope :=
  mkSwapEnvelope (e_swap_id e) (e_hashlock e) (e_give_amount e) (e_take_amount e)
    (e_nim_timeout e) (e_counterparty_timeout e) (e_nim_address e)
    (e_counterparty_address e) v (e_tx_wire e) (e_tx_id e) (e_network_id e)
    (e_reason e) (e_btc_pubkey e) (e_nim_pubkey e) (e_propose_sig e).

Definition set_tx_wire (v : option bytes) (e : SwapEnvelope) : SwapEnvelope :=
  mkSwapEnvelope (e_swap_id e) (e_hashlock e) (e_give_amount e) (e_take_amount e)
    (e_nim_timeout e) (e_counterparty_timeout e) (e_nim_address e)
    (e_counterparty_address e) (e_leg e) v (e_tx_id e) (e_network_id e) (e_reason e)
    (e_btc_pubkey e) (e_nim_pubkey e) (e_propose_sig e).

Definition set_tx_id (v : option bytes) (e : SwapEnvelope) : SwapEnvelope :=
  mkSwapEnvelope (e_swap_id e) (e_hashlock e) (e_give_amount e) (e_take_amount e)
    (e_nim_timeout e) (e_counterparty_timeout e) (e_nim_address e)
    (e_counterparty_address e) (e_leg e) (e_tx_wire e) v (e_network_id e) (e_reason e)
    (e_btc_pubkey e) (e_nim_pubkey e) (e_propose_sig e).

Definition set_network_id (v : option Z) (e : SwapEnvelope) : SwapEnvelope :=
  mkSwapEnvelope (e_swap_id e) (e_hashlock e) (e_give_amount e) (e_take_amount e)
    (e_nim_timeout e) (e_counterparty_timeout e) (e_nim_address e)
    (e_counterparty_address e) (e_leg e) (e_tx_wire e) (e_tx_id e) v (e_reason e)
    (e_btc_pubkey e) (e_nim_pubkey e) (e_propose_sig e).

Definition set_reason (v : option Z) (e : SwapEnvelope) : SwapEnvelope :=
  mkSwapEnvelope (e_swap_id e) (e_hashlock e) (e_give_amount e) (e_take_amount e)
    (e_nim_timeout e) (e_counterparty_timeout e) (e_nim_address e)
    (e_counterparty_address e) (e_leg e) (e_tx_wire e) (e_tx_id e) (e_network_id e) v
    (e_btc_pubkey e) (e_nim_pubkey e) (e_propose_sig e).

Definition set_btc_pubkey (v : option bytes) (e : SwapEnvelope) : SwapEnvelope :=
  mkSwapEnvelope (e_swap_id e) (e_hashlock e) (e_give_amount e) (e_take_amount e)
    (e_nim_timeout e) (e_counterparty_timeout e) (e_nim_address e)
    (e_counterparty_address e) (e_leg e) (e_tx_wire e) (e_tx_id e) (e_network_id e)
    (e_reason e) v (e_nim_pubkey e) (e_propose_sig e).

Definition set_nim_pubkey (v : option bytes) (e : SwapEnvelope) : SwapEnvelope :=
  mkSwapEnvelope (e_swap_id e) (e_hashlock e) (e_give_amount e) (e_take_amount e)
    (e_nim_timeout e) (e_counterparty_timeout e) (e_nim_address e)
    (e_counterparty_address e) (e_leg e) (e_tx_wire e) (e_tx_id e) (e_network_id e)
    (e_reason e) (e_btc_pubkey e) v (e_propose_sig e).

Definition set_propose_sig (v : option bytes) (e : SwapEnvelope) : SwapEnvelope :=
  mkSwapEnvelope (e_swap_id e) (e_hashlock e) (e_give_amount e) (e_take_amount e)
    (e_nim_timeout e) (e_counterparty_timeout e) (e_nim_address e)
    (e_counterparty_address e) (e_leg e) (e_tx_wire e) (e_tx_id e) (e_network_id e)
    (e_reason e) (e_btc_pubkey e) (e_nim_pubkey e) v.

Definition required_fields (kind : SwapKind) : list Z :=
  match kind with
  | Propose =>
      [T_HASHLOCK; T_GIVE_AMOUNT; T_TAKE_AMOUNT; T_NIM_TIMEOUT; T_COUNTERPARTY_TIMEOUT;
       T_NIM_ADDRESS; T_COUNTERPARTY_ADDRESS; T_NETWORK_ID; T_BTC_PUBKEY]
  | Accept => [T_NIM_ADDRESS; T_COUNTERPARTY_ADDRESS; T_BTC_PUBKEY]
  | FundingProof => [T_LEG; T_TX_WIRE; T_TX_ID]
  | PreimageReveal => [T_LEG; T_TX_WIRE; T_TX_ID]
  | Abort => [T_REASON]
  end.

Inductive SwapWireError : Type :=
| SwValueTooLong (tlv_type l : Z)
| SwTruncated (offset : Z)
| SwBadFieldLength (tlv_type l : Z)
| SwBadFieldValue (tlv_type : Z)
| SwMissingRequiredField (tlv_type : Z).

(** [&[x]] for a one-byte field. *)
Definition one (x : Z) : bytes := [x].
Definition leg_bytes (l : SwapLegId) : bytes := [leg_to_u8 l].

Definition encode_swap (env : SwapEnvelope) : res SwapWireError bytes :=
  let buf := [] in
  let? buf := push_tlv SwValueTooLong buf T_SWAP_ID (e_swap_id env) in
  let? buf := push_opt SwValueTooLong buf T_HASHLOCK id (e_hashlock env) in
  let? buf := push_opt SwValueTooLong buf T_GIVE_AMOUNT (be_bytes 8) (e_give_amount env) in
  let? buf := push_opt SwValueTooLong buf T_TAKE_AMOUNT (be_bytes 8) (e_take_amount env) in
  let? buf := push_opt SwValueTooLong buf T_NIM_TIMEOUT (be_bytes 8) (e_nim_timeout env) in
  let? buf := push_opt SwValueTooLong buf T_COUNTERPARTY_TIMEOUT (be_bytes 8) (e_counterparty_timeout env) in
  let? buf := push_opt SwValueTooLong buf T_NIM_ADDRESS id (e_nim_address env) in
  let? buf := push_opt SwValueTooLong buf T_COUNTERPARTY_ADDRESS id (e_counterparty_address env) in
  let? buf := push_opt SwValueTooLong buf T_LEG leg_bytes (e_leg env) in
  let? buf := push_opt SwValueTooLong buf T_TX_WIRE id (e_tx_wire env) in
  let? buf := push_opt SwValueTooLong buf T_TX_ID id (e_tx_id env) in
  let? buf := push_opt SwValueTooLong buf T_NETWORK_ID one (e_network_id env) in
  let? buf := push_opt SwValueTooLong buf T_REASON one (e_reason env) in
  let? buf := push_opt SwValueTooLong buf T_BTC_PUBKEY id (e_btc_pubkey env) in
  let? buf := push_opt SwValueTooLong buf T_PROPOSE_PUBKEY id (e_nim_pubkey env) in
  let? buf := push_opt SwValueTooLong buf T_PROPOSE_SIG id (e_propose_sig env) in
  Ok buf.

Definition read_u64 (value : bytes) (tlv_type : Z) : res SwapWireError Z :=
  let? arr := ok_or (try_array 8 value) (SwBadFieldLength tlv_type (len value)) in
  Ok (from_be arr).

(** The loop state of [decode_swap]: the envelope under construction,
    [seen_swap_id] and the [present] types. *)
Abbreviation DecodeState := (SwapEnvelope * bool * list Z)%type (only parsing).

(** One [match tlv_type] arm after [present.push(tlv_type)]. *)
Definition swap_field (t l : Z) (value : bytes) (s : DecodeState)
  : res SwapWireError DecodeState :=
  let '(env, seen, present) := s in
  let present := present ++ [t] in
  if t =? T_SWAP_ID then
    let? a := ok_or (try_array 16 value) (SwBadFieldLength t l) in
    Ok (set_swap_id a env, true, present)
  else if t =? T_HASHLOCK then
    let? a := ok_or (try_array 32 value) (SwBadFieldLength t l) in
    Ok (set_hashlock (Some a) env, seen, present)
  else if t =? T_GIVE_AMOUNT then
    let? v := read_u64 value t in Ok (set_give_amount (Some v) env, seen, present)
  else if t =? T_TAKE_AMOUNT then
    let? v := read_u64 value t in Ok (set_take_amount (Some v) env, seen, present)
  else if t =? T_NIM_TIMEOUT then
    let? v := read_u64 value t in Ok (set_nim_timeout (Some v) env, seen, present)
  else if t =? T_COUNTERPARTY_TIMEOUT then
    let? v := read_u64 value t in Ok (set_counterparty_timeout (Some v) env, seen, present)
  else if t =? T_NIM_ADDRESS then
    let? a := ok_or (try_array 20 value) (SwBadFieldLength t l) in
    Ok (set_nim_address (Some a) env, seen, present)
  else if t =? T_COUNTERPARTY_ADDRESS then
    Ok (set_counterparty_address (Some value) env, seen, present)
  else if t =? T_LEG then
    if negb (l =? 1) then Err (SwBadFieldLength t l) else
    let? b := idx value 0 in
    let? lg := ok_or (leg_from_u8 b) (SwBadFieldValue t) in
    Ok (set_leg (Some lg) env, seen, present)
  else if t =? T_TX_WIRE then
    Ok (set_tx_wire (Some value) env, seen, present)
  else if t =? T_TX_ID then
    let? a := ok_or (try_array 32 value) (SwBadFieldLength t l) in
    Ok (set_tx_id (Some a) env, seen, present)
  else if t =? T_NETWORK_ID then
    if negb (l =? 1) then Err (SwBadFieldLength t l) else
    let? b := idx value 0 in Ok (set_network_id (Some b) env, seen, present)
  else if t =? T_REASON then
    if negb (l =? 1) then Err (SwBadFieldLength t l) else
    let? b := idx value 0 in Ok (set_reason (Some b) env, seen, present)
  else if t =? T_BTC_PUBKEY then
    let? a := ok_or (try_array 33 value) (SwBadFieldLength t l) in
    Ok (set_btc_pubkey (Some a) env, seen, present)
  else if t =? T_PROPOSE_PUBKEY then
    let? a := ok_or (try_array 32 value) (SwBadFieldLength t l) in
    Ok (set_nim_pubkey (Some a) env, seen, present)
  else if t =? T_PROPOSE_SIG then
    let? a := ok_or (try_array 64 value) (SwBadFieldLength t l) in
    Ok (set_propose_sig (Some a) env, seen, present)
  else Ok (env, seen, present).

(** [for &req in required_fields(kind) { if !present.contains(&req) ... }] *)
Fixpoint check_required (reqs present : list Z) : res SwapWireError unit :=
  match reqs with
  | [] => Ok tt
  | req :: reqs =>
      if negb (bool_decide (req ∈ present)) then Err (SwMissingRequiredField req)
      else check_required reqs present
  end.

Definition decode_swap (kind : SwapKind) (b : bytes) : res SwapWireError SwapEnvelope :=
  let? (st, present) := tlv_decode SwTruncated swap_field b (swap_envelope_default, false, []) in
  let '(env, seen) := st in
  if negb seen then Err (SwMissingRequiredField T_SWAP_ID) else
  let? _ := check_required (required_fields kind) present in
  Ok env.

(** ** Well-formedness *)

Definition opt_ok {A} (P : A -> Prop) (o : option A) : Prop :=
  match o with Some x => P x | None => True end.

Record swap_env_ok (e : SwapEnvelope) : Prop := {
  so_swap_id : array_ok 16 (e_swap_id e);
  so_hashlock : opt_ok (array_ok 32) (e_hashlock e);
  so_give_amount : opt_ok (uN 64) (e_give_amount e);
  so_take_amount : opt_ok (uN 64) (e_take_amount e);
  so_nim_timeout : opt_ok (uN 64) (e_nim_timeout e);
  so_counterparty_timeout : opt_ok (uN 64) (e_counterparty_timeout e);
  so_nim_address : opt_ok (array_ok 20) (e_nim_address e);
  so_counterparty_address : opt_ok (fun v => bytes_ok v) (e_counterparty_address e);
  so_tx_wire : opt_ok (fun v => bytes_ok v) (e_tx_wire e);
  so_tx_id : opt_ok (array_ok 32) (e_tx_id e);
  so_network_id : opt_ok (uN 8) (e_network_id e);
  so_reason : opt_ok (uN 8) (e_reason e);
  so_btc_pubkey : opt_ok (array_ok 33) (e_btc_pubkey e);
  so_nim_pubkey : opt_ok (array_ok 32) (e_nim_pubkey e);
  so_propose_sig : opt_ok (array_ok 64) (e_propose_sig e)
}.

(** The records of an envelope, in ascending type order. *)
Definition swap_items (e : SwapEnvelope) : list (Z * bytes) :=
  [(T_SWAP_ID, e_swap_id e)]
  ++ opt_item T_HASHLOCK id (e_hashlock e)
  ++ opt_item T_GIVE_AMOUNT (be_bytes 8) (e_give_amount e)
  ++ opt_item T_TAKE_AMOUNT (be_bytes 8) (e_take_amount e)
  ++ opt_item T_NIM_TIMEOUT (be_bytes 8) (e_nim_timeout e)
  ++ opt_item T_COUNTERPARTY_TIMEOUT (be_bytes 8) (e_counterparty_timeout e)
  ++ opt_item T_NIM_ADDRESS id (e_nim_address e)
  ++ opt_item T_COUNTERPARTY_ADDRESS id (e_counterparty_address e)
  ++ opt_item T_LEG leg_bytes (e_leg e)
  ++ opt_item T_TX_WIRE id (e_tx_wire e)
  ++ opt_item T_TX_ID id (e_tx_id e)
  ++ opt_item T_NETWORK_ID one (e_network_id e)
  ++ opt_item T_REASON one (e_reason e)
  ++ opt_item T_BTC_PUBKEY id (e_btc_pubkey e)
  ++ opt_item T_PROPOSE_PUBKEY id (e_nim_pubkey e)
  ++ opt_item T_PROPOSE_SIG id (e_propose_sig e).

(** Whether the field of a required type is set. *)
Definition has_field (e : SwapEnvelope) (t : Z) : bool :=
  if t =? T_HASHLOCK then bool_decide (is_Some (e_hashlock e))
  else if t =? T_GIVE_AMOUNT then bool_decide (is_Some (e_give_amount e))
  else if t =? T_TAKE_AMOUNT then bool_decide (is_Some (e_take_amount e))
  else if t =? T_NIM_TIMEOUT then bool_decide (is_Some (e_nim_timeout e))
  else if t =? T_COUNTERPARTY_TIMEOUT then bool_decide (is_Some (e_counterparty_timeout e))
  else if t =? T_NIM_ADDRESS then bool_decide (is_Some (e_nim_address e))
  else if t =? T_COUNTERPARTY_ADDRESS then bool_decide (is_Some (e_counterparty_address e))
  else if t =? T_LEG then bool_decide (is_Some (e_leg e))
  else if t =? T_TX_WIRE then bool_decide (is_Some (e_tx_wire e))
  else if t =? T_TX_ID then bool_decide (is_Some (e_tx_id e))
  else if t =? T_NETWORK_ID then bool_decide (is_Some (e_network_id e))
  else if t =? T_REASON then bool_decide (is_Some (e_reason e))
  else if t =? T_BTC_PUBKEY then bool_decide (is_Some (e_btc_pubkey e))
  else if t =? T_PROPOSE_PUBKEY then bool_decide (is_Some (e_nim_pubkey e))
  else if t =? T_PROPOSE_SIG then bool_decide (is_Some (e_propose_sig e))
  else t =? T_SWAP_ID.

(** ** Lemmas: the encoder *)

Lemma encode_swap_items e : encode_swap e = push_items SwValueTooLong [] (swap_items e).
Proof. unfold encode_swap, swap_items. push_chain. now destruct (push_items _ _ _). Qed.

(** ** Lemmas: the field actions on the records of an envelope *)

Lemma read_u64_be v t : uN 64 v -> read_u64 (be_bytes 8 v) t = Ok v.
Proof.
  intros Hv. unfold read_u64. rewrite try_array_length by apply length_be_bytes.
  cbn [ok_or]. f_equal. now apply from_be_be_bytes.
Qed.

Lemma try_array_ok n v : array_ok (Z.of_nat n) v -> try_array n v = Some v.
Proof. intros [H _]. apply try_array_length. unfold len in H. lia. Qed.

Lemma fold_opt_set {A} t (f : A -> bytes) (set : option A -> SwapEnvelope -> SwapEnvelope)
    o env pr :
  (forall v, o = Some v ->
     swap_field t (len (f v)) (f v) (env, true, pr) = Ok (set (Some v) env, true, pr ++ [t])) ->
  set None env = env ->
  fold_fields swap_field (opt_item t f o) (env, true, pr)
  = Ok (set o env, true, pr ++ map fst (opt_item t f o)).
Proof.
  intros Hs Hn. destruct o as [v|]; cbn [opt_item fold_fields map fst].
  - now rewrite (Hs v eq_refl).
  - now rewrite Hn, app_nil_r.
Qed.

(** Each record sets its field: [swap_field] runs to the arm of its type. *)
Ltac field_step :=
  let v := fresh "v" in let H := fresh "H" in
  intros v H;
  try match type of H with ?o = _ =>
    match goal with K : opt_ok _ o |- _ => rewrite H in K; cbn [opt_ok] in K end end;
  match goal with |- context [(?e, true, ?p)] => generalize e; generalize p end;
  intros; unfold swap_field; cbn -[be_bytes try_array read_u64 len set_swap_id]; unfold id;
  rewrite ?read_u64_be, ?try_array_ok by assumption; reflexivity.

(** Keep the envelope under construction a record literal. *)
Ltac norm_env :=
  cbv beta iota delta [set_swap_id set_hashlock set_give_amount set_take_amount set_nim_timeout
       set_counterparty_timeout set_nim_address set_counterparty_address set_leg
       set_tx_wire set_tx_id set_network_id set_reason set_btc_pubkey set_nim_pubkey
       set_propose_sig e_swap_id e_hashlock e_give_amount e_take_amount e_nim_timeout
       e_counterparty_timeout e_nim_address e_counterparty_address e_leg e_tx_wire
       e_tx_id e_network_id e_reason e_btc_pubkey e_nim_pubkey e_propose_sig
       swap_envelope_default swap_envelope_new].

(** The next record of the fold is the one of type [t]; it sets its field. *)
Ltac next_field t set :=
  rewrite ?fold_fields_app;
  rewrite (fold_opt_set t _ set)
    by (field_step || (intros [] ?; reflexivity) || reflexivity);
  norm_env.

Lemma fold_swap_items e :
  swap_env_ok e ->
  fold_fields swap_field (swap_items e) (swap_envelope_default, false, [])
  = Ok (e, true, map fst (swap_items e)).
Proof.
  intros [? ? ? ? ? ? ? ? ? ? ? ? ? ? ?].
  destruct e as [si hl ga ta nt ct na ca lg tw ti ni rs bp np ps]. unfold swap_items.
  cbn [e_swap_id e_hashlock e_give_amount e_take_amount e_nim_timeout
       e_counterparty_timeout e_nim_address e_counterparty_address e_leg e_tx_wire
       e_tx_id e_network_id e_reason e_btc_pubkey e_nim_pubkey e_propose_sig] in *.
  rewrite fold_fields_app. cbn [fold_fields].
  assert (H0 : swap_field T_SWAP_ID (len si) si
                 (swap_envelope_default, false, [])
               = Ok (set_swap_id si swap_envelope_default, true, [T_SWAP_ID])).
  { unfold swap_field; simpl. now rewrite try_array_ok. }
  rewrite H0. clear H0. norm_env.
  next_field T_HASHLOCK set_hashlock.
  next_field T_GIVE_AMOUNT set_give_amount.
  next_field T_TAKE_AMOUNT set_take_amount.
  next_field T_NIM_TIMEOUT set_nim_timeout.
  next_field T_COUNTERPARTY_TIMEOUT set_counterparty_timeout.
  next_field T_NIM_ADDRESS set_nim_address.
  next_field T_COUNTERPARTY_ADDRESS set_counterparty_address.
  next_field T_LEG set_leg.
  next_field T_TX_WIRE set_tx_wire.
  next_field T_TX_ID set_tx_id.
  next_field T_NETWORK_ID set_network_id.
  next_field T_REASON set_reason.
  next_field T_BTC_PUBKEY set_btc_pubkey.
  next_field T_PROPOSE_PUBKEY set_nim_pubkey.
  next_field T_PROPOSE_SIG set_propose_sig.
  rewrite !map_app, !app_assoc. reflexivity.
Qed.

Lemma opt_item_types {A} t (f : A -> bytes) o :
  uN 8 t -> Forall (fun it => uN 8 it.1) (opt_item t f o).
Proof. destruct o; simpl; auto. Qed.

Lemma swap_items_types e : Forall (fun it => uN 8 it.1) (swap_items e).
Proof.
  unfold swap_items. rewrite !Forall_app.
  split_and!; try (apply opt_item_types; split; vm_compute; congruence).
  repeat constructor; vm_compute; congruence.
Qed.

Lemma len_opt_item {A} t (f : A -> bytes) o : len (opt_item t f o) <= 1.
Proof. destruct o; vm_compute; congruence. Qed.

Lemma len_swap_items e : len (swap_items e) <= 16.
Proof.
  unfold swap_items. rewrite !len_app.
  repeat match goal with |- context [len (opt_item ?t ?f ?o)] =>
    let H := fresh in pose proof (len_opt_item t f o) as H;
    generalize dependent (len (opt_item t f o)); intros end.
  change (len [(T_SWAP_ID, e_swap_id e)]) with 1. lia.
Qed.

(** Which fields were present on the wire. *)
Lemma elem_opt_item {A} t t' (f : A -> bytes) o :
  t ∈ map fst (opt_item t' f o) <-> t = t' /\ is_Some o.
Proof.
  destruct o; simpl; [rewrite list_elem_of_singleton | rewrite elem_of_nil];
    split; intros; try tauto; try (split; eauto; tauto).
  destruct H as [_ []]; discriminate.
Qed.

Lemma has_field_items e t :
  has_field e t = true <-> t ∈ map fst (swap_items e).
Proof.
  unfold swap_items. rewrite !map_app, !elem_of_app, !elem_opt_item.
  cbn [map fst]. rewrite list_elem_of_singleton. unfold has_field.
  repeat (match goal with |- context [if t =? ?c then _ else _] =>
    destruct (Z.eqb_spec t c) as [->|] end;
    [rewrite bool_decide_eq_true; split;
      [tauto | intros K; repeat (destruct K as [K|K]);
               solve [destruct K; assumption | discriminate K | destruct K; discriminate]]|]).
  rewrite Z.eqb_eq. tauto.
Qed.

Lemma check_required_spec reqs present :
  check_required reqs present
  = match List.find (fun t => negb (bool_decide (t ∈ present))) reqs with
    | None => Ok tt
    | Some t => Err (SwMissingRequiredField t)
    end.
Proof.
  induction reqs as [|r reqs IH]; [reflexivity|]. simpl.
  destruct (negb (bool_decide (r ∈ present))); auto.
Qed.

Lemma check_required_has e reqs :
  check_required reqs (map fst (swap_items e))
  = match List.find (fun t => negb (has_field e t)) reqs with
    | None => Ok tt
    | Some t => Err (SwMissingRequiredField t)
    end.
Proof.
  rewrite check_required_spec.
  assert (Heq : forall l, List.find (fun t => negb (bool_decide (t ∈ map fst (swap_items e)))) l
                = List.find (fun t => negb (has_field e t)) l); [|now rewrite Heq].
  induction l as [|t l IH]; [reflexivity|]. cbn [List.find]. rewrite IH.
  replace (bool_decide (t ∈ map fst (swap_items e))) with (has_field e t); [reflexivity|].
  apply eq_true_iff_eq. rewrite bool_decide_eq_true. apply has_field_items.
Qed.

(** ** Lemmas: arbitrary input *)

Lemma swap_field_no_panic t v s :
  bytes_ok v -> len v <= MAX_TLV_VALUE_LEN -> swap_field t (len v) v s <> Panic.
Proof.
  intros _ _. destruct s as [[env seen] present]. unfold swap_field, read_u64, ok_or.
  repeat (case_goal; bool_prop; try discriminate); simplify_eq;
    match goal with H : idx _ _ = Panic |- _ => apply idx_panic in H; lia
                  | H : idx _ _ = Err _ |- _ => destruct (idx_not_err _ _ _ H)
                  | H : match ?x with _ => _ end = Panic |- _ => destruct x; discriminate end.
Qed.

(** What every record preserves: the fields are in range, a long value never
    got in, and a present type has its field set. *)
Definition short (v : bytes) : Prop := len v <= MAX_TLV_VALUE_LEN.

Definition decode_state_ok (s : DecodeState) : Prop :=
  let '(env, seen, present) := s in
  swap_env_ok env
  /\ opt_ok short (e_counterparty_address env) /\ opt_ok short (e_tx_wire env)
  /\ forall t, t ∈ present -> 2 <= t <= 16 -> has_field env t = true.

Lemma try_array_some n v a : bytes_ok v -> try_array n v = Some a -> array_ok (Z.of_nat n) a.
Proof. intros Hv [-> Hl]%try_array_inv. split; [unfold len; lia | exact Hv]. Qed.

Lemma read_u64_some v t x : bytes_ok v -> read_u64 v t = Ok x -> uN 64 x.
Proof.
  intros Hv H. unfold read_u64, ok_or in H.
  destruct (try_array 8 v) as [a|] eqn:E; [|discriminate]. injection H as <-.
  apply try_array_some in E as [El Eb]; [|assumption].
  unfold uN. pose proof (from_be_bound a Eb). rewrite El in *. exact H.
Qed.

Lemma present_snoc present t env env' :
  (forall t', t' ∈ present -> 2 <= t' <= 16 -> has_field env t' = true) ->
  (forall t', has_field env t' = true -> has_field env' t' = true) ->
  (2 <= t <= 16 -> has_field env' t = true) ->
  forall t', t' ∈ present ++ [t] -> 2 <= t' <= 16 -> has_field env' t' = true.
Proof.
  intros H1 H2 H3 t' [Ht|Ht]%elem_of_app Hr; [eauto|].
  apply list_elem_of_singleton in Ht as ->. auto.
Qed.

(** Setting a field keeps the fields that are set. *)
Ltac has_field_mono :=
  let t := fresh "t" in intros t; unfold has_field; norm_env;
  repeat match goal with |- context [if t =? ?c then _ else _] =>
    destruct (Z.eqb_spec t c); [solve [auto]|] end; auto.

Lemma swap_field_inv t v s s' :
  bytes_ok v -> len v <= MAX_TLV_VALUE_LEN -> decode_state_ok s ->
  swap_field t (len v) v s = Ok s' -> decode_state_ok s'.
Proof.
  intros Hv Hl Hi H. destruct s as [[env seen] present].
  destruct Hi as ([] & Hca & Htw & Hp). unfold swap_field, ok_or in H.
  repeat (case_hyp H; try discriminate H); simplify_eq; bool_prop; subst;
    (split; [constructor; simpl; auto; first
               [ match goal with H : try_array ?n v = Some ?l |- array_ok _ ?l =>
                   exact (try_array_some n v l Hv H) end
               | eapply read_u64_some; eassumption | eapply idx_byte; eassumption ]
            | split_and!; simpl; auto; apply (present_snoc _ _ _ _ Hp)]);
    try (intros; reflexivity); try solve [destruct env; has_field_mono].
  intros Ht. exfalso. unfold T_SWAP_ID, T_HASHLOCK, T_GIVE_AMOUNT, T_TAKE_AMOUNT, T_NIM_TIMEOUT,
    T_COUNTERPARTY_TIMEOUT, T_NIM_ADDRESS, T_COUNTERPARTY_ADDRESS, T_LEG, T_TX_WIRE, T_TX_ID,
    T_NETWORK_ID, T_REASON, T_BTC_PUBKEY, T_PROPOSE_PUBKEY, T_PROPOSE_SIG in *. lia.
Qed.

(** Only the two free-form values can overflow the length byte. *)
Lemma opt_item_values {A} t (f : A -> bytes) o (P : Z * bytes -> Prop) :
  opt_ok (fun x => P (t, f x)) o -> Forall P (opt_item t f o).
Proof. destruct o; simpl; auto. Qed.

Lemma array_short n v : array_ok n v -> n <= 255 -> short v.
Proof. intros [H _] Hn. unfold short, MAX_TLV_VALUE_LEN. lia. Qed.

Lemma swap_items_values e :
  swap_env_ok e ->
  Forall (fun it => short it.2 \/ it.1 = T_COUNTERPARTY_ADDRESS \/ it.1 = T_TX_WIRE)
    (swap_items e).
Proof.
  intros []. unfold swap_items. rewrite !Forall_app. split_and!;
    try (apply opt_item_values;
         match goal with |- opt_ok _ ?o => destruct o as [x|]; [|exact I] end; simpl in *;
         first [ left; eapply array_short; [eassumption | lia]
               | left; vm_compute; congruence | tauto ]).
  constructor; [left; eapply array_short; [eassumption | lia] | constructor].
Qed.

Lemma swap_items_short e :
  swap_env_ok e -> opt_ok short (e_counterparty_address e) -> opt_ok short (e_tx_wire e) ->
  Forall (fun it => len it.2 <= MAX_TLV_VALUE_LEN) (swap_items e).
Proof.
  intros [] Hca Htw. unfold swap_items. rewrite !Forall_app. split_and!;
    try (apply opt_item_values;
         match goal with |- opt_ok _ ?o => destruct o as [x|]; [|exact I] end; simpl in *;
         first [ assumption | eapply array_short; [eassumption | lia]
               | vm_compute; congruence ]).
  constructor; [eapply array_short; [eassumption | lia] | constructor].
Qed.

(** What the far side makes of an encoded envelope. *)
Lemma decode_swap_items k e :
  swap_env_ok e -> Forall (fun it => len it.2 <= MAX_TLV_VALUE_LEN) (swap_items e) ->
  decode_swap k (concat (map tlv_bytes (swap_items e)))
  = match List.find (fun t => negb (has_field e t)) (required_fields k) with
    | None => Ok e
    | Some t => Err (SwMissingRequiredField t)
    end.
Proof.
  intros He Hl. unfold decode_swap.
  pose proof (len_tlv_items _ Hl). pose proof (len_swap_items e).
  rewrite tlv_decode_items, fold_swap_items; [|assumption| |lia].
  - cbn beta iota. cbn [negb]. rewrite check_required_has. now destruct (List.find _ _).
  - apply (Forall_impl (fun it => uN 8 it.1 /\ len it.2 <= MAX_TLV_VALUE_LEN)); [|auto].
    apply Forall_and; split; [apply swap_items_types | assumption].
Qed.

Lemma decode_swap_no_panic k b : bytes_ok b -> decode_swap k b <> Panic.
Proof.
  intros Hb. unfold decode_swap.
  pose proof (tlv_decode_no_panic SwTruncated swap_field swap_field_no_panic b
                (swap_envelope_default, false, []) Hb) as Hn.
  destruct (tlv_decode _ _ _ _) as [[[env seen] present]| |]; [|discriminate|congruence].
  rewrite check_required_spec. repeat case_goal; congruence.
Qed.

(** What a decoded message of kind [k] has. *)
Lemma decode_swap_fields k b e :
  bytes_ok b -> decode_swap k b = Ok e ->
  swap_env_ok e /\ opt_ok short (e_counterparty_address e) /\ opt_ok short (e_tx_wire e)
  /\ forall t, In t (required_fields k) -> has_field e t = true.
Proof.
  intros Hb H. unfold decode_swap in H.
  destruct (tlv_decode _ _ _ _) as [[[env seen] present]| |] eqn:Hd; [|discriminate..].
  apply (tlv_decode_inv _ _ swap_field_no_panic) in Hd as (items & Hi & Hio & _ & Hf); [|assumption].
  apply (fold_fields_inv _ decode_state_ok) in Hf as (Hok & Hca & Htw & Hp);
    [|apply swap_field_inv|assumption..|].
  2: { split_and!; try exact I; [constructor; simpl; try exact I|].
       - split; [reflexivity | now apply bytes_okb_ok].
       - intros t Ht. now apply elem_of_nil in Ht. }
  destruct seen; [|discriminate]. cbn [negb] in H. rewrite check_required_spec in H.
  destruct (List.find _ _) as [r|] eqn:Hfind; [discriminate|]. injection H as <-.
  split_and!; auto. intros t Ht.
  apply Hp; [|destruct k; simpl in Ht; intuition (subst; vm_compute; congruence)].
  pose proof (List.find_none _ _ Hfind t Ht) as Hpr. cbv beta in Hpr. bool_prop. exact Hpr.
Qed.

(** ** Properties *)

(** A swap message survives the wire.  Encoding fails only when the
    counterparty address or the transaction blob does not fit the one-byte
    length; otherwise the receiver of message kind [k] gets the same envelope
    back if every field [k] requires is set, and the error naming the first
    missing one if not. *)
Theorem swap_wire_roundtrip (k : SwapKind) (e : SwapEnvelope) (He : swap_env_ok e) :
  match encode_swap e with
  | Ok b =>
      decode_swap k b
      = match List.find (fun t => negb (has_field e t)) (required_fields k) with
        | None => Ok e
        | Some t => Err (SwMissingRequiredField t)
        end
  | Err (SwValueTooLong t l) => 255 < l /\ (t = T_COUNTERPARTY_ADDRESS \/ t = T_TX_WIRE)
  | _ => False
  end.
Proof.
  rewrite encode_swap_items.
  destruct (push_items SwValueTooLong [] (swap_items e)) as [b|er|] eqn:Hp.
  - pose proof (push_items_inv _ _ _ _ Hp) as Hl. rewrite push_items_ok in Hp by assumption.
    injection Hp as <-. now apply decode_swap_items.
  - apply push_items_err in Hp as (t & v & Hi & Hv & ->).
    pose proof (swap_items_values e He) as Hs. rewrite Forall_forall in Hs.
    specialize (Hs _ Hi). unfold short, MAX_TLV_VALUE_LEN in *. simpl in Hs. split; [lia|].
    destruct Hs; [lia | assumption].
  - now apply push_items_no_panic in Hp.
Qed.

Definition sample_funding : SwapEnvelope :=
  set_leg (Some LegNim) (set_tx_wire (Some [1; 2; 3]) (set_tx_id (Some (replicate 32 9))
    (swap_envelope_new (replicate 16 4)))).

Lemma sample_funding_ok : swap_env_ok sample_funding.
Proof.
  constructor; simpl; try exact I; try (now apply bytes_okb_ok);
    split; try reflexivity; now apply bytes_okb_ok.
Qed.

Lemma swap_wire_roundtrip_witness :
  exists b, encode_swap sample_funding = Ok b
    /\ decode_swap FundingProof b = Ok sample_funding
    /\ decode_swap Abort b = Err (SwMissingRequiredField T_REASON).
Proof.
  eexists. split; [reflexivity|].
  split; [exact (swap_wire_roundtrip FundingProof sample_funding sample_funding_ok)
         |exact (swap_wire_roundtrip Abort sample_funding sample_funding_ok)].
Defined.

(** The swap decoder on hostile bytes: it never panics, and a message it
    accepts as kind [k] has every field [k] requires, all fields in the range
    of their types, and is itself encodable to bytes that decode to it. *)
Theorem decode_swap_sound (k : SwapKind) (b : bytes) (Hb : bytes_ok b) :
  decode_swap k b <> Panic
  /\ forall e, decode_swap k b = Ok e ->
       swap_env_ok e /\ forallb (has_field e) (required_fields k) = true
       /\ exists b', encode_swap e = Ok b' /\ decode_swap k b' = Ok e.
Proof.
  split; [now apply decode_swap_no_panic|].
  intros e (Hok & Hca & Htw & Hreq)%decode_swap_fields; [|assumption].
  split; [assumption|]. split; [now apply forallb_forall|].
  pose proof (swap_items_short e Hok Hca Htw) as Hl.
  rewrite encode_swap_items, push_items_ok, app_nil_l by assumption.
  eexists; split; [reflexivity|]. rewrite decode_swap_items by assumption.
  destruct (List.find _ (required_fields k)) as [t|] eqn:Hf2; [|reflexivity].
  apply List.find_some in Hf2 as [Ht1 Ht2]. rewrite (Hreq t Ht1) in Ht2. discriminate.
Qed.

Lemma decode_swap_sound_witness :
  decode_swap Abort ([1; 16] ++ replicate 16 4 ++ [13; 1; 2]) <> Panic
  /\ decode_swap Abort ([1; 16] ++ replicate 16 4 ++ [13; 1; 2])
     = Ok (set_reason (Some 2) (swap_envelope_new (replicate 16 4))).
Proof.
  split; [|reflexivity].
  apply (decode_swap_sound Abort ([1; 16] ++ replicate 16 4 ++ [13; 1; 2])).
  now apply bytes_okb_ok.
Defined.
