(* ===== verification/Swap.v ===== *)
(** * Swap: the atomic-swap state machine and its safety gates ([swap.rs])

    Heights and timeouts are [u64] values.  A [&mut self] method that returns
    [Result<T, SwapError>] is a function to [res SwapError (Swap * T)]: the
    code assigns [self.phase] only on its success path, so on an error the
    caller keeps the state it had. *)

From stdpp Require Import base list strings.
From Stdlib Require Import ZArith Lia.
From S2P Require Import Prelude SwapWire.
Open Scope Z_scope.

Definition DEFAULT_DELTA_SAFE_BLOCKS : Z := 3600.
Definition DEFAULT_MIN_CLAIM_WINDOW_BLOCKS : Z := 1800.

Inductive SwapRole : Type := Initiator | Responder.

#[export] Instance SwapRole_eq_dec : EqDecision SwapRole.
Proof. solve_decision. Defined.

Record SwapTerms : Type := mkTerms { nim_timeout : Z; counterparty_timeout : Z }.

#[export] Instance SwapTerms_eq_dec : EqDecision SwapTerms.
Proof. solve_decision. Defined.

Record LadderParams : Type := mkLadder {
  delta_safe_blocks : Z;
  min_claim_window_blocks : Z
}.

Definition ladder_default : LadderParams :=
  mkLadder DEFAULT_DELTA_SAFE_BLOCKS DEFAULT_MIN_CLAIM_WINDOW_BLOCKS.

Inductive LadderVerdict : Type :=
| LadderSafe
| Inverted
| MarginTooThin (have need : Z)
| WindowTooShort (have need : Z).

Definition ladder_is_safe (v : LadderVerdict) : bool :=
  match v with LadderSafe => true | _ => false end.

Definition assess_ladder (terms : SwapTerms) (current_head : Z) (params : LadderParams)
  : LadderVerdict :=
  if nim_timeout terms <=? counterparty_timeout terms then Inverted else
  let margin := nim_timeout terms - counterparty_timeout terms in
  if margin <? delta_safe_blocks params then
    MarginTooThin margin (delta_safe_blocks params) else
  let window := sat_sub (counterparty_timeout terms) current_head in
  if window <? min_claim_window_blocks params then
    WindowTooShort window (min_claim_window_blocks params)
  else LadderSafe.

Inductive RevealVerdict : Type :=
| RevealSafe
| DeadlineTooClose (have need : Z).

Definition reveal_is_safe (v : RevealVerdict) : bool :=
  match v with RevealSafe => true | _ => false end.

Definition assess_reveal_deadline (terms : SwapTerms) (current_head : Z) (params : LadderParams)
  : RevealVerdict :=
  let window := sat_sub (counterparty_timeout terms) current_head in
  if window <? min_claim_window_blocks params then
    DeadlineTooClose window (min_claim_window_blocks params)
  else RevealSafe.

Inductive SwapPhase : Type :=
| Proposed
| Accepted
| InitiatorFunded
| SelfFunded
| BothFunded
| Revealed
| Settled
| Aborted
| Refunded
| Lost.

#[export] Instance SwapPhase_eq_dec : EqDecision SwapPhase.
Proof. solve_decision. Defined.

Definition has_funds_locked (p : SwapPhase) : bool :=
  match p with SelfFunded | BothFunded | Revealed => true | _ => false end.

Definition is_terminal (p : SwapPhase) : bool :=
  match p with Settled | Aborted | Refunded | Lost => true | _ => false end.

Inductive SwapError : Type :=
| IllegalTransition (from : SwapPhase) (action : string)
| UnsafeLadder (v : LadderVerdict)
| RevealTooLate (v : RevealVerdict)
| TimeoutNotReached (timeout head : Z).

Inductive SwapAction : Type :=
| FundLeg (leg : SwapLegId) (timeout : Z)
| ClaimLeg (leg : SwapLegId)
| RefundLeg (leg : SwapLegId)
| ActNone.

#[export] Instance SwapAction_eq_dec : EqDecision SwapAction.
Proof. solve_decision. Defined.

Record Swap : Type := mkSwap { role : SwapRole; terms : SwapTerms; phase : SwapPhase }.

#[export] Instance Swap_eq_dec : EqDecision Swap.
Proof. solve_decision. Defined.

Definition swap_new (r : SwapRole) (t : SwapTerms) : Swap := mkSwap r t Proposed.

(** [self.phase = p]. *)
Definition set_phase (s : Swap) (p : SwapPhase) : Swap := mkSwap (role s) (terms s) p.

Definition own_leg (s : Swap) : SwapLegId :=
  match role s with Initiator => LegNim | Responder => LegCounterparty end.

Definition claim_leg (s : Swap) : SwapLegId :=
  match role s with Initiator => LegCounterparty | Responder => LegNim end.

Definition own_timeout (s : Swap) : Z :=
  match role s with
  | Initiator => nim_timeout (terms s)
  | Responder => counterparty_timeout (terms s)
  end.

Definition accept (s : Swap) (current_head : Z) (params : LadderParams)
  : res SwapError (Swap * unit) :=
  if negb (bool_decide (phase s = Proposed)) then
    Err (IllegalTransition (phase s) "accept") else
  let verdict := assess_ladder (terms s) current_head params in
  if negb (ladder_is_safe verdict) then Err (UnsafeLadder verdict) else
  Ok (set_phase s Accepted, tt).

Definition observe_initiator_funded (s : Swap) : res SwapError (Swap * unit) :=
  match role s, phase s with
  | Responder, Accepted => Ok (set_phase s InitiatorFunded, tt)
  | _, _ => Err (IllegalTransition (phase s) "observe_initiator_funded")
  end.

Definition fund (s : Swap) (current_head : Z) (params : LadderParams)
  : res SwapError (Swap * SwapAction) :=
  let legal := match role s, phase s with
               | Initiator, Accepted | Responder, InitiatorFunded => true
               | _, _ => false
               end in
  if negb legal then Err (IllegalTransition (phase s) "fund") else
  let verdict := assess_ladder (terms s) current_head params in
  if negb (ladder_is_safe verdict) then Err (UnsafeLadder verdict) else
  Ok (set_phase s SelfFunded, FundLeg (own_leg s) (own_timeout s)).

Definition observe_counterparty_funded (s : Swap) : res SwapError (Swap * unit) :=
  if negb (bool_decide (phase s = SelfFunded)) then
    Err (IllegalTransition (phase s) "observe_counterparty_funded") else
  Ok (set_phase s BothFunded, tt).

Definition reveal_and_claim (s : Swap) (current_head : Z) (params : LadderParams)
  : res SwapError (Swap * SwapAction) :=
  match role s, phase s with
  | Initiator, BothFunded =>
      let verdict := assess_reveal_deadline (terms s) current_head params in
      if negb (reveal_is_safe verdict) then Err (RevealTooLate verdict) else
      Ok (set_phase s Revealed, ClaimLeg (claim_leg s))
  | _, _ => Err (IllegalTransition (phase s) "reveal_and_claim")
  end.

Definition reveal_deadline_margin (s : Swap) (current_head : Z) : Z :=
  sat_sub (counterparty_timeout (terms s)) current_head.

Definition observe_secret (s : Swap) : res SwapError (Swap * SwapAction) :=
  match role s, phase s with
  | Responder, BothFunded => Ok (set_phase s Revealed, ClaimLeg (claim_leg s))
  | _, _ => Err (IllegalTransition (phase s) "observe_secret")
  end.

Definition observe_settled (s : Swap) : res SwapError (Swap * unit) :=
  if negb (bool_decide (phase s = Revealed)) then
    Err (IllegalTransition (phase s) "observe_settled") else
  Ok (set_phase s Settled, tt).

Definition forfeit_claim (s : Swap) (current_head : Z) : res SwapError (Swap * unit) :=
  match role s, phase s with
  | Responder, Revealed =>
      let timeout := nim_timeout (terms s) in
      if current_head <=? timeout then Err (TimeoutNotReached timeout current_head) else
      Ok (set_phase s Lost, tt)
  | _, _ => Err (IllegalTransition (phase s) "forfeit_claim")
  end.

Definition abort (s : Swap) : res SwapError (Swap * unit) :=
  if has_funds_locked (phase s) || is_terminal (phase s) then
    Err (IllegalTransition (phase s) "abort") else
  Ok (set_phase s Aborted, tt).

Definition refund_after_timeout (s : Swap) (current_head : Z)
  : res SwapError (Swap * SwapAction) :=
  if negb (has_funds_locked (phase s))
     || match role s, phase s with Responder, Revealed => true | _, _ => false end
  then Err (IllegalTransition (phase s) "refund") else
  let timeout := own_timeout s in
  if current_head <=? timeout then Err (TimeoutNotReached timeout current_head) else
  Ok (set_phase s Refunded, RefundLeg (own_leg s)).

(** ** The machine as a transition system

    One event per method, with the head it is called at; [apply_event] runs
    the method, and a bookkeeping method yields [ActNone]. *)

Inductive SwapEvent : Type :=
| EvAccept (head : Z)
| EvObserveInitiatorFunded
| EvFund (head : Z)
| EvObserveCounterpartyFunded
| EvReveal (head : Z)
| EvObserveSecret
| EvObserveSettled
| EvForfeit (head : Z)
| EvAbort
| EvRefund (head : Z).

Definition quiet (r : res SwapError (Swap * unit)) : res SwapError (Swap * SwapAction) :=
  let? (s, _) := r in Ok (s, ActNone).

Definition apply_event (params : LadderParams) (s : Swap) (ev : SwapEvent)
  : res SwapError (Swap * SwapAction) :=
  match ev with
  | EvAccept h => quiet (accept s h params)
  | EvObserveInitiatorFunded => quiet (observe_initiator_funded s)
  | EvFund h => fund s h params
  | EvObserveCounterpartyFunded => quiet (observe_counterparty_funded s)
  | EvReveal h => reveal_and_claim s h params
  | EvObserveSecret => observe_secret s
  | EvObserveSettled => quiet (observe_settled s)
  | EvForfeit h => quiet (forfeit_claim s h)
  | EvAbort => quiet (abort s)
  | EvRefund h => refund_after_timeout s h
  end.

(** A run: the events that succeeded, with the on-chain actions they asked
    for, from the first to the last. *)
Inductive run (params : LadderParams) : Swap -> list (SwapEvent * SwapAction) -> Swap -> Prop :=
| run_nil s : run params s [] s
| run_snoc s tr s1 ev act s2 :
    run params s tr s1 -> apply_event params s1 ev = Ok (s2, act) ->
    run params s (tr ++ [(ev, act)]) s2.

(** Run a list of events, all of which must succeed. *)
Fixpoint exec (params : LadderParams) (s : Swap) (evs : list SwapEvent)
  : res SwapError (Swap * list (SwapEvent * SwapAction)) :=
  match evs with
  | [] => Ok (s, [])
  | ev :: evs =>
      let? (s1, a) := apply_event params s ev in
      let? (s2, tr) := exec params s1 evs in
      Ok (s2, (ev, a) :: tr)
  end.

(** The on-chain actions of a run. *)
Definition chain_actions (tr : list (SwapEvent * SwapAction)) : list SwapAction :=
  List.filter (fun a => negb (bool_decide (a = ActNone))) (map snd tr).

(** Progress of a phase; every transition goes up. *)
Definition phase_rank (p : SwapPhase) : Z :=
  match p with
  | Proposed => 0 | Accepted => 1 | InitiatorFunded => 2 | SelfFunded => 3
  | BothFunded => 4 | Revealed => 5 | Settled | Aborted | Refunded | Lost => 6
  end.

(** ** Lemmas: the gates *)

Lemma ladder_safe_iff t h p :
  ladder_is_safe (assess_ladder t h p) = true <->
  counterparty_timeout t < nim_timeout t
  /\ delta_safe_blocks p <= nim_timeout t - counterparty_timeout t
  /\ min_claim_window_blocks p <= sat_sub (counterparty_timeout t) h.
Proof.
  unfold assess_ladder. repeat case_goal; bool_prop; simpl; split; intros; try discriminate;
    try (exfalso; lia); lia || reflexivity.
Qed.

Lemma reveal_safe_iff t h p :
  reveal_is_safe (assess_reveal_deadline t h p) = true <->
  min_claim_window_blocks p <= sat_sub (counterparty_timeout t) h.
Proof.
  unfold assess_reveal_deadline. case_goal; bool_prop; simpl; split; intros; try discriminate;
    lia || reflexivity.
Qed.

(** ** Lemmas: one transition *)

(** Every method keeps the role and the terms. *)
Lemma apply_event_static p s ev s' a :
  apply_event p s ev = Ok (s', a) -> role s' = role s /\ terms s' = terms s.
Proof.
  intros H. destruct ev; simpl in H;
    unfold quiet, accept, observe_initiator_funded, fund, observe_counterparty_funded,
      reveal_and_claim, observe_secret, observe_settled, forfeit_claim, abort,
      refund_after_timeout in H;
    repeat (case_hyp H; simplify_eq/=; try discriminate); auto.
Qed.

(** The transition table: from which role and phase, under which guard, to
    which phase and with which on-chain action. *)
Definition transition_ok (p : LadderParams) (s : Swap) (ev : SwapEvent) (s' : Swap)
    (a : SwapAction) : Prop :=
  match ev with
  | EvAccept h => phase s = Proposed /\ phase s' = Accepted /\ a = ActNone
      /\ ladder_is_safe (assess_ladder (terms s) h p) = true
  | EvObserveInitiatorFunded => role s = Responder /\ phase s = Accepted
      /\ phase s' = InitiatorFunded /\ a = ActNone
  | EvFund h => phase s = (match role s with Initiator => Accepted | Responder => InitiatorFunded end)
      /\ phase s' = SelfFunded /\ a = FundLeg (own_leg s) (own_timeout s)
      /\ ladder_is_safe (assess_ladder (terms s) h p) = true
  | EvObserveCounterpartyFunded => phase s = SelfFunded /\ phase s' = BothFunded /\ a = ActNone
  | EvReveal h => role s = Initiator /\ phase s = BothFunded /\ phase s' = Revealed
      /\ a = ClaimLeg (claim_leg s)
      /\ reveal_is_safe (assess_reveal_deadline (terms s) h p) = true
  | EvObserveSecret => role s = Responder /\ phase s = BothFunded /\ phase s' = Revealed
      /\ a = ClaimLeg (claim_leg s)
  | EvObserveSettled => phase s = Revealed /\ phase s' = Settled /\ a = ActNone
  | EvForfeit h => role s = Responder /\ phase s = Revealed /\ phase s' = Lost /\ a = ActNone
      /\ nim_timeout (terms s) < h
  | EvAbort => has_funds_locked (phase s) = false /\ is_terminal (phase s) = false
      /\ phase s' = Aborted /\ a = ActNone
  | EvRefund h => has_funds_locked (phase s) = true
      /\ (role s = Responder -> phase s <> Revealed)
      /\ phase s' = Refunded /\ a = RefundLeg (own_leg s) /\ own_timeout s < h
  end.

Lemma apply_event_table p s ev s' a :
  apply_event p s ev = Ok (s', a) -> transition_ok p s ev s' a.
Proof.
  intros H. destruct s as [r t ph]. destruct ev; simpl in H; unfold transition_ok;
    unfold quiet, accept, observe_initiator_funded, fund, observe_counterparty_funded,
      reveal_and_claim, observe_secret, observe_settled, forfeit_claim, abort,
      refund_after_timeout in H; simpl in *;
    repeat (case_hyp H; simplify_eq/=; try discriminate); bool_prop; simplify_eq/=;
    split_and!; auto; discriminate.
Qed.

(** The guard a successful event of a run has passed. *)
Definition event_guard (p : LadderParams) (t : SwapTerms) (r : SwapRole) (ev : SwapEvent) : Prop :=
  match ev with
  | EvAccept h | EvFund h => ladder_is_safe (assess_ladder t h p) = true
  | EvReveal h => r = Initiator
      /\ reveal_is_safe (assess_reveal_deadline t h p) = true
  | EvForfeit h => r = Responder /\ nim_timeout t < h
  | EvRefund h => (match r with Initiator => nim_timeout t | Responder => counterparty_timeout t end) < h
  | EvObserveInitiatorFunded | EvObserveSecret => r = Responder
  | _ => True
  end.

(** The on-chain actions a phase stands for. *)
Definition expected_actions (r : SwapRole) (t : SwapTerms) (ph : SwapPhase)
    (acts : list SwapAction) : Prop :=
  let s := mkSwap r t ph in
  let f := FundLeg (own_leg s) (own_timeout s) in
  let c := ClaimLeg (claim_leg s) in
  let re := RefundLeg (own_leg s) in
  match ph with
  | Proposed | Accepted | InitiatorFunded | Aborted => acts = []
  | SelfFunded | BothFunded => acts = [f]
  | Revealed | Settled | Lost => acts = [f; c]
  | Refunded => acts = [f; re] \/ (r = Initiator /\ acts = [f; c; re])
  end.

Lemma run_static p s tr s' : run p s tr s' -> role s' = role s /\ terms s' = terms s.
Proof.
  induction 1 as [|s tr s1 ev act s2 _ [IH1 IH2] Hev]; [auto|].
  apply apply_event_static in Hev as [-> ->]. auto.
Qed.

Lemma run_cons p s ev a s1 tr s2 :
  apply_event p s ev = Ok (s1, a) -> run p s1 tr s2 -> run p s ((ev, a) :: tr) s2.
Proof.
  intros Hev Hrun. induction Hrun as [s1|s1 tr s2 ev' a' s3 _ IH Hev'].
  - apply (run_snoc _ _ [] s); [constructor | assumption].
  - apply (run_snoc _ _ ((ev, a) :: tr) s2); auto.
Qed.

Lemma exec_run p s evs s' tr : exec p s evs = Ok (s', tr) -> run p s tr s'.
Proof.
  revert s tr; induction evs as [|ev evs IH]; intros s tr H; simpl in H.
  - simplify_eq. constructor.
  - destruct (apply_event p s ev) as [[s1 a]| |] eqn:Hev; [|discriminate..].
    destruct (exec p s1 evs) as [[s2 tr']| |] eqn:He; [|discriminate..]. simplify_eq.
    eapply run_cons; eauto.
Qed.

Lemma chain_actions_app a b : chain_actions (a ++ b) = chain_actions a ++ chain_actions b.
Proof. unfold chain_actions. now rewrite map_app, List.filter_app. Qed.

Lemma apply_event_complete p s ev s' a :
  transition_ok p s ev s' a -> role s' = role s -> terms s' = terms s ->
  apply_event p s ev = Ok (s', a).
Proof.
  destruct s as [r t ph], s' as [r' t' ph']; simpl. intros H -> ->.
  destruct ev; simpl in *; destruct_and?; subst;
    unfold quiet, accept, observe_initiator_funded, fund, observe_counterparty_funded,
      reveal_and_claim, observe_secret, observe_settled, forfeit_claim, abort,
      refund_after_timeout; simpl;
    repeat match goal with
    | H : _ = true |- _ => rewrite H
    | H : _ = false |- _ => rewrite H
    | H : ?x < ?h |- context [?h <=? ?x] => destruct (Z.leb_spec h x); [lia|]
    end; try reflexivity.
  - now destruct r.
  - destruct r, ph; try discriminate; try reflexivity.
    exfalso. match goal with H : _ -> _ <> _ |- _ => now apply H end.
Qed.

Lemma apply_event_rank p s ev s' a :
  apply_event p s ev = Ok (s', a) -> phase_rank (phase s) < phase_rank (phase s').
Proof.
  intros H%apply_event_table. destruct s as [r t ph], s' as [r' t' ph'].
  destruct ev; simpl in *; destruct_and?; subst; try destruct r; try destruct ph;
    try discriminate; simpl; lia.
Qed.

(** The ladder was safe at every funding of a run. *)
Lemma run_event_guards p r t tr s :
  run p (swap_new r t) tr s -> Forall (fun '(ev, _) => event_guard p t r ev) tr.
Proof.
  intros Hrun. remember (swap_new r t) as s0 eqn:Hs0.
  induction Hrun as [|s0 tr s1 ev act s2 Hrun IH Hev]; subst; [constructor|].
  apply Forall_app; split; [auto|]. constructor; [|constructor].
  destruct (run_static _ _ _ _ Hrun) as [Hr Ht]. simpl in Hr, Ht.
  apply apply_event_table in Hev. unfold own_timeout in *.
  destruct ev; simpl in *; unfold own_timeout in *; rewrite ?Hr, ?Ht in *; tauto.
Qed.

Lemma run_fund_guard p r t tr s :
  run p (swap_new r t) tr s ->
  forall h a, (EvFund h, a) ∈ tr -> ladder_is_safe (assess_ladder t h p) = true.
Proof.
  intros Hrun h a Hi. pose proof (run_event_guards _ _ _ _ _ Hrun) as Hg.
  rewrite Forall_forall in Hg. exact (Hg _ Hi).
Qed.

(** Phases from [SelfFunded] on are reached through a funding. *)
Lemma run_funded p r t tr s :
  run p (swap_new r t) tr s -> 3 <= phase_rank (phase s) -> phase s <> Aborted ->
  exists h a, (EvFund h, a) ∈ tr.
Proof.
  intros Hrun. remember (swap_new r t) as s0 eqn:Hs0.
  induction Hrun as [|s0 tr s1 ev act s2 Hrun IH Hev]; subst; [simpl; lia|].
  intros Hk Ha. apply apply_event_table in Hev.
  assert (Hpre : (exists h, ev = EvFund h)
                 \/ (3 <= phase_rank (phase s1) /\ phase s1 <> Aborted)).
  { destruct ev; simpl in Hev; destruct_and?; eauto; right;
      repeat match goal with H : phase _ = _ |- _ => rewrite H in * end; simpl in *;
      try lia; try (split; [lia | discriminate]); try congruence.
    destruct (phase s1); simpl in *; try discriminate; split; try lia; discriminate. }
  destruct Hpre as [[h ->]|[Hk1 Ha1]].
  - exists h, act. apply elem_of_app; right. left.
  - destruct (IH eq_refl Hk1 Ha1) as (h & a & Hi). exists h, a. apply elem_of_app; now left.
Qed.

Lemma locked_funded p r t tr s :
  run p (swap_new r t) tr s -> has_funds_locked (phase s) = true ->
  exists h a, (EvFund h, a) ∈ tr.
Proof.
  intros Hrun Hl. eapply run_funded; [eassumption|destruct (phase s)..]; try discriminate; simpl; lia.
Qed.

Lemma reveal_after_fund p r t tr s h a :
  run p (swap_new r t) tr s -> (EvReveal h, a) ∈ tr -> exists h' a', (EvFund h', a') ∈ tr.
Proof.
  intros Hrun. remember (swap_new r t) as s0 eqn:Hs0.
  induction Hrun as [|s0 tr s1 ev act s2 Hrun IH Hev]; subst; [now intros ?%elem_of_nil|].
  intros [Hi|Hi]%elem_of_app.
  - destruct (IH eq_refl Hi) as (h' & a' & ?). exists h', a'. apply elem_of_app; now left.
  - apply list_elem_of_singleton in Hi as [= <- <-]. apply apply_event_table in Hev.
    destruct Hev as (_ & Hph & _).
    destruct (locked_funded _ _ _ _ _ Hrun) as (h' & a' & ?); [now rewrite Hph|].
    exists h', a'. apply elem_of_app; now left.
Qed.

(** ** Properties *)

(** The methods of [Swap] implement exactly the transition table: a call
    succeeds if and only if its role, phase and guard (the ladder verdict at
    the head for [accept] and [fund], the reveal deadline for
    [reveal_and_claim], the passed timeout for a refund or a forfeit) allow
    it, and then it moves to the one target phase, asks for the one on-chain
    action, and changes neither role nor terms. *)
Theorem apply_event_iff (p : LadderParams) (s : Swap) (ev : SwapEvent) (s' : Swap)
    (a : SwapAction) :
  apply_event p s ev = Ok (s', a) <->
  transition_ok p s ev s' a /\ role s' = role s /\ terms s' = terms s.
Proof.
  split.
  - intros H. split; [now apply apply_event_table | now apply apply_event_static in H].
  - intros (H & Hr & Ht). now apply apply_event_complete.
Qed.

(** What has happened on chain is determined by the phase: along every run
    of one swap from [Swap::new], the on-chain actions the machine has asked
    for are none before funding or after an abort, exactly its own funding
    (own leg, own timeout) while the legs are locked, funding then claim once
    the secret is out, and funding then refund when refunded; only an
    initiator can both claim and refund, and only a responder waits for
    [InitiatorFunded] or ends in [Lost].  In particular a node never funds
    twice, never claims or refunds before funding, and never funds at all in
    an aborted swap. *)
Theorem run_actions (p : LadderParams) (r : SwapRole) (t : SwapTerms)
    (tr : list (SwapEvent * SwapAction)) (s : Swap)
    (Hrun : run p (swap_new r t) tr s) :
  expected_actions r t (phase s) (chain_actions tr)
  /\ (r = Initiator -> phase s <> InitiatorFunded /\ phase s <> Lost).
Proof.
  remember (swap_new r t) as s0 eqn:Hs0.
  induction Hrun as [|s0 tr s1 ev act s2 Hrun IH Hev]; subst; [split; [reflexivity|split; discriminate]|].
  destruct (run_static _ _ _ _ Hrun) as [Hr Ht]. specialize (IH eq_refl) as [IHa IHr].
  apply apply_event_table in Hev. rewrite chain_actions_app.
  destruct s1 as [r1 t1 ph1], s2 as [r2 t2 ph2]; simpl in *; subst r1 t1.
  destruct ev; simpl in Hev; destruct_and?; subst; simpl in *; rewrite ?app_nil_r;
    try destruct r; try destruct ph1; simplify_eq/=; try discriminate;
    rewrite ?IHa; auto; split; auto; try (split; discriminate).
  exfalso. match goal with H : _ = _ -> Revealed <> Revealed |- _ => now apply H end.
Qed.

(** A complete run of the initiator, at growing heads. *)
Definition sample_terms : SwapTerms := mkTerms 10000 5000.

Definition sample_trace : list (SwapEvent * SwapAction) :=
  [(EvAccept 100, ActNone); (EvFund 110, FundLeg LegNim 10000);
   (EvObserveCounterpartyFunded, ActNone); (EvReveal 300, ClaimLeg LegCounterparty);
   (EvObserveSettled, ActNone)].

Lemma sample_run :
  run ladder_default (swap_new Initiator sample_terms) sample_trace
    (mkSwap Initiator sample_terms Settled).
Proof.
  apply (exec_run _ _ [EvAccept 100; EvFund 110; EvObserveCounterpartyFunded; EvReveal 300;
                       EvObserveSettled]). reflexivity.
Qed.

Lemma run_actions_witness :
  chain_actions sample_trace = [FundLeg LegNim 10000; ClaimLeg LegCounterparty]
  /\ (phase (mkSwap Initiator sample_terms Settled) <> Lost).
Proof.
  destruct (run_actions ladder_default Initiator sample_terms sample_trace _ sample_run)
    as [H1 H2].
  split; [exact H1 | exact (proj2 (H2 eq_refl))].
Defined.

(** Funds move only through the safety gates.  In every run, each funding
    (and acceptance) happened at a head where the ladder is not inverted, its
    margin [T_A - T_B] is at least [delta_safe_blocks] and [T_B] is at least
    [min_claim_window_blocks] ahead; the secret was revealed only by the
    initiator and only with that claim window before [T_B], so that the
    responder still has [delta_safe_blocks + min_claim_window_blocks] before
    [T_A]; a refund only after the node's own timeout and a forfeit only after
    [T_A]. *)
Theorem run_guards (p : LadderParams) (r : SwapRole) (t : SwapTerms)
    (tr : list (SwapEvent * SwapAction)) (s : Swap)
    (Hp : 0 < min_claim_window_blocks p)
    (Hrun : run p (swap_new r t) tr s) :
  Forall (fun '(ev, _) => event_guard p t r ev) tr
  /\ (forall h a, (EvFund h, a) ∈ tr ->
        counterparty_timeout t + delta_safe_blocks p <= nim_timeout t
        /\ counterparty_timeout t < nim_timeout t
        /\ h + min_claim_window_blocks p <= counterparty_timeout t)
  /\ (forall h a, (EvReveal h, a) ∈ tr ->
        h + min_claim_window_blocks p <= counterparty_timeout t
        /\ h + min_claim_window_blocks p + delta_safe_blocks p <= nim_timeout t).
Proof.
  pose proof (run_event_guards _ _ _ _ _ Hrun) as Hg. split; [exact Hg|].
  pose proof (run_fund_guard _ _ _ _ _ Hrun) as Hladder. split.
  - intros h a Hi. pose proof (Hladder h a Hi) as Hs. apply ladder_safe_iff in Hs.
    unfold sat_sub in Hs. lia.
  - intros h a Hi. rewrite Forall_forall in Hg. destruct (Hg _ Hi) as [-> Hs].
    apply reveal_safe_iff in Hs. unfold sat_sub in Hs.
    assert (Hf : exists h' a', (EvFund h', a') ∈ tr) by (eapply reveal_after_fund; eassumption).
    destruct Hf as (h' & a' & Hf). apply Hladder, ladder_safe_iff in Hf. lia.
Qed.

Lemma run_guards_witness :
  counterparty_timeout sample_terms < nim_timeout sample_terms
  /\ 300 + 1800 <= counterparty_timeout sample_terms.
Proof.
  destruct (run_guards ladder_default Initiator sample_terms sample_trace _ eq_refl sample_run)
    as (_ & Hf & Hr).
  split.
  - exact (proj1 (proj2 (Hf 110 (FundLeg LegNim 10000) ltac:(right; left)))).
  - exact (proj1 (Hr 300 (ClaimLeg LegCounterparty) ltac:(do 3 right; left))).
Defined.

(** A swap makes progress and stops: the number of successful calls along
    any run is at most the rank of the phase it is in, hence at most six, and
    in a terminal phase every further call is refused. *)
Theorem run_bounded (p : LadderParams) (r : SwapRole) (t : SwapTerms)
    (tr : list (SwapEvent * SwapAction)) (s : Swap)
    (Hrun : run p (swap_new r t) tr s) :
  len tr <= phase_rank (phase s) <= 6
  /\ (is_terminal (phase s) = true -> forall ev s' a, apply_event p s ev <> Ok (s', a)).
Proof.
  split.
  - split; [|destruct (phase s); simpl; lia].
    induction Hrun as [|s0 tr s1 ev act s2 _ IH Hev]; [unfold len; destruct (phase s); simpl; lia|].
    apply apply_event_rank in Hev. len_simpl. lia.
  - intros Ht ev s' a H. apply apply_event_rank in H.
    destruct (phase s); try discriminate; destruct (phase s'); simpl in H; lia.
Qed.

Lemma run_bounded_witness : len sample_trace <= 6.
Proof.
  exact (proj1 (proj1 (run_bounded ladder_default Initiator sample_terms sample_trace _ sample_run))).
Defined.

(** C24: locked funds always have an exit and cannot be abandoned: whatever the
    head, [abort] is refused while funds are locked; once the head has passed
    [T_A], either the timeout refund succeeds (asking for the refund of the
    node's own leg) or, exactly for a responder whose escrow was already
    claimed with the public secret, [forfeit_claim] records the loss. *)
Theorem locked_exit (p : LadderParams) (r : SwapRole) (t : SwapTerms)
    (tr : list (SwapEvent * SwapAction)) (s : Swap) (h : Z)
    (Hp : 0 < min_claim_window_blocks p)
    (Hrun : run p (swap_new r t) tr s) (Hlock : has_funds_locked (phase s) = true)
    (Hh : nim_timeout t < h) :
  (exists e, abort s = Err e)
  /\ if bool_decide (r = Responder /\ phase s = Revealed)
     then forfeit_claim s h = Ok (set_phase s Lost, tt)
     else refund_after_timeout s h = Ok (set_phase s Refunded, RefundLeg (own_leg s)).
Proof.
  assert (Hm : counterparty_timeout t < nim_timeout t).
  { destruct (locked_funded _ _ _ _ _ Hrun Hlock) as (h' & a & Hi).
    pose proof (run_fund_guard _ _ _ _ _ Hrun h' a Hi) as Hs. now apply ladder_safe_iff in Hs. }
  destruct (run_static _ _ _ _ Hrun) as [Hr Ht]. simpl in Hr, Ht.
  split; [unfold abort; rewrite Hlock; eauto|].
  unfold forfeit_claim, refund_after_timeout, own_timeout. rewrite Hlock, Hr, Ht.
  case_bool_decide as Hc.
  - destruct Hc as [-> ->]. destruct (Z.leb_spec h (nim_timeout t)); [lia | reflexivity].
  - destruct r; [simpl | destruct (phase s); try tauto; simpl];
      match goal with |- context [h <=? ?x] => destruct (Z.leb_spec h x); [lia | reflexivity] end.
Qed.

Lemma locked_exit_witness :
  refund_after_timeout (mkSwap Initiator sample_terms SelfFunded) 10001
  = Ok (mkSwap Initiator sample_terms Refunded, RefundLeg LegNim).
Proof.
  refine (proj2 (locked_exit ladder_default Initiator sample_terms
    [(EvAccept 100, ActNone); (EvFund 110, FundLeg LegNim 10000)]
    (mkSwap Initiator sample_terms SelfFunded) 10001 eq_refl _ eq_refl eq_refl)).
  apply (exec_run _ _ [EvAccept 100; EvFund 110]). reflexivity.
Defined.
