(* ===== verification/Reader.v ===== *)
(** * Reader: bounds-checked sequential reads

    [decode_intent] ([swap_intent.rs]) and the snapshot [Reader]
    ([swap_recovery.rs]) take fixed-size pieces off a byte string with a
    position; [take_n] is that step, and [at_pos] relates a position to what
    is left to read. *)

From stdpp Require Import base list.
From Stdlib Require Import ZArith Lia.
From S2P Require Import Prelude Packet.
Open Scope Z_scope.

(** [bytes.get(s..e)] *)
Definition get_range (b : bytes) (s e : Z) : option bytes :=
  if (s <=? e) && (e <=? len b) then Some (take (Z.to_nat (e - s)) (drop (Z.to_nat s) b))
  else None.

(** [let end = pos.checked_add(n)?; let s = bytes.get(pos..end)?; pos = end; Some(s)] *)
Definition take_n (b : bytes) (pos n : Z) : option (bytes * Z) :=
  e ← checked_add 64 pos n;
  s ← get_range b pos e;
  Some (s, e).

(** [Option::unwrap] *)
Definition unwrap {E A} (o : option A) : res E A :=
  match o with Some a => Ok a | None => Panic end.

Definition at_pos (b : bytes) (pos : Z) (rest : bytes) : Prop :=
  exists pre, b = pre ++ rest /\ pos = len pre.

Lemma at_pos_0 b : at_pos b 0 b.
Proof. exists []. auto. Qed.

(** Reading the piece that is next. *)
Lemma take_n_next b pos v rest n :
  len b < 2 ^ 64 -> at_pos b pos (v ++ rest) -> n = len v ->
  take_n b pos n = Some (v, pos + n) /\ at_pos b (pos + n) rest.
Proof.
  intros Hb (pre & -> & ->) ->.
  rewrite !len_app in Hb. pose proof (len_nonneg rest). pose proof (len_nonneg v).
  split; [|exists (pre ++ v); rewrite len_app, app_assoc; auto].
  unfold take_n, get_range. rewrite checked_add_small by lia. simpl.
  destruct (Z.leb_spec (len pre) (len pre + len v)); [|lia].
  rewrite !len_app. destruct (Z.leb_spec (len pre + len v) (len pre + (len v + len rest))); [|lia].
  simpl. pose proof (len_nonneg pre). unfold len.
  replace (Z.to_nat (Z.of_nat (length pre) + Z.of_nat (length v) - Z.of_nat (length pre)))
    with (length v) by lia.
  now rewrite Nat2Z.id, drop_app_length, take_app_length.
Qed.

(** Whatever a read returns was next. *)
Lemma take_n_inv b pos rest n v pos' :
  at_pos b pos rest -> 0 <= n -> take_n b pos n = Some (v, pos') ->
  exists rest', rest = v ++ rest' /\ len v = n /\ at_pos b pos' rest'.
Proof.
  intros (pre & -> & ->) Hn H. unfold take_n in H.
  destruct (checked_add 64 (len pre) n) as [e|] eqn:He; [|discriminate].
  apply checked_add_inv in He as [-> _]. simpl in H. unfold get_range in H.
  destruct ((_ <=? _) && _) eqn:Hc; [|discriminate]. injection H as <- <-. bool_prop.
  rewrite len_app in *. exists (drop (Z.to_nat n) rest).
  assert (Hd : drop (Z.to_nat (len pre)) (pre ++ rest) = rest).
  { unfold len. now rewrite Nat2Z.id, drop_app_length. }
  rewrite Hd. replace (len pre + n - len pre) with n by lia.
  split; [now rewrite take_drop|]. split; [apply len_take; lia|].
  exists (pre ++ take (Z.to_nat n) rest). rewrite <- app_assoc, take_drop.
  split; [reflexivity|]. rewrite len_app, len_take; lia.
Qed.

(** The read fails exactly when too little is left. *)
Lemma take_n_None b pos rest n :
  at_pos b pos rest -> 0 <= n -> len b + n < 2 ^ 64 -> take_n b pos n = None -> len rest < n.
Proof.
  intros (pre & -> & ->) Hn Hb H. unfold take_n in H. rewrite len_app in Hb.
  pose proof (len_nonneg rest). rewrite checked_add_small in H by lia. simpl in H.
  unfold get_range in H. destruct ((_ <=? _) && _) eqn:Hc; [discriminate|].
  rewrite len_app in Hc. apply andb_false_elim in Hc as [Hc|Hc]; bool_prop; lia.
Qed.

Lemma at_pos_bytes b pos rest : at_pos b pos rest -> bytes_ok b -> bytes_ok rest.
Proof. intros (pre & -> & _) H. now apply bytes_ok_app in H as [_ ?]. Qed.

(** A fixed-size read, [take(n).ok_or(t)?.try_into().unwrap()]. *)
Definition take_array {E} (t : E) (b : bytes) (pos : Z) (n : nat) : res E (bytes * Z) :=
  let? (s, pos) := ok_or (take_n b pos (Z.of_nat n)) t in
  let? a := unwrap (try_array n s) in
  Ok (a, pos).

(** [u64::from_be_bytes(take(8).ok_or(t)?.try_into().unwrap())] and the [u16] form. *)
Definition take_be {E} (t : E) (b : bytes) (pos : Z) (n : nat) : res E (Z * Z) :=
  let? (a, pos) := take_array t b pos n in Ok (from_be a, pos).

(** [take(1).ok_or(t)?[0]] *)
Definition take_byte {E} (t : E) (b : bytes) (pos : Z) : res E (Z * Z) :=
  let? (s, pos) := ok_or (take_n b pos 1) t in
  let? x := idx s 0 in
  Ok (x, pos).

(** [take(n).ok_or(t)?.to_vec()] *)
Definition take_vec {E} (t : E) (b : bytes) (pos n : Z) : res E (bytes * Z) :=
  ok_or (take_n b pos n) t.

Section reads.
Context {E : Type} (t : E) (b : bytes) (Hb : len b < 2 ^ 64).

Lemma take_array_next pos v rest n :
  at_pos b pos (v ++ rest) -> len v = Z.of_nat n ->
  take_array t b pos n = Ok (v, pos + Z.of_nat n) /\ at_pos b (pos + Z.of_nat n) rest.
Proof.
  intros Hp Hn. destruct (take_n_next b pos v rest (Z.of_nat n) Hb Hp) as [H1 H2]; [lia|].
  split; [|exact H2]. unfold take_array. rewrite H1. simpl.
  rewrite try_array_length by (unfold len in Hn; lia). reflexivity.
Qed.

Lemma take_be_next pos x rest n :
  at_pos b pos (be_bytes n x ++ rest) -> 0 <= x < 256 ^ Z.of_nat n ->
  take_be t b pos n = Ok (x, pos + Z.of_nat n) /\ at_pos b (pos + Z.of_nat n) rest.
Proof.
  intros Hp Hx. destruct (take_array_next pos _ rest n Hp) as [H1 H2]; [apply len_be_bytes|].
  split; [|exact H2]. unfold take_be. rewrite H1. simpl. now rewrite from_be_be_bytes.
Qed.

Lemma take_byte_next pos x rest :
  at_pos b pos (x :: rest) -> take_byte t b pos = Ok (x, pos + 1) /\ at_pos b (pos + 1) rest.
Proof.
  intros Hp. destruct (take_n_next b pos [x] rest 1 Hb Hp eq_refl) as [H1 H2].
  split; [|exact H2]. unfold take_byte. now rewrite H1.
Qed.

Lemma take_vec_next pos v rest n :
  at_pos b pos (v ++ rest) -> n = len v ->
  take_vec t b pos n = Ok (v, pos + n) /\ at_pos b (pos + n) rest.
Proof.
  intros Hp Hn. destruct (take_n_next b pos v rest n Hb Hp Hn) as [H1 H2].
  split; [|exact H2]. unfold take_vec. now rewrite H1.
Qed.

Lemma take_array_spec pos rest n :
  at_pos b pos rest ->
  match take_array t b pos n with
  | Ok (v, pos') => exists rest', rest = v ++ rest' /\ len v = Z.of_nat n /\ at_pos b pos' rest'
  | Err e => e = t
  | Panic => False
  end.
Proof.
  intros Hp. unfold take_array. destruct (take_n b pos (Z.of_nat n)) as [[v pos']|] eqn:H;
    [|reflexivity]. apply (take_n_inv _ _ _ _ _ _ Hp) in H as (rest' & -> & Hl & Hp'); [|lia].
  simpl. rewrite try_array_length by (unfold len in Hl; lia). simpl. eauto.
Qed.

Lemma take_be_spec pos rest n :
  at_pos b pos rest -> bytes_ok b ->
  match take_be t b pos n with
  | Ok (x, pos') => exists rest', rest = be_bytes n x ++ rest'
      /\ 0 <= x < 256 ^ Z.of_nat n /\ at_pos b pos' rest'
  | Err e => e = t
  | Panic => False
  end.
Proof.
  intros Hp Hok. unfold take_be. pose proof (take_array_spec pos rest n Hp) as H.
  destruct (take_array t b pos n) as [[v pos']| |]; simpl; auto.
  destruct H as (rest' & -> & Hl & Hp'). exists rest'.
  assert (Hv : bytes_ok v) by (apply at_pos_bytes in Hp; [now apply bytes_ok_app in Hp|assumption]).
  assert (Hlen : n = length v) by (unfold len in Hl; lia). subst n.
  rewrite be_bytes_from_be by assumption. pose proof (from_be_bound v Hv). rewrite Hl in *. auto.
Qed.

Lemma take_byte_spec pos rest :
  at_pos b pos rest ->
  match take_byte t b pos with
  | Ok (x, pos') => exists rest', rest = x :: rest' /\ at_pos b pos' rest'
  | Err e => e = t
  | Panic => False
  end.
Proof.
  intros Hp. unfold take_byte. destruct (take_n b pos 1) as [[v pos']|] eqn:H; [|reflexivity].
  apply (take_n_inv _ _ _ _ _ _ Hp) in H as (rest' & -> & Hl & Hp'); [|lia].
  destruct v as [|x [|y v]]; try (exfalso; revert Hl; unfold len; simpl; lia).
  simpl. eauto.
Qed.

Lemma take_vec_spec pos rest n :
  at_pos b pos rest -> 0 <= n ->
  match take_vec t b pos n with
  | Ok (v, pos') => exists rest', rest = v ++ rest' /\ len v = n /\ at_pos b pos' rest'
  | Err e => e = t
  | Panic => False
  end.
Proof.
  intros Hp Hn. unfold take_vec. destruct (take_n b pos n) as [[v pos']|] eqn:H; [|reflexivity].
  simpl. now apply (take_n_inv _ _ _ _ _ _ Hp) in H.
Qed.
End reads.

(** Run the next read of the goal on a position whose continuation is known
    ([read_next]), or by cases on its outcome ([read_case]). *)
Ltac read_next Hb :=
  match goal with
  | H : at_pos ?b ?p ?r |- context [@take_array ?E ?t ?b ?p ?n] =>
      let H1 := fresh in let H2 := fresh in
      destruct (@take_array_next E t b Hb p _ _ n H) as [H1 H2];
      [first [assumption | apply len_be_bytes | lia]|]; rewrite H1; clear H1 H
  | H : at_pos ?b ?p ?r |- context [@take_be ?E ?t ?b ?p ?n] =>
      let H1 := fresh in let H2 := fresh in
      destruct (@take_be_next E t b Hb p _ _ n H) as [H1 H2];
      [first [assumption | simpl; lia]|]; rewrite H1; clear H1 H
  | H : at_pos ?b ?p ?r |- context [@take_byte ?E ?t ?b ?p] =>
      let H1 := fresh in let H2 := fresh in
      destruct (@take_byte_next E t b Hb p _ _ H) as [H1 H2]; rewrite H1; clear H1 H
  | H : at_pos ?b ?p ?r |- context [@take_vec ?E ?t ?b ?p ?n] =>
      let H1 := fresh in let H2 := fresh in
      destruct (@take_vec_next E t b Hb p _ _ n H) as [H1 H2]; [first [reflexivity | lia]|];
      rewrite H1; clear H1 H
  end.

Ltac read_case :=
  match goal with
  | H : at_pos ?b ?p ?r |- context [@take_array ?E ?t ?b ?p ?n] =>
      let S := fresh in pose proof (@take_array_spec E t b p r n H) as S;
      destruct (@take_array E t b p n) as [[?v ?q]|?e|]; [|exact I || discriminate|tauto];
      let r' := fresh "rest" in
      destruct S as (r' & -> & ?Hl & ?Hq); clear H
  | H : at_pos ?b ?p ?r, Hok : bytes_ok ?b |- context [@take_be ?E ?t ?b ?p ?n] =>
      let S := fresh in pose proof (@take_be_spec E t b p r n H Hok) as S;
      destruct (@take_be E t b p n) as [[?x ?q]|?e|]; [|exact I || discriminate|tauto];
      let r' := fresh "rest" in
      destruct S as (r' & -> & ?Hl & ?Hq); clear H
  | H : at_pos ?b ?p ?r |- context [@take_byte ?E ?t ?b ?p] =>
      let S := fresh in pose proof (@take_byte_spec E t b p r H) as S;
      destruct (@take_byte E t b p) as [[?x ?q]|?e|]; [|exact I || discriminate|tauto];
      let r' := fresh "rest" in
      destruct S as (r' & -> & ?Hq); clear H
  | H : at_pos ?b ?p ?r |- context [@take_vec ?E ?t ?b ?p ?n] =>
      let S := fresh in pose proof (@take_vec_spec E t b p r n H) as S;
      destruct (@take_vec E t b p n) as [[?v ?q]|?e|];
      [|exact I || discriminate|exfalso; apply S; lia];
      let r' := fresh "rest" in
      destruct S as (r' & -> & ?Hl & ?Hq); [lia|]; clear H
  end.
