(* ===== verification/Crypto.v ===== *)
(** * Crypto: the cryptographic primitives the core calls

    [sha2], [blake2] and [ed25519-dalek] are third-party crates; the swap code
    uses them through the operations of the class [Crypto].  The laws it
    relies on are the documented ones: output sizes, and that a signature made
    with a seed verifies under the public key of that seed.  [ToyCrypto] is a
    concrete instance of the class and of its laws. *)

From stdpp Require Import base list.
From Stdlib Require Import ZArith Lia.
From S2P Require Import Prelude Packet.
Open Scope Z_scope.

Class Crypto : Type := {
  sha256 : bytes -> bytes;
  (** [Blake2b::<U32>] *)
  blake2b256 : bytes -> bytes;
  (** [SigningKey::from_bytes(seed).verifying_key().to_bytes()] *)
  ed25519_public : bytes -> bytes;
  (** [SigningKey::from_bytes(seed).sign(msg).to_bytes()] *)
  ed25519_sign : bytes -> bytes -> bytes;
  (** [VerifyingKey::from_bytes(pk)] succeeds and [verify_strict(msg, sig)] is [Ok] *)
  ed25519_verify : bytes -> bytes -> bytes -> bool
}.

Class CryptoLaws (C : Crypto) : Prop := {
  sha256_ok x : array_ok 32 (sha256 x);
  blake2b256_ok x : array_ok 32 (blake2b256 x);
  public_ok seed : array_ok 32 (ed25519_public seed);
  sign_ok seed m : array_ok 64 (ed25519_sign seed m);
  verify_sign seed m : ed25519_verify (ed25519_public seed) m (ed25519_sign seed m) = true
}.

(** [Address::from_public_key(pk).as_bytes()] *)
Definition address_of `{Crypto} (pk : bytes) : bytes := take 20 (blake2b256 pk).

Lemma address_ok `{CryptoLaws} pk : array_ok 20 (address_of pk).
Proof.
  destruct (blake2b256_ok pk) as [Hl Hb]. unfold address_of. split; [|now apply bytes_ok_take].
  change 20%nat with (Z.to_nat 20). apply len_take. lia.
Qed.

(** ** A concrete instance *)

(** Fit a byte string to [n] bytes. *)
Definition fit (n : nat) (l : bytes) : bytes :=
  take n (map (fun b => b mod 256) l ++ replicate n 0).

Lemma fit_ok n l : array_ok (Z.of_nat n) (fit n l).
Proof.
  unfold fit. split.
  - unfold len. rewrite length_take, length_app, length_replicate. lia.
  - apply bytes_ok_take, bytes_ok_app. split; [|apply Forall_replicate; unfold uN; lia].
    apply Forall_map, Forall_forall. intros x _. simpl. unfold uN.
    pose proof (Z.mod_pos_bound x 256). simpl. lia.
Qed.

#[export] Instance ToyCrypto : Crypto := {|
  sha256 := fit 32;
  blake2b256 := fit 32;
  ed25519_public := fit 32;
  ed25519_sign := fun seed m => fit 64 (fit 32 seed ++ [foldl Z.add 0 m]);
  ed25519_verify := fun pk m sig => bool_decide (sig = fit 64 (fit 32 pk ++ [foldl Z.add 0 m]))
|}.

Lemma fit_id n l : array_ok (Z.of_nat n) l -> fit n l = l.
Proof.
  intros [Hl Hb]. unfold fit.
  assert (Hm : map (fun b => b mod 256) l = l).
  { clear Hl. induction Hb as [|x l Hx _ IH]; [reflexivity|]. simpl. rewrite IH. f_equal.
    apply Z.mod_small. exact Hx. }
  rewrite Hm. assert (Hn : n = length l) by (unfold len in Hl; lia). subst n.
  apply take_app_length.
Qed.

#[export] Instance ToyCryptoLaws : CryptoLaws ToyCrypto.
Proof.
  constructor; intros; try apply (fit_ok 32); try apply (fit_ok 20); try apply (fit_ok 64).
  simpl. apply bool_decide_eq_true. rewrite (fit_id 32 (fit 32 seed)) by apply (fit_ok 32). reflexivity.
Qed.
