(* ===== verification/SwapIntent.v ===== *)
(** * SwapIntent: swap discovery advertisements ([swap_intent.rs], [swap_rate.rs]) *)

From stdpp Require Import base list.
From Stdlib Require Import ZArith Lia.
From S2P Require Import Prelude Packet SwapWire Reader Crypto.
Open Scope Z_scope.

Inductive Asset : Type := ANim | ABtc | AUsdc.

#[export] Instance Asset_eq_dec : EqDecision Asset.
Proof. solve_decision. Defined.

Definition INTENT_PUBKEY_LEN : Z := 32.
Definition INTENT_SIG_LEN : Z := 64.
Definition EVM_ADDRESS_LEN : Z := 20.

Record SwapIntent : Type := mkIntent {
  i_gives : Asset;
  i_counter_asset : Asset;
  i_nim_amount : Z;
  i_btc_amount : Z;
  i_expiry_height : Z;
  i_min_nim : Z;
  i_max_nim : Z;
  i_nim_pubkey : bytes;
  i_nim_address : bytes;
  i_btc_pubkey : bytes;
  i_btc_address : bytes;
  i_evm_address : bytes;
  i_network_id : Z;
  i_signature : bytes
}.

#[export] Instance SwapIntent_eq_dec : EqDecision SwapIntent.
Proof. solve_decision. Defined.

(** The [u128] products cannot wrap: both factors are [u64]. *)
Definition would_initiate_against (self incoming : SwapIntent) : bool :=
  bool_decide (i_gives self = ANim)
  && negb (bool_decide (i_gives incoming = ANim))
  && bool_decide (i_gives incoming = i_counter_asset self)
  && (i_network_id self =? i_network_id incoming)
  && (i_btc_amount self >? 0)
  && (i_btc_amount incoming >? 0)
  && (wrapN 128 (i_nim_amount self * i_btc_amount incoming)
      >=? wrapN 128 (i_nim_amount incoming * i_btc_amount self)).

Definition is_fresh (i : SwapIntent) (head : Z) : bool := head <=? i_expiry_height i.

Definition amount_compatible (self incoming : SwapIntent) : bool :=
  (i_nim_amount self >=? i_min_nim incoming)
  && (i_nim_amount self <=? i_max_nim incoming)
  && (i_nim_amount incoming >=? i_min_nim self)
  && (i_nim_amount incoming <=? i_max_nim self).

Inductive IntentError : Type := IntentTruncated | IntentMalformed.

Definition asset_to_u8 (a : Asset) : Z :=
  match a with ANim => 0 | ABtc => 1 | AUsdc => 2 end.

Definition asset_from_u8 (b : Z) : res IntentError Asset :=
  match b with 0 => Ok ANim | 1 => Ok ABtc | 2 => Ok AUsdc | _ => Err IntentMalformed end.

Definition encode_intent_content (i : SwapIntent) : bytes :=
  [asset_to_u8 (i_gives i)] ++ [asset_to_u8 (i_counter_asset i)]
  ++ be_bytes 8 (i_nim_amount i) ++ be_bytes 8 (i_btc_amount i)
  ++ be_bytes 8 (i_expiry_height i) ++ be_bytes 8 (i_min_nim i) ++ be_bytes 8 (i_max_nim i)
  ++ i_nim_pubkey i ++ i_nim_address i ++ i_btc_pubkey i ++ [i_network_id i]
  ++ be_bytes 2 (wrapN 16 (len (i_btc_address i))) ++ i_btc_address i ++ i_evm_address i.

Definition encode_intent (i : SwapIntent) : bytes :=
  encode_intent_content i ++ i_signature i.

Definition intent_signing_bytes (i : SwapIntent) : bytes := encode_intent_content i.

Definition decode_intent (b : bytes) : res IntentError SwapIntent :=
  let pos := 0 in
  let t := IntentTruncated in
  let? (x, pos) := take_byte t b pos in
  let? gives := asset_from_u8 x in
  let? (x, pos) := take_byte t b pos in
  let? counter_asset := asset_from_u8 x in
  let? (nim_amount, pos) := take_be t b pos 8 in
  let? (btc_amount, pos) := take_be t b pos 8 in
  let? (expiry_height, pos) := take_be t b pos 8 in
  let? (min_nim, pos) := take_be t b pos 8 in
  let? (max_nim, pos) := take_be t b pos 8 in
  let? (nim_pubkey, pos) := take_array t b pos 32 in
  let? (nim_address, pos) := take_array t b pos 20 in
  let? (btc_pubkey, pos) := take_array t b pos 33 in
  let? (network_id, pos) := take_byte t b pos in
  let? (addr_len, pos) := take_be t b pos 2 in
  let? (btc_address, pos) := take_vec t b pos addr_len in
  let? (evm_address, pos) := take_array t b pos 20 in
  let? (signature, pos) := take_array t b pos 64 in
  Ok {| i_gives := gives; i_counter_asset := counter_asset; i_nim_amount := nim_amount;
        i_btc_amount := btc_amount; i_expiry_height := expiry_height; i_min_nim := min_nim;
        i_max_nim := max_nim; i_nim_pubkey := nim_pubkey; i_nim_address := nim_address;
        i_btc_pubkey := btc_pubkey; i_btc_address := btc_address; i_evm_address := evm_address;
        i_network_id := network_id; i_signature := signature |}.

(** Signing and authenticating an advertisement. *)
Definition verify_authentic `{Crypto} (i : SwapIntent) : bool :=
  if negb (bytes_eqb (address_of (i_nim_pubkey i)) (i_nim_address i)) then false else
  ed25519_verify (i_nim_pubkey i) (intent_signing_bytes i) (i_signature i).

Definition sign_intent `{Crypto} (i : SwapIntent) (secret : bytes) : SwapIntent :=
  let pubkey := ed25519_public secret in
  let with_keys sg :=
    {| i_gives := i_gives i; i_counter_asset := i_counter_asset i;
       i_nim_amount := i_nim_amount i; i_btc_amount := i_btc_amount i;
       i_expiry_height := i_expiry_height i; i_min_nim := i_min_nim i; i_max_nim := i_max_nim i;
       i_nim_pubkey := pubkey; i_nim_address := address_of pubkey;
       i_btc_pubkey := i_btc_pubkey i; i_btc_address := i_btc_address i;
       i_evm_address := i_evm_address i; i_network_id := i_network_id i; i_signature := sg |} in
  with_keys (ed25519_sign secret (intent_signing_bytes (with_keys (i_signature i)))).

(** ** The responder's rate floor ([swap_rate.rs]) *)

Record RatePolicy : Type := mkRate { min_nim_per_btc_num : Z; min_nim_per_btc_den : Z }.

Definition accept_all : RatePolicy := mkRate 0 1.

Definition min_rate (num den : Z) : RatePolicy := mkRate num den.

Definition accepts (p : RatePolicy) (give_amount take_amount : Z) : bool :=
  if take_amount =? 0 then min_nim_per_btc_num p =? 0
  else wrapN 128 (give_amount * min_nim_per_btc_den p)
       >=? wrapN 128 (take_amount * min_nim_per_btc_num p).

(** ** Well-formedness and lemmas *)

Record intent_ok (i : SwapIntent) : Prop := {
  io_nim : uN 64 (i_nim_amount i);
  io_btc : uN 64 (i_btc_amount i);
  io_exp : uN 64 (i_expiry_height i);
  io_min : uN 64 (i_min_nim i);
  io_max : uN 64 (i_max_nim i);
  io_pk : array_ok 32 (i_nim_pubkey i);
  io_addr : array_ok 20 (i_nim_address i);
  io_bpk : array_ok 33 (i_btc_pubkey i);
  io_baddr : bytes_ok (i_btc_address i);
  io_evm : array_ok 20 (i_evm_address i);
  io_net : uN 8 (i_network_id i);
  io_sig : array_ok 64 (i_signature i)
}.

Lemma u64_product a b : uN 64 a -> uN 64 b -> wrapN 128 (a * b) = a * b.
Proof. intros [] []. apply Z.mod_small. nia. Qed.

Lemma asset_roundtrip a : asset_from_u8 (asset_to_u8 a) = Ok a.
Proof. now destruct a. Qed.

Lemma asset_from_inv x a : asset_from_u8 x = Ok a -> x = asset_to_u8 a.
Proof.
  unfold asset_from_u8. intros H. repeat (case_hyp H; try discriminate); now simplify_eq.
Qed.

Lemma decode_encode_intent i rest :
  intent_ok i -> len (i_btc_address i) < 65536 -> len (encode_intent i ++ rest) < 2 ^ 64 ->
  decode_intent (encode_intent i ++ rest) = Ok i.
Proof.
  intros [? ? ? ? ? [] [] [] ? [] ? []] Hl Hb.
  pose proof (at_pos_0 (encode_intent i ++ rest)) as Hp.
  set (b := encode_intent i ++ rest) in *.
  assert (Hbe : b = encode_intent i ++ rest) by reflexivity. rewrite Hbe in Hp at 2.
  clearbody b. unfold encode_intent, encode_intent_content in Hp.
  rewrite <- !app_assoc in Hp. unfold decode_intent.
  assert (Hw : wrapN 16 (len (i_btc_address i)) = len (i_btc_address i)).
  { apply Z.mod_small. pose proof (len_nonneg (i_btc_address i)). lia. }
  rewrite Hw in Hp. pose proof (len_nonneg (i_btc_address i)).
  repeat (read_next Hb; rewrite ?asset_roundtrip). now destruct i.
Qed.

Lemma decode_intent_spec b :
  bytes_ok b ->
  match decode_intent b with
  | Ok i => intent_ok i /\ len (i_btc_address i) < 65536 /\ exists rest, b = encode_intent i ++ rest
  | Err _ => True
  | Panic => False
  end.
Proof.
  intros Hok. assert (Hp : exists b0, b = b0 /\ at_pos b 0 b0) by eauto using at_pos_0.
  destruct Hp as (b0 & Hb & Hp). unfold decode_intent.
  read_case. destruct (asset_from_u8 x) as [a1| |] eqn:Ha1;
    [|exact I|now unfold asset_from_u8 in Ha1; repeat case_hyp Ha1].
  read_case. destruct (asset_from_u8 x0) as [a2| |] eqn:Ha2;
    [|exact I|now unfold asset_from_u8 in Ha2; repeat case_hyp Ha2].
  apply asset_from_inv in Ha1 as ->, Ha2 as ->.
  repeat read_case.
  rewrite Hb, ?bytes_ok_cons, ?bytes_ok_app in Hok. rewrite ?bytes_ok_cons, ?bytes_ok_app in Hok.
  destruct_and?.
  split_and!; [constructor; try split; simpl; auto; try apply H21| |].
  - simpl in *. lia.
  - exists rest. rewrite Hb. unfold encode_intent, encode_intent_content.
    cbn [i_gives i_counter_asset i_nim_amount i_btc_amount i_expiry_height i_min_nim i_max_nim
         i_nim_pubkey i_nim_address i_btc_pubkey i_btc_address i_evm_address i_network_id
         i_signature].
    assert (Hw : wrapN 16 (len v2) = x5).
    { rewrite Hl8. apply Z.mod_small. change (256 ^ Z.of_nat 2) with (2 ^ 16) in *. lia. }
    rewrite Hw, <- !app_assoc. reflexivity.
Qed.

Lemma encode_intent_len i :
  intent_ok i -> len (i_btc_address i) < 65536 -> len (encode_intent i) < 2 ^ 64.
Proof.
  intros [_ _ _ _ _ [H1 _] [H2 _] [H3 _] _ [H4 _] _ [H5 _]] Hl.
  unfold encode_intent, encode_intent_content. len_simpl. rewrite H1, H2, H3, H4, H5. lia.
Qed.

(** The fixed fields leave the one free-length field no slack. *)
Lemma intent_content_inj i j :
  intent_ok i -> intent_ok j ->
  len (i_btc_address i) < 65536 -> len (i_btc_address j) < 65536 ->
  encode_intent_content i = encode_intent_content j ->
  mkIntent (i_gives i) (i_counter_asset i) (i_nim_amount i) (i_btc_amount i)
    (i_expiry_height i) (i_min_nim i) (i_max_nim i) (i_nim_pubkey i) (i_nim_address i)
    (i_btc_pubkey i) (i_btc_address i) (i_evm_address i) (i_network_id i) (i_signature j) = j.
Proof.
  intros Hi Hj Hli Hlj He.
  set (i' := mkIntent _ _ _ _ _ _ _ _ _ _ _ _ _ (i_signature j)).
  assert (Hi' : intent_ok i').
  { destruct Hi, Hj. constructor; assumption. }
  assert (Hd : decode_intent (encode_intent i' ++ []) = decode_intent (encode_intent j ++ [])).
  { unfold encode_intent. change (encode_intent_content i') with (encode_intent_content i).
    rewrite He. reflexivity. }
  rewrite !decode_encode_intent in Hd; try assumption; [congruence|..];
    rewrite app_nil_r; apply encode_intent_len; assumption.
Qed.

(** ** Properties *)

(** The intent decoder accepts exactly the encodings of in-range intents
    (a payout address below 64 KiB), followed by bytes it ignores; on any
    input it does not panic. *)
Theorem decode_intent_exact (b : bytes) (Hb : bytes_ok b) (Hl : len b < 2 ^ 64) :
  decode_intent b <> Panic
  /\ forall i, decode_intent b = Ok i <->
       intent_ok i /\ len (i_btc_address i) < 65536 /\ exists rest, b = encode_intent i ++ rest.
Proof.
  pose proof (decode_intent_spec b Hb) as Hs. split; [intros Ep; rewrite Ep in Hs; exact Hs|].
  intros i; split.
  - intros H. rewrite H in Hs. exact Hs.
  - intros (Hi & Ha & rest & ->). apply decode_encode_intent; assumption.
Qed.

Definition sample_intent : SwapIntent :=
  sign_intent (mkIntent ANim AUsdc 500000 4000000 9000 1 1000000 [] []
    (replicate 33 2) [98; 99] (replicate 20 3) 5 []) (replicate 32 7).

Lemma decode_intent_exact_witness :
  decode_intent (encode_intent sample_intent ++ [1]) <> Panic
  /\ decode_intent (encode_intent sample_intent ++ [1]) = Ok sample_intent.
Proof.
  split; [|vm_compute; reflexivity].
  apply (decode_intent_exact (encode_intent sample_intent ++ [1]));
    [now apply bytes_okb_ok | now vm_compute].
Defined.

Section authenticity.
Context {C : Crypto} {CL : CryptoLaws C}.

(** An advertisement signed with a seed authenticates, and the signature
    binds every field: any in-range intent that presents the same signed bytes
    is the same intent but for its signature, so a relay that changes any
    amount, address, key, expiry or network changes the signed message. *)
Theorem intent_authentic (i : SwapIntent) (secret : bytes)
    (Hi : intent_ok (sign_intent i secret)) (Hl : len (i_btc_address i) < 65536) :
  verify_authentic (sign_intent i secret) = true
  /\ forall j, intent_ok j -> len (i_btc_address j) < 65536 ->
       intent_signing_bytes j = intent_signing_bytes (sign_intent i secret) ->
       i_signature j = i_signature (sign_intent i secret) -> j = sign_intent i secret.
Proof.
  split.
  - unfold verify_authentic, sign_intent. simpl. unfold bytes_eqb.
    rewrite bool_decide_eq_true_2 by reflexivity. simpl. apply verify_sign.
  - intros j Hj Hlj Hs Hg.
    rewrite <- (intent_content_inj j (sign_intent i secret)) by assumption.
    rewrite <- Hg. now destruct j.
Qed.
End authenticity.

Lemma intent_authentic_witness : verify_authentic sample_intent = true.
Proof.
  apply intent_authentic; [|now vm_compute].
  constructor; try (split; vm_compute; congruence);
    try (split; [reflexivity | now apply bytes_okb_ok]). now apply bytes_okb_ok.
Defined.

(** Who initiates is decided by the exact rational rates: for amounts in
    the [u64] range, a node initiates against an advertisement if and only if
    it gives NIM, the other side gives exactly the asset it asks for on the
    same network, both counter amounts are positive, and its own NIM-per-counter
    rate is at least the one asked ([a/b >= c/d] with no rounding or overflow);
    two nodes never both initiate against each other. *)
Theorem would_initiate_iff (self incoming : SwapIntent)
    (Hs : intent_ok self) (Hi : intent_ok incoming) :
  (would_initiate_against self incoming = true <->
     i_gives self = ANim /\ i_gives incoming <> ANim
     /\ i_gives incoming = i_counter_asset self
     /\ i_network_id self = i_network_id incoming
     /\ 0 < i_btc_amount self /\ 0 < i_btc_amount incoming
     /\ i_nim_amount incoming * i_btc_amount self <= i_nim_amount self * i_btc_amount incoming)
  /\ would_initiate_against self incoming && would_initiate_against incoming self = false.
Proof.
  destruct Hs, Hi. unfold would_initiate_against. rewrite !u64_product by assumption. split.
  - rewrite !andb_true_iff, negb_true_iff, !bool_decide_eq_true, bool_decide_eq_false, Z.eqb_eq,
      !Z.gtb_lt, Z.geb_le. tauto.
  - destruct (i_gives self), (i_gives incoming); simpl; try reflexivity;
      rewrite ?andb_false_r; reflexivity.
Qed.

Lemma would_initiate_iff_witness :
  would_initiate_against sample_intent
    (mkIntent AUsdc AUsdc 400000 4000000 9000 1 1000000 (replicate 32 0) (replicate 20 0)
       (replicate 33 2) [] (replicate 20 3) 5 (replicate 64 0)) = true.
Proof.
  apply would_initiate_iff; try (split_and!; vm_compute; congruence);
    constructor; try (split; vm_compute; congruence);
    try (split; [reflexivity | now apply bytes_okb_ok]); now apply bytes_okb_ok.
Defined.

(** The responder's rate floor is exact: in the [u64] range a proposal
    with a positive take amount passes if and only if [give/take >= num/den]
    as rationals, and a zero take passes only the policy without a floor. *)
Theorem rate_accepts_iff (p : RatePolicy) (give take : Z)
    (Hn : uN 64 (min_nim_per_btc_num p)) (Hd : uN 64 (min_nim_per_btc_den p))
    (Hg : uN 64 give) (Ht : uN 64 take) :
  accepts p give take = true <->
  (take = 0 /\ min_nim_per_btc_num p = 0)
  \/ (0 < take /\ take * min_nim_per_btc_num p <= give * min_nim_per_btc_den p).
Proof.
  unfold accepts. rewrite !u64_product by assumption.
  destruct (Z.eqb_spec take 0) as [->|Hz]; unfold uN in *.
  - rewrite Z.eqb_eq. lia.
  - rewrite Z.geb_le. split; [right; lia | intros [[]|[]]; lia].
Qed.

Lemma rate_accepts_iff_witness : accepts (min_rate 3 2) 30 20 = true.
Proof. apply rate_accepts_iff; unfold uN; simpl; lia. Defined.
