(* ===== verification/FundingVerify.v ===== *)
(** * FundingVerify: on-chain verification of the counterparty's funding
    ([swap_funding_verify.rs])

    The trait [FundingVerifier] is a class over the verifier's state; a live
    verifier is any instance of it, and the in-memory verifiers of the source
    are the instances of this file. *)

From stdpp Require Import base list.
From Stdlib Require Import ZArith Lia.
From S2P Require Import Prelude SwapWire SwapIntent.
Open Scope Z_scope.

Record HtlcExpectation : Type := mkExpect {
  x_leg : SwapLegId;
  x_hashlock : bytes;
  x_min_amount : Z;
  x_min_timeout : Z;
  x_recipient : bytes;
  x_term_anchor : Z
}.

Inductive MismatchReason : Type := MmHashlock | MmRecipient.

Inductive FundingObservation : Type :=
| Found (amount timeout confirmations : Z)
| Absent
| Mismatch (r : MismatchReason).

Inductive ClaimObservation : Type :=
| Included (confirmations : Z)
| NotFound
| Unavailable.

Class FundingVerifier (V : Type) : Type := {
  observe : V -> HtlcExpectation -> FundingObservation;
  note_funding_wire : V -> SwapLegId -> bytes -> V;
  chain_backed : V -> bool;
  observe_claim : V -> SwapLegId -> bytes -> ClaimObservation
}.

Definition DEFAULT_MIN_CONFIRMATIONS : Z := 1.
Definition FINALIZED_CONFIRMATIONS : Z := 2 ^ 32 - 1.
Definition U64_MAX : Z := 2 ^ 64 - 1.
Definition U32_MAX : Z := 2 ^ 32 - 1.

Record ConfirmationPolicy : Type := mkPolicy { cp_nim : Z; cp_btc : Z; cp_usdc : Z }.

Definition testnet_defaults : ConfirmationPolicy := mkPolicy 2 3 5.
Definition mainnet_defaults : ConfirmationPolicy := mkPolicy 2 2 8.
Definition mainnet_paranoid : ConfirmationPolicy := mkPolicy 10 2 64.
Definition uniform (n : Z) : ConfirmationPolicy := mkPolicy n n n.
Definition with_nim (p : ConfirmationPolicy) (n : Z) := mkPolicy n (cp_btc p) (cp_usdc p).
Definition with_btc (p : ConfirmationPolicy) (n : Z) := mkPolicy (cp_nim p) n (cp_usdc p).
Definition with_usdc (p : ConfirmationPolicy) (n : Z) := mkPolicy (cp_nim p) (cp_btc p) n.

Definition required (p : ConfirmationPolicy) (chain : Asset) : Z :=
  match chain with ANim => cp_nim p | ABtc => cp_btc p | AUsdc => cp_usdc p end.

Definition required_for_leg (p : ConfirmationPolicy) (leg : SwapLegId) (counterparty : Asset) : Z :=
  match leg with LegNim => cp_nim p | LegCounterparty => required p counterparty end.

Record SwapCaps : Type := mkCaps { max_nim_luna : Z; max_usdc_micro : Z; max_btc_sat : Z }.

Definition mainnet_first_swap : SwapCaps := mkCaps (50 * 100000) (5 * 1000000) 20000.

Definition admits (c : SwapCaps) (nim_luna counter_amount : Z) (counter : Asset) : bool :=
  if nim_luna >? max_nim_luna c then false else
  match counter with
  | ANim => true
  | AUsdc => counter_amount <=? max_usdc_micro c
  | ABtc => counter_amount <=? max_btc_sat c
  end.

(** [AcceptAllVerifier], a unit struct. *)
Inductive AcceptAllVerifier : Type := AcceptAll.

#[export] Instance AcceptAll_verifier : FundingVerifier AcceptAllVerifier := {|
  observe := fun _ _ => Found U64_MAX U64_MAX U32_MAX;
  note_funding_wire := fun v _ _ => v;
  chain_backed := fun _ => false;
  observe_claim := fun _ _ _ => Included U32_MAX
|}.

Inductive FundingRejected : Type :=
| NotFundedYet
| TooShallow (have need : Z)
| Underfunded (have need : Z)
| TimeoutTooShort (have need : Z)
| RejMismatch (r : MismatchReason).

Definition require_funded (obs : FundingObservation) (expect : HtlcExpectation)
    (min_confirmations : Z) : res FundingRejected Z :=
  match obs with
  | Absent => Err NotFundedYet
  | Mismatch reason => Err (RejMismatch reason)
  | Found amount timeout confirmations =>
      if amount <? x_min_amount expect then Err (Underfunded amount (x_min_amount expect)) else
      if timeout <? x_min_timeout expect then
        Err (TimeoutTooShort timeout (x_min_timeout expect)) else
      if confirmations <? min_confirmations then
        Err (TooShallow confirmations min_confirmations) else
      Ok confirmations
  end.

Record SimVerifier : Type := mkSim { sim_obs : FundingObservation }.

Definition sim_healthy (amount timeout confirmations : Z) : SimVerifier :=
  mkSim (Found amount timeout confirmations).

#[export] Instance Sim_verifier : FundingVerifier SimVerifier := {|
  observe := fun v _ => sim_obs v;
  note_funding_wire := fun v _ _ => v;
  chain_backed := fun _ => false;
  observe_claim := fun _ _ _ => Unavailable
|}.

Record OnChainHtlc : Type := mkOnChain {
  oc_leg : SwapLegId;
  oc_hashlock : bytes;
  oc_recipient : bytes;
  oc_amount : Z;
  oc_timeout : Z;
  oc_confirmations : Z
}.

Record LedgerVerifier : Type := mkLedger {
  lv_htlcs : list OnChainHtlc;
  lv_claims : list (bytes * Z)
}.

Definition ledger_new : LedgerVerifier := mkLedger [] [].

Definition ledger_fund (v : LedgerVerifier) (h : OnChainHtlc) : LedgerVerifier :=
  mkLedger (lv_htlcs v ++ [h]) (lv_claims v).

Definition reorg_to (v : LedgerVerifier) (confirmations : Z) : LedgerVerifier :=
  mkLedger (map (fun h => mkOnChain (oc_leg h) (oc_hashlock h) (oc_recipient h) (oc_amount h)
                            (oc_timeout h) (Z.min (oc_confirmations h) confirmations))
                (lv_htlcs v)) (lv_claims v).

Definition orphan_all (v : LedgerVerifier) : LedgerVerifier := mkLedger [] (lv_claims v).

(** [if let Some(c) = iter_mut().find(..) { c.1 = n } else { push }] *)
Fixpoint claims_set (l : list (bytes * Z)) (tx_id : bytes) (n : Z) : option (list (bytes * Z)) :=
  match l with
  | [] => None
  | (k, c) :: l =>
      if bytes_eqb k tx_id then Some ((k, n) :: l)
      else l' ← claims_set l tx_id n; Some ((k, c) :: l')
  end.

Definition include_claim (v : LedgerVerifier) (tx_id : bytes) (confirmations : Z)
  : LedgerVerifier :=
  match claims_set (lv_claims v) tx_id confirmations with
  | Some l => mkLedger (lv_htlcs v) l
  | None => mkLedger (lv_htlcs v) (lv_claims v ++ [(tx_id, confirmations)])
  end.

(** One turn of the matching loop, on [(pays_us, best)]. *)
Definition ledger_scan (e : HtlcExpectation) (acc : bool * option OnChainHtlc) (h : OnChainHtlc)
  : bool * option OnChainHtlc :=
  if negb (bool_decide (oc_leg h = x_leg e)) then acc else
  let '(pays_us, best) := acc in
  if bytes_eqb (oc_recipient h) (x_recipient e) then
    (true,
     if bytes_eqb (oc_hashlock h) (x_hashlock e)
        && match best with None => true | Some b => oc_confirmations h >? oc_confirmations b end
     then Some h else best)
  else (pays_us, best).

Definition ledger_observe (v : LedgerVerifier) (e : HtlcExpectation) : FundingObservation :=
  let '(pays_us, best) := foldl (ledger_scan e) (false, None) (lv_htlcs v) in
  match best with
  | Some h => Found (oc_amount h) (oc_timeout h) (oc_confirmations h)
  | None =>
      if pays_us then Mismatch MmHashlock
      else if existsb (fun h => bool_decide (oc_leg h = x_leg e)
                                && bytes_eqb (oc_hashlock h) (x_hashlock e)) (lv_htlcs v)
      then Mismatch MmRecipient
      else Absent
  end.

Definition ledger_observe_claim (v : LedgerVerifier) (leg : SwapLegId) (tx_id : bytes)
  : ClaimObservation :=
  match List.find (fun p => bytes_eqb p.1 tx_id) (lv_claims v) with
  | Some (_, confirmations) => Included confirmations
  | None => NotFound
  end.

#[export] Instance Ledger_verifier : FundingVerifier LedgerVerifier := {|
  observe := ledger_observe;
  note_funding_wire := fun v _ _ => v;
  chain_backed := fun _ => false;
  observe_claim := ledger_observe_claim
|}.

(** ** Lemmas *)

(** An HTLC that meets an expectation at depth [n]. *)
Definition matches (h : OnChainHtlc) (e : HtlcExpectation) : Prop :=
  oc_leg h = x_leg e /\ oc_recipient h = x_recipient e /\ oc_hashlock h = x_hashlock e.

Lemma require_funded_iff obs e n c :
  require_funded obs e n = Ok c <->
  exists a t, obs = Found a t c /\ x_min_amount e <= a /\ x_min_timeout e <= t /\ n <= c.
Proof.
  unfold require_funded. destruct obs as [a t c'| |r]; split; intros H;
    try discriminate; try (destruct H as (? & ? & ? & ?); discriminate).
  - run H. exists a, t. auto.
  - destruct H as (a' & t' & [= <- <- <-] & H1 & H2 & H3).
    repeat case_goal; bool_prop; lia || reflexivity.
Qed.

Lemma bytes_eqb_spec a b : reflect (a = b) (bytes_eqb a b).
Proof. apply bool_decide_reflect. Qed.

(** One turn keeps the best match valid and only deepens it. *)
Lemma ledger_scan_step e pu best h0 pu1 best1 :
  (forall h, best = Some h -> matches h e) ->
  ledger_scan e (pu, best) h0 = (pu1, best1) ->
  (forall h, best1 = Some h -> matches h e)
  /\ (best1 = best \/ best1 = Some h0)
  /\ (matches h0 e -> exists h, best1 = Some h /\ oc_confirmations h0 <= oc_confirmations h)
  /\ (forall b, best = Some b ->
        exists h, best1 = Some h /\ oc_confirmations b <= oc_confirmations h).
Proof.
  intros Hb Hs. unfold ledger_scan, matches in *.
  destruct (bool_decide_reflect (oc_leg h0 = x_leg e)) as [Hleg|Hleg]; simpl in Hs.
  2: { simplify_eq. split_and!; auto; [tauto | intros b ->; eauto using Z.le_refl]. }
  destruct (bytes_eqb_spec (oc_recipient h0) (x_recipient e)) as [Hr|Hr]; simplify_eq.
  2: { split_and!; auto; [tauto | intros b ->; eauto using Z.le_refl]. }
  destruct (bytes_eqb_spec (oc_hashlock h0) (x_hashlock e)) as [Hh|Hh]; simpl.
  2: { split_and!; auto; [tauto | intros b ->; eauto using Z.le_refl]. }
  destruct best as [b|]; [destruct (oc_confirmations h0 >? oc_confirmations b) eqn:Hc; bool_prop|];
    split_and!; auto; try (intros ? [= <-]; auto); eauto using Z.le_refl;
    try (eexists; split; [reflexivity | lia]); discriminate.
Qed.

(** What the scan has found: the deepest match so far. *)
Lemma ledger_scan_inv e l pu best :
  (forall h, best = Some h -> matches h e) ->
  let '(pu', best') := foldl (ledger_scan e) (pu, best) l in
  (forall h, best' = Some h -> (best = Some h \/ h ∈ l) /\ matches h e
     /\ (forall h', h' ∈ l -> matches h' e -> oc_confirmations h' <= oc_confirmations h)
     /\ (forall b, best = Some b -> oc_confirmations b <= oc_confirmations h))
  /\ (best' = None -> best = None /\ forall h', h' ∈ l -> ~ matches h' e).
Proof.
  revert pu best. induction l as [|h0 l IH]; intros pu best Hb; simpl.
  - split; [|intros ->; split; [reflexivity | intros h' Hh'; now apply elem_of_nil in Hh']].
    intros h ->. split_and!; auto; [intros h' Hh'; now apply elem_of_nil in Hh'|].
    intros b [= ->]; lia.
  - destruct (ledger_scan e (pu, best) h0) as [pu1 best1] eqn:Hs.
    destruct (ledger_scan_step _ _ _ _ _ _ Hb Hs) as (Hm1 & Hor & Hh0 & Hmono).
    specialize (IH pu1 best1 Hm1).
    destruct (foldl (ledger_scan e) (pu1, best1) l) as [pu' best'].
    destruct IH as [IH1 IH2]. split.
    + intros h Hh. destruct (IH1 h Hh) as (Hin & Hm & Hall & Hb'). split_and!; auto.
      * destruct Hin as [Hin|Hin]; [destruct Hor as [->| ->]; auto; simplify_eq; right; left|right; now right].
      * intros h' [->|Hh']%elem_of_cons Hmh; [|auto].
        destruct (Hh0 Hmh) as (h1 & Hb1 & Hle). specialize (Hb' h1 Hb1). lia.
      * intros b Hbb. destruct (Hmono b Hbb) as (h1 & Hb1 & Hle). specialize (Hb' h1 Hb1). lia.
    + intros Hn. destruct (IH2 Hn) as [Hbn Hno]. split.
      * destruct best as [b|]; [|reflexivity]. destruct (Hmono b eq_refl) as (? & ? & _). congruence.
      * intros h' [->|Hh']%elem_of_cons; [|auto]. intros Hmh.
        destruct (Hh0 Hmh) as (? & ? & _). congruence.
Qed.

Lemma ledger_observe_found v e a t c :
  ledger_observe v e = Found a t c ->
  exists h, h ∈ lv_htlcs v /\ matches h e /\ oc_amount h = a /\ oc_timeout h = t
    /\ oc_confirmations h = c
    /\ forall h', h' ∈ lv_htlcs v -> matches h' e -> oc_confirmations h' <= c.
Proof.
  unfold ledger_observe. intros H.
  pose proof (ledger_scan_inv e (lv_htlcs v) false None ltac:(discriminate)) as Hs.
  destruct (foldl (ledger_scan e) (false, None) (lv_htlcs v)) as [pu best].
  destruct best as [h|]; [|repeat case_hyp H; discriminate]. injection H as <- <- <-.
  destruct Hs as [Hs _]. destruct (Hs h eq_refl) as ([?|Hin] & Hm & Hall & _); [discriminate|].
  exists h. auto 10.
Qed.

(** ** Properties *)

(** The go decision is exact.  A funding is accepted at depth [n] only for
    an observed HTLC of at least the agreed amount and timeout, buried at least
    [n] deep; and over the ledger verifier that HTLC is really on the ledger,
    pays our recipient under our hashlock on the right leg, and is the deepest
    such.  A reorganisation to a depth below [n] makes the same expectation
    refused again, and an orphaned ledger is "not funded yet". *)
Theorem ledger_funded_sound (v : LedgerVerifier) (e : HtlcExpectation) (n c : Z)
    (H : require_funded (observe v e) e n = Ok c) :
  (exists h, h ∈ lv_htlcs v /\ oc_leg h = x_leg e /\ oc_recipient h = x_recipient e
     /\ oc_hashlock h = x_hashlock e /\ x_min_amount e <= oc_amount h
     /\ x_min_timeout e <= oc_timeout h /\ n <= oc_confirmations h /\ oc_confirmations h = c
     /\ forall h', h' ∈ lv_htlcs v -> matches h' e -> oc_confirmations h' <= c)
  /\ (forall m c', m < n -> require_funded (observe (reorg_to v m) e) e n <> Ok c')
  /\ require_funded (observe (orphan_all v) e) e n = Err NotFundedYet.
Proof.
  simpl in *. split_and!.
  - apply require_funded_iff in H as (a & t & Ho & Ha & Ht & Hc).
    apply ledger_observe_found in Ho as (h & Hin & (? & ? & ?) & <- & <- & <- & Hall).
    exists h. auto 10.
  - intros m c' Hm Hr. apply require_funded_iff in Hr as (a & t & Ho & _ & _ & Hc).
    apply ledger_observe_found in Ho as (h & Hin & _ & _ & _ & <- & _).
    simpl in Hin. apply list_elem_of_In, in_map_iff in Hin as (h0 & <- & _). simpl in Hc. lia.
  - reflexivity.
Qed.

Definition sample_expect : HtlcExpectation := mkExpect LegNim [1] 100 5000 [2] 0.

Definition sample_ledger : LedgerVerifier :=
  mkLedger [mkOnChain LegNim [1] [2] 90 5000 9; mkOnChain LegNim [1] [2] 100 5000 12] [].

Lemma ledger_funded_sound_witness :
  require_funded (observe sample_ledger sample_expect) sample_expect 3 = Ok 12
  /\ require_funded (observe (orphan_all sample_ledger) sample_expect) sample_expect 3
     = Err NotFundedYet.
Proof.
  split; [reflexivity|].
  exact (proj2 (proj2 (ledger_funded_sound sample_ledger sample_expect 3 12 eq_refl))).
Defined.
