(* ===== verification/SwapMessages.v ===== *)
(** * SwapMessages: typed swap messages over the wire envelope ([swap_messages.rs]) *)

From stdpp Require Import base list.
From Stdlib Require Import ZArith Lia.
From S2P Require Import Prelude Packet SwapWire Swap Crypto.
Open Scope Z_scope.

Record SwapProposal : Type := mkProposal {
  p_swap_id : bytes;
  p_hashlock : bytes;
  p_give_amount : Z;
  p_take_amount : Z;
  p_terms : SwapTerms;
  p_nim_address : bytes;
  p_btc_address : bytes;
  p_btc_pubkey : bytes;
  p_network_id : Z
}.

Definition proposal_to_envelope (p : SwapProposal) : SwapEnvelope :=
  {| e_swap_id := p_swap_id p; e_hashlock := Some (p_hashlock p);
     e_give_amount := Some (p_give_amount p); e_take_amount := Some (p_take_amount p);
     e_nim_timeout := Some (nim_timeout (p_terms p));
     e_counterparty_timeout := Some (counterparty_timeout (p_terms p));
     e_nim_address := Some (p_nim_address p);
     e_counterparty_address := Some (p_btc_address p);
     e_leg := None; e_tx_wire := None; e_tx_id := None;
     e_network_id := Some (p_network_id p); e_reason := None;
     e_btc_pubkey := Some (p_btc_pubkey p); e_nim_pubkey := None; e_propose_sig := None |}.

Definition proposal_from_envelope (env : SwapEnvelope) : option SwapProposal :=
  hashlock ← e_hashlock env;
  give_amount ← e_give_amount env;
  take_amount ← e_take_amount env;
  nim_timeout ← e_nim_timeout env;
  counterparty_timeout ← e_counterparty_timeout env;
  nim_address ← e_nim_address env;
  btc_address ← e_counterparty_address env;
  btc_pubkey ← e_btc_pubkey env;
  network_id ← e_network_id env;
  Some {| p_swap_id := e_swap_id env; p_hashlock := hashlock; p_give_amount := give_amount;
          p_take_amount := take_amount; p_terms := mkTerms nim_timeout counterparty_timeout;
          p_nim_address := nim_address; p_btc_address := btc_address;
          p_btc_pubkey := btc_pubkey; p_network_id := network_id |}.

Definition signing_bytes (p : SwapProposal) : bytes :=
  p_swap_id p ++ p_hashlock p ++ be_bytes 8 (p_give_amount p) ++ be_bytes 8 (p_take_amount p)
  ++ be_bytes 8 (nim_timeout (p_terms p)) ++ be_bytes 8 (counterparty_timeout (p_terms p))
  ++ p_nim_address p ++ p_btc_address p ++ p_btc_pubkey p ++ [p_network_id p].

Definition proposal_sign `{Crypto} (p : SwapProposal) (secret : bytes) : bytes * bytes :=
  (ed25519_public secret, ed25519_sign secret (signing_bytes p)).

Definition verify_signature `{Crypto} (p : SwapProposal) (pubkey signature : bytes) : bool :=
  if negb (bytes_eqb (address_of pubkey) (p_nim_address p)) then false else
  ed25519_verify pubkey (signing_bytes p) signature.

Definition to_signed_envelope (p : SwapProposal) (pubkey signature : bytes) : SwapEnvelope :=
  set_nim_pubkey (Some pubkey) (set_propose_sig (Some signature) (proposal_to_envelope p)).

Definition verify_envelope `{Crypto} (env : SwapEnvelope) : bool :=
  match proposal_from_envelope env, e_nim_pubkey env, e_propose_sig env with
  | Some proposal, Some pubkey, Some sig => verify_signature proposal pubkey sig
  | _, _, _ => false
  end.

Record SwapAcceptance : Type := mkAcceptance {
  a_swap_id : bytes;
  a_nim_address : bytes;
  a_btc_address : bytes;
  a_btc_pubkey : bytes
}.

Definition acceptance_to_envelope (a : SwapAcceptance) : SwapEnvelope :=
  set_nim_address (Some (a_nim_address a))
    (set_counterparty_address (Some (a_btc_address a))
      (set_btc_pubkey (Some (a_btc_pubkey a)) (swap_envelope_new (a_swap_id a)))).

Definition acceptance_from_envelope (env : SwapEnvelope) : option SwapAcceptance :=
  nim_address ← e_nim_address env;
  btc_address ← e_counterparty_address env;
  btc_pubkey ← e_btc_pubkey env;
  Some {| a_swap_id := e_swap_id env; a_nim_address := nim_address;
          a_btc_address := btc_address; a_btc_pubkey := btc_pubkey |}.

Definition tx_envelope (swap_id : bytes) (leg : SwapLegId) (tx_wire tx_id : bytes) : SwapEnvelope :=
  set_leg (Some leg) (set_tx_wire (Some tx_wire) (set_tx_id (Some tx_id)
    (swap_envelope_new swap_id))).

Definition abort_envelope (swap_id : bytes) (reason : Z) : SwapEnvelope :=
  set_reason (Some reason) (swap_envelope_new swap_id).

(** ** Well-formedness and lemmas *)

Record proposal_ok (p : SwapProposal) : Prop := {
  po_id : array_ok 16 (p_swap_id p);
  po_hash : array_ok 32 (p_hashlock p);
  po_give : uN 64 (p_give_amount p);
  po_take : uN 64 (p_take_amount p);
  po_ta : uN 64 (nim_timeout (p_terms p));
  po_tb : uN 64 (counterparty_timeout (p_terms p));
  po_addr : array_ok 20 (p_nim_address p);
  po_baddr : bytes_ok (p_btc_address p);
  po_bpk : array_ok 33 (p_btc_pubkey p);
  po_net : uN 8 (p_network_id p)
}.

Lemma proposal_roundtrip p : proposal_from_envelope (proposal_to_envelope p) = Some p.
Proof. now destruct p as [? ? ? ? []]. Qed.

Lemma signed_proposal p pk sg :
  proposal_from_envelope (to_signed_envelope p pk sg) = Some p
  /\ e_nim_pubkey (to_signed_envelope p pk sg) = Some pk
  /\ e_propose_sig (to_signed_envelope p pk sg) = Some sg.
Proof. now destruct p as [? ? ? ? []]. Qed.

Lemma verify_envelope_inv `{Crypto} env :
  verify_envelope env = true ->
  exists p pk sg, proposal_from_envelope env = Some p /\ e_nim_pubkey env = Some pk
    /\ e_propose_sig env = Some sg /\ address_of pk = p_nim_address p
    /\ ed25519_verify pk (signing_bytes p) sg = true.
Proof.
  unfold verify_envelope, verify_signature, bytes_eqb. intros Hv. run Hv.
  do 3 eexists. split_and!; eauto.
Qed.

Lemma app_inj_len {A} (a b x y : list A) :
  len a = len b -> a ++ x = b ++ y -> a = b /\ x = y.
Proof. intros H He. apply app_inj_1; [unfold len in H; lia | assumption]. Qed.

Lemma be_app_inj n v w (x y : bytes) :
  0 <= v < 256 ^ Z.of_nat n -> 0 <= w < 256 ^ Z.of_nat n ->
  be_bytes n v ++ x = be_bytes n w ++ y -> v = w /\ x = y.
Proof.
  intros Hv Hw He. apply app_inj_len in He as [H ?]; [|now rewrite !len_be_bytes].
  split; [now apply be_bytes_inj in H | assumption].
Qed.

(** The signed bytes determine the proposal. *)
Lemma signing_bytes_inj p q :
  proposal_ok p -> proposal_ok q -> signing_bytes p = signing_bytes q -> p = q.
Proof.
  intros [[Hi _] [Hh _] Hg Ht Ha Hb [Hn _] _ [Hk _] _] [[Hi' _] [Hh' _] Hg' Ht' Ha' Hb' [Hn' _] _ [Hk' _] _] He.
  unfold signing_bytes in He.
  apply app_inj_len in He as [H1 He]; [|congruence].
  apply app_inj_len in He as [H2 He]; [|congruence].
  apply be_app_inj in He as [H3 He]; [|assumption..].
  apply be_app_inj in He as [H4 He]; [|assumption..].
  apply be_app_inj in He as [H5 He]; [|assumption..].
  apply be_app_inj in He as [H6 He]; [|assumption..].
  apply app_inj_len in He as [H7 He]; [|congruence].
  apply app_inj_2 in He as [H8 He]; [|unfold len in *; rewrite !length_app; simpl; lia].
  apply app_inj_len in He as [H9 He]; [|congruence].
  destruct p as [? ? ? ? [] ? ? ? ?], q as [? ? ? ? [] ? ? ? ?]; simpl in *. congruence.
Qed.

(** ** Properties *)

Section messages.
Context {C : Crypto} {CL : CryptoLaws C}.

(** A signed proposal authenticates and its signature binds all its terms.
    A proposal signed with the seed whose public key hashes to its NIM address
    verifies after the envelope round trip; and whenever an envelope verifies,
    it carries a key that hashes to the address it names and a signature over
    signed bytes that no other in-range proposal has, so no relay can change
    the id, hashlock, amounts, timelocks, addresses or network of a proposal
    and keep a valid signature over the same bytes. *)
Theorem proposal_authentic (p : SwapProposal) (secret : bytes)
    (Hp : proposal_ok p) (Ha : p_nim_address p = address_of (ed25519_public secret)) :
  verify_envelope (to_signed_envelope p (proposal_sign p secret).1 (proposal_sign p secret).2) = true
  /\ forall env, verify_envelope env = true ->
       exists q pk sg, proposal_from_envelope env = Some q
         /\ e_nim_pubkey env = Some pk /\ e_propose_sig env = Some sg
         /\ address_of pk = p_nim_address q
         /\ ed25519_verify pk (signing_bytes q) sg = true
         /\ (proposal_ok q -> signing_bytes q = signing_bytes p -> q = p).
Proof.
  split.
  - unfold verify_envelope.
    destruct (signed_proposal p (proposal_sign p secret).1 (proposal_sign p secret).2)
      as (-> & -> & ->).
    unfold verify_signature, bytes_eqb, proposal_sign; simpl.
    rewrite bool_decide_eq_true_2 by auto. apply verify_sign.
  - intros env (q & pk & sg & H1 & H2 & H3 & H4 & H5)%verify_envelope_inv.
    exists q, pk, sg. split_and!; auto. intros Hq He. now apply signing_bytes_inj.
Qed.
End messages.

Definition sample_proposal : SwapProposal :=
  mkProposal (replicate 16 1) (replicate 32 2) 1000 50 (mkTerms 10000 5000)
    (address_of (ed25519_public (replicate 32 7))) [98] (replicate 33 3) 5.

Lemma proposal_authentic_witness :
  verify_envelope (to_signed_envelope sample_proposal
    (proposal_sign sample_proposal (replicate 32 7)).1
    (proposal_sign sample_proposal (replicate 32 7)).2) = true.
Proof.
  apply proposal_authentic; [|reflexivity].
  constructor; try (split; vm_compute; congruence);
    try (split; [reflexivity | now apply bytes_okb_ok]); now apply bytes_okb_ok.
Defined.

Lemma has_some {A} (o : option A) : bool_decide (is_Some o) = true -> exists x, o = Some x.
Proof. intros H. now apply bool_decide_eq_true in H. Qed.

Lemma tx_fields env :
  opt_ok (array_ok 32) (e_tx_id env) ->
  (forall t, In t [T_LEG; T_TX_WIRE; T_TX_ID] -> has_field env t = true) ->
  exists l w i, e_leg env = Some l /\ e_tx_wire env = Some w /\ e_tx_id env = Some i /\ len i = 32.
Proof.
  intros Hi Hreq.
  pose proof (Hreq T_LEG ltac:(simpl; tauto)) as [l Hl]%has_some.
  pose proof (Hreq T_TX_WIRE ltac:(simpl; tauto)) as [w Hw]%has_some.
  pose proof (Hreq T_TX_ID ltac:(simpl; tauto)) as [i Hid]%has_some.
  rewrite Hid in Hi. destruct Hi as [Hi _]. eauto 10.
Qed.

(** A message the wire decoder accepts always parses: a decoded [Propose]
    gives an in-range proposal and a decoded [Accept] an acceptance, with the
    fields of the envelope; a decoded [FundingProof] or [PreimageReveal] names
    its leg, transaction and transaction id (of 32 bytes), and a decoded
    [Abort] its reason. *)
Theorem decoded_parses (k : SwapKind) (b : bytes) (env : SwapEnvelope)
    (Hb : bytes_ok b) (Hd : decode_swap k b = Ok env) :
  match k with
  | Propose => exists p, proposal_from_envelope env = Some p
      /\ p_swap_id p = e_swap_id env /\ proposal_ok p
  | Accept => exists a, acceptance_from_envelope env = Some a /\ a_swap_id a = e_swap_id env
  | FundingProof | PreimageReveal => exists l w i, e_leg env = Some l /\ e_tx_wire env = Some w
      /\ e_tx_id env = Some i /\ len i = 32
  | Abort => exists r, e_reason env = Some r
  end.
Proof.
  apply decode_swap_fields in Hd as ([] & _ & _ & Hreq); [|assumption].
  destruct k.
  - pose proof (Hreq T_HASHLOCK ltac:(simpl; tauto)) as [h Hh]%has_some.
    pose proof (Hreq T_GIVE_AMOUNT ltac:(simpl; tauto)) as [g Hg]%has_some.
    pose proof (Hreq T_TAKE_AMOUNT ltac:(simpl; tauto)) as [ta Hta]%has_some.
    pose proof (Hreq T_NIM_TIMEOUT ltac:(simpl; tauto)) as [nt Hnt]%has_some.
    pose proof (Hreq T_COUNTERPARTY_TIMEOUT ltac:(simpl; tauto)) as [ct Hct]%has_some.
    pose proof (Hreq T_NIM_ADDRESS ltac:(simpl; tauto)) as [na Hna]%has_some.
    pose proof (Hreq T_COUNTERPARTY_ADDRESS ltac:(simpl; tauto)) as [ca Hca]%has_some.
    pose proof (Hreq T_NETWORK_ID ltac:(simpl; tauto)) as [ni Hni]%has_some.
    pose proof (Hreq T_BTC_PUBKEY ltac:(simpl; tauto)) as [bp Hbp]%has_some.
    unfold proposal_from_envelope. rewrite Hh, Hg, Hta, Hnt, Hct, Hna, Hca, Hni, Hbp in *.
    eexists; split; [reflexivity|]. split; [reflexivity|]. constructor; assumption.
  - pose proof (Hreq T_NIM_ADDRESS ltac:(simpl; tauto)) as [na Hna]%has_some.
    pose proof (Hreq T_COUNTERPARTY_ADDRESS ltac:(simpl; tauto)) as [ca Hca]%has_some.
    pose proof (Hreq T_BTC_PUBKEY ltac:(simpl; tauto)) as [bp Hbp]%has_some.
    unfold acceptance_from_envelope. rewrite Hna, Hca, Hbp. eexists; split; reflexivity.
  - eapply tx_fields; eassumption.
  - eapply tx_fields; eassumption.
  - exact (has_some _ (Hreq T_REASON ltac:(simpl; tauto))).
Qed.

Lemma decoded_parses_witness :
  exists r, e_reason (set_reason (Some 2) (swap_envelope_new (replicate 16 4))) = Some r.
Proof.
  refine (decoded_parses Abort ([1; 16] ++ replicate 16 4 ++ [13; 1; 2]) _ _ eq_refl).
  now apply bytes_okb_ok.
Defined.
