(* ===== verification/SwapCoordinator.v ===== *)
(** * SwapCoordinator: one side of a swap, driven by messages ([swap_coordinator.rs])

    A method that mutates the coordinator and may fail is a function to
    [res CoordError (SwapCoordinator * T)]; every failing path of the source
    leaves the coordinator as it was (for [coord_fund], whose second transition
    follows a first that has already been made, see [coord_fund_atomic]). *)

From stdpp Require Import base list strings.
From Stdlib Require Import ZArith Lia.
From S2P Require Import Prelude Packet SwapWire Swap Crypto SwapIntent FundingVerify SwapMessages.
Open Scope Z_scope.

Inductive CoordError : Type :=
| CoordSwap (e : SwapError)
| BadMessage (reason : string)
| BadPreimage
| UnauthenticProposal
| FundingUnverified (r : FundingRejected).

Record SwapContext : Type := mkContext {
  cx_swap_id : bytes;
  cx_terms : SwapTerms;
  cx_hashlock : bytes;
  cx_nim_address : bytes;
  cx_btc_address : bytes;
  cx_btc_pubkey : bytes;
  cx_give_amount : Z;
  cx_take_amount : Z;
  cx_network_id : Z;
  cx_term_anchor : Z
}.

#[export] Instance SwapContext_eq_dec : EqDecision SwapContext.
Proof. solve_decision. Defined.

Record SwapCoordinator : Type := mkCoordinator {
  c_swap : Swap;
  c_ctx : SwapContext;
  c_secret : option bytes;
  c_peer_btc_pubkey : option bytes;
  c_ladder : LadderParams;
  c_claim_tx : option bytes
}.

Record CoordinatorSnapshot : Type := mkSnapshot {
  sn_role : SwapRole;
  sn_phase : SwapPhase;
  sn_ctx : SwapContext;
  sn_secret : option bytes;
  sn_peer_btc_pubkey : option bytes;
  sn_claim_tx : option bytes
}.

#[export] Instance CoordinatorSnapshot_eq_dec : EqDecision CoordinatorSnapshot.
Proof. solve_decision. Defined.

(** Assignments to one field. *)
Definition set_swap (c : SwapCoordinator) (s : Swap) : SwapCoordinator :=
  mkCoordinator s (c_ctx c) (c_secret c) (c_peer_btc_pubkey c) (c_ladder c) (c_claim_tx c).

Definition set_peer (c : SwapCoordinator) (pk : bytes) : SwapCoordinator :=
  mkCoordinator (c_swap c) (c_ctx c) (c_secret c) (Some pk) (c_ladder c) (c_claim_tx c).

Definition set_secret (c : SwapCoordinator) (s : bytes) : SwapCoordinator :=
  mkCoordinator (c_swap c) (c_ctx c) (Some s) (c_peer_btc_pubkey c) (c_ladder c) (c_claim_tx c).

Definition set_claim_tx (c : SwapCoordinator) (t : option bytes) : SwapCoordinator :=
  mkCoordinator (c_swap c) (c_ctx c) (c_secret c) (c_peer_btc_pubkey c) (c_ladder c) t.

(** [self.swap.method(..)?]: run a method of the machine on the [swap] field. *)
Definition on_swap {A} (c : SwapCoordinator) (r : res SwapError (Swap * A))
  : res CoordError (SwapCoordinator * A) :=
  let? (s, a) := map_err CoordSwap r in Ok (set_swap c s, a).

Definition new_initiator (ctx : SwapContext) (secret : bytes) (ladder : LadderParams)
  : SwapCoordinator * SwapEnvelope :=
  let propose :=
    proposal_to_envelope
      {| p_swap_id := cx_swap_id ctx; p_hashlock := cx_hashlock ctx;
         p_give_amount := cx_give_amount ctx; p_take_amount := cx_take_amount ctx;
         p_terms := cx_terms ctx; p_nim_address := cx_nim_address ctx;
         p_btc_address := cx_btc_address ctx; p_btc_pubkey := cx_btc_pubkey ctx;
         p_network_id := cx_network_id ctx |} in
  ({| c_swap := swap_new Initiator (cx_terms ctx); c_ctx := ctx; c_secret := Some secret;
      c_peer_btc_pubkey := None; c_ladder := ladder; c_claim_tx := None |}, propose).

Definition new_responder (ctx : SwapContext) (ladder : LadderParams) : SwapCoordinator :=
  {| c_swap := swap_new Responder (cx_terms ctx); c_ctx := ctx; c_secret := None;
     c_peer_btc_pubkey := None; c_ladder := ladder; c_claim_tx := None |}.

Definition c_phase (c : SwapCoordinator) : SwapPhase := phase (c_swap c).

Definition c_role (c : SwapCoordinator) : SwapRole := role (c_swap c).

Definition to_snapshot (c : SwapCoordinator) : CoordinatorSnapshot :=
  {| sn_role := role (c_swap c); sn_phase := phase (c_swap c); sn_ctx := c_ctx c;
     sn_secret := c_secret c; sn_peer_btc_pubkey := c_peer_btc_pubkey c;
     sn_claim_tx := c_claim_tx c |}.

Definition from_snapshot (s : CoordinatorSnapshot) (ladder : LadderParams) : SwapCoordinator :=
  {| c_swap := mkSwap (sn_role s) (cx_terms (sn_ctx s)) (sn_phase s); c_ctx := sn_ctx s;
     c_secret := sn_secret s; c_peer_btc_pubkey := sn_peer_btc_pubkey s; c_ladder := ladder;
     c_claim_tx := sn_claim_tx s |}.

Definition coord_refund_after_timeout (c : SwapCoordinator) (head : Z)
  : res CoordError (SwapCoordinator * unit) :=
  let? (c, _) := on_swap c (refund_after_timeout (c_swap c) head) in Ok (c, tt).

Definition is_stale (c : SwapCoordinator) (head : Z) : bool :=
  let ph := phase (c_swap c) in
  if is_terminal ph || has_funds_locked ph then false else
  let last_fundable := sat_sub (counterparty_timeout (cx_terms (c_ctx c)))
                               (min_claim_window_blocks (c_ladder c)) in
  head >? last_fundable.

Definition recv_accept (c : SwapCoordinator) (env : SwapEnvelope) (head : Z)
  : res CoordError (SwapCoordinator * unit) :=
  let? a := ok_or (acceptance_from_envelope env) (BadMessage "incomplete Accept") in
  if negb (bytes_eqb (a_swap_id a) (cx_swap_id (c_ctx c))) then
    Err (BadMessage "Accept is for a different swap") else
  let? (c, _) := on_swap c (accept (c_swap c) head (c_ladder c)) in
  Ok (set_peer c (a_btc_pubkey a), tt).

Definition coord_fund (c : SwapCoordinator) (head : Z) (tx_wire tx_id : bytes)
  : res CoordError (SwapCoordinator * SwapEnvelope) :=
  let? (c, _) := on_swap c (fund (c_swap c) head (c_ladder c)) in
  let leg := own_leg (c_swap c) in
  let? c := (if bool_decide (role (c_swap c) = Responder) then
               let? (c, _) := on_swap c (observe_counterparty_funded (c_swap c)) in Ok c
             else Ok c) in
  Ok (c, tx_envelope (cx_swap_id (c_ctx c)) leg tx_wire tx_id).

Definition recv_funding_proof (c : SwapCoordinator) (env : SwapEnvelope)
  : res CoordError (SwapCoordinator * unit) :=
  let? leg := ok_or (e_leg env) (BadMessage "FundingProof has no leg") in
  match role (c_swap c) with
  | Initiator =>
      if negb (bool_decide (leg = LegCounterparty)) then
        Err (BadMessage "expected the counterparty leg") else
      on_swap c (observe_counterparty_funded (c_swap c))
  | Responder =>
      if negb (bool_decide (leg = LegNim)) then Err (BadMessage "expected the NIM leg") else
      on_swap c (observe_initiator_funded (c_swap c))
  end.

Definition counterparty_expectation (c : SwapCoordinator) : HtlcExpectation :=
  let ctx := c_ctx c in
  match role (c_swap c) with
  | Responder =>
      {| x_leg := LegNim; x_hashlock := cx_hashlock ctx; x_min_amount := cx_give_amount ctx;
         x_min_timeout := nim_timeout (cx_terms ctx); x_recipient := cx_nim_address ctx;
         x_term_anchor := cx_term_anchor ctx |}
  | Initiator =>
      {| x_leg := LegCounterparty; x_hashlock := cx_hashlock ctx;
         x_min_amount := cx_take_amount ctx;
         x_min_timeout := counterparty_timeout (cx_terms ctx);
         x_recipient := cx_btc_pubkey ctx; x_term_anchor := cx_term_anchor ctx |}
  end.

Definition awaits_counterparty_funding (c : SwapCoordinator) : bool :=
  match role (c_swap c), phase (c_swap c) with
  | Responder, Accepted | Initiator, SelfFunded => true
  | _, _ => false
  end.

Definition reveal_deadline_ok (c : SwapCoordinator) (head : Z) : bool :=
  match assess_reveal_deadline (cx_terms (c_ctx c)) head (c_ladder c) with
  | RevealSafe => true
  | _ => false
  end.

Definition verify_and_observe_funding `{FundingVerifier V} (c : SwapCoordinator) (verifier : V)
    (min_confirmations : Z) : res CoordError (SwapCoordinator * unit) :=
  let expect := counterparty_expectation c in
  let obs := observe verifier expect in
  let? _ := map_err FundingUnverified (require_funded obs expect min_confirmations) in
  match role (c_swap c) with
  | Responder => on_swap c (observe_initiator_funded (c_swap c))
  | Initiator => on_swap c (observe_counterparty_funded (c_swap c))
  end.

Definition claim_and_reveal (c : SwapCoordinator) (head : Z) (tx_wire tx_id : bytes)
  : res CoordError (SwapCoordinator * SwapEnvelope) :=
  let? (c, _) := on_swap c (reveal_and_claim (c_swap c) head (c_ladder c)) in
  Ok (c, tx_envelope (cx_swap_id (c_ctx c)) LegCounterparty tx_wire tx_id).

Definition settle (c : SwapCoordinator) : res CoordError (SwapCoordinator * unit) :=
  on_swap c (observe_settled (c_swap c)).

Definition note_claim_broadcast (c : SwapCoordinator) (tx_id : bytes) : SwapCoordinator :=
  set_claim_tx c (Some tx_id).

Definition clear_claim_broadcast (c : SwapCoordinator) : SwapCoordinator := set_claim_tx c None.

Definition forfeit_expired_claim (c : SwapCoordinator) (head : Z)
  : res CoordError (SwapCoordinator * unit) :=
  on_swap c (forfeit_claim (c_swap c) head).

Section crypto.
Context {C : Crypto}.

Definition recv_propose (c : SwapCoordinator) (env : SwapEnvelope) (head : Z)
  : res CoordError (SwapCoordinator * SwapEnvelope) :=
  if negb (verify_envelope env) then Err UnauthenticProposal else
  let? p := ok_or (proposal_from_envelope env) (BadMessage "incomplete Propose") in
  if negb (bytes_eqb (p_swap_id p) (cx_swap_id (c_ctx c)))
     || negb (bytes_eqb (p_hashlock p) (cx_hashlock (c_ctx c))) then
    Err (BadMessage "Propose is for a different swap") else
  let? (c, _) := on_swap c (accept (c_swap c) head (c_ladder c)) in
  let c := set_peer c (p_btc_pubkey p) in
  Ok (c, acceptance_to_envelope
           {| a_swap_id := cx_swap_id (c_ctx c); a_nim_address := cx_nim_address (c_ctx c);
              a_btc_address := cx_btc_address (c_ctx c);
              a_btc_pubkey := cx_btc_pubkey (c_ctx c) |}).

Definition recv_reveal (c : SwapCoordinator) (_env : SwapEnvelope) (secret : bytes)
  : res CoordError (SwapCoordinator * bytes) :=
  if negb (bytes_eqb (sha256 secret) (cx_hashlock (c_ctx c))) then Err BadPreimage else
  let? (c, _) := on_swap c (observe_secret (c_swap c)) in
  Ok (set_secret c secret, secret).
End crypto.

(** ** The coordinator as a transition system

    The operations the session and the driver perform on a coordinator.
    [recv_funding_proof], which advances on a message alone, is not among
    them: only the simulation transport of the tests calls it. *)

(** A successful call of the machine, read off its table. *)
Ltac swap_table :=
  repeat match goal with
  | H : accept _ _ _ = Ok (?s, ?u) |- _ =>
      unfold accept in H; run H
  | H : fund _ _ _ = Ok _ |- _ => unfold fund in H; run H
  | H : observe_counterparty_funded _ = Ok _ |- _ => unfold observe_counterparty_funded in H; run H
  | H : observe_initiator_funded _ = Ok _ |- _ => unfold observe_initiator_funded in H; run H
  | H : reveal_and_claim _ _ _ = Ok _ |- _ => unfold reveal_and_claim in H; run H
  | H : observe_secret _ = Ok _ |- _ => unfold observe_secret in H; run H
  | H : observe_settled _ = Ok _ |- _ => unfold observe_settled in H; run H
  | H : forfeit_claim _ _ = Ok _ |- _ => unfold forfeit_claim in H; run H
  | H : refund_after_timeout _ _ = Ok _ |- _ => unfold refund_after_timeout in H; run H
  end.

Section steps.
Context {C : Crypto} {V : Type} {FV : FundingVerifier V}.

Inductive CoordOp : Type :=
| OpRecvPropose (env : SwapEnvelope) (head : Z)
| OpRecvAccept (env : SwapEnvelope) (head : Z)
| OpFund (head : Z) (tx_wire tx_id : bytes)
| OpVerify (v : V) (min_confirmations : Z)
| OpClaim (head : Z) (tx_wire tx_id : bytes)
| OpRecvReveal (env : SwapEnvelope) (secret : bytes)
| OpSettle
| OpNoteClaim (tx_id : bytes)
| OpClearClaim
| OpForfeit (head : Z)
| OpRefund (head : Z).

Definition drop_out {E A B} (r : res E (A * B)) : res E A :=
  let? (a, _) := r in Ok a.

Definition apply_op (c : SwapCoordinator) (op : CoordOp) : res CoordError SwapCoordinator :=
  match op with
  | OpRecvPropose env h => drop_out (recv_propose c env h)
  | OpRecvAccept env h => drop_out (recv_accept c env h)
  | OpFund h w i => drop_out (coord_fund c h w i)
  | OpVerify v n => drop_out (verify_and_observe_funding c v n)
  | OpClaim h w i => drop_out (claim_and_reveal c h w i)
  | OpRecvReveal env s => drop_out (recv_reveal c env s)
  | OpSettle => drop_out (settle c)
  | OpNoteClaim i => Ok (note_claim_broadcast c i)
  | OpClearClaim => Ok (clear_claim_broadcast c)
  | OpForfeit h => drop_out (forfeit_expired_claim c h)
  | OpRefund h => drop_out (coord_refund_after_timeout c h)
  end.

(** Successful operations, first to last. *)
Inductive coord_run : SwapCoordinator -> list CoordOp -> SwapCoordinator -> Prop :=
| coord_run_nil c : coord_run c [] c
| coord_run_snoc c ops c1 op c2 :
    coord_run c ops c1 -> apply_op c1 op = Ok c2 -> coord_run c (ops ++ [op]) c2.

(** Run a list of operations, all of which must succeed. *)
Fixpoint coord_exec (c : SwapCoordinator) (ops : list CoordOp) : res CoordError SwapCoordinator :=
  match ops with
  | [] => Ok c
  | op :: ops => let? c := apply_op c op in coord_exec c ops
  end.

(** The invariant of a coordinator. *)
Record coord_ok (c : SwapCoordinator) : Prop := {
  co_terms : terms (c_swap c) = cx_terms (c_ctx c);
  co_init_secret : c_role c = Initiator -> c_secret c <> None;
  co_resp_secret : c_role c = Responder ->
    match c_secret c with
    | Some s => sha256 s = cx_hashlock (c_ctx c)
    | None => c_phase c <> Revealed /\ c_phase c <> Settled /\ c_phase c <> Lost
    end;
  co_resp_early : c_role c = Responder -> c_secret c <> None ->
    c_phase c = Revealed \/ c_phase c = Settled \/ c_phase c = Lost;
  co_init_phase : c_role c = Initiator ->
    c_phase c <> InitiatorFunded /\ c_phase c <> Lost;
  co_peer : c_phase c <> Proposed -> c_peer_btc_pubkey c <> None
}.

(** ** Lemmas *)

Lemma on_swap_inv {A} c (r : res SwapError (Swap * A)) c' a :
  on_swap c r = Ok (c', a) -> exists s, r = Ok (s, a) /\ c' = set_swap c s.
Proof. unfold on_swap, map_err. intros H. run H. eauto. Qed.

Lemma map_err_inv {E E' A} (f : E -> E') (r : res E A) a : map_err f r = Ok a -> r = Ok a.
Proof. unfold map_err. intros H. run H. reflexivity. Qed.

(** Funding makes its two transitions together: the second cannot fail. *)
Lemma coord_fund_atomic c head w i s a :
  fund (c_swap c) head (c_ladder c) = Ok (s, a) ->
  exists c' env, coord_fund c head w i = Ok (c', env).
Proof.
  intros H. assert (Hp : phase s = SelfFunded).
  { unfold fund in H. run H; reflexivity. }
  unfold coord_fund, on_swap. rewrite H. cbn [map_err].
  destruct (bool_decide (role (c_swap (set_swap c s)) = Responder)) eqn:Er; [|eauto].
  unfold observe_counterparty_funded. simpl. rewrite Hp. simpl. eauto.
Qed.


(** What a successful operation does: which call of the machine succeeded,
    which other fields it set, and under which checks. *)
Definition op_effect (c : SwapCoordinator) (op : CoordOp) (c' : SwapCoordinator) : Prop :=
  match op with
  | OpRecvPropose env h => verify_envelope env = true /\
      exists p s u, proposal_from_envelope env = Some p
        /\ p_swap_id p = cx_swap_id (c_ctx c) /\ p_hashlock p = cx_hashlock (c_ctx c)
        /\ accept (c_swap c) h (c_ladder c) = Ok (s, u)
        /\ c' = set_peer (set_swap c s) (p_btc_pubkey p)
  | OpRecvAccept env h =>
      exists a s u, acceptance_from_envelope env = Some a
        /\ a_swap_id a = cx_swap_id (c_ctx c)
        /\ accept (c_swap c) h (c_ladder c) = Ok (s, u)
        /\ c' = set_peer (set_swap c s) (a_btc_pubkey a)
  | OpFund h _ _ =>
      exists s a, fund (c_swap c) h (c_ladder c) = Ok (s, a)
        /\ match role (c_swap c) with
           | Initiator => c' = set_swap c s
           | Responder => exists s' u, observe_counterparty_funded s = Ok (s', u)
                                       /\ c' = set_swap c s'
           end
  | OpVerify v n =>
      (exists d, require_funded (observe v (counterparty_expectation c))
                   (counterparty_expectation c) n = Ok d)
      /\ exists s u, match role (c_swap c) with
                     | Responder => observe_initiator_funded (c_swap c)
                     | Initiator => observe_counterparty_funded (c_swap c)
                     end = Ok (s, u) /\ c' = set_swap c s
  | OpClaim h _ _ =>
      exists s a, reveal_and_claim (c_swap c) h (c_ladder c) = Ok (s, a) /\ c' = set_swap c s
  | OpRecvReveal _ secret => sha256 secret = cx_hashlock (c_ctx c) /\
      exists s a, observe_secret (c_swap c) = Ok (s, a) /\ c' = set_secret (set_swap c s) secret
  | OpSettle => exists s u, observe_settled (c_swap c) = Ok (s, u) /\ c' = set_swap c s
  | OpNoteClaim i => c' = set_claim_tx c (Some i)
  | OpClearClaim => c' = set_claim_tx c None
  | OpForfeit h => exists s u, forfeit_claim (c_swap c) h = Ok (s, u) /\ c' = set_swap c s
  | OpRefund h => exists s a, refund_after_timeout (c_swap c) h = Ok (s, a) /\ c' = set_swap c s
  end.

Ltac swap_calls :=
  repeat match goal with
  | H : on_swap _ _ = Ok (_, _) |- _ => apply on_swap_inv in H as (? & ? & ->)
  | H : map_err _ _ = Ok _ |- _ => apply map_err_inv in H
  | H : (negb _ || negb _) = false |- _ => apply orb_false_elim in H as [?%negb_false_iff ?%negb_false_iff]
  | H : bytes_eqb _ _ = true |- _ => apply bool_decide_eq_true in H
  | H : negb _ = false |- _ => apply negb_false_iff in H
  end.

Lemma apply_op_effect c op c' : apply_op c op = Ok c' -> op_effect c op c'.
Proof.
  intros H. destruct op; simpl in H |- *;
    unfold drop_out, recv_propose, recv_accept, verify_and_observe_funding,
      claim_and_reveal, recv_reveal, settle, forfeit_expired_claim, coord_refund_after_timeout,
      note_claim_broadcast, clear_claim_broadcast, ok_or in H;
    try (repeat (case_hyp H; simplify_eq/=; try discriminate); swap_calls; simpl; eauto 10; fail).
  - unfold coord_fund in H.
    destruct (on_swap c (fund _ _ _)) as [[c1 a]| |] eqn:E1; [|discriminate..].
    apply on_swap_inv in E1 as (s & Hf & ->). exists s, a. split; [assumption|].
    assert (Hr : role s = role (c_swap c)) by (unfold fund in Hf; run Hf; simpl; congruence).
    simpl in H. rewrite Hr in H. destruct (role (c_swap c)); simpl in H; [now simplify_eq|].
    repeat (case_hyp H; simplify_eq/=; try discriminate). swap_calls. simpl in *. eauto.
  - congruence.
  - congruence.
Qed.
Lemma run_one p s ev s' a : apply_event p s ev = Ok (s', a) -> run p s [(ev, a)] s'.
Proof. intros H. eapply run_cons; [exact H | constructor]. Qed.

Lemma run_two p s ev1 s1 a1 ev2 s2 a2 :
  apply_event p s ev1 = Ok (s1, a1) -> apply_event p s1 ev2 = Ok (s2, a2) ->
  run p s [(ev1, a1); (ev2, a2)] s2.
Proof. intros H1 H2. eapply run_cons; [exact H1 | now apply run_one]. Qed.

Lemma quiet_ok (r : res SwapError (Swap * unit)) s u : r = Ok (s, u) -> quiet r = Ok (s, ActNone).
Proof. now intros ->. Qed.

(** The machine inside a coordinator only makes runs of its own events, and
    the context and the ladder never change. *)
Lemma apply_op_run c op c' :
  apply_op c op = Ok c' ->
  (exists tr, run (c_ladder c) (c_swap c) tr (c_swap c'))
  /\ c_ctx c' = c_ctx c /\ c_ladder c' = c_ladder c.
Proof.
  intros H%apply_op_effect. destruct op; simpl in H.
  - destruct H as (_ & p & s & u & _ & _ & _ & H & ->). split; [|auto].
    eexists. apply (run_one _ _ (EvAccept head)). eapply quiet_ok, H.
  - destruct H as (a & s & u & _ & _ & H & ->). split; [|auto].
    eexists. apply (run_one _ _ (EvAccept head)). eapply quiet_ok, H.
  - destruct H as (s & a & H & Hr). destruct (role (c_swap c)).
    + subst c'. split; [|auto]. eexists. exact (run_one _ _ (EvFund head) _ _ H).
    + destruct Hr as (s' & u & H' & ->). split; [|auto]. eexists.
      eapply (run_two _ _ (EvFund head) s a EvObserveCounterpartyFunded); [exact H|].
      eapply quiet_ok, H'.
  - destruct H as (_ & s & u & H & ->). split; [|auto].
    destruct (role (c_swap c)); eexists;
      [apply (run_one _ _ EvObserveCounterpartyFunded) | apply (run_one _ _ EvObserveInitiatorFunded)];
      eapply quiet_ok, H.
  - destruct H as (s & a & H & ->). split; [|auto]. eexists. exact (run_one _ _ (EvReveal head) _ _ H).
  - destruct H as (_ & s & a & H & ->). split; [|auto]. eexists. exact (run_one _ _ EvObserveSecret _ _ H).
  - destruct H as (s & u & H & ->). split; [|auto]. eexists.
    apply (run_one _ _ EvObserveSettled). eapply quiet_ok, H.
  - subst c'. split; [eexists; constructor | auto].
  - subst c'. split; [eexists; constructor | auto].
  - destruct H as (s & u & H & ->). split; [|auto]. eexists.
    apply (run_one _ _ (EvForfeit head)). eapply quiet_ok, H.
  - destruct H as (s & a & H & ->). split; [|auto]. eexists. exact (run_one _ _ (EvRefund head) _ _ H).
Qed.

Lemma run_app p s1 t1 s2 t2 s3 : run p s1 t1 s2 -> run p s2 t2 s3 -> run p s1 (t1 ++ t2) s3.
Proof.
  intros H1 H2. induction H2 as [|s2 t2 s3 ev a s4 _ IH Hev]; [now rewrite app_nil_r|].
  rewrite app_assoc. eapply run_snoc; eauto.
Qed.

Lemma coord_run_run c ops c' :
  coord_run c ops c' ->
  (exists tr, run (c_ladder c) (c_swap c) tr (c_swap c'))
  /\ c_ctx c' = c_ctx c /\ c_ladder c' = c_ladder c.
Proof.
  induction 1 as [c|c ops c1 op c2 _ ((tr & IH) & Hx & Hl) Hop].
  - split; [exists []; constructor | auto].
  - apply apply_op_run in Hop as ((tr' & Hr) & Hx' & Hl'). rewrite Hl in Hr.
    split; [eexists; eapply run_app; eassumption | split; congruence].
Qed.

Lemma apply_op_ok c op c' : coord_ok c -> apply_op c op = Ok c' -> coord_ok c'.
Proof.
  intros [H1 H2 H3 H4 H5 H6] H%apply_op_effect.
  destruct c as [[r t ph] ctx sec peer lad ct]. unfold c_role, c_phase in *. simpl in *.
  destruct op; simpl in H; destruct_and?; repeat match goal with
    | H : exists _, _ |- _ => destruct H | H : _ /\ _ |- _ => destruct H end;
    simpl in *; subst; swap_table; simpl in *; subst; try (destruct r; simpl in *);
    repeat match goal with
    | H : exists _, _ |- _ => destruct H | H : _ /\ _ |- _ => destruct H end; subst; swap_table;
    simpl in *; subst; simplify_eq/=.
  all: constructor; unfold c_role, c_phase; simpl; try destruct sec; intuition (congruence || eauto).
  apply H6; [intros ->; discriminate | assumption].
Qed.

Lemma coord_run_cons c op c1 ops c2 :
  apply_op c op = Ok c1 -> coord_run c1 ops c2 -> coord_run c (op :: ops) c2.
Proof.
  intros Hop Hrun. induction Hrun as [c1|c1 ops c2 op' c3 _ IH Hop'].
  - apply (coord_run_snoc _ [] c); [constructor | assumption].
  - apply (coord_run_snoc _ (op :: ops) c2); auto.
Qed.

Lemma coord_exec_run c ops c' : coord_exec c ops = Ok c' -> coord_run c ops c'.
Proof.
  revert c; induction ops as [|op ops IH]; intros c H; simpl in H.
  - simplify_eq. constructor.
  - destruct (apply_op c op) as [c1| |] eqn:E; [|discriminate..]. eapply coord_run_cons; eauto.
Qed.

Lemma coord_run_ok c ops c' : coord_ok c -> coord_run c ops c' -> coord_ok c'.
Proof. intros Hc. induction 1; eauto using apply_op_ok. Qed.

Lemma new_initiator_ok ctx secret ladder : coord_ok (new_initiator ctx secret ladder).1.
Proof. constructor; unfold c_role, c_phase; simpl; try discriminate; auto; easy. Qed.

Lemma new_responder_ok ctx ladder : coord_ok (new_responder ctx ladder).
Proof. constructor; unfold c_role, c_phase; simpl; try discriminate; auto; try tauto; easy. Qed.

(** The expectation depends on the role and the context alone. *)
Lemma expectation_static c c' :
  role (c_swap c') = role (c_swap c) -> c_ctx c' = c_ctx c ->
  counterparty_expectation c' = counterparty_expectation c.
Proof. unfold counterparty_expectation. now intros -> ->. Qed.

(** The phases a node reaches only after having seen the other leg funded. *)
Definition saw_funding (r : SwapRole) (p : SwapPhase) : bool :=
  match r, p with
  | Responder, (InitiatorFunded | SelfFunded | BothFunded | Revealed | Settled | Refunded | Lost) => true
  | Initiator, (BothFunded | Revealed | Settled) => true
  | _, _ => false
  end.

Lemma apply_op_saw c op c' :
  apply_op c op = Ok c' -> saw_funding (c_role c') (c_phase c') = true ->
  saw_funding (c_role c) (c_phase c) = true
  \/ exists v n d, op = OpVerify v n
       /\ require_funded (observe v (counterparty_expectation c)) (counterparty_expectation c) n = Ok d.
Proof.
  intros H%apply_op_effect Hs. unfold c_role, c_phase in *.
  destruct c as [[r t ph] ctx sec peer lad ct].
  destruct op; simpl in H; try (left; subst c'; exact Hs);
    try (right; destruct H as ((d & Hd) & _); eauto; fail); left;
    repeat match goal with
    | H : exists _, _ |- _ => destruct H | H : _ /\ _ |- _ => destruct H end;
    simpl in *; subst; swap_table; simpl in *; subst; try (destruct r; simpl in *);
    repeat match goal with
    | H : exists _, _ |- _ => destruct H | H : _ /\ _ |- _ => destruct H end; subst; swap_table;
    simpl in *; subst; simplify_eq/=; auto; discriminate.
Qed.

(** ** Properties *)

(** The coordinator refines the swap machine.  However the session and the
    driver operate on a coordinator that started as [new_initiator] or
    [new_responder], the machine inside it has made a run of [Swap] events
    from the proposed phase under the same ladder and terms; the context never
    changes; and the coordinator invariant holds: the initiator still holds
    its secret, a responder holds a secret exactly once it is out and that
    secret hashes to the agreed hashlock, and the peer's key is known in every
    phase after the proposal. *)
Theorem coordinator_refines (r : SwapRole) (ctx : SwapContext) (secret : bytes)
    (ladder : LadderParams) (ops : list CoordOp) (c : SwapCoordinator)
    (Hrun : coord_run (match r with
                       | Initiator => (new_initiator ctx secret ladder).1
                       | Responder => new_responder ctx ladder
                       end) ops c) :
  (exists tr, run ladder (swap_new r (cx_terms ctx)) tr (c_swap c))
  /\ c_ctx c = ctx /\ c_ladder c = ladder /\ coord_ok c.
Proof.
  pose proof (coord_run_run _ _ _ Hrun) as ((tr & Hr) & Hx & Hl).
  assert (Hok : coord_ok c).
  { eapply coord_run_ok; [|exact Hrun].
    destruct r; [apply new_initiator_ok | apply new_responder_ok]. }
  destruct r; simpl in *; eauto.
Qed.

(** No funded transition without the chain.  If a responder is past
    [Accepted] (so it may fund, or has funded) or an initiator has reached
    [BothFunded] or later (so it may reveal the secret), then one of the
    operations was a verification in which the verifier observed on chain an
    HTLC on the counterparty's leg with the agreed hashlock and this node as
    recipient, of at least the agreed amount and timeout, and at least as deep
    as required. *)
Theorem funding_gate (r : SwapRole) (ctx : SwapContext) (secret : bytes)
    (ladder : LadderParams) (ops : list CoordOp) (c : SwapCoordinator)
    (Hrun : coord_run (match r with
                       | Initiator => (new_initiator ctx secret ladder).1
                       | Responder => new_responder ctx ladder
                       end) ops c)
    (Hs : saw_funding r (c_phase c) = true) :
  exists v n a t d, OpVerify v n ∈ ops
    /\ observe v (counterparty_expectation c) = Found a t d /\ n <= d
    /\ match r with
       | Initiator => cx_take_amount ctx <= a /\ counterparty_timeout (cx_terms ctx) <= t
           /\ x_recipient (counterparty_expectation c) = cx_btc_pubkey ctx
       | Responder => cx_give_amount ctx <= a /\ nim_timeout (cx_terms ctx) <= t
           /\ x_recipient (counterparty_expectation c) = cx_nim_address ctx
       end
    /\ x_hashlock (counterparty_expectation c) = cx_hashlock ctx.
Proof.
  set (c0 := match r with Initiator => _ | Responder => _ end) in Hrun.
  assert (H0 : role (c_swap c0) = r /\ c_ctx c0 = ctx /\ saw_funding r (c_phase c0) = false)
    by (unfold c0, c_phase; destruct r; auto).
  clearbody c0. destruct H0 as (Hr0 & Hx0 & Hs0).
  assert (Hver : exists v n d, OpVerify v n ∈ ops
     /\ require_funded (observe v (counterparty_expectation c0)) (counterparty_expectation c0) n = Ok d).
  { induction Hrun as [c|c ops c1 op c2 Hrun IH Hop]; [congruence|].
    destruct (coord_run_run _ _ _ Hrun) as ((tr & Hr1) & Hx1 & _).
    apply run_static in Hr1 as [Hr1 _].
    destruct (apply_op_run _ _ _ Hop) as ((tr2 & Hr2) & _). apply run_static in Hr2 as [Hr2 _].
    apply apply_op_saw in Hop as [Hop|(v & n & d & -> & Hd)].
    - destruct IH as (v & n & d & Hi & Hd); auto.
      { unfold c_role in Hop. now rewrite Hr1, Hr0 in Hop. }
      exists v, n, d. split; [apply elem_of_app; now left | exact Hd].
    - exists v, n, d. split; [apply elem_of_app; right; left|].
      now rewrite (expectation_static c c1) in Hd.
    - unfold c_role. now rewrite Hr2, Hr1, Hr0. }
  destruct (coord_run_run _ _ _ Hrun) as ((tr & Hr) & Hx & _). apply run_static in Hr as [Hr _].
  rewrite (expectation_static c0 c) by congruence.
  destruct Hver as (v & n & d & Hi & (a & t & Ho & Ha & Ht & Hd)%require_funded_iff).
  exists v, n, a, t, d. revert Ho Ha Ht. unfold counterparty_expectation.
  rewrite Hr0, Hx0. destruct r; simpl; auto 10.
Qed.
End steps.

(** A complete swap of the responder over the ledger verifier. *)
Definition sample_ctx : SwapContext :=
  mkContext (replicate 16 1) (mkTerms 10000 5000) (sha256 (replicate 32 7)) (replicate 20 4)
    [98] (replicate 33 3) 1000 50 5 0.

Definition sample_chain : LedgerVerifier :=
  mkLedger [mkOnChain LegNim (sha256 (replicate 32 7)) (replicate 20 4) 1000 10000 6] [].

Definition sample_propose : SwapEnvelope :=
  let p := mkProposal (replicate 16 1) (sha256 (replicate 32 7)) 1000 50 (mkTerms 10000 5000)
             (address_of (ed25519_public (replicate 32 9))) [98] (replicate 33 3) 5 in
  to_signed_envelope p (proposal_sign p (replicate 32 9)).1 (proposal_sign p (replicate 32 9)).2.

Definition sample_ops : list (@CoordOp LedgerVerifier) :=
  [OpRecvPropose sample_propose 100; OpVerify sample_chain 2; OpFund 120 [1] (replicate 32 0);
   OpRecvReveal sample_propose (replicate 32 7); OpNoteClaim (replicate 32 8); OpSettle].

Definition sample_done : SwapCoordinator :=
  mkCoordinator (mkSwap Responder (mkTerms 10000 5000) Settled) sample_ctx
    (Some (replicate 32 7)) (Some (replicate 33 3)) ladder_default (Some (replicate 32 8)).

Lemma sample_coord_run :
  coord_run (new_responder sample_ctx ladder_default) sample_ops sample_done.
Proof. apply coord_exec_run. vm_compute. reflexivity. Qed.

Lemma coordinator_refines_witness : coord_ok sample_done /\ c_ctx sample_done = sample_ctx.
Proof.
  pose proof (coordinator_refines Responder sample_ctx [] ladder_default sample_ops sample_done
                sample_coord_run) as (_ & Hx & _ & Hok).
  exact (conj Hok Hx).
Defined.

Lemma funding_gate_witness :
  exists (v : LedgerVerifier) n, OpVerify v n ∈ sample_ops
    /\ exists a t d, observe v (counterparty_expectation sample_done) = Found a t d /\ 1000 <= a.
Proof.
  destruct (funding_gate Responder sample_ctx [] ladder_default sample_ops sample_done
              sample_coord_run eq_refl) as (v & n & a & t & d & Hi & Ho & _ & (Ha & _) & _).
  exact (ex_intro _ v (ex_intro _ n (conj Hi (ex_intro _ a (ex_intro _ t (ex_intro _ d (conj Ho Ha))))))).
Defined.

(** A swap is reaped as stale exactly when it can no longer be funded.
    For an unfunded, unfinished swap whose counterparty timeout leaves room for
    the claim window at all, [is_stale] holds at a head if and only if the
    claim window is already too short there; once stale, every later
    [accept] and [fund] is refused (so reaping loses nothing), and a swap with
    funds locked is never stale. *)
Theorem stale_iff_unfundable (c : SwapCoordinator) (head : Z)
    (Ht : terms (c_swap c) = cx_terms (c_ctx c))
    (Hw : 0 < min_claim_window_blocks (c_ladder c) <= counterparty_timeout (cx_terms (c_ctx c))) :
  (is_stale c head = true <->
     is_terminal (c_phase c) = false /\ has_funds_locked (c_phase c) = false
     /\ sat_sub (counterparty_timeout (cx_terms (c_ctx c))) head
        < min_claim_window_blocks (c_ladder c))
  /\ (is_stale c head = true -> forall head' s a u, head <= head' ->
        accept (c_swap c) head' (c_ladder c) <> Ok (s, u)
        /\ fund (c_swap c) head' (c_ladder c) <> Ok (s, a)).
Proof.
  assert (Hiff : is_stale c head = true <->
     is_terminal (c_phase c) = false /\ has_funds_locked (c_phase c) = false
     /\ sat_sub (counterparty_timeout (cx_terms (c_ctx c))) head
        < min_claim_window_blocks (c_ladder c)).
  { unfold is_stale, c_phase.
    destruct (is_terminal (phase (c_swap c))), (has_funds_locked (phase (c_swap c))); simpl;
      try (split; [discriminate | intros (?&?&?); discriminate]).
    rewrite Z.gtb_lt. unfold sat_sub. split; [intros; split_and!; auto; lia | intros (_ & _ & ?); lia]. }
  split; [exact Hiff|]. intros (_ & _ & Hlt)%Hiff head' s a u Hh.
  assert (Hu : ladder_is_safe (assess_ladder (terms (c_swap c)) head' (c_ladder c)) = false).
  { apply not_true_is_false. rewrite ladder_safe_iff, Ht. unfold sat_sub in *. lia. }
  split; intros H.
  - unfold accept in H. rewrite Hu in H. run H.
  - unfold fund in H. rewrite Hu in H. run H.
Qed.

Lemma stale_iff_unfundable_witness :
  is_stale (new_responder sample_ctx ladder_default) 3201 = true
  /\ forall s u, accept (swap_new Responder (mkTerms 10000 5000)) 4000 ladder_default <> Ok (s, u).
Proof.
  split; [reflexivity|]. intros s u.
  refine (proj1 (proj2 (stale_iff_unfundable (new_responder sample_ctx ladder_default) 3201 eq_refl _)
            eq_refl 4000 s ActNone u _)); [split; vm_compute; congruence | lia].
Defined.
