(* ===== verification/SwapSession.v ===== *)
(** * SwapSession: all the swaps of one node ([swap_session.rs], [swap_claim.rs])

    The session owns one coordinator per swap id.  A [HashMap] is a [gmap] and
    a [HashSet] a [gset]; the loops over them touch each entry on its own, so
    their order does not matter.  An operation takes the session and returns
    the session it leaves behind with its result: on an error the source may
    already have changed a side table, and the model keeps that change.  The
    text and the time stamp of a verify note are telemetry; a note is its
    attempt count. *)

From stdpp Require Import base list gmap strings.
From Stdlib Require Import ZArith Lia.
From S2P Require Import Prelude Packet Tlv SwapWire Swap Crypto SwapIntent FundingVerify SwapMessages.
From S2P Require Import SwapCoordinator.
Open Scope Z_scope.

Definition DEFAULT_MAX_CONCURRENT_SWAPS : Z := 16.
Definition RETRANSMIT_TTL : Z := 32.
Definition FAST_VERIFY_TICK_MS : Z := 3000.

Record NodeIdentity : Type := mkIdentity {
  id_nim_address : bytes;
  id_btc_address : bytes;
  id_btc_pubkey : bytes;
  id_rate_policy : RatePolicy;
  id_max_concurrent_swaps : Z;
  id_standing_intent : option SwapIntent
}.

Inductive SessionError : Type :=
| SeWire (e : SwapWireError)
| SeCoord (e : CoordError)
| SeUnknownSwap
| SeBadPropose.

Record PendingAction : Type := mkPending { pa_msg_type : MessageType; pa_payload : bytes; pa_ttl : Z }.

(** The [EnclaveKey] seam: a public key and a signing oracle. *)
Record EnclaveKey : Type := mkEnclave { ek_public_key : bytes; ek_sign_content : bytes -> bytes }.

Record FastTickScheduler : Type := mkFastTick { ft_last_ms : option Z }.

Definition fast_tick_due (f : FastTickScheduler) (now_ms : Z) : FastTickScheduler * bool :=
  match ft_last_ms f with
  | Some t => if sat_sub now_ms t <? FAST_VERIFY_TICK_MS then (f, false)
              else (mkFastTick (Some now_ms), true)
  | None => (mkFastTick (Some now_ms), true)
  end.

Section session.
Context {C : Crypto} {V : Type} {FV : FundingVerifier V}.

Record SwapSession : Type := mkSession {
  s_identity : NodeIdentity;
  s_ladder : LadderParams;
  s_coordinators : gmap (list Z) SwapCoordinator;
  s_initiated_ever : gset (list Z);
  s_pending : gmap (list Z) PendingAction;
  s_verifier : V;
  s_propose_signer : option EnclaveKey;
  s_confirm_policy : ConfirmationPolicy;
  s_counterparty_chain : Asset;
  s_secret_source : bytes -> bytes;
  s_secret_is_sim : bool;
  s_caps : option SwapCaps;
  s_funding_proof_seen : gset (list Z);
  s_verify_notes : gmap (list Z) Z;
  s_fast_verify : FastTickScheduler
}.

(** Assignments to one field. *)
Definition with_coords (s : SwapSession) (m : gmap (list Z) SwapCoordinator) : SwapSession :=
  mkSession (s_identity s) (s_ladder s) m (s_initiated_ever s) (s_pending s) (s_verifier s)
    (s_propose_signer s) (s_confirm_policy s) (s_counterparty_chain s) (s_secret_source s)
    (s_secret_is_sim s) (s_caps s) (s_funding_proof_seen s) (s_verify_notes s) (s_fast_verify s).

Definition with_initiated (s : SwapSession) (x : gset (list Z)) : SwapSession :=
  mkSession (s_identity s) (s_ladder s) (s_coordinators s) x (s_pending s) (s_verifier s)
    (s_propose_signer s) (s_confirm_policy s) (s_counterparty_chain s) (s_secret_source s)
    (s_secret_is_sim s) (s_caps s) (s_funding_proof_seen s) (s_verify_notes s) (s_fast_verify s).

Definition with_pending (s : SwapSession) (p : gmap (list Z) PendingAction) : SwapSession :=
  mkSession (s_identity s) (s_ladder s) (s_coordinators s) (s_initiated_ever s) p (s_verifier s)
    (s_propose_signer s) (s_confirm_policy s) (s_counterparty_chain s) (s_secret_source s)
    (s_secret_is_sim s) (s_caps s) (s_funding_proof_seen s) (s_verify_notes s) (s_fast_verify s).

Definition with_verifier (s : SwapSession) (v : V) : SwapSession :=
  mkSession (s_identity s) (s_ladder s) (s_coordinators s) (s_initiated_ever s) (s_pending s) v
    (s_propose_signer s) (s_confirm_policy s) (s_counterparty_chain s) (s_secret_source s)
    (s_secret_is_sim s) (s_caps s) (s_funding_proof_seen s) (s_verify_notes s) (s_fast_verify s).

Definition with_seen (s : SwapSession) (x : gset (list Z)) : SwapSession :=
  mkSession (s_identity s) (s_ladder s) (s_coordinators s) (s_initiated_ever s) (s_pending s)
    (s_verifier s) (s_propose_signer s) (s_confirm_policy s) (s_counterparty_chain s)
    (s_secret_source s) (s_secret_is_sim s) (s_caps s) x (s_verify_notes s) (s_fast_verify s).

Definition with_notes (s : SwapSession) (n : gmap (list Z) Z) : SwapSession :=
  mkSession (s_identity s) (s_ladder s) (s_coordinators s) (s_initiated_ever s) (s_pending s)
    (s_verifier s) (s_propose_signer s) (s_confirm_policy s) (s_counterparty_chain s)
    (s_secret_source s) (s_secret_is_sim s) (s_caps s) (s_funding_proof_seen s) n
    (s_fast_verify s).

Definition with_fast (s : SwapSession) (f : FastTickScheduler) : SwapSession :=
  mkSession (s_identity s) (s_ladder s) (s_coordinators s) (s_initiated_ever s) (s_pending s)
    (s_verifier s) (s_propose_signer s) (s_confirm_policy s) (s_counterparty_chain s)
    (s_secret_source s) (s_secret_is_sim s) (s_caps s) (s_funding_proof_seen s)
    (s_verify_notes s) f.

(** [SwapSession::new] with its builder calls: the verifier, the secret source
    and the policies a node is built with. *)
Definition session_new (identity : NodeIdentity) (ladder : LadderParams) (v : V)
    (signer : option EnclaveKey) (policy : ConfirmationPolicy) (chain : Asset)
    (source : bytes -> bytes) (is_sim : bool) (caps : option SwapCaps) : SwapSession :=
  mkSession identity ladder ∅ ∅ ∅ v signer policy chain source is_sim caps ∅ ∅ (mkFastTick None).

Definition within_caps (s : SwapSession) (nim_luna counter_amount : Z) : bool :=
  match s_caps s with
  | None => true
  | Some caps => admits caps nim_luna counter_amount (s_counterparty_chain s)
  end.

Definition live_safety (s : SwapSession) : res string unit :=
  if negb (chain_backed (s_verifier s)) then
    Err "funding verifier is not chain-backed (sim/accept-all)"%string
  else if s_secret_is_sim s then Err "secret source is the deterministic sim stand-in"%string
  else if (required_for_leg (s_confirm_policy s) LegNim (s_counterparty_chain s) =? 0)
          || (required_for_leg (s_confirm_policy s) LegCounterparty (s_counterparty_chain s) =? 0)
  then Err "confirmation policy allows zero-confirmation funding"%string
  else Ok tt.

Definition stop_advertising (s : SwapSession) : SwapSession * bool :=
  let i := s_identity s in
  (mkSession (mkIdentity (id_nim_address i) (id_btc_address i) (id_btc_pubkey i)
                (id_rate_policy i) (id_max_concurrent_swaps i) None)
     (s_ladder s) (s_coordinators s) (s_initiated_ever s) (s_pending s) (s_verifier s)
     (s_propose_signer s) (s_confirm_policy s) (s_counterparty_chain s) (s_secret_source s)
     (s_secret_is_sim s) (s_caps s) (s_funding_proof_seen s) (s_verify_notes s)
     (s_fast_verify s),
   bool_decide (is_Some (id_standing_intent i))).

Definition sign_propose (s : SwapSession) (propose : SwapEnvelope) : SwapEnvelope :=
  match s_propose_signer s with
  | None => propose
  | Some key =>
      match proposal_from_envelope propose with
      | None => propose
      | Some proposal =>
          match try_array 32 (ek_public_key key),
                try_array 64 (ek_sign_content key (signing_bytes proposal)) with
          | Some pubkey, Some signature => to_signed_envelope proposal pubkey signature
          | _, _ => propose
          end
      end
  end.

Definition add_initiator (s : SwapSession) (swap_id : bytes) (c : SwapCoordinator) : SwapSession :=
  let s := with_initiated s ({[ swap_id ]} ∪ s_initiated_ever s) in
  with_coords s (<[ swap_id := c ]> (s_coordinators s)).

Definition has_initiated (s : SwapSession) (swap_id : bytes) : bool :=
  bool_decide (swap_id ∈ s_initiated_ever s).

(** [self.coordinators.len()] *)
Definition session_len (s : SwapSession) : Z := Z.of_nat (size (s_coordinators s)).

Definition phases (s : SwapSession) : list (list Z * SwapPhase) :=
  map (fun '(id, c) => (id, c_phase c)) (map_to_list (s_coordinators s)).

(** [attempts + 1], saturating at [u32::MAX]. *)
Definition bump_note (s : SwapSession) (swap_id : bytes) : SwapSession :=
  let attempts := sat_add 32 (default 0 (s_verify_notes s !! swap_id)) 1 in
  with_notes s (<[ swap_id := attempts ]> (s_verify_notes s)).

Definition verify_counterparty_funding (s : SwapSession) (swap_id : bytes)
  : SwapSession * res CoordError unit :=
  match s_coordinators s !! swap_id with
  | None => (s, Panic)
  | Some c =>
      let leg := x_leg (counterparty_expectation c) in
      let min_confirmations :=
        required_for_leg (s_confirm_policy s) leg (s_counterparty_chain s) in
      let result := verify_and_observe_funding c (s_verifier s) min_confirmations in
      let s := match result with
               | Ok (c', _) => with_coords s (<[ swap_id := c' ]> (s_coordinators s))
               | _ => s
               end in
      (bump_note s swap_id, let? _ := result in Ok tt)
  end.

Definition awaits (s : SwapSession) (id : list Z) : bool :=
  match s_coordinators s !! id with
  | Some c => awaits_counterparty_funding c
  | None => false
  end.

(** The [for id in candidates] loop. *)
Fixpoint reverify_loop (s : SwapSession) (ids : list (list Z)) (advanced : list (list Z))
  : SwapSession * res Empty_set (list (list Z)) :=
  match ids with
  | [] => (s, Ok advanced)
  | id :: ids =>
      let '(s, r) := verify_counterparty_funding s id in
      match r with
      | Ok _ => reverify_loop s ids (advanced ++ [id])
      | Err _ => reverify_loop s ids advanced
      | Panic => (s, Panic)
      end
  end.

Definition reverify_awaited_funding (s : SwapSession) : SwapSession * res Empty_set (list (list Z)) :=
  let candidates := List.filter (awaits s) (elements (s_funding_proof_seen s)) in
  let '(s, advanced) := reverify_loop s candidates [] in
  match advanced with
  | Panic => (s, advanced)
  | _ => (with_seen s (filter (fun id => awaits s id = true) (s_funding_proof_seen s)), advanced)
  end.

Definition has_claim (c : SwapCoordinator) : bool :=
  bool_decide (c_role c = Responder) && bool_decide (c_phase c = Revealed).

Definition has_claim_work (s : SwapSession) : bool :=
  existsb (fun '(_, c) => has_claim c) (map_to_list (s_coordinators s)).

Definition fast_due (s : SwapSession) (now_ms : Z) : SwapSession * bool :=
  let awaiting := existsb (awaits s) (elements (s_funding_proof_seen s)) in
  if awaiting || has_claim_work s then
    let '(f, d) := fast_tick_due (s_fast_verify s) now_ms in (with_fast s f, d)
  else (s, false).

Definition claims_awaiting_broadcast (s : SwapSession) : list (list Z) :=
  map fst (List.filter (fun '(_, c) => has_claim c && negb (bool_decide (is_Some (c_claim_tx c))))
             (map_to_list (s_coordinators s))).

Definition confirm_claim (s : SwapSession) (swap_id : bytes) : SwapSession * bool :=
  match (c ← s_coordinators s !! swap_id; if has_claim c then c_claim_tx c else None) with
  | None => (s, false)
  | Some tx_id =>
      let need := required_for_leg (s_confirm_policy s) LegNim (s_counterparty_chain s) in
      let obs := observe_claim (s_verifier s) LegNim tx_id in
      let settled := match obs with
                     | Included confirmations => confirmations >=? need
                     | NotFound | Unavailable => false
                     end in
      let s := match s_coordinators s !! swap_id with
               | None => s
               | Some c =>
                   if settled then
                     match settle c with
                     | Ok (c', _) => with_coords s (<[ swap_id := c' ]> (s_coordinators s))
                     | _ => s
                     end
                   else match obs with
                        | NotFound => with_coords s
                            (<[ swap_id := clear_claim_broadcast c ]> (s_coordinators s))
                        | _ => s
                        end
               end in
      (bump_note s swap_id, settled)
  end.

Fixpoint confirm_loop (s : SwapSession) (ids : list (list Z)) : SwapSession * list (list Z) :=
  match ids with
  | [] => (s, [])
  | id :: ids =>
      let '(s, settled) := confirm_claim s id in
      let '(s, rest) := confirm_loop s ids in
      (s, if settled then id :: rest else rest)
  end.

Definition confirm_pending_claims (s : SwapSession) : SwapSession * list (list Z) :=
  let pending := map fst (List.filter
    (fun '(_, c) => has_claim c && bool_decide (is_Some (c_claim_tx c)))
    (map_to_list (s_coordinators s))) in
  confirm_loop s pending.

Definition prune_dropped_swap_state (s : SwapSession) : SwapSession :=
  let coords := s_coordinators s in
  let s := with_seen s (filter (fun id => is_Some (coords !! id)) (s_funding_proof_seen s)) in
  with_notes s (filter (fun '(id, _) => is_Some (coords !! id)) (s_verify_notes s)).

Definition reap_terminal (s : SwapSession) : SwapSession * Z :=
  let before := session_len s in
  let s := with_coords s
    (filter (fun '(_, c) => is_terminal (c_phase c) = false) (s_coordinators s)) in
  let s := prune_dropped_swap_state s in
  (s, before - session_len s).

Definition session_remove (s : SwapSession) (swap_id : bytes) : SwapSession * bool :=
  let was := bool_decide (is_Some (s_coordinators s !! swap_id)) in
  let s := with_seen s (s_funding_proof_seen s ∖ {[ swap_id ]}) in
  let s := with_notes s (delete swap_id (s_verify_notes s)) in
  (with_coords s (delete swap_id (s_coordinators s)), was).

(** Drop a swap with everything buffered for it. *)
Definition forget_swap (s : SwapSession) (swap_id : bytes) : SwapSession :=
  let s := with_coords s (delete swap_id (s_coordinators s)) in
  let s := with_pending s (delete swap_id (s_pending s)) in
  let s := with_seen s (s_funding_proof_seen s ∖ {[ swap_id ]}) in
  with_notes s (delete swap_id (s_verify_notes s)).

Definition cancel (s : SwapSession) (swap_id : bytes) : SwapSession * option SwapEnvelope :=
  match s_coordinators s !! swap_id with
  | None => (s, None)
  | Some c =>
      if has_funds_locked (c_phase c) then (s, None)
      else (forget_swap s swap_id, Some (abort_envelope swap_id 0))
  end.

Definition record_action (s : SwapSession) (swap_id : bytes) (t : MessageType) (payload : bytes)
  : SwapSession :=
  with_pending s (<[ swap_id := mkPending t payload RETRANSMIT_TTL ]> (s_pending s)).

(** [a.ttl -= 1] on a [u8] underflows at 0; [session_ok] keeps it positive. *)
Definition pending_retransmits (s : SwapSession) : SwapSession * list (MessageType * bytes) :=
  let out := map (fun '(_, a) => (pa_msg_type a, pa_payload a)) (map_to_list (s_pending s)) in
  let aged := (fun a => mkPending (pa_msg_type a) (pa_payload a) (pa_ttl a - 1)) <$> s_pending s in
  (with_pending s (filter (fun '(_, a) => pa_ttl a > 0) aged), out).

(** [let _ = c.refund_after_timeout(head)] *)
Definition refund_if_due (head : Z) (c : SwapCoordinator) : SwapCoordinator :=
  match coord_refund_after_timeout c head with Ok (c', _) => c' | _ => c end.

(** [let _ = c.forfeit_expired_claim(head)] *)
Definition forfeit_if_due (head : Z) (c : SwapCoordinator) : SwapCoordinator :=
  match forfeit_expired_claim c head with Ok (c', _) => c' | _ => c end.

Fixpoint foreclose_loop (head : Z) (s : SwapSession) (ids : list (list Z)) : SwapSession :=
  match ids with
  | [] => s
  | id :: ids =>
      let '(s, settled) := confirm_claim s id in
      let s := if negb settled then
                 match s_coordinators s !! id with
                 | Some c => with_coords s (<[ id := forfeit_if_due head c ]> (s_coordinators s))
                 | None => s
                 end
               else s in
      foreclose_loop head s ids
  end.

Definition tick (s : SwapSession) (head : Z) : SwapSession * list (list Z) :=
  let s := with_coords s (refund_if_due head <$> s_coordinators s) in
  let stale := map fst (List.filter (fun '(_, c) => is_stale c head)
                          (map_to_list (s_coordinators s))) in
  let prune := map fst (List.filter
    (fun '(_, c) => (is_terminal (c_phase c) && negb (bool_decide (c_phase c = Settled)))
                    || is_stale c head)
    (map_to_list (s_coordinators s))) in
  let s := with_coords s
    (filter (fun '(_, c) => is_terminal (c_phase c) = false /\ is_stale c head = false)
       (s_coordinators s)) in
  let s := with_pending s (foldl (fun p id => delete id p) (s_pending s) prune) in
  let s := prune_dropped_swap_state s in
  let expired := map fst (List.filter
    (fun '(_, c) => bool_decide (c_role c = Responder) && bool_decide (c_phase c = Revealed)
                    && (head >? nim_timeout (cx_terms (c_ctx c))))
    (map_to_list (s_coordinators s))) in
  (foreclose_loop head s expired, stale).

(** ** Incoming messages *)

Definition on_propose (s : SwapSession) (env : SwapEnvelope) (head : Z)
  : SwapSession * res SessionError (list (MessageType * bytes)) :=
  let swap_id := e_swap_id env in
  if bool_decide (is_Some (s_coordinators s !! swap_id)) then (s, Ok []) else
  if session_len s >=? id_max_concurrent_swaps (s_identity s) then (s, Ok []) else
  match proposal_from_envelope env with
  | None => (s, Err SeBadPropose)
  | Some p =>
      if negb (accepts (id_rate_policy (s_identity s)) (p_give_amount p) (p_take_amount p))
      then (s, Ok []) else
      if negb (within_caps s (p_give_amount p) (p_take_amount p)) then (s, Ok []) else
      let ctx := {| cx_swap_id := swap_id; cx_terms := p_terms p; cx_hashlock := p_hashlock p;
                    cx_nim_address := id_nim_address (s_identity s);
                    cx_btc_address := id_btc_address (s_identity s);
                    cx_btc_pubkey := id_btc_pubkey (s_identity s);
                    cx_give_amount := p_give_amount p; cx_take_amount := p_take_amount p;
                    cx_network_id := p_network_id p; cx_term_anchor := head |} in
      let coord := new_responder ctx (s_ladder s) in
      match recv_propose coord env head with
      | Err e => (s, Err (SeCoord e))
      | Panic => (s, Panic)
      | Ok (coord, accept) =>
          let s := with_coords s (<[ swap_id := coord ]> (s_coordinators s)) in
          (s, let? b := map_err SeWire (encode_swap accept) in Ok [(MtSwapAccept, b)])
      end
  end.

Definition on_message (s : SwapSession) (kind : SwapKind) (payload : bytes) (head : Z)
  : SwapSession * res SessionError (list (MessageType * bytes)) :=
  match decode_swap kind payload with
  | Err e => (s, Err (SeWire e))
  | Panic => (s, Panic)
  | Ok env =>
      let swap_id := e_swap_id env in
      match kind with
      | Propose => on_propose s env head
      | Accept =>
          match s_coordinators s !! swap_id with
          | None => (s, Err SeUnknownSwap)
          | Some c =>
              match recv_accept c env head with
              | Ok (c', _) => (with_coords s (<[ swap_id := c' ]> (s_coordinators s)), Ok [])
              | Err e => (s, Err (SeCoord e))
              | Panic => (s, Panic)
              end
          end
      | FundingProof =>
          match s_coordinators s !! swap_id with
          | None => (s, Err SeUnknownSwap)
          | Some _ =>
              let s := match e_leg env, e_tx_wire env with
                       | Some leg, Some wire =>
                           with_verifier s (note_funding_wire (s_verifier s) leg wire)
                       | _, _ => s
                       end in
              let s := with_seen s ({[ swap_id ]} ∪ s_funding_proof_seen s) in
              let '(s, r) := verify_counterparty_funding s swap_id in
              (s, let? _ := map_err SeCoord r in Ok [])
          end
      | PreimageReveal =>
          match s_coordinators s !! swap_id with
          | None => (s, Err SeUnknownSwap)
          | Some _ => (s, Ok [])
          end
      | Abort =>
          match s_coordinators s !! swap_id with
          | Some c => if negb (has_funds_locked (c_phase c)) then (forget_swap s swap_id, Ok [])
                      else (s, Ok [])
          | None => (s, Ok [])
          end
      end
  end.

(** ** The session as a transition system

    The public operations of a session.  [SoDrive] is a driver action on one
    coordinator (the worker funds, claims, takes in a revealed secret, notes a
    broadcast and, as initiator, settles); [SoInitiate] is the origination of a
    swap under the driver's guards; [SoRemove] is the unconditional removal;
    [SoChain] lets the view of the chain behind the verifier change between
    calls. *)

Inductive SessionOp : Type :=
| SoMessage (kind : SwapKind) (payload : bytes) (head : Z)
| SoInitiate (ctx : SwapContext) (secret : bytes)
| SoDrive (swap_id : bytes) (op : @CoordOp V)
| SoReverify
| SoConfirm
| SoConfirmOne (swap_id : bytes)
| SoTick (head : Z)
| SoReap
| SoCancel (swap_id : bytes)
| SoRemove (swap_id : bytes)
| SoRecord (swap_id : bytes) (t : MessageType) (payload : bytes)
| SoRetransmit
| SoStopAdvertising
| SoFast (now_ms : Z)
| SoChain (v : V).

(** The operations the driver calls on a coordinator itself. *)
Definition driver_op (c : SwapCoordinator) (op : @CoordOp V) : bool :=
  match op with
  | OpFund _ _ _ | OpClaim _ _ _ | OpRecvReveal _ _ => true
  | OpNoteClaim _ => has_claim c
  | OpSettle => bool_decide (c_role c = Initiator)
  | _ => false
  end.

Definition may_initiate (s : SwapSession) (ctx : SwapContext) : bool :=
  negb (bool_decide (is_Some (s_coordinators s !! cx_swap_id ctx)))
  && negb (has_initiated s (cx_swap_id ctx))
  && (session_len s <? id_max_concurrent_swaps (s_identity s))
  && within_caps s (cx_give_amount ctx) (cx_take_amount ctx).

Definition session_apply (s : SwapSession) (op : SessionOp) : SwapSession :=
  match op with
  | SoMessage k p h => (on_message s k p h).1
  | SoInitiate ctx secret =>
      if may_initiate s ctx
      then add_initiator s (cx_swap_id ctx) (new_initiator ctx secret (s_ladder s)).1
      else s
  | SoDrive id op =>
      match s_coordinators s !! id with
      | Some c =>
          if driver_op c op then
            match apply_op c op with
            | Ok c' => with_coords s (<[ id := c' ]> (s_coordinators s))
            | _ => s
            end
          else s
      | None => s
      end
  | SoReverify => (reverify_awaited_funding s).1
  | SoConfirm => (confirm_pending_claims s).1
  | SoConfirmOne id => (confirm_claim s id).1
  | SoTick h => (tick s h).1
  | SoReap => (reap_terminal s).1
  | SoCancel id => (cancel s id).1
  | SoRemove id => (session_remove s id).1
  | SoRecord id t p => record_action s id t p
  | SoRetransmit => (pending_retransmits s).1
  | SoStopAdvertising => (stop_advertising s).1
  | SoFast now => (fast_due s now).1
  | SoChain v => with_verifier s v
  end.

Inductive session_run : SwapSession -> list SessionOp -> SwapSession -> Prop :=
| session_run_nil s : session_run s [] s
| session_run_snoc s ops s1 op :
    session_run s ops s1 -> session_run s (ops ++ [op]) (session_apply s1 op).

(** ** How the coordinators of a session may change *)

(** The depth at which a coordinator of this session must see the other leg. *)
Definition depth_of (s : SwapSession) (r : SwapRole) : Z :=
  required_for_leg (s_confirm_policy s)
    match r with Responder => LegNim | Initiator => LegCounterparty end (s_counterparty_chain s).

Definition at_depth (s : SwapSession) (r : SwapRole) (op : @CoordOp V) : Prop :=
  match op with OpVerify _ n => n = depth_of s r | _ => True end.

(** When the session [s] lets an operation happen to a coordinator: it verifies
    with its own verifier at its own depth, and it settles a responder's swap
    only on a claim its verifier sees included deep enough. *)
Definition licensed (s : SwapSession) (c : SwapCoordinator) (op : @CoordOp V) : Prop :=
  match op with
  | OpVerify v n => v = s_verifier s /\ n = depth_of s (c_role c)
  | OpSettle => c_role c = Initiator \/
      exists tx n, c_claim_tx c = Some tx /\ observe_claim (s_verifier s) LegNim tx = Included n
        /\ required_for_leg (s_confirm_policy s) LegNim (s_counterparty_chain s) <= n
  | OpNoteClaim _ | OpClearClaim => has_claim c = true
  | _ => True
  end.

Inductive evolves (s : SwapSession) (c : SwapCoordinator) : SwapCoordinator -> Prop :=
| evolves_refl : evolves s c c
| evolves_snoc c1 op c2 :
    evolves s c c1 -> licensed s c1 op -> apply_op c1 op = Ok c2 -> evolves s c c2.

(** A coordinator that has made a run from its creation under the id [id]. *)
Definition born (s : SwapSession) (id : list Z) (c : SwapCoordinator) : Prop :=
  exists r ctx secret ops,
    coord_run (match r with
               | Initiator => (new_initiator ctx secret (s_ladder s)).1
               | Responder => new_responder ctx (s_ladder s)
               end) ops c
    /\ Forall (at_depth s r) ops
    /\ cx_swap_id ctx = id
    /\ (r = Initiator -> id ∈ s_initiated_ever s).

(** What no operation changes. *)
Definition same_config (s s' : SwapSession) : Prop :=
  s_ladder s' = s_ladder s /\ s_confirm_policy s' = s_confirm_policy s
  /\ s_counterparty_chain s' = s_counterparty_chain s /\ s_caps s' = s_caps s
  /\ id_max_concurrent_swaps (s_identity s') = id_max_concurrent_swaps (s_identity s).

(** The fate of one slot of the map in one operation: a coordinator moves on by
    its own operations, or goes; an empty slot stays empty or gets a new
    coordinator. *)
Definition fate (s s' : SwapSession) (id : list Z) : Prop :=
  match s_coordinators s !! id, s_coordinators s' !! id with
  | None, None => True
  | None, Some c' => born s' id c' /\ saw_funding (c_role c') (c_phase c') = false
  | Some c, Some c' => evolves s' c c'
  | Some c, None => True
  end.

(** Every slot moves in place. *)
Definition in_place (s s' : SwapSession) : Prop :=
  forall id, option_Forall2 (evolves s) (s_coordinators s !! id) (s_coordinators s' !! id).

(** The side tables mention live swaps only, and a retransmit budget is a
    positive [u8] that can be decremented. *)
Record tables_ok (s : SwapSession) : Prop := {
  to_seen : forall id, id ∈ s_funding_proof_seen s -> is_Some (s_coordinators s !! id);
  to_notes : forall id, is_Some (s_verify_notes s !! id) -> is_Some (s_coordinators s !! id);
  to_ttl : forall id a, s_pending s !! id = Some a -> 1 <= pa_ttl a <= RETRANSMIT_TTL
}.

Record session_ok (s : SwapSession) : Prop := {
  so_born : forall id c, s_coordinators s !! id = Some c -> born s id c;
  so_tables : tables_ok s
}.

(** What the loops over the coordinators keep. *)
Record advances (s s' : SwapSession) : Prop := {
  ad_config : same_config s s';
  ad_verifier : s_verifier s' = s_verifier s;
  ad_initiated : s_initiated_ever s' = s_initiated_ever s;
  ad_pending : s_pending s' = s_pending s;
  ad_seen : s_funding_proof_seen s' = s_funding_proof_seen s;
  ad_notes : forall id, is_Some (s_verify_notes s' !! id) ->
    is_Some (s_verify_notes s !! id) \/ is_Some (s_coordinators s !! id);
  ad_coords : in_place s s'
}.

(** ** Lemmas *)

Lemma coord_run_app c ops1 c1 ops2 c2 :
  coord_run c ops1 c1 -> coord_run c1 ops2 c2 -> coord_run c (ops1 ++ ops2) c2.
Proof.
  intros H1 H2. induction H2 as [|c1 ops2 c2 op c3 _ IH Hop]; [now rewrite app_nil_r|].
  rewrite app_assoc. eapply coord_run_snoc; eauto.
Qed.

Lemma coord_run_role c ops c' : coord_run c ops c' -> c_role c' = c_role c.
Proof. intros ((tr & Hr) & _)%coord_run_run. now apply run_static in Hr as [? _]. Qed.

Lemma evolves_op s c op c' : apply_op c op = Ok c' -> licensed s c op -> evolves s c c'.
Proof. intros H Hl. eapply evolves_snoc; [constructor | exact Hl | exact H]. Qed.

Lemma same_config_depth s s' r : same_config s s' -> depth_of s' r = depth_of s r.
Proof. unfold same_config, depth_of. intros (_ & -> & -> & _). reflexivity. Qed.

Lemma at_depth_config s s' r op : same_config s s' -> at_depth s' r op <-> at_depth s r op.
Proof. intros H. unfold at_depth. destruct op; try tauto. now rewrite (same_config_depth s s'). Qed.

Lemma evolves_config s s' c c' :
  same_config s s' -> s_verifier s' = s_verifier s -> evolves s c c' -> evolves s' c c'.
Proof.
  intros Hc Hv. induction 1 as [|c1 op c2 _ IH Hl Hop]; [constructor|].
  eapply evolves_snoc; [exact IH | | exact Hop].
  pose proof (same_config_depth s s' (c_role c1) Hc) as Hd. destruct Hc as (_ & Hp & Hch & _).
  destruct op; simpl in *; auto; rewrite ?Hv, ?Hp, ?Hch, ?Hd; auto.
Qed.

Lemma evolves_trans s c1 c2 c3 : evolves s c1 c2 -> evolves s c2 c3 -> evolves s c1 c3.
Proof. intros H1. induction 1; [exact H1|]. eapply evolves_snoc; eassumption. Qed.

(** Evolution is a run of the coordinator at the session's depth. *)
Lemma evolves_run s c c' : evolves s c c' ->
  exists ops, coord_run c ops c' /\ Forall (at_depth s (c_role c)) ops.
Proof.
  induction 1 as [|c1 op c2 _ (ops & Hr & Hd) Hl Hop]; [exists []; split; constructor|].
  exists (ops ++ [op]). split; [eapply coord_run_snoc; eassumption|].
  apply Forall_app; split; [exact Hd|]. constructor; [|constructor].
  rewrite <- (coord_run_role _ _ _ Hr). destruct op; simpl in *; tauto.
Qed.

Lemma born_evolves s s' id c c' :
  same_config s s' -> s_initiated_ever s ⊆ s_initiated_ever s' ->
  born s id c -> evolves s' c c' -> born s' id c'.
Proof.
  intros Hc Hi (r & ctx & sec & ops & Hr & Hd & Hid & Hin) (o2 & H2 & D2)%evolves_run.
  exists r, ctx, sec, (ops ++ o2). pose proof Hc as (-> & _). split_and!; auto.
  - eapply coord_run_app; eassumption.
  - assert (Hrole : c_role c = r).
    { rewrite (coord_run_role _ _ _ Hr). now destruct r. }
    rewrite Hrole in D2. apply Forall_app. split; [|exact D2].
    eapply Forall_impl; [exact Hd|]. intros op. apply (at_depth_config s s' _ op Hc).
Qed.

Lemma same_config_refl s : same_config s s.
Proof. repeat split. Qed.

Lemma same_config_trans s1 s2 s3 : same_config s1 s2 -> same_config s2 s3 -> same_config s1 s3.
Proof. unfold same_config. intuition congruence. Qed.

Lemma same_config_sym s s' : same_config s s' -> same_config s' s.
Proof. unfold same_config. intuition congruence. Qed.

Lemma advances_refl s : advances s s.
Proof.
  constructor; auto using same_config_refl. intros id.
  destruct (s_coordinators s !! id); constructor. apply evolves_refl.
Qed.

Lemma advances_trans s1 s2 s3 : advances s1 s2 -> advances s2 s3 -> advances s1 s3.
Proof.
  intros [C1 V1 I1 P1 S1 N1 E1] [C2 V2 I2 P2 S2 N2 E2]. constructor; try congruence.
  - eapply same_config_trans; eassumption.
  - intros id [H|H]%N2; [now apply N1|]. right. specialize (E1 id).
    destruct H as [c Hc]. rewrite Hc in E1. inversion E1; eauto.
  - intros id. specialize (E1 id). specialize (E2 id).
    destruct E1 as [c1 c2 E1|]; inversion E2; subst; constructor.
    eapply evolves_trans; [exact E1|].
    eapply evolves_config; [apply same_config_sym; exact C1 | now symmetry | assumption].
Qed.

(** Replacing one coordinator by one it evolves to, and a note. *)
Lemma advances_update s id c c' n :
  s_coordinators s !! id = Some c -> evolves s c c' ->
  advances s (with_notes (with_coords s (<[ id := c' ]> (s_coordinators s)))
                (<[ id := n ]> (s_verify_notes s))).
Proof.
  intros Hc He. constructor; auto using same_config_refl; simpl.
  - repeat split.
  - intros id' H. destruct (decide (id' = id)) as [->|Hn]; [eauto|].
    rewrite lookup_insert_ne in H by congruence. auto.
  - intros id'. destruct (decide (id' = id)) as [->|Hn]; simpl.
    + rewrite lookup_insert_eq, Hc. now constructor.
    + rewrite lookup_insert_ne by congruence.
      destruct (s_coordinators s !! id'); constructor. apply evolves_refl.
Qed.

Lemma advances_note s id n :
  is_Some (s_coordinators s !! id) ->
  advances s (with_notes s (<[ id := n ]> (s_verify_notes s))).
Proof.
  intros Hc. destruct (advances_refl s) as [A1 Av A2 A3 A4 A5 A6]. constructor; auto; simpl.
  intros id' H. destruct (decide (id' = id)) as [->|Hn]; [auto|].
  rewrite lookup_insert_ne in H by congruence. auto.
Qed.

Lemma verify_depth c :
  x_leg (counterparty_expectation c)
  = match c_role c with Responder => LegNim | Initiator => LegCounterparty end.
Proof. unfold counterparty_expectation, c_role. now destruct (role (c_swap c)). Qed.

Lemma verify_advances s id : advances s (verify_counterparty_funding s id).1.
Proof.
  unfold verify_counterparty_funding.
  destruct (s_coordinators s !! id) as [c|] eqn:Hc; [|apply advances_refl]. simpl.
  destruct (verify_and_observe_funding c (s_verifier s) _) as [[c' u]| |] eqn:Hv; simpl;
    try (apply advances_note; eauto).
  apply (advances_update s id c); [exact Hc|].
  apply (evolves_op _ _ (OpVerify (s_verifier s)
           (required_for_leg (s_confirm_policy s) (x_leg (counterparty_expectation c))
              (s_counterparty_chain s)))).
  - simpl. now rewrite Hv.
  - simpl. unfold depth_of. now rewrite verify_depth.
Qed.

Lemma reverify_loop_advances ids : forall s acc, advances s (reverify_loop s ids acc).1.
Proof.
  induction ids as [|id ids IH]; intros s acc; simpl; [apply advances_refl|].
  pose proof (verify_advances s id) as Hv.
  destruct (verify_counterparty_funding s id) as [s1 [u|e|]]; [eapply advances_trans; [exact Hv | apply IH]..|exact Hv].
Qed.

Lemma confirm_claim_advances s id : advances s (confirm_claim s id).1.
Proof.
  unfold confirm_claim. destruct (s_coordinators s !! id) as [c|] eqn:Hc; simpl; [|apply advances_refl].
  destruct (has_claim c) eqn:Hh; simpl; [|apply advances_refl].
  destruct (c_claim_tx c) as [tx|] eqn:Ht; simpl; [|apply advances_refl].
  destruct (observe_claim (s_verifier s) LegNim tx) as [n| |] eqn:Ho;
    try (apply advances_note; eauto; fail).
  - destruct (n >=? _) eqn:Hn; [|apply advances_note; eauto].
    destruct (settle c) as [[c' u]| |] eqn:Hs; try (apply advances_note; eauto; fail).
    apply (advances_update s id c); [exact Hc|]. apply (evolves_op _ _ OpSettle).
    + simpl. now rewrite Hs.
    + right. exists tx, n. rewrite Z.geb_leb, Z.leb_le in Hn. auto.
  - apply (advances_update s id c); [exact Hc|]. now apply (evolves_op _ _ OpClearClaim).
Qed.

Lemma confirm_loop_advances ids : forall s, advances s (confirm_loop s ids).1.
Proof.
  induction ids as [|id ids IH]; intros s; simpl; [apply advances_refl|].
  pose proof (confirm_claim_advances s id) as Hv. destruct (confirm_claim s id) as [s1 r].
  specialize (IH s1). destruct (confirm_loop s1 ids). eapply advances_trans; eassumption.
Qed.

Lemma forfeit_evolves s head c : evolves s c (forfeit_if_due head c).
Proof.
  unfold forfeit_if_due. destruct (forfeit_expired_claim c head) as [[c' u]| |] eqn:Hf;
    try apply evolves_refl.
  apply (evolves_op _ _ (OpForfeit head)); [|exact I]. simpl. now rewrite Hf.
Qed.

Lemma refund_evolves s head c : evolves s c (refund_if_due head c).
Proof.
  unfold refund_if_due. destruct (coord_refund_after_timeout c head) as [[c' u]| |] eqn:Hf;
    try apply evolves_refl.
  apply (evolves_op _ _ (OpRefund head)); [|exact I]. simpl. now rewrite Hf.
Qed.

Lemma advances_coord s id c c' :
  s_coordinators s !! id = Some c -> evolves s c c' ->
  advances s (with_coords s (<[ id := c' ]> (s_coordinators s))).
Proof.
  intros Hc He. destruct (advances_refl s) as [A1 Av A2 A3 A4 A5 A6]. constructor; auto; simpl.
  intros id'. destruct (decide (id' = id)) as [->|Hn]; simpl.
  - rewrite lookup_insert_eq, Hc. now constructor.
  - rewrite lookup_insert_ne by congruence. apply A6.
Qed.

Lemma foreclose_loop_advances head ids : forall s, advances s (foreclose_loop head s ids).
Proof.
  induction ids as [|id ids IH]; intros s; simpl; [apply advances_refl|].
  pose proof (confirm_claim_advances s id) as Hv. destruct (confirm_claim s id) as [s1 r].
  eapply advances_trans; [exact Hv|]. destruct r; simpl; [apply IH|].
  destruct (s_coordinators s1 !! id) as [c|] eqn:Hc; [|apply IH].
  eapply advances_trans; [|apply IH]. eapply advances_coord; [exact Hc | apply forfeit_evolves].
Qed.

(** What one operation of the session does to the rest of its state. *)
Record step_ok (s s' : SwapSession) : Prop := {
  st_config : same_config s s';
  st_initiated : s_initiated_ever s ⊆ s_initiated_ever s';
  st_fate : forall id, fate s s' id;
  st_tables : tables_ok s -> tables_ok s';
  st_room : session_len s' <= Z.max (session_len s) (id_max_concurrent_swaps (s_identity s))
}.

(** No slot is filled. *)
Lemma room_kept s s' :
  (forall id, s_coordinators s !! id = None -> s_coordinators s' !! id = None) ->
  session_len s' <= Z.max (session_len s) (id_max_concurrent_swaps (s_identity s)).
Proof.
  intros H. unfold session_len. rewrite <- !size_dom. enough (size (dom (s_coordinators s')) <= size (dom (s_coordinators s)))%nat by lia.
  apply subseteq_size. intros id. rewrite !elem_of_dom, <- !not_eq_None_Some. auto.
Qed.

Lemma fate_refl s s' id : s_coordinators s' !! id = s_coordinators s !! id -> fate s s' id.
Proof.
  unfold fate. intros ->. destruct (s_coordinators s !! id); [apply evolves_refl | exact I].
Qed.

Lemma advances_live s s' id :
  advances s s' -> is_Some (s_coordinators s !! id) <-> is_Some (s_coordinators s' !! id).
Proof.
  intros [_ _ _ _ _ _ H]. specialize (H id). destruct H; split; intros [? ?]; eauto; discriminate.
Qed.

Lemma advances_step s s' : advances s s' -> step_ok s s'.
Proof.
  intros Ha. pose proof (advances_live s s') as Hl. pose proof Ha as [A1 Av A2 A3 A4 A5 A6].
  constructor; auto; [now rewrite A2| | |].
  3: { apply room_kept. intros id. rewrite !eq_None_not_Some, (Hl id) by assumption. auto. }
  - intros id. unfold fate. destruct (A6 id); auto. eapply evolves_config; eassumption.
  - intros [T1 T2 T3]. constructor.
    + intros id. rewrite A4, <- Hl by assumption. apply T1.
    + intros id [H|H]%A5; rewrite <- Hl by assumption; auto.
    + rewrite A3. exact T3.
Qed.

Lemma step_session_ok s s' : step_ok s s' -> session_ok s -> session_ok s'.
Proof.
  intros [Cf I F T _] [B Tb]. constructor; [|auto]. intros id c' Hc'. specialize (F id).
  unfold fate in F. rewrite Hc' in F. destruct (s_coordinators s !! id) as [c|] eqn:Hc; [|apply F].
  eapply born_evolves; eauto.
Qed.

(** Operations that leave the coordinators, the policies and the side tables alone. *)
Lemma step_frame s s' :
  same_config s s' -> s_initiated_ever s' = s_initiated_ever s ->
  s_coordinators s' = s_coordinators s -> s_funding_proof_seen s' = s_funding_proof_seen s ->
  s_verify_notes s' = s_verify_notes s ->
  (forall id a, (forall id a, s_pending s !! id = Some a -> 1 <= pa_ttl a <= RETRANSMIT_TTL) ->
     s_pending s' !! id = Some a -> 1 <= pa_ttl a <= RETRANSMIT_TTL) ->
  step_ok s s'.
Proof.
  intros Hc Hi Hco Hs Hn Hp. constructor; auto; [now rewrite Hi| | |apply room_kept; now rewrite Hco].
  - intros id. apply fate_refl. now rewrite Hco.
  - intros [T1 T2 T3]. constructor; rewrite ?Hco, ?Hs, ?Hn; auto. intros id a. apply Hp; auto.
Qed.

Lemma step_refl s : step_ok s s.
Proof. apply advances_step, advances_refl. Qed.

(** Dropping a swap with its side state. *)
Lemma forget_step s id c :
  s_coordinators s !! id = Some c -> step_ok s (forget_swap s id).
Proof.
  intros Hc. constructor; [repeat split | done | | |apply room_kept; intros id'; simpl; rewrite lookup_delete_None; auto].
  - intros id'. destruct (decide (id' = id)) as [->|Hn].
    + unfold fate. simpl. now rewrite Hc, lookup_delete_eq.
    + apply fate_refl. simpl. now rewrite lookup_delete_ne by congruence.
  - intros [T1 T2 T3]. constructor; simpl.
    + intros id' [H1 H2]%elem_of_difference. rewrite lookup_delete_ne by set_solver. auto.
    + intros id' H. destruct (decide (id' = id)) as [->|Hn].
      * rewrite lookup_delete_eq in H. now destruct H.
      * rewrite lookup_delete_ne in H by congruence. rewrite lookup_delete_ne by congruence. auto.
    + intros id' a [_ H]%lookup_delete_Some. eauto.
Qed.

(** A new coordinator in an empty slot. *)
Lemma birth_step s s' id c :
  s_coordinators s !! id = None -> s_coordinators s' = <[ id := c ]> (s_coordinators s) ->
  session_len s < id_max_concurrent_swaps (s_identity s) -> same_config s s' -> s_initiated_ever s ⊆ s_initiated_ever s' ->
  s_funding_proof_seen s' = s_funding_proof_seen s -> s_verify_notes s' = s_verify_notes s ->
  s_pending s' = s_pending s -> born s' id c -> saw_funding (c_role c) (c_phase c) = false ->
  step_ok s s'.
Proof.
  intros Hn Hc Hlen Hcfg Hi Hs Hv Hp Hb Hw. constructor; auto.
  3: { unfold session_len in *. rewrite Hc, map_size_insert_None by exact Hn. lia. }
  - intros id'. destruct (decide (id' = id)) as [->|Hne].
    + unfold fate. now rewrite Hn, Hc, lookup_insert_eq.
    + apply fate_refl. rewrite Hc. now rewrite lookup_insert_ne by congruence.
  - intros [T1 T2 T3]. constructor; rewrite ?Hs, ?Hv, ?Hp, ?Hc; auto.
    + intros id' H%T1. destruct (decide (id' = id)) as [->|]; [rewrite lookup_insert_eq; eauto|].
      now rewrite lookup_insert_ne by congruence.
    + intros id' H%T2. destruct (decide (id' = id)) as [->|]; [rewrite lookup_insert_eq; eauto|].
      now rewrite lookup_insert_ne by congruence.
Qed.

Lemma prune_tables s :
  (forall id a, s_pending s !! id = Some a -> 1 <= pa_ttl a <= RETRANSMIT_TTL) ->
  tables_ok (prune_dropped_swap_state s).
Proof.
  intros H. constructor; simpl; auto.
  - intros id. rewrite elem_of_filter. tauto.
  - intros id [n Hn]. apply map_lookup_filter_Some in Hn as [_ Hn]. exact Hn.
Qed.

(** The loops that drop: every coordinator first evolves, then stays or, with
    no funds locked, goes. *)
Lemma drop_step s s' (f : SwapCoordinator -> SwapCoordinator)
    (P : list Z * SwapCoordinator -> Prop) `{!forall x, Decision (P x)} :
  same_config s s' -> s_initiated_ever s' = s_initiated_ever s ->
  s_coordinators s' = filter P (f <$> s_coordinators s) ->
  (forall c, evolves s' c (f c)) ->
  (tables_ok s -> tables_ok s') -> step_ok s s'.
Proof.
  intros Hc Hi Hco Hf Ht. constructor; auto; [now rewrite Hi| |].
  2: { apply room_kept. intros id Hid. now rewrite Hco, map_lookup_filter, lookup_fmap, Hid. }
  intros id. unfold fate.
  rewrite Hco, map_lookup_filter, lookup_fmap.
  destruct (s_coordinators s !! id) as [c|]; simpl; [|exact I].
  case_guard as Hg; simpl; [apply Hf | exact I].
Qed.

Lemma reap_step s : step_ok s (reap_terminal s).1.
Proof.
  apply (drop_step _ _ id (fun '(_, c) => is_terminal (c_phase c) = false)); try done.
  - simpl. now rewrite map_fmap_id.
  - intros; apply evolves_refl.
  - intros [_ _ T3]. now apply prune_tables.
Qed.

Lemma delete_all_lookup {A} (l : list (list Z)) (m : gmap (list Z) A) id x :
  foldl (fun p i => delete i p) m l !! id = Some x -> m !! id = Some x.
Proof.
  revert m; induction l as [|i l IH]; intros m H; simpl in H; [exact H|].
  apply IH in H. now apply lookup_delete_Some in H as [_ ?].
Qed.

Lemma step_trans_advances s s1 s2 :
  (forall id, s_coordinators s !! id = None -> s_coordinators s1 !! id = None) ->
  step_ok s s1 -> advances s1 s2 -> step_ok s s2.
Proof.
  intros Hno [C1 I1 F1 T1 R1] Ha. pose proof (advances_step _ _ Ha) as [C2 I2 F2 T2 _].
  constructor; [eapply same_config_trans; eassumption | set_solver | | auto |].
  2: { apply room_kept. intros id Hid%Hno. revert Hid. rewrite !eq_None_not_Some, (advances_live _ _ id Ha). auto. }
  intros id. specialize (F1 id). unfold fate in *. destruct Ha as [_ Av Ai _ _ _ Ac].
  specialize (Ac id).
  assert (Hcfg : forall c c', evolves s1 c c' -> evolves s2 c c')
    by (intros; eapply evolves_config; eassumption).
  destruct (s_coordinators s !! id) as [c|] eqn:Es, (s_coordinators s1 !! id) as [c1|] eqn:Es1;
    inversion Ac as [? c2 Hev|]; subst; auto.
  - eapply evolves_trans; eauto.
  - apply Hno in Es. congruence.
Qed.

Lemma tick_step s head : step_ok s (tick s head).1.
Proof.
  unfold tick. simpl. eapply step_trans_advances; [| |apply foreclose_loop_advances].
  { intros id Hid. simpl. rewrite map_lookup_filter, lookup_fmap, Hid. reflexivity. }
  apply (drop_step _ _ (refund_if_due head)
           (fun '(_, c) => is_terminal (c_phase c) = false /\ is_stale c head = false)); try done.
  - intros; apply refund_evolves.
  - intros [_ _ T3]. apply prune_tables. simpl. intros id a H%delete_all_lookup. eauto.
Qed.

Lemma coord_op_step s id c op c' :
  s_coordinators s !! id = Some c -> apply_op c op = Ok c' -> licensed s c op ->
  step_ok s (with_coords s (<[ id := c' ]> (s_coordinators s))).
Proof.
  intros Hc Hop Hd. apply advances_step. eapply advances_coord; [exact Hc|].
  eapply evolves_op; eassumption.
Qed.

(** A [Propose] either changes nothing or opens the one slot it names. *)
Lemma on_propose_cases s env head s' r :
  on_propose s env head = (s', r) ->
  s' = s \/ (exists p c a, s_coordinators s !! e_swap_id env = None
    /\ session_len s < id_max_concurrent_swaps (s_identity s)
    /\ proposal_from_envelope env = Some p
    /\ accepts (id_rate_policy (s_identity s)) (p_give_amount p) (p_take_amount p) = true
    /\ within_caps s (p_give_amount p) (p_take_amount p) = true
    /\ recv_propose
         (new_responder
            {| cx_swap_id := e_swap_id env; cx_terms := p_terms p; cx_hashlock := p_hashlock p;
               cx_nim_address := id_nim_address (s_identity s);
               cx_btc_address := id_btc_address (s_identity s);
               cx_btc_pubkey := id_btc_pubkey (s_identity s);
               cx_give_amount := p_give_amount p; cx_take_amount := p_take_amount p;
               cx_network_id := p_network_id p; cx_term_anchor := head |} (s_ladder s))
         env head = Ok (c, a)
    /\ s' = with_coords s (<[ e_swap_id env := c ]> (s_coordinators s))).
Proof.
  unfold on_propose.
  destruct (bool_decide_reflect (is_Some (s_coordinators s !! e_swap_id env))) as [|Hn];
    [intros [= <- _]; auto|].
  destruct (session_len s >=? id_max_concurrent_swaps (s_identity s)) eqn:El;
    [intros [= <- _]; auto|].
  destruct (proposal_from_envelope env) as [p|] eqn:Ep; [|intros [= <- _]; auto].
  destruct (accepts (id_rate_policy (s_identity s)) (p_give_amount p) (p_take_amount p)) eqn:Ea;
    simpl; [|intros [= <- _]; auto].
  destruct (within_caps s (p_give_amount p) (p_take_amount p)) eqn:Ew; simpl;
    [|intros [= <- _]; auto].
  destruct (recv_propose _ env head) as [[c a]| |] eqn:Er; intros [= <- _]; auto.
  right. exists p, c, a. rewrite <- eq_None_not_Some in Hn. rewrite Z.geb_leb, Z.leb_gt in El. auto 10.
Qed.

(** What an accepted [Propose] has passed. *)
Lemma recv_propose_inv c env head c' a :
  recv_propose c env head = Ok (c', a) ->
  verify_envelope env = true /\ ladder_is_safe (assess_ladder (terms (c_swap c)) head (c_ladder c)) = true
  /\ c_role c' = c_role c /\ c_phase c' = Accepted /\ c_ctx c' = c_ctx c.
Proof.
  intros H. pose proof (apply_op_effect c (OpRecvPropose env head) c') as He. simpl in He.
  rewrite H in He. destruct (He eq_refl) as (Hv & p & s & u & _ & _ & _ & Ha & ->).
  unfold accept in Ha. split; [exact Hv|]. unfold c_role, c_phase. run Ha. simpl. auto.
Qed.

Lemma on_propose_step s env head : step_ok s (on_propose s env head).1.
Proof.
  destruct (on_propose s env head) as [s' r] eqn:E. simpl.
  apply on_propose_cases in E as [->|(p & c & a & Hn & Hlen & _ & _ & _ & Hr & ->)];
    [apply step_refl|].
  apply (birth_step _ _ (e_swap_id env) c); try done.
  exists Responder. eexists _, [], [OpRecvPropose env head]. split_and!.
  - eapply (coord_run_snoc _ [] _ _ _ (coord_run_nil _)). simpl. now rewrite Hr.
  - repeat constructor.
  - reflexivity.
  - discriminate.
  - apply recv_propose_inv in Hr as (_ & _ & -> & -> & _). reflexivity.
Qed.

Lemma on_funding_proof_step s id v :
  is_Some (s_coordinators s !! id) ->
  step_ok s (verify_counterparty_funding
               (with_seen (with_verifier s v) ({[ id ]} ∪ s_funding_proof_seen s)) id).1.
Proof.
  intros Hc. eapply step_trans_advances; [| |apply verify_advances]; [auto|].
  constructor; [repeat split | done | | |now apply room_kept].
  - intros id'. now apply fate_refl.
  - intros [T1 T2 T3]. constructor; simpl; auto.
    intros id' [->%elem_of_singleton|?]%elem_of_union; auto.
Qed.

Lemma on_message_step s kind payload head : step_ok s (on_message s kind payload head).1.
Proof.
  unfold on_message. destruct (decode_swap kind payload) as [env| |]; try apply step_refl.
  destruct kind; simpl.
  - apply on_propose_step.
  - destruct (s_coordinators s !! e_swap_id env) as [c|] eqn:Hc; [|apply step_refl].
    destruct (recv_accept c env head) as [[c' u]| |] eqn:Hr; try apply step_refl.
    apply (coord_op_step _ _ c (OpRecvAccept env head)); [exact Hc | simpl; now rewrite Hr | exact I].
  - destruct (s_coordinators s !! e_swap_id env) as [c|] eqn:Hc; [|apply step_refl].
    set (v := match e_leg env, e_tx_wire env with
              | Some leg, Some wire => note_funding_wire (s_verifier s) leg wire
              | _, _ => s_verifier s end).
    pose proof (on_funding_proof_step s (e_swap_id env) v ltac:(eauto)) as H.
    destruct (e_leg env), (e_tx_wire env); simpl in *; unfold v in H; clear v;
      try (replace (with_verifier s (s_verifier s)) with s in H by (now destruct s));
      repeat match goal with
      | |- step_ok _ (fst (let '(_, _) := ?x in _)) => destruct x
      end; exact H.
  - destruct (s_coordinators s !! e_swap_id env); apply step_refl.
  - destruct (s_coordinators s !! e_swap_id env) as [c|] eqn:Hc; [|apply step_refl].
    destruct (has_funds_locked (c_phase c)); [apply step_refl|].
    eapply forget_step; eassumption.
Qed.

Lemma initiate_step s ctx secret :
  may_initiate s ctx = true ->
  step_ok s (add_initiator s (cx_swap_id ctx) (new_initiator ctx secret (s_ladder s)).1).
Proof.
  unfold may_initiate. intros H. apply andb_prop in H as [[[H _]%andb_prop Hlen%Z.ltb_lt]%andb_prop _].
  apply negb_true_iff, bool_decide_eq_false in H. rewrite <- eq_None_not_Some in H.
  apply (birth_step _ _ (cx_swap_id ctx) (new_initiator ctx secret (s_ladder s)).1); try done.
  - simpl. set_solver.
  - exists Initiator, ctx, secret, []. split_and!; [apply coord_run_nil | constructor | reflexivity|].
    intros _. simpl. set_solver.
Qed.

Lemma retransmit_step s : step_ok s (pending_retransmits s).1.
Proof.
  apply step_frame; try done. intros id a H. simpl.
  rewrite map_lookup_filter_Some, lookup_fmap_Some. intros ((b & <- & Hb) & Hgt). simpl in *.
  specialize (H id b Hb). lia.
Qed.

Lemma step_with_seen s s1 x :
  step_ok s s1 -> x ⊆ s_funding_proof_seen s1 -> step_ok s (with_seen s1 x).
Proof.
  intros [C1 I1 F1 T1 R1] Hx. constructor; auto.
  - intros id. specialize (F1 id). unfold fate in *. simpl.
    assert (Hcfg : forall c c', evolves s1 c c' -> evolves (with_seen s1 x) c c')
      by (intros c c'; now apply evolves_config).
    destruct (s_coordinators s !! id), (s_coordinators s1 !! id); auto.
  - intros Ht%T1. destruct Ht as [H1 H2 H3]. constructor; simpl; auto.
Qed.

Lemma remove_step s id : step_ok s (session_remove s id).1.
Proof.
  constructor; [repeat split | done | | |apply room_kept; intros id'; simpl; rewrite lookup_delete_None; auto].
  - intros id'. destruct (decide (id' = id)) as [->|Hn].
    + unfold fate. simpl. rewrite lookup_delete_eq. now destruct (s_coordinators s !! id).
    + apply fate_refl. simpl. now rewrite lookup_delete_ne by congruence.
  - intros [T1 T2 T3]. constructor; simpl; [| |exact T3].
    + intros id' [H1 H2]%elem_of_difference. rewrite lookup_delete_ne by set_solver. auto.
    + intros id' H. destruct (decide (id' = id)) as [->|Hn].
      * rewrite lookup_delete_eq in H. now destruct H.
      * rewrite lookup_delete_ne in H by congruence. rewrite lookup_delete_ne by congruence. auto.
Qed.

Lemma session_apply_step s op : step_ok s (session_apply s op).
Proof.
  destruct op; simpl.
  - apply on_message_step.
  - destruct (may_initiate s ctx) eqn:E; [now apply initiate_step | apply step_refl].
  - destruct (s_coordinators s !! swap_id) as [c|] eqn:Hc; [|apply step_refl].
    destruct (driver_op c op) eqn:Hd; [|apply step_refl].
    destruct (apply_op c op) as [c'| |] eqn:Hop; try apply step_refl.
    eapply coord_op_step; [eassumption..|]. destruct op; simpl in *; try done.
    left. now apply bool_decide_eq_true in Hd.
  - unfold reverify_awaited_funding.
    pose proof (reverify_loop_advances
      (List.filter (awaits s) (elements (s_funding_proof_seen s))) s []) as Ha.
    destruct (reverify_loop s _ []) as [s1 adv]. simpl in *.
    assert (Hseen : step_ok s (with_seen s1 (filter (fun id => awaits s1 id = true) (s_funding_proof_seen s1)))).
    { apply (step_with_seen s s1); [now apply advances_step|]. intros id. rewrite elem_of_filter. tauto. }
    destruct adv; [exact Hseen..|now apply advances_step].
  - apply advances_step, confirm_loop_advances.
  - apply advances_step, confirm_claim_advances.
  - apply tick_step.
  - apply reap_step.
  - unfold cancel. destruct (s_coordinators s !! swap_id) as [c|] eqn:Hc; [|apply step_refl].
    destruct (has_funds_locked (c_phase c)); [apply step_refl|].
    eapply forget_step; eassumption.
  - apply remove_step.
  - apply step_frame; try done. intros id a H. simpl.
    destruct (decide (id = swap_id)) as [->|Hn].
    + rewrite lookup_insert_eq. intros [= <-]. simpl. unfold RETRANSMIT_TTL. lia.
    + rewrite lookup_insert_ne by congruence. apply H.
  - apply retransmit_step.
  - apply step_frame; try done. intros id a H. apply H.
  - unfold fast_due. destruct (_ || _); [|apply step_refl].
    destruct (fast_tick_due _ _). apply step_frame; try done. intros id a H. apply H.
  - apply step_frame; try done. intros id a H. apply H.
Qed.

Lemma session_new_ok i l v sg p ch src sim caps :
  session_ok (session_new i l v sg p ch src sim caps).
Proof. constructor; [|constructor]; simpl; intros id; try set_solver; rewrite lookup_empty; try discriminate; now intros [? ?]. Qed.

Lemma session_run_ok s ops s' : session_ok s -> session_run s ops s' -> session_ok s'.
Proof. intros H. induction 1; auto. eapply step_session_ok; [apply session_apply_step | auto]. Qed.

Lemma session_run_config s ops s' : session_run s ops s' ->
  same_config s s' /\ s_initiated_ever s ⊆ s_initiated_ever s'.
Proof.
  induction 1 as [s|s ops s1 op _ [IC II]]; [split; [apply same_config_refl | done]|].
  destruct (session_apply_step s1 op) as [C1 I1 _ _ _].
  split; [eapply same_config_trans; eassumption | set_solver].
Qed.

(** A session never holds more swaps than its maximum, or than it started with. *)
Lemma session_run_room s ops s' : session_run s ops s' ->
  session_len s' <= Z.max (session_len s) (id_max_concurrent_swaps (s_identity s)).
Proof.
  induction 1 as [s|s ops s1 op H IH]; [lia|]. pose proof (st_room _ _ (session_apply_step s1 op)) as Hr.
  destruct (session_run_config _ _ _ H) as [(_ & _ & _ & _ & ->) _] in Hr. lia.
Qed.

Lemma evolves_static s c c' : evolves s c c' -> c_role c' = c_role c /\ c_ctx c' = c_ctx c.
Proof.
  intros (ops & Hr & _)%evolves_run. split; [eapply coord_run_role; eassumption|].
  now apply coord_run_run in Hr as (_ & ? & _).
Qed.

Lemma evolves_saw s c c' :
  evolves s c c' -> saw_funding (c_role c') (c_phase c') = true ->
  saw_funding (c_role c) (c_phase c) = true
  \/ exists d, require_funded (observe (s_verifier s) (counterparty_expectation c'))
                 (counterparty_expectation c') (depth_of s (c_role c')) = Ok d.
Proof.
  induction 1 as [|c1 op c2 Hev IH Hl Hop]; intros Hs; [auto|].
  destruct (evolves_static _ _ _ (evolves_op _ _ _ _ Hop Hl)) as [Hr Hx].
  rewrite (expectation_static c1 c2), Hr by assumption.
  destruct (apply_op_saw _ _ _ Hop Hs) as [H|(v & n & d & -> & Hd)]; [exact (IH H)|].
  right. destruct Hl as [-> ->]. eauto.
Qed.

(** Nothing happens to a settled coordinator. *)
Lemma settled_final c op s c' :
  licensed s c op -> apply_op c op = Ok c' -> c_phase c <> Settled.
Proof.
  intros Hl H%apply_op_effect Hp. unfold c_phase in Hp.
  destruct op; simpl in H, Hl;
    try (unfold has_claim, c_phase in Hl; rewrite Hp in Hl; now rewrite andb_false_r in Hl);
    repeat match goal with
    | H : exists _, _ |- _ => destruct H | H : _ /\ _ |- _ => destruct H end;
    try (destruct (role (c_swap c)));
    swap_table; rewrite ?Hp in *; simpl in *; congruence.
Qed.

Lemma evolves_settled s c c' :
  evolves s c c' -> c_role c = Responder -> c_phase c <> Settled -> c_phase c' = Settled ->
  exists tx n, c_claim_tx c' = Some tx /\ observe_claim (s_verifier s) LegNim tx = Included n
    /\ required_for_leg (s_confirm_policy s) LegNim (s_counterparty_chain s) <= n.
Proof.
  induction 1 as [|c1 op c2 Hev IH Hl Hop]; intros Hr Hn Hs; [congruence|].
  destruct (evolves_static _ _ _ Hev) as [Hr1 _]. rewrite Hr in Hr1.
  pose proof (settled_final _ _ _ _ Hl Hop) as Hn1. apply apply_op_effect in Hop.
  unfold c_phase, c_role in *.
  destruct op; simpl in Hop, Hl;
    repeat match goal with
    | H : exists _, _ |- _ => destruct H | H : _ /\ _ |- _ => destruct H end;
    rewrite ?Hr1 in *; subst; simpl in *;
    repeat match goal with
    | H : exists _, _ |- _ => destruct H | H : _ /\ _ |- _ => destruct H end; subst;
    swap_table; simpl in *; try congruence.
  destruct Hl as [?|Hl]; [unfold c_role in *; congruence | exact Hl].
Qed.

Lemma refund_inv c head c' u :
  coord_refund_after_timeout c head = Ok (c', u) ->
  own_timeout (c_swap c) < head /\ c_phase c' = Refunded.
Proof.
  intros H. pose proof (apply_op_effect (V:=V) c (OpRefund head) c') as He. simpl in He.
  rewrite H in He. destruct (He eq_refl) as (s & a & Hr & ->). unfold c_phase. simpl.
  swap_table; auto.
Qed.

Lemma funds_not_terminal p : has_funds_locked p = true -> is_terminal p = false.
Proof. now destruct p. Qed.

(** An operation other than a tick and the removal keeps a coordinator that has funds locked. *)
Lemma session_apply_keeps s op id c :
  s_coordinators s !! id = Some c -> has_funds_locked (c_phase c) = true ->
  (forall head, op <> SoTick head) -> op <> SoRemove id -> is_Some (s_coordinators (session_apply s op) !! id).
Proof.
  intros Hc Hf Ht Hrm.
  assert (Hins : forall id' c', is_Some (<[ id' := c' ]> (s_coordinators s) !! id)).
  { intros id' c'. destruct (decide (id' = id)) as [->|]; [rewrite lookup_insert_eq; eauto|].
    rewrite lookup_insert_ne, Hc by congruence. eauto. }
  assert (Hforget : forall id' c', s_coordinators s !! id' = Some c' ->
            has_funds_locked (c_phase c') = false -> is_Some (s_coordinators (forget_swap s id') !! id)).
  { intros id' c' H1 H2. simpl. rewrite lookup_delete_ne by congruence. eauto. }
  destruct op; simpl; eauto.
  - unfold on_message. destruct (decode_swap kind payload) as [env| |]; simpl; eauto.
    destruct kind; simpl; eauto.
    + destruct (on_propose s env head) as [s' r] eqn:E.
      apply on_propose_cases in E as [->|(p & c' & a & _ & _ & _ & _ & _ & _ & ->)]; simpl; eauto.
    + destruct (s_coordinators s !! e_swap_id env) as [c'|] eqn:Hc'; simpl; eauto.
      destruct (recv_accept c' env head) as [[c2 u]| |]; simpl; eauto.
    + destruct (s_coordinators s !! e_swap_id env) as [c'|] eqn:Hc'; simpl; eauto.
      set (s1 := with_seen _ _).
      pose proof (advances_live _ _ id (verify_advances s1 (e_swap_id env))) as Hl.
      destruct (verify_counterparty_funding s1 (e_swap_id env)). simpl in *. apply Hl.
      subst s1. destruct (e_leg env), (e_tx_wire env); simpl; eauto.
    + destruct (s_coordinators s !! e_swap_id env); simpl; eauto.
    + destruct (s_coordinators s !! e_swap_id env) as [c'|] eqn:Hc'; simpl; eauto.
      destruct (has_funds_locked (c_phase c')) eqn:Hf'; simpl; eauto. now apply (Hforget _ c').
  - destruct (may_initiate s ctx); simpl; eauto.
  - destruct (s_coordinators s !! swap_id) as [c'|]; simpl; eauto.
    destruct (driver_op c' op); simpl; eauto. destruct (apply_op c' op); simpl; eauto.
  - unfold reverify_awaited_funding.
    pose proof (advances_live _ _ id (reverify_loop_advances
      (List.filter (awaits s) (elements (s_funding_proof_seen s))) s [])) as Hl.
    destruct (reverify_loop s _ []) as [s1 []]; simpl in *; apply Hl; eauto.
  - apply (advances_live s _ id (confirm_loop_advances _ _)). eauto.
  - apply (advances_live s _ id (confirm_claim_advances _ _)). eauto.
  - now destruct (Ht head).
  - rewrite map_lookup_filter, Hc. simpl. rewrite option_guard_True; [eauto|].
    now apply funds_not_terminal.
  - unfold cancel. destruct (s_coordinators s !! swap_id) as [c'|] eqn:Hc'; simpl; eauto.
    destruct (has_funds_locked (c_phase c')) eqn:Hf'; simpl; eauto. now apply (Hforget _ c').
  - rewrite lookup_delete_ne by congruence. eauto.
  - unfold fast_due. destruct (_ || _); [|eauto]. destruct (fast_tick_due _ _). eauto.
Qed.

(** The ids a run originates a swap for, first to last. *)
Fixpoint initiations (s : SwapSession) (ops : list SessionOp) : list (list Z) :=
  match ops with
  | [] => []
  | op :: ops =>
      match op with
      | SoInitiate ctx _ => if may_initiate s ctx then [cx_swap_id ctx] else []
      | _ => []
      end ++ initiations (session_apply s op) ops
  end.

Lemma initiations_fresh ops : forall s id, id ∈ initiations s ops -> id ∉ s_initiated_ever s.
Proof.
  induction ops as [|op ops IH]; intros s id; simpl; [now intros ?%elem_of_nil|].
  intros [Hi|Hi]%elem_of_app.
  - destruct op; try now apply elem_of_nil in Hi.
    destruct (may_initiate s ctx) eqn:E; [|now apply elem_of_nil in Hi].
    apply list_elem_of_singleton in Hi as ->. unfold may_initiate, has_initiated in E.
    rewrite !andb_true_iff, !negb_true_iff, !bool_decide_eq_false in E. tauto.
  - apply IH in Hi. destruct (session_apply_step s op) as [_ I _ _]. set_solver.
Qed.

Lemma session_new_empty i l v sg p ch src sim caps id c :
  s_coordinators (session_new i l v sg p ch src sim caps) !! id = Some c ->
  saw_funding (c_role c) (c_phase c) = false.
Proof. simpl. rewrite lookup_empty. discriminate. Qed.

(** A coordinator past its funding gate was past it at the start of the run, or
    got there by a verification of the session in some state of the run. *)
Lemma session_run_gate s0 ops s :
  session_run s0 ops s ->
  forall id c, s_coordinators s !! id = Some c -> saw_funding (c_role c) (c_phase c) = true ->
  (exists c0, s_coordinators s0 !! id = Some c0 /\ saw_funding (c_role c0) (c_phase c0) = true
     /\ c_role c = c_role c0 /\ c_ctx c = c_ctx c0)
  \/ exists ops1 ops2 s1 d, ops = ops1 ++ ops2 /\ session_run s0 ops1 s1
    /\ require_funded (observe (s_verifier s1) (counterparty_expectation c))
         (counterparty_expectation c) (depth_of s1 (c_role c)) = Ok d.
Proof.
  induction 1 as [s0|s0 ops s1 op Hrun IH]; intros id c Hc Hs; [left; eauto 6|].
  destruct (session_apply_step s1 op) as [_ _ F _]. specialize (F id).
  unfold fate in F. rewrite Hc in F.
  destruct (s_coordinators s1 !! id) as [c1|] eqn:Hc1; [|destruct F; congruence].
  destruct (evolves_static _ _ _ F) as [Hr Hx].
  destruct (evolves_saw _ _ _ F Hs) as [Hs1|(d & Hd)].
  - destruct (IH id c1 Hc1 Hs1) as [(c0 & H0 & Hs0 & Hr0 & Hx0)|(o1 & o2 & s2 & d & -> & Hrun2 & Hd)].
    + left. exists c0. split_and!; congruence.
    + right. exists o1, (o2 ++ [op]), s2, d. rewrite app_assoc. split_and!; auto.
      now rewrite (expectation_static c1 c), Hr by assumption.
  - right. exists (ops ++ [op]), [], (session_apply s1 op), d. rewrite app_nil_r. split_and!; auto.
    now constructor.
Qed.

Lemma session_run_saw s0 ops s :
  session_run s0 ops s ->
  (forall id c, s_coordinators s0 !! id = Some c -> saw_funding (c_role c) (c_phase c) = false) ->
  forall id c, s_coordinators s !! id = Some c -> saw_funding (c_role c) (c_phase c) = true ->
  exists ops1 ops2 s1 d, ops = ops1 ++ ops2 /\ session_run s0 ops1 s1
    /\ require_funded (observe (s_verifier s1) (counterparty_expectation c))
         (counterparty_expectation c) (depth_of s1 (c_role c)) = Ok d.
Proof.
  intros Hrun H0 id c Hc Hs. destruct (session_run_gate _ _ _ Hrun id c Hc Hs) as [(c0 & H1 & H2 & _)|H]; [|exact H].
  rewrite (H0 id c0 H1) in H2. discriminate.
Qed.

(** ** Panics *)

(** No operation of a coordinator panics, whatever its state. *)
Lemma apply_op_total c (op : @CoordOp V) : apply_op c op <> Panic.
Proof.
  destruct op; simpl; unfold drop_out, recv_propose, recv_accept, coord_fund, verify_and_observe_funding, claim_and_reveal, recv_reveal,
    settle, forfeit_expired_claim, coord_refund_after_timeout, on_swap, map_err, ok_or, require_funded, accept, fund, observe_counterparty_funded,
    observe_initiator_funded, reveal_and_claim, observe_secret, observe_settled, forfeit_claim, refund_after_timeout;
    repeat (case_match; try discriminate); discriminate.
Qed.

Lemma coord_total {A} c (op : @CoordOp V) (r : res CoordError (SwapCoordinator * A)) : apply_op c op = drop_out r -> r <> Panic.
Proof. intros E ->. now apply (apply_op_total c op). Qed.

Lemma verify_total s id : is_Some (s_coordinators s !! id) -> (verify_counterparty_funding s id).2 <> Panic.
Proof.
  intros [c Hc]. unfold verify_counterparty_funding. rewrite Hc. simpl.
  match goal with |- context [verify_and_observe_funding c ?v ?n] => pose proof (coord_total c (OpVerify v n) _ eq_refl) as Hv;
    destruct (verify_and_observe_funding c v n) as [[]| |] end; [discriminate..|now destruct Hv].
Qed.

Lemma encode_swap_total env : encode_swap env <> Panic.
Proof. rewrite encode_swap_items. apply push_items_no_panic. Qed.

Lemma on_propose_total s env head : (on_propose s env head).2 <> Panic.
Proof.
  unfold on_propose. do 2 (case_match; [discriminate|]). case_match; [|discriminate]. do 2 (case_match; [discriminate|]).
  match goal with |- context [recv_propose ?c env head] => pose proof (coord_total c (OpRecvPropose env head) _ eq_refl) as Hv;
    destruct (recv_propose c env head) as [[c' a]| |] end; [|discriminate|now destruct Hv].
  simpl. pose proof (encode_swap_total a). destruct (encode_swap a); [discriminate..|congruence].
Qed.

(** No message panics the session. *)
Lemma on_message_total s kind payload head : bytes_ok payload -> (on_message s kind payload head).2 <> Panic.
Proof.
  intros Hb. unfold on_message. pose proof (decode_swap_no_panic kind payload Hb). destruct (decode_swap kind payload) as [env| |]; [|discriminate|congruence].
  destruct kind.
  - apply on_propose_total.
  - destruct (s_coordinators s !! e_swap_id env) as [c|]; [|discriminate].
    pose proof (coord_total c (OpRecvAccept env head) _ eq_refl) as Hv. destruct (recv_accept c env head) as [[]| |]; [discriminate..|now destruct Hv].
  - destruct (s_coordinators s !! e_swap_id env) as [c|] eqn:Hc; [|discriminate].
    set (s1 := with_seen _ _). assert (Hs1 : is_Some (s_coordinators s1 !! e_swap_id env)) by (subst s1; destruct (e_leg env), (e_tx_wire env); simpl; eauto).
    pose proof (verify_total s1 _ Hs1) as Hv. destruct (verify_counterparty_funding s1 (e_swap_id env)) as [s2 [|e|]]; [discriminate..|now destruct Hv].
  - destruct (s_coordinators s !! e_swap_id env); discriminate.
  - destruct (s_coordinators s !! e_swap_id env); [|discriminate]. destruct (negb _); discriminate.
Qed.

Lemma reverify_loop_total ids : forall s acc, Forall (fun id => is_Some (s_coordinators s !! id)) ids -> (reverify_loop s ids acc).2 <> Panic.
Proof.
  induction ids as [|id ids IH]; intros s acc Hids; simpl; [discriminate|]. apply Forall_cons in Hids as [Hid Hids].
  pose proof (verify_total s id Hid) as Hv. pose proof (fun i => advances_live _ _ i (verify_advances s id)) as Hl.
  destruct (verify_counterparty_funding s id) as [s1 [u|e|]]; [| |now destruct Hv];
    (apply IH; eapply Forall_impl; [exact Hids|]; intros i Hi; now apply Hl).
Qed.

Lemma reverify_total s : (reverify_awaited_funding s).2 <> Panic.
Proof.
  unfold reverify_awaited_funding.
  pose proof (reverify_loop_total (List.filter (awaits s) (elements (s_funding_proof_seen s))) s []) as H.
  destruct (reverify_loop s _ []) as [s1 []]; [discriminate..|]. exfalso. apply H; [|reflexivity].
  apply List.Forall_forall. intros id [_ Hw]%filter_In. unfold awaits in Hw. destruct (s_coordinators s !! id); [eauto|discriminate].
Qed.

(** ** Properties *)

(** C23: the session keeps every swap it runs correct.  In every session
    reachable from a new one, by any sequence of incoming messages (hostile
    ones included), originations, driver actions, re-verifications, claim
    confirmations, ticks, reaps, cancellations, removals and changes of the chain: each
    coordinator is stored under its own swap id, its machine has made a run of
    the swap machine from the proposed phase under the session's ladder, it
    satisfies the coordinator invariant, and if it is an initiator its id is
    tombstoned; the re-verify set and the verify notes mention live swaps only;
    and every buffered action has a retransmit budget between 1 and 32, so that
    the [u8] decrement of the maintenance tick never underflows. *)
Theorem session_invariant (i : NodeIdentity) (l : LadderParams) (v : V) (sg : option EnclaveKey)
    (p : ConfirmationPolicy) (ch : Asset) (src : bytes -> bytes) (sim : bool)
    (caps : option SwapCaps) (ops : list SessionOp) (s : SwapSession)
    (Hrun : session_run (session_new i l v sg p ch src sim caps) ops s) :
  (forall id c, s_coordinators s !! id = Some c ->
     cx_swap_id (c_ctx c) = id /\ coord_ok c
     /\ (exists tr, run l (swap_new (c_role c) (cx_terms (c_ctx c))) tr (c_swap c))
     /\ (c_role c = Initiator -> id ∈ s_initiated_ever s))
  /\ (forall id, id ∈ s_funding_proof_seen s \/ is_Some (s_verify_notes s !! id) ->
        is_Some (s_coordinators s !! id))
  /\ (forall id a, s_pending s !! id = Some a -> 1 <= pa_ttl a <= 32).
Proof.
  destruct (session_run_ok _ _ _ (session_new_ok _ _ _ _ _ _ _ _ _) Hrun) as [Hb [T1 T2 T3]].
  destruct (session_run_config _ _ _ Hrun) as [(Hl & _) _]. simpl in Hl.
  split_and!; [|intros id [?|?]; auto | exact T3].
  intros id c (r & ctx & sec & cops & Hr & _ & Hid & Hin)%Hb. rewrite Hl in Hr.
  pose proof (coord_run_run _ _ _ Hr) as ((tr & Htr) & Hx & _).
  pose proof (coord_run_role _ _ _ Hr) as Hrole.
  assert (Hok : coord_ok c).
  { eapply coord_run_ok; [|exact Hr]. destruct r; [apply new_initiator_ok | apply new_responder_ok]. }
  destruct r; simpl in *; rewrite Hx, Hrole; eauto 10.
Qed.

(** C4: the node never treats the other leg as funded on a message alone.  In
    every reachable session, if a responder's coordinator is past [Accepted]
    (it may fund, or has) or an initiator's is at [BothFunded] or later (it may
    reveal the secret), then at some earlier point of the run the session's own
    verifier observed on chain an HTLC on the counterparty's leg, under the
    agreed hashlock and paying this node, with at least the agreed amount and
    timeout, and at least as deep as the session's confirmation policy demands
    for that leg. *)
Theorem session_funding_gate (i : NodeIdentity) (l : LadderParams) (v : V)
    (sg : option EnclaveKey) (p : ConfirmationPolicy) (ch : Asset) (src : bytes -> bytes)
    (sim : bool) (caps : option SwapCaps) (ops : list SessionOp) (s : SwapSession) (id : bytes)
    (c : SwapCoordinator)
    (Hrun : session_run (session_new i l v sg p ch src sim caps) ops s)
    (Hc : s_coordinators s !! id = Some c)
    (Hs : saw_funding (c_role c) (c_phase c) = true) :
  exists ops1 ops2 s1 a t d, ops = ops1 ++ ops2
    /\ session_run (session_new i l v sg p ch src sim caps) ops1 s1
    /\ observe (s_verifier s1) (counterparty_expectation c) = Found a t d
    /\ x_min_amount (counterparty_expectation c) <= a
    /\ x_min_timeout (counterparty_expectation c) <= t
    /\ required_for_leg p (x_leg (counterparty_expectation c)) ch <= d.
Proof.
  destruct (session_run_saw _ _ _ Hrun (session_new_empty _ _ _ _ _ _ _ _ _) id c Hc Hs)
    as (o1 & o2 & s1 & d & -> & Hrun1 & (a & t & Ho & Ha & Ht & Hd)%require_funded_iff).
  exists o1, o2, s1, a, t, d. split_and!; auto.
  destruct (session_run_config _ _ _ Hrun1) as [(_ & Hp & Hch & _) _]. simpl in Hp, Hch.
  revert Hd. unfold depth_of. now rewrite Hp, Hch, verify_depth.
Qed.


(** A swap secret is issued at most once.  Over any sequence of operations,
    from any session, the swap ids for which this node originates a swap are
    pairwise different and were never originated before: the tombstone set only
    grows, and it outlives the coordinators. *)
Theorem secret_issued_once (s : SwapSession) (ops : list SessionOp) :
  NoDup (initiations s ops) /\ (forall id, id ∈ initiations s ops -> id ∉ s_initiated_ever s).
Proof.
  split; [|apply initiations_fresh]. revert s.
  induction ops as [|op ops IH]; intros s; simpl; [constructor|].
  destruct op; simpl; try apply IH.
  destruct (may_initiate s ctx) eqn:E; simpl; [|apply IH].
  constructor; [|apply IH]. intros Hin%initiations_fresh. apply Hin. simpl. set_solver.
Qed.

(** The gates on an incoming [Propose].  A [Propose], however formed,
    either leaves the whole session as it was or opens exactly one slot: one
    that was empty, for a decoded and complete proposal whose terms are signed
    by the key its NIM address is derived from, while fewer than the configured
    number of swaps are in flight, at an acceptable rate, within the hard caps,
    under a safe timeout ladder at the current head; and the new coordinator is
    a responder that has accepted exactly these terms and has nothing funded. *)
Theorem propose_gate (s s' : SwapSession) (payload : bytes) (head : Z)
    (r : res SessionError (list (MessageType * bytes)))
    (H : on_message s Propose payload head = (s', r)) :
  s' = s \/ exists env p c, decode_swap Propose payload = Ok env
    /\ proposal_from_envelope env = Some p /\ verify_envelope env = true
    /\ s_coordinators s !! e_swap_id env = None
    /\ session_len s < id_max_concurrent_swaps (s_identity s)
    /\ accepts (id_rate_policy (s_identity s)) (p_give_amount p) (p_take_amount p) = true
    /\ within_caps s (p_give_amount p) (p_take_amount p) = true
    /\ ladder_is_safe (assess_ladder (p_terms p) head (s_ladder s)) = true
    /\ s' = with_coords s (<[ e_swap_id env := c ]> (s_coordinators s))
    /\ session_len s' <= id_max_concurrent_swaps (s_identity s')
    /\ c_role c = Responder /\ c_phase c = Accepted
    /\ cx_terms (c_ctx c) = p_terms p /\ cx_hashlock (c_ctx c) = p_hashlock p
    /\ cx_give_amount (c_ctx c) = p_give_amount p /\ cx_take_amount (c_ctx c) = p_take_amount p
    /\ cx_term_anchor (c_ctx c) = head.
Proof.
  unfold on_message in H. destruct (decode_swap Propose payload) as [env| |] eqn:Ed;
    try (injection H as <- _; auto).
  apply on_propose_cases in H as [->|(p & c & a & Hn & Hl & Hp & Ha & Hw & Hr & ->)]; [auto|].
  right. exists env, p, c. apply recv_propose_inv in Hr as (Hv & Hs & Hrole & Hph & Hx).
  rewrite Hx, Hrole. split_and!; auto. revert Hl. unfold session_len. simpl.
  rewrite map_size_insert_None by assumption. lia.
Qed.

(** C25: a responder's swap settles only on a buried claim.  If one operation of
    the session takes a responder's coordinator into [Settled], then a claim
    transaction had been recorded for it and the session's verifier sees that
    very transaction included on the NIM chain at least as deep as the
    confirmation policy demands. *)
Theorem responder_settles_confirmed (s : SwapSession) (op : SessionOp) (id : bytes)
    (c c' : SwapCoordinator)
    (Hc : s_coordinators s !! id = Some c) (Hr : c_role c = Responder)
    (Hn : c_phase c <> Settled)
    (Hc' : s_coordinators (session_apply s op) !! id = Some c') (Hs : c_phase c' = Settled) :
  exists tx n, c_claim_tx c' = Some tx
    /\ observe_claim (s_verifier (session_apply s op)) LegNim tx = Included n
    /\ cp_nim (s_confirm_policy s) <= n.
Proof.
  destruct (session_apply_step s op) as [(_ & Hp & _) _ F _]. specialize (F id).
  unfold fate in F. rewrite Hc, Hc' in F.
  destruct (evolves_settled _ _ _ F Hr Hn Hs) as (tx & n & H1 & H2 & H3).
  exists tx, n. simpl in H3. rewrite Hp in H3. auto.
Qed.
End session.

(** A responder node taking a swap through to settlement over the ledger verifier. *)
Definition sample_identity : NodeIdentity :=
  mkIdentity (replicate 20 4) [98] (replicate 33 3) accept_all 16 None.

Definition sample_session : @SwapSession LedgerVerifier :=
  session_new sample_identity ladder_default sample_chain None testnet_defaults ABtc
    (fun _ => replicate 32 7) false None.

Definition sample_bytes (e : SwapEnvelope) : bytes :=
  match encode_swap e with Ok b => b | _ => [] end.

Definition sample_id : bytes := replicate 16 1.

Definition sample_proof : SwapEnvelope := tx_envelope sample_id LegNim [1] (replicate 32 5).

Definition sample_sops : list (@SessionOp LedgerVerifier) :=
  [SoMessage Propose (sample_bytes sample_propose) 100;
   SoMessage FundingProof (sample_bytes sample_proof) 110;
   SoDrive sample_id (OpFund 120 [1] (replicate 32 0));
   SoDrive sample_id (OpRecvReveal sample_propose (replicate 32 7));
   SoDrive sample_id (OpNoteClaim (replicate 32 8));
   SoChain (include_claim sample_chain (replicate 32 8) 5)].

Definition session_exec {V} `{FundingVerifier V} (s : @SwapSession V) (ops : list SessionOp)
  : SwapSession := foldl session_apply s ops.

Lemma session_exec_run {V} `{FundingVerifier V} (s : @SwapSession V) ops :
  session_run s ops (session_exec s ops).
Proof.
  induction ops as [|op ops IH] using rev_ind; [constructor|].
  unfold session_exec in *. rewrite foldl_app. simpl. now constructor.
Qed.

Definition sample_before : @SwapSession LedgerVerifier := session_exec sample_session sample_sops.

Definition sample_coord (p : SwapPhase) : SwapCoordinator :=
  mkCoordinator (mkSwap Responder (mkTerms 10000 5000) p)
    (mkContext sample_id (mkTerms 10000 5000) (sha256 (replicate 32 7)) (replicate 20 4)
       [98] (replicate 33 3) 1000 50 5 100)
    (Some (replicate 32 7)) (Some (replicate 33 3)) ladder_default (Some (replicate 32 8)).

Lemma sample_before_coord : s_coordinators sample_before !! sample_id = Some (sample_coord Revealed).
Proof. vm_compute. reflexivity. Qed.

Lemma session_invariant_witness : coord_ok (sample_coord Revealed).
Proof.
  pose proof (session_invariant _ _ _ _ _ _ _ _ _ sample_sops sample_before
                (session_exec_run sample_session sample_sops)) as (H & _).
  exact (proj1 (proj2 (H _ _ sample_before_coord))).
Defined.

Lemma session_funding_gate_witness :
  exists (s1 : @SwapSession LedgerVerifier) a t d,
    observe (s_verifier s1) (counterparty_expectation (sample_coord Revealed)) = Found a t d
    /\ 1000 <= a /\ 2 <= d.
Proof.
  destruct (session_funding_gate _ _ _ _ _ _ _ _ _ sample_sops sample_before sample_id
    (sample_coord Revealed) (session_exec_run sample_session sample_sops) sample_before_coord eq_refl)
    as (_ & _ & s1 & a & t & d & _ & _ & Ho & Ha & _ & Hd).
  exists s1, a, t, d. split; [exact Ho|]. split; [exact Ha | exact Hd].
Defined.


Lemma propose_gate_witness :
  s_coordinators (on_message sample_session Propose (sample_bytes sample_propose) 100).1
    !! sample_id <> None
  /\ session_len (on_message sample_session Propose (sample_bytes sample_propose) 100).1 <= 16.
Proof.
  split; [vm_compute; discriminate|].
  destruct (propose_gate sample_session
    (on_message sample_session Propose (sample_bytes sample_propose) 100).1
    (sample_bytes sample_propose) 100
    (on_message sample_session Propose (sample_bytes sample_propose) 100).2)
    as [->|(env & p & c & _ & _ & _ & _ & _ & _ & _ & _ & _ & Hl & _)].
  - apply surjective_pairing.
  - vm_compute. discriminate.
  - replace 16 with (id_max_concurrent_swaps (s_identity
      (on_message sample_session Propose (sample_bytes sample_propose) 100).1))
      by (vm_compute; reflexivity).
    exact Hl.
Defined.

Lemma responder_settles_confirmed_witness :
  exists tx n, c_claim_tx (sample_coord Settled) = Some tx /\ 2 <= n.
Proof.
  destruct (responder_settles_confirmed sample_before SoConfirm sample_id
    (sample_coord Revealed) (sample_coord Settled) sample_before_coord eq_refl
    ltac:(discriminate) ltac:(vm_compute; reflexivity) eq_refl) as (tx & n & H1 & _ & H3).
  exact (ex_intro _ tx (ex_intro _ n (conj H1 H3))).
Defined.
