(* ===== verification/SwapRecovery.v ===== *)
(** * SwapRecovery: crash recovery of in-flight swaps ([swap_recovery.rs])

    The recovery blob has three sections: the coordinator records, the
    tombstones of every swap this node ever initiated, and the pending claims.
    The reader of the source is a buffer and a position; here they are the
    arguments [b] and [pos] of the decoding functions. *)

From stdpp Require Import base list gmap sorting.
From Stdlib Require Import ZArith Lia.
From S2P Require Import Prelude Packet Reader SwapWire Swap Crypto SwapIntent FundingVerify.
From S2P Require Import SwapMessages SwapCoordinator SwapSession.
Open Scope Z_scope.

Inductive SnapshotError : Type := Truncated | Malformed.

Definition role_tag (r : SwapRole) : Z := match r with Initiator => 0 | Responder => 1 end.

Definition role_from_tag (t : Z) : res SnapshotError SwapRole :=
  match t with 0 => Ok Initiator | 1 => Ok Responder | _ => Err Malformed end.

Definition phase_tag (p : SwapPhase) : Z :=
  match p with
  | Proposed => 0 | Accepted => 1 | InitiatorFunded => 2 | SelfFunded => 3 | BothFunded => 4
  | Revealed => 5 | Settled => 6 | Aborted => 7 | Refunded => 8 | Lost => 9
  end.

Definition phase_from_tag (t : Z) : res SnapshotError SwapPhase :=
  match t with
  | 0 => Ok Proposed | 1 => Ok Accepted | 2 => Ok InitiatorFunded | 3 => Ok SelfFunded
  | 4 => Ok BothFunded | 5 => Ok Revealed | 6 => Ok Settled | 7 => Ok Aborted
  | 8 => Ok Refunded | 9 => Ok Lost | _ => Err Malformed
  end.

(** A flag byte and the value behind it. *)
Definition opt_bytes (o : option bytes) : bytes :=
  match o with Some v => 1 :: v | None => [0] end.

(** The record of one coordinator, a turn of the loop of [encode_snapshot]. *)
Definition encode_record (s : CoordinatorSnapshot) : bytes :=
  [role_tag (sn_role s); phase_tag (sn_phase s)]
  ++ cx_swap_id (sn_ctx s)
  ++ be_bytes 8 (nim_timeout (cx_terms (sn_ctx s)))
  ++ be_bytes 8 (counterparty_timeout (cx_terms (sn_ctx s)))
  ++ cx_hashlock (sn_ctx s)
  ++ cx_nim_address (sn_ctx s)
  ++ cx_btc_pubkey (sn_ctx s)
  ++ be_bytes 8 (cx_give_amount (sn_ctx s))
  ++ be_bytes 8 (cx_take_amount (sn_ctx s))
  ++ be_bytes 8 (cx_term_anchor (sn_ctx s))
  ++ [cx_network_id (sn_ctx s)]
  ++ be_bytes 2 (wrapN 16 (len (cx_btc_address (sn_ctx s))))
  ++ cx_btc_address (sn_ctx s)
  ++ opt_bytes (sn_secret s)
  ++ opt_bytes (sn_peer_btc_pubkey s).

Definition encode_snapshot (snaps : list CoordinatorSnapshot) : bytes :=
  be_bytes 2 (wrapN 16 (len snaps)) ++ concat (map encode_record snaps).

(** [if r.u8()? == 1 { Some(r.arr::<n>()?) } else { None }] *)
Definition decode_opt (b : bytes) (pos : Z) (n : nat)
  : res SnapshotError (option bytes * Z) :=
  let? (flag, pos) := take_byte Truncated b pos in
  if flag =? 1 then
    let? (v, pos) := take_array Truncated b pos n in Ok (Some v, pos)
  else Ok (None, pos).

Definition decode_one (b : bytes) (pos : Z) : res SnapshotError (CoordinatorSnapshot * Z) :=
  let? (rt, pos) := take_byte Truncated b pos in
  let? role := role_from_tag rt in
  let? (pt, pos) := take_byte Truncated b pos in
  let? phase := phase_from_tag pt in
  let? (swap_id, pos) := take_array Truncated b pos 16 in
  let? (nim_timeout, pos) := take_be Truncated b pos 8 in
  let? (counterparty_timeout, pos) := take_be Truncated b pos 8 in
  let? (hashlock, pos) := take_array Truncated b pos 32 in
  let? (nim_address, pos) := take_array Truncated b pos 20 in
  let? (btc_pubkey, pos) := take_array Truncated b pos 33 in
  let? (give_amount, pos) := take_be Truncated b pos 8 in
  let? (take_amount, pos) := take_be Truncated b pos 8 in
  let? (term_anchor, pos) := take_be Truncated b pos 8 in
  let? (network_id, pos) := take_byte Truncated b pos in
  let? (addr_len, pos) := take_be Truncated b pos 2 in
  let? (btc_address, pos) := take_vec Truncated b pos addr_len in
  let? (secret, pos) := decode_opt b pos 32 in
  let? (peer_btc_pubkey, pos) := decode_opt b pos 33 in
  Ok (mkSnapshot role phase
        (mkContext swap_id (mkTerms nim_timeout counterparty_timeout) hashlock nim_address
           btc_address btc_pubkey give_amount take_amount network_id term_anchor)
        secret peer_btc_pubkey None, pos).

(** [for _ in 0..count { out.push(item(&mut r)?) }] *)
Fixpoint decode_many {A} (item : bytes -> Z -> res SnapshotError (A * Z)) (b : bytes)
    (count : nat) (pos : Z) : res SnapshotError (list A * Z) :=
  match count with
  | O => Ok ([], pos)
  | S count =>
      let? (x, pos) := item b pos in
      let? (xs, pos) := decode_many item b count pos in
      Ok (x :: xs, pos)
  end.

Definition decode_id (b : bytes) (pos : Z) : res SnapshotError (bytes * Z) :=
  take_array Truncated b pos 16.

Definition decode_claim (b : bytes) (pos : Z) : res SnapshotError ((bytes * bytes) * Z) :=
  let? (id, pos) := take_array Truncated b pos 16 in
  let? (tx, pos) := take_array Truncated b pos 32 in
  Ok ((id, tx), pos).

(** An optional trailer: absent if nothing is left. *)
Definition decode_trailer {A} (item : bytes -> Z -> res SnapshotError (A * Z)) (b : bytes)
    (pos : Z) : res SnapshotError (list A * Z) :=
  if sat_sub (len b) pos >? 0 then
    let? (count, pos) := take_be Truncated b pos 2 in
    decode_many item b (Z.to_nat count) pos
  else Ok ([], pos).

Definition decode_snapshot_full (b : bytes)
  : res SnapshotError (list CoordinatorSnapshot * list bytes * list (bytes * bytes)) :=
  let? (count, pos) := take_be Truncated b 0 2 in
  let? (out, pos) := decode_many decode_one b (Z.to_nat count) pos in
  let? (tombstones, pos) := decode_trailer decode_id b pos in
  let? (claims, pos) := decode_trailer decode_claim b pos in
  Ok (out, tombstones, claims).

Definition decode_snapshot_with_tombstones (b : bytes)
  : res SnapshotError (list CoordinatorSnapshot * list bytes) :=
  let? (snaps, tombs, _) := decode_snapshot_full b in Ok (snaps, tombs).

Definition decode_snapshot (b : bytes) : res SnapshotError (list CoordinatorSnapshot) :=
  let? (snaps, _) := decode_snapshot_with_tombstones b in Ok snaps.

(** The order of byte arrays, lexicographic. *)
Fixpoint bytes_leb (a b : bytes) : bool :=
  match a, b with
  | [], _ => true
  | _ :: _, [] => false
  | x :: a, y :: b => (x <? y) || ((x =? y) && bytes_leb a b)
  end.

Definition bytes_le (a b : bytes) : Prop := bytes_leb a b = true.

#[export] Instance bytes_le_dec : RelDecision bytes_le.
Proof. intros a b. unfold bytes_le. apply _. Defined.

Definition key_le (a b : bytes * bytes) : Prop := bytes_le a.1 b.1.

#[export] Instance key_le_dec : RelDecision key_le.
Proof. intros a b. unfold key_le. apply _. Defined.

Section recovery.
Context {V : Type}.

Definition snapshot (s : @SwapSession V) : list CoordinatorSnapshot :=
  map to_snapshot (map snd (map_to_list (s_coordinators s))).

(** One turn of the loop of [restore]. *)
Definition restore_one (s : @SwapSession V) (snap : CoordinatorSnapshot) : SwapSession :=
  let swap_id := cx_swap_id (sn_ctx snap) in
  let s := if bool_decide (sn_role snap = Initiator)
           then with_initiated s ({[ swap_id ]} ∪ s_initiated_ever s) else s in
  with_coords s (<[ swap_id := from_snapshot snap (s_ladder s) ]> (s_coordinators s)).

(** [restore], on the new session [fresh] its first line builds. *)
Definition restore (fresh : @SwapSession V) (snaps : list CoordinatorSnapshot) : SwapSession :=
  foldl restore_one fresh snaps.

Definition pending_claims (snaps : list CoordinatorSnapshot) : list (bytes * bytes) :=
  omap (fun s => (fun tx => (cx_swap_id (sn_ctx s), tx)) <$> sn_claim_tx s) snaps.

Definition session_encode_snapshot (s : @SwapSession V) : bytes :=
  let snaps := snapshot s in
  let ids := merge_sort bytes_le (elements (s_initiated_ever s)) in
  let claims := merge_sort key_le (pending_claims snaps) in
  encode_snapshot snaps
  ++ be_bytes 2 (wrapN 16 (len ids)) ++ concat ids
  ++ be_bytes 2 (wrapN 16 (len claims)) ++ concat (map (fun '(id, tx) => id ++ tx) claims).

(** [if let Some(c) = coordinators.get_mut(&id) { c.note_claim_broadcast(tx) }] *)
Definition rearm_claim (s : @SwapSession V) (claim : bytes * bytes) : SwapSession :=
  match s_coordinators s !! claim.1 with
  | Some c => with_coords s (<[ claim.1 := note_claim_broadcast c claim.2 ]> (s_coordinators s))
  | None => s
  end.

Definition restore_bytes (fresh : @SwapSession V) (b : bytes)
  : res SnapshotError SwapSession :=
  let? (snaps, tombstones, claims) := decode_snapshot_full b in
  let s := restore fresh snaps in
  let s := with_initiated s (s_initiated_ever s ∪ list_to_set tombstones) in
  Ok (foldl rearm_claim s claims).
End recovery.

(** ** Well-formed snapshots *)

Definition opt_len (n : Z) (o : option bytes) : Prop :=
  match o with Some v => len v = n | None => True end.

(** What the Rust types of the fields and a [u16] address length guarantee. *)
Record snap_ok (s : CoordinatorSnapshot) : Prop := {
  sk_id : len (cx_swap_id (sn_ctx s)) = 16;
  sk_nim : uN 64 (nim_timeout (cx_terms (sn_ctx s)));
  sk_ctp : uN 64 (counterparty_timeout (cx_terms (sn_ctx s)));
  sk_hash : len (cx_hashlock (sn_ctx s)) = 32;
  sk_addr : len (cx_nim_address (sn_ctx s)) = 20;
  sk_pk : len (cx_btc_pubkey (sn_ctx s)) = 33;
  sk_give : uN 64 (cx_give_amount (sn_ctx s));
  sk_take : uN 64 (cx_take_amount (sn_ctx s));
  sk_anchor : uN 64 (cx_term_anchor (sn_ctx s));
  sk_btc : len (cx_btc_address (sn_ctx s)) < 65536;
  sk_secret : opt_len 32 (sn_secret s);
  sk_peer : opt_len 33 (sn_peer_btc_pubkey s);
  sk_claim : opt_len 32 (sn_claim_tx s)
}.

(** A record without its pending claim, which travels in the trailer. *)
Definition strip_claim (s : CoordinatorSnapshot) : CoordinatorSnapshot :=
  mkSnapshot (sn_role s) (sn_phase s) (sn_ctx s) (sn_secret s) (sn_peer_btc_pubkey s) None.

(** ** Reading back what was written *)

Lemma role_tag_back r : role_from_tag (role_tag r) = Ok r.
Proof. now destruct r. Qed.

Lemma phase_tag_back p : phase_from_tag (phase_tag p) = Ok p.
Proof. now destruct p. Qed.

Section reads.
Context (b : bytes) (Hb : len b < 2 ^ 64).

Lemma decode_opt_next pos o rest n :
  at_pos b pos (opt_bytes o ++ rest) -> opt_len (Z.of_nat n) o ->
  exists pos', decode_opt b pos n = Ok (o, pos') /\ at_pos b pos' rest.
Proof.
  unfold decode_opt. intros Hp Ho. destruct o as [v|]; simpl in *; read_next Hb; simpl; [|eauto].
  read_next Hb. eauto.
Qed.

Lemma decode_one_next pos s rest :
  at_pos b pos (encode_record s ++ rest) -> snap_ok s ->
  exists pos', decode_one b pos = Ok (strip_claim s, pos') /\ at_pos b pos' rest.
Proof.
  intros Hp [H1 H2 H3 H4 H5 H6 H7 H8 H9 H10 H11 H12 _]. unfold encode_record in Hp.
  repeat rewrite <- app_assoc in Hp. cbn [app] in Hp. unfold decode_one, uN, wrapN in *.
  rewrite Z.mod_small in Hp by (pose proof (len_nonneg (cx_btc_address (sn_ctx s))); lia).
  pose proof (len_nonneg (cx_btc_address (sn_ctx s))).
  read_next Hb. rewrite role_tag_back. read_next Hb. rewrite phase_tag_back.
  do 12 read_next Hb.
  match goal with H : at_pos _ ?p _ |- context [decode_opt b ?p 32] =>
    destruct (decode_opt_next p _ _ 32%nat H H11) as (p1 & -> & Hp1) end.
  destruct (decode_opt_next p1 _ _ 33%nat Hp1 H12) as (p2 & -> & Hp2).
  exists p2. split; [|exact Hp2]. unfold strip_claim.
  now destruct (sn_ctx s) as [? [? ?] ? ? ? ? ? ? ? ?].
Qed.

Lemma decode_claim_next pos id tx rest :
  at_pos b pos ((id ++ tx) ++ rest) -> len id = 16 -> len tx = 32 ->
  exists pos', decode_claim b pos = Ok ((id, tx), pos') /\ at_pos b pos' rest.
Proof.
  rewrite <- app_assoc. intros Hp H1 H2. unfold decode_claim. read_next Hb. read_next Hb. eauto.
Qed.

Section many.
Context {A B : Type} (item : bytes -> Z -> res SnapshotError (B * Z)) (enc : A -> bytes)
  (f : A -> B) (P : A -> Prop)
  (Hitem : forall x pos rest, P x -> at_pos b pos (enc x ++ rest) ->
     exists pos', item b pos = Ok (f x, pos') /\ at_pos b pos' rest).

Lemma decode_many_next xs : forall pos rest,
  Forall P xs -> at_pos b pos (concat (map enc xs) ++ rest) ->
  exists pos', decode_many item b (length xs) pos = Ok (map f xs, pos') /\ at_pos b pos' rest.
Proof.
  induction xs as [|x xs IH]; intros pos rest HP Hp; simpl in *; [eauto|].
  inversion HP as [|? ? Hx HP']; subst. rewrite <- app_assoc in Hp.
  destruct (Hitem x pos _ Hx Hp) as (p1 & -> & Hp1).
  destruct (IH p1 rest HP' Hp1) as (p2 & -> & Hp2). eauto.
Qed.

Lemma decode_counted_next xs pos rest :
  Forall P xs -> len xs < 65536 ->
  at_pos b pos (be_bytes 2 (wrapN 16 (len xs)) ++ concat (map enc xs) ++ rest) ->
  exists pos', (let? (count, pos) := take_be Truncated b pos 2 in
                decode_many item b (Z.to_nat count) pos) = Ok (map f xs, pos')
    /\ at_pos b pos' rest.
Proof.
  intros HP Hl Hp. pose proof (len_nonneg xs). unfold wrapN in Hp.
  rewrite Z.mod_small in Hp by lia. read_next Hb.
  unfold len at 1. rewrite Nat2Z.id. now apply decode_many_next.
Qed.

Lemma decode_trailer_next xs pos rest :
  Forall P xs -> len xs < 65536 ->
  at_pos b pos (be_bytes 2 (wrapN 16 (len xs)) ++ concat (map enc xs) ++ rest) ->
  exists pos', decode_trailer item b pos = Ok (map f xs, pos') /\ at_pos b pos' rest.
Proof.
  intros HP Hl Hp. unfold decode_trailer.
  assert (Hr : (sat_sub (len b) pos >? 0) = true).
  { destruct Hp as (pre & -> & ->). unfold sat_sub. rewrite Z.gtb_lt, !len_app, len_be_bytes.
    pose proof (len_nonneg (concat (map enc xs))). pose proof (len_nonneg rest). lia. }
  rewrite Hr. now apply decode_counted_next.
Qed.
End many.
End reads.

Lemma concat_map_id (l : list bytes) : concat (map (fun x => x) l) = concat l.
Proof. now rewrite map_id. Qed.

Lemma decode_full_back (snaps : list CoordinatorSnapshot) (ids : list bytes)
    (claims : list (bytes * bytes)) :
  let b := encode_snapshot snaps
           ++ be_bytes 2 (wrapN 16 (len ids)) ++ concat ids
           ++ be_bytes 2 (wrapN 16 (len claims)) ++ concat (map (fun '(id, tx) => id ++ tx) claims) in
  len b < 2 ^ 64 -> Forall snap_ok snaps -> len snaps < 65536 ->
  Forall (fun i => len i = 16) ids -> len ids < 65536 ->
  Forall (fun '(i, t) => len i = 16 /\ len t = 32) claims -> len claims < 65536 ->
  decode_snapshot_full b = Ok (map strip_claim snaps, ids, claims).
Proof.
  intros b Hb Hs Hls Hi Hli Hc Hlc. unfold decode_snapshot_full.
  pose proof (at_pos_0 b) as Hp.
  assert (Hp0 : at_pos b 0 (be_bytes 2 (wrapN 16 (len snaps)) ++ concat (map encode_record snaps)
    ++ be_bytes 2 (wrapN 16 (len ids)) ++ concat (map (fun x => x) ids)
    ++ be_bytes 2 (wrapN 16 (len claims)) ++ concat (map (fun '(id, tx) => id ++ tx) claims) ++ [])).
  { rewrite app_nil_r, concat_map_id, (app_assoc (be_bytes 2 (wrapN 16 (len snaps)))). exact Hp. }
  destruct (decode_counted_next b Hb decode_one encode_record strip_claim snap_ok
              (fun x pos rest Hx Hr => decode_one_next b Hb pos x rest Hr Hx)
              snaps 0 _ Hs Hls Hp0) as (p1 & E1 & Hp1).
  destruct (take_be Truncated b 0 2) as [[count q]| |]; [|discriminate..]. rewrite E1.
  assert (Hid : forall x pos rest, len x = 16 -> at_pos b pos (x ++ rest) ->
            exists pos', decode_id b pos = Ok (x, pos') /\ at_pos b pos' rest).
  { intros x pos rest Hx Hr. unfold decode_id. read_next Hb. eauto. }
  destruct (decode_trailer_next b Hb decode_id (fun x => x) (fun x => x) _ Hid ids p1 _ Hi Hli Hp1)
    as (p2 & E2 & Hp2).
  rewrite E2, map_id.
  destruct (decode_trailer_next b Hb decode_claim (fun '(id, tx) => id ++ tx) (fun x => x)
    (fun '(i, t) => len i = 16 /\ len t = 32)) with (xs := claims) (pos := p2) (rest := @nil Z)
    as (p3 & E3 & Hp3); auto.
  { intros [i t] pos rest [H1 H2] Hr. now apply decode_claim_next. }
  now rewrite E3, map_id.
Qed.

Lemma foldl_insert {A} (l : list (bytes * A)) : forall m : gmap (list Z) A,
  NoDup l.*1 -> foldl (fun m kv => <[ kv.1 := kv.2 ]> m) m l = list_to_map l ∪ m.
Proof.
  induction l as [|[k v] l IH]; intros m Hd; simpl.
  - now rewrite (left_id_L ∅ (∪)).
  - inversion Hd as [|? ? Hk Hd']; subst. rewrite IH by assumption.
    rewrite <- insert_union_r, insert_union_l; [reflexivity|].
    now apply not_elem_of_list_to_map_1.
Qed.

Section restored.
Context {V : Type}.
Implicit Types s fresh : @SwapSession V.

(** What [restore] rebuilds: the map and the tombstones. *)
Lemma restore_spec snaps : forall fresh,
  s_ladder (restore fresh snaps) = s_ladder fresh
  /\ s_coordinators (restore fresh snaps)
     = foldl (fun m kv => <[ kv.1 := kv.2 ]> m) (s_coordinators fresh)
         (map (fun sn => (cx_swap_id (sn_ctx sn), from_snapshot sn (s_ladder fresh))) snaps)
  /\ s_initiated_ever (restore fresh snaps)
     = s_initiated_ever fresh
       ∪ list_to_set (map (fun sn => cx_swap_id (sn_ctx sn))
                        (List.filter (fun sn => bool_decide (sn_role sn = Initiator)) snaps)).
Proof.
  induction snaps as [|sn snaps IH]; intros fresh; simpl.
  - split_and!; auto. now rewrite (right_id_L ∅ (∪)).
  - destruct (IH (restore_one fresh sn)) as (H1 & H2 & H3).
    unfold restore_one in *. destruct (bool_decide (sn_role sn = Initiator)); simpl in *;
      (split_and!; [congruence | exact H2 | rewrite H3; simpl;
        rewrite ?(assoc_L (∪)), ?(comm_L (∪) {[ _ ]}); reflexivity]).
Qed.

(** Re-arming the claims sets exactly their coordinators' fields. *)
Lemma rearm_spec claims : forall s id,
  NoDup claims.*1 ->
  s_initiated_ever (foldl rearm_claim s claims) = s_initiated_ever s
  /\ s_coordinators (foldl rearm_claim s claims) !! id
     = match (list_to_map claims : gmap (list Z) bytes) !! id with
       | Some tx => (fun c => note_claim_broadcast c tx) <$> s_coordinators s !! id
       | None => s_coordinators s !! id
       end.
Proof.
  induction claims as [|[k tx] claims IH]; intros s id Hd; simpl; [auto|].
  inversion Hd as [|? ? Hk Hd']; subst.
  destruct (IH (rearm_claim s (k, tx)) id Hd') as [H1 H2]. rewrite H1, H2.
  unfold rearm_claim. simpl.
  split; [now destruct (s_coordinators s !! k)|].
  destruct (decide (id = k)) as [->|Hn].
  - rewrite lookup_insert_eq. rewrite (not_elem_of_list_to_map_1 claims k) by assumption.
    destruct (s_coordinators s !! k) as [c|] eqn:Hc; simpl; [now rewrite lookup_insert_eq | now rewrite Hc].
  - rewrite lookup_insert_ne by congruence.
    destruct (s_coordinators s !! k) as [c|] eqn:Hc; simpl; [|reflexivity].
    now rewrite lookup_insert_ne by congruence.
Qed.
Lemma rearm_initiated claims : forall s,
  s_initiated_ever (foldl rearm_claim s claims) = s_initiated_ever s.
Proof.
  induction claims as [|x claims IH]; intros s; simpl; [reflexivity|]. rewrite IH.
  unfold rearm_claim. now destruct (s_coordinators s !! x.1).
Qed.
End restored.

Definition persistable {V} (s : @SwapSession V) (ladder : LadderParams) : Prop :=
  forall id c, s_coordinators s !! id = Some c ->
    cx_swap_id (c_ctx c) = id /\ terms (c_swap c) = cx_terms (c_ctx c) /\ c_ladder c = ladder
    /\ (c_role c = Initiator -> id ∈ s_initiated_ever s) /\ snap_ok (to_snapshot c).

(** The claims of a list of stored coordinators. *)
Definition claims_of (l : list (bytes * SwapCoordinator)) : list (bytes * bytes) :=
  omap (fun '(k, c) => (fun tx => (k, tx)) <$> c_claim_tx c) l.

Lemma claims_of_elem l k tx :
  (k, tx) ∈ claims_of l <-> exists c, (k, c) ∈ l /\ c_claim_tx c = Some tx.
Proof.
  unfold claims_of. rewrite list_elem_of_omap. split.
  - intros ([k' c] & Hin & He). destruct (c_claim_tx c) as [tx'|] eqn:Hc; simplify_eq/=. eauto.
  - intros (c & Hin & Hc). exists (k, c). rewrite Hc. auto.
Qed.

Lemma claims_of_nodup l : NoDup l.*1 -> NoDup (claims_of l).*1.
Proof.
  induction l as [|[k c] l IH]; intros Hd; [constructor|]. inversion Hd as [|? ? Hk Hd']; subst.
  unfold claims_of. simpl. destruct (c_claim_tx c) as [tx|]; simpl; [|auto].
  constructor; [|auto]. intros ([k' tx'] & -> & Hin)%list_elem_of_fmap.
  apply claims_of_elem in Hin as (c' & Hin & _). apply Hk, list_elem_of_fmap. now exists (k', c').
Qed.

Lemma claims_of_length l : (length (claims_of l) <= length l)%nat.
Proof.
  induction l as [|[k c] l IH]; [auto|].
  change (claims_of ((k, c) :: l)) with
    (match (fun tx => (k, tx)) <$> c_claim_tx c with
     | Some x => x :: claims_of l | None => claims_of l end).
  destruct (c_claim_tx c); simpl; lia.
Qed.

Lemma claims_of_pending l :
  (forall k c, (k, c) ∈ l -> cx_swap_id (c_ctx c) = k) ->
  pending_claims (map to_snapshot (map snd l)) = claims_of l.
Proof.
  induction l as [|[k c] l IH]; intros H; [reflexivity|].
  assert (IH' : pending_claims (map to_snapshot (map snd l)) = claims_of l)
    by (apply IH; intros; apply H; now right).
  unfold pending_claims, claims_of in *. simpl. rewrite (H k c) by left.
  destruct (c_claim_tx c) as [tx|]; simpl; [f_equal|]; exact IH'.
Qed.

Section lossless.
Context {V : Type} (s fresh : @SwapSession V).
Context (Hper : persistable s (s_ladder fresh)).
Let l := map_to_list (s_coordinators s).

Lemma stored k c : (k, c) ∈ l -> cx_swap_id (c_ctx c) = k /\ terms (c_swap c) = cx_terms (c_ctx c)
  /\ c_ladder c = s_ladder fresh /\ (c_role c = Initiator -> k ∈ s_initiated_ever s)
  /\ snap_ok (to_snapshot c).
Proof. intros Hin%elem_of_map_to_list. now apply Hper. Qed.

Lemma restored_coordinators :
  s_coordinators fresh = ∅ ->
  s_coordinators (restore fresh (map strip_claim (snapshot s)))
  = (fun c => set_claim_tx c None) <$> s_coordinators s.
Proof.
  intros He. destruct (restore_spec (map strip_claim (snapshot s)) fresh) as (_ & -> & _).
  assert (Hmap : map (fun sn => (cx_swap_id (sn_ctx sn), from_snapshot sn (s_ladder fresh)))
                   (map strip_claim (snapshot s))
                 = prod_map id (fun c => set_claim_tx c None) <$> l).
  { unfold snapshot. rewrite !map_map. fold l. apply list_fmap_ext. intros i [k c] Hi.
    apply list_elem_of_lookup_2, stored in Hi as (Hk & Ht & Hl & _). unfold from_snapshot, prod_map. simpl.
    rewrite Hk, <- Ht, <- Hl. now destruct c as [[]]. }
  rewrite Hmap, foldl_insert, He, (right_id_L ∅ (∪)).
  - rewrite list_to_map_fmap. unfold l. now rewrite list_to_map_to_list.
  - rewrite <- list_fmap_compose. unfold l.
    pose proof (NoDup_fst_map_to_list (s_coordinators s)) as Hd.
    erewrite list_fmap_ext; [exact Hd|]. now intros i [k c] _.
Qed.

Lemma restored_initiated :
  s_initiated_ever fresh = ∅ ->
  s_initiated_ever (restore fresh (map strip_claim (snapshot s))) ⊆ s_initiated_ever s.
Proof.
  intros He. destruct (restore_spec (map strip_claim (snapshot s)) fresh) as (_ & _ & ->).
  rewrite He. intros id [Hx|Hx]%elem_of_union; [set_solver|].
  apply elem_of_list_to_set, list_elem_of_In, in_map_iff in Hx as (sn & <- & Hin).
  apply filter_In in Hin as [Hin Hr]. apply bool_decide_eq_true in Hr.
  unfold snapshot in Hin. rewrite !map_map in Hin.
  apply in_map_iff in Hin as ([k c] & <- & Hin). apply list_elem_of_In, stored in Hin.
  simpl in *. destruct Hin as (-> & _ & _ & Hi & _). auto.
Qed.

Lemma claims_lookup id :
  (list_to_map (claims_of l) : gmap (list Z) bytes) !! id
  = s_coordinators s !! id ≫= c_claim_tx.
Proof.
  apply option_eq. intros tx.
  rewrite <- elem_of_list_to_map by (apply claims_of_nodup, NoDup_fst_map_to_list).
  rewrite claims_of_elem. unfold l. setoid_rewrite elem_of_map_to_list.
  destruct (s_coordinators s !! id) as [c|]; simpl; [|naive_solver].
  split; [intros (? & [= <-] & ?); auto | eauto].
Qed.
End lossless.

(** ** Decoding arbitrary bytes *)

Lemma role_from_tag_total t : role_from_tag t <> Panic.
Proof. unfold role_from_tag. repeat case_goal; discriminate. Qed.

Lemma phase_from_tag_total t : phase_from_tag t <> Panic.
Proof. unfold phase_from_tag. repeat case_goal; discriminate. Qed.

(** A decoder that reads within the buffer: it ends at a position of it, or
    fails, and never panics. *)
Definition well_read {A} (b : bytes) (r : res SnapshotError (A * Z)) : Prop :=
  match r with
  | Ok (_, pos') => exists rest', at_pos b pos' rest'
  | Err _ => True
  | Panic => False
  end.

Section total.
Context (b : bytes) (Hok : bytes_ok b).

Lemma well_read_opt pos rest n : at_pos b pos rest -> well_read b (decode_opt b pos n).
Proof.
  intros Hp. unfold decode_opt. read_case. destruct (x =? 1); simpl; [|eauto]. read_case. simpl. eauto.
Qed.

Lemma well_read_one pos rest : at_pos b pos rest -> well_read b (decode_one b pos).
Proof.
  intros Hp. unfold decode_one. read_case.
  destruct (role_from_tag x) eqn:E; [|exact I | now apply role_from_tag_total in E].
  read_case. destruct (phase_from_tag x0) eqn:E'; [|exact I | now apply phase_from_tag_total in E'].
  do 12 read_case.
  match goal with H : at_pos b ?p _ |- context [decode_opt b ?p 32] =>
    pose proof (well_read_opt p _ 32%nat H) as W; destruct (decode_opt b p 32) as [[? ?]| |];
    [destruct W as [? W] | exact I | exact W] end.
  match goal with |- context [decode_opt b ?p 33] =>
    pose proof (well_read_opt p _ 33%nat W) as W'; destruct (decode_opt b p 33) as [[? ?]| |];
    [exact W' | exact I | exact W'] end.
Qed.

Lemma well_read_many {A} (item : bytes -> Z -> res SnapshotError (A * Z)) n :
  (forall pos rest, at_pos b pos rest -> well_read b (item b pos)) ->
  forall pos rest, at_pos b pos rest -> well_read b (decode_many item b n pos).
Proof.
  intros Hi. induction n as [|n IH]; intros pos rest Hp; simpl; [eauto|].
  pose proof (Hi pos rest Hp) as W. destruct (item b pos) as [[x p]| |]; simpl in *; auto.
  destruct W as [r W]. pose proof (IH p r W) as W'.
  destruct (decode_many item b n p) as [[xs q]| |]; auto.
Qed.

Lemma well_read_trailer {A} (item : bytes -> Z -> res SnapshotError (A * Z)) :
  (forall pos rest, at_pos b pos rest -> well_read b (item b pos)) ->
  forall pos rest, at_pos b pos rest -> well_read b (decode_trailer item b pos).
Proof.
  intros Hi pos rest Hp. unfold decode_trailer. destruct (_ >? _); [|simpl; eauto].
  read_case. eapply well_read_many; eassumption.
Qed.

Lemma well_read_claim pos rest : at_pos b pos rest -> well_read b (decode_claim b pos).
Proof. intros Hp. unfold decode_claim. read_case. read_case. simpl. eauto. Qed.

Lemma decode_full_total : decode_snapshot_full b <> Panic.
Proof.
  unfold decode_snapshot_full.
  assert (Hp : exists r, at_pos b 0 r) by eauto using at_pos_0. destruct Hp as [r Hp]. read_case.
  pose proof (well_read_many decode_one (Z.to_nat x) well_read_one _ _ Hq) as W1.
  destruct (decode_many decode_one b _ q) as [[out p1]| |]; [|discriminate|easy].
  destruct W1 as [r1 W1].
  assert (Hid : forall pos rest, at_pos b pos rest -> well_read b (decode_id b pos)).
  { intros pos rest' Hp. unfold decode_id. read_case. simpl. eauto. }
  pose proof (well_read_trailer decode_id Hid _ _ W1) as W2.
  destruct (decode_trailer decode_id b p1) as [[tb p2]| |]; [|discriminate|easy].
  destruct W2 as [r2 W2]. pose proof (well_read_trailer decode_claim well_read_claim _ _ W2) as W3.
  now destruct (decode_trailer decode_claim b p2) as [[cl p3]| |].
Qed.
End total.

(** ** Properties *)

(** C22: crash recovery is lossless.  Let [s] be a session in which every
    coordinator sits under its own swap id, agrees with its context and ladder,
    has its id tombstoned if it is an initiator, and has fields of their Rust
    types (all of which [session_invariant] gives, the field sizes apart), with
    fewer than 65,536 swaps and tombstones.  Then the bytes it writes are
    accepted by [restore_bytes] on a new session with the same ladder, and the
    session that comes back has exactly the same coordinators (roles, phases,
    terms, secrets, peer keys and pending claims included) and exactly the same
    tombstones, whatever order the hash maps were walked in. *)
Theorem recovery_lossless {V} (s fresh : @SwapSession V)
    (Hper : persistable s (s_ladder fresh))
    (Hf1 : s_coordinators fresh = ∅) (Hf2 : s_initiated_ever fresh = ∅)
    (Hids : forall id, id ∈ s_initiated_ever s -> len id = 16)
    (Hn1 : Z.of_nat (size (s_coordinators s)) < 65536)
    (Hn2 : Z.of_nat (size (s_initiated_ever s)) < 65536)
    (Hlen : len (session_encode_snapshot s) < 2 ^ 64) :
  exists s', restore_bytes fresh (session_encode_snapshot s) = Ok s'
    /\ s_coordinators s' = s_coordinators s /\ s_initiated_ever s' = s_initiated_ever s.
Proof.
  set (l := map_to_list (s_coordinators s)).
  set (ids := merge_sort bytes_le (elements (s_initiated_ever s))).
  set (claims := merge_sort key_le (pending_claims (snapshot s))).
  assert (Hpids : ids ≡ₚ elements (s_initiated_ever s)) by apply merge_sort_Permutation.
  assert (Hpend : pending_claims (snapshot s) = claims_of l).
  { apply claims_of_pending. intros k c Hin. now apply (stored s fresh Hper) in Hin as [? _]. }
  assert (Hpcl : claims ≡ₚ claims_of l) by (rewrite <- Hpend; apply merge_sort_Permutation).
  assert (Hd : NoDup claims.*1)
    by (rewrite Hpcl; apply claims_of_nodup, NoDup_fst_map_to_list).
  assert (Hll : length (snapshot s) = size (s_coordinators s))
    by (unfold snapshot; rewrite !length_map; apply length_map_to_list).
  unfold restore_bytes, session_encode_snapshot in *. fold ids claims in Hlen |- *.
  rewrite decode_full_back; auto.
  - eexists. split; [reflexivity|].
    set (s1 := with_initiated (restore fresh (map strip_claim (snapshot s)))
                 (s_initiated_ever (restore fresh (map strip_claim (snapshot s)))
                  ∪ list_to_set ids)).
    split.
    + apply map_eq. intros id. destruct (rearm_spec claims s1 id Hd) as [_ ->].
      rewrite (list_to_map_proper _ _ Hd Hpcl).
      rewrite (claims_lookup s). unfold s1. simpl.
      rewrite (restored_coordinators s fresh Hper Hf1), lookup_fmap.
      destruct (s_coordinators s !! id) as [c|]; simpl; [|reflexivity].
      destruct c as [? ? ? ? ? [tx|]]; reflexivity.
    + destruct (rearm_spec claims s1 [] Hd) as [-> _]. unfold s1. simpl.
      pose proof (restored_initiated s fresh Hper Hf2) as Hsub.
      rewrite Hpids, list_to_set_elements_L. set_solver.
  - apply Forall_forall. intros sn. unfold snapshot. rewrite map_map. fold l.
    intros ([k c] & <- & Hin)%list_elem_of_In%in_map_iff. apply list_elem_of_In in Hin.
    now apply (stored s fresh Hper) in Hin as (_ & _ & _ & _ & ?).
  - unfold len. lia.
  - apply Forall_forall. intros id Hin. rewrite Hpids in Hin. apply Hids. now apply elem_of_elements.
  - unfold len. rewrite Hpids. exact Hn2.
  - apply Forall_forall. intros [k tx] Hin. rewrite Hpcl in Hin.
    apply claims_of_elem in Hin as (c & Hin & Hc).
    apply (stored s fresh Hper) in Hin as (<- & _ & _ & _ & Hs). split; [apply Hs|].
    pose proof (sk_claim _ Hs) as Hk. simpl in Hk. now rewrite Hc in Hk.
  - unfold len. rewrite Hpcl. pose proof (claims_of_length l) as Hle. revert Hn1 Hll.
    unfold snapshot. rewrite !length_map. fold l. lia.
Qed.

(** A recovery file can never crash the node.  [restore_bytes] on any bytes
    whatsoever returns a session or an error. *)
Theorem restore_bytes_total {V} (fresh : @SwapSession V) (b : bytes) (Hb : bytes_ok b) :
  restore_bytes fresh b <> Panic.
Proof.
  unfold restore_bytes. pose proof (decode_full_total b Hb) as H.
  destruct (decode_snapshot_full b) as [[[? ?] ?]| |]; [discriminate | discriminate | contradiction].
Qed.

(** The tombstone count wraps.  The blob stores the number of tombstones in
    a [u16] with an unchecked cast, so a session that has initiated exactly
    65,536 swaps writes the count 0: if its blob is accepted at all, the
    restored session remembers none of them (the guard against reissuing a
    public secret is lost without an error). *)
Theorem tombstones_lost_at_65536 {V} (s fresh s' : @SwapSession V)
    (Hc : s_coordinators s = ∅) (Hf2 : s_initiated_ever fresh = ∅)
    (Hn : Z.of_nat (size (s_initiated_ever s)) = 65536)
    (Hlen : len (session_encode_snapshot s) < 2 ^ 64)
    (H : restore_bytes fresh (session_encode_snapshot s) = Ok s') :
  s_initiated_ever s' = ∅.
Proof.
  unfold restore_bytes, decode_snapshot_full in H. set (b := session_encode_snapshot s) in *.
  set (ids := merge_sort bytes_le (elements (s_initiated_ever s))).
  assert (Hl : len ids = 65536).
  { unfold len, ids. rewrite merge_sort_Permutation. exact Hn. }
  assert (Hp : exists rest, at_pos b 0 (be_bytes 2 0 ++ be_bytes 2 0 ++ rest)).
  { eexists. unfold b, session_encode_snapshot, snapshot. fold ids. rewrite Hc, Hl, map_to_list_empty.
    apply at_pos_0. }
  destruct Hp as [rest Hp]. revert H. read_next Hlen. simpl.
  assert (Ht : exists p, decode_trailer decode_id b (0 + Z.of_nat 2) = Ok ([], p)).
  { unfold decode_trailer. destruct (_ >? _); [|eauto]. read_next Hlen. simpl. eauto. }
  destruct Ht as [p ->]. destruct (decode_trailer decode_claim b p) as [[claims q]| |]; [|discriminate..].
  intros [= <-]. rewrite rearm_initiated. simpl. rewrite Hf2. set_solver.
Qed.

(** ** Concrete sessions *)

Definition sample_live : @SwapSession LedgerVerifier :=
  with_coords (with_initiated sample_session {[ replicate 16 9 ]})
    {[ sample_id := sample_coord Revealed ]}.

Lemma sample_live_persistable : persistable sample_live (s_ladder sample_session).
Proof.
  intros id c Hc. simpl in Hc. apply lookup_singleton_Some in Hc as [<- <-].
  split_and!; try reflexivity; [discriminate|].
  constructor; try reflexivity; vm_compute; auto; split; congruence.
Qed.

Lemma recovery_lossless_witness :
  exists s', restore_bytes sample_session (session_encode_snapshot sample_live) = Ok s'
    /\ s_coordinators s' !! sample_id = Some (sample_coord Revealed).
Proof.
  destruct (recovery_lossless sample_live sample_session) as (s' & H & Hc & _).
  - exact sample_live_persistable.
  - reflexivity.
  - reflexivity.
  - intros id Hin. change (id ∈ ({[ replicate 16 9 ]} : gset (list Z))) in Hin.
    apply elem_of_singleton in Hin as ->. reflexivity.
  - vm_compute. reflexivity.
  - vm_compute. reflexivity.
  - vm_compute. reflexivity.
  - exists s'. split; [exact H|]. rewrite Hc. reflexivity.
Defined.

Lemma restore_bytes_total_witness :
  restore_bytes sample_session [0; 1; 7; 255] <> Panic.
Proof. apply (restore_bytes_total sample_session [0; 1; 7; 255]). apply bytes_okb_ok. reflexivity. Defined.

(** 65,536 swap ids. *)
Definition sample_tombs : list bytes :=
  (fun n : nat => [0; 0] ++ be_bytes 2 (Z.of_nat n) ++ replicate 12 0) <$> seq 0 (Z.to_nat 65536).

Definition sample_veteran : @SwapSession LedgerVerifier :=
  with_initiated sample_session (list_to_set sample_tombs).

Lemma sample_tombs_nodup : NoDup sample_tombs.
Proof.
  unfold sample_tombs. apply NoDup_fmap_2_strong; [|apply NoDup_seq].
  intros x y Hx Hy H. apply elem_of_seq in Hx, Hy. apply app_inv_head in H.
  apply app_inj_1 in H as [H _]; [|now rewrite !length_be_bytes].
  apply be_bytes_inj in H; lia.
Qed.

Lemma sample_veteran_ids : s_initiated_ever sample_veteran = list_to_set sample_tombs.
Proof. reflexivity. Qed.

Lemma sample_tombs_size : Z.of_nat (size (s_initiated_ever sample_veteran)) = 65536.
Proof.
  rewrite sample_veteran_ids, size_list_to_set by apply sample_tombs_nodup.
  unfold sample_tombs. rewrite length_fmap, length_seq. apply Z2Nat.id. lia.
Qed.

Lemma sample_tombs_sorted :
  let ids := merge_sort bytes_le (elements (s_initiated_ever sample_veteran)) in
  len ids = 65536 /\ len (concat ids) = 16 * 65536 /\ exists rest, concat ids = [0; 0] ++ rest.
Proof.
  intros ids. assert (Hp : ids ≡ₚ sample_tombs).
  { unfold ids. rewrite merge_sort_Permutation, sample_veteran_ids.
    apply elements_list_to_set, sample_tombs_nodup. }
  assert (Hl : len ids = 65536).
  { unfold len. rewrite Hp. unfold sample_tombs. rewrite length_fmap, length_seq. apply Z2Nat.id. lia. }
  assert (Hall : Forall (fun i => len i = 16 /\ exists r, i = [0; 0] ++ r) ids).
  { rewrite Hp. unfold sample_tombs. apply Forall_fmap, Forall_forall. intros n _.
    split; [|eauto]. simpl. unfold len. simpl. reflexivity. }
  clear Hp. split; [exact Hl|]. split.
  - rewrite <- Hl. clear Hl. clearbody ids. induction Hall as [|i l' [Hi _] _ IH]; [reflexivity|].
    simpl. rewrite len_app, len_cons, IH, Hi. lia.
  - clearbody ids. destruct Hall as [|i l' [_ [r ->]] _]; [discriminate|]. simpl. eauto.
Qed.

Lemma sample_veteran_blob :
  exists rest, session_encode_snapshot sample_veteran
    = be_bytes 2 0 ++ be_bytes 2 0 ++ be_bytes 2 0 ++ rest
    /\ len (session_encode_snapshot sample_veteran) < 2 ^ 64.
Proof.
  pose proof sample_tombs_sorted as H. cbv zeta in H. unfold session_encode_snapshot.
  assert (Hs : snapshot sample_veteran = []) by reflexivity. rewrite Hs. clear Hs.
  revert H. generalize (merge_sort bytes_le (elements (s_initiated_ever sample_veteran))).
  intros ids (H1 & H2 & rest & H3). rewrite H1. eexists. split.
  - rewrite H3. reflexivity.
  - rewrite !len_app, H2. vm_compute. reflexivity.
Qed.

Lemma sample_veteran_accepted :
  exists s', restore_bytes sample_session (session_encode_snapshot sample_veteran) = Ok s'.
Proof.
  destruct sample_veteran_blob as (rest & He & Hl). revert He Hl.
  generalize (session_encode_snapshot sample_veteran) as b. intros b He Hl.
  assert (Hp : at_pos b 0 (be_bytes 2 0 ++ be_bytes 2 0 ++ be_bytes 2 0 ++ rest))
    by (rewrite He; apply at_pos_0).
  unfold restore_bytes, decode_snapshot_full. read_next Hl. simpl.
  unfold decode_trailer.
  assert (Hr : forall pos x r, at_pos b pos (be_bytes 2 x ++ r) -> (sat_sub (len b) pos >? 0) = true).
  { intros pos x r (pre & -> & ->). unfold sat_sub. rewrite Z.gtb_lt, !len_app, len_be_bytes.
    pose proof (len_nonneg r). lia. }
  match goal with H : at_pos b ?p _ |- _ => rewrite (Hr p _ _ H) end. read_next Hl. simpl.
  match goal with H : at_pos b ?p _ |- _ => rewrite (Hr p _ _ H) end. read_next Hl. simpl. eauto.
Qed.

Lemma tombstones_lost_at_65536_witness :
  exists s', restore_bytes sample_session (session_encode_snapshot sample_veteran) = Ok s'
    /\ has_initiated sample_veteran (replicate 16 0) = true
    /\ s_initiated_ever s' = ∅.
Proof.
  destruct sample_veteran_accepted as [s' H]. exists s'. split; [exact H|]. split.
  - apply bool_decide_eq_true. rewrite sample_veteran_ids. apply elem_of_list_to_set. unfold sample_tombs.
    apply list_elem_of_fmap. exists 0%nat. split; [reflexivity|]. apply elem_of_seq. lia.
  - refine (tombstones_lost_at_65536 sample_veteran sample_session s' eq_refl eq_refl
              sample_tombs_size _ H).
    destruct sample_veteran_blob as (rest & _ & Hl). exact Hl.
Defined.
