(* ===== verification/SwapNode.v ===== *)
(** * SwapNode: the worker's swap driver
    ([swap_node.rs], [swap_claim.rs], [swap_fast_tick.rs], [swap_head_gate.rs],
    [swap_leg_select.rs], [swap_signer.rs])

    The part of the worker state the driver works on is [WorkerState]; the
    cached chain head is an argument, as is the peer count.  A handler returns
    the state and the messages it floods, in order, or that it panicked: putting
    the messages into packets and onto the radio is the relay engine's work. *)

From stdpp Require Import base list gmap strings.
From Stdlib Require Import ZArith Lia.
From S2P Require Import Prelude Packet SwapWire Swap Crypto SwapIntent FundingVerify SwapMessages.
From S2P Require Import SwapCoordinator SwapSession SwapRecovery.
Open Scope Z_scope.

(** ** The signer seam *)

Class SwapSigner (S : Type) : Type := {
  build_funding : S -> SwapContext -> SwapLegId -> S * option (bytes * bytes);
  build_claim : S -> SwapContext -> bytes -> S * option (bytes * bytes);
  note_peer : S -> bytes -> bytes -> bytes -> S;
  is_live : S -> bool
}.

Inductive MockSigner : Type := Mock.

Definition sim_tx_id (swap_id : bytes) (tag : Z) : bytes := swap_id ++ replicate 16 tag.

#[export] Instance Mock_signer : SwapSigner MockSigner := {|
  build_funding := fun s ctx leg =>
    let '(wire, tag) := match leg with
                        | LegNim => (replicate 248 17, 241)
                        | LegCounterparty => (replicate 120 34, 242)
                        end in
    (s, Some (wire, sim_tx_id (cx_swap_id ctx) tag));
  build_claim := fun s ctx secret => (s, Some (secret, sim_tx_id (cx_swap_id ctx) 243));
  note_peer := fun s _ _ _ => s;
  is_live := fun _ => false
|}.

(** A signer that keeps the calls it was asked to make, last first: what the
    chain and the peer get to see of a live one. *)
Inductive SignerCall : Type :=
| CallFunding (ctx : SwapContext) (leg : SwapLegId)
| CallClaim (ctx : SwapContext) (secret : bytes).

Record Recorder (S : Type) : Type := mkRecorder { rec_inner : S; rec_calls : list SignerCall }.
Arguments mkRecorder {S}.
Arguments rec_inner {S}.
Arguments rec_calls {S}.

#[export] Instance Recorder_signer {S} `{SwapSigner S} : SwapSigner (Recorder S) := {|
  build_funding := fun r ctx leg =>
    let '(s, o) := build_funding (rec_inner r) ctx leg in
    (mkRecorder s (CallFunding ctx leg :: rec_calls r), o);
  build_claim := fun r ctx secret =>
    let '(s, o) := build_claim (rec_inner r) ctx secret in
    (mkRecorder s (CallClaim ctx secret :: rec_calls r), o);
  note_peer := fun r id a b => mkRecorder (note_peer (rec_inner r) id a b) (rec_calls r);
  is_live := fun r => is_live (rec_inner r)
|}.

(** ** Which leg a matched intent settles on *)

Inductive CounterpartyLeg : Type := CpBtc | CpUsdc.

Definition counterparty_leg_for (a : Asset) : option CounterpartyLeg :=
  match a with ABtc => Some CpBtc | AUsdc => Some CpUsdc | ANim => None end.

(** ** The per-sender throttle *)

Definition DEFAULT_INTENT_MATCH_CAP_PER_SENDER : Z := 4.
Definition MAX_TRACKED_INTENT_SENDERS : Z := 256.

Record IntentThrottle : Type := mkThrottle {
  th_counts : gmap (list Z) Z;
  th_order : list bytes;
  th_cap_per_sender : Z;
  th_max_senders : Z
}.

Definition throttle_new : IntentThrottle :=
  mkThrottle ∅ [] DEFAULT_INTENT_MATCH_CAP_PER_SENDER MAX_TRACKED_INTENT_SENDERS.

Definition throttle_admit (t : IntentThrottle) (sender : bytes) : IntentThrottle * bool :=
  match th_counts t !! sender with
  | Some count =>
      if count >=? th_cap_per_sender t then (t, false)
      else (mkThrottle (<[ sender := count + 1 ]> (th_counts t)) (th_order t)
              (th_cap_per_sender t) (th_max_senders t), true)
  | None =>
      let '(counts, order) :=
        if len (th_order t) >=? th_max_senders t then
          match th_order t with
          | old :: rest => (delete old (th_counts t), rest)
          | [] => (th_counts t, [])
          end
        else (th_counts t, th_order t) in
      (mkThrottle (<[ sender := 1 ]> counts) (order ++ [sender])
         (th_cap_per_sender t) (th_max_senders t), true)
  end.

(** ** The re-advertise schedule *)

Definition DEFAULT_MAX_INTENT_READVERTS : Z := 5.
Definition MAX_INTENT_READVERT_INTERVAL : Z := 8.

Record IntentAdvertiser : Type := mkAdvertiser {
  ia_sent : Z; ia_cooldown : Z; ia_interval : Z; ia_max_sends : Z
}.

Definition advertiser_new : IntentAdvertiser := mkAdvertiser 0 0 1 DEFAULT_MAX_INTENT_READVERTS.

Definition advertiser_reset (a : IntentAdvertiser) : IntentAdvertiser :=
  mkAdvertiser 0 0 1 (ia_max_sends a).

(** [interval.saturating_mul(2)] on a [u32] *)
Definition on_tick (a : IntentAdvertiser) : IntentAdvertiser * bool :=
  if ia_sent a >=? ia_max_sends a then (a, false) else
  if ia_cooldown a >? 0 then
    (mkAdvertiser (ia_sent a) (ia_cooldown a - 1) (ia_interval a) (ia_max_sends a), false)
  else
    (mkAdvertiser (ia_sent a + 1) (ia_interval a)
       (Z.min (Z.min (2 ^ 32 - 1) (ia_interval a * 2)) MAX_INTENT_READVERT_INTERVAL)
       (ia_max_sends a), true).

(** ** The match window *)

Definition INTENT_MATCH_WINDOW_TICKS : Z := 2.
Definition MAX_INTENT_CANDIDATES : Z := 64.

Record IntentMatcher : Type := mkMatcher {
  im_candidates : list (bytes * SwapIntent);
  im_window : Z
}.

Definition matcher_new : IntentMatcher := mkMatcher [] 0.

Definition matcher_contains (m : IntentMatcher) (swap_id : bytes) : bool :=
  existsb (fun c => bytes_eqb c.1 swap_id) (im_candidates m).

Definition add_candidate (m : IntentMatcher) (swap_id : bytes) (i : SwapIntent) : IntentMatcher :=
  if len (im_candidates m) >=? MAX_INTENT_CANDIDATES then m else
  mkMatcher (im_candidates m ++ [(swap_id, i)])
    (if im_window m =? 0 then INTENT_MATCH_WINDOW_TICKS else im_window m).

(** [c.0 < best.0] on byte arrays *)
Definition bytes_ltb (a b : bytes) : bool := bytes_leb a b && negb (bytes_eqb a b).

(** One turn of the [reduce] of [best]. *)
Definition better (best c : bytes * SwapIntent) : bytes * SwapIntent :=
  let lhs := wrapN 128 (i_btc_amount c.2 * i_nim_amount best.2) in
  let rhs := wrapN 128 (i_btc_amount best.2 * i_nim_amount c.2) in
  if (lhs >? rhs) || ((lhs =? rhs) && bytes_ltb c.1 best.1) then c else best.

Definition matcher_best (m : IntentMatcher) : option (bytes * SwapIntent) :=
  match im_candidates m with
  | [] => None
  | c :: cs => Some (foldl better c cs)
  end.

Definition matcher_tick (m : IntentMatcher) : IntentMatcher * option bytes :=
  if im_window m =? 0 then (m, None) else
  let window := im_window m - 1 in
  if window >? 0 then (mkMatcher (im_candidates m) window, None) else
  (mkMatcher [] window, fst <$> matcher_best m).

Record IntentState : Type := mkIntents {
  in_throttle : IntentThrottle;
  in_advertiser : IntentAdvertiser;
  in_matcher : IntentMatcher;
  in_last_peer_count : Z
}.

Definition intent_state_new : IntentState := mkIntents throttle_new advertiser_new matcher_new 0.

(** ** The driver *)

Section driver.
Context {C : Crypto} {V : Type} {FV : FundingVerifier V} {S : Type} {SG : SwapSigner S}.

Record WorkerState : Type := mkWorker {
  w_swap : option (@SwapSession V);
  w_signer : option S;
  w_intents : IntentState
}.

Definition with_swap (w : WorkerState) (s : SwapSession) : WorkerState :=
  mkWorker (Some s) (w_signer w) (w_intents w).

Definition with_signer (w : WorkerState) (x : S) : WorkerState :=
  mkWorker (w_swap w) (Some x) (w_intents w).

Definition with_intents (w : WorkerState) (i : IntentState) : WorkerState :=
  mkWorker (w_swap w) (w_signer w) i.

Definition with_matcher (w : WorkerState) (m : IntentMatcher) : WorkerState :=
  let i := w_intents w in
  with_intents w (mkIntents (in_throttle i) (in_advertiser i) m (in_last_peer_count i)).

Definition live_headless (w : WorkerState) (cached_head : option Z) : bool :=
  match cached_head with
  | Some _ => false
  | None => match w_signer w with Some s => is_live s | None => false end
  end.

Definition coordinator (w : WorkerState) (swap_id : bytes) : option SwapCoordinator :=
  s ← w_swap w; s_coordinators s !! swap_id.

(** The coordinator a [&mut] borrow of [coordinator] is left as. *)
Definition put_coordinator (w : WorkerState) (swap_id : bytes) (c : SwapCoordinator)
  : WorkerState :=
  match w_swap w with
  | Some s => with_swap w (with_coords s (<[ swap_id := c ]> (s_coordinators s)))
  | None => w
  end.

Definition sign_funding (w : WorkerState) (ctx : SwapContext) (leg : SwapLegId)
  : WorkerState * option (bytes * bytes) :=
  match w_signer w with
  | None => (w, None)
  | Some s => let '(s, o) := build_funding s ctx leg in (with_signer w s, o)
  end.

Definition sign_claim (w : WorkerState) (ctx : SwapContext) (secret : bytes)
  : WorkerState * option (bytes * bytes) :=
  match w_signer w with
  | None => (w, None)
  | Some s => let '(s, o) := build_claim s ctx secret in (with_signer w s, o)
  end.

(** What a handler does: the state it leaves, and its value unless it panics *)
Abbreviation outcome A := (WorkerState * res Empty_set A)%type.
Abbreviation replies := (list (MessageType * bytes)).

Definition then_do {A B} (x : outcome A) (k : WorkerState -> A -> outcome B) : outcome B :=
  match x with
  | (w, Ok a) => k w a
  | (w, Err e) => match e with end
  | (w, Panic) => (w, Panic)
  end.

(** [.ok()] of a result: an error is dropped, a panic is not. *)
Definition ok_of {E A} (w : WorkerState) (r : res E A) : outcome (option A) :=
  match r with Ok a => (w, Ok (Some a)) | Err _ => (w, Ok None) | Panic => (w, Panic) end.

Definition quiet (w : WorkerState) : outcome replies := (w, Ok []).

(** [if let Ok(bytes) = encode_swap(&env) { out.push((mt, bytes)) }] *)
Definition send_env (w : WorkerState) (mt : MessageType) (env : SwapEnvelope) : outcome replies :=
  then_do (ok_of w (encode_swap env)) (fun w b => (w, Ok (match b with Some b => [(mt, b)] | None => [] end))).

Definition confirm_one (w : WorkerState) (swap_id : bytes) : WorkerState :=
  match w_swap w with Some s => with_swap w (confirm_claim s swap_id).1 | None => w end.

Definition attempt_responder_claim (w : WorkerState) (swap_id : bytes) (secret : option bytes)
    (sctx : SwapContext) : WorkerState :=
  let already := bool_decide (is_Some (c ← coordinator w swap_id; c_claim_tx c)) in
  let w :=
    if negb already then
      match secret with
      | None => w
      | Some s =>
          let '(w, built) := sign_claim w sctx s in
          match built with
          | Some (_, tx_id) =>
              match coordinator w swap_id with
              | Some c => put_coordinator w swap_id (note_claim_broadcast c tx_id)
              | None => w
              end
          | None => w
          end
      end
    else w in
  confirm_one w swap_id.

(** The two funding arms. *)
Definition drive_fund (w : WorkerState) (swap_id : bytes) (head : Z) (sctx : SwapContext)
    (leg : SwapLegId) : outcome replies :=
  let '(w, signed) := sign_funding w sctx leg in
  match signed, coordinator w swap_id with
  | Some (wire, id), Some c =>
      then_do (ok_of w (coord_fund c head wire id)) (fun w r =>
      match r with
      | Some (c', fp) => send_env (put_coordinator w swap_id c') MtSwapFundingProof fp
      | None => quiet w
      end)
  | _, _ => quiet w
  end.

(** The claim arm of the initiator. *)
Definition drive_claim (w : WorkerState) (swap_id : bytes) (head : Z) (secret : option bytes)
    (sctx : SwapContext) : outcome replies :=
  let deadline_ok := match coordinator w swap_id with
                     | Some c => reveal_deadline_ok c head | None => false end in
  if negb deadline_ok then quiet w else
  match secret with
  | None => quiet w
  | Some s =>
      let '(w, signed) := sign_claim w sctx s in
      match signed, coordinator w swap_id with
      | Some (wire, id), Some c =>
          then_do (ok_of w (claim_and_reveal c head wire id)) (fun w r =>
          match r with
          | Some (c1, rev) =>
              then_do (ok_of (put_coordinator w swap_id c1) (settle c1)) (fun w r =>
              send_env (match r with Some (c2, _) => put_coordinator w swap_id c2 | None => w end) MtSwapPreimageReveal rev)
          | None => quiet w
          end)
      | _, _ => quiet w
      end
  end.

Definition drive_phase_action (w : WorkerState) (swap_id : bytes) (head : Z) : outcome replies :=
  match coordinator w swap_id with
  | None => quiet w
  | Some c =>
      match c_role c, c_phase c with
      | Initiator, Accepted => drive_fund w swap_id head (c_ctx c) LegNim
      | Responder, InitiatorFunded => drive_fund w swap_id head (c_ctx c) LegCounterparty
      | Initiator, BothFunded => drive_claim w swap_id head (c_secret c) (c_ctx c)
      | Responder, Revealed =>
          quiet (attempt_responder_claim w swap_id (c_secret c) (c_ctx c))
      | _, _ => quiet w
      end
  end.

(** The peer's addresses, handed to the signer for a swap we hold. *)
Definition report_peer (w : WorkerState) (kind : SwapKind) (env : SwapEnvelope) : WorkerState :=
  match coordinator w (e_swap_id env), w_signer w with
  | Some _, Some signer =>
      match kind with
      | Propose =>
          match proposal_from_envelope env with
          | Some p => with_signer w (note_peer signer (e_swap_id env) (p_nim_address p) (p_btc_address p))
          | None => w
          end
      | Accept =>
          match acceptance_from_envelope env with
          | Some a => with_signer w (note_peer signer (e_swap_id env) (a_nim_address a) (a_btc_address a))
          | None => w
          end
      | _ => w
      end
  | _, _ => w
  end.

(** The secret a [PreimageReveal] carries, [tx_wire.get(..32)]. *)
Definition revealed_secret (env : SwapEnvelope) : option bytes :=
  wire ← e_tx_wire env;
  if 32 <=? len wire then Some (take 32 wire) else None.

Definition take_reveal (w : WorkerState) (env : SwapEnvelope) : outcome unit :=
  match revealed_secret env, coordinator w (e_swap_id env) with
  | Some secret, Some c =>
      then_do (ok_of w (recv_reveal c env secret)) (fun w r =>
      (match r with Some (c', _) => put_coordinator w (e_swap_id env) c' | None => w end, Ok tt))
  | _, _ => (w, Ok tt)
  end.

Definition drive_swap (w : WorkerState) (kind : SwapKind) (payload : bytes) (head : Z) : outcome replies :=
  then_do (ok_of w (decode_swap kind payload)) (fun w o =>
  match o with
  | None => quiet w
  | Some env =>
      let w := report_peer w kind env in
      then_do (match kind with PreimageReveal => take_reveal w env | _ => (w, Ok tt) end) (fun w _ =>
      drive_phase_action w (e_swap_id env) head)
  end).

(** ** Discovery *)

Definition derive_swap_id (standing incoming : SwapIntent) : bytes :=
  take 16 (sha256 (i_nim_address standing ++ i_btc_pubkey standing ++ i_btc_pubkey incoming)).

(** The gates of [handle_intent] before the buffer. *)
Definition intent_candidate (s : @SwapSession V) (incoming : SwapIntent) : option bytes :=
  if negb (verify_authentic incoming) then None else
  match id_standing_intent (s_identity s) with
  | None => None
  | Some standing =>
      if negb (would_initiate_against standing incoming)
         || negb (amount_compatible standing incoming) then None else
      if session_len s >=? id_max_concurrent_swaps (s_identity s) then None else
      let swap_id := derive_swap_id standing incoming in
      if bool_decide (is_Some (s_coordinators s !! swap_id)) then None else
      if has_initiated s swap_id then None else Some swap_id
  end.

Definition handle_intent (w : WorkerState) (sender payload : bytes) : outcome replies :=
  then_do (ok_of w (decode_intent payload)) (fun w o =>
  match o, w_swap w with
  | Some incoming, Some s =>
      match intent_candidate s incoming with
      | None => quiet w
      | Some swap_id =>
          let i := w_intents w in
          if matcher_contains (in_matcher i) swap_id then quiet w else
          let '(t, admitted) := throttle_admit (in_throttle i) sender in
          let w := with_intents w
            (mkIntents t (in_advertiser i) (in_matcher i) (in_last_peer_count i)) in
          if negb admitted then quiet w
          else quiet (with_matcher w (add_candidate (in_matcher i) swap_id incoming))
      end
  | _, _ => quiet w
  end).

(** The context of a swap initiated from the standing intent. *)
Definition initiation_ctx (standing : SwapIntent) (swap_id secret : bytes) (head : Z)
  : SwapContext :=
  {| cx_swap_id := swap_id;
     cx_terms := mkTerms (head + 10000) (head + 5000);
     cx_hashlock := sha256 secret;
     cx_nim_address := i_nim_address standing; cx_btc_address := i_btc_address standing;
     cx_btc_pubkey := i_btc_pubkey standing; cx_give_amount := i_nim_amount standing;
     cx_take_amount := i_btc_amount standing; cx_network_id := i_network_id standing;
     cx_term_anchor := head |}.

Definition initiate_from_intent (w : WorkerState) (swap_id : bytes) (head : Z) : outcome replies :=
  match w_swap w with
  | None => quiet w
  | Some s =>
      match id_standing_intent (s_identity s) with
      | None => quiet w
      | Some standing =>
          if bool_decide (is_Some (s_coordinators s !! swap_id)) || has_initiated s swap_id
             || (session_len s >=? id_max_concurrent_swaps (s_identity s)) then quiet w else
          if negb (within_caps s (i_nim_amount standing) (i_btc_amount standing)) then quiet w else
          let secret := s_secret_source s swap_id in
          let ctx := initiation_ctx standing swap_id secret head in
          let '(coord, propose) := new_initiator ctx secret (s_ladder s) in
          let signed := sign_propose s propose in
          send_env (with_swap w (add_initiator s swap_id coord)) MtSwapPropose signed
      end
  end.

(** ** The handlers of the worker *)

Definition record_last (w : WorkerState) (swap_id : bytes) (replies : list (MessageType * bytes))
  : WorkerState :=
  match w_swap w, last replies with
  | Some s, Some (t, p) => with_swap w (record_action s swap_id t p)
  | _, _ => w
  end.

(** A first-seen swap message of a participant (the participant path of
    [handle_swap_packet] for the five swap kinds). *)
Definition handle_swap_message (w : WorkerState) (cached_head : option Z) (kind : SwapKind)
    (payload : bytes) : outcome replies :=
  match w_swap w with
  | None => quiet w
  | Some s =>
      if bool_decide (kind = Propose) && live_headless w cached_head then quiet w else
      let head := default 0 cached_head in
      let '(s, r) := on_message s kind payload head in
      then_do (ok_of (with_swap w s) r) (fun w answered =>
      then_do (drive_swap w kind payload head) (fun w driven =>
      let replies := default [] answered ++ driven in
      then_do (ok_of w (decode_swap kind payload)) (fun w o =>
      (match o with Some env => record_last w (e_swap_id env) replies | None => w end, Ok replies))))
  end.

(** The same for a swap intent: dropped once expired, else matched. *)
Definition handle_intent_packet (w : WorkerState) (cached_head : option Z)
    (sender payload : bytes) : outcome replies :=
  then_do (ok_of w (decode_intent payload)) (fun w o =>
  match o with
  | Some intent => if is_fresh intent (default 0 cached_head) then handle_intent w sender payload else quiet w
  | None => handle_intent w sender payload
  end).

(** [for swap_id in advanced { drive; record; flood }] *)
Fixpoint drive_advanced (w : WorkerState) (head : Z) (ids : list bytes) : outcome replies :=
  match ids with
  | [] => quiet w
  | id :: ids =>
      then_do (drive_phase_action w id head) (fun w now =>
      then_do (drive_advanced (record_last w id now) head ids) (fun w rest => (w, Ok (now ++ rest))))
  end.

Fixpoint drive_retries (w : WorkerState) (head : Z) (ids : list bytes) : outcome replies :=
  match ids with
  | [] => quiet w
  | id :: ids =>
      then_do (drive_phase_action w id head) (fun w now =>
      then_do (drive_retries w head ids) (fun w rest => (w, Ok (now ++ rest))))
  end.

Definition drive_responder_claims (w : WorkerState) (head : Z) : outcome replies :=
  match w_swap w with
  | None => quiet w
  | Some s =>
      if negb (has_claim_work s) then quiet w else
      let '(s, _) := confirm_pending_claims s in
      drive_retries (with_swap w s) head (claims_awaiting_broadcast s)
  end.

Definition readvertise_intent (w : WorkerState) (peers : Z) (head : Z)
  : WorkerState * list (MessageType * bytes) :=
  let i := w_intents w in
  let adv := if peers >? in_last_peer_count i then advertiser_reset (in_advertiser i)
             else in_advertiser i in
  let with_adv a := with_intents w (mkIntents (in_throttle i) a (in_matcher i) peers) in
  match w_swap w with
  | None => (with_adv adv, [])
  | Some s =>
      if negb (bool_decide (s_coordinators s = ∅)) then (with_adv (advertiser_reset adv), []) else
      match id_standing_intent (s_identity s) with
      | Some intent =>
          if is_fresh intent head then
            let '(adv, fire) := on_tick adv in
            (with_adv adv, if fire then [(MtSwapIntent, encode_intent intent)] else [])
          else (with_adv adv, [])
      | None => (with_adv adv, [])
      end
  end.

(** The close of the match window. *)
Definition close_window (w : WorkerState) (cached_head : option Z) (head : Z) : outcome replies :=
  if live_headless w cached_head then quiet w else
  let '(m, best) := matcher_tick (in_matcher (w_intents w)) in
  let w := with_matcher w m in
  match best with
  | Some swap_id =>
      then_do (initiate_from_intent w swap_id head) (fun w out => (record_last w swap_id out, Ok out))
  | None => quiet w
  end.

Fixpoint abort_replies (w : WorkerState) (ids : list bytes) : outcome replies :=
  match ids with
  | [] => quiet w
  | id :: ids =>
      then_do (send_env w MtSwapAbort (abort_envelope id 0)) (fun w now =>
      then_do (abort_replies w ids) (fun w rest => (w, Ok (now ++ rest))))
  end.

(** [session.reverify_awaited_funding()], and the swaps it advanced are driven *)
Definition drive_reverified (w : WorkerState) (head : Z) : outcome replies :=
  match w_swap w with
  | None => quiet w
  | Some s =>
      let '(s, advanced) := reverify_awaited_funding s in
      then_do (with_swap w s, advanced) (fun w advanced => drive_advanced w head advanced)
  end.

(** [session.tick(head)], and the aborts of the stale swaps *)
Definition drive_tick (w : WorkerState) (head : Z) : outcome replies :=
  match w_swap w with
  | None => quiet w
  | Some s => let '(s, aborted) := tick s head in abort_replies (with_swap w s) aborted
  end.

Definition gc_tick (w : WorkerState) (cached_head : option Z) (peers : Z) : outcome replies :=
  match w_swap w with
  | None => quiet w
  | Some s =>
      let head := default 0 cached_head in
      let '(s, out1) := pending_retransmits s in
      then_do (drive_reverified (with_swap w s) head) (fun w out2 =>
      then_do (drive_tick w head) (fun w out3 =>
      then_do (drive_responder_claims w head) (fun w out4 =>
      then_do (close_window w cached_head head) (fun w out5 =>
      let '(w, out6) := readvertise_intent w peers head in
      (w, Ok (out1 ++ out2 ++ out3 ++ out4 ++ out5 ++ out6))))))
  end.

Definition fast_tick (w : WorkerState) (now_ms : Z) (cached_head : option Z) : outcome replies :=
  match w_swap w with
  | None => quiet w
  | Some s =>
      let '(s, due) := fast_due s now_ms in
      if negb due then quiet (with_swap w s) else
      let head := default 0 cached_head in
      then_do (drive_reverified (with_swap w s) head) (fun w out1 =>
      then_do (drive_responder_claims w head) (fun w out2 => (w, Ok (out1 ++ out2))))
  end.
End driver.

(** ** The node as a transition system *)

Inductive NodeEvent (V : Type) : Type :=
| NeMessage (kind : SwapKind) (payload : bytes) (cached_head : option Z)
| NeIntent (sender payload : bytes) (cached_head : option Z)
| NeGcTick (cached_head : option Z) (peers : Z)
| NeFastTick (now_ms : Z) (cached_head : option Z)
| NeChain (v : V)
| NeStop.
Arguments NeMessage {V}.
Arguments NeIntent {V}.
Arguments NeGcTick {V}.
Arguments NeFastTick {V}.
Arguments NeChain {V}.
Arguments NeStop {V}.

Definition event_head {V} (e : NodeEvent V) : Z :=
  match e with
  | NeMessage _ _ h | NeIntent _ _ h | NeGcTick h _ | NeFastTick _ h => default 0 h
  | NeChain _ | NeStop => 0
  end.

Section node.
Context {C : Crypto} {V : Type} {FV : FundingVerifier V} {S : Type} {SG : SwapSigner S}.

Definition node_apply (w : @WorkerState V S) (e : NodeEvent V)
  : WorkerState * res Empty_set (list (MessageType * bytes)) :=
  match e with
  | NeMessage k p h => handle_swap_message w h k p
  | NeIntent sender p h => handle_intent_packet w h sender p
  | NeGcTick h peers => gc_tick w h peers
  | NeFastTick now h => fast_tick w now h
  | NeChain v => quiet (match w_swap w with Some s => with_swap w (with_verifier s v) | None => w end)
  | NeStop => quiet (match w_swap w with Some s => with_swap w (stop_advertising s).1 | None => w end)
  end.

Inductive node_run : WorkerState -> list (NodeEvent V) -> WorkerState -> Prop :=
| node_run_nil w : node_run w [] w
| node_run_snoc w es w1 e :
    node_run w es w1 -> node_run w (es ++ [e]) (node_apply w1 e).1.
End node.

(** ** What the driver does to the session and asks of the signer *)

(** What can be told of the calls a signer was asked to make, last first: everything of a
    [Recorder], nothing of a signer as such. *)
Class TracedSigner (S : Type) `{SwapSigner S} : Type := {
  trace : S -> list SignerCall;
  trace_funding g ctx leg :
    trace (build_funding g ctx leg).1 = CallFunding ctx leg :: trace g \/ trace (build_funding g ctx leg).1 = trace g;
  trace_claim g ctx x : trace (build_claim g ctx x).1 = CallClaim ctx x :: trace g \/ trace (build_claim g ctx x).1 = trace g;
  trace_peer g id a b : trace (note_peer g id a b) = trace g
}.

#[export] Program Instance Recorder_traced {S} `{SwapSigner S} : TracedSigner (Recorder S) := {| trace := rec_calls |}.
Next Obligation. intros S SG g ctx leg. simpl. destruct (build_funding (rec_inner g) ctx leg). now left. Qed.
Next Obligation. intros S SG g ctx x. simpl. destruct (build_claim (rec_inner g) ctx x). now left. Qed.
Next Obligation. reflexivity. Qed.

Program Definition untraced {S} `{SwapSigner S} : TracedSigner S := {| trace := fun _ => [] |}.
Next Obligation. now right. Qed.
Next Obligation. now right. Qed.
Next Obligation. reflexivity. Qed.

Section refinement.
Context {C : Crypto} {V : Type} {FV : FundingVerifier V} {S : Type} {SG : SwapSigner S} {TS : TracedSigner S}.
Implicit Types s : @SwapSession V.
Implicit Types w : @WorkerState V S.
Implicit Types e : NodeEvent V.

Definition ticks e : Prop := match e with NeGcTick _ _ | NeFastTick _ _ => True | _ => False end.
Definition works e : Prop := match e with NeMessage _ _ _ => True | _ => ticks e end.

(** The operations of the session an event may issue: a message only its own message, a change of
    the chain only that change, the removals never. *)
Definition issued e (op : @SessionOp V) : Prop :=
  match op with
  | SoMessage k p h => exists ch, e = NeMessage k p ch /\ h = default 0 ch
  | SoInitiate ctx secret => cx_hashlock ctx = sha256 secret /\ exists ch n, e = NeGcTick ch n
  | SoDrive _ _ | SoConfirmOne _ | SoRecord _ _ _ => works e
  | SoReverify | SoConfirm => ticks e
  | SoTick h => exists ch n, e = NeGcTick ch n /\ h = default 0 ch
  | SoRetransmit => exists ch n, e = NeGcTick ch n
  | SoFast now => exists ch, e = NeFastTick now ch
  | SoChain v => e = NeChain v
  | SoStopAdvertising => e = NeStop
  | SoReap | SoCancel _ | SoRemove _ => False
  end.

Definition sreach s s' : Prop := exists ops, session_run s ops s'.

(** The states of the session an event takes it through *)
Definition ereach e s s' : Prop := exists ops, session_run s ops s' /\ Forall (issued e) ops.

Definition calls w : list SignerCall :=
  match w_signer w with Some g => trace g | None => [] end.

(** When a call is in order for a coordinator at a head. *)
Definition call_ok (head : Z) (c : SwapCoordinator) (call : SignerCall) : Prop :=
  match call with
  | CallFunding ctx leg => ctx = c_ctx c
      /\ ((c_role c = Initiator /\ c_phase c = Accepted /\ leg = LegNim)
          \/ (c_role c = Responder /\ c_phase c = InitiatorFunded /\ leg = LegCounterparty))
  | CallClaim ctx secret => ctx = c_ctx c /\ c_secret c = Some secret
      /\ ((c_role c = Initiator /\ c_phase c = BothFunded
           /\ reveal_is_safe (assess_reveal_deadline (cx_terms ctx) head (c_ladder c)) = true)
          \/ (c_role c = Responder /\ c_phase c = Revealed /\ c_claim_tx c = None))
  end.

Definition justified e s (call : SignerCall) : Prop :=
  exists s1 id c, ereach e s s1 /\ s_coordinators s1 !! id = Some c /\ call_ok (event_head e) c call.

Definition drives e w w' : Prop :=
  exists s s' new, w_swap w = Some s /\ w_swap w' = Some s' /\ ereach e s s'
    /\ calls w' = new ++ calls w /\ Forall (justified e s) new.

Lemma session_run_app s1 o1 s2 o2 s3 :
  session_run s1 o1 s2 -> session_run s2 o2 s3 -> session_run s1 (o1 ++ o2) s3.
Proof.
  intros H1 H2. induction H2 as [|s2 o2 s3 op _ IH]; [now rewrite app_nil_r|].
  rewrite app_assoc. constructor. auto.
Qed.

Lemma sreach_refl s : sreach s s.
Proof. exists []. constructor. Qed.

Lemma sreach_trans s1 s2 s3 : sreach s1 s2 -> sreach s2 s3 -> sreach s1 s3.
Proof. intros [o1 H1] [o2 H2]. exists (o1 ++ o2). eapply session_run_app; eassumption. Qed.

Lemma ereach_sreach e s s' : ereach e s s' -> sreach s s'.
Proof. intros (ops & H & _). now exists ops. Qed.

Lemma ereach_refl e s : ereach e s s.
Proof. exists []. split; constructor. Qed.

Lemma ereach_trans e s1 s2 s3 : ereach e s1 s2 -> ereach e s2 s3 -> ereach e s1 s3.
Proof.
  intros (o1 & H1 & F1) (o2 & H2 & F2). exists (o1 ++ o2). split; [eapply session_run_app; eassumption | now apply Forall_app].
Qed.

Lemma ereach_op e s op : issued e op -> ereach e s (session_apply s op).
Proof. intros Hi. exists [op]. split; [apply (session_run_snoc s [] s op); constructor | now repeat constructor]. Qed.

Lemma drives_session e w s s' w' :
  w_swap w = Some s -> ereach e s s' -> w_swap w' = Some s' -> w_signer w' = w_signer w ->
  drives e w w'.
Proof.
  intros Hw Hr Hw' Hsig. exists s, s', []. unfold calls. rewrite Hsig. split_and!; auto.
Qed.

Lemma drives_op e w s op w' :
  w_swap w = Some s -> issued e op -> w_swap w' = Some (session_apply s op) -> w_signer w' = w_signer w ->
  drives e w w'.
Proof. intros Hw Hi Hw' Hg. eapply drives_session; [exact Hw | exact (ereach_op e s op Hi) | exact Hw' | exact Hg]. Qed.

Lemma drives_refl e w s : w_swap w = Some s -> drives e w w.
Proof. intros H. eapply drives_session; eauto using ereach_refl. Qed.

Lemma drives_trans e w1 w2 w3 : drives e w1 w2 -> drives e w2 w3 -> drives e w1 w3.
Proof.
  intros (s1 & s2 & n1 & H1 & H2 & Hr & Hc & Hf) (s2' & s3 & n2 & H2' & H3 & Hr' & Hc' & Hf').
  rewrite H2 in H2'. injection H2' as <-. exists s1, s3, (n2 ++ n1).
  split_and!; auto; [eapply ereach_trans; eassumption | now rewrite Hc', Hc, app_assoc |].
  apply Forall_app. split; [|exact Hf]. eapply Forall_impl; [exact Hf'|].
  intros call (s4 & id & c & Hs & Hcc). exists s4, id, c. split; [|exact Hcc].
  eapply ereach_trans; eassumption.
Qed.

Lemma drives_some e w w' : drives e w w' -> exists s, w_swap w' = Some s.
Proof. intros (? & s & _ & _ & H & _). eauto. Qed.

(** Sequencing: what follows starts from a state that was driven to. *)
Lemma then_drives {A B} e w (x : WorkerState * res Empty_set A) (k : WorkerState -> A -> WorkerState * res Empty_set B) :
  drives e w x.1 -> (forall w1 s1 a, w_swap w1 = Some s1 -> drives e w1 (k w1 a).1) -> drives e w (then_do x k).1.
Proof.
  intros H Hk. destruct x as [w1 [a|[]|]]; simpl in *; [|exact H]. destruct (drives_some _ _ _ H) as [s1 Hs1].
  eapply drives_trans; [exact H | eapply Hk, Hs1].
Qed.

(** A result whose error is dropped *)
Lemma then_ok_drives {E A B} e w0 w (r : res E A) (k : WorkerState -> option A -> WorkerState * res Empty_set B) :
  drives e w0 w -> (forall a, r = Ok a -> drives e w0 (k w (Some a)).1) -> drives e w0 (k w None).1 ->
  drives e w0 (then_do (ok_of w r) k).1.
Proof. intros H Hs Hn. destruct r as [a|e'|]; simpl; [now apply Hs | exact Hn | exact H]. Qed.

Lemma send_env_state w mt env : (send_env w mt env).1 = w.
Proof. unfold send_env. now destruct (encode_swap env). Qed.

Lemma put_drives e w id c op c' : works e ->
  coordinator w id = Some c -> driver_op c op = true -> apply_op c op = Ok c' ->
  drives e w (put_coordinator w id c').
Proof.
  intros He. unfold coordinator, put_coordinator. destruct (w_swap w) as [s|] eqn:Hw; simpl; [|discriminate].
  intros Hc Hd Hop. apply (drives_op e w s (SoDrive id op)); [exact Hw | exact He | | reflexivity]. simpl. now rewrite Hc, Hd, Hop.
Qed.

Lemma confirm_drives e w s id : works e -> w_swap w = Some s -> drives e w (confirm_one w id).
Proof. intros He Hw. unfold confirm_one. rewrite Hw. now apply (drives_op e w s (SoConfirmOne id)). Qed.

(** A call of the signer that is in order. *)
Lemma sign_drives e w id c (call : SignerCall) :
  coordinator w id = Some c -> call_ok (event_head e) c call ->
  let r := match call with
           | CallFunding ctx leg => sign_funding w ctx leg
           | CallClaim ctx secret => sign_claim w ctx secret
           end in
  drives e w r.1 /\ coordinator r.1 id = Some c.
Proof.
  unfold coordinator. destruct (w_swap w) as [s|] eqn:Hw; simpl; [|discriminate]. intros Hc Hok.
  assert (Hj : forall g', trace g' = call :: calls w \/ trace g' = calls w -> drives e w (with_signer w g')).
  { intros g' [Hg'|Hg']; [exists s, s, [call] | exists s, s, []]; unfold calls at 1; simpl; rewrite Hg';
      split_and!; auto using ereach_refl. constructor; [|constructor]. exists s, id, c. auto using ereach_refl. }
  destruct call; unfold sign_funding, sign_claim, calls in *;
    destruct (w_signer w) as [g|] eqn:Hsg; simpl;
    try (split; [now apply (drives_refl e w s) | now rewrite Hw]).
  - pose proof (trace_funding g ctx leg) as Ht. destruct (build_funding g ctx leg). split; [now apply Hj | simpl; now rewrite Hw].
  - pose proof (trace_claim g ctx secret) as Ht. destruct (build_claim g ctx secret). split; [now apply Hj | simpl; now rewrite Hw].
Qed.

Lemma drive_fund_drives e w id c leg : works e ->
  coordinator w id = Some c -> call_ok (event_head e) c (CallFunding (c_ctx c) leg) ->
  drives e w (drive_fund w id (event_head e) (c_ctx c) leg).1.
Proof.
  intros He Hc Hok. destruct (sign_drives e w id c _ Hc Hok) as [Hd Hc']. simpl in *.
  unfold drive_fund. destruct (sign_funding w (c_ctx c) leg) as [w1 [[wire tx]|]]; [|exact Hd].
  simpl in *. rewrite Hc'. apply then_ok_drives; [exact Hd | | exact Hd].
  intros [c' fp] Hf. rewrite send_env_state. eapply drives_trans; [exact Hd|].
  apply (put_drives e w1 id c (OpFund (event_head e) wire tx)); [exact He | exact Hc' | reflexivity |].
  simpl. now rewrite Hf.
Qed.

Lemma reveal_deadline_safe c head :
  reveal_deadline_ok c head = true ->
  reveal_is_safe (assess_reveal_deadline (cx_terms (c_ctx c)) head (c_ladder c)) = true.
Proof. unfold reveal_deadline_ok. now destruct (assess_reveal_deadline _ _ _). Qed.

Lemma put_coordinator_get w id c s : w_swap w = Some s -> coordinator (put_coordinator w id c) id = Some c.
Proof. intros Hw. unfold coordinator, put_coordinator. rewrite Hw. simpl. apply lookup_insert_eq. Qed.

Lemma drive_claim_drives e w id c : works e ->
  coordinator w id = Some c -> c_role c = Initiator -> c_phase c = BothFunded ->
  drives e w (drive_claim w id (event_head e) (c_secret c) (c_ctx c)).1.
Proof.
  intros He Hc Hr Hp. assert (Hrefl : drives e w w).
  { unfold coordinator in Hc. destruct (w_swap w) eqn:Hw; [|discriminate]. eapply drives_refl, Hw. }
  unfold drive_claim. rewrite Hc. destruct (reveal_deadline_ok c (event_head e)) eqn:Hdl; [|exact Hrefl]. simpl.
  destruct (c_secret c) as [sec|] eqn:Hsec; [|exact Hrefl].
  destruct (sign_drives e w id c (CallClaim (c_ctx c) sec) Hc) as [Hd Hc'].
  { simpl. split_and!; auto using reveal_deadline_safe. }
  simpl in *. destruct (sign_claim w (c_ctx c) sec) as [w1 [[wire tx]|]]; [|exact Hd].
  simpl in *. rewrite Hc'. destruct (drives_some _ _ _ Hd) as [s1 Hs1].
  apply then_ok_drives; [exact Hd | | exact Hd]. intros [c1 rev] Hf.
  assert (Hd1 : drives e w (put_coordinator w1 id c1)).
  { eapply drives_trans; [exact Hd|]. apply (put_drives e w1 id c (OpClaim (event_head e) wire tx)); [exact He | exact Hc' | reflexivity |].
    simpl. now rewrite Hf. }
  apply then_ok_drives; [exact Hd1 | | rewrite send_env_state; exact Hd1].
  intros [c2 u] Hs. rewrite send_env_state. eapply drives_trans; [exact Hd1|].
  apply (put_drives e _ id c1 OpSettle); [exact He | now apply (put_coordinator_get w1 id c1 s1) | | simpl; now rewrite Hs].
  apply bool_decide_eq_true. rewrite <- Hr.
  apply (coord_run_role (V:=V) c [OpClaim (event_head e) wire tx] c1), coord_exec_run. simpl. now rewrite Hf.
Qed.

Lemma attempt_drives e w id c : works e ->
  coordinator w id = Some c -> c_role c = Responder -> c_phase c = Revealed ->
  drives e w (attempt_responder_claim w id (c_secret c) (c_ctx c)).
Proof.
  intros He Hc Hr Hp. assert (Hw : exists s, w_swap w = Some s).
  { unfold coordinator in Hc. destruct (w_swap w); [eauto|discriminate]. }
  destruct Hw as [s Hw]. pose proof (drives_refl e w s Hw) as Hrefl.
  assert (Hcl : has_claim c = true) by (unfold has_claim; rewrite Hr, Hp; reflexivity).
  unfold attempt_responder_claim. rewrite Hc. simpl.
  match goal with |- drives _ _ (confirm_one ?w1 _) => assert (Hd : drives e w w1) end.
  2: { destruct (drives_some _ _ _ Hd) as [s1 Hs1]. eapply drives_trans; [exact Hd|].
       eapply confirm_drives; [exact He | exact Hs1]. }
  destruct (bool_decide_reflect (is_Some (c_claim_tx c))) as [|Hn]; simpl; [exact Hrefl|].
  destruct (c_secret c) as [sec|] eqn:Hsec; [|exact Hrefl].
  destruct (sign_drives e w id c (CallClaim (c_ctx c) sec) Hc) as [Hd Hc'].
  { simpl. split_and!; auto. right. rewrite <- eq_None_not_Some in Hn. auto. }
  simpl in *. destruct (sign_claim w (c_ctx c) sec) as [w1 [[wire tx]|]]; [|exact Hd].
  simpl in *. rewrite Hc'. eapply drives_trans; [exact Hd|].
  now apply (put_drives e w1 id c (OpNoteClaim tx)).
Qed.

Lemma drive_phase_drives e w s id : works e ->
  w_swap w = Some s -> drives e w (drive_phase_action w id (event_head e)).1.
Proof.
  intros He Hw. unfold drive_phase_action. destruct (coordinator w id) as [c|] eqn:Hc;
    [|now apply (drives_refl e w s)].
  destruct (c_role c) eqn:Hr, (c_phase c) eqn:Hp; try now apply (drives_refl e w s).
  - apply drive_fund_drives; [exact He | exact Hc|]. simpl. auto.
  - now apply drive_claim_drives.
  - apply drive_fund_drives; [exact He | exact Hc|]. simpl. auto.
  - now apply attempt_drives.
Qed.

Lemma report_drives e w s k env : w_swap w = Some s -> drives e w (report_peer w k env).
Proof.
  intros Hw. unfold report_peer. destruct (coordinator w (e_swap_id env)); [|now apply (drives_refl e w s)].
  destruct (w_signer w) as [r|] eqn:Hsg; [|now apply (drives_refl e w s)].
  assert (Hn : forall a b, drives e w (with_signer w (note_peer r (e_swap_id env) a b))).
  { intros a b. exists s, s, []. unfold calls. rewrite Hsg. simpl. rewrite trace_peer. auto using ereach_refl. }
  destruct k; try now apply (drives_refl e w s).
  - destruct (proposal_from_envelope env); [apply Hn | now apply (drives_refl e w s)].
  - destruct (acceptance_from_envelope env); [apply Hn | now apply (drives_refl e w s)].
Qed.

Lemma take_reveal_drives e w s env : works e -> w_swap w = Some s -> drives e w (take_reveal w env).1.
Proof.
  intros He Hw. pose proof (drives_refl e w s Hw) as Hrefl.
  unfold take_reveal. destruct (revealed_secret env) as [sec|]; [|exact Hrefl].
  destruct (coordinator w (e_swap_id env)) as [c|] eqn:Hc; [|exact Hrefl].
  apply then_ok_drives; [exact Hrefl | | exact Hrefl]. intros [c' x] Hr.
  apply (put_drives e w _ c (OpRecvReveal env sec)); [exact He | exact Hc | reflexivity | simpl; now rewrite Hr].
Qed.

Lemma drive_swap_drives e w s k p : works e ->
  w_swap w = Some s -> drives e w (drive_swap w k p (event_head e)).1.
Proof.
  intros He Hw. pose proof (drives_refl e w s Hw) as Hrefl. unfold drive_swap.
  apply then_ok_drives; [exact Hrefl | | exact Hrefl]. intros env _.
  pose proof (report_drives e w s k env Hw) as H1. destruct (drives_some _ _ _ H1) as [s1 Hs1].
  apply then_drives; [|intros w2 s2 [] Hs2; now apply (drive_phase_drives e w2 s2)].
  destruct k; try exact H1. eapply drives_trans; [exact H1|]. now apply (take_reveal_drives e _ s1).
Qed.

Lemma record_drives e w s id l : works e -> w_swap w = Some s -> drives e w (record_last w id l).
Proof.
  intros He Hw. unfold record_last. rewrite Hw. destruct (last l) as [[t p]|]; [|now apply (drives_refl e w s)].
  now apply (drives_op e w s (SoRecord id t p)).
Qed.

Lemma drive_advanced_drives e ids : works e -> forall w s,
  w_swap w = Some s -> drives e w (drive_advanced w (event_head e) ids).1.
Proof.
  intros He. induction ids as [|id ids IH]; intros w s Hw; simpl; [now apply (drives_refl e w s)|].
  apply then_drives; [now apply (drive_phase_drives e w s)|]. intros w1 s1 now Hs1.
  pose proof (record_drives e w1 s1 id now He Hs1) as H2. destruct (drives_some _ _ _ H2) as [s2 Hs2].
  apply then_drives; [eapply drives_trans; [exact H2 | now apply (IH _ s2)]|].
  intros w3 s3 rest Hs3. now apply (drives_refl e w3 s3).
Qed.

Lemma drive_retries_drives e ids : works e -> forall w s,
  w_swap w = Some s -> drives e w (drive_retries w (event_head e) ids).1.
Proof.
  intros He. induction ids as [|id ids IH]; intros w s Hw; simpl; [now apply (drives_refl e w s)|].
  apply then_drives; [now apply (drive_phase_drives e w s)|]. intros w1 s1 now Hs1.
  apply then_drives; [now apply (IH _ s1)|]. intros w3 s3 rest Hs3. now apply (drives_refl e w3 s3).
Qed.

Lemma ticks_works e : ticks e -> works e.
Proof. now destruct e. Qed.

Lemma responder_claims_drives e w s : ticks e ->
  w_swap w = Some s -> drives e w (drive_responder_claims w (event_head e)).1.
Proof.
  intros He Hw. unfold drive_responder_claims. rewrite Hw.
  destruct (has_claim_work s); simpl; [|now apply (drives_refl e w s)].
  destruct (confirm_pending_claims s) as [s1 l] eqn:E.
  eapply (drives_trans e w (with_swap w s1)).
  - apply (drives_op e w s SoConfirm); [exact Hw | exact He | simpl; now rewrite E | reflexivity].
  - apply (drive_retries_drives e _ (ticks_works e He) (with_swap w s1) s1 eq_refl).
Qed.

Lemma initiate_drives e w s id ch n : e = NeGcTick ch n ->
  w_swap w = Some s -> drives e w (initiate_from_intent w id (event_head e)).1.
Proof.
  intros He Hw. unfold initiate_from_intent. rewrite Hw.
  destruct (id_standing_intent (s_identity s)) as [st|] eqn:Hst; [|now apply (drives_refl e w s)].
  destruct (_ || _ || _) eqn:Hg; [now apply (drives_refl e w s)|].
  destruct (within_caps s (i_nim_amount st) (i_btc_amount st)) eqn:Hcap; simpl;
    [|now apply (drives_refl e w s)].
  set (sec := s_secret_source s id). set (ctx := initiation_ctx st id sec (event_head e)).
  assert (Hm : may_initiate s ctx = true).
  { rewrite !orb_false_iff in Hg. destruct Hg as [[H1 H2] H3]. unfold may_initiate. simpl.
    rewrite H1, H2, Hcap. simpl. rewrite Z.geb_leb, Z.leb_gt in H3. rewrite andb_true_r.
    now apply Z.ltb_lt. }
  rewrite send_env_state. apply (drives_op e w s (SoInitiate ctx sec)); [exact Hw | | simpl; now rewrite Hm | reflexivity].
  split; [reflexivity | eauto].
Qed.

Lemma close_drives e w s h n : e = NeGcTick h n -> w_swap w = Some s -> drives e w (close_window w h (event_head e)).1.
Proof.
  intros He Hw. unfold close_window. destruct (live_headless w h); [now apply (drives_refl e w s)|].
  destruct (matcher_tick (in_matcher (w_intents w))) as [m best].
  assert (H1 : drives e w (with_matcher w m)) by (apply (drives_session e w s s); auto using ereach_refl).
  destruct best as [id|]; [|exact H1].
  apply then_drives; [eapply drives_trans; [exact H1 | now apply (initiate_drives e _ s id h n)]|].
  intros w2 s2 out Hs2. apply (record_drives e w2 s2); [now rewrite He | exact Hs2].
Qed.

Lemma readvertise_drives e w s n h : w_swap w = Some s -> drives e w (readvertise_intent w n h).1.
Proof.
  intros Hw. unfold readvertise_intent. rewrite Hw.
  destruct (negb _); [apply (drives_session e w s s); auto using ereach_refl|].
  destruct (id_standing_intent (s_identity s)) as [i|];
    [|apply (drives_session e w s s); auto using ereach_refl].
  destruct (is_fresh i h); [|apply (drives_session e w s s); auto using ereach_refl].
  destruct (on_tick _). apply (drives_session e w s s); auto using ereach_refl.
Qed.

Lemma abort_replies_state ids : forall w, (abort_replies w ids).1 = w.
Proof.
  induction ids as [|id ids IH]; intros w; simpl; [reflexivity|].
  pose proof (send_env_state w MtSwapAbort (abort_envelope id 0)) as H1.
  destruct (send_env _ _ _) as [w1 [now|[]|]]; simpl in *; subst w1; [|reflexivity].
  specialize (IH w). destruct (abort_replies w ids) as [w2 [rest|[]|]]; exact IH.
Qed.

Lemma reverified_drives e w s : ticks e -> w_swap w = Some s -> drives e w (drive_reverified w (event_head e)).1.
Proof.
  intros He Hw. unfold drive_reverified. rewrite Hw. destruct (reverify_awaited_funding s) as [s1 adv] eqn:E.
  apply then_drives; [|intros w1 s2 ids Hs2; now apply (drive_advanced_drives e ids (ticks_works e He) _ s2)].
  apply (drives_op e w s SoReverify); [exact Hw | exact He | simpl; now rewrite E | reflexivity].
Qed.

Lemma tick_drives e w s ch n : e = NeGcTick ch n -> w_swap w = Some s -> drives e w (drive_tick w (event_head e)).1.
Proof.
  intros He Hw. unfold drive_tick. rewrite Hw. destruct (tick s (event_head e)) as [s1 ids] eqn:E. rewrite abort_replies_state.
  apply (drives_op e w s (SoTick (event_head e))); [exact Hw | subst e; simpl; eauto | | reflexivity].
  change (Some s1 = Some (tick s (event_head e)).1). now rewrite E.
Qed.

Lemma gc_tick_drives e w s h n : e = NeGcTick h n -> w_swap w = Some s -> drives e w (gc_tick w h n).1.
Proof.
  intros He Hw. assert (Ht : ticks e) by now rewrite He. unfold gc_tick. rewrite Hw.
  replace (default 0 h) with (event_head e) by now rewrite He. destruct (pending_retransmits s) as [s1 out1] eqn:E1.
  apply then_drives.
  { eapply (drives_trans e w (with_swap w s1)); [|now apply (reverified_drives e _ s1)].
    apply (drives_op e w s SoRetransmit); [exact Hw | simpl; eauto | change (Some s1 = Some (pending_retransmits s).1); now rewrite E1 | reflexivity]. }
  intros w2 s2 out2 Hs2. apply then_drives; [now apply (tick_drives e w2 s2 h n)|].
  intros w3 s3 out3 Hs3. apply then_drives; [now apply (responder_claims_drives e w3 s3)|].
  intros w4 s4 out4 Hs4. apply then_drives; [now apply (close_drives e w4 s4 h n)|].
  intros w5 s5 out5 Hs5. pose proof (readvertise_drives e w5 s5 n (event_head e) Hs5) as H.
  destruct (readvertise_intent w5 n (event_head e)). exact H.
Qed.

Lemma fast_tick_drives e w s now h : e = NeFastTick now h -> w_swap w = Some s -> drives e w (fast_tick w now h).1.
Proof.
  intros He Hw. assert (Ht : ticks e) by now rewrite He. unfold fast_tick. rewrite Hw.
  destruct (fast_due s now) as [s1 due] eqn:E1. assert (H1 : drives e w (with_swap w s1)).
  { apply (drives_op e w s (SoFast now)); [exact Hw | simpl; eauto | simpl; now rewrite E1 | reflexivity]. }
  destruct due; simpl; [|exact H1]. replace (default 0 h) with (event_head e) by now rewrite He.
  apply then_drives; [eapply drives_trans; [exact H1 | now apply (reverified_drives e _ s1)]|].
  intros w2 s2 out1 Hs2. apply then_drives; [now apply (responder_claims_drives e w2 s2)|].
  intros w3 s3 out2 Hs3. now apply (drives_refl e w3 s3).
Qed.

Lemma message_drives e w s h k p : e = NeMessage k p h ->
  w_swap w = Some s -> drives e w (handle_swap_message w h k p).1.
Proof.
  intros He Hw. assert (Hk : works e) by now rewrite He. unfold handle_swap_message. rewrite Hw.
  destruct (bool_decide (k = Propose) && live_headless w h); [now apply (drives_refl e w s)|].
  replace (default 0 h) with (event_head e) by now rewrite He.
  destruct (on_message s k p (event_head e)) as [s1 r] eqn:E1.
  assert (H1 : drives e w (with_swap w s1)).
  { apply (drives_op e w s (SoMessage k p (event_head e))); [exact Hw | subst e; simpl; eauto | | reflexivity].
    change (Some s1 = Some (on_message s k p (event_head e)).1). now rewrite E1. }
  assert (Hrest : forall answered, drives e w (then_do (drive_swap (with_swap w s1) k p (event_head e)) (fun w driven =>
      let replies := default [] answered ++ driven in
      then_do (ok_of w (decode_swap k p)) (fun w o =>
      (match o with Some env => record_last w (e_swap_id env) replies | None => w end, Ok replies)))).1).
  { intros answered. apply then_drives; [eapply drives_trans; [exact H1 | now apply (drive_swap_drives e _ s1)]|].
    intros w2 s2 driven Hs2. pose proof (drives_refl e w2 s2 Hs2) as Hrefl.
    apply then_ok_drives; [exact Hrefl | | exact Hrefl]. intros env _. now apply (record_drives e w2 s2). }
  apply then_ok_drives; [exact H1 | intros a _; apply (Hrest (Some a)) | apply (Hrest None)].
Qed.

Lemma intent_drives e w s h sender p :
  w_swap w = Some s -> drives e w (handle_intent_packet w h sender p).1.
Proof.
  intros Hw. pose proof (drives_refl e w s Hw) as Hrefl.
  assert (H1 : drives e w (handle_intent w sender p).1).
  { unfold handle_intent. apply then_ok_drives; [exact Hrefl | | exact Hrefl]. intros i _.
    rewrite Hw. destruct (intent_candidate s i) as [id|]; [|exact Hrefl].
    destruct (matcher_contains _ id); [exact Hrefl|].
    destruct (throttle_admit _ sender) as [t ok].
    destruct ok; simpl; apply (drives_session e w s s); auto using ereach_refl. }
  unfold handle_intent_packet. apply then_ok_drives; [exact Hrefl | | exact H1]. intros i _.
  destruct (is_fresh i (default 0 h)); [exact H1 | exact Hrefl].
Qed.

(** Every event of the node is a run of the operations it may issue, and every call it makes
    of the signer is in order. *)
Lemma node_apply_drives w s e :
  w_swap w = Some s -> drives e w (node_apply w e).1.
Proof.
  intros Hw. destruct e eqn:He; simpl; rewrite <- He.
  - now apply (message_drives e w s).
  - now apply (intent_drives _ w s).
  - now apply (gc_tick_drives e w s).
  - now apply (fast_tick_drives e w s).
  - rewrite Hw. apply (drives_op e w s (SoChain v)); [exact Hw | exact He | reflexivity..].
  - rewrite Hw. apply (drives_op e w s SoStopAdvertising); [exact Hw | exact He | reflexivity..].
Qed.

Lemma node_run_sreach w es w' s :
  node_run w es w' -> w_swap w = Some s -> exists s', w_swap w' = Some s' /\ sreach s s'.
Proof.
  induction 1 as [w|w es w1 e _ IH]; intros Hw; [eauto using sreach_refl|].
  destruct (IH Hw) as (s1 & Hs1 & Hr).
  destruct (node_apply_drives w1 s1 e Hs1) as (s1' & s2 & new & H1 & H2 & H3 & _).
  rewrite Hs1 in H1. injection H1 as <-. exists s2. split; [exact H2|]. eapply sreach_trans; [exact Hr | eapply ereach_sreach, H3].
Qed.
End refinement.

(** ** Panics *)

Section panics.
Context {C : Crypto} {V : Type} {FV : FundingVerifier V} {S : Type} {SG : SwapSigner S}.
Implicit Types w : @WorkerState V S.

(** A payload is bytes. *)
Definition swap_payload_ok (e : NodeEvent V) : Prop :=
  match e with NeMessage _ p _ | NeIntent _ p _ => bytes_ok p | _ => True end.

Lemma then_total {A B} (x : WorkerState * res Empty_set A) (k : WorkerState -> A -> WorkerState * res Empty_set B) :
  x.2 <> Panic -> (forall w a, (k w a).2 <> Panic) -> (then_do x k).2 <> Panic.
Proof. destruct x as [w [a|e|]]; simpl; [auto | destruct e | auto]. Qed.

Lemma then_ok_total {E A B} w (r : res E A) (k : WorkerState -> option A -> WorkerState * res Empty_set B) :
  r <> Panic -> (forall o, (k w o).2 <> Panic) -> (then_do (ok_of w r) k).2 <> Panic.
Proof. destruct r; simpl; auto. Qed.

Lemma decode_intent_total p : bytes_ok p -> decode_intent p <> Panic.
Proof. intros Hb E. pose proof (decode_intent_spec p Hb) as H. rewrite E in H. exact H. Qed.

Lemma quiet_total w : (quiet w).2 <> Panic.
Proof. discriminate. Qed.

Lemma send_env_total w mt env : (send_env w mt env).2 <> Panic.
Proof. apply then_ok_total; [apply encode_swap_total | discriminate]. Qed.

Lemma drive_fund_total w id head ctx leg : (drive_fund w id head ctx leg).2 <> Panic.
Proof.
  unfold drive_fund. destruct (sign_funding w ctx leg) as [w1 [[wire tx]|]]; [|discriminate]. destruct (coordinator w1 id) as [c|]; [|discriminate].
  apply then_ok_total; [exact (coord_total (V:=V) c (OpFund head wire tx) _ eq_refl)|]. intros [[c' fp]|]; [apply send_env_total | discriminate].
Qed.

Lemma drive_claim_total w id head secret ctx : (drive_claim w id head secret ctx).2 <> Panic.
Proof.
  unfold drive_claim. destruct (negb _); [discriminate|]. destruct secret as [x|]; [|discriminate].
  destruct (sign_claim w ctx x) as [w1 [[wire tx]|]]; [|discriminate]. destruct (coordinator w1 id) as [c|]; [|discriminate].
  apply then_ok_total; [exact (coord_total (V:=V) c (OpClaim head wire tx) _ eq_refl)|]. intros [[c1 rev]|]; [|discriminate].
  apply then_ok_total; [exact (coord_total (V:=V) c1 OpSettle _ eq_refl)|]. intros o. apply send_env_total.
Qed.

Lemma drive_phase_total w id head : (drive_phase_action w id head).2 <> Panic.
Proof.
  unfold drive_phase_action. destruct (coordinator w id) as [c|]; [|discriminate].
  destruct (c_role c), (c_phase c); try discriminate; first [apply drive_fund_total | apply drive_claim_total].
Qed.

Lemma take_reveal_total w env : (take_reveal w env).2 <> Panic.
Proof.
  unfold take_reveal. destruct (revealed_secret env) as [x|]; [|discriminate]. destruct (coordinator w _) as [c|]; [|discriminate].
  apply then_ok_total; [exact (coord_total (V:=V) c (OpRecvReveal env x) _ eq_refl) | discriminate].
Qed.

Lemma drive_swap_total w k p head : bytes_ok p -> (drive_swap w k p head).2 <> Panic.
Proof.
  intros Hb. apply then_ok_total; [now apply decode_swap_no_panic|]. intros [env|]; [|discriminate].
  apply then_total; [destruct k; try discriminate; apply take_reveal_total | intros w1 []; apply drive_phase_total].
Qed.

Lemma message_total w h k p : bytes_ok p -> (handle_swap_message w h k p).2 <> Panic.
Proof.
  intros Hb. unfold handle_swap_message. destruct (w_swap w) as [s|]; [|discriminate]. destruct (_ && _); [discriminate|].
  pose proof (on_message_total s k p (default 0 h) Hb) as Hm. destruct (on_message s k p (default 0 h)) as [s1 r].
  apply then_ok_total; [exact Hm|]. intros answered. apply then_total; [now apply drive_swap_total|].
  intros w1 driven. apply then_ok_total; [now apply decode_swap_no_panic | discriminate].
Qed.

Lemma intent_total w h sender p : bytes_ok p -> (handle_intent_packet w h sender p).2 <> Panic.
Proof.
  intros Hb. assert (Hi : decode_intent p <> Panic) by now apply decode_intent_total.
  assert (H : forall w, (handle_intent w sender p).2 <> Panic).
  { intros w1. apply then_ok_total; [exact Hi|]. intros [i|]; [|discriminate]. destruct (w_swap w1) as [s|]; [|discriminate].
    destruct (intent_candidate s i); [|discriminate]. simpl. case_match; [discriminate|].
    destruct (throttle_admit _ sender) as [t []]; discriminate. }
  apply then_ok_total; [exact Hi|]. intros [i|]; [|apply H]. destruct (is_fresh _ _); [apply H | discriminate].
Qed.

Lemma drive_advanced_total head ids : forall w, (drive_advanced w head ids).2 <> Panic.
Proof.
  induction ids as [|id ids IH]; intros w; simpl; [discriminate|]. apply then_total; [apply drive_phase_total|].
  intros w1 now. apply then_total; [apply IH | discriminate].
Qed.

Lemma drive_retries_total head ids : forall w, (drive_retries w head ids).2 <> Panic.
Proof.
  induction ids as [|id ids IH]; intros w; simpl; [discriminate|]. apply then_total; [apply drive_phase_total|].
  intros w1 now. apply then_total; [apply IH | discriminate].
Qed.

Lemma abort_replies_total ids : forall w, (abort_replies w ids).2 <> Panic.
Proof.
  induction ids as [|id ids IH]; intros w; simpl; [discriminate|]. apply then_total; [apply send_env_total|].
  intros w1 now. apply then_total; [apply IH | discriminate].
Qed.

Lemma responder_claims_total w head : (drive_responder_claims w head).2 <> Panic.
Proof.
  unfold drive_responder_claims. destruct (w_swap w) as [s|]; [|discriminate]. destruct (negb _); [discriminate|].
  destruct (confirm_pending_claims s). apply drive_retries_total.
Qed.

Lemma reverified_total w head : (drive_reverified w head).2 <> Panic.
Proof.
  unfold drive_reverified. destruct (w_swap w) as [s|]; [|discriminate].
  pose proof (reverify_total s) as Hv. destruct (reverify_awaited_funding s) as [s1 adv].
  apply then_total; [exact Hv | intros; apply drive_advanced_total].
Qed.

Lemma drive_tick_total w head : (drive_tick w head).2 <> Panic.
Proof. unfold drive_tick. destruct (w_swap w) as [s|]; [|discriminate]. destruct (tick s head). apply abort_replies_total. Qed.

Lemma close_total w h head : (close_window w h head).2 <> Panic.
Proof.
  unfold close_window. destruct (live_headless w h); [discriminate|]. destruct (matcher_tick _) as [m [id|]]; [|discriminate].
  apply then_total; [|discriminate]. unfold initiate_from_intent. destruct (w_swap _) as [s|]; [|discriminate].
  destruct (id_standing_intent _) as [st|]; [|discriminate]. do 2 (case_match; [discriminate|]). destruct (new_initiator _ _ _). apply send_env_total.
Qed.

(** No event panics the driver. *)
Lemma node_apply_total w e : swap_payload_ok e -> (node_apply w e).2 <> Panic.
Proof.
  destruct e; simpl; intros Hb; try discriminate.
  - now apply message_total.
  - now apply intent_total.
  - unfold gc_tick. destruct (w_swap w) as [s|]; [|discriminate]. destruct (pending_retransmits s) as [s1 out1].
    apply then_total; [apply reverified_total|]. intros. apply then_total; [apply drive_tick_total|]. intros.
    apply then_total; [apply responder_claims_total|]. intros. apply then_total; [apply close_total|]. intros.
    destruct (readvertise_intent _ _ _). discriminate.
  - unfold fast_tick. destruct (w_swap w) as [s|]; [|discriminate]. destruct (fast_due s now_ms) as [s1 []]; [|discriminate].
    apply then_total; [apply reverified_total|]. intros. apply then_total; [apply responder_claims_total | discriminate].
Qed.
End panics.

(** ** The throttle *)

(** Run a list of attempts; the answers in order. *)
Fixpoint admit_all (t : IntentThrottle) (l : list bytes) : list bool :=
  match l with
  | [] => []
  | x :: l => let '(t, ok) := throttle_admit t x in ok :: admit_all t l
  end.

(** The number of admitted attempts of one sender. *)
Fixpoint admitted (x : bytes) (l : list bytes) (answers : list bool) : Z :=
  match l, answers with
  | y :: l, a :: answers =>
      (if bool_decide (y = x) && a then 1 else 0) + admitted x l answers
  | _, _ => 0
  end.

Fixpoint occurrences (x : bytes) (l : list bytes) : Z :=
  match l with
  | [] => 0
  | y :: l => (if bool_decide (y = x) then 1 else 0) + occurrences x l
  end.

Lemma occurrences_nonneg x l : 0 <= occurrences x l.
Proof. induction l as [|y l IH]; simpl; [lia|]. case_bool_decide; lia. Qed.

(** The table and the queue hold the same senders, within bounds. *)
Record throttle_ok (t : IntentThrottle) : Prop := {
  tk_dom : forall x, is_Some (th_counts t !! x) <-> x ∈ th_order t;
  tk_nodup : NoDup (th_order t);
  tk_len : len (th_order t) <= th_max_senders t;
  tk_pos : 0 < th_max_senders t /\ 0 < th_cap_per_sender t;
  tk_count : forall x n, th_counts t !! x = Some n -> 1 <= n <= th_cap_per_sender t
}.

Lemma throttle_new_ok : throttle_ok throttle_new.
Proof.
  constructor; simpl.
  - intros x. rewrite lookup_empty. split; [now intros [? ?] | now intros ?%elem_of_nil].
  - apply NoDup_nil_2.
  - vm_compute. congruence.
  - vm_compute. auto.
  - intros x n. rewrite lookup_empty. discriminate.
Qed.

Lemma throttle_size t : throttle_ok t -> Z.of_nat (size (th_counts t)) <= th_max_senders t.
Proof.
  intros [Hd Hn Hl _ _]. rewrite <- size_dom. replace (dom (th_counts t)) with (list_to_set (th_order t) : gset (list Z)).
  - rewrite size_list_to_set by exact Hn. exact Hl.
  - apply set_eq. intros x. rewrite elem_of_list_to_set, elem_of_dom. symmetry. apply Hd.
Qed.

Lemma admit_ok t x : throttle_ok t -> throttle_ok (throttle_admit t x).1.
Proof.
  intros [Hd Hn Hl [Hm Hc] Hk]. unfold throttle_admit.
  destruct (th_counts t !! x) as [n|] eqn:Hx.
  - destruct (n >=? th_cap_per_sender t) eqn:Hcap; [now constructor|].
    rewrite Z.geb_leb, Z.leb_gt in Hcap. constructor; simpl; auto.
    + intros y. destruct (decide (y = x)) as [->|Hy]; [|rewrite lookup_insert_ne by congruence; auto].
      rewrite lookup_insert_eq. rewrite <- Hd, Hx. split; eauto.
    + intros y m. destruct (decide (y = x)) as [->|Hy];
        [|rewrite lookup_insert_ne by congruence; apply Hk].
      rewrite lookup_insert_eq. intros [= <-]. specialize (Hk x n Hx). lia.
  - assert (Hnx : x ∉ th_order t) by (rewrite <- Hd, Hx; now intros [? ?]).
    destruct (len (th_order t) >=? th_max_senders t) eqn:Hfull.
    + destruct (th_order t) as [|old rest] eqn:Ho.
      { rewrite Z.geb_leb, Z.leb_le in Hfull. unfold len in Hfull. simpl in Hfull. lia. }
      inversion Hn as [|? ? Hold Hrest]; subst.
      assert (Hxo : x <> old /\ x ∉ rest) by (split; intros ?; apply Hnx; subst; [left | now right]).
      constructor; simpl; auto.
      * intros y. rewrite elem_of_app, list_elem_of_singleton.
        destruct (decide (y = x)) as [->|Hy]; [rewrite lookup_insert_eq; split; eauto|].
        rewrite lookup_insert_ne by congruence.
        destruct (decide (y = old)) as [->|Hyo].
        { rewrite lookup_delete_eq. split; [now intros [? ?] | intros [?|?]; congruence]. }
        rewrite lookup_delete_ne by congruence. rewrite Hd, elem_of_cons. tauto.
      * apply NoDup_app. split_and!; [exact Hrest | | apply NoDup_singleton].
        intros y Hy ->%list_elem_of_singleton. tauto.
      * rewrite len_app. rewrite len_cons in Hl. unfold len at 2. simpl. lia.
      * intros y m. destruct (decide (y = x)) as [->|Hy];
          [rewrite lookup_insert_eq; intros [= <-]; lia|].
        rewrite lookup_insert_ne by congruence. intros [_ H]%lookup_delete_Some. eauto.
    + rewrite Z.geb_leb, Z.leb_gt in Hfull. constructor; simpl; auto.
      * intros y. rewrite elem_of_app, list_elem_of_singleton.
        destruct (decide (y = x)) as [->|Hy]; [rewrite lookup_insert_eq; split; eauto|].
        rewrite lookup_insert_ne by congruence. rewrite Hd. tauto.
      * apply NoDup_app. split_and!; [exact Hn | | apply NoDup_singleton].
        intros y Hy ->%list_elem_of_singleton. tauto.
      * rewrite len_app. unfold len at 2. simpl. lia.
      * intros y m. destruct (decide (y = x)) as [->|Hy];
          [rewrite lookup_insert_eq; intros [= <-]; lia|].
        rewrite lookup_insert_ne by congruence. apply Hk.
Qed.

(** While the table has room for every sender still to come, each sender gets
    exactly what is left of its budget. *)
Lemma admit_all_spec l : forall t x,
  throttle_ok t ->
  Z.of_nat (size (list_to_set (th_order t) ∪ list_to_set l : gset (list Z))) <= th_max_senders t ->
  admitted x l (admit_all t l)
  = Z.min (occurrences x l) (th_cap_per_sender t - default 0 (th_counts t !! x)).
Proof.
  induction l as [|y l IH]; intros t x Hok Hsz; simpl.
  - pose proof (tk_count t Hok x) as Hk. pose proof (tk_pos t Hok) as [_ Hc].
    destruct (th_counts t !! x) as [n|]; simpl; [specialize (Hk n eq_refl)|]; lia.
  - pose proof (admit_ok t y Hok) as Hok'. pose proof (tk_count t Hok) as Hk.
    pose proof (tk_pos t Hok) as [_ Hcp]. pose proof (occurrences_nonneg x l) as Hocc.
    unfold throttle_admit in *. destruct (th_counts t !! y) as [n|] eqn:Hy.
    + assert (Hin : y ∈ th_order t) by (apply (tk_dom t Hok); eauto).
      replace (list_to_set (th_order t) ∪ list_to_set (y :: l) : gset (list Z))
        with (list_to_set (th_order t) ∪ list_to_set l : gset (list Z)) in Hsz
        by (simpl; set_solver).
      specialize (Hk y n Hy).
      destruct (n >=? th_cap_per_sender t) eqn:Hcap; rewrite Z.geb_leb in Hcap; bool_prop; simpl in *;
        (rewrite IH; [|exact Hok'|exact Hsz]); simpl;
        destruct (bool_decide_reflect (y = x)) as [->|Hyx]; simpl;
        rewrite ?lookup_insert_eq, ?lookup_insert_ne, ?Hy by congruence; simpl; lia.
    + assert (Hny : y ∉ th_order t) by (rewrite <- (tk_dom t Hok), Hy; now intros [? ?]).
      assert (Hroom : len (th_order t) < th_max_senders t).
      { assert (Hsub : list_to_set (th_order t ++ [y])
                       ⊆ (list_to_set (th_order t) ∪ list_to_set (y :: l) : gset (list Z)))
          by (rewrite list_to_set_app; simpl; set_solver).
        apply subseteq_size in Hsub. rewrite size_list_to_set in Hsub.
        - rewrite length_app in Hsub. cbn [length] in Hsub. unfold len. lia.
        - apply NoDup_app. split_and!; [apply (tk_nodup t Hok) | | apply NoDup_singleton].
          intros z Hz ->%list_elem_of_singleton. tauto. }
      destruct (len (th_order t) >=? th_max_senders t) eqn:Hf; rewrite Z.geb_leb in Hf; bool_prop;
        [lia|]. simpl in *. rewrite IH; [|exact Hok'|].
      * simpl. destruct (bool_decide_reflect (y = x)) as [->|Hyx]; simpl;
          rewrite ?lookup_insert_eq, ?lookup_insert_ne, ?Hy by congruence; simpl; lia.
      * simpl. rewrite list_to_set_app. simpl.
        replace (list_to_set (th_order t) ∪ ({[y]} ∪ ∅) ∪ list_to_set l : gset (list Z))
          with (list_to_set (th_order t) ∪ ({[y]} ∪ list_to_set l) : gset (list Z)) by set_solver.
        exact Hsz.
Qed.

(** ** The tables of discovery *)

(** At most 256 senders, none counted beyond four, and at most 64 candidates. *)
Record intents_ok (i : IntentState) : Prop := {
  ik_throttle : throttle_ok (in_throttle i);
  ik_cap : th_cap_per_sender (in_throttle i) = DEFAULT_INTENT_MATCH_CAP_PER_SENDER;
  ik_senders : th_max_senders (in_throttle i) = MAX_TRACKED_INTENT_SENDERS;
  ik_candidates : len (im_candidates (in_matcher i)) <= MAX_INTENT_CANDIDATES
}.

Lemma intents_new_ok : intents_ok intent_state_new.
Proof. constructor; [apply throttle_new_ok | reflexivity..|vm_compute; congruence]. Qed.

Lemma admit_limits t x :
  th_cap_per_sender (throttle_admit t x).1 = th_cap_per_sender t /\ th_max_senders (throttle_admit t x).1 = th_max_senders t.
Proof. unfold throttle_admit. repeat case_match; auto. Qed.

Lemma candidate_room m id i : len (im_candidates m) <= MAX_INTENT_CANDIDATES -> len (im_candidates (add_candidate m id i)) <= MAX_INTENT_CANDIDATES.
Proof.
  intros H. unfold add_candidate. destruct (Z.geb_spec (len (im_candidates m)) MAX_INTENT_CANDIDATES); [exact H|].
  cbn [im_candidates]. rewrite len_app. unfold len at 2. cbn [length]. lia.
Qed.

Lemma matcher_tick_room m : len (im_candidates m) <= MAX_INTENT_CANDIDATES -> len (im_candidates (matcher_tick m).1) <= MAX_INTENT_CANDIDATES.
Proof. intros H. unfold matcher_tick. repeat case_match; try exact H. vm_compute. congruence. Qed.

Section tables.
Context {C : Crypto} {V : Type} {FV : FundingVerifier V} {S : Type} {SG : SwapSigner S}.
Implicit Types w : @WorkerState V S.

(** A handler leaves the tables in order. *)
Abbreviation tidy w := (intents_ok (w_intents w)).

Lemma then_tidy {A B} (x : WorkerState * res Empty_set A) (k : WorkerState -> A -> WorkerState * res Empty_set B) :
  tidy x.1 -> (forall w a, tidy w -> tidy (k w a).1) -> tidy (then_do x k).1.
Proof. destruct x as [w [a|[]|]]; simpl; auto. Qed.

Lemma ok_tidy {E A} w (r : res E A) : tidy w -> tidy (ok_of w r).1.
Proof. by destruct r. Qed.

Lemma send_tidy w mt env : tidy w -> tidy (send_env w mt env).1.
Proof. by rewrite send_env_state. Qed.

Lemma put_tidy w id c : tidy w -> tidy (put_coordinator w id c).
Proof. unfold put_coordinator. by case_match. Qed.

Lemma sign_tidy w ctx : tidy w -> (forall leg, tidy (sign_funding w ctx leg).1) /\ forall x, tidy (sign_claim w ctx x).1.
Proof. intros H. unfold sign_funding, sign_claim. split; intros; case_match; try exact H; case_match; exact H. Qed.

Lemma record_tidy w id l : tidy w -> tidy (record_last w id l).
Proof. unfold record_last. intros H. repeat case_match; exact H. Qed.

#[local] Hint Resolve ok_tidy send_tidy put_tidy record_tidy : tidy.

(** Walk through a handler. *)
#[local] Ltac tidying :=
  repeat first
    [ assumption | solve [auto with tidy] | progress intros
    | match goal with |- intents_ok (w_intents (then_do _ _).1) => apply then_tidy end
    | match goal with |- context [match ?x with _ => _ end] => destruct x end
    | progress cbn [fst quiet] ].

Lemma drive_fund_tidy w id head ctx leg : tidy w -> tidy (drive_fund w id head ctx leg).1.
Proof. intros H. unfold drive_fund. pose proof (proj1 (sign_tidy w ctx H) leg). destruct (sign_funding w ctx leg) as [w1 o]. cbn [fst] in *. tidying. Qed.

Lemma confirm_tidy w id : tidy w -> tidy (confirm_one w id).
Proof. unfold confirm_one. by case_match. Qed.

Lemma attempt_tidy w id x ctx : tidy w -> tidy (attempt_responder_claim w id x ctx).
Proof.
  intros H. unfold attempt_responder_claim. apply confirm_tidy. destruct (negb _); [|exact H]. destruct x as [x|]; [|exact H].
  pose proof (proj2 (sign_tidy w ctx H) x). destruct (sign_claim w ctx x) as [w1 o]. cbn [fst] in *. tidying.
Qed.

Lemma drive_claim_tidy w id head x ctx : tidy w -> tidy (drive_claim w id head x ctx).1.
Proof.
  intros H. unfold drive_claim. destruct (negb _); [exact H|]. destruct x as [x|]; [|exact H].
  pose proof (proj2 (sign_tidy w ctx H) x). destruct (sign_claim w ctx x) as [w1 o]. cbn [fst] in *. tidying.
Qed.

#[local] Hint Resolve drive_fund_tidy attempt_tidy drive_claim_tidy : tidy.

Lemma drive_phase_tidy w id head : tidy w -> tidy (drive_phase_action w id head).1.
Proof. intros H. unfold drive_phase_action. destruct (coordinator w id) as [c|]; [|exact H]. destruct (c_role c), (c_phase c); cbn [fst quiet]; auto with tidy. Qed.

Lemma report_tidy w k env : tidy w -> tidy (report_peer w k env).
Proof. intros H. unfold report_peer. repeat case_match; exact H. Qed.

Lemma take_reveal_tidy w env : tidy w -> tidy (take_reveal w env).1.
Proof. intros H. unfold take_reveal. tidying. Qed.

#[local] Hint Resolve drive_phase_tidy report_tidy take_reveal_tidy : tidy.

Lemma drive_swap_tidy w k p head : tidy w -> tidy (drive_swap w k p head).1.
Proof.
  intros H. unfold drive_swap. apply then_tidy; [now apply ok_tidy|]. intros w1 [env|] H1; [|exact H1].
  apply then_tidy; [destruct k; cbn [fst]; auto with tidy | intros; auto with tidy].
Qed.

Lemma drive_advanced_tidy head ids : forall w, tidy w -> tidy (drive_advanced w head ids).1.
Proof. induction ids as [|id ids IH]; intros w H; simpl; [exact H|]. apply then_tidy; [auto with tidy|]. intros. apply then_tidy; auto with tidy. Qed.

Lemma drive_retries_tidy head ids : forall w, tidy w -> tidy (drive_retries w head ids).1.
Proof. induction ids as [|id ids IH]; intros w H; simpl; [exact H|]. apply then_tidy; [auto with tidy|]. intros. apply then_tidy; auto. Qed.

#[local] Hint Resolve drive_swap_tidy drive_advanced_tidy drive_retries_tidy : tidy.

Lemma message_tidy w h k p : tidy w -> tidy (handle_swap_message w h k p).1.
Proof.
  intros H. unfold handle_swap_message. destruct (w_swap w) as [s|]; [|exact H]. destruct (_ && _); [exact H|].
  destruct (on_message s k p _) as [s1 r]. tidying.
Qed.

Lemma responder_claims_tidy w head : tidy w -> tidy (drive_responder_claims w head).1.
Proof.
  intros H. unfold drive_responder_claims. destruct (w_swap w) as [s|]; [|exact H]. destruct (negb _); [exact H|].
  destruct (confirm_pending_claims s). now apply drive_retries_tidy.
Qed.

Lemma reverified_tidy w head : tidy w -> tidy (drive_reverified w head).1.
Proof.
  intros H. unfold drive_reverified. destruct (w_swap w) as [s|]; [|exact H]. destruct (reverify_awaited_funding s) as [s1 r].
  apply then_tidy; auto with tidy.
Qed.

Lemma drive_tick_tidy w head : tidy w -> tidy (drive_tick w head).1.
Proof. intros H. unfold drive_tick. destruct (w_swap w) as [s|]; [|exact H]. destruct (tick s head). by rewrite abort_replies_state. Qed.

Lemma matcher_tidy w m : tidy w -> len (im_candidates m) <= MAX_INTENT_CANDIDATES -> tidy (with_matcher w m).
Proof. intros [] Hm. by constructor. Qed.

Lemma close_tidy w h head : tidy w -> tidy (close_window w h head).1.
Proof.
  intros H. unfold close_window. destruct (live_headless w h); [exact H|].
  pose proof (matcher_tick_room _ (ik_candidates _ H)) as Hm. destruct (matcher_tick _) as [m [id|]]; cbn [fst] in *; [|by apply matcher_tidy].
  apply then_tidy; [|intros; cbn [fst]; auto with tidy]. unfold initiate_from_intent. pose proof (matcher_tidy w m H Hm) as H1.
  destruct (w_swap _) as [s|]; [|exact H1]. destruct (id_standing_intent _) as [st|]; [|exact H1]. do 2 (case_match; [exact H1|]).
  destruct (new_initiator _ _ _). by rewrite send_env_state.
Qed.

Lemma readvertise_tidy w n h : tidy w -> tidy (readvertise_intent w n h).1.
Proof. intros []. unfold readvertise_intent. repeat (case_match; try by constructor). Qed.

Lemma intent_tidy w sender p : tidy w -> tidy (handle_intent w sender p).1.
Proof.
  intros H. unfold handle_intent. apply then_tidy; [now apply ok_tidy|]. clear w H. intros w [i|] H; [|exact H].
  destruct (w_swap w) as [s|]; [|exact H]. destruct (intent_candidate s i) as [id|]; [|exact H]. cbv zeta. destruct (matcher_contains _ id); [exact H|].
  destruct H as [Ht Hc Hs Hm]. pose proof (admit_ok _ sender Ht) as Ha. pose proof (admit_limits (in_throttle (w_intents w)) sender) as [Hc' Hs'].
  destruct (throttle_admit _ sender) as [t ok]. cbn [fst] in *.
  assert (H1 : tidy (with_intents w (mkIntents t (in_advertiser (w_intents w)) (in_matcher (w_intents w)) (in_last_peer_count (w_intents w)))))
    by (constructor; cbn; congruence).
  destruct (negb ok); [exact H1|]. cbn [fst quiet]. apply matcher_tidy; [exact H1 | by apply candidate_room].
Qed.

#[local] Hint Resolve message_tidy responder_claims_tidy reverified_tidy drive_tick_tidy close_tidy intent_tidy : tidy.

Lemma node_apply_tidy w e : tidy w -> tidy (node_apply w e).1.
Proof.
  intros H. destruct e; cbn [node_apply]; [auto with tidy | | | | by case_match..].
  - unfold handle_intent_packet. tidying.
  - unfold gc_tick. destruct (w_swap w) as [s|]; [|exact H]. destruct (pending_retransmits s) as [s1 out1].
    do 4 (apply then_tidy; [auto with tidy | intros]).
    match goal with |- context [readvertise_intent ?w _ _] => pose proof (readvertise_tidy w peers (default 0 cached_head) ltac:(assumption)) as Hr end.
    destruct (readvertise_intent _ _ _). exact Hr.
  - unfold fast_tick. destruct (w_swap w) as [s|]; [|exact H]. destruct (fast_due s now_ms) as [s1 []]; [|exact H].
    apply then_tidy; [auto with tidy | intros]. apply then_tidy; auto with tidy.
Qed.

Lemma node_run_tidy w es w' : node_run w es w' -> tidy w -> tidy w'.
Proof. induction 1 as [|w es w1 e _ IH]; auto using node_apply_tidy. Qed.

(** A node holds at most the swaps its maximum allows, or those it started with. *)
Lemma node_run_room w es w' s : node_run w es w' -> w_swap w = Some s ->
  exists s', w_swap w' = Some s' /\ session_len s' <= Z.max (session_len s) (id_max_concurrent_swaps (s_identity s)).
Proof.
  intros H Hs. destruct (node_run_sreach (TS := untraced) _ _ _ _ H Hs) as (s' & Hs' & ops & Hr).
  exists s'. split; [exact Hs' | eapply session_run_room, Hr].
Qed.
End tables.

(** ** The best candidate *)

Lemma bytes_leb_refl a : bytes_leb a a = true.
Proof. induction a as [|x a IH]; simpl; [reflexivity|]. rewrite Z.eqb_refl, IH. now rewrite orb_true_r. Qed.

Lemma bytes_leb_cons x a y b :
  bytes_leb (x :: a) (y :: b) = true <-> x < y \/ (x = y /\ bytes_leb a b = true).
Proof. simpl. now rewrite orb_true_iff, andb_true_iff, Z.ltb_lt, Z.eqb_eq. Qed.

Lemma bytes_leb_trans a : forall b c,
  bytes_leb a b = true -> bytes_leb b c = true -> bytes_leb a c = true.
Proof.
  induction a as [|x a IH]; intros [|y b] [|z c]; try (simpl; congruence).
  rewrite !bytes_leb_cons. intros [?|[-> ?]] [?|[-> ?]]; eauto; try (left; lia).
Qed.

Lemma bytes_leb_total a : forall b, bytes_leb a b = true \/ bytes_leb b a = true.
Proof.
  induction a as [|x a IH]; intros [|y b]; auto. rewrite !bytes_leb_cons.
  destruct (IH b), (Z.lt_total x y) as [?|[?|?]]; auto.
Qed.

(** At least as good for the NIM giver: more of the counter asset per NIM, or
    the same rate and a smaller id. *)
Definition at_least (a b : bytes * SwapIntent) : Prop :=
  i_btc_amount b.2 * i_nim_amount a.2 < i_btc_amount a.2 * i_nim_amount b.2
  \/ (i_btc_amount b.2 * i_nim_amount a.2 = i_btc_amount a.2 * i_nim_amount b.2
      /\ bytes_leb a.1 b.1 = true).

Definition offer_ok (c : bytes * SwapIntent) : Prop :=
  uN 64 (i_btc_amount c.2) /\ uN 64 (i_nim_amount c.2) /\ 0 < i_nim_amount c.2.

Lemma at_least_refl a : at_least a a.
Proof. right. split; [reflexivity | apply bytes_leb_refl]. Qed.

(** Comparing rates over positive denominators. *)
Lemma rate_trans p1 q1 p2 q2 p3 q3 :
  0 < q1 -> 0 < q2 -> 0 < q3 -> p2 * q1 <= p1 * q2 -> p3 * q2 <= p2 * q3 -> p3 * q1 <= p1 * q3.
Proof. intros. apply (Z.mul_le_mono_pos_r _ _ q2); [assumption|]. nia. Qed.

Lemma rate_trans_lt p1 q1 p2 q2 p3 q3 :
  0 < q1 -> 0 < q2 -> 0 < q3 -> p2 * q1 <= p1 * q2 -> p3 * q2 <= p2 * q3 ->
  p2 * q1 < p1 * q2 \/ p3 * q2 < p2 * q3 -> p3 * q1 < p1 * q3.
Proof. intros. apply (Z.mul_lt_mono_pos_r q2); [assumption|]. nia. Qed.

Lemma at_least_trans a b c :
  offer_ok a -> offer_ok b -> offer_ok c -> at_least a b -> at_least b c -> at_least a c.
Proof.
  intros (_ & _ & Ha) (_ & _ & Hb) (_ & _ & Hc). unfold at_least. intros H1 H2.
  destruct H1 as [H1|[H1 L1]]; [left|]; [|destruct H2 as [H2|[H2 L2]]; [left|right]].
  - apply (rate_trans_lt _ _ (i_btc_amount b.2) (i_nim_amount b.2)); auto; lia.
  - apply (rate_trans_lt _ _ (i_btc_amount b.2) (i_nim_amount b.2)); auto; lia.
  - split; [|eapply bytes_leb_trans; eassumption].
    apply (Z.mul_reg_r _ _ (i_nim_amount b.2)); [lia|]. nia.
Qed.

Lemma better_spec best c :
  offer_ok best -> offer_ok c ->
  (better best c = best \/ better best c = c)
  /\ at_least (better best c) best /\ at_least (better best c) c.
Proof.
  intros (H1 & H2 & _) (H3 & H4 & _). unfold better, at_least.
  rewrite !u64_product by assumption.
  destruct (Z.gtb_spec (i_btc_amount c.2 * i_nim_amount best.2)
              (i_btc_amount best.2 * i_nim_amount c.2)) as [Hgt|Hle]; simpl.
  { split_and!; auto. right. split; [lia | apply bytes_leb_refl]. }
  destruct (Z.eqb_spec (i_btc_amount c.2 * i_nim_amount best.2)
              (i_btc_amount best.2 * i_nim_amount c.2)) as [Heq|Hne]; simpl.
  - unfold bytes_ltb. destruct (bytes_leb c.1 best.1) eqn:Hl; simpl.
    + destruct (bytes_eqb c.1 best.1) eqn:He; simpl.
      * apply bool_decide_eq_true in He. rewrite He.
        split_and!; auto; right; split; auto using bytes_leb_refl; lia.
      * split_and!; auto; right; split; auto using bytes_leb_refl; lia.
    + destruct (bytes_leb_total c.1 best.1) as [?|Ht]; [congruence|].
      split_and!; auto; right; split; auto using bytes_leb_refl; lia.
  - split_and!; auto; [right; split; auto using bytes_leb_refl; lia | left; lia].
Qed.

Lemma foldl_better_spec l : forall c,
  offer_ok c -> Forall offer_ok l ->
  (foldl better c l = c \/ foldl better c l ∈ l) /\ offer_ok (foldl better c l)
  /\ at_least (foldl better c l) c /\ Forall (at_least (foldl better c l)) l.
Proof.
  induction l as [|d l IH]; intros c Hc Hl; simpl; [auto using at_least_refl|].
  inversion Hl as [|? ? Hd Hl']; subst.
  destruct (better_spec c d Hc Hd) as (Hor & H1 & H2).
  assert (Hb : offer_ok (better c d)) by (destruct Hor as [-> | ->]; assumption).
  destruct (IH (better c d) Hb Hl') as (Hin & Hok & Hb' & Hall).
  split_and!; auto.
  - destruct Hin as [->|Hin]; [|right; now right].
    destruct Hor as [-> | ->]; [now left | right; left].
  - eapply at_least_trans; [exact Hok | exact Hb | exact Hc | exact Hb' | exact H1].
  - constructor; [|exact Hall].
    eapply at_least_trans; [exact Hok | exact Hb | exact Hd | exact Hb' | exact H2].
Qed.

(** ** Properties *)

(** The driver refines the session.  However packets arrive (hostile ones
    included), ticks fire and the chain changes, what a node's worker does to
    its swap session, funding, claiming, settling, initiating, retransmitting
    and reaping, is a run of the session's own operations; so everything shown
    for every run of a session holds of every node. *)
Theorem node_refines `{Crypto} {V} `{FundingVerifier V} {S} `{SwapSigner S}
    (w w' : @WorkerState V (Recorder S)) (s : SwapSession) (es : list (NodeEvent V))
    (Hw : w_swap w = Some s) (Hrun : node_run w es w') :
  exists s' ops, w_swap w' = Some s' /\ session_run s ops s'.
Proof.
  destruct (node_run_sreach w es w' s Hrun Hw) as (s' & Hs' & ops & Hr). eauto.
Qed.

(** What a responder expects of the NIM leg, and an initiator of the other *)
Definition nim_expectation (ctx : SwapContext) : HtlcExpectation :=
  mkExpect LegNim (cx_hashlock ctx) (cx_give_amount ctx) (nim_timeout (cx_terms ctx)) (cx_nim_address ctx) (cx_term_anchor ctx).
Definition counter_expectation (ctx : SwapContext) : HtlcExpectation :=
  mkExpect LegCounterparty (cx_hashlock ctx) (cx_take_amount ctx) (counterparty_timeout (cx_terms ctx)) (cx_btc_pubkey ctx)
    (cx_term_anchor ctx).

Section gate.
Context `{Crypto} {V} `{FundingVerifier V} {S} `{SwapSigner S}.
Implicit Types w : @WorkerState V (Recorder S).
Implicit Types e : NodeEvent V.

(** In the run of the node through [es] there is an event during which the session's verifier
    observed an HTLC that meets the expectation, at the depth. *)
Definition seen_in_run w0 (es : list (NodeEvent V)) (x : HtlcExpectation) (depth : Z) : Prop :=
  exists es1 e1 es2 w1 s1 s2 a t d, es = es1 ++ e1 :: es2 /\ node_run w0 es1 w1 /\ w_swap w1 = Some s1 /\ ereach e1 s1 s2
    /\ observe (s_verifier s2) x = Found a t d /\ x_min_amount x <= a /\ x_min_timeout x <= t /\ depth <= d.

(** What must hold of each kind of call the node makes of the signer when, in [w] after [es], the
    event [e] comes in: it is for a coordinator of the session, at the right phase for its role. *)
Definition call_gated w0 (es : list (NodeEvent V)) w e (p : ConfirmationPolicy) (ch : Asset) (l : LadderParams) (call : SignerCall) : Prop :=
  exists s s1 id c, w_swap w = Some s /\ ereach e s s1 /\ s_coordinators s1 !! id = Some c /\
  match call with
  | CallFunding ctx LegNim => c_ctx c = ctx /\ c_role c = Initiator /\ c_phase c = Accepted /\ c_peer_btc_pubkey c <> None
  | CallFunding ctx LegCounterparty => c_ctx c = ctx /\ c_role c = Responder /\ c_phase c = InitiatorFunded
      /\ seen_in_run w0 (es ++ [e]) (nim_expectation ctx) (cp_nim p)
  | CallClaim ctx secret => c_ctx c = ctx /\ c_secret c = Some secret /\
      match c_role c with
      | Initiator => c_phase c = BothFunded
          /\ seen_in_run w0 (es ++ [e]) (counter_expectation ctx) (required p ch)
          /\ min_claim_window_blocks l <= sat_sub (counterparty_timeout (cx_terms ctx)) (event_head e)
      | Responder => c_phase c = Revealed /\ c_claim_tx c = None /\ sha256 secret = cx_hashlock ctx
          /\ seen_in_run w0 (es ++ [e]) (nim_expectation ctx) (cp_nim p)
      end
  end.

Lemma seen_snoc w0 es e x depth : seen_in_run w0 es x depth -> seen_in_run w0 (es ++ [e]) x depth.
Proof.
  intros (es1 & e1 & es2 & w1 & s1 & s2 & a & t & d & -> & Hrest). exists es1, e1, (es2 ++ [e]), w1, s1, s2, a, t, d.
  split; [now rewrite <- app_assoc | exact Hrest].
Qed.

Context (w0 : @WorkerState V (Recorder S)) (s0 : @SwapSession V) (Hw0 : w_swap w0 = Some s0)
  (Hemp : forall id c, s_coordinators s0 !! id = Some c -> saw_funding (c_role c) (c_phase c) = false).

(** A coordinator past its gate during an event: it was past it before the event, or the
    verification is one of the event's. *)
Lemma event_gate es w s e s1 id c :
  node_run w0 es w -> w_swap w = Some s -> ereach e s s1 ->
  (forall id c, s_coordinators s !! id = Some c -> saw_funding (c_role c) (c_phase c) = true ->
     seen_in_run w0 es (counterparty_expectation c) (depth_of s0 (c_role c))) ->
  s_coordinators s1 !! id = Some c -> saw_funding (c_role c) (c_phase c) = true ->
  seen_in_run w0 (es ++ [e]) (counterparty_expectation c) (depth_of s0 (c_role c)).
Proof.
  intros Hrun Hs (ops & Hops & Hiss) IH Hc Hsaw. destruct (session_run_gate _ _ _ Hops id c Hc Hsaw)
    as [(c0 & Hc0 & Hsaw0 & Hr & Hx)|(o1 & o2 & s2 & d & -> & Hrun2 & (a & t & Ho & Ha & Ht & Hd)%require_funded_iff)].
  - apply seen_snoc. rewrite (expectation_static c0 c), Hr by assumption. now apply (IH id c0).
  - apply Forall_app in Hiss as [Hiss _]. exists es, e, [], w, s, s2, a, t, d. split_and!; auto; [exists o1; auto|].
    destruct (node_run_sreach w0 es w s0 Hrun Hw0) as (s' & Hs' & ops0 & Hr0). rewrite Hs in Hs'. injection Hs' as <-.
    destruct (session_run_config _ _ _ (session_run_app _ _ _ _ _ Hr0 Hrun2)) as [Hcfg _].
    now rewrite <- (same_config_depth _ _ _ Hcfg).
Qed.

Lemma run_gate wa es w : node_run wa es w -> wa = w0 -> forall s id c, w_swap w = Some s -> s_coordinators s !! id = Some c ->
  saw_funding (c_role c) (c_phase c) = true -> seen_in_run w0 es (counterparty_expectation c) (depth_of s0 (c_role c)).
Proof.
  induction 1 as [wa|wa es w1 e Hrun IH]; intros E s id c Hs Hc Hsaw; subst wa.
  - rewrite Hw0 in Hs. injection Hs as <-. rewrite (Hemp id c Hc) in Hsaw. discriminate.
  - specialize (IH eq_refl). destruct (node_run_sreach _ _ _ s0 Hrun Hw0) as (s1 & Hs1 & _).
    destruct (node_apply_drives w1 s1 e Hs1) as (s1' & s2 & new & K1 & K2 & K3 & _). rewrite Hs1 in K1. injection K1 as <-.
    rewrite Hs in K2. injection K2 as <-. eapply event_gate; eauto.
Qed.

(** A call that is in order during an event is gated. *)
Lemma justified_gated es w s e call : session_ok s0 ->
  node_run w0 es w -> w_swap w = Some s -> justified e s call ->
  call_gated w0 es w e (s_confirm_policy s0) (s_counterparty_chain s0) (s_ladder s0) call.
Proof.
  intros Hok Hrun Hs (s1 & id & c & Hr & Hc & Hcall).
  destruct (node_run_sreach w0 es w s0 Hrun Hw0) as (s' & Hs' & Hreach). rewrite Hs in Hs'. injection Hs' as <-.
  destruct (sreach_trans _ _ _ Hreach (ereach_sreach _ _ _ Hr)) as [ops Hops].
  pose proof (session_run_ok _ _ _ Hok Hops) as [Hborn _]. destruct (session_run_config _ _ _ Hops) as [(Hl & _) _].
  assert (Hco : coord_ok c /\ c_ladder c = s_ladder s0).
  { destruct (Hborn id c Hc) as (r & ctx & sec & cops & Hcr & _).
    pose proof (coord_run_run _ _ _ Hcr) as (_ & _ & Hlad). split.
    - eapply coord_run_ok; [|exact Hcr]. destruct r; [apply new_initiator_ok | apply new_responder_ok].
    - rewrite Hlad, <- Hl. now destruct r. }
  assert (Hsaw : saw_funding (c_role c) (c_phase c) = true ->
            seen_in_run w0 (es ++ [e]) (counterparty_expectation c) (depth_of s0 (c_role c))).
  { intros Hsaw. eapply event_gate; eauto. intros id' c' Hc' Hsaw'. eapply run_gate; eauto. }
  assert (Hnim : c_role c = Responder -> saw_funding Responder (c_phase c) = true ->
            seen_in_run w0 (es ++ [e]) (nim_expectation (c_ctx c)) (cp_nim (s_confirm_policy s0))).
  { intros Hro. rewrite Hro in Hsaw. intros Hp%Hsaw. revert Hp. unfold counterparty_expectation, depth_of, c_role in *. now rewrite Hro. }
  destruct Hco as [Hco Hlad]. exists s, s1, id, c. split_and!; [exact Hs | exact Hr | exact Hc|].
  destruct call as [ctx leg|ctx sec]; simpl in Hcall.
  - destruct Hcall as [-> [(Hro & Hph & ->)|(Hro & Hph & ->)]].
    + split_and!; auto. apply (co_peer c Hco). rewrite Hph. discriminate.
    + split_and!; auto. apply Hnim; [exact Hro | now rewrite Hph].
  - destruct Hcall as (-> & Hsec & Hcase). split_and!; auto. destruct Hcase as [(Hro & Hph & Hsafe)|(Hro & Hph & Htx)]; rewrite Hro.
    + split_and!; [exact Hph | | rewrite <- Hlad; now apply reveal_safe_iff].
      rewrite Hro, Hph in Hsaw. specialize (Hsaw eq_refl). revert Hsaw. unfold counterparty_expectation, depth_of, c_role in *. now rewrite Hro.
    + split_and!; auto; [|apply Hnim; [exact Hro | now rewrite Hph]].
      pose proof (co_resp_secret c Hco Hro) as Hx. now rewrite Hsec in Hx.
Qed.
End gate.

(** C3: the money path is gated on the chain.  Start a node with a new session
    and any signer, run it through any events, and let one more event [e] come
    in.  Every call this makes of the signer is for a coordinator the session
    holds during [e], on that coordinator's terms, and is in order for its role:
    - the NIM leg is funded only by an initiator whose peer has accepted;
    - the counterparty leg is funded only by a responder after, during one of the
      events of this very run, the session's own verifier has observed the
      initiator's HTLC on the NIM chain with the agreed hashlock, amount, timeout
      and this node as recipient, at the depth the policy demands;
    - the secret is used by an initiator only after the verifier has observed the
      counterparty's HTLC the same way in this run, and while the whole claim window
      before [T_B] is still open at the head of [e];
    - it is used by a responder only to claim the NIM HTLC observed in this run, with
      a secret that opens the agreed hashlock, and while no claim of it is recorded. *)
Theorem money_path_gated `{Crypto} {V} `{FundingVerifier V} {S} `{SwapSigner S}
    (i : NodeIdentity) (l : LadderParams) (v : V) (sg : option EnclaveKey)
    (p : ConfirmationPolicy) (ch : Asset) (src : bytes -> bytes) (sim : bool)
    (caps : option SwapCaps) (signer : S) (ints : IntentState) (es : list (NodeEvent V))
    (e : NodeEvent V) (w : @WorkerState V (Recorder S))
    (w0 := mkWorker (Some (session_new i l v sg p ch src sim caps)) (Some (mkRecorder signer [])) ints)
    (Hrun : node_run w0 es w) :
  exists new, calls (node_apply w e).1 = new ++ calls w
    /\ forall call, call ∈ new -> call_gated w0 es w e p ch l call.
Proof.
  destruct (node_run_sreach _ es w _ Hrun eq_refl) as (s & Hs & Hr).
  destruct (node_apply_drives w s e Hs) as (s1 & s2 & new & K1 & _ & _ & Hc & Hf).
  rewrite Hs in K1. injection K1 as <-. exists new. split; [exact Hc|].
  intros call Hin. rewrite Forall_forall in Hf.
  apply (justified_gated w0 (session_new i l v sg p ch src sim caps) eq_refl (session_new_empty _ _ _ _ _ _ _ _ _) es w s e call);
    [apply session_new_ok | exact Hrun | exact Hs | auto].
Qed.

(** The intent throttle is exact.  Over any sequence of match attempts by at
    most 256 distinct senders, a sender that makes [n] attempts gets exactly
    [min n 4] of them admitted, whatever the others do: one flooder can neither
    exceed its own budget nor use up another's. *)
Theorem throttle_exact (l : list bytes) (x : bytes)
    (Hl : Z.of_nat (size (list_to_set l : gset (list Z))) <= 256) :
  admitted x l (admit_all throttle_new l) = Z.min (occurrences x l) 4.
Proof.
  rewrite (admit_all_spec l throttle_new x throttle_new_ok).
  - simpl. rewrite lookup_empty. simpl. unfold DEFAULT_INTENT_MATCH_CAP_PER_SENDER. lia.
  - simpl. rewrite (left_id_L ∅ (∪)). exact Hl.
Qed.

Lemma throttle_exact_witness :
  admitted [1] [[1]; [2]; [1]; [1]; [1]; [1]; [2]]
    (admit_all throttle_new [[1]; [2]; [1]; [1]; [1]; [1]; [2]]) = 4.
Proof. apply (throttle_exact [[1]; [2]; [1]; [1]; [1]; [1]; [2]] [1]). vm_compute. congruence. Defined.

(** The match window picks the best offer.  When the window closes over
    candidates whose amounts are [u64] and whose NIM amount is positive, the
    swap id chosen is that of a candidate which no other beats: every other
    offers strictly less of the counter asset per NIM (compared exactly, the
    128-bit products do not overflow), or the same rate under an id that is not
    smaller; the buffer is emptied. *)
Theorem match_window_best (m : IntentMatcher) (Hw : im_window m = 1)
    (Hc : Forall offer_ok (im_candidates m)) (Hn : im_candidates m <> []) :
  exists best, matcher_tick m = (mkMatcher [] 0, Some best.1)
    /\ best ∈ im_candidates m /\ forall c, c ∈ im_candidates m -> at_least best c.
Proof.
  unfold matcher_tick, matcher_best. rewrite Hw. simpl.
  destruct (im_candidates m) as [|c l]; [contradiction|].
  inversion Hc as [|? ? Hc1 Hl]; subst.
  destruct (foldl_better_spec l c Hc1 Hl) as (Hin & _ & H1 & Hall).
  exists (foldl better c l). split_and!; [reflexivity | |].
  - destruct Hin as [->|Hin]; [left | now right].
  - intros d [->|Hd]%elem_of_cons; [exact H1|]. rewrite Forall_forall in Hall. auto.
Qed.

(** ** Concrete nodes *)

Definition sample_worker : @WorkerState LedgerVerifier (Recorder MockSigner) :=
  mkWorker (Some sample_session) (Some (mkRecorder Mock [])) intent_state_new.

Definition node_exec {V} `{FundingVerifier V} {S} `{SwapSigner S} (w : @WorkerState V S)
    (es : list (NodeEvent V)) : WorkerState := foldl (fun w e => (node_apply w e).1) w es.

Lemma node_exec_run {V} `{FundingVerifier V} {S} `{SwapSigner S} (w : @WorkerState V S) es :
  node_run w es (node_exec w es).
Proof.
  induction es as [|e es IH] using rev_ind; [constructor|].
  unfold node_exec in *. rewrite foldl_app. simpl. now constructor.
Qed.

Definition sample_events : list (NodeEvent LedgerVerifier) :=
  [NeMessage Propose (sample_bytes sample_propose) (Some 100)].

Definition sample_proof_event : NodeEvent LedgerVerifier :=
  NeMessage FundingProof (sample_bytes sample_proof) (Some 110).

Definition sample_node_ctx : SwapContext :=
  mkContext sample_id (mkTerms 10000 5000) (sha256 (replicate 32 7)) (replicate 20 4)
    [98] (replicate 33 3) 1000 50 5 100.

Lemma node_refines_witness :
  exists s' ops, w_swap (node_exec sample_worker sample_events) = Some s'
    /\ session_run sample_session ops s'.
Proof.
  exact (node_refines sample_worker (node_exec sample_worker sample_events) sample_session
           sample_events eq_refl (node_exec_run sample_worker sample_events)).
Defined.

(** The responder of the sample swap funds its leg when the proof arrives, and it has seen the
    funding it answers: the verifier shows it then. *)
Lemma money_path_gated_witness :
  calls (node_apply (node_exec sample_worker sample_events) sample_proof_event).1
    = [CallFunding sample_node_ctx LegCounterparty]
  /\ seen_in_run sample_worker (sample_events ++ [sample_proof_event]) (nim_expectation sample_node_ctx) 2.
Proof.
  assert (Hcalls : calls (node_apply (node_exec sample_worker sample_events) sample_proof_event).1
    = [CallFunding sample_node_ctx LegCounterparty]) by (vm_compute; reflexivity).
  split; [exact Hcalls|].
  destruct (money_path_gated sample_identity ladder_default sample_chain None testnet_defaults ABtc
    (fun _ => replicate 32 7) false None Mock intent_state_new sample_events sample_proof_event
    (node_exec sample_worker sample_events) (node_exec_run sample_worker sample_events))
    as (new & Hnew & Hall).
  destruct (Hall (CallFunding sample_node_ctx LegCounterparty)) as (s & s1 & id & c & _ & _ & _ & _ & _ & _ & Hseen); [|exact Hseen].
  assert (H0 : calls (node_exec sample_worker sample_events) = []) by (vm_compute; reflexivity).
  rewrite H0, app_nil_r in Hnew. rewrite <- Hnew, Hcalls. left.
Defined.

Definition sample_window : IntentMatcher :=
  mkMatcher [(replicate 16 9, sample_intent); (replicate 16 8, sample_intent)] 1.

Lemma match_window_best_witness :
  exists best, matcher_tick sample_window = (mkMatcher [] 0, Some best.1)
    /\ at_least best (replicate 16 9, sample_intent).
Proof.
  destruct (match_window_best sample_window eq_refl) as (best & H1 & _ & H2).
  - repeat constructor; vm_compute; congruence.
  - discriminate.
  - exists best. split; [exact H1 | apply H2; left].
Defined.

(** The events of the counterexample: the initiator's funding is still too
    shallow when its proof arrives, and deep enough at the next tick, by which
    time the head is too close to [T_B]. *)
Definition shallow_chain : LedgerVerifier := reorg_to sample_chain 1.

Definition late_events : list (NodeEvent LedgerVerifier) :=
  [NeChain shallow_chain;
   NeMessage Propose (sample_bytes sample_propose) (Some 100);
   NeMessage FundingProof (sample_bytes sample_proof) (Some 110);
   NeChain sample_chain].

(** The driver asks the signer to fund before the ladder is checked.  There
    is a run of a responder node in which one maintenance tick calls the signer
    to fund (a live signer broadcasts here) at a head where the timeout ladder
    is already unsafe, has the funding refused by the coordinator it then asks,
    reaps that swap as stale, and floods an [Abort]: the funded leg is left
    with no coordinator to refund it. *)
Theorem funding_precedes_ladder_gate :
  exists (w : @WorkerState LedgerVerifier (Recorder MockSigner)) head s' out b,
    node_run sample_worker late_events w /\ calls w = []
    /\ calls (gc_tick w (Some head) 0).1 = [CallFunding sample_node_ctx LegCounterparty]
    /\ ladder_is_safe (assess_ladder (cx_terms sample_node_ctx) head ladder_default) = false
    /\ w_swap (gc_tick w (Some head) 0).1 = Some s' /\ s_coordinators s' = ∅
    /\ (gc_tick w (Some head) 0).2 = Ok out /\ (MtSwapAbort, b) ∈ out
    /\ decode_swap Abort b = Ok (abort_envelope sample_id 0).
Proof.
  exists (node_exec sample_worker late_events), 4000.
  set (r := gc_tick (node_exec sample_worker late_events) (Some 4000) 0).
  assert (Hr : exists s', w_swap r.1 = Some s' /\ s_coordinators s' = ∅).
  { destruct (w_swap r.1) as [s'|] eqn:E; [|exfalso; revert E; vm_compute; discriminate].
    exists s'. split; [reflexivity|].
    assert (Hc : (s_coordinators <$> w_swap r.1) = Some ∅) by (vm_compute; reflexivity).
    rewrite E in Hc. now injection Hc. }
  destruct Hr as (s' & Hs & He). exists s', (match r.2 with Ok out => out | _ => [] end), (sample_bytes (abort_envelope sample_id 0)).
  split; [apply node_exec_run|]. split; [vm_compute; reflexivity|].
  split; [vm_compute; reflexivity|]. split; [vm_compute; reflexivity|].
  split; [exact Hs|]. split; [exact He|]. split; [vm_compute; reflexivity|]. split.
  - assert (Ho : existsb (fun x => bool_decide (x = (MtSwapAbort, sample_bytes (abort_envelope sample_id 0))))
                   (match r.2 with Ok out => out | _ => [] end) = true) by (vm_compute; reflexivity).
    apply existsb_exists in Ho as (x & Hin & Hx). apply bool_decide_eq_true in Hx as ->.
    apply list_elem_of_In. exact Hin.
  - vm_compute. reflexivity.
Qed.

(** ** The re-advertise schedule *)

Fixpoint advertise (a : IntentAdvertiser) (n : nat) : list bool :=
  match n with
  | O => []
  | S n => let '(a, fire) := on_tick a in fire :: advertise a n
  end.

(** Left alone, an advertiser fires at ticks 0, 2, 5, 10 and 19, and never again. *)
Lemma advertiser_schedule :
  (forall n, advertise (mkAdvertiser 5 8 8 5) n = replicate n false)
  /\ advertise advertiser_new 20
     = map (fun i => bool_decide (i ∈ [0; 2; 5; 10; 19]%nat)) (seq 0 20)
  /\ foldl (fun a _ => (on_tick a).1) advertiser_new (seq 0 20) = mkAdvertiser 5 8 8 5.
Proof.
  split; [|split; vm_compute; reflexivity].
  induction n as [|n IH]; [reflexivity|]. simpl. now rewrite IH.
Qed.
