(* ===== verification/Dedup.v ===== *)
(** * Dedup: the bounded first-seen set ([dedup.rs])

    The relay and the gateway use it to act on a packet once.  The hash set and
    the queue of the source are a [gset] and a list, oldest key first. *)

From stdpp Require Import base list gmap.
From Stdlib Require Import ZArith Lia.
From S2P Require Import Prelude.
Open Scope Z_scope.

Section dedup.
Context {K : Type} `{Countable K}.

Record DedupCache : Type := mkDedup { dc_capacity : Z; dc_set : gset K; dc_order : list K }.

Definition dedup_new (capacity : Z) : DedupCache := mkDedup (Z.max capacity 1) ∅ [].

Definition dedup_contains (c : DedupCache) (key : K) : bool := bool_decide (key ∈ dc_set c).

Definition dedup_len (c : DedupCache) : Z := Z.of_nat (size (dc_set c)).

Definition dedup_insert (c : DedupCache) (key : K) : DedupCache * bool :=
  if dedup_contains c key then (c, false) else
  let '(set, order) :=
    if len (dc_order c) >=? dc_capacity c then
      match dc_order c with
      | old :: rest => (dc_set c ∖ {[ old ]}, rest)
      | [] => (dc_set c, [])
      end
    else (dc_set c, dc_order c) in
  (mkDedup (dc_capacity c) ({[ key ]} ∪ set) (order ++ [key]), true).

(** ** Lemmas *)

Record dedup_ok (c : DedupCache) : Prop := {
  dk_set : dc_set c = list_to_set (dc_order c);
  dk_nodup : NoDup (dc_order c);
  dk_len : len (dc_order c) <= dc_capacity c;
  dk_cap : 1 <= dc_capacity c
}.

Lemma dedup_new_ok n : dedup_ok (dedup_new n).
Proof. constructor; simpl; [reflexivity | apply NoDup_nil_2 | unfold len; simpl; lia | lia]. Qed.

(** What an insert does, in terms of the queue alone: nothing to a key it
    holds; else the key goes to the back, and at capacity the front goes. *)
Lemma dedup_insert_spec c key :
  dedup_ok c ->
  (key ∈ dc_order c /\ dedup_insert c key = (c, false))
  \/ (~ (key ∈ dc_order c) /\ dedup_insert c key
        = (mkDedup (dc_capacity c)
             (list_to_set (drop (Z.to_nat (len (dc_order c) + 1 - dc_capacity c)) (dc_order c) ++ [key]))
             (drop (Z.to_nat (len (dc_order c) + 1 - dc_capacity c)) (dc_order c) ++ [key]), true)).
Proof.
  intros [Hs Hn Hl Hc]. unfold dedup_insert, dedup_contains. rewrite Hs.
  destruct (bool_decide_reflect (key ∈ (list_to_set (dc_order c) : gset K))) as [Hin|Hin];
    rewrite elem_of_list_to_set in Hin; [left; auto|right; split; [exact Hin|]].
  destruct (Z.geb_spec (len (dc_order c)) (dc_capacity c)) as [Hfull|Hroom].
  - replace (Z.to_nat (len (dc_order c) + 1 - dc_capacity c)) with 1%nat by lia.
    destruct (dc_order c) as [|old rest] eqn:Ho; [unfold len in *; simpl in *; lia|].
    inversion Hn as [|? ? Hold Hrest]; subst. simpl. rewrite drop_0. do 2 f_equal.
    rewrite list_to_set_app_L. simpl. set_solver.
  - replace (Z.to_nat (len (dc_order c) + 1 - dc_capacity c)) with 0%nat by lia. rewrite drop_0.
    do 2 f_equal. rewrite list_to_set_app_L. simpl. set_solver.
Qed.

Lemma dedup_insert_ok c key : dedup_ok c -> dedup_ok (dedup_insert c key).1.
Proof.
  intros Hok. destruct (dedup_insert_spec c key Hok) as [[_ ->]|[Hk ->]]; [exact Hok|].
  destruct Hok as [Hs Hn Hl Hc]. simpl. constructor; simpl; auto.
  - set (n := Z.to_nat _). rewrite <- (take_drop n (dc_order c)) in Hn, Hk.
    apply NoDup_app in Hn as (_ & _ & Hn). apply not_elem_of_app in Hk as [_ Hk].
    apply NoDup_app. split_and!; [exact Hn | | apply NoDup_singleton].
    intros x Hx ->%list_elem_of_singleton. tauto.
  - rewrite len_app. unfold len in *. rewrite length_drop. simpl. lia.
Qed.

(** The answers of a sequence of inserts. *)
Fixpoint insert_all (c : DedupCache) (keys : list K) : list bool :=
  match keys with
  | [] => []
  | k :: keys => let '(c, fresh) := dedup_insert c k in fresh :: insert_all c keys
  end.

(** The same answers from an unbounded memory of what was seen. *)
Fixpoint first_seen (seen : gset K) (keys : list K) : list bool :=
  match keys with
  | [] => []
  | k :: keys => negb (bool_decide (k ∈ seen)) :: first_seen ({[ k ]} ∪ seen) keys
  end.

Lemma insert_all_spec keys : forall c,
  dedup_ok c -> Z.of_nat (size (dc_set c ∪ list_to_set keys)) <= dc_capacity c ->
  insert_all c keys = first_seen (dc_set c) keys.
Proof.
  induction keys as [|k keys IH]; intros c Hok Hsz; simpl; [reflexivity|].
  pose proof (dedup_insert_ok c k Hok) as Hok'.
  assert (Hin : k ∈ dc_order c <-> k ∈ dc_set c) by (rewrite (dk_set c Hok), elem_of_list_to_set; done).
  destruct (dedup_insert_spec c k Hok) as [[Hk E]|[Hk E]]; rewrite E in *; simpl in *.
  - rewrite Hin in Hk. rewrite bool_decide_true by exact Hk. simpl. f_equal.
    replace ({[k]} ∪ dc_set c) with (dc_set c) by set_solver. apply IH; [exact Hok|].
    now replace (dc_set c ∪ list_to_set keys) with (dc_set c ∪ ({[k]} ∪ list_to_set keys)) by set_solver.
  - rewrite bool_decide_false by (now rewrite <- Hin). simpl. f_equal.
    assert (Hroom : len (dc_order c) + 1 <= dc_capacity c).
    { assert (Hsub : list_to_set (dc_order c ++ [k]) ⊆ dc_set c ∪ ({[k]} ∪ list_to_set keys)).
      { rewrite (dk_set c Hok), list_to_set_app_L. simpl. set_solver. }
      apply subseteq_size in Hsub. rewrite size_list_to_set in Hsub.
      - rewrite length_app in Hsub. cbn [length] in Hsub. unfold len. lia.
      - apply NoDup_app. split_and!; [apply (dk_nodup c Hok) | | apply NoDup_singleton].
        intros x Hx ->%list_elem_of_singleton. tauto. }
    replace (Z.to_nat (len (dc_order c) + 1 - dc_capacity c)) with 0%nat in * by lia.
    rewrite drop_0 in *. rewrite IH; [|exact Hok'|]; simpl.
    + f_equal. rewrite list_to_set_app_L, (dk_set c Hok). simpl. set_solver.
    + rewrite list_to_set_app_L, <- (dk_set c Hok). simpl.
      now replace (dc_set c ∪ ({[k]} ∪ ∅) ∪ list_to_set keys)
        with (dc_set c ∪ ({[k]} ∪ list_to_set keys)) by set_solver.
Qed.

Lemma dedup_bounded c keys :
  dedup_ok c -> dedup_ok (foldl (fun c k => (dedup_insert c k).1) c keys).
Proof. revert c. induction keys; intros c Hok; simpl; auto using dedup_insert_ok. Qed.
Lemma dedup_capacity keys : forall c,
  dc_capacity (foldl (fun c k => (dedup_insert c k).1) c keys) = dc_capacity c.
Proof.
  induction keys as [|k keys IH]; intros c; simpl; [reflexivity|]. rewrite IH.
  unfold dedup_insert. repeat case_goal; reflexivity.
Qed.
End dedup.

(** ** Properties *)

(** First-seen is exact and the memory is bounded.  A cache of capacity [n]
    answers a sequence of keys with at most [n] distinct ones exactly as an
    unbounded memory would, true on the first occurrence of a key and false on
    every later one, so a flooded packet is acted on once; and whatever the
    sequence, it never remembers more than [n] keys. *)
Theorem dedup_exact `{Countable K} (n : Z) (keys : list K) (Hn : 1 <= n)
    (Hk : Z.of_nat (size (list_to_set keys : gset K)) <= n) :
  insert_all (dedup_new n) keys = first_seen ∅ keys
  /\ forall more : list K, dedup_len (foldl (fun c k => (dedup_insert c k).1) (dedup_new n) more) <= n.
Proof.
  split.
  - apply insert_all_spec; [apply dedup_new_ok|]. simpl. rewrite (left_id_L ∅ (∪)). lia.
  - intros more. pose proof (dedup_bounded (dedup_new n) more (dedup_new_ok n)) as [Hs Hd Hl _].
    rewrite dedup_capacity in Hl. simpl in Hl.
    unfold dedup_len. rewrite Hs, size_list_to_set by exact Hd. unfold len in Hl. lia.
Qed.

Lemma dedup_exact_witness :
  insert_all (dedup_new 2) [1; 2; 1; 2; 1] = [true; true; false; false; false].
Proof.
  destruct (dedup_exact 2 [1; 2; 1; 2; 1]) as [H _]; [lia | vm_compute; congruence|].
  rewrite H. reflexivity.
Defined.
