(* ===== verification/Fragment.v ===== *)
(** * Fragment: fragmentation and bounded reassembly ([fragment.rs])

    The [BTreeMap] of a partial message is an association list sorted by its
    keys; the [HashMap] of partials is a [gmap].  [min_by_key] over a hash map
    picks any oldest partial; nothing below depends on which. *)

From stdpp Require Import base list gmap.
From Stdlib Require Import ZArith Lia.
From S2P Require Import Prelude Packet.
Open Scope Z_scope.

Definition FRAGMENT_ID_LEN : Z := 8.
Definition FRAGMENT_HEADER_LEN : Z := FRAGMENT_ID_LEN + 2 + 2 + 1.
Definition BLE_DEFAULT_FRAGMENT_SIZE : Z := 469.
Definition DEFAULT_CHUNK_SIZE : Z := BLE_DEFAULT_FRAGMENT_SIZE - FRAGMENT_HEADER_LEN.
Definition MAX_IN_FLIGHT : Z := 128.
Definition REASSEMBLY_LIFETIME_MS : Z := 30000.

Record Fragment : Type := mkFragment {
  f_id : bytes;
  f_index : Z;
  f_total : Z;
  f_original_type : Z;
  f_chunk : bytes
}.

Definition encode_fragment (f : Fragment) : bytes :=
  f_id f ++ be_bytes 2 (f_index f) ++ be_bytes 2 (f_total f) ++ [f_original_type f] ++ f_chunk f.

(** Indexing and slicing past the length check: [Panic] is an index out of range. *)
Definition parse_fragment (b : bytes) : res unit (option Fragment) :=
  if len b <? FRAGMENT_HEADER_LEN then Ok None else
  let? id := slice b 0 FRAGMENT_ID_LEN in
  let? b8 := idx b 8 in
  let? b9 := idx b 9 in
  let? b10 := idx b 10 in
  let? b11 := idx b 11 in
  let? original_type := idx b 12 in
  let index := from_be [b8; b9] in
  let total := from_be [b10; b11] in
  if (total =? 0) || (index >=? total) then Ok None else
  let? chunk := slice b FRAGMENT_HEADER_LEN (len b) in
  Ok (Some (mkFragment id index total original_type chunk)).

(** [payload.chunks(k)]: pieces of [k] bytes, the last one possibly shorter. *)
Fixpoint chunks_fuel (fuel : nat) (k : nat) (l : bytes) : list bytes :=
  match fuel with
  | O => []
  | S fuel => match l with [] => [] | _ => take k l :: chunks_fuel fuel k (drop k l) end
  end.

Definition chunks (k : nat) (l : bytes) : list bytes := chunks_fuel (length l) k l.

Definition fragment_message (original_type : Z) (payload : bytes) (chunk_size : Z) (id : bytes)
  : list bytes :=
  let chunk_size := Z.max chunk_size 1 in
  let cs := match payload with [] => [[]] | _ => chunks (Z.to_nat chunk_size) payload end in
  let total := Z.min (len cs) 65535 in
  imap (fun i chunk =>
          encode_fragment (mkFragment id (wrapN 16 (Z.of_nat i)) total original_type chunk)) cs.

Record Partial : Type := mkPartial {
  pt_total : Z;
  pt_original_type : Z;
  pt_chunks : list (Z * bytes);
  pt_created_ms : Z
}.

Abbreviation Reassembler := (gmap (list Z) Partial).

(** [BTreeMap::insert] *)
Fixpoint bt_insert (k : Z) (v : bytes) (m : list (Z * bytes)) : list (Z * bytes) :=
  match m with
  | [] => [(k, v)]
  | (k', v') :: m' =>
      if k <? k' then (k, v) :: m
      else if k =? k' then (k, v) :: m'
      else (k', v') :: bt_insert k v m'
  end.

Definition in_flight (r : Reassembler) : Z := Z.of_nat (size r).

Definition gc (r : Reassembler) (now_ms : Z) : Reassembler :=
  filter (fun '(_, p) => sat_sub now_ms (pt_created_ms p) < REASSEMBLY_LIFETIME_MS) r.

(** [iter().min_by_key(|(_, p)| p.created_ms)]: the first of the least. *)
Definition oldest (r : Reassembler) : option bytes :=
  match map_to_list r with
  | [] => None
  | e :: l => Some (foldl (fun best e => if pt_created_ms e.2 <? pt_created_ms best.2
                                         then e else best) e l).1
  end.

Definition evict_if_full (r : Reassembler) : Reassembler :=
  if in_flight r <? MAX_IN_FLIGHT then r else
  match oldest r with Some id => delete id r | None => r end.

Definition reassembler_accept (r : Reassembler) (f : Fragment) (now_ms : Z)
  : Reassembler * option (Z * bytes) :=
  let r := gc r now_ms in
  let r := match r !! f_id f with
           | Some p => if negb (pt_total p =? f_total f)
                          || negb (pt_original_type p =? f_original_type f)
                       then delete (f_id f) r else r
           | None => r
           end in
  let r := match r !! f_id f with
           | Some _ => r
           | None => <[ f_id f := mkPartial (f_total f) (f_original_type f) [] now_ms ]>
                       (evict_if_full r)
           end in
  match r !! f_id f with
  | None => (r, None)
  | Some p =>
      let p := mkPartial (pt_total p) (pt_original_type p)
                 (bt_insert (f_index f) (f_chunk f) (pt_chunks p)) (pt_created_ms p) in
      let r := <[ f_id f := p ]> r in
      if negb (wrapN 16 (len (pt_chunks p)) =? pt_total p) then (r, None) else
      (delete (f_id f) r, Some (pt_original_type p, concat (map snd (pt_chunks p))))
  end.

(** A fragment packet's payload, as the worker takes it in. *)
Definition deliver (r : Reassembler) (b : bytes) (now_ms : Z)
  : Reassembler * option (Z * bytes) :=
  match parse_fragment b with
  | Ok (Some f) => reassembler_accept r f now_ms
  | _ => (r, None)
  end.

Fixpoint deliver_all (r : Reassembler) (l : list (bytes * Z)) : list (option (Z * bytes)) :=
  match l with
  | [] => []
  | (b, t) :: l => let '(r, o) := deliver r b t in o :: deliver_all r l
  end.

(** ** Parsing *)

Record fragment_ok (f : Fragment) : Prop := {
  fo_id : len (f_id f) = 8;
  fo_index : 0 <= f_index f < f_total f;
  fo_total : f_total f < 65536
}.

Lemma be_bytes_two v : be_bytes 2 v = [(v / 256) mod 256; v mod 256].
Proof. simpl. rewrite Z.div_1_r. reflexivity. Qed.

Lemma parse_encode f : fragment_ok f -> parse_fragment (encode_fragment f) = Ok (Some f).
Proof.
  intros [Hid Hi Ht]. unfold parse_fragment, encode_fragment.
  pose proof (len_nonneg (f_chunk f)) as Hc.
  assert (Hl : len (f_id f ++ be_bytes 2 (f_index f) ++ be_bytes 2 (f_total f)
                 ++ [f_original_type f] ++ f_chunk f) = 13 + len (f_chunk f)).
  { rewrite !len_app, !len_be_bytes, len_cons, Hid. unfold len at 1. simpl. lia. }
  rewrite Hl. unfold FRAGMENT_HEADER_LEN, FRAGMENT_ID_LEN.
  destruct (Z.ltb_spec (13 + len (f_chunk f)) (8 + 2 + 2 + 1)) as [?|_]; [lia|].
  rewrite (slice_at _ [] (f_id f) (be_bytes 2 (f_index f) ++ be_bytes 2 (f_total f)
             ++ [f_original_type f] ++ f_chunk f)) by (auto; lia).
  pose proof (from_be_be_bytes 2 (f_index f) ltac:(simpl; lia)) as E1.
  pose proof (from_be_be_bytes 2 (f_total f) ltac:(simpl; lia)) as E2.
  rewrite !be_bytes_two in *. cbn [app].
  set (a := (f_index f / 256) mod 256) in *. set (b := f_index f mod 256) in *.
  set (c := (f_total f / 256) mod 256) in *. set (d := f_total f mod 256) in *.
  rewrite (idx_at _ (f_id f) a (b :: c :: d :: f_original_type f :: f_chunk f) 8) by auto.
  rewrite (idx_at _ (f_id f ++ [a]) b (c :: d :: f_original_type f :: f_chunk f) 9)
    by (rewrite <- ?app_assoc, ?len_app, ?Hid; reflexivity).
  rewrite (idx_at _ (f_id f ++ [a; b]) c (d :: f_original_type f :: f_chunk f) 10)
    by (rewrite <- ?app_assoc, ?len_app, ?Hid; reflexivity).
  rewrite (idx_at _ (f_id f ++ [a; b; c]) d (f_original_type f :: f_chunk f) 11)
    by (rewrite <- ?app_assoc, ?len_app, ?Hid; reflexivity).
  rewrite (idx_at _ (f_id f ++ [a; b; c; d]) (f_original_type f) (f_chunk f) 12)
    by (rewrite <- ?app_assoc, ?len_app, ?Hid; reflexivity).
  rewrite E1, E2.
  destruct (Z.eqb_spec (f_total f) 0); [lia|]. destruct (Z.geb_spec (f_index f) (f_total f)); [lia|].
  simpl. rewrite (slice_at _ (f_id f ++ [a; b; c; d; f_original_type f]) (f_chunk f) []).
  - now destruct f.
  - now rewrite <- app_assoc, app_nil_r.
  - rewrite len_app, Hid. reflexivity.
  - lia.
Qed.

Lemma parse_fragment_total b : parse_fragment b <> Panic.
Proof.
  unfold parse_fragment, FRAGMENT_HEADER_LEN, FRAGMENT_ID_LEN.
  destruct (Z.ltb_spec (len b) (8 + 2 + 2 + 1)) as [?|Hl]; [discriminate|].
  repeat mem_case. destruct (_ || _); discriminate.
Qed.

Lemma parse_fragment_chunk b f :
  bytes_ok b -> parse_fragment b = Ok (Some f) ->
  bytes_ok (f_chunk f) /\ len (f_chunk f) = len b - FRAGMENT_HEADER_LEN.
Proof.
  intros Hb H. unfold parse_fragment in H. repeat case_hyp H; try discriminate. injection H as <-. cbn.
  match goal with E : slice b FRAGMENT_HEADER_LEN (len b) = Ok _ |- _ =>
    split; [eapply bytes_ok_slice | eapply slice_len]; eauto end.
Qed.

(** ** Chunking *)

Lemma chunks_fuel_concat fuel : forall k l,
  (length l <= fuel)%nat -> (0 < k)%nat -> concat (chunks_fuel fuel k l) = l.
Proof.
  induction fuel as [|fuel IH]; intros k l Hl Hk; simpl.
  - now destruct l; [|simpl in Hl; lia].
  - destruct l as [|x l]; [reflexivity|]. cbn [concat].
    rewrite IH; [apply take_drop | rewrite length_drop; simpl in *; lia | exact Hk].
Qed.

Lemma chunks_concat k l : (0 < k)%nat -> concat (chunks k l) = l.
Proof. intros Hk. unfold chunks. now apply chunks_fuel_concat. Qed.

(** ** The sorted map of chunks *)

Lemma bt_insert_front k v m :
  Forall (fun e => k < e.1) m -> bt_insert k v m = (k, v) :: m.
Proof.
  destruct m as [|[k' v'] m]; intros H; simpl; [reflexivity|].
  inversion H as [|? ? Hlt _]; subst. simpl in Hlt. now rewrite (proj2 (Z.ltb_lt _ _) Hlt).
Qed.

Lemma filter_seq_ext (P Q : nat -> bool) a m :
  (forall j, (a <= j < a + m)%nat -> P j = Q j) -> List.filter P (seq a m) = List.filter Q (seq a m).
Proof.
  intros H. apply filter_ext_in. intros j Hj. apply H. now apply in_seq in Hj.
Qed.

(** Inserting the chunk of index [i] among those already there. *)
Lemma bt_insert_seq (h : nat -> bytes) (P : nat -> bool) i m : forall a,
  (a <= i < a + m)%nat ->
  bt_insert (Z.of_nat i) (h i) (map (fun j => (Z.of_nat j, h j)) (List.filter P (seq a m)))
  = map (fun j => (Z.of_nat j, h j)) (List.filter (fun j => P j || Nat.eqb j i) (seq a m)).
Proof.
  induction m as [|m IH]; intros a Ha; [lia|]. cbn [seq List.filter].
  destruct (Nat.eq_dec a i) as [->|Hne].
  - rewrite Nat.eqb_refl, orb_true_r. cbn [map].
    rewrite (filter_seq_ext (fun j => P j || Nat.eqb j i) P (S i) m).
    2: { intros j Hj. rewrite (proj2 (Nat.eqb_neq j i)) by lia. now rewrite orb_false_r. }
    destruct (P i); cbn [map bt_insert].
    + rewrite Z.ltb_irrefl, Z.eqb_refl. reflexivity.
    + apply bt_insert_front. apply Forall_forall. intros e He%list_elem_of_In.
      apply in_map_iff in He as (j & <- & Hj). apply filter_In in Hj as [Hj _].
      apply in_seq in Hj. simpl. lia.
  - rewrite (proj2 (Nat.eqb_neq a i)) by lia. rewrite orb_false_r.
    destruct (P a); cbn [map bt_insert]; [|apply IH; lia].
    destruct (Z.ltb_spec (Z.of_nat i) (Z.of_nat a)); [lia|].
    destruct (Z.eqb_spec (Z.of_nat i) (Z.of_nat a)); [lia|]. f_equal. apply IH. lia.
Qed.

Lemma filter_seq_length (P : nat -> bool) a m :
  (length (List.filter P (seq a m)) <= m)%nat
  /\ (length (List.filter P (seq a m)) = m <-> forall j, (a <= j < a + m)%nat -> P j = true).
Proof.
  revert a; induction m as [|m IH]; intros a; simpl; [split; [lia | split; [lia | reflexivity]]|].
  destruct (IH (S a)) as [Hle Hiff]. destruct (P a) eqn:Hp; simpl.
  - split; [lia|]. split.
    + intros H j Hj. destruct (Nat.eq_dec j a) as [->|]; [exact Hp|]. apply Hiff; lia.
    + intros H. f_equal. apply Hiff. intros j Hj. apply H. lia.
  - split; [lia|]. split; [lia|]. intros H. rewrite H in Hp by lia. discriminate.
Qed.

(** ** Reassembling one message *)

Section message.
Context (id : bytes) (Hid : len id = 8) (ty : Z) (cs : list bytes)
  (Hn : 0 < len cs <= 65535).

Let h (i : nat) : bytes := cs !!! i.

Definition frag (i : nat) : Fragment := mkFragment id (Z.of_nat i) (len cs) ty (h i).

(** The chunks collected once the indices of [seen] have arrived. *)
Definition pick (seen : gset nat) : list (Z * bytes) :=
  map (fun j => (Z.of_nat j, h j))
    (List.filter (fun j => bool_decide (j ∈ seen)) (seq 0 (length cs))).

Definition complete (seen : gset nat) : Prop := forall j, (j < length cs)%nat -> j ∈ seen.

Definition holding (r : Reassembler) (seen : gset nat) (t0 : Z) : Prop :=
  r !! id = Some (mkPartial (len cs) ty (pick seen) t0).

Lemma frag_ok i : (i < length cs)%nat -> fragment_ok (frag i).
Proof. intros Hi. constructor; simpl; [exact Hid | unfold len; lia | lia]. Qed.

Lemma pick_insert seen i :
  (i < length cs)%nat -> bt_insert (Z.of_nat i) (h i) (pick seen) = pick ({[ i ]} ∪ seen).
Proof.
  intros Hi. unfold pick. rewrite bt_insert_seq by lia. f_equal. apply filter_seq_ext.
  intros j _. destruct (Nat.eqb_spec j i) as [->|Hne].
  - rewrite orb_true_r. symmetry. apply bool_decide_eq_true. set_solver.
  - rewrite orb_false_r. apply bool_decide_ext. set_solver.
Qed.

Lemma pick_length seen :
  len (pick seen) <= len cs /\ (len (pick seen) = len cs <-> complete seen).
Proof.
  unfold pick, len. rewrite length_map.
  destruct (filter_seq_length (fun j => bool_decide (j ∈ seen)) 0 (length cs)) as [Hle Hiff].
  split; [lia|]. rewrite Nat2Z.inj_iff, Hiff. unfold complete.
  split; intros H j Hj; specialize (H j); [apply bool_decide_eq_true in H | apply bool_decide_eq_true];
    auto; try lia. apply H. lia.
Qed.

Lemma pick_complete seen : complete seen -> concat (map snd (pick seen)) = concat cs.
Proof.
  intros Hc. unfold pick. rewrite map_map. simpl.
  assert (Hf : List.filter (fun j => bool_decide (j ∈ seen)) (seq 0 (length cs)) = seq 0 (length cs)).
  { transitivity (List.filter (fun _ => true) (seq 0 (length cs))).
    - apply filter_seq_ext. intros j Hj. apply bool_decide_eq_true, Hc. lia.
    - induction (seq 0 (length cs)) as [|x l IH]; simpl; [reflexivity | now rewrite IH]. }
  rewrite Hf. f_equal. apply list_eq. intros i. rewrite list_lookup_fmap.
  destruct (decide (i < length cs)%nat) as [Hi|Hi].
  - rewrite lookup_seq_lt by exact Hi. simpl. unfold h.
    now rewrite (list_lookup_lookup_total_lt cs i Hi).
  - rewrite lookup_seq_ge by lia. simpl. symmetry. apply lookup_ge_None. lia.
Qed.

(** The tail of [accept], once the partial of the set is there. *)
Lemma accept_holding r seen t0 i t :
  holding r seen t0 -> sat_sub t t0 < REASSEMBLY_LIFETIME_MS -> (i < length cs)%nat ->
  (complete ({[ i ]} ∪ seen) /\ (reassembler_accept r (frag i) t).2 = Some (ty, concat cs))
  \/ (~ complete ({[ i ]} ∪ seen) /\ (reassembler_accept r (frag i) t).2 = None
      /\ holding (reassembler_accept r (frag i) t).1 ({[ i ]} ∪ seen) t0).
Proof.
  intros Hh Ht Hi. unfold reassembler_accept. simpl.
  assert (Hg : gc r t !! id = Some (mkPartial (len cs) ty (pick seen) t0)).
  { unfold gc. apply map_lookup_filter_Some. split; [exact Hh | exact Ht]. }
  rewrite Hg. simpl. rewrite !Z.eqb_refl. simpl. rewrite !Hg. simpl.
  rewrite pick_insert by exact Hi.
  destruct (pick_length ({[ i ]} ∪ seen)) as [Hle Hiff].
  unfold wrapN. rewrite Z.mod_small by (pose proof (len_nonneg (pick ({[ i ]} ∪ seen))); lia).
  destruct (Z.eqb_spec (len (pick ({[ i ]} ∪ seen))) (len cs)) as [He|He]; simpl.
  - left. apply Hiff in He. split; [exact He|]. now rewrite pick_complete.
  - right. split; [now rewrite <- Hiff|]. split; [reflexivity|]. apply lookup_insert_eq.
Qed.

(** The first fragment of a set to arrive. *)
Lemma accept_first r i t :
  r !! id = None -> (i < length cs)%nat ->
  (complete {[ i ]} /\ (reassembler_accept r (frag i) t).2 = Some (ty, concat cs))
  \/ (~ complete {[ i ]} /\ (reassembler_accept r (frag i) t).2 = None
      /\ holding (reassembler_accept r (frag i) t).1 {[ i ]} t).
Proof.
  intros Hr Hi. unfold reassembler_accept. cbn [f_id f_index f_total f_original_type f_chunk frag].
  assert (Hg : gc r t !! id = None).
  { unfold gc. apply map_lookup_filter_None. now left. }
  rewrite !Hg. rewrite lookup_insert_eq.
  cbn [pt_total pt_original_type pt_chunks pt_created_ms bt_insert].
  assert (Hp : [(Z.of_nat i, h i)] = pick {[ i ]}).
  { pose proof (pick_insert ∅ i Hi) as H. rewrite (right_id_L ∅ (∪)) in H. rewrite <- H.
    assert (He : pick ∅ = []).
    { unfold pick. induction (seq 0 (length cs)) as [|x l IH]; simpl; [reflexivity | exact IH]. }
    now rewrite He. }
  rewrite Hp. destruct (pick_length {[ i ]}) as [Hle Hiff].
  unfold wrapN. rewrite Z.mod_small by (pose proof (len_nonneg (pick {[ i ]})); lia).
  destruct (Z.eqb_spec (len (pick {[ i ]})) (len cs)) as [He|He]; simpl.
  - left. apply Hiff in He. split; [exact He|]. now rewrite pick_complete.
  - right. split; [now rewrite <- Hiff|]. split; [reflexivity|]. apply lookup_insert_eq.
Qed.

Lemma deliver_frag r i t :
  (i < length cs)%nat -> deliver r (encode_fragment (frag i)) t = reassembler_accept r (frag i) t.
Proof. intros Hi. unfold deliver. now rewrite parse_encode by now apply frag_ok. Qed.

(** Deliveries by index. *)
Definition deliveries (order : list (nat * Z)) : list (bytes * Z) :=
  map (fun '(i, t) => (encode_fragment (frag i), t)) order.

(** The set is completed by the last delivery, and only then. *)
Lemma deliver_rest order : forall r seen t0 i t,
  holding r seen t0 ->
  Forall (fun '(j, u) => (j < length cs)%nat /\ sat_sub u t0 < REASSEMBLY_LIFETIME_MS)
    (order ++ [(i, t)]) ->
  complete ({[ i ]} ∪ (list_to_set order.*1 ∪ seen)) ->
  ~ complete (list_to_set order.*1 ∪ seen) ->
  deliver_all r (deliveries (order ++ [(i, t)]))
  = replicate (length order) None ++ [Some (ty, concat cs)].
Proof.
  induction order as [|[j u] order IH]; intros r seen t0 i t Hh Hall Hc Hnc; simpl in *.
  - inversion Hall as [|? ? Hx _]; subst. destruct Hx as [Hi Ht]. rewrite deliver_frag by exact Hi.
    rewrite (left_id_L ∅ (∪)) in Hc.
    destruct (accept_holding r seen t0 i t Hh Ht Hi) as [[_ E]|[E _]]; [|contradiction].
    destruct (reassembler_accept r (frag i) t). simpl in E. now rewrite E.
  - inversion Hall as [|? ? Hx Hall']; subst. destruct Hx as [Hj Hu]. rewrite deliver_frag by exact Hj.
    destruct (accept_holding r seen t0 j u Hh Hu Hj) as [[E _]|(_ & E & Hh')].
    + exfalso. apply Hnc. intros k Hk. specialize (E k Hk). set_solver.
    + destruct (reassembler_accept r (frag j) u) as [r' o]. simpl in E, Hh'. subst o. f_equal.
      apply (IH r' ({[ j ]} ∪ seen) t0); auto.
      * intros k Hk. specialize (Hc k Hk). set_solver.
      * intros Hk. apply Hnc. intros k' Hk'. specialize (Hk k' Hk'). set_solver.
Qed.
End message.

(** ** Whole messages *)

(** The pieces a message is cut into. *)
Definition pieces (payload : bytes) (chunk_size : Z) : list bytes :=
  match payload with [] => [[]] | _ => chunks (Z.to_nat (Z.max chunk_size 1)) payload end.

Lemma pieces_concat payload k : concat (pieces payload k) = payload.
Proof.
  unfold pieces. destruct payload as [|x l]; [reflexivity|]. apply chunks_concat. lia.
Qed.

Lemma pieces_nonempty payload k : 0 < len (pieces payload k).
Proof.
  unfold pieces. destruct payload as [|x l]; [reflexivity|].
  unfold chunks. cbn [length chunks_fuel]. rewrite len_cons. pose proof (len_nonneg (chunks_fuel (length l) (Z.to_nat (Z.max k 1)) (drop (Z.to_nat (Z.max k 1)) (x :: l)))). lia.
Qed.

Lemma fragment_message_lookup ty payload k id i c :
  pieces payload k !! i = Some c ->
  fragment_message ty payload k id !! i
  = Some (encode_fragment (mkFragment id (wrapN 16 (Z.of_nat i))
            (Z.min (len (pieces payload k)) 65535) ty c)).
Proof.
  intros H. unfold fragment_message. fold (pieces payload k). rewrite list_lookup_imap, H. reflexivity.
Qed.

Lemma fragment_message_len ty payload k id :
  length (fragment_message ty payload k id) = length (pieces payload k).
Proof. unfold fragment_message. now rewrite length_imap. Qed.

Lemma fragment_message_frag ty payload k id i :
  len (pieces payload k) <= 65535 -> (i < length (pieces payload k))%nat ->
  fragment_message ty payload k id !!! i = encode_fragment (frag id ty (pieces payload k) i).
Proof.
  intros Hl Hi. apply list_lookup_total_correct.
  rewrite (fragment_message_lookup _ _ _ _ i (pieces payload k !!! i))
    by now apply list_lookup_lookup_total_lt.
  unfold frag, wrapN. rewrite Z.mod_small by (unfold len in Hl; lia).
  rewrite Z.min_l by lia. reflexivity.
Qed.

(** Past 65,535 chunks the index and the total are cut to a [u16]: the fragment
    after the last one the total counts is refused by the receiver. *)
Lemma oversize_refused ty payload k id :
  len id = 8 -> 65535 < len (pieces payload k) ->
  parse_fragment (fragment_message ty payload k id !!! Z.to_nat 65535) = Ok None.
Proof.
  intros Hid Hl. destruct (lookup_lt_is_Some_2 (pieces payload k) (Z.to_nat 65535)) as [c Hc];
    [unfold len in Hl; lia|].
  rewrite (list_lookup_total_correct _ _ _ (fragment_message_lookup ty payload k id _ c Hc)).
  rewrite Z.min_r by lia. rewrite Z2Nat.id by lia. change (wrapN 16 65535) with 65535.
  unfold parse_fragment, encode_fragment. cbn [f_id f_index f_total f_original_type f_chunk].
  change (be_bytes 2 65535) with [255; 255]. cbn [app].
  pose proof (len_nonneg c) as Hcl.
  rewrite len_app, !len_cons, Hid. unfold FRAGMENT_HEADER_LEN, FRAGMENT_ID_LEN.
  destruct (Z.ltb_spec (8 + (1 + (1 + (1 + (1 + (1 + len c)))))) (8 + 2 + 2 + 1)); [lia|].
  rewrite (slice_at _ [] id (255 :: 255 :: 255 :: 255 :: ty :: c)) by (auto; lia).
  rewrite (idx_at _ id 255 (255 :: 255 :: 255 :: ty :: c) 8) by auto.
  rewrite (idx_at _ (id ++ [255]) 255 (255 :: 255 :: ty :: c) 9)
    by (rewrite <- ?app_assoc, ?len_app, ?Hid; reflexivity).
  rewrite (idx_at _ (id ++ [255; 255]) 255 (255 :: ty :: c) 10)
    by (rewrite <- ?app_assoc, ?len_app, ?Hid; reflexivity).
  rewrite (idx_at _ (id ++ [255; 255; 255]) 255 (ty :: c) 11)
    by (rewrite <- ?app_assoc, ?len_app, ?Hid; reflexivity).
  rewrite (idx_at _ (id ++ [255; 255; 255; 255]) ty c 12)
    by (rewrite <- ?app_assoc, ?len_app, ?Hid; reflexivity).
  reflexivity.
Qed.

(** ** Bounded memory *)

Lemma oldest_in r id : oldest r = Some id -> is_Some (r !! id).
Proof.
  unfold oldest. destruct (map_to_list r) as [|e l] eqn:E; [discriminate|]. intros [= <-].
  assert (H : foldl (fun best e => if pt_created_ms e.2 <? pt_created_ms best.2 then e else best) e l
              ∈ e :: l).
  { clear E. revert e. induction l as [|x l IH]; intros e; simpl; [left|].
    destruct (pt_created_ms x.2 <? pt_created_ms e.2).
    - right. apply IH.
    - specialize (IH e). apply elem_of_cons in IH as [->|IH]; [left | right; now right]. }
  rewrite <- E in H. set (b := foldl _ e l) in *. clearbody b. destruct b as [k p].
  apply elem_of_map_to_list in H. eauto.
Qed.

Lemma size_delete_le {A} (m : gmap (list Z) A) k : (size (delete k m) <= size m)%nat.
Proof. rewrite map_size_delete. destruct (m !! k); unfold id; lia. Qed.

Lemma size_insert_le {A} (m : gmap (list Z) A) k v : (size (<[ k := v ]> m) <= S (size m))%nat.
Proof. rewrite map_size_insert. destruct (m !! k); unfold id; lia. Qed.

Lemma size_insert_some {A} (m : gmap (list Z) A) k v p :
  m !! k = Some p -> size (<[ k := v ]> m) = size m.
Proof. intros H. rewrite map_size_insert, H. reflexivity. Qed.

Lemma evict_size r : in_flight r <= MAX_IN_FLIGHT -> in_flight (evict_if_full r) < MAX_IN_FLIGHT.
Proof.
  unfold evict_if_full, in_flight, MAX_IN_FLIGHT. intros Hr.
  destruct (Z.ltb_spec (Z.of_nat (size r)) 128); [assumption|].
  destruct (oldest r) as [id|] eqn:Ho.
  - apply oldest_in in Ho. rewrite map_size_delete. destruct Ho as [p ->]. lia.
  - unfold oldest in Ho. destruct (map_to_list r) eqn:E; [|discriminate].
    rewrite <- length_map_to_list, E in *. simpl in *. lia.
Qed.

Lemma accept_size r f t :
  in_flight r <= MAX_IN_FLIGHT -> in_flight (reassembler_accept r f t).1 <= MAX_IN_FLIGHT.
Proof.
  intros Hr. unfold reassembler_accept.
  assert (Hg : in_flight (gc r t) <= MAX_IN_FLIGHT).
  { unfold in_flight, gc in *. pose proof (map_size_filter (fun '(_, p) => sat_sub t (pt_created_ms p) < REASSEMBLY_LIFETIME_MS) r). lia. }
  set (r1 := match gc r t !! f_id f with Some _ => _ | None => _ end).
  assert (H1 : in_flight r1 <= MAX_IN_FLIGHT).
  { subst r1. destruct (gc r t !! f_id f) as [p|]; [|exact Hg]. destruct (_ || _); [|exact Hg].
    unfold in_flight in *. pose proof (size_delete_le (gc r t) (f_id f)). lia. }
  clearbody r1. destruct (r1 !! f_id f) as [p|] eqn:Hp.
  - rewrite Hp. unfold in_flight in *. destruct (negb _); cbn [fst].
    + now rewrite (size_insert_some _ _ _ p Hp).
    + match goal with |- context [delete ?k (<[ ?k := ?v ]> r1)] =>
        pose proof (size_delete_le (<[ k := v ]> r1) k);
        pose proof (size_insert_some r1 k v p Hp) end. lia.
  - pose proof (evict_size r1 H1) as He. rewrite lookup_insert_eq, insert_insert_eq.
    unfold in_flight in *. destruct (negb _); cbn [fst].
    + match goal with |- context [<[ ?k := ?v ]> ?m] => pose proof (size_insert_le m k v) end. lia.
    + match goal with |- context [delete ?k (<[ ?k := ?v ]> ?m)] =>
        pose proof (size_delete_le (<[ k := v ]> m) k); pose proof (size_insert_le m k v) end. lia.
Qed.

(** ** The bytes held *)

Definition psize (p : Partial) : Z := len (concat (map snd (pt_chunks p))).

Definition held (r : Reassembler) : Z := map_fold (fun _ p acc => psize p + acc) 0 r.

Lemma psize_nonneg p : 0 <= psize p.
Proof. apply len_nonneg. Qed.

Lemma held_insert (r : Reassembler) id p : r !! id = None -> held (<[ id := p ]> r) = psize p + held r.
Proof. intros H. unfold held. apply (map_fold_insert_L (fun _ p acc => psize p + acc)); [intros; lia | exact H]. Qed.

Lemma held_delete (r : Reassembler) id p : r !! id = Some p -> held r = psize p + held (delete id r).
Proof. intros H. unfold held. apply (map_fold_delete_L (fun _ p acc => psize p + acc)); [intros; lia | exact H]. Qed.

Lemma held_nonneg (r : Reassembler) : 0 <= held r.
Proof.
  induction r as [|id p r Hn IH] using map_ind; [unfold held; now rewrite map_fold_empty|].
  rewrite held_insert by exact Hn. pose proof (psize_nonneg p). lia.
Qed.

Lemma held_delete_le (r : Reassembler) id : held (delete id r) <= held r.
Proof.
  destruct (r !! id) as [p|] eqn:E; [|now rewrite delete_id].
  rewrite (held_delete r id p E). pose proof (psize_nonneg p). lia.
Qed.

Lemma held_filter (P : list Z * Partial -> Prop) `{!forall x, Decision (P x)} (r : Reassembler) :
  held (filter P r) <= held r.
Proof.
  induction r as [|id p r Hn IH] using map_ind; [now rewrite map_filter_empty|].
  rewrite held_insert by exact Hn. pose proof (psize_nonneg p). rewrite map_filter_insert.
  destruct (decide (P (id, p))).
  - rewrite held_insert; [lia|]. apply map_lookup_filter_None. now left.
  - rewrite delete_id by exact Hn. lia.
Qed.

Lemma bt_insert_size k v m :
  len (concat (map snd (bt_insert k v m))) <= len (concat (map snd m)) + len v.
Proof.
  pose proof (len_nonneg v). induction m as [|[k' v'] m IH]; cbn [bt_insert map concat snd];
    [rewrite app_nil_r; unfold len; simpl; lia|].
  pose proof (len_nonneg v'). destruct (k <? k'); [cbn [map concat snd]; rewrite !len_app; lia|].
  destruct (k =? k'); cbn [map concat snd]; rewrite !len_app; lia.
Qed.

Definition chunks_ok (r : Reassembler) : Prop :=
  forall id p, r !! id = Some p -> Forall bytes_ok (map snd (pt_chunks p)).

Lemma bt_insert_ok k v m :
  bytes_ok v -> Forall bytes_ok (map snd m) -> Forall bytes_ok (map snd (bt_insert k v m)).
Proof.
  intros Hv. induction m as [|[k' v'] m IH]; intros H; cbn [bt_insert map snd] in *; [now constructor|].
  inversion H; subst. repeat case_goal; cbn [map snd]; repeat constructor; auto.
Qed.

(** Taking a fragment in adds at most its chunk; a message it completes is what
    was held and the chunk. *)
Lemma accept_held r f t :
  chunks_ok r -> bytes_ok (f_chunk f) ->
  let '(r', out) := reassembler_accept r f t in
  chunks_ok r' /\
  match out with
  | None => held r' <= held r + len (f_chunk f)
  | Some (_, pl) => bytes_ok pl /\ held r' + len pl <= held r + len (f_chunk f)
  end.
Proof.
  intros Hr Hf. unfold reassembler_accept.
  set (r1 := match gc r t !! f_id f with Some _ => _ | None => _ end).
  assert (H1 : chunks_ok r1 /\ held r1 <= held r).
  { assert (Hg : chunks_ok (gc r t) /\ held (gc r t) <= held r).
    { split; [|apply held_filter]. intros id p [H _]%map_lookup_filter_Some. eauto. }
    subst r1. destruct (gc r t !! f_id f) as [p|]; [|exact Hg]. destruct (_ || _); [|exact Hg].
    destruct Hg as [Hg Hh]. split; [|pose proof (held_delete_le (gc r t) (f_id f)); lia].
    intros id p' [_ H]%lookup_delete_Some. eauto. }
  clearbody r1. set (r2 := match r1 !! f_id f with Some _ => r1 | None => _ end).
  assert (H2 : chunks_ok r2 /\ held r2 <= held r).
  { subst r2. destruct H1 as [Hc Hh]. destruct (r1 !! f_id f) as [p|] eqn:E; [auto|].
    assert (He : chunks_ok (evict_if_full r1) /\ held (evict_if_full r1) <= held r1
                 /\ evict_if_full r1 !! f_id f = None).
    { unfold evict_if_full. destruct (_ <? _); [split_and!; auto; lia|].
      destruct (oldest r1); [|split_and!; auto; lia]. split_and!; [|apply held_delete_le|].
      - intros id p [_ H]%lookup_delete_Some. eauto.
      - apply lookup_delete_None. auto. }
    destruct He as (He & Hl & Hn). split; [|rewrite held_insert by exact Hn; unfold psize, len; simpl; lia].
    intros id p [[<- <-]|[_ H]]%lookup_insert_Some; [constructor | eauto]. }
  clearbody r2. destruct H2 as [Hc Hh]. destruct (r2 !! f_id f) as [p|] eqn:E.
  2: { pose proof (len_nonneg (f_chunk f)). split; [exact Hc | lia]. }
  set (p' := mkPartial _ _ (bt_insert _ _ _) _).
  assert (Hp' : Forall bytes_ok (map snd (pt_chunks p')) /\ psize p' <= psize p + len (f_chunk f)).
  { split; [apply bt_insert_ok; eauto | apply bt_insert_size]. }
  pose proof (held_delete r2 (f_id f) p E) as Hd. destruct Hp' as [Hb Hs]. clearbody p'.
  assert (Hi : held (<[ f_id f := p' ]> r2) = psize p' + held (delete (f_id f) r2)).
  { rewrite (held_delete _ (f_id f) p'), delete_insert_eq by apply lookup_insert_eq. reflexivity. }
  destruct (negb _).
  - split; [|lia]. intros id q [[<- <-]|[_ H]]%lookup_insert_Some; [exact Hb | eauto].
  - rewrite delete_insert_eq. split.
    + intros id q [_ H]%lookup_delete_Some. eauto.
    + split; [now apply Forall_concat|]. fold (psize p'). lia.
Qed.

(** ** Properties *)

(** Fragmentation round-trips.  Cut a message of at most 65,535 pieces with
    [fragment_message] and deliver its fragments to a reassembler that holds
    nothing under that id (whatever else it holds), in any order and with any
    repetitions, within the 30 s lifetime of the set: every delivery but the one
    that completes the set yields nothing, and that one yields the original type
    and exactly the original payload. *)
Theorem reassembly_roundtrip (ty : Z) (payload : bytes) (k : Z) (id : bytes) (r : Reassembler)
    (order : list (nat * Z)) (i : nat) (t t0 : Z)
    (Hid : len id = 8) (Hr : r !! id = None)
    (Hn : len (fragment_message ty payload k id) <= 65535)
    (H0 : head (order ++ [(i, t)]).*2 = Some t0)
    (Hin : forall j u, (j, u) ∈ order ++ [(i, t)] ->
       (j < length (fragment_message ty payload k id))%nat /\ sat_sub u t0 < REASSEMBLY_LIFETIME_MS)
    (Hall : forall j, (j < length (fragment_message ty payload k id))%nat ->
       j ∈ (order ++ [(i, t)]).*1)
    (Hlast : i ∉ order.*1) :
  deliver_all r (map (fun '(j, u) => (fragment_message ty payload k id !!! j, u)) (order ++ [(i, t)]))
  = replicate (length order) None ++ [Some (ty, payload)].
Proof.
  pose proof (pieces_nonempty payload k) as Hpos.
  unfold len in Hn. rewrite fragment_message_len in *. fold (len (pieces payload k)) in Hn.
  set (cs := pieces payload k) in *.
  assert (Hmap : map (fun '(j, u) => (fragment_message ty payload k id !!! j, u)) (order ++ [(i, t)])
                 = deliveries id ty cs (order ++ [(i, t)])).
  { apply map_ext_in. intros [j u] Hj%list_elem_of_In. apply Hin in Hj as [Hj _].
    now rewrite fragment_message_frag. }
  rewrite Hmap. rewrite <- (pieces_concat payload k). fold cs. clear Hmap.
  destruct order as [|[j u] order]; simpl in H0; injection H0 as <-.
  - destruct (Hin i t) as [Hi _]; [left|]. simpl. rewrite deliver_frag by (auto; lia).
    destruct (accept_first id Hid ty cs ltac:(lia) r i t Hr Hi) as [[_ E]|[E _]].
    + destruct (reassembler_accept r (frag id ty cs i) t). simpl in E. now rewrite E.
    + exfalso. apply E. intros j Hj%Hall. simpl in Hj. set_solver.
  - destruct (Hin j u) as [Hj _]; [left|]. simpl. rewrite deliver_frag by (auto; lia).
    destruct (accept_first id Hid ty cs ltac:(lia) r j u Hr Hj) as [[E _]|(_ & E & Hh)].
    + exfalso. assert (Hi : (i < length cs)%nat) by (apply (Hin i t), elem_of_app; right; left).
      specialize (E i Hi). simpl in Hlast. set_solver.
    + destruct (reassembler_accept r (frag id ty cs j) u) as [r' o]. simpl in E, Hh. subst o. f_equal.
      apply (deliver_rest id Hid ty cs ltac:(lia) order r' {[ j ]} u); auto.
      * apply Forall_forall. intros [j' u'] H'. apply Hin. now right.
      * intros j' Hj'%Hall. simpl in Hj'. rewrite fmap_app in Hj'. simpl in Hj'. set_solver.
      * intros Hc. assert (Hi : (i < length cs)%nat) by (apply (Hin i t), elem_of_app; right; left).
        specialize (Hc i Hi). simpl in Hlast. set_solver.
Qed.

(** Reassembly memory is bounded.  Whatever bytes arrive in fragment packets
    and at whatever times, the reassembler never panics on them and never holds
    more than 128 partial messages. *)
Theorem reassembler_bounded (l : list (bytes * Z)) :
  in_flight (foldl (fun r '(b, t) => (deliver r b t).1) ∅ l) <= MAX_IN_FLIGHT
  /\ forall b, parse_fragment b <> Panic.
Proof.
  split; [|apply parse_fragment_total].
  assert (H : forall r, in_flight r <= MAX_IN_FLIGHT ->
    in_flight (foldl (fun r '(b, t) => (deliver r b t).1) r l) <= MAX_IN_FLIGHT).
  { induction l as [|[b t] l IH]; intros r Hr; simpl; [exact Hr|]. apply IH. unfold deliver.
    destruct (parse_fragment b) as [[f|]| |]; try exact Hr. now apply accept_size. }
  apply H. unfold in_flight. rewrite map_size_empty. vm_compute. congruence.
Qed.

Lemma reassembly_roundtrip_witness :
  deliver_all ∅ (map (fun '(j, u) => (fragment_message 16 [1; 2; 3; 4; 5] 2 (replicate 8 9) !!! j, u))
                   [(2%nat, 100); (0%nat, 105); (2%nat, 110); (1%nat, 120)])
  = [None; None; None; Some (16, [1; 2; 3; 4; 5])].
Proof.
  apply (reassembly_roundtrip 16 [1; 2; 3; 4; 5] 2 (replicate 8 9) ∅
           [(2%nat, 100); (0%nat, 105); (2%nat, 110)] 1 120 100); try reflexivity.
  - vm_compute. congruence.
  - intros j u Hj. simpl in Hj. repeat (apply elem_of_cons in Hj as [[= -> ->]|Hj];
      [split; vm_compute; (reflexivity || lia)|]). now apply elem_of_nil in Hj.
  - intros j Hj. vm_compute in Hj. destruct j as [|[|[|j]]]; [| | |lia]; vm_compute; set_solver.
  - simpl. set_solver.
Defined.
