(* ===== verification/Gcs.v ===== *)
(** * Gcs: the Golomb-coded membership filter of gossip sync ([gcs.rs])

    The bit writer and reader keep the byte vector and the bit position of the
    source; [getbit] reads one bit of such a vector, and the proofs relate both
    to the list of bits they stand for. *)

From stdpp Require Import base list sets sorting.
From Stdlib Require Import ZArith Lia.
From S2P Require Import Prelude.
Open Scope Z_scope.

Definition GCS_M : Z := 100.
Definition GCS_P : nat := 6.
Definition GCS_MAX_BYTES : Z := 400.
Definition GCS_MAX_ITEMS : Z := 360.

Definition mix64 (z : Z) : Z :=
  let z := wrapN 64 (Z.lxor z (Z.shiftr z 33) * 0xff51afd7ed558ccd) in
  let z := wrapN 64 (Z.lxor z (Z.shiftr z 33) * 0xc4ceb9fe1a85ec53) in
  Z.lxor z (Z.shiftr z 33).

Definition hash_to_range (id range : Z) : Z :=
  if range =? 0 then 0 else wrapN 64 (Z.shiftr (mix64 id * range) 64).

Record BitWriter : Type := mkWriter { bw_bytes : bytes; bw_nbits : Z }.

Definition writer_new : BitWriter := mkWriter [] 0.

Definition write_bit (w : BitWriter) (bit : bool) : BitWriter :=
  let byte_idx := bw_nbits w / 8 in
  let b := if byte_idx =? len (bw_bytes w) then bw_bytes w ++ [0] else bw_bytes w in
  let b := if bit then
             let bit_idx := 7 - bw_nbits w mod 8 in
             alter (fun x => Z.lor x (Z.shiftl 1 bit_idx)) (Z.to_nat byte_idx) b
           else b in
  mkWriter b (bw_nbits w + 1).

(** [for i in (0..n).rev() { write_bit((val >> i) & 1 == 1) }] *)
Fixpoint write_bits (w : BitWriter) (val : Z) (n : nat) : BitWriter :=
  match n with
  | O => w
  | S n => write_bits (write_bit w (Z.land (Z.shiftr val (Z.of_nat n)) 1 =? 1)) val n
  end.

Definition read_bit (b : bytes) (pos : Z) : option (bool * Z) :=
  let byte_idx := pos / 8 in
  if byte_idx >=? len b then None else
  let bit_idx := 7 - pos mod 8 in
  Some (Z.land (Z.shiftr (b !!! Z.to_nat byte_idx) bit_idx) 1 =? 1, pos + 1).

Fixpoint read_bits (b : bytes) (pos : Z) (n : nat) (v : Z) : option (Z * Z) :=
  match n with
  | O => Some (v, pos)
  | S n => '(bit, pos) ← read_bit b pos;
           read_bits b pos n (Z.lor (wrapN 64 (Z.shiftl v 1)) (if bit : bool then 1 else 0))
  end.

(** [for _ in 0..q { w.write_bit(true) }] *)
Fixpoint write_ones (w : BitWriter) (q : nat) : BitWriter :=
  match q with O => w | S q => write_ones (write_bit w true) q end.

Definition rice_encode (w : BitWriter) (v : Z) (p : nat) : BitWriter :=
  let q := Z.shiftr v (Z.of_nat p) in
  let w := write_ones w (Z.to_nat q) in
  let w := write_bit w false in
  write_bits w (Z.land v (Z.shiftl 1 (Z.of_nat p) - 1)) p.

(** [while r.read_bit()? { q += 1 }]; every turn reads a bit, so one more turn
    than there are bits is enough fuel. *)
Fixpoint read_ones (fuel : nat) (b : bytes) (pos : Z) (q : Z) : option (Z * Z) :=
  match fuel with
  | O => None
  | S fuel =>
      '(bit, pos) ← read_bit b pos;
      if bit : bool then read_ones fuel b pos (q + 1) else Some (q, pos)
  end.

Definition rice_decode (b : bytes) (pos : Z) (p : nat) : option (Z * Z) :=
  '(q, pos) ← read_ones (S (8 * length b)) b pos 0;
  '(rem, pos) ← read_bits b pos p 0;
  Some (Z.lor (wrapN 64 (Z.shiftl q (Z.of_nat p))) rem, pos).

Record GcsFilter : Type := mkGcs { g_n : Z; g_data : bytes }.

(** The encoding loop over the sorted values. *)
Fixpoint encode_deltas (w : BitWriter) (last : Z) (l : list Z) : BitWriter :=
  match l with
  | [] => w
  | v :: l => encode_deltas (rice_encode w (v - last) GCS_P) v l
  end.

Definition gcs_build (ids : list Z) : GcsFilter :=
  let n := len ids in
  if n =? 0 then mkGcs 0 [] else
  let range := wrapN 64 (n * GCS_M) in
  let mapped := merge_sort Z.le (map (fun id => hash_to_range id range) ids) in
  mkGcs (wrapN 32 n) (bw_bytes (encode_deltas writer_new 0 mapped)).

(** The scanning loop of [contains]. *)
Fixpoint contains_loop (turns : nat) (b : bytes) (pos acc target : Z) : bool :=
  match turns with
  | O => false
  | S turns =>
      match rice_decode b pos GCS_P with
      | None => false
      | Some (delta, pos) =>
          let acc := sat_add 64 acc delta in
          if acc =? target then true
          else if acc >? target then false
          else contains_loop turns b pos acc target
      end
  end.

Definition gcs_contains (g : GcsFilter) (id : Z) : bool :=
  if g_n g =? 0 then false else
  let range := g_n g * GCS_M in
  let target := hash_to_range id range in
  contains_loop (Z.to_nat (g_n g)) (g_data g) 0 0 target.

Definition byte_len (g : GcsFilter) : Z := 2 + len (g_data g).

Definition gcs_to_bytes (g : GcsFilter) : bytes := be_bytes 2 (wrapN 16 (g_n g)) ++ g_data g.

Definition gcs_from_bytes (b : bytes) : option GcsFilter :=
  match b with
  | b0 :: b1 :: data => Some (mkGcs (from_be [b0; b1]) data)
  | _ => None
  end.

(** ** Bits *)

(** Bit [i] of a byte vector, most significant first. *)
Definition getbit (b : bytes) (i : Z) : bool := Z.testbit (b !!! Z.to_nat (i / 8)) (7 - i mod 8).

Lemma land_shiftr_bit x k : 0 <= k -> (Z.land (Z.shiftr x k) 1 =? 1) = Z.testbit x k.
Proof.
  intros Hk. change 1 with (Z.ones 1) at 1. rewrite Z.land_ones by lia.
  rewrite Z.shiftr_div_pow2 by exact Hk. change (2 ^ 1) with 2.
  rewrite <- Z.testbit_spec' by exact Hk. now destruct (Z.testbit x k).
Qed.

(** The writer [w] holds the bits [l], and zeros after them. *)
Record holds (w : BitWriter) (l : list bool) : Prop := {
  ho_nbits : bw_nbits w = len l;
  ho_len : len (bw_bytes w) = (len l + 7) / 8;
  ho_bits : forall i, 0 <= i < 8 * len (bw_bytes w) ->
    getbit (bw_bytes w) i = default false (l !! Z.to_nat i)
}.

Lemma holds_new : holds writer_new [].
Proof. constructor; simpl; auto. unfold len. simpl. intros i Hi. lia. Qed.

Lemma getbit_byte (b : bytes) i j :
  0 <= j < 8 -> 0 <= i -> getbit b (8 * i + j) = Z.testbit (b !!! Z.to_nat i) (7 - j).
Proof.
  intros Hj Hi. unfold getbit. rewrite (Z.mul_comm 8 i), Z.div_add_l by lia.
  rewrite (Z.div_small j 8), Z.add_0_r by lia.
  rewrite Z.add_comm, Z.mod_add, Z.mod_small by lia. reflexivity.
Qed.

Lemma bits_app_lookup (l : list bool) bit i :
  0 <= i -> default false ((l ++ [bit]) !! Z.to_nat i)
  = if i =? len l then bit else default false (l !! Z.to_nat i).
Proof.
  intros Hi. unfold len. destruct (Z.eqb_spec i (Z.of_nat (length l))) as [->|Hne].
  - rewrite Nat2Z.id. now rewrite list_lookup_middle.
  - destruct (decide (Z.to_nat i < length l)%nat) as [Hlt|Hge].
    + now rewrite lookup_app_l.
    + rewrite (lookup_ge_None_2 (l ++ [bit])) by (rewrite length_app; simpl; lia).
      now rewrite (lookup_ge_None_2 l) by lia.
Qed.

(** The byte vector before the new bit is set. *)
Lemma grow_holds w l :
  holds w l ->
  let b := if bw_nbits w / 8 =? len (bw_bytes w) then bw_bytes w ++ [0] else bw_bytes w in
  len b = (len l + 8) / 8 /\ (Z.to_nat (bw_nbits w / 8) < length b)%nat
  /\ forall i, 0 <= i < 8 * len b -> getbit b i = default false (l !! Z.to_nat i).
Proof.
  intros [Hn Hl Hb]. pose proof (len_nonneg l) as Hnn. rewrite Hn, Hl. simpl.
  pose proof (Z.div_mod (len l) 8 ltac:(lia)) as Hdm.
  pose proof (Z.mod_pos_bound (len l) 8 ltac:(lia)) as Hm.
  assert (H8 : (len l + 8) / 8 = len l / 8 + 1).
  { replace (len l + 8) with (1 * 8 + len l) by lia. rewrite Z.div_add_l by lia. lia. }
  destruct (Z.eqb_spec (len l / 8) ((len l + 7) / 8)) as [He|He].
  - assert (Hmod : len l mod 8 = 0).
    { destruct (Z.eq_dec (len l mod 8) 0) as [|Hne]; [assumption|]. exfalso.
      assert ((len l + 7) / 8 = len l / 8 + 1); [|lia].
      symmetry. apply (Z.div_unique (len l + 7) 8 (len l / 8 + 1) (len l mod 8 - 1)); lia. }
    rewrite len_app, Hl. change (len [0]) with 1. split_and!; [lia | |].
    + rewrite length_app. cbn [length]. unfold len in *. lia.
    + intros i Hi. destruct (Z.lt_ge_cases i (8 * len (bw_bytes w))) as [Hlt|Hge].
      * rewrite <- Hb by lia. unfold getbit. f_equal. apply lookup_total_app_l.
        unfold len in Hlt. apply Nat2Z.inj_lt. rewrite Z2Nat.id by (apply Z.div_pos; lia).
        apply Z.div_lt_upper_bound; lia.
      * assert (Hi8 : i / 8 = len (bw_bytes w)).
        { symmetry. apply (Z.div_unique i 8 _ (i - 8 * len (bw_bytes w))); lia. }
        unfold getbit. rewrite Hi8. unfold len at 1. rewrite Nat2Z.id.
        rewrite lookup_total_app_r by lia. rewrite Nat.sub_diag. simpl. rewrite Z.bits_0.
        rewrite (lookup_ge_None_2 l); [reflexivity|]. unfold len in *. lia.
  - assert (Hc : (len l + 7) / 8 = len l / 8 + 1).
    { pose proof (Z.div_le_mono (len l) (len l + 7) 8 ltac:(lia) ltac:(lia)).
      assert ((len l + 7) / 8 <= len l / 8 + 1); [|lia].
      rewrite <- H8. apply Z.div_le_mono; lia. }
    split_and!; [lia | |exact Hb]. unfold len in *. lia.
Qed.

Lemma write_bit_holds w l bit : holds w l -> holds (write_bit w bit) (l ++ [bit]).
Proof.
  intros Hh. pose proof (grow_holds w l Hh) as Hg. destruct Hh as [Hn _ _].
  unfold write_bit. set (b := if bw_nbits w / 8 =? len (bw_bytes w) then _ else _) in *.
  cbv zeta in Hg. destruct Hg as (Hlen & Hidx & Hbits).
  pose proof (len_nonneg l) as Hnn. pose proof (Z.mod_pos_bound (len l) 8 ltac:(lia)) as Hm.
  pose proof (Z.div_mod (len l) 8 ltac:(lia)) as Hdm. rewrite Hn in *.
  assert (Hlb : len (if bit then alter (fun x => Z.lor x (Z.shiftl 1 (7 - len l mod 8)))
                            (Z.to_nat (len l / 8)) b else b) = len b).
  { destruct bit; [|reflexivity]. unfold len. now rewrite length_alter. }
  constructor; simpl.
  - rewrite len_app. change (len [bit]) with 1. lia.
  - rewrite Hlb, Hlen, len_app. change (len [bit]) with 1. f_equal. lia.
  - rewrite Hlb. intros i Hi. rewrite bits_app_lookup by lia. rewrite <- Hbits by lia.
    pose proof (Z.mod_pos_bound i 8 ltac:(lia)) as Hmi. pose proof (Z.div_mod i 8 ltac:(lia)) as Hdi.
    assert (Hi8 : 0 <= i / 8) by (apply Z.div_pos; lia).
    assert (Hl8 : 0 <= len l / 8) by (apply Z.div_pos; lia).
    destruct bit.
    + unfold getbit. destruct (Z.eq_dec (i / 8) (len l / 8)) as [Heq|Hneq].
      * rewrite Heq. rewrite list_lookup_total_alter_eq by exact Hidx. cbv beta.
        rewrite Z.lor_spec, Z.shiftl_spec by lia.
        destruct (Z.eqb_spec i (len l)) as [->|Hne].
        -- rewrite Z.sub_diag. change (Z.testbit 1 0) with true. now rewrite orb_true_r.
        -- assert (Hb1 : Z.testbit 1 (7 - i mod 8 - (7 - len l mod 8)) = false).
           { destruct (Z.lt_ge_cases (7 - i mod 8 - (7 - len l mod 8)) 0) as [Hneg|Hpos].
             - now apply Z.testbit_neg_r.
             - change 1 with (2 ^ 0). apply Z.pow2_bits_false. lia. }
           now rewrite Hb1, orb_false_r.
      * rewrite list_lookup_total_alter_ne by lia.
        destruct (Z.eqb_spec i (len l)) as [->|Hne]; [lia | reflexivity].
    + destruct (Z.eqb_spec i (len l)) as [->|Hne]; [|reflexivity].
      rewrite Hbits by lia. unfold len. rewrite Nat2Z.id. now rewrite lookup_ge_None_2 by lia.
Qed.

(** ** Rice codes as bit lists *)

(** The low [n] bits of [v], most significant first. *)
Fixpoint low_bits (v : Z) (n : nat) : list bool :=
  match n with O => [] | S n => Z.testbit v (Z.of_nat n) :: low_bits v n end.

Definition rice_bits (v : Z) (p : nat) : list bool :=
  replicate (Z.to_nat (Z.shiftr v (Z.of_nat p))) true ++ false :: low_bits v p.

Lemma length_low_bits v n : length (low_bits v n) = n.
Proof. induction n; simpl; auto. Qed.

Lemma low_bits_land v k n :
  (n <= k)%nat -> low_bits (Z.land v (Z.shiftl 1 (Z.of_nat k) - 1)) n = low_bits v n.
Proof.
  intros Hn. induction n as [|n IH]; simpl; [reflexivity|]. rewrite IH by lia. f_equal.
  rewrite Z.land_spec, Z.shiftl_1_l, Z.sub_1_r, <- Z.ones_equiv, Z.ones_spec_low by lia.
  apply andb_true_r.
Qed.

Lemma write_bits_holds n : forall w l v, holds w l -> holds (write_bits w v n) (l ++ low_bits v n).
Proof.
  induction n as [|n IH]; intros w l v Hh; simpl; [now rewrite app_nil_r|].
  rewrite cons_middle, app_assoc. apply IH.
  rewrite land_shiftr_bit by lia. now apply write_bit_holds.
Qed.

Lemma write_ones_holds q : forall w l, holds w l -> holds (write_ones w q) (l ++ replicate q true).
Proof.
  induction q as [|q IH]; intros w l Hh; simpl; [now rewrite app_nil_r|].
  rewrite cons_middle, app_assoc. apply IH. now apply write_bit_holds.
Qed.

Lemma rice_encode_holds w l v p : holds w l -> holds (rice_encode w v p) (l ++ rice_bits v p).
Proof.
  intros Hh. unfold rice_encode, rice_bits.
  rewrite app_assoc, cons_middle, app_assoc, <- (low_bits_land v p p) by lia.
  apply write_bits_holds, write_bit_holds, write_ones_holds, Hh.
Qed.

(** The bits of [b] from [pos] on begin with [l]. *)
Definition ahead (b : bytes) (pos : Z) (l : list bool) : Prop :=
  forall i bit, l !! i = Some bit ->
    pos + Z.of_nat i < 8 * len b /\ getbit b (pos + Z.of_nat i) = bit.

Lemma ahead_app b pos l k :
  ahead b pos (l ++ k) -> ahead b pos l /\ ahead b (pos + len l) k.
Proof.
  intros H. split; intros i bit Hi.
  - apply H. now rewrite lookup_app_l by (eapply lookup_lt_Some, Hi).
  - unfold len. rewrite <- Z.add_assoc, <- Nat2Z.inj_add. apply H.
    rewrite lookup_app_r by lia. now replace (length l + i - length l)%nat with i by lia.
Qed.

Lemma read_bit_ahead b pos bit l :
  0 <= pos -> ahead b pos (bit :: l) ->
  read_bit b pos = Some (bit, pos + 1) /\ ahead b (pos + 1) l.
Proof.
  intros Hp H. destruct (H 0%nat bit eq_refl) as [Hlt Hb]. rewrite Z.add_0_r in *. split.
  - unfold read_bit. pose proof (Z.mod_pos_bound pos 8 ltac:(lia)).
    destruct (Z.geb_spec (pos / 8) (len b)) as [Hge|_].
    + exfalso. pose proof (Z.div_lt_upper_bound pos 8 (len b)). lia.
    + unfold getbit in Hb. rewrite land_shiftr_bit by lia. now rewrite Hb.
  - intros i bt Hi. specialize (H (S i) bt Hi). rewrite Nat2Z.inj_succ in H.
    now replace (pos + 1 + Z.of_nat i) with (pos + Z.succ (Z.of_nat i)) by lia.
Qed.

Lemma read_ones_ahead q : forall fuel b pos acc l,
  (q < fuel)%nat -> 0 <= pos -> ahead b pos (replicate q true ++ false :: l) ->
  read_ones fuel b pos acc = Some (acc + Z.of_nat q, pos + Z.of_nat q + 1)
  /\ ahead b (pos + Z.of_nat q + 1) l.
Proof.
  induction q as [|q IH]; intros fuel b pos acc l Hf Hp Ha; destruct fuel as [|fuel]; try lia;
    simpl in Ha; destruct (read_bit_ahead _ _ _ _ Hp Ha) as [E Ha']; simpl; rewrite E; simpl.
  - rewrite !Z.add_0_r. auto.
  - destruct (IH fuel b (pos + 1) (acc + 1) l ltac:(lia) ltac:(lia) Ha') as [E' Ha''].
    rewrite E'. replace (pos + 1 + Z.of_nat q + 1) with (pos + Z.pos (Pos.of_succ_nat q) + 1) in * by lia.
    split; [do 2 f_equal; lia | exact Ha''].
Qed.

(** One turn of [read_bits] appends the next bit of [v]. *)
Lemma push_bit v n :
  0 <= v < 2 ^ 64 ->
  Z.lor (wrapN 64 (Z.shiftl (v / 2 ^ Z.of_nat (S n)) 1))
        (if Z.testbit v (Z.of_nat n) then 1 else 0) = v / 2 ^ Z.of_nat n.
Proof.
  intros Hv.
  assert (Hd : v / 2 ^ Z.of_nat n
               = v / 2 ^ Z.of_nat (S n) * 2 ^ 1 + Z.b2z (Z.testbit v (Z.of_nat n))).
  { rewrite Z.testbit_spec' by lia. rewrite Nat2Z.inj_succ, Z.pow_succ_r by lia.
    rewrite (Z.mul_comm 2 (2 ^ Z.of_nat n)), <- Z.div_div by lia.
    rewrite Z.mul_comm. apply Z.div_mod. lia. }
  assert (Hpos : 0 <= v / 2 ^ Z.of_nat (S n)) by (apply Z.div_pos; lia).
  assert (Hup : v / 2 ^ Z.of_nat n < 2 ^ 64).
  { apply Z.div_lt_upper_bound; [lia|]. pose proof (Z.pow_pos_nonneg 2 (Z.of_nat n)). nia. }
  rewrite Z.shiftl_mul_pow2 by lia. unfold wrapN.
  rewrite Z.mod_small by (destruct (Z.testbit v (Z.of_nat n)); simpl Z.b2z in Hd; lia).
  rewrite Hd, <- lor_shift_low by (destruct (Z.testbit v (Z.of_nat n)); simpl; lia).
  reflexivity.
Qed.

(** Reading [n] bits back gives the number they are the bits of. *)
Lemma read_bits_ahead v l : forall n b pos,
  0 <= pos -> 0 <= v < 2 ^ 64 -> ahead b pos (low_bits v n ++ l) ->
  read_bits b pos n (v / 2 ^ Z.of_nat n) = Some (v, pos + Z.of_nat n)
  /\ ahead b (pos + Z.of_nat n) l.
Proof.
  induction n as [|n IH]; intros b pos Hp Hv Ha.
  - cbn [read_bits low_bits app] in *. change (2 ^ Z.of_nat 0) with 1.
    change (Z.of_nat 0) with 0. rewrite Z.div_1_r, Z.add_0_r. auto.
  - cbn [low_bits app] in Ha. destruct (read_bit_ahead _ _ _ _ Hp Ha) as [E Ha'].
    cbn [read_bits]. rewrite E. cbn [mbind option_bind]. rewrite push_bit by exact Hv.
    destruct (IH b (pos + 1) ltac:(lia) Hv Ha') as [E' Ha''].
    replace (pos + Z.of_nat (S n)) with (pos + 1 + Z.of_nat n) by lia. auto.
Qed.

Lemma low_bits_mod v p : forall n, (n <= p)%nat -> low_bits (v mod 2 ^ Z.of_nat p) n = low_bits v n.
Proof.
  induction n as [|n IH]; intros Hn; simpl; [reflexivity|].
  rewrite IH by lia. now rewrite Z.mod_pow2_bits_low by lia.
Qed.

(** The bits ahead are inside the buffer, so there are at most [8 * length b] of them. *)
Lemma ahead_length b pos l : 0 <= pos -> ahead b pos l -> (length l <= 8 * length b)%nat.
Proof.
  intros Hp H. destruct l as [|x l]; [simpl; lia|].
  destruct (lookup_lt_is_Some_2 (x :: l) (length l) ltac:(simpl; lia)) as [y Hy].
  destruct (H _ _ Hy) as [Hlt _]. unfold len in Hlt. simpl. lia.
Qed.

(** Decoding inverts encoding: a value's Rice code ahead is read back as the
    value, and the reader stands after it. *)
Lemma rice_decode_ahead b pos v p l :
  0 <= pos -> 0 <= v < 2 ^ 64 -> ahead b pos (rice_bits v p ++ l) ->
  rice_decode b pos p = Some (v, pos + len (rice_bits v p))
  /\ ahead b (pos + len (rice_bits v p)) l.
Proof.
  intros Hp Hv Ha. assert (Ha0 := Ha). unfold rice_bits in Ha. rewrite <- app_assoc in Ha.
  cbn [app] in Ha. unfold rice_decode.
  set (q := Z.to_nat (Z.shiftr v (Z.of_nat p))) in *.
  assert (Hq : Z.of_nat q = v / 2 ^ Z.of_nat p).
  { unfold q. rewrite Z.shiftr_div_pow2 by lia. apply Z2Nat.id, Z.div_pos; lia. }
  assert (Hf : (q < S (8 * length b))%nat).
  { destruct (ahead_app _ _ _ _ Ha) as [Hr _]. apply ahead_length in Hr; [|exact Hp].
    rewrite length_replicate in Hr. lia. }
  destruct (read_ones_ahead q _ b pos 0 _ Hf Hp Ha) as [E Ha1].
  rewrite E. cbn [mbind option_bind]. rewrite <- (low_bits_mod v p p) in Ha1 by lia.
  pose proof (Z.pow_pos_nonneg 2 (Z.of_nat p) ltac:(lia) ltac:(lia)) as H2.
  pose proof (Z.mod_pos_bound v (2 ^ Z.of_nat p) H2) as Hm.
  pose proof (Z.mod_le v (2 ^ Z.of_nat p) ltac:(lia) ltac:(lia)) as Hmle.
  destruct (read_bits_ahead (v mod 2 ^ Z.of_nat p) l p b (pos + Z.of_nat q + 1)
              ltac:(lia) ltac:(lia) Ha1) as [E2 Ha2].
  rewrite (Z.div_small (v mod _)) in E2 by exact Hm. rewrite E2. cbn [mbind option_bind].
  assert (Hlen : len (rice_bits v p) = Z.of_nat q + 1 + Z.of_nat p).
  { unfold rice_bits, len. rewrite length_app, length_replicate. simpl.
    rewrite length_low_bits. fold q. lia. }
  rewrite Hlen. replace (pos + (Z.of_nat q + 1 + Z.of_nat p))
    with (pos + Z.of_nat q + 1 + Z.of_nat p) by lia. split; [|exact Ha2].
  do 2 f_equal. rewrite Z.add_0_l, Hq, Z.shiftl_mul_pow2 by lia.
  pose proof (Z.div_mod v (2 ^ Z.of_nat p) ltac:(lia)) as Hdm.
  unfold wrapN. rewrite Z.mod_small by (split; [apply Z.mul_nonneg_nonneg; [apply Z.div_pos|]|]; lia).
  rewrite lor_shift_low by (exact Hm || lia). lia.
Qed.

(** ** The delta stream *)

Fixpoint delta_bits (last : Z) (l : list Z) : list bool :=
  match l with [] => [] | v :: l => rice_bits (v - last) GCS_P ++ delta_bits v l end.

Lemma encode_deltas_holds l : forall w last bits,
  holds w bits -> holds (encode_deltas w last l) (bits ++ delta_bits last l).
Proof.
  induction l as [|v l IH]; intros w last bits Hh; simpl; [now rewrite app_nil_r|].
  rewrite app_assoc. now apply IH, rice_encode_holds.
Qed.

Lemma holds_ahead w l : holds w l -> ahead (bw_bytes w) 0 l.
Proof.
  intros [_ Hl Hb] i bit Hi. rewrite Z.add_0_l. pose proof (lookup_lt_Some _ _ _ Hi) as Hlt.
  assert (H8 : Z.of_nat i < 8 * len (bw_bytes w)).
  { rewrite Hl. pose proof (Z.div_mod (len l + 7) 8 ltac:(lia)).
    pose proof (Z.mod_pos_bound (len l + 7) 8 ltac:(lia)). unfold len in *. lia. }
  split; [exact H8|]. rewrite Hb by lia. now rewrite Nat2Z.id, Hi.
Qed.

(** The scan meets every value of a sorted stream. *)
Lemma contains_loop_finds b target l : forall turns pos acc,
  0 <= pos -> 0 <= acc -> StronglySorted Z.le (acc :: l) -> Forall (fun v => v < 2 ^ 64) l ->
  ahead b pos (delta_bits acc l) -> (length l <= turns)%nat -> target ∈ l ->
  contains_loop turns b pos acc target = true.
Proof.
  induction l as [|v l IH]; intros turns pos acc Hp Hacc Hs Hub Ha Ht Hin; [inversion Hin|].
  inversion Hs as [|? ? Hsl Hle]; subst. inversion Hle as [|? ? Hv _]; subst.
  inversion Hub as [|? ? Hv64 Hub']; subst. destruct turns as [|turns]; [simpl in Ht; lia|].
  cbn [delta_bits] in Ha.
  destruct (rice_decode_ahead b pos (v - acc) GCS_P _ Hp ltac:(lia) Ha) as [E Ha'].
  cbn [contains_loop]. rewrite E. unfold sat_add.
  replace (Z.min (2 ^ 64 - 1) (acc + (v - acc))) with v by lia.
  destruct (Z.eqb_spec v target) as [|Hne]; [reflexivity|].
  apply elem_of_cons in Hin as [->|Hin]; [congruence|].
  inversion Hsl as [|? ? _ Hall]; subst. rewrite Forall_forall in Hall. specialize (Hall _ Hin).
  destruct (Z.gtb_spec v target) as [|_]; [lia|].
  apply IH; auto; [pose proof (len_nonneg (rice_bits (v - acc) GCS_P)); lia | lia |].
  simpl in Ht. lia.
Qed.

(** ** The hash *)

Lemma testbit_high z k n : 0 <= z < 2 ^ n -> 0 <= n <= k -> Z.testbit z k = false.
Proof. intros Hz Hk. rewrite <- (Z.mod_small z (2 ^ n) Hz). apply Z.mod_pow2_bits_high. lia. Qed.

Lemma lxor_shift_bound z k : 0 <= k -> 0 <= z < 2 ^ 64 -> 0 <= Z.lxor z (Z.shiftr z k) < 2 ^ 64.
Proof.
  intros Hk Hz. assert (H : Z.lxor z (Z.shiftr z k) = Z.lxor z (Z.shiftr z k) mod 2 ^ 64).
  { apply Z.bits_inj'. intros i Hi. destruct (Z.lt_ge_cases i 64) as [Hlt|Hge].
    - now rewrite Z.mod_pow2_bits_low.
    - rewrite Z.mod_pow2_bits_high by lia. rewrite Z.lxor_spec, Z.shiftr_spec by lia.
      now rewrite !(testbit_high z _ 64) by lia. }
  rewrite H. apply Z.mod_pos_bound. lia.
Qed.

Lemma mix64_bound z : 0 <= mix64 z < 2 ^ 64.
Proof. unfold mix64. cbv zeta. apply lxor_shift_bound; [lia|]. apply Z.mod_pos_bound. lia. Qed.

Lemma hash_to_range_bound id range :
  0 < range <= 2 ^ 64 -> 0 <= hash_to_range id range < range.
Proof.
  intros Hr. unfold hash_to_range. destruct (Z.eqb_spec range 0) as [|_]; [lia|].
  pose proof (mix64_bound id) as Hm. generalize dependent (mix64 id). intros m Hm.
  rewrite Z.shiftr_div_pow2 by lia.
  assert (H : 0 <= m * range / 2 ^ 64 < range).
  { split; [apply Z.div_pos; nia|]. apply Z.div_lt_upper_bound; nia. }
  unfold wrapN. rewrite Z.mod_small by lia. exact H.
Qed.

(** The values a filter encodes: sorted and inside the range. *)
Definition mapped (ids : list Z) : list Z :=
  merge_sort Z.le (map (fun id => hash_to_range id (len ids * GCS_M)) ids).

#[local] Instance Zle_total : Total Z.le.
Proof. intros x y. lia. Qed.

#[local] Instance Zle_trans : Transitive Z.le.
Proof. intros x y z. lia. Qed.

Lemma mapped_spec ids :
  ids <> [] -> len ids < 2 ^ 32 ->
  StronglySorted Z.le (0 :: mapped ids) /\ length (mapped ids) = length ids
  /\ Forall (fun v => 0 <= v < len ids * GCS_M) (mapped ids)
  /\ forall id, id ∈ ids -> hash_to_range id (len ids * GCS_M) ∈ mapped ids.
Proof.
  intros Hne Hn. unfold mapped.
  assert (Hpos : 0 < len ids) by (destruct ids; [congruence | unfold len; simpl; lia]).
  set (f := fun id => hash_to_range id (len ids * GCS_M)).
  assert (Hf : forall id, 0 <= f id < len ids * GCS_M).
  { intros id. apply hash_to_range_bound. unfold GCS_M. lia. }
  pose proof (merge_sort_Permutation Z.le (map f ids)) as HP.
  assert (HF : Forall (fun v => 0 <= v < len ids * GCS_M) (merge_sort Z.le (map f ids))).
  { rewrite HP. apply Forall_map, Forall_true. intros; apply Hf. }
  split_and!; [|now rewrite HP, length_map | exact HF |].
  - constructor; [apply (StronglySorted_merge_sort Z.le)|].
    eapply Forall_impl; [exact HF|]. simpl. lia.
  - intros id Hid. rewrite HP. apply list_elem_of_fmap. eauto.
Qed.

Lemma gcs_build_spec ids :
  ids <> [] -> len ids < 2 ^ 32 ->
  exists w, holds w (delta_bits 0 (mapped ids)) /\ gcs_build ids = mkGcs (len ids) (bw_bytes w).
Proof.
  intros Hne Hn. unfold gcs_build.
  assert (Hpos : 0 < len ids) by (destruct ids; [congruence | unfold len; simpl; lia]).
  destruct (Z.eqb_spec (len ids) 0) as [|_]; [lia|].
  assert (Hr : wrapN 64 (len ids * GCS_M) = len ids * GCS_M).
  { apply Z.mod_small. unfold GCS_M. lia. }
  cbv zeta. rewrite Hr. assert (Hw : wrapN 32 (len ids) = len ids) by (apply Z.mod_small; lia).
  rewrite Hw. eexists. split; [|reflexivity]. apply (encode_deltas_holds _ _ _ [] holds_new).
Qed.

Lemma gcs_contains_build ids id :
  len ids < 2 ^ 32 -> id ∈ ids -> gcs_contains (gcs_build ids) id = true.
Proof.
  intros Hn Hid. assert (Hne : ids <> []) by (intros ->; inversion Hid).
  destruct (gcs_build_spec ids Hne Hn) as (w & Hw & ->). unfold gcs_contains. simpl.
  destruct (mapped_spec ids Hne Hn) as (Hs & Hl & Hb & Hin).
  assert (Hpos : 0 < len ids) by (destruct ids; [congruence | unfold len; simpl; lia]).
  destruct (Z.eqb_spec (len ids) 0) as [|_]; [lia|].
  apply contains_loop_finds with (l := mapped ids); auto; try lia.
  - eapply Forall_impl; [exact Hb|]. unfold GCS_M. simpl. lia.
  - now apply holds_ahead.
  - rewrite Hl. unfold len. lia.
Qed.

Lemma len_rice_bits v p :
  0 <= v -> len (rice_bits v p) = v / 2 ^ Z.of_nat p + 1 + Z.of_nat p.
Proof.
  intros Hv. unfold rice_bits, len. rewrite length_app, length_replicate. simpl.
  rewrite length_low_bits, Z.shiftr_div_pow2 by lia.
  pose proof (Z.div_pos v (2 ^ Z.of_nat p) Hv ltac:(lia)). lia.
Qed.

(** The quotients telescope: the unary parts of a sorted stream cost at most
    one bit for every 64 of its range. *)
Lemma delta_bits_len m l : forall last,
  last <= m -> StronglySorted Z.le (last :: l) -> Forall (fun v => v <= m) l ->
  64 * len (delta_bits last l) <= 448 * len l + (m - last).
Proof.
  induction l as [|v l IH]; intros last Hlm Hs Hub; [unfold len; simpl; lia|].
  inversion Hs as [|? ? Hsl Hle]; subst. inversion Hle as [|? ? Hv _]; subst.
  inversion Hub as [|? ? Hvm Hub']; subst. specialize (IH v Hvm Hsl Hub').
  cbn [delta_bits]. rewrite len_app, len_rice_bits by lia. change (2 ^ Z.of_nat GCS_P) with 64.
  change (Z.of_nat GCS_P) with 6. pose proof (Z.mul_div_le (v - last) 64 ltac:(lia)).
  unfold len in *. cbn [length]. lia.
Qed.

(** The receiver of the advertised bytes rebuilds the filter. *)
Lemma gcs_wire ids :
  len ids < 65536 -> gcs_from_bytes (gcs_to_bytes (gcs_build ids)) = Some (gcs_build ids).
Proof.
  intros Hn. destruct (decide (ids = [])) as [->|Hne]; [reflexivity|].
  destruct (gcs_build_spec ids Hne ltac:(lia)) as (w & _ & ->). unfold gcs_to_bytes. cbn [g_n g_data].
  pose proof (len_nonneg ids) as Hnn.
  assert (Hw : wrapN 16 (len ids) = len ids) by (apply Z.mod_small; lia). rewrite Hw.
  pose proof (from_be_be_bytes 2 (len ids) ltac:(change (256 ^ Z.of_nat 2) with 65536; lia)) as E.
  cbn [be_bytes] in E |- *. cbn [app gcs_from_bytes]. now rewrite E.
Qed.

(** The size budget: 360 ids never need more than 388 bytes. *)
Lemma gcs_size_bound ids :
  len ids <= GCS_MAX_ITEMS ->
  len (gcs_to_bytes (gcs_build ids)) = byte_len (gcs_build ids)
  /\ byte_len (gcs_build ids) <= 388 <= GCS_MAX_BYTES.
Proof.
  unfold GCS_MAX_ITEMS, GCS_MAX_BYTES. intros Hn. split.
  { unfold gcs_to_bytes, byte_len. now rewrite len_app, len_be_bytes. }
  split; [|lia]. destruct (decide (ids = [])) as [->|Hne]; [vm_compute; discriminate|].
  destruct (gcs_build_spec ids Hne ltac:(lia)) as (w & [_ Hl _] & ->). unfold byte_len. cbn [g_data].
  destruct (mapped_spec ids Hne ltac:(lia)) as (Hs & Hlen & Hb & _).
  pose proof (delta_bits_len (len ids * GCS_M) (mapped ids) 0) as Hd.
  assert (Hmap : len (mapped ids) = len ids) by (unfold len; now rewrite Hlen).
  rewrite Hmap in Hd. unfold GCS_M in *. pose proof (len_nonneg ids).
  specialize (Hd ltac:(lia) Hs). assert (Hb' := Forall_impl _ _ _ Hb (fun v Hv => Z.lt_le_incl _ _ (proj2 Hv))).
  specialize (Hd Hb'). rewrite Hl.
  pose proof (Z.div_le_mono (len (delta_bits 0 (mapped ids)) + 7) 3095 8 ltac:(lia) ltac:(lia)) as Hdv.
  change (3095 / 8) with 386 in Hdv. lia.
Qed.

(** ** Properties *)

(** The filter has no false negatives. For every list of at most 65,535
    packet ids and every id in it, the peer that receives the advertised bytes
    rebuilds exactly the filter that was built, and its [contains] answers true:
    a packet the node holds is never counted as missing. *)
Theorem gcs_no_false_negatives (ids : list Z) (id : Z) :
  len ids < 65536 -> id ∈ ids ->
  gcs_from_bytes (gcs_to_bytes (gcs_build ids)) = Some (gcs_build ids)
  /\ gcs_contains (gcs_build ids) id = true.
Proof. intros Hn Hid. split; [now apply gcs_wire | apply gcs_contains_build; [lia | exact Hid]]. Qed.

Lemma gcs_no_false_negatives_witness :
  gcs_contains (gcs_build [7; 99; 2 ^ 40]) 99 = true.
Proof. apply (gcs_no_false_negatives [7; 99; 2 ^ 40] 99); [vm_compute; reflexivity | set_solver]. Defined.

(** The documented size budget. A filter over at most [GCS_MAX_ITEMS] (360)
    ids, whatever they are, encodes to at most 388 bytes on the wire, inside
    the [GCS_MAX_BYTES] budget. *)
Theorem gcs_size_budget (ids : list Z) :
  len ids <= GCS_MAX_ITEMS ->
  len (gcs_to_bytes (gcs_build ids)) = byte_len (gcs_build ids)
  /\ byte_len (gcs_build ids) <= 388 <= GCS_MAX_BYTES.
Proof. apply gcs_size_bound. Qed.

Lemma gcs_size_budget_witness :
  let ids := map Z.of_nat (seq 0 360) in
  len (gcs_to_bytes (gcs_build ids)) = byte_len (gcs_build ids)
  /\ byte_len (gcs_build ids) <= 388 <= GCS_MAX_BYTES.
Proof.
  assert (H : len (map Z.of_nat (seq 0 360)) <= GCS_MAX_ITEMS) by (vm_compute; discriminate).
  exact (gcs_size_budget (map Z.of_nat (seq 0 360)) H).
Defined.
