(* ===== verification/SwapLeg.v ===== *)
(** * SwapLeg: one hash-time-locked escrow ([swap_leg.rs])

    The trait [SwapLeg] is a class over the escrow's state; [SwapLegLaws] is the
    contract its documentation states, the rules of a hash-time-locked contract,
    and [MockLeg] is the in-memory escrow of the source.  The theorems on the two
    sides of a swap are proved for every leg that keeps the contract. *)

From stdpp Require Import base list.
From Stdlib Require Import ZArith Lia.
From S2P Require Import Prelude Crypto.
Open Scope Z_scope.

Inductive LegOutcome : Type := Unfunded | LegFunded | LegClaimed | LegRefunded.

#[export] Instance LegOutcome_eq_dec : EqDecision LegOutcome.
Proof. solve_decision. Defined.

Record HtlcParams : Type := mkHtlc { h_hashlock : bytes; h_amount : Z; h_timeout : Z }.

Inductive LegError : Type :=
| NotUnfunded
| NotFunded
| WrongPreimage
| ClaimWindowClosed (timeout head : Z)
| LegTimeoutNotReached (timeout head : Z).

Class SwapLeg (L : Type) : Type := {
  leg_fund : L -> HtlcParams -> res LegError L;
  leg_claim : L -> bytes -> Z -> res LegError L;
  leg_refund : L -> Z -> res LegError L;
  leg_outcome : L -> LegOutcome;
  leg_revealed : L -> option bytes
}.

(** The contract of a leg: [leg_lock] gives the terms it was funded with, and
    the three operations succeed exactly on the conditions that the
    documentation of the trait states. *)
Class SwapLegLaws {C : Crypto} (L : Type) `{SwapLeg L} : Type := {
  leg_lock : L -> option HtlcParams;
  leg_fund_inv l p l' : leg_fund l p = Ok l' ->
    leg_outcome l = Unfunded /\ leg_outcome l' = LegFunded /\ leg_lock l' = Some p
    /\ leg_revealed l' = leg_revealed l;
  leg_fund_open l p : leg_outcome l = Unfunded -> exists l', leg_fund l p = Ok l';
  leg_claim_inv l x h l' : leg_claim l x h = Ok l' ->
    exists p, leg_outcome l = LegFunded /\ leg_lock l = Some p /\ sha256 x = h_hashlock p
      /\ h <= h_timeout p
      /\ leg_outcome l' = LegClaimed /\ leg_lock l' = Some p /\ leg_revealed l' = Some x;
  leg_claim_open l x h p :
    leg_outcome l = LegFunded -> leg_lock l = Some p -> sha256 x = h_hashlock p ->
    h <= h_timeout p -> exists l', leg_claim l x h = Ok l';
  leg_refund_inv l h l' : leg_refund l h = Ok l' ->
    exists p, leg_outcome l = LegFunded /\ leg_lock l = Some p /\ h_timeout p < h
      /\ leg_outcome l' = LegRefunded /\ leg_lock l' = Some p
      /\ leg_revealed l' = leg_revealed l;
  leg_refund_open l h p :
    leg_outcome l = LegFunded -> leg_lock l = Some p -> h_timeout p < h ->
    exists l', leg_refund l h = Ok l'
}.

(** ** The in-memory escrow *)

Record MockLeg : Type := mkMock {
  ml_params : option HtlcParams;
  ml_outcome : LegOutcome;
  ml_revealed : option bytes
}.

Definition mock_new : MockLeg := mkMock None Unfunded None.

Definition mock_amount (l : MockLeg) : option Z := h_amount <$> ml_params l.

Definition mock_fund (l : MockLeg) (p : HtlcParams) : res LegError MockLeg :=
  if negb (bool_decide (ml_outcome l = Unfunded)) then Err NotUnfunded else
  Ok (mkMock (Some p) LegFunded (ml_revealed l)).

Definition mock_claim {C : Crypto} (l : MockLeg) (preimage : bytes) (head : Z)
  : res LegError MockLeg :=
  match ml_outcome l, ml_params l with
  | LegFunded, Some p =>
      if negb (bool_decide (sha256 preimage = h_hashlock p)) then Err WrongPreimage else
      if head >? h_timeout p then Err (ClaimWindowClosed (h_timeout p) head) else
      Ok (mkMock (ml_params l) LegClaimed (Some preimage))
  | _, _ => Err NotFunded
  end.

Definition mock_refund (l : MockLeg) (head : Z) : res LegError MockLeg :=
  match ml_outcome l, ml_params l with
  | LegFunded, Some p =>
      if head <=? h_timeout p then Err (LegTimeoutNotReached (h_timeout p) head) else
      Ok (mkMock (ml_params l) LegRefunded (ml_revealed l))
  | _, _ => Err NotFunded
  end.

#[export] Instance Mock_leg {C : Crypto} : SwapLeg MockLeg := {|
  leg_fund := mock_fund;
  leg_claim := mock_claim;
  leg_refund := mock_refund;
  leg_outcome := ml_outcome;
  leg_revealed := ml_revealed
|}.

Ltac mock_leg := simpl; unfold mock_fund, mock_claim, mock_refund; intros H.

#[export] Instance Mock_leg_laws {C : Crypto} : SwapLegLaws MockLeg.
Proof.
  refine {| leg_lock := ml_params |}.
  - intros [q o r] p l'. mock_leg. run H. simpl in *. auto.
  - intros [q o r] p. simpl. intros ->. eexists. reflexivity.
  - intros [q o r] x h l'. mock_leg. destruct o, q as [p|]; try discriminate. simpl in *.
    run H. exists p. split_and!; auto; lia.
  - intros [q o r] x h p. simpl. intros -> -> E Hh. unfold mock_claim. simpl.
    rewrite bool_decide_true by exact E. simpl. destruct (Z.gtb_spec h (h_timeout p)); [lia|].
    eexists. reflexivity.
  - intros [q o r] h l'. mock_leg. destruct o, q as [p|]; try discriminate. simpl in *.
    run H. exists p. split_and!; auto; lia.
  - intros [q o r] h p. simpl. intros -> -> Hh. unfold mock_refund. simpl.
    destruct (Z.leb_spec h (h_timeout p)); [lia|]. eexists. reflexivity.
Defined.
