(* ===== verification/SwapAtomic.v ===== *)
(** * SwapAtomic: no one-sided settlement

    The swap machine of [swap.rs] run over two escrows of [swap_leg.rs] against a
    counterparty that does whatever the chain lets it do.  The end-to-end tests
    of the repository check the invariant "no one-sided settlement" on a few
    schedules; here it is proved for every schedule.

    Each side has a world of its own, with the machine of the honest party, both
    escrows and the block height, and moves of the party, of time and of the
    counterparty.  What a key protects on the chain is built into the moves: the
    counterparty of the initiator can claim the NIM leg and fund and refund the
    other one, the counterparty of the responder the reverse.  It cannot open the
    hashlock before the secret is public.  An observation of the other leg is
    made only when the chain shows it, which is what the funding gate of
    [SwapCoordinator] establishes. *)

From stdpp Require Import base list relations.
From Stdlib Require Import ZArith Lia.
From S2P Require Import Prelude SwapWire Swap Crypto SwapLeg.
Open Scope Z_scope.

(** The head a method is called at. *)
Definition called_at (ev : SwapEvent) : option Z :=
  match ev with
  | EvAccept h | EvFund h | EvReveal h | EvForfeit h | EvRefund h => Some h
  | _ => None
  end.

Definition event_at (ev : SwapEvent) (head : Z) : bool :=
  match called_at ev with Some h => h =? head | None => true end.

Section atomic.
Context {C : Crypto} {L : Type} {SL : SwapLeg L} {LL : SwapLegLaws L}.
Context (params : LadderParams) (t : SwapTerms) (nim_amount btc_amount : Z).

(** The leg is locked on the chain with the agreed terms. *)
Definition leg_shown (l : L) (hashlock : bytes) (amount timeout : Z) : bool :=
  match leg_lock l with
  | Some p => bool_decide (leg_outcome l = LegFunded) && bool_decide (h_hashlock p = hashlock)
              && (amount <=? h_amount p) && (timeout <=? h_timeout p)
  | None => false
  end.

(** A transaction that the chain refuses changes nothing. *)
Definition settle_leg (l : L) (r : res LegError L) : L := match r with Ok l' => l' | _ => l end.

(** ** The side of the initiator *)

(** [iw_claim] is the height at which the claim of the other leg was broadcast,
    while it waits to be included; the secret is public from then on. *)
Record IWorld : Type := mkIW {
  iw_head : Z; iw_nim : L; iw_btc : L; iw_swap : Swap; iw_claim : option Z
}.

Inductive IMove : Type :=
| IAct (ev : SwapEvent)
| ITime
| IInclude
| ICounterFund (p : HtlcParams)
| ICounterRefund
| ICounterClaim (x : bytes).

Section initiator.
Context (secret : bytes).

Definition i_leaked (w : IWorld) : bool :=
  bool_decide (is_Some (iw_claim w)) || bool_decide (is_Some (leg_revealed (iw_btc w))).

Definition i_perform (w : IWorld) (s : Swap) (a : SwapAction) : IWorld :=
  match a with
  | FundLeg _ timeout =>
      mkIW (iw_head w)
        (settle_leg (iw_nim w) (leg_fund (iw_nim w) (mkHtlc (sha256 secret) nim_amount timeout)))
        (iw_btc w) s (iw_claim w)
  | ClaimLeg _ => mkIW (iw_head w) (iw_nim w) (iw_btc w) s (Some (iw_head w))
  | RefundLeg _ =>
      mkIW (iw_head w) (settle_leg (iw_nim w) (leg_refund (iw_nim w) (iw_head w)))
        (iw_btc w) s (iw_claim w)
  | ActNone => mkIW (iw_head w) (iw_nim w) (iw_btc w) s (iw_claim w)
  end.

(** The moves.  A broadcast claim is included within the claim window, so time
    does not pass that point before [IInclude]. *)
Definition i_move (w : IWorld) (m : IMove) : option IWorld :=
  match m with
  | IAct ev =>
      let seen := match ev with
                  | EvObserveCounterpartyFunded =>
                      leg_shown (iw_btc w) (sha256 secret) btc_amount (counterparty_timeout t)
                  | _ => true
                  end in
      if negb (event_at ev (iw_head w) && seen) then None else
      match apply_event params (iw_swap w) ev with
      | Ok (s, a) => Some (i_perform w s a)
      | _ => None
      end
  | ITime =>
      let late := match iw_claim w with
                  | Some h => h + min_claim_window_blocks params <=? iw_head w
                  | None => false
                  end in
      if late then None
      else Some (mkIW (iw_head w + 1) (iw_nim w) (iw_btc w) (iw_swap w) (iw_claim w))
  | IInclude =>
      match iw_claim w, leg_claim (iw_btc w) secret (iw_head w) with
      | Some _, Ok l => Some (mkIW (iw_head w) (iw_nim w) l (iw_swap w) None)
      | _, _ => None
      end
  | ICounterFund p =>
      match leg_fund (iw_btc w) p with
      | Ok l => Some (mkIW (iw_head w) (iw_nim w) l (iw_swap w) (iw_claim w))
      | _ => None
      end
  | ICounterRefund =>
      match leg_refund (iw_btc w) (iw_head w) with
      | Ok l => Some (mkIW (iw_head w) (iw_nim w) l (iw_swap w) (iw_claim w))
      | _ => None
      end
  | ICounterClaim x =>
      if bool_decide (sha256 x = sha256 secret) && negb (i_leaked w) then None else
      match leg_claim (iw_nim w) x (iw_head w) with
      | Ok l => Some (mkIW (iw_head w) l (iw_btc w) (iw_swap w) (iw_claim w))
      | _ => None
      end
  end.

Definition i_run (w : IWorld) (ms : list IMove) : option IWorld :=
  foldl (fun o m => w ← o; i_move w m) (Some w) ms.

Definition i_start (head : Z) (nim btc : L) : IWorld :=
  mkIW head nim btc (swap_new Initiator t) None.

(** A leg of the initiator's, by the phase of its machine. *)
Definition nim_at (ph : SwapPhase) (l : L) : Prop :=
  let lock := leg_lock l = Some (mkHtlc (sha256 secret) nim_amount (nim_timeout t)) in
  match ph with
  | Proposed | Accepted | Aborted => leg_outcome l = Unfunded
  | SelfFunded | BothFunded => leg_outcome l = LegFunded /\ lock
  | Revealed | Settled => (leg_outcome l = LegFunded \/ leg_outcome l = LegClaimed) /\ lock
  | Refunded => leg_outcome l = LegRefunded \/ leg_outcome l = LegClaimed
  | InitiatorFunded | Lost => False
  end.

(** The other leg has the agreed terms, and is still locked until [T_B]. *)
Definition btc_agreed (w : IWorld) : Prop :=
  exists p, leg_lock (iw_btc w) = Some p /\ h_hashlock p = sha256 secret
    /\ btc_amount <= h_amount p /\ counterparty_timeout t <= h_timeout p
    /\ (leg_outcome (iw_btc w) = LegFunded
        \/ (leg_outcome (iw_btc w) = LegRefunded /\ counterparty_timeout t < iw_head w)).

(** The phases in which the secret has not left the initiator. *)
Definition sealed (ph : SwapPhase) : bool :=
  match ph with Revealed | Settled | Refunded => false | _ => true end.

Record i_inv (w : IWorld) : Prop := {
  ii_role : role (iw_swap w) = Initiator;
  ii_terms : terms (iw_swap w) = t;
  ii_nim : nim_at (phase (iw_swap w)) (iw_nim w);
  ii_both : phase (iw_swap w) = BothFunded -> btc_agreed w;
  ii_sealed : sealed (phase (iw_swap w)) = true -> i_leaked w = false;
  ii_shown : is_Some (leg_revealed (iw_btc w)) -> leg_outcome (iw_btc w) = LegClaimed;
  ii_claim : forall h, iw_claim w = Some h ->
    btc_agreed w /\ h <= iw_head w <= h + min_claim_window_blocks params
    /\ h + min_claim_window_blocks params <= counterparty_timeout t;
  ii_revealed : phase (iw_swap w) = Revealed \/ phase (iw_swap w) = Settled ->
    is_Some (iw_claim w) \/ leg_outcome (iw_btc w) = LegClaimed;
  ii_taken : leg_outcome (iw_nim w) = LegClaimed -> i_leaked w = true
}.

Lemma i_leaked_iff w :
  i_leaked w = true <-> is_Some (iw_claim w) \/ is_Some (leg_revealed (iw_btc w)).
Proof. unfold i_leaked. rewrite orb_true_iff, !bool_decide_eq_true. reflexivity. Qed.

Lemma btc_agreed_mono w w' :
  btc_agreed w -> iw_btc w' = iw_btc w -> iw_head w <= iw_head w' -> btc_agreed w'.
Proof.
  intros (p & Hl & Hh & Ha & Ht & Ho) Hb Hle. exists p. rewrite Hb. split_and!; auto.
  destruct Ho as [Ho|[Ho Hlt]]; [left; exact Ho | right; split; [exact Ho | lia]].
Qed.

Lemma i_time_inv w w' : i_inv w -> i_move w ITime = Some w' -> i_inv w'.
Proof.
  intros [] E. cbn [i_move] in E.
  assert (Hlate : forall h, iw_claim w = Some h -> iw_head w < h + min_claim_window_blocks params).
  { intros h Hh. rewrite Hh in E. case_hyp E; [discriminate|]. bool_prop. lia. }
  assert (Ew : w' = mkIW (iw_head w + 1) (iw_nim w) (iw_btc w) (iw_swap w) (iw_claim w)).
  { destruct (match iw_claim w with Some _ => _ | None => _ end); congruence. }
  clear E. subst w'. constructor; simpl; auto.
  - intros Hp. eapply btc_agreed_mono; [exact (ii_both0 Hp) | reflexivity | simpl; lia].
  - intros h Hh. specialize (Hlate h Hh). destruct (ii_claim0 h Hh) as (Ha & ? & ?).
    split; [|lia]. eapply btc_agreed_mono; [exact Ha | reflexivity | simpl; lia].
Qed.

Lemma i_include_inv w w' : i_inv w -> i_move w IInclude = Some w' -> i_inv w'.
Proof.
  intros [] E. simpl in E. destruct (iw_claim w) as [h|] eqn:Hc; [|discriminate].
  destruct (leg_claim _ _ _) as [l| |] eqn:Hl; simplify_eq.
  apply leg_claim_inv in Hl as (p & _ & _ & _ & _ & Ho & _ & Hr).
  assert (Hs : sealed (phase (iw_swap w)) = false).
  { destruct (sealed _); [|reflexivity]. exfalso. specialize (ii_sealed0 eq_refl).
    assert (i_leaked w = true) by (apply i_leaked_iff; left; rewrite Hc; eauto). congruence. }
  assert (Hk : i_leaked (mkIW (iw_head w) (iw_nim w) l (iw_swap w) None) = true).
  { apply i_leaked_iff. simpl. rewrite Hr. eauto. }
  constructor; simpl; auto; try discriminate.
  - intros Hb. now rewrite Hb in Hs.
  - congruence.
Qed.
Lemma i_counter_fund_inv w w' p : i_inv w -> i_move w (ICounterFund p) = Some w' -> i_inv w'.
Proof.
  intros [] E. simpl in E. destruct (leg_fund _ _) as [l| |] eqn:Hl; simplify_eq.
  apply leg_fund_inv in Hl as (Hu & Ho & _ & Hr).
  assert (Hna : ~ btc_agreed w) by (intros (q & _ & _ & _ & _ & [|[]]); congruence).
  assert (Hk : i_leaked (mkIW (iw_head w) (iw_nim w) l (iw_swap w) (iw_claim w)) = i_leaked w).
  { unfold i_leaked. simpl. now rewrite Hr. }
  constructor; simpl; auto; rewrite ?Hk; auto.
  - intros Hp. now apply ii_both0 in Hp.
  - rewrite Hr. intros Hs%ii_shown0. congruence.
  - intros h [Ha _]%ii_claim0. contradiction.
  - intros [|Hc]%ii_revealed0; [auto | congruence].
Qed.

Lemma i_counter_refund_inv w w' : i_inv w -> i_move w ICounterRefund = Some w' -> i_inv w'.
Proof.
  intros [] E. simpl in E. destruct (leg_refund _ _) as [l| |] eqn:Hl; simplify_eq.
  apply leg_refund_inv in Hl as (p & Hu & Hp & Hlt & Ho & Hp' & Hr).
  assert (Hk : i_leaked (mkIW (iw_head w) (iw_nim w) l (iw_swap w) (iw_claim w)) = i_leaked w).
  { unfold i_leaked. simpl. now rewrite Hr. }
  assert (Hag : btc_agreed w -> btc_agreed (mkIW (iw_head w) (iw_nim w) l (iw_swap w) (iw_claim w))).
  { intros (q & Hq & Hh & Ha & Ht & _). rewrite Hp in Hq. simplify_eq. exists q. simpl.
    split_and!; auto. right. split; [exact Ho | lia]. }
  constructor; simpl; auto; rewrite ?Hk; auto.
  - rewrite Hr. intros Hs%ii_shown0. congruence.
  - intros h (Ha & ? & ?)%ii_claim0. auto.
  - intros [|Hc]%ii_revealed0; [auto | congruence].
Qed.

Lemma i_counter_claim_inv w w' x : i_inv w -> i_move w (ICounterClaim x) = Some w' -> i_inv w'.
Proof.
  intros [] E. simpl in E. case_hyp E; [discriminate|].
  destruct (leg_claim _ _ _) as [l| |] eqn:Hl; simplify_eq.
  apply leg_claim_inv in Hl as (p & Hu & Hp & Hx & _ & Ho & Hp' & _).
  assert (Hlock : nim_at (phase (iw_swap w)) (iw_nim w) ->
     leg_lock (iw_nim w) = Some (mkHtlc (sha256 secret) nim_amount (nim_timeout t))).
  { unfold nim_at. destruct (phase (iw_swap w)); intuition congruence. }
  specialize (Hlock ii_nim0). rewrite Hp in Hlock. simplify_eq. simpl in Hx.
  rewrite bool_decide_true in * by exact Hx. bool_prop.
  assert (Hk : i_leaked w = true) by (destruct (i_leaked w); simpl in *; congruence).
  assert (Hs : sealed (phase (iw_swap w)) = false).
  { destruct (sealed _); [|reflexivity]. specialize (ii_sealed0 eq_refl). congruence. }
  constructor; simpl; auto.
  unfold nim_at in *. destruct (phase (iw_swap w)); try discriminate Hs; intuition congruence.
Qed.

Lemma leg_shown_agreed w :
  leg_shown (iw_btc w) (sha256 secret) btc_amount (counterparty_timeout t) = true -> btc_agreed w.
Proof.
  unfold leg_shown. destruct (leg_lock (iw_btc w)) as [p|] eqn:Hp; [|discriminate].
  intros H. bool_prop. exists p. split_and!; auto; lia.
Qed.
(** Only the phase of the machine changed. *)
Lemma i_quiet_inv w s :
  i_inv w -> role s = Initiator -> terms s = t ->
  nim_at (phase s) (iw_nim w) ->
  (phase s = BothFunded -> btc_agreed w) ->
  (sealed (phase s) = true -> sealed (phase (iw_swap w)) = true) ->
  (phase s = Revealed \/ phase s = Settled ->
     phase (iw_swap w) = Revealed \/ phase (iw_swap w) = Settled) ->
  i_inv (i_perform w s ActNone).
Proof.
  intros [] Hr Ht Hn Hb Hs Hv. constructor; simpl; auto.
Qed.

Lemma settle_refund l h :
  (leg_outcome l = LegFunded \/ leg_outcome l = LegClaimed) ->
  leg_lock l = Some (mkHtlc (sha256 secret) nim_amount (nim_timeout t)) -> nim_timeout t < h ->
  let l' := settle_leg l (leg_refund l h) in
  (leg_outcome l' = LegRefunded \/ leg_outcome l' = LegClaimed)
  /\ (leg_outcome l' = LegClaimed -> leg_outcome l = LegClaimed).
Proof.
  intros [Ho|Ho] Hl Hh; simpl.
  - destruct (leg_refund_open l h _ Ho Hl Hh) as [l' E]. rewrite E. simpl.
    apply leg_refund_inv in E as (p & _ & _ & _ & E & _). rewrite E. split; [auto | discriminate].
  - destruct (leg_refund l h) as [l'| |] eqn:E; simpl; auto.
    apply leg_refund_inv in E as (p & E & _). congruence.
Qed.

Lemma i_fund_inv w s :
  i_inv w -> role s = Initiator -> terms s = t -> phase (iw_swap w) = Accepted ->
  phase s = SelfFunded ->
  i_inv (i_perform w s (FundLeg (own_leg (iw_swap w)) (own_timeout (iw_swap w)))).
Proof.
  intros Hi Hr Ht Hp Hs. pose proof (ii_nim _ Hi) as Hn. rewrite Hp in Hn. simpl in Hn.
  unfold own_timeout. rewrite (ii_role _ Hi), (ii_terms _ Hi). simpl.
  destruct (leg_fund_open _ (mkHtlc (sha256 secret) nim_amount (nim_timeout t)) Hn) as [l E].
  rewrite E. simpl. apply leg_fund_inv in E as (_ & Ho & Hl & _).
  destruct Hi. constructor; simpl; auto; rewrite ?Hs; simpl; auto; try discriminate; try congruence.
  - intros _. apply ii_sealed0. now rewrite Hp.
  - intros [|]; discriminate.
Qed.

Lemma i_reveal_inv w s :
  0 < min_claim_window_blocks params ->
  i_inv w -> role s = Initiator -> terms s = t -> phase (iw_swap w) = BothFunded ->
  phase s = Revealed ->
  reveal_is_safe (assess_reveal_deadline (terms (iw_swap w)) (iw_head w) params) = true ->
  i_inv (i_perform w s (ClaimLeg (claim_leg (iw_swap w)))).
Proof.
  intros Hw Hi Hr Ht Hp Hs Hsafe. apply reveal_safe_iff in Hsafe. rewrite (ii_terms _ Hi) in Hsafe.
  unfold sat_sub in Hsafe. pose proof (ii_both _ Hi Hp) as Ha.
  destruct Hi. rewrite Hp in ii_nim0. simpl in ii_nim0.
  constructor; simpl; auto; rewrite ?Hs; simpl; try discriminate; eauto.
  - tauto.
  - intros h [= <-]. split; [|lia]. eapply btc_agreed_mono; [exact Ha | reflexivity | simpl; lia].
Qed.

Lemma i_refund_inv w s :
  i_inv w -> role s = Initiator -> terms s = t -> has_funds_locked (phase (iw_swap w)) = true ->
  phase s = Refunded -> nim_timeout t < iw_head w ->
  i_inv (i_perform w s (RefundLeg (own_leg (iw_swap w)))).
Proof.
  intros Hi Hr Ht Hp Hs Hlt. pose proof (ii_nim _ Hi) as Hn.
  destruct (settle_refund (iw_nim w) (iw_head w)) as [Ho Hc]; auto.
  { unfold nim_at in Hn. destruct (phase (iw_swap w)); try discriminate; tauto. }
  { unfold nim_at in Hn. destruct (phase (iw_swap w)); try discriminate; tauto. }
  destruct Hi. constructor; simpl; auto; rewrite ?Hs; simpl; try discriminate; auto.
  - intros [|]; discriminate.
Qed.

Lemma i_act_inv w w' ev :
  0 < min_claim_window_blocks params ->
  i_inv w -> i_move w (IAct ev) = Some w' -> i_inv w'.
Proof.
  intros Hw Hi E. cbn [i_move] in E. destruct (negb _) eqn:Hg; [discriminate|].
  apply negb_false_iff, andb_true_iff in Hg as [Hat Hseen].
  destruct (apply_event params (iw_swap w) ev) as [[s a]| |] eqn:Hev; simplify_eq.
  pose proof (apply_event_static _ _ _ _ _ Hev) as [Hr Ht].
  rewrite (ii_role _ Hi) in Hr. rewrite (ii_terms _ Hi) in Ht.
  apply apply_event_table in Hev. pose proof (ii_nim _ Hi) as Hn.
  destruct ev; simpl in Hev; rewrite ?(ii_role _ Hi) in Hev; destruct_and?; subst; try discriminate;
    unfold event_at in Hat; simpl in Hat; bool_prop; subst.
  - apply i_quiet_inv; auto; rewrite ?H, ?H1 in *; auto; intuition discriminate.
  - now apply i_fund_inv.
  - apply i_quiet_inv; auto; rewrite ?H, ?H0, ?H1 in *; auto using leg_shown_agreed; intuition discriminate.
  - now apply i_reveal_inv.
  - apply i_quiet_inv; auto; rewrite ?H, ?H0, ?H1 in *; auto; intuition discriminate.
  - apply i_quiet_inv; auto; rewrite ?H0 in *; try discriminate; try (intuition discriminate);
      destruct (phase (iw_swap w)); try discriminate; auto; contradiction.
  - apply i_refund_inv; auto. unfold own_timeout in *. rewrite (ii_role _ Hi), (ii_terms _ Hi) in *. lia.
Qed.
Lemma i_move_inv w m w' :
  0 < min_claim_window_blocks params -> i_inv w -> i_move w m = Some w' -> i_inv w'.
Proof.
  intros Hw Hi E. destruct m; eauto using i_act_inv, i_time_inv, i_include_inv, i_counter_fund_inv,
    i_counter_refund_inv, i_counter_claim_inv.
Qed.

Lemma i_run_none ms : foldl (fun (o : option IWorld) m => w ← o; i_move w m) None ms = None.
Proof. induction ms; simpl; auto. Qed.

Lemma i_run_inv ms : forall w w',
  0 < min_claim_window_blocks params -> i_inv w -> i_run w ms = Some w' -> i_inv w'.
Proof.
  induction ms as [|m ms IH]; intros w w' Hw Hi E; unfold i_run in *; simpl in E; [congruence|].
  destruct (i_move w m) as [w1|] eqn:Hm; [|now rewrite i_run_none in E].
  exact (IH w1 w' Hw (i_move_inv _ _ _ Hw Hi Hm) E).
Qed.

Lemma i_start_inv head nim btc :
  leg_outcome nim = Unfunded -> leg_outcome btc = Unfunded -> leg_revealed btc = None ->
  i_inv (i_start head nim btc).
Proof.
  intros Hn Hb Hr. constructor; simpl; auto; try discriminate.
  - intros _. unfold i_leaked. simpl. rewrite Hr. reflexivity.
  - rewrite Hr. intros [x Hx]. discriminate.
  - intros [|]; discriminate.
  - congruence.
Qed.

(** A claim that waits can be included. *)
Lemma i_claim_open w h :
  i_inv w -> iw_claim w = Some h -> exists l, leg_claim (iw_btc w) secret (iw_head w) = Ok l.
Proof.
  intros Hi Hc. destruct (ii_claim _ Hi h Hc) as ((p & Hl & Hh & _ & Ht & Ho) & ? & ?).
  destruct Ho as [Ho|[_ Hlt]]; [|lia]. apply (leg_claim_open _ _ _ p); auto. lia.
Qed.

Lemma i_locked_refunds w :
  i_inv w -> leg_outcome (iw_nim w) = LegFunded -> leg_outcome (iw_btc w) <> LegClaimed ->
  iw_claim w = None -> nim_timeout t < iw_head w ->
  exists s l, refund_after_timeout (iw_swap w) (iw_head w) = Ok (s, RefundLeg LegNim)
    /\ leg_refund (iw_nim w) (iw_head w) = Ok l.
Proof.
  intros Hi Hn Hb Hc Hlt. pose proof (ii_nim _ Hi) as Ha. pose proof (ii_revealed _ Hi) as Hr.
  rewrite Hc in Hr. assert (Hno : ~ is_Some (@None Z)) by (intros [? ?]; discriminate).
  assert (Hph : phase (iw_swap w) = SelfFunded \/ phase (iw_swap w) = BothFunded).
  { unfold nim_at in Ha. destruct (phase (iw_swap w)); auto; intuition congruence. }
  assert (Hl : leg_lock (iw_nim w) = Some (mkHtlc (sha256 secret) nim_amount (nim_timeout t))).
  { destruct Hph as [E|E]; rewrite E in Ha; apply Ha. }
  destruct (leg_refund_open _ (iw_head w) _ Hn Hl Hlt) as [l El].
  exists (set_phase (iw_swap w) Refunded), l. split; [|exact El].
  apply (apply_event_complete params (iw_swap w) (EvRefund (iw_head w))); auto.
  simpl. unfold own_leg, own_timeout. rewrite (ii_role _ Hi), (ii_terms _ Hi).
  destruct Hph as [-> | ->]; split_and!; auto; discriminate.
Qed.
End initiator.
(** ** The side of the responder *)

(** [rw_taken] is the height at which the counterparty claimed the responder's
    leg, and with that made the secret public. *)
Record RWorld : Type := mkRW {
  rw_head : Z; rw_nim : L; rw_btc : L; rw_swap : Swap; rw_taken : option Z
}.

Inductive RMove : Type :=
| RAct (ev : SwapEvent)
| RLearn (x : bytes)
| RTime
| RCounterFund (p : HtlcParams)
| RCounterRefund
| RCounterClaim (x : bytes).

Section responder.
Context (hashlock : bytes).

Definition r_perform (w : RWorld) (s : Swap) (a : SwapAction) (x : bytes) : RWorld :=
  match a with
  | FundLeg _ timeout =>
      mkRW (rw_head w) (rw_nim w)
        (settle_leg (rw_btc w) (leg_fund (rw_btc w) (mkHtlc hashlock btc_amount timeout)))
        s (rw_taken w)
  | ClaimLeg _ =>
      mkRW (rw_head w) (settle_leg (rw_nim w) (leg_claim (rw_nim w) x (rw_head w)))
        (rw_btc w) s (rw_taken w)
  | RefundLeg _ =>
      mkRW (rw_head w) (rw_nim w) (settle_leg (rw_btc w) (leg_refund (rw_btc w) (rw_head w)))
        s (rw_taken w)
  | ActNone => mkRW (rw_head w) (rw_nim w) (rw_btc w) s (rw_taken w)
  end.

(** The secret reaches the responder with [RLearn], from a message or off the
    chain; whatever its source, it must open the hashlock. *)
Definition r_move (w : RWorld) (m : RMove) : option RWorld :=
  match m with
  | RAct ev =>
      let seen := match ev with
                  | EvObserveInitiatorFunded =>
                      leg_shown (rw_nim w) hashlock nim_amount (nim_timeout t)
                  | EvObserveSecret => false
                  | _ => true
                  end in
      if negb (event_at ev (rw_head w) && seen) then None else
      match apply_event params (rw_swap w) ev with
      | Ok (s, a) => Some (r_perform w s a [])
      | _ => None
      end
  | RLearn x =>
      if negb (bool_decide (sha256 x = hashlock)) then None else
      match apply_event params (rw_swap w) EvObserveSecret with
      | Ok (s, a) => Some (r_perform w s a x)
      | _ => None
      end
  | RTime => Some (mkRW (rw_head w + 1) (rw_nim w) (rw_btc w) (rw_swap w) (rw_taken w))
  | RCounterFund p =>
      match leg_fund (rw_nim w) p with
      | Ok l => Some (mkRW (rw_head w) l (rw_btc w) (rw_swap w) (rw_taken w))
      | _ => None
      end
  | RCounterRefund =>
      match leg_refund (rw_nim w) (rw_head w) with
      | Ok l => Some (mkRW (rw_head w) l (rw_btc w) (rw_swap w) (rw_taken w))
      | _ => None
      end
  | RCounterClaim x =>
      match leg_claim (rw_btc w) x (rw_head w) with
      | Ok l => Some (mkRW (rw_head w) (rw_nim w) l (rw_swap w) (Some (rw_head w)))
      | _ => None
      end
  end.

Definition r_run (w : RWorld) (ms : list RMove) : option RWorld :=
  foldl (fun o m => w ← o; r_move w m) (Some w) ms.

Definition r_start (head : Z) (nim btc : L) : RWorld :=
  mkRW head nim btc (swap_new Responder t) None.

Definition btc_at (ph : SwapPhase) (l : L) : Prop :=
  match ph with
  | Proposed | Accepted | InitiatorFunded | Aborted => leg_outcome l = Unfunded
  | Refunded => leg_outcome l = LegRefunded \/ leg_outcome l = LegClaimed
  | _ => (leg_outcome l = LegFunded \/ leg_outcome l = LegClaimed)
         /\ leg_lock l = Some (mkHtlc hashlock btc_amount (counterparty_timeout t))
  end.

(** The initiator's leg has the agreed terms, and is out of its reach until [T_A]. *)
Definition nim_agreed (w : RWorld) : Prop :=
  exists p, leg_lock (rw_nim w) = Some p /\ h_hashlock p = hashlock
    /\ nim_amount <= h_amount p /\ nim_timeout t <= h_timeout p
    /\ (leg_outcome (rw_nim w) = LegFunded \/ leg_outcome (rw_nim w) = LegClaimed
        \/ (leg_outcome (rw_nim w) = LegRefunded /\ nim_timeout t < rw_head w)).

Definition r_begun (ph : SwapPhase) : bool :=
  match ph with Proposed | Accepted | Aborted => false | _ => true end.

Definition r_paid (ph : SwapPhase) : bool := r_begun ph && negb (bool_decide (ph = InitiatorFunded)).

Definition r_knows (ph : SwapPhase) : bool :=
  match ph with Revealed | Settled | Lost => true | _ => false end.

Record r_inv (w : RWorld) : Prop := {
  ri_role : role (rw_swap w) = Responder;
  ri_terms : terms (rw_swap w) = t;
  ri_btc : btc_at (phase (rw_swap w)) (rw_btc w);
  ri_nim : r_begun (phase (rw_swap w)) = true -> nim_agreed w;
  ri_ladder : r_paid (phase (rw_swap w)) = true ->
    counterparty_timeout t + delta_safe_blocks params <= nim_timeout t;
  ri_taken : leg_outcome (rw_btc w) = LegClaimed ->
    exists h x, rw_taken w = Some h /\ h <= counterparty_timeout t
      /\ leg_revealed (rw_btc w) = Some x /\ sha256 x = hashlock;
  ri_knows : r_knows (phase (rw_swap w)) = true ->
    leg_outcome (rw_nim w) = LegClaimed \/ nim_timeout t < rw_head w
}.

Lemma r_time_inv w w' : r_inv w -> r_move w RTime = Some w' -> r_inv w'.
Proof.
  intros [] E. simpl in E. simplify_eq. constructor; simpl; auto.
  - intros Hb. destruct (ri_nim0 Hb) as (p & ? & ? & ? & ? & Ho). exists p. simpl. split_and!; auto.
    destruct Ho as [?|[?|[? ?]]]; auto. right; right. split; [assumption | lia].
  - intros [|]%ri_knows0; [auto | right; lia].
Qed.

Lemma r_counter_fund_inv w w' p : r_inv w -> r_move w (RCounterFund p) = Some w' -> r_inv w'.
Proof.
  intros [] E. simpl in E. destruct (leg_fund _ _) as [l| |] eqn:Hl; simplify_eq.
  apply leg_fund_inv in Hl as (Hu & Ho & Hlock & _). constructor; simpl; auto.
  - intros Hb. destruct (ri_nim0 Hb) as (q & _ & _ & _ & _ & Hq). intuition congruence.
  - intros [|]%ri_knows0; [congruence | auto].
Qed.

Lemma r_counter_refund_inv w w' : r_inv w -> r_move w RCounterRefund = Some w' -> r_inv w'.
Proof.
  intros [] E. simpl in E. destruct (leg_refund _ _) as [l| |] eqn:Hl; simplify_eq.
  apply leg_refund_inv in Hl as (p & Hu & Hp & Hlt & Ho & Hp' & _). constructor; simpl; auto.
  - intros Hb. destruct (ri_nim0 Hb) as (q & Hq & ? & ? & ? & _). rewrite Hp in Hq. simplify_eq.
    exists q. simpl. split_and!; auto. right; right. split; [assumption | lia].
  - intros [|]%ri_knows0; [congruence | auto].
Qed.

Lemma r_counter_claim_inv w w' x : r_inv w -> r_move w (RCounterClaim x) = Some w' -> r_inv w'.
Proof.
  intros [] E. simpl in E. destruct (leg_claim _ _ _) as [l| |] eqn:Hl; simplify_eq.
  apply leg_claim_inv in Hl as (p & Hu & Hp & Hx & Hh & Ho & Hp' & Hr).
  assert (Hlock : leg_lock (rw_btc w) = Some (mkHtlc hashlock btc_amount (counterparty_timeout t))).
  { unfold btc_at in ri_btc0. destruct (phase (rw_swap w)); intuition congruence. }
  rewrite Hp in Hlock. simplify_eq. simpl in *. constructor; simpl; auto.
  - unfold btc_at in *. destruct (phase (rw_swap w)); intuition congruence.
  - intros _. exists (rw_head w), x. auto.
Qed.
(** Only the phase of the machine changed. *)
Lemma r_quiet_inv w s x :
  r_inv w -> role s = Responder -> terms s = t ->
  btc_at (phase s) (rw_btc w) ->
  (r_begun (phase s) = true -> nim_agreed w) ->
  (r_paid (phase s) = true -> r_paid (phase (rw_swap w)) = true) ->
  (r_knows (phase s) = true -> r_knows (phase (rw_swap w)) = true) ->
  r_inv (r_perform w s ActNone x).
Proof. intros [] Hr Ht Hb Hn Hp Hk. constructor; simpl; auto. Qed.

Lemma r_fund_inv w s x :
  r_inv w -> role s = Responder -> terms s = t -> phase (rw_swap w) = InitiatorFunded ->
  phase s = SelfFunded ->
  ladder_is_safe (assess_ladder (terms (rw_swap w)) (rw_head w) params) = true ->
  r_inv (r_perform w s (FundLeg (own_leg (rw_swap w)) (own_timeout (rw_swap w))) x).
Proof.
  intros Hi Hr Ht Hp Hs Hsafe. apply ladder_safe_iff in Hsafe as (_ & Hd & _).
  rewrite (ri_terms _ Hi) in Hd. pose proof (ri_btc _ Hi) as Hn. rewrite Hp in Hn. simpl in Hn.
  unfold own_timeout. rewrite (ri_role _ Hi), (ri_terms _ Hi). simpl.
  destruct (leg_fund_open _ (mkHtlc hashlock btc_amount (counterparty_timeout t)) Hn) as [l E].
  rewrite E. simpl. apply leg_fund_inv in E as (_ & Ho & Hl & _).
  destruct Hi. constructor; simpl; auto; rewrite ?Hs; simpl; auto; try discriminate; try congruence.
  - intros _. apply ri_nim0. now rewrite Hp.
  - lia.
Qed.

Lemma r_refund_inv w s x :
  r_inv w -> role s = Responder -> terms s = t ->
  phase (rw_swap w) = SelfFunded \/ phase (rw_swap w) = BothFunded ->
  phase s = Refunded -> counterparty_timeout t < rw_head w ->
  r_inv (r_perform w s (RefundLeg (own_leg (rw_swap w))) x).
Proof.
  intros Hi Hr Ht Hp Hs Hlt. pose proof (ri_btc _ Hi) as Hb.
  assert (Hb' : (leg_outcome (rw_btc w) = LegFunded \/ leg_outcome (rw_btc w) = LegClaimed)
     /\ leg_lock (rw_btc w) = Some (mkHtlc hashlock btc_amount (counterparty_timeout t))).
  { destruct Hp as [E|E]; rewrite E in Hb; exact Hb. }
  destruct Hb' as [Ho Hl].
  assert (Hbeg : r_begun (phase (rw_swap w)) = true /\ r_paid (phase (rw_swap w)) = true).
  { destruct Hp as [-> | ->]; auto. }
  set (l' := settle_leg (rw_btc w) (leg_refund (rw_btc w) (rw_head w))).
  assert (Hl' : leg_outcome l' = LegRefunded \/ (leg_outcome l' = LegClaimed /\ l' = rw_btc w)).
  { unfold l'. destruct Ho as [Ho|Ho].
    - destruct (leg_refund_open _ (rw_head w) _ Ho Hl Hlt) as [l E]. rewrite E. simpl.
      apply leg_refund_inv in E as (p & _ & _ & _ & E & _). auto.
    - destruct (leg_refund _ _) as [l| |] eqn:E; simpl; auto.
      apply leg_refund_inv in E as (p & E & _). congruence. }
  destruct Hi. constructor; simpl; auto; fold l'; rewrite ?Hs; simpl; try discriminate; auto.
  - tauto.
  - intros _. now apply ri_nim0.
  - intros _. now apply ri_ladder0.
  - destruct Hl' as [E|[_ ->]]; [congruence | exact ri_taken0].
Qed.

(** With the secret, the claim of the initiator's leg goes through up to [T_A]. *)
Lemma r_claim_open w x :
  nim_agreed w -> sha256 x = hashlock -> rw_head w <= nim_timeout t ->
  leg_outcome (rw_nim w) = LegClaimed \/ exists l, leg_claim (rw_nim w) x (rw_head w) = Ok l.
Proof.
  intros (p & Hl & Hh & _ & Ht & Ho) Hx Hle. destruct Ho as [Ho|[Ho|[_ Ho]]]; [|auto|lia].
  right. apply (leg_claim_open _ _ _ p); auto; [congruence | lia].
Qed.

Lemma r_learn_inv w w' x : r_inv w -> r_move w (RLearn x) = Some w' -> r_inv w'.
Proof.
  intros Hi E. cbn [r_move] in E. destruct (bool_decide _) eqn:Hx; [|discriminate].
  apply bool_decide_eq_true in Hx. simpl in E.
  destruct (observe_secret (rw_swap w)) as [[s a]| |] eqn:Hev; simplify_eq.
  change (observe_secret (rw_swap w)) with (apply_event params (rw_swap w) EvObserveSecret) in Hev.
  pose proof (apply_event_static _ _ _ _ _ Hev) as [Hr Ht].
  rewrite (ri_role _ Hi) in Hr. rewrite (ri_terms _ Hi) in Ht.
  apply apply_event_table in Hev as (_ & Hp & Hs & ->). simpl.
  pose proof (ri_nim _ Hi) as Hn. rewrite Hp in Hn. specialize (Hn eq_refl).
  set (l' := settle_leg (rw_nim w) (leg_claim (rw_nim w) x (rw_head w))).
  assert (Hl' : leg_outcome l' = LegClaimed /\ leg_lock l' = leg_lock (rw_nim w) \/ l' = rw_nim w).
  { unfold l'. destruct (leg_claim _ _ _) as [l| |] eqn:E; simpl; auto.
    apply leg_claim_inv in E as (p & _ & El & _ & _ & Eo & El' & _). left. split; congruence. }
  assert (Hk : leg_outcome l' = LegClaimed \/ nim_timeout t < rw_head w).
  { destruct (Z.lt_ge_cases (nim_timeout t) (rw_head w)) as [|Hle]; [auto|]. left. unfold l'.
    destruct (r_claim_open w x Hn Hx Hle) as [Hc|[l E]].
    - destruct (leg_claim _ _ _) as [l| |] eqn:E; simpl; auto.
      now apply leg_claim_inv in E as (p & _ & _ & _ & _ & E & _).
    - rewrite E. simpl. now apply leg_claim_inv in E as (p & _ & _ & _ & _ & E & _). }
  destruct Hi. rewrite Hp in *. constructor; simpl; fold l'; auto; rewrite ?Hs; auto.
  intros _. destruct Hn as (p & Hl & Hh & Ha & Ht' & Ho). exists p. simpl. fold l'.
  destruct Hl' as [[Eo El]|E]; [rewrite El | rewrite E]; split_and!; auto.
Qed.

Lemma r_shown_agreed w :
  leg_shown (rw_nim w) hashlock nim_amount (nim_timeout t) = true -> nim_agreed w.
Proof.
  unfold leg_shown. destruct (leg_lock (rw_nim w)) as [p|] eqn:Hp; [|discriminate].
  intros H. bool_prop. exists p. split_and!; auto; lia.
Qed.

Lemma r_act_inv w w' ev : r_inv w -> r_move w (RAct ev) = Some w' -> r_inv w'.
Proof.
  intros Hi E. cbn [r_move] in E. destruct (negb _) eqn:Hg; [discriminate|].
  apply negb_false_iff, andb_true_iff in Hg as [Hat Hseen].
  destruct (apply_event params (rw_swap w) ev) as [[s a]| |] eqn:Hev; simplify_eq.
  pose proof (apply_event_static _ _ _ _ _ Hev) as [Hr Ht].
  rewrite (ri_role _ Hi) in Hr. rewrite (ri_terms _ Hi) in Ht.
  apply apply_event_table in Hev. pose proof (ri_btc _ Hi) as Hb. pose proof (ri_nim _ Hi) as Hn.
  destruct ev; simpl in Hev; rewrite ?(ri_role _ Hi) in Hev; destruct_and?; subst; try discriminate;
    unfold event_at in Hat; simpl in Hat; bool_prop; subst.
  - apply r_quiet_inv; auto; rewrite ?H, ?H1 in *; auto; discriminate.
  - apply r_quiet_inv; auto; rewrite ?H, ?H0, ?H1 in *; auto using r_shown_agreed; discriminate.
  - now apply r_fund_inv.
  - apply r_quiet_inv; auto; rewrite ?H, ?H1 in *; auto.
  - apply r_quiet_inv; auto; rewrite ?H, ?H1 in *; auto.
  - apply r_quiet_inv; auto; rewrite ?H, ?H0, ?H1, ?H2 in *; auto.
  - apply r_quiet_inv; auto; rewrite ?H0 in *; try discriminate;
      destruct (phase (rw_swap w)); try discriminate; auto.
  - apply r_refund_inv; auto.
    + destruct (phase (rw_swap w)); try discriminate; auto. now destruct (H1 eq_refl).
    + unfold own_timeout in *. rewrite (ri_role _ Hi), (ri_terms _ Hi) in *. lia.
Qed.

Lemma r_move_inv w m w' : r_inv w -> r_move w m = Some w' -> r_inv w'.
Proof.
  intros Hi E. destruct m; eauto using r_act_inv, r_learn_inv, r_time_inv, r_counter_fund_inv,
    r_counter_refund_inv, r_counter_claim_inv.
Qed.

Lemma r_run_none ms : foldl (fun (o : option RWorld) m => w ← o; r_move w m) None ms = None.
Proof. induction ms; simpl; auto. Qed.

Lemma r_run_inv ms : forall w w', r_inv w -> r_run w ms = Some w' -> r_inv w'.
Proof.
  induction ms as [|m ms IH]; intros w w' Hi E; unfold r_run in *; simpl in E; [congruence|].
  destruct (r_move w m) as [w1|] eqn:Hm; [|now rewrite r_run_none in E].
  exact (IH w1 w' (r_move_inv _ _ _ Hi Hm) E).
Qed.

Lemma r_start_inv head nim btc : leg_outcome btc = Unfunded -> r_inv (r_start head nim btc).
Proof. intros Hb. constructor; simpl; auto; try discriminate. congruence. Qed.

(** A machine that holds the secret got it in this move, or held it before. *)
Lemma r_knows_step w m w' : r_inv w -> r_move w m = Some w' -> r_knows (phase (rw_swap w')) = true ->
  leg_outcome (rw_nim w') = LegClaimed
  \/ (r_knows (phase (rw_swap w)) = true /\ leg_outcome (rw_nim w) <> LegClaimed)
  \/ exists x, m = RLearn x /\ nim_timeout t < rw_head w.
Proof.
  intros Hi E Hk. destruct (ri_knows w' (r_move_inv w m w' Hi E) Hk) as [|Hlt]; [auto|].
  destruct (decide (leg_outcome (rw_nim w') = LegClaimed)) as [|Hne]; [auto|]. right.
  destruct m as [ev|x| |p| |x]; cbn [r_move] in E.
  - left. destruct (negb _) eqn:Hg; [discriminate|]. destruct (apply_event params (rw_swap w) ev) as [[s a]| |] eqn:Hev; simplify_eq.
    apply apply_event_table in Hev. pose proof (ri_role _ Hi) as Hro.
    destruct ev; simpl in Hev, Hg; destruct_and?; subst; try discriminate; simpl in *; try (rewrite andb_false_r in Hg; discriminate);
      repeat match goal with H : phase s = _ |- _ => rewrite H in Hk end; try discriminate; try congruence; auto;
      try (split; [match goal with H : phase (rw_swap w) = _ |- _ => by rewrite H end | exact Hne]).
  - right. exists x. split; [done|]. destruct (negb _); [discriminate|].
    destruct (apply_event params (rw_swap w) EvObserveSecret) as [[s a]| |]; simplify_eq. destruct a; exact Hlt.
  - simplify_eq. auto.
  - left. destruct (leg_fund _ _) as [l| |] eqn:Hl; simplify_eq. apply leg_fund_inv in Hl as (Hu & _). split; [exact Hk | congruence].
  - left. destruct (leg_refund _ _) as [l| |] eqn:Hl; simplify_eq. apply leg_refund_inv in Hl as (p & Hu & _). split; [exact Hk | congruence].
  - left. destruct (leg_claim _ _ _) as [l| |] eqn:Hl; simplify_eq. auto.
Qed.

(** In a run the secret reached the responder past [T_A]. *)
Definition learnt_late (w0 : RWorld) (ms : list RMove) : Prop :=
  exists ms1 x ms2 w1, ms = ms1 ++ RLearn x :: ms2 /\ r_run w0 ms1 = Some w1 /\ nim_timeout t < rw_head w1.

Lemma r_run_snoc w ms m : r_run w (ms ++ [m]) = (w1 ← r_run w ms; r_move w1 m).
Proof. unfold r_run. now rewrite foldl_app. Qed.

Lemma r_run_knows w0 ms : forall w, r_inv w0 -> r_knows (phase (rw_swap w0)) = false -> r_run w0 ms = Some w ->
  r_knows (phase (rw_swap w)) = true -> leg_outcome (rw_nim w) = LegClaimed \/ learnt_late w0 ms.
Proof.
  induction ms as [|m ms IH] using rev_ind; intros w Hi H0 E Hk; [unfold r_run in E; simpl in E; congruence|].
  rewrite r_run_snoc in E. destruct (r_run w0 ms) as [w1|] eqn:E1; [|discriminate]. simpl in E.
  destruct (r_knows_step w1 m w (r_run_inv ms _ _ Hi E1) E Hk) as [|[[Hk1 Hn]|(x & -> & Hlt)]]; [auto| |right; exists ms, x, [], w1; auto].
  destruct (IH w1 Hi H0 eq_refl Hk1) as [|(ms1 & x & ms2 & w2 & -> & Hr & Hlt)]; [contradiction|].
  right. exists ms1, x, (ms2 ++ [m]), w2. now rewrite <- app_assoc.
Qed.

Lemma r_locked_refunds w :
  r_inv w -> leg_outcome (rw_btc w) = LegFunded -> counterparty_timeout t < rw_head w ->
  (exists s l, refund_after_timeout (rw_swap w) (rw_head w) = Ok (s, RefundLeg LegCounterparty)
     /\ leg_refund (rw_btc w) (rw_head w) = Ok l)
  \/ r_knows (phase (rw_swap w)) = true.
Proof.
  intros Hi Ho Hlt. pose proof (ri_btc _ Hi) as Hb.
  destruct (r_knows (phase (rw_swap w))) eqn:Hkn; [right; auto | left].
  assert (Hph : phase (rw_swap w) = SelfFunded \/ phase (rw_swap w) = BothFunded).
  { unfold btc_at in Hb. destruct (phase (rw_swap w)); try discriminate; auto; intuition congruence. }
  assert (Hl : leg_lock (rw_btc w) = Some (mkHtlc hashlock btc_amount (counterparty_timeout t))).
  { destruct Hph as [E|E]; rewrite E in Hb; apply Hb. }
  destruct (leg_refund_open _ (rw_head w) _ Ho Hl Hlt) as [l El].
  exists (set_phase (rw_swap w) Refunded), l. split; [|exact El].
  apply (apply_event_complete params (rw_swap w) (EvRefund (rw_head w))); auto.
  simpl. unfold own_leg, own_timeout. rewrite (ri_role _ Hi), (ri_terms _ Hi).
  destruct Hph as [-> | ->]; split_and!; auto; discriminate.
Qed.
End responder.
End atomic.

(** ** Properties *)

(** C1: an initiator that follows the machine is never left with a one-sided
    loss.  Start from two unfunded escrows and let the counterparty fund, refund
    and claim as the chain allows, in any order and at any height.  Then, in
    every state reached: the NIM leg is claimed only if the initiator has the
    other leg or has its claim of it on the way; such a claim is always accepted
    by the chain, at every height up to the end of its claim window, which ends
    before [T_B]; and a NIM leg that is still locked past [T_A] without either is
    refunded by the machine and by the chain at once. *)
Theorem initiator_atomic `{LL : SwapLegLaws L} (params : LadderParams) (t : SwapTerms)
    (nim_amount btc_amount : Z) (secret : bytes) (head : Z) (nim btc : L) (ms : list IMove)
    (w : IWorld)
    (Hw : 0 < min_claim_window_blocks params)
    (Hn : leg_outcome nim = Unfunded) (Hb : leg_outcome btc = Unfunded)
    (Hr : leg_revealed btc = None)
    (Hrun : i_run params t nim_amount btc_amount secret (i_start t head nim btc) ms = Some w) :
  (leg_outcome (iw_nim w) = LegClaimed ->
     leg_outcome (iw_btc w) = LegClaimed \/ is_Some (iw_claim w))
  /\ (forall h, iw_claim w = Some h ->
        (exists l, leg_claim (iw_btc w) secret (iw_head w) = Ok l)
        /\ iw_head w <= h + min_claim_window_blocks params <= counterparty_timeout t)
  /\ (leg_outcome (iw_nim w) = LegFunded -> nim_timeout t < iw_head w ->
        leg_outcome (iw_btc w) = LegClaimed \/ is_Some (iw_claim w)
        \/ exists s l, refund_after_timeout (iw_swap w) (iw_head w) = Ok (s, RefundLeg LegNim)
             /\ leg_refund (iw_nim w) (iw_head w) = Ok l).
Proof.
  pose proof (i_run_inv _ _ _ _ _ ms _ _ Hw (i_start_inv _ _ _ _ secret head nim btc Hn Hb Hr) Hrun) as Hi.
  split_and!.
  - intros [Hc|Hs]%(ii_taken _ _ _ _ _ _ Hi)%i_leaked_iff; [auto | left].
    exact (ii_shown _ _ _ _ _ _ Hi Hs).
  - intros h Hc. split; [exact (i_claim_open _ _ _ _ _ _ _ Hi Hc)|].
    destruct (ii_claim _ _ _ _ _ _ Hi h Hc) as (_ & ? & ?). lia.
  - intros Ho Hlt. destruct (decide (leg_outcome (iw_btc w) = LegClaimed)) as [|Hne]; [auto|].
    destruct (iw_claim w) as [h|] eqn:Hc; [eauto|]. right; right.
    exact (i_locked_refunds _ _ _ _ _ _ Hi Ho Hne Hc Hlt).
Qed.

(** C2: what a responder that follows the machine can lose, and when.  In every state
    reached: if its leg was claimed, that was no later than [T_B], so at least
    [delta_safe] blocks before [T_A], the claim shows a preimage of the hashlock,
    and at every height up to [T_A] the NIM leg either is already claimed or is
    claimed with that preimage at once.  And a leg still locked past [T_B] is
    refunded by the machine and by the chain at once, unless the responder has the
    NIM leg, or was given the secret only past [T_A]: the one case in which it can
    be left without either, which is that of [late_secret_strands_leg]. *)
Theorem responder_atomic `{LL : SwapLegLaws L} (params : LadderParams) (t : SwapTerms)
    (nim_amount btc_amount : Z) (hashlock : bytes) (head : Z) (nim btc : L) (ms : list RMove)
    (w : RWorld)
    (Hb : leg_outcome btc = Unfunded)
    (Hrun : r_run params t nim_amount btc_amount hashlock (r_start t head nim btc) ms = Some w) :
  (leg_outcome (rw_btc w) = LegClaimed ->
     exists h x, rw_taken w = Some h /\ h <= counterparty_timeout t
       /\ h + delta_safe_blocks params <= nim_timeout t
       /\ leg_revealed (rw_btc w) = Some x /\ sha256 x = hashlock
       /\ (rw_head w <= nim_timeout t ->
             leg_outcome (rw_nim w) = LegClaimed
             \/ exists l, leg_claim (rw_nim w) x (rw_head w) = Ok l))
  /\ (leg_outcome (rw_btc w) = LegFunded -> counterparty_timeout t < rw_head w ->
        (exists s l, refund_after_timeout (rw_swap w) (rw_head w) = Ok (s, RefundLeg LegCounterparty)
           /\ leg_refund (rw_btc w) (rw_head w) = Ok l)
        \/ leg_outcome (rw_nim w) = LegClaimed
        \/ exists ms1 x ms2 w1, ms = ms1 ++ RLearn x :: ms2
              /\ r_run params t nim_amount btc_amount hashlock (r_start t head nim btc) ms1 = Some w1
              /\ nim_timeout t < rw_head w1).
Proof.
  pose proof (r_run_inv _ _ _ _ _ ms _ _ (r_start_inv params t nim_amount btc_amount hashlock head nim btc Hb) Hrun) as Hi.
  split.
  - intros Hc. destruct (ri_taken _ _ _ _ _ _ Hi Hc) as (h & x & Ht & Hle & Hrev & Hx).
    assert (Hp : r_begun (phase (rw_swap w)) = true /\ r_paid (phase (rw_swap w)) = true).
    { pose proof (ri_btc _ _ _ _ _ _ Hi) as Hat. unfold btc_at in Hat.
      destruct (phase (rw_swap w)); auto; congruence. }
    pose proof (ri_ladder _ _ _ _ _ _ Hi (proj2 Hp)). exists h, x. split_and!; auto; [lia|].
    intros Hh. exact (r_claim_open _ _ _ _ _ (ri_nim _ _ _ _ _ _ Hi (proj1 Hp)) Hx Hh).
  - intros Ho Hlt. destruct (r_locked_refunds _ _ _ _ _ _ Hi Ho Hlt) as [|Hk]; [auto | right].
    eapply r_run_knows; [apply r_start_inv, Hb | reflexivity | exact Hrun | exact Hk].
Qed.

Definition sample_ladder : LadderParams := mkLadder 4 2.
Definition sample_terms : SwapTerms := mkTerms 10 5.
Definition sample_secret : bytes := replicate 32 7.

(** The counterparty claims the NIM leg while the initiator's claim still waits. *)
Definition sample_i_moves : list IMove :=
  [IAct (EvAccept 0); IAct (EvFund 0); ITime; ICounterFund (mkHtlc (sha256 sample_secret) 9 6);
   IAct EvObserveCounterpartyFunded; IAct (EvReveal 1); ITime; ICounterClaim sample_secret].

Lemma initiator_atomic_witness :
  exists w, i_run sample_ladder sample_terms 100 9 sample_secret (i_start sample_terms 0 mock_new mock_new)
              sample_i_moves = Some w
    /\ leg_outcome (iw_nim w) = LegClaimed
    /\ exists l, leg_claim (iw_btc w) sample_secret (iw_head w) = Ok l.
Proof.
  destruct (i_run sample_ladder sample_terms 100 9 sample_secret
              (i_start sample_terms 0 mock_new mock_new) sample_i_moves) as [w|] eqn:E;
    [|vm_compute in E; discriminate].
  assert (H0 : 0 < min_claim_window_blocks sample_ladder) by (vm_compute; reflexivity).
  pose proof (initiator_atomic sample_ladder sample_terms 100 9 sample_secret 0 mock_new mock_new
                sample_i_moves w H0 eq_refl eq_refl eq_refl E) as (_ & H & _).
  exists w. vm_compute in E. injection E as <-. split_and!; [reflexivity..|].
  exact (proj1 (H 1 eq_refl)).
Defined.

Definition sample_r_moves : list RMove :=
  [RAct (EvAccept 0); RCounterFund (mkHtlc (sha256 sample_secret) 100 10);
   RAct EvObserveInitiatorFunded; RAct (EvFund 0); RAct EvObserveCounterpartyFunded; RTime;
   RCounterClaim sample_secret; RTime].

Lemma responder_atomic_witness :
  exists w, r_run sample_ladder sample_terms 100 9 (sha256 sample_secret)
              (r_start sample_terms 0 mock_new mock_new) sample_r_moves = Some w
    /\ leg_outcome (rw_btc w) = LegClaimed
    /\ exists h x, rw_taken w = Some h /\ h + 4 <= 10 /\ leg_revealed (rw_btc w) = Some x.
Proof.
  destruct (r_run sample_ladder sample_terms 100 9 (sha256 sample_secret)
              (r_start sample_terms 0 mock_new mock_new) sample_r_moves) as [w|] eqn:E;
    [|vm_compute in E; discriminate].
  pose proof (responder_atomic sample_ladder sample_terms 100 9 (sha256 sample_secret) 0 mock_new
                mock_new sample_r_moves w eq_refl E) as (H & _).
  exists w. vm_compute in E. injection E as <-. split_and!; [reflexivity..|].
  destruct (H eq_refl) as (h & x & Ht & _ & Hd & Hr & _). exists h, x. auto.
Defined.

(** The counterparty never claims; past [T_A] it takes its NIM back and only then
    lets the responder have the secret. *)
Definition late_moves : list RMove :=
  [RAct (EvAccept 0); RCounterFund (mkHtlc (sha256 sample_secret) 100 10);
   RAct EvObserveInitiatorFunded; RAct (EvFund 0); RAct EvObserveCounterpartyFunded]
  ++ replicate 11 RTime ++ [RCounterRefund].

(** C39: the secret has no deadline.  A responder whose own leg nobody has claimed
    could still refund it past [T_A], at the machine and on the chain; if a reveal
    arrives then, the machine accepts it although the NIM leg is gone, refuses the
    refund that the chain would still make, and ends in [Lost]. *)
Theorem late_secret_strands_leg :
  exists w w',
    r_run sample_ladder sample_terms 100 9 (sha256 sample_secret)
      (r_start sample_terms 0 mock_new mock_new) late_moves = Some w
    /\ is_ok (refund_after_timeout (rw_swap w) (rw_head w)) = true
    /\ r_move sample_ladder sample_terms 100 9 (sha256 sample_secret) w (RLearn sample_secret) = Some w'
    /\ leg_outcome (rw_nim w') = LegRefunded /\ leg_outcome (rw_btc w') = LegFunded
    /\ is_ok (leg_refund (rw_btc w') (rw_head w')) = true
    /\ is_ok (refund_after_timeout (rw_swap w') (rw_head w')) = false
    /\ forfeit_claim (rw_swap w') (rw_head w') = Ok (set_phase (rw_swap w') Lost, tt).
Proof.
  eexists _, _. split; [vm_compute; reflexivity|]. split; [vm_compute; reflexivity|].
  split; [vm_compute; reflexivity|]. split_and!; vm_compute; reflexivity.
Qed.
