(* ===== verification/Relay.v ===== *)
(** * Relay: whether and how far a packet is carried for others
    ([relay.rs], [citizen.rs], [ratelimit.rs])

    The hop cap, the random source and the relay decision, the battery posture,
    and the per-peer token bucket.  An [f64] is a [spec_float] of the Standard
    Library, IEEE 754 binary64 with rounding to nearest even, computed with the
    library's own operations.  A delay source only sleeps; what is modelled of a
    jitter is the draw. *)

From stdpp Require Import base list gmap strings.
From Stdlib Require Import ZArith Lia SpecFloat.
From S2P Require Import Prelude Packet.
Open Scope Z_scope.

(** ** [f64] *)

Abbreviation f64 := spec_float (only parsing).

Definition f64_add : f64 -> f64 -> f64 := SFadd 53 1024.
Definition f64_sub : f64 -> f64 -> f64 := SFsub 53 1024.
Definition f64_mul : f64 -> f64 -> f64 := SFmul 53 1024.
Definition f64_div : f64 -> f64 -> f64 := SFdiv 53 1024.

(** [v as f64] of an unsigned integer *)
Definition f64_of (v : Z) : f64 := binary_normalize 53 1024 v 0 false.

Definition f64_half : f64 := f64_div (f64_of 1) (f64_of 2).

(** [f64::min]: the other operand of a NaN *)
Definition f64_min (a b : f64) : f64 :=
  match a, b with
  | S754_nan, _ => b
  | _, S754_nan => a
  | _, _ => if SFltb b a then b else a
  end.

(** [f64::clamp] *)
Definition f64_clamp (x lo hi : f64) : f64 :=
  let x := if SFltb x lo then lo else x in
  if SFltb hi x then hi else x.

(** ** The hop cap *)

Definition relayed_ttl (ttl : Z) : option Z :=
  let capped := if ttl <? DEFAULT_TTL then ttl else DEFAULT_TTL in
  if capped <=? 1 then None else Some (capped - 1).

(** ** The random source *)

Class RelayRng (R : Type) : Type := { next_u64 : R -> Z * R }.

Section rng.
Context {R : Type} `{RelayRng R}.

Definition bernoulli (r : R) (p : f64) : bool * R :=
  if SFleb p (f64_of 0) then (false, r) else
  if SFleb (f64_of 1) p then (true, r) else
  let '(x, r) := next_u64 r in
  (SFltb (f64_div (f64_of x) (f64_of (2 ^ 64 - 1))) p, r).

(** The code calls it with the two jitter bounds; the span would exceed a [u64]
    only for the whole range [0, 2^64 - 1]. *)
Definition in_range_ms (r : R) (min max : Z) : Z * R :=
  if max <=? min then (min, r) else
  let span := max - min + 1 in
  let '(x, r) := next_u64 r in
  (min + x mod span, r).
End rng.

Record XorShiftRng : Type := mkXorShift { xs_state : Z }.

Definition xorshift_seeded (seed : Z) : XorShiftRng :=
  mkXorShift (if seed =? 0 then 0x9E3779B97F4A7C15 else seed).

(** [x ^= x << k] and [x ^= x >> k] on a [u64] *)
Definition xor_shl (x k : Z) : Z := Z.lxor x (wrapN 64 (Z.shiftl x k)).
Definition xor_shr (x k : Z) : Z := Z.lxor x (Z.shiftr x k).

#[export] Instance XorShift_rng : RelayRng XorShiftRng := {|
  next_u64 := fun r =>
    let x := xs_state r in
    let x := xor_shl x 13 in
    let x := xor_shr x 7 in
    let x := xor_shl x 17 in
    (x, mkXorShift x)
|}.

(** ** The relay policy *)

Definition HIGH_DEGREE_THRESHOLD : Z := 6.
Definition RELAY_PROBABILITY : f64 := f64_half.
Definition JITTER_MIN_MS : Z := 10.
Definition JITTER_MAX_MS : Z := 220.

Record RelayPolicy (R : Type) : Type := mkPolicy {
  rp_rng : R;
  rp_threshold : Z;
  rp_probability : f64;
  rp_jitter_min_ms : Z;
  rp_jitter_max_ms : Z
}.
Arguments mkPolicy {R}.
Arguments rp_rng {R}.
Arguments rp_threshold {R}.
Arguments rp_probability {R}.
Arguments rp_jitter_min_ms {R}.
Arguments rp_jitter_max_ms {R}.

Section policy.
Context {R : Type} `{RelayRng R}.

Definition policy_custom (rng : R) : RelayPolicy R :=
  mkPolicy rng HIGH_DEGREE_THRESHOLD RELAY_PROBABILITY JITTER_MIN_MS JITTER_MAX_MS.

Definition with_rng (p : RelayPolicy R) (rng : R) : RelayPolicy R :=
  mkPolicy rng (rp_threshold p) (rp_probability p) (rp_jitter_min_ms p) (rp_jitter_max_ms p).

Definition should_relay_throttled (p : RelayPolicy R) (degree : Z) (factor : f64)
  : bool * RelayPolicy R :=
  let base := if degree <? rp_threshold p then f64_of 1 else rp_probability p in
  let '(b, rng) := bernoulli (rp_rng p) (f64_clamp (f64_mul base factor) (f64_of 0) (f64_of 1)) in
  (b, with_rng p rng).

Definition should_relay (p : RelayPolicy R) (degree : Z) : bool * RelayPolicy R :=
  should_relay_throttled p degree (f64_of 1).

(** [next_jitter], in milliseconds *)
Definition next_jitter (p : RelayPolicy R) : Z * RelayPolicy R :=
  let '(d, rng) := in_range_ms (rp_rng p) (rp_jitter_min_ms p) (rp_jitter_max_ms p) in
  (d, with_rng p rng).

(** The draw of [apply_jitter]; the sleep has no effect on the state. *)
Definition apply_jitter (p : RelayPolicy R) : RelayPolicy R := (next_jitter p).2.
End policy.

(** ** The battery posture *)

Definition BATTERY_FULL_PCT : Z := 50.
Definition BATTERY_LOW_PCT : Z := 20.
Definition BATTERY_CRITICAL_PCT : Z := 10.

Inductive RelayPosture : Type := PostureFull | PostureReduced | PostureFrugal | PostureOff.

Definition relays_type (p : RelayPosture) (t : MessageType) : bool :=
  match p with
  | PostureFull | PostureReduced => true
  | PostureFrugal => match t with MtNimiqTx | MtNimiqTxReceipt => true | _ => false end
  | PostureOff => false
  end.

Definition probability_factor (p : RelayPosture) : f64 :=
  match p with
  | PostureFull | PostureFrugal => f64_of 1
  | PostureReduced => f64_half
  | PostureOff => f64_of 0
  end.

Definition relay_posture (level_pct : Z) (charging : bool) : RelayPosture :=
  if charging || (level_pct >=? BATTERY_FULL_PCT) then PostureFull
  else if level_pct >=? BATTERY_LOW_PCT then PostureReduced
  else if level_pct >=? BATTERY_CRITICAL_PCT then PostureFrugal
  else PostureOff.

Record CitizenState : Type := mkCitizen {
  cz_payments_relayed : Z;
  cz_battery_level : Z;
  cz_battery_charging : bool
}.

Definition citizen_new : CitizenState := mkCitizen 0 100 true.

Definition set_battery (c : CitizenState) (level_pct : Z) (charging : bool) : CitizenState :=
  mkCitizen (cz_payments_relayed c) (Z.min level_pct 100) charging.

Definition posture (c : CitizenState) : RelayPosture :=
  relay_posture (cz_battery_level c) (cz_battery_charging c).

(** [fetch_add] wraps. *)
Definition note_relay (c : CitizenState) (t : MessageType) : CitizenState :=
  match t with
  | MtNimiqTx => mkCitizen (wrapN 64 (cz_payments_relayed c + 1)) (cz_battery_level c) (cz_battery_charging c)
  | _ => c
  end.

(** [relay_allowed], over the two parts of the node it reads and the policy. *)
Definition relay_allowed {R} `{RelayRng R} (c : CitizenState) (degree : Z) (t : MessageType)
    (p : RelayPolicy R) : bool * RelayPolicy R :=
  let pos := posture c in
  if negb (relays_type pos t) then (false, p)
  else should_relay_throttled p degree (probability_factor pos).

(** ** The per-peer token bucket *)

Definition PEER_REFILL_PER_SEC : Z := 64.
Definition PEER_BUCKET_CAPACITY : Z := 256.
Definition MAX_TRACKED_PEERS : Z := 128.

Record Bucket : Type := mkBucket { bk_tokens : f64; bk_last_ms : Z }.

Record PeerRateLimiter : Type := mkLimiter {
  rl_capacity : f64;
  rl_refill_per_ms : f64;
  rl_buckets : gmap string Bucket
}.

Definition limiter_with_rate (capacity refill_per_sec : Z) : PeerRateLimiter :=
  mkLimiter (f64_of capacity) (f64_div (f64_of refill_per_sec) (f64_of 1000)) ∅.

Definition limiter_new : PeerRateLimiter := limiter_with_rate PEER_BUCKET_CAPACITY PEER_REFILL_PER_SEC.

(** [min_by_key] over the hash map: some bucket seen least recently. *)
Definition least_recent (m : gmap string Bucket) : option string :=
  fst <$> map_fold (fun k b acc =>
            match acc with
            | Some (k', t) => if bk_last_ms b <? t then Some (k, bk_last_ms b) else Some (k', t)
            | None => Some (k, bk_last_ms b)
            end) None m.

Definition limiter_evict_if_full (m : gmap string Bucket) (peer : string) : gmap string Bucket :=
  if (Z.of_nat (size m) <? MAX_TRACKED_PEERS) || bool_decide (is_Some (m !! peer)) then m else
  match least_recent m with
  | Some oldest => delete oldest m
  | None => m
  end.

Definition limiter_allow (l : PeerRateLimiter) (peer : string) (now_ms : Z)
  : bool * PeerRateLimiter :=
  let m := limiter_evict_if_full (rl_buckets l) peer in
  let b := default (mkBucket (rl_capacity l) now_ms) (m !! peer) in
  let elapsed := f64_of (sat_sub now_ms (bk_last_ms b)) in
  let tokens := f64_min (f64_add (bk_tokens b) (f64_mul elapsed (rl_refill_per_ms l)))
                        (rl_capacity l) in
  let ok := SFleb (f64_of 1) tokens in
  let tokens := if ok then f64_sub tokens (f64_of 1) else tokens in
  (ok, mkLimiter (rl_capacity l) (rl_refill_per_ms l) (<[ peer := mkBucket tokens now_ms ]> m)).

(** ** Lemmas *)

Lemma relayed_ttl_spec t t' :
  relayed_ttl t = Some t' <-> 2 <= t /\ t' = Z.min t 7 - 1.
Proof.
  unfold relayed_ttl, DEFAULT_TTL. split.
  - intros H. run H; lia.
  - intros [Ht ->]. destruct (Z.ltb_spec t 7); case_goal; bool_prop; try lia; f_equal; lia.
Qed.

Lemma relayed_ttl_range t t' : relayed_ttl t = Some t' -> 1 <= t' <= 6 /\ t' < t.
Proof. intros [? ->]%relayed_ttl_spec. lia. Qed.

(** *** The generator never reaches the fixed point zero *)

Lemma lxor_bound a b : uN 64 a -> uN 64 b -> uN 64 (Z.lxor a b).
Proof.
  unfold uN. intros Ha Hb. split; [apply Z.lxor_nonneg; lia|].
  destruct (Z.eq_dec (Z.lxor a b) 0) as [->|Hz]; [lia|].
  assert (0 < Z.lxor a b) by (pose proof (proj2 (Z.lxor_nonneg a b) ltac:(lia)); lia).
  apply Z.log2_lt_pow2; [lia|].
  pose proof (Z.log2_lxor a b ltac:(lia) ltac:(lia)).
  assert (Hlog : forall x, 0 <= x < 2 ^ 64 -> Z.log2 x < 64).
  { intros x Hx. destruct (Z.eq_dec x 0) as [->|]; [reflexivity|]. apply Z.log2_lt_pow2; lia. }
  pose proof (Hlog a Ha). pose proof (Hlog b Hb). lia.
Qed.

Lemma xor_shl_bound x k : uN 64 x -> uN 64 (xor_shl x k).
Proof. intros Hx. apply lxor_bound; [exact Hx|]. unfold uN, wrapN. apply Z.mod_pos_bound. lia. Qed.

Lemma xor_shr_bound x k : 0 <= k -> uN 64 x -> uN 64 (xor_shr x k).
Proof.
  intros Hk Hx. apply lxor_bound; [exact Hx|]. unfold uN in *. rewrite Z.shiftr_div_pow2 by lia.
  split; [apply Z.div_pos; lia|]. apply Z.div_lt_upper_bound; [lia|]. nia.
Qed.

(** A number that equals its own shift is zero: bit [i] is bit [i - k]. *)
Lemma xor_shl_zero x k : 0 < k -> uN 64 x -> xor_shl x k = 0 -> x = 0.
Proof.
  intros Hk Hx H. apply Z.lxor_eq in H. apply Z.bits_inj'. intros n Hn. rewrite Z.bits_0.
  assert (Hall : forall m : nat, forall i, 0 <= i < Z.of_nat m -> Z.testbit x i = false).
  { induction m as [|m IH]; intros i Hi; [lia|].
    rewrite H. unfold wrapN. destruct (Z.ltb_spec i 64).
    - rewrite Z.mod_pow2_bits_low by lia. rewrite Z.shiftl_spec by lia.
      destruct (Z.ltb_spec i k); [apply Z.testbit_neg_r; lia | apply IH; lia].
    - apply Z.mod_pow2_bits_high. lia. }
  apply (Hall (Z.to_nat (n + 1))). lia.
Qed.

Lemma xor_shr_zero x k : 0 < k -> uN 64 x -> xor_shr x k = 0 -> x = 0.
Proof.
  intros Hk Hx H. apply Z.lxor_eq in H. unfold uN in Hx. rewrite Z.shiftr_div_pow2 in H by lia.
  destruct (Z.eq_dec x 0) as [|Hz]; [assumption|exfalso].
  assert (1 < 2 ^ k) by (apply Z.pow_gt_1; lia).
  pose proof (Z.div_lt x (2 ^ k) ltac:(lia) ltac:(lia)). lia.
Qed.

Definition rng_ok (r : XorShiftRng) : Prop := uN 64 (xs_state r) /\ xs_state r <> 0.

Lemma seeded_ok seed : uN 64 seed -> rng_ok (xorshift_seeded seed).
Proof.
  unfold rng_ok, xorshift_seeded. intros H. destruct (Z.eqb_spec seed 0); simpl; [|auto].
  split; [unfold uN; lia | lia].
Qed.

Lemma next_u64_ok r : rng_ok r -> rng_ok (next_u64 r).2.
Proof.
  intros [Hb Hz]. unfold rng_ok. simpl.
  pose proof (xor_shl_bound (xs_state r) 13 Hb) as B1.
  pose proof (xor_shr_bound _ 7 ltac:(lia) B1) as B2.
  split; [now apply xor_shl_bound|]. intros E.
  apply xor_shl_zero in E; [|lia|exact B2]. apply xor_shr_zero in E; [|lia|exact B1].
  apply xor_shl_zero in E; [|lia|exact Hb]. contradiction.
Qed.

(** *** The relay decision *)

(** A probability of one needs no draw, one of zero relays nothing. *)
Lemma bernoulli_one {R} `{RelayRng R} (r : R) : bernoulli r (f64_of 1) = (true, r).
Proof. reflexivity. Qed.

Lemma should_relay_sparse {R} `{RelayRng R} (p : RelayPolicy R) degree :
  degree < rp_threshold p -> should_relay p degree = (true, p).
Proof.
  intros Hd. unfold should_relay, should_relay_throttled.
  rewrite (proj2 (Z.ltb_lt _ _) Hd).
  change (f64_clamp (f64_mul (f64_of 1) (f64_of 1)) (f64_of 0) (f64_of 1)) with (f64_of 1).
  rewrite bernoulli_one. now destruct p.
Qed.

(** *** The token bucket *)

(** One frame of a peer whose bucket holds [n] whole tokens, at the instant
    the bucket was last used. *)
Lemma bucket_tokens n :
  0 <= n <= 256 ->
  f64_min (f64_add (f64_of n) (f64_mul (f64_of 0) (rl_refill_per_ms limiter_new)))
          (rl_capacity limiter_new) = f64_of n
  /\ SFleb (f64_of 1) (f64_of n) = (1 <=? n)
  /\ (1 <= n -> f64_sub (f64_of n) (f64_of 1) = f64_of (n - 1)).
Proof.
  intros Hn.
  pose (eqb x y := match x, y with
                   | S754_zero a, S754_zero b => Bool.eqb a b
                   | S754_finite a m e, S754_finite b m' e' => Bool.eqb a b && Pos.eqb m m' && Z.eqb e e'
                   | _, _ => false
                   end).
  assert (Heqb : forall x y, eqb x y = true -> x = y).
  { intros [] []; simpl; intros; bool_prop; try discriminate;
      repeat match goal with
      | H : Bool.eqb _ _ = true |- _ => apply Bool.eqb_prop in H
      | H : Pos.eqb _ _ = true |- _ => apply Pos.eqb_eq in H
      end; congruence. }
  pose (chk n := eqb (f64_min (f64_add (f64_of n) (f64_mul (f64_of 0) (rl_refill_per_ms limiter_new)))
                         (rl_capacity limiter_new)) (f64_of n)
                 && Bool.eqb (SFleb (f64_of 1) (f64_of n)) (1 <=? n)
                 && ((n <? 1) || eqb (f64_sub (f64_of n) (f64_of 1)) (f64_of (n - 1)))).
  assert (Hall : forallb chk (map Z.of_nat (seq 0 257)) = true) by (vm_compute; reflexivity).
  rewrite forallb_forall in Hall. specialize (Hall n).
  assert (Hin : In n (map Z.of_nat (seq 0 257))).
  { apply in_map_iff. exists (Z.to_nat n). rewrite in_seq. lia. }
  specialize (Hall Hin). unfold chk in Hall. bool_prop.
  split_and!; [auto | now apply Bool.eqb_prop |].
  intros Hge1. apply Heqb. destruct (Z.ltb_spec n 1); [lia|]. assumption.
Qed.

Definition default_rates (l : PeerRateLimiter) : Prop :=
  rl_capacity l = rl_capacity limiter_new /\ rl_refill_per_ms l = rl_refill_per_ms limiter_new.

Lemma evict_known m peer : is_Some (m !! peer) -> limiter_evict_if_full m peer = m.
Proof.
  intros Hp. unfold limiter_evict_if_full. rewrite (bool_decide_true _ Hp), orb_true_r. reflexivity.
Qed.

Lemma allow_burst l peer t n :
  default_rates l -> 0 <= n <= 256 ->
  rl_buckets l !! peer = Some (mkBucket (f64_of n) t) ->
  (limiter_allow l peer t).1 = (1 <=? n)
  /\ default_rates (limiter_allow l peer t).2
  /\ rl_buckets (limiter_allow l peer t).2 !! peer = Some (mkBucket (f64_of (sat_sub n 1)) t).
Proof.
  intros [Hc Hr] Hn Hb. destruct (bucket_tokens n Hn) as (E1 & E2 & E3).
  unfold limiter_allow. rewrite evict_known by eauto. rewrite Hb. cbn [default from_option id bk_last_ms bk_tokens].
  replace (sat_sub t t) with 0 by (unfold sat_sub; lia).
  unfold default_rates. rewrite Hc, Hr, E1, E2. cbn [fst snd rl_capacity rl_refill_per_ms rl_buckets].
  split_and!; [reflexivity..|]. rewrite lookup_insert_eq. do 2 f_equal.
  destruct (Z.leb_spec 1 n); unfold sat_sub.
  - rewrite E3 by lia. f_equal. lia.
  - f_equal. lia.
Qed.

(** The answers to [k] frames of one peer in one millisecond. *)
Fixpoint allow_many (l : PeerRateLimiter) (peer : string) (t : Z) (k : nat)
  : list bool * PeerRateLimiter :=
  match k with
  | O => ([], l)
  | S k => let '(ok, l) := limiter_allow l peer t in
           let '(rest, l) := allow_many l peer t k in (ok :: rest, l)
  end.

Lemma allow_many_spec peer t k : forall l n,
  default_rates l -> 0 <= n <= 256 ->
  rl_buckets l !! peer = Some (mkBucket (f64_of n) t) ->
  (allow_many l peer t k).1
  = replicate (Nat.min k (Z.to_nat n)) true ++ replicate (k - Z.to_nat n) false.
Proof.
  induction k as [|k IH]; intros l n Hl Hn Hb; [reflexivity|].
  destruct (allow_burst l peer t n Hl Hn Hb) as (E & Hl' & Hb').
  cbn [allow_many]. destruct (limiter_allow l peer t) as [ok l']. cbn [fst snd] in *. subst ok.
  specialize (IH l' (sat_sub n 1) Hl' ltac:(unfold sat_sub; lia) Hb').
  destruct (allow_many l' peer t k) as [rest l'']. cbn [fst] in *. subst rest.
  destruct (Z.leb_spec 1 n) as [H1|H1].
  - replace (Z.to_nat n) with (S (Z.to_nat (sat_sub n 1))) by (unfold sat_sub; lia). reflexivity.
  - assert (n = 0) by lia. subst n. simpl. rewrite Nat.min_0_r, Nat.sub_0_r. reflexivity.
Qed.

(** *** The table of peers is bounded *)

Lemma least_recent_in m k : least_recent m = Some k -> is_Some (m !! k).
Proof.
  unfold least_recent.
  assert (Hinv : forall o, map_fold (fun k b acc =>
            match acc with
            | Some (k', t) => if bk_last_ms b <? t then Some (k, bk_last_ms b) else Some (k', t)
            | None => Some (k, bk_last_ms b)
            end) None m = o -> forall k t, o = Some (k, t) -> is_Some (m !! k)).
  { apply (map_fold_weak_ind (fun (o : option (string * Z)) (m : gmap string Bucket) =>
             forall o', o = o' -> forall k t, o' = Some (k, t) -> is_Some (m !! k))).
    - intros; simplify_eq.
    - intros i x m' r _ IH o' <- k0 t0 E.
      destruct (decide (i = k0)) as [->|Hne]; [rewrite lookup_insert_eq; eauto|].
      rewrite lookup_insert_ne by exact Hne. run E; eauto. }
  intros H. destruct (map_fold _ None m) as [[k' t']|] eqn:E; simpl in H; simplify_eq.
  eapply Hinv; reflexivity.
Qed.

Lemma least_recent_some m : m <> ∅ -> is_Some (least_recent m).
Proof.
  unfold least_recent. intros Hm. rewrite fmap_is_Some.
  revert Hm. apply (map_fold_weak_ind (fun (o : option (string * Z)) (m : gmap string Bucket) =>
             m <> ∅ -> is_Some o)); [done|].
  intros i x m' r _ _ _. repeat case_goal; eauto.
Qed.

Lemma allow_size l peer t :
  Z.of_nat (size (rl_buckets l)) <= MAX_TRACKED_PEERS ->
  Z.of_nat (size (rl_buckets (limiter_allow l peer t).2)) <= MAX_TRACKED_PEERS.
Proof.
  intros Hs. unfold limiter_allow. cbn [snd rl_buckets].
  set (b := mkBucket _ _). clearbody b.
  unfold limiter_evict_if_full, MAX_TRACKED_PEERS in *.
  destruct (Z.ltb_spec (Z.of_nat (size (rl_buckets l))) 128) as [Hlt|Hge]; simpl.
  - rewrite map_size_insert. destruct (_ !! peer); simpl; lia.
  - destruct (bool_decide_reflect (is_Some (rl_buckets l !! peer))) as [[x Hx]|_].
    + rewrite map_size_insert, Hx. simpl. lia.
    + destruct (least_recent (rl_buckets l)) as [k|] eqn:E.
      * destruct (least_recent_in _ _ E) as [x Hx].
        rewrite map_size_insert, map_size_delete, Hx. destruct (delete _ _ !! peer); simpl; lia.
      * destruct (least_recent_some (rl_buckets l)) as [k Hk]; [|congruence].
        intros Hz. rewrite Hz, map_size_empty in Hge. lia.
Qed.

(** The table after any sequence of frames. *)
Lemma limiter_bounded (frames : list (string * Z)) : forall l,
  Z.of_nat (size (rl_buckets l)) <= MAX_TRACKED_PEERS ->
  Z.of_nat (size (rl_buckets
    (foldl (fun l f => (limiter_allow l f.1 f.2).2) l frames))) <= MAX_TRACKED_PEERS.
Proof. induction frames as [|f frames IH]; intros l Hl; [exact Hl|]. apply IH, allow_size, Hl. Qed.

(** An untracked peer's first frame in a burst leaves what a full bucket of
    that instant leaves. *)
Lemma allow_untracked l peer t :
  default_rates l -> rl_buckets l !! peer = None ->
  (limiter_allow l peer t).1 = true
  /\ default_rates (limiter_allow l peer t).2
  /\ rl_buckets (limiter_allow l peer t).2 !! peer = Some (mkBucket (f64_of 255) t).
Proof.
  intros [Hc Hr] Hn.
  assert (Hm : limiter_evict_if_full (rl_buckets l) peer !! peer = None).
  { unfold limiter_evict_if_full. case_goal; [exact Hn|]. case_goal; [|exact Hn].
    apply lookup_delete_None. auto. }
  destruct (bucket_tokens 256 ltac:(lia)) as (E1 & E2 & E3).
  unfold limiter_allow. rewrite Hm. cbn [default from_option id bk_last_ms bk_tokens].
  replace (sat_sub t t) with 0 by (unfold sat_sub; lia).
  unfold default_rates. rewrite Hc, Hr.
  change (f64_min (f64_add (rl_capacity limiter_new) (f64_mul (f64_of 0) (rl_refill_per_ms limiter_new)))
            (rl_capacity limiter_new)) with
         (f64_min (f64_add (f64_of 256) (f64_mul (f64_of 0) (rl_refill_per_ms limiter_new)))
            (rl_capacity limiter_new)).
  rewrite E1, E2. cbn [fst snd rl_capacity rl_refill_per_ms rl_buckets].
  split_and!; [reflexivity..|]. rewrite lookup_insert_eq. change (1 <=? 256) with true.
  cbn match. rewrite E3 by lia. reflexivity.
Qed.

(** ** Properties *)

(** The token bucket admits exactly its burst.  Whatever the limiter has
    seen before, a peer it does not track gets exactly the first 256 of the
    frames it sends within one millisecond, computed in binary64; and under any
    sequence of frames of any peers, at any times, the table never tracks more
    than 128 peers. *)
Theorem limiter_burst_exact (l : PeerRateLimiter) (peer : string) (t : Z) (k : nat)
    (Hl : default_rates l) (Hp : rl_buckets l !! peer = None) :
  (allow_many l peer t k).1 = replicate (Nat.min k 256) true ++ replicate (k - 256) false
  /\ forall frames, Z.of_nat (size (rl_buckets
       (foldl (fun l f => (limiter_allow l f.1 f.2).2) limiter_new frames))) <= MAX_TRACKED_PEERS.
Proof.
  split; [|intros frames; apply limiter_bounded; vm_compute; congruence].
  destruct k as [|k]; [reflexivity|]. cbn [allow_many].
  destruct (allow_untracked l peer t Hl Hp) as (E & Hl' & Hb).
  destruct (limiter_allow l peer t) as [ok l']. cbn [fst snd] in *. subst ok.
  pose proof (allow_many_spec peer t k l' 255 Hl' ltac:(lia) Hb) as E.
  destruct (allow_many l' peer t k) as [rest l'']. cbn [fst] in *. rewrite E. reflexivity.
Qed.

Lemma limiter_burst_exact_witness :
  (allow_many limiter_new "peer" 5 300).1 = replicate 256 true ++ replicate 44 false.
Proof.
  exact (proj1 (limiter_burst_exact limiter_new "peer" 5 300 (conj eq_refl eq_refl) eq_refl)).
Defined.

(** The relay decision of a node with few neighbours.  Below the degree
    threshold a charged device carries every packet, a device at 10 to 19
    percent carries transactions and receipts and nothing else, and a device
    under 10 percent carries nothing, without consuming randomness; but at 20 to
    49 percent the halved probability applies in the sparse mesh too, so a
    payment that a lower battery would carry is dropped on a high draw, although
    the posture is documented to damp the dense mesh only. *)
Theorem sparse_relay_decision {R} `{RelayRng R} (c : CitizenState) (p : RelayPolicy R)
    (degree : Z) (t : MessageType) (Hd : degree < rp_threshold p) :
  match posture c with
  | PostureFull => relay_allowed c degree t p = (true, p)
  | PostureFrugal =>
      relay_allowed c degree t p = (bool_decide (t = MtNimiqTx \/ t = MtNimiqTxReceipt), p)
  | PostureOff => relay_allowed c degree t p = (false, p)
  | PostureReduced =>
      forall r', next_u64 (rp_rng p) = (2 ^ 64 - 1, r') ->
      relay_allowed c degree t p = (false, with_rng p r')
  end.
Proof.
  unfold relay_allowed. destruct (posture c) eqn:E; cbn [relays_type negb probability_factor].
  - now apply should_relay_sparse.
  - intros r' Hr. unfold should_relay_throttled. rewrite (proj2 (Z.ltb_lt _ _) Hd).
    change (f64_clamp (f64_mul (f64_of 1) f64_half) (f64_of 0) (f64_of 1)) with f64_half.
    unfold bernoulli. change (SFleb f64_half (f64_of 0)) with false.
    change (SFleb (f64_of 1) f64_half) with false. cbn match. rewrite Hr. reflexivity.
  - pose proof (should_relay_sparse p degree Hd) as Hs. unfold should_relay in Hs.
    destruct t; cbn [relays_type negb]; rewrite ?Hs; reflexivity.
  - reflexivity.
Qed.

Lemma sparse_relay_decision_witness :
  relay_allowed (set_battery citizen_new 15 false) 0 MtNimiqTx (policy_custom (xorshift_seeded 7))
  = (true, policy_custom (xorshift_seeded 7)).
Proof.
  exact (sparse_relay_decision (set_battery citizen_new 15 false) (policy_custom (xorshift_seeded 7))
           0 MtNimiqTx eq_refl).
Defined.
