(* ===== verification/StoreForward.v ===== *)
(** * StoreForward: the recent-packet cache and gossip sync ([store_forward.rs])

    The hash map of the source is a [gmap], its queue a list with the oldest id
    first.  The caller passes the time, in milliseconds, to every operation. *)

From stdpp Require Import base list gmap.
From Stdlib Require Import ZArith Lia Sorted.
From S2P Require Import Prelude Packet Gcs.
Open Scope Z_scope.

Definition RECENT_CACHE_CAP : Z := 1000.
Definition RECENT_RETENTION_MS : Z := 900000.
Definition SYNC_ACTIVE_MS : Z := 15000.
Definition SYNC_TICK_MS : Z := 30000.

(** ** Packet identities: FNV-1a over the header fields *)

Definition FNV_OFFSET : Z := 0xcbf29ce484222325.
Definition FNV_PRIME : Z := 0x100000001b3.

Definition fnv_mix (h b : Z) : Z := wrapN 64 (Z.lxor h b * FNV_PRIME).

Definition packet_id (p : Packet) : Z :=
  let h := fnv_mix FNV_OFFSET (mt_to_u8 (msg_type p)) in
  let h := foldl fnv_mix h (sender_id p) in
  foldl fnv_mix h (be_bytes 8 (timestamp_ms p)).

#[global] Opaque packet_id.

(** ** The cache *)

Record RecentCache : Type := mkRecent { rc_map : gmap Z (Packet * Z); rc_order : list Z }.

Definition recent_new : RecentCache := mkRecent ∅ [].

(** The loop of [gc]: it pops the front of the queue until a live entry. *)
Fixpoint recent_gc_loop (m : gmap Z (Packet * Z)) (order : list Z) (now_ms : Z) : RecentCache :=
  match order with
  | [] => mkRecent m []
  | front :: rest =>
      match m !! front with
      | Some (_, t) =>
          if sat_sub now_ms t >? RECENT_RETENTION_MS
          then recent_gc_loop (delete front m) rest now_ms
          else mkRecent m order
      | None => recent_gc_loop m rest now_ms
      end
  end.

Definition recent_gc (c : RecentCache) (now_ms : Z) : RecentCache :=
  recent_gc_loop (rc_map c) (rc_order c) now_ms.

Definition recent_insert (c : RecentCache) (id : Z) (packet : Packet) (now_ms : Z)
  : RecentCache * bool :=
  let c := recent_gc c now_ms in
  if bool_decide (is_Some (rc_map c !! id)) then (c, false) else
  let '(m, order) :=
    if Z.of_nat (size (rc_map c)) >=? RECENT_CACHE_CAP then
      match rc_order c with
      | old :: rest => (delete old (rc_map c), rest)
      | [] => (rc_map c, [])
      end
    else (rc_map c, rc_order c) in
  (mkRecent (<[ id := (packet, now_ms) ]> m) (order ++ [id]), true).

Definition recent_contains (c : RecentCache) (id : Z) : bool := bool_decide (is_Some (rc_map c !! id)).

Definition recent_len (c : RecentCache) : Z := Z.of_nat (size (rc_map c)).

Definition active_len (c : RecentCache) (now_ms : Z) : Z :=
  Z.of_nat (size (filter (fun e : Z * (Packet * Z) => sat_sub now_ms e.2.2 <= SYNC_ACTIVE_MS) (rc_map c))).

Definition advertise_ids (c : RecentCache) (now_ms : Z) : list Z * RecentCache :=
  let c := recent_gc c now_ms in
  (take (Z.to_nat GCS_MAX_ITEMS) (reverse (rc_order c)), c).

Definition build_filter (c : RecentCache) (now_ms : Z) : GcsFilter * RecentCache :=
  let '(ids, c) := advertise_ids c now_ms in (gcs_build ids, c).

Definition missing (c : RecentCache) (f : GcsFilter) (now_ms : Z) : list Packet * RecentCache :=
  let c := recent_gc c now_ms in
  (omap (fun id => fst <$> rc_map c !! id)
        (filter (fun id => negb (gcs_contains f id) = true) (rc_order c)), c).

(** ** The maintenance tick *)

Definition SyncScheduler : Type := option Z.

Definition sync_due (last_ms : SyncScheduler) (now_ms : Z) : bool * SyncScheduler :=
  match last_ms with
  | Some t => if sat_sub now_ms t <? SYNC_TICK_MS then (false, last_ms) else (true, Some now_ms)
  | None => (true, Some now_ms)
  end.

(** ** Lemmas *)

(** The time an id was stored at; [0] for an absent one. *)
Definition stored_at (m : gmap Z (Packet * Z)) (id : Z) : Z :=
  match m !! id with Some (_, t) => t | None => 0 end.

(** The map and the queue hold the same ids, each once, under the identity of
    its packet, in the order they were stored, none later than [now]. *)
Record recent_ok (c : RecentCache) (now : Z) : Prop := {
  ro_nodup : NoDup (rc_order c);
  ro_dom : dom (rc_map c) = list_to_set (rc_order c);
  ro_len : len (rc_order c) <= RECENT_CACHE_CAP;
  ro_ids : forall id p t, rc_map c !! id = Some (p, t) -> id = packet_id p /\ 0 <= t <= now;
  ro_sorted : StronglySorted Z.le (map (stored_at (rc_map c)) (rc_order c))
}.

Lemma recent_new_ok now : recent_ok recent_new now.
Proof.
  constructor; simpl; [apply NoDup_nil_2 | set_solver | vm_compute; congruence | | constructor].
  intros id p t H. now rewrite lookup_empty in H.
Qed.

Lemma recent_ok_later c now now' : recent_ok c now -> now <= now' -> recent_ok c now'.
Proof.
  intros [H1 H2 H3 H4 H5] Hle. constructor; auto.
  intros id p t H. destruct (H4 id p t H). split; [assumption | lia].
Qed.

Lemma recent_order_some c now id :
  recent_ok c now -> id ∈ rc_order c -> exists p t, rc_map c !! id = Some (p, t).
Proof.
  intros Hok Hin. assert (Hd : id ∈ dom (rc_map c)) by (rewrite (ro_dom _ _ Hok), elem_of_list_to_set; exact Hin).
  apply elem_of_dom in Hd as [[p t] E]. eauto.
Qed.

Lemma recent_size c now : recent_ok c now -> Z.of_nat (size (rc_map c)) = len (rc_order c).
Proof.
  intros Hok. rewrite <- size_dom, (ro_dom _ _ Hok), size_list_to_set by apply (ro_nodup _ _ Hok).
  reflexivity.
Qed.

(** Deleting the front keeps the order of the rest. *)
Lemma recent_pop_ok m front rest now :
  recent_ok (mkRecent m (front :: rest)) now -> recent_ok (mkRecent (delete front m) rest) now.
Proof.
  intros [H1 H2 H3 H4 H5]. simpl in *. inversion H1 as [|? ? Hnf Hnd]; subst.
  inversion H5 as [|? ? Hs _]; subst.
  assert (Hst : map (stored_at (delete front m)) rest = map (stored_at m) rest).
  { apply map_ext_in. intros id Hid%list_elem_of_In. unfold stored_at.
    rewrite lookup_delete_ne; [reflexivity|]. intros ->. contradiction. }
  constructor; simpl.
  - exact Hnd.
  - rewrite dom_delete_L, H2. apply set_eq. intros x. clear - Hnf.
    rewrite elem_of_difference, elem_of_union, !elem_of_singleton, !elem_of_list_to_set.
    split; [tauto|]. intros Hx. split; [tauto | congruence].
  - rewrite len_cons in H3. lia.
  - intros id p t [_ E]%lookup_delete_Some. eauto.
  - now rewrite Hst.
Qed.

(** What [gc] keeps: a tail of the queue with everything in it live. *)
Lemma recent_gc_spec order : forall m now,
  recent_ok (mkRecent m order) now ->
  let c := recent_gc_loop m order now in
  recent_ok c now
  /\ (forall id p t, rc_map c !! id = Some (p, t)
        <-> m !! id = Some (p, t) /\ now - t <= RECENT_RETENTION_MS)
  /\ exists k, rc_order c = drop k order.
Proof.
  induction order as [|front rest IH]; intros m now Hok; simpl.
  - split_and!; [exact Hok | | exists 0%nat; reflexivity]. intros id p t. split; [|tauto].
    intros E. assert (Hd : id ∈ dom m) by (apply elem_of_dom; eauto).
    pose proof (ro_dom _ _ Hok) as Hdm. simpl in Hdm. rewrite Hdm in Hd. set_solver.
  - destruct (recent_order_some _ _ front Hok) as (p0 & t0 & E0); [apply list_elem_of_here|].
    simpl in E0. rewrite E0. destruct (ro_ids _ _ Hok front p0 t0 E0) as [_ Ht0].
    replace (sat_sub now t0) with (now - t0) by (unfold sat_sub; lia).
    destruct (Z.gtb_spec (now - t0) RECENT_RETENTION_MS) as [Hold|Hlive].
    + destruct (IH (delete front m) now (recent_pop_ok _ _ _ _ Hok)) as (Hok' & Hmap & k & Hk).
      split_and!; [exact Hok' | | exists (S k); exact Hk].
      intros id p t. rewrite Hmap. split.
      * intros [[_ E]%lookup_delete_Some Hl]. auto.
      * intros [E Hl]. split; [|exact Hl]. apply lookup_delete_Some. split; [|exact E].
        intros <-. simplify_eq. lia.
    + split_and!; [exact Hok | | exists 0%nat; reflexivity]. intros id p t. split; [|tauto].
      intros E. split; [exact E|]. simpl in E.
      assert (Hin : id ∈ front :: rest).
      { assert (Hd : id ∈ dom m) by (apply elem_of_dom; eauto).
        pose proof (ro_dom _ _ Hok) as Hdm. simpl rc_map in Hdm. simpl rc_order in Hdm.
        rewrite Hdm, elem_of_list_to_set in Hd. exact Hd. }
      apply elem_of_cons in Hin as [->|Hin]; [simplify_eq; lia|].
      pose proof (ro_sorted _ _ Hok) as Hs. inversion Hs as [|? ? _ Hall]; subst.
      rewrite Forall_forall in Hall. specialize (Hall (stored_at m id)).
      assert (Hm : stored_at m id ∈ map (stored_at m) rest) by (apply list_elem_of_fmap; eauto).
      specialize (Hall Hm). unfold stored_at in Hall. rewrite E0, E in Hall. lia.
Qed.

Lemma recent_gc_ok c now : recent_ok c now -> recent_ok (recent_gc c now) now.
Proof. intros Hok. destruct c as [m o]. apply (recent_gc_spec o m now Hok). Qed.

Lemma recent_gc_lookup c now id p t :
  recent_ok c now ->
  rc_map (recent_gc c now) !! id = Some (p, t)
  <-> rc_map c !! id = Some (p, t) /\ now - t <= RECENT_RETENTION_MS.
Proof. intros Hok. destruct c as [m o]. apply (recent_gc_spec o m now Hok). Qed.

(** Storing a fresh packet at the back of a cache with room. *)
Lemma recent_push_ok m order p now :
  recent_ok (mkRecent m order) now -> 0 <= now -> len order + 1 <= RECENT_CACHE_CAP ->
  m !! packet_id p = None ->
  recent_ok (mkRecent (<[ packet_id p := (p, now) ]> m) (order ++ [packet_id p])) now.
Proof.
  intros [H1 H2 H3 H4 H5] Hnow Hlen Hid. cbn [rc_map rc_order] in *.
  remember (packet_id p) as id eqn:Eid.
  assert (Hni : id ∉ order).
  { intros Hin. assert (Hd : id ∈ dom m) by (rewrite H2, elem_of_list_to_set; exact Hin).
    apply elem_of_dom in Hd as [x Hx]. congruence. }
  assert (Hst : map (stored_at (<[ id := (p, now) ]> m)) order = map (stored_at m) order).
  { apply map_ext_in. intros i Hi%list_elem_of_In. unfold stored_at.
    rewrite lookup_insert_ne; [reflexivity|]. intros ->. contradiction. }
  constructor; cbn [rc_map rc_order].
  - apply NoDup_app. split_and!; [exact H1 | | apply NoDup_singleton].
    intros x Hx ->%list_elem_of_singleton. contradiction.
  - rewrite dom_insert_L, H2, list_to_set_app_L. simpl. rewrite (right_id_L ∅ (∪)). apply (comm_L (∪)).
  - rewrite len_app. change (len [id]) with 1. lia.
  - intros i q t E. destruct (decide (id = i)) as [<-|Hne].
    + rewrite lookup_insert_eq in E. simplify_eq. split; [reflexivity | lia].
    + rewrite lookup_insert_ne in E by exact Hne. eauto.
  - rewrite map_app, Hst. simpl. unfold stored_at at 2. rewrite lookup_insert_eq.
    assert (Hle : Forall (fun t => t <= now) (map (stored_at m) order)).
    { apply Forall_map, Forall_forall. intros i Hi. unfold stored_at.
      destruct (m !! i) as [[q t]|] eqn:E; simpl; [apply (H4 i q t E) | lia]. }
    clear - H5 Hle. induction H5 as [|t l Hs IH Hall]; simpl; [repeat constructor|].
    inversion Hle; subst. constructor; [auto|]. apply Forall_app. split; [exact Hall|].
    repeat constructor. assumption.
Qed.

Lemma recent_insert_ok c p now :
  recent_ok c now -> 0 <= now -> recent_ok (recent_insert c (packet_id p) p now).1 now.
Proof.
  intros Hok Hnow. apply recent_gc_ok in Hok. unfold recent_insert.
  destruct (recent_gc c now) as [m o]. cbn [rc_map rc_order].
  destruct (bool_decide_reflect (is_Some (m !! packet_id p))) as [Hs|Hn]; [exact Hok|].
  apply eq_None_not_Some in Hn.
  pose proof (recent_size _ _ Hok) as Hsz. simpl in Hsz. pose proof (ro_len _ _ Hok) as Hl. simpl in Hl.
  destruct (Z.geb_spec (Z.of_nat (size m)) RECENT_CACHE_CAP) as [Hfull|Hroom].
  - destruct o as [|old rest]; [unfold len, RECENT_CACHE_CAP in *; simpl in *; lia|].
    apply recent_push_ok; [now apply recent_pop_ok | exact Hnow | rewrite len_cons in Hl; lia |].
    apply lookup_delete_None. auto.
  - apply recent_push_ok; auto. lia.
Qed.

(** A packet that was stored is there, unless its id was there before. *)
Lemma recent_insert_fresh c p now :
  (recent_insert c (packet_id p) p now).2 = true ->
  rc_map (recent_insert c (packet_id p) p now).1 !! packet_id p = Some (p, now).
Proof. unfold recent_insert. repeat case_goal; try discriminate; intros _; apply lookup_insert_eq. Qed.

(** What a cache answers to a filter, and where the answer comes from. *)
Lemma missing_spec c f now :
  recent_ok c now ->
  let '(reply, _) := missing c f now in
  (forall p, p ∈ reply <->
     exists t, rc_map c !! packet_id p = Some (p, t) /\ now - t <= RECENT_RETENTION_MS
               /\ gcs_contains f (packet_id p) = false)
  /\ len reply <= RECENT_CACHE_CAP
  /\ NoDup (map packet_id reply).
Proof.
  intros Hok. unfold missing. pose proof (recent_gc_ok _ _ Hok) as Hok'.
  pose proof (recent_gc_lookup c now) as Hmap. set (c' := recent_gc c now) in *. clearbody c'.
  assert (Hids : forall l, (forall id, id ∈ l -> id ∈ rc_order c') ->
            map packet_id (omap (fun id => fst <$> rc_map c' !! id) l) = l).
  { induction l as [|id l IH]; intros Hl; [reflexivity|]. simpl.
    destruct (recent_order_some _ _ id Hok' (Hl id (list_elem_of_here _ _))) as (p & t & E).
    rewrite E. simpl. f_equal; [symmetry; apply (ro_ids _ _ Hok' _ _ _ E)|].
    apply IH. intros; apply Hl; now right. }
  set (l := filter _ (rc_order c')).
  assert (Hl : forall id, id ∈ l -> id ∈ rc_order c') by (intros id; unfold l; rewrite list_elem_of_filter; tauto).
  split_and!.
  - intros p. rewrite list_elem_of_omap. split.
    + intros (id & Hid & E). unfold l in Hid. apply list_elem_of_filter in Hid as [Hc Hin].
      apply fmap_Some in E as ([q t] & E & ->). simpl.
      destruct (ro_ids _ _ Hok' _ _ _ E) as [-> _]. apply Hmap in E as [E Hlive]; [|exact Hok].
      exists t. split_and!; auto. now destruct (gcs_contains f (packet_id q)).
    + intros (t & E & Hlive & Hc). exists (packet_id p). pose proof (proj2 (Hmap (packet_id p) p t Hok) (conj E Hlive)) as E'.
      rewrite E'. split; [|reflexivity]. unfold l. apply list_elem_of_filter. rewrite Hc. split; [reflexivity|].
      assert (Hd : packet_id p ∈ dom (rc_map c')) by (apply elem_of_dom; eauto).
      now rewrite (ro_dom _ _ Hok'), elem_of_list_to_set in Hd.
  - pose proof (f_equal length (Hids l Hl)) as E. rewrite length_map in E. unfold len. rewrite E.
    unfold l. pose proof (length_filter (fun id => negb (gcs_contains f id) = true) (rc_order c')).
    pose proof (ro_len _ _ Hok'). unfold len in *. lia.
  - rewrite (Hids l Hl). unfold l. apply NoDup_filter, (ro_nodup _ _ Hok').
Qed.

(** ** Properties *)

(** The cache after storing packets at the given times. *)
Definition remember_all (l : list (Packet * Z)) : RecentCache :=
  foldl (fun c e => (recent_insert c (packet_id e.1) e.1 e.2).1) recent_new l.

(** Times that do not go back, from [t0] to at most [now]. *)
Fixpoint clock_ok (t0 : Z) (l : list (Packet * Z)) (now : Z) : Prop :=
  match l with
  | [] => t0 <= now
  | (_, t) :: l => t0 <= t /\ clock_ok t l now
  end.

Lemma clock_ok_le l : forall t0 now, clock_ok t0 l now -> t0 <= now.
Proof. induction l as [|[p t] l IH]; simpl; intros t0 now H; [exact H|]. destruct H as [? H%IH]. lia. Qed.

Lemma remember_all_ok l now : clock_ok 0 l now -> recent_ok (remember_all l) now.
Proof.
  unfold remember_all. intros Hc. pose proof (recent_new_ok 0) as Hok. revert Hok Hc.
  assert (H0 : 0 <= 0) by lia. revert H0. generalize 0 at 2 3 4. generalize recent_new.
  induction l as [|[p t] l IH]; intros c t0 H0 Hok Hc; simpl in *.
  - now apply (recent_ok_later c t0).
  - destruct Hc as [Ht Hc]. apply (IH _ t); [lia | | exact Hc].
    apply recent_insert_ok; [now apply (recent_ok_later c t0) | lia].
Qed.

(** A packet the cache holds and would still serve. *)
Definition holds_live (c : RecentCache) (p : Packet) (now : Z) : Prop :=
  exists t, rc_map c !! packet_id p = Some (p, t) /\ now - t <= RECENT_RETENTION_MS.

(** A round of gossip sync.  Two nodes have stored any packets at any
    times.  The filter the first one advertises fits the byte budget and is
    rebuilt from its bytes; the second one answers with exactly the packets it
    holds within the retention time that the filter does not cover, each once
    and at most 1,000 of them; and none of them is among the packets the first
    one advertised, which are all it holds when it holds at most 360. *)
Theorem gossip_sync (sa sb : list (Packet * Z)) (now_a now_b : Z)
    (Ha : clock_ok 0 sa now_a) (Hb : clock_ok 0 sb now_b) :
  let a := remember_all sa in
  let b := remember_all sb in
  let wire := gcs_to_bytes (build_filter a now_a).1 in
  let ads := (advertise_ids a now_a).1 in
  len wire <= GCS_MAX_BYTES
  /\ (len (rc_order (recent_gc a now_a)) <= GCS_MAX_ITEMS ->
        forall p, holds_live a p now_a -> packet_id p ∈ ads)
  /\ exists f, gcs_from_bytes wire = Some f
     /\ let reply := (missing b f now_b).1 in
        (forall p, p ∈ reply <-> holds_live b p now_b /\ gcs_contains f (packet_id p) = false)
        /\ (forall p, p ∈ reply -> packet_id p ∉ ads)
        /\ NoDup (map packet_id reply) /\ len reply <= RECENT_CACHE_CAP.
Proof.
  intros a b wire ads. pose proof (remember_all_ok _ _ Ha) as Hoka. pose proof (remember_all_ok _ _ Hb) as Hokb.
  fold a in Hoka. fold b in Hokb. clearbody a b.
  assert (Hads : len ads <= GCS_MAX_ITEMS).
  { unfold ads, advertise_ids, len, GCS_MAX_ITEMS. cbn [fst]. rewrite length_take. lia. }
  assert (Hw : wire = gcs_to_bytes (gcs_build ads)) by reflexivity. clearbody wire. subst wire.
  split_and!.
  - destruct (gcs_size_bound ads Hads) as [E H]. rewrite E. unfold GCS_MAX_BYTES. lia.
  - intros Hfew p (t & E & Hl). unfold ads, advertise_ids. cbn [fst].
    rewrite take_ge by (rewrite length_reverse; unfold len, GCS_MAX_ITEMS in *; lia).
    apply elem_of_reverse. pose proof (recent_gc_ok _ _ Hoka) as Hok'.
    assert (Hd : packet_id p ∈ dom (rc_map (recent_gc a now_a))).
    { apply elem_of_dom. exists (p, t). now apply recent_gc_lookup. }
    now rewrite (ro_dom _ _ Hok'), elem_of_list_to_set in Hd.
  - exists (gcs_build ads). split; [apply gcs_wire; unfold GCS_MAX_ITEMS in *; lia|].
    pose proof (missing_spec b (gcs_build ads) now_b Hokb) as Hm.
    destruct (missing b (gcs_build ads) now_b) as [reply c]. cbn [fst]. destruct Hm as (Hm & Hl & Hn).
    assert (Hiff : forall p, p ∈ reply <-> holds_live b p now_b /\ gcs_contains (gcs_build ads) (packet_id p) = false).
    { intros p. rewrite Hm. unfold holds_live. split; [intros (t & ? & ? & ?) | intros [(t & ? & ?) ?]]; eauto. }
    split_and!; auto. intros p [_ Hp]%Hiff Hin.
    rewrite gcs_contains_build in Hp; [discriminate | unfold GCS_MAX_ITEMS in *; lia | exact Hin].
Qed.

Lemma gossip_sync_witness :
  let pkt i := packet_new MtNimiqTx (replicate 8 i) [i] in
  (** the requester has the first packet, the peer both *)
  let a := remember_all [(pkt 1, 10)] in
  let b := remember_all [(pkt 1, 10); (pkt 2, 20)] in
  exists f, gcs_from_bytes (gcs_to_bytes (build_filter a 30).1) = Some f
            /\ forall p, p ∈ (missing b f 30).1 -> packet_id p ∉ (advertise_ids a 30).1.
Proof.
  intros pkt a b.
  assert (Ha : clock_ok 0 [(pkt 1, 10)] 30) by (simpl; lia).
  assert (Hb : clock_ok 0 [(pkt 1, 10); (pkt 2, 20)] 30) by (simpl; lia).
  destruct (gossip_sync [(pkt 1, 10)] [(pkt 1, 10); (pkt 2, 20)] 30 30 Ha Hb)
    as (_ & _ & f & Hf & _ & Hr & _).
  exists f. split; [exact Hf | exact Hr].
Defined.
