(* ===== verification/Beacon.v ===== *)
(** * Beacon: head beacons, the validity window and reachability
    ([beacon.rs], [reachability.rs])

    A gateway floods the chain head it sees; every node keeps the freshest one
    and judges by it whether a transaction can still be included.  The engine
    handlers of [beacon.rs] are in [Engine]. *)

From stdpp Require Import base list.
From Stdlib Require Import ZArith Lia.
From S2P Require Import Prelude Packet Envelope Reader.
Open Scope Z_scope.

Definition VALIDITY_WINDOW : Z := 7200.
Definition BLOCK_HASH_LEN : Z := 32.
Definition BEACON_PAYLOAD_LEN : Z := 4 + BLOCK_HASH_LEN + 1.
Definition BEACON_TICK_MS : Z := 10000.
Definition BEACON_RPC_BACKOFF_TICKS : Z := 5.

Record HeadBeacon : Type := mkBeacon { hb_height : Z; hb_block_hash : bytes; hb_network_id : Z }.

#[export] Instance HeadBeacon_eq_dec : EqDecision HeadBeacon.
Proof. solve_decision. Defined.

Definition beacon_new (height network_id : Z) : HeadBeacon := mkBeacon height (replicate 32 0) network_id.

Definition beacon_valid_until (b : HeadBeacon) : Z := sat_add 32 (hb_height b) VALIDITY_WINDOW.

(** Pick the beacon of this tick.  [live] is the probe of the uplink, made at
    most once; the flag says whether it was made. *)
Definition select_beacon (live : unit -> option HeadBeacon) (last : option HeadBeacon) (backoff : Z)
  : option HeadBeacon * option HeadBeacon * Z * bool :=
  if backoff =? 0 then
    match live tt with
    | Some b => (Some b, Some b, backoff, true)
    | None => (last, last, BEACON_RPC_BACKOFF_TICKS, true)
    end
  else (last, last, backoff - 1, false).

(** ** The payload *)

Definition encode_beacon (b : HeadBeacon) : bytes :=
  be_bytes 4 (hb_height b) ++ hb_block_hash b ++ [hb_network_id b].

Definition decode_beacon (payload : bytes) : res unit (option HeadBeacon) :=
  if negb (len payload =? BEACON_PAYLOAD_LEN) then Ok None else
  let? p0 := idx payload 0 in
  let? p1 := idx payload 1 in
  let? p2 := idx payload 2 in
  let? p3 := idx payload 3 in
  let? block_hash := slice payload 4 (4 + BLOCK_HASH_LEN) in
  let? network_id := idx payload (BEACON_PAYLOAD_LEN - 1) in
  Ok (Some (mkBeacon (from_be [p0; p1; p2; p3]) block_hash network_id)).

Definition is_expired (head valid_until : option Z) : bool :=
  match head, valid_until with
  | Some h, Some vu => h >=? vu
  | _, _ => false
  end.

(** ** The head a node goes by *)

Record HeadCache : Type := mkHeadCache { hc_network_id : Z; hc_latest : option HeadBeacon }.

Definition head_cache_new (network_id : Z) : HeadCache := mkHeadCache network_id None.

Definition head_accept (c : HeadCache) (b : HeadBeacon) : HeadCache * bool :=
  if negb (hb_network_id b =? hc_network_id c) then (c, false) else
  match hc_latest c with
  | Some l => if hb_height b <=? hb_height l then (c, false)
              else (mkHeadCache (hc_network_id c) (Some b), true)
  | None => (mkHeadCache (hc_network_id c) (Some b), true)
  end.

Definition head_latest (c : HeadCache) : option Z := hb_height <$> hc_latest c.

Definition head_valid_until (c : HeadCache) : option Z :=
  (fun h => sat_add 32 h VALIDITY_WINDOW) <$> head_latest c.

Definition BeaconScheduler : Type := option Z.

Definition beacon_due (last_ms : BeaconScheduler) (now_ms : Z) : bool * BeaconScheduler :=
  match last_ms with
  | Some t => if sat_sub now_ms t <? BEACON_TICK_MS then (false, last_ms) else (true, Some now_ms)
  | None => (true, Some now_ms)
  end.

(** [decode_envelope(..).ok()?.valid_until]: a panic of the decoder would be one here. *)
Definition tx_valid_until (p : Packet) : option Z :=
  match decode_envelope (payload p) with Ok env => valid_until env | _ => None end.

(** ** Reachability *)

Definition ALBATROSS_BLOCK_SECS : Z := 1.
Definition RESIGN_THRESHOLD_BLOCKS : Z := 600.

Inductive Reachability : Type := Online | Meshed | Offline.

Definition assess_reachability (self_is_gateway : bool) (peer_count : Z) (heard_gateway : bool)
  : Reachability :=
  if self_is_gateway || ((peer_count >? 0) && heard_gateway) then Online
  else if peer_count >? 0 then Meshed
  else Offline.

Definition blocks_until_expiry (head valid_until : option Z) : option Z :=
  head ← head; valid_until ← valid_until; Some (sat_sub valid_until head).

(** [saturating_mul] on a [u32] *)
Definition secs_until_expiry (head valid_until : option Z) : option Z :=
  (fun b => Z.min (2 ^ 32 - 1) (b * ALBATROSS_BLOCK_SECS)) <$> blocks_until_expiry head valid_until.

Definition needs_resign (head valid_until : option Z) : bool :=
  match blocks_until_expiry head valid_until with
  | Some blocks => (blocks >? 0) && (blocks <=? RESIGN_THRESHOLD_BLOCKS)
  | None => false
  end.

(** ** Lemmas *)

Record beacon_ok (b : HeadBeacon) : Prop := {
  bo_height : uN 32 (hb_height b);
  bo_hash : array_ok 32 (hb_block_hash b);
  bo_net : uN 8 (hb_network_id b)
}.

(** A payload of the exact length is taken apart field by field. *)
Lemma decode_encode_beacon b : beacon_ok b -> decode_beacon (encode_beacon b) = Ok (Some b).
Proof.
  intros [Hh [Hl _] _]. destruct b as [h bh n]. cbn [hb_height hb_block_hash hb_network_id] in *.
  unfold decode_beacon, encode_beacon. cbn [hb_height hb_block_hash hb_network_id].
  assert (Hlen : len (be_bytes 4 h ++ bh ++ [n]) = BEACON_PAYLOAD_LEN).
  { rewrite !len_app, len_be_bytes, Hl. reflexivity. }
  rewrite Hlen, Z.eqb_refl. cbn [negb].
  pose proof (from_be_be_bytes 4 h Hh) as E.
  rewrite (slice_at _ (be_bytes 4 h) bh [n]); [|reflexivity | now rewrite len_be_bytes | rewrite Hl; reflexivity].
  rewrite (idx_at _ (be_bytes 4 h ++ bh) n [] (BEACON_PAYLOAD_LEN - 1));
    [|now rewrite <- app_assoc | rewrite len_app, len_be_bytes, Hl; reflexivity].
  cbn [be_bytes app] in E |- *. unfold idx. simpl. rewrite E. reflexivity.
Qed.

Lemma decode_beacon_inv b x :
  bytes_ok b -> decode_beacon b = Ok (Some x) -> b = encode_beacon x /\ beacon_ok x.
Proof.
  intros Hb H. unfold decode_beacon in H. run H.
  destruct b as [|b0 [|b1 [|b2 [|b3 rest]]]]; try (unfold idx in *; simpl in *; discriminate).
  rename select (idx _ (BEACON_PAYLOAD_LEN - 1) = _) into Hn.
  rename select (slice _ _ _ = _) into Hs.
  assert (Hl := slice_len _ _ _ _ Hs). assert (Hbh := bytes_ok_slice _ _ _ _ Hb Hs).
  assert (Hnb := idx_byte _ _ _ Hb Hn).
  unfold idx in E0, E1, E2, E3. simpl in E0, E1, E2, E3. simplify_eq.
  apply slice_drop in Hs. apply idx_drop in Hn.
  change (Z.to_nat (BEACON_PAYLOAD_LEN - 1)) with (Z.to_nat (4 + BLOCK_HASH_LEN)) in Hn.
  rewrite Hn, (drop_ge _ (Z.to_nat (BEACON_PAYLOAD_LEN - 1 + 1))) in Hs
    by (unfold len, BEACON_PAYLOAD_LEN, BLOCK_HASH_LEN in *; lia).
  simpl in Hs. rewrite drop_0 in Hs. rewrite Hs in *.
  pose proof (be_bytes_from_be [a; a0; a1; a2]) as Ehd.
  assert (Hhd : bytes_ok [a; a0; a1; a2]).
  { change (bytes_ok ([a; a0; a1; a2] ++ (a3 ++ [a4]))) in Hb. now apply bytes_ok_app in Hb as [? _]. }
  split.
  - unfold encode_beacon. cbn [hb_height hb_block_hash hb_network_id].
    change 4%nat with (length [a; a0; a1; a2]). rewrite Ehd by exact Hhd. reflexivity.
  - constructor; cbn [hb_height hb_block_hash hb_network_id]; [|split; [exact Hl | exact Hbh]|exact Hnb].
    apply (from_be_bound _ Hhd).
Qed.

Lemma decode_beacon_total b : decode_beacon b <> Panic.
Proof.
  unfold decode_beacon. destruct (Z.eqb_spec (len b) BEACON_PAYLOAD_LEN) as [Hl|]; simpl; [|discriminate].
  unfold BEACON_PAYLOAD_LEN, BLOCK_HASH_LEN in *. repeat mem_case. discriminate.
Qed.

(** *** The head only advances *)

Definition hear (c : HeadCache) (bs : list HeadBeacon) : HeadCache :=
  foldl (fun c b => (head_accept c b).1) c bs.

Lemma head_accept_net c b : hc_network_id (head_accept c b).1 = hc_network_id c.
Proof. unfold head_accept. repeat case_goal; reflexivity. Qed.

Lemma hear_net bs : forall c, hc_network_id (hear c bs) = hc_network_id c.
Proof. induction bs as [|b bs IH]; intros c; simpl; [reflexivity|]. unfold hear in *. now rewrite IH, head_accept_net. Qed.

(** The cached head is a freshest one of the beacons [heard] on the network. *)
Definition freshest (c : HeadCache) (heard : list HeadBeacon) : Prop :=
  match hc_latest c with
  | None => forall b, b ∈ heard -> hb_network_id b <> hc_network_id c
  | Some l => l ∈ heard /\ hb_network_id l = hc_network_id c
              /\ forall b, b ∈ heard -> hb_network_id b = hc_network_id c -> hb_height b <= hb_height l
  end.

Lemma head_accept_freshest c b heard :
  freshest c heard -> freshest (head_accept c b).1 (heard ++ [b]).
Proof.
  unfold freshest. intros H. rewrite head_accept_net. unfold head_accept.
  destruct (Z.eqb_spec (hb_network_id b) (hc_network_id c)) as [Hn|Hn]; simpl.
  - destruct (hc_latest c) as [l|] eqn:El.
    + destruct H as (Hin & Hnl & Hmax).
      destruct (Z.leb_spec (hb_height b) (hb_height l)); simpl; rewrite ?El.
      * split_and!; auto; [apply elem_of_app; auto|]. intros x Hx Hxn.
        apply elem_of_app in Hx as [Hx|Hx%list_elem_of_singleton]; [auto | subst; lia].
      * split_and!; auto; [apply elem_of_app; right; apply list_elem_of_singleton; reflexivity|].
        intros x Hx Hxn. apply elem_of_app in Hx as [Hx|Hx%list_elem_of_singleton]; [|subst; lia].
        specialize (Hmax x Hx Hxn). lia.
    + simpl. split_and!; auto; [apply elem_of_app; right; apply list_elem_of_singleton; reflexivity|].
      intros x Hx Hxn. apply elem_of_app in Hx as [Hx|Hx%list_elem_of_singleton]; [|subst; lia].
      now destruct (H x Hx).
  - destruct (hc_latest c) as [l|] eqn:El.
    + destruct H as (Hin & Hnl & Hmax). split_and!; auto; [apply elem_of_app; auto|].
      intros x Hx Hxn. apply elem_of_app in Hx as [Hx|Hx%list_elem_of_singleton]; [auto | congruence].
    + intros x Hx. apply elem_of_app in Hx as [Hx|Hx%list_elem_of_singleton]; [auto | congruence].
Qed.

Lemma hear_freshest bs : forall c heard, freshest c heard -> freshest (hear c bs) (heard ++ bs).
Proof.
  induction bs as [|b bs IH]; intros c heard H; simpl; [now rewrite app_nil_r|].
  rewrite (cons_middle b heard bs), app_assoc. apply IH. now apply head_accept_freshest.
Qed.

Lemma head_accept_mono c b h :
  head_latest c = Some h -> exists h', head_latest (head_accept c b).1 = Some h' /\ h <= h'.
Proof.
  unfold head_latest, head_accept. destruct (hc_latest c) as [l|] eqn:El; simpl; intros; simplify_eq.
  destruct (negb _); simpl; [rewrite El; simpl; eauto with lia|].
  destruct (Z.leb_spec (hb_height b) (hb_height l)); simpl; [rewrite El|]; simpl; eauto with lia.
Qed.

Lemma is_expired_mono h h' vu : h <= h' -> is_expired (Some h) vu = true -> is_expired (Some h') vu = true.
Proof. destruct vu; simpl; [|discriminate]. intros. apply Z.geb_le. bool_prop. lia. Qed.

Lemma hear_expired bs : forall c vu,
  is_expired (head_latest c) vu = true -> is_expired (head_latest (hear c bs)) vu = true.
Proof.
  induction bs as [|b bs IH]; intros c vu H; simpl; [exact H|]. apply IH.
  destruct (head_latest c) as [h|] eqn:E; [|discriminate].
  destruct (head_accept_mono c b h E) as (h' & -> & Hle). eauto using is_expired_mono.
Qed.

(** *** The uplink is probed at most once in six ticks while it is down *)

Fixpoint beacon_ticks (live : nat -> option HeadBeacon) (last : option HeadBeacon) (backoff : Z) (n : nat)
  : list bool :=
  match n with
  | O => []
  | S n =>
      let '(_, last, backoff, probed) := select_beacon (fun _ => live n) last backoff in
      probed :: beacon_ticks live last backoff n
  end.

Lemma beacon_backoff_down last :
  beacon_ticks (fun _ => None) last 0 12
  = [true; false; false; false; false; false; true; false; false; false; false; false].
Proof. reflexivity. Qed.

(** ** Properties *)

(** The head a node goes by is the freshest it has heard.  After any
    sequence of beacons, hostile ones included, the cached head is one of the
    beacons heard for the node's own network, at least as high as every other
    one of that network, and there is none only if none was heard; and a
    transaction judged expired is never judged live again, whatever beacons
    come later. *)
Theorem head_cache_freshest (network : Z) (bs more : list HeadBeacon) (vu : option Z) :
  let c := hear (head_cache_new network) bs in
  match hc_latest c with
  | None => forall b, b ∈ bs -> hb_network_id b <> network
  | Some l => l ∈ bs /\ hb_network_id l = network
              /\ forall b, b ∈ bs -> hb_network_id b = network -> hb_height b <= hb_height l
  end
  /\ (is_expired (head_latest c) vu = true -> is_expired (head_latest (hear c more)) vu = true).
Proof.
  intros c. split; [|apply hear_expired].
  assert (H0 : freshest (head_cache_new network) []) by (intros b Hb; now apply not_elem_of_nil in Hb).
  pose proof (hear_freshest bs _ _ H0) as H. unfold freshest in H. rewrite hear_net in H. exact H.
Qed.

Lemma head_cache_freshest_witness :
  is_expired (head_latest (hear (hear (head_cache_new 5) [beacon_new 10 5; beacon_new 99 24; beacon_new 8000 5])
                             [beacon_new 7 5])) (Some 7210) = true.
Proof.
  apply (head_cache_freshest 5 [beacon_new 10 5; beacon_new 99 24; beacon_new 8000 5]
           [beacon_new 7 5] (Some 7210)). reflexivity.
Defined.
