(* ===== verification/Settlement.v ===== *)
(** * Settlement: transaction ids, receipts, the payment ledger and the retries
    of a node's own payments ([transport.rs], [gateway.rs], [settlement.rs],
    [pending_retry.rs])

    The ledger's condition variable only wakes a waiting caller; the map it
    guards is the state.  A [TxId] is its 32 bytes. *)

From stdpp Require Import base list gmap.
From Stdlib Require Import ZArith Lia.
From S2P Require Import Prelude Packet Envelope StoreForward Beacon.
Open Scope Z_scope.

(** ** Transaction ids *)

(** The four output words: each multiplies and mixes in its number. *)
Fixpoint tx_id_words (h : Z) (chunk : Z) (n : nat) : bytes :=
  match n with
  | O => []
  | S n => let h := Z.lxor (wrapN 64 (h * FNV_PRIME)) (chunk + 1) in
           be_bytes 8 h ++ tx_id_words h (chunk + 1) n
  end.

Definition mock_tx_id (payload : bytes) : bytes :=
  let h := foldl fnv_mix FNV_OFFSET payload in
  let h := fnv_mix h (wrapN 64 (len payload)) in
  tx_id_words h 0 4.

#[global] Opaque mock_tx_id.

(** ** Receipts *)

Inductive ReceiptStatus : Type := RAccepted | RExpired | RFailed.

#[export] Instance ReceiptStatus_eq_dec : EqDecision ReceiptStatus.
Proof. solve_decision. Defined.

Definition receipt_code (s : ReceiptStatus) : Z :=
  match s with RAccepted => 0 | RExpired => 1 | RFailed => 2 end.

Definition receipt_from_code (code : Z) : ReceiptStatus :=
  match code with 1 => RExpired | 2 => RFailed | _ => RAccepted end.

Definition RECEIPT_PAYLOAD_LEN : Z := 33.

Definition encode_receipt (tx_id : bytes) (status : ReceiptStatus) : bytes :=
  tx_id ++ [receipt_code status].

Definition decode_receipt (payload : bytes) : res unit (option (bytes * ReceiptStatus)) :=
  if negb (len payload =? RECEIPT_PAYLOAD_LEN) then Ok None else
  let? id := slice payload 0 32 in
  let? code := idx payload 32 in
  Ok (Some (id, receipt_from_code code)).

(** ** The ledger *)

Inductive PaymentStatus : Type := Pending | Settled | Failed.

#[export] Instance PaymentStatus_eq_dec : EqDecision PaymentStatus.
Proof. solve_decision. Defined.

Inductive SettlementDirection : Type := Outgoing | Incoming.

Record Settlement : Type := mkSettlement { se_status : PaymentStatus; se_direction : SettlementDirection }.

Abbreviation SettlementLedger := (gmap (list Z) Settlement).

Definition ledger_record (l : SettlementLedger) (tx_id : bytes) (d : SettlementDirection)
  : SettlementLedger :=
  match l !! tx_id with Some _ => l | None => <[ tx_id := mkSettlement Pending d ]> l end.

Definition ledger_settle (l : SettlementLedger) (tx_id : bytes) (status : PaymentStatus)
  : SettlementLedger :=
  match l !! tx_id with
  | Some t => match se_status t with
              | Pending => <[ tx_id := mkSettlement status (se_direction t) ]> l
              | _ => l
              end
  | None => l
  end.

Definition ledger_status (l : SettlementLedger) (tx_id : bytes) : PaymentStatus :=
  match l !! tx_id with Some t => se_status t | None => Pending end.

Definition ledger_settlement (l : SettlementLedger) (tx_id : bytes) : option Settlement := l !! tx_id.

(** The status a receipt settles a payment with ([handle_receipt]). *)
Definition payment_status (s : ReceiptStatus) : PaymentStatus :=
  match s with RAccepted => Settled | _ => Failed end.

(** ** Retries of the node's own payments *)

Definition MAX_PENDING : Z := 16.
Definition RETRY_MS : Z := 15000.
Definition RETRY_WALL_MS : Z := 2 * 60 * 60 * 1000.

Record PendingTx : Type := mkPendingTx {
  pd_tx_id : bytes;
  pd_bytes : bytes;
  pd_valid_until : option Z;
  pd_created_ms : Z;
  pd_last_flood_ms : option Z
}.

Abbreviation PendingRetry := (list PendingTx).

Definition pending_clear (p : PendingRetry) (tx_id : bytes) : PendingRetry :=
  filter (fun e => pd_tx_id e <> tx_id) p.

Definition pending_remember (p : PendingRetry) (tx_id b : bytes) (valid_until : option Z)
    (now_ms : Z) (delivered_to_someone : bool) : PendingRetry :=
  let p := filter (fun e => pd_tx_id e <> tx_id) p in
  let p := if len p >=? MAX_PENDING then drop 1 p else p in
  p ++ [mkPendingTx tx_id b valid_until now_ms (if delivered_to_someone then Some now_ms else None)].

(** The test of the [retain] of [tick]. *)
Definition pending_dead (head : option Z) (now : Z) (e : PendingTx) : bool :=
  match pd_valid_until e with
  | Some vu => is_expired head (Some vu)
  | None => sat_sub now (pd_created_ms e) >? RETRY_WALL_MS
  end.

Definition pending_due (now : Z) (e : PendingTx) : bool :=
  match pd_last_flood_ms e with
  | None => true
  | Some last => sat_sub now last >=? RETRY_MS
  end.

(** The last loop of [tick]: the entries with their new flood times, and the
    frames to flood. *)
Fixpoint pending_flood (now : Z) (p : PendingRetry) : PendingRetry * list bytes :=
  match p with
  | [] => ([], [])
  | e :: p =>
      let '(p', out) := pending_flood now p in
      if pending_due now e
      then (mkPendingTx (pd_tx_id e) (pd_bytes e) (pd_valid_until e) (pd_created_ms e) (Some now) :: p',
            pd_bytes e :: out)
      else (e :: p', out)
  end.

(** [pending_retry::tick], over the parts of the node it works on: the frames
    it floods are returned in order. *)
Definition pending_tick (p : PendingRetry) (l : SettlementLedger) (head : option Z) (now : Z)
    (has_peers : bool) : PendingRetry * SettlementLedger * list bytes :=
  let expired := map pd_tx_id (filter (fun e => pending_dead head now e = true) p) in
  let p := filter (fun e => pending_dead head now e = false) p in
  let l := foldl (fun l id => ledger_settle l id Failed) l expired in
  if negb has_peers then (p, l, []) else
  let '(p, out) := pending_flood now p in (p, l, out).

(** ** Lemmas *)

Lemma length_tx_id_words n : forall h c, length (tx_id_words h c n) = (8 * n)%nat.
Proof.
  induction n as [|n IH]; intros h c; [reflexivity|]. cbn [tx_id_words].
  rewrite length_app, length_be_bytes, IH. lia.
Qed.

Lemma tx_id_words_ok n : forall h c, bytes_ok (tx_id_words h c n).
Proof.
  induction n as [|n IH]; intros h c; cbn [tx_id_words]; [constructor|].
  apply bytes_ok_app. auto using be_bytes_ok.
Qed.

Lemma mock_tx_id_ok p : array_ok 32 (mock_tx_id p).
Proof.
  Transparent mock_tx_id. unfold mock_tx_id. Opaque mock_tx_id.
  split; [unfold len; now rewrite length_tx_id_words | apply tx_id_words_ok].
Qed.

Lemma receipt_code_from s : receipt_from_code (receipt_code s) = s.
Proof. now destruct s. Qed.

Lemma decode_receipt_at id c :
  len id = 32 -> decode_receipt (id ++ [c]) = Ok (Some (id, receipt_from_code c)).
Proof.
  intros Hl. unfold decode_receipt. rewrite len_app, Hl. cbn [negb].
  rewrite (slice_at _ [] id [c]); [|reflexivity..|now rewrite Hl].
  rewrite (idx_at _ id c []); [|reflexivity | now rewrite Hl]. reflexivity.
Qed.

Lemma decode_receipt_inv b id s :
  decode_receipt b = Ok (Some (id, s)) ->
  exists c, b = id ++ [c] /\ len id = 32 /\ s = receipt_from_code c.
Proof.
  intros H. unfold decode_receipt in H. run H.
  rename select (slice _ _ _ = _) into Hs. rename select (idx _ _ = _) into Hi.
  pose proof (slice_len _ _ _ _ Hs) as Hl. apply slice_drop in Hs. apply idx_drop in Hi.
  rewrite Hi in Hs. rewrite (drop_ge _ (Z.to_nat (32 + 1))) in Hs by (unfold len, RECEIPT_PAYLOAD_LEN in *; lia).
  simpl in Hs. rewrite drop_0 in Hs. subst b. eauto.
Qed.

Lemma decode_receipt_total b : decode_receipt b <> Panic.
Proof.
  unfold decode_receipt. destruct (Z.eqb_spec (len b) RECEIPT_PAYLOAD_LEN) as [Hl|]; simpl; [|discriminate].
  unfold RECEIPT_PAYLOAD_LEN in *. repeat mem_case. discriminate.
Qed.

(** *** A payment closes once *)

Lemma ledger_record_lookup l id d id' :
  ledger_record l id d !! id'
  = match l !! id' with
    | Some t => Some t
    | None => if decide (id = id') then Some (mkSettlement Pending d) else None
    end.
Proof.
  unfold ledger_record. destruct (l !! id) as [t|] eqn:E.
  - destruct (l !! id') eqn:E'; [reflexivity|]. case_decide; congruence.
  - destruct (decide (id = id')) as [<-|Hne]; [now rewrite lookup_insert_eq, E|].
    rewrite lookup_insert_ne by exact Hne. now destruct (l !! id').
Qed.

Lemma ledger_settle_lookup l id s id' :
  ledger_settle l id s !! id'
  = match l !! id' with
    | Some (mkSettlement Pending d) => if decide (id = id') then Some (mkSettlement s d)
                                       else Some (mkSettlement Pending d)
    | o => o
    end.
Proof.
  unfold ledger_settle. destruct (decide (id = id')) as [<-|Hne].
  - destruct (l !! id) as [[[] d]|] eqn:E; simpl; rewrite ?lookup_insert_eq, ?E; reflexivity.
  - destruct (l !! id) as [[[] d]|]; simpl; rewrite ?lookup_insert_ne by exact Hne;
      destruct (l !! id') as [[[] ?]|]; reflexivity.
Qed.

Lemma settle_many_lookup ids s : forall l id,
  s <> Pending ->
  foldl (fun l id => ledger_settle l id s) l ids !! id
  = match l !! id with
    | Some (mkSettlement Pending d) => if decide (id ∈ ids) then Some (mkSettlement s d)
                                       else Some (mkSettlement Pending d)
    | o => o
    end.
Proof.
  induction ids as [|i ids IH]; intros l id Hs; simpl.
  - now destruct (l !! id) as [[[] d]|].
  - rewrite IH by exact Hs. rewrite ledger_settle_lookup.
    destruct (l !! id) as [[[] d]|]; try reflexivity. destruct (decide (i = id)) as [->|Hne].
    + destruct s; [congruence|..]; now rewrite decide_True by apply list_elem_of_here.
    + destruct (decide (id ∈ ids)) as [Hin|Hin]; [now rewrite decide_True by (now right)|].
      rewrite decide_False; [reflexivity|]. rewrite elem_of_cons. intros [?|?]; congruence.
Qed.

(** *** The pending list *)

Record pending_ok (p : PendingRetry) : Prop := {
  po_len : len p <= MAX_PENDING;
  po_nodup : NoDup (map pd_tx_id p)
}.

Lemma NoDup_filter_map {A B} (P : A -> Prop) `{forall x, Decision (P x)} (f : A -> B) l :
  NoDup (map f l) -> NoDup (map f (filter P l)).
Proof.
  induction l as [|x l IH]; intros Hn; [constructor|]. inversion Hn as [|? ? Hx Hl]; subst.
  rewrite filter_cons. destruct (decide (P x)); [|auto]. simpl. constructor; [|auto].
  intros Hin. apply Hx. apply list_elem_of_fmap in Hin as (y & -> & Hy%list_elem_of_filter).
  apply list_elem_of_fmap. exists y. tauto.
Qed.

Lemma pending_remember_ok p id b vu now d : pending_ok p -> pending_ok (pending_remember p id b vu now d).
Proof.
  intros [Hl Hn]. unfold pending_remember, MAX_PENDING in *. set (q := filter _ p).
  assert (Hq : len q <= 16) by (pose proof (length_filter (fun e => pd_tx_id e <> id) p); unfold len, q in *; lia).
  assert (Hqn : NoDup (map pd_tx_id q)) by now apply NoDup_filter_map.
  assert (Hqi : id ∉ map pd_tx_id q).
  { intros (e & -> & [He _]%list_elem_of_filter)%list_elem_of_fmap. congruence. }
  assert (Hsub : forall n, NoDup (map pd_tx_id (drop n q)) /\ id ∉ map pd_tx_id (drop n q)).
  { intros n. rewrite <- (take_drop n q), map_app in Hqn, Hqi.
    apply NoDup_app in Hqn as (_ & _ & ?). apply not_elem_of_app in Hqi as [_ ?]. auto. }
  assert (Hgoal : forall r, len r + 1 <= 16 -> NoDup (map pd_tx_id r) -> id ∉ map pd_tx_id r ->
    pending_ok (r ++ [mkPendingTx id b vu now (if d then Some now else None)])).
  { intros r Hr Hrn Hri. constructor; [rewrite len_app; unfold MAX_PENDING, len in *; simpl; lia|].
    rewrite map_app. apply NoDup_app. split_and!; [exact Hrn | | apply NoDup_singleton].
    intros x Hx ->%list_elem_of_singleton. contradiction. }
  destruct (Z.geb_spec (len q) 16) as [Hge|Hlt]; apply Hgoal; auto; try apply (Hsub 1%nat); [|lia].
  unfold len in *. rewrite length_drop. lia.
Qed.

Lemma pending_clear_ok p id : pending_ok p -> pending_ok (pending_clear p id).
Proof.
  intros [Hl Hn]. unfold pending_clear. constructor; [|now apply NoDup_filter_map].
  pose proof (length_filter (fun e => pd_tx_id e <> id) p). unfold len in *. lia.
Qed.

Lemma pending_flood_spec now p :
  map pd_tx_id (pending_flood now p).1 = map pd_tx_id p
  /\ (pending_flood now p).2 = map pd_bytes (filter (fun e => pending_due now e = true) p)
  /\ forall e, e ∈ p -> exists e', e' ∈ (pending_flood now p).1
       /\ pd_tx_id e' = pd_tx_id e /\ pd_bytes e' = pd_bytes e /\ pd_valid_until e' = pd_valid_until e
       /\ pd_created_ms e' = pd_created_ms e
       /\ pd_last_flood_ms e' = if pending_due now e then Some now else pd_last_flood_ms e.
Proof.
  induction p as [|e p (IH1 & IH2 & IH3)]; simpl.
  { split_and!; [reflexivity..|]. intros e He. now apply not_elem_of_nil in He. }
  destruct (pending_flood now p) as [p' out]. simpl in *. subst out.
  rewrite filter_cons. destruct (pending_due now e) eqn:Hd.
  - rewrite decide_True by reflexivity. simpl. rewrite IH1. split_and!; [reflexivity..|].
    intros x [->|Hx]%elem_of_cons.
    + eexists. split; [apply list_elem_of_here|]. simpl. rewrite Hd. auto.
    + destruct (IH3 x Hx) as (e' & He' & Hrest). exists e'. split; [now right | exact Hrest].
  - rewrite decide_False by discriminate. simpl. rewrite IH1. split_and!; [reflexivity..|].
    intros x [->|Hx]%elem_of_cons.
    + eexists. split; [apply list_elem_of_here|]. simpl. rewrite Hd. auto.
    + destruct (IH3 x Hx) as (e' & He' & Hrest). exists e'. split; [now right | exact Hrest].
Qed.

Lemma pending_tick_ok p l head now peers :
  pending_ok p -> pending_ok (pending_tick p l head now peers).1.1.
Proof.
  intros [Hl Hn]. unfold pending_tick.
  set (q := filter (fun e => pending_dead head now e = false) p).
  assert (Hq : pending_ok q).
  { constructor; [|now apply NoDup_filter_map].
    pose proof (length_filter (fun e => pending_dead head now e = false) p). unfold len, q in *. lia. }
  destruct peers; [|exact Hq]. cbn [negb].
  pose proof (pending_flood_spec now q) as (E1 & _ & _). destruct (pending_flood now q) as [r out].
  simpl in *. destruct Hq as [Hl' Hn']. constructor; [|now rewrite E1].
  apply (f_equal length) in E1. rewrite !length_map in E1. unfold len in *. lia.
Qed.

(** ** Properties *)

(** A payment that is still live is offered again.  At a maintenance tick
    with a neighbour in range, every remembered payment whose window is open
    stays remembered, and its frame is flooded if it never reached a peer or was
    last flooded 15 seconds ago or more; a payment whose window has closed is
    forgotten and, unless a receipt settled it before, its status is Failed; no
    other payment changes its status, and nothing else is flooded. *)
Theorem pending_tick_spec (p : PendingRetry) (l : SettlementLedger) (head : option Z) (now : Z)
    (Hp : pending_ok p) :
  let '(p', l', out) := pending_tick p l head now true in
  pending_ok p'
  /\ (forall e, e ∈ p -> pending_dead head now e = false ->
        pd_tx_id e ∈ map pd_tx_id p' /\ (pending_due now e = true -> pd_bytes e ∈ out))
  /\ (forall e, e ∈ p -> pending_dead head now e = true ->
        (pd_tx_id e ∉ map pd_tx_id p') /\ (is_Some (l !! pd_tx_id e) -> ledger_status l' (pd_tx_id e) <> Pending))
  /\ (forall id, l' !! id <> l !! id ->
        exists e d, e ∈ p /\ pd_tx_id e = id /\ pending_dead head now e = true
                    /\ l !! id = Some (mkSettlement Pending d) /\ l' !! id = Some (mkSettlement Failed d))
  /\ (forall b, b ∈ out -> exists e, e ∈ p /\ pd_bytes e = b /\ pending_dead head now e = false).
Proof.
  pose proof (pending_tick_ok p l head now true Hp) as Hok. unfold pending_tick in *. cbn [negb] in *.
  set (q := filter (fun e => pending_dead head now e = false) p) in *.
  set (ids := map pd_tx_id (filter (fun e => pending_dead head now e = true) p)) in *.
  pose proof (fun id => settle_many_lookup ids Failed l id ltac:(discriminate)) as Hl.
  set (l' := foldl _ l ids) in *. clearbody l'.
  pose proof (pending_flood_spec now q) as (E1 & E2 & _).
  destruct (pending_flood now q) as [r out]. cbn [fst snd] in *.
  assert (Hids : forall id, id ∈ ids <-> exists e, e ∈ p /\ pd_tx_id e = id /\ pending_dead head now e = true).
  { intros id. unfold ids. rewrite list_elem_of_fmap. split.
    - intros (e & -> & [Hd He]%list_elem_of_filter). eauto.
    - intros (e & He & <- & Hd). exists e. split; [reflexivity|]. now apply list_elem_of_filter. }
  split_and!; [exact Hok | | | |].
  - intros e He Hd. assert (Hq : e ∈ q) by (apply list_elem_of_filter; auto). rewrite E1. split.
    + apply list_elem_of_fmap. eauto.
    + intros Hdue. rewrite E2. apply list_elem_of_fmap. exists e. split; [reflexivity|].
      apply list_elem_of_filter. auto.
  - intros e He Hd. split.
    + rewrite E1. intros (e' & Hid & [Hd' He']%list_elem_of_filter)%list_elem_of_fmap.
      assert (e = e'); [|congruence]. apply list_elem_of_lookup in He as [i Hi], He' as [j Hj].
      assert (i = j); [|congruence].
      apply (NoDup_lookup (map pd_tx_id p) i j (pd_tx_id e) (po_nodup _ Hp)).
      * now rewrite list_lookup_fmap, Hi.
      * rewrite list_lookup_fmap, Hj. simpl. now rewrite Hid.
    + intros [[s d] Hs]. unfold ledger_status. rewrite Hl, Hs. destruct s; simpl; try discriminate.
      rewrite decide_True by (apply Hids; eauto). discriminate.
  - intros id Hne. rewrite Hl in *. destruct (l !! id) as [[[] d]|]; try congruence.
    destruct (decide (id ∈ ids)) as [(e & He & Hid & Hd)%Hids|]; [|congruence]. exists e, d. auto.
  - intros b Hb. rewrite E2 in Hb. apply list_elem_of_fmap in Hb as (e & -> & [_ He]%list_elem_of_filter).
    apply list_elem_of_filter in He as [Hd He]. eauto.
Qed.

Definition sample_pending : PendingRetry :=
  [mkPendingTx [1] [10] (Some 500) 0 None; mkPendingTx [2] [20] (Some 90) 0 (Some 3)].

Lemma pending_tick_spec_witness :
  pending_ok (pending_tick sample_pending ∅ (Some 100) 50 true).1.1.
Proof.
  assert (H : pending_ok sample_pending).
  { constructor; [vm_compute; congruence|]. simpl. repeat constructor; rewrite ?elem_of_cons, ?elem_of_nil; naive_solver. }
  pose proof (pending_tick_spec sample_pending ∅ (Some 100) 50 H) as Hs.
  destruct (pending_tick sample_pending ∅ (Some 100) 50 true) as [[p' l'] out]. apply Hs.
Defined.

(** A receipt with a status byte that no gateway sends settles a payment.
    The comment of [from_code] says that unknown codes are treated as the
    opposite of an acceptance; the code maps every byte but 1 and 2 to
    [Accepted], so a receipt for a pending payment with, say, the byte 255 turns
    it into [Settled]. *)
Theorem unknown_receipt_settles (l : SettlementLedger) (id : bytes) (c : Z) (d : SettlementDirection)
    (Hid : len id = 32) (Hc : 2 < c) (Hl : l !! id = Some (mkSettlement Pending d)) :
  exists st, decode_receipt (id ++ [c]) = Ok (Some (id, st))
    /\ ledger_status (ledger_settle l id (payment_status st)) id = Settled.
Proof.
  exists (receipt_from_code c). split; [now apply decode_receipt_at|].
  unfold ledger_status. rewrite ledger_settle_lookup, Hl, decide_True by reflexivity. simpl.
  unfold receipt_from_code. destruct c as [|[[]|[]|]|]; simpl; try reflexivity; lia.
Qed.

Lemma unknown_receipt_settles_witness :
  let id := replicate 32 7 in
  exists st, decode_receipt (id ++ [255]) = Ok (Some (id, st))
    /\ ledger_status (ledger_settle (ledger_record ∅ id Outgoing) id (payment_status st)) id = Settled.
Proof.
  intros id. exact (unknown_receipt_settles (ledger_record ∅ id Outgoing) id 255 Outgoing eq_refl eq_refl eq_refl).
Defined.
