(* ===== verification/Balance.v ===== *)
(** * Balance: balances and histories over the mesh ([balance.rs], [tx_history.rs])

    The two query and response payloads and the two caches, which keep the
    answer read at the highest head.  An [Address] is its 20 bytes.  The engine
    handlers of both files are in [Engine]. *)

From stdpp Require Import base list gmap.
From Stdlib Require Import ZArith Lia.
From S2P Require Import Prelude Packet Beacon.
Open Scope Z_scope.

Definition ADDRESS_LEN : Z := 20.
Definition BALANCE_QUERY_LEN : Z := ADDRESS_LEN.
Definition BALANCE_RESPONSE_LEN : Z := ADDRESS_LEN + 8 + 4 + 1.

(** ** Balances *)

Record BalanceResponse : Type := mkBalanceResponse {
  br_address : bytes;
  br_balance : Z;
  br_head_height : Z;
  br_network_id : Z
}.

Definition encode_balance_query (address : bytes) : bytes := address.

Definition decode_balance_query (b : bytes) : option bytes :=
  if len b =? BALANCE_QUERY_LEN then Some b else None.

Definition encode_balance_response (r : BalanceResponse) : bytes :=
  br_address r ++ be_bytes 8 (br_balance r) ++ be_bytes 4 (br_head_height r) ++ [br_network_id r].

Definition decode_balance_response (b : bytes) : res unit (option BalanceResponse) :=
  if negb (len b =? BALANCE_RESPONSE_LEN) then Ok None else
  let? addr := slice b 0 ADDRESS_LEN in
  let? bal := slice b ADDRESS_LEN (ADDRESS_LEN + 8) in
  let? h := slice b (ADDRESS_LEN + 8) (ADDRESS_LEN + 12) in
  let? n := idx b (ADDRESS_LEN + 12) in
  Ok (Some (mkBalanceResponse addr (from_be bal) (from_be h) n)).

Record CachedBalance : Type := mkCached { cb_balance : Z; cb_head_height : Z; cb_network_id : Z }.

Record BalanceCache : Type := mkBalanceCache {
  bc_network_id : option Z;
  bc_entries : gmap (list Z) CachedBalance
}.

Definition balance_cache_for (network_id : Z) : BalanceCache := mkBalanceCache (Some network_id) ∅.

Definition balance_cache_new : BalanceCache := mkBalanceCache None ∅.

Definition balance_observe (c : BalanceCache) (r : BalanceResponse) : BalanceCache * bool :=
  let store := fun net =>
    let stale := match bc_entries c !! br_address r with
                 | Some e => br_head_height r <=? cb_head_height e
                 | None => false
                 end in
    if stale then (mkBalanceCache net (bc_entries c), false)
    else (mkBalanceCache net
            (<[ br_address r := mkCached (br_balance r) (br_head_height r) (br_network_id r) ]>
               (bc_entries c)), true) in
  match bc_network_id c with
  | Some n => if negb (n =? br_network_id r) then (c, false) else store (Some n)
  | None => store (Some (br_network_id r))
  end.

Definition balance_get (c : BalanceCache) (address : bytes) : option CachedBalance :=
  bc_entries c !! address.

(** ** Histories *)

Definition HISTORY_MAX : Z := 10.
Definition HISTORY_RECORD_LEN : Z := 32 + ADDRESS_LEN + 8 + 8 + 1.
Definition HISTORY_QUERY_LEN : Z := ADDRESS_LEN.
Definition HISTORY_RESPONSE_HEADER_LEN : Z := ADDRESS_LEN + 4 + 1 + 1.
Definition HISTORY_FRAGMENT_CHUNK : Z := 180.
Definition FLAG_INCOMING : Z := 1.
Definition FLAG_CONFIRMED : Z := 2.

Record TxHistoryRecord : Type := mkHistory {
  hr_hash : bytes;
  hr_counterparty : bytes;
  hr_value : Z;
  hr_timestamp_ms : Z;
  hr_flags : Z
}.

Definition incoming (r : TxHistoryRecord) : bool := negb (Z.land (hr_flags r) FLAG_INCOMING =? 0).
Definition confirmed (r : TxHistoryRecord) : bool := negb (Z.land (hr_flags r) FLAG_CONFIRMED =? 0).

Record HistoryResponse : Type := mkHistoryResponse {
  hs_address : bytes;
  hs_head_height : Z;
  hs_network_id : Z;
  hs_records : list TxHistoryRecord
}.

Definition encode_history_query (address : bytes) : bytes := address.

Definition decode_history_query (b : bytes) : option bytes :=
  if len b =? HISTORY_QUERY_LEN then Some b else None.

(** One turn of the loop of [encode_history_response]. *)
Definition encode_record (r : TxHistoryRecord) : bytes :=
  hr_hash r ++ hr_counterparty r ++ be_bytes 8 (hr_value r) ++ be_bytes 8 (hr_timestamp_ms r)
  ++ [hr_flags r].

Definition encode_history_response (r : HistoryResponse) : bytes :=
  let count := Z.min (len (hs_records r)) HISTORY_MAX in
  hs_address r ++ be_bytes 4 (hs_head_height r) ++ [hs_network_id r] ++ [wrapN 8 count]
  ++ concat (map encode_record (take (Z.to_nat count) (hs_records r))).

(** One turn of the loop of [decode_history_response], at its offset. *)
Definition decode_record (b : bytes) (at_ : Z) : res unit TxHistoryRecord :=
  let? r := slice b at_ (at_ + HISTORY_RECORD_LEN) in
  let? hash := slice r 0 32 in
  let? cp := slice r 32 (32 + ADDRESS_LEN) in
  let? v := slice r 52 60 in
  let? t := slice r 60 68 in
  let? flags := idx r 68 in
  Ok (mkHistory hash cp (from_be v) (from_be t) flags).

(** [for i in 0..count] *)
Fixpoint decode_records (b : bytes) (i : Z) (count : nat) : res unit (list TxHistoryRecord) :=
  match count with
  | O => Ok []
  | S count =>
      let? r := decode_record b (HISTORY_RESPONSE_HEADER_LEN + i * HISTORY_RECORD_LEN) in
      let? rs := decode_records b (i + 1) count in
      Ok (r :: rs)
  end.

Definition decode_history_response (b : bytes) : res unit (option HistoryResponse) :=
  if len b <? HISTORY_RESPONSE_HEADER_LEN then Ok None else
  let? addr := slice b 0 ADDRESS_LEN in
  let? h := slice b ADDRESS_LEN (ADDRESS_LEN + 4) in
  let? network_id := idx b (ADDRESS_LEN + 4) in
  let? count := idx b (ADDRESS_LEN + 5) in
  if (count >? HISTORY_MAX)
     || negb (len b =? HISTORY_RESPONSE_HEADER_LEN + count * HISTORY_RECORD_LEN) then Ok None else
  let? records := decode_records b 0 (Z.to_nat count) in
  Ok (Some (mkHistoryResponse addr (from_be h) network_id records)).

Abbreviation HistoryCache := (gmap (list Z) HistoryResponse).

Definition history_observe (c : HistoryCache) (r : HistoryResponse) (network_id : Z)
  : HistoryCache * bool :=
  if negb (hs_network_id r =? network_id) then (c, false) else
  match c !! hs_address r with
  | Some have => if hs_head_height r <=? hs_head_height have then (c, false)
                 else (<[ hs_address r := r ]> c, true)
  | None => (<[ hs_address r := r ]> c, true)
  end.

Definition history_get (c : HistoryCache) (address : bytes) : option HistoryResponse := c !! address.

(** ** Lemmas *)

Record balance_ok (r : BalanceResponse) : Prop := {
  bk_address : array_ok 20 (br_address r);
  bk_balance : uN 64 (br_balance r);
  bk_height : uN 32 (br_head_height r);
  bk_net : uN 8 (br_network_id r)
}.

Lemma to_nat_len {A} (l : list A) : Z.to_nat (len l) = length l.
Proof. apply Nat2Z.id. Qed.

(** Cut a list at [n]: the front has the length asked for. *)
Lemma take_drop_len {A} (l : list A) n :
  0 <= n <= len l ->
  exists a b, l = a ++ b /\ len a = n /\ len b = len l - n.
Proof.
  intros Hn. exists (take (Z.to_nat n) l), (drop (Z.to_nat n) l).
  split_and!; [now rewrite take_drop | now apply len_take | now apply len_drop].
Qed.

(** [l] has exactly [n] elements, [n] a literal: name them. *)
Lemma len_1 {A} (l : list A) : len l = 1 -> exists x, l = [x].
Proof.
  destruct l as [|x [|y l]]; unfold len; simpl; intros; try lia. eauto.
Qed.

Lemma be_of n (l : bytes) : bytes_ok l -> len l = Z.of_nat n -> be_bytes n (from_be l) = l.
Proof. intros Hb Hl. rewrite <- (be_bytes_from_be l Hb) at 2. f_equal. unfold len in Hl. lia. Qed.

(** The fields of a balance response of the right length. *)
Lemma decode_balance_fields a v h n :
  len a = 20 -> len v = 8 -> len h = 4 ->
  decode_balance_response (a ++ v ++ h ++ [n])
  = Ok (Some (mkBalanceResponse a (from_be v) (from_be h) n)).
Proof.
  intros Ha Hv Hh. unfold decode_balance_response.
  rewrite !len_app, Ha, Hv, Hh. cbn [negb].
  rewrite (slice_at _ [] a (v ++ h ++ [n])); [|reflexivity..|now rewrite Ha].
  rewrite (slice_at _ a v (h ++ [n])); [|reflexivity | now rewrite Ha | now rewrite Hv].
  rewrite (slice_at _ (a ++ v) h [n]);
    [|now rewrite <- app_assoc | now rewrite len_app, Ha, Hv | now rewrite Hh].
  rewrite (idx_at _ (a ++ v ++ h) n []);
    [reflexivity | now rewrite <- !app_assoc | now rewrite !len_app, Ha, Hv, Hh].
Qed.

(** Any 33 bytes are such fields. *)
Lemma balance_split (b : bytes) :
  len b = BALANCE_RESPONSE_LEN ->
  exists a v h n, b = a ++ v ++ h ++ [n] /\ len a = 20 /\ len v = 8 /\ len h = 4.
Proof.
  unfold BALANCE_RESPONSE_LEN, ADDRESS_LEN. intros Hl.
  destruct (take_drop_len b 20) as (a & b1 & -> & Ha & H1); [lia|].
  destruct (take_drop_len b1 8) as (v & b2 & -> & Hv & H2); [lia|].
  destruct (take_drop_len b2 4) as (h & b3 & -> & Hh & H3); [lia|].
  destruct (len_1 b3) as [n ->]; [lia|]. exists a, v, h, n. auto.
Qed.

Lemma decode_balance_exact b r :
  bytes_ok b ->
  decode_balance_response b = Ok (Some r) <-> b = encode_balance_response r /\ balance_ok r.
Proof.
  intros Hb. split.
  - intros H. assert (Hl : len b = BALANCE_RESPONSE_LEN) by (unfold decode_balance_response in H; run H; assumption).
    destruct (balance_split b Hl) as (a & v & h & n & -> & Ha & Hv & Hh).
    rewrite decode_balance_fields in H by assumption. injection H as <-.
    rewrite !bytes_ok_app in Hb. destruct Hb as (Hab & Hvb & Hhb & Hnb). apply bytes_ok_cons in Hnb as [Hnb _].
    split; [|constructor; cbn [br_address br_balance br_head_height br_network_id]];
      [unfold encode_balance_response; cbn [br_address br_balance br_head_height br_network_id]; now rewrite !be_of by assumption|..].
    + split; assumption.
    + now apply (from_be_uN 8).
    + now apply (from_be_uN 4).
    + exact Hnb.
  - intros [-> [[Ha _] Hv Hh _]]. unfold encode_balance_response.
    rewrite decode_balance_fields by (rewrite ?len_be_bytes; auto).
    rewrite !from_be_be_bytes by assumption. now destruct r.
Qed.

Lemma decode_balance_total b : decode_balance_response b <> Panic.
Proof.
  unfold decode_balance_response. destruct (Z.eqb_spec (len b) BALANCE_RESPONSE_LEN) as [Hl|]; simpl; [|discriminate].
  unfold BALANCE_RESPONSE_LEN, ADDRESS_LEN in *. repeat mem_case. discriminate.
Qed.

Record record_ok (r : TxHistoryRecord) : Prop := {
  rk_hash : array_ok 32 (hr_hash r);
  rk_cp : array_ok 20 (hr_counterparty r);
  rk_value : uN 64 (hr_value r);
  rk_time : uN 64 (hr_timestamp_ms r);
  rk_flags : uN 8 (hr_flags r)
}.

Record history_ok (r : HistoryResponse) : Prop := {
  hk_address : array_ok 20 (hs_address r);
  hk_height : uN 32 (hs_head_height r);
  hk_net : uN 8 (hs_network_id r);
  hk_count : len (hs_records r) <= HISTORY_MAX;
  hk_records : Forall record_ok (hs_records r)
}.

(** A record that lies at its offset is read back. *)
Lemma decode_record_fields pre hash cp v t fl post at_ :
  at_ = len pre -> len hash = 32 -> len cp = 20 -> len v = 8 -> len t = 8 ->
  decode_record (pre ++ (hash ++ cp ++ v ++ t ++ [fl]) ++ post) at_
  = Ok (mkHistory hash cp (from_be v) (from_be t) fl).
Proof.
  intros -> H1 H2 H3 H4. unfold decode_record.
  assert (Hl : len (hash ++ cp ++ v ++ t ++ [fl]) = HISTORY_RECORD_LEN).
  { rewrite !len_app, H1, H2, H3, H4. reflexivity. }
  rewrite slice_app by (rewrite ?Hl; reflexivity).
  rewrite (slice_at _ [] hash (cp ++ v ++ t ++ [fl])); [|reflexivity..|now rewrite H1].
  rewrite (slice_at _ hash cp (v ++ t ++ [fl])); [|reflexivity | now rewrite H1 | now rewrite H2].
  rewrite (slice_at _ (hash ++ cp) v (t ++ [fl]));
    [|now rewrite <- app_assoc | now rewrite len_app, H1, H2 | now rewrite H3].
  rewrite (slice_at _ (hash ++ cp ++ v) t [fl]);
    [|now rewrite <- !app_assoc | now rewrite !len_app, H1, H2, H3 | now rewrite H4].
  rewrite (idx_at _ (hash ++ cp ++ v ++ t) fl []);
    [reflexivity | now rewrite <- !app_assoc | now rewrite !len_app, H1, H2, H3, H4].
Qed.

Lemma len_encode_record r : record_ok r -> len (encode_record r) = HISTORY_RECORD_LEN.
Proof.
  intros [[H1 _] [H2 _] _ _ _]. unfold encode_record. rewrite !len_app, !len_be_bytes, H1, H2. reflexivity.
Qed.

Lemma decode_encode_record pre r post at_ :
  at_ = len pre -> record_ok r -> decode_record (pre ++ encode_record r ++ post) at_ = Ok r.
Proof.
  intros Hat [[H1 _] [H2 _] H3 H4 H5]. unfold encode_record.
  rewrite decode_record_fields by (rewrite ?len_be_bytes; auto).
  rewrite !from_be_be_bytes by assumption. now destruct r.
Qed.

(** Any 69 bytes are the encoding of a record. *)
Lemma record_split b :
  bytes_ok b -> len b = HISTORY_RECORD_LEN -> exists r, b = encode_record r /\ record_ok r.
Proof.
  unfold HISTORY_RECORD_LEN, ADDRESS_LEN. intros Hb Hl.
  destruct (take_drop_len b 32) as (x1 & b1 & -> & H1 & L1); [lia|].
  destruct (take_drop_len b1 20) as (x2 & b2 & -> & H2 & L2); [lia|].
  destruct (take_drop_len b2 8) as (x3 & b3 & -> & H3 & L3); [lia|].
  destruct (take_drop_len b3 8) as (x4 & b4 & -> & H4 & L4); [lia|].
  destruct (len_1 b4) as [fl ->]; [lia|].
  rewrite !bytes_ok_app, bytes_ok_cons in Hb. destruct Hb as (B1 & B2 & B3 & B4 & B5 & _).
  exists (mkHistory x1 x2 (from_be x3) (from_be x4) fl). split.
  - unfold encode_record. cbn [hr_hash hr_counterparty hr_value hr_timestamp_ms hr_flags].
    now rewrite !be_of by assumption.
  - constructor; cbn [hr_hash hr_counterparty hr_value hr_timestamp_ms hr_flags];
      [split; assumption.. | now apply (from_be_uN 8) | now apply (from_be_uN 8) | exact B5].
Qed.

Lemma records_split n : forall b,
  bytes_ok b -> len b = Z.of_nat n * HISTORY_RECORD_LEN ->
  exists rs, b = concat (map encode_record rs) /\ Forall record_ok rs /\ length rs = n.
Proof.
  induction n as [|n IH]; intros b Hb Hl.
  - exists []. destruct b; [auto|]. unfold len in Hl. simpl in Hl. lia.
  - destruct (take_drop_len b HISTORY_RECORD_LEN) as (x & b1 & -> & H1 & L1);
      [unfold HISTORY_RECORD_LEN, ADDRESS_LEN in *; lia|].
    apply bytes_ok_app in Hb as [Bx Bb].
    destruct (record_split x Bx H1) as (r & -> & Hr).
    destruct (IH b1 Bb) as (rs & -> & Hrs & <-); [rewrite L1, Hl; lia|].
    exists (r :: rs). auto.
Qed.

Lemma decode_encode_records rs : forall pre i,
  Forall record_ok rs -> len pre = HISTORY_RESPONSE_HEADER_LEN + i * HISTORY_RECORD_LEN ->
  decode_records (pre ++ concat (map encode_record rs)) i (length rs) = Ok rs.
Proof.
  induction rs as [|r rs IH]; intros pre i Hrs Hp; [reflexivity|].
  inversion Hrs as [|? ? Hr Hrs']; subst. cbn [length decode_records map concat].
  rewrite decode_encode_record by auto.
  specialize (IH (pre ++ encode_record r) (i + 1) Hrs').
  rewrite <- app_assoc in IH. rewrite IH; [reflexivity|].
  rewrite len_app, len_encode_record by exact Hr. lia.
Qed.

Lemma len_concat_records rs :
  Forall record_ok rs -> len (concat (map encode_record rs)) = len rs * HISTORY_RECORD_LEN.
Proof.
  induction 1 as [|r rs Hr _ IH]; [reflexivity|]. cbn [map concat].
  rewrite len_app, len_encode_record, IH, len_cons by exact Hr. lia.
Qed.

(** The header of a response over any records. *)
Lemma decode_history_fields a h n rs :
  len a = 20 -> len h = 4 -> len rs <= HISTORY_MAX -> Forall record_ok rs ->
  decode_history_response (a ++ h ++ [n] ++ [len rs] ++ concat (map encode_record rs))
  = Ok (Some (mkHistoryResponse a (from_be h) n rs)).
Proof.
  intros Ha Hh Hn Hrs. unfold decode_history_response.
  set (body := concat (map encode_record rs)). pose proof (len_concat_records rs Hrs) as Hb. fold body in Hb.
  pose proof (len_nonneg rs).
  assert (Hlen : len (a ++ h ++ [n] ++ [len rs] ++ body)
                 = HISTORY_RESPONSE_HEADER_LEN + len rs * HISTORY_RECORD_LEN).
  { rewrite !len_app, Ha, Hh, Hb. unfold HISTORY_RESPONSE_HEADER_LEN, ADDRESS_LEN, len. simpl. lia. }
  rewrite Hlen. unfold HISTORY_RESPONSE_HEADER_LEN, HISTORY_RECORD_LEN, ADDRESS_LEN, HISTORY_MAX in *.
  destruct (Z.ltb_spec (20 + 4 + 1 + 1 + len rs * (32 + 20 + 8 + 8 + 1)) (20 + 4 + 1 + 1)); [lia|].
  rewrite (slice_at _ [] a (h ++ [n] ++ [len rs] ++ body)); [|reflexivity..|now rewrite Ha].
  rewrite (slice_at _ a h ([n] ++ [len rs] ++ body)); [|reflexivity | now rewrite Ha | now rewrite Hh].
  rewrite (idx_at _ (a ++ h) n ([len rs] ++ body));
    [|now rewrite <- !app_assoc | now rewrite len_app, Ha, Hh].
  rewrite (idx_at _ (a ++ h ++ [n]) (len rs) body);
    [|now rewrite <- !app_assoc | now rewrite !len_app, Ha, Hh].
  rewrite Z.eqb_refl. destruct (Z.gtb_spec (len rs) 10); [lia|]. cbn [orb negb].
  replace (a ++ h ++ [n] ++ [len rs] ++ body) with ((a ++ h ++ [n] ++ [len rs]) ++ body)
    by now rewrite <- !app_assoc.
  rewrite to_nat_len. unfold body. rewrite decode_encode_records; [reflexivity | exact Hrs|].
  rewrite !len_app, Ha, Hh. reflexivity.
Qed.

Lemma decode_history_exact b r :
  bytes_ok b ->
  decode_history_response b = Ok (Some r) <-> b = encode_history_response r /\ history_ok r.
Proof.
  intros Hb. split.
  - intros H.
    assert (Hc : exists c, @idx unit _ b (ADDRESS_LEN + 5) = Ok c /\ c <= HISTORY_MAX
                 /\ len b = HISTORY_RESPONSE_HEADER_LEN + c * HISTORY_RECORD_LEN).
    { unfold decode_history_response in H. run H. eexists. split_and!; [reflexivity | lia | assumption]. }
    destruct Hc as (c & Hic & Hc & Hl). assert (Hcb := idx_byte _ _ _ Hb Hic). unfold uN in Hcb.
    destruct (take_drop_len b 20) as (a & b1 & -> & Ha & L1);
      [unfold HISTORY_RESPONSE_HEADER_LEN, HISTORY_RECORD_LEN, ADDRESS_LEN in *; lia|].
    destruct (take_drop_len b1 4) as (h & b2 & -> & Hh & L2);
      [unfold HISTORY_RESPONSE_HEADER_LEN, HISTORY_RECORD_LEN, ADDRESS_LEN in *; lia|].
    destruct b2 as [|n [|c' body]];
      [unfold HISTORY_RESPONSE_HEADER_LEN, HISTORY_RECORD_LEN, ADDRESS_LEN, len in *; simpl in *; lia..|].
    rewrite (idx_at _ (a ++ h ++ [n]) c' body) in Hic;
      [|now rewrite <- !app_assoc | rewrite !len_app, Ha, Hh; reflexivity].
    injection Hic as ->. rewrite !bytes_ok_app, !bytes_ok_cons in Hb. destruct Hb as (Ba & Bh & Bn & Bc & Bb).
    destruct (records_split (Z.to_nat c) body Bb) as (rs & -> & Hrs & Hn).
    { rewrite !len_app, !len_cons in Hl. rewrite Z2Nat.id by lia.
      unfold HISTORY_RESPONSE_HEADER_LEN, ADDRESS_LEN in *. lia. }
    assert (Hcr : c = len rs) by (unfold len; lia). subst c. clear L1 L2 Hl.
    change (a ++ h ++ n :: len rs :: concat (map encode_record rs))
      with (a ++ h ++ [n] ++ [len rs] ++ concat (map encode_record rs)) in *.
    rewrite decode_history_fields in H by assumption. injection H as <-. split.
    + unfold encode_history_response. cbn [hs_address hs_head_height hs_network_id hs_records].
      rewrite be_of by assumption. rewrite Z.min_l by exact Hc. unfold wrapN. rewrite Z.mod_small by exact Hcb.
      rewrite to_nat_len, firstn_all. reflexivity.
    + constructor; cbn [hs_address hs_head_height hs_network_id hs_records];
        [split; assumption | now apply (from_be_uN 4) | exact Bn | exact Hc | exact Hrs].
  - intros [-> [[Ha _] Hh Hn Hc Hrs]]. unfold encode_history_response.
    rewrite Z.min_l by exact Hc. unfold wrapN.
    rewrite Z.mod_small by (pose proof (len_nonneg (hs_records r)); unfold HISTORY_MAX in *; lia).
    rewrite to_nat_len, firstn_all.
    rewrite decode_history_fields by (rewrite ?len_be_bytes; auto).
    rewrite from_be_be_bytes by assumption. now destruct r.
Qed.

Lemma decode_record_total b at_ :
  0 <= at_ -> at_ + HISTORY_RECORD_LEN <= len b -> decode_record b at_ <> Panic.
Proof.
  unfold HISTORY_RECORD_LEN, ADDRESS_LEN. intros Hat Hl. unfold decode_record, HISTORY_RECORD_LEN, ADDRESS_LEN.
  mem_case. pose proof (slice_len _ _ _ _ Hsl). repeat mem_case. discriminate.
Qed.

Lemma decode_records_total b n : forall i,
  0 <= i -> HISTORY_RESPONSE_HEADER_LEN + (i + Z.of_nat n) * HISTORY_RECORD_LEN <= len b ->
  decode_records b i n <> Panic.
Proof.
  induction n as [|n IH]; intros i Hi Hl; cbn [decode_records]; [discriminate|].
  destruct (decode_record _ _) eqn:E; [|discriminate|].
  - specialize (IH (i + 1) ltac:(lia)). destruct (decode_records b (i + 1) n); try discriminate.
    exfalso. apply IH; [lia | reflexivity].
  - exfalso. revert E. apply decode_record_total;
      unfold HISTORY_RECORD_LEN, HISTORY_RESPONSE_HEADER_LEN, ADDRESS_LEN in *; lia.
Qed.

Lemma decode_history_total b : bytes_ok b -> decode_history_response b <> Panic.
Proof.
  intros Hb. unfold decode_history_response.
  destruct (Z.ltb_spec (len b) HISTORY_RESPONSE_HEADER_LEN) as [|Hl]; [discriminate|].
  assert (H26 : 26 <= len b) by (unfold HISTORY_RESPONSE_HEADER_LEN, ADDRESS_LEN in Hl; lia).
  change ADDRESS_LEN with 20. do 3 mem_case. mem_case. assert (Hc := idx_byte _ _ _ Hb Hix0). unfold uN in Hc.
  destruct (Z.gtb_spec v2 HISTORY_MAX); [discriminate|]. simpl.
  destruct (Z.eqb_spec (len b) (HISTORY_RESPONSE_HEADER_LEN + v2 * HISTORY_RECORD_LEN)) as [El|]; [|discriminate].
  simpl. destruct (decode_records b 0 (Z.to_nat v2)) eqn:E; try discriminate.
  exfalso. revert E. apply decode_records_total; lia.
Qed.

(** *** The caches keep the freshest answer *)

Definition balances_after (network : Z) (rs : list BalanceResponse) : BalanceCache :=
  foldl (fun c r => (balance_observe c r).1) (balance_cache_for network) rs.

Definition histories_after (network : Z) (rs : list HistoryResponse) : HistoryCache :=
  foldl (fun c r => (history_observe c r network).1) ∅ rs.

(** The entry of an address is the answer at the greatest height. *)
Definition best_answer {R E} (net : R -> Z) (addr : R -> bytes) (height : R -> Z) (entry : R -> E)
    (network : Z) (heard : list R) (a : bytes) (o : option E) : Prop :=
  match o with
  | None => forall r, r ∈ heard -> addr r = a -> net r <> network
  | Some e => exists r, r ∈ heard /\ e = entry r /\ addr r = a /\ net r = network
                /\ forall r', r' ∈ heard -> addr r' = a -> net r' = network -> height r' <= height r
  end.

Section best.
Context {R E : Type} (net : R -> Z) (addr : R -> bytes) (height : R -> Z) (entry : R -> E) (eheight : E -> Z).
Context (Heh : forall r, eheight (entry r) = height r) (network : Z).

(** One observation, as both caches make it. *)
Definition keep (o : option E) (r : R) (a : bytes) : option E :=
  if negb (net r =? network) then o else
  if decide (addr r = a) then
    match o with
    | Some e => if height r <=? eheight e then o else Some (entry r)
    | None => Some (entry r)
    end
  else o.

Lemma keep_best heard a o r :
  best_answer net addr height entry network heard a o ->
  best_answer net addr height entry network (heard ++ [r]) a (keep o r a).
Proof.
  unfold keep. intros H.
  assert (Hother : addr r <> a \/ net r <> network ->
            best_answer net addr height entry network (heard ++ [r]) a o).
  { intros Hr. destruct o as [e|]; simpl in *.
    - destruct H as (x & Hx & He & Ha & Hn & Hmax). exists x. split_and!; auto; [apply elem_of_app; auto|].
      intros r' Hr' Ha' Hn'; apply elem_of_app in Hr' as [Hr'|Hr'%list_elem_of_singleton]; [auto | subst r'; tauto].
    - intros r' Hr' Ha'; apply elem_of_app in Hr' as [Hr'|Hr'%list_elem_of_singleton]; [auto | subst r'; tauto]. }
  destruct (Z.eqb_spec (net r) network) as [Hn|Hn]; cbn [negb]; [|auto].
  destruct (decide (addr r = a)) as [Ha|Ha]; [|auto].
  assert (Hnew : (forall r', r' ∈ heard -> addr r' = a -> net r' = network -> height r' <= height r) ->
            best_answer net addr height entry network (heard ++ [r]) a (Some (entry r))).
  { intros Hmax. exists r. split_and!; auto; [apply elem_of_app; right; now apply list_elem_of_singleton|].
    intros r' Hr' Ha' Hn'; apply elem_of_app in Hr' as [Hr'|Hr'%list_elem_of_singleton]; [auto | subst r'; lia]. }
  destruct o as [e|]; simpl in H.
  - destruct H as (x & Hx & -> & Hax & Hnx & Hmax). rewrite Heh.
    destruct (Z.leb_spec (height r) (height x)).
    + exists x. split_and!; auto; [apply elem_of_app; auto|].
      intros r' Hr' Ha' Hn'; apply elem_of_app in Hr' as [Hr'|Hr'%list_elem_of_singleton]; [auto | subst r'; lia].
    + apply Hnew. intros r' Hr' Ha' Hn'. specialize (Hmax r' Hr' Ha' Hn'). lia.
  - apply Hnew. intros r' Hr' Ha' Hn'. now destruct (H r' Hr' Ha').
Qed.

Lemma fold_best {S} (step : S -> R -> S) (look : S -> bytes -> option E)
    (Hstep : forall s r a, look (step s r) a = keep (look s a) r a) rs : forall s heard a,
  best_answer net addr height entry network heard a (look s a) ->
  best_answer net addr height entry network (heard ++ rs) a (look (foldl step s rs) a).
Proof.
  induction rs as [|r rs IH]; intros s heard a H; simpl; [now rewrite app_nil_r|].
  rewrite (cons_middle r heard rs), app_assoc. apply IH. rewrite Hstep. now apply keep_best.
Qed.
End best.

Lemma history_step (network : Z) (c : HistoryCache) r a :
  (history_observe c r network).1 !! a
  = keep hs_network_id hs_address hs_head_height id hs_head_height network (c !! a) r a.
Proof.
  unfold history_observe, keep. destruct (Z.eqb_spec (hs_network_id r) network); simpl; [|reflexivity].
  destruct (decide (hs_address r = a)) as [<-|Hne].
  - destruct (c !! hs_address r) as [x|] eqn:E; simpl; [case_goal; simpl; now rewrite ?lookup_insert_eq, ?E|].
    now rewrite lookup_insert_eq.
  - destruct (c !! hs_address r) as [x|]; simpl; [case_goal; simpl|]; now rewrite ?lookup_insert_ne.
Qed.

Definition to_cached (r : BalanceResponse) : CachedBalance :=
  mkCached (br_balance r) (br_head_height r) (br_network_id r).

Lemma balance_step network c r a :
  bc_network_id c = Some network ->
  bc_network_id (balance_observe c r).1 = Some network
  /\ balance_get (balance_observe c r).1 a
     = keep br_network_id br_address br_head_height to_cached cb_head_height network (balance_get c a) r a.
Proof.
  intros Hn. unfold balance_observe, keep, balance_get. rewrite Hn, (Z.eqb_sym network).
  destruct (Z.eqb_spec (br_network_id r) network); simpl; [|auto].
  destruct (decide (br_address r = a)) as [<-|Hne].
  - destruct (bc_entries c !! br_address r) as [x|] eqn:E; simpl; [case_goal; simpl; now rewrite ?lookup_insert_eq, ?E|].
    now rewrite lookup_insert_eq.
  - destruct (bc_entries c !! br_address r) as [x|]; simpl; [case_goal; simpl|]; now rewrite ?lookup_insert_ne.
Qed.

(** ** Properties *)

(** The fixed-layout payloads of the mesh.  On arbitrary bytes the decoders
    of head beacons, balance responses and history responses never panic, and
    each accepts exactly the encodings of the values whose fields are in range:
    nothing malformed is accepted, no two byte strings mean the same, and every
    such value survives the wire. *)
Theorem mesh_payloads_exact (b : bytes) (Hb : bytes_ok b) :
  (decode_beacon b <> Panic
   /\ forall x, decode_beacon b = Ok (Some x) <-> b = encode_beacon x /\ beacon_ok x)
  /\ (decode_balance_response b <> Panic
      /\ forall x, decode_balance_response b = Ok (Some x) <-> b = encode_balance_response x /\ balance_ok x)
  /\ (decode_history_response b <> Panic
      /\ forall x, decode_history_response b = Ok (Some x) <-> b = encode_history_response x /\ history_ok x).
Proof.
  split_and!; auto using decode_beacon_total, decode_balance_total, decode_history_total,
    decode_balance_exact, decode_history_exact.
  intros x. split; [now apply decode_beacon_inv|]. intros [-> Hx]. now apply decode_encode_beacon.
Qed.

Definition sample_history : HistoryResponse :=
  mkHistoryResponse (replicate 20 9) 100 5 [mkHistory (replicate 32 1) (replicate 20 2) 300000 17 3].

Lemma mesh_payloads_exact_witness :
  history_ok sample_history
  /\ decode_history_response (encode_history_response sample_history) = Ok (Some sample_history).
Proof.
  assert (Hok : history_ok sample_history).
  { repeat constructor; try (apply bytes_okb_ok; reflexivity); vm_compute; congruence. }
  assert (Hb : bytes_ok (encode_history_response sample_history)) by (apply bytes_okb_ok; reflexivity).
  split; [exact Hok|]. apply (mesh_payloads_exact (encode_history_response sample_history) Hb). auto.
Defined.

(** The balance and history shown for an address are the freshest heard.
    After any sequence of responses the cached answer of an address is one that
    was heard for that address and the node's own network, read at a height at
    least that of every other such answer, and there is none only if none was
    heard: a replayed or foreign answer never rolls it back. *)
Theorem caches_freshest (network : Z) (bs : list BalanceResponse) (hs : list HistoryResponse) (a : bytes) :
  best_answer br_network_id br_address br_head_height to_cached network bs a
    (balance_get (balances_after network bs) a)
  /\ best_answer hs_network_id hs_address hs_head_height id network hs a
       (history_get (histories_after network hs) a).
Proof.
  split.
  - unfold balances_after. set (c0 := balance_cache_for network).
    assert (H0 : best_answer br_network_id br_address br_head_height to_cached network [] a (balance_get c0 a)).
    { replace (balance_get c0 a) with (@None CachedBalance) by (symmetry; apply lookup_empty).
      intros r Hr. now apply not_elem_of_nil in Hr. }
    assert (Hn : bc_network_id c0 = Some network) by reflexivity. clearbody c0.
    change bs with ([] ++ bs) at 1. revert H0 Hn. generalize (@nil BalanceResponse). revert c0.
    induction bs as [|r bs IH]; intros c0 heard H0 Hn; simpl; [now rewrite app_nil_r|].
    rewrite (cons_middle r heard bs), app_assoc. destruct (balance_step network c0 r a Hn) as [Hn' E].
    apply IH; [rewrite E; now apply keep_best | exact Hn'].
  - apply (fold_best _ _ _ _ hs_head_height (fun r => eq_refl) network _ (fun c a => history_get c a)
             (history_step network) hs ∅ [] a).
    unfold history_get. rewrite lookup_empty. intros r Hr. now apply not_elem_of_nil in Hr.
Qed.
