(* ===== verification/Chat.v ===== *)
(** * Chat: the public chat payload and log ([chat.rs])

    A [String] is its bytes; [utf8_valid] is the test of [str::from_utf8], which
    every [String] passes.  The engine handlers of [chat.rs] are in [Engine]. *)

From stdpp Require Import base list.
From Stdlib Require Import ZArith Lia.
From S2P Require Import Prelude Packet Reader.
Open Scope Z_scope.

(** ** UTF-8 *)

Definition in_byte_range (lo hi b : Z) : bool := (lo <=? b) && (b <=? hi).

Definition is_cont (b : Z) : bool := in_byte_range 0x80 0xBF b.

(** The second byte a leading byte of three or four bytes admits: no overlong
    form, no surrogate, nothing beyond the last code point. *)
Definition second_ok (b0 b1 : Z) : bool :=
  if b0 =? 0xE0 then in_byte_range 0xA0 0xBF b1
  else if b0 =? 0xED then in_byte_range 0x80 0x9F b1
  else if b0 =? 0xF0 then in_byte_range 0x90 0xBF b1
  else if b0 =? 0xF4 then in_byte_range 0x80 0x8F b1
  else is_cont b1.

Fixpoint utf8_valid (l : bytes) : bool :=
  match l with
  | [] => true
  | b0 :: r0 =>
      if b0 <? 0x80 then utf8_valid r0 else
      match r0 with
      | [] => false
      | b1 :: r1 =>
          if in_byte_range 0xC2 0xDF b0 then is_cont b1 && utf8_valid r1 else
          match r1 with
          | [] => false
          | b2 :: r2 =>
              if in_byte_range 0xE0 0xEF b0 then second_ok b0 b1 && is_cont b2 && utf8_valid r2 else
              match r2 with
              | [] => false
              | b3 :: r3 =>
                  in_byte_range 0xF0 0xF4 b0 && second_ok b0 b1 && is_cont b2 && is_cont b3
                  && utf8_valid r3
              end
          end
      end
  end.

(** ** The payload *)

Definition CHAT_VERSION : Z := 1.
Definition MAX_NICK_BYTES : Z := 32.
Definition MAX_TEXT_BYTES : Z := 160.
Definition CHAT_LOG_CAP : Z := 200.

Definition encode_chat (nickname text : bytes) (timestamp_ms : Z) : option bytes :=
  if (len nickname >? MAX_NICK_BYTES) || (len text =? 0) || (len text >? MAX_TEXT_BYTES) then None else
  Some ([CHAT_VERSION] ++ be_bytes 8 timestamp_ms ++ [wrapN 8 (len nickname)] ++ nickname
        ++ be_bytes 2 (wrapN 16 (len text)) ++ text).

(** [Err tt] is [None]. *)
Definition decode_chat (payload : bytes) : res unit (Z * bytes * bytes) :=
  let? (v, i) := take_byte tt payload 0 in
  if negb (v =? CHAT_VERSION) then Err tt else
  let? (ts, i) := take_be tt payload i 8 in
  let? (nick_len, i) := take_byte tt payload i in
  if nick_len >? MAX_NICK_BYTES then Err tt else
  let? (nick, i) := take_vec tt payload i nick_len in
  if negb (utf8_valid nick) then Err tt else
  let? (text_len, i) := take_be tt payload i 2 in
  if (text_len =? 0) || (text_len >? MAX_TEXT_BYTES) then Err tt else
  let? (text, i) := take_vec tt payload i text_len in
  if negb (utf8_valid text) then Err tt else
  if negb (i =? len payload) then Err tt else
  Ok (ts, nick, text).

(** ** The log *)

Record ChatEntry : Type := mkChat {
  ch_sender : bytes;
  ch_seq : Z;
  ch_nickname : bytes;
  ch_text : bytes;
  ch_timestamp_ms : Z;
  ch_mine : bool
}.

Abbreviation ChatLog := (list ChatEntry).

(** The eviction loop of [push]. *)
Fixpoint evict_oldest (l : ChatLog) : ChatLog :=
  match l with
  | [] => []
  | e :: rest => if len l >? CHAT_LOG_CAP then evict_oldest rest else l
  end.

Definition chat_push (l : ChatLog) (e : ChatEntry) : ChatLog :=
  if existsb (fun x => bytes_eqb (ch_sender x) (ch_sender e) && (ch_seq x =? ch_seq e)) l then l
  else evict_oldest (l ++ [e]).

(** ** Lemmas *)

Definition chat_ok (x : Z * bytes * bytes) : Prop :=
  let '(ts, nick, text) := x in
  uN 64 ts /\ bytes_ok nick /\ bytes_ok text
  /\ utf8_valid nick = true /\ utf8_valid text = true
  /\ len nick <= MAX_NICK_BYTES /\ 0 < len text <= MAX_TEXT_BYTES.

Lemma encode_chat_some ts nick text :
  chat_ok (ts, nick, text) ->
  encode_chat nick text ts
  = Some ([CHAT_VERSION] ++ be_bytes 8 ts ++ [len nick] ++ nick ++ be_bytes 2 (len text) ++ text).
Proof.
  intros (_ & _ & _ & _ & _ & Hn & Ht). unfold encode_chat, MAX_NICK_BYTES, MAX_TEXT_BYTES, wrapN in *.
  pose proof (len_nonneg nick).
  destruct (Z.gtb_spec (len nick) 32), (Z.eqb_spec (len text) 0), (Z.gtb_spec (len text) 160); try lia.
  cbn [orb]. now rewrite !Z.mod_small by lia.
Qed.

Lemma decode_encode_chat ts nick text b :
  chat_ok (ts, nick, text) -> encode_chat nick text ts = Some b -> decode_chat b = Ok (ts, nick, text).
Proof.
  intros Hok He. rewrite (encode_chat_some ts) in He by exact Hok. injection He as <-.
  destruct Hok as (Hts & _ & _ & Hun & Hut & Hn & Ht).
  match goal with |- decode_chat ?x = _ => remember x as b eqn:Eb end. pose proof (len_nonneg nick).
  assert (Hlen : len b = 12 + len nick + len text).
  { rewrite Eb. len_simpl. lia. }
  unfold MAX_NICK_BYTES, MAX_TEXT_BYTES in *.
  assert (Hb : len b < 2 ^ 64) by lia.
  pose proof (at_pos_0 b) as Hp. rewrite Eb in Hp at 2. clear Eb. cbn [app] in Hp.
  unfold decode_chat, MAX_NICK_BYTES, MAX_TEXT_BYTES.
  read_next Hb. rewrite Z.eqb_refl. cbn [negb]. read_next Hb. read_next Hb.
  destruct (Z.gtb_spec (len nick) 32); [lia|]. read_next Hb. rewrite Hun. cbn [negb].
  read_next Hb. destruct (Z.eqb_spec (len text) 0); [lia|]. destruct (Z.gtb_spec (len text) 160); [lia|].
  cbn [orb]. rename select (at_pos _ _ _) into Hp. rewrite <- (app_nil_r text) in Hp at 1.
  read_next Hb. rewrite Hut. cbn [negb].
  destruct (Z.eqb_spec (0 + 1 + Z.of_nat 8 + 1 + len nick + Z.of_nat 2 + len text) (len b)); [reflexivity | lia].
Qed.

Lemma decode_chat_spec b :
  bytes_ok b ->
  match decode_chat b with
  | Ok (ts, nick, text) => chat_ok (ts, nick, text) /\ encode_chat nick text ts = Some b
  | Err _ => True
  | Panic => False
  end.
Proof.
  intros Hok. unfold decode_chat, MAX_NICK_BYTES, MAX_TEXT_BYTES. pose proof (at_pos_0 b) as Hp.
  set (whole := b) in Hp at 2. assert (Hw : b = whole) by reflexivity. clearbody whole.
  read_case. destruct (Z.eqb_spec x CHAT_VERSION) as [->|]; cbn [negb]; [|exact I].
  read_case. read_case.
  assert (Hx0 : uN 8 x0).
  { rewrite Hw in Hok. rewrite bytes_ok_cons, bytes_ok_app, bytes_ok_cons in Hok. tauto. }
  unfold uN in Hx0. destruct (Z.gtb_spec x0 32); [exact I|]. read_case.
  destruct (utf8_valid v) eqn:Hu; cbn [negb]; [|exact I]. read_case.
  destruct (Z.eqb_spec x1 0); [exact I|]. destruct (Z.gtb_spec x1 160); [exact I|]. cbn [orb].
  read_case. destruct (utf8_valid v0) eqn:Hu0; cbn [negb]; [|exact I].
  destruct (Z.eqb_spec q4 (len b)) as [He|]; cbn [negb]; [|exact I].
  rename select (at_pos b q4 _) into Hlast. destruct Hlast as (pre & Hpre & Hqp).
  assert (Hr : rest0 = []).
  { destruct rest0; [reflexivity|]. exfalso. rewrite Hpre, len_app, len_cons in He.
    pose proof (len_nonneg rest0). lia. }
  subst rest0. rewrite app_nil_r in Hw.
  assert (Hc : chat_ok (x, v, v0)).
  { rewrite Hw in Hok. rewrite bytes_ok_cons, !bytes_ok_app, bytes_ok_cons, !bytes_ok_app in Hok.
    unfold chat_ok, MAX_NICK_BYTES, MAX_TEXT_BYTES, uN. split_and!; try tauto; lia. }
  split; [exact Hc|]. rewrite (encode_chat_some x v v0 Hc), Hw. cbn [app]. do 2 f_equal.
  repeat f_equal; congruence.
Qed.

(** The eviction leaves the newest [CHAT_LOG_CAP] entries. *)
Lemma evict_oldest_spec l : evict_oldest l = drop (length l - Z.to_nat CHAT_LOG_CAP) l.
Proof.
  induction l as [|e l IH]; [reflexivity|]. cbn [evict_oldest]. unfold CHAT_LOG_CAP in *.
  destruct (Z.gtb_spec (len (e :: l)) 200) as [Hgt|Hle]; unfold len in *; cbn [length] in *.
  - rewrite IH. replace (S (length l) - Z.to_nat 200)%nat with (S (length l - Z.to_nat 200)) by lia. reflexivity.
  - replace (S (length l) - Z.to_nat 200)%nat with 0%nat by lia. reflexivity.
Qed.

Definition chat_key (e : ChatEntry) : bytes * Z := (ch_sender e, ch_seq e).

Lemma chat_push_spec l e :
  chat_push l e
  = if decide (chat_key e ∈ map chat_key l) then l
    else drop (S (length l) - Z.to_nat CHAT_LOG_CAP) (l ++ [e]).
Proof.
  unfold chat_push. rewrite evict_oldest_spec, length_app, Nat.add_1_r.
  assert (Hiff : existsb (fun x => bytes_eqb (ch_sender x) (ch_sender e) && (ch_seq x =? ch_seq e)) l = true
                 <-> chat_key e ∈ map chat_key l).
  { rewrite existsb_exists, list_elem_of_fmap. unfold bytes_eqb, chat_key. split.
    - intros (x & Hx%list_elem_of_In & He). bool_prop. exists x. split; [congruence | exact Hx].
    - intros (x & He & Hx%list_elem_of_In). exists x. injection He as -> ->.
      rewrite bool_decide_true, Z.eqb_refl by reflexivity. auto. }
  destruct (existsb _ l); case_decide as Hd; try reflexivity.
  - now destruct Hd; apply Hiff.
  - now apply Hiff in Hd.
Qed.

(** ** Properties *)

(** The chat payload.  On arbitrary bytes the decoder never panics, and it
    accepts exactly the encodings of a time, a nickname of at most 32 bytes and
    a non-empty text of at most 160 bytes, both valid UTF-8; every such message
    is encoded, and no two byte strings carry the same message. *)
Theorem chat_codec_exact (b : bytes) (Hb : bytes_ok b) :
  decode_chat b <> Panic
  /\ forall ts nick text, decode_chat b = Ok (ts, nick, text)
       <-> chat_ok (ts, nick, text) /\ encode_chat nick text ts = Some b.
Proof.
  pose proof (decode_chat_spec b Hb) as H. split; [intros E; now rewrite E in H|].
  intros ts nick text. split.
  - intros E. now rewrite E in H.
  - intros [Hok He]. exact (decode_encode_chat ts nick text b Hok He).
Qed.

Lemma chat_codec_exact_witness :
  decode_chat ([1] ++ be_bytes 8 77 ++ [1] ++ [110] ++ [0; 3] ++ [0xE2; 0x82; 0xAC])
  = Ok (77, [110], [0xE2; 0x82; 0xAC]).
Proof.
  assert (Hb : bytes_ok ([1] ++ be_bytes 8 77 ++ [1] ++ [110] ++ [0; 3] ++ [0xE2; 0x82; 0xAC]))
    by (apply bytes_okb_ok; reflexivity).
  apply (chat_codec_exact _ Hb). split; [|reflexivity].
  unfold chat_ok, uN. split_and!; try reflexivity; try (apply bytes_okb_ok; reflexivity); vm_compute; congruence.
Defined.

(** The log with the messages heard so far. *)
Record log_ok (l : ChatLog) (heard : list ChatEntry) : Prop := {
  lo_len : len l <= CHAT_LOG_CAP;
  lo_nodup : NoDup (map chat_key l);
  lo_sub : l `sublist_of` heard
}.

Lemma chat_push_ok l heard e : log_ok l heard -> log_ok (chat_push l e) (heard ++ [e]).
Proof.
  intros [Hl Hn Hs]. rewrite chat_push_spec. case_decide as Hd.
  - constructor; auto. now apply sublist_inserts_r.
  - assert (Hn' : NoDup (map chat_key (l ++ [e]))).
    { rewrite map_app. apply NoDup_app. split_and!; [exact Hn | | apply NoDup_singleton].
      intros x Hx ->%list_elem_of_singleton. contradiction. }
    set (n := (S (length l) - Z.to_nat CHAT_LOG_CAP)%nat). constructor.
    + unfold len, CHAT_LOG_CAP in *. rewrite length_drop, length_app. simpl. unfold n. lia.
    + rewrite <- (take_drop n (l ++ [e])), map_app in Hn'. now apply NoDup_app in Hn' as (_ & _ & ?).
    + etransitivity; [apply sublist_drop|]. now apply sublist_app.
Qed.

(** The chat log.  After any sequence of messages the log holds at most 200
    entries, no message twice, in the order they were heard; and a message that
    is not in it is added as its last entry. *)
Theorem chat_log_bounded (es : list ChatEntry) (e : ChatEntry) :
  let log := foldl chat_push [] es in
  log_ok log es
  /\ (chat_key e ∉ map chat_key log -> last (chat_push log e) = Some e).
Proof.
  intros log. split.
  - assert (H : forall es l heard, log_ok l heard -> log_ok (foldl chat_push l es) (heard ++ es)).
    { clear. induction es as [|e es IH]; intros l heard H; simpl; [now rewrite app_nil_r|].
      rewrite (cons_middle e heard es), app_assoc. now apply IH, chat_push_ok. }
    apply (H es [] []). constructor; [vm_compute; congruence | apply NoDup_nil_2 | apply sublist_nil].
  - intros He. rewrite chat_push_spec, decide_False by exact He.
    rewrite drop_app_le by (unfold CHAT_LOG_CAP; lia). apply last_snoc.
Qed.
