(* ===== verification/Noise.v ===== *)
(** * Noise: the encrypted channel between two peers ([noise.rs])

    The Noise library is a parameter ([Snow]): its handshake states and its stateless
    transports are types with the calls the code makes.  What is this program's own is
    modelled in full: the anti-replay window as sixteen 64-bit words addressed modulo
    1024, the counters, the framing of a sealed blob and of a targeted payload, and the
    order of authentication before the window is touched. *)

From stdpp Require Import base list sets.
From Stdlib Require Import ZArith Lia.
From S2P Require Import Prelude Packet Crypto.
Open Scope Z_scope.

(** ** Constants and errors *)

Definition STATIC_KEY_LEN : Z := 32.
Definition REPLAY_WINDOW : Z := 1024.
Definition NONCE_PREFIX_LEN : Z := 8.
Definition NOISE_TAG_LEN : Z := 16.
Definition MIN_SEALED_LEN : Z := NONCE_PREFIX_LEN + NOISE_TAG_LEN.

Inductive NoisePayloadType : Type := NpChat | NpNimiqTx | NpNimiqTxReceipt.

#[export] Instance NoisePayloadType_eq_dec : EqDecision NoisePayloadType.
Proof. solve_decision. Defined.

Definition payload_to_u8 (t : NoisePayloadType) : Z :=
  match t with NpChat => 0x01 | NpNimiqTx => 0x04 | NpNimiqTxReceipt => 0x05 end.

Definition payload_from_u8 (b : Z) : option NoisePayloadType :=
  if b =? 0x01 then Some NpChat
  else if b =? 0x04 then Some NpNimiqTx
  else if b =? 0x05 then Some NpNimiqTxReceipt
  else None.

Inductive NoiseError : Type :=
| NeNoise
| NeTooShort (got : Z)
| NeReplay (counter : Z)
| NeHandshakeIncomplete
| NeBadPayloadType (found : option Z).

(** ** The library *)

Class Snow : Type := {
  HandshakeState : Type;
  TransportState : Type;
  x25519_public : bytes -> bytes;
  build_initiator : bytes -> res NoiseError HandshakeState;
  build_responder : bytes -> res NoiseError HandshakeState;
  hs_is_initiator : HandshakeState -> bool;
  is_handshake_finished : HandshakeState -> bool;
  (** the payload and the room for the output *)
  hs_write : HandshakeState -> bytes -> Z -> HandshakeState * res NoiseError bytes;
  hs_read : HandshakeState -> bytes -> Z -> HandshakeState * res NoiseError bytes;
  get_remote_static : HandshakeState -> option bytes;
  into_stateless : HandshakeState -> res NoiseError TransportState;
  (** nonce, input, room for the output *)
  ts_write : TransportState -> Z -> bytes -> Z -> res NoiseError bytes;
  ts_read : TransportState -> Z -> bytes -> Z -> res NoiseError bytes
}.

(** ** The replay window *)

Record ReplayWindow : Type := mkWindow { rw_highest : Z; rw_bitmap : list Z }.

Definition empty_bitmap : list Z := replicate (Z.to_nat (REPLAY_WINDOW / 64)) 0.

Definition window_new : ReplayWindow := mkWindow 0 empty_bitmap.

(** [bitmap[slot / 64]]: the slot is below 1024, so the index is in range. *)
Definition slot_of (counter : Z) : Z := counter mod REPLAY_WINDOW.
Definition word_of (b : list Z) (slot : Z) : Z := b !!! Z.to_nat (slot / 64).
Definition mask_of (slot : Z) : Z := wrapN 64 (Z.shiftl 1 (slot mod 64)).

Definition window_set (b : list Z) (counter : Z) : list Z :=
  let slot := slot_of counter in
  <[Z.to_nat (slot / 64) := Z.lor (word_of b slot) (mask_of slot)]> b.

Definition window_clear (b : list Z) (counter : Z) : list Z :=
  let slot := slot_of counter in
  <[Z.to_nat (slot / 64) := Z.land (word_of b slot) (wrapN 64 (Z.lnot (mask_of slot)))]> b.

Definition is_set (b : list Z) (counter : Z) : bool :=
  let slot := slot_of counter in
  negb (Z.land (word_of b slot) (mask_of slot) =? 0).

Definition window_accept (w : ReplayWindow) (counter : Z) : ReplayWindow * bool :=
  let highest := rw_highest w in
  if counter =? 0 then (w, false) else
  if highest <? counter then
    let first_new := highest + 1 in
    let span := Z.min (counter - highest) REPLAY_WINDOW in
    let from := Z.max (counter - span + 1) first_new in
    let bitmap := foldl window_clear (rw_bitmap w) (map (fun k => from + Z.of_nat k) (seq 0 (Z.to_nat (counter - from + 1)))) in
    let bitmap := if REPLAY_WINDOW <=? counter - highest then empty_bitmap else bitmap in
    (mkWindow counter (window_set bitmap counter), true)
  else if REPLAY_WINDOW <=? highest - counter then (w, false)
  else if is_set (rw_bitmap w) counter then (w, false)
  else (mkWindow highest (window_set (rw_bitmap w) counter), true).

(** ** Identity, handshake and session *)

Section noise.
Context `{C : Crypto} `{SN : Snow}.

Definition fingerprint_of (public_key : bytes) : bytes := sha256 public_key.

Record StaticIdentity : Type := mkIdentity { id_secret : bytes; id_public : bytes }.

Definition from_secret_key (secret : bytes) : StaticIdentity := mkIdentity secret (x25519_public secret).

Definition fingerprint (i : StaticIdentity) : bytes := fingerprint_of (id_public i).

Definition handshake_new (i : StaticIdentity) (initiator : bool) : res NoiseError HandshakeState :=
  if initiator then build_initiator (id_secret i) else build_responder (id_secret i).

Definition start_initiator (i : StaticIdentity) : res NoiseError HandshakeState := handshake_new i true.
Definition start_responder (i : StaticIdentity) : res NoiseError HandshakeState := handshake_new i false.

Definition hs_write_message (h : HandshakeState) (payload : bytes) : HandshakeState * res NoiseError bytes :=
  hs_write h payload (len payload + 256).

Definition hs_read_message (h : HandshakeState) (message : bytes) : HandshakeState * res NoiseError bytes :=
  hs_read h message (len message + 256).

Record Session : Type := mkSession {
  se_transport : TransportState;
  se_send_counter : Z;
  se_replay : ReplayWindow;
  se_remote_fingerprint : option bytes
}.

Definition into_session (h : HandshakeState) : res NoiseError Session :=
  if negb (is_handshake_finished h) then Err NeHandshakeIncomplete else
  let remote_fingerprint := fingerprint_of <$> get_remote_static h in
  let? transport := into_stateless h in
  Ok (mkSession transport 0 window_new remote_fingerprint).

Definition encrypt (s : Session) (plaintext : bytes) : Session * res NoiseError bytes :=
  let counter := wrapN 64 (se_send_counter s + 1) in
  let s := mkSession (se_transport s) counter (se_replay s) (se_remote_fingerprint s) in
  (s, let? cipher := ts_write (se_transport s) counter plaintext (len plaintext + NOISE_TAG_LEN) in
      Ok (be_bytes 8 counter ++ cipher)).

Definition decrypt (s : Session) (sealed : bytes) : Session * res NoiseError bytes :=
  if len sealed <? MIN_SEALED_LEN then (s, Err (NeTooShort (len sealed))) else
  let counter := from_be (take 8 sealed) in
  let cipher := drop 8 sealed in
  match ts_read (se_transport s) counter cipher (len cipher) with
  | Ok plain =>
      let '(replay, ok) := window_accept (se_replay s) counter in
      let s := mkSession (se_transport s) (se_send_counter s) replay (se_remote_fingerprint s) in
      (s, if ok then Ok plain else Err (NeReplay counter))
  | Err e => (s, Err e)
  | Panic => (s, Panic)
  end.

Definition seal_memo (s : Session) (memo : bytes) : Session * res NoiseError bytes := encrypt s memo.
Definition open_memo (s : Session) (blob : bytes) : Session * res NoiseError bytes := decrypt s blob.

Definition seal_payload (s : Session) (inner_type : NoisePayloadType) (inner : bytes) : Session * res NoiseError bytes :=
  encrypt s (payload_to_u8 inner_type :: inner).

Definition open_payload (s : Session) (blob : bytes) : Session * res NoiseError (NoisePayloadType * bytes) :=
  let '(s, r) := decrypt s blob in
  (s, let? plaintext := r in
      match plaintext with
      | [] => Err (NeBadPayloadType None)
      | type_byte :: inner =>
          match payload_from_u8 type_byte with
          | Some inner_type => Ok (inner_type, inner)
          | None => Err (NeBadPayloadType (Some type_byte))
          end
      end).

(** [handshake_xx]: the three messages, each written by one end and read by the other *)
Definition handshake_xx (initiator responder : StaticIdentity) : res NoiseError (Session * Session) :=
  let? ini := start_initiator initiator in
  let? rsp := start_responder responder in
  let '(ini, m1) := hs_write_message ini [] in
  let? m1 := m1 in
  let '(rsp, r1) := hs_read_message rsp m1 in
  let? _ := r1 in
  let '(rsp, m2) := hs_write_message rsp [] in
  let? m2 := m2 in
  let '(ini, r2) := hs_read_message ini m2 in
  let? _ := r2 in
  let '(ini, m3) := hs_write_message ini [] in
  let? m3 := m3 in
  let '(rsp, r3) := hs_read_message rsp m3 in
  let? _ := r3 in
  let? si := into_session ini in
  let? sr := into_session rsp in
  Ok (si, sr).
End noise.

(** ** The window as a set of counters *)

(** The bit of a slot *)
Definition slot_bit (b : list Z) (slot : Z) : bool := Z.testbit (word_of b slot) (slot mod 64).

Lemma mask_of_pow slot : 0 <= slot -> mask_of slot = 2 ^ (slot mod 64).
Proof.
  intros H. unfold mask_of, wrapN. pose proof (Z.mod_pos_bound slot 64 eq_refl).
  rewrite Z.shiftl_mul_pow2, Z.mul_1_l by lia. apply Z.mod_small. split; [lia|]. apply Z.pow_lt_mono_r; lia.
Qed.

Lemma slot_range c : 0 <= slot_of c < 1024.
Proof. unfold slot_of, REPLAY_WINDOW. apply Z.mod_pos_bound. lia. Qed.

Lemma is_set_bit b c : is_set b c = slot_bit b (slot_of c).
Proof.
  unfold is_set, slot_bit. pose proof (slot_range c). rewrite mask_of_pow by lia.
  pose proof (Z.mod_pos_bound (slot_of c) 64 eq_refl). set (k := slot_of c mod 64) in *. set (w := word_of b (slot_of c)).
  destruct (Z.testbit w k) eqn:E.
  - destruct (Z.eqb_spec (Z.land w (2 ^ k)) 0) as [E0|]; [exfalso|done].
    apply (f_equal (fun z => Z.testbit z k)) in E0. rewrite Z.land_spec, Z.bits_0, E, Z.pow2_bits_true in E0 by lia. done.
  - replace (Z.land w (2 ^ k)) with 0; [done|]. symmetry. apply Z.bits_inj'. intros n Hn.
    rewrite Z.land_spec, Z.bits_0. destruct (Z.eq_dec k n) as [<-|Hne]; [by rewrite E|].
    rewrite Z.pow2_bits_false by lia. apply andb_false_r.
Qed.

Lemma word_insert b s t v : length b = 16%nat -> 0 <= s < 1024 -> 0 <= t < 1024 ->
  word_of (<[Z.to_nat (s / 64) := v]> b) t = if s / 64 =? t / 64 then v else word_of b t.
Proof.
  intros Hl Hs Ht. unfold word_of.
  assert (0 <= s / 64 < 16) by (split; [apply Z.div_pos | apply Z.div_lt_upper_bound]; lia).
  assert (0 <= t / 64) by (apply Z.div_pos; lia).
  destruct (Z.eqb_spec (s / 64) (t / 64)) as [E|Hne].
  - rewrite <- E. apply list_lookup_total_insert_eq. lia.
  - apply list_lookup_total_insert_ne. intros E%Z2Nat.inj; lia.
Qed.

Lemma slot_split s t : 0 <= s -> 0 <= t -> (s =? t) = ((s / 64 =? t / 64) && (s mod 64 =? t mod 64)).
Proof.
  intros Hs Ht. pose proof (Z.div_mod s 64 ltac:(lia)). pose proof (Z.div_mod t 64 ltac:(lia)).
  destruct (Z.eqb_spec s t), (Z.eqb_spec (s / 64) (t / 64)), (Z.eqb_spec (s mod 64) (t mod 64)); cbn; try done; subst; lia.
Qed.

Lemma set_bit b c t : length b = 16%nat -> 0 <= t < 1024 ->
  slot_bit (window_set b c) t = (slot_of c =? t) || slot_bit b t.
Proof.
  intros Hl Ht. pose proof (slot_range c) as Hc. unfold slot_bit, window_set. rewrite word_insert by done.
  rewrite (slot_split (slot_of c) t) by lia. destruct (Z.eqb_spec (slot_of c / 64) (t / 64)) as [E|]; [|done]. cbn [andb].
  rewrite Z.lor_spec, mask_of_pow by lia. pose proof (Z.mod_pos_bound (slot_of c) 64 eq_refl). pose proof (Z.mod_pos_bound t 64 eq_refl).
  replace (word_of b (slot_of c)) with (word_of b t) by (unfold word_of; by rewrite E).
  rewrite Z.pow2_bits_eqb by lia. apply orb_comm.
Qed.

Lemma clear_bit b c t : length b = 16%nat -> 0 <= t < 1024 ->
  slot_bit (window_clear b c) t = negb (slot_of c =? t) && slot_bit b t.
Proof.
  intros Hl Ht. pose proof (slot_range c) as Hc. unfold slot_bit, window_clear. rewrite word_insert by done.
  rewrite (slot_split (slot_of c) t) by lia. destruct (Z.eqb_spec (slot_of c / 64) (t / 64)) as [E|]; [|done]. cbn [andb].
  pose proof (Z.mod_pos_bound (slot_of c) 64 eq_refl). pose proof (Z.mod_pos_bound t 64 eq_refl).
  replace (word_of b (slot_of c)) with (word_of b t) by (unfold word_of; by rewrite E).
  rewrite Z.land_spec. unfold wrapN. rewrite Z.mod_pow2_bits_low, Z.lnot_spec, mask_of_pow, Z.pow2_bits_eqb by lia. apply andb_comm.
Qed.

Lemma window_set_length b c : length (window_set b c) = length b.
Proof. apply length_insert. Qed.
Lemma window_clear_length b c : length (window_clear b c) = length b.
Proof. apply length_insert. Qed.

Lemma empty_bit t : 0 <= t < 1024 -> slot_bit empty_bitmap t = false.
Proof.
  intros Ht. unfold slot_bit, word_of, empty_bitmap. rewrite lookup_total_replicate_2; [apply Z.bits_0|].
  change (Z.to_nat (REPLAY_WINDOW / 64)) with (Z.to_nat 16). apply Z2Nat.inj_lt; [apply Z.div_pos; lia|lia|apply Z.div_lt_upper_bound; lia].
Qed.

Lemma clears_bit cs b t : length b = 16%nat -> 0 <= t < 1024 ->
  length (foldl window_clear b cs) = 16%nat
  /\ slot_bit (foldl window_clear b cs) t = negb (existsb (fun c => slot_of c =? t) cs) && slot_bit b t.
Proof.
  revert b. induction cs as [|c cs IH]; intros b Hl Ht; cbn; [done|].
  destruct (IH (window_clear b c)) as [H1 H2]; [by rewrite window_clear_length|done|]. split; [done|].
  rewrite H2, clear_bit by done. by destruct (slot_of c =? t), (existsb _ cs).
Qed.

(** The reference: the counters accepted so far, newest first, and the test on them. *)
Definition highest_of (seen : list Z) : Z := foldr Z.max 0 seen.

Definition fresh (seen : list Z) (c : Z) : bool :=
  (0 <? c) && negb (bool_decide (c ∈ seen)) && (highest_of seen - c <? REPLAY_WINDOW).

Record tracks (w : ReplayWindow) (seen : list Z) : Prop := {
  tk_highest : rw_highest w = highest_of seen;
  tk_words : length (rw_bitmap w) = 16%nat;
  tk_bits : forall c, 1 <= c <= highest_of seen -> highest_of seen - c < REPLAY_WINDOW -> is_set (rw_bitmap w) c = bool_decide (c ∈ seen)
}.

Lemma fresh_new seen c : fresh seen c = true -> c ∉ seen.
Proof. unfold fresh. rewrite !andb_true_iff, negb_true_iff, bool_decide_eq_false. tauto. Qed.

Lemma highest_bound seen c : c ∈ seen -> c <= highest_of seen.
Proof. unfold highest_of. induction 1; cbn; lia. Qed.

Lemma highest_nonneg seen : 0 <= highest_of seen.
Proof. unfold highest_of. induction seen; cbn; lia. Qed.

Lemma highest_cons c seen : highest_of (c :: seen) = Z.max c (highest_of seen).
Proof. done. Qed.

(** Two counters less than a window apart have different slots. *)
Lemma slot_inj c d : slot_of c = slot_of d -> - 1024 < c - d < 1024 -> c = d.
Proof.
  unfold slot_of, REPLAY_WINDOW. intros E H. pose proof (Z.div_mod c 1024 ltac:(lia)). pose proof (Z.div_mod d 1024 ltac:(lia)).
  assert (c / 1024 = d / 1024) by nia. lia.
Qed.

Lemma tracks_new : tracks window_new [].
Proof. split; cbn; [done..|lia]. Qed.

(** The words after the window has moved up to a counter: the counters it passed are
    clear, and those still in it are as they were. *)
Lemma advance_bits w seen c d : tracks w seen -> highest_of seen < c ->
  let h := rw_highest w in
  let from := Z.max (c - Z.min (c - h) REPLAY_WINDOW + 1) (h + 1) in
  let b := foldl window_clear (rw_bitmap w) (map (fun k => from + Z.of_nat k) (seq 0 (Z.to_nat (c - from + 1)))) in
  let b := if REPLAY_WINDOW <=? c - h then empty_bitmap else b in
  length b = 16%nat
  /\ (1 <= d < c -> c - d < REPLAY_WINDOW -> slot_bit b (slot_of d) = bool_decide (d ∈ seen)).
Proof.
  intros [Hh Hl Hb] Hc. cbv zeta. rewrite Hh. pose proof (highest_nonneg seen). unfold REPLAY_WINDOW.
  destruct (Z.leb_spec 1024 (c - highest_of seen)) as [Hw|Hw].
  - split; [done|]. intros Hd1 Hd2. rewrite empty_bit by apply slot_range. symmetry. apply bool_decide_eq_false_2. intros Hin%highest_bound. lia.
  - rewrite Z.min_l, Z.max_l by lia. replace (c - (c - highest_of seen) + 1) with (highest_of seen + 1) by lia.
    destruct (clears_bit (map (fun k => highest_of seen + 1 + Z.of_nat k) (seq 0 (Z.to_nat (c - (highest_of seen + 1) + 1))))
                (rw_bitmap w) (slot_of d) Hl (slot_range d)) as [H1 H2]. split; [exact H1|]. rewrite H2. intros Hd1 Hd2.
    destruct (decide (highest_of seen < d)) as [Hhd|Hhd].
    + replace (existsb _ _) with true; cbn.
      * symmetry. apply bool_decide_eq_false_2. intros Hin%highest_bound. lia.
      * symmetry. apply existsb_exists. exists d. split; [|apply Z.eqb_refl]. apply in_map_iff.
        exists (Z.to_nat (d - (highest_of seen + 1))). split; [lia|]. apply in_seq. lia.
    + replace (existsb _ _) with false; cbn; [rewrite <- is_set_bit; apply Hb; unfold REPLAY_WINDOW; lia|].
      symmetry. apply not_true_iff_false. rewrite existsb_exists. intros (x & Hx & Ex%Z.eqb_eq).
      apply in_map_iff in Hx as (k & <- & [_ Hk]%in_seq). apply slot_inj in Ex; lia.
Qed.

Lemma accept_tracks w seen c : tracks w seen -> 0 <= c ->
  let '(w', ok) := window_accept w c in
  ok = fresh seen c /\ tracks w' (if ok then c :: seen else seen).
Proof.
  intros T Hc. pose proof T as [Hh Hl Hb]. pose proof (highest_nonneg seen). unfold window_accept, fresh. rewrite Hh.
  destruct (Z.eqb_spec c 0) as [->|Hc0]; [by rewrite Z.ltb_irrefl|].
  rewrite (proj2 (Z.ltb_lt 0 c)) by lia. cbn [andb].
  destruct (Z.ltb_spec (highest_of seen) c) as [Hlt|Hge].
  - rewrite (proj2 (Z.ltb_lt _ _)) by (unfold REPLAY_WINDOW; lia).
    rewrite bool_decide_eq_false_2 by (intros Hin%highest_bound; lia). split; [done|].
    assert (A := fun d => advance_bits w seen c d T Hlt). cbv zeta in A. rewrite Hh in A.
    set (b := if (REPLAY_WINDOW <=? c - highest_of seen) then empty_bitmap else _) in *. clearbody b. destruct (A c) as [Ab _].
    split; cbn [rw_highest rw_bitmap]; rewrite ?highest_cons; [lia|by rewrite window_set_length|].
    intros d Hd1 Hd2. rewrite Z.max_l in * by lia. rewrite is_set_bit, set_bit by (done || apply slot_range).
    destruct (Z.eqb_spec (slot_of c) (slot_of d)) as [E|E].
    + apply slot_inj in E; [|unfold REPLAY_WINDOW in *; lia]. subst d. cbn. symmetry. apply bool_decide_eq_true_2. set_solver.
    + cbn. assert (d <> c) by congruence. rewrite (proj2 (A d)) by lia. apply bool_decide_ext. set_solver.
  - destruct (Z.leb_spec REPLAY_WINDOW (highest_of seen - c)) as [Hw|Hw].
    + rewrite (proj2 (Z.ltb_ge _ _)) by lia. rewrite andb_false_r. done.
    + rewrite (proj2 (Z.ltb_lt _ _)) by lia. rewrite (Hb c) by lia. destruct (bool_decide (c ∈ seen)) eqn:E; [done|]. cbn.
      split; [done|]. apply bool_decide_eq_false in E. split; cbn [rw_highest rw_bitmap]; rewrite ?highest_cons; [lia|by rewrite window_set_length|].
      rewrite Z.max_r by lia. intros d Hd1 Hd2.
      rewrite is_set_bit, set_bit, <- is_set_bit, (Hb d) by (done || apply slot_range).
      destruct (Z.eqb_spec (slot_of c) (slot_of d)) as [Es|Es]; cbn.
      * apply slot_inj in Es; [|unfold REPLAY_WINDOW in *; lia]. subst d. symmetry. apply bool_decide_eq_true_2. set_solver.
      * assert (d <> c) by congruence. apply bool_decide_ext. set_solver.
Qed.

(** ** The channel *)

(** What the library promises of the two transports of a finished handshake, in one
    direction: the tag adds 16 bytes, the other end opens what was sealed under the same
    nonce, and reading does not panic.  That nobody else can seal is not among them: a theorem
    that needs it says so of the blobs at hand. *)
Class TransportPair `{SN : Snow} (a b : TransportState) : Prop := {
  tp_len n p room c : ts_write a n p room = Ok c -> len c = len p + NOISE_TAG_LEN;
  tp_open n p room c : ts_write a n p room = Ok c -> ts_read b n c (len c) = Ok p;
  tp_total n c room : ts_read b n c room <> Panic
}.

Section channel.
Context `{SN : Snow}.

Fixpoint encrypt_all (s : Session) (ms : list bytes) : Session * list (res NoiseError bytes) :=
  match ms with
  | [] => (s, [])
  | m :: ms => let '(s, r) := encrypt s m in let '(s, rs) := encrypt_all s ms in (s, r :: rs)
  end.

Fixpoint decrypt_all (s : Session) (blobs : list bytes) : Session * list (res NoiseError bytes) :=
  match blobs with
  | [] => (s, [])
  | x :: blobs => let '(s, r) := decrypt s x in let '(s, rs) := decrypt_all s blobs in (s, r :: rs)
  end.

(** The reference: the receiver knows the blobs that were sealed, the message of each and the
    set of counters opened; message [i] has the counter [i + 1]. *)
Fixpoint received (ms blobs : list bytes) (seen : list Z) (arrivals : list bytes) : list (option bytes) :=
  match arrivals with
  | [] => []
  | x :: arrivals =>
      match list_find (fun y => y = x) blobs with
      | Some (i, _) =>
          let c := Z.of_nat i + 1 in
          if fresh seen c then Some (ms !!! i) :: received ms blobs (c :: seen) arrivals
          else None :: received ms blobs seen arrivals
      | None => None :: received ms blobs seen arrivals
      end
  end.

Definition opened (r : res NoiseError bytes) : option bytes := match r with Ok p => Some p | _ => None end.

(** A blob that an end opens although it was not sealed *)
Definition forged (b : TransportState) (blobs : list bytes) (x : bytes) : Prop :=
  x ∉ blobs /\ exists p, ts_read b (from_be (take 8 x)) (drop 8 x) (len (drop 8 x)) = Ok p.

Context (a b : TransportState) `{TP : !TransportPair a b}.

Lemma encrypt_all_blobs ms : forall s s' blobs, se_transport s = a -> 0 <= se_send_counter s ->
  se_send_counter s + len ms < 2 ^ 64 -> encrypt_all s ms = (s', map Ok blobs) ->
  length blobs = length ms
  /\ forall i m x, ms !! i = Some m -> blobs !! i = Some x ->
       exists cipher, x = be_bytes 8 (se_send_counter s + 1 + Z.of_nat i) ++ cipher
         /\ ts_write a (se_send_counter s + 1 + Z.of_nat i) m (len m + NOISE_TAG_LEN) = Ok cipher.
Proof.
  induction ms as [|m ms IH]; intros s s' blobs Ha H0 Hlt E; cbn in E.
  - destruct blobs; [split; [done|by intros [|i]]|discriminate].
  - destruct blobs as [|x blobs]; cbn in E; [destruct (encrypt_all _ _); discriminate|].
    rewrite len_cons in Hlt. pose proof (len_nonneg ms).
    assert (Ew : wrapN 64 (se_send_counter s + 1) = se_send_counter s + 1) by (unfold wrapN; apply Z.mod_small; lia).
    rewrite Ew in E. destruct (encrypt_all _ _) as [s2 rs] eqn:E2. injection E as -> Ex ->.
    apply IH in E2 as [Hl Hi]; [|done|cbn; lia|cbn; lia]. split; [cbn; lia|].
    intros [|i] m' x' Em Ex'.
    + injection Em as <-. injection Ex' as <-. rewrite Z.add_0_r. cbn [se_transport] in Ex. rewrite Ha in Ex.
      destruct (ts_write a _ _ _) as [c| |] eqn:Ec; [|discriminate..]. injection Ex as <-. eauto.
    + cbn [se_send_counter] in Hi. destruct (Hi i m' x' Em Ex') as (c & -> & Ec). exists c.
      replace (se_send_counter s + 1 + Z.of_nat (S i)) with (se_send_counter s + 1 + 1 + Z.of_nat i) by lia. done.
Qed.

(** Opening a blob of the other end *)
Lemma decrypt_sealed s m c cipher : se_transport s = b -> 0 <= c < 2 ^ 64 -> ts_write a c m (len m + NOISE_TAG_LEN) = Ok cipher ->
  decrypt s (be_bytes 8 c ++ cipher) =
  let '(w, ok) := window_accept (se_replay s) c in
  (mkSession b (se_send_counter s) w (se_remote_fingerprint s), if ok then Ok m else Err (NeReplay c)).
Proof.
  intros Hb Hc Hw. unfold decrypt. assert (Hl := tp_len _ _ _ _ Hw). pose proof (len_nonneg m).
  rewrite len_app, len_be_bytes, (proj2 (Z.ltb_ge _ _)) by (unfold MIN_SEALED_LEN, NONCE_PREFIX_LEN, NOISE_TAG_LEN in *; lia).
  assert (Hlb : length (be_bytes 8 c) = 8%nat) by (pose proof (len_be_bytes 8 c); unfold len in *; lia).
  rewrite take_app_length' by done. rewrite drop_app_length' by done.
  rewrite from_be_be_bytes by (cbn; lia). rewrite Hb, (tp_open _ _ _ _ Hw). done.
Qed.

(** A blob that was not sealed is refused. *)
Lemma decrypt_unsealed s blobs x : se_transport s = b -> ~ forged b blobs x -> x ∉ blobs -> exists e, decrypt s x = (s, Err e).
Proof.
  intros Hb Hf Hx. unfold decrypt. destruct (_ <? _); [by eexists|]. rewrite Hb.
  destruct (ts_read b _ _ _) as [p| |] eqn:Er; [|by eexists|by apply tp_total in Er]. destruct Hf. split; [done|by exists p].
Qed.

Lemma decrypt_all_received ms blobs :
  (forall i m x, ms !! i = Some m -> blobs !! i = Some x ->
     exists cipher, x = be_bytes 8 (Z.of_nat i + 1) ++ cipher /\ ts_write a (Z.of_nat i + 1) m (len m + NOISE_TAG_LEN) = Ok cipher) ->
  length blobs = length ms -> len ms < 2 ^ 64 ->
  forall xs seen s, Forall (fun x => ~ forged b blobs x) xs -> se_transport s = b -> tracks (se_replay s) seen ->
  map opened (decrypt_all s xs).2 = received ms blobs seen xs /\ Panic ∉ (decrypt_all s xs).2.
Proof.
  intros Hs Hl Hlt. induction xs as [|x xs IH]; intros seen s Hf Hb Ht; [split; [done|apply not_elem_of_nil]|]. apply Forall_cons in Hf as [Hx Hf].
  cbn [decrypt_all received]. destruct (list_find (fun y => y = x) blobs) as [[i y]|] eqn:Ef.
  - apply list_find_Some in Ef as (Ei & -> & _). destruct (lookup_lt_is_Some_2 ms i) as [m Em]; [rewrite <- Hl; by eapply lookup_lt_Some|].
    rewrite (list_lookup_total_correct _ _ _ Em). destruct (Hs i m x Em Ei) as (cipher & -> & Hw).
    apply lookup_lt_Some in Em. rewrite (decrypt_sealed s m _ _ Hb) by (done || (unfold len in Hlt; lia)).
    pose proof (accept_tracks _ _ (Z.of_nat i + 1) Ht ltac:(lia)) as Ha. destruct (window_accept _ _) as [w ok]. destruct Ha as [Ea Tw].
    set (s1 := mkSession _ _ _ _). destruct (IH _ s1 Hf eq_refl Tw) as [H1 H2]. destruct (decrypt_all s1 xs) as [s2 rs]. cbn [snd map] in *.
    rewrite H1, <- Ea, not_elem_of_cons. by destruct ok.
  - apply list_find_None in Ef. assert (Hn : x ∉ blobs) by (intros Hin; by eapply Forall_forall in Ef; [|exact Hin]).
    destruct (decrypt_unsealed s blobs x Hb Hx Hn) as [e ->]. destruct (IH seen s Hf Hb Ht) as [H1 H2].
    destruct (decrypt_all s xs) as [s2 rs]. cbn [snd map opened] in *. rewrite H1, not_elem_of_cons. done.
Qed.
End channel.

(** In the reference each message comes out at most once. *)
Lemma received_once ms blobs xs : forall seen, length blobs = length ms ->
  exists ix, NoDup ix /\ Forall (fun i => (i < length ms)%nat /\ Z.of_nat i + 1 ∉ seen) ix /\ omap id (received ms blobs seen xs) = map (fun i => ms !!! i) ix.
Proof.
  induction xs as [|x xs IH]; intros seen Hl; [exists []; by split_and!; constructor|]. cbn [received].
  destruct (list_find _ blobs) as [[i y]|] eqn:Ef; [|by apply IH]. destruct (fresh seen (Z.of_nat i + 1)) eqn:Efr; [|by apply IH].
  apply list_find_Some in Ef as (Ei & _). apply lookup_lt_Some in Ei. destruct (IH (Z.of_nat i + 1 :: seen) Hl) as (ix & Hn & Hix & E).
  exists (i :: ix). cbn [omap list_omap id map]. rewrite E. split_and!; [|constructor|done].
  - constructor; [|done]. intros Hin. rewrite Forall_forall in Hix. destruct (Hix i Hin) as [_ Hc]. apply Hc. left.
  - split; [lia|]. by apply fresh_new.
  - eapply Forall_impl; [exact Hix|]. intros j [? Hc%not_elem_of_cons]. tauto.
Qed.

(** ** Properties *)

(** C35: the channel delivers each message at most once and unchanged over a network that drops,
    repeats, reorders, alters and injects.  Take the two ends of a handshake, any messages one of them
    seals, and any sequence of byte strings that then arrives at the other, none of which is a
    forgery (a string its transport opens although the peer did not seal it, which is what the
    cipher is there to prevent).  No arrival makes it panic; an arrival is opened exactly when it
    is a sealed blob whose counter is new and less than 1,024 behind the newest one opened, to
    exactly the message sealed: the sixteen words of the window behave as the set of all counters
    opened.  So what comes out are sealed messages, no message twice.  And a blob that is refused
    leaves the session as it was. *)
Theorem noise_channel_exact `{SN : Snow} (a b : TransportState) `{TP : !TransportPair a b}
    (fp fp' : option bytes) (w : ReplayWindow) (counter : Z) (ms blobs arrivals : list bytes) (s' : Session)
    (Hlt : len ms < 2 ^ 64) (Hseal : encrypt_all (mkSession a 0 w fp) ms = (s', map Ok blobs))
    (Hauth : Forall (fun x => ~ forged b blobs x) arrivals) :
  let answers := (decrypt_all (mkSession b counter window_new fp') arrivals).2 in
  Panic ∉ answers
  /\ map opened answers = received ms blobs [] arrivals
  /\ (exists ix, NoDup ix /\ Forall (fun i => (i < length ms)%nat) ix /\ omap opened answers = map (fun i => ms !!! i) ix)
  /\ forall (s s1 : Session) (x : bytes) (e : NoiseError), se_transport s = b -> decrypt s x = (s1, Err e) -> s1 = s.
Proof.
  intros answers. apply (encrypt_all_blobs a) in Hseal as [Hl Hb]; [|done|cbn; lia|cbn; lia]. cbn [se_send_counter] in Hb.
  destruct (decrypt_all_received a b ms blobs) with (xs := arrivals) (seen := @nil Z) (s := mkSession b counter window_new fp') as [H1 H2];
    [|done..|exact tracks_new|].
  { intros i m x Em Ex. destruct (Hb i m x Em Ex) as (c & -> & Hc). exists c. by replace (Z.of_nat i + 1) with (0 + 1 + Z.of_nat i) by lia. }
  split_and!; [exact H2|exact H1| |].
  - destruct (received_once ms blobs arrivals [] Hl) as (ix & Hn & Hix & E). exists ix. split_and!; [done|eapply Forall_impl; [exact Hix|]; by intros i [? _]|].
    rewrite <- E, <- H1. fold answers. by induction answers as [|[]]; cbn; f_equal.
  - intros s s1 x e _. unfold decrypt. destruct (_ <? _); [congruence|]. destruct (ts_read _ _ _ _); [|congruence..].
    destruct (window_accept _ _) as [w1 ok] eqn:Ew. destruct ok; [congruence|]. intros E. assert (w1 = se_replay s) as ->; [|destruct s; cbn in *; congruence].
    unfold window_accept in Ew. repeat case_match; by simplify_eq.
Qed.

(** A library whose seal is the text with a tag of the nonce, for both ends. *)
#[export] Instance ToySnow : Snow := {|
  HandshakeState := bool * nat;
  TransportState := unit;
  x25519_public := fun s => s;
  build_initiator := fun _ => Ok (true, 0%nat);
  build_responder := fun _ => Ok (false, 0%nat);
  hs_is_initiator := fun h => h.1;
  is_handshake_finished := fun h => (3 <=? h.2)%nat;
  hs_write := fun h p _ => ((h.1, S h.2), Ok p);
  hs_read := fun h m _ => ((h.1, S h.2), Ok m);
  get_remote_static := fun _ => Some (replicate 32 9);
  into_stateless := fun _ => Ok tt;
  ts_write := fun _ n p _ => Ok (p ++ be_bytes 16 n);
  ts_read := fun _ n c _ =>
    let k := (length c - 16)%nat in
    if bool_decide (drop k c = be_bytes 16 n) then Ok (take k c) else Err NeNoise
|}.

#[export] Instance ToySnow_pair : TransportPair (SN := ToySnow) tt tt.
Proof.
  assert (L : forall n, length (be_bytes 16 n) = 16%nat) by (intros n; pose proof (len_be_bytes 16 n); unfold len in *; lia).
  split; cbn -[be_bytes].
  - intros n p room c E. assert (p ++ be_bytes 16 n = c) as <- by congruence. by rewrite len_app, len_be_bytes.
  - intros n p room c E. assert (p ++ be_bytes 16 n = c) as <- by congruence. rewrite length_app, L, Nat.add_sub, drop_app_length, take_app_length. by rewrite bool_decide_eq_true_2.
  - intros n c room. by case_bool_decide.
Qed.

(** The three messages arrive out of order and repeated, the second also with a byte of its tag
    altered, and a string too short to be a blob. *)
Lemma noise_channel_exact_witness :
  let blob n m := be_bytes 8 n ++ m ++ be_bytes 16 n in
  let blobs := [blob 1 [1]; blob 2 [2]; blob 3 [3]] in
  let arrivals := [blob 3 [3]; blob 1 [1]; blob 3 [3]; be_bytes 8 2 ++ [2] ++ be_bytes 16 5; [4; 4]; blob 2 [2]] in
  map opened (decrypt_all (SN := ToySnow) (mkSession tt 7 window_new None) arrivals).2 = [Some [3]; Some [1]; None; None; None; Some [2]].
Proof.
  intros blob blobs arrivals.
  destruct (noise_channel_exact (SN := ToySnow) tt tt None None window_new 7 [[1]; [2]; [3]] blobs arrivals _ eq_refl eq_refl)
    as (_ & H & _).
  - unfold arrivals. repeat apply List.Forall_cons; try apply List.Forall_nil; intros [Hn [p Hp]];
      first [apply Hn, (bool_decide_unpack _); vm_compute; exact I | vm_compute in Hp; discriminate].
  - rewrite H. vm_compute. reflexivity.
Defined.

(** A targeted payload opens to the type and the bytes it was sealed with, and the sessions a
    handshake yields start their counters and windows afresh. *)
Theorem payload_roundtrip `{C : Crypto} `{SN : Snow} (a b : TransportState) `{TP : !TransportPair a b} (s r s' : Session)
    (seen : list Z) (t : NoisePayloadType) (inner blob : bytes)
    (Ha : se_transport s = a) (Hb : se_transport r = b) (Hc : 0 <= se_send_counter s < 2 ^ 64 - 1) (Ht : tracks (se_replay r) seen)
    (Hf : fresh seen (se_send_counter s + 1) = true) (Hs : seal_payload s t inner = (s', Ok blob)) :
  (open_payload r blob).2 = Ok (t, inner)
  /\ forall i j x y, handshake_xx i j = Ok (x, y) ->
       se_send_counter x = 0 /\ se_replay x = window_new /\ se_send_counter y = 0 /\ se_replay y = window_new.
Proof.
  split.
  - unfold seal_payload, encrypt in Hs.
    assert (Ew : wrapN 64 (se_send_counter s + 1) = se_send_counter s + 1) by (unfold wrapN; apply Z.mod_small; lia).
    rewrite Ew in Hs. cbn [se_transport] in Hs. rewrite Ha in Hs.
    destruct (ts_write a _ _ _) as [cipher| |] eqn:Ec; [|discriminate..].
    assert (be_bytes 8 (se_send_counter s + 1) ++ cipher = blob) as <- by congruence.
    unfold open_payload. rewrite (decrypt_sealed a b r (payload_to_u8 t :: inner) (se_send_counter s + 1) cipher) by (done || lia).
    pose proof (accept_tracks _ _ (se_send_counter s + 1) Ht ltac:(lia)) as Hok. destruct (window_accept _ _) as [w ok].
    destruct Hok as [Eok _]. rewrite Hf in Eok. subst ok. by destruct t.
  - intros i j x y. unfold handshake_xx, into_session. intros H.
    run H. auto.
Qed.
