(* ===== verification/Address.v ===== *)
(** * Address: Nimiq addresses and hex ([nimiq/address.rs], [nimiq/hex.rs])

    A [str] is the list of its Unicode scalar values.  Its [len()] and its slices
    count UTF-8 bytes, and a slice that does not fall on a character boundary
    panics.  An [Address] is its 20 bytes. *)

From stdpp Require Import base list strings.
From Stdlib Require Import ZArith Lia Zdivisibility.
From S2P Require Import Prelude Packet.
Open Scope Z_scope.

(** ** Strings *)

Abbreviation str := (list Z) (only parsing).

(** The characters of an ASCII literal *)
Definition chars (s : String.string) : str :=
  map (fun a => Z.of_N (Ascii.N_of_ascii a)) (String.list_ascii_of_string s).

(** [char::len_utf8] *)
Definition char_len (c : Z) : Z :=
  if c <? 0x80 then 1 else if c <? 0x800 then 2 else if c <? 0x10000 then 3 else 4.

(** [str::len] *)
Definition str_len (s : str) : Z := foldr (fun c n => char_len c + n) 0 s.

(** [(&s[..n], &s[n..])]: [Panic] off a character boundary or past the end. *)
Fixpoint str_split {E} (s : str) (n : Z) : res E (str * str) :=
  if n =? 0 then Ok ([], s) else
  match s with
  | [] => Panic
  | c :: s => if n <? char_len c then Panic else
              let? (a, b) := str_split s (n - char_len c) in Ok (c :: a, b)
  end.

(** [char::is_whitespace] *)
Definition is_whitespace (c : Z) : bool :=
  ((0x09 <=? c) && (c <=? 0x0D)) || (c =? 0x20) || (c =? 0x85) || (c =? 0xA0) || (c =? 0x1680)
  || ((0x2000 <=? c) && (c <=? 0x200A)) || (c =? 0x2028) || (c =? 0x2029) || (c =? 0x202F)
  || (c =? 0x205F) || (c =? 0x3000).

Definition to_ascii_uppercase (c : Z) : Z := if (97 <=? c) && (c <=? 122) then c - 32 else c.

(** [c.to_digit(10)] *)
Definition to_digit10 (c : Z) : option Z := if (48 <=? c) && (c <=? 57) then Some (c - 48) else None.

(** ** Errors *)

Inductive AddressError : Type :=
| WrongLength (n : Z)
| MissingPrefix
| BadChecksum
| BadBase32Char (c : Z).

(** ** The checksum *)

Definition NQ : str := [78; 81].

(** One turn of the loop of [iban_mod97].  A character below ['A'] that is no
    digit makes the subtraction overflow, which panics when overflow checks are
    on (without them it wraps). *)
Definition iban_step {E} (tmp c : Z) : res E Z :=
  match to_digit10 c with
  | Some d => Ok ((tmp * 10 + d) mod 97)
  | None =>
      let u := to_ascii_uppercase c in
      if u <? 65 then Panic else
      let v := u - 65 + 10 in
      let tmp := (tmp * 10 + v / 10) mod 97 in
      Ok ((tmp * 10 + v mod 10) mod 97)
  end.

Fixpoint iban_loop {E} (tmp : Z) (s : str) : res E Z :=
  match s with
  | [] => Ok tmp
  | c :: s => let? tmp := iban_step tmp c in iban_loop tmp s
  end.

Definition iban_mod97 {E} (s : str) : res E Z := iban_loop 0 s.

(** ** Base 32 *)

(** ["0123456789ABCDEFGHJKLMNPQRSTUVXY"] *)
Definition BASE32_ALPHABET : list Z :=
  [48; 49; 50; 51; 52; 53; 54; 55; 56; 57;
   65; 66; 67; 68; 69; 70; 71; 72; 74; 75; 76; 77; 78; 80; 81; 82; 83; 84; 85; 86; 88; 89].

(** [while bits >= 5]; [bits] is at most 12, so three turns are enough. *)
Fixpoint base32_emit (fuel : nat) (buffer bits : Z) : Z * str :=
  match fuel with
  | O => (bits, [])
  | S fuel =>
      if bits >=? 5 then
        let bits := bits - 5 in
        let idx := Z.land (Z.shiftr buffer bits) 0x1f in
        let '(bits, out) := base32_emit fuel buffer bits in
        (bits, nth (Z.to_nat idx) BASE32_ALPHABET 0 :: out)
      else (bits, [])
  end.

Fixpoint base32_encode_loop (buffer bits : Z) (l : bytes) : str :=
  match l with
  | [] => []
  | b :: l =>
      let buffer := Z.lor (wrapN 32 (Z.shiftl buffer 8)) b in
      let '(bits, out) := base32_emit 3 buffer (bits + 8) in
      out ++ base32_encode_loop buffer bits l
  end.

Definition base32_encode (b : bytes) : str := base32_encode_loop 0 0 b.

(** [position] *)
Fixpoint position (c : Z) (l : list Z) (i : Z) : option Z :=
  match l with [] => None | a :: l => if a =? c then Some i else position c l (i + 1) end.

(** The loop of [base32_decode]: the bytes are stored from the front of [out],
    an index past its 20 bytes panics. *)
Fixpoint base32_decode_loop (buffer bits idx : Z) (out : bytes) (s : str) : res AddressError bytes :=
  match s with
  | [] => Ok out
  | c :: s =>
      let? val := ok_or (position c BASE32_ALPHABET 0) (BadBase32Char c) in
      let buffer := Z.lor (wrapN 32 (Z.shiftl buffer 5)) val in
      let bits := bits + 5 in
      if bits >=? 8 then
        let bits := bits - 8 in
        if idx >=? len out then Panic else
        base32_decode_loop buffer bits (idx + 1)
          (<[ Z.to_nat idx := Z.land (Z.shiftr buffer bits) 0xff ]> out) s
      else base32_decode_loop buffer bits idx out s
  end.

Definition base32_decode (s : str) : res AddressError bytes :=
  base32_decode_loop 0 0 0 (replicate 20 0) s.

(** ** Parsing and formatting *)

Definition from_user_friendly (input : str) : res AddressError bytes :=
  let compact := map to_ascii_uppercase (filter (fun c => is_whitespace c = false) input) in
  if negb (str_len compact =? 36) then Err (WrongLength (str_len compact)) else
  let? (prefix, rest) := str_split compact 2 in
  if negb (bytes_eqb prefix NQ) then Err MissingPrefix else
  let? (check, base32) := str_split rest 2 in
  let? m := iban_mod97 (base32 ++ NQ ++ check) in
  if negb (m =? 1) then Err BadChecksum else
  base32_decode base32.

(** The grouping loop, from index [i]. *)
Fixpoint group4 (i : Z) (s : str) : str :=
  match s with
  | [] => []
  | c :: s => (if (i >? 0) && (i mod 4 =? 0) then [32] else []) ++ c :: group4 (i + 1) s
  end.

(** [{check:02}] of a number below 100 *)
Definition two_digits (n : Z) : str := [48 + n / 10; 48 + n mod 10].

(** [98 - iban_mod97(..)] cannot underflow: the remainder is below 97. *)
Definition to_user_friendly (a : bytes) : res unit str :=
  let base32 := base32_encode a in
  let? m := iban_mod97 (base32 ++ NQ ++ [48; 48]) in
  let check := 98 - m in
  Ok (group4 0 (NQ ++ two_digits check ++ base32)).

(** ** Hex *)

Inductive HexError : Type := OddLength (n : Z) | BadNibble (c : Z).

(** A nibble as a lowercase hex character *)
Definition hex_digit (v : Z) : Z := if v <? 10 then 48 + v else 97 + (v - 10).

Definition bytes_to_hex (b : bytes) : str :=
  concat (map (fun x => [hex_digit (x / 16); hex_digit (x mod 16)]) b).

Definition nibble (c : Z) : res HexError Z :=
  if (48 <=? c) && (c <=? 57) then Ok (c - 48)
  else if (97 <=? c) && (c <=? 102) then Ok (c - 97 + 10)
  else if (65 <=? c) && (c <=? 70) then Ok (c - 65 + 10)
  else Err (BadNibble c).

(** [chunks_exact(2)] over the UTF-8 bytes *)
Fixpoint hex_pairs (b : bytes) : res HexError bytes :=
  match b with
  | x :: y :: b =>
      let? hi := nibble x in
      let? lo := nibble y in
      let? rest := hex_pairs b in
      Ok (Z.lor (Z.shiftl hi 4) lo :: rest)
  | _ => Ok []
  end.

(** [hex_to_bytes] works on the bytes of the string. *)
Definition hex_to_bytes (hex : bytes) : res HexError bytes :=
  let clean := match hex with 48 :: 120 :: rest => rest | _ => hex end in
  if negb (len clean mod 2 =? 0) then Err (OddLength (len clean)) else hex_pairs clean.

(** ** Lemmas *)

(** *** The checksum as a number *)

(** A character of the canonical form: a digit or an uppercase letter. *)
Definition alnum (c : Z) : bool := ((48 <=? c) && (c <=? 57)) || ((65 <=? c) && (c <=? 90)).

Definition is_digit (c : Z) : bool := (48 <=? c) && (c <=? 57).

Definition cval (c : Z) : Z := if is_digit c then c - 48 else c - 55.
Definition cweight (c : Z) : Z := if is_digit c then 10 else 100.

(** The number a string spells when its letters are written as two digits, and
    the power of ten that the string shifts what is before it by. *)
Definition sweight (s : str) : Z := foldr (fun c w => cweight c * w) 1 s.
Fixpoint sval (s : str) : Z :=
  match s with [] => 0 | c :: s => cval c * sweight s + sval s end.

Lemma sweight_app s t : sweight (s ++ t) = sweight s * sweight t.
Proof. induction s as [|c s IH]; simpl; [destruct (sweight t); reflexivity|]. unfold sweight in *. rewrite IH. lia. Qed.

Lemma sval_app s t : sval (s ++ t) = sval s * sweight t + sval t.
Proof. induction s as [|c s IH]; simpl; [reflexivity|]. rewrite IH, sweight_app. lia. Qed.

Lemma iban_step_val {E} tmp c :
  alnum c = true -> @iban_step E tmp c = Ok ((tmp * cweight c + cval c) mod 97).
Proof.
  unfold alnum, iban_step, to_digit10, cweight, cval, is_digit, to_ascii_uppercase. intros Hc.
  destruct ((48 <=? c) && (c <=? 57)) eqn:Hd; [reflexivity|]. cbn [orb] in Hc. bool_prop.
  destruct ((97 <=? c) && (c <=? 122)) eqn:Hl; bool_prop; [lia|].
  destruct (Z.ltb_spec c 65); [lia|]. f_equal. replace (c - 65 + 10) with (c - 55) by lia.
  rewrite Z.add_mod, Z.mul_mod, Z.mod_mod, <- Z.mul_mod, <- Z.add_mod by lia.
  f_equal. pose proof (Z.div_mod (c - 55) 10 ltac:(lia)). lia.
Qed.

Lemma iban_loop_val {E} s : forall tmp,
  forallb alnum s = true -> 0 <= tmp < 97 ->
  @iban_loop E tmp s = Ok ((tmp * sweight s + sval s) mod 97).
Proof.
  induction s as [|c s IH]; intros tmp Hs Ht; cbn [iban_loop forallb] in *.
  - simpl. f_equal. symmetry. rewrite Z.mod_small; lia.
  - bool_prop. rewrite iban_step_val by assumption. rewrite IH; [|assumption|apply Z.mod_pos_bound; lia].
    f_equal. cbn [sweight foldr sval]. fold (sweight s).
    rewrite Z.add_mod, Z.mul_mod, Z.mod_mod, <- Z.mul_mod, <- Z.add_mod by lia. f_equal. lia.
Qed.

Lemma iban_val {E} s : forallb alnum s = true -> @iban_mod97 E s = Ok (sval s mod 97).
Proof. intros Hs. unfold iban_mod97. now rewrite iban_loop_val by (auto; lia). Qed.

(** The weights are invertible modulo 97. *)
Lemma sweight_coprime s : Z.coprime 97 (sweight s).
Proof.
  induction s as [|c s IH]; [reflexivity|]. cbn [sweight foldr]. fold (sweight s).
  apply Z.coprime_mul_r; [|exact IH]. unfold cweight. now destruct (is_digit c).
Qed.

Lemma weighted_diff_nonzero d s : 0 < Z.abs d < 97 -> (d * sweight s) mod 97 <> 0.
Proof.
  intros Hd H. apply Z.mod_divide in H; [|lia].
  rewrite Z.mul_comm in H. apply Z.gauss in H; [|apply sweight_coprime].
  destruct H as [k Hk]. nia.
Qed.

(** *** Splitting and compacting the canonical form *)

Lemma alnum_ascii c : alnum c = true -> char_len c = 1 /\ is_whitespace c = false /\ to_ascii_uppercase c = c.
Proof.
  intros H. assert (48 <= c <= 90) by (unfold alnum in H; apply orb_prop in H as [H|H]; bool_prop; lia).
  unfold char_len, to_ascii_uppercase, is_whitespace. split_and!.
  - destruct (Z.ltb_spec c 128); lia.
  - repeat (match goal with |- context [?a <=? ?b] => destruct (Z.leb_spec a b)
                          | |- context [?a =? ?b] => destruct (Z.eqb_spec a b) end; simpl; try lia); reflexivity.
  - destruct (Z.leb_spec 97 c); simpl; [lia | reflexivity].
Qed.

Lemma str_len_alnum s : forallb alnum s = true -> str_len s = len s.
Proof.
  induction s as [|c s IH]; intros H; [reflexivity|]. cbn [forallb str_len foldr] in *. bool_prop.
  fold (str_len s). rewrite IH, len_cons by assumption. destruct (alnum_ascii c) as [-> _]; auto.
Qed.

Lemma str_split_alnum {E} s t : forallb alnum s = true -> @str_split E (s ++ t) (len s) = Ok (s, t).
Proof.
  induction s as [|c s IH]; intros H; [now destruct t|]. cbn [forallb app str_split] in *. bool_prop.
  rewrite len_cons. pose proof (len_nonneg s). destruct (alnum_ascii c) as [-> _]; [assumption|].
  destruct (Z.eqb_spec (1 + len s) 0); [lia|]. destruct (Z.ltb_spec (1 + len s) 1); [lia|].
  replace (1 + len s - 1) with (len s) by lia. now rewrite IH.
Qed.

Lemma compact_alnum s :
  forallb alnum s = true ->
  map to_ascii_uppercase (filter (fun c => is_whitespace c = false) s) = s.
Proof.
  induction s as [|c s IH]; intros H; [reflexivity|]. cbn [forallb] in *. bool_prop.
  destruct (alnum_ascii c) as (_ & Hw & Hu); [assumption|].
  rewrite filter_cons, decide_True by exact Hw. simpl. now rewrite Hu, IH.
Qed.

(** A string whose significant characters are [NQ], a check and a body. *)
Lemma parse_compact input check body :
  map to_ascii_uppercase (filter (fun c => is_whitespace c = false) input) = NQ ++ check ++ body ->
  forallb alnum (check ++ body) = true -> len check = 2 -> len body = 32 ->
  from_user_friendly input
  = if negb (sval (body ++ NQ ++ check) mod 97 =? 1) then Err BadChecksum else base32_decode body.
Proof.
  intros Hc Ha H2 H32. unfold from_user_friendly. rewrite Hc.
  assert (Hn : forallb alnum NQ = true) by reflexivity.
  rewrite forallb_app in Ha. bool_prop.
  rewrite str_len_alnum by (rewrite !forallb_app, Hn; auto using andb_true_intro).
  rewrite !len_app, H2, H32. change (negb (len NQ + (2 + 32) =? 36)) with false. cbn match.
  change 2 with (len NQ) at 1. rewrite str_split_alnum by exact Hn.
  unfold bytes_eqb at 1. rewrite bool_decide_true by reflexivity. cbn [negb].
  rewrite <- H2, str_split_alnum by assumption.
  rewrite iban_val; [reflexivity|]. rewrite !forallb_app, Hn. auto using andb_true_intro.
Qed.

(** *** Base 32 *)

Definition spell (ds : list Z) : str := map (fun d => nth (Z.to_nat d) BASE32_ALPHABET 0) ds.

Definition digit32 (d : Z) : Prop := 0 <= d < 32.

Definition val32 (ds : list Z) : Z := foldl (fun acc d => acc * 32 + d) 0 ds.

Lemma val32_acc ds : forall acc,
  foldl (fun acc d => acc * 32 + d) acc ds = acc * 32 ^ len ds + val32 ds.
Proof.
  unfold val32. induction ds as [|d ds IH]; intros acc; [unfold len; simpl; lia|].
  cbn [foldl]. rewrite IH, (IH (0 * 32 + d)), len_cons, Z.pow_add_r by (pose proof (len_nonneg ds); lia). lia.
Qed.

Lemma val32_cons d ds : val32 (d :: ds) = d * 32 ^ len ds + val32 ds.
Proof. unfold val32 at 1. cbn [foldl]. rewrite val32_acc. lia. Qed.

Lemma val32_app ds es : val32 (ds ++ es) = val32 ds * 32 ^ len es + val32 es.
Proof. unfold val32 at 1. rewrite foldl_app. fold (val32 ds). apply val32_acc. Qed.

Lemma position_spell d : digit32 d -> position (nth (Z.to_nat d) BASE32_ALPHABET 0) BASE32_ALPHABET 0 = Some d.
Proof.
  intros Hd. unfold digit32 in Hd.
  assert (Hall : forallb (fun d => bool_decide (position (nth (Z.to_nat d) BASE32_ALPHABET 0) BASE32_ALPHABET 0
                                                = Some d)) (map Z.of_nat (seq 0 32)) = true) by (vm_compute; reflexivity).
  rewrite forallb_forall in Hall. apply (proj1 (bool_decide_eq_true _)), Hall, in_map_iff.
  exists (Z.to_nat d). rewrite in_seq. lia.
Qed.

Lemma spell_alnum ds : Forall digit32 ds -> forallb alnum (spell ds) = true.
Proof.
  intros H. apply forallb_forall. intros c Hc. apply in_map_iff in Hc as (d & <- & Hd%list_elem_of_In).
  rewrite Forall_forall in H. specialize (H d Hd). unfold digit32 in H.
  assert (Hall : forallb alnum BASE32_ALPHABET = true) by reflexivity. rewrite forallb_forall in Hall.
  apply Hall, nth_In. change (length BASE32_ALPHABET) with 32%nat. lia.
Qed.

(** The emission loop takes five bits at a time off the top. *)
Lemma base32_emit_spec fuel : forall buffer bits,
  0 <= bits < 5 * Z.of_nat fuel ->
  exists ds bits', base32_emit fuel buffer bits = (bits', spell ds) /\ Forall digit32 ds
    /\ 0 <= bits' < 5 /\ bits = bits' + 5 * len ds
    /\ buffer mod 2 ^ bits = val32 ds * 2 ^ bits' + buffer mod 2 ^ bits'.
Proof.
  induction fuel as [|fuel IH]; intros buffer bits Hb; [lia|]. cbn [base32_emit].
  destruct (Z.geb_spec bits 5) as [H5|H5].
  - destruct (IH buffer (bits - 5) ltac:(lia)) as (ds & bits' & E & Hds & Hb' & Hlen & Hval). rewrite E.
    set (d := Z.land (Z.shiftr buffer (bits - 5)) 31).
    assert (Hd : digit32 d).
    { unfold d, digit32. change 31 with (Z.ones 5). rewrite Z.land_ones by lia. apply Z.mod_pos_bound. lia. }
    exists (d :: ds), bits'. split_and!; [reflexivity | now constructor | lia | lia | rewrite len_cons; lia |].
    replace bits with ((bits - 5) + 5) at 1 by lia. rewrite mask_out by lia. change (Z.ones 5) with 31. fold d.
    rewrite Hval, val32_cons. replace (bits - 5) with (5 * len ds + bits') by lia.
    rewrite Z.pow_add_r, Z.pow_mul_r by (pose proof (len_nonneg ds); lia). change (2 ^ 5) with 32. lia.
  - exists [], bits. split_and!; [reflexivity | constructor | lia | lia | unfold len; simpl; lia | reflexivity].
Qed.

(** The whole encoding spells the number the bytes are the big-endian form of. *)
Lemma base32_encode_spec l : forall buffer bits,
  bytes_ok l -> 0 <= bits < 5 ->
  exists ds r, base32_encode_loop buffer bits l = spell ds /\ Forall digit32 ds
    /\ 0 <= r < 5 /\ bits + 8 * len l = r + 5 * len ds
    /\ exists m, 0 <= m < 2 ^ r
       /\ (buffer mod 2 ^ bits) * 256 ^ len l + from_be l = val32 ds * 2 ^ r + m.
Proof.
  induction l as [|b l IH]; intros buffer bits Hl Hb.
  - exists [], bits. split_and!; [reflexivity | constructor | lia | lia | unfold len; simpl; lia|].
    exists (buffer mod 2 ^ bits). split; [apply Z.mod_pos_bound; lia|]. unfold len, val32, from_be. simpl. lia.
  - apply bytes_ok_cons in Hl as [Hbb Hl]. unfold uN in Hbb. cbn [base32_encode_loop].
    set (buffer' := Z.lor (wrapN 32 (Z.shiftl buffer 8)) b).
    destruct (base32_emit_spec 3 buffer' (bits + 8) ltac:(lia)) as (ds1 & b1 & E & Hds1 & Hb1 & Hlen1 & Hv1).
    rewrite E. destruct (IH buffer' b1 Hl Hb1) as (ds2 & r & E2 & Hds2 & Hr & Hlen2 & m & Hm & Hv2).
    exists (ds1 ++ ds2), r. rewrite E2. split_and!; [unfold spell; now rewrite map_app | now apply Forall_app | lia | lia
      | rewrite len_cons, len_app; lia |].
    exists m. split; [exact Hm|].
    assert (Hin : buffer' mod 2 ^ (bits + 8) = (buffer mod 2 ^ bits) * 256 + b).
    { unfold buffer'. rewrite shift_in_mod by lia. reflexivity. }
    rewrite from_be_cons, len_cons, Z.pow_add_r by (pose proof (len_nonneg l); lia).
    rewrite Hin in Hv1. rewrite val32_app. pose proof (len_nonneg ds2). pose proof (len_nonneg l).
    assert (Hpow : 2 ^ b1 * 256 ^ len l = 32 ^ len ds2 * 2 ^ r).
    { change 256 with (2 ^ 8). change 32 with (2 ^ 5). rewrite <- !Z.pow_mul_r, <- !Z.pow_add_r by lia.
      f_equal. lia. }
    assert (Hmul : ((buffer mod 2 ^ bits) * 256 + b) * 256 ^ len l
                   = val32 ds1 * (2 ^ b1 * 256 ^ len l) + (buffer' mod 2 ^ b1) * 256 ^ len l)
      by (rewrite Hv1; lia).
    rewrite Hpow in Hmul. change (256 ^ 1) with 256. lia.
Qed.

(** Decoding what [spell] spells fills the remaining bytes with its number. *)
Lemma base32_decode_spec ds : forall buffer bits pre n,
  Forall digit32 ds -> 0 <= bits < 8 -> bits + 5 * len ds = 8 * Z.of_nat n ->
  exists bs, base32_decode_loop buffer bits (len pre) (pre ++ replicate n 0) (spell ds) = Ok (pre ++ bs)
    /\ length bs = n /\ bytes_ok bs
    /\ from_be bs = (buffer mod 2 ^ bits) * 32 ^ len ds + val32 ds.
Proof.
  induction ds as [|d ds IH]; intros buffer bits pre n Hds Hb Hlen.
  - assert (bits = 0 /\ n = 0%nat) as [-> ->] by (unfold len in Hlen; simpl in Hlen; lia).
    exists []. split_and!; [reflexivity | reflexivity | constructor|]. change (2 ^ 0) with 1. rewrite Z.mod_1_r. reflexivity.
  - inversion Hds as [|? ? Hd Hds']; subst. cbn [spell map base32_decode_loop]. fold (spell ds).
    rewrite position_spell by exact Hd. cbn [ok_or]. unfold digit32 in Hd.
    set (buffer' := Z.lor (wrapN 32 (Z.shiftl buffer 5)) d). rewrite len_cons in Hlen.
    assert (Hin : buffer' mod 2 ^ (bits + 5) = (buffer mod 2 ^ bits) * 32 + d).
    { unfold buffer'. rewrite shift_in_mod by lia. reflexivity. }
    pose proof (len_nonneg ds) as Hnn.
    assert (Hstep : (buffer mod 2 ^ bits) * 32 ^ len (d :: ds) + val32 (d :: ds)
                    = buffer' mod 2 ^ (bits + 5) * 32 ^ len ds + val32 ds).
    { rewrite Hin, len_cons, val32_cons, Z.pow_add_r by lia. change (32 ^ 1) with 32. lia. }
    rewrite Hstep. destruct (Z.geb_spec (bits + 5) 8) as [H8|H8].
    + destruct n as [|n]; [lia|].
      destruct (Z.geb_spec (len pre) (len (pre ++ replicate (S n) 0))) as [Hp|_].
      { rewrite len_app in Hp. unfold len in Hp. rewrite length_replicate in Hp. lia. }
      set (x := Z.land (Z.shiftr buffer' (bits + 5 - 8)) 255).
      assert (Hx : uN 8 x).
      { unfold x, uN. change 255 with (Z.ones 8). rewrite Z.land_ones by lia. apply Z.mod_pos_bound. lia. }
      replace (<[ Z.to_nat (len pre) := x ]> (pre ++ replicate (S n) 0)) with ((pre ++ [x]) ++ replicate n 0).
      2: { unfold len. rewrite Nat2Z.id, insert_app_r_alt by lia. rewrite Nat.sub_diag, <- app_assoc. reflexivity. }
      destruct (IH buffer' (bits + 5 - 8) (pre ++ [x]) n Hds' ltac:(lia) ltac:(lia)) as (bs & E & Hl & Hok & Hv).
      replace (len pre + 1) with (len (pre ++ [x])) by (rewrite len_app; reflexivity).
      exists (x :: bs). rewrite E, <- app_assoc. split_and!; [reflexivity | simpl; lia | now apply bytes_ok_cons|].
      rewrite from_be_cons, Hv.
      replace (bits + 5) with ((bits + 5 - 8) + 8) at 2 by lia. rewrite mask_out by lia. change (Z.ones 8) with 255.
      fold x. assert (Hpow : 256 ^ len bs = 2 ^ (bits + 5 - 8) * 32 ^ len ds).
      { change 256 with (2 ^ 8). change 32 with (2 ^ 5). rewrite <- !Z.pow_mul_r, <- Z.pow_add_r by (unfold len; lia).
        f_equal. unfold len in *. lia. }
      rewrite Hpow. lia.
    + apply IH; [exact Hds' | lia | lia].
Qed.

Lemma base32_roundtrip a :
  array_ok 20 a ->
  exists ds, base32_encode a = spell ds /\ Forall digit32 ds /\ len ds = 32 /\ base32_decode (spell ds) = Ok a.
Proof.
  intros [Hl Hb]. destruct (base32_encode_spec a 0 0 Hb ltac:(lia)) as (ds & r & E & Hds & Hr & Hlen & m & Hm & Hv).
  rewrite Hl in Hlen. assert (r = 0 /\ len ds = 32) as [-> Hn] by lia. exists ds. split_and!; auto.
  change (0 mod 2 ^ 0) with 0 in Hv. assert (Hval : val32 ds = from_be a) by (change (2 ^ 0) with 1 in *; lia).
  destruct (base32_decode_spec ds 0 0 [] 20%nat Hds ltac:(lia) ltac:(lia)) as (bs & Ed & Hbl & Hbok & Hbv).
  unfold base32_decode. change (len (@nil Z)) with 0 in Ed. cbn [app] in Ed. rewrite Ed. f_equal.
  change (0 mod 2 ^ 0) with 0 in Hbv.
  rewrite <- (be_bytes_from_be bs Hbok), <- (be_bytes_from_be a Hb). f_equal; [unfold len in Hl; lia | lia].
Qed.

(** Grouping only inserts spaces. *)
Lemma filter_group4 s : forall i,
  forallb alnum s = true ->
  filter (fun c => is_whitespace c = false) (group4 i s) = s.
Proof.
  induction s as [|c s IH]; intros i Hs; [reflexivity|]. cbn [forallb group4] in *. bool_prop.
  destruct (alnum_ascii c) as (_ & Hw & _); [assumption|].
  rewrite filter_app, filter_cons, (decide_True (P := is_whitespace c = false)) by exact Hw. rewrite IH by assumption.
  case_goal; reflexivity.
Qed.

Lemma map_upper s : forallb alnum s = true -> map to_ascii_uppercase s = s.
Proof.
  induction s as [|c s IH]; intros Hs; [reflexivity|]. cbn [forallb map] in *. bool_prop.
  destruct (alnum_ascii c) as (_ & _ & ->); [assumption|]. now rewrite IH.
Qed.

Lemma digit_char d : 0 <= d < 10 -> alnum (48 + d) = true /\ is_digit (48 + d) = true.
Proof.
  intros Hd. unfold alnum, is_digit. rewrite (proj2 (Z.leb_le 48 (48 + d))), (proj2 (Z.leb_le (48 + d) 57)) by lia. auto.
Qed.

Lemma two_digits_spec n :
  0 <= n < 100 ->
  forallb alnum (two_digits n) = true /\ sval (two_digits n) = n /\ sweight (two_digits n) = 100.
Proof.
  intros Hn. pose proof (Z.div_mod n 10 ltac:(lia)) as Hd. pose proof (Z.mod_pos_bound n 10 ltac:(lia)).
  assert (0 <= n / 10 < 10) by (split; [apply Z.div_pos | apply Z.div_lt_upper_bound]; lia).
  destruct (digit_char (n / 10)) as [A1 D1]; [assumption|]. destruct (digit_char (n mod 10)) as [A2 D2]; [lia|].
  unfold two_digits. cbn [forallb sval sweight foldr]. unfold cval, cweight. rewrite A1, A2, D1, D2. 
  split_and!; [reflexivity | lia | reflexivity].
Qed.

(** *** Hex *)

Lemma nibble_hex_digit v : 0 <= v < 16 -> nibble (hex_digit v) = Ok v.
Proof.
  intros Hv. unfold nibble, hex_digit. destruct (Z.ltb_spec v 10).
  - destruct (Z.leb_spec 48 (48 + v)), (Z.leb_spec (48 + v) 57); try lia. simpl. f_equal. lia.
  - destruct (Z.leb_spec 48 (97 + (v - 10))), (Z.leb_spec (97 + (v - 10)) 57); try lia. simpl.
    destruct (Z.leb_spec 97 (97 + (v - 10))), (Z.leb_spec (97 + (v - 10)) 102); try lia. simpl. f_equal. lia.
Qed.

Lemma hex_pairs_roundtrip b : bytes_ok b -> hex_pairs (bytes_to_hex b) = Ok b.
Proof.
  induction 1 as [|x b Hx Hb IH]; [reflexivity|]. unfold uN in Hx.
  change (bytes_to_hex (x :: b)) with ([hex_digit (x / 16); hex_digit (x mod 16)] ++ bytes_to_hex b).
  cbn [app hex_pairs]. pose proof (Z.mod_pos_bound x 16 ltac:(lia)).
  assert (0 <= x / 16 < 16) by (split; [apply Z.div_pos | apply Z.div_lt_upper_bound]; lia).
  rewrite !nibble_hex_digit by lia. rewrite IH. rewrite Z.shiftl_mul_pow2 by lia.
  rewrite lor_shift_low by lia. change (2 ^ 4) with 16. do 2 f_equal.
  pose proof (Z.div_mod x 16 ltac:(lia)). lia.
Qed.

Lemma len_bytes_to_hex b : len (bytes_to_hex b) = 2 * len b.
Proof.
  induction b as [|x b IH]; [reflexivity|].
  change (bytes_to_hex (x :: b)) with ([hex_digit (x / 16); hex_digit (x mod 16)] ++ bytes_to_hex b).
  rewrite len_app, IH, !len_cons. change (len (@nil Z)) with 0. lia.
Qed.

(** Hex output starts with no ["0x"]: ['x'] is no hex digit. *)
Lemma hex_roundtrip b : bytes_ok b -> hex_to_bytes (bytes_to_hex b) = Ok b.
Proof.
  intros Hb. unfold hex_to_bytes.
  assert (Hclean : match bytes_to_hex b with 48 :: 120 :: rest => rest | _ => bytes_to_hex b end = bytes_to_hex b).
  { destruct b as [|x b]; [reflexivity|].
    change (bytes_to_hex (x :: b)) with (hex_digit (x / 16) :: hex_digit (x mod 16) :: bytes_to_hex b).
    apply bytes_ok_cons in Hb as [Hx _]. unfold uN in Hx. pose proof (Z.mod_pos_bound x 16 ltac:(lia)).
    assert (Hne : hex_digit (x mod 16) <> 120) by (unfold hex_digit; destruct (x mod 16 <? 10) eqn:?; bool_prop; lia).
    remember (hex_digit (x mod 16)) as h eqn:Eh. clear Eh.
    destruct (decide (hex_digit (x / 16) = 48)) as [->|Hn].
    - destruct h as [|p|p]; try reflexivity. repeat (destruct p; try reflexivity). congruence.
    - destruct (hex_digit (x / 16)) as [|p|p]; try reflexivity. repeat (destruct p; try reflexivity). congruence. }
  rewrite Hclean, len_bytes_to_hex, Z.mul_comm, Z_mod_mult. now apply hex_pairs_roundtrip.
Qed.

(** Decoding is injective on what it accepts. *)
Lemma base32_decode_val ds :
  Forall digit32 ds -> len ds = 32 ->
  exists a, base32_decode (spell ds) = Ok a /\ length a = 20%nat /\ bytes_ok a /\ from_be a = val32 ds.
Proof.
  intros Hds Hl. destruct (base32_decode_spec ds 0 0 [] 20%nat Hds ltac:(lia) ltac:(lia)) as (a & E & H1 & H2 & H3).
  exists a. split_and!; [exact E | exact H1 | exact H2 |]. rewrite H3. change (0 mod 2 ^ 0) with 0. lia.
Qed.

(** *** Slips of the pen *)

Ltac rewrite_all_true := repeat match goal with H : _ = true |- _ => rewrite H; clear H end.

(** The rearrangement the checksum is taken over. *)
Definition rot (t : str) : str := drop 2 t ++ NQ ++ take 2 t.

Lemma parse_rot t :
  forallb alnum t = true -> len t = 34 ->
  from_user_friendly (NQ ++ t)
  = if negb (sval (rot t) mod 97 =? 1) then Err BadChecksum else base32_decode (drop 2 t).
Proof.
  intros Ha Hl. unfold rot. apply parse_compact.
  - rewrite take_drop. apply compact_alnum. now rewrite forallb_app, Ha.
  - now rewrite take_drop.
  - change 2%nat with (Z.to_nat 2). apply len_take. lia.
  - change 2%nat with (Z.to_nat 2). rewrite len_drop; lia.
Qed.

(** A change inside the check or inside the body stays one change. *)
Lemma rot_middle (pre mid post : str) :
  (2 <= length pre)%nat \/ (length pre + length mid <= 2)%nat ->
  exists P Q, forall mid', length mid' = length mid -> rot (pre ++ mid' ++ post) = P ++ mid' ++ Q.
Proof.
  intros [H|H].
  - exists (drop 2 pre), (post ++ NQ ++ take 2 pre). intros mid' _. unfold rot.
    rewrite drop_app_le, take_app_le by exact H. now rewrite <- !app_assoc.
  - exists (drop (2 - length pre - length mid) post ++ NQ ++ pre), (take (2 - length pre - length mid) post).
    intros mid' Hm. unfold rot. rewrite !drop_app_ge, !take_app_ge by lia. rewrite Hm, <- !app_assoc. reflexivity.
Qed.

Lemma sval_at P c Q : sval (P ++ [c] ++ Q) = sval P * sweight ([c] ++ Q) + (cval c * sweight Q + sval Q).
Proof. rewrite sval_app. reflexivity. Qed.

Lemma mod97_differs a b : (a - b) mod 97 <> 0 -> a mod 97 = 1 -> b mod 97 <> 1.
Proof. intros H Ha Hb. apply H. rewrite Zminus_mod, Ha, Hb. reflexivity. Qed.

Lemma cval_range c : alnum c = true -> 0 <= cval c < 36.
Proof.
  unfold alnum, cval, is_digit. intros H.
  destruct ((48 <=? c) && (c <=? 57)) eqn:E; [bool_prop; lia|]. cbn [orb] in H. bool_prop. lia.
Qed.

Lemma cval_inj c d : is_digit c = is_digit d -> cval c = cval d -> c = d.
Proof. unfold cval. intros ->. destruct (is_digit d); lia. Qed.

Lemma parse_ok_sum t a :
  forallb alnum t = true -> len t = 34 -> from_user_friendly (NQ ++ t) = Ok a -> sval (rot t) mod 97 = 1.
Proof.
  intros Ht Hl H. rewrite parse_rot in H by assumption.
  destruct (Z.eqb_spec (sval (rot t) mod 97) 1) as [E|]; [exact E | discriminate].
Qed.

Lemma parse_bad_sum t :
  forallb alnum t = true -> len t = 34 -> sval (rot t) mod 97 <> 1 ->
  from_user_friendly (NQ ++ t) = Err BadChecksum.
Proof.
  intros Ht Hl H. rewrite parse_rot by assumption. destruct (Z.eqb_spec (sval (rot t) mod 97) 1); [contradiction | reflexivity].
Qed.

(** Decoding succeeds only on spelled digits. *)
Lemma base32_decode_inv s : forall buffer bits idx out a,
  base32_decode_loop buffer bits idx out s = Ok a -> exists ds, s = spell ds /\ Forall digit32 ds.
Proof.
  assert (Hpos : forall c d, position c BASE32_ALPHABET 0 = Some d ->
            c = nth (Z.to_nat d) BASE32_ALPHABET 0 /\ digit32 d).
  { intros c d H. unfold position, BASE32_ALPHABET in H.
    repeat match type of H with
    | (if ?a =? c then _ else _) = _ => destruct (Z.eqb_spec a c); [simplify_eq; split; [reflexivity | unfold digit32; lia]|]
    end. discriminate. }
  induction s as [|c s IH]; intros buffer bits idx out a H; [exists []; auto|].
  cbn [base32_decode_loop] in H. destruct (position c BASE32_ALPHABET 0) as [d|] eqn:E; [|discriminate].
  destruct (Hpos c d E) as [-> Hd]. cbn [ok_or] in H.
  assert (Hrest : exists ds, s = spell ds /\ Forall digit32 ds) by (repeat case_hyp H; try discriminate; eauto).
  destruct Hrest as (ds & -> & Hds). exists (d :: ds). split; [reflexivity | now constructor].
Qed.

(** Formatting and parsing an address. *)
Lemma user_friendly_roundtrip a :
  array_ok 20 a -> exists s, to_user_friendly a = Ok s /\ from_user_friendly s = Ok a.
Proof.
  intros Ha.
  destruct (base32_roundtrip a Ha) as (ds & E & Hds & Hn & Hdec). unfold to_user_friendly. rewrite E.
  pose proof (spell_alnum ds Hds) as Hsp. assert (Hls : len (spell ds) = 32) by (unfold spell, len in *; now rewrite length_map).
  assert (Hnq : forallb alnum NQ = true) by reflexivity.
  rewrite iban_val by (rewrite !forallb_app, Hsp; reflexivity).
  set (m := sval (spell ds ++ NQ ++ [48; 48]) mod 97).
  assert (Hm : 0 <= m < 97) by (apply Z.mod_pos_bound; lia).
  destruct (two_digits_spec (98 - m) ltac:(lia)) as (Hta & Htv & Htw).
  eexists. split; [reflexivity|].
  rewrite (parse_compact _ (two_digits (98 - m)) (spell ds)).
  - assert (Hone : sval (spell ds ++ NQ ++ two_digits (98 - m)) mod 97 = 1).
    { rewrite app_assoc, sval_app, Htv, Htw. unfold m. rewrite app_assoc, (sval_app (spell ds ++ NQ)).
      change (sval [48; 48]) with 0. change (sweight [48; 48]) with 100. rewrite Z.add_0_r.
      set (x := sval (spell ds ++ NQ) * 100). pose proof (Z.div_mod x 97 ltac:(lia)) as Hx.
      replace (x + (98 - x mod 97)) with (1 + (x / 97 + 1) * 97) by lia. now rewrite Z_mod_plus_full. }
    rewrite Hone. exact Hdec.
  - rewrite filter_group4, map_upper by (rewrite !forallb_app, Hnq, Hta, Hsp; reflexivity). reflexivity.
  - now rewrite forallb_app, Hta, Hsp.
  - reflexivity.
  - exact Hls.
Qed.

(** ** Properties *)

(** Every address survives its user-friendly form.  Formatting any 20 bytes
    yields a string that parses back to them, through the base-32 body, the two
    check digits and the grouping; and hex decodes to the bytes it encodes. *)
Theorem address_roundtrip (a b : bytes) (Ha : array_ok 20 a) (Hb : bytes_ok b) :
  (exists s, to_user_friendly a = Ok s /\ from_user_friendly s = Ok a)
  /\ hex_to_bytes (bytes_to_hex b) = Ok b.
Proof. split; [now apply user_friendly_roundtrip | now apply hex_roundtrip]. Qed.

Lemma address_roundtrip_witness :
  exists s, to_user_friendly (replicate 20 77) = Ok s /\ from_user_friendly s = Ok (replicate 20 77).
Proof.
  assert (H : array_ok 20 (replicate 20 77)) by (split; [reflexivity | apply bytes_okb_ok; reflexivity]).
  exact (proj1 (address_roundtrip (replicate 20 77) [] H bytes_ok_nil)).
Defined.

(** The checksum catches slips of one kind.  If a 36-character address is
    accepted, then the string with one digit replaced by another digit or one
    letter by another letter, and the string with two adjacent digits or two
    adjacent letters of the body exchanged, are both refused with
    [BadChecksum]. *)
Theorem slips_caught (pre post : str) (c d : Z) (a : bytes)
    (Halnum : forallb alnum (pre ++ c :: d :: post) = true) (Hlen : len (pre ++ c :: post) = 34)
    (Hkind : is_digit c = is_digit d) (Hne : c <> d) :
  (from_user_friendly (NQ ++ pre ++ c :: post) = Ok a ->
     from_user_friendly (NQ ++ pre ++ d :: post) = Err BadChecksum)
  /\ forall x post', post = x :: post' -> 2 <= len pre ->
       from_user_friendly (NQ ++ pre ++ c :: d :: post') = Ok a ->
       from_user_friendly (NQ ++ pre ++ d :: c :: post') = Err BadChecksum.
Proof.
  rewrite !forallb_app in Halnum. cbn [forallb] in Halnum. bool_prop.
  assert (Hcd : 0 < Z.abs (cval c - cval d) < 97).
  { pose proof (cval_range c ltac:(assumption)). pose proof (cval_range d ltac:(assumption)).
    assert (cval c <> cval d) by (intros E; apply Hne, cval_inj; assumption). lia. }
  assert (Hw : cweight c = cweight d) by (unfold cweight; now rewrite Hkind).
  rewrite len_app, len_cons in Hlen. split.
  - intros Hok. destruct (rot_middle pre [c] post) as (P & Q & Hr); [simpl; lia|].
    apply parse_ok_sum in Hok; [|rewrite forallb_app; cbn [forallb]; now rewrite_all_true|rewrite len_app, len_cons; lia].
    apply parse_bad_sum; [rewrite forallb_app; cbn [forallb]; now rewrite_all_true|rewrite len_app, len_cons; lia|].
    change (pre ++ ?x :: post) with (pre ++ [x] ++ post) in *.
    rewrite (Hr [c] eq_refl) in Hok. rewrite (Hr [d] eq_refl). revert Hok. apply mod97_differs.
    rewrite !sval_at, !sweight_app. cbn [sweight foldr]. rewrite Hw.
    match goal with |- ?e mod _ <> _ => replace e with ((cval c - cval d) * sweight Q) by lia end.
    now apply weighted_diff_nonzero.
  - intros x post' -> Hp2 Hok. cbn [forallb] in *. bool_prop. rewrite len_cons in Hlen.
    destruct (rot_middle pre [c; d] post') as (P & Q & Hr); [unfold len in Hp2; left; lia|].
    apply parse_ok_sum in Hok; [|rewrite forallb_app; cbn [forallb]; now rewrite_all_true|rewrite len_app, !len_cons; lia].
    apply parse_bad_sum; [rewrite forallb_app; cbn [forallb]; now rewrite_all_true|rewrite len_app, !len_cons; lia|].
    change (pre ++ ?x :: ?y :: post') with (pre ++ [x; y] ++ post') in *.
    rewrite (Hr [c; d] eq_refl) in Hok. rewrite (Hr [d; c] eq_refl). revert Hok. apply mod97_differs.
    rewrite !sval_app, !sweight_app. cbn [sweight foldr sval]. rewrite Hw.
    match goal with |- ?e mod _ <> _ =>
      replace e with ((cval c - cval d) * (cweight d - 1) * sweight Q) by lia end.
    intros Hz. apply Z.mod_divide in Hz; [|lia]. rewrite Z.mul_comm in Hz.
    apply Z.gauss in Hz; [|apply sweight_coprime]. rewrite Z.mul_comm in Hz.
    apply Z.gauss in Hz; [|unfold cweight; now destruct (is_digit d)]. destruct Hz as [k Hk]. nia.
Qed.

Lemma slips_caught_witness :
  from_user_friendly (NQ ++ chars "85ARU6CQ8U38N8B8D6ESVQR12V0RAYV8D6") = Err BadChecksum.
Proof.
  assert (H1 : forallb alnum ([] ++ 57 :: 56 :: chars "5ARU6CQ8U38N8B8D6ESVQR12V0RAYV8D6") = true) by reflexivity.
  assert (H2 : len ([] ++ 57 :: chars "5ARU6CQ8U38N8B8D6ESVQR12V0RAYV8D6") = 34) by reflexivity.
  assert (H3 : from_user_friendly (NQ ++ [] ++ 57 :: chars "5ARU6CQ8U38N8B8D6ESVQR12V0RAYV8D6")
               = Ok [0x56; 0x78; 0x66; 0x61; 0x1c; 0x1a; 0x2c; 0x85; 0xa1; 0xa6; 0x76; 0xbb; 0x8c; 0x84; 0x5d;
                     0x06; 0x55; 0xfe; 0xa1; 0xa6]) by (vm_compute; reflexivity).
  exact (proj1 (slips_caught [] _ 57 56 _ H1 H2 eq_refl ltac:(discriminate)) H3).
Defined.

(** The checksum does not catch every transposition.  A letter counts as two
    digits, so "1B" and "B1" spell the same three digits: an accepted address
    with "1B" in its body is accepted with "B1" in its place, as a different
    address.  The module's documentation says that a transposed address is
    caught by the checksum and never mis-routed. *)
Theorem transposed_1B_accepted (check pre post : str) (a : bytes)
    (Hcheck : len check = 2) (Hbody : len (pre ++ post) = 30)
    (Halnum : forallb alnum (check ++ pre ++ post) = true)
    (Hok : from_user_friendly (NQ ++ check ++ pre ++ chars "1B" ++ post) = Ok a) :
  exists a', from_user_friendly (NQ ++ check ++ pre ++ chars "B1" ++ post) = Ok a' /\ a' <> a.
Proof.
  change (chars "1B") with [49; 66] in *. change (chars "B1") with [66; 49].
  assert (Hparse : forall mid, forallb alnum mid = true -> len mid = 2 ->
    from_user_friendly (NQ ++ check ++ pre ++ mid ++ post)
    = if negb (sval ((pre ++ mid ++ post) ++ NQ ++ check) mod 97 =? 1) then Err BadChecksum
      else base32_decode (pre ++ mid ++ post)).
  { intros mid Hm Hl. rewrite !forallb_app in Halnum. bool_prop. apply parse_compact; auto.
    - apply compact_alnum. rewrite !forallb_app. change (forallb alnum NQ) with true. now rewrite_all_true.
    - rewrite !forallb_app. now rewrite_all_true.
    - rewrite len_app in Hbody. rewrite !len_app. lia. }
  rewrite Hparse in Hok by reflexivity. rewrite Hparse by reflexivity.
  assert (Hsame : sval ((pre ++ [66; 49] ++ post) ++ NQ ++ check) = sval ((pre ++ [49; 66] ++ post) ++ NQ ++ check)).
  { rewrite !sval_app, !sweight_app. reflexivity. }
  rewrite Hsame. destruct (negb _); [discriminate|].
  destruct (base32_decode_inv _ _ _ _ _ _ Hok) as (ds & E & Hds).
  assert (Hl32 : len ds = 32).
  { apply (f_equal len) in E. unfold spell in E. rewrite !len_app in E. rewrite len_app in Hbody.
    change (len [49; 66]) with 2 in E. unfold len in *. rewrite length_map in E. lia. }
  symmetry in E. apply map_eq_app in E as (d1 & dr & -> & E1 & E). apply map_eq_app in E as (dm & d2 & -> & E2 & E3).
  destruct dm as [|x [|y [|? ?]]]; try discriminate E2.
  assert (Ex : nth (Z.to_nat x) BASE32_ALPHABET 0 = 49) by (apply (f_equal (hd 0)) in E2; exact E2).
  assert (Ey : nth (Z.to_nat y) BASE32_ALPHABET 0 = 66) by (apply (f_equal (fun l => hd 0 (tl l))) in E2; exact E2).
  clear E2.
  rewrite !Forall_app in Hds. destruct Hds as (Hd1 & Hdm & Hd2). inversion Hdm as [|? ? Hx Hdm']; subst. inversion Hdm' as [|? ? Hy _]; subst.
  assert (x = 1) by (pose proof (position_spell x Hx) as P; rewrite Ex in P; now injection P).
  assert (y = 11) by (pose proof (position_spell y Hy) as P; rewrite Ey in P; now injection P). subst x y.
  assert (Hsp : map (fun d => nth (Z.to_nat d) BASE32_ALPHABET 0) d1 ++ [66; 49] ++ map (fun d => nth (Z.to_nat d) BASE32_ALPHABET 0) d2
                = spell (d1 ++ [11; 1] ++ d2)) by (unfold spell; now rewrite !map_app).
  rewrite Hsp. change (map _ d1 ++ [49; 66] ++ map _ d2) with (spell d1 ++ spell [1; 11] ++ spell d2) in Hok.
  assert (Hsp' : spell d1 ++ spell [1; 11] ++ spell d2 = spell (d1 ++ [1; 11] ++ d2)) by (unfold spell; now rewrite !map_app).
  rewrite Hsp' in Hok.
  destruct (base32_decode_val (d1 ++ [11; 1] ++ d2)) as (a' & Ea' & _ & _ & Hv').
  { rewrite !Forall_app. auto. } { rewrite !len_app in *. exact Hl32. }
  destruct (base32_decode_val (d1 ++ [1; 11] ++ d2)) as (a0 & Ea0 & _ & _ & Hv0).
  { rewrite !Forall_app. auto. } { exact Hl32. }
  exists a'. split; [exact Ea'|]. intros ->. assert (a0 = a) by congruence. subst a0.
  rewrite Hv', !val32_app in Hv0. change (val32 [11; 1]) with 353 in Hv0. change (val32 [1; 11]) with 43 in Hv0.
  assert (0 < 32 ^ len d2) by (apply Z.pow_pos_nonneg; [lia | apply len_nonneg]).
  rewrite !len_app in Hv0. change (len [11; 1]) with (len [1; 11]) in Hv0. nia.
Qed.

Lemma transposed_1B_accepted_witness :
  exists a', from_user_friendly (NQ ++ chars "81" ++ [] ++ chars "B1" ++ replicate 30 48) = Ok a'
             /\ a' <> [10; 192] ++ replicate 18 0.
Proof.
  assert (H : from_user_friendly (NQ ++ chars "81" ++ [] ++ chars "1B" ++ replicate 30 48)
              = Ok ([10; 192] ++ replicate 18 0)) by (vm_compute; reflexivity).
  exact (transposed_1B_accepted (chars "81") [] (replicate 30 48) _ eq_refl eq_refl eq_refl H).
Defined.
