(* ===== verification/NimTx.v ===== *)
(** * NimTx: basic transfers and their signers ([nimiq/tx.rs], [nimiq/signer.rs])

    The signed content and the wire form of a transfer, the relay's signature
    filter, and the signing path from an intent to the bytes the mesh carries.
    The enclave is any [EnclaveKey] of [SwapSession]. *)

From stdpp Require Import base list strings.
From Stdlib Require Import ZArith Lia.
From S2P Require Import Prelude Packet Crypto Address Beacon Balance SwapSession.
Open Scope Z_scope.

Definition CONTENT_LEN : Z := 67.
Definition BASIC_WIRE_LEN : Z := 139.

(** ** Networks ([lib.rs]) *)

Inductive NetworkId : Type := Testnet | Mainnet.

Definition wire_id (n : NetworkId) : Z := match n with Testnet => 5 | Mainnet => 24 end.

Definition is_loop_safe (n : NetworkId) : bool := match n with Testnet => true | Mainnet => false end.

(** ** Transfers *)

Record Transfer : Type := mkTransfer {
  t_sender : bytes;
  t_recipient : bytes;
  t_value : Z;
  t_fee : Z;
  t_validity_start_height : Z;
  t_network_id : Z
}.

Definition serialize_content (t : Transfer) : bytes :=
  be_bytes 2 0 ++ t_sender t ++ [0] ++ t_recipient t ++ [0] ++ be_bytes 8 (t_value t)
  ++ be_bytes 8 (t_fee t) ++ be_bytes 4 (t_validity_start_height t) ++ [t_network_id t] ++ [0] ++ [0].

Definition serialize_basic (t : Transfer) (public_key signature : bytes) : bytes :=
  [0] ++ [0] ++ public_key ++ t_recipient t ++ be_bytes 8 (t_value t) ++ be_bytes 8 (t_fee t)
  ++ be_bytes 4 (t_validity_start_height t) ++ [t_network_id t] ++ signature.

Record DecodedTransfer : Type := mkDecoded {
  d_transfer : Transfer;
  d_public_key : bytes;
  d_signature : bytes
}.

Definition signature_proof_single_sig (public_key signature : bytes) : bytes :=
  [0] ++ public_key ++ [0] ++ signature.

(** ** Signers *)

Record TransferIntent : Type := mkTransferIntent {
  ti_recipient : str;
  ti_value : Z;
  ti_validity_start_height : Z;
  ti_network : NetworkId
}.

Record SignedTransfer : Type := mkSigned {
  sg_raw_hex : str;
  sg_tx_hash : str;
  sg_validity_start_height : Z;
  sg_valid_until_height : Z
}.

(** The reasons are texts. *)
Inductive SignError : Type :=
| BadAddress (e : AddressError)
| BadKeyMaterial
| Delegated.

Section nim.
Context `{Crypto}.

Definition tx_hash (t : Transfer) : bytes := blake2b256 (serialize_content t).

Definition decode_basic_wire (wire : bytes) : res unit (option DecodedTransfer) :=
  if negb (len wire =? BASIC_WIRE_LEN) then Ok None else
  let? b0 := idx wire 0 in
  if negb (b0 =? 0) then Ok None else
  let? b1 := idx wire 1 in
  if negb (b1 =? 0) then Ok None else
  let? public_key := slice wire 2 34 in
  let? recipient := slice wire 34 54 in
  let? value := slice wire 54 62 in
  let? fee := slice wire 62 70 in
  let? vsh := slice wire 70 74 in
  let? network_id := idx wire 74 in
  let? signature := slice wire 75 139 in
  Ok (Some (mkDecoded
    (mkTransfer (address_of public_key) recipient (from_be value) (from_be fee) (from_be vsh) network_id)
    public_key signature)).

(** The key is decoded and the signature checked by the same crate. *)
Definition verify_basic_wire (wire : bytes) : bool :=
  match decode_basic_wire wire with
  | Ok (Some d) => ed25519_verify (d_public_key d) (serialize_content (d_transfer d)) (d_signature d)
  | _ => false
  end.

Definition finished (t : Transfer) (public_key signature : bytes) : SignedTransfer :=
  mkSigned (bytes_to_hex (serialize_basic t public_key signature))
           (bytes_to_hex (tx_hash t))
           (t_validity_start_height t)
           (sat_add 32 (t_validity_start_height t) VALIDITY_WINDOW).

(** [InMemoryEnclaveKey] *)
Definition in_memory_key (secret : bytes) : EnclaveKey :=
  mkEnclave (ed25519_public secret) (ed25519_sign secret).

Definition app_public_key (k : EnclaveKey) : res SignError bytes :=
  ok_or (try_array 32 (ek_public_key k)) BadKeyMaterial.

Definition app_address (k : EnclaveKey) : res SignError str :=
  let? pk := app_public_key k in
  match to_user_friendly (address_of pk) with Ok s => Ok s | _ => Panic end.

Definition sign_transfer (k : EnclaveKey) (i : TransferIntent) : res SignError SignedTransfer :=
  let? public_key := app_public_key k in
  let sender := address_of public_key in
  let? recipient := map_err BadAddress (from_user_friendly (ti_recipient i)) in
  let t := mkTransfer sender recipient (ti_value i) 0 (ti_validity_start_height i) (wire_id (ti_network i)) in
  let? signature := ok_or (try_array 64 (ek_sign_content k (serialize_content t))) BadKeyMaterial in
  Ok (finished t public_key signature).

Definition signed_transfer_wire (s : SignedTransfer) : res SignError bytes :=
  map_err (fun _ => BadKeyMaterial) (hex_to_bytes (sg_raw_hex s)).

(** ** Lemmas *)

Record transfer_ok (t : Transfer) : Prop := {
  to_sender : array_ok 20 (t_sender t);
  to_recipient : array_ok 20 (t_recipient t);
  to_value : uN 64 (t_value t);
  to_fee : uN 64 (t_fee t);
  to_vsh : uN 32 (t_validity_start_height t);
  to_net : uN 8 (t_network_id t)
}.

Lemma len_content t : transfer_ok t -> len (serialize_content t) = CONTENT_LEN.
Proof.
  intros [[H1 _] [H2 _] _ _ _ _]. unfold serialize_content. len_simpl. rewrite H1, H2. reflexivity.
Qed.

(** The signed content determines the transfer. *)
Lemma serialize_content_inj t u :
  transfer_ok t -> transfer_ok u -> serialize_content t = serialize_content u -> t = u.
Proof.
  intros [[A1 _] [A2 _] A3 A4 A5 A6] [[B1 _] [B2 _] B3 B4 B5 B6] E.
  unfold serialize_content in E. destruct t, u; cbn [t_sender t_recipient t_value t_fee t_validity_start_height t_network_id] in *.
  apply app_inj_1 in E as [_ E]; [|reflexivity].
  apply app_inj_1 in E as [-> E]; [|unfold len in *; lia].
  apply app_inj_1 in E as [_ E]; [|reflexivity].
  apply app_inj_1 in E as [-> E]; [|unfold len in *; lia].
  apply app_inj_1 in E as [_ E]; [|reflexivity].
  apply app_inj_1 in E as [Ev E]; [|now rewrite !length_be_bytes].
  apply app_inj_1 in E as [Ef E]; [|now rewrite !length_be_bytes].
  apply app_inj_1 in E as [Es E]; [|now rewrite !length_be_bytes].
  injection E as ->. apply be_bytes_inj in Ev, Ef, Es; try assumption. congruence.
Qed.

(** The fields of a wire of the right shape. *)
Lemma decode_basic_fields pk r v f s n sg :
  len pk = 32 -> len r = 20 -> len v = 8 -> len f = 8 -> len s = 4 -> len sg = 64 ->
  decode_basic_wire ([0] ++ [0] ++ pk ++ r ++ v ++ f ++ s ++ [n] ++ sg)
  = Ok (Some (mkDecoded (mkTransfer (address_of pk) r (from_be v) (from_be f) (from_be s) n) pk sg)).
Proof.
  intros Hp Hr Hv Hf Hs Hg. unfold decode_basic_wire. len_simpl. rewrite Hp, Hr, Hv, Hf, Hs, Hg. cbn [Z.add negb].
  change (Pos.eqb _ _) with true. cbn match.
  rewrite (idx_at _ [] 0 ([0] ++ pk ++ r ++ v ++ f ++ s ++ [n] ++ sg)) by reflexivity.
  rewrite (idx_at _ [0] 0 (pk ++ r ++ v ++ f ++ s ++ [n] ++ sg)) by reflexivity. cbn [Z.eqb negb].
  rewrite (slice_at _ ([0] ++ [0]) pk (r ++ v ++ f ++ s ++ [n] ++ sg)) by (rewrite ?Hp; reflexivity).
  rewrite (slice_at _ ([0] ++ [0] ++ pk) r (v ++ f ++ s ++ [n] ++ sg))
    by (rewrite <- ?app_assoc; len_simpl; rewrite ?Hp, ?Hr; reflexivity).
  rewrite (slice_at _ ([0] ++ [0] ++ pk ++ r) v (f ++ s ++ [n] ++ sg))
    by (rewrite <- ?app_assoc; len_simpl; rewrite ?Hp, ?Hr, ?Hv; reflexivity).
  rewrite (slice_at _ ([0] ++ [0] ++ pk ++ r ++ v) f (s ++ [n] ++ sg))
    by (rewrite <- ?app_assoc; len_simpl; rewrite ?Hp, ?Hr, ?Hv, ?Hf; reflexivity).
  rewrite (slice_at _ ([0] ++ [0] ++ pk ++ r ++ v ++ f) s ([n] ++ sg))
    by (rewrite <- ?app_assoc; len_simpl; rewrite ?Hp, ?Hr, ?Hv, ?Hf, ?Hs; reflexivity).
  rewrite (idx_at _ ([0] ++ [0] ++ pk ++ r ++ v ++ f ++ s) n sg)
    by (rewrite <- ?app_assoc; len_simpl; rewrite ?Hp, ?Hr, ?Hv, ?Hf, ?Hs; reflexivity).
  rewrite (slice_at _ ([0] ++ [0] ++ pk ++ r ++ v ++ f ++ s ++ [n]) sg [])
    by (rewrite <- ?app_assoc, ?app_nil_r; len_simpl; rewrite ?Hp, ?Hr, ?Hv, ?Hf, ?Hs, ?Hg; reflexivity).
  reflexivity.
Qed.

Lemma decode_serialize_basic t pk sg :
  transfer_ok t -> t_sender t = address_of pk -> len pk = 32 -> len sg = 64 ->
  decode_basic_wire (serialize_basic t pk sg) = Ok (Some (mkDecoded t pk sg)).
Proof.
  intros [[H1 _] [H2 _] H3 H4 H5 H6] Hs Hp Hg. unfold serialize_basic.
  rewrite decode_basic_fields by (rewrite ?len_be_bytes; auto).
  rewrite !from_be_be_bytes by assumption. rewrite <- Hs. now destruct t.
Qed.

(** 139 bytes that start with two zeros are such fields. *)
Lemma basic_split (b : bytes) :
  len b = BASIC_WIRE_LEN ->
  exists x y pk r v f s n sg, b = [x] ++ [y] ++ pk ++ r ++ v ++ f ++ s ++ [n] ++ sg
    /\ len pk = 32 /\ len r = 20 /\ len v = 8 /\ len f = 8 /\ len s = 4 /\ len sg = 64.
Proof.
  unfold BASIC_WIRE_LEN. intros Hl. destruct b as [|x [|y b]]; [unfold len in Hl; simpl in Hl; lia..|].
  rewrite !len_cons in Hl.
  destruct (take_drop_len b 32) as (pk & b1 & -> & Hp & L1); [lia|].
  destruct (take_drop_len b1 20) as (r & b2 & -> & Hr & L2); [lia|].
  destruct (take_drop_len b2 8) as (v & b3 & -> & Hv & L3); [lia|].
  destruct (take_drop_len b3 8) as (f & b4 & -> & Hf & L4); [lia|].
  destruct (take_drop_len b4 4) as (s & b5 & -> & Hs & L5); [lia|].
  destruct b5 as [|n sg]; [unfold len in L5 at 1; simpl in L5; lia|]. rewrite len_cons in L5.
  exists x, y, pk, r, v, f, s, n, sg. split_and!; auto. lia.
Qed.

Lemma decode_basic_inv `{!CryptoLaws H} (b : bytes) d :
  bytes_ok b -> decode_basic_wire b = Ok (Some d) ->
  b = serialize_basic (d_transfer d) (d_public_key d) (d_signature d)
  /\ transfer_ok (d_transfer d) /\ t_sender (d_transfer d) = address_of (d_public_key d)
  /\ array_ok 32 (d_public_key d) /\ array_ok 64 (d_signature d).
Proof.
  intros Hb E.
  assert (Hl : len b = BASIC_WIRE_LEN) by (unfold decode_basic_wire in E; run E; assumption).
  destruct (basic_split b Hl) as (x & y & pk & r & v & f & s & n & sg & -> & Hp & Hr & Hv & Hf & Hs & Hg).
  assert (x = 0 /\ y = 0) as [-> ->].
  { unfold decode_basic_wire in E. rewrite Hl, Z.eqb_refl in E. cbn [negb] in E.
    rewrite (idx_at _ [] x ([y] ++ pk ++ r ++ v ++ f ++ s ++ [n] ++ sg)) in E by reflexivity.
    destruct (Z.eqb_spec x 0); [|discriminate E]. cbn [negb] in E.
    rewrite (idx_at _ [x] y (pk ++ r ++ v ++ f ++ s ++ [n] ++ sg)) in E by reflexivity.
    destruct (Z.eqb_spec y 0); [auto | discriminate E]. }
  rewrite decode_basic_fields in E by assumption. injection E as <-.
  rewrite !bytes_ok_app, !bytes_ok_cons in Hb.
  destruct Hb as (_ & _ & Bp & Br & Bv & Bf & Bs & [Bn _] & Bg).
  cbn [d_transfer d_public_key d_signature]. unfold serialize_basic.
  cbn [t_recipient t_value t_fee t_validity_start_height t_network_id].
  rewrite !be_of by assumption. split_and!; [reflexivity | | reflexivity | split; assumption | split; assumption].
  constructor; cbn [t_sender t_recipient t_value t_fee t_validity_start_height t_network_id].
  - apply address_ok.
  - split; assumption.
  - now apply (from_be_uN 8).
  - now apply (from_be_uN 8).
  - now apply (from_be_uN 4).
  - exact Bn.
Qed.

Lemma decode_basic_total b : decode_basic_wire b <> Panic.
Proof.
  unfold decode_basic_wire, BASIC_WIRE_LEN. destruct (Z.eqb_spec (len b) 139) as [Hl|]; simpl; [|discriminate].
  destruct (@idx_ok unit _ b 0 ltac:(lia)) as (x & -> & _). destruct (negb (x =? 0)); [discriminate|].
  destruct (@idx_ok unit _ b 1 ltac:(lia)) as (y & -> & _). destruct (negb (y =? 0)); [discriminate|].
  repeat mem_case. discriminate.
Qed.

Lemma serialize_basic_ok t pk sg :
  transfer_ok t -> bytes_ok pk -> bytes_ok sg -> bytes_ok (serialize_basic t pk sg).
Proof.
  intros [_ [_ H2] _ _ _ H6] Hp Hg. unfold serialize_basic.
  rewrite !bytes_ok_app, !bytes_ok_cons. split_and!; auto using be_bytes_ok, bytes_ok_nil; unfold uN; lia.
Qed.
End nim.

(** ** Properties *)

(** C34: the relay's signature filter.  On arbitrary bytes it never panics, and it
    passes exactly the wire forms of transfers whose sender is the address of
    the embedded key and whose signature verifies over the signed content; the
    transfer, key and signature are determined by the bytes, and the signed
    content determines every field of the transfer. *)
Theorem relay_filter_exact `{C : Crypto} `{!CryptoLaws C} (wire : bytes) (Hw : bytes_ok wire) :
  decode_basic_wire wire <> Panic
  /\ (verify_basic_wire wire = true <->
        exists t pk sg, wire = serialize_basic t pk sg /\ transfer_ok t /\ t_sender t = address_of pk
          /\ array_ok 32 pk /\ array_ok 64 sg /\ ed25519_verify pk (serialize_content t) sg = true)
  /\ (forall t u, transfer_ok t -> transfer_ok u -> serialize_content t = serialize_content u -> t = u).
Proof.
  split_and!; [apply decode_basic_total | | intros t u; apply serialize_content_inj].
  unfold verify_basic_wire. split.
  - destruct (decode_basic_wire wire) as [[d|]| |] eqn:E; try discriminate. intros Hv.
    destruct (decode_basic_inv _ _ Hw E) as (-> & Ht & Hs & Hp & Hg).
    exists (d_transfer d), (d_public_key d), (d_signature d). split_and!; auto.
  - intros (t & pk & sg & -> & Ht & Hs & [Hp _] & [Hg _] & Hv). now rewrite decode_serialize_basic.
Qed.

(** A payment that is signed is one the mesh carries.  For every recipient
    address, amount, anchor height and network, signing with a key whose
    signatures verify succeeds on the formatted address, and the bytes handed to
    the mesh pass the relay's filter and decode to a transfer from the signer to
    that recipient, of that amount, fee zero, that anchor and that network,
    announced to expire one validity window after the anchor. *)
Theorem signed_transfer_relayable `{C : Crypto} `{!CryptoLaws C} (secret a : bytes) (v h : Z) (net : NetworkId)
    (Ha : array_ok 20 a) (Hv : uN 64 v) (Hh : uN 32 h) :
  exists addr s wire,
    to_user_friendly a = Ok addr
    /\ sign_transfer (in_memory_key secret) (mkTransferIntent addr v h net) = Ok s
    /\ signed_transfer_wire s = Ok wire
    /\ len wire = BASIC_WIRE_LEN /\ verify_basic_wire wire = true
    /\ sg_valid_until_height s = Z.min (2 ^ 32 - 1) (h + VALIDITY_WINDOW)
    /\ exists d, decode_basic_wire wire = Ok (Some d)
       /\ d_transfer d = mkTransfer (address_of (ed25519_public secret)) a v 0 h (wire_id net).
Proof.
  destruct (user_friendly_roundtrip a Ha) as (addr & E1 & E2).
  destruct (public_ok secret) as [Hpl Hpb].
  set (t := mkTransfer (address_of (ed25519_public secret)) a v 0 h (wire_id net)).
  assert (Ht : transfer_ok t).
  { constructor; cbn; [apply address_ok | exact Ha | exact Hv | unfold uN; lia | exact Hh |].
    unfold uN. destruct net; simpl; lia. }
  destruct (sign_ok secret (serialize_content t)) as [Hsl Hsb].
  set (sg := ed25519_sign secret (serialize_content t)) in *.
  exists addr, (finished t (ed25519_public secret) sg), (serialize_basic t (ed25519_public secret) sg).
  assert (Hdec : decode_basic_wire (serialize_basic t (ed25519_public secret) sg)
                 = Ok (Some (mkDecoded t (ed25519_public secret) sg))) by now apply decode_serialize_basic.
  split_and!.
  - exact E1.
  - unfold sign_transfer, app_public_key, in_memory_key. cbn [ek_public_key ek_sign_content].
    rewrite try_array_length by (unfold len in Hpl; lia). cbn [ok_or ti_recipient]. rewrite E2. cbn [map_err].
    cbn [ti_value ti_validity_start_height ti_network]. fold t. fold sg.
    rewrite try_array_length by (unfold len in Hsl; lia). reflexivity.
  - unfold signed_transfer_wire, finished. cbn [sg_raw_hex].
    rewrite hex_roundtrip by now apply serialize_basic_ok. reflexivity.
  - unfold serialize_basic. len_simpl. rewrite Hpl, Hsl. unfold t. cbn [t_recipient].
    destruct Ha as [-> _]. reflexivity.
  - unfold verify_basic_wire. rewrite Hdec. cbn. apply verify_sign.
  - reflexivity.
  - eexists. split; [exact Hdec | reflexivity].
Qed.

Definition sample_transfer : Transfer := mkTransfer (address_of (replicate 32 1)) (replicate 20 2) 100000 0 1234 5.

Definition sample_wire : bytes :=
  serialize_basic sample_transfer (replicate 32 1) (ed25519_sign (replicate 32 1) (serialize_content sample_transfer)).

Lemma relay_filter_exact_witness : bytes_ok sample_wire /\ verify_basic_wire sample_wire = true.
Proof.
  assert (Hw : bytes_ok sample_wire) by (apply bytes_okb_ok; vm_compute; reflexivity).
  split; [exact Hw|]. apply (relay_filter_exact sample_wire Hw).
  exists sample_transfer, (replicate 32 1), (ed25519_sign (replicate 32 1) (serialize_content sample_transfer)).
  assert (Harr : forall n (b : bytes), (len b =? n) && bytes_okb b = true -> array_ok n b).
  { intros n b Hb. bool_prop. split; [assumption | now apply bytes_okb_ok]. }
  split; [reflexivity|]. split; [constructor; try (apply Harr; vm_compute; reflexivity); vm_compute; split; congruence|].
  split; [reflexivity|]. split; [apply Harr; vm_compute; reflexivity|].
  split; [apply Harr; vm_compute; reflexivity | vm_compute; reflexivity].
Defined.

Lemma signed_transfer_relayable_witness :
  exists addr s wire, to_user_friendly (replicate 20 3) = Ok addr
    /\ sign_transfer (in_memory_key (replicate 32 7)) (mkTransferIntent addr 250000 4428402 Testnet) = Ok s
    /\ signed_transfer_wire s = Ok wire /\ verify_basic_wire wire = true.
Proof.
  assert (Ha : array_ok 20 (replicate 20 3)) by (split; [reflexivity | apply bytes_okb_ok; reflexivity]).
  assert (Hv : uN 64 250000) by (unfold uN; lia). assert (Hh : uN 32 4428402) by (unfold uN; lia).
  destruct (signed_transfer_relayable (replicate 32 7) (replicate 20 3) 250000 4428402 Testnet Ha Hv Hh)
    as (addr & s & wire & H1 & H2 & H3 & _ & H4 & _).
  exists addr, s, wire. auto.
Defined.
