(* ===== verification/Gateway.v ===== *)
(** * Gateway: the gateway seam and the RPC gateway ([gateway.rs], [rpc.rs])

    [MeshGateway] and [GatewayRpc] are traits of the program and classes here.  A
    method takes [&self], but the node and the chain behind it change between
    calls, so an implementation is a state that every call threads.  [Panic] is a
    call that panics: the strings a node answers with are parsed as addresses, and
    the parser can panic (see [Address]).  Strings are lists of Unicode scalar
    values. *)

From stdpp Require Import base list gmap strings pretty.
From Stdlib Require Import ZArith Lia.
From S2P Require Import Prelude Packet Fragment Settlement Beacon Balance Address NimTx.
Open Scope Z_scope.

Abbreviation str := (list Z) (only parsing).

(** ** Strings *)

(** [char::encode_utf8] and [str::as_bytes] *)
Definition char_bytes (c : Z) : bytes :=
  if c <? 0x80 then [c]
  else if c <? 0x800 then [0xC0 + c / 64; 0x80 + c mod 64]
  else if c <? 0x10000 then [0xE0 + c / 4096; 0x80 + (c / 64) mod 64; 0x80 + c mod 64]
  else [0xF0 + c / 262144; 0x80 + (c / 4096) mod 64; 0x80 + (c / 64) mod 64; 0x80 + c mod 64].

Definition as_bytes (s : str) : bytes := concat (map char_bytes s).

(** [{}] of an unsigned integer *)
Definition decimal (n : Z) : str := chars (pretty n).

Definition to_ascii_lowercase (c : Z) : Z := if (65 <=? c) && (c <=? 90) then c + 32 else c.

Fixpoint starts_with (s p : str) : bool :=
  match p, s with
  | [], _ => true
  | x :: p, y :: s => (x =? y) && starts_with s p
  | _ :: _, [] => false
  end.

(** [str::contains] of a string pattern *)
Fixpoint contains (s p : str) : bool :=
  starts_with s p || match s with [] => false | _ :: s => contains s p end.

(** [str::to_uppercase] is the Unicode mapping; of its tables the development uses
    only that it agrees with the ASCII mapping on ASCII strings. *)
Class Unicode : Type := {
  to_uppercase : str -> str;
  to_uppercase_ascii : forall s, Forall (fun c => 0 <= c < 128) s -> to_uppercase s = map to_ascii_uppercase s
}.

(** ** The RPC client *)

Record RpcAccount : Type := mkRpcAccount {
  ra_balance : Z;
  ra_account_type : str;
  ra_address : option str
}.

Record RpcTransaction : Type := mkRpcTransaction {
  rt_hash : str;
  rt_block_number : option Z;
  rt_confirmations : option Z
}.

Record RpcHistoryTx : Type := mkRpcHistoryTx {
  rh_hash : str;
  rh_from : str;
  rh_to : str;
  rh_value : Z;
  rh_timestamp_ms : Z;
  rh_block_number : option Z
}.

Record RpcHead : Type := mkRpcHead { rd_height : Z; rd_hash : bytes }.

Inductive RpcError : Type :=
| NotTestnet (reason : str)
| Http (status : Z) (method : str)
| Transport (e : str)
| Rpc (method message : str)
| BadResponse (method : str).

Definition is_transient (e : RpcError) : bool :=
  match e with
  | Transport _ => true
  | Http status _ => (status >=? 500) || (status =? 429)
  | _ => false
  end.

(** [Display] *)
Definition rpc_error_to_string (e : RpcError) : str :=
  match e with
  | NotTestnet reason => chars "refused non-testnet RPC: " ++ reason
  | Http status method => chars "rpc http " ++ decimal status ++ chars " (" ++ method ++ chars ")"
  | Transport e => chars "rpc transport error: " ++ e
  | Rpc method message => method ++ chars ": " ++ message
  | BadResponse method => method ++ chars ": malformed response"
  end.

Definition DEFAULT_TESTNET_RPC_URL : str := chars "https://rpc.testnet.nimiqwatch.com".
Definition DEFAULT_MAINNET_RPC_URL : str := chars "https://rpc.nimiqwatch.com".
Definition MAINNET_RPC_HOSTS : list str := [chars "rpc.nimiqwatch.com"].

(** [{network:?}] *)
Definition network_debug (n : NetworkId) : str :=
  match n with Testnet => chars "Testnet" | Mainnet => chars "Mainnet" end.

Definition guard_testnet (url : str) (network : NetworkId) : res RpcError unit :=
  match network with
  | Testnet =>
      let lower := map to_ascii_lowercase url in
      match List.find (fun host => contains lower host) MAINNET_RPC_HOSTS with
      | Some host =>
          Err (NotTestnet (chars "URL '" ++ url ++ chars "' matches a known mainnet RPC host '"
                           ++ host ++ chars "'"))
      | None => Ok tt
      end
  | _ => Err (NotTestnet (chars "network " ++ network_debug network ++ chars " (wire id "
                          ++ decimal (wire_id network) ++ chars ") is not testnet"))
  end.

(** The check of [HttpGatewayRpc::new_mainnet] *)
Definition guard_mainnet (url : str) : res RpcError unit :=
  if contains (map to_ascii_lowercase url) (chars "testnet")
  then Err (NotTestnet (chars "mainnet gateway refused a testnet-looking RPC url: " ++ url))
  else Ok tt.

Class GatewayRpc (T : Type) : Type := {
  block_number : T -> T * res RpcError Z;
  latest_block : T -> T * res RpcError RpcHead;
  get_account : T -> str -> T * res RpcError (option RpcAccount);
  send_raw_transaction : T -> str -> T * res RpcError str;
  get_transaction : T -> str -> T * res RpcError (option RpcTransaction);
  get_transactions : T -> str -> Z -> T * res RpcError (list RpcHistoryTx)
}.

(** The trait's default [latest_block] *)
Definition default_latest_block {T} (number : T -> T * res RpcError Z) (t : T) : T * res RpcError RpcHead :=
  let '(t, r) := number t in
  (t, let? h := r in Ok (mkRpcHead h (replicate 32 0))).

(** The trait's default [get_transactions] *)
Definition default_get_transactions {T} (t : T) : T * res RpcError (list RpcHistoryTx) :=
  (t, Err (Rpc (chars "getTransactionsByAddress") (chars "history unsupported by this RPC client"))).

(** *** The in-memory client *)

Record MockRpc : Type := mkMockRpc {
  mr_head : Z;
  mr_reject : option str;
  mr_transient : option str;
  mr_sent : list str;
  mr_txs : gmap (list Z) RpcTransaction;
  mr_history : list RpcHistoryTx;
  mr_accounts : gmap (list Z) RpcAccount;
  mr_head_hash : bytes
}.

Definition mock_rpc_new (head : Z) : MockRpc := mkMockRpc head None None [] ∅ [] ∅ (replicate 32 0).

Definition hash_of (raw_hex : str) : str := bytes_to_hex (mock_tx_id (as_bytes raw_hex)).

Definition transient_guard (m : MockRpc) : res RpcError unit :=
  match mr_transient m with Some msg => Err (Transport msg) | None => Ok tt end.

Definition mock_send_raw (m : MockRpc) (raw_hex : str) : MockRpc * res RpcError str :=
  match transient_guard m with
  | Ok _ =>
      match mr_reject m with
      | Some msg => (m, Err (Rpc (chars "sendRawTransaction") msg))
      | None =>
          let hash := hash_of raw_hex in
          let txs := match mr_txs m !! hash with
                     | Some _ => mr_txs m
                     | None => <[ hash := mkRpcTransaction hash None (Some 0) ]> (mr_txs m)
                     end in
          (mkMockRpc (mr_head m) (mr_reject m) (mr_transient m) (mr_sent m ++ [raw_hex]) txs
             (mr_history m) (mr_accounts m) (mr_head_hash m), Ok hash)
      end
  | Err e => (m, Err e)
  | Panic => (m, Panic)
  end.

#[export] Instance MockRpc_rpc : GatewayRpc MockRpc := {|
  block_number := fun m => (m, let? _ := transient_guard m in Ok (mr_head m));
  latest_block := fun m => (m, let? _ := transient_guard m in Ok (mkRpcHead (mr_head m) (mr_head_hash m)));
  get_account := fun m address =>
    (m, let? _ := transient_guard m in
        match mr_accounts m !! address with
        | Some a => Ok (Some a)
        | None => Ok (Some (mkRpcAccount 0 (chars "basic") (Some address)))
        end);
  send_raw_transaction := mock_send_raw;
  get_transaction := fun m hash => (m, let? _ := transient_guard m in Ok (mr_txs m !! hash));
  get_transactions := fun m _ max =>
    (m, let? _ := transient_guard m in Ok (take (Z.to_nat max) (mr_history m)))
|}.

(** ** The gateway seam *)

Inductive MeshError : Type := NotStarted | GatewayError (reason : str).

Record Receipt : Type := mkReceipt { rc_tx_id : bytes; rc_status : ReceiptStatus }.

Record SubmitContext : Type := mkSubmit {
  su_tx_id : bytes;
  su_tx_wire : bytes;
  su_network_id : Z;
  su_valid_until : option Z
}.

Record BalanceAnswer : Type := mkBalanceAnswer {
  ba_balance : Z;
  ba_head_height : Z;
  ba_network_id : Z
}.

Class MeshGateway (G : Type) : Type := {
  submit : G -> bytes -> G * res MeshError Receipt;
  submit_validated : G -> SubmitContext -> G * res MeshError Receipt;
  head_beacon : G -> G * res unit (option HeadBeacon);
  balance_of : G -> str -> G * res unit (option BalanceAnswer);
  history_of : G -> str -> G * res unit (option HistoryResponse)
}.

(** The trait's default [submit_validated] *)
Definition default_submit_validated {G} (submit : G -> bytes -> G * res MeshError Receipt) (g : G)
    (ctx : SubmitContext) : G * res MeshError Receipt :=
  let '(g, r) := submit g (su_tx_wire ctx) in
  (g, let? receipt := r in Ok (mkReceipt (su_tx_id ctx) (rc_status receipt))).

(** *** The recording gateway *)

Record MockGateway : Type := mkMockGateway {
  mg_network : NetworkId;
  mg_submissions : list bytes;
  mg_forced_status : ReceiptStatus;
  mg_balance : option (Z * Z)
}.

Definition mock_gateway_new (network : NetworkId) : MockGateway := mkMockGateway network [] RAccepted None.

Definition mock_submit (g : MockGateway) (tx_wire : bytes) : MockGateway * res MeshError Receipt :=
  (mkMockGateway (mg_network g) (mg_submissions g ++ [tx_wire]) (mg_forced_status g) (mg_balance g),
   Ok (mkReceipt (mock_tx_id tx_wire) (mg_forced_status g))).

#[export] Instance MockGateway_gateway : MeshGateway MockGateway := {|
  submit := mock_submit;
  submit_validated := default_submit_validated mock_submit;
  head_beacon := fun g => (g, Ok None);
  balance_of := fun g _ =>
    (g, Ok ('(balance, head_height) ← mg_balance g;
            Some (mkBalanceAnswer balance head_height (wire_id (mg_network g)))));
  history_of := fun g _ => (g, Ok None)
|}.

(** *** The RPC gateway *)

Record RpcGateway (T : Type) : Type := mkRpcGateway { rg_rpc : T; rg_network_id : Z }.
Arguments mkRpcGateway {T}.
Arguments rg_rpc {T}.
Arguments rg_network_id {T}.

Definition rpc_gateway_new {T} (rpc : T) : RpcGateway T := mkRpcGateway rpc (wire_id Testnet).
Definition rpc_gateway_new_mainnet {T} (rpc : T) : RpcGateway T := mkRpcGateway rpc (wire_id Mainnet).

Section rpc_gateway.
Context {U : Unicode} {T : Type} {RPC : GatewayRpc T}.

Definition with_rpc (g : RpcGateway T) (t : T) : RpcGateway T := mkRpcGateway t (rg_network_id g).

(** The head height the validity check reads, when the transaction has a window. *)
Definition window_open (g : RpcGateway T) (valid_until : option Z) : RpcGateway T * res RpcError bool :=
  match valid_until with
  | None => (g, Ok true)
  | Some vu => let '(t, r) := block_number (rg_rpc g) in
               (with_rpc g t, let? head := r in Ok (negb (head >=? vu)))
  end.

Definition rpc_submit_validated (g : RpcGateway T) (ctx : SubmitContext)
  : RpcGateway T * res MeshError Receipt :=
  if negb (su_network_id ctx =? rg_network_id g) then (g, Ok (mkReceipt (su_tx_id ctx) RFailed)) else
  match window_open g (su_valid_until ctx) with
  | (g, Err e) => (g, Err (GatewayError (rpc_error_to_string e)))
  | (g, Panic) => (g, Panic)
  | (g, Ok false) => (g, Ok (mkReceipt (su_tx_id ctx) RExpired))
  | (g, Ok true) =>
      let raw_hex := bytes_to_hex (su_tx_wire ctx) in
      let '(t, r) := send_raw_transaction (rg_rpc g) raw_hex in
      (with_rpc g t,
       match r with
       | Ok _ => Ok (mkReceipt (su_tx_id ctx) RAccepted)
       | Err e => if is_transient e then Err (GatewayError (rpc_error_to_string e))
                  else Ok (mkReceipt (su_tx_id ctx) RFailed)
       | Panic => Panic
       end)
  end.

Definition rpc_submit (g : RpcGateway T) (tx_wire : bytes) : RpcGateway T * res MeshError Receipt :=
  rpc_submit_validated g (mkSubmit (mock_tx_id tx_wire) tx_wire (rg_network_id g) None).

(** [.ok()?]: an error is no answer. *)
Definition answer {E A B} (r : res E A) (k : A -> res unit (option B)) : res unit (option B) :=
  match r with Ok a => k a | Err _ => Ok None | Panic => Panic end.

Definition rpc_head_beacon (g : RpcGateway T) : RpcGateway T * res unit (option HeadBeacon) :=
  let '(t, r) := latest_block (rg_rpc g) in
  (with_rpc g t,
   answer r (fun head => Ok (Some (mkBeacon (rd_height head) (rd_hash head) (rg_network_id g))))).

Definition rpc_balance_of (g : RpcGateway T) (address : str)
  : RpcGateway T * res unit (option BalanceAnswer) :=
  let '(t, r) := block_number (rg_rpc g) in
  match r with
  | Ok head_height =>
      let '(t, r) := get_account t address in
      (with_rpc g t,
       answer r (fun o => Ok (account ← o;
                              Some (mkBalanceAnswer (ra_balance account) head_height (rg_network_id g)))))
  | _ => (with_rpc g t, answer r (fun _ => Ok None))
  end.

(** [s.replace(' ', "").to_uppercase()] *)
Definition compact_upper (s : str) : str := to_uppercase (filter (fun c => c <> 32) s).

(** One row of [history_of]: [Ok None] is a row the filter drops. *)
Definition history_row (compact : str) (t : RpcHistoryTx) : res unit (option TxHistoryRecord) :=
  let incoming := bytes_eqb (compact_upper (rh_to t)) compact in
  answer (from_user_friendly (if incoming then rh_from t else rh_to t)) (fun counterparty =>
  answer (hex_to_bytes (as_bytes (rh_hash t))) (fun hash =>
  if negb (len hash =? 32) then Ok None else
  let flags := if incoming then Z.lor 0 FLAG_INCOMING else 0 in
  let flags := match rh_block_number t with Some _ => Z.lor flags FLAG_CONFIRMED | None => flags end in
  Ok (Some (mkHistory hash counterparty (rh_value t) (rh_timestamp_ms t) flags)))).

Fixpoint history_rows (compact : str) (l : list RpcHistoryTx) : res unit (list TxHistoryRecord) :=
  match l with
  | [] => Ok []
  | t :: l => let? o := history_row compact t in
              let? rest := history_rows compact l in
              Ok (match o with Some r => r :: rest | None => rest end)
  end.

Definition rpc_history_of (g : RpcGateway T) (address : str)
  : RpcGateway T * res unit (option HistoryResponse) :=
  match from_user_friendly address with
  | Ok queried =>
      let '(t, r) := block_number (rg_rpc g) in
      match r with
      | Ok head_height =>
          let '(t, r) := get_transactions t address HISTORY_MAX in
          (with_rpc g t,
           answer r (fun rows =>
             let? records := history_rows (compact_upper address) (take (Z.to_nat HISTORY_MAX) rows) in
             Ok (Some (mkHistoryResponse queried head_height (rg_network_id g) records))))
      | _ => (with_rpc g t, answer r (fun _ => Ok None))
      end
  | r => (g, answer r (fun _ => Ok None))
  end.

#[export] Instance RpcGateway_gateway : MeshGateway (RpcGateway T) := {|
  submit := rpc_submit;
  submit_validated := rpc_submit_validated;
  head_beacon := rpc_head_beacon;
  balance_of := rpc_balance_of;
  history_of := rpc_history_of
|}.
End rpc_gateway.

(** ** What an RPC answer becomes *)

Lemma base32_decode_ok s : forall buffer bits idx out a,
  array_ok 20 out -> base32_decode_loop buffer bits idx out s = Ok a -> array_ok 20 a.
Proof.
  induction s as [|c s IH]; intros buffer bits idx out a Ho H; [now injection H as <-|].
  cbn [base32_decode_loop] in H. destruct (position c BASE32_ALPHABET 0); [|discriminate].
  cbn [ok_or] in H. destruct (_ >=? 8); [|eauto]. destruct (_ >=? _); [discriminate|].
  apply IH in H; [exact H|]. destruct Ho as [Hl Hb]. split.
  - unfold len in *. now rewrite length_insert.
  - apply Forall_insert; [exact Hb|]. change 0xff with (Z.ones 8). rewrite Z.land_ones by lia.
    apply Z.mod_pos_bound. lia.
Qed.

Lemma from_user_friendly_ok s a : from_user_friendly s = Ok a -> array_ok 20 a.
Proof.
  unfold from_user_friendly, base32_decode. intros H. repeat case_hyp H; try discriminate.
  eapply base32_decode_ok; [|exact H]. split; [reflexivity | apply bytes_okb_ok; reflexivity].
Qed.

Lemma hex_pairs_ok b : forall v, hex_pairs b = Ok v -> bytes_ok v.
Proof.
  assert (Hn : forall c v, nibble c = Ok v -> 0 <= v < 16).
  { intros c v. unfold nibble.
    destruct (Z.leb_spec 48 c), (Z.leb_spec c 57), (Z.leb_spec 97 c), (Z.leb_spec c 102),
      (Z.leb_spec 65 c), (Z.leb_spec c 70); cbn [andb]; intros [= <-]; lia. }
  induction b as [b IH] using (induction_ltof1 _ length). intros v.
  destruct b as [|x [|y b]]; cbn [hex_pairs]; [intros [= <-]; constructor..|].
  destruct (nibble x) as [hi| |] eqn:Ex; [|discriminate..].
  destruct (nibble y) as [lo| |] eqn:Ey; [|discriminate..].
  destruct (hex_pairs b) as [rest| |] eqn:Er; [|discriminate..]. intros [= <-].
  apply Hn in Ex, Ey. constructor; [|apply (IH b); [unfold ltof; simpl; lia | exact Er]].
  rewrite Z.shiftl_mul_pow2, lor_shift_low by lia. unfold uN. change (2 ^ 4) with 16. change (2 ^ 8) with 256. lia.
Qed.

Lemma hex_to_bytes_ok b v : hex_to_bytes b = Ok v -> bytes_ok v.
Proof. unfold hex_to_bytes. destruct (negb _); [discriminate|]. apply hex_pairs_ok. Qed.

Section history.
Context {U : Unicode} {T : Type} {RPC : GatewayRpc T}.

(** The numeric fields of a row, in the range of their types. *)
Definition row_ok (t : RpcHistoryTx) : Prop := uN 64 (rh_value t) /\ uN 64 (rh_timestamp_ms t).

Lemma history_row_ok compact t r :
  row_ok t -> history_row compact t = Ok (Some r) -> record_ok r.
Proof.
  intros [Hv Ht]. unfold history_row, answer.
  destruct (from_user_friendly _) as [cp| |] eqn:Ea; [|discriminate..].
  destruct (hex_to_bytes _) as [hash| |] eqn:Eh; [|discriminate..].
  destruct (Z.eqb_spec (len hash) 32); cbn [negb]; [|discriminate]. intros [= <-].
  constructor; cbn; [split; [assumption | eapply hex_to_bytes_ok; eauto]
                    | eapply from_user_friendly_ok; eauto | assumption | assumption |].
  destruct (bytes_eqb _ _), (rh_block_number t); vm_compute; split; congruence.
Qed.

Lemma history_rows_ok compact l : forall rs,
  Forall row_ok l -> history_rows compact l = Ok rs -> Forall record_ok rs /\ len rs <= len l.
Proof.
  induction l as [|t l IH]; intros rs Hl; cbn [history_rows]; [intros [= <-]; split; [constructor | reflexivity]|].
  inversion Hl as [|? ? Ht Hl']; subst.
  destruct (history_row compact t) as [o| |] eqn:Er; [|discriminate..].
  destruct (history_rows compact l) as [rest| |]; [|discriminate..]. intros [= <-].
  destruct (IH rest Hl' eq_refl) as [Hok Hle]. rewrite len_cons.
  destruct o as [r|]; [rewrite len_cons; split; [constructor; [eapply history_row_ok; eauto | assumption] | lia]
                      | split; [assumption | lia]].
Qed.
End history.

(** What the types of [GatewayRpc] say: the numbers an RPC call returns are in the
    range of their Rust types. *)
Class RpcTyped (T : Type) `{GatewayRpc T} : Prop := {
  block_number_u32 : forall t t' h, block_number t = (t', Ok h) -> uN 32 h;
  rows_typed : forall t t' s n rows, get_transactions t s n = (t', Ok rows) -> Forall row_ok rows
}.

Lemma length_chunks_fuel fuel : forall k l n,
  (length l <= n * k)%nat -> (length (chunks_fuel fuel k l) <= n)%nat.
Proof.
  induction fuel as [|fuel IH]; intros k l n Hl; simpl; [lia|].
  destruct l as [|x l]; [simpl; lia|]. destruct n as [|n]; [simpl in Hl; lia|].
  apply le_n_S, IH. rewrite length_drop. lia.
Qed.

Lemma history_fragments r id :
  history_ok r ->
  len (fragment_message 0x36 (encode_history_response r) HISTORY_FRAGMENT_CHUNK id) <= 4.
Proof.
  intros Hr. unfold len. rewrite fragment_message_len.
  assert (Hl : len (encode_history_response r) <= 716).
  { unfold encode_history_response. destruct Hr as [[Ha _] _ _ Hc Hrs]. rewrite Z.min_l by exact Hc.
    rewrite to_nat_len, firstn_all, !len_app, Ha, len_be_bytes, len_concat_records by exact Hrs.
    unfold HISTORY_RECORD_LEN, ADDRESS_LEN, HISTORY_MAX, len in *. simpl. lia. }
  unfold pieces. destruct (encode_history_response r) as [|x l]; [simpl; lia|].
  pose proof (length_chunks_fuel (length (x :: l)) (Z.to_nat (Z.max HISTORY_FRAGMENT_CHUNK 1)) (x :: l) 4) as H.
  unfold chunks, len in *. change (Z.to_nat (Z.max HISTORY_FRAGMENT_CHUNK 1)) with 180%nat in *. lia.
Qed.

Lemma encode_history_bytes r : history_ok r -> bytes_ok (encode_history_response r).
Proof.
  intros [[_ Ha] Hh Hn Hc Hrs]. unfold encode_history_response. rewrite !bytes_ok_app.
  split_and!; auto using be_bytes_ok; [now apply bytes_ok_cons; split; [|constructor] | |].
  - apply bytes_ok_cons; split; [|constructor]. now apply Z.mod_pos_bound.
  - apply Forall_concat, Forall_map, Forall_take. eapply Forall_impl; [exact Hrs|].
    intros x [[_ ?] [_ ?] ? ? ?]. unfold encode_record. rewrite !bytes_ok_app.
    split_and!; auto using be_bytes_ok. now apply bytes_ok_cons; split; [|constructor].
Qed.

(** ** Recording what is broadcast *)

(** An RPC client and every raw transaction it was asked to broadcast. *)
Record RpcLog (T : Type) : Type := mkRpcLog { rl_inner : T; rl_sent : list (list Z) }.
Arguments mkRpcLog {T}.
Arguments rl_inner {T}.
Arguments rl_sent {T}.

Definition relog {T A} (l : RpcLog T) (x : T * A) : RpcLog T * A := (mkRpcLog x.1 (rl_sent l), x.2).

#[export] Instance RpcLog_rpc {T} `{GatewayRpc T} : GatewayRpc (RpcLog T) := {|
  block_number := fun l => relog l (block_number (rl_inner l));
  latest_block := fun l => relog l (latest_block (rl_inner l));
  get_account := fun l a => relog l (get_account (rl_inner l) a);
  send_raw_transaction := fun l raw =>
    let x := send_raw_transaction (rl_inner l) raw in (mkRpcLog x.1 (rl_sent l ++ [raw]), x.2);
  get_transaction := fun l h => relog l (get_transaction (rl_inner l) h);
  get_transactions := fun l a n => relog l (get_transactions (rl_inner l) a n)
|}.

(** The height the node reports, when the transaction has a validity window. *)
Definition head_at {T} `{GatewayRpc T} (t : T) : res RpcError Z := (block_number t).2.

(** The client as the broadcast finds it. *)
Definition at_broadcast {T} `{GatewayRpc T} (t : T) (vu : option Z) : T :=
  match vu with Some _ => (block_number t).1 | None => t end.

(** ** Properties *)

(** What the answer of a broadcast becomes *)
Lemma broadcast_answer {A} (r : res RpcError A) (id : bytes) :
  let answer := match r with
                | Ok _ => Ok (mkReceipt id RAccepted)
                | Err e => if is_transient e then Err (GatewayError (rpc_error_to_string e)) else Ok (mkReceipt id RFailed)
                | Panic => Panic
                end in
  let no_receipt := exists m, answer = Err (GatewayError m) in
  match r with
  | Ok _ => answer = Ok (mkReceipt id RAccepted)
  | Err (Transport _) => no_receipt
  | Err (Http status _) =>
      (500 <= status \/ status = 429 -> no_receipt) /\ (status < 500 -> status <> 429 -> answer = Ok (mkReceipt id RFailed))
  | Err (NotTestnet _) | Err (Rpc _ _) | Err (BadResponse _) => answer = Ok (mkReceipt id RFailed)
  | Panic => answer = Panic
  end.
Proof.
  destruct r as [x|e|]; [done| |done]. destruct e as [?|status ?|?|? ?|?]; cbn; eauto.
  split.
  - intros H. destruct (Z.geb_spec status 500), (Z.eqb_spec status 429); cbn; eauto; lia.
  - intros H1 H2. destruct (Z.geb_spec status 500), (Z.eqb_spec status 429); cbn; done || lia.
Qed.

(** C37: what a gateway broadcasts and answers, on every branch.  A submission for another
    network is answered Failed, and the node is not asked anything.  For the gateway's own
    network, a window that has closed at the height the node reports is answered Expired, and a
    height that cannot be read is an error with no receipt; nothing is broadcast in either case.
    When there is no window or it is still open, exactly one transaction is broadcast, the hex of
    the wire; it is answered Accepted if the node took it; a transport failure, a status of 500
    or more and a 429 give no receipt, so that it can be tried again; any other status, a
    rejection by the node, a malformed answer and a refused network are answered Failed. *)
Theorem rpc_submit_outcome {T} `{RPC : GatewayRpc T} (g : RpcGateway (RpcLog T)) (ctx : SubmitContext) :
  let node := rl_inner (rg_rpc g) in
  let hex := bytes_to_hex (su_tx_wire ctx) in
  let receipt s := Ok (mkReceipt (su_tx_id ctx) s) in
  let '(g', answer) := rpc_submit_validated g ctx in
  let no_receipt := exists m, answer = Err (GatewayError m) in
  (su_network_id ctx <> rg_network_id g -> g' = g /\ answer = receipt RFailed)
  /\ (su_network_id ctx = rg_network_id g -> forall vu, su_valid_until ctx = Some vu ->
        match head_at node with
        | Ok h => vu <= h -> rl_sent (rg_rpc g') = rl_sent (rg_rpc g) /\ answer = receipt RExpired
        | Err _ => rl_sent (rg_rpc g') = rl_sent (rg_rpc g) /\ no_receipt
        | Panic => rl_sent (rg_rpc g') = rl_sent (rg_rpc g) /\ answer = Panic
        end)
  /\ (su_network_id ctx = rg_network_id g ->
      (forall vu, su_valid_until ctx = Some vu -> exists h, head_at node = Ok h /\ h < vu) ->
      rl_sent (rg_rpc g') = rl_sent (rg_rpc g) ++ [hex]
      /\ match (send_raw_transaction (at_broadcast node (su_valid_until ctx)) hex).2 with
         | Ok _ => answer = receipt RAccepted
         | Err (Transport _) => no_receipt
         | Err (Http status _) =>
             (500 <= status \/ status = 429 -> no_receipt)
             /\ (status < 500 -> status <> 429 -> answer = receipt RFailed)
         | Err (NotTestnet _) | Err (Rpc _ _) | Err (BadResponse _) => answer = receipt RFailed
         | Panic => answer = Panic
         end).
Proof.
  unfold rpc_submit_validated, window_open, head_at, at_broadcast.
  destruct (Z.eqb_spec (su_network_id ctx) (rg_network_id g)) as [Hn|Hn]; cbn [negb]; [|by split_and!].
  destruct (su_valid_until ctx) as [vu|]; cbn [block_number send_raw_transaction RpcLog_rpc relog].
  - destruct (block_number (rl_inner (rg_rpc g))) as [t [h|e|]]; cbn;
      [|split_and!; [done|intros _ ? [= <-]; eauto|intros _ Ho; by destruct (Ho vu eq_refl) as (? & ? & _)]..].
    destruct (Z.geb_spec h vu); cbn.
    + split_and!; [done|by intros _ ? [= <-]|]. intros _ Ho. destruct (Ho vu eq_refl) as (? & [= <-] & ?). lia.
    + split_and!; [done|intros _ ? [= <-]; lia|]. intros _ _. split; [done|]. apply broadcast_answer.
  - split_and!; [done..|]. intros _ _. split; [done|]. apply broadcast_answer.
Qed.

(** A history answer survives the mesh.  Whatever rows the RPC node returns for
    a queried address, a gateway that answers does so for that address, at the
    height the node reported and with at most ten well-formed records, so the
    payload decodes back to the same answer and travels in at most four
    fragments. *)
Theorem history_answer_exact `{U : Unicode} {T} `{RPC : GatewayRpc T} `{!RpcTyped T} (g g' : RpcGateway T)
    (a s id : bytes) (r : HistoryResponse)
    (Ha : array_ok 20 a) (Hn : uN 8 (rg_network_id g))
    (Hs : to_user_friendly a = Ok s)
    (Hr : history_of g s = (g', Ok (Some r))) :
  hs_address r = a /\ head_at (rg_rpc g) = Ok (hs_head_height r) /\ hs_network_id r = rg_network_id g
  /\ decode_history_response (encode_history_response r) = Ok (Some r)
  /\ len (fragment_message 0x36 (encode_history_response r) HISTORY_FRAGMENT_CHUNK id) <= 4.
Proof.
  destruct (user_friendly_roundtrip a Ha) as (s' & Hs' & Hp). rewrite Hs' in Hs. injection Hs as ->.
  cbn [history_of RpcGateway_gateway] in Hr. unfold rpc_history_of, answer, head_at in *. rewrite Hp in Hr.
  destruct (block_number (rg_rpc g)) as [t [h|e|]] eqn:Eb; [|discriminate..].
  destruct (get_transactions t s HISTORY_MAX) as [t' [rows|e|]] eqn:Et; [|discriminate..].
  destruct (history_rows _ _) as [recs| |] eqn:Eh; [|discriminate..]. injection Hr as <- <-.
  assert (Hok : history_ok (mkHistoryResponse a h (rg_network_id g) recs)).
  { apply history_rows_ok in Eh as [Hrec Hlen]; [|now apply Forall_take, (rows_typed _ _ _ _ _ Et)].
    constructor; cbn; auto; [exact (block_number_u32 _ _ _ Eb)|].
    unfold len in *. rewrite length_take in Hlen. unfold HISTORY_MAX in *. lia. }
  split_and!; try reflexivity; [|now apply history_fragments].
  apply decode_history_exact; [|now split]. now apply encode_history_bytes.
Qed.

(** A client that serves one fixed row, and the ASCII part of the Unicode mapping. *)
Inductive SampleRpc : Type := Sample.

Definition sample_address : bytes := replicate 20 77.
Definition sample_friendly : list Z := match to_user_friendly sample_address with Ok s => s | _ => [] end.

Definition sample_row : RpcHistoryTx :=
  mkRpcHistoryTx (bytes_to_hex (replicate 32 171)) sample_friendly sample_friendly 300000 17 (Some 99).

#[export] Instance SampleRpc_rpc : GatewayRpc SampleRpc := {|
  block_number := fun t => (t, Ok 100);
  latest_block := default_latest_block (fun t => (t, Ok 100));
  get_account := fun t _ => (t, Ok None);
  send_raw_transaction := fun t raw => (t, Ok raw);
  get_transaction := fun t _ => (t, Ok None);
  get_transactions := fun t _ _ => (t, Ok [sample_row])
|}.

#[export] Instance SampleRpc_typed : RpcTyped SampleRpc.
Proof.
  split.
  - intros t t' h [= <- <-]. vm_compute. split; congruence.
  - intros t t' s n rows [= <- <-]. repeat constructor; vm_compute; congruence.
Qed.

Definition ascii_unicode : Unicode := {|
  to_uppercase := map to_ascii_uppercase; to_uppercase_ascii := fun s _ => eq_refl |}.

Definition sample_answer : HistoryResponse :=
  mkHistoryResponse sample_address 100 5 [mkHistory (replicate 32 171) sample_address 300000 17 3].

Lemma history_answer_exact_witness :
  decode_history_response (encode_history_response sample_answer) = Ok (Some sample_answer)
  /\ len (fragment_message 0x36 (encode_history_response sample_answer) HISTORY_FRAGMENT_CHUNK (replicate 8 1)) <= 4.
Proof.
  apply (@history_answer_exact ascii_unicode SampleRpc _ _ (rpc_gateway_new Sample) (rpc_gateway_new Sample)
           sample_address sample_friendly (replicate 8 1) sample_answer).
  - split; [reflexivity | apply bytes_okb_ok; reflexivity].
  - vm_compute. split; congruence.
  - vm_compute. reflexivity.
  - vm_compute. reflexivity.
Defined.
