(* ===== verification/RequestUri.v ===== *)
(** * RequestUri: payment links and the backup reminder ([request_uri.rs], [backup.rs])

    A [String] is the list of its characters (code points); [as_bytes] is its UTF-8.
    [from_user_friendly] can panic on a foreign address, so the two codecs can too. *)

From stdpp Require Import base list strings.
From Stdlib Require Import ZArith Lia.
From S2P Require Import Prelude Packet Address Chat Gateway.
Open Scope Z_scope.

Definition LUNA_PER_NIM : Z := 100000.
Definition NIM_DECIMALS : nat := 5.

(** ** Text *)

(** [{}] of a [u64]: at most 20 digits *)
Fixpoint digits (turns : nat) (n : Z) : str :=
  match turns with
  | O => []
  | S turns => if n <? 10 then [48 + n] else digits turns (n / 10) ++ [48 + n mod 10]
  end.

Definition u64_to_string (n : Z) : str := digits 20 n.

(** [{n:05}] *)
Definition pad_left (width : nat) (s : str) : str := replicate (width - length s) 48 ++ s.

(** [{s:0<5}] *)
Definition pad_right (width : nat) (s : str) : str := s ++ replicate (width - length s) 48.

(** [trim_end_matches('0')] *)
Fixpoint trim_end_zeros (s : str) : str :=
  match s with
  | [] => []
  | c :: s => match trim_end_zeros s with
              | [] => if c =? 48 then [] else [c]
              | t => c :: t
              end
  end.

(** [str::split_once] and [str::split] at a character *)
Fixpoint split_once (sep : Z) (s : str) : option (str * str) :=
  match s with
  | [] => None
  | c :: s => if c =? sep then Some ([], s)
              else match split_once sep s with Some (a, b) => Some (c :: a, b) | None => None end
  end.

Fixpoint split_at (sep : Z) (s : str) : list str :=
  match s with
  | [] => [[]]
  | c :: s => if c =? sep then [] :: split_at sep s
              else match split_at sep s with p :: ps => (c :: p) :: ps | [] => [[c]] end
  end.

Fixpoint strip_prefix (p s : str) : option str :=
  match p, s with
  | [], s => Some s
  | a :: p, c :: s => if a =? c then strip_prefix p s else None
  | _, [] => None
  end.

(** [parse::<u64>()] of a nonempty string of digits: an overflow is an error *)
Definition parse_u64 (s : str) : option Z :=
  foldl (fun acc c => n ← acc; if 2 ^ 64 <=? n * 10 + (c - 48) then None else Some (n * 10 + (c - 48))) (Some 0) s.

Definition all_digits (s : str) : bool := forallb (fun c => (48 <=? c) && (c <=? 57)) s.

(** [String::from_utf8(..).ok()] *)
Fixpoint from_utf8 (l : bytes) : option str :=
  match l with
  | [] => Some []
  | b0 :: r0 =>
      if b0 <? 0x80 then s ← from_utf8 r0; Some (b0 :: s) else
      match r0 with
      | [] => None
      | b1 :: r1 =>
          if in_byte_range 0xC2 0xDF b0 then
            if is_cont b1 then s ← from_utf8 r1; Some ((b0 - 0xC0) * 64 + (b1 - 0x80) :: s) else None
          else
          match r1 with
          | [] => None
          | b2 :: r2 =>
              if in_byte_range 0xE0 0xEF b0 then
                if second_ok b0 b1 && is_cont b2 then
                  s ← from_utf8 r2; Some ((b0 - 0xE0) * 4096 + (b1 - 0x80) * 64 + (b2 - 0x80) :: s)
                else None
              else
              match r2 with
              | [] => None
              | b3 :: r3 =>
                  if in_byte_range 0xF0 0xF4 b0 && second_ok b0 b1 && is_cont b2 && is_cont b3 then
                    s ← from_utf8 r3;
                    Some ((b0 - 0xF0) * 262144 + (b1 - 0x80) * 4096 + (b2 - 0x80) * 64 + (b3 - 0x80) :: s)
                  else None
              end
          end
      end
  end.

(** ** Amounts *)

Definition format_nim (luna : Z) : str :=
  let int := luna / LUNA_PER_NIM in
  let frac := luna mod LUNA_PER_NIM in
  if frac =? 0 then u64_to_string int else
  u64_to_string int ++ [46] ++ trim_end_zeros (pad_left NIM_DECIMALS (u64_to_string frac)).

Definition parse_nim (s : str) : option Z :=
  if bool_decide (s = []) then None else
  let '(int_str, frac_str) := match split_once 46 s with Some p => p | None => (s, []) end in
  if bool_decide (int_str = []) || negb (all_digits int_str) then None else
  if (Z.of_nat NIM_DECIMALS <? str_len frac_str) || negb (all_digits frac_str) then None else
  int ← parse_u64 int_str;
  let frac_padded := pad_right NIM_DECIMALS frac_str in
  frac ← (if bool_decide (frac_padded = []) then Some 0 else parse_u64 frac_padded);
  if 2 ^ 64 <=? int * LUNA_PER_NIM then None else
  if 2 ^ 64 <=? int * LUNA_PER_NIM + frac then None else Some (int * LUNA_PER_NIM + frac).

(** ** Percent encoding *)

Definition is_unreserved (b : Z) : bool :=
  ((48 <=? b) && (b <=? 57)) || ((65 <=? b) && (b <=? 90)) || ((97 <=? b) && (b <=? 122))
  || (b =? 45) || (b =? 95) || (b =? 46) || (b =? 126).

(** A digit of [{b:02X}] *)
Definition hex_upper (n : Z) : Z := if n <? 10 then 48 + n else 55 + n.

Definition percent_encode (s : str) : str :=
  flat_map (fun b => if is_unreserved b then [b] else [37; hex_upper (b / 16); hex_upper (b mod 16)]) (as_bytes s).

(** [(b as char).to_digit(16)] *)
Definition to_digit16 (c : Z) : option Z :=
  if (48 <=? c) && (c <=? 57) then Some (c - 48)
  else if (97 <=? c) && (c <=? 102) then Some (c - 87)
  else if (65 <=? c) && (c <=? 70) then Some (c - 55)
  else None.

(** The loop of [percent_decode] *)
Fixpoint percent_bytes (l : bytes) : option bytes :=
  match l with
  | [] => Some []
  | b :: r =>
      if b =? 37 then
        match r with
        | hi :: r1 =>
            match r1 with
            | lo :: r2 => h ← to_digit16 hi; d ← to_digit16 lo; out ← percent_bytes r2; Some (h * 16 + d :: out)
            | [] => None
            end
        | [] => None
        end
      else if b =? 43 then out ← percent_bytes r; Some (32 :: out)
      else out ← percent_bytes r; Some (b :: out)
  end.

Definition percent_decode (s : str) : option str := out ← percent_bytes (as_bytes s); from_utf8 out.

(** ** The links *)

Record PaymentRequest : Type := mkRequest { pr_address : str; pr_amount_luna : Z; pr_message : option str }.

(** [params.join("&")] *)
Fixpoint join_amp (l : list str) : str :=
  match l with
  | [] => []
  | [p] => p
  | p :: l => p ++ [38] ++ join_amp l
  end.

Definition nonempty (m : option str) : option str := match m with Some [] => None | _ => m end.

(** The query of a link *)
Definition request_params (amount_luna : Z) (message : option str) : list str :=
  (if 0 <? amount_luna then [chars "amount=" ++ format_nim amount_luna] else [])
  ++ match nonempty message with Some m => [chars "message=" ++ percent_encode m] | None => [] end.

Definition build_request_uri (address : str) (amount_luna : Z) (message : option str) : res unit (option str) :=
  match from_user_friendly address with
  | Ok addr =>
      let? s := to_user_friendly addr in
      let compact := filter (fun c => is_whitespace c = false) s in
      let params := request_params amount_luna message in
      Ok (Some (chars "nimiq:" ++ compact ++ match params with [] => [] | _ => [63] ++ join_amp params end))
  | Err _ => Ok None
  | Panic => Panic
  end.

(** The loop over the pairs of a query *)
Fixpoint parse_pairs (pairs : list str) (amount_luna : Z) (message : option str) : option (Z * option str) :=
  match pairs with
  | [] => Some (amount_luna, message)
  | param :: pairs =>
      if bool_decide (param = []) then parse_pairs pairs amount_luna message else
      let '(key, value) := match split_once 61 param with Some p => p | None => (param, []) end in
      if bool_decide (key = chars "amount") then a ← parse_nim value; parse_pairs pairs a message
      else if bool_decide (key = chars "message") then
        decoded ← percent_decode value;
        parse_pairs pairs amount_luna (if bool_decide (decoded = []) then message else Some decoded)
      else parse_pairs pairs amount_luna message
  end.

Definition parse_request_uri (uri : str) : res unit (option PaymentRequest) :=
  match strip_prefix (chars "nimiq:") uri with
  | None => Ok None
  | Some rest =>
      let '(addr_part, query) := match split_once 63 rest with Some (a, q) => (a, Some q) | None => (rest, None) end in
      match from_user_friendly addr_part with
      | Ok addr =>
          let? address := to_user_friendly addr in
          Ok (match match query with Some q => parse_pairs (split_at 38 q) 0 None | None => Some (0, None) end with
              | Some (amount_luna, message) => Some (mkRequest address amount_luna message)
              | None => None
              end)
      | Err _ => Ok None
      | Panic => Panic
      end
  end.

(** ** The backup reminder *)

Inductive BackupUrgency : Type := BuNone | BuGentle | BuImportant | BuCritical.

Record BackupState : Type := mkBackup { bs_backed_up : bool; bs_balance_luna : Z; bs_days_since_first_funds : Z }.

Definition BALANCE_IMPORTANT_LUNA : Z := 100 * LUNA_PER_NIM.
Definition BALANCE_CRITICAL_LUNA : Z := 1000 * LUNA_PER_NIM.
Definition AGE_IMPORTANT_DAYS : Z := 7.
Definition AGE_CRITICAL_DAYS : Z := 30.

(** The order of the levels, and [max] *)
Definition urgency_rank (u : BackupUrgency) : Z :=
  match u with BuNone => 0 | BuGentle => 1 | BuImportant => 2 | BuCritical => 3 end.

Definition urgency_max (a b : BackupUrgency) : BackupUrgency := if urgency_rank a <=? urgency_rank b then b else a.

Definition backup_urgency (s : BackupState) : BackupUrgency :=
  if bs_backed_up s || (bs_balance_luna s =? 0) then BuNone else
  let by_balance := if BALANCE_CRITICAL_LUNA <=? bs_balance_luna s then BuCritical
                    else if BALANCE_IMPORTANT_LUNA <=? bs_balance_luna s then BuImportant else BuGentle in
  let by_age := if AGE_CRITICAL_DAYS <=? bs_days_since_first_funds s then BuCritical
                else if AGE_IMPORTANT_DAYS <=? bs_days_since_first_funds s then BuImportant else BuGentle in
  urgency_max by_balance by_age.

(** ** UTF-8 *)

(** A Unicode scalar value, what a [char] is *)
Definition scalar (c : Z) : Prop := 0 <= c < 0xD800 \/ 0xE000 <= c < 0x110000.

Lemma range_true lo hi b : lo <= b <= hi -> in_byte_range lo hi b = true.
Proof. intros H. unfold in_byte_range. rewrite !andb_true_iff, !Z.leb_le. lia. Qed.

Lemma range_false lo hi b : b < lo \/ hi < b -> in_byte_range lo hi b = false.
Proof. intros H. unfold in_byte_range. rewrite andb_false_iff, !Z.leb_gt. lia. Qed.

Lemma cont_low x : is_cont (0x80 + x mod 64) = true.
Proof. pose proof (Z.mod_pos_bound x 64 eq_refl). apply range_true. lia. Qed.

Lemma second_ok_3 c : 0x800 <= c < 0x10000 -> scalar c -> second_ok (0xE0 + c / 4096) (0x80 + (c / 64) mod 64) = true.
Proof.
  intros Hc Hs. pose proof (Z.mod_pos_bound (c / 64) 64 eq_refl). pose proof (Z.div_mod c 4096 ltac:(lia)).
  pose proof (Z.mod_pos_bound c 4096 eq_refl). assert (E : (c / 64) mod 64 = c mod 4096 / 64).
  { replace (c / 64) with (c / 4096 * 64 + c mod 4096 / 64).
    - rewrite Z.add_comm, Z.mod_add by lia. apply Z.mod_small. split; [apply Z.div_pos; lia|apply Z.div_lt_upper_bound; lia].
    - replace c with (c mod 4096 + c / 4096 * 64 * 64) at 3 by lia. rewrite Z.div_add by lia. lia. }
  assert (D : forall k, k * 64 <= c mod 4096 -> k <= c mod 4096 / 64) by (intros k Hk; apply Z.div_le_lower_bound; lia).
  assert (D' : forall k, c mod 4096 < k * 64 -> c mod 4096 / 64 < k) by (intros k Hk; apply Z.div_lt_upper_bound; lia).
  unfold second_ok, scalar in *. destruct (Z.eqb_spec (0xE0 + c / 4096) 0xE0).
  - specialize (D 32). apply range_true. rewrite E in *. lia.
  - destruct (Z.eqb_spec (0xE0 + c / 4096) 0xED); [specialize (D' 32); apply range_true; rewrite E in *; lia|].
    assert (c / 4096 < 16) by (apply Z.div_lt_upper_bound; lia).
    rewrite !(proj2 (Z.eqb_neq _ _)) by lia. apply range_true. lia.
Qed.

Lemma second_ok_4 c : 0x10000 <= c < 0x110000 -> second_ok (0xF0 + c / 262144) (0x80 + (c / 4096) mod 64) = true.
Proof.
  intros Hc. pose proof (Z.mod_pos_bound (c / 4096) 64 eq_refl). assert (Hd : 16 <= c / 4096 < 272) by (split; [apply Z.div_le_lower_bound|apply Z.div_lt_upper_bound]; lia).
  assert (E : c / 262144 = c / 4096 / 64) by (by rewrite Z.div_div by lia). pose proof (Z.div_mod (c / 4096) 64 ltac:(lia)).
  unfold second_ok. rewrite E. rewrite !(proj2 (Z.eqb_neq (0xF0 + _) 0xE0)), !(proj2 (Z.eqb_neq (0xF0 + _) 0xED)) by lia.
  destruct (Z.eqb_spec (0xF0 + c / 4096 / 64) 0xF0); [apply range_true; lia|].
  destruct (Z.eqb_spec (0xF0 + c / 4096 / 64) 0xF4); apply range_true; lia.
Qed.

Lemma from_utf8_char c r : scalar c -> from_utf8 (char_bytes c ++ r) = (s ← from_utf8 r; Some (c :: s)).
Proof.
  intros Hs. unfold char_bytes. assert (H0 : 0 <= c < 0x110000) by (unfold scalar in Hs; lia).
  destruct (Z.ltb_spec c 0x80); [cbn [app from_utf8]; by rewrite (proj2 (Z.ltb_lt _ _)) by lia|].
  pose proof (Z.div_mod c 64 ltac:(lia)). pose proof (Z.mod_pos_bound c 64 eq_refl).
  destruct (Z.ltb_spec c 0x800).
  { assert (2 <= c / 64 < 32) by (split; [apply Z.div_le_lower_bound|apply Z.div_lt_upper_bound]; lia).
    cbn [app from_utf8]. rewrite (proj2 (Z.ltb_ge _ _)), range_true, cont_low by lia.
    replace ((0xC0 + c / 64 - 0xC0) * 64 + (0x80 + c mod 64 - 0x80)) with c by lia. done. }
  pose proof (Z.div_mod (c / 64) 64 ltac:(lia)) as D2. rewrite Z.div_div in D2 by lia. change (64 * 64) with 4096 in D2.
  destruct (Z.ltb_spec c 0x10000).
  { assert (0 <= c / 4096 < 16) by (split; [apply Z.div_pos|apply Z.div_lt_upper_bound]; lia).
    cbn [app from_utf8]. rewrite (proj2 (Z.ltb_ge _ _)), range_false, range_true, second_ok_3, cont_low by (done || lia). cbn [andb].
    replace ((0xE0 + c / 4096 - 0xE0) * 4096 + (0x80 + (c / 64) mod 64 - 0x80) * 64 + (0x80 + c mod 64 - 0x80)) with c by lia. done. }
  pose proof (Z.div_mod (c / 4096) 64 ltac:(lia)) as D3. rewrite Z.div_div in D3 by lia. change (4096 * 64) with 262144 in D3.
  assert (0 <= c / 262144 < 5) by (split; [apply Z.div_pos|apply Z.div_lt_upper_bound]; lia).
  cbn [app from_utf8]. rewrite (proj2 (Z.ltb_ge _ _)), (range_false 0xC2), (range_false 0xE0), range_true, second_ok_4, !cont_low by lia. cbn [andb].
  replace ((0xF0 + c / 262144 - 0xF0) * 262144 + (0x80 + (c / 4096) mod 64 - 0x80) * 4096 + (0x80 + (c / 64) mod 64 - 0x80) * 64 + (0x80 + c mod 64 - 0x80))
    with c by lia. done.
Qed.

Lemma from_utf8_bytes s : Forall scalar s -> from_utf8 (as_bytes s) = Some s.
Proof.
  induction 1 as [|c s Hc Hs IH]; [done|]. unfold as_bytes in *. cbn [map concat]. by rewrite from_utf8_char, IH.
Qed.

(** ** Splitting *)

(** No character of a string is the separator. *)
Definition free (sep : Z) (s : str) : Prop := Forall (fun c => c <> sep) s.

Lemma split_once_app sep a b : free sep a -> split_once sep (a ++ sep :: b) = Some (a, b).
Proof.
  induction 1 as [|c a Hc Ha IH]; cbn [app split_once]; [by rewrite Z.eqb_refl|].
  by rewrite (proj2 (Z.eqb_neq _ _)), IH.
Qed.

Lemma split_once_free sep a : free sep a -> split_once sep a = None.
Proof. induction 1 as [|c a Hc Ha IH]; cbn; [done|]. by rewrite (proj2 (Z.eqb_neq _ _)), IH. Qed.

Lemma split_at_free sep a : free sep a -> split_at sep a = [a].
Proof. induction 1 as [|c a Hc Ha IH]; cbn; [done|]. by rewrite (proj2 (Z.eqb_neq _ _)), IH. Qed.

Lemma split_at_app sep a b : free sep a -> split_at sep (a ++ sep :: b) = a :: split_at sep b.
Proof.
  induction 1 as [|c a Hc Ha IH]; cbn [app split_at]; [by rewrite Z.eqb_refl|]. by rewrite (proj2 (Z.eqb_neq _ _)), IH.
Qed.

Lemma strip_prefix_app p s : strip_prefix p (p ++ s) = Some s.
Proof. induction p as [|c p IH]; cbn; [by destruct s|]. by rewrite Z.eqb_refl. Qed.

(** ** Percent encoding *)

Lemma as_bytes_ascii s : Forall (fun c => c < 0x80) s -> as_bytes s = s.
Proof.
  induction 1 as [|c s Hc Hs IH]; [done|]. unfold as_bytes in *. cbn [map concat]. rewrite IH. unfold char_bytes.
  by rewrite (proj2 (Z.ltb_lt _ _)) by done.
Qed.

Lemma char_bytes_ok c : scalar c -> bytes_ok (char_bytes c).
Proof.
  intros Hs. assert (H0 : 0 <= c < 0x110000) by (unfold scalar in Hs; lia). unfold char_bytes, bytes_ok.
  assert (M : forall x, uN 8 (0x80 + x mod 64)) by (intros x; pose proof (Z.mod_pos_bound x 64 eq_refl); unfold uN; lia).
  assert (D : forall k b, 0 < k -> c < k * b -> 0 <= c / k < b) by (intros k b Hk Hb; split; [apply Z.div_pos|apply Z.div_lt_upper_bound]; lia).
  destruct (Z.ltb_spec c 0x80); [|destruct (Z.ltb_spec c 0x800); [|destruct (Z.ltb_spec c 0x10000)]]; rewrite !Forall_cons, Forall_nil;
    [|specialize (D 64 32)|specialize (D 4096 16)|specialize (D 262144 5)]; split_and!; try apply M; unfold uN; lia.
Qed.

Lemma as_bytes_ok s : Forall scalar s -> bytes_ok (as_bytes s).
Proof.
  induction 1 as [|c s Hc Hs IH]; [apply bytes_ok_nil|]. unfold as_bytes in *. cbn. apply bytes_ok_app. auto using char_bytes_ok.
Qed.

Lemma hex_digit_spec n : 0 <= n < 16 -> to_digit16 (hex_upper n) = Some n /\ hex_upper n < 0x80 /\ is_unreserved (hex_upper n) = true.
Proof.
  intros H. assert (F : forallb (fun k => let n := Z.of_nat k in bool_decide (to_digit16 (hex_upper n) = Some n) && (hex_upper n <? 0x80)
    && is_unreserved (hex_upper n)) (seq 0 16) = true) by (vm_compute; reflexivity).
  rewrite forallb_forall in F. specialize (F (Z.to_nat n) ltac:(apply in_seq; lia)). rewrite Z2Nat.id in F by lia.
  rewrite !andb_true_iff, Z.ltb_lt, bool_decide_eq_true in F. tauto.
Qed.

Lemma unreserved_plain b : is_unreserved b = true -> b < 0x80 /\ b <> 37 /\ b <> 43 /\ b <> 38 /\ b <> 61 /\ b <> 63.
Proof. unfold is_unreserved. rewrite !orb_true_iff, !andb_true_iff, !Z.leb_le, !Z.eqb_eq. lia. Qed.

(** The text of an encoded value: unreserved characters and percent signs *)
Lemma percent_encode_plain s : Forall scalar s -> Forall (fun c => is_unreserved c = true \/ c = 37) (percent_encode s).
Proof.
  intros Hs. apply as_bytes_ok in Hs. unfold percent_encode. induction Hs as [|b l Hb Hl IH]; [constructor|]. cbn [flat_map].
  apply Forall_app. split; [|done]. destruct (is_unreserved b) eqn:E; rewrite !Forall_cons, Forall_nil; [auto|]. unfold uN in Hb.
  assert (0 <= b / 16 < 16) by (split; [apply Z.div_pos|apply Z.div_lt_upper_bound]; lia). pose proof (Z.mod_pos_bound b 16 eq_refl).
  split_and!; [by right|left; by apply hex_digit_spec..|done].
Qed.

Lemma percent_encode_free s sep : Forall scalar s -> is_unreserved sep = false -> sep <> 37 -> free sep (percent_encode s).
Proof.
  intros Hs Hu H37. eapply Forall_impl; [by apply percent_encode_plain|]. intros c [Hc|Hc] ->; congruence.
Qed.

Lemma percent_bytes_encode l : bytes_ok l ->
  percent_bytes (flat_map (fun b => if is_unreserved b then [b] else [37; hex_upper (b / 16); hex_upper (b mod 16)]) l) = Some l.
Proof.
  induction 1 as [|b l Hb Hl IH]; [done|]. cbn [flat_map]. destruct (is_unreserved b) eqn:E.
  - apply unreserved_plain in E as (_ & E1 & E2 & _). cbn [app percent_bytes]. rewrite !(proj2 (Z.eqb_neq _ _)) by done. by rewrite IH.
  - unfold uN in Hb. assert (0 <= b / 16 < 16) by (split; [apply Z.div_pos|apply Z.div_lt_upper_bound]; lia).
    pose proof (Z.mod_pos_bound b 16 eq_refl). pose proof (Z.div_mod b 16 ltac:(lia)).
    cbn [app percent_bytes]. rewrite Z.eqb_refl. destruct (hex_digit_spec (b / 16)) as [-> _]; [lia|]. destruct (hex_digit_spec (b mod 16)) as [-> _]; [lia|].
    cbn [mbind option_bind]. rewrite IH. cbn.
    do 2 f_equal. lia.
Qed.

Lemma percent_roundtrip s : Forall scalar s -> percent_decode (percent_encode s) = Some s.
Proof.
  intros Hs. unfold percent_decode. rewrite as_bytes_ascii.
  - unfold percent_encode. rewrite percent_bytes_encode by (by apply as_bytes_ok). by apply from_utf8_bytes.
  - eapply Forall_impl; [by apply percent_encode_plain|]. intros c [Hc| ->]; [by apply unreserved_plain|lia].
Qed.

(** ** Decimals *)

Definition dval (acc : Z) (s : str) : Z := foldl (fun acc c => acc * 10 + (c - 48)) acc s.

Definition is_digits (s : str) : Prop := Forall (fun c => 48 <= c <= 57) s.

Lemma dval_ge s : is_digits s -> forall acc, 0 <= acc -> acc <= dval acc s.
Proof.
  induction 1 as [|c s Hc Hs IH]; intros acc Ha; cbn; [lia|]. specialize (IH (acc * 10 + (c - 48)) ltac:(lia)). unfold dval in IH. lia.
Qed.

Lemma parse_u64_dval s : is_digits s -> forall acc, 0 <= acc -> dval acc s < 2 ^ 64 ->
  foldl (fun acc c => n ← acc; if 2 ^ 64 <=? n * 10 + (c - 48) then None else Some (n * 10 + (c - 48))) (Some acc) s = Some (dval acc s).
Proof.
  induction 1 as [|c s Hc Hs IH]; intros acc Ha Hb; [done|]. cbn [foldl dval] in *. cbn [mbind option_bind].
  pose proof (dval_ge s Hs (acc * 10 + (c - 48)) ltac:(lia)) as Hg. unfold dval in Hg, Hb |- *.
  rewrite (proj2 (Z.leb_gt _ _)) by (cbn [foldl] in Hb; lia). apply IH; [lia|exact Hb].
Qed.

Lemma all_digits_ok s : is_digits s -> all_digits s = true.
Proof. intros H. apply forallb_forall. intros c Hc. rewrite <- list_elem_of_In in Hc. eapply Forall_forall in H; [|done]. rewrite andb_true_iff, !Z.leb_le. lia. Qed.

Lemma digits_val turns n : 0 <= n < 10 ^ Z.of_nat turns -> (0 < turns)%nat ->
  is_digits (digits turns n) /\ dval 0 (digits turns n) = n /\ (1 <= length (digits turns n) <= turns)%nat.
Proof.
  revert n. induction turns as [|turns IH]; intros n Hn Ht; [lia|]. cbn [digits].
  destruct (Z.ltb_spec n 10); [split_and!; [by repeat constructor; lia|cbn; lia|cbn; lia..]|].
  pose proof (Z.div_mod n 10 ltac:(lia)). pose proof (Z.mod_pos_bound n 10 eq_refl).
  assert (Hd : 1 <= n / 10) by (apply Z.div_le_lower_bound; lia). rewrite Nat2Z.inj_succ, Z.pow_succ_r in Hn by lia.
  assert (n / 10 < 10 ^ Z.of_nat turns) by (apply Z.div_lt_upper_bound; lia).
  destruct turns as [|turns]; [cbn in *; lia|]. destruct (IH (n / 10)) as (I1 & I2 & I3 & I4); [lia..|]. split_and!.
  - apply Forall_app. split; [done|]. apply Forall_cons. split; [lia|done].
  - unfold dval in *. rewrite foldl_app, I2. cbn [foldl]. lia.
  - rewrite length_app. lia.
  - rewrite length_app. cbn [length]. lia.
Qed.

Lemma zeros_digits n : is_digits (replicate n 48) /\ forall acc, dval acc (replicate n 48) = acc * 10 ^ Z.of_nat n.
Proof.
  induction n as [|n [I1 I2]]; [split; [constructor|intros; cbn; lia]|]. split; [constructor; [lia|done]|].
  intros acc. cbn [replicate]. unfold dval in *. cbn [foldl]. rewrite I2, Nat2Z.inj_succ, Z.pow_succ_r by lia. lia.
Qed.

Lemma trim_pad s : trim_end_zeros s ++ replicate (length s - length (trim_end_zeros s)) 48 = s.
Proof.
  induction s as [|c s IH]; [done|]. cbn [trim_end_zeros]. destruct (trim_end_zeros s) as [|t ts] eqn:E.
  - cbn in IH. rewrite Nat.sub_0_r in IH. destruct (Z.eqb_spec c 48) as [->|]; cbn; [by rewrite IH|]. by rewrite Nat.sub_0_r, IH.
  - cbn [length app] in *. by rewrite Nat.sub_succ, IH.
Qed.

Lemma is_digits_free sep s : is_digits s -> sep < 48 \/ 57 < sep -> free sep s.
Proof. intros H Hs. eapply Forall_impl; [exact H|]. cbn. lia. Qed.

Lemma str_len_ascii s : Forall (fun c => c < 0x80) s -> str_len s = len s.
Proof.
  induction 1 as [|c s Hc Hs IH]; [done|]. rewrite len_cons, <- IH. cbn [str_len foldr]. fold (str_len s). unfold char_len. by rewrite (proj2 (Z.ltb_lt _ _)) by done.
Qed.

(** The digits of a number do not depend on the turns, if they are enough. *)
Lemma digits_fuel t u m : (0 < t)%nat -> (0 < u)%nat -> 0 <= m < 10 ^ Z.of_nat t -> m < 10 ^ Z.of_nat u -> digits t m = digits u m.
Proof.
  revert u m. induction t as [|t IH]; intros u m Ht Hu Hm Hmu; [lia|]. destruct u as [|u]; [lia|]. cbn [digits].
  destruct (Z.ltb_spec m 10); [done|]. assert (1 <= m / 10) by (apply Z.div_le_lower_bound; lia).
  assert (Q : forall k, m < 10 ^ Z.of_nat (S k) -> m / 10 < 10 ^ Z.of_nat k)
    by (intros k Hk; rewrite Nat2Z.inj_succ, Z.pow_succ_r in Hk by lia; by apply Z.div_lt_upper_bound).
  f_equal. pose proof (Q t ltac:(lia)). pose proof (Q u ltac:(lia)).
  apply IH; [destruct t; [cbn in *; lia|lia]|destruct u; [cbn in *; lia|lia]|lia|done].
Qed.

(** An amount, formatted and parsed *)
Lemma nim_roundtrip n : uN 64 n -> parse_nim (format_nim n) = Some n /\ Forall (fun c => 48 <= c <= 57 \/ c = 46) (format_nim n).
Proof.
  intros Hn. unfold uN in Hn. unfold format_nim, LUNA_PER_NIM. pose proof (Z.div_mod n 100000 ltac:(lia)) as Hdm.
  pose proof (Z.mod_pos_bound n 100000 eq_refl). assert (Hi0 : 0 <= n / 100000) by (apply Z.div_pos; lia).
  set (i := n / 100000) in *. set (f := n mod 100000) in *.
  destruct (digits_val 20 i) as (D1 & D2 & D3 & _); [change (10 ^ Z.of_nat 20) with 100000000000000000000; lia|lia|].
  fold (u64_to_string i) in D1, D2, D3. set (si := u64_to_string i) in *.
  assert (Ei : bool_decide (si = []) = false) by (apply bool_decide_eq_false_2; intros ->; cbn in D3; lia).
  assert (Pi : parse_u64 si = Some i) by (unfold parse_u64; rewrite parse_u64_dval; [by rewrite D2|done|lia|lia]).
  clearbody si i f. destruct (Z.eqb_spec f 0) as [Ef|Ef].
  - split; [|eapply Forall_impl; [exact D1|]; cbn; lia]. unfold parse_nim. rewrite Ei, split_once_free by (apply is_digits_free; [done|lia]).
    rewrite Ei, all_digits_ok by done. cbn [orb negb str_len foldr]. change (_ || _) with false. cbn [mbind option_bind]. rewrite Pi. cbn [mbind option_bind].
    change (parse_u64 (pad_right NIM_DECIMALS [])) with (Some 0). change (bool_decide _) with false. cbn [mbind option_bind]. unfold LUNA_PER_NIM.
    rewrite !(proj2 (Z.leb_gt _ _)) by lia. f_equal. lia.
  - destruct (digits_val 5 f) as (F1 & F2 & F3 & F4); [change (10 ^ Z.of_nat 5) with 100000; lia|lia|].
    assert (Es : u64_to_string f = digits 5 f).
    { apply digits_fuel; [lia|lia| |]; [change (10 ^ Z.of_nat 20) with 100000000000000000000|change (10 ^ Z.of_nat 5) with 100000]; lia. }
    rewrite Es. unfold NIM_DECIMALS. set (p := pad_left 5 (digits 5 f)).
    assert (Lp : length p = 5%nat) by (subst p; unfold pad_left; rewrite length_app, length_replicate; lia).
    assert (Dp : is_digits p) by (subst p; apply Forall_app; split; [apply zeros_digits|done]).
    assert (Vp : dval 0 p = f) by (subst p; unfold pad_left, dval in *; rewrite foldl_app; destruct (zeros_digits (5 - length (digits 5 f))) as [_ Hz]; unfold dval in Hz; rewrite Hz; done).
    pose proof (trim_pad p) as Tp. set (t := trim_end_zeros p) in *.
    assert (Dt : is_digits t) by (rewrite <- Tp in Dp; by apply Forall_app in Dp as [? _]).
    assert (Lt : (length t <= 5)%nat) by (rewrite <- Lp, <- Tp, length_app; lia).
    split.
    + unfold parse_nim. rewrite bool_decide_eq_false_2 by (destruct si; [cbn in D3; lia|done]).
      cbn [app]. rewrite split_once_app by (apply is_digits_free; [done|lia]). rewrite Ei, (all_digits_ok si), (all_digits_ok t) by done.
      rewrite str_len_ascii by (eapply Forall_impl; [exact Dt|]; cbn; lia).
      rewrite (proj2 (Z.ltb_ge _ _)) by (unfold NIM_DECIMALS, len; lia). cbn [orb negb]. rewrite Pi. cbn [mbind option_bind].
      assert (Pr : pad_right NIM_DECIMALS t = p) by (unfold pad_right, NIM_DECIMALS; rewrite <- Lp; exact Tp). rewrite Pr.
      rewrite bool_decide_eq_false_2 by (intros E; rewrite E in Lp; done).
      unfold parse_u64. rewrite parse_u64_dval by (done || lia). rewrite Vp. cbn [mbind option_bind]. unfold LUNA_PER_NIM.
      rewrite !(proj2 (Z.leb_gt _ _)) by lia. f_equal. lia.
    + apply Forall_app. split; [eapply Forall_impl; [exact D1|]; cbn; lia|]. cbn [app]. apply Forall_cons. split; [by right|].
      eapply Forall_impl; [exact Dt|]; cbn; lia.
Qed.

(** ** The link *)

(** An address as it stands in a link: letters and digits *)
Lemma compact_address a : array_ok 20 a -> exists s,
  to_user_friendly a = Ok s /\ from_user_friendly s = Ok a
  /\ forallb alnum (filter (fun c => is_whitespace c = false) s) = true
  /\ from_user_friendly (filter (fun c => is_whitespace c = false) s) = Ok a.
Proof.
  intros Ha. destruct (user_friendly_roundtrip a Ha) as (s & E & F). exists s. split_and!; [done|done| |].
  - destruct (base32_roundtrip a Ha) as (ds & Eb & Hds & _). unfold to_user_friendly in E. rewrite Eb in E.
    pose proof (spell_alnum ds Hds) as Hsp. rewrite iban_val in E by (rewrite !forallb_app, Hsp; reflexivity).
    set (m := sval _ mod 97) in E. assert (Hm : 0 <= m < 97) by (apply Z.mod_pos_bound; lia).
    destruct (two_digits_spec (98 - m) ltac:(lia)) as (Hta & _).
    assert (s = group4 0 (NQ ++ two_digits (98 - m) ++ spell ds)) as -> by congruence.
    assert (Hal : forallb alnum (NQ ++ two_digits (98 - m) ++ spell ds) = true) by (rewrite !forallb_app, Hta, Hsp; reflexivity).
    rewrite filter_group4; done.
  - unfold from_user_friendly in *. by rewrite list_filter_filter_l.
Qed.

Lemma alnum_free s sep : forallb alnum s = true -> alnum sep = false -> free sep s.
Proof.
  intros Hs Hn. apply Forall_forall. intros c Hc ->. rewrite forallb_forall in Hs.
  specialize (Hs sep (proj1 (list_elem_of_In _ _) Hc)). congruence.
Qed.

(** The two parameters of a link are read back. *)
Lemma amount_pair amount pairs a m : uN 64 amount ->
  parse_pairs ((chars "amount=" ++ format_nim amount) :: pairs) a m = parse_pairs pairs amount m.
Proof.
  intros Ha. cbn [parse_pairs]. rewrite bool_decide_eq_false_2 by done.
  change (chars "amount=" ++ format_nim amount) with (chars "amount" ++ 61 :: format_nim amount).
  rewrite split_once_app by (repeat constructor; done). rewrite bool_decide_eq_true_2 by done.
  rewrite (proj1 (nim_roundtrip amount Ha)). done.
Qed.

Lemma message_pair msg pairs a m : Forall scalar msg -> msg <> [] ->
  parse_pairs ((chars "message=" ++ percent_encode msg) :: pairs) a m = parse_pairs pairs a (Some msg).
Proof.
  intros Hs Hne. cbn [parse_pairs]. rewrite bool_decide_eq_false_2 by done.
  change (chars "message=" ++ percent_encode msg) with (chars "message" ++ 61 :: percent_encode msg).
  rewrite split_once_app by (repeat constructor; done). rewrite bool_decide_eq_false_2, bool_decide_eq_true_2 by done.
  rewrite percent_roundtrip by done. cbn [mbind option_bind]. by rewrite bool_decide_eq_false_2.
Qed.

Lemma amount_free amount : uN 64 amount -> free 38 (chars "amount=" ++ format_nim amount).
Proof.
  intros Ha. apply Forall_app. split; [repeat constructor; done|]. eapply Forall_impl; [exact (proj2 (nim_roundtrip amount Ha))|]. cbn. lia.
Qed.

Lemma message_free msg : Forall scalar msg -> free 38 (chars "message=" ++ percent_encode msg).
Proof. intros Hs. apply Forall_app. split; [repeat constructor; done|]. by apply percent_encode_free. Qed.

(** The whole query, which is not empty *)
Lemma query_roundtrip amount message : uN 64 amount -> (forall m, message = Some m -> Forall scalar m) ->
  request_params amount message <> [] ->
  parse_pairs (split_at 38 (join_amp (request_params amount message))) 0 None = Some (amount, nonempty message).
Proof.
  intros Ha Hm Hne. unfold request_params in *. assert (Hn : forall m, nonempty message = Some m -> Forall scalar m /\ m <> []).
  { intros m. destruct message as [[|c s]|]; [done| |done]. intros [= <-]. split; [by apply Hm|done]. }
  destruct (Z.ltb_spec 0 amount) as [H0|H0]; destruct (nonempty message) as [m|]; [destruct (Hn m eq_refl) as [Hs Hm0]| |destruct (Hn m eq_refl) as [Hs Hm0]|]; cbn [app join_amp].
  - rewrite split_at_app by (by apply amount_free). rewrite split_at_free by (by apply message_free). rewrite amount_pair, message_pair by done. done.
  - rewrite split_at_free by (by apply amount_free). by rewrite amount_pair.
  - rewrite split_at_free by (by apply message_free). rewrite message_pair by done. cbn. unfold uN in Ha. by replace amount with 0 by lia.
  - done.
Qed.

(** ** Properties *)

(** A payment link gives back what was asked for.  For every address the parser accepts, in
    whatever spacing and case it was typed, every amount of luna that fits in 64 bits and every
    message of Unicode characters, building a link succeeds and parsing it yields the address in
    its canonical form, exactly the amount, and the message, an empty one counting as none. *)
Theorem request_uri_roundtrip (address : str) (a : bytes) (amount : Z) (message : option str)
    (Ha : from_user_friendly address = Ok a) (Hok : array_ok 20 a) (Hn : uN 64 amount)
    (Hm : forall m, message = Some m -> Forall scalar m) :
  exists s uri, to_user_friendly a = Ok s /\ build_request_uri address amount message = Ok (Some uri)
    /\ parse_request_uri uri = Ok (Some (mkRequest s amount (nonempty message))).
Proof.
  destruct (compact_address a Hok) as (s & Es & _ & Hal & Hc). exists s. eexists. split; [done|].
  unfold build_request_uri. rewrite Ha, Es. split; [reflexivity|]. unfold parse_request_uri. rewrite strip_prefix_app.
  set (c := filter _ s) in *. assert (Hf : free 63 c) by (by apply alnum_free).
  destruct (request_params amount message) as [|p ps] eqn:Ep.
  - rewrite app_nil_r, split_once_free, Hc, Es by done. unfold request_params in Ep.
    destruct (Z.ltb_spec 0 amount); [done|]. destruct (nonempty message); [done|]. unfold uN in Hn. by replace amount with 0 by lia.
  - cbn [app]. rewrite split_once_app, Hc, Es by done. rewrite <- Ep, query_roundtrip; [done..|]. by rewrite Ep.
Qed.

Lemma request_uri_roundtrip_witness : exists s uri,
  build_request_uri (map Address.to_ascii_uppercase s) 150000 (Some (chars "50% off & more")) = Ok (Some uri)
  /\ parse_request_uri uri = Ok (Some (mkRequest s 150000 (Some (chars "50% off & more")))).
Proof.
  destruct (request_uri_roundtrip (match to_user_friendly (replicate 20 77) with Ok s => map to_ascii_uppercase s | _ => [] end)
    (replicate 20 77) 150000 (Some (chars "50% off & more"))) as (s & uri & Es & Eb & Ep).
  - vm_compute. reflexivity.
  - split; [reflexivity | apply bytes_okb_ok; reflexivity].
  - unfold uN. lia.
  - intros m [= <-]. repeat constructor; cbn; lia.
  - rewrite Es in Eb. exists s, uri. split; [exact Eb|exact Ep].
Defined.

(** A scanned link can make the parser panic: the address is cut at byte offsets, and a character of
    two bytes may lie across one. *)
Theorem request_uri_panics : parse_request_uri (chars "nimiq:N" ++ [0xE9] ++ replicate 33 65) = Panic.
Proof. vm_compute. reflexivity. Qed.

(** The reminder is silent exactly when there is nothing to lose or a backup exists, and it never gets
    weaker as the balance or the days grow. *)
Theorem backup_urgency_monotone (s t : BackupState)
    (Hb : bs_balance_luna s <= bs_balance_luna t) (Hd : bs_days_since_first_funds s <= bs_days_since_first_funds t)
    (H0 : 0 <= bs_balance_luna s) :
  (backup_urgency s = BuNone <-> bs_backed_up s = true \/ bs_balance_luna s = 0)
  /\ (bs_backed_up t = false -> urgency_rank (backup_urgency s) <= urgency_rank (backup_urgency t)).
Proof.
  unfold backup_urgency, urgency_max. split.
  - destruct (bs_backed_up s); [naive_solver|]. destruct (Z.eqb_spec (bs_balance_luna s) 0); cbn [orb]; [naive_solver|].
    split; [|naive_solver]. repeat case_match; done.
  - intros ->. destruct (bs_backed_up s); cbn [orb]; [repeat case_match; cbn; lia|].
    destruct (Z.eqb_spec (bs_balance_luna s) 0); [repeat case_match; cbn; lia|].
    rewrite (proj2 (Z.eqb_neq (bs_balance_luna t) 0)) by lia. unfold BALANCE_CRITICAL_LUNA, BALANCE_IMPORTANT_LUNA, AGE_CRITICAL_DAYS, AGE_IMPORTANT_DAYS, LUNA_PER_NIM.
    repeat (match goal with |- context [?a <=? bs_balance_luna ?x] => destruct (Z.leb_spec a (bs_balance_luna x)) end || match goal with |- context [?a <=? bs_days_since_first_funds ?x] => destruct (Z.leb_spec a (bs_days_since_first_funds x)) end).
    all: cbn; lia.
Qed.
