(* ===== verification/NimHtlc.v ===== *)
(** * NimHtlc: the transactions of the NIM leg of a swap ([nimiq/htlc.rs])

    The funding transaction that locks an amount in a hash-time-locked contract,
    the transactions that claim and refund it, their signed contents, wire forms
    and proofs, and the decoder of a funding wire received from a peer. *)

From stdpp Require Import base list.
From Stdlib Require Import ZArith Lia.
From S2P Require Import Prelude Packet Crypto NimTx.
Open Scope Z_scope.

Definition FORMAT_EXTENDED : Z := 1.
Definition ACCOUNT_TYPE_BASIC : Z := 0.
Definition ACCOUNT_TYPE_HTLC : Z := 2.
Definition FLAG_CONTRACT_CREATION : Z := 1.
Definition FLAG_NONE : Z := 0.
Definition HTLC_DATA_LEN : Z := 20 + 20 + 1 + 32 + 1 + 8.
Definition SIGNATURE_PROOF_LEN : Z := 1 + 32 + 1 + 64.

Inductive HashAlgorithm : Type := HaBlake2b | HaSha256.

#[export] Instance HashAlgorithm_eq_dec : EqDecision HashAlgorithm.
Proof. solve_decision. Defined.

(** [hash_algorithm as u8] *)
Definition algorithm_byte (a : HashAlgorithm) : Z := match a with HaBlake2b => 1 | HaSha256 => 3 end.

Record HtlcCreationData : Type := mkHtlcData {
  hd_sender : bytes;
  hd_recipient : bytes;
  hd_hash_algorithm : HashAlgorithm;
  hd_hash_root : bytes;
  hd_hash_count : Z;
  hd_timeout : Z
}.

(** [HtlcCreationData::serialize] *)
Definition data_bytes (d : HtlcCreationData) : bytes :=
  hd_sender d ++ hd_recipient d ++ [algorithm_byte (hd_hash_algorithm d)] ++ hd_hash_root d
  ++ [hd_hash_count d] ++ be_bytes 8 (hd_timeout d).

(** The loop of [push_var_bytes]: seven bits a turn, ten turns for a [usize]. *)
Fixpoint var_len (fuel : nat) (n : Z) : bytes :=
  match fuel with
  | O => []
  | S fuel =>
      let byte := Z.land n 0x7f in
      let n := Z.shiftr n 7 in
      if n =? 0 then [byte] else Z.lor byte 0x80 :: var_len fuel n
  end.

Definition push_var_bytes (b : bytes) : bytes := var_len 10 (len b) ++ b.

Definition extended_content (recipient_data sender : bytes) (sender_type : Z) (recipient : bytes)
    (recipient_type value fee validity_start_height network_id flags : Z) : bytes :=
  be_bytes 2 (wrapN 16 (len recipient_data)) ++ recipient_data ++ sender ++ [sender_type]
  ++ recipient ++ [recipient_type] ++ be_bytes 8 value ++ be_bytes 8 fee
  ++ be_bytes 4 validity_start_height ++ [network_id] ++ [flags] ++ [0].

Record HtlcCreation : Type := mkCreation {
  hc_funder : bytes;
  hc_data : HtlcCreationData;
  hc_value : Z;
  hc_fee : Z;
  hc_validity_start_height : Z;
  hc_network_id : Z
}.

Record HtlcRedeem : Type := mkRedeem {
  re_contract : bytes;
  re_recipient : bytes;
  re_value : Z;
  re_fee : Z;
  re_validity_start_height : Z;
  re_network_id : Z
}.

Definition PROOF_REGULAR_TRANSFER : Z := 0.
Definition PROOF_TIMEOUT_RESOLVE : Z := 2.
Definition PRE_IMAGE_32_TAG : Z := 32.

Definition regular_transfer_proof (a : HashAlgorithm) (hash_root pre_image public_key signature : bytes) : bytes :=
  [PROOF_REGULAR_TRANSFER] ++ [1] ++ [algorithm_byte a] ++ hash_root ++ [PRE_IMAGE_32_TAG] ++ pre_image
  ++ signature_proof_single_sig public_key signature.

Definition timeout_resolve_proof (public_key signature : bytes) : bytes :=
  [PROOF_TIMEOUT_RESOLVE] ++ signature_proof_single_sig public_key signature.

(** [HtlcRedeem::serialize_content] *)
Definition redeem_content (r : HtlcRedeem) : bytes :=
  extended_content [] (re_contract r) ACCOUNT_TYPE_HTLC (re_recipient r) ACCOUNT_TYPE_BASIC (re_value r)
    (re_fee r) (re_validity_start_height r) (re_network_id r) FLAG_NONE.

(** [HtlcRedeem::serialize_wire] *)
Definition redeem_wire (r : HtlcRedeem) (proof : bytes) : bytes :=
  [FORMAT_EXTENDED] ++ re_contract r ++ [ACCOUNT_TYPE_HTLC] ++ push_var_bytes [] ++ re_recipient r
  ++ [ACCOUNT_TYPE_BASIC] ++ push_var_bytes [] ++ be_bytes 8 (re_value r) ++ be_bytes 8 (re_fee r)
  ++ be_bytes 4 (re_validity_start_height r) ++ [re_network_id r] ++ [FLAG_NONE] ++ push_var_bytes proof.

(** The match on the algorithm byte *)
Definition algorithm_of (b : Z) : option HashAlgorithm :=
  if b =? 1 then Some HaBlake2b else if b =? 3 then Some HaSha256 else None.

Definition decode_creation_wire (wire : bytes) : res unit (option HtlcCreation) :=
  if len wire <? 45 + HTLC_DATA_LEN + 8 + 8 + 4 + 1 + 1 then Ok None else
  let? b0 := idx wire 0 in
  if negb (b0 =? FORMAT_EXTENDED) then Ok None else
  let? b21 := idx wire 21 in
  if negb (b21 =? ACCOUNT_TYPE_BASIC) then Ok None else
  let? b22 := idx wire 22 in
  if negb (b22 =? 0) then Ok None else
  let? b43 := idx wire 43 in
  if negb (b43 =? ACCOUNT_TYPE_HTLC) then Ok None else
  let? b44 := idx wire 44 in
  if negb (b44 =? HTLC_DATA_LEN) then Ok None else
  let? funder := slice wire 1 21 in
  let? data := slice wire 45 127 in
  let? alg := idx data 40 in
  match algorithm_of alg with
  | None => Ok None
  | Some algorithm =>
      let? sender := slice data 0 20 in
      let? recipient := slice data 20 40 in
      let? root := slice data 41 73 in
      let? count := idx data 73 in
      let? timeout := slice data 74 82 in
      let? value := slice wire 127 135 in
      let? fee := slice wire 135 143 in
      let? vsh := slice wire 143 147 in
      let? network := idx wire 147 in
      Ok (Some (mkCreation funder (mkHtlcData sender recipient algorithm root count (from_be timeout))
                  (from_be value) (from_be fee) (from_be vsh) network))
  end.

Section htlc.
Context `{C : Crypto}.

Definition creation_at (c : HtlcCreation) (recipient : bytes) : bytes :=
  extended_content (data_bytes (hc_data c)) (hc_funder c) ACCOUNT_TYPE_BASIC recipient ACCOUNT_TYPE_HTLC
    (hc_value c) (hc_fee c) (hc_validity_start_height c) (hc_network_id c) FLAG_CONTRACT_CREATION.

Definition contract_address (c : HtlcCreation) : bytes :=
  take 20 (blake2b256 (creation_at c (replicate 20 0))).

(** [HtlcCreation::serialize_content] and [tx_hash] *)
Definition creation_content (c : HtlcCreation) : bytes := creation_at c (contract_address c).
Definition creation_hash (c : HtlcCreation) : bytes := blake2b256 (creation_content c).
Definition redeem_hash (r : HtlcRedeem) : bytes := blake2b256 (redeem_content r).

(** [HtlcCreation::serialize_wire] *)
Definition creation_wire (c : HtlcCreation) (proof : bytes) : bytes :=
  [FORMAT_EXTENDED] ++ hc_funder c ++ [ACCOUNT_TYPE_BASIC] ++ push_var_bytes [] ++ contract_address c
  ++ [ACCOUNT_TYPE_HTLC] ++ push_var_bytes (data_bytes (hc_data c)) ++ be_bytes 8 (hc_value c)
  ++ be_bytes 8 (hc_fee c) ++ be_bytes 4 (hc_validity_start_height c) ++ [hc_network_id c]
  ++ [FLAG_CONTRACT_CREATION] ++ push_var_bytes proof.

(** ** Ranges *)

Record data_ok (d : HtlcCreationData) : Prop := {
  do_sender : array_ok 20 (hd_sender d);
  do_recipient : array_ok 20 (hd_recipient d);
  do_root : array_ok 32 (hd_hash_root d);
  do_count : uN 8 (hd_hash_count d);
  do_timeout : uN 64 (hd_timeout d)
}.

Record creation_ok (c : HtlcCreation) : Prop := {
  co_funder : array_ok 20 (hc_funder c);
  co_data : data_ok (hc_data c);
  co_value : uN 64 (hc_value c);
  co_fee : uN 64 (hc_fee c);
  co_vsh : uN 32 (hc_validity_start_height c);
  co_net : uN 8 (hc_network_id c)
}.

Record redeem_ok (r : HtlcRedeem) : Prop := {
  ro_contract : len (re_contract r) = 20;
  ro_recipient : len (re_recipient r) = 20;
  ro_value : uN 64 (re_value r);
  ro_fee : uN 64 (re_fee r);
  ro_vsh : uN 32 (re_validity_start_height r)
}.

(** ** The variable-length prefix *)

Lemma var_step n : 0 <= n -> Z.land n 0x7f = n mod 128 /\ Z.shiftr n 7 = n / 128
  /\ Z.lor (Z.land n 0x7f) 0x80 = 128 + n mod 128.
Proof.
  intros Hn. assert (Hl : Z.land n 0x7f = n mod 128).
  { change 0x7f with (Z.ones 7). now rewrite Z.land_ones by lia. }
  split_and!; [exact Hl | now rewrite Z.shiftr_div_pow2 by lia|].
  rewrite Hl, Z.lor_comm. apply (lor_shift_low 1 (n mod 128) 7); [lia|].
  apply Z.mod_pos_bound. lia.
Qed.

(** The prefix is a prefix code: what follows it starts where it ends. *)
Lemma var_len_inj fuel n m r s :
  0 <= n < 128 ^ Z.of_nat fuel -> 0 <= m < 128 ^ Z.of_nat fuel -> (0 < fuel)%nat ->
  var_len fuel n ++ r = var_len fuel m ++ s -> n = m /\ r = s.
Proof.
  revert n m. induction fuel as [|fuel IH]; intros n m Hn Hm Hf; [lia|].
  destruct (var_step n) as (Ln & Sn & On); [lia|]. destruct (var_step m) as (Lm & Sm & Om); [lia|].
  assert (Hd : forall k, 0 <= k < 128 ^ Z.of_nat (S fuel) -> 0 <= k / 128 < 128 ^ Z.of_nat fuel).
  { intros k Hk. replace (Z.of_nat (S fuel)) with (1 + Z.of_nat fuel) in Hk by lia.
    rewrite Z.pow_add_r in Hk by lia. split; [apply Z.div_pos; lia | apply Z.div_lt_upper_bound; lia]. }
  pose proof (Hd n Hn) as Dn. pose proof (Hd m Hm) as Dm.
  cbn [var_len]. rewrite On, Om, Ln, Lm, Sn, Sm.
  pose proof (Z.mod_pos_bound n 128). pose proof (Z.mod_pos_bound m 128).
  pose proof (Z.div_mod n 128). pose proof (Z.div_mod m 128).
  destruct (Z.eqb_spec (n / 128) 0), (Z.eqb_spec (m / 128) 0); cbn; intros [= Eh Et]; try lia.
  - split; [lia | exact Et].
  - destruct fuel as [|fuel']; [cbn in Dn; lia|].
    destruct (IH _ _ Dn Dm ltac:(lia) Et) as [Eq ->]. split; [lia | reflexivity].
Qed.

Lemma push_var_bytes_inj a b r s :
  len a < 2 ^ 64 -> len b < 2 ^ 64 -> push_var_bytes a ++ r = push_var_bytes b ++ s -> a = b /\ r = s.
Proof.
  intros Ha Hb. unfold push_var_bytes. rewrite <- !app_assoc. intros E.
  assert (Hf : forall l : bytes, len l < 2 ^ 64 -> 0 <= len l < 128 ^ Z.of_nat 10).
  { intros l Hl. split; [apply len_nonneg | eapply Z.lt_trans; [exact Hl | reflexivity]]. }
  destruct (var_len_inj 10 _ _ _ _ (Hf a Ha) (Hf b Hb) ltac:(lia) E) as [El Er].
  apply app_inj_1 in Er; [exact Er | unfold len in El; lia].
Qed.

(** ** Layouts *)

Lemma len_data d : data_ok d -> len (data_bytes d) = HTLC_DATA_LEN.
Proof.
  intros [[H1 _] [H2 _] [H3 _] _ _]. unfold data_bytes. len_simpl. rewrite H1, H2, H3. reflexivity.
Qed.

Lemma data_bytes_inj d e r s :
  data_ok d -> data_ok e -> data_bytes d ++ r = data_bytes e ++ s -> d = e /\ r = s.
Proof.
  intros [[A1 _] [A2 _] [A3 _] A4 A5] [[B1 _] [B2 _] [B3 _] B4 B5].
  unfold data_bytes. rewrite <- !app_assoc. intros E.
  chop E E1. chop E E2. chop E Ea. chop E E3. chop E Ec. chop E Et. injection Ea as Ea. injection Ec as Ec.
  apply be_bytes_inj in Et; [|assumption..].
  destruct d as [? ? da], e as [? ? ea]; cbn in *. split; [|exact E].
  assert (da = ea) by (destruct da, ea; discriminate || reflexivity). congruence.
Qed.

Lemma algorithm_of_byte a : algorithm_of (algorithm_byte a) = Some a.
Proof. now destruct a. Qed.

Context `{!CryptoLaws C}.

Lemma contract_address_ok c : array_ok 20 (contract_address c).
Proof.
  unfold contract_address. destruct (blake2b256_ok (creation_at c (replicate 20 0))) as [Hl Hb].
  split; [|now apply bytes_ok_take]. apply (len_take 20). lia.
Qed.

(** The signed content determines the funding transaction. *)
Lemma creation_content_inj c d :
  creation_ok c -> creation_ok d -> creation_content c = creation_content d -> c = d.
Proof.
  intros [[A1 _] A2 A3 A4 A5 A6] [[B1 _] B2 B3 B4 B5 B6]. unfold creation_content, creation_at, extended_content.
  intros E. destruct (contract_address_ok c) as [Lc _], (contract_address_ok d) as [Ld _].
  chop E E0. apply data_bytes_inj in E as [Ed E]; [|assumption..].
  chop E Ef. chop E E1. chop E E2. chop E E3. chop E Ev. chop E Ee. chop E Es. chop E En. injection En as En.
  apply be_bytes_inj in Ev, Ee, Es; try assumption. destruct c, d; cbn in *. congruence.
Qed.

(** A funding wire decodes to its transaction, whatever its proof. *)
Lemma decode_creation_at c proof :
  creation_ok c -> decode_creation_wire (creation_wire c proof) = Ok (Some c).
Proof.
  intros [[A1 _] A2 A3 A4 A5 A6]. destruct (contract_address_ok c) as [Lc _].
  pose proof (len_data _ A2) as Ld. destruct A2 as [[D1 _] [D2 _] [D3 _] D4 D5].
  assert (Hp : push_var_bytes (data_bytes (hc_data c)) = [82] ++ data_bytes (hc_data c)).
  { unfold push_var_bytes. rewrite Ld. reflexivity. }
  unfold creation_wire. rewrite Hp. change (push_var_bytes []) with [0].
  rewrite <- ?app_assoc. unfold decode_creation_wire. unfold HTLC_DATA_LEN in *.
  pose proof (len_nonneg (push_var_bytes proof)).
  match goal with |- context [len ?w <? ?k] =>
    replace (len w <? k) with false by (symmetry; apply Z.ltb_ge; len_simpl; lia) end.
  seek. repeat match goal with |- context [negb (?a =? ?b)] => replace (negb (a =? b)) with false by reflexivity end.
  unfold data_bytes. seek. rewrite algorithm_of_byte, !from_be_be_bytes by assumption.
  now destruct c as [? [] ? ? ? ?].
Qed.

Lemma decode_creation_total w : exists o, decode_creation_wire w = Ok o.
Proof.
  unfold decode_creation_wire. destruct (Z.ltb_spec (len w) (45 + HTLC_DATA_LEN + 8 + 8 + 4 + 1 + 1)) as [|Hw]; [eauto|].
  unfold HTLC_DATA_LEN in *.
  repeat (mem_case; destruct (negb _); [eauto|]). do 2 mem_case.
  pose proof (slice_len _ _ _ _ Hsl0) as Hd.
  repeat first [mem_case | case_goal]; eauto.
Qed.

Lemma decode_creation_ok w c :
  bytes_ok w -> decode_creation_wire w = Ok (Some c) -> creation_ok c.
Proof.
  intros Hw E. unfold decode_creation_wire in E. run E.
  repeat match goal with
  | H : idx ?l _ = Ok ?x, B : bytes_ok ?l |- _ =>
      lazymatch goal with _ : uN 8 x |- _ => fail | _ => pose proof (idx_byte _ _ _ B H) end
  | H : slice ?l _ _ = Ok ?x, B : bytes_ok ?l |- _ =>
      lazymatch goal with
      | _ : bytes_ok x |- _ => fail
      | _ => pose proof (bytes_ok_slice _ _ _ _ B H); pose proof (slice_len _ _ _ _ H)
      end
  end.
  constructor; cbn; [split; assumption | constructor; cbn; try (split; assumption) | ..];
    first [assumption | now apply (from_be_uN 8) | now apply (from_be_uN 4)].
Qed.

Lemma creation_wire_inj c d p q :
  creation_ok c -> creation_ok d -> len p < 2 ^ 64 -> len q < 2 ^ 64 ->
  creation_wire c p = creation_wire d q -> c = d /\ p = q.
Proof.
  intros Hc Hd Hp Hq E. assert (c = d).
  { pose proof (decode_creation_at c p Hc) as D1. rewrite E, (decode_creation_at d q Hd) in D1. congruence. }
  subst d. split; [reflexivity|]. unfold creation_wire in E.
  repeat (apply app_inj_1 in E as [_ E]; [|reflexivity]).
  rewrite <- (app_nil_r (push_var_bytes p)), <- (app_nil_r (push_var_bytes q)) in E.
  now apply push_var_bytes_inj in E as [-> _].
Qed.

Lemma redeem_wire_inj r s p q :
  redeem_ok r -> redeem_ok s -> len p < 2 ^ 64 -> len q < 2 ^ 64 ->
  redeem_wire r p = redeem_wire s q -> r = s /\ p = q.
Proof.
  intros [A1 A2 A3 A4 A5] [B1 B2 B3 B4 B5] Hp Hq. unfold redeem_wire. intros E.
  chop E E0. chop E E1. chop E E2. chop E E3. chop E E4. chop E E5. chop E E6. chop E Ev. chop E Ee. chop E Es.
  chop E En. chop E Ef. injection En as En. apply be_bytes_inj in Ev, Ee, Es; try assumption.
  rewrite <- (app_nil_r (push_var_bytes p)), <- (app_nil_r (push_var_bytes q)) in E.
  apply push_var_bytes_inj in E as [-> _]; [|assumption..]. split; [|reflexivity].
  destruct r, s; cbn in *. congruence.
Qed.

(** What a claim puts on the chain: 166 bytes that carry the preimage at a fixed place. *)
Lemma regular_proof_layout a h s pk sg :
  len h = 32 -> len s = 32 -> len pk = 32 -> len sg = 64 ->
  len (regular_transfer_proof a h s pk sg) = 68 + SIGNATURE_PROOF_LEN
  /\ @slice unit _ (regular_transfer_proof a h s pk sg) 3 35 = Ok h
  /\ @slice unit _ (regular_transfer_proof a h s pk sg) 36 68 = Ok s.
Proof.
  intros Hh Hs Hp Hg. unfold regular_transfer_proof, signature_proof_single_sig, SIGNATURE_PROOF_LEN.
  split; [len_simpl; lia|]. split; now seek.
Qed.
End htlc.

(** ** Properties *)

(** The wire forms of the NIM leg.  On arbitrary bytes the decoder of a funding
    wire never panics and returns only in-range transactions; it gives back the
    transaction of every wire the core builds, whatever proof it carries; no two
    funding wires and no two redeeming wires are the same bytes for different
    fields or proofs; and the content that is hashed and signed determines the funding
    transaction. *)
Theorem htlc_wires_exact `{C : Crypto} `{!CryptoLaws C} :
  (forall w, bytes_ok w -> (exists o, decode_creation_wire w = Ok o)
     /\ forall c, decode_creation_wire w = Ok (Some c) -> creation_ok c)
  /\ (forall c proof, creation_ok c -> decode_creation_wire (creation_wire c proof) = Ok (Some c))
  /\ (forall c d p q, creation_ok c -> creation_ok d -> len p < 2 ^ 64 -> len q < 2 ^ 64 ->
        creation_wire c p = creation_wire d q -> c = d /\ p = q)
  /\ (forall r s p q, redeem_ok r -> redeem_ok s -> len p < 2 ^ 64 -> len q < 2 ^ 64 ->
        redeem_wire r p = redeem_wire s q -> r = s /\ p = q)
  /\ (forall c d, creation_ok c -> creation_ok d -> creation_content c = creation_content d -> c = d).
Proof.
  split_and!; eauto using decode_creation_total, decode_creation_ok, decode_creation_at, creation_wire_inj, redeem_wire_inj,
    creation_content_inj.
Qed.
