(* ===== verification/BlockHeader.v ===== *)
(** * BlockHeader: block headers and balance proofs ([nimiq/header.rs], [balance_proof.rs])

    The header codec reads with [get], so its decoder is an [option]; a position in the
    buffer is the rest of the bytes.  The balance-proof decoder indexes and slices, so
    it can panic and is shown not to. *)

From stdpp Require Import base list sets.
From Stdlib Require Import ZArith Lia.
From S2P Require Import Prelude Packet Crypto Beacon Balance NimHtlc.
Open Scope Z_scope.

(** ** The micro-block header *)

Definition HEADER_HASH_LEN : Z := 32.
Definition VRF_SEED_LEN : Z := 96.
Definition MAX_EXTRA_DATA_LEN : Z := 32.
Definition MICRO_HEADER_MIN_LEN : Z := 1 + 1 + 1 + 1 + HEADER_HASH_LEN + VRF_SEED_LEN + 1 + 4 * HEADER_HASH_LEN.
Definition MICRO_HEADER_MAX_LEN : Z :=
  1 + 3 + 5 + 10 + HEADER_HASH_LEN + VRF_SEED_LEN + (1 + MAX_EXTRA_DATA_LEN) + 4 * HEADER_HASH_LEN.
Definition KNOWN_NETWORK_IDS : list Z := [1; 2; 3; 4; 42; 5; 6; 7; 24].

Record MicroHeader : Type := mkHeader {
  mh_network : Z;
  mh_version : Z;
  mh_block_number : Z;
  mh_timestamp : Z;
  mh_parent_hash : bytes;
  mh_seed : bytes;
  mh_extra_data : bytes;
  mh_state_root : bytes;
  mh_body_root : bytes;
  mh_diff_root : bytes;
  mh_history_root : bytes
}.

(** The loop is the one of [push_var_bytes]: at most ten turns for a [u64]. *)
Definition write_varint (value : Z) : bytes := var_len 10 value.

(** The loop of [read_varint], at turn [i] with [turns] to go.  [checked_shl] refuses a
    shift of 64 or more; it does not look at the bits a smaller shift loses. *)
Fixpoint varint_loop (turns : nat) (i value max_value : Z) (l : bytes) : option (Z * bytes) :=
  match turns, l with
  | S turns, byte :: l =>
      if 64 <=? 7 * i then None else
      let shifted := wrapN 64 (Z.shiftl (Z.land byte 0x7F) (7 * i)) in
      if 2 ^ 64 <=? value + shifted then None else
      let value := value + shifted in
      if Z.land byte 0x80 =? 0 then (if max_value <? value then None else Some (value, l))
      else varint_loop turns (i + 1) value max_value l
  | _, _ => None
  end.

Definition read_varint (max_bytes : nat) (max_value : Z) (l : bytes) : option (Z * bytes) :=
  varint_loop max_bytes 0 0 max_value l.

Definition read_array (n : nat) (l : bytes) : option (bytes * bytes) :=
  if (length l <? n)%nat then None else Some (take n l, drop n l).

Definition encode_micro_header (h : MicroHeader) : bytes :=
  let extra := take (Z.to_nat (Z.min (len (mh_extra_data h)) MAX_EXTRA_DATA_LEN)) (mh_extra_data h) in
  [mh_network h] ++ write_varint (mh_version h) ++ write_varint (mh_block_number h) ++ write_varint (mh_timestamp h)
  ++ mh_parent_hash h ++ mh_seed h ++ write_varint (len extra) ++ extra
  ++ mh_state_root h ++ mh_body_root h ++ mh_diff_root h ++ mh_history_root h.

Definition decode_micro_header (b : bytes) : option MicroHeader :=
  if (len b <? MICRO_HEADER_MIN_LEN) || (MICRO_HEADER_MAX_LEN <? len b) then None else
  match b with
  | [] => None
  | network :: l =>
      if negb (bool_decide (network ∈ KNOWN_NETWORK_IDS)) then None else
      '(version, l) ← read_varint 3 (2 ^ 16 - 1) l;
      '(block_number, l) ← read_varint 5 (2 ^ 32 - 1) l;
      '(timestamp, l) ← read_varint 10 (2 ^ 64 - 1) l;
      '(parent_hash, l) ← read_array 32 l;
      '(seed, l) ← read_array 96 l;
      '(extra_len, l) ← read_varint 2 MAX_EXTRA_DATA_LEN l;
      '(extra_data, l) ← read_array (Z.to_nat extra_len) l;
      '(state_root, l) ← read_array 32 l;
      '(body_root, l) ← read_array 32 l;
      '(diff_root, l) ← read_array 32 l;
      '(history_root, l) ← read_array 32 l;
      match l with
      | [] => Some (mkHeader network version block_number timestamp parent_hash seed extra_data
                      state_root body_root diff_root history_root)
      | _ => None
      end
  end.

Definition state_root_of_header (b : bytes) : option bytes := mh_state_root <$> decode_micro_header b.

(** ** The balance proof *)

Definition BALANCE_PROOF_FIXED_LEN : Z := ADDRESS_LEN + 4 + 1 + 2 + 2.
Definition MAX_HEADER_LEN : Z := 1024.
Definition MAX_PROOF_LEN : Z := 8 * 1024.

Record BalanceProof : Type := mkBalanceProof {
  bp_address : bytes;
  bp_head_height : Z;
  bp_network_id : Z;
  bp_header : bytes;
  bp_proof : bytes
}.

Definition encode_balance_proof (p : BalanceProof) : bytes :=
  bp_address p ++ be_bytes 4 (bp_head_height p) ++ [bp_network_id p]
  ++ be_bytes 2 (wrapN 16 (len (bp_header p))) ++ bp_header p
  ++ be_bytes 2 (wrapN 16 (len (bp_proof p))) ++ bp_proof p.

Definition decode_balance_proof (b : bytes) : res unit (option BalanceProof) :=
  if len b <? BALANCE_PROOF_FIXED_LEN then Ok None else
  let? addr := slice b 0 ADDRESS_LEN in
  let? h := slice b ADDRESS_LEN (ADDRESS_LEN + 4) in
  let? network_id := idx b (ADDRESS_LEN + 4) in
  let off := ADDRESS_LEN + 5 in
  let? l0 := idx b off in
  let? l1 := idx b (off + 1) in
  let header_len := from_be [l0; l1] in
  let off := off + 2 in
  if (header_len =? 0) || (MAX_HEADER_LEN <? header_len) then Ok None else
  if len b <? off + header_len + 2 then Ok None else
  let? header := slice b off (off + header_len) in
  let off := off + header_len in
  let? p0 := idx b off in
  let? p1 := idx b (off + 1) in
  let proof_len := from_be [p0; p1] in
  let off := off + 2 in
  if (proof_len =? 0) || (MAX_PROOF_LEN <? proof_len) then Ok None else
  if negb (len b =? off + proof_len) then Ok None else
  let? proof := slice b off (len b) in
  Ok (Some (mkBalanceProof addr (from_be h) network_id header proof)).

Inductive BindVerdict : Type :=
  Bound | WrongNetwork | StaleHeight | AheadOfBeacon | BeaconUnhashed | HeaderMismatch.

#[export] Instance BindVerdict_eq_dec : EqDecision BindVerdict.
Proof. solve_decision. Defined.

Section binding.
Context `{C : Crypto}.

Definition block_hash_of_header (header : bytes) : bytes := blake2b256 header.

Definition bind_to_beacon (p : BalanceProof) (b : HeadBeacon) : BindVerdict :=
  if negb (bp_network_id p =? hb_network_id b) then WrongNetwork else
  if bp_head_height p <? hb_height b then StaleHeight else
  if hb_height b <? bp_head_height p then AheadOfBeacon else
  if bool_decide (hb_block_hash b = replicate 32 0) then BeaconUnhashed else
  if negb (bool_decide (block_hash_of_header (bp_header p) = hb_block_hash b)) then HeaderMismatch else
  Bound.

Definition state_root_for_bound_proof (p : BalanceProof) (b : HeadBeacon) : option bytes :=
  if negb (bool_decide (bind_to_beacon p b = Bound)) then None else
  h ← decode_micro_header (bp_header p);
  if negb (mh_block_number h =? bp_head_height p) || negb (mh_network h =? bp_network_id p) then None
  else Some (mh_state_root h).
End binding.

(** ** Varints *)

Lemma shifted_fits v i : 0 <= v -> 0 <= i -> v * 2 ^ (7 * i) < 2 ^ 64 -> wrapN 64 (Z.shiftl v (7 * i)) = v * 2 ^ (7 * i).
Proof. intros Hv Hi Hb. rewrite Z.shiftl_mul_pow2 by lia. unfold wrapN. apply Z.mod_small. split; [|done]. apply Z.mul_nonneg_nonneg; lia. Qed.

Lemma land_low v : 0 <= v < 128 -> Z.land v 0x7F = v /\ Z.land v 0x80 = 0 /\ Z.land (128 + v) 0x7F = v /\ Z.land (128 + v) 0x80 = 128.
Proof.
  intros H. assert (F : forallb (fun n => let v := Z.of_nat n in (Z.land v 0x7F =? v) && (Z.land v 0x80 =? 0)
    && (Z.land (128 + v) 0x7F =? v) && (Z.land (128 + v) 0x80 =? 128)) (seq 0 128) = true) by (vm_compute; reflexivity).
  rewrite forallb_forall in F. specialize (F (Z.to_nat v) ltac:(apply in_seq; lia)). rewrite Z2Nat.id in F by lia.
  rewrite !andb_true_iff, !Z.eqb_eq in F. tauto.
Qed.

(** The reader takes back what the writer wrote, up to the byte budget of the type. *)
Lemma varint_loop_write turns fuel i acc v max r :
  (0 < turns)%nat -> (0 < fuel)%nat -> 0 <= i -> 0 <= acc -> 0 <= v < 128 ^ Z.of_nat turns -> v < 128 ^ Z.of_nat fuel ->
  7 * (i + Z.of_nat turns - 1) < 64 -> acc + v * 2 ^ (7 * i) < 2 ^ 64 -> acc + v * 2 ^ (7 * i) <= max ->
  varint_loop turns i acc max (var_len fuel v ++ r) = Some (acc + v * 2 ^ (7 * i), r).
Proof.
  revert fuel i acc v. induction turns as [|turns IH]; intros fuel i acc v Ht Hf Hi Ha Hv Hvf H7 H64 Hm; [lia|].
  destruct fuel as [|fuel]; [lia|]. destruct (var_step v) as (L1 & L2 & L3); [lia|]. cbn [var_len]. rewrite L3, L1, L2.
  pose proof (Z.mod_pos_bound v 128 eq_refl). pose proof (Z.div_mod v 128 ltac:(lia)).
  destruct (land_low (v mod 128)) as (B1 & B2 & B3 & B4); [lia|]. assert (Hp : 0 < 2 ^ (7 * i)) by (apply Z.pow_pos_nonneg; lia).
  assert (0 <= v / 128) by (apply Z.div_pos; lia).
  assert (Hle : v mod 128 * 2 ^ (7 * i) <= v * 2 ^ (7 * i)) by (apply Z.mul_le_mono_nonneg_r; lia).
  assert (Hsh : wrapN 64 (Z.shiftl (v mod 128) (7 * i)) = v mod 128 * 2 ^ (7 * i)) by (apply shifted_fits; lia).
  destruct (Z.eqb_spec (v / 128) 0) as [E0|E0]; cbn [app varint_loop]; rewrite (proj2 (Z.leb_gt _ _)) by lia.
  - rewrite B1, B2, Hsh. replace (v mod 128) with v by lia. rewrite (proj2 (Z.leb_gt _ _)) by lia. cbn. by rewrite (proj2 (Z.ltb_ge _ _)).
  - rewrite B3, B4, Hsh. rewrite (proj2 (Z.leb_gt _ _)) by lia. cbn.
    assert (Hd : forall k, v < 128 ^ Z.of_nat (S k) -> v / 128 < 128 ^ Z.of_nat k).
    { intros k Hk. rewrite Nat2Z.inj_succ, Z.pow_succ_r in Hk by lia. by apply Z.div_lt_upper_bound. }
    assert (E : v mod 128 * 2 ^ (7 * i) + v / 128 * 2 ^ (7 * (i + 1)) = v * 2 ^ (7 * i)).
    { replace (7 * (i + 1)) with (7 * i + 7) by lia. rewrite Z.pow_add_r by lia. change (2 ^ 7) with 128. nia. }
    destruct turns as [|turns]; [specialize (Hd 0%nat (proj2 Hv)); cbn in Hd; lia|].
    destruct fuel as [|fuel]; [specialize (Hd 0%nat Hvf); cbn in Hd; lia|].
    rewrite IH; [|lia..| | |lia| |]; [do 2 f_equal; lia| | | |].
    + split; [lia|]. apply Hd. lia.
    + by apply Hd.
    + lia.
    + lia.
Qed.

Lemma read_varint_write n v max r : (0 < n <= 10)%nat -> 0 <= v < 128 ^ Z.of_nat n -> v < 2 ^ 64 -> v <= max ->
  read_varint n max (write_varint v ++ r) = Some (v, r).
Proof.
  intros Hn Hv H64 Hm. unfold read_varint, write_varint.
  rewrite varint_loop_write; rewrite ?Z.mul_0_r, ?Z.pow_0_r, ?Z.mul_1_r, ?Z.add_0_l; try done; lia.
Qed.

(** ** The header codec *)

Record header_ok (h : MicroHeader) : Prop := {
  ho_network : mh_network h ∈ KNOWN_NETWORK_IDS;
  ho_version : uN 16 (mh_version h);
  ho_number : uN 32 (mh_block_number h);
  ho_timestamp : uN 64 (mh_timestamp h);
  ho_parent : length (mh_parent_hash h) = 32%nat;
  ho_seed : length (mh_seed h) = 96%nat;
  ho_extra : len (mh_extra_data h) <= MAX_EXTRA_DATA_LEN;
  ho_state : length (mh_state_root h) = 32%nat;
  ho_body : length (mh_body_root h) = 32%nat;
  ho_diff : length (mh_diff_root h) = 32%nat;
  ho_history : length (mh_history_root h) = 32%nat
}.

Lemma read_array_app n l r : length l = n -> read_array n (l ++ r) = Some (l, r).
Proof.
  intros <-. unfold read_array. rewrite length_app. rewrite (proj2 (Nat.ltb_ge _ _)) by lia.
  by rewrite take_app_length, drop_app_length.
Qed.

Lemma var_len_bounds fuel v : (0 < fuel)%nat -> 1 <= len (var_len fuel v) <= Z.of_nat fuel.
Proof.
  revert v. induction fuel as [|fuel IH]; intros v Hf; [lia|]. cbn [var_len].
  destruct (Z.shiftr v 7 =? 0); rewrite len_cons; [rewrite len_nil; lia|].
  destruct fuel as [|fuel]; [cbn [var_len]; rewrite len_nil; lia|]. specialize (IH (Z.shiftr v 7) ltac:(lia)). lia.
Qed.

(** A value within the budget of a type takes no more bytes than its budget. *)
Lemma var_len_short n fuel v : (0 < n)%nat -> 0 <= v < 128 ^ Z.of_nat n -> len (var_len fuel v) <= Z.of_nat n.
Proof.
  revert n v. induction fuel as [|fuel IH]; intros n v Hn Hv; cbn [var_len]; [rewrite len_nil; lia|].
  destruct (var_step v) as (_ & -> & _); [lia|]. destruct (Z.eqb_spec (v / 128) 0) as [|E]; [rewrite len_cons, len_nil; lia|].
  assert (0 <= v / 128) by (apply Z.div_pos; lia). rewrite len_cons. destruct n as [|[|n]]; [lia| |].
  - exfalso. apply E. apply Z.div_small. cbn in Hv. lia.
  - specialize (IH (S n) (v / 128) ltac:(lia)). rewrite Nat2Z.inj_succ, Z.pow_succ_r in Hv by lia.
    assert (v / 128 < 128 ^ Z.of_nat (S n)) by (apply Z.div_lt_upper_bound; lia). lia.
Qed.

Lemma take_all_extra h : header_ok h ->
  take (Z.to_nat (Z.min (len (mh_extra_data h)) MAX_EXTRA_DATA_LEN)) (mh_extra_data h) = mh_extra_data h.
Proof. intros H. pose proof (ho_extra h H). apply take_ge. unfold len in *. lia. Qed.

Lemma header_length h : header_ok h -> MICRO_HEADER_MIN_LEN <= len (encode_micro_header h) <= MICRO_HEADER_MAX_LEN.
Proof.
  intros H. unfold encode_micro_header. rewrite take_all_extra by done. destruct H as [_ Hv Hn Ht Hp Hs He H1 H2 H3 H4].
  pose proof (var_len_bounds 10 (mh_version h) ltac:(lia)). pose proof (var_len_bounds 10 (mh_block_number h) ltac:(lia)).
  pose proof (var_len_bounds 10 (mh_timestamp h) ltac:(lia)). pose proof (var_len_bounds 10 (len (mh_extra_data h)) ltac:(lia)).
  pose proof (len_nonneg (mh_extra_data h)). unfold uN, MAX_EXTRA_DATA_LEN in *.
  pose proof (var_len_short 3 10 (mh_version h) ltac:(lia) ltac:(change (128 ^ Z.of_nat 3) with (2 ^ 21); lia)).
  pose proof (var_len_short 5 10 (mh_block_number h) ltac:(lia) ltac:(change (128 ^ Z.of_nat 5) with (2 ^ 35); lia)).
  pose proof (var_len_short 1 10 (len (mh_extra_data h)) ltac:(lia) ltac:(change (128 ^ Z.of_nat 1) with 128; lia)).
  repeat rewrite ?len_app, ?len_cons, ?len_nil. unfold write_varint, MICRO_HEADER_MIN_LEN, MICRO_HEADER_MAX_LEN, HEADER_HASH_LEN, VRF_SEED_LEN, MAX_EXTRA_DATA_LEN.
  unfold len in Hp, Hs, H1, H2, H3, H4 |- *. unfold len in *. lia.
Qed.

Lemma decode_encode_header h : header_ok h -> decode_micro_header (encode_micro_header h) = Some h.
Proof.
  intros H. pose proof (header_length h H) as Hl. unfold decode_micro_header.
  rewrite (proj2 (Z.ltb_ge _ _)), (proj2 (Z.ltb_ge _ _)) by lia. cbn [orb]. unfold encode_micro_header.
  rewrite take_all_extra by done. destruct H as [Hk Hv Hn Ht Hp Hs He H1 H2 H3 H4]. cbn [app].
  rewrite bool_decide_eq_true_2 by done. cbn [negb]. unfold uN, MAX_EXTRA_DATA_LEN in *. pose proof (len_nonneg (mh_extra_data h)).
  rewrite read_varint_write by (try (change (128 ^ Z.of_nat 3) with (2 ^ 21)); lia). cbn [mbind option_bind].
  rewrite read_varint_write by (try (change (128 ^ Z.of_nat 5) with (2 ^ 35)); lia). cbn [mbind option_bind].
  rewrite read_varint_write by (try (change (128 ^ Z.of_nat 10) with (2 ^ 70)); lia). cbn [mbind option_bind].
  rewrite read_array_app by done. cbn [mbind option_bind]. rewrite read_array_app by done. cbn [mbind option_bind].
  rewrite read_varint_write by (try (change (128 ^ Z.of_nat 2) with (2 ^ 14)); unfold MAX_EXTRA_DATA_LEN; lia). cbn [mbind option_bind].
  rewrite read_array_app by (unfold len; lia). cbn [mbind option_bind].
  do 3 (rewrite read_array_app by done; cbn [mbind option_bind]).
  rewrite <- (app_nil_r (mh_history_root h)) at 1. rewrite read_array_app by done. cbn [mbind option_bind]. by destruct h.
Qed.

(** ** The balance-proof codec *)

Record proof_ok (p : BalanceProof) : Prop := {
  po_address : array_ok 20 (bp_address p);
  po_height : uN 32 (bp_head_height p);
  po_network : uN 8 (bp_network_id p);
  po_header : bytes_ok (bp_header p) /\ 1 <= len (bp_header p) <= MAX_HEADER_LEN;
  po_proof : bytes_ok (bp_proof p) /\ 1 <= len (bp_proof p) <= MAX_PROOF_LEN
}.

(** The decoder on fields of the right widths: what it checks is the two lengths. *)
Lemma decode_proof_fields a h n l0 l1 hd r :
  len a = 20 -> len h = 4 -> len hd = from_be [l0; l1] ->
  decode_balance_proof (a ++ h ++ [n] ++ [l0; l1] ++ hd ++ r) =
  if (len hd =? 0) || (MAX_HEADER_LEN <? len hd) then Ok None else
  match r with
  | p0 :: p1 :: pf =>
      let proof_len := from_be [p0; p1] in
      if (proof_len =? 0) || (MAX_PROOF_LEN <? proof_len) || negb (len pf =? proof_len) then Ok None
      else Ok (Some (mkBalanceProof a (from_be h) n hd pf))
  | _ => Ok None
  end.
Proof.
  intros Ha Hh Hd. unfold decode_balance_proof, BALANCE_PROOF_FIXED_LEN, ADDRESS_LEN.
  set (b := a ++ _). assert (Hlb : len b = 27 + len hd + len r) by (subst b; rewrite !len_app, !len_cons, len_nil; lia).
  pose proof (len_nonneg hd). pose proof (len_nonneg r).
  assert (I0 : @idx unit Z b 25 = Ok l0) by (apply (idx_at _ (a ++ h ++ [n]) l0 ([l1] ++ hd ++ r)); [subst b; by rewrite <- !app_assoc|rewrite !len_app, len_cons, len_nil; lia]).
  assert (I1 : @idx unit Z b 26 = Ok l1) by (apply (idx_at _ (a ++ h ++ [n; l0]) l1 (hd ++ r)); [subst b; by rewrite <- !app_assoc|rewrite !len_app, !len_cons, len_nil; lia]).
  destruct (Z.ltb_spec (len b) (20 + 4 + 1 + 2 + 2)) as [Hs|Hs].
  { destruct (Z.eqb_spec (len hd) 0); [done|]. cbn [orb]. destruct (MAX_HEADER_LEN <? len hd); [done|].
    destruct r as [|p0 [|p1 pf]]; [done..|]. rewrite !len_cons in Hlb. pose proof (len_nonneg pf). lia. }
  rewrite (slice_at _ [] a (h ++ [n] ++ [l0; l1] ++ hd ++ r)) by (done || lia).
  rewrite (slice_at _ a h ([n] ++ [l0; l1] ++ hd ++ r)) by (done || lia).
  rewrite (idx_at _ (a ++ h) n ([l0; l1] ++ hd ++ r)) by (first [by subst b; rewrite <- !app_assoc | rewrite len_app; lia]).
  change (20 + 5) with 25. change (25 + 1) with 26. rewrite I0, I1. rewrite <- Hd.
  destruct (_ || _); [done|]. change (25 + 2) with 27.
  destruct (Z.ltb_spec (len b) (27 + len hd + 2)) as [Ht|Ht].
  { destruct r as [|p0 [|p1 pf]]; [done..|]. rewrite !len_cons in Hlb. pose proof (len_nonneg pf). lia. }
  destruct r as [|p0 [|p1 pf]]; [rewrite ?len_cons, len_nil in *; lia..|]. rewrite !len_cons in Hlb. pose proof (len_nonneg pf).
  set (pre := a ++ h ++ [n] ++ [l0; l1]). assert (Hpre : len pre = 27) by (subst pre; rewrite !len_app, !len_cons, len_nil; lia).
  assert (Eb : b = pre ++ hd ++ p0 :: p1 :: pf) by (subst b pre; by rewrite <- !app_assoc).
  rewrite (slice_at _ pre hd (p0 :: p1 :: pf)) by (done || lia).
  rewrite (idx_at _ (pre ++ hd) p0 (p1 :: pf)) by (first [by rewrite Eb, <- app_assoc | rewrite len_app; lia]).
  rewrite (idx_at _ (pre ++ hd ++ [p0]) p1 pf) by (first [by rewrite Eb, <- !app_assoc | rewrite !len_app, len_cons, len_nil; lia]).
  cbv zeta. destruct ((from_be [p0; p1] =? 0) || _); [done|]. cbn [orb].
  destruct (Z.eqb_spec (len b) (27 + len hd + 2 + from_be [p0; p1])), (Z.eqb_spec (len pf) (from_be [p0; p1])); try lia; [|done].
  cbn [negb]. rewrite (slice_at _ (pre ++ hd ++ [p0; p1]) pf []); [done|by rewrite Eb, app_nil_r, <- !app_assoc|rewrite !len_app, !len_cons, len_nil; lia|lia].
Qed.

Lemma decode_proof_short a h n l0 l1 rest :
  len a = 20 -> len h = 4 -> len rest < from_be [l0; l1] -> decode_balance_proof (a ++ h ++ [n] ++ [l0; l1] ++ rest) = Ok None.
Proof.
  intros Ha Hh Hr. unfold decode_balance_proof, BALANCE_PROOF_FIXED_LEN, ADDRESS_LEN.
  set (b := a ++ _). assert (Hlb : len b = 27 + len rest) by (subst b; rewrite !len_app, !len_cons, len_nil; lia).
  destruct (Z.ltb_spec (len b) (20 + 4 + 1 + 2 + 2)); [done|].
  rewrite (slice_at _ [] a (h ++ [n] ++ [l0; l1] ++ rest)) by (done || lia).
  rewrite (slice_at _ a h ([n] ++ [l0; l1] ++ rest)) by (done || lia).
  rewrite (idx_at _ (a ++ h) n ([l0; l1] ++ rest)) by (first [by subst b; rewrite <- !app_assoc | rewrite len_app; lia]).
  rewrite (idx_at _ (a ++ h ++ [n]) l0 ([l1] ++ rest)) by (first [by subst b; rewrite <- !app_assoc | rewrite !len_app, len_cons, len_nil; lia]).
  rewrite (idx_at _ (a ++ h ++ [n; l0]) l1 rest) by (first [by subst b; rewrite <- !app_assoc | rewrite !len_app, !len_cons, len_nil; lia]).
  destruct (_ || _); [done|]. by rewrite (proj2 (Z.ltb_lt _ _)) by lia.
Qed.

(** Every buffer is too short, or short of its header, or has the shape of the fields. *)
Lemma proof_split (b : bytes) : bytes_ok b -> len b < 29 \/ exists a h n l0 l1 rest,
  b = a ++ h ++ [n] ++ [l0; l1] ++ rest /\ len a = 20 /\ len h = 4
  /\ (len rest < from_be [l0; l1] \/ exists hd r, rest = hd ++ r /\ len hd = from_be [l0; l1]).
Proof.
  intros Hb. destruct (Z.lt_ge_cases (len b) 29) as [|Hl]; [by left|right].
  destruct (take_drop_len b 20) as (a & b1 & -> & Ha & H1); [lia|].
  destruct (take_drop_len b1 4) as (h & b2 & -> & Hh & H2); [lia|].
  destruct b2 as [|n [|l0 [|l1 rest]]]; rewrite ?len_cons, ?len_nil in H2; try lia.
  exists a, h, n, l0, l1, rest. split_and!; [done..|].
  destruct (Z.lt_ge_cases (len rest) (from_be [l0; l1])) as [|Hr]; [by left|right].
  rewrite !bytes_ok_app, !bytes_ok_cons in Hb. destruct Hb as (_ & _ & _ & Hl0 & Hl1 & _).
  destruct (take_drop_len rest (from_be [l0; l1])) as (hd & r & -> & Hd & _); [|eauto].
  split; [|done]. apply from_be_bound. rewrite !bytes_ok_cons. auto using bytes_ok_nil.
Qed.

Lemma decode_proof_total b : bytes_ok b -> decode_balance_proof b <> Panic.
Proof.
  intros Hb. destruct (proof_split b Hb) as [Hs|(a & h & n & l0 & l1 & rest & -> & Ha & Hh & [Hr|(hd & r & -> & Hd)])].
  - unfold decode_balance_proof. rewrite (proj2 (Z.ltb_lt _ _)) by (unfold BALANCE_PROOF_FIXED_LEN, ADDRESS_LEN; lia). done.
  - by rewrite decode_proof_short.
  - rewrite decode_proof_fields by done. destruct (_ || _); [discriminate|]. destruct r as [|p0 [|p1 pf]]; [discriminate..|]. cbv zeta. by destruct (_ || negb _).
Qed.

Lemma decode_proof_exact b p : bytes_ok b ->
  decode_balance_proof b = Ok (Some p) <-> b = encode_balance_proof p /\ proof_ok p.
Proof.
  intros Hb. split.
  - destruct (proof_split b Hb) as [Hs|(a & h & n & l0 & l1 & rest & -> & Ha & Hh & [Hr|(hd & r & -> & Hd)])].
    + unfold decode_balance_proof. rewrite (proj2 (Z.ltb_lt _ _)) by (unfold BALANCE_PROOF_FIXED_LEN, ADDRESS_LEN; lia). done.
    + by rewrite decode_proof_short.
    + rewrite decode_proof_fields by done. destruct (_ || _) eqn:E1; [done|]. destruct r as [|p0 [|p1 pf]]; [done..|]. cbv zeta.
      destruct (_ || negb _) eqn:E2; [done|]. intros [= <-].
      apply orb_false_iff in E1 as [E1%Z.eqb_neq E1'%Z.ltb_ge]. apply orb_false_iff in E2 as [E2 E3%negb_false_iff%Z.eqb_eq].
      apply orb_false_iff in E2 as [E2%Z.eqb_neq E2'%Z.ltb_ge]. pose proof (len_nonneg hd). pose proof (len_nonneg pf).
      rewrite !bytes_ok_app, !bytes_ok_cons in Hb. destruct Hb as (Ba & Bh & (Bn & _) & (B0 & B1 & _) & Bd & P0 & P1 & Bp).
      split; [|constructor; cbn [bp_address bp_head_height bp_network_id bp_header bp_proof]; [by split|by apply (from_be_uN 4)|done|split; [done|lia]..]].
      unfold encode_balance_proof. cbn [bp_address bp_head_height bp_network_id bp_header bp_proof].
      rewrite (be_of 4 h) by done. unfold MAX_HEADER_LEN, MAX_PROOF_LEN in *.
      unfold wrapN. rewrite !Z.mod_small by lia. rewrite Hd, E3.
      rewrite (be_of 2 [l0; l1]), (be_of 2 [p0; p1]) by (done || (rewrite !bytes_ok_cons; auto using bytes_ok_nil)). done.
  - intros [-> [[Ha _] Hh _ [Bd Hd] [Bp Hp]]]. unfold encode_balance_proof, MAX_HEADER_LEN, MAX_PROOF_LEN in *.
    unfold wrapN. rewrite !Z.mod_small by lia.
    assert (W : forall x, 0 <= x < 65536 -> exists u v, be_bytes 2 x = [u; v] /\ from_be [u; v] = x).
    { intros x Hx. exists (x / 256 mod 256), (x / 1 mod 256). split; [done|]. rewrite <- (from_be_be_bytes 2 x) at 3 by (cbn; lia). done. }
    destruct (W (len (bp_header p))) as (l0 & l1 & E1 & F1); [lia|]. destruct (W (len (bp_proof p))) as (p0 & p1 & E2 & F2); [lia|].
    rewrite E1, E2. rewrite decode_proof_fields by (rewrite ?len_be_bytes; done). unfold MAX_HEADER_LEN.
    rewrite (proj2 (Z.eqb_neq _ _)), (proj2 (Z.ltb_ge _ _)) by lia. cbn [orb app]. cbv zeta. rewrite F2. unfold MAX_PROOF_LEN.
    rewrite (proj2 (Z.eqb_neq _ _)), (proj2 (Z.ltb_ge _ _)), Z.eqb_refl by lia. cbn [orb negb].
    rewrite from_be_be_bytes by exact Hh. by destruct p.
Qed.

(** ** Properties *)

Section trust.
Context `{C : Crypto}.

Lemma bound_iff p b : bind_to_beacon p b = Bound <->
  bp_network_id p = hb_network_id b /\ bp_head_height p = hb_height b
  /\ hb_block_hash b <> replicate 32 0 /\ blake2b256 (bp_header p) = hb_block_hash b.
Proof.
  unfold bind_to_beacon, block_hash_of_header. destruct (Z.eqb_spec (bp_network_id p) (hb_network_id b)); cbn; [|naive_solver].
  destruct (Z.ltb_spec (bp_head_height p) (hb_height b)); [naive_solver lia|].
  destruct (Z.ltb_spec (hb_height b) (bp_head_height p)); [naive_solver lia|].
  case_bool_decide; [naive_solver|]. case_bool_decide; cbn; [|naive_solver].
  split; [|done]. intros _. split_and!; [done|lia|done|done].
Qed.
End trust.

(** C36: a state root taken from a balance proof is the chain's.  Bytes of any origin never make the
    decoder of a proof panic, and it accepts exactly the encodings of proofs within the caps.  Let a
    node hold a beacon with the hash of a block, and let the header of a proof not be another one with
    that hash.  Then the proof yields a state root only if its header is that block's header, byte for byte, at
    the height and on the network of the beacon, and the root is the one of that block; and the
    honest proof of the block does yield it. *)
Theorem balance_proof_trusted `{C : Crypto} (b : HeadBeacon) (h : MicroHeader) (wire : bytes) (Hw : bytes_ok wire)
    (Hh : header_ok h) (Hb : hb_block_hash b = blake2b256 (encode_micro_header h)) :
  decode_balance_proof wire <> Panic
  /\ (forall p, decode_balance_proof wire = Ok (Some p) <-> wire = encode_balance_proof p /\ proof_ok p)
  /\ (forall p r, (blake2b256 (bp_header p) = blake2b256 (encode_micro_header h) -> bp_header p = encode_micro_header h) ->
        state_root_for_bound_proof p b = Some r <->
        r = mh_state_root h /\ bp_header p = encode_micro_header h
        /\ mh_block_number h = bp_head_height p /\ mh_network h = bp_network_id p
        /\ bp_head_height p = hb_height b /\ bp_network_id p = hb_network_id b /\ hb_block_hash b <> replicate 32 0).
Proof.
  split_and!; [by apply decode_proof_total|intros p; by apply decode_proof_exact|].
  intros p r Hc. unfold state_root_for_bound_proof. case_bool_decide as E; cbn [negb].
  - apply bound_iff in E as (E1 & E2 & E3 & E4). rewrite Hb in E4. apply Hc in E4.
    rewrite E4, (decode_encode_header h Hh). cbn [mbind option_bind].
    destruct (Z.eqb_spec (mh_block_number h) (bp_head_height p)) as [F1|F1]; cbn [negb orb]; [|split; [done|by intros (_ & _ & ? & _)]].
    destruct (Z.eqb_spec (mh_network h) (bp_network_id p)) as [F2|F2]; cbn [negb]; [|split; [done|by intros (_ & _ & _ & ? & _)]].
    split; [|by intros (-> & _)]. intros Hr. assert (r = mh_state_root h) by congruence. by split_and!.
  - split; [done|]. intros (_ & E1 & _ & _ & E2 & E3 & E4). exfalso. apply E. apply bound_iff. rewrite E1, Hb in *. auto.
Qed.

Definition sample_header : MicroHeader :=
  mkHeader 5 1 3000000 1700000000000 (replicate 32 1) (replicate 96 2) [7] (replicate 32 3) (replicate 32 4) (replicate 32 5) (replicate 32 6).

Definition sample_proof : BalanceProof := mkBalanceProof (replicate 20 9) 3000000 5 (encode_micro_header sample_header) [1; 2].

Lemma balance_proof_trusted_witness :
  let b := mkBeacon 3000000 (blake2b256 (encode_micro_header sample_header)) 5 in
  state_root_for_bound_proof sample_proof b = Some (replicate 32 3).
Proof.
  assert (Hw : bytes_ok (encode_balance_proof sample_proof)) by (apply bytes_okb_ok; vm_compute; reflexivity).
  assert (Hh : header_ok sample_header).
  { constructor; try (unfold uN; cbn; lia); try reflexivity; [|vm_compute; discriminate].
    apply (bool_decide_eq_true_1 (5 ∈ KNOWN_NETWORK_IDS)). reflexivity. }
  intros b. apply (balance_proof_trusted b sample_header _ Hw Hh eq_refl); [reflexivity|].
  split_and!; try reflexivity. vm_compute. discriminate.
Defined.

(** A varint that postcard refuses is read: the tenth byte of a [u64] is shifted by 63, which keeps
    one of its bits, and the bits that fall off are not noticed. *)
Theorem varint_overflow_read (l : bytes) :
  read_varint 10 (2 ^ 64 - 1) (replicate 9 0x80 ++ [0x7E] ++ l) = Some (0, l)
  /\ read_varint 10 (2 ^ 64 - 1) (write_varint 0 ++ l) = Some (0, l).
Proof. split; vm_compute; reflexivity. Qed.
