(* ===== verification/NimVerifier.v ===== *)
(** * NimVerifier: the funding gate of the NIM leg on a real chain ([nim_verifier.rs])

    The verifier keeps the funding wires that peers claim, as untrusted hints, and
    checks each against one or two RPC endpoints.  An endpoint is any [GatewayRpc];
    its calls are taken to return, and an endpoint that panics is read as one that
    errs.  What an endpoint answers at the next observation is the environment's:
    the session model lets the verifier's chain move between operations. *)

From stdpp Require Import base list gmap strings.
From Stdlib Require Import ZArith Lia.
From S2P Require Import Prelude Packet Crypto SwapWire SwapIntent FundingVerify Swap SwapMessages SwapCoordinator SwapSession Address NimTx Gateway NimHtlc.
Open Scope Z_scope.

Definition DEFAULT_TIMEOUT_SLACK_S : Z := 900.
Definition MAX_STORE_ENTRIES : Z := 32.

(** ** Units of time *)

Definition sat_mul (w a b : Z) : Z := Z.min (2 ^ w - 1) (a * b).

Definition nim_htlc_timeout_ms (term term_anchor now_ms : Z) : Z :=
  sat_add 64 now_ms (sat_mul 64 (sat_sub term term_anchor) 1000).

Definition term_equivalent_of_timeout_ms (timeout_ms now_ms term_anchor slack_s : Z) : Z :=
  sat_add 64 (sat_add 64 (sat_sub timeout_ms now_ms / 1000) slack_s) term_anchor.

(** ** The hints *)

Record NimFundingRecord : Type := mkNimFunding {
  nf_creation : HtlcCreation;
  nf_contract : bytes;
  nf_tx_hash_hex : str
}.

Abbreviation NimFundingStore := (gmap (list Z) NimFundingRecord).

(** [eq_ignore_ascii_case] *)
Definition eq_ignore_ascii_case (a b : str) : bool :=
  bool_decide (map to_ascii_lowercase a = map to_ascii_lowercase b).

Section verifier.
Context `{C : Crypto} {T : Type} `{RPC : GatewayRpc T}.

Definition note_wire (st : NimFundingStore) (wire : bytes) : NimFundingStore :=
  match decode_creation_wire wire with
  | Ok (Some c) =>
      let d := hc_data c in
      if negb (bool_decide (hd_hash_algorithm d = HaSha256)) || negb (hd_hash_count d =? 1) then st else
      if bool_decide (is_Some (st !! hd_hash_root d)) then st else
      if Z.of_nat (size st) >=? MAX_STORE_ENTRIES then st else
      <[ hd_hash_root d := mkNimFunding c (contract_address c) (bytes_to_hex (creation_hash c)) ]> st
  | _ => st
  end.

Definition pays_recipient_under_other_hashlock (st : NimFundingStore) (recipient hashlock : bytes) : bool :=
  existsb (fun '(h, rec) => negb (bool_decide (h = hashlock))
                            && bool_decide (hd_recipient (hc_data (nf_creation rec)) = recipient))
    (map_to_list st).

(** ** The verifier *)

Record NimHtlcVerifier : Type := mkNimVerifier {
  nv_rpc : T;
  nv_secondary : option T;
  nv_store : NimFundingStore;
  nv_timeout_slack_s : Z;
  nv_network_id : Z;
  (** [(self.clock_ms)()] at the observation *)
  nv_clock_ms : Z
}.

Definition nim_verifier_new (rpc : T) (store : NimFundingStore) (now_ms : Z) : NimHtlcVerifier :=
  mkNimVerifier rpc None store DEFAULT_TIMEOUT_SLACK_S (wire_id Testnet) now_ms.

Definition nim_verifier_new_mainnet (rpc : T) (store : NimFundingStore) (now_ms : Z) : NimHtlcVerifier :=
  mkNimVerifier rpc None store DEFAULT_TIMEOUT_SLACK_S (wire_id Mainnet) now_ms.

Definition with_secondary (v : NimHtlcVerifier) (secondary : T) : NimHtlcVerifier :=
  mkNimVerifier (nv_rpc v) (Some secondary) (nv_store v) (nv_timeout_slack_s v) (nv_network_id v) (nv_clock_ms v).

Definition with_timeout_slack (v : NimHtlcVerifier) (slack_s : Z) : NimHtlcVerifier :=
  mkNimVerifier (nv_rpc v) (nv_secondary v) (nv_store v) slack_s (nv_network_id v) (nv_clock_ms v).

(** [None] is [Err(())]; [Some None] is known and in the mempool. *)
Definition content_bound_block (t : T) (expected_hash : str) : T * option (option Z) :=
  let '(t, r) := get_transaction t expected_hash in
  (t, match r with
      | Ok (Some tx) => if negb (eq_ignore_ascii_case (rt_hash tx) expected_hash) then None else Some (rt_block_number tx)
      | _ => None
      end).

Definition head_of (t : T) : T * option Z :=
  let '(t, r) := block_number t in (t, match r with Ok h => Some h | _ => None end).

(** The cross-read: the secondary agrees on the block, and the shallower head wins. *)
Definition cross_read (secondary : option T) (hash : str) (block : option Z) (head : Z) : option Z :=
  match secondary with
  | None => Some head
  | Some sec =>
      let '(sec, r) := content_bound_block sec hash in
      if bool_decide (r = Some block) then
        let '(_, h) := head_of sec in
        match h with Some sh => Some (Z.min head sh) | None => None end
      else None
  end.

Definition confirmations (head : Z) (block : option Z) : Z :=
  match block with None => 0 | Some b => sat_add 32 (sat_sub head b) 1 end.

(** The contract account still holds the created amount. *)
Definition account_holds (t : T) (rec : NimFundingRecord) : bool :=
  match to_user_friendly (nf_contract rec) with
  | Ok address =>
      match (get_account t address).2 with
      | Ok (Some acct) =>
          eq_ignore_ascii_case (ra_account_type acct) (chars "htlc") && (hc_value (nf_creation rec) <=? ra_balance acct)
      | _ => false
      end
  | _ => false
  end.

Definition observe_nim (v : NimHtlcVerifier) (expect : HtlcExpectation) : FundingObservation :=
  match nv_store v !! x_hashlock expect with
  | None =>
      if pays_recipient_under_other_hashlock (nv_store v) (x_recipient expect) (x_hashlock expect)
      then Mismatch MmHashlock else Absent
  | Some rec =>
      let c := nf_creation rec in
      if negb (bool_decide (hd_recipient (hc_data c) = x_recipient expect)) then Mismatch MmRecipient else
      if negb (hc_network_id c =? nv_network_id v) then Absent else
      let hash := bytes_to_hex (creation_hash c) in
      let '(rpc, r) := content_bound_block (nv_rpc v) hash in
      match r with
      | None => Absent
      | Some block =>
          let '(rpc, h) := head_of rpc in
          match h with
          | None => Absent
          | Some head =>
              match cross_read (nv_secondary v) hash block head with
              | None => Absent
              | Some head =>
                  let k := confirmations head block in
                  if (0 <? k) && negb (account_holds rpc rec) then Absent else
                  Found (hc_value c)
                    (term_equivalent_of_timeout_ms (hd_timeout (hc_data c)) (nv_clock_ms v)
                       (x_term_anchor expect) (nv_timeout_slack_s v)) k
              end
          end
      end
  end.

(** The secondary's agreement on a claim *)
Definition claim_agreed (sec : T) (hash : str) (block : option (option Z)) : T * bool :=
  let '(sec, r) := get_transaction sec hash in
  (sec, match r with
        | Ok None => bool_decide (block = None)
        | Ok (Some tx) => eq_ignore_ascii_case (rt_hash tx) hash && bool_decide (Some (rt_block_number tx) = block)
        | _ => false
        end).

Definition claim_depth (rpc : T) (secondary : option T) (b : Z) : Z :=
  match (head_of rpc).2 with
  | None => 0
  | Some head =>
      match secondary with
      | None => confirmations head (Some b)
      | Some sec =>
          match (head_of sec).2 with
          | None => 0
          | Some sh => confirmations (Z.min head sh) (Some b)
          end
      end
  end.

Definition nim_observe_claim (v : NimHtlcVerifier) (tx_id : bytes) : ClaimObservation :=
  let hash := bytes_to_hex tx_id in
  let '(rpc, r) := get_transaction (nv_rpc v) hash in
  let block :=
    match r with
    | Ok None => Some None
    | Ok (Some tx) => if negb (eq_ignore_ascii_case (rt_hash tx) hash) then None else Some (Some (rt_block_number tx))
    | _ => None
    end in
  match block with
  | None => Unavailable
  | Some block =>
      let '(secondary, agreed) :=
        match nv_secondary v with
        | None => (None, true)
        | Some sec => let '(sec, ok) := claim_agreed sec hash block in (Some sec, ok)
        end in
      if negb agreed then Unavailable else
      match block with
      | None => NotFound
      | Some None => Included 0
      | Some (Some b) => Included (claim_depth rpc secondary b)
      end
  end.

#[export] Instance NimHtlcVerifier_verifier : FundingVerifier NimHtlcVerifier := {|
  observe := fun v expect => match x_leg expect with LegNim => observe_nim v expect | _ => Absent end;
  note_funding_wire := fun v leg wire =>
    match leg with
    | LegNim => mkNimVerifier (nv_rpc v) (nv_secondary v) (note_wire (nv_store v) wire) (nv_timeout_slack_s v)
                  (nv_network_id v) (nv_clock_ms v)
    | _ => v
    end;
  chain_backed := fun _ => true;
  observe_claim := fun v leg tx_id => match leg with LegNim => nim_observe_claim v tx_id | _ => Unavailable end
|}.
End verifier.
Arguments NimHtlcVerifier T : clear implicits.

(** ** What the endpoints say of a chain *)

(** A chain as far as the verifier is concerned: the block that includes a
    transaction, by the hex of its hash, and the height of the head. *)
Record NimChain : Type := mkNimChain {
  nc_block : str -> option Z;
  nc_head : Z
}.

(** Blocks are at heights up to the head. *)
Definition chain_wf (ch : NimChain) : Prop := forall h b, nc_block ch h = Some b -> 0 <= b <= nc_head ch.

Section honest.
Context {T : Type} `{RPC : GatewayRpc T}.

(** [P] is an honesty invariant of an endpoint over the chain: it reports a
    transaction as included only where the chain has it, never a head beyond the
    chain's, and stays honest after each call. *)
Record Honest (ch : NimChain) (P : T -> Prop) : Prop := {
  ho_tx : forall t hash, P t -> P (get_transaction t hash).1
    /\ forall tx b, (get_transaction t hash).2 = Ok (Some tx) ->
         eq_ignore_ascii_case (rt_hash tx) hash = true -> rt_block_number tx = Some b -> nc_block ch hash = Some b;
  ho_head : forall t, P t -> P (block_number t).1
    /\ forall h, (block_number t).2 = Ok h -> h <= nc_head ch
}.

(** One of the endpoints of a verifier is honest. *)
Definition some_honest (P : T -> Prop) (v : NimHtlcVerifier T) : Prop :=
  P (nv_rpc v) \/ exists sec, nv_secondary v = Some sec /\ P sec.

Lemma content_bound_honest ch P t hash :
  Honest ch P -> P t ->
  P (content_bound_block t hash).1
  /\ forall b, (content_bound_block t hash).2 = Some (Some b) -> nc_block ch hash = Some b.
Proof.
  intros H Ht. destruct (ho_tx _ _ H t hash Ht) as [Ht' Htx]. unfold content_bound_block.
  destruct (get_transaction t hash) as [t' r]. cbn in *. split; [exact Ht'|]. intros b Hb.
  destruct r as [[tx|]| |]; try discriminate.
  destruct (eq_ignore_ascii_case (rt_hash tx) hash) eqn:E; [|discriminate Hb].
  injection Hb as Hb. eauto.
Qed.

Lemma head_honest ch P t h : Honest ch P -> P t -> (head_of t).2 = Some h -> h <= nc_head ch.
Proof.
  intros H Ht. destruct (ho_head _ _ H t Ht) as [_ Hh]. unfold head_of.
  destruct (block_number t) as [t' r]. cbn in *. destruct r; intros [= <-]. auto.
Qed.

(** The depth read off a head no deeper than the chain's is no more than the depth
    on the chain. *)
Lemma depth_le ch head b h :
  chain_wf ch -> nc_block ch h = Some b -> head <= nc_head ch -> confirmations head (Some b) <= nc_head ch - b + 1.
Proof.
  intros Hw Hb Hh. specialize (Hw _ _ Hb). unfold confirmations, sat_add, sat_sub. lia.
Qed.

Lemma confirmations_pos head block : 1 <= confirmations head block -> exists b, block = Some b.
Proof. destruct block; [eauto | cbn; lia]. Qed.

Lemma confirmations_mono h h' block : h <= h' -> confirmations h block <= confirmations h' block.
Proof. destruct block; cbn; [|lia]. unfold sat_add, sat_sub. lia. Qed.

(** The cross-read passes a head that is no deeper than either endpoint's, and an
    agreed block. *)
Lemma cross_read_spec secondary hash block head k :
  cross_read secondary hash block head = Some k ->
  k <= head /\ forall sec, secondary = Some sec ->
    (content_bound_block sec hash).2 = Some block
    /\ exists sh, (head_of (content_bound_block sec hash).1).2 = Some sh /\ k <= sh.
Proof.
  unfold cross_read. destruct secondary as [sec|]; [|intros [= ->]; split; [lia | discriminate]].
  destruct (content_bound_block sec hash) as [sec' r] eqn:E. case_bool_decide as Hr; [|discriminate].
  destruct (head_of sec') as [s2 h] eqn:Eh. destruct h as [sh|]; [|discriminate]. intros [= <-].
  split; [lia|]. intros ? [= <-]. rewrite E. cbn. split; [exact Hr|]. rewrite Eh. cbn. exists sh. split; [reflexivity | lia].
Qed.
End honest.

(** ** The store *)

Section store.
Context `{C : Crypto} `{!CryptoLaws C}.

(** Every hint is filed under its own hashlock, in the shape of a cross-chain HTLC,
    with the address and hash of its transaction; there are at most 32. *)
Record store_ok (st : NimFundingStore) : Prop := {
  so_size : Z.of_nat (size st) <= MAX_STORE_ENTRIES;
  so_hint : forall h rec, st !! h = Some rec ->
    h = hd_hash_root (hc_data (nf_creation rec))
    /\ hd_hash_algorithm (hc_data (nf_creation rec)) = HaSha256 /\ hd_hash_count (hc_data (nf_creation rec)) = 1
    /\ nf_contract rec = contract_address (nf_creation rec)
    /\ nf_tx_hash_hex rec = bytes_to_hex (creation_hash (nf_creation rec))
}.

Lemma store_empty_ok : store_ok ∅.
Proof. constructor; [rewrite map_size_empty; vm_compute; congruence | intros h rec; rewrite lookup_empty; discriminate]. Qed.

Lemma note_wire_ok st wire : store_ok st -> store_ok (note_wire st wire).
Proof.
  intros [Hs Hh]. unfold note_wire. destruct (decode_creation_wire wire) as [[c|]| |]; [|now constructor..].
  repeat case_goal; try now constructor. bool_prop. unfold MAX_STORE_ENTRIES in *.
  assert (Hn : st !! hd_hash_root (hc_data c) = None) by now apply eq_None_not_Some.
  constructor.
  - rewrite map_size_insert, Hn. unfold MAX_STORE_ENTRIES. lia.
  - intros h rec. destruct (decide (h = hd_hash_root (hc_data c))) as [->|Hne].
    + rewrite lookup_insert_eq. intros [= <-]. cbn. auto.
    + rewrite lookup_insert_ne by congruence. apply Hh.
Qed.

(** The first hint for a hashlock stays. *)
Lemma note_wire_first st wire h rec : st !! h = Some rec -> note_wire st wire !! h = Some rec.
Proof.
  intros Hr. unfold note_wire. repeat case_goal; auto. bool_prop.
  rewrite lookup_insert_ne; [exact Hr|]. intros Heq.
  match goal with Hn : ~ is_Some _ |- _ => apply Hn end. rewrite Heq, Hr. eauto.
Qed.
End store.

(** ** Time *)

(** An observed timeout of at least the agreed one is the wall-clock floor. *)
Lemma term_floor timeout_ms now_ms anchor slack t :
  0 <= slack -> 0 <= anchor -> t <= term_equivalent_of_timeout_ms timeout_ms now_ms anchor slack ->
  0 < t - anchor - slack -> now_ms + 1000 * (t - anchor - slack) <= timeout_ms.
Proof.
  intros Hs Ha Ht Hp. unfold term_equivalent_of_timeout_ms, sat_add, sat_sub in Ht.
  assert (Hq : t - anchor - slack <= Z.max 0 (timeout_ms - now_ms) / 1000) by lia.
  pose proof (Z.mul_div_le (Z.max 0 (timeout_ms - now_ms)) 1000). lia.
Qed.

(** A funder that maps the agreed timeout at its clock is accepted by a verifier
    that looks at most the slack later. *)
Lemma honest_timeout_passes term anchor slack now_f now_v :
  anchor <= term -> 0 <= anchor -> 0 <= slack -> 0 <= now_f -> now_v <= now_f + 1000 * slack ->
  now_f + 1000 * term < 2 ^ 64 -> term + slack < 2 ^ 64 ->
  term <= term_equivalent_of_timeout_ms (nim_htlc_timeout_ms term anchor now_f) now_v anchor slack.
Proof.
  intros H1 H2 H3 H4 H5 H6 H7. unfold nim_htlc_timeout_ms, sat_mul. unfold sat_sub at 1.
  replace (Z.max 0 (term - anchor)) with (term - anchor) by lia.
  unfold sat_add at 1. rewrite !Z.min_r by lia. unfold term_equivalent_of_timeout_ms, sat_sub.
  set (x := Z.max 0 _). assert (Hx : (term - anchor - slack) * 1000 <= x /\ 0 <= x) by (subst x; lia).
  assert (Hq : term - anchor - slack <= x / 1000) by (apply Z.div_le_lower_bound; lia).
  unfold sat_add. lia.
Qed.

(** ** Soundness of the observations *)

Section sound.
Context `{C : Crypto} {T : Type} `{RPC : GatewayRpc T}.

(** A funding that is found: its hint, the agreed block and the heads. *)
Lemma observe_nim_found (v : NimHtlcVerifier T) x a t d :
  observe_nim v x = Found a t d ->
  exists rec block head k, nv_store v !! x_hashlock x = Some rec
    /\ let c := nf_creation rec in let hash := bytes_to_hex (creation_hash c) in
    hd_recipient (hc_data c) = x_recipient x /\ hc_network_id c = nv_network_id v
    /\ (content_bound_block (nv_rpc v) hash).2 = Some block
    /\ (head_of (content_bound_block (nv_rpc v) hash).1).2 = Some head
    /\ cross_read (nv_secondary v) hash block head = Some k
    /\ a = hc_value c /\ d = confirmations k block
    /\ t = term_equivalent_of_timeout_ms (hd_timeout (hc_data c)) (nv_clock_ms v) (x_term_anchor x) (nv_timeout_slack_s v).
Proof.
  unfold observe_nim. destruct (nv_store v !! x_hashlock x) as [rec|]; [|case_goal; discriminate].
  destruct (bool_decide _) eqn:Hr; [|discriminate]. destruct (hc_network_id _ =? _) eqn:Hn; [|discriminate]. cbn [negb].
  destruct (content_bound_block _ _) as [rpc r] eqn:Ec. destruct r as [block|]; [|discriminate].
  destruct (head_of rpc) as [rpc' h] eqn:Eh. destruct h as [head|]; [|discriminate].
  destruct (cross_read _ _ _ _) as [k|] eqn:Ek; [|discriminate]. destruct (_ && _); [discriminate|].
  intros [= <- <- <-]. bool_prop. exists rec, block, head, k. cbv zeta. rewrite Ec. cbn [fst snd]. rewrite Eh. auto 10.
Qed.

(** With one honest endpoint, agreed blocks are blocks of the chain. *)
Lemma agreed_on_chain ch P (v : NimHtlcVerifier T) hash block head k :
  Honest ch P -> some_honest P v -> chain_wf ch ->
  (content_bound_block (nv_rpc v) hash).2 = Some block ->
  (head_of (content_bound_block (nv_rpc v) hash).1).2 = Some head ->
  cross_read (nv_secondary v) hash block head = Some k -> 1 <= confirmations k block ->
  exists b, nc_block ch hash = Some b /\ confirmations k block <= nc_head ch - b + 1.
Proof.
  intros HP Hv Hw Hb Hh Hk Hc. destruct (confirmations_pos _ _ Hc) as [b ->]. exists b.
  destruct (cross_read_spec _ _ _ _ _ Hk) as [Hkh Hsec].
  destruct Hv as [Hp|(sec & Es & Hp)].
  - destruct (content_bound_honest _ _ _ hash HP Hp) as [Hp' Hblock]. specialize (Hblock _ Hb).
    pose proof (head_honest _ _ _ _ HP Hp' Hh). split; [exact Hblock|]. eapply depth_le; eauto. lia.
  - destruct (Hsec _ Es) as (Hb2 & sh & Hsh & Hks). destruct (content_bound_honest _ _ _ hash HP Hp) as [Hp' Hblock].
    specialize (Hblock _ Hb2). pose proof (head_honest _ _ _ _ HP Hp' Hsh).
    split; [exact Hblock|]. eapply depth_le; eauto. lia.
Qed.

Lemma get_tx_honest ch P (t : T) hash tx b :
  Honest ch P -> P t -> (get_transaction t hash).2 = Ok (Some tx) -> eq_ignore_ascii_case (rt_hash tx) hash = true ->
  rt_block_number tx = Some b -> nc_block ch hash = Some b.
Proof. intros H Ht. exact (proj2 (ho_tx _ _ H t hash Ht) tx b). Qed.

(** A claim that is seen included at some depth is on the chain at that depth. *)
Lemma claim_on_chain ch P (v : NimHtlcVerifier T) tx_id k :
  Honest ch P -> some_honest P v -> chain_wf ch -> nim_observe_claim v tx_id = Included k -> 1 <= k ->
  exists b, nc_block ch (bytes_to_hex tx_id) = Some b /\ k <= nc_head ch - b + 1.
Proof.
  intros HP Hv Hw. unfold nim_observe_claim. set (hash := bytes_to_hex tx_id).
  pose proof (fun t tx b => get_tx_honest ch P t hash tx b HP) as Htx.
  pose proof (fun t Ht => proj1 (ho_tx _ _ HP t hash Ht)) as Hkeep.
  destruct (get_transaction (nv_rpc v) hash) as [rpc r] eqn:Er. destruct r as [[tx|]| |]; try discriminate.
  2:{ destruct (nv_secondary v) as [sec|]; [destruct (claim_agreed _ _ _) as [? []]|]; discriminate. }
  destruct (eq_ignore_ascii_case (rt_hash tx) hash) eqn:Eh; [|discriminate]. cbn [negb].
  destruct (match nv_secondary v with Some sec => _ | None => _ end) as [secondary agreed] eqn:Es.
  destruct agreed; [|discriminate]. cbn [negb]. destruct (rt_block_number tx) as [b|] eqn:Eb; [|intros [= <-]; lia].
  intros [= <-] Hk. exists b. unfold claim_depth in *.
  destruct (head_of rpc).2 as [head|] eqn:Ehd; [|lia].
  assert (Hprim : P (nv_rpc v) -> nc_block ch hash = Some b /\ head <= nc_head ch).
  { intros Hp. split; [eapply (Htx (nv_rpc v) tx); rewrite ?Er; auto|].
    apply (head_honest ch P rpc); auto. specialize (Hkeep _ Hp). now rewrite Er in Hkeep. }
  unfold some_honest in Hv. destruct (nv_secondary v) as [sec|].
  - unfold claim_agreed in Es. destruct (get_transaction sec hash) as [sec' r2] eqn:Er2. injection Es as <- Ha.
    destruct (head_of sec').2 as [sh|] eqn:Esh; [|lia].
    assert (Hsec : P sec -> nc_block ch hash = Some b /\ sh <= nc_head ch).
    { intros Hp. destruct r2 as [[tx2|]| |]; try discriminate Ha. bool_prop. split.
      - eapply (Htx sec tx2); rewrite ?Er2; auto. congruence.
      - apply (head_honest ch P sec'); auto. specialize (Hkeep _ Hp). now rewrite Er2 in Hkeep. }
    destruct Hv as [Hp|(? & [= <-] & Hp)]; [destruct (Hprim Hp) as [Hb Hh] | destruct (Hsec Hp) as [Hb Hh]];
      (split; [exact Hb|]; eapply depth_le; eauto; lia).
  - injection Es as <-. destruct Hv as [Hp|(? & [=] & _)]. destruct (Hprim Hp) as [Hb Hh].
    split; [exact Hb|]. eapply depth_le; eauto.
Qed.
End sound.

(** ** Properties *)

Section properties.
Context `{C : Crypto} {T : Type} `{RPC : GatewayRpc T}.

(** C12: the funding gate of the NIM leg, on the chain.  Take a chain, and a verifier
    one of whose endpoints, primary or secondary, reports it honestly, whatever the
    other says.  If the gate passes a funding at a depth of one or more, then the
    chain includes, at least at that depth, the transaction that creates an HTLC
    under the agreed hashlock, by SHA-256, for the agreed recipient and network, of at
    least the agreed amount, whose timeout in milliseconds is past the agreed number
    of seconds from now less the slack.  And a claim that is seen included at a
    positive depth is included in the chain at that depth. *)
Theorem nim_funding_on_chain (ch : NimChain) (P : T -> Prop) (v : NimHtlcVerifier T)
    (Hch : chain_wf ch) (HP : Honest ch P) (Hv : some_honest P v) (Hst : store_ok (nv_store v)) :
  (forall x n d, 1 <= n -> require_funded (observe v x) x n = Ok d ->
     0 <= nv_timeout_slack_s v -> 0 <= x_term_anchor x ->
     exists c b, hd_hash_root (hc_data c) = x_hashlock x /\ hd_hash_algorithm (hc_data c) = HaSha256
       /\ hd_hash_count (hc_data c) = 1 /\ hd_recipient (hc_data c) = x_recipient x
       /\ hc_network_id c = nv_network_id v /\ x_min_amount x <= hc_value c
       /\ (let left := x_min_timeout x - x_term_anchor x - nv_timeout_slack_s v in
           0 < left -> nv_clock_ms v + 1000 * left <= hd_timeout (hc_data c))
       /\ nc_block ch (bytes_to_hex (creation_hash c)) = Some b /\ n <= nc_head ch - b + 1)
  /\ (forall tx_id k, observe_claim v LegNim tx_id = Included k -> 1 <= k ->
        exists b, nc_block ch (bytes_to_hex tx_id) = Some b /\ k <= nc_head ch - b + 1).
Proof.
  split; [|intros tx_id k Hk H1; exact (claim_on_chain ch P v tx_id k HP Hv Hch Hk H1)].
  intros x n d Hn (a & t & Ho & Ha & Ht & Hd)%require_funded_iff Hs Han. cbn [observe NimHtlcVerifier_verifier] in Ho.
  destruct (x_leg x); [|discriminate].
  destruct (observe_nim_found v x a t d Ho) as (rec & block & head & k & Hr & Hrec & Hnet & Hb & Hh & Hk & -> & -> & ->).
  destruct (so_hint _ Hst _ _ Hr) as (Hroot & Halg & Hcount & _).
  destruct (agreed_on_chain ch P v _ block head k HP Hv Hch Hb Hh Hk ltac:(lia)) as (b & Hblock & Hdepth).
  exists (nf_creation rec), b. split_and!; auto; [|lia]. intros left Hl. eapply term_floor; eauto.
Qed.
End properties.

(** ** A concrete chain: an honest secondary against a primary that inflates its head *)

Definition sample_creation : HtlcCreation :=
  mkCreation (replicate 20 1) (mkHtlcData (replicate 20 1) (replicate 20 2) HaSha256 (replicate 32 7) 1 5000000)
    70000 0 80 5.

Definition sample_hash : list Z := bytes_to_hex (creation_hash sample_creation).

Definition sample_endpoint (head : Z) : MockRpc :=
  mkMockRpc head None None [] {[ sample_hash := mkRpcTransaction sample_hash (Some 90) None ]} []
    {[ match to_user_friendly (contract_address sample_creation) with Ok s => s | _ => [] end
       := mkRpcAccount 70000 (chars "HTLC") None ]} [].

Definition sample_nim_chain : NimChain :=
  mkNimChain (fun h => if bool_decide (h = sample_hash) then Some 90 else None) 100.

Definition sample_verifier : NimHtlcVerifier MockRpc :=
  with_secondary (note_funding_wire (nim_verifier_new (sample_endpoint 1000000) ∅ 1000) LegNim
                    (creation_wire sample_creation []))
    (sample_endpoint 100).

Definition sample_expect : HtlcExpectation := mkExpect LegNim (replicate 32 7) 70000 4000 (replicate 20 2) 100.

Lemma sample_honest : Honest sample_nim_chain (fun m => m = sample_endpoint 100).
Proof.
  split; intros t; [intros hash|]; intros ->; (split; [reflexivity|]);
    cbn [get_transaction block_number MockRpc_rpc fst snd transient_guard mr_transient mr_txs mr_head sample_endpoint
         nc_block nc_head sample_nim_chain].
  - intros tx b. case_bool_decide as E.
    + rewrite E, lookup_singleton_eq. intros [= <-] _ H. exact H.
    + rewrite lookup_singleton_ne by congruence. discriminate.
  - intros h [= <-]. lia.
Qed.

Lemma nim_funding_on_chain_witness :
  require_funded (observe sample_verifier sample_expect) sample_expect 10 = Ok 11
  /\ exists c b, hd_hash_root (hc_data c) = x_hashlock sample_expect
       /\ nc_block sample_nim_chain (bytes_to_hex (creation_hash c)) = Some b
       /\ 10 <= nc_head sample_nim_chain - b + 1.
Proof.
  assert (Hf : require_funded (observe sample_verifier sample_expect) sample_expect 10 = Ok 11)
    by (vm_compute; reflexivity).
  assert (Hw : chain_wf sample_nim_chain).
  { intros h b. cbn. case_bool_decide; [intros [= <-]; lia | discriminate]. }
  assert (Hs : store_ok (nv_store sample_verifier)) by (apply note_wire_ok, store_empty_ok).
  split; [exact Hf|].
  destruct (proj1 (nim_funding_on_chain sample_nim_chain _ sample_verifier Hw sample_honest
                     (or_intror (ex_intro _ _ (conj eq_refl eq_refl))) Hs)
              sample_expect 10 11 ltac:(lia) Hf ltac:(vm_compute; congruence) ltac:(vm_compute; congruence))
    as (c & b & Hc & _ & _ & _ & _ & _ & _ & Hb & Hd).
  exists c, b. auto.
Defined.
