(* ===== verification/BtcVerifier.v ===== *)
(** * BtcVerifier: the funding gate of the Bitcoin leg ([btc_verifier.rs])

    The verifier watches one script on one or two indexers.  A reads source is any
    instance of [BitcoinReads]; an observation takes its answers at one moment. *)

From stdpp Require Import base list strings.
From Stdlib Require Import ZArith Lia.
From S2P Require Import Prelude Packet SwapWire SwapIntent FundingVerify Address Gateway.
Open Scope Z_scope.

Inductive BtcReadsError : Type :=
| BtcBadBase (url : str)
| BtcTransport (reason : str)
| BtcParse (reason : str).

Record BtcOutpoint : Type := mkOutpoint { bo_txid : str; bo_vout : Z }.

#[export] Instance BtcOutpoint_eq_dec : EqDecision BtcOutpoint.
Proof. solve_decision. Defined.

Record BtcTxOut : Type := mkTxOut { to_scriptpubkey : bytes; to_value_sat : Z }.

Record BtcAddressTx : Type := mkAddressTx {
  at_txid : str;
  at_spends : list BtcOutpoint;
  at_outputs : list BtcTxOut
}.

Record BtcTxStatus : Type := mkTxStatus { ts_confirmed : bool; ts_block_height : option Z }.

Class BitcoinReads (R : Type) : Type := {
  address_txs : R -> str -> res BtcReadsError (list BtcAddressTx);
  tx_status : R -> str -> res BtcReadsError BtcTxStatus;
  tip_height : R -> res BtcReadsError Z
}.

(** The indexing is guarded by the length. *)
Definition is_p2wsh (spk : bytes) : bool :=
  match spk with
  | b0 :: b1 :: _ => (len spk =? 34) && (b0 =? 0) && (b1 =? 0x20)
  | _ => false
  end.

Section verifier.
Context {R : Type} `{BR : BitcoinReads R}.

Record BtcHtlcVerifier : Type := mkBtcVerifier {
  bv_reads : R;
  bv_secondary : option R;
  bv_expected_spk : bytes;
  bv_expected_addr : str;
  bv_hashlock : bytes;
  bv_cltv_locktime : Z
}.

Definition btc_verifier_new (reads : R) (expected_spk : bytes) (expected_addr : str) (hashlock : bytes)
    (cltv_locktime : Z) : BtcHtlcVerifier :=
  mkBtcVerifier reads None expected_spk expected_addr hashlock cltv_locktime.

Definition btc_with_secondary (v : BtcHtlcVerifier) (secondary : R) : BtcHtlcVerifier :=
  mkBtcVerifier (bv_reads v) (Some secondary) (bv_expected_spk v) (bv_expected_addr v) (bv_hashlock v)
    (bv_cltv_locktime v).

(** The inner loop: the first output with the script, if none was found before,
    and whether an output has another P2WSH script. *)
Fixpoint scan_outputs (spk : bytes) (txid : str) (i : Z) (outs : list BtcTxOut)
    (acc : option (str * Z * Z) * bool) : option (str * Z * Z) * bool :=
  match outs with
  | [] => acc
  | o :: outs =>
      let '(funding, wrong) := acc in
      let acc :=
        if bool_decide (to_scriptpubkey o = spk) then
          match funding with None => (Some (txid, wrapN 32 i, to_value_sat o), wrong) | Some _ => acc end
        else if is_p2wsh (to_scriptpubkey o) then (funding, true) else acc in
      scan_outputs spk txid (i + 1) outs acc
  end.

Definition scan_txs (spk : bytes) (txs : list BtcAddressTx) : option (str * Z * Z) * bool :=
  foldl (fun acc tx => scan_outputs spk (at_txid tx) 0 (at_outputs tx) acc) (None, false) txs.

Definition is_spent (txs : list BtcAddressTx) (txid : str) (vout : Z) : bool :=
  existsb (fun tx => existsb (fun o => bool_decide (o = mkOutpoint txid vout)) (at_spends tx)) txs.

(** [Ok(BtcTxStatus { confirmed: true, block_height: Some(h) })] *)
Definition confirmed_at (s : BtcTxStatus) : option Z :=
  if ts_confirmed s then ts_block_height s else None.

(** The cross-read of the secondary; [None] is disagreement or an error. *)
Definition btc_cross_read (secondary : option R) (txid : str) (block tip : Z) : option Z :=
  match secondary with
  | None => Some tip
  | Some sec =>
      match tx_status sec txid with
      | Ok s =>
          if bool_decide (confirmed_at s = Some block) then
            match tip_height sec with Ok st => Some (Z.min tip st) | _ => None end
          else None
      | _ => None
      end
  end.

(** [u32::try_from(depth).unwrap_or(u32::MAX)] *)
Definition clamp_u32 (n : Z) : Z := if n <? 2 ^ 32 then n else 2 ^ 32 - 1.

Definition observe_btc (v : BtcHtlcVerifier) (expect : HtlcExpectation) : FundingObservation :=
  if negb (bool_decide (bv_hashlock v = x_hashlock expect)) then Absent else
  match address_txs (bv_reads v) (bv_expected_addr v) with
  | Ok txs =>
      match scan_txs (bv_expected_spk v) txs with
      | (None, true) => Mismatch MmRecipient
      | (None, false) => Absent
      | (Some (txid, vout, value), _) =>
          if is_spent txs txid vout then Absent else
          match tx_status (bv_reads v) txid with
          | Ok s =>
              match confirmed_at s with
              | None => Found value (bv_cltv_locktime v) 0
              | Some block =>
                  match tip_height (bv_reads v) with
                  | Ok tip =>
                      match btc_cross_read (bv_secondary v) txid block tip with
                      | Some tip => Found value (bv_cltv_locktime v) (clamp_u32 (sat_add 64 (sat_sub tip block) 1))
                      | None => Absent
                      end
                  | _ => Absent
                  end
              end
          | _ => Absent
          end
      end
  | _ => Absent
  end.

#[export] Instance BtcHtlcVerifier_verifier : FundingVerifier BtcHtlcVerifier := {|
  observe := fun v expect => match x_leg expect with LegCounterparty => observe_btc v expect | _ => Absent end;
  note_funding_wire := fun v _ _ => v;
  chain_backed := fun _ => false;
  observe_claim := fun _ _ _ => Unavailable
|}.
End verifier.
Arguments BtcHtlcVerifier R : clear implicits.

(** ** What an indexer says of a chain *)

(** The transactions of a chain, with the height of those in a block, and the tip. *)
Record BtcChain : Type := mkBtcChain {
  bc_txs : list (BtcAddressTx * option Z);
  bc_tip : Z
}.

(** Ids are unique (a transaction id is a hash of the transaction), and blocks are up
    to the tip. *)
Record btc_chain_wf (ch : BtcChain) : Prop := {
  bw_unique : forall t u h k, (t, h) ∈ bc_txs ch -> (u, k) ∈ bc_txs ch -> at_txid t = at_txid u -> t = u /\ h = k;
  bw_height : forall t h, (t, Some h) ∈ bc_txs ch -> 0 <= h <= bc_tip ch
}.

Section honest.
Context {R : Type} `{BR : BitcoinReads R}.

(** An indexer that reports the chain, where [script_of] is the script an address stands
    for.  It lists transactions of the chain.  The history of an address is the
    transactions with an output that pays it and those that spend such an output, newest
    first, so a page that shows an output to the address shows the transaction that spends
    it.  A status is the chain's, and the tip is not beyond the chain's. *)
Record BtcHonest (ch : BtcChain) (script_of : str -> bytes) (r : R) : Prop := {
  bh_txs : forall addr txs t, address_txs r addr = Ok txs -> t ∈ txs -> exists h, (t, h) ∈ bc_txs ch;
  bh_spends : forall addr txs t i value u h, address_txs r addr = Ok txs -> t ∈ txs ->
    at_outputs t !! i = Some (mkTxOut (script_of addr) value) -> (u, h) ∈ bc_txs ch ->
    mkOutpoint (at_txid t) (wrapN 32 (Z.of_nat i)) ∈ at_spends u -> u ∈ txs;
  bh_status : forall txid s h, tx_status r txid = Ok s -> confirmed_at s = Some h ->
    exists t, (t, Some h) ∈ bc_txs ch /\ at_txid t = txid;
  bh_tip : forall t, tip_height r = Ok t -> t <= bc_tip ch
}.

(** An output of the chain that pays a script and is not spent. *)
Definition unspent_output (ch : BtcChain) (spk : bytes) (value h : Z) : Prop :=
  exists t i, (t, Some h) ∈ bc_txs ch /\ at_outputs t !! i = Some (mkTxOut spk value)
    /\ forall u k, (u, k) ∈ bc_txs ch -> mkOutpoint (at_txid t) (wrapN 32 (Z.of_nat i)) ∉ at_spends u.

(** What the scan finds is an output with the script of a listed transaction. *)
Definition found_in (spk : bytes) (txs : list BtcAddressTx) (f : option (str * Z * Z)) : Prop :=
  forall txid vout value, f = Some (txid, vout, value) ->
  exists t i, t ∈ txs /\ at_txid t = txid /\ vout = wrapN 32 (Z.of_nat i)
    /\ at_outputs t !! i = Some (mkTxOut spk value).

Lemma scan_outputs_found spk t txs i acc :
  t ∈ txs -> found_in spk txs acc.1 ->
  found_in spk txs (scan_outputs spk (at_txid t) (Z.of_nat i) (drop i (at_outputs t)) acc).1.
Proof.
  intros Ht. remember (drop i (at_outputs t)) as outs eqn:E. revert i acc E.
  induction outs as [|o outs IH]; intros i acc E Ha; [exact Ha|]. cbn [scan_outputs]. destruct acc as [f w].
  assert (Ho : at_outputs t !! i = Some o).
  { rewrite <- (Nat.add_0_r i), <- lookup_drop, <- E. reflexivity. }
  assert (Er : outs = drop (S i) (at_outputs t)).
  { rewrite (drop_S _ o) in E by exact Ho. congruence. }
  replace (Z.of_nat i + 1) with (Z.of_nat (S i)) by lia. apply IH; [exact Er|].
  case_bool_decide as Es; [|case_goal; exact Ha]. destruct f as [f|]; [exact Ha|].
  intros txid vout value [= <- <- <-]. exists t, i. destruct o as [s v]. cbn in Es. subst. auto.
Qed.

Lemma scan_txs_found spk txs : found_in spk txs (scan_txs spk txs).1.
Proof.
  unfold scan_txs. assert (H : forall l acc, l ⊆ txs -> found_in spk txs acc.1 ->
    found_in spk txs (foldl (fun acc tx => scan_outputs spk (at_txid tx) 0 (at_outputs tx) acc) acc l).1).
  { induction l as [|t l IH]; intros acc Hl Ha; [exact Ha|]. cbn [foldl]. apply IH.
    - intros u Hu. apply Hl. now right.
    - apply (scan_outputs_found spk t txs 0 acc); [apply Hl; now left | exact Ha]. }
  apply H; [auto | intros ? ? ? [=]].
Qed.

Lemma is_spent_false txs txid vout u : is_spent txs txid vout = false -> u ∈ txs -> mkOutpoint txid vout ∉ at_spends u.
Proof.
  unfold is_spent. intros H Hu Ho.
  assert (Ht : existsb (fun tx => existsb (fun o => bool_decide (o = mkOutpoint txid vout)) (at_spends tx)) txs = true).
  { apply existsb_exists. exists u. split; [now apply list_elem_of_In|]. apply existsb_exists.
    exists (mkOutpoint txid vout). split; [now apply list_elem_of_In | now apply bool_decide_eq_true]. }
  congruence.
Qed.

Lemma clamp_le n : clamp_u32 n <= Z.max 0 n.
Proof. unfold clamp_u32. case_goal; bool_prop; lia. Qed.
End honest.

(** ** A reads source given by its answers, and one that reports a chain *)

Record BtcAnswers : Type := mkAnswers {
  an_txs : list BtcAddressTx;
  an_status : str -> BtcTxStatus;
  an_tip : Z
}.

#[export] Instance BtcAnswers_reads : BitcoinReads BtcAnswers := {|
  address_txs := fun a _ => Ok (an_txs a);
  tx_status := fun a txid => Ok (an_status a txid);
  tip_height := fun a => Ok (an_tip a)
|}.

Definition height_of (ch : BtcChain) (txid : str) : option Z :=
  match List.find (fun p => bool_decide (at_txid p.1 = txid)) (bc_txs ch) with
  | Some (_, h) => h
  | None => None
  end.

Definition indexer (ch : BtcChain) : BtcAnswers :=
  mkAnswers (map fst (bc_txs ch)) (fun txid => mkTxStatus true (height_of ch txid)) (bc_tip ch).

Lemma height_of_spec ch t h : btc_chain_wf ch -> (t, h) ∈ bc_txs ch -> height_of ch (at_txid t) = h.
Proof.
  intros Hw Hin. unfold height_of. destruct (List.find _ _) as [[u k]|] eqn:E.
  - apply List.find_some in E as [Hu E]. bool_prop. apply list_elem_of_In in Hu.
    now destruct (bw_unique _ Hw _ _ _ _ Hu Hin E).
  - apply (List.find_none _ _) with (x := (t, h)) in E; [|now apply list_elem_of_In].
    cbn in E. bool_prop. congruence.
Qed.

Lemma indexer_honest ch script_of : BtcHonest ch script_of (indexer ch).
Proof.
  split; cbn.
  - intros _ txs t [= <-] ((u, h) & -> & Hin)%list_elem_of_fmap. eauto.
  - intros _ txs t i value u h [= <-] _ _ Hu _. apply list_elem_of_fmap. exists (u, h). auto.
  - intros txid s h [= <-]. unfold confirmed_at. cbn. unfold height_of.
    destruct (List.find _ _) as [[u k]|] eqn:E; [|discriminate]. intros ->.
    apply List.find_some in E as [Hu E]. bool_prop. apply list_elem_of_In in Hu. eauto.
  - intros t [= <-]. lia.
Qed.

(** ** Properties *)

(** The gate of the Bitcoin leg with an honest primary.  A funding found at a
    positive depth is an output of the chain with exactly the watched script and the
    reported amount, unspent, and at least that deep. *)
Theorem btc_funding_on_chain {R : Type} `{BR : BitcoinReads R} (ch : BtcChain) (script_of : str -> bytes) (v : BtcHtlcVerifier R)
    (x : HtlcExpectation) (a t d : Z) (Hw : btc_chain_wf ch) (Hh : BtcHonest ch script_of (bv_reads v))
    (Haddr : script_of (bv_expected_addr v) = bv_expected_spk v)
    (Ho : observe v x = Found a t d) (Hd : 1 <= d) :
  bv_hashlock v = x_hashlock x /\ t = bv_cltv_locktime v
  /\ exists h, unspent_output ch (bv_expected_spk v) a h /\ d <= bc_tip ch - h + 1.
Proof.
  cbn [observe BtcHtlcVerifier_verifier] in Ho. destruct (x_leg x); [discriminate|]. unfold observe_btc in Ho.
  case_bool_decide as Hl; [|discriminate]. cbn [negb] in Ho.
  destruct (address_txs _ _) as [txs| |] eqn:Et; try discriminate.
  pose proof (scan_txs_found (bv_expected_spk v) txs) as Hf.
  destruct (scan_txs _ _) as [[[[txid vout] value]|] []]; try discriminate; cbn [fst] in Hf;
    (destruct (is_spent _ _ _) eqn:Es; [discriminate|]; destruct (tx_status _ _) as [s| |] eqn:Est; try discriminate;
     destruct (confirmed_at s) as [block|] eqn:Ec; [|injection Ho as _ _ <-; lia];
     destruct (tip_height _) as [tip| |] eqn:Etip; try discriminate;
     destruct (btc_cross_read _ _ _ _) as [tip'|] eqn:Ecr; [|discriminate]; injection Ho as <- <- <-;
     split; [exact Hl|]; split; [reflexivity|]; exists block;
     destruct (Hf _ _ _ eq_refl) as (tx & i & Htx & <- & -> & Hout);
     destruct (bh_status _ _ _ Hh _ _ _ Est Ec) as (tx' & Hin & Hid);
     destruct (bh_txs _ _ _ Hh _ _ _ Et Htx) as (k & Hin2);
     destruct (bw_unique _ Hw _ _ _ _ Hin Hin2 Hid) as [-> <-];
     split; [exists tx, i; split_and!; [exact Hin | exact Hout|]; intros u k Hu Hsp;
             apply (is_spent_false _ _ _ u Es); [|exact Hsp]; eapply (bh_spends _ _ _ Hh); rewrite ?Haddr; eauto
            |]).
  all: pose proof (bw_height _ Hw _ _ Hin); pose proof (bh_tip _ _ _ Hh _ Etip).
  all: assert (tip' <= tip) by (unfold btc_cross_read in Ecr; run Ecr; lia).
  all: pose proof (clamp_le (sat_add 64 (sat_sub tip' block) 1)); unfold sat_add, sat_sub in *; lia.
Qed.

(** The cross-read of the Bitcoin leg does not bind the output.  The module
    says that with an independent secondary a single lying indexer can no longer
    fake a deep funding.  The secondary is asked for the height of a transaction id
    and for its tip, but what that transaction pays comes from the primary alone:
    for every chain, every confirmed transaction of it, every script and every
    amount, some primary makes a verifier with a secondary that reports the chain
    truthfully find the amount on the script, as deep as that transaction is. *)
Theorem btc_liar_fakes_funding (ch : BtcChain) (t : BtcAddressTx) (h : Z) (spk : bytes) (addr : str)
    (amount cltv : Z) (x : HtlcExpectation)
    (Hw : btc_chain_wf ch) (Hin : (t, Some h) ∈ bc_txs ch) (Htip : bc_tip ch < 2 ^ 32 - 1)
    (Hx : x_leg x = LegCounterparty) :
  (forall script_of, BtcHonest ch script_of (indexer ch))
  /\ exists liar,
       observe (btc_with_secondary (btc_verifier_new liar spk addr (x_hashlock x) cltv) (indexer ch)) x
       = Found amount cltv (bc_tip ch - h + 1).
Proof.
  split; [intros script_of; apply indexer_honest|].
  exists (mkAnswers [mkAddressTx (at_txid t) [] [mkTxOut spk amount]] (an_status (indexer ch)) (bc_tip ch)).
  pose proof (bw_height _ Hw _ _ Hin) as Hh.
  cbn [observe BtcHtlcVerifier_verifier]. rewrite Hx. unfold observe_btc, btc_with_secondary, btc_verifier_new.
  cbn [bv_hashlock bv_reads bv_expected_addr bv_expected_spk bv_secondary bv_cltv_locktime].
  rewrite bool_decide_true by reflexivity. cbn [negb address_txs tx_status tip_height BtcAnswers_reads an_txs an_tip an_status indexer].
  unfold scan_txs. cbn [foldl scan_outputs at_txid at_outputs to_scriptpubkey to_value_sat].
  rewrite bool_decide_true by reflexivity. cbn [is_spent existsb at_spends].
  unfold btc_cross_read. cbn [tx_status tip_height BtcAnswers_reads an_status an_tip indexer].
  unfold confirmed_at. cbn [ts_confirmed ts_block_height]. rewrite (height_of_spec _ _ _ Hw Hin).
  rewrite bool_decide_true by reflexivity. rewrite Z.min_id. f_equal.
  unfold sat_add, sat_sub. rewrite Z.max_r, Z.min_r by lia. unfold clamp_u32.
  destruct (Z.ltb_spec (bc_tip ch - h + 1) (2 ^ 32)); lia.
Qed.

(** A chain whose one transaction pays another script. *)
Definition sample_btc_chain : BtcChain :=
  mkBtcChain [(mkAddressTx [97] [] [mkTxOut [1] 5], Some 10)] 15.

Lemma btc_liar_fakes_funding_witness :
  (forall value h, ~ unspent_output sample_btc_chain [2] value h)
  /\ exists liar,
       observe (btc_with_secondary (btc_verifier_new liar [2] [98] (replicate 32 7) 1000) (indexer sample_btc_chain))
         (mkExpect LegCounterparty (replicate 32 7) 50000 1000 [3] 0)
       = Found 50000 1000 6.
Proof.
  split.
  - intros value h (t & i & Ht & Ho & _). cbn in Ht. apply list_elem_of_singleton in Ht. injection Ht as -> _.
    destruct i as [|[|i]]; discriminate.
  - assert (Hw : btc_chain_wf sample_btc_chain).
    { split; [intros t u h k|intros t h]; cbn; rewrite !list_elem_of_singleton; [intros [= -> ->] [= -> ->]; auto|].
      intros [= _ ->]. lia. }
    exact (proj2 (btc_liar_fakes_funding sample_btc_chain (mkAddressTx [97] [] [mkTxOut [1] 5]) 10 [2] [98] 50000 1000
      (mkExpect LegCounterparty (replicate 32 7) 50000 1000 [3] 0) Hw ltac:(cbn; now left) ltac:(cbn; lia) eq_refl)).
Defined.
