(* ===== verification/Evm.v ===== *)
(** * Evm: what a wallet signs and sends on Polygon ([evm.rs], [evm_rlp.rs],
    [evm_abi.rs], [evm_permit.rs], [evm_forward.rs])

    The RLP encoder with the EIP-155 legacy transaction, the ABI calldata of the
    token and escrow calls, and the two EIP-712 digests.  Keccak-256 and the
    secp256k1 signer are third-party crates: the classes [Keccak] and [EvmSigner]. *)

From stdpp Require Import base list strings sets.
From Stdlib Require Import ZArith Lia.
From S2P Require Import Prelude Packet Crypto Address Gateway.
Open Scope Z_scope.

(** ** Primitives ([evm.rs]) *)

Class Keccak : Type := { keccak256 : bytes -> bytes }.

(** The digest has 32 bytes. *)
Class KeccakLaws (K : Keccak) : Prop := { keccak256_ok x : array_ok 32 (keccak256 x) }.

(** A concrete digest: the message as a number, modulo a prime. *)
#[export] Instance ToyKeccak : Keccak := {| keccak256 := fun x => be_bytes 32 (from_be (1 :: x) mod (2 ^ 255 - 19)) |}.

#[export] Instance ToyKeccakLaws : KeccakLaws ToyKeccak.
Proof. split. intros x. split; [apply len_be_bytes | apply be_bytes_ok]. Qed.

(** [EvmSigner::sign_hash]: [r], [s] and the recovery id *)
Class EvmSigner (S : Type) : Type := { sign_hash : S -> bytes -> bytes * bytes * Z }.

Section primitives.
Context `{K : Keccak}.

Definition evm_address (pubkey : bytes) : bytes := drop 12 (keccak256 pubkey).

Definition function_selector (signature : str) : bytes := take 4 (keccak256 (as_bytes signature)).
End primitives.

(** ** RLP ([evm_rlp.rs]) *)

Definition POLYGON_AMOY_CHAIN_ID : Z := 80002.
Definition POLYGON_MAINNET_CHAIN_ID : Z := 137.

(** [&b[first..]], with [first] the position of the first byte that is not zero *)
Fixpoint strip_zeros (b : bytes) : bytes :=
  match b with
  | 0 :: b => strip_zeros b
  | _ => b
  end.

Definition minimal_be (v : Z) : bytes := if v =? 0 then [] else strip_zeros (be_bytes 8 v).

(** The sums stay below 256: the offset is at most [0xc0], a length has at most eight
    bytes. *)
Definition rlp_length (n offset : Z) : bytes :=
  if n <? 56 then [offset + n]
  else let len_be := minimal_be n in (offset + 55 + len len_be) :: len_be.

Definition rlp_bytes (data : bytes) : bytes :=
  match data with
  | [b] => if b <? 0x80 then [b] else rlp_length (len data) 0x80 ++ data
  | _ => rlp_length (len data) 0x80 ++ data
  end.

Definition rlp_list (items : list bytes) : bytes :=
  rlp_length (foldr (fun item n => len item + n) 0 items) 0xc0 ++ concat items.

Definition rlp_u64 (v : Z) : bytes := rlp_bytes (minimal_be v).

Definition rlp_int (be : bytes) : bytes := rlp_bytes (strip_zeros be).

(** In [u64]; a build with overflow checks panics where this wraps. *)
Definition eip155_v (recovery_id chain_id : Z) : Z := wrapN 64 (recovery_id + chain_id * 2 + 35).

Record LegacyTx : Type := mkLegacyTx {
  lt_nonce : Z;
  lt_gas_price : Z;
  lt_gas_limit : Z;
  lt_to : bytes;
  lt_value : Z;
  lt_data : bytes;
  lt_chain_id : Z
}.

Definition polygon_amoy (nonce gas_price gas_limit : Z) (to : bytes) (value : Z) (data : bytes) : LegacyTx :=
  mkLegacyTx nonce gas_price gas_limit to value data POLYGON_AMOY_CHAIN_ID.

Definition polygon_mainnet (nonce gas_price gas_limit : Z) (to : bytes) (value : Z) (data : bytes) : LegacyTx :=
  mkLegacyTx nonce gas_price gas_limit to value data POLYGON_MAINNET_CHAIN_ID.

Definition signing_rlp (t : LegacyTx) : bytes :=
  rlp_list [rlp_u64 (lt_nonce t); rlp_u64 (lt_gas_price t); rlp_u64 (lt_gas_limit t); rlp_bytes (lt_to t);
            rlp_u64 (lt_value t); rlp_bytes (lt_data t); rlp_u64 (lt_chain_id t); rlp_u64 0; rlp_u64 0].

Definition signed_tx_rlp (t : LegacyTx) (r s : bytes) (recovery_id : Z) : bytes :=
  rlp_list [rlp_u64 (lt_nonce t); rlp_u64 (lt_gas_price t); rlp_u64 (lt_gas_limit t); rlp_bytes (lt_to t);
            rlp_u64 (lt_value t); rlp_bytes (lt_data t); rlp_u64 (eip155_v recovery_id (lt_chain_id t));
            rlp_int r; rlp_int s].

Definition signing_hash `{K : Keccak} (t : LegacyTx) : bytes := keccak256 (signing_rlp t).

Definition sign_with `{K : Keccak} {S : Type} `{EvmSigner S} (t : LegacyTx) (signer : S) : bytes :=
  let '(r, s, recovery_id) := sign_hash signer (signing_hash t) in
  signed_tx_rlp t r s recovery_id.

(** ** ABI calldata ([evm_abi.rs]) *)

Definition WORD : Z := 32.

Definition word_u256 (v : Z) : bytes := replicate 24 0 ++ be_bytes 8 v.

Definition word_address (addr : bytes) : bytes := replicate 12 0 ++ addr.

Section calldata.
Context `{K : Keccak}.

Definition calldata (signature : str) : bytes := function_selector signature.

Definition erc20_approve (spender : bytes) (amount : Z) : bytes :=
  calldata (chars "approve(address,uint256)") ++ word_address spender ++ word_u256 amount.

Definition erc20_transfer (to : bytes) (amount : Z) : bytes :=
  calldata (chars "transfer(address,uint256)") ++ word_address to ++ word_u256 amount.

Definition erc20_transfer_from (from to : bytes) (amount : Z) : bytes :=
  calldata (chars "transferFrom(address,address,uint256)")
  ++ word_address from ++ word_address to ++ word_u256 amount.

Definition htlc_new_swap (receiver : bytes) (amount : Z) (hashlock : bytes) (timelock : Z) : bytes :=
  calldata (chars "newSwap(address,uint256,bytes32,uint256)")
  ++ word_address receiver ++ word_u256 amount ++ hashlock ++ word_u256 timelock.

Definition htlc_withdraw (swap_id secret : bytes) : bytes :=
  calldata (chars "withdraw(bytes32,bytes32)") ++ swap_id ++ secret.

Definition htlc_refund (swap_id : bytes) : bytes := calldata (chars "refund(bytes32)") ++ swap_id.

Definition htlc_new_swap_with_permit (receiver : bytes) (amount : Z) (hashlock : bytes)
    (timelock deadline v : Z) (r s : bytes) : bytes :=
  calldata (chars "newSwapWithPermit(address,uint256,bytes32,uint256,uint256,uint8,bytes32,bytes32)")
  ++ word_address receiver ++ word_u256 amount ++ hashlock ++ word_u256 timelock ++ word_u256 deadline
  ++ word_u256 v ++ r ++ s.

Definition erc20_domain_separator : bytes := calldata (chars "DOMAIN_SEPARATOR()").

Definition erc20_nonces (owner : bytes) : bytes := calldata (chars "nonces(address)") ++ word_address owner.

Definition erc20_balance_of (owner : bytes) : bytes :=
  calldata (chars "balanceOf(address)") ++ word_address owner.

(** ** EIP-712 digests ([evm_permit.rs], [evm_forward.rs]) *)

Definition permit_typehash : bytes :=
  keccak256 (chars "Permit(address owner,address spender,uint256 value,uint256 nonce,uint256 deadline)").

Definition eip712_domain_typehash : bytes :=
  keccak256 (chars "EIP712Domain(string name,string version,uint256 chainId,address verifyingContract)").

Definition eip712_domain_separator (name version : str) (chain_id : Z) (verifying_contract : bytes) : bytes :=
  keccak256 (eip712_domain_typehash ++ keccak256 (as_bytes name) ++ keccak256 (as_bytes version)
             ++ word_u256 chain_id ++ word_address verifying_contract).

Definition permit_digest (domain_separator owner spender : bytes) (value nonce deadline : Z) : bytes :=
  let struct_hash := keccak256 (permit_typehash ++ word_address owner ++ word_address spender
    ++ word_u256 value ++ word_u256 nonce ++ word_u256 deadline) in
  keccak256 ([0x19; 0x01] ++ domain_separator ++ struct_hash).

(** In [u8], for a recovery id of 0 or 1. *)
Definition permit_sig_v (recovery_id : Z) : Z := wrapN 8 (27 + recovery_id).

Definition forward_request_typehash : bytes :=
  keccak256 (chars
    "ForwardRequest(address from,address to,uint256 value,uint256 gas,uint256 nonce,uint256 deadline,bytes data)").

Definition forward_request_digest (domain_separator from to : bytes) (value gas nonce deadline : Z)
    (data : bytes) : bytes :=
  let struct_hash := keccak256 (forward_request_typehash ++ word_address from ++ word_address to
    ++ word_u256 value ++ word_u256 gas ++ word_u256 nonce ++ word_u256 deadline ++ keccak256 data) in
  keccak256 ([0x19; 0x01] ++ domain_separator ++ struct_hash).

Definition forwarder_execute (from to : bytes) (value gas nonce deadline : Z) (data : bytes) (v : Z)
    (r s : bytes) : bytes :=
  let padded := (len data + (WORD - 1)) / WORD * WORD in
  function_selector (chars
    "execute((address,address,uint256,uint256,uint256,uint256,bytes),uint8,bytes32,bytes32)")
  ++ word_u256 (4 * WORD) ++ word_u256 v ++ r ++ s
  ++ word_address from ++ word_address to ++ word_u256 value ++ word_u256 gas ++ word_u256 nonce
  ++ word_u256 deadline ++ word_u256 (7 * WORD)
  ++ word_u256 (len data) ++ data ++ replicate (Z.to_nat (padded - len data)) 0.
End calldata.

(** ** RLP is a prefix code *)

Lemma strip_zeros_cons b l : strip_zeros (b :: l) = if b =? 0 then strip_zeros l else b :: l.
Proof. now destruct b. Qed.

Lemma from_be_strip b : from_be (strip_zeros b) = from_be b.
Proof.
  induction b as [|x b IH]; [reflexivity|]. rewrite strip_zeros_cons.
  destruct (Z.eqb_spec x 0) as [->|]; [|reflexivity]. rewrite IH, from_be_cons. lia.
Qed.

Lemma strip_zeros_len b : len (strip_zeros b) <= len b.
Proof.
  induction b as [|x b IH]; [reflexivity|]. rewrite strip_zeros_cons. case_goal; len_simpl; lia.
Qed.

Lemma strip_zeros_inj a b : bytes_ok a -> bytes_ok b -> length a = length b -> strip_zeros a = strip_zeros b -> a = b.
Proof.
  intros Ha Hb Hl E. rewrite <- (be_bytes_from_be a Ha), <- (be_bytes_from_be b Hb), Hl.
  now rewrite <- (from_be_strip a), <- (from_be_strip b), E.
Qed.

Lemma from_be_minimal v : uN 64 v -> from_be (minimal_be v) = v.
Proof.
  intros Hv. unfold minimal_be. destruct (Z.eqb_spec v 0) as [->|]; [reflexivity|].
  rewrite from_be_strip. apply from_be_be_bytes. exact Hv.
Qed.

Lemma minimal_be_inj v w : uN 64 v -> uN 64 w -> minimal_be v = minimal_be w -> v = w.
Proof. intros Hv Hw E. now rewrite <- (from_be_minimal v Hv), <- (from_be_minimal w Hw), E. Qed.

Lemma minimal_be_len v : len (minimal_be v) <= 8.
Proof.
  unfold minimal_be. case_goal; [rewrite len_nil; lia|]. pose proof (strip_zeros_len (be_bytes 8 v)) as H.
  rewrite len_be_bytes in H. exact H.
Qed.

Lemma minimal_be_pos v : uN 64 v -> v <> 0 -> 1 <= len (minimal_be v).
Proof.
  intros Hv H0. pose proof (from_be_minimal v Hv) as E. destruct (minimal_be v) as [|x l]; [cbn in E; lia|].
  rewrite len_cons. pose proof (len_nonneg l). lia.
Qed.

Lemma rlp_length_inj off n m r s : uN 64 n -> uN 64 m ->
  rlp_length n off ++ r = rlp_length m off ++ s -> n = m /\ r = s.
Proof.
  unfold rlp_length. intros Hn Hm.
  pose proof (minimal_be_pos n Hn). pose proof (minimal_be_pos m Hm). unfold uN in *.
  destruct (Z.ltb_spec n 56), (Z.ltb_spec m 56); cbn; intros [= Eh Et]; try lia; [split; [lia | exact Et]|].
  apply app_inj_1 in Et as [El Er]; [|unfold len in *; lia].
  apply minimal_be_inj in El; auto.
Qed.

Lemma rlp_length_head off n : exists h l, rlp_length n off = h :: l /\ (0 <= n -> off <= h).
Proof.
  unfold rlp_length. destruct (n <? 56); do 2 eexists; (split; [reflexivity|]); [lia|].
  pose proof (len_nonneg (minimal_be n)). lia.
Qed.

Lemma rlp_bytes_cases d :
  (exists b, d = [b] /\ b < 0x80 /\ rlp_bytes d = [b]) \/ rlp_bytes d = rlp_length (len d) 0x80 ++ d.
Proof.
  destruct d as [|b [|c d]]; [now right| |now right]. cbn. destruct (Z.ltb_spec b 128); [left; eauto | now right].
Qed.

(** What follows an encoded string starts where the string ends. *)
Lemma rlp_bytes_inj a b r s : len a < 2 ^ 64 -> len b < 2 ^ 64 ->
  rlp_bytes a ++ r = rlp_bytes b ++ s -> a = b /\ r = s.
Proof.
  intros Ha Hb. pose proof (len_nonneg a). pose proof (len_nonneg b).
  destruct (rlp_bytes_cases a) as [(x & -> & Hx & ->)| ->], (rlp_bytes_cases b) as [(y & -> & Hy & ->)| ->].
  - intros [= -> ->]. auto.
  - destruct (rlp_length_head 0x80 (len b)) as (h & l & -> & Hh). intros [= -> _]. lia.
  - destruct (rlp_length_head 0x80 (len a)) as (h & l & -> & Hh). intros [= <- _]. lia.
  - rewrite <- !app_assoc. intros E. apply rlp_length_inj in E as [El E]; [|split; lia..].
    now apply app_inj_1 in E; [|unfold len in El; lia].
Qed.

Lemma rlp_u64_inj v w r s : uN 64 v -> uN 64 w -> rlp_u64 v ++ r = rlp_u64 w ++ s -> v = w /\ r = s.
Proof.
  intros Hv Hw E. pose proof (minimal_be_len v). pose proof (minimal_be_len w).
  apply rlp_bytes_inj in E as [E ->]; [|lia..]. split; [now apply minimal_be_inj | reflexivity].
Qed.

Lemma rlp_int_inj a b r s : array_ok 32 a -> array_ok 32 b -> rlp_int a ++ r = rlp_int b ++ s -> a = b /\ r = s.
Proof.
  intros [La Ha] [Lb Hb] E. pose proof (strip_zeros_len a). pose proof (strip_zeros_len b).
  apply rlp_bytes_inj in E as [E ->]; [|lia..]. split; [apply strip_zeros_inj; auto; unfold len in *; lia | reflexivity].
Qed.

Lemma rlp_list_inj xs ys :
  len (concat xs) < 2 ^ 64 -> len (concat ys) < 2 ^ 64 -> rlp_list xs = rlp_list ys -> concat xs = concat ys.
Proof.
  assert (Hs : forall l : list bytes, foldr (fun item n => len item + n) 0 l = len (concat l)).
  { induction l as [|x l IH]; [reflexivity|]. cbn. rewrite len_app. lia. }
  unfold rlp_list. rewrite !Hs. intros Hx Hy E. pose proof (len_nonneg (concat xs)). pose proof (len_nonneg (concat ys)).
  apply rlp_length_inj in E as [_ E]; [exact E | split; lia..].
Qed.

Lemma rlp_bytes_len d : len (rlp_bytes d) <= 9 + len d.
Proof.
  destruct (rlp_bytes_cases d) as [(x & -> & _ & ->)| ->]; [unfold len; cbn; lia|]. rewrite len_app.
  unfold rlp_length. pose proof (minimal_be_len (len d)). case_goal; rewrite len_cons, ?len_nil; lia.
Qed.

Lemma rlp_u64_len v : len (rlp_u64 v) <= 17.
Proof. unfold rlp_u64. pose proof (rlp_bytes_len (minimal_be v)). pose proof (minimal_be_len v). lia. Qed.

(** ** Transactions *)

Record legacy_ok (t : LegacyTx) : Prop := {
  lo_nonce : uN 64 (lt_nonce t);
  lo_gas_price : uN 64 (lt_gas_price t);
  lo_gas_limit : uN 64 (lt_gas_limit t);
  lo_to : len (lt_to t) = 20;
  lo_value : uN 64 (lt_value t);
  lo_data : len (lt_data t) < 2 ^ 63;
  lo_chain : uN 62 (lt_chain_id t)
}.

(** The six fields that both the signing payload and the signed form start with. *)
Definition tx_head (t : LegacyTx) : bytes :=
  rlp_u64 (lt_nonce t) ++ rlp_u64 (lt_gas_price t) ++ rlp_u64 (lt_gas_limit t) ++ rlp_bytes (lt_to t)
  ++ rlp_u64 (lt_value t) ++ rlp_bytes (lt_data t).

Lemma tx_head_len t : legacy_ok t -> len (tx_head t) <= 2 ^ 63 + 200.
Proof.
  intros []. unfold tx_head. rewrite !len_app. pose proof (rlp_u64_len (lt_nonce t)).
  pose proof (rlp_u64_len (lt_gas_price t)). pose proof (rlp_u64_len (lt_gas_limit t)).
  pose proof (rlp_u64_len (lt_value t)). pose proof (rlp_bytes_len (lt_to t)).
  pose proof (rlp_bytes_len (lt_data t)). lia.
Qed.

Lemma tx_head_inj t u r s : legacy_ok t -> legacy_ok u -> tx_head t ++ r = tx_head u ++ s ->
  (lt_chain_id t = lt_chain_id u -> t = u) /\ r = s.
Proof.
  intros [] []. unfold tx_head. rewrite <- !app_assoc. intros E.
  apply rlp_u64_inj in E as [E1 E]; [|assumption..]. apply rlp_u64_inj in E as [E2 E]; [|assumption..].
  apply rlp_u64_inj in E as [E3 E]; [|assumption..]. apply rlp_bytes_inj in E as [E4 E]; [|lia..].
  apply rlp_u64_inj in E as [E5 E]; [|assumption..]. apply rlp_bytes_inj in E as [E6 E]; [|lia..].
  split; [|exact E]. intros E7. destruct t, u; cbn in *; congruence.
Qed.

Lemma signing_rlp_concat t :
  signing_rlp t = rlp_list [tx_head t; rlp_u64 (lt_chain_id t); rlp_u64 0; rlp_u64 0].
Proof.
  unfold signing_rlp, tx_head, rlp_list. f_equal; [f_equal|cbn; now rewrite <- !app_assoc].
  cbn [foldr]. rewrite !len_app. lia.
Qed.

Lemma signed_rlp_concat t r s v :
  signed_tx_rlp t r s v = rlp_list [tx_head t; rlp_u64 (eip155_v v (lt_chain_id t)); rlp_int r; rlp_int s].
Proof.
  unfold signed_tx_rlp, tx_head, rlp_list. f_equal; [f_equal|cbn; now rewrite <- !app_assoc].
  cbn [foldr]. rewrite !len_app. lia.
Qed.

Lemma len_concat4 {A} (a b c d : list A) : len (concat [a; b; c; d]) = len a + len b + len c + len d.
Proof. cbn. rewrite !len_app, len_nil. lia. Qed.

Lemma signing_rlp_inj t u : legacy_ok t -> legacy_ok u -> signing_rlp t = signing_rlp u -> t = u.
Proof.
  intros Ht Hu. rewrite !signing_rlp_concat. pose proof (tx_head_len t Ht). pose proof (tx_head_len u Hu). intros E.
  pose proof (rlp_u64_len (lt_chain_id t)). pose proof (rlp_u64_len (lt_chain_id u)). pose proof (rlp_u64_len 0).
  apply rlp_list_inj in E; [|rewrite len_concat4; lia..]. cbn [concat] in E.
  apply tx_head_inj in E as [Hc E]; [|assumption..]. apply Hc.
  pose proof (lo_chain t Ht). pose proof (lo_chain u Hu). unfold uN in *.
  apply rlp_u64_inj in E as [E _]; [exact E | unfold uN; lia..].
Qed.

Lemma eip155_v_inj v w c d : 0 <= v <= 1 -> 0 <= w <= 1 -> uN 62 c -> uN 62 d ->
  eip155_v v c = eip155_v w d -> v = w /\ c = d.
Proof. unfold uN, eip155_v, wrapN. intros Hv Hw Hc Hd. rewrite !Z.mod_small by lia. lia. Qed.

(** The signed form determines the transaction and its signature. *)
Lemma signed_rlp_inj t u r s v r' s' v' : legacy_ok t -> legacy_ok u ->
  array_ok 32 r -> array_ok 32 s -> array_ok 32 r' -> array_ok 32 s' -> 0 <= v <= 1 -> 0 <= v' <= 1 ->
  signed_tx_rlp t r s v = signed_tx_rlp u r' s' v' -> t = u /\ r = r' /\ s = s' /\ v = v'.
Proof.
  intros Ht Hu Hr Hs Hr' Hs' Hv Hv'. rewrite !signed_rlp_concat. intros E.
  pose proof (tx_head_len t Ht). pose proof (tx_head_len u Hu).
  assert (Hi : forall x, array_ok 32 x -> len (rlp_int x) <= 41).
  { intros x [Lx _]. unfold rlp_int. pose proof (rlp_bytes_len (strip_zeros x)). pose proof (strip_zeros_len x). lia. }
  pose proof (Hi r Hr). pose proof (Hi s Hs). pose proof (Hi r' Hr'). pose proof (Hi s' Hs').
  pose proof (rlp_u64_len (eip155_v v (lt_chain_id t))). pose proof (rlp_u64_len (eip155_v v' (lt_chain_id u))).
  apply rlp_list_inj in E; [|rewrite len_concat4; lia..]. cbn [concat] in E.
  apply tx_head_inj in E as [Hc E]; [|assumption..].
  apply rlp_u64_inj in E as [E1 E]; [|unfold uN, eip155_v, wrapN; apply Z.mod_pos_bound; lia..].
  apply eip155_v_inj in E1 as [-> Ec]; [|first [assumption | apply lo_chain; assumption]..].
  apply rlp_int_inj in E as [-> E]; [|assumption..]. apply rlp_int_inj in E as [-> _]; [|assumption..]. auto.
Qed.

(** ** Words *)

Lemma word_u256_len v : len (word_u256 v) = 32.
Proof. unfold word_u256. len_simpl. reflexivity. Qed.

Lemma word_address_len a : len a = 20 -> len (word_address a) = 32.
Proof. intros H. unfold word_address. rewrite len_app, H. reflexivity. Qed.

#[export] Hint Rewrite word_u256_len : len.

Lemma word_u256_inj v w : uN 64 v -> uN 64 w -> word_u256 v = word_u256 w -> v = w.
Proof.
  intros Hv Hw E. unfold word_u256 in E. chop E E0. apply be_bytes_inj in E; [exact E | assumption..].
Qed.

Lemma word_address_inj a b : word_address a = word_address b -> a = b.
Proof. unfold word_address. intros E. chop E E0. exact E. Qed.

Lemma app_len_inj {A} (a b r s : list A) : len a = len b -> a ++ r = b ++ s -> a = b /\ r = s.
Proof. intros Hl E. apply app_inj_1 in E; [exact E | unfold len in Hl; lia]. Qed.

(** Take the first part off both sides of an equation of encodings. *)
Ltac word_off E H :=
  apply app_len_inj in E as [H E]; [|rewrite ?word_u256_len, ?word_address_len by assumption; congruence].

(** ** What a wallet signs *)

(** The three kinds of message, with the strings that the digest of each hashes. *)
Inductive SignedMessage : Type :=
| SmTx (t : LegacyTx)
| SmPermit (domain owner spender : bytes) (value nonce deadline : Z)
| SmForward (domain from to : bytes) (value gas nonce deadline : Z) (data : bytes).

Definition message_ok (m : SignedMessage) : Prop :=
  match m with
  | SmTx t => legacy_ok t
  | SmPermit d o p v n l => len d = 32 /\ len o = 20 /\ len p = 20 /\ uN 64 v /\ uN 64 n /\ uN 64 l
  | SmForward d f t v g n l _ =>
      len d = 32 /\ len f = 20 /\ len t = 20 /\ uN 64 v /\ uN 64 g /\ uN 64 n /\ uN 64 l
  end.

Section digests.
Context `{K : Keccak}.

Definition message_digest (m : SignedMessage) : bytes :=
  match m with
  | SmTx t => signing_hash t
  | SmPermit d o p v n l => permit_digest d o p v n l
  | SmForward d f t v g n l data => forward_request_digest d f t v g n l data
  end.

Definition struct_encoding (m : SignedMessage) : bytes :=
  match m with
  | SmTx _ => []
  | SmPermit _ o p v n l =>
      permit_typehash ++ word_address o ++ word_address p ++ word_u256 v ++ word_u256 n ++ word_u256 l
  | SmForward _ f t v g n l data =>
      forward_request_typehash ++ word_address f ++ word_address t ++ word_u256 v ++ word_u256 g
      ++ word_u256 n ++ word_u256 l ++ keccak256 data
  end.

Definition top_encoding (m : SignedMessage) : bytes :=
  match m with
  | SmTx t => signing_rlp t
  | SmPermit d _ _ _ _ _ | SmForward d _ _ _ _ _ _ _ => [0x19; 0x01] ++ d ++ keccak256 (struct_encoding m)
  end.

Definition hashed (m : SignedMessage) : list bytes :=
  top_encoding m :: struct_encoding m :: match m with SmForward _ _ _ _ _ _ _ data => [data] | _ => [] end.

Definition collision_free (l : list bytes) : Prop :=
  forall x y, x ∈ l -> y ∈ l -> keccak256 x = keccak256 y -> x = y.

Lemma digest_top m : message_digest m = keccak256 (top_encoding m).
Proof. now destruct m. Qed.

Lemma signing_head t d : signing_rlp t <> 0x19 :: d.
Proof.
  rewrite signing_rlp_concat. unfold rlp_list.
  match goal with |- rlp_length ?n _ ++ _ <> _ => destruct (rlp_length_head 0xc0 n) as (h & l & -> & Hh) end.
  intros [= -> _]. apply Hh; [|reflexivity]. cbn [foldr]. rewrite Z.add_0_r.
  pose proof (len_nonneg (tx_head t)). pose proof (len_nonneg (rlp_u64 (lt_chain_id t))).
  pose proof (len_nonneg (rlp_u64 0)). lia.
Qed.
End digests.

Section binding.
Context `{K : Keccak} `{!KeccakLaws K}.

Lemma keccak_len x : len (keccak256 x) = 32.
Proof. apply keccak256_ok. Qed.

Ltac off E H := apply app_len_inj in E as [H E];
  [|rewrite ?keccak_len, ?word_u256_len, ?word_address_len by assumption; congruence].

Lemma top_712_inj d e x y : len d = 32 -> len e = 32 ->
  [0x19; 0x01] ++ d ++ keccak256 x = [0x19; 0x01] ++ e ++ keccak256 y -> d = e /\ keccak256 x = keccak256 y.
Proof. intros Hd He [= E]. off E E0. auto. Qed.

Lemma permit_len d o p v n l : len o = 20 -> len p = 20 -> len (struct_encoding (SmPermit d o p v n l)) = 192.
Proof.
  intros Ho Hp. cbn [struct_encoding]. rewrite !len_app, !word_u256_len, !word_address_len by assumption.
  unfold permit_typehash. rewrite keccak_len. reflexivity.
Qed.

Lemma forward_len d f t v g n l x :
  len f = 20 -> len t = 20 -> len (struct_encoding (SmForward d f t v g n l x)) = 256.
Proof.
  intros Hf Ht. cbn [struct_encoding]. rewrite !len_app, !word_u256_len, !word_address_len by assumption.
  unfold forward_request_typehash. rewrite !keccak_len. reflexivity.
Qed.

Lemma permit_struct_inj d o p v n l e q r w k j :
  message_ok (SmPermit d o p v n l) -> message_ok (SmPermit e q r w k j) ->
  struct_encoding (SmPermit d o p v n l) = struct_encoding (SmPermit e q r w k j) ->
  o = q /\ p = r /\ v = w /\ n = k /\ l = j.
Proof.
  intros (? & ? & ? & ? & ? & ?) (? & ? & ? & ? & ? & ?). cbn [struct_encoding]. unfold permit_typehash. intros E.
  off E E0. off E Eo. off E Ep. off E Ev. off E En. apply word_address_inj in Eo, Ep.
  apply word_u256_inj in Ev, En, E; auto.
Qed.

Lemma forward_struct_inj d f t v g n l x e f' t' v' g' n' l' x' :
  message_ok (SmForward d f t v g n l x) -> message_ok (SmForward e f' t' v' g' n' l' x') ->
  struct_encoding (SmForward d f t v g n l x) = struct_encoding (SmForward e f' t' v' g' n' l' x') ->
  f = f' /\ t = t' /\ v = v' /\ g = g' /\ n = n' /\ l = l' /\ keccak256 x = keccak256 x'.
Proof.
  intros (? & ? & ? & ? & ? & ? & ?) (? & ? & ? & ? & ? & ? & ?). cbn [struct_encoding].
  unfold forward_request_typehash. intros E.
  off E E0. off E Ef. off E Et. off E Ev. off E Eg. off E En. off E El. apply word_address_inj in Ef, Et.
  apply word_u256_inj in Ev, Eg, En, El; auto 10.
Qed.

Lemma encoding_binds m m' : message_ok m -> message_ok m' -> collision_free (hashed m ++ hashed m') ->
  top_encoding m = top_encoding m' -> m = m'.
Proof.
  intros Hm Hm' Hc E.
  assert (Hs : keccak256 (struct_encoding m) = keccak256 (struct_encoding m') -> struct_encoding m = struct_encoding m').
  { apply Hc; apply elem_of_app; [left | right]; unfold hashed; set_solver. }
  destruct m as [t|d o p v n l|d f t v g n l x], m' as [t'|d' o' p' v' n' l'|d' f' t' v' g' n' l' x'];
    cbn [top_encoding] in E.
  - now rewrite (signing_rlp_inj t t' Hm Hm' E).
  - now apply signing_head in E.
  - now apply signing_head in E.
  - symmetry in E. now apply signing_head in E.
  - apply top_712_inj in E as [-> E]; [|apply Hm | apply Hm']. apply permit_struct_inj in Hs; auto.
    destruct Hs as (-> & -> & -> & -> & ->); auto.
  - apply top_712_inj in E as [_ E]; [|apply Hm | apply Hm']. destruct Hm as (_ & ? & ? & _), Hm' as (_ & ? & ? & _).
    apply Hs in E. apply (f_equal len) in E. rewrite permit_len, forward_len in E by assumption. lia.
  - symmetry in E. now apply signing_head in E.
  - apply top_712_inj in E as [_ E]; [|apply Hm | apply Hm']. destruct Hm as (_ & ? & ? & _), Hm' as (_ & ? & ? & _).
    apply Hs in E. apply (f_equal len) in E. rewrite permit_len, forward_len in E by assumption. lia.
  - apply top_712_inj in E as [-> E]; [|apply Hm | apply Hm']. apply forward_struct_inj in Hs; auto.
    destruct Hs as (-> & -> & -> & -> & -> & -> & Ex). f_equal. apply Hc in Ex; [exact Ex|set_solver..].
Qed.
End binding.

(** ** Calldata as a contract reads it *)

(** The [i]-th word of the arguments, and a dynamic byte string at an offset of them:
    its length word and its bytes. *)
Definition abi_word (args : bytes) (off : Z) : res unit bytes := slice args off (off + 32).
Definition abi_uint (args : bytes) (off : Z) : res unit Z := let? w := abi_word args off in Ok (from_be w).
Definition abi_addr (args : bytes) (off : Z) : res unit bytes := slice args (off + 12) (off + 32).
Definition abi_dynamic (args : bytes) (off : Z) : res unit bytes :=
  let? n := abi_uint args off in slice args (off + 32) (off + 32 + n).

(** The arguments of [execute], read by following the two offsets. *)
Definition read_execute (cd : bytes) : res unit (bytes * bytes * (Z * Z * Z * Z) * bytes * (Z * bytes * bytes)) :=
  let args := drop 4 cd in
  let? tup := abi_uint args 0 in
  let? v := abi_uint args 32 in
  let? r := abi_word args 64 in
  let? s := abi_word args 96 in
  let? from := abi_addr args tup in
  let? to := abi_addr args (tup + 32) in
  let? value := abi_uint args (tup + 64) in
  let? gas := abi_uint args (tup + 96) in
  let? nonce := abi_uint args (tup + 128) in
  let? deadline := abi_uint args (tup + 160) in
  let? off := abi_uint args (tup + 192) in
  let? data := abi_dynamic args (tup + off) in
  Ok (from, to, (value, gas, nonce, deadline), data, (v, r, s)).

Lemma from_be_word v : uN 64 v -> from_be (word_u256 v) = v.
Proof.
  intros Hv. unfold word_u256, from_be. rewrite foldl_app. change (foldl _ 0 (replicate 24 0)) with 0.
  apply from_be_be_bytes. exact Hv.
Qed.

Section reading.
Context `{K : Keccak} `{!KeccakLaws K}.

Lemma selector_len sg : len (function_selector sg) = 4.
Proof. unfold function_selector. change 4%nat with (Z.to_nat 4). apply len_take. rewrite keccak_len. lia. Qed.

Lemma drop_selector sg args : drop 4 (function_selector sg ++ args) = args.
Proof. apply drop_app_length'. pose proof (selector_len sg). unfold len in *. lia. Qed.

Lemma read_execute_spec from to value gas nonce deadline data v r s :
  len from = 20 -> len to = 20 -> len r = 32 -> len s = 32 ->
  uN 64 value -> uN 64 gas -> uN 64 nonce -> uN 64 deadline -> uN 8 v -> len data < 2 ^ 63 ->
  read_execute (forwarder_execute from to value gas nonce deadline data v r s)
  = Ok (from, to, (value, gas, nonce, deadline), data, (v, r, s)).
Proof.
  intros Hf Ht Hr Hs Hva Hg Hn Hd Hv Hl. pose proof (len_nonneg data) as Hl0.
  assert (Hv' : uN 64 v) by (unfold uN in *; lia).
  unfold read_execute, forwarder_execute. rewrite drop_selector. unfold word_address. rewrite <- !app_assoc.
  set (z := replicate 12 0). assert (Hz : len z = 12) by reflexivity. clearbody z.
  set (pad := replicate _ 0). clearbody pad. pose proof (len_nonneg pad).
  unfold abi_dynamic, abi_uint, abi_word, abi_addr.
  change (4 * WORD) with 128. change (7 * WORD) with 224.
  repeat progress (seek; cbv beta iota; rewrite ?from_be_word by (assumption || unfold uN; lia)).
  reflexivity.
Qed.
End reading.

(** ** Properties *)

(** C26: a signature on Polygon speaks of one message.  A wallet signs the hash of
    three kinds of message with one key: a transaction, a token permit and a relayed
    call.  Two messages that differ in any field, in the chain they are for, or in
    kind have different digests, unless two strings that were hashed for them
    collide under Keccak-256; so a signature made for one cannot be used for the
    other, and a transaction signed for the test network is not one for the main
    network. *)
Theorem evm_signatures_bind `{K : Keccak} `{KL : !KeccakLaws K} (m m' : SignedMessage)
    (Hm : message_ok m) (Hm' : message_ok m') (Hc : collision_free (hashed m ++ hashed m')) (Hne : m <> m') :
  message_digest m <> message_digest m'.
Proof.
  intros E. apply Hne, encoding_binds; auto. rewrite !digest_top in E.
  apply Hc in E; [exact E | apply elem_of_app; left; apply list_elem_of_here | apply elem_of_app; right; apply list_elem_of_here].
Qed.

Definition sample_evm_tx (f : Z -> Z -> Z -> bytes -> Z -> bytes -> LegacyTx) : LegacyTx :=
  f 9 20000000000 21000 (replicate 20 0x35) 0 (erc20_transfer (K := ToyKeccak) (replicate 20 7) 1500000).

Lemma evm_signatures_bind_witness :
  message_digest (SmTx (sample_evm_tx polygon_amoy)) <> message_digest (SmTx (sample_evm_tx polygon_mainnet)).
Proof.
  assert (Hok : forall f, f = polygon_amoy \/ f = polygon_mainnet -> message_ok (SmTx (sample_evm_tx f))).
  { intros f [-> | ->]; split; vm_compute; auto; split; discriminate || reflexivity. }
  apply (evm_signatures_bind (K := ToyKeccak) (SmTx (sample_evm_tx polygon_amoy)) (SmTx (sample_evm_tx polygon_mainnet)));
    [apply Hok; auto | apply Hok; auto | | intros E; apply (f_equal message_digest) in E; vm_compute in E; discriminate].
  intros x y Hx Hy. unfold hashed in Hx, Hy. cbn [app] in Hx, Hy.
  rewrite !elem_of_cons, elem_of_nil in Hx, Hy.
  destruct Hx as [-> |[-> |[-> |[-> |[]]]]], Hy as [-> |[-> |[-> |[-> |[]]]]]; vm_compute; discriminate || reflexivity.
Defined.

(** The signed form that is broadcast determines the transaction, its chain and its
    signature, and the relayed call carries its request: a contract that follows the
    two offsets reads back every argument, whatever the length of the inner call. *)
Theorem evm_wires_exact `{K : Keccak} `{KL : !KeccakLaws K} :
  (forall t u r s v r' s' v', legacy_ok t -> legacy_ok u ->
     array_ok 32 r -> array_ok 32 s -> array_ok 32 r' -> array_ok 32 s' -> 0 <= v <= 1 -> 0 <= v' <= 1 ->
     signed_tx_rlp t r s v = signed_tx_rlp u r' s' v' -> t = u /\ r = r' /\ s = s' /\ v = v')
  /\ (forall from to value gas nonce deadline data v r s,
     len from = 20 -> len to = 20 -> len r = 32 -> len s = 32 ->
     uN 64 value -> uN 64 gas -> uN 64 nonce -> uN 64 deadline -> uN 8 v -> len data < 2 ^ 63 ->
     read_execute (forwarder_execute from to value gas nonce deadline data v r s)
     = Ok (from, to, (value, gas, nonce, deadline), data, (v, r, s))).
Proof. split; intros; [eapply signed_rlp_inj; eassumption | now apply read_execute_spec]. Qed.
