(* ===== verification/UsdcLeg.v ===== *)
(** * UsdcLeg: the escrow of the USDC leg ([swap_usdc_leg.rs])

    The in-memory model of the Polygon contract, as an instance of the leg interface
    with its laws, so that the theorems of [SwapAtomic] hold of a NIM/USDC swap.  That it is the
    contract is proved in [NimmeshHtlc]. *)

From stdpp Require Import base list sets.
From Stdlib Require Import ZArith Lia.
From S2P Require Import Prelude Packet Crypto SwapIntent SwapLeg Evm.
Open Scope Z_scope.

Definition MICRO_USDC : Z := 1000000.

Definition u256_be (v : Z) : bytes := replicate 24 0 ++ be_bytes 8 v.

(** The packed parameters, which [usdc_swap_id] hashes *)
Definition swap_id_packed (sender receiver : bytes) (amount : Z) (hashlock : bytes) (timelock : Z) : bytes :=
  sender ++ receiver ++ u256_be amount ++ hashlock ++ u256_be timelock.

Definition usdc_swap_id `{K : Keccak} (sender receiver : bytes) (amount : Z) (hashlock : bytes) (timelock : Z) : bytes :=
  keccak256 (swap_id_packed sender receiver amount hashlock timelock).

Record UsdcSwapState : Type := mkUsdcState { us_swap_id : bytes; us_params : HtlcParams }.

Record UsdcLeg : Type := mkUsdcLeg {
  ul_sender : bytes;
  ul_receiver : bytes;
  ul_state : option UsdcSwapState;
  ul_outcome : LegOutcome;
  ul_revealed : option bytes
}.

Definition usdc_new (sender receiver : bytes) : UsdcLeg := mkUsdcLeg sender receiver None Unfunded None.

Definition usdc_id (l : UsdcLeg) : option bytes := us_swap_id <$> ul_state l.
Definition usdc_amount (l : UsdcLeg) : option Z := (h_amount ∘ us_params) <$> ul_state l.

Section leg.
Context `{C : Crypto} `{K : Keccak}.

Definition usdc_fund (l : UsdcLeg) (p : HtlcParams) : res LegError UsdcLeg :=
  if negb (bool_decide (ul_outcome l = Unfunded)) then Err NotUnfunded else
  let swap_id := usdc_swap_id (ul_sender l) (ul_receiver l) (h_amount p) (h_hashlock p) (h_timeout p) in
  Ok (mkUsdcLeg (ul_sender l) (ul_receiver l) (Some (mkUsdcState swap_id p)) LegFunded (ul_revealed l)).

Definition usdc_claim (l : UsdcLeg) (preimage : bytes) (head : Z) : res LegError UsdcLeg :=
  match ul_outcome l, ul_state l with
  | LegFunded, Some s =>
      let p := us_params s in
      if negb (bool_decide (sha256 preimage = h_hashlock p)) then Err WrongPreimage else
      if head >? h_timeout p then Err (ClaimWindowClosed (h_timeout p) head) else
      Ok (mkUsdcLeg (ul_sender l) (ul_receiver l) (ul_state l) LegClaimed (Some preimage))
  | _, _ => Err NotFunded
  end.

Definition usdc_refund (l : UsdcLeg) (head : Z) : res LegError UsdcLeg :=
  match ul_outcome l, ul_state l with
  | LegFunded, Some s =>
      let p := us_params s in
      if head <=? h_timeout p then Err (LegTimeoutNotReached (h_timeout p) head) else
      Ok (mkUsdcLeg (ul_sender l) (ul_receiver l) (ul_state l) LegRefunded (ul_revealed l))
  | _, _ => Err NotFunded
  end.

#[export] Instance Usdc_leg : SwapLeg UsdcLeg := {|
  leg_fund := usdc_fund;
  leg_claim := usdc_claim;
  leg_refund := usdc_refund;
  leg_outcome := ul_outcome;
  leg_revealed := ul_revealed
|}.

Definition usdc_leg_for_pair (nim_giver usdc_giver : SwapIntent) : UsdcLeg :=
  usdc_new (i_evm_address usdc_giver) (i_evm_address nim_giver).

(** ** The contract of a leg *)

Ltac usdc_leg := simpl; unfold usdc_fund, usdc_claim, usdc_refund; intros H.

#[export] Instance Usdc_leg_laws : SwapLegLaws UsdcLeg.
Proof.
  refine {| leg_lock := fun l => us_params <$> ul_state l |}.
  - intros [a b q o r] p l'. usdc_leg. run H. simpl in *. auto.
  - intros [a b q o r] p. simpl. intros ->. eexists. reflexivity.
  - intros [a b q o r] x h l'. usdc_leg. destruct o, q as [[i p]|]; try discriminate. simpl in *.
    run H. exists p. split_and!; auto; lia.
  - intros [a b q o r] x h p. simpl. intros ->. destruct q as [[i q]|]; [|discriminate]. intros [= ->] E Hh.
    unfold usdc_claim. simpl. rewrite bool_decide_true by exact E. simpl.
    destruct (Z.gtb_spec h (h_timeout p)); [lia|]. eexists. reflexivity.
  - intros [a b q o r] h l'. usdc_leg. destruct o, q as [[i p]|]; try discriminate. simpl in *.
    run H. exists p. split_and!; auto; lia.
  - intros [a b q o r] h p. simpl. intros ->. destruct q as [[i q]|]; [|discriminate]. intros [= ->] Hh.
    unfold usdc_refund. simpl. destruct (Z.leb_spec h (h_timeout p)); [lia|]. eexists. reflexivity.
Defined.
End leg.

(** ** The packed parameters *)

Lemma swap_id_packed_inj s r a h t s' r' a' h' t' :
  len s = 20 -> len r = 20 -> len h = 32 -> uN 64 a -> uN 64 t ->
  len s' = 20 -> len r' = 20 -> len h' = 32 -> uN 64 a' -> uN 64 t' ->
  swap_id_packed s r a h t = swap_id_packed s' r' a' h' t' ->
  s = s' /\ r = r' /\ a = a' /\ h = h' /\ t = t'.
Proof.
  intros Hs Hr Hh Ha Ht Hs' Hr' Hh' Ha' Ht'. unfold swap_id_packed. intros E.
  assert (Hl : forall v, len (u256_be v) = 32) by exact word_u256_len.
  assert (Hi : forall v w, uN 64 v -> uN 64 w -> u256_be v = u256_be w -> v = w) by exact word_u256_inj.
  do 4 (apply app_len_inj in E as [?H E]; [|rewrite ?Hl; congruence]). apply Hi in E; auto.
Qed.

(** ** Operations *)

Inductive LegOp : Type := OpFund (p : HtlcParams) | OpClaim (preimage : bytes) (head : Z) | OpRefund (head : Z).

Definition leg_op {L} `{SwapLeg L} (l : L) (o : LegOp) : res LegError L :=
  match o with OpFund p => leg_fund l p | OpClaim x h => leg_claim l x h | OpRefund h => leg_refund l h end.
