(* ===== verification/EvmVerifier.v ===== *)
(** * EvmVerifier: the funding gates of the USDC leg ([polygon_verifier.rs],
    [amoy_swap_verifier.rs])

    Both scan the [NewSwap] logs of the deployed escrow contract that pay one account.
    A reads source is any instance of [PolygonReads]; an observation takes its answers
    at one moment. *)

From stdpp Require Import base list gmap strings sets.
From Stdlib Require Import ZArith Lia.
From S2P Require Import Prelude Packet Crypto SwapWire SwapIntent FundingVerify Address Gateway BtcVerifier Evm.
Open Scope Z_scope.

Inductive EvmRpcError : Type :=
| NotAmoy (reason : str)
| EvmHttp (status : Z) (method : str)
| EvmTransport (e : str)
| EvmRpc (method message : str)
| EvmBadResponse (method : str).

Definition evm_is_transient (e : EvmRpcError) : bool :=
  match e with
  | EvmTransport _ => true
  | EvmHttp status _ => (500 <=? status) || (status =? 429)
  | _ => false
  end.

Record EvmLog : Type := mkEvmLog {
  el_topic1 : bytes;
  el_data : bytes;
  el_block_number : Z;
  el_transaction_hash : str
}.

Record EvmReceipt : Type := mkEvmReceipt { er_tx_hash : str; er_success : bool; er_block_number : Z }.

Class PolygonReads (R : Type) : Type := {
  eth_call : R -> bytes -> bytes -> res EvmRpcError bytes;
  new_swap_logs_to : R -> bytes -> bytes -> Z -> res EvmRpcError (list EvmLog);
  evm_head : R -> res EvmRpcError Z;
  finalized_head : R -> res EvmRpcError Z
}.

(** The reads of [AmoyChain] that the verifier makes: those of [PolygonReads], which
    the trait repeats, and the receipt of a transaction. *)
Class AmoyChain (R : Type) : Type := {
  amoy_reads :: PolygonReads R;
  receipt : R -> bytes -> res EvmRpcError (option EvmReceipt)
}.

Definition STATE_LIVE : Z := 1.
Definition STATE_CLAIMED : Z := 2.
Definition HEAD_CROSS_TOLERANCE_BLOCKS : Z := 12.
Definition MAX_CANDIDATES : Z := 32.
Definition DEFAULT_TIMELOCK_SLACK_S : Z := 900.
Definition DEFAULT_FROM_BLOCK_MARGIN : Z := 5.

Definition usdc_timelock_s (term term_anchor now_s : Z) : Z := sat_add 64 now_s (sat_sub term term_anchor).

Definition term_equivalent_of_timelock_s (timelock_s now_s term_anchor slack_s : Z) : Z :=
  sat_add 64 (sat_add 64 (sat_sub timelock_s now_s) slack_s) term_anchor.

(** ** Words of a response *)

Definition word_u64 (word : bytes) : option Z :=
  if negb (len word =? 32) || existsb (fun b => negb (b =? 0)) (take 24 word) then None
  else Some (from_be (drop 24 word)).

Definition decode_new_swap_data (data : bytes) : option (Z * bytes * Z) :=
  if negb (len data =? 96) then None else
  let hashlock := take 32 (drop 32 data) in
  a ← word_u64 (take 32 data);
  t ← word_u64 (drop 64 data);
  Some (a, hashlock, t).

Definition decode_get_swap_state (b : bytes) : option Z :=
  if len b <? 6 * 32 then None else word_u64 (take 32 (drop 160 b)).

Section reads.
Context `{K : Keccak} {R : Type}.

Definition new_swap_topic0 : bytes := keccak256 (chars "NewSwap(bytes32,address,address,uint256,bytes32,uint256)").

Definition get_swap_calldata (swap_id : bytes) : bytes := function_selector (chars "getSwap(bytes32)") ++ swap_id.

Context `{PR : PolygonReads R}.

Definition conservative_finalized (primary : R) (secondary : option R) (head : Z) : option Z :=
  match finalized_head primary with
  | Ok fp =>
      match secondary with
      | None => Some (Z.min fp head)
      | Some sec => match finalized_head sec with Ok fs => Some (Z.min (Z.min fp fs) head) | _ => None end
      end
  | _ => None
  end.

(** The head that drives the depth; [None] is disagreement or an error. *)
Definition cross_head (secondary : option R) (head : Z) : option Z :=
  match secondary with
  | None => Some head
  | Some sec =>
      match evm_head sec with
      | Ok sh => if Z.abs (head - sh) <=? HEAD_CROSS_TOLERANCE_BLOCKS then Some (Z.min head sh) else None
      | _ => None
      end
  end.

(** The confirmations of an escrow of block [block] *)
Definition evm_depth (primary : R) (secondary : option R) (head block : Z) : Z :=
  match conservative_finalized primary secondary head with
  | Some f => if block <=? f then FINALIZED_CONFIRMATIONS else clamp_u32 (sat_add 64 (sat_sub head block) 1)
  | None => clamp_u32 (sat_add 64 (sat_sub head block) 1)
  end.

Definition escrow_state (chain : R) (htlc swap_id : bytes) : option Z :=
  match eth_call chain htlc (get_swap_calldata swap_id) with
  | Ok out => decode_get_swap_state out
  | _ => None
  end.

(** ** The contract scan ([polygon_verifier.rs]) *)

Record PolygonHtlcVerifier : Type := mkPolygonVerifier {
  pv_reads : R;
  pv_secondary : option R;
  pv_htlc : bytes;
  pv_from_block : Z
}.

Definition polygon_verifier_new (reads : R) (htlc : bytes) (from_block : Z) : PolygonHtlcVerifier :=
  mkPolygonVerifier reads None htlc from_block.

Definition polygon_with_secondary (v : PolygonHtlcVerifier) (secondary : R) : PolygonHtlcVerifier :=
  mkPolygonVerifier (pv_reads v) (Some secondary) (pv_htlc v) (pv_from_block v).

(** The loop over the logs: the deepest live candidate so far and whether another
    hashlock pays the account; [None] when a call fails. *)
Fixpoint polygon_scan (chain : R) (htlc hashlock : bytes) (logs : list EvmLog) (other : bool)
    (best : option (Z * Z * Z)) : option (bool * option (Z * Z * Z)) :=
  match logs with
  | [] => Some (other, best)
  | log :: logs =>
      match decode_new_swap_data (el_data log) with
      | None => polygon_scan chain htlc hashlock logs other best
      | Some (amount, h, timelock) =>
          if negb (bool_decide (h = hashlock)) then polygon_scan chain htlc hashlock logs true best else
          match eth_call chain htlc (get_swap_calldata (el_topic1 log)) with
          | Ok out =>
              if bool_decide (decode_get_swap_state out = Some STATE_LIVE) then
                let better := match best with None => true | Some (b, _, _) => el_block_number log <? b end in
                polygon_scan chain htlc hashlock logs other
                  (if better then Some (el_block_number log, amount, timelock) else best)
              else polygon_scan chain htlc hashlock logs other best
          | _ => None
          end
      end
  end.

Definition observe_usdc (v : PolygonHtlcVerifier) (expect : HtlcExpectation) : FundingObservation :=
  match try_array 20 (x_recipient expect) with
  | None => Absent
  | Some recipient =>
      match new_swap_logs_to (pv_reads v) (pv_htlc v) recipient (pv_from_block v) with
      | Ok logs =>
          match evm_head (pv_reads v) with
          | Ok head =>
              match cross_head (pv_secondary v) head with
              | None => Absent
              | Some head =>
                  match polygon_scan (pv_reads v) (pv_htlc v) (x_hashlock expect) logs false None with
                  | None => Absent
                  | Some (_, Some (block, amount, timeout)) =>
                      Found amount timeout (evm_depth (pv_reads v) (pv_secondary v) head block)
                  | Some (true, None) => Mismatch MmHashlock
                  | Some (false, None) => Absent
                  end
              end
          | _ => Absent
          end
      | _ => Absent
      end
  end.

#[export] Instance PolygonHtlcVerifier_verifier : FundingVerifier PolygonHtlcVerifier := {|
  observe := fun v expect => match x_leg expect with LegCounterparty => observe_usdc v expect | _ => Absent end;
  note_funding_wire := fun v _ _ => v;
  chain_backed := fun _ => false;
  observe_claim := fun _ _ _ => Unavailable
|}.
End reads.
Arguments PolygonHtlcVerifier R : clear implicits.

(** ** The initiator's store and gate ([amoy_swap_verifier.rs]) *)

Record FoundEscrow : Type := mkFoundEscrow { fe_swap_id : bytes; fe_amount : Z; fe_timelock_s : Z }.

Record PolygonFundingStore : Type := mkStore {
  st_candidates : list bytes;
  st_anchor_block : option Z;
  st_found : gmap bytes FoundEscrow
}.

Definition polygon_store_new : PolygonFundingStore := mkStore [] None ∅.

Section amoy.
Context `{K : Keccak} {R : Type} `{AC : AmoyChain R}.

Definition note_candidate (s : PolygonFundingStore) (wire : bytes) : PolygonFundingStore :=
  let hash := keccak256 wire in
  if bool_decide (hash ∈ st_candidates s) || (MAX_CANDIDATES <=? len (st_candidates s)) then s
  else mkStore (st_candidates s ++ [hash]) (st_anchor_block s) (st_found s).

Definition store_found (s : PolygonFundingStore) (hashlock : bytes) : option FoundEscrow := st_found s !! hashlock.

Definition found_all (s : PolygonFundingStore) : list FoundEscrow := (map_to_list (st_found s)).*2.

Definition record_found (s : PolygonFundingStore) (hashlock : bytes) (e : FoundEscrow) : PolygonFundingStore :=
  mkStore (st_candidates s) (st_anchor_block s) (<[hashlock := e]> (st_found s)).

(** The lowest block of a successful receipt of the candidates, kept once found *)
Definition anchor (s : PolygonFundingStore) (chain : R) : PolygonFundingStore * option Z :=
  match st_anchor_block s with
  | Some a => (s, Some a)
  | None =>
      let best := foldl (fun best hash =>
        match receipt chain hash with
        | Ok (Some r) =>
            if er_success r then
              Some (match best with None => er_block_number r | Some b => Z.min b (er_block_number r) end)
            else best
        | _ => best
        end) None (st_candidates s) in
      match best with
      | Some block => (mkStore (st_candidates s) (Some block) (st_found s), best)
      | None => (s, best)
      end
  end.

Record AmoyHtlcSwapVerifier : Type := mkAmoyVerifier {
  av_chain : R;
  av_secondary : option R;
  av_htlc : bytes;
  av_own_claim_address : bytes;
  av_store : PolygonFundingStore;
  av_slack_s : Z;
  av_from_block_margin : Z;
  (** [(self.clock_s)()] at the observation *)
  av_clock_s : Z
}.

Definition amoy_verifier_new (chain : R) (htlc own_claim_address : bytes) (store : PolygonFundingStore) (now_s : Z)
  : AmoyHtlcSwapVerifier :=
  mkAmoyVerifier chain None htlc own_claim_address store DEFAULT_TIMELOCK_SLACK_S DEFAULT_FROM_BLOCK_MARGIN now_s.

Definition amoy_with_secondary (v : AmoyHtlcSwapVerifier) (secondary : R) : AmoyHtlcSwapVerifier :=
  mkAmoyVerifier (av_chain v) (Some secondary) (av_htlc v) (av_own_claim_address v) (av_store v) (av_slack_s v)
    (av_from_block_margin v) (av_clock_s v).

Definition amoy_set_store (v : AmoyHtlcSwapVerifier) (s : PolygonFundingStore) : AmoyHtlcSwapVerifier :=
  mkAmoyVerifier (av_chain v) (av_secondary v) (av_htlc v) (av_own_claim_address v) s (av_slack_s v)
    (av_from_block_margin v) (av_clock_s v).

Definition amoy_with_clock (v : AmoyHtlcSwapVerifier) (now_s : Z) : AmoyHtlcSwapVerifier :=
  mkAmoyVerifier (av_chain v) (av_secondary v) (av_htlc v) (av_own_claim_address v) (av_store v) (av_slack_s v)
    (av_from_block_margin v) now_s.

Fixpoint amoy_scan (chain : R) (htlc hashlock : bytes) (logs : list EvmLog) (other : bool)
    (best : option (Z * FoundEscrow)) : bool * option (Z * FoundEscrow) :=
  match logs with
  | [] => (other, best)
  | log :: logs =>
      match decode_new_swap_data (el_data log) with
      | None => amoy_scan chain htlc hashlock logs other best
      | Some (amount, h, timelock_s) =>
          if negb (bool_decide (h = hashlock)) then amoy_scan chain htlc hashlock logs true best else
          if bool_decide (escrow_state chain htlc (el_topic1 log) = Some STATE_LIVE) then
            let better := match best with None => true | Some (b, _) => el_block_number log <? b end in
            amoy_scan chain htlc hashlock logs other
              (if better then Some (el_block_number log, mkFoundEscrow (el_topic1 log) amount timelock_s) else best)
          else amoy_scan chain htlc hashlock logs other best
      end
  end.

(** The secondary, when there is one, reads the winning escrow as live. *)
Definition secondary_live (v : AmoyHtlcSwapVerifier) (swap_id : bytes) : bool :=
  match av_secondary v with
  | None => true
  | Some sec => bool_decide (escrow_state sec (av_htlc v) swap_id = Some STATE_LIVE)
  end.

(** [observe] of the counterparty leg; the store is shared with the signer. *)
Definition amoy_observe (v : AmoyHtlcSwapVerifier) (expect : HtlcExpectation)
  : PolygonFundingStore * FundingObservation :=
  match x_leg expect with
  | LegNim => (av_store v, Absent)
  | LegCounterparty =>
  match anchor (av_store v) (av_chain v) with
  | (s, None) => (s, Absent)
  | (s, Some a) =>
      match new_swap_logs_to (av_chain v) (av_htlc v) (av_own_claim_address v) (sat_sub a (av_from_block_margin v)) with
      | Ok logs =>
          match evm_head (av_chain v) with
          | Ok head =>
              match cross_head (av_secondary v) head with
              | None => (s, Absent)
              | Some head =>
                  match amoy_scan (av_chain v) (av_htlc v) (x_hashlock expect) logs false None with
                  | (_, Some (block, e)) =>
                      if negb (secondary_live v (fe_swap_id e)) then (s, Absent) else
                      (record_found s (x_hashlock expect) e,
                       Found (fe_amount e)
                         (term_equivalent_of_timelock_s (fe_timelock_s e) (av_clock_s v) (x_term_anchor expect)
                            (av_slack_s v))
                         (evm_depth (av_chain v) (av_secondary v) head block))
                  | (true, None) => (s, Mismatch MmHashlock)
                  | (false, None) => (s, Absent)
                  end
              end
          | _ => (s, Absent)
          end
      | _ => (s, Absent)
      end
  end
  end.

#[export] Instance AmoyHtlcSwapVerifier_verifier : FundingVerifier AmoyHtlcSwapVerifier := {|
  observe := fun v expect => (amoy_observe v expect).2;
  note_funding_wire := fun v leg tx_wire =>
    match leg with LegCounterparty => amoy_set_store v (note_candidate (av_store v) tx_wire) | _ => v end;
  chain_backed := fun _ => true;
  observe_claim := fun _ _ _ => Unavailable
|}.
End amoy.
Arguments AmoyHtlcSwapVerifier R : clear implicits.

(** ** What an endpoint says of the contract *)

Record Escrow : Type := mkEscrow {
  es_id : bytes;
  es_receiver : bytes;
  es_amount : Z;
  es_hashlock : bytes;
  es_timelock : Z;
  es_block : Z;
  es_state : Z
}.

Record EvmChain : Type := mkEvmChain { ec_escrows : list Escrow; ec_head : Z; ec_finalized : Z }.

(** The contract derives an id from the terms of the escrow; no two escrows share
    one. *)
Record evm_chain_wf (ch : EvmChain) : Prop := {
  ew_unique : forall e f, e ∈ ec_escrows ch -> f ∈ ec_escrows ch -> es_id e = es_id f -> e = f;
  ew_hashlock : forall e, e ∈ ec_escrows ch -> len (es_hashlock e) = 32;
  ew_amount : forall e, e ∈ ec_escrows ch -> uN 64 (es_amount e) /\ uN 64 (es_timelock e);
  ew_block : forall e, e ∈ ec_escrows ch -> 0 <= es_block e <= ec_head ch
}.

(** The data of the event, and the answer to [getSwap], whose sixth word is the state *)
Definition event_data (e : Escrow) : bytes := word_u256 (es_amount e) ++ es_hashlock e ++ word_u256 (es_timelock e).

Section honest.
Context `{K : Keccak} {R : Type} `{PR : PolygonReads R}.

(** An endpoint that reports the contract at [htlc]: the logs it lists are escrows
    that pay the account asked for, the state of an escrow is the contract's, and its
    heights are not beyond the chain's. *)
Record EvmHonest (ch : EvmChain) (htlc : bytes) (r : R) : Prop := {
  eh_logs : forall to from logs log, new_swap_logs_to r htlc to from = Ok logs -> log ∈ logs ->
    exists e, e ∈ ec_escrows ch /\ es_id e = el_topic1 log /\ es_receiver e = to
      /\ el_data log = event_data e /\ el_block_number log = es_block e;
  eh_state : forall e st, e ∈ ec_escrows ch -> escrow_state r htlc (es_id e) = Some st -> st = es_state e;
  eh_head : forall h, evm_head r = Ok h -> h <= ec_head ch;
  eh_final : forall f, finalized_head r = Ok f -> f <= ec_finalized ch
}.

Lemma word_u64_word v : uN 64 v -> word_u64 (word_u256 v) = Some v.
Proof.
  intros Hv. unfold word_u64. rewrite word_u256_len. unfold word_u256.
  rewrite (take_app_length' (replicate 24 0)), (drop_app_length' (replicate 24 0)) by reflexivity.
  rewrite from_be_be_bytes by exact Hv. reflexivity.
Qed.

(** The word read is one whose upper 24 bytes are zero: no value is truncated. *)
Lemma word_u64_inv w v : bytes_ok w -> word_u64 w = Some v -> w = word_u256 v /\ uN 64 v.
Proof.
  unfold word_u64. intros Hb. destruct (Z.eqb_spec (len w) 32) as [Hl|]; [|discriminate]. cbn [negb orb].
  destruct (existsb _ _) eqn:Hz; [discriminate|]. intros [= <-].
  assert (Hd : length (drop 24 w) = 8%nat) by (rewrite length_drop; unfold len in Hl; lia).
  assert (Ht : take 24 w = replicate 24 0).
  { symmetry. apply replicate_as_elem_of. split; [rewrite length_take; unfold len in Hl; lia|].
    intros y Hy. destruct (Z.eqb_spec y 0) as [->|Hn]; [reflexivity|]. exfalso.
    assert (existsb (fun b => negb (b =? 0)) (take 24 w) = true); [|congruence].
    apply existsb_exists. exists y. split; [now apply list_elem_of_In|]. now destruct (Z.eqb_spec y 0). }
  pose proof (bytes_ok_drop 24 w Hb) as Hbd. split.
  - unfold word_u256. rewrite <- (take_drop 24 w) at 1. rewrite Ht. f_equal.
    pose proof (be_bytes_from_be (drop 24 w) Hbd) as E. rewrite Hd in E. now rewrite E.
  - apply (from_be_uN 8); [exact Hbd | unfold len; rewrite Hd; reflexivity | reflexivity | lia].
Qed.

Lemma decode_event e : uN 64 (es_amount e) -> uN 64 (es_timelock e) -> len (es_hashlock e) = 32 ->
  decode_new_swap_data (event_data e) = Some (es_amount e, es_hashlock e, es_timelock e).
Proof.
  intros Ha Ht Hh. unfold decode_new_swap_data, event_data.
  assert (L : forall v, length (word_u256 v) = 32%nat) by (intros v; pose proof (word_u256_len v); unfold len in *; lia).
  assert (Lh : length (es_hashlock e) = 32%nat) by (unfold len in Hh; lia).
  rewrite !len_app, !word_u256_len, Hh. cbn [Z.add Z.eqb Pos.add Pos.eqb negb Pos.succ].
  rewrite (take_app_length' (word_u256 (es_amount e))) by (symmetry; apply L).
  rewrite (drop_app_length' (word_u256 (es_amount e))) by (symmetry; apply L).
  rewrite (take_app_length' (es_hashlock e)) by (symmetry; exact Lh).
  rewrite (app_assoc (word_u256 _) (es_hashlock e)), (drop_app_length' (_ ++ es_hashlock e)) by (rewrite length_app, L, Lh; reflexivity).
  rewrite !word_u64_word by assumption. reflexivity.
Qed.

Lemma depth_bound r sec head block h : cross_head sec head = Some h -> 0 <= block ->
  evm_depth r sec h block <= Z.max 0 (h - block) + 1
  \/ (evm_depth r sec h block = FINALIZED_CONFIRMATIONS
      /\ exists f, finalized_head r = Ok f /\ block <= f /\ block <= h).
Proof.
  intros _ Hb. unfold evm_depth, conservative_finalized.
  assert (Hc : clamp_u32 (sat_add 64 (sat_sub h block) 1) <= Z.max 0 (h - block) + 1).
  { pose proof (clamp_le (sat_add 64 (sat_sub h block) 1)). unfold sat_add, sat_sub in *. lia. }
  destruct (finalized_head r) as [fp| |]; [|now left..].
  destruct sec as [sc|]; [destruct (finalized_head sc); [|now left..]|];
    (case_goal; [right; split; [reflexivity|]; exists fp; bool_prop; split_and!; [reflexivity|lia..] | now left]).
Qed.

Lemma cross_head_le sec head h : cross_head sec head = Some h -> h <= head.
Proof. unfold cross_head. intros H. run H; lia. Qed.
End honest.

(** ** The scan of an honest endpoint *)

Section sound.
Context `{K : Keccak} {R : Type} `{AC : AmoyChain R}.

(** What a scan holds is a live log under the hashlock. *)
Definition log_found (chain : R) (htlc hashlock : bytes) (all : list EvmLog) (best : option (Z * FoundEscrow)) : Prop :=
  forall b e, best = Some (b, e) -> exists log, log ∈ all /\ el_block_number log = b /\ el_topic1 log = fe_swap_id e
    /\ decode_new_swap_data (el_data log) = Some (fe_amount e, hashlock, fe_timelock_s e)
    /\ escrow_state chain htlc (fe_swap_id e) = Some STATE_LIVE.

Lemma amoy_scan_found chain htlc hashlock all logs other best :
  logs ⊆ all -> log_found chain htlc hashlock all best ->
  log_found chain htlc hashlock all (amoy_scan chain htlc hashlock logs other best).2.
Proof.
  revert other best. induction logs as [|log logs IH]; intros other best Hsub Hb; [exact Hb|].
  assert (Hs : logs ⊆ all) by set_solver. assert (Hin : log ∈ all) by set_solver. cbn [amoy_scan].
  destruct (decode_new_swap_data (el_data log)) as [[[a h] t]|] eqn:Ed; [|now apply IH].
  case_bool_decide as Eh; cbn [negb]; [|now apply IH]. case_bool_decide as El; [|now apply IH].
  apply IH; [exact Hs|]. destruct (match best with None => _ | Some _ => _ end); [|exact Hb].
  intros b e [= <- <-]. exists log. cbn [fe_swap_id fe_amount fe_timelock_s]. subst h. auto.
Qed.

(** The two scans agree, except that the contract scan stops at a failed call. *)
Definition without_id (best : option (Z * FoundEscrow)) : option (Z * Z * Z) :=
  (fun p => (p.1, fe_amount p.2, fe_timelock_s p.2)) <$> best.

Lemma scans_agree chain htlc hashlock logs : forall other best r,
  polygon_scan chain htlc hashlock logs other (without_id best) = Some r ->
  r = ((amoy_scan chain htlc hashlock logs other best).1, without_id (amoy_scan chain htlc hashlock logs other best).2).
Proof.
  induction logs as [|log logs IH]; intros other best r; cbn [polygon_scan amoy_scan]; [now intros [= <-]|].
  destruct (decode_new_swap_data (el_data log)) as [[[a h] t]|]; [|apply IH].
  destruct (negb (bool_decide (h = hashlock))); [apply IH|]. unfold escrow_state.
  destruct (eth_call chain htlc (get_swap_calldata (el_topic1 log))) as [out| |]; try discriminate.
  destruct (bool_decide (decode_get_swap_state out = Some STATE_LIVE)); [|apply IH].
  intros H. apply IH. rewrite <- H. f_equal.
  destruct best as [[b fe]|]; [cbn; now destruct (el_block_number log <? b) | reflexivity].
Qed.

Lemma live_escrow ch htlc chain to from logs log a h t :
  evm_chain_wf ch -> EvmHonest ch htlc chain -> new_swap_logs_to chain htlc to from = Ok logs -> log ∈ logs ->
  decode_new_swap_data (el_data log) = Some (a, h, t) -> escrow_state chain htlc (el_topic1 log) = Some STATE_LIVE ->
  exists e, e ∈ ec_escrows ch /\ es_id e = el_topic1 log /\ es_receiver e = to /\ es_hashlock e = h
    /\ es_amount e = a /\ es_timelock e = t /\ es_state e = STATE_LIVE /\ el_block_number log = es_block e.
Proof.
  intros Hw Hh Hl Hin Hd Hs. destruct (eh_logs _ _ _ Hh _ _ _ _ Hl Hin) as (e & He & Hid & Hr & Hdata & Hb).
  destruct (ew_amount _ Hw e He) as [Ha Ht]. rewrite Hdata, (decode_event e Ha Ht (ew_hashlock _ Hw e He)) in Hd.
  injection Hd as <- <- <-. rewrite <- Hid in Hs.
  exists e. split_and!; auto. symmetry. now apply (eh_state _ _ _ Hh e).
Qed.

Lemma honest_depth ch htlc r sec head h e : evm_chain_wf ch -> EvmHonest ch htlc r -> e ∈ ec_escrows ch ->
  evm_head r = Ok head -> cross_head sec head = Some h ->
  evm_depth r sec h (es_block e) <= ec_head ch - es_block e + 1
  \/ (evm_depth r sec h (es_block e) = FINALIZED_CONFIRMATIONS /\ es_block e <= ec_finalized ch).
Proof.
  intros Hw Hh He Hr Hc. pose proof (ew_block _ Hw e He) as Hb. pose proof (cross_head_le _ _ _ Hc).
  pose proof (eh_head _ _ _ Hh _ Hr).
  destruct (depth_bound r sec head (es_block e) h Hc ltac:(lia)) as [Hd|(Hd & f & Hf & Hle & _)]; [left; lia|].
  right. pose proof (eh_final _ _ _ Hh _ Hf). split; [exact Hd | lia].
Qed.

Lemma timelock_floor timelock now anchor slack t :
  0 <= slack -> 0 <= anchor -> t <= term_equivalent_of_timelock_s timelock now anchor slack ->
  0 < t - anchor - slack -> now + (t - anchor - slack) <= timelock.
Proof. unfold term_equivalent_of_timelock_s, sat_add, sat_sub. lia. Qed.

(** A funder that maps the agreed timeout at its clock is accepted by a verifier that
    looks at most the slack later. *)
Lemma honest_timelock_passes term anchor slack now_f now_v :
  anchor <= term -> 0 <= anchor -> 0 <= slack -> 0 <= now_f -> now_v <= now_f + slack -> term < 2 ^ 64 ->
  now_f + (term - anchor) < 2 ^ 64 ->
  term <= term_equivalent_of_timelock_s (usdc_timelock_s term anchor now_f) now_v anchor slack.
Proof. unfold term_equivalent_of_timelock_s, usdc_timelock_s, sat_add, sat_sub. lia. Qed.
End sound.

(** ** An endpoint given by its answers, and one that reports a chain *)

Record EvmAnswers : Type := mkEvmAnswers {
  ea_call : bytes -> bytes -> bytes;
  ea_logs : bytes -> bytes -> Z -> list EvmLog;
  ea_head : Z;
  ea_finalized : Z;
  ea_receipt : bytes -> option EvmReceipt
}.

#[export] Instance EvmAnswers_chain : AmoyChain EvmAnswers := {|
  amoy_reads := {|
    eth_call := fun a to data => Ok (ea_call a to data);
    new_swap_logs_to := fun a htlc to from => Ok (ea_logs a htlc to from);
    evm_head := fun a => Ok (ea_head a);
    finalized_head := fun a => Ok (ea_finalized a)
  |};
  receipt := fun a hash => Ok (ea_receipt a hash)
|}.

Definition event_of (e : Escrow) : EvmLog := mkEvmLog (es_id e) (event_data e) (es_block e) [].

(** The six words of [getSwap]; the state is zero for an id of no escrow. *)
Definition swap_words (state : Z) : bytes := replicate 160 0 ++ word_u256 state.

Definition state_of (escrows : list Escrow) (id : bytes) : Z :=
  match List.find (fun e => bool_decide (es_id e = id)) escrows with Some e => es_state e | None => 0 end.

Section node.
Context `{K : Keccak}.

Definition evm_node (ch : EvmChain) (receipts : bytes -> option EvmReceipt) : EvmAnswers :=
  mkEvmAnswers (fun _ data => swap_words (state_of (ec_escrows ch) (drop 4 data)))
    (fun _ to from => map event_of (List.filter (fun e => bool_decide (es_receiver e = to) && (from <=? es_block e)) (ec_escrows ch)))
    (ec_head ch) (ec_finalized ch) receipts.

Lemma decode_swap_words st : uN 64 st -> decode_get_swap_state (swap_words st) = Some st.
Proof.
  intros H. unfold decode_get_swap_state, swap_words.
  rewrite len_app, word_u256_len. change (len (replicate 160 0) + 32 <? 6 * 32) with false. cbv beta iota.
  rewrite (drop_app_length' (replicate 160 0)) by reflexivity.
  rewrite take_ge by (pose proof (word_u256_len st); unfold len in *; lia). now apply word_u64_word.
Qed.

Context `{!KeccakLaws K}.

Lemma state_of_spec ch e : evm_chain_wf ch -> e ∈ ec_escrows ch -> state_of (ec_escrows ch) (es_id e) = es_state e.
Proof.
  intros Hw Hin. unfold state_of. destruct (List.find _ _) as [f|] eqn:E.
  - apply List.find_some in E as [Hf E]. bool_prop. apply list_elem_of_In in Hf.
    now rewrite (ew_unique _ Hw _ _ Hf Hin E).
  - apply (List.find_none _ _) with (x := e) in E; [|now apply list_elem_of_In].
    cbn in E. bool_prop. congruence.
Qed.

Lemma node_state a ch id : ea_call a = ea_call (evm_node ch (fun _ => None)) -> (forall e, e ∈ ec_escrows ch -> uN 64 (es_state e)) ->
  forall htlc, escrow_state a htlc id = Some (state_of (ec_escrows ch) id).
Proof.
  intros Ha Hs htlc. unfold escrow_state. cbn [eth_call amoy_reads EvmAnswers_chain]. rewrite Ha. cbn [ea_call evm_node].
  unfold get_swap_calldata. rewrite drop_selector. apply decode_swap_words. unfold state_of.
  destruct (List.find _ _) as [f|] eqn:E; [|unfold uN; lia]. apply List.find_some in E as [Hf _].
  apply Hs. now apply list_elem_of_In.
Qed.

Lemma evm_node_honest ch htlc receipts : evm_chain_wf ch -> (forall e, e ∈ ec_escrows ch -> uN 64 (es_state e)) ->
  EvmHonest ch htlc (evm_node ch receipts).
Proof.
  intros Hw Hs. split.
  - intros to from logs log [= <-] Hl. cbn [ea_logs evm_node] in Hl.
    apply list_elem_of_In, in_map_iff in Hl as (e & <- & He). apply filter_In in He as [He Hf]. bool_prop. apply list_elem_of_In in He. exists e. cbn. auto.
  - intros e st He. rewrite (node_state (evm_node ch receipts) ch) by (reflexivity || assumption).
    rewrite state_of_spec by assumption. now intros [= <-].
  - intros h [= <-]. cbn. lia.
  - intros f [= <-]. cbn. lia.
Qed.
End node.

(** ** Properties *)

(** C13: the funding gate of the USDC leg, on the chain.  With a primary endpoint that
    reports the contract honestly, a funding that passes the gate is an escrow of the
    contract that is live, pays the verifier's own account under the agreed hashlock,
    holds at least the agreed amount, is as deep as required or finalized, and cannot
    be refunded before the agreed number of seconds from now less the slack; and the
    store names exactly that escrow for the claim.  A funder that maps the agreed
    timeout honestly passes the timeout test while the verifier looks within the
    slack. *)
Theorem usdc_funding_on_chain `{K : Keccak} {R : Type} `{AC : AmoyChain R} (ch : EvmChain)
    (v : AmoyHtlcSwapVerifier R) (Hw : evm_chain_wf ch) (Hh : EvmHonest ch (av_htlc v) (av_chain v)) :
  (forall x n d, require_funded (observe v x) x n = Ok d -> 0 <= av_slack_s v -> 0 <= x_term_anchor x ->
     exists e, e ∈ ec_escrows ch /\ es_state e = STATE_LIVE /\ es_receiver e = av_own_claim_address v
       /\ es_hashlock e = x_hashlock x /\ x_min_amount x <= es_amount e
       /\ (n <= ec_head ch - es_block e + 1 \/ (d = FINALIZED_CONFIRMATIONS /\ es_block e <= ec_finalized ch))
       /\ (let left := x_min_timeout x - x_term_anchor x - av_slack_s v in
           0 < left -> av_clock_s v + left <= es_timelock e)
       /\ store_found (amoy_observe v x).1 (x_hashlock x) = Some (mkFoundEscrow (es_id e) (es_amount e) (es_timelock e)))
  /\ (forall term anchor now_f, anchor <= term -> 0 <= anchor -> 0 <= av_slack_s v -> 0 <= now_f ->
        av_clock_s v <= now_f + av_slack_s v -> term < 2 ^ 64 -> now_f + (term - anchor) < 2 ^ 64 ->
        term <= term_equivalent_of_timelock_s (usdc_timelock_s term anchor now_f) (av_clock_s v) anchor (av_slack_s v)).
Proof.
  split; [|intros; now apply honest_timelock_passes].
  intros x n d (a & t & Ho & Ha & Ht & Hd)%require_funded_iff Hs Han. cbn [observe AmoyHtlcSwapVerifier_verifier] in Ho.
  unfold amoy_observe in *. destruct (x_leg x); [discriminate|].
  destruct (anchor (av_store v) (av_chain v)) as [s [an|]]; [|discriminate].
  destruct (new_swap_logs_to _ _ _ _) as [logs| |] eqn:El; try discriminate.
  destruct (evm_head (av_chain v)) as [head| |] eqn:Eh; try discriminate.
  destruct (cross_head (av_secondary v) head) as [h|] eqn:Ec; [|discriminate].
  pose proof (amoy_scan_found (av_chain v) (av_htlc v) (x_hashlock x) logs logs false None ltac:(set_solver)
                ltac:(intros ? ? [=])) as Hf.
  destruct (amoy_scan (av_chain v) (av_htlc v) (x_hashlock x) logs false None) as [other [[block fe]|]];
    [|destruct other; discriminate].
  cbn [snd] in Hf. destruct (negb (secondary_live v (fe_swap_id fe))); [destruct other; discriminate|].
  assert (Hother : forall A (y : A), (if other then y else y) = y) by now destruct other.
  rewrite !Hother in *.
  cbn [fst snd] in *. injection Ho as <- <- <-.
  destruct (Hf _ _ eq_refl) as (log & Hin & <- & Hid & Hdec & Hlive). rewrite <- Hid in Hlive.
  destruct (live_escrow ch _ _ _ _ _ _ _ _ _ Hw Hh El Hin Hdec Hlive) as (e & He & Hei & Hr & Hhl & Hea & Het & Hst & Hb).
  rewrite Hb in Hd. rewrite Hb. exists e. rewrite Hea, Het, Hei, Hid. split_and!; auto.
  - destruct (honest_depth ch _ _ _ _ _ e Hw Hh He Eh Ec) as [?|[? ?]]; [left; lia | right; auto].
  - intros Hl. now apply (timelock_floor _ _ (x_term_anchor x) (av_slack_s v)).
  - unfold store_found, record_found. cbn [st_found]. rewrite lookup_insert_eq. now destruct fe.
Qed.

(** The contract scan finds an escrow of the contract too, with its timelock in
    seconds as it stands there. *)
Theorem polygon_funding_on_chain `{K : Keccak} {R : Type} `{AC : AmoyChain R} (ch : EvmChain)
    (v : PolygonHtlcVerifier R) (Hw : evm_chain_wf ch) (Hh : EvmHonest ch (pv_htlc v) (pv_reads v))
    (x : HtlcExpectation) (a t d : Z) (Ho : observe v x = Found a t d) :
  exists e, e ∈ ec_escrows ch /\ es_state e = STATE_LIVE /\ es_receiver e = x_recipient x
    /\ es_hashlock e = x_hashlock x /\ es_amount e = a /\ es_timelock e = t
    /\ (d <= ec_head ch - es_block e + 1 \/ (d = FINALIZED_CONFIRMATIONS /\ es_block e <= ec_finalized ch)).
Proof.
  cbn [observe PolygonHtlcVerifier_verifier] in Ho. destruct (x_leg x); [discriminate|]. unfold observe_usdc in Ho.
  destruct (try_array 20 (x_recipient x)) as [to|] eqn:Er; [|discriminate]. apply try_array_inv in Er as [-> _].
  destruct (new_swap_logs_to _ _ _ _) as [logs| |] eqn:El; try discriminate.
  destruct (evm_head (pv_reads v)) as [head| |] eqn:Eh; try discriminate.
  destruct (cross_head (pv_secondary v) head) as [h|] eqn:Ec; [|discriminate].
  destruct (polygon_scan _ _ _ _ _ _) as [[o b]|] eqn:Es; [|discriminate].
  apply (scans_agree _ _ _ _ false None) in Es. injection Es as -> ->.
  pose proof (amoy_scan_found (pv_reads v) (pv_htlc v) (x_hashlock x) logs logs false None ltac:(set_solver)
                ltac:(intros ? ? [=])) as Hf.
  destruct (amoy_scan (pv_reads v) (pv_htlc v) (x_hashlock x) logs false None) as [other [[block fe]|]];
    [|destruct other; discriminate].
  destruct (Hf _ _ eq_refl) as (log & Hin & <- & Hid & Hdec & Hlive). rewrite <- Hid in Hlive.
  destruct (live_escrow ch _ _ _ _ _ _ _ _ _ Hw Hh El Hin Hdec Hlive) as (e & He & Hei & Hr & Hhl & Hea & Het & Hst & Hb).
  assert (Found (fe_amount fe) (fe_timelock_s fe) (evm_depth (pv_reads v) (pv_secondary v) h (el_block_number log))
          = Found a t d) as [= <- <- <-] by now destruct other.
  rewrite Hb. exists e. split_and!; auto. exact (honest_depth ch _ _ _ _ _ e Hw Hh He Eh Ec).
Qed.

Definition sample_escrow : Escrow := mkEscrow (replicate 32 9) (replicate 20 2) 5000000 (replicate 32 7) 20000 90 STATE_LIVE.

Definition sample_evm_chain : EvmChain := mkEvmChain [sample_escrow] 100 95.

Lemma sample_evm_wf : evm_chain_wf sample_evm_chain /\ forall e, e ∈ ec_escrows sample_evm_chain -> uN 64 (es_state e).
Proof.
  split; [split|]; cbn; setoid_rewrite list_elem_of_singleton.
  - now intros e f -> ->.
  - intros e ->. reflexivity.
  - intros e ->. cbn. unfold uN. lia.
  - intros e ->. cbn. lia.
  - intros e ->. cbn. unfold uN, STATE_LIVE. lia.
Qed.

Definition sample_amoy : AmoyHtlcSwapVerifier EvmAnswers :=
  note_funding_wire
    (amoy_verifier_new (evm_node sample_evm_chain (fun _ => Some (mkEvmReceipt [] true 90)))
       (replicate 20 4) (replicate 20 2) polygon_store_new 10000)
    LegCounterparty [1; 2; 3].

Definition sample_usdc_expect : HtlcExpectation :=
  mkExpect LegCounterparty (replicate 32 7) 5000000 8000 (replicate 20 0) 0.

Lemma usdc_funding_on_chain_witness :
  require_funded (observe sample_amoy sample_usdc_expect) sample_usdc_expect 5 = Ok FINALIZED_CONFIRMATIONS
  /\ exists e, e ∈ ec_escrows sample_evm_chain /\ es_state e = STATE_LIVE /\ 10000 + 7100 <= es_timelock e.
Proof.
  split; [vm_compute; reflexivity|].
  destruct (usdc_funding_on_chain (K := ToyKeccak) sample_evm_chain sample_amoy (proj1 sample_evm_wf)
    (evm_node_honest sample_evm_chain _ _ (proj1 sample_evm_wf) (proj2 sample_evm_wf))) as [H _].
  destruct (H sample_usdc_expect 5 FINALIZED_CONFIRMATIONS ltac:(vm_compute; reflexivity) ltac:(vm_compute; discriminate)
    ltac:(vm_compute; discriminate)) as (e & He & Hst & _ & _ & _ & _ & Ht & _).
  exists e. split_and!; [exact He | exact Hst | exact (Ht ltac:(vm_compute; reflexivity))].
Defined.

(** The cross-read of the USDC leg does not bind the terms.  The verifier says that
    with an independent secondary a single lying endpoint can neither inflate the depth
    nor fake a live escrow.  The secondary is asked for its heights and for the state
    of one escrow id; whom that escrow pays, its hashlock, amount, timelock and block
    come from the primary's logs alone.  For every contract with a live escrow,
    whoever it pays, and every hashlock, amount and timelock, some primary makes a
    verifier with a secondary that reports the contract truthfully find a finalized
    funding on those terms. *)
Theorem amoy_liar_fakes_funding `{K : Keccak} `{KL : !KeccakLaws K} (ch : EvmChain) (e : Escrow)
    (htlc own wire : bytes) (now amount timelock : Z) (x : HtlcExpectation)
    (Hw : evm_chain_wf ch) (Hs : forall f, f ∈ ec_escrows ch -> uN 64 (es_state f))
    (He : e ∈ ec_escrows ch) (Hlive : es_state e = STATE_LIVE) (Hfin : 0 <= ec_finalized ch)
    (Hx : x_leg x = LegCounterparty) (Hhl : len (x_hashlock x) = 32) (Ha : uN 64 amount) (Ht : uN 64 timelock) :
  EvmHonest ch htlc (evm_node ch (fun _ => None))
  /\ exists liar,
       observe (amoy_with_secondary (note_funding_wire (amoy_verifier_new liar htlc own polygon_store_new now)
                                       LegCounterparty wire)
                  (evm_node ch (fun _ => None))) x
       = Found amount (term_equivalent_of_timelock_s timelock now (x_term_anchor x) DEFAULT_TIMELOCK_SLACK_S)
           FINALIZED_CONFIRMATIONS.
Proof.
  split; [now apply evm_node_honest|].
  set (fake := mkEscrow (es_id e) own amount (x_hashlock x) timelock 0 STATE_LIVE).
  exists (mkEvmAnswers (ea_call (evm_node ch (fun _ => None))) (fun _ _ _ => [event_of fake]) (ec_head ch)
            (ec_finalized ch) (fun _ => Some (mkEvmReceipt [] true 0))).
  set (liar := mkEvmAnswers _ _ _ _ _).
  pose proof (ew_block _ Hw e He) as Hb.
  assert (Hst : forall a, ea_call a = ea_call (evm_node ch (fun _ => None)) -> escrow_state a htlc (es_id e) = Some STATE_LIVE).
  { intros a Hcall. rewrite (node_state a ch _ Hcall Hs), (state_of_spec ch e Hw He). now f_equal. }
  assert (Hn : note_candidate polygon_store_new wire = mkStore [keccak256 wire] None ∅).
  { unfold note_candidate. rewrite bool_decide_false by apply not_elem_of_nil. reflexivity. }
  cbn [observe AmoyHtlcSwapVerifier_verifier note_funding_wire]. unfold amoy_verifier_new at 2. cbn [av_store].
  rewrite Hn. unfold amoy_observe. rewrite Hx. unfold secondary_live.
  cbn [av_store av_chain av_htlc av_own_claim_address av_secondary av_slack_s av_clock_s av_from_block_margin
       amoy_with_secondary amoy_set_store amoy_verifier_new].
  unfold anchor. cbn [st_candidates st_anchor_block st_found foldl receipt EvmAnswers_chain ea_receipt liar er_success er_block_number].
  cbn [new_swap_logs_to evm_head amoy_reads EvmAnswers_chain ea_logs ea_head liar].
  unfold cross_head. cbn [evm_head amoy_reads EvmAnswers_chain ea_head evm_node]. rewrite Z.sub_diag, Z.min_id.
  change (Z.abs 0 <=? HEAD_CROSS_TOLERANCE_BLOCKS) with true. cbv beta iota.
  cbn [amoy_scan el_data el_topic1 el_block_number event_of].
  rewrite (decode_event fake) by assumption. cbn [es_hashlock es_amount es_timelock es_id es_block fake].
  rewrite bool_decide_true by reflexivity. cbn [negb]. rewrite (Hst liar) by reflexivity.
  rewrite bool_decide_true by reflexivity. cbn [fe_swap_id].
  rewrite Hst by reflexivity. rewrite bool_decide_true by reflexivity. cbn [negb fst snd fe_amount fe_timelock_s].
  f_equal. unfold evm_depth, conservative_finalized. cbn [finalized_head amoy_reads EvmAnswers_chain ea_finalized evm_node liar].
  rewrite Z.min_id. destruct (Z.leb_spec 0 (Z.min (ec_finalized ch) (ec_head ch))); [reflexivity | lia].
Qed.

Lemma amoy_liar_fakes_funding_witness :
  (forall e, e ∈ ec_escrows sample_evm_chain -> es_receiver e <> replicate 20 3)
  /\ exists liar,
       observe (amoy_with_secondary (note_funding_wire (amoy_verifier_new liar (replicate 20 4) (replicate 20 3)
                                       polygon_store_new 10000) LegCounterparty [1])
                  (evm_node sample_evm_chain (fun _ => None)))
         (mkExpect LegCounterparty (replicate 32 8) 900000000 8000 [] 0)
       = Found 900000000 (term_equivalent_of_timelock_s 50000 10000 0 900) FINALIZED_CONFIRMATIONS.
Proof.
  split; [intros e; cbn; rewrite list_elem_of_singleton; intros ->; discriminate|].
  exact (proj2 (amoy_liar_fakes_funding (K := ToyKeccak) sample_evm_chain sample_escrow (replicate 20 4) (replicate 20 3)
    [1] 10000 900000000 50000 (mkExpect LegCounterparty (replicate 32 8) 900000000 8000 [] 0)
    (proj1 sample_evm_wf) (proj2 sample_evm_wf) ltac:(cbn; now left) eq_refl ltac:(cbn; lia) eq_refl eq_refl
    ltac:(unfold uN; lia) ltac:(unfold uN; lia))).
Defined.
