(* ===== verification/LiveSigner.v ===== *)
(** * LiveSigner: the signers that move real funds ([live_swap_signer.rs],
    [mainnet_swap.rs], [evm_signer.rs])

    The two instances of the signer interface of [SwapNode] for a NIM/USDC swap.  The
    Polygon endpoint is any instance of [LiveChain], a world that answers each call
    and moves on, so that what a poll sees may differ from the next; the Nimiq
    endpoint is a [GatewayRpc].  Between polls the code sleeps, which is the world's
    to use.  The lines printed to the log are not modelled. *)

From stdpp Require Import base list gmap strings sets.
From Stdlib Require Import ZArith Lia.
From S2P Require Import Prelude Packet Crypto SwapWire Swap SwapIntent FundingVerify SwapMessages SwapCoordinator SwapSession SwapNode Address NimTx Gateway NimHtlc NimVerifier Evm UsdcLeg EvmVerifier.
Open Scope Z_scope.

(** ** The master switch ([mainnet_swap.rs]) *)

Definition MAINNET_SWAP_ENABLED : bool := true.
Definition MAINNET_HTLC_ADDRESS : str := chars "0x842617Ee5365FBa589509c7ffF1fD3Db30a29177".

Definition live_swap_allowed (n : NetworkId) : bool :=
  match n with Testnet => true | Mainnet => MAINNET_SWAP_ENABLED end.

Definition live_swap_allowed_wire (network_id : Z) : bool :=
  if network_id =? wire_id Testnet then true
  else if network_id =? wire_id Mainnet then MAINNET_SWAP_ENABLED
  else false.

Definition mainnet_swap_armed : bool :=
  MAINNET_SWAP_ENABLED && negb (bool_decide (MAINNET_HTLC_ADDRESS = [])).

(** ** The key ([evm_signer.rs]) *)

(** The secret stays behind the seam: the public key [X || Y] and the signature of a
    hash come out of it. *)
Record LocalEvmKey : Type := mkEvmKey { lk_pubkey : bytes; lk_sign : bytes -> bytes * bytes * Z }.

#[export] Instance LocalEvmKey_signer : EvmSigner LocalEvmKey := {| sign_hash := lk_sign |}.

Definition key_address `{Keccak} (k : LocalEvmKey) : bytes := evm_address (lk_pubkey k).

(** ** Constants and configuration *)

Definition MAX_BOOK_ENTRIES : Z := 32.
Definition MAX_LEG_TIMELOCK_AHEAD_S : Z := 6 * 3600.
Definition REVEAL_MIN_CONFIRMATIONS : Z := 2.

Record PeerAddressing : Type := mkPeerAddressing { pa_nim_address : bytes; pa_chain_address : bytes }.

Abbreviation PeerBook := (gmap (list Z) PeerAddressing).

(** [PeerBook::note]; [get] is the lookup *)
Definition note_addressing (b : PeerBook) (swap_id : bytes) (peer : PeerAddressing) : PeerBook :=
  if bool_decide (is_Some (b !! swap_id)) || (MAX_BOOK_ENTRIES <=? Z.of_nat (size b)) then b
  else <[swap_id := peer]> b.

Record EvmGasConfig : Type := mkGasConfig {
  min_gas_price : Z;
  max_gas_price : Z;
  gas_approve : Z;
  gas_new_swap : Z;
  gas_withdraw : Z;
  gas_refund_reserve : Z
}.

Definition gas_default : EvmGasConfig := mkGasConfig 30000000000 50000000000 90000 280000 170000 140000.

Record LivePollConfig : Type := mkPollConfig { attempts : Z; interval_ms : Z }.

Definition poll_default : LivePollConfig := mkPollConfig 60 3000.

(** [u64::clamp], which panics when the bounds are crossed; the configurations of the
    code have [min_gas_price <= max_gas_price]. *)
Definition clamp (v lo hi : Z) : Z := Z.min hi (Z.max lo v).

(** ** The Polygon endpoint *)

Class LiveChain (A : Type) : Type := {
  lc_gas_price : A -> A * res EvmRpcError Z;
  lc_transaction_count : A -> bytes -> A * res EvmRpcError Z;
  lc_balance : A -> bytes -> A * res EvmRpcError Z;
  lc_send_raw : A -> bytes -> A * res EvmRpcError str;
  lc_receipt : A -> bytes -> A * res EvmRpcError (option EvmReceipt);
  lc_call : A -> bytes -> bytes -> A * res EvmRpcError bytes;
  lc_head : A -> A * res EvmRpcError Z
}.

Section evm.
Context `{K : Keccak} {A : Type} `{LC : LiveChain A}.

Definition live_escrow_state (a : A) (htlc swap_id : bytes) : A * option Z :=
  let '(a, r) := lc_call a htlc (get_swap_calldata swap_id) in
  (a, match r with Ok out => decode_get_swap_state out | _ => None end).

(** The constructor [send_evm_tx] selects *)
Definition live_tx (chain_id nonce gas_price gas_limit : Z) (to data : bytes) : LegacyTx :=
  if chain_id =? POLYGON_MAINNET_CHAIN_ID then polygon_mainnet nonce gas_price gas_limit to 0 data
  else polygon_amoy nonce gas_price gas_limit to 0 data.

Definition send_evm_tx (a : A) (key : LocalEvmKey) (chain_id nonce gas_price gas_limit : Z) (to data : bytes)
  : A * option (bytes * bytes) :=
  let raw := sign_with (live_tx chain_id nonce gas_price gas_limit to data) key in
  let hash := keccak256 raw in
  let '(a, r) := lc_send_raw a raw in
  match r with
  | Ok _ => (a, Some (raw, hash))
  | _ =>
      let '(a, rc) := lc_receipt a hash in
      (a, match rc with Ok (Some _) => Some (raw, hash) | _ => None end)
  end.

(** The loop of [wait_receipt] *)
Fixpoint poll_receipt (n : nat) (a : A) (hash : bytes) : A * option EvmReceipt :=
  match n with
  | O => (a, None)
  | S n =>
      let '(a, r) := lc_receipt a hash in
      match r with Ok (Some rc) => (a, Some rc) | _ => poll_receipt n a hash end
  end.

Definition poll_turns (p : LivePollConfig) : nat := Z.to_nat (Z.max 1 (attempts p)).

Definition wait_receipt (a : A) (hash : bytes) (p : LivePollConfig) : A * option EvmReceipt :=
  poll_receipt (poll_turns p) a hash.
End evm.

Definition broadcast_nim {N} `{GatewayRpc N} (rpc : N) (wire tx_hash : bytes) : N * bool :=
  let '(rpc, r) := send_raw_transaction rpc (bytes_to_hex wire) in
  match r with
  | Ok _ => (rpc, true)
  | _ =>
      let '(rpc, t) := get_transaction rpc (bytes_to_hex tx_hash) in
      (rpc, match t with Ok (Some _) => true | _ => false end)
  end.

(** ** The initiator *)

Section initiator.
Context `{C : Crypto} `{K : Keccak} {N A : Type} `{RPC : GatewayRpc N} `{LC : LiveChain A}.

Record LiveInitiatorConfig : Type := mkInitiatorConfig {
  ic_nim_key : EnclaveKey;
  ic_evm_gas_key : LocalEvmKey;
  ic_htlc : bytes;
  ic_gas : EvmGasConfig;
  ic_poll : LivePollConfig
}.

Record LiveInitiatorSigner : Type := mkLiveInitiator {
  li_cfg : LiveInitiatorConfig;
  li_nim_rpc : N;
  li_amoy : A;
  (** Shared with the verifier: as it left the store at the call *)
  li_store : PolygonFundingStore;
  li_peer_book : PeerBook;
  (** [(self.clock_ms)()] at the call *)
  li_clock_ms : Z;
  li_evm_chain_id : Z;
  li_last_claim : option (bytes * bytes)
}.

Definition live_initiator_new (cfg : LiveInitiatorConfig) (rpc : N) (amoy : A) (store : PolygonFundingStore)
    (book : PeerBook) (now_ms : Z) : LiveInitiatorSigner :=
  mkLiveInitiator cfg rpc amoy store book now_ms POLYGON_AMOY_CHAIN_ID None.

Definition li_with_nim (s : LiveInitiatorSigner) (rpc : N) : LiveInitiatorSigner :=
  mkLiveInitiator (li_cfg s) rpc (li_amoy s) (li_store s) (li_peer_book s) (li_clock_ms s) (li_evm_chain_id s) (li_last_claim s).
Definition li_with_amoy (s : LiveInitiatorSigner) (a : A) : LiveInitiatorSigner :=
  mkLiveInitiator (li_cfg s) (li_nim_rpc s) a (li_store s) (li_peer_book s) (li_clock_ms s) (li_evm_chain_id s) (li_last_claim s).
Definition li_with_claim (s : LiveInitiatorSigner) (c : bytes * bytes) : LiveInitiatorSigner :=
  mkLiveInitiator (li_cfg s) (li_nim_rpc s) (li_amoy s) (li_store s) (li_peer_book s) (li_clock_ms s) (li_evm_chain_id s) (Some c).
Definition li_with_book (s : LiveInitiatorSigner) (b : PeerBook) : LiveInitiatorSigner :=
  mkLiveInitiator (li_cfg s) (li_nim_rpc s) (li_amoy s) (li_store s) b (li_clock_ms s) (li_evm_chain_id s) (li_last_claim s).

(** The contract that [fund_nim] creates at a head *)
Definition nim_creation (funder_pk : bytes) (peer : PeerAddressing) (ctx : SwapContext) (timeout_ms head : Z) : HtlcCreation :=
  let funder := address_of funder_pk in
  mkCreation funder (mkHtlcData funder (pa_nim_address peer) HaSha256 (cx_hashlock ctx) 1 timeout_ms)
    (cx_give_amount ctx) 0 head (cx_network_id ctx).

Definition fund_nim (s : LiveInitiatorSigner) (ctx : SwapContext) : LiveInitiatorSigner * option (bytes * bytes) :=
  if negb (live_swap_allowed_wire (cx_network_id ctx)) then (s, None) else
  match li_peer_book s !! cx_swap_id ctx with
  | None => (s, None)
  | Some peer =>
      let '(rpc, r) := block_number (li_nim_rpc s) in
      let s := li_with_nim s rpc in
      match r with
      | Ok head =>
          match try_array 32 (ek_public_key (ic_nim_key (li_cfg s))) with
          | None => (s, None)
          | Some funder_pk =>
              let now_ms := li_clock_ms s in
              let timeout_ms := nim_htlc_timeout_ms (nim_timeout (cx_terms ctx)) (cx_term_anchor ctx) now_ms in
              if (timeout_ms <=? now_ms) || (wrapN 64 (now_ms + MAX_LEG_TIMELOCK_AHEAD_S * 1000) <? timeout_ms)
              then (s, None) else
              let creation := nim_creation funder_pk peer ctx timeout_ms head in
              match try_array 64 (ek_sign_content (ic_nim_key (li_cfg s)) (creation_content creation)) with
              | None => (s, None)
              | Some signature =>
                  let wire := creation_wire creation (signature_proof_single_sig funder_pk signature) in
                  let tx_hash := creation_hash creation in
                  let '(rpc, ok) := broadcast_nim (li_nim_rpc s) wire tx_hash in
                  let s := li_with_nim s rpc in
                  (s, if ok then Some (wire, tx_hash) else None)
              end
          end
      | _ => (s, None)
      end
  end.

Definition withdraw_deep_enough (a : A) (tx_hash : bytes) : A * bool :=
  let '(a, r) := lc_receipt a tx_hash in
  match r with
  | Ok (Some rc) =>
      if negb (er_success rc) then (a, false) else
      let '(a, h) := lc_head a in
      (a, match h with
          | Ok head => REVEAL_MIN_CONFIRMATIONS <=? sat_add 64 (sat_sub head (er_block_number rc)) 1
          | _ => false
          end)
  | _ => (a, false)
  end.

Definition reveal_confirmed (a : A) (htlc swap_id tx_hash : bytes) : A * bool :=
  let '(a, st) := live_escrow_state a htlc swap_id in
  if bool_decide (st = Some STATE_CLAIMED) then withdraw_deep_enough a tx_hash else (a, false).

(** The loop that holds the reveal back *)
Fixpoint poll_reveal (n : nat) (a : A) (htlc swap_id hash : bytes) : A * bool :=
  match n with
  | O => (a, false)
  | S n =>
      let '(a, ok) := reveal_confirmed a htlc swap_id hash in
      if ok then (a, true) else poll_reveal n a htlc swap_id hash
  end.

Definition claim_usdc (s : LiveInitiatorSigner) (ctx : SwapContext) (secret : bytes)
  : LiveInitiatorSigner * option (bytes * bytes) :=
  match store_found (li_store s) (cx_hashlock ctx) with
  | None => (s, None)
  | Some escrow =>
      let cfg := li_cfg s in
      match li_last_claim s with
      | Some (wire, id) =>
          let '(a, ok) := reveal_confirmed (li_amoy s) (ic_htlc cfg) (fe_swap_id escrow) id in
          (li_with_amoy s a, if ok then Some (wire, id) else None)
      | None =>
          let me := key_address (ic_evm_gas_key cfg) in
          let '(a, g) := lc_gas_price (li_amoy s) in
          match g with
          | Ok price =>
              let gas_price := clamp price (min_gas_price (ic_gas cfg)) (max_gas_price (ic_gas cfg)) in
              let '(a, nr) := lc_transaction_count a me in
              match nr with
              | Ok nonce =>
                  let '(a, sent) := send_evm_tx a (ic_evm_gas_key cfg) (li_evm_chain_id s) nonce gas_price
                                      (gas_withdraw (ic_gas cfg)) (ic_htlc cfg) (htlc_withdraw (fe_swap_id escrow) secret) in
                  match sent with
                  | None => (li_with_amoy s a, None)
                  | Some (raw, hash) =>
                      let '(a, rc) := wait_receipt a hash (ic_poll cfg) in
                      match rc with
                      | None => (li_with_amoy s a, None)
                      | Some receipt =>
                          if negb (er_success receipt) then (li_with_amoy s a, None) else
                          let wire := secret ++ raw in
                          let s := li_with_claim s (wire, hash) in
                          let '(a, ok) := poll_reveal (poll_turns (ic_poll cfg)) a (ic_htlc cfg) (fe_swap_id escrow) hash in
                          (li_with_amoy s a, if ok then Some (wire, hash) else None)
                      end
                  end
              | _ => (li_with_amoy s a, None)
              end
          | _ => (li_with_amoy s a, None)
          end
      end
  end.

#[export] Instance LiveInitiator_signer : SwapSigner LiveInitiatorSigner := {|
  build_funding := fun s ctx leg => match leg with LegNim => fund_nim s ctx | LegCounterparty => (s, None) end;
  build_claim := claim_usdc;
  note_peer := fun s swap_id nim chain =>
    li_with_book s (note_addressing (li_peer_book s) swap_id (mkPeerAddressing nim chain));
  is_live := fun _ => true
|}.
End initiator.

(** ** The responder *)

Section responder.
Context `{C : Crypto} `{K : Keccak} {N A : Type} `{RPC : GatewayRpc N} `{LC : LiveChain A}.

Record LiveResponderConfig : Type := mkResponderConfig {
  rc_evm_key : LocalEvmKey;
  rc_htlc : bytes;
  rc_usdc : bytes;
  rc_nim_claim_key : EnclaveKey;
  rc_gas : EvmGasConfig;
  rc_poll : LivePollConfig
}.

(** A landed funding: the raw [newSwap] wire, its tx id and the id of the escrow *)
Abbreviation LandedFunding := (bytes * bytes * bytes)%type.

Record LiveResponderSigner : Type := mkLiveResponder {
  lr_cfg : LiveResponderConfig;
  lr_nim_rpc : N;
  lr_amoy : A;
  (** Shared with the verifier: as it left the store at the call *)
  lr_nim_store : NimFundingStore;
  lr_peer_book : PeerBook;
  (** [(self.clock_s)()] at the call *)
  lr_clock_s : Z;
  lr_evm_chain_id : Z;
  lr_last_funding : option LandedFunding
}.

Definition live_responder_new (cfg : LiveResponderConfig) (rpc : N) (amoy : A) (store : NimFundingStore)
    (book : PeerBook) (now_s : Z) : LiveResponderSigner :=
  mkLiveResponder cfg rpc amoy store book now_s POLYGON_AMOY_CHAIN_ID None.

Definition lr_with_nim (s : LiveResponderSigner) (rpc : N) : LiveResponderSigner :=
  mkLiveResponder (lr_cfg s) rpc (lr_amoy s) (lr_nim_store s) (lr_peer_book s) (lr_clock_s s) (lr_evm_chain_id s) (lr_last_funding s).
Definition lr_with_amoy (s : LiveResponderSigner) (a : A) : LiveResponderSigner :=
  mkLiveResponder (lr_cfg s) (lr_nim_rpc s) a (lr_nim_store s) (lr_peer_book s) (lr_clock_s s) (lr_evm_chain_id s) (lr_last_funding s).
Definition lr_with_funding (s : LiveResponderSigner) (f : LandedFunding) : LiveResponderSigner :=
  mkLiveResponder (lr_cfg s) (lr_nim_rpc s) (lr_amoy s) (lr_nim_store s) (lr_peer_book s) (lr_clock_s s) (lr_evm_chain_id s) (Some f).
Definition lr_with_book (s : LiveResponderSigner) (b : PeerBook) : LiveResponderSigner :=
  mkLiveResponder (lr_cfg s) (lr_nim_rpc s) (lr_amoy s) (lr_nim_store s) b (lr_clock_s s) (lr_evm_chain_id s) (lr_last_funding s).
(** [LiveResponderSigner::with_clock] and [with_evm_chain_id] *)
Definition lr_with_clock (s : LiveResponderSigner) (now_s : Z) : LiveResponderSigner :=
  mkLiveResponder (lr_cfg s) (lr_nim_rpc s) (lr_amoy s) (lr_nim_store s) (lr_peer_book s) now_s (lr_evm_chain_id s) (lr_last_funding s).
Definition lr_with_evm_chain_id (s : LiveResponderSigner) (chain_id : Z) : LiveResponderSigner :=
  mkLiveResponder (lr_cfg s) (lr_nim_rpc s) (lr_amoy s) (lr_nim_store s) (lr_peer_book s) (lr_clock_s s) chain_id (lr_last_funding s).

(** The replay at the head of [fund_usdc] *)
Definition replay_funding (s : LiveResponderSigner) : LiveResponderSigner * option (bytes * bytes) :=
  match lr_last_funding s with
  | None => (s, None)
  | Some (wire, id, swap_id) =>
      let '(a, st) := live_escrow_state (lr_amoy s) (rc_htlc (lr_cfg s)) swap_id in
      (lr_with_amoy s a,
       if bool_decide (st = Some STATE_LIVE) || bool_decide (st = Some STATE_CLAIMED) then Some (wire, id) else None)
  end.

(** The budget of the preflight: three gas limits at the clamped price *)
Definition fund_budget (g : EvmGasConfig) (gas_price : Z) : Z :=
  sat_mul 64 (wrapN 64 (gas_approve g + gas_new_swap g + gas_refund_reserve g)) gas_price.

(** The two transactions of [fund_usdc], from the [nonce] on: [approve], then [newSwap] *)
Definition escrow_usdc (s : LiveResponderSigner) (ctx : SwapContext) (receiver : bytes) (timelock_s gas_price nonce : Z)
  : LiveResponderSigner * option (bytes * bytes) :=
  let cfg := lr_cfg s in
  let amount := cx_take_amount ctx in
  let '(a, sent) := send_evm_tx (lr_amoy s) (rc_evm_key cfg) (lr_evm_chain_id s) nonce gas_price
                      (gas_approve (rc_gas cfg)) (rc_usdc cfg) (erc20_approve (rc_htlc cfg) amount) in
  match sent with
  | None => (lr_with_amoy s a, None)
  | Some (_, approve_hash) =>
      let nonce := wrapN 64 (nonce + 1) in
      let '(a, rc) := wait_receipt a approve_hash (rc_poll cfg) in
      match rc with
      | None => (lr_with_amoy s a, None)
      | Some receipt =>
          if negb (er_success receipt) then (lr_with_amoy s a, None) else
          let '(a, sent) := send_evm_tx a (rc_evm_key cfg) (lr_evm_chain_id s) nonce gas_price
                              (gas_new_swap (rc_gas cfg)) (rc_htlc cfg)
                              (htlc_new_swap receiver amount (cx_hashlock ctx) timelock_s) in
          match sent with
          | None => (lr_with_amoy s a, None)
          | Some (raw, new_swap_hash) =>
              let '(a, rc) := wait_receipt a new_swap_hash (rc_poll cfg) in
              match rc with
              | None => (lr_with_amoy s a, None)
              | Some receipt =>
                  if negb (er_success receipt) then (lr_with_amoy s a, None) else
                  let swap_id := usdc_swap_id (key_address (rc_evm_key cfg)) receiver amount (cx_hashlock ctx) timelock_s in
                  (lr_with_funding (lr_with_amoy s a) (raw, new_swap_hash, swap_id), Some (raw, new_swap_hash))
              end
          end
      end
  end.

Definition fund_usdc (s : LiveResponderSigner) (ctx : SwapContext) : LiveResponderSigner * option (bytes * bytes) :=
  let '(s, replay) := replay_funding s in
  match replay with
  | Some landed => (s, Some landed)
  | None =>
      match lr_peer_book s !! cx_swap_id ctx with
      | None => (s, None)
      | Some peer =>
          match try_array 20 (pa_chain_address peer) with
          | None => (s, None)
          | Some receiver =>
              let cfg := lr_cfg s in
              let me := key_address (rc_evm_key cfg) in
              let now_s := lr_clock_s s in
              let timelock_s := usdc_timelock_s (counterparty_timeout (cx_terms ctx)) (cx_term_anchor ctx) now_s in
              if (timelock_s <=? now_s) || (wrapN 64 (now_s + MAX_LEG_TIMELOCK_AHEAD_S) <? timelock_s) then (s, None) else
              let '(a, g) := lc_gas_price (lr_amoy s) in
              let s := lr_with_amoy s a in
              match g with
              | Ok price =>
                  let gas_price := clamp price (min_gas_price (rc_gas cfg)) (max_gas_price (rc_gas cfg)) in
                  let '(a, b) := lc_balance (lr_amoy s) me in
                  let s := lr_with_amoy s a in
                  match b with
                  | Ok pol =>
                      if pol <? fund_budget (rc_gas cfg) gas_price then (s, None) else
                      let '(a, nr) := lc_transaction_count (lr_amoy s) me in
                      let s := lr_with_amoy s a in
                      match nr with
                      | Ok nonce => escrow_usdc s ctx receiver timelock_s gas_price nonce
                      | _ => (s, None)
                      end
                  | _ => (s, None)
                  end
              | _ => (s, None)
              end
          end
      end
  end.

(** The redeem that [claim_nim] signs at a head *)
Definition nim_redeem (rec : NimFundingRecord) (ctx : SwapContext) (head : Z) : HtlcRedeem :=
  mkRedeem (nf_contract rec) (cx_nim_address ctx) (hc_value (nf_creation rec)) 0 head (cx_network_id ctx).

Definition claim_nim (s : LiveResponderSigner) (ctx : SwapContext) (secret : bytes)
  : LiveResponderSigner * option (bytes * bytes) :=
  match lr_nim_store s !! cx_hashlock ctx with
  | None => (s, None)
  | Some rec =>
      let key := rc_nim_claim_key (lr_cfg s) in
      match try_array 32 (ek_public_key key) with
      | None => (s, None)
      | Some claim_pk =>
          if negb (bool_decide (address_of claim_pk = cx_nim_address ctx)) then (s, None) else
          let '(rpc, r) := block_number (lr_nim_rpc s) in
          let s := lr_with_nim s rpc in
          match r with
          | Ok head =>
              let redeem := nim_redeem rec ctx head in
              match try_array 64 (ek_sign_content key (redeem_content redeem)) with
              | None => (s, None)
              | Some signature =>
                  let proof := regular_transfer_proof HaSha256 (hd_hash_root (hc_data (nf_creation rec))) secret claim_pk signature in
                  let wire := redeem_wire redeem proof in
                  let tx_hash := redeem_hash redeem in
                  let '(rpc, ok) := broadcast_nim (lr_nim_rpc s) wire tx_hash in
                  (lr_with_nim s rpc, if ok then Some (wire, tx_hash) else None)
              end
          | _ => (s, None)
          end
      end
  end.

#[export] Instance LiveResponder_signer : SwapSigner LiveResponderSigner := {|
  build_funding := fun s ctx leg => match leg with LegCounterparty => fund_usdc s ctx | LegNim => (s, None) end;
  build_claim := claim_nim;
  note_peer := fun s swap_id nim chain =>
    lr_with_book s (note_addressing (lr_peer_book s) swap_id (mkPeerAddressing nim chain));
  is_live := fun _ => true
|}.
End responder.

(** ** What leaves the device

    Any endpoint with a tape beside it, on which every transaction handed to the
    endpoint is written. *)

Record Taped (X : Type) : Type := mkTaped { tp_world : X; tp_sent : list bytes }.
Arguments mkTaped {X}. Arguments tp_world {X}. Arguments tp_sent {X}.

Definition on_tape {X R} (t : Taped X) (r : X * R) : Taped X * R := (mkTaped r.1 (tp_sent t), r.2).

#[export] Instance Taped_chain {A} `{LiveChain A} : LiveChain (Taped A) := {|
  lc_gas_price := fun t => on_tape t (lc_gas_price (tp_world t));
  lc_transaction_count := fun t x => on_tape t (lc_transaction_count (tp_world t) x);
  lc_balance := fun t x => on_tape t (lc_balance (tp_world t) x);
  lc_send_raw := fun t raw =>
    let '(a, r) := lc_send_raw (tp_world t) raw in (mkTaped a (tp_sent t ++ [raw]), r);
  lc_receipt := fun t x => on_tape t (lc_receipt (tp_world t) x);
  lc_call := fun t x y => on_tape t (lc_call (tp_world t) x y);
  lc_head := fun t => on_tape t (lc_head (tp_world t))
|}.

Section tape.
Context `{C : Crypto} `{K : Keccak} {N A : Type} `{RPC : GatewayRpc N} `{LC : LiveChain A}.

Lemma escrow_state_tape (t t' : Taped A) h i o : live_escrow_state t h i = (t', o) -> tp_sent t' = tp_sent t.
Proof. unfold live_escrow_state. cbn. by intros [= <- _]. Qed.

Lemma send_evm_tx_tape (t t' : Taped A) key cid n p g to data o :
  send_evm_tx t key cid n p g to data = (t', o) ->
  tp_sent t' = tp_sent t ++ [sign_with (live_tx cid n p g to data) key]
  /\ (o = None \/ o = Some (sign_with (live_tx cid n p g to data) key, keccak256 (sign_with (live_tx cid n p g to data) key))).
Proof.
  unfold send_evm_tx. cbn. destruct (lc_send_raw _ _) as [a [x|e|]]; cbn; intros [= <- <-]; eauto.
  all: split; [done|]; repeat case_match; auto.
Qed.

Lemma poll_receipt_tape n (t t' : Taped A) h o : poll_receipt n t h = (t', o) -> tp_sent t' = tp_sent t.
Proof.
  revert t. induction n as [|n IH]; intros t; cbn; [by intros [= <- _]|].
  destruct (lc_receipt (tp_world t) h) as [a [[rc|]|e|]]; cbn; try (by intros [= <- _]); intros E; by apply IH in E.
Qed.

Lemma withdraw_deep_tape (t t' : Taped A) h b : withdraw_deep_enough t h = (t', b) -> tp_sent t' = tp_sent t.
Proof. unfold withdraw_deep_enough. cbn. repeat case_match; by intros [= <- _]. Qed.

Lemma reveal_confirmed_tape (t t' : Taped A) h i x b : reveal_confirmed t h i x = (t', b) -> tp_sent t' = tp_sent t.
Proof.
  unfold reveal_confirmed. destruct (live_escrow_state t h i) as [t1 st] eqn:E. apply escrow_state_tape in E.
  case_match; [intros H1; apply withdraw_deep_tape in H1|intros [= <- _]]; congruence.
Qed.

Lemma poll_reveal_tape n (t t' : Taped A) h i x b : poll_reveal n t h i x = (t', b) -> tp_sent t' = tp_sent t.
Proof.
  revert t. induction n as [|n IH]; intros t; cbn [poll_reveal]; [by intros [= <- _]|].
  destruct (reveal_confirmed t h i x) as [t1 []] eqn:E; apply reveal_confirmed_tape in E.
  - by intros [= <- _].
  - intros H1. apply IH in H1. congruence.
Qed.

(** The escrow transactions of a context: [approve] at a nonce, [newSwap] at the next *)
Definition approve_raw (s : LiveResponderSigner (N:=N) (A:=Taped A)) (ctx : SwapContext) (gas_price nonce : Z) : bytes :=
  sign_with (live_tx (lr_evm_chain_id s) nonce gas_price (gas_approve (rc_gas (lr_cfg s))) (rc_usdc (lr_cfg s))
               (erc20_approve (rc_htlc (lr_cfg s)) (cx_take_amount ctx))) (rc_evm_key (lr_cfg s)).

Definition new_swap_raw (s : LiveResponderSigner (N:=N) (A:=Taped A)) (ctx : SwapContext) (receiver : bytes)
    (timelock_s gas_price nonce : Z) : bytes :=
  sign_with (live_tx (lr_evm_chain_id s) (wrapN 64 (nonce + 1)) gas_price (gas_new_swap (rc_gas (lr_cfg s))) (rc_htlc (lr_cfg s))
               (htlc_new_swap receiver (cx_take_amount ctx) (cx_hashlock ctx) timelock_s)) (rc_evm_key (lr_cfg s)).

(** What [escrow_usdc] wrote, by its outcome *)
Definition escrow_outcome (s s' : LiveResponderSigner (N:=N) (A:=Taped A)) (ctx : SwapContext) (receiver : bytes)
    (timelock_s gas_price nonce : Z) (out : list bytes) (r : option (bytes * bytes)) : Prop :=
  let approve := approve_raw s ctx gas_price nonce in
  let new_swap := new_swap_raw s ctx receiver timelock_s gas_price nonce in
  match r with
  | Some (wire, id) =>
      out = [approve; new_swap] /\ wire = new_swap /\ id = keccak256 wire
      /\ lr_last_funding s' = Some (wire, id, usdc_swap_id (key_address (rc_evm_key (lr_cfg s))) receiver (cx_take_amount ctx)
                                               (cx_hashlock ctx) timelock_s)
  | None => (out = [approve] \/ out = [approve; new_swap]) /\ lr_last_funding s' = lr_last_funding s
  end.

Lemma escrow_usdc_tape (s s' : LiveResponderSigner) ctx rcv tl p n r :
  escrow_usdc s ctx rcv tl p n = (s', r) ->
  exists out, tp_sent (lr_amoy s') = tp_sent (lr_amoy s) ++ out /\ escrow_outcome s s' ctx rcv tl p n out r.
Proof.
  unfold escrow_usdc, wait_receipt. destruct (send_evm_tx _ _ _ _ _ _ _ _) as [t1 o1] eqn:E1.
  apply send_evm_tx_tape in E1 as [T1 O1]. destruct o1 as [[w1 h1]|]; [|intros [= <- <-]; exists [approve_raw s ctx p n]; cbn; auto].
  destruct (poll_receipt _ t1 h1) as [t2 rc1] eqn:E2. apply poll_receipt_tape in E2.
  destruct rc1 as [rc1|]; [|intros [= <- <-]; exists [approve_raw s ctx p n]; cbn; rewrite E2; auto].
  destruct (er_success rc1); cbn [negb]; [|intros [= <- <-]; exists [approve_raw s ctx p n]; cbn; rewrite E2; auto].
  destruct (send_evm_tx _ _ _ _ _ _ _ _) as [t3 o3] eqn:E3. apply send_evm_tx_tape in E3 as [T3 O3].
  rewrite E2, T1, <- app_assoc in T3. cbn in T3.
  destruct o3 as [[w3 h3]|]; [|intros [= <- <-]; exists [approve_raw s ctx p n; new_swap_raw s ctx rcv tl p n]; cbn; rewrite T3; auto].
  destruct (poll_receipt _ t3 h3) as [t4 rc3] eqn:E4. apply poll_receipt_tape in E4. rewrite T3 in E4.
  destruct O3 as [?|[= -> ->]]; [done|].
  destruct rc3 as [rc3|]; [|intros [= <- <-]; exists [approve_raw s ctx p n; new_swap_raw s ctx rcv tl p n]; cbn; rewrite E4; auto].
  destruct (er_success rc3); cbn [negb]; intros [= <- <-]; exists [approve_raw s ctx p n; new_swap_raw s ctx rcv tl p n]; cbn; rewrite E4; auto.
Qed.
End tape.

(** ** What the responder escrows *)

Section spends.
Context `{C : Crypto} `{K : Keccak} {N A : Type} `{RPC : GatewayRpc N} `{LC : LiveChain A}.
Implicit Types s : LiveResponderSigner (N:=N) (A:=Taped A).

Lemma clamp_bounds v lo hi : lo <= hi -> lo <= clamp v lo hi <= hi.
Proof. unfold clamp. lia. Qed.

(** The parties, the lock and the price a responder may put on the chain for a context *)
Record escrow_terms s (ctx : SwapContext) (receiver : bytes) (timelock_s gas_price : Z) : Prop := {
  et_receiver : exists peer, lr_peer_book s !! cx_swap_id ctx = Some peer /\ pa_chain_address peer = receiver;
  et_receiver_len : length receiver = 20%nat;
  et_timelock : timelock_s = usdc_timelock_s (counterparty_timeout (cx_terms ctx)) (cx_term_anchor ctx) (lr_clock_s s);
  et_ahead : lr_clock_s s < timelock_s <= wrapN 64 (lr_clock_s s + MAX_LEG_TIMELOCK_AHEAD_S);
  et_price : min_gas_price (rc_gas (lr_cfg s)) <= max_gas_price (rc_gas (lr_cfg s)) ->
             min_gas_price (rc_gas (lr_cfg s)) <= gas_price <= max_gas_price (rc_gas (lr_cfg s))
}.

Lemma replay_tape s s' r : replay_funding s = (s', r) ->
  tp_sent (lr_amoy s') = tp_sent (lr_amoy s) /\ s' = lr_with_amoy s (lr_amoy s')
  /\ (forall w i, r = Some (w, i) -> exists sid, lr_last_funding s = Some (w, i, sid)).
Proof.
  unfold replay_funding. destruct (lr_last_funding s) as [[[w i] sid]|] eqn:El.
  - destruct (live_escrow_state _ _ _) as [t st] eqn:E. apply escrow_state_tape in E. intros [= <- <-].
    cbn. split_and!; [done..|]. intros w' i'. case_match; [intros [= <- <-]; eauto|done].
  - intros [= <- <-]. destruct s; cbn in *. by split_and!.
Qed.

(** Every call of [fund_usdc] replays, sends nothing, or escrows the context's terms. *)
Lemma fund_usdc_tape s s' ctx r : fund_usdc s ctx = (s', r) ->
  exists out, tp_sent (lr_amoy s') = tp_sent (lr_amoy s) ++ out
    /\ ((out = [] /\ lr_last_funding s' = lr_last_funding s
         /\ (forall w i, r = Some (w, i) -> exists sid, lr_last_funding s = Some (w, i, sid)))
        \/ exists receiver timelock_s gas_price nonce,
             escrow_terms s ctx receiver timelock_s gas_price
             /\ escrow_outcome s s' ctx receiver timelock_s gas_price nonce out r).
Proof.
  unfold fund_usdc. destruct (replay_funding s) as [s1 rp] eqn:E1. apply replay_tape in E1 as (T1 & -> & R1).
  set (t1 := lr_amoy s1) in *. clearbody t1. clear s1. cbn.
  assert (Q : forall t o, tp_sent t = tp_sent t1 -> o = None \/ o = rp -> lr_with_amoy s t = s' -> o = r ->
    exists out, tp_sent (lr_amoy s') = tp_sent (lr_amoy s) ++ out
      /\ (out = [] /\ lr_last_funding s' = lr_last_funding s /\ (forall w i, r = Some (w, i) -> exists sid, lr_last_funding s = Some (w, i, sid))
          \/ exists receiver timelock_s gas_price nonce,
             escrow_terms s ctx receiver timelock_s gas_price
             /\ escrow_outcome s s' ctx receiver timelock_s gas_price nonce out r)).
  { intros t o Et Eo <- <-. exists []. cbn. rewrite app_nil_r, Et. split; [done|left]. split_and!; [done..|].
    intros w i ->. destruct Eo; [done|]. by apply R1. }
  destruct rp as [landed|]; [intros [= Es Er]; eapply (Q t1); eauto|].
  destruct (lr_peer_book s !! cx_swap_id ctx) as [peer|] eqn:Ep; [|intros [= Es Er]; eapply (Q t1); eauto].
  destruct (try_array 20 _) as [rcv|] eqn:Ea; [|intros [= Es Er]; eapply (Q t1); eauto].
  apply try_array_inv in Ea as [-> Hl].
  destruct (_ || _) eqn:Eb; [intros [= Es Er]; eapply (Q t1); eauto|].
  apply orb_false_iff in Eb as [Eb1%Z.leb_gt Eb2%Z.ltb_ge].
  destruct (lc_gas_price (tp_world t1)) as [a2 [price| |]]; cbn; [|intros [= Es Er]; refine (Q _ _ _ _ Es Er); auto..].
  destruct (lc_balance a2 _) as [a3 [pol| |]]; cbn; [|intros [= Es Er]; refine (Q _ _ _ _ Es Er); auto..].
  case_match; [intros [= Es Er]; refine (Q _ _ _ _ Es Er); auto|].
  destruct (lc_transaction_count a3 _) as [a4 [nonce| |]]; cbn; [|intros [= Es Er]; refine (Q _ _ _ _ Es Er); auto..].
  intros E. apply escrow_usdc_tape in E as (out & To & Ho). exists out. cbn in To. rewrite To, T1. split; [done|right].
  do 4 eexists. split; [|exact Ho]. constructor; [by eauto|done|done|lia|]. intros Hg. by apply clamp_bounds.
Qed.
End spends.

#[export] Instance Taped_rpc {N} `{GatewayRpc N} : GatewayRpc (Taped N) := {|
  block_number := fun t => on_tape t (block_number (tp_world t));
  latest_block := fun t => on_tape t (latest_block (tp_world t));
  get_account := fun t x => on_tape t (get_account (tp_world t) x);
  send_raw_transaction := fun t x =>
    let '(a, r) := send_raw_transaction (tp_world t) x in (mkTaped a (tp_sent t ++ [x]), r);
  get_transaction := fun t x => on_tape t (get_transaction (tp_world t) x);
  get_transactions := fun t x n => on_tape t (get_transactions (tp_world t) x n)
|}.

Lemma broadcast_nim_tape {N} `{GatewayRpc N} (t t' : Taped N) wire h ok :
  broadcast_nim t wire h = (t', ok) -> tp_sent t' = tp_sent t ++ [bytes_to_hex wire].
Proof.
  unfold broadcast_nim. cbn. destruct (send_raw_transaction _ _) as [a [x|e|]]; cbn; by intros [= <- _].
Qed.

(** ** The theorems about what is signed *)

Section signed.
Context `{C : Crypto} `{K : Keccak} {N A : Type} `{RPC : GatewayRpc N} `{LC : LiveChain A}.
Implicit Types s : LiveResponderSigner (N:=Taped N) (A:=Taped A).
Implicit Types i : LiveInitiatorSigner (N:=Taped N) (A:=Taped A).

Lemma claim_nim_tape s s' ctx secret r : claim_nim s ctx secret = (s', r) ->
  lr_amoy s' = lr_amoy s /\ lr_last_funding s' = lr_last_funding s
  /\ ((tp_sent (lr_nim_rpc s') = tp_sent (lr_nim_rpc s) /\ r = None)
      \/ exists rec pk head signature,
           lr_nim_store s !! cx_hashlock ctx = Some rec /\ address_of pk = cx_nim_address ctx
           /\ ek_public_key (rc_nim_claim_key (lr_cfg s)) = pk
           /\ ek_sign_content (rc_nim_claim_key (lr_cfg s)) (redeem_content (nim_redeem rec ctx head)) = signature
           /\ let wire := redeem_wire (nim_redeem rec ctx head)
                            (regular_transfer_proof HaSha256 (hd_hash_root (hc_data (nf_creation rec))) secret pk signature) in
              tp_sent (lr_nim_rpc s') = tp_sent (lr_nim_rpc s) ++ [bytes_to_hex wire]
              /\ (r = None \/ r = Some (wire, redeem_hash (nim_redeem rec ctx head)))).
Proof.
  unfold claim_nim. destruct (lr_nim_store s !! _) as [rec|]; [|intros [= <- <-]; auto].
  destruct (try_array 32 _) as [pk|] eqn:Ep; [|intros [= <- <-]; auto]. apply try_array_inv in Ep as [-> _].
  case_bool_decide as Ha; cbn [negb]; [|intros [= <- <-]; auto].
  destruct (block_number _) as [t1 [head| |]] eqn:Eb; cbn in Eb; injection Eb as <- _; [|intros [= <- <-]; auto..].
  destruct (try_array 64 _) as [sg|] eqn:Es; [|intros [= <- <-]; auto].
  apply try_array_inv in Es as [-> _].
  destruct (broadcast_nim _ _ _) as [t2 ok] eqn:En. apply broadcast_nim_tape in En.
  intros [= <- <-]. cbn in *. split_and!; [done..|right].
  do 4 eexists. split_and!; try done. destruct ok; auto.
Qed.

Lemma fund_nim_tape i i' ctx r : fund_nim i ctx = (i', r) ->
  li_amoy i' = li_amoy i
  /\ ((tp_sent (li_nim_rpc i') = tp_sent (li_nim_rpc i) /\ r = None)
      \/ exists peer head timeout_ms,
           let pk := ek_public_key (ic_nim_key (li_cfg i)) in
           let creation := nim_creation pk peer ctx timeout_ms head in
           live_swap_allowed_wire (cx_network_id ctx) = true
           /\ li_peer_book i !! cx_swap_id ctx = Some peer
           /\ timeout_ms = nim_htlc_timeout_ms (nim_timeout (cx_terms ctx)) (cx_term_anchor ctx) (li_clock_ms i)
           /\ li_clock_ms i < timeout_ms <= wrapN 64 (li_clock_ms i + MAX_LEG_TIMELOCK_AHEAD_S * 1000)
           /\ let wire := creation_wire creation
                 (signature_proof_single_sig pk (ek_sign_content (ic_nim_key (li_cfg i)) (creation_content creation))) in
              tp_sent (li_nim_rpc i') = tp_sent (li_nim_rpc i) ++ [bytes_to_hex wire]
              /\ (r = None \/ r = Some (wire, creation_hash creation))).
Proof.
  unfold fund_nim. destruct (live_swap_allowed_wire _) eqn:En; cbn [negb]; [|intros [= <- <-]; auto].
  destruct (li_peer_book i !! _) as [peer|] eqn:Ep; [|intros [= <- <-]; auto].
  destruct (block_number _) as [t1 [head| |]] eqn:Eb; cbn in Eb; injection Eb as <- _; [|intros [= <- <-]; auto..].
  cbn [li_cfg li_clock_ms li_with_nim li_nim_rpc].
  destruct (try_array 32 _) as [pk|] eqn:Ek; [|intros [= <- <-]; auto]. apply try_array_inv in Ek as [-> _].
  destruct (_ || _) eqn:Et; [intros [= <- <-]; auto|]. apply orb_false_iff in Et as [Et1%Z.leb_gt Et2%Z.ltb_ge].
  destruct (try_array 64 _) as [sg|] eqn:Es; [|intros [= <- <-]; auto]. apply try_array_inv in Es as [-> _].
  destruct (broadcast_nim _ _ _) as [t2 ok] eqn:Ebr. apply broadcast_nim_tape in Ebr.
  set (w := creation_wire _ _) in *. set (x := creation_hash _). intros [= <- <-]. cbn [li_amoy li_nim_rpc li_with_nim tp_sent] in *.
  split; [done|right]. do 3 eexists. split_and!; [done..|lia|exact Ebr|destruct ok; auto].
Qed.

(** The withdrawal of a context: to the escrow its verifier found, with the preimage *)
Definition withdraw_raw i (escrow : FoundEscrow) (secret : bytes) (gas_price nonce : Z) : bytes :=
  sign_with (live_tx (li_evm_chain_id i) nonce gas_price (gas_withdraw (ic_gas (li_cfg i))) (ic_htlc (li_cfg i))
               (htlc_withdraw (fe_swap_id escrow) secret)) (ic_evm_gas_key (li_cfg i)).

Lemma poll_reveal_confirmed n (t t' : Taped A) h sid x : poll_reveal n t h sid x = (t', true) ->
  exists t0, reveal_confirmed t0 h sid x = (t', true).
Proof.
  revert t. induction n as [|n IH]; intros t; cbn [poll_reveal]; [done|].
  destruct (reveal_confirmed t h sid x) as [t1 []] eqn:E; [intros [= <-]; eauto|apply IH].
Qed.

Lemma claim_usdc_tape i i' ctx secret r : claim_usdc i ctx secret = (i', r) ->
  li_nim_rpc i' = li_nim_rpc i
  /\ ((tp_sent (li_amoy i') = tp_sent (li_amoy i) /\ li_last_claim i' = li_last_claim i
       /\ forall w h, r = Some (w, h) -> li_last_claim i = Some (w, h))
      \/ exists escrow gas_price nonce,
           store_found (li_store i) (cx_hashlock ctx) = Some escrow /\ li_last_claim i = None
           /\ let raw := withdraw_raw i escrow secret gas_price nonce in
              tp_sent (li_amoy i') = tp_sent (li_amoy i) ++ [raw]
              /\ forall w h, r = Some (w, h) -> w = secret ++ raw /\ h = keccak256 raw /\ li_last_claim i' = Some (w, h))
  /\ forall w h, r = Some (w, h) -> exists escrow t0,
       store_found (li_store i) (cx_hashlock ctx) = Some escrow
       /\ reveal_confirmed t0 (ic_htlc (li_cfg i)) (fe_swap_id escrow) h = (li_amoy i', true).
Proof.
  unfold claim_usdc. destruct (store_found _ _) as [escrow|] eqn:Ef; [|intros [= <- <-]; split_and!; [done|left; by split_and!|done]].
  destruct (li_last_claim i) as [[w0 h0]|] eqn:El.
  - destruct (reveal_confirmed _ _ _ _) as [t1 ok] eqn:Er. intros [= <- <-]. cbn. split_and!; [done| |].
    + left. rewrite (reveal_confirmed_tape _ _ _ _ _ _ Er). split_and!; [done..|]. by destruct ok.
    + destruct ok; [|done]. intros w h [= <- <-]. exists escrow, (li_amoy i). by split.
  - destruct (lc_gas_price _) as [t1 [price| |]] eqn:Eg; cbn in Eg; injection Eg as <- Eg;
      [|intros [= <- <-]; split_and!; [done|left; by split_and!|done]..].
    destruct (lc_transaction_count _ _) as [t2 [nonce| |]] eqn:En; cbn in En; injection En as <- En;
      [|intros [= <- <-]; split_and!; [done|left; by split_and!|done]..].
    destruct (send_evm_tx _ _ _ _ _ _ _ _) as [t3 o3] eqn:Es. apply send_evm_tx_tape in Es as [T3 O3]. cbn in T3.
    assert (Q : forall t, tp_sent t = tp_sent t3 -> li_with_amoy i t = i' -> None = r ->
      li_nim_rpc i' = li_nim_rpc i
      /\ ((tp_sent (li_amoy i') = tp_sent (li_amoy i) /\ li_last_claim i' = None /\ forall w h, r = Some (w, h) -> None = Some (w, h))
      \/ exists e gp nc, Some escrow = Some e /\ @None (bytes * bytes) = None /\ let raw := withdraw_raw i e secret gp nc in
              tp_sent (li_amoy i') = tp_sent (li_amoy i) ++ [raw] /\ forall w h, r = Some (w, h) -> w = secret ++ raw /\ h = keccak256 raw /\ li_last_claim i' = Some (w, h))
      /\ forall w h, r = Some (w, h) -> exists e t0, Some escrow = Some e /\ reveal_confirmed t0 (ic_htlc (li_cfg i)) (fe_swap_id e) h = (li_amoy i', true)).
    { intros t Et <- <-. cbn. rewrite Et, T3. split_and!; [done| |done]. right. by repeat eexists. }
    destruct o3 as [[w3 h3]|]; [|intros [= Ei Er]; exact (Q _ eq_refl Ei Er)].
    destruct O3 as [?|[= -> ->]]; [done|].
    destruct (wait_receipt _ _ _) as [t4 rc] eqn:Ew. apply poll_receipt_tape in Ew.
    destruct rc as [rc|]; [|intros [= Ei Er]; exact (Q _ Ew Ei Er)].
    destruct (er_success rc); cbn [negb]; [|intros [= Ei Er]; exact (Q _ Ew Ei Er)].
    destruct (poll_reveal _ _ _ _ _) as [t5 ok] eqn:Ev. intros [= <- <-]. cbn. split_and!; [done| |].
    + right. do 3 eexists. split_and!; [done..| |].
      * rewrite (poll_reveal_tape _ _ _ _ _ _ _ Ev), Ew. exact T3.
      * destruct ok; [|done]. by intros w h [= <- <-].
    + destruct ok; [|done]. intros w h [= <- <-]. apply poll_reveal_confirmed in Ev as [t0 Ht]. by exists escrow, t0.
Qed.
End signed.

(** C15: whatever the endpoints answer, one call of the responder's signer hands the Polygon
    endpoint nothing, an [approve], or an [approve] and a [newSwap], both signed for the context's
    take amount, to the chain address the peer book holds for that swap (20 bytes), under the
    context's hashlock, with a lock later than now and at most six hours ahead, at a price within
    the configured bounds; it reports a funding only when it sent both, or replays the one it
    remembers.  It never funds the NIM leg, and a claim hands the Nimiq endpoint at most one
    redeem, of the contract its verifier recorded under the hashlock, to the session's own
    address, and no Polygon transaction. *)
Theorem responder_signs_terms `{C : Crypto} `{K : Keccak} {N A : Type} `{RPC : GatewayRpc N} `{LC : LiveChain A}
    (s : LiveResponderSigner (N:=Taped N) (A:=Taped A)) (ctx : SwapContext) (secret : bytes) :
  build_funding s ctx LegNim = (s, None)
  /\ (let '(s', r) := build_funding s ctx LegCounterparty in
      exists out, tp_sent (lr_amoy s') = tp_sent (lr_amoy s) ++ out
        /\ ((out = [] /\ forall w i, r = Some (w, i) -> exists sid, lr_last_funding s = Some (w, i, sid))
            \/ exists receiver timelock_s gas_price nonce,
                 escrow_terms s ctx receiver timelock_s gas_price
                 /\ escrow_outcome s s' ctx receiver timelock_s gas_price nonce out r))
  /\ (let '(s', r) := build_claim s ctx secret in
      lr_amoy s' = lr_amoy s
      /\ ((tp_sent (lr_nim_rpc s') = tp_sent (lr_nim_rpc s) /\ r = None)
          \/ exists rec head proof,
               lr_nim_store s !! cx_hashlock ctx = Some rec
               /\ address_of (ek_public_key (rc_nim_claim_key (lr_cfg s))) = cx_nim_address ctx
               /\ let wire := redeem_wire (mkRedeem (nf_contract rec) (cx_nim_address ctx) (hc_value (nf_creation rec)) 0 head
                                             (cx_network_id ctx)) proof in
                  tp_sent (lr_nim_rpc s') = tp_sent (lr_nim_rpc s) ++ [bytes_to_hex wire] /\ forall w i, r = Some (w, i) -> w = wire)).
Proof.
  split; [done|]. split.
  - cbn. destruct (fund_usdc s ctx) as [s' r] eqn:E. apply fund_usdc_tape in E as (out & T & D).
    exists out. split; [exact T|]. destruct D as [(E & _ & R)|D]; auto.
  - cbn. destruct (claim_nim s ctx secret) as [s' r] eqn:E. apply claim_nim_tape in E as (E1 & _ & D). split; [done|].
    destruct D as [D|(rec & pk & head & sg & H1 & H2 & H3 & H4 & T & R)]; [by left|right]. subst pk.
    do 3 eexists. split_and!; [done..|exact T|]. destruct R as [->| ->]; [done|]. by intros w i [= <- _].
Qed.


(** ** What a slow endpoint makes the responder do

    An endpoint that takes every transaction, mines each first one of a pair within the poll
    and each second one after it. *)

Record SlowChain : Type := mkSlow { sc_sent : list bytes }.

#[export] Instance Slow_chain : LiveChain SlowChain := {|
  lc_gas_price := fun c => (c, Ok 30000000000);
  lc_transaction_count := fun c _ => (c, Ok (len (sc_sent c)));
  lc_balance := fun c _ => (c, Ok (2 ^ 64));
  lc_send_raw := fun c raw => (mkSlow (sc_sent c ++ [raw]), Ok []);
  lc_receipt := fun c _ => (c, Ok (if Nat.odd (length (sc_sent c)) then Some (mkEvmReceipt [] true 100) else None));
  lc_call := fun c _ _ => (c, Ok []);
  lc_head := fun c => (c, Ok 100)
|}.

Section slow.
Context `{C : Crypto} `{K : Keccak} {N : Type} `{RPC : GatewayRpc N}.
Implicit Types s : LiveResponderSigner (N:=N) (A:=SlowChain).

Lemma poll_slow_odd n c h : Nat.odd (length (sc_sent c)) = true ->
  poll_receipt (S n) c h = (c, Some (mkEvmReceipt [] true 100)).
Proof. cbn. by intros ->. Qed.

Lemma poll_slow_even n c h : Nat.odd (length (sc_sent c)) = false -> poll_receipt n c h = (c, None).
Proof. intros E. induction n as [|n IH]; [done|]. cbn. by rewrite E. Qed.

Lemma poll_turns_pos p : exists n, poll_turns p = S n.
Proof. unfold poll_turns. exists (Nat.pred (Z.to_nat (Z.max 1 (attempts p)))). lia. Qed.

Definition slow_price s : Z := clamp 30000000000 (min_gas_price (rc_gas (lr_cfg s))) (max_gas_price (rc_gas (lr_cfg s))).

Definition slow_pair s (ctx : SwapContext) (receiver : bytes) (nonce timelock_s : Z) : list bytes :=
  let cfg := lr_cfg s in
  let tx nonce gas to data := sign_with (live_tx (lr_evm_chain_id s) nonce (slow_price s) gas to data) (rc_evm_key cfg) in
  [tx nonce (gas_approve (rc_gas cfg)) (rc_usdc cfg) (erc20_approve (rc_htlc cfg) (cx_take_amount ctx));
   tx (wrapN 64 (nonce + 1)) (gas_new_swap (rc_gas cfg)) (rc_htlc cfg)
      (htlc_new_swap receiver (cx_take_amount ctx) (cx_hashlock ctx) timelock_s)].

Lemma fund_budget_bound g p : fund_budget g p < 2 ^ 64.
Proof. unfold fund_budget, sat_mul. lia. Qed.

(** One call at such an endpoint *)
Lemma fund_usdc_slow s ctx peer :
  lr_last_funding s = None -> lr_peer_book s !! cx_swap_id ctx = Some peer -> length (pa_chain_address peer) = 20%nat ->
  Nat.odd (length (sc_sent (lr_amoy s))) = false ->
  let d := counterparty_timeout (cx_terms ctx) - cx_term_anchor ctx in
  0 < d <= MAX_LEG_TIMELOCK_AHEAD_S -> 0 <= lr_clock_s s -> lr_clock_s s + MAX_LEG_TIMELOCK_AHEAD_S < 2 ^ 64 ->
  fund_usdc s ctx = (lr_with_amoy s (mkSlow (sc_sent (lr_amoy s)
      ++ slow_pair s ctx (pa_chain_address peer) (len (sc_sent (lr_amoy s))) (lr_clock_s s + d))), None).
Proof.
  intros Hf Hp Hl Ho d Hd H0 H1. unfold fund_usdc, replay_funding. rewrite Hf, Hp, (try_array_length _ _ Hl).
  assert (Et : usdc_timelock_s (counterparty_timeout (cx_terms ctx)) (cx_term_anchor ctx) (lr_clock_s s) = lr_clock_s s + d)
    by (unfold usdc_timelock_s, sat_add, sat_sub, d, MAX_LEG_TIMELOCK_AHEAD_S in *; lia).
  rewrite Et. assert (Ew : wrapN 64 (lr_clock_s s + MAX_LEG_TIMELOCK_AHEAD_S) = lr_clock_s s + MAX_LEG_TIMELOCK_AHEAD_S)
    by (unfold wrapN; apply Z.mod_small; unfold MAX_LEG_TIMELOCK_AHEAD_S in *; lia). rewrite Ew.
  rewrite (proj2 (Z.leb_gt _ _)), (proj2 (Z.ltb_ge _ _)) by lia. cbn -[fund_budget escrow_usdc].
  rewrite (proj2 (Z.ltb_ge _ _)) by (pose proof (fund_budget_bound (rc_gas (lr_cfg s)) (slow_price s)); unfold slow_price in *; lia).
  unfold escrow_usdc, wait_receipt, send_evm_tx. cbn -[poll_receipt sign_with live_tx Nat.odd].
  destruct (poll_turns_pos (rc_poll (lr_cfg s))) as [n ->].
  rewrite poll_slow_odd by (cbn -[Nat.odd]; rewrite length_app, Nat.odd_add, Ho; done). cbn -[poll_receipt sign_with live_tx Nat.odd].
  rewrite poll_slow_even by (cbn -[Nat.odd]; rewrite !length_app, !Nat.odd_add, Ho; done).
  unfold lr_with_amoy. cbn -[sign_with live_tx]. by rewrite <- app_assoc.
Qed.

Lemma poll_reveal_slow n c c' h sid x ok : poll_reveal n c h sid x = (c', ok) -> c' = c.
Proof.
  revert c. induction n as [|n IH]; intros c; cbn [poll_reveal]; [congruence|].
  destruct (reveal_confirmed c h sid x) as [c1 b] eqn:E. assert (c1 = c) as ->.
  { unfold reveal_confirmed, live_escrow_state, withdraw_deep_enough in E. cbn -[Nat.odd] in E. repeat case_match; simplify_eq; done. }
  destruct b; [congruence|apply IH].
Qed.

(** One claim at such an endpoint *)
Lemma claim_usdc_slow (i : LiveInitiatorSigner (N:=N) (A:=SlowChain)) ctx secret escrow :
  store_found (li_store i) (cx_hashlock ctx) = Some escrow -> li_last_claim i = None ->
  let cfg := li_cfg i in
  let raw := sign_with (live_tx (li_evm_chain_id i) (len (sc_sent (li_amoy i)))
      (clamp 30000000000 (min_gas_price (ic_gas cfg)) (max_gas_price (ic_gas cfg))) (gas_withdraw (ic_gas cfg)) (ic_htlc cfg)
      (htlc_withdraw (fe_swap_id escrow) secret)) (ic_evm_gas_key cfg) in
  sc_sent (li_amoy (claim_usdc i ctx secret).1) = sc_sent (li_amoy i) ++ [raw]
  /\ (Nat.odd (length (sc_sent (li_amoy i))) = true -> claim_usdc i ctx secret = (li_with_amoy i (mkSlow (sc_sent (li_amoy i) ++ [raw])), None)).
Proof.
  intros Hs Hn cfg raw. unfold claim_usdc. rewrite Hs, Hn. unfold send_evm_tx, wait_receipt.
  cbn -[poll_receipt sign_with live_tx Nat.odd clamp poll_reveal]. fold cfg. fold raw. split.
  - destruct (poll_receipt _ _ _) as [c o] eqn:E. assert (c = mkSlow (sc_sent (li_amoy i) ++ [raw])) as ->.
    { destruct (Nat.odd (length (sc_sent (mkSlow (sc_sent (li_amoy i) ++ [raw]))))) eqn:Eo.
      - destruct (poll_turns_pos (ic_poll cfg)) as [k Ek]. rewrite Ek, poll_slow_odd in E by done. congruence.
      - rewrite poll_slow_even in E by done. congruence. }
    destruct o as [rc|]; [|done]. destruct (er_success rc); [|done]. cbn [negb].
    destruct (poll_reveal _ _ _ _ _) as [c ok] eqn:Er. by apply poll_reveal_slow in Er as ->.
  - intros Ho. rewrite poll_slow_even by (cbn -[Nat.odd]; rewrite length_app, Nat.odd_add, Ho; done). done.
Qed.
End slow.

(** A responder whose [newSwap] is mined after the poll has given up escrows twice for one
    swap.  The first call reports a failure and remembers nothing, so the retry sends a second
    [approve] and a second [newSwap], for the same amount to the same receiver under the same
    hashlock, and with a later lock, hence another escrow: one secret then opens both. *)
Theorem usdc_escrowed_twice `{C : Crypto} `{K : Keccak} {N : Type} `{RPC : GatewayRpc N} (cfg : LiveResponderConfig) (rpc : N)
    (store : NimFundingStore) (book : PeerBook) (now1 now2 : Z) (ctx : SwapContext) (peer : PeerAddressing)
    (d := counterparty_timeout (cx_terms ctx) - cx_term_anchor ctx)
    (Hpeer : book !! cx_swap_id ctx = Some peer) (Hlen : length (pa_chain_address peer) = 20%nat)
    (Hd : 0 < d <= MAX_LEG_TIMELOCK_AHEAD_S) (Hnow : 0 <= now1 < now2) (Hmax : now2 + MAX_LEG_TIMELOCK_AHEAD_S < 2 ^ 64) :
  let s0 := live_responder_new cfg rpc (mkSlow []) store book now1 in
  let '(s1, r1) := build_funding s0 ctx LegCounterparty in
  let '(s2, r2) := build_funding (lr_with_clock s1 now2) ctx LegCounterparty in
  let escrow t := htlc_new_swap (pa_chain_address peer) (cx_take_amount ctx) (cx_hashlock ctx) t in
  r1 = None /\ r2 = None /\ lr_last_funding s2 = None
  /\ sc_sent (lr_amoy s2) = slow_pair s0 ctx (pa_chain_address peer) 0 (now1 + d) ++ slow_pair s0 ctx (pa_chain_address peer) 2 (now2 + d)
  /\ escrow (now1 + d) <> escrow (now2 + d).
Proof.
  cbn [build_funding LiveResponder_signer]. rewrite (fund_usdc_slow _ _ peer) by (unfold d in *; cbn; done || lia).
  cbn [lr_amoy live_responder_new sc_sent lr_clock_s]. rewrite (fund_usdc_slow _ _ peer) by (unfold d in *; cbn; done || lia).
  split_and!; [done..|]. unfold htlc_new_swap. intros E. rewrite !app_assoc in E. apply app_inv_head, word_u256_inj in E; [lia| |].
  all: unfold uN, MAX_LEG_TIMELOCK_AHEAD_S in *; lia.
Qed.

(** An initiator whose withdrawal is mined after the poll has given up withdraws again: the claim
    is remembered only once its receipt was seen, so each retry before that signs another withdrawal
    of the same escrow with the same secret, under the next nonce. *)
Theorem usdc_withdrawn_twice `{C : Crypto} `{K : Keccak} {N : Type} `{RPC : GatewayRpc N}
    (i : LiveInitiatorSigner (N:=N) (A:=SlowChain)) (ctx : SwapContext) (secret : bytes) (escrow : FoundEscrow)
    (cfg := li_cfg i) (n := len (sc_sent (li_amoy i)))
    (Hstore : store_found (li_store i) (cx_hashlock ctx) = Some escrow) (Hnone : li_last_claim i = None)
    (Hodd : Nat.odd (length (sc_sent (li_amoy i))) = true) :
  let price := clamp 30000000000 (min_gas_price (ic_gas cfg)) (max_gas_price (ic_gas cfg)) in
  let withdraw nonce := sign_with (live_tx (li_evm_chain_id i) nonce price (gas_withdraw (ic_gas cfg)) (ic_htlc cfg)
                                     (htlc_withdraw (fe_swap_id escrow) secret)) (ic_evm_gas_key cfg) in
  let '(i1, r1) := build_claim i ctx secret in
  let '(i2, r2) := build_claim i1 ctx secret in
  r1 = None /\ sc_sent (li_amoy i2) = sc_sent (li_amoy i) ++ [withdraw n; withdraw (n + 1)].
Proof.
  intros price withdraw. cbn [build_claim LiveInitiator_signer].
  rewrite (proj2 (claim_usdc_slow i ctx secret escrow Hstore Hnone) Hodd).
  pose proof (proj1 (claim_usdc_slow (li_with_amoy i (mkSlow (sc_sent (li_amoy i) ++ [withdraw n]))) ctx secret escrow Hstore Hnone)) as H2.
  destruct (claim_usdc _ ctx secret) as [i2 r]. cbn [fst] in H2. split; [done|]. rewrite H2. unfold n.
  cbn -[sign_with live_tx clamp]. by rewrite len_app, <- app_assoc.
Qed.

Definition sample_live_config : LiveResponderConfig :=
  mkResponderConfig (mkEvmKey (replicate 64 6) (fun h => (h, h, 0))) (replicate 20 12) (replicate 20 13)
    (mkEnclave (replicate 32 14) (fun _ => replicate 64 15)) gas_default poll_default.

Definition sample_live_peer : PeerAddressing := mkPeerAddressing (replicate 20 21) (replicate 20 22).

Definition sample_live_book : PeerBook := note_addressing ∅ (cx_swap_id sample_ctx) sample_live_peer.

Lemma usdc_escrowed_twice_witness :
  let s0 := live_responder_new sample_live_config Sample (mkSlow []) ∅ sample_live_book 1000000 in
  let s1 := (build_funding s0 sample_ctx LegCounterparty).1 in
  len (sc_sent (lr_amoy (build_funding (lr_with_clock s1 1000600) sample_ctx LegCounterparty).1)) = 4.
Proof.
  assert (H := usdc_escrowed_twice sample_live_config Sample ∅ sample_live_book 1000000 1000600 sample_ctx sample_live_peer
    ltac:(vm_compute; reflexivity) eq_refl ltac:(vm_compute; split; congruence) ltac:(lia) ltac:(vm_compute; reflexivity)).
  cbv zeta in *. destruct (build_funding _ _ _) as [s1 r1]. cbn [fst]. destruct (build_funding _ _ _) as [s2 r2].
  destruct H as (_ & _ & _ & E & _). cbn [fst]. by rewrite E.
Defined.

(** What a signer remembers is not kept by swap: once a responder has landed one funding and
    that escrow still reads live or claimed, every later swap is told it is funded with that first
    wire, and nothing is escrowed for it; once an initiator has landed one withdrawal, it never
    sends another, whatever the swap.  A signer therefore serves one swap, which is what the
    doors that build it enforce ([LiveDoor]). *)
Theorem landed_not_keyed `{C : Crypto} `{K : Keccak} {N A : Type} `{RPC : GatewayRpc N} `{LC : LiveChain A}
    (s : LiveResponderSigner (N:=Taped N) (A:=Taped A)) (i : LiveInitiatorSigner (N:=Taped N) (A:=Taped A))
    (wire id sid : bytes) (st : Z) (claim : bytes * bytes)
    (Hf : lr_last_funding s = Some (wire, id, sid)) (Hst : st = STATE_LIVE \/ st = STATE_CLAIMED)
    (Hread : snd (live_escrow_state (lr_amoy s) (rc_htlc (lr_cfg s)) sid) = Some st) (Hc : li_last_claim i = Some claim) :
  forall (ctx : SwapContext) (secret : bytes),
    (let '(s', r) := build_funding s ctx LegCounterparty in
     r = Some (wire, id) /\ tp_sent (lr_amoy s') = tp_sent (lr_amoy s))
    /\ (let '(i', _) := build_claim i ctx secret in
        tp_sent (li_amoy i') = tp_sent (li_amoy i) /\ li_last_claim i' = Some claim).
Proof.
  intros ctx secret. split.
  - cbn [build_funding LiveResponder_signer]. unfold fund_usdc, replay_funding. rewrite Hf.
    destruct (live_escrow_state _ _ _) as [t o] eqn:E. cbn in Hread. subst o. apply escrow_state_tape in E.
    by destruct Hst as [->| ->].
  - cbn [build_claim LiveInitiator_signer]. destruct (claim_usdc i ctx secret) as [i' r] eqn:E.
    apply claim_usdc_tape in E as (_ & D & _). destruct D as [(D & H1 & _)|(e & gp & nc & _ & H1 & _)]; [split|]; congruence.
Qed.

(** An endpoint where every escrow reads claimed. *)
#[export] Instance Claimed_chain : LiveChain unit := {|
  lc_gas_price := fun c => (c, Ok 30000000000);
  lc_transaction_count := fun c _ => (c, Ok 0);
  lc_balance := fun c _ => (c, Ok (2 ^ 64));
  lc_send_raw := fun c _ => (c, Ok []);
  lc_receipt := fun c _ => (c, Ok (Some (mkEvmReceipt [] true 100)));
  lc_call := fun c _ _ => (c, Ok (replicate 191 0 ++ [STATE_CLAIMED]));
  lc_head := fun c => (c, Ok 200)
|}.

Definition sample_landed : LiveResponderSigner (N:=Taped SampleRpc) (A:=Taped unit) :=
  lr_with_funding (live_responder_new sample_live_config (mkTaped Sample []) (mkTaped tt []) ∅ ∅ 1000000) ([1], [2], [3]).

Definition sample_claimed : LiveInitiatorSigner (N:=Taped SampleRpc) (A:=Taped unit) :=
  li_with_claim (live_initiator_new
    (mkInitiatorConfig (rc_nim_claim_key sample_live_config) (rc_evm_key sample_live_config) (replicate 20 12) gas_default poll_default)
    (mkTaped Sample []) (mkTaped tt []) polygon_store_new ∅ 1000000) ([4], [5]).

Lemma landed_not_keyed_witness : (build_funding sample_landed sample_ctx LegCounterparty).2 = Some ([1], [2]).
Proof.
  assert (H := landed_not_keyed sample_landed sample_claimed [1] [2] [3] STATE_CLAIMED ([4], [5]) eq_refl ltac:(by right)
    ltac:(vm_compute; reflexivity) eq_refl sample_ctx (replicate 32 7)).
  destruct H as [H _]. destruct (build_funding _ _ _) as [s' r]. exact (proj1 H).
Defined.
