(* ===== verification/PolygonGateway.v ===== *)
(** * PolygonGateway: the Polygon JSON-RPC client ([polygon_gateway.rs])

    The requests, the parsers and the guards, and the blocking client over any HTTP
    transport ([HttpPost], the [ureq] agent).  A JSON value is a tree; [get] looks a key
    up in an object, and the text of a value, which only an error message uses, is a
    parameter of the parsers.  The client is an instance of the chain interface the live
    signers run against. *)

From stdpp Require Import base list strings.
From Stdlib Require Import ZArith Lia.
From S2P Require Import Prelude Packet Crypto Address Gateway RequestUri Evm EvmVerifier LiveSigner.
Open Scope Z_scope.

(** ** JSON values *)

Inductive Json : Type :=
| JNull
| JBool (b : bool)
| JNum (n : Z)
| JFrac (digits : list Z)
| JStr (s : str)
| JArr (l : list Json)
| JObj (l : list (list Z * Json)).

(** [Value::get] with a key, [as_str], [as_array], [is_null] *)
Fixpoint assoc (k : str) (l : list (list Z * Json)) : option Json :=
  match l with
  | [] => None
  | (x, v) :: l => if bool_decide (x = k) then Some v else assoc k l
  end.

Definition jget (k : str) (v : Json) : option Json := match v with JObj l => assoc k l | _ => None end.
Definition as_str (v : Json) : option str := match v with JStr s => Some s | _ => None end.
Definition as_array (v : Json) : option (list Json) := match v with JArr l => Some l | _ => None end.
Definition is_null (v : Json) : bool := match v with JNull => true | _ => false end.

(** ** Guards *)

Definition DEFAULT_AMOY_RPC_URL : str := chars "https://rpc-amoy.polygon.technology".
Definition POLYGON_MAINNET_HOSTS : list str := [chars "polygon-rpc.com"; chars "polygon-mainnet"; chars "polygon.llamarpc"].
Definition NATIVE_USDC_POLYGON_MAINNET : str := chars "0x3c499c542cEF5E3811e1192ce70d8cC03d5c3359".
Definition POLYGON_MAINNET_RPC_ALLOWLIST : list str := [chars "polygon.drpc.org"; chars "polygon-bor-rpc.publicnode.com"].

Definition guard_amoy (url : str) : res EvmRpcError unit :=
  let lower := map to_ascii_lowercase url in
  match List.find (fun host => contains lower host) POLYGON_MAINNET_HOSTS with
  | Some host => Err (NotAmoy (chars "URL '" ++ url ++ chars "' matches a known mainnet RPC host '" ++ host ++ chars "'"))
  | None => Ok tt
  end.

Definition guard_polygon_mainnet (url : str) : res EvmRpcError unit :=
  let lower := map to_ascii_lowercase url in
  if existsb (fun host => contains lower host) POLYGON_MAINNET_RPC_ALLOWLIST then Ok tt
  else Err (NotAmoy (chars "URL '" ++ url ++ chars "' is not an allow-listed Polygon mainnet RPC host")).

(** ** Quantities *)

(** [{v:x}]: at most 32 digits for a [u128] *)
Fixpoint hex_digits (turns : nat) (n : Z) : str :=
  match turns with
  | O => []
  | S turns => if n <? 16 then [hex_digit n] else hex_digits turns (n / 16) ++ [hex_digit (n mod 16)]
  end.

Definition quantity_hex (v : Z) : str := chars "0x" ++ hex_digits 32 v.

(** [from_str_radix(.., 16)] at a width: a leading plus sign is taken, an empty string and
    an overflow are errors. *)
Definition from_str_radix16 (w : Z) (s : str) : option Z :=
  let s := match s with 43 :: c :: r => c :: r | _ => s end in
  match s with
  | [] => None
  | _ => foldl (fun acc c => n ← acc; d ← to_digit16 c; if 2 ^ w <=? n * 16 + d then None else Some (n * 16 + d)) (Some 0) s
  end.

Definition strip_0x (s : str) : option str :=
  match strip_prefix (chars "0x") s with Some h => Some h | None => strip_prefix (chars "0X") s end.

Definition parse_quantity (s : str) : option Z := h ← strip_0x s; from_str_radix16 64 h.
Definition parse_quantity_u128 (s : str) : option Z := h ← strip_0x s; from_str_radix16 128 h.

(** [decode_hex], on the bytes of the string: a character of several bytes fails either way *)
Fixpoint decode_hex_pairs (l : bytes) : option bytes :=
  match l with
  | [] => Some []
  | a :: r => match r with
              | b :: r => x ← from_str_radix16 8 [a; b]; out ← decode_hex_pairs r; Some (x :: out)
              | [] => None
              end
  end.

Definition decode_hex (s : str) : option bytes := decode_hex_pairs (as_bytes s).

(** ** The codec *)

Definition json_rpc_request (method : str) (params : Json) (id : Z) : Json :=
  JObj [(chars "jsonrpc", JStr (chars "2.0")); (chars "method", JStr method); (chars "params", params); (chars "id", JNum id)].

Definition get_transaction_count_request (address : str) (id : Z) : Json :=
  json_rpc_request (chars "eth_getTransactionCount") (JArr [JStr address; JStr (chars "pending")]) id.
Definition gas_price_request (id : Z) : Json := json_rpc_request (chars "eth_gasPrice") (JArr []) id.
Definition estimate_gas_request (from to data : str) (id : Z) : Json :=
  json_rpc_request (chars "eth_estimateGas")
    (JArr [JObj [(chars "from", JStr from); (chars "to", JStr to); (chars "data", JStr data)]]) id.
Definition get_balance_request (address : str) (id : Z) : Json :=
  json_rpc_request (chars "eth_getBalance") (JArr [JStr address; JStr (chars "latest")]) id.
Definition send_raw_transaction_request (raw_hex : str) (id : Z) : Json :=
  json_rpc_request (chars "eth_sendRawTransaction") (JArr [JStr raw_hex]) id.
Definition get_transaction_receipt_request (tx_hash : str) (id : Z) : Json :=
  json_rpc_request (chars "eth_getTransactionReceipt") (JArr [JStr tx_hash]) id.
Definition eth_call_request (to data : str) (id : Z) : Json :=
  json_rpc_request (chars "eth_call") (JArr [JObj [(chars "to", JStr to); (chars "data", JStr data)]; JStr (chars "latest")]) id.
Definition block_number_request (id : Z) : Json := json_rpc_request (chars "eth_blockNumber") (JArr []) id.
Definition finalized_block_number_request (id : Z) : Json :=
  json_rpc_request (chars "eth_getBlockByNumber") (JArr [JStr (chars "finalized"); JBool false]) id.
Definition get_logs_request (address topic0 : str) (topic3 : option str) (from_block id : Z) : Json :=
  json_rpc_request (chars "eth_getLogs")
    (JArr [JObj [(chars "address", JStr address); (chars "fromBlock", JStr (quantity_hex from_block));
                 (chars "toBlock", JStr (chars "latest"));
                 (chars "topics", JArr [JStr topic0; JNull; JNull; match topic3 with Some t => JStr t | None => JNull end])]]) id.

Section codec.
(** [Value::to_string] *)
Context (json_text : Json -> list Z).

Definition parse_result (method : str) (resp : Json) : res EvmRpcError Json :=
  let ok := match jget (chars "result") resp with Some v => Ok v | None => Err (EvmBadResponse method) end in
  match jget (chars "error") resp with
  | Some err =>
      if is_null err then ok
      else Err (EvmRpc method (match m ← jget (chars "message") err; as_str m with Some s => s | None => json_text err end))
  | None => ok
  end.

(** [r.as_str().and_then(parse)] or a bad response *)
Definition parse_str {A} (method : str) (parse : str -> option A) (resp : Json) : res EvmRpcError A :=
  let? r := parse_result method resp in
  match s ← as_str r; parse s with Some v => Ok v | None => Err (EvmBadResponse method) end.

Definition parse_transaction_count : Json -> res EvmRpcError Z := parse_str (chars "eth_getTransactionCount") parse_quantity.
Definition parse_gas_price : Json -> res EvmRpcError Z := parse_str (chars "eth_gasPrice") parse_quantity.
Definition parse_estimate_gas : Json -> res EvmRpcError Z := parse_str (chars "eth_estimateGas") parse_quantity.
Definition parse_balance : Json -> res EvmRpcError Z := parse_str (chars "eth_getBalance") parse_quantity_u128.
Definition parse_send_raw_transaction : Json -> res EvmRpcError (list Z) := parse_str (chars "eth_sendRawTransaction") Some.
Definition parse_eth_call : Json -> res EvmRpcError (list Z) := parse_str (chars "eth_call") Some.
Definition parse_block_number : Json -> res EvmRpcError Z := parse_str (chars "eth_blockNumber") parse_quantity.

(** A field of an object that holds a string *)
Definition str_field (k : str) (v : Json) : option str := x ← jget k v; as_str x.

Definition parse_transaction_receipt (resp : Json) : res EvmRpcError (option EvmReceipt) :=
  let method := chars "eth_getTransactionReceipt" in
  let? r := parse_result method resp in
  if is_null r then Ok None else
  match (tx_hash ← str_field (chars "transactionHash") r;
         status ← (s ← str_field (chars "status") r; parse_quantity s);
         block_number ← (b ← str_field (chars "blockNumber") r; parse_quantity b);
         Some (mkEvmReceipt tx_hash (status =? 1) block_number)) with
  | Some x => Ok (Some x)
  | None => Err (EvmBadResponse method)
  end.

Definition parse_finalized_block_number (resp : Json) : res EvmRpcError Z :=
  let method := chars "eth_getBlockByNumber(finalized)" in
  let? r := parse_result method resp in
  match n ← str_field (chars "number") r; parse_quantity n with Some v => Ok v | None => Err (EvmBadResponse method) end.

(** [t.strip_prefix("0x").unwrap_or(t)] *)
Definition without_0x (t : str) : str := match strip_prefix (chars "0x") t with Some r => r | None => t end.

(** One entry of [parse_logs]; an entry it cannot read is skipped. *)
Definition parse_log (entry : Json) : option EvmLog :=
  t1 ← (ts ← (t ← jget (chars "topics") entry; as_array t); t ← ts !! 1%nat; s ← as_str t; decode_hex (without_0x s));
  topic1 ← try_array 32 t1;
  data ← (d ← str_field (chars "data") entry; decode_hex (without_0x d));
  block_number ← (b ← str_field (chars "blockNumber") entry; parse_quantity b);
  Some (mkEvmLog topic1 data block_number
          (map to_ascii_lowercase (match str_field (chars "transactionHash") entry with Some h => h | None => [] end))).

Definition parse_logs (resp : Json) : res EvmRpcError (list EvmLog) :=
  let? r := parse_result (chars "eth_getLogs") resp in
  match as_array r with
  | Some arr => Ok (omap parse_log arr)
  | None => Err (EvmBadResponse (chars "eth_getLogs"))
  end.
End codec.

(** [Display] *)
Definition evm_error_to_string (e : EvmRpcError) : str :=
  match e with
  | NotAmoy reason => chars "refused non-Amoy RPC: " ++ reason
  | EvmHttp status method => chars "evm rpc http " ++ decimal status ++ chars " (" ++ method ++ chars ")"
  | EvmTransport e => chars "evm rpc transport error: " ++ e
  | EvmRpc method message => method ++ chars ": " ++ message
  | EvmBadResponse method => method ++ chars ": malformed response"
  end.

(** ** The blocking client *)

(** What [ureq] makes of a POST: a body that is JSON or that [into_json] refuses, a
    status that is not a success, or no answer. *)
Inductive PostOutcome : Type :=
| PostJson (v : Json)
| PostBody (e : list Z)
| PostStatus (status : Z)
| PostTransport (e : list Z).

Class HttpPost (N : Type) : Type := { http_post : N -> list Z -> Json -> N * PostOutcome }.

Record HttpPolygonRpc (N : Type) : Type := mkHttpPolygonRpc { hp_url : list Z; hp_agent : N; hp_next_id : Z }.
Arguments mkHttpPolygonRpc {N}.
Arguments hp_url {N}.
Arguments hp_agent {N}.
Arguments hp_next_id {N}.

Section client.
Context {N : Type} `{P : HttpPost N} (json_text : Json -> list Z).

(** [agent] is the agent the constructor builds. *)
Definition polygon_new (url : str) (agent : N) : res EvmRpcError (HttpPolygonRpc N) :=
  let? _ := guard_amoy url in Ok (mkHttpPolygonRpc url agent 1).

Definition polygon_new_mainnet (url : str) (agent : N) : res EvmRpcError (HttpPolygonRpc N) :=
  let? _ := guard_polygon_mainnet url in Ok (mkHttpPolygonRpc url agent 1).

(** [expect] on the constructor *)
Definition amoy_default (agent : N) : res EvmRpcError (HttpPolygonRpc N) :=
  match polygon_new DEFAULT_AMOY_RPC_URL agent with Ok c => Ok c | _ => Panic end.

(** [fetch_add], which wraps *)
Definition next_id (c : HttpPolygonRpc N) : HttpPolygonRpc N * Z :=
  (mkHttpPolygonRpc (hp_url c) (hp_agent c) (wrapN 64 (hp_next_id c + 1)), hp_next_id c).

Definition post (c : HttpPolygonRpc N) (request : Json) (method : str) : HttpPolygonRpc N * res EvmRpcError Json :=
  let '(agent, o) := http_post (hp_agent c) (hp_url c) request in
  (mkHttpPolygonRpc (hp_url c) agent (hp_next_id c),
   match o with
   | PostJson v => Ok v
   | PostBody e => Err (EvmTransport e)
   | PostStatus status => Err (EvmHttp status method)
   | PostTransport e => Err (EvmTransport e)
   end).

(** A typed call: build the request on the next id, post it, parse the answer. *)
Definition rpc_call {A} (build : Z -> Json) (method : str) (parse : Json -> res EvmRpcError A) (c : HttpPolygonRpc N)
  : HttpPolygonRpc N * res EvmRpcError A :=
  let '(c, id) := next_id c in
  let '(c, r) := post c (build id) method in
  (c, let? resp := r in parse resp).

Definition get_transaction_count (c : HttpPolygonRpc N) (address : str) : HttpPolygonRpc N * res EvmRpcError Z :=
  rpc_call (get_transaction_count_request address) (chars "eth_getTransactionCount") (parse_transaction_count json_text) c.
Definition gas_price (c : HttpPolygonRpc N) : HttpPolygonRpc N * res EvmRpcError Z :=
  rpc_call gas_price_request (chars "eth_gasPrice") (parse_gas_price json_text) c.
Definition get_balance (c : HttpPolygonRpc N) (address : str) : HttpPolygonRpc N * res EvmRpcError Z :=
  rpc_call (get_balance_request address) (chars "eth_getBalance") (parse_balance json_text) c.
Definition estimate_gas (c : HttpPolygonRpc N) (from to data : str) : HttpPolygonRpc N * res EvmRpcError Z :=
  rpc_call (estimate_gas_request from to data) (chars "eth_estimateGas") (parse_estimate_gas json_text) c.
Definition send_raw_transaction (c : HttpPolygonRpc N) (raw_hex : str) : HttpPolygonRpc N * res EvmRpcError (list Z) :=
  rpc_call (send_raw_transaction_request raw_hex) (chars "eth_sendRawTransaction") (parse_send_raw_transaction json_text) c.
Definition get_transaction_receipt (c : HttpPolygonRpc N) (tx_hash : str) : HttpPolygonRpc N * res EvmRpcError (option EvmReceipt) :=
  rpc_call (get_transaction_receipt_request tx_hash) (chars "eth_getTransactionReceipt") (parse_transaction_receipt json_text) c.
Definition http_eth_call (c : HttpPolygonRpc N) (to data : str) : HttpPolygonRpc N * res EvmRpcError (list Z) :=
  rpc_call (eth_call_request to data) (chars "eth_call") (parse_eth_call json_text) c.
Definition block_number (c : HttpPolygonRpc N) : HttpPolygonRpc N * res EvmRpcError Z :=
  rpc_call block_number_request (chars "eth_blockNumber") (parse_block_number json_text) c.
Definition finalized_block_number (c : HttpPolygonRpc N) : HttpPolygonRpc N * res EvmRpcError Z :=
  rpc_call finalized_block_number_request (chars "eth_getBlockByNumber(finalized)") (parse_finalized_block_number json_text) c.
Definition get_logs (c : HttpPolygonRpc N) (address topic0 : str) (topic3 : option str) (from_block : Z)
  : HttpPolygonRpc N * res EvmRpcError (list EvmLog) :=
  rpc_call (get_logs_request address topic0 topic3 from_block) (chars "eth_getLogs") (parse_logs json_text) c.

(** *** [impl AmoyChain for HttpPolygonRpc] *)

Definition addr_hex (a : bytes) : str := chars "0x" ++ bytes_to_hex a.

Definition http_call (c : HttpPolygonRpc N) (to data : bytes) : HttpPolygonRpc N * res EvmRpcError bytes :=
  let '(c, r) := http_eth_call c (addr_hex to) (addr_hex data) in
  (c, let? out := r in match hex_to_bytes (as_bytes out) with Ok b => Ok b | _ => Err (EvmBadResponse (chars "eth_call")) end).

Definition http_estimate_gas (c : HttpPolygonRpc N) (from to data : bytes) : HttpPolygonRpc N * res EvmRpcError Z :=
  estimate_gas c (addr_hex from) (addr_hex to) (addr_hex data).

Definition http_new_swap_logs_to `{Keccak} (c : HttpPolygonRpc N) (htlc recipient : bytes) (from_block : Z)
  : HttpPolygonRpc N * res EvmRpcError (list EvmLog) :=
  get_logs c (addr_hex htlc) (addr_hex new_swap_topic0) (Some (addr_hex (repeat 0 12 ++ recipient))) from_block.

Definition http_live_chain : LiveChain (HttpPolygonRpc N) := {|
  lc_gas_price := gas_price;
  lc_transaction_count c address := get_transaction_count c (addr_hex address);
  lc_balance c address := get_balance c (addr_hex address);
  lc_send_raw c raw := send_raw_transaction c (addr_hex raw);
  lc_receipt c tx_hash := get_transaction_receipt c (addr_hex tx_hash);
  lc_call := http_call;
  lc_head := block_number
|}.
End client.

(** ** The mock ([MockPolygonRpc]) *)

Record MockPolygonRpc : Type := mkMock {
  mk_sent : list (list Z);
  mk_nonce : Z;
  mk_gas_price : Z;
  mk_head_block : Z;
  mk_balance_wei : Z
}.

Definition mock_default : MockPolygonRpc := mkMock [] 0 30000000000 0x10 1000000000000000000.
Definition at_nonce (nonce : Z) : MockPolygonRpc := mkMock [] nonce 30000000000 0x10 1000000000000000000.

(** The answer the mock synthesises *)
Definition mock_response (result : Json) : Json :=
  JObj [(chars "jsonrpc", JStr (chars "2.0")); (chars "id", JNum 1); (chars "result", result)].

Section mock.
Context `{K : Keccak} (json_text : Json -> list Z).

Definition fixture_hash (raw_hex : str) : str :=
  addr_hex (keccak256 (match decode_hex (without_0x raw_hex) with Some b => b | None => [] end)).

Definition mock_get_transaction_count (m : MockPolygonRpc) : res EvmRpcError Z :=
  parse_transaction_count json_text (mock_response (JStr (quantity_hex (mk_nonce m)))).
Definition mock_gas_price (m : MockPolygonRpc) : res EvmRpcError Z :=
  parse_gas_price json_text (mock_response (JStr (quantity_hex (mk_gas_price m)))).
Definition mock_get_balance (m : MockPolygonRpc) : res EvmRpcError Z :=
  parse_balance json_text (mock_response (JStr (quantity_hex (mk_balance_wei m)))).
Definition mock_send_raw_transaction (m : MockPolygonRpc) (raw_hex : str) : MockPolygonRpc * res EvmRpcError (list Z) :=
  (mkMock (mk_sent m ++ [raw_hex]) (mk_nonce m) (mk_gas_price m) (mk_head_block m) (mk_balance_wei m),
   parse_send_raw_transaction json_text (mock_response (JStr (fixture_hash raw_hex)))).
Definition mock_get_transaction_receipt (m : MockPolygonRpc) (tx_hash : str) : res EvmRpcError (option EvmReceipt) :=
  parse_transaction_receipt json_text (mock_response
    (JObj [(chars "transactionHash", JStr tx_hash); (chars "status", JStr (chars "0x1"));
           (chars "blockNumber", JStr (quantity_hex (mk_head_block m)))])).
End mock.

(** ** Hex lemmas *)

Lemma to_digit_hex d : 0 <= d < 16 -> to_digit16 (hex_digit d) = Some d.
Proof.
  intros Hd. unfold to_digit16, hex_digit. destruct (Z.ltb_spec d 10); repeat case_match; bool_prop; f_equal; lia.
Qed.

Lemma hex_digit_range d : 0 <= d < 16 -> 48 <= hex_digit d < 0x80.
Proof. unfold hex_digit. intros. case_match; bool_prop; lia. Qed.

Lemma hex_digits_ascii turns v : 0 <= v -> Forall (fun c => 48 <= c < 0x80) (hex_digits turns v).
Proof.
  revert v. induction turns as [|turns IH]; intros v Hv; cbn [hex_digits]; [constructor|]. case_match; bool_prop.
  - rewrite Forall_singleton. apply hex_digit_range. lia.
  - apply Forall_app. split; [apply IH, Z.div_pos; lia|]. rewrite Forall_singleton. apply hex_digit_range, Z.mod_pos_bound. lia.
Qed.

(** The digits of a value read back to it, at any width it fits. *)
Lemma hex_digits_read w turns v : 0 <= v < 2 ^ w -> v < 16 ^ Z.of_nat turns ->
  foldl (fun acc c => n ← acc; d ← to_digit16 c; if 2 ^ w <=? n * 16 + d then None else Some (n * 16 + d)) (Some 0) (hex_digits turns v) = Some v.
Proof.
  revert v. induction turns as [|turns IH]; intros v Hv Hlt; cbn [hex_digits].
  - change (16 ^ Z.of_nat 0) with 1 in Hlt. assert (v = 0) as -> by lia. done.
  - case_match; bool_prop.
    + cbn. rewrite to_digit_hex by lia. cbn. rewrite (proj2 (Z.leb_gt _ _)) by lia. done.
    + pose proof (Z.div_mod v 16 ltac:(done)) as Hd. pose proof (Z.mod_pos_bound v 16 ltac:(done)).
      rewrite Nat2Z.inj_succ, Z.pow_succ_r in Hlt by lia.
      rewrite foldl_app, IH; [|lia..].
      cbn. rewrite to_digit_hex by lia. cbn. replace (v / 16 * 16 + v mod 16) with v by lia.
      by rewrite (proj2 (Z.leb_gt _ _)) by lia.
Qed.

Lemma from_radix_digits w v : 0 <= v < 2 ^ w -> v < 2 ^ 128 -> from_str_radix16 w (hex_digits 32 v) = Some v.
Proof.
  intros Hv Hlt. unfold from_str_radix16. pose proof (hex_digits_ascii 32 v (proj1 Hv)) as Ha.
  pose proof (hex_digits_read w 32 v Hv Hlt) as Hr.
  assert (hex_digits 32 v <> []).
  { change (hex_digits 32 v) with (if v <? 16 then [hex_digit v] else hex_digits 31 (v / 16) ++ [hex_digit (v mod 16)]).
    case_match; [done|]. intros [_ ?]%app_eq_nil; done. }
  destruct (hex_digits 32 v) as [|c s]; [done|]. apply Forall_cons in Ha as [Hc _].
  assert (Hm : match c :: s with 43 :: c0 :: r => c0 :: r | _ => c :: s end = c :: s).
  { destruct c as [|c|c]; try done. repeat (destruct c as [c|c|]; try done; try lia). }
  rewrite Hm. exact Hr.
Qed.

Lemma quantity_roundtrip v : uN 64 v -> parse_quantity (quantity_hex v) = Some v.
Proof. intros Hv. change (from_str_radix16 64 (hex_digits 32 v) = Some v). apply from_radix_digits; unfold uN in Hv; lia. Qed.

Lemma quantity_u128_roundtrip v : uN 128 v -> parse_quantity_u128 (quantity_hex v) = Some v.
Proof. intros Hv. change (from_str_radix16 128 (hex_digits 32 v) = Some v). apply from_radix_digits; unfold uN in Hv; lia. Qed.

Lemma nibbles x : uN 8 x -> 0 <= x / 16 < 16 /\ 0 <= x mod 16 < 16 /\ x = x / 16 * 16 + x mod 16.
Proof.
  unfold uN. intros Hx. pose proof (Z.div_mod x 16 ltac:(done)). pose proof (Z.mod_pos_bound x 16 ltac:(done)). change (2 ^ 8) with 256 in Hx. lia.
Qed.

Lemma hex_ascii b : bytes_ok b -> Forall (fun c => 48 <= c < 0x80) (bytes_to_hex b).
Proof.
  induction 1 as [|x b Hx Hb IH]; [constructor|]. destruct (nibbles x Hx) as (? & ? & _).
  change (bytes_to_hex (x :: b)) with ([hex_digit (x / 16); hex_digit (x mod 16)] ++ bytes_to_hex b).
  apply Forall_app. split; [|done]. rewrite !Forall_cons, Forall_nil. split_and!; [by apply hex_digit_range..|done].
Qed.

Lemma addr_hex_bytes b : bytes_ok b -> as_bytes (addr_hex b) = addr_hex b.
Proof.
  intros Hb. apply as_bytes_ascii. apply Forall_app. split; [by repeat constructor|].
  eapply Forall_impl; [by apply hex_ascii|]. cbn. lia.
Qed.

Lemma addr_hex_reads b : bytes_ok b -> hex_to_bytes (as_bytes (addr_hex b)) = Ok b.
Proof.
  intros Hb. rewrite addr_hex_bytes by done.
  pose proof (hex_roundtrip b Hb) as Hr. unfold hex_to_bytes in Hr |- *.
  assert (Hc : match bytes_to_hex b with 48 :: 120 :: rest => rest | _ => bytes_to_hex b end = bytes_to_hex b).
  { destruct b as [|x b]; [done|]. apply Forall_cons in Hb as [Hx _]. destruct (nibbles x Hx) as (_ & Hl & _).
    change (bytes_to_hex (x :: b)) with (hex_digit (x / 16) :: hex_digit (x mod 16) :: bytes_to_hex b).
    assert (hex_digit (x mod 16) <> 120) as Hne by (unfold hex_digit; destruct (x mod 16 <? 10) eqn:?; bool_prop; lia).
    remember (hex_digit (x mod 16)) as h. clear -Hne. repeat case_match; simplify_eq; done. }
  rewrite Hc in Hr. cbn [addr_hex app chars map String.list_ascii_of_string]. exact Hr.
Qed.

Lemma decode_hex_roundtrip b : bytes_ok b -> decode_hex (bytes_to_hex b) = Some b.
Proof.
  intros Hb. unfold decode_hex. rewrite as_bytes_ascii by (eapply Forall_impl; [by apply hex_ascii|]; cbn; lia).
  induction Hb as [|x b Hx Hb IH]; [done|]. destruct (nibbles x Hx) as (Hh & Hl & He).
  change (bytes_to_hex (x :: b)) with (hex_digit (x / 16) :: hex_digit (x mod 16) :: bytes_to_hex b).
  cbn [decode_hex_pairs]. rewrite IH.
  assert (from_str_radix16 8 [hex_digit (x / 16); hex_digit (x mod 16)] = Some x) as ->; [|done].
  unfold from_str_radix16. pose proof (hex_digit_range _ Hh) as Hr. remember (hex_digit (x / 16)) as h eqn:Eh.
  assert (Hm : match [h; hex_digit (x mod 16)] with 43 :: c0 :: r => c0 :: r | _ => [h; hex_digit (x mod 16)] end = [h; hex_digit (x mod 16)]).
  { clear -Hr. destruct h as [|h|h]; try done. repeat (destruct h as [h|h|]; try done; try lia). }
  rewrite Hm. subst h. unfold uN in Hx. cbn -[Z.leb Z.pow Z.mul Z.add hex_digit]. rewrite !to_digit_hex by done.
  cbn -[Z.leb Z.pow Z.mul Z.add]. rewrite (proj2 (Z.leb_gt _ _)) by lia.
  cbn -[Z.leb Z.pow Z.mul Z.add]. rewrite (proj2 (Z.leb_gt _ _)) by lia. f_equal. lia.
Qed.

Lemma lower_addr_hex b : bytes_ok b -> map to_ascii_lowercase (addr_hex b) = addr_hex b.
Proof.
  intros Hb. unfold addr_hex. rewrite map_app. f_equal.
  induction Hb as [|x b Hx Hb IH]; [done|]. destruct (nibbles x Hx) as (Hh & Hl & _).
  change (bytes_to_hex (x :: b)) with (hex_digit (x / 16) :: hex_digit (x mod 16) :: bytes_to_hex b). cbn [map]. rewrite IH.
  f_equal; [|f_equal]; unfold to_ascii_lowercase, hex_digit; repeat case_match; bool_prop; lia.
Qed.

(** The guards match fragments of the URL: the testnet guard lets both allow-listed mainnet
    hosts through, the mainnet guard any URL that mentions one of them; and a quantity with a
    plus sign is read. *)
Theorem guards_match_fragments :
  Forall (fun host => guard_amoy (chars "https://" ++ host) = Ok tt) POLYGON_MAINNET_RPC_ALLOWLIST
  /\ guard_polygon_mainnet (chars "https://evil.example/polygon.drpc.org") = Ok tt
  /\ parse_quantity (chars "0x+9") = Some 9 /\ decode_hex (chars "+f") = Some [15].
Proof.
  unfold POLYGON_MAINNET_RPC_ALLOWLIST. rewrite !Forall_cons, Forall_nil.
  split_and!; first [exact I|vm_compute; reflexivity].
Qed.
