(* ===== verification/EthNode.v ===== *)
(** * EthNode: the Polygon client over a node

    What the Ethereum JSON-RPC documentation says of a node, with the ledger behind it and the
    block tags of the requests ([EthNode]), and the client of [polygon_gateway.rs] over any
    transport for which that holds.  [serve] is one: a server in front of a ledger. *)

From stdpp Require Import base list strings.
From Stdlib Require Import ZArith Lia.
From S2P Require Import Prelude Packet Crypto Address Gateway RequestUri Evm EvmVerifier LiveSigner PolygonGateway.
Open Scope Z_scope.

(** ** The ledger *)

(** The default block parameter of a query *)
Inductive BlockTag : Type := Earliest | Finalized | Safe | Latest | Pending.

#[export] Instance BlockTag_eq_dec : EqDecision BlockTag.
Proof. solve_decision. Defined.

Definition tag_name (t : BlockTag) : str :=
  match t with
  | Earliest => chars "earliest" | Finalized => chars "finalized" | Safe => chars "safe"
  | Latest => chars "latest" | Pending => chars "pending"
  end.

Record LedgerLog : Type := mkLedgerLog { lg_topics : list (list Z); lg_data : list Z; lg_block : Z; lg_tx : list Z }.

(** What a node holds, by block tag where the request names one; a refusal is a message. *)
Class Ledger (L : Type) : Type := {
  ld_gas_price : L -> Z;
  ld_count : L -> BlockTag -> list Z -> Z;
  ld_balance : L -> BlockTag -> list Z -> Z;
  ld_estimate : L -> list Z -> list Z -> list Z -> list Z + Z;
  ld_send : L -> list Z -> L * (list Z + list Z);
  ld_receipt : L -> list Z -> option (bool * Z);
  ld_call : L -> BlockTag -> list Z -> list Z -> list Z + list Z;
  ld_head : L -> Z;
  ld_block : L -> BlockTag -> option Z;
  ld_logs : L -> list Z -> list Z -> option (list Z) -> Z -> BlockTag -> list LedgerLog
}.

(** ** The documents of a node *)

Definition show_quantity (n : Z) : Json := JStr (quantity_hex n).
Definition show_hex (b : bytes) : Json := JStr (addr_hex b).

(** A JSON-RPC 2.0 request *)
Definition asks (req : Json) (method : str) (params : list Json) : Prop :=
  jget (chars "jsonrpc") req = Some (JStr (chars "2.0")) /\ jget (chars "method") req = Some (JStr method)
  /\ jget (chars "params") req = Some (JArr params) /\ exists id, jget (chars "id") req = Some (JNum id).

(** Its response: a result, or an error object with a message *)
Definition result_is (resp v : Json) : Prop := jget (chars "result") resp = Some v /\ jget (chars "error") resp = None.
Definition error_is (resp : Json) (message : str) : Prop :=
  exists err, jget (chars "error") resp = Some err /\ jget (chars "message") err = Some (JStr message).

(** The objects, by the fields they have *)
Definition call_doc (to data : bytes) (v : Json) : Prop :=
  jget (chars "to") v = Some (show_hex to) /\ jget (chars "data") v = Some (show_hex data).

Definition filter_doc (address topic0 : bytes) (topic3 : option (list Z)) (from : Z) (to : BlockTag) (v : Json) : Prop :=
  jget (chars "address") v = Some (show_hex address)
  /\ jget (chars "topics") v = Some (JArr [show_hex topic0; JNull; JNull; match topic3 with Some t => show_hex t | None => JNull end])
  /\ jget (chars "fromBlock") v = Some (show_quantity from) /\ jget (chars "toBlock") v = Some (JStr (tag_name to)).

Definition block_doc (b : option Z) (v : Json) : Prop :=
  match b with Some n => jget (chars "number") v = Some (show_quantity n) | None => v = JNull end.

Definition receipt_doc (tx : bytes) (r : option (bool * Z)) (v : Json) : Prop :=
  match r with
  | None => v = JNull
  | Some (ok, n) => jget (chars "transactionHash") v = Some (show_hex tx)
      /\ jget (chars "status") v = Some (JStr (chars (if ok then "0x1" else "0x0")))
      /\ jget (chars "blockNumber") v = Some (show_quantity n)
  end.

Definition log_doc (g : LedgerLog) (v : Json) : Prop :=
  jget (chars "topics") v = Some (JArr (map show_hex (lg_topics g))) /\ jget (chars "data") v = Some (show_hex (lg_data g))
  /\ jget (chars "blockNumber") v = Some (show_quantity (lg_block g)) /\ jget (chars "transactionHash") v = Some (show_hex (lg_tx g)).

Section documented.
Context {N L : Type} `{P : HttpPost N} `{LD : Ledger L} (url : list Z) (behind : N -> L).

(** The node in [n] answers a request with a document, or refuses it with a message, and is in
    [n'] afterwards. *)
Definition answers (n : N) (req : Json) (n' : N) (r : list Z + (Json -> Prop)) : Prop :=
  exists resp, http_post n url req = (n', PostJson resp)
    /\ match r with inr doc => exists v, result_is resp v /\ doc v | inl m => error_is resp m end.

(** A query: the ledger stays as it is. *)
Definition reads (n : N) (req : Json) (r : list Z + (Json -> Prop)) : Prop :=
  exists n', answers n req n' r /\ behind n' = behind n.

Definition quantity_doc (n : Z) : Json -> Prop := fun v => v = show_quantity n.
Definition hex_doc (b : bytes) : Json -> Prop := fun v => v = show_hex b.

Definition on_value {A} (doc : A -> Json -> Prop) (r : list Z + A) : list Z + (Json -> Prop) :=
  match r with inr a => inr (doc a) | inl m => inl m end.

(** What the documentation says of each method the client uses, for every state of the node,
    every argument and every block tag. *)
Record EthNode : Prop := {
  eth_gas_price : forall n req, asks req (chars "eth_gasPrice") [] -> reads n req (inr (quantity_doc (ld_gas_price (behind n))));
  eth_block_number : forall n req, asks req (chars "eth_blockNumber") [] -> reads n req (inr (quantity_doc (ld_head (behind n))));
  eth_count : forall n req a t, bytes_ok a -> asks req (chars "eth_getTransactionCount") [show_hex a; JStr (tag_name t)] ->
    reads n req (inr (quantity_doc (ld_count (behind n) t a)));
  eth_balance : forall n req a t, bytes_ok a -> asks req (chars "eth_getBalance") [show_hex a; JStr (tag_name t)] ->
    reads n req (inr (quantity_doc (ld_balance (behind n) t a)));
  eth_call : forall n req to data t v, bytes_ok to -> bytes_ok data -> call_doc to data v ->
    asks req (chars "eth_call") [v; JStr (tag_name t)] -> reads n req (on_value hex_doc (ld_call (behind n) t to data));
  eth_estimate : forall n req from to data v, bytes_ok from -> bytes_ok to -> bytes_ok data -> call_doc to data v ->
    jget (chars "from") v = Some (show_hex from) -> asks req (chars "eth_estimateGas") [v] ->
    reads n req (on_value quantity_doc (ld_estimate (behind n) from to data));
  eth_receipt : forall n req tx, bytes_ok tx -> asks req (chars "eth_getTransactionReceipt") [show_hex tx] ->
    reads n req (inr (receipt_doc tx (ld_receipt (behind n) tx)));
  eth_block : forall n req t, asks req (chars "eth_getBlockByNumber") [JStr (tag_name t); JBool false] ->
    reads n req (inr (block_doc (ld_block (behind n) t)));
  eth_logs : forall n req address topic0 topic3 from to v, bytes_ok address -> bytes_ok topic0 -> from_option bytes_ok True topic3 -> uN 64 from ->
    filter_doc address topic0 topic3 from to v -> asks req (chars "eth_getLogs") [v] ->
    reads n req (inr (fun out => exists vs, out = JArr vs /\ Forall2 log_doc (ld_logs (behind n) address topic0 topic3 from to) vs));
  eth_send : forall n req raw, bytes_ok raw -> asks req (chars "eth_sendRawTransaction") [show_hex raw] ->
    exists n', answers n req n' (on_value hex_doc (snd (ld_send (behind n) raw))) /\ behind n' = fst (ld_send (behind n) raw)
}.
End documented.
Arguments EthNode {N L P LD} url behind.

(** ** The client over such a node *)

Section exact.
Context `{K : Keccak} {N L : Type} `{P : HttpPost N} `{LD : Ledger L} (json_text : Json -> list Z) (behind : N -> L).

(** What the client keeps of a log *)
Definition log_view (g : LedgerLog) : option EvmLog :=
  t ← lg_topics g !! 1%nat; t ← try_array 32 t; Some (mkEvmLog t (lg_data g) (lg_block g) (addr_hex (lg_tx g))).

Definition log_ok (g : LedgerLog) : Prop :=
  Forall bytes_ok (lg_topics g) /\ bytes_ok (lg_data g) /\ uN 64 (lg_block g) /\ bytes_ok (lg_tx g).

(** The ranges a Polygon ledger keeps: word-sized counters, a balance below [2^128] wei *)
Record ledger_ok (l : L) : Prop := mkLedgerOk {
  ok_price : uN 64 (ld_gas_price l);
  ok_count : forall t a, uN 64 (ld_count l t a);
  ok_balance : forall t a, uN 128 (ld_balance l t a);
  ok_estimate : forall f t d g, ld_estimate l f t d = inr g -> uN 64 g;
  ok_receipt : forall tx ok n, ld_receipt l tx = Some (ok, n) -> uN 64 n;
  ok_call : forall t a d out, ld_call l t a d = inr out -> bytes_ok out;
  ok_head : uN 64 (ld_head l);
  ok_block : forall t n, ld_block l t = Some n -> uN 64 n;
  ok_logs : forall a t0 t3 n t, Forall log_ok (ld_logs l a t0 t3 n t)
}.

(** The client after one call: the node's state, and the next request id *)
Definition client_after (c : HttpPolygonRpc N) (n : N) : HttpPolygonRpc N :=
  mkHttpPolygonRpc (hp_url c) n (wrapN 64 (hp_next_id c + 1)).

Definition answer {A B} (method : str) (view : A -> B) (r : list Z + A) : res EvmRpcError B :=
  match r with inr v => Ok (view v) | inl m => Err (EvmRpc method m) end.

Lemma parse_result_ok method resp v : result_is resp v -> parse_result json_text method resp = Ok v.
Proof. intros [Hr He]. unfold parse_result. by rewrite Hr, He. Qed.

Lemma parse_result_error method resp m : error_is resp m -> parse_result json_text method resp = Err (EvmRpc method m).
Proof. intros (err & He & Hm). unfold parse_result. rewrite He. destruct err; try discriminate Hm. cbn [is_null]. by rewrite Hm. Qed.

(** One call: the answer parses to what [r] says, when its documents do. *)
Lemma call_answers {A B} (c : HttpPolygonRpc N) n' build method (parse : Json -> res EvmRpcError B) (doc : A -> Json -> Prop)
    (view : A -> B) (r : list Z + A) :
  answers (hp_url c) (hp_agent c) (build (hp_next_id c)) n' (on_value doc r) ->
  (forall a v resp, r = inr a -> doc a v -> result_is resp v -> parse resp = Ok (view a)) ->
  (forall m resp, error_is resp m -> parse resp = Err (EvmRpc method m)) ->
  rpc_call build method parse c = (client_after c n', answer method view r).
Proof.
  intros (resp & Hp & Hr) Hok Herr. unfold rpc_call, next_id, post. cbn [hp_agent hp_url hp_next_id]. rewrite Hp.
  destruct r as [m|a]; cbn [on_value answer] in *; [by rewrite (Herr m)|]. destruct Hr as (v & Hv & Hd). by rewrite (Hok a v resp).
Qed.

Lemma parse_str_ok {A} method (parse : str -> option A) resp s v :
  result_is resp (JStr s) -> parse s = Some v -> parse_str json_text method parse resp = Ok v.
Proof. intros Hr Hp. unfold parse_str. rewrite (parse_result_ok _ _ _ Hr). cbn. by rewrite Hp. Qed.

Lemma parse_str_error {A} method (parse : str -> option A) resp m :
  error_is resp m -> parse_str json_text method parse resp = Err (EvmRpc method m).
Proof. intros He. unfold parse_str. by rewrite (parse_result_error _ _ _ He). Qed.

Lemma parse_log_doc g v : log_ok g -> log_doc g v -> parse_log v = log_view g.
Proof.
  intros (Ht & Hd & Hb & Hx) (E1 & E2 & E3 & E4). unfold parse_log, log_view, str_field. rewrite E1, E2, E3, E4.
  cbn [mbind option_bind as_array as_str show_hex show_quantity]. rewrite list_lookup_fmap. destruct (lg_topics g !! 1%nat) as [t|] eqn:E; [|done].
  assert (bytes_ok t) as Hbt by (by eapply Forall_lookup_1). cbn [fmap option_fmap option_map show_hex as_str].
  change (Some (show_hex t) ≫= _) with (decode_hex (bytes_to_hex t)).
  change (without_0x (addr_hex (lg_data g))) with (bytes_to_hex (lg_data g)).
  rewrite !decode_hex_roundtrip, quantity_roundtrip, lower_addr_hex by done.
  cbn [mbind option_bind]. by destruct (try_array 32 t).
Qed.

Lemma parse_logs_doc gs vs resp : Forall log_ok gs -> Forall2 log_doc gs vs -> result_is resp (JArr vs) ->
  parse_logs json_text resp = Ok (omap log_view gs).
Proof.
  intros Hok Hd Hr. unfold parse_logs. rewrite (parse_result_ok _ _ _ Hr). cbn [as_array]. f_equal. clear Hr.
  induction Hd as [|g v gs vs Hg Hd IH]; [done|]. apply Forall_cons in Hok as [Hg' Hok]. cbn [omap list_omap].
  rewrite (parse_log_doc g v Hg' Hg). destruct (log_view g); by rewrite IH.
Qed.

Lemma parse_receipt_doc tx r v resp : bytes_ok tx -> (forall ok n, r = Some (ok, n) -> uN 64 n) -> receipt_doc tx r v -> result_is resp v ->
  parse_transaction_receipt json_text resp = Ok ((fun '(ok, n) => mkEvmReceipt (addr_hex tx) ok n) <$> r).
Proof.
  intros Htx Hn Hd Hr. unfold parse_transaction_receipt. rewrite (parse_result_ok _ _ _ Hr).
  destruct r as [[ok n]|]; cbn [receipt_doc] in Hd; [|by subst v]. destruct Hd as (E1 & E2 & E3). unfold str_field. rewrite E1, E2, E3.
  assert (is_null v = false) as -> by (by destruct v). cbn [mbind option_bind as_str show_hex show_quantity fmap option_fmap option_map].
  rewrite quantity_roundtrip by eauto. by destruct ok.
Qed.

Lemma parse_finalized_doc b v resp : (forall n, b = Some n -> uN 64 n) -> block_doc b v -> result_is resp v ->
  parse_finalized_block_number json_text resp =
  match b with Some n => Ok n | None => Err (EvmBadResponse (chars "eth_getBlockByNumber(finalized)")) end.
Proof.
  intros Hn Hd Hr. unfold parse_finalized_block_number. rewrite (parse_result_ok _ _ _ Hr).
  destruct b as [n|]; cbn [block_doc] in Hd; [|by subst v]. unfold str_field. rewrite Hd. cbn [mbind option_bind as_str show_quantity].
  by rewrite quantity_roundtrip by eauto.
Qed.

(** The ledger stays as it is and the client has [r]. *)
Definition queried {A} (c : HttpPolygonRpc N) (x : HttpPolygonRpc N * res EvmRpcError A) (r : res EvmRpcError A) : Prop :=
  exists n', x = (client_after c n', r) /\ behind n' = behind (hp_agent c).

(** A query whose answer is a string *)
Lemma query_str {A B} (c : HttpPolygonRpc N) build method (parse : str -> option B) (show : A -> str) (view : A -> B) (r : list Z + A) :
  reads (hp_url c) behind (hp_agent c) (build (hp_next_id c)) (on_value (fun a v => v = JStr (show a)) r) ->
  (forall a, r = inr a -> parse (show a) = Some (view a)) ->
  queried c (rpc_call build method (parse_str json_text method parse) c) (answer method view r).
Proof.
  intros (n' & Ha & Hb) Hv. exists n'. split; [|done]. eapply call_answers; [exact Ha| |].
  - intros a v resp Er -> Hres. eapply parse_str_ok; [exact Hres|auto].
  - intros m resp He. by apply parse_str_error.
Qed.

Context (c : HttpPolygonRpc N) (Hnode : EthNode (hp_url c) behind).
Abbreviation l := (behind (hp_agent c)).

Lemma gas_price_call : uN 64 (ld_gas_price l) -> queried c (gas_price json_text c) (Ok (ld_gas_price l)).
Proof.
  intros H. apply (query_str c _ _ _ quantity_hex id (inr (ld_gas_price l))); [|by intros a [= <-]; apply quantity_roundtrip].
  apply (eth_gas_price _ _ Hnode). by split_and!; [..|eexists].
Qed.

Lemma head_call : uN 64 (ld_head l) -> queried c (block_number json_text c) (Ok (ld_head l)).
Proof.
  intros H. apply (query_str c _ _ _ quantity_hex id (inr (ld_head l))); [|by intros a [= <-]; apply quantity_roundtrip].
  apply (eth_block_number _ _ Hnode). by split_and!; [..|eexists].
Qed.

Lemma count_call a : bytes_ok a -> uN 64 (ld_count l Pending a) ->
  queried c (get_transaction_count json_text c (addr_hex a)) (Ok (ld_count l Pending a)).
Proof.
  intros Ha H. apply (query_str c _ _ _ quantity_hex id (inr (ld_count l Pending a))); [|by intros ? [= <-]; apply quantity_roundtrip].
  apply (eth_count _ _ Hnode); [done|]. by split_and!; [..|eexists].
Qed.

Lemma balance_call a : bytes_ok a -> uN 128 (ld_balance l Latest a) ->
  queried c (get_balance json_text c (addr_hex a)) (Ok (ld_balance l Latest a)).
Proof.
  intros Ha H. apply (query_str c _ _ _ quantity_hex id (inr (ld_balance l Latest a))); [|by intros ? [= <-]; apply quantity_u128_roundtrip].
  apply (eth_balance _ _ Hnode); [done|]. by split_and!; [..|eexists].
Qed.

Lemma estimate_call from to data : bytes_ok from -> bytes_ok to -> bytes_ok data ->
  (forall g, ld_estimate l from to data = inr g -> uN 64 g) ->
  queried c (http_estimate_gas json_text c from to data) (answer (chars "eth_estimateGas") id (ld_estimate l from to data)).
Proof.
  intros Hf Ht Hd Hg. apply (query_str c _ _ _ quantity_hex id); [|intros g E; apply quantity_roundtrip; eauto].
  eapply (eth_estimate _ _ Hnode); [exact Hf|exact Ht|exact Hd| | |by split_and!; [..|eexists]]; by try split.
Qed.

Lemma call_call to data : bytes_ok to -> bytes_ok data -> (forall out, ld_call l Latest to data = inr out -> bytes_ok out) ->
  queried c (http_call json_text c to data) (answer (chars "eth_call") id (ld_call l Latest to data)).
Proof.
  intros Ht Hd Hout. unfold http_call, http_eth_call.
  destruct (query_str c (eth_call_request (addr_hex to) (addr_hex data)) (chars "eth_call") Some addr_hex addr_hex (ld_call l Latest to data))
    as (n' & E & Hb); [|by intros ? ?|].
  - eapply (eth_call _ _ Hnode); [exact Ht|exact Hd| |by split_and!; [..|eexists]]; by split.
  - unfold parse_eth_call. rewrite E. exists n'. split; [|done]. f_equal.
    destruct (ld_call l Latest to data) as [m|out]; [done|]. cbn [answer]. by rewrite addr_hex_reads by auto.
Qed.

Lemma receipt_call tx : bytes_ok tx -> (forall ok n, ld_receipt l tx = Some (ok, n) -> uN 64 n) ->
  queried c (get_transaction_receipt json_text c (addr_hex tx)) (Ok ((fun '(ok, n) => mkEvmReceipt (addr_hex tx) ok n) <$> ld_receipt l tx)).
Proof.
  intros Htx Hn. destruct (eth_receipt _ _ Hnode (hp_agent c) (get_transaction_receipt_request (addr_hex tx) (hp_next_id c)) tx) as (n' & Ha & Hb);
    [done|by split_and!; [..|eexists]|]. exists n'. split; [|done].
  apply (call_answers c n' _ _ _ (receipt_doc tx) (fmap (fun '(ok, n) => mkEvmReceipt (addr_hex tx) ok n)) (inr (ld_receipt l tx))); [exact Ha| |].
  - intros a v resp [= <-] Hd Hr. by eapply parse_receipt_doc.
  - intros m resp He. unfold parse_transaction_receipt. by rewrite (parse_result_error _ _ _ He).
Qed.

(** A finalized head the node does not have is a malformed response. *)
Lemma finalized_call : (forall n, ld_block l Finalized = Some n -> uN 64 n) ->
  queried c (finalized_block_number json_text c)
    (match ld_block l Finalized with Some n => Ok n | None => Err (EvmBadResponse (chars "eth_getBlockByNumber(finalized)")) end).
Proof.
  intros Hn. destruct (eth_block _ _ Hnode (hp_agent c) (finalized_block_number_request (hp_next_id c)) Finalized) as (n' & (resp & Hp & v & Hv & Hd) & Hb);
    [by split_and!; [..|eexists]|]. exists n'. split; [|done].
  unfold finalized_block_number, rpc_call, next_id, post. cbn [hp_agent hp_url hp_next_id]. rewrite Hp. cbv beta iota. f_equal.
  by eapply parse_finalized_doc.
Qed.

Lemma logs_call htlc topic0 topic3 from : bytes_ok htlc -> bytes_ok topic0 -> bytes_ok topic3 -> uN 64 from ->
  Forall log_ok (ld_logs l htlc topic0 (Some topic3) from Latest) ->
  queried c (get_logs json_text c (addr_hex htlc) (addr_hex topic0) (Some (addr_hex topic3)) from)
    (Ok (omap log_view (ld_logs l htlc topic0 (Some topic3) from Latest))).
Proof.
  intros Hh H0 H3 Hf Hl.
  destruct (eth_logs _ _ Hnode (hp_agent c) (get_logs_request (addr_hex htlc) (addr_hex topic0) (Some (addr_hex topic3)) from (hp_next_id c))
    htlc topic0 (Some topic3) from Latest
    (JObj [(chars "address", show_hex htlc); (chars "fromBlock", show_quantity from); (chars "toBlock", JStr (chars "latest"));
           (chars "topics", JArr [show_hex topic0; JNull; JNull; show_hex topic3])])) as (n' & (resp & Hp & v & Hv & vs & -> & Hd) & Hb);
    [done..|by split_and!|by split_and!; [..|eexists]|]. exists n'. split; [|done].
  unfold get_logs, rpc_call, next_id, post. cbn [hp_agent hp_url hp_next_id]. rewrite Hp. cbv beta iota. f_equal. by eapply parse_logs_doc.
Qed.

Lemma send_call raw : bytes_ok raw ->
  exists n', send_raw_transaction json_text c (addr_hex raw)
      = (client_after c n', answer (chars "eth_sendRawTransaction") addr_hex (snd (ld_send l raw)))
    /\ behind n' = fst (ld_send l raw).
Proof.
  intros Hr. destruct (eth_send _ _ Hnode (hp_agent c) (send_raw_transaction_request (addr_hex raw) (hp_next_id c)) raw) as (n' & Ha & Hb);
    [done|by split_and!; [..|eexists]|]. exists n'. split; [|done].
  eapply call_answers; [exact Ha| |intros m resp He; by apply parse_str_error].
  intros a v resp _ -> Hres. by eapply parse_str_ok.
Qed.
End exact.

(** ** A server in front of a ledger *)

Section node.
Context {L : Type} `{LD : Ledger L}.

Definition ok_response (result : Json) : Json :=
  JObj [(chars "jsonrpc", JStr (chars "2.0")); (chars "result", result)].
Definition error_response (message : str) : Json :=
  JObj [(chars "jsonrpc", JStr (chars "2.0")); (chars "error", JObj [(chars "message", JStr message)])].
Definition respond {A} (show : A -> Json) (r : list Z + A) : Json :=
  match r with inr v => ok_response (show v) | inl m => error_response m end.

Definition hex_arg (v : Json) : bytes :=
  match as_str v with Some s => match hex_to_bytes (as_bytes s) with Ok b => b | _ => [] end | None => [] end.
Definition hex_field (k : str) (v : Json) : bytes := match jget k v with Some x => hex_arg x | None => [] end.

Definition tag_of (v : Json) : option BlockTag :=
  s ← as_str v; List.find (fun t => bool_decide (tag_name t = s)) [Earliest; Finalized; Safe; Latest; Pending].

Definition show_receipt (tx : bytes) (r : option (bool * Z)) : Json :=
  match r with
  | None => JNull
  | Some (ok, n) => JObj [(chars "transactionHash", show_hex tx);
                          (chars "status", JStr (chars (if ok then "0x1" else "0x0"))); (chars "blockNumber", show_quantity n)]
  end.
Definition show_log (g : LedgerLog) : Json :=
  JObj [(chars "topics", JArr (map show_hex (lg_topics g))); (chars "data", show_hex (lg_data g));
        (chars "blockNumber", show_quantity (lg_block g)); (chars "transactionHash", show_hex (lg_tx g))].

Definition serve_logs (l : L) (f : Json) : Json :=
  match (s ← str_field (chars "fromBlock") f; parse_quantity s), (t ← jget (chars "toBlock") f; tag_of t),
        (t ← jget (chars "topics") f; as_array t) with
  | Some from, Some to, Some [t0; _; _; t3] =>
      ok_response (JArr (map show_log (ld_logs l (hex_field (chars "address") f) (hex_arg t0)
                                         (match t3 with JNull => None | _ => Some (hex_arg t3) end) from to)))
  | _, _, _ => error_response (chars "invalid params")
  end.

(** The methods with a block tag *)
Definition serve_tagged (l : L) (named : string -> bool) (a : Json) (t : BlockTag) : Json :=
  if named "eth_getTransactionCount" then ok_response (show_quantity (ld_count l t (hex_arg a)))
  else if named "eth_getBalance" then ok_response (show_quantity (ld_balance l t (hex_arg a)))
  else if named "eth_call" then respond show_hex (ld_call l t (hex_field (chars "to") a) (hex_field (chars "data") a))
  else error_response (chars "method not found").

Definition serve (l : L) (req : Json) : L * Json :=
  let named s := bool_decide (str_field (chars "method") req = Some (chars s)) in
  match p ← jget (chars "params") req; as_array p with
  | Some [] =>
      if named "eth_gasPrice" then (l, ok_response (show_quantity (ld_gas_price l)))
      else if named "eth_blockNumber" then (l, ok_response (show_quantity (ld_head l)))
      else (l, error_response (chars "method not found"))
  | Some [a] =>
      if named "eth_sendRawTransaction" then let '(l, r) := ld_send l (hex_arg a) in (l, respond show_hex r)
      else if named "eth_getTransactionReceipt" then (l, ok_response (show_receipt (hex_arg a) (ld_receipt l (hex_arg a))))
      else if named "eth_estimateGas" then
        (l, respond show_quantity (ld_estimate l (hex_field (chars "from") a) (hex_field (chars "to") a) (hex_field (chars "data") a)))
      else if named "eth_getLogs" then (l, serve_logs l a)
      else (l, error_response (chars "method not found"))
  | Some [a; b] =>
      if named "eth_getBlockByNumber" then
        (l, match tag_of a with
            | Some t => ok_response (match ld_block l t with Some n => JObj [(chars "number", show_quantity n)] | None => JNull end)
            | None => error_response (chars "invalid params")
            end)
      else (l, match tag_of b with Some t => serve_tagged l named a t | None => error_response (chars "invalid params") end)
  | _ => (l, error_response (chars "invalid request"))
  end.

#[export] Instance node_post : HttpPost L := {| http_post l _ req := let '(l, v) := serve l req in (l, PostJson v) |}.

Lemma hex_arg_show b : bytes_ok b -> hex_arg (show_hex b) = b.
Proof. intros Hb. unfold hex_arg, show_hex. cbn [as_str]. by rewrite addr_hex_reads. Qed.

Lemma hex_field_show k v b : bytes_ok b -> jget k v = Some (show_hex b) -> hex_field k v = b.
Proof. intros Hb E. unfold hex_field. rewrite E. by apply hex_arg_show. Qed.

Lemma tag_of_name t : tag_of (JStr (tag_name t)) = Some t.
Proof. by destruct t. Qed.

(** It dispatches on the method and the parameters. *)
Lemma serve_asks l req method params :
  asks req method params ->
  serve l req = serve l (JObj [(chars "method", JStr method); (chars "params", JArr params)]).
Proof.
  intros (_ & Hm & Hp & _). unfold serve, str_field. rewrite Hm, Hp. reflexivity.
Qed.

Lemma serve_documented url : EthNode url (@id L).
Proof.
  assert (Hres : forall n req n' (doc : Json -> Prop) v, serve n req = (n', ok_response v) -> doc v -> answers url n req n' (inr doc)).
  { intros n req n' doc v E Hd. exists (ok_response v). cbn. rewrite E. split; [done|]. exists v. by split. }
  assert (Hrd : forall n req (doc : Json -> Prop) v, serve n req = (n, ok_response v) -> doc v -> reads url id n req (inr doc)).
  { intros n req doc v E Hd. exists n. split; [|done]. by eapply Hres. }
  assert (Hrs : forall A n req n' (show : A -> Json) (r : list Z + A), serve n req = (n', respond show r) ->
            answers url n req n' (on_value (fun a v => v = show a) r)).
  { intros A n req n' show r E. destruct r as [m|a]; [|by eapply Hres]. exists (error_response m). cbn. rewrite E. split; [done|]. by eexists. }
  constructor.
  - intros n req Ha. eapply Hrd; [rewrite (serve_asks _ _ _ _ Ha); reflexivity|done].
  - intros n req Ha. eapply Hrd; [rewrite (serve_asks _ _ _ _ Ha); reflexivity|done].
  - intros n req a t Hb Ha. apply (Hrd _ _ _ (show_quantity (ld_count n t a))); [|done]. rewrite (serve_asks _ _ _ _ Ha).
    transitivity (n, ok_response (show_quantity (ld_count n t (hex_arg (show_hex a))))); [by destruct t|by rewrite hex_arg_show].
  - intros n req a t Hb Ha. apply (Hrd _ _ _ (show_quantity (ld_balance n t a))); [|done]. rewrite (serve_asks _ _ _ _ Ha).
    transitivity (n, ok_response (show_quantity (ld_balance n t (hex_arg (show_hex a))))); [by destruct t|by rewrite hex_arg_show].
  - intros n req to data t v Hto Hd [E1 E2] Ha. exists n. split; [|done]. apply (Hrs _ n req n show_hex). rewrite (serve_asks _ _ _ _ Ha).
    transitivity (n, respond show_hex (ld_call n t (hex_field (chars "to") v) (hex_field (chars "data") v))); [by destruct t|].
    by rewrite (hex_field_show _ _ _ Hto E1), (hex_field_show _ _ _ Hd E2).
  - intros n req from to data v Hf Hto Hd [E1 E2] E3 Ha. exists n. split; [|done]. apply (Hrs _ n req n show_quantity). rewrite (serve_asks _ _ _ _ Ha).
    change (serve n _) with (n, respond show_quantity (ld_estimate n (hex_field (chars "from") v) (hex_field (chars "to") v) (hex_field (chars "data") v))).
    by rewrite (hex_field_show _ _ _ Hto E1), (hex_field_show _ _ _ Hd E2), (hex_field_show _ _ _ Hf E3).
  - intros n req tx Hb Ha. eapply Hrd; [rewrite (serve_asks _ _ _ _ Ha); reflexivity|].
    rewrite (hex_arg_show tx Hb). unfold id. by destruct (ld_receipt n tx) as [[]|].
  - intros n req t Ha. eapply (Hrd _ _ _ (match ld_block n t with Some k => JObj [(chars "number", show_quantity k)] | None => JNull end)).
    + rewrite (serve_asks _ _ _ _ Ha). by destruct t.
    + unfold id. by destruct (ld_block n t).
  - intros n req address topic0 topic3 from to v H1 H2 H3 H4 (E1 & E2 & E3 & E4) Ha.
    eapply (Hrd _ _ _ (JArr (map show_log (ld_logs n address topic0 topic3 from to)))).
    + rewrite (serve_asks _ _ _ _ Ha). change (serve n _) with (n, serve_logs n v). unfold serve_logs, str_field. rewrite E2, E3, E4.
      cbn [mbind option_bind as_str show_quantity as_array]. rewrite quantity_roundtrip, tag_of_name by done. cbn [mbind option_bind].
      rewrite (hex_field_show _ _ _ H1 E1), (hex_arg_show _ H2). destruct topic3 as [t3|]; [|done]. cbn [show_hex].
      change (JStr (addr_hex t3)) with (show_hex t3). by rewrite (hex_arg_show _ H3).
    + exists (map show_log (ld_logs n address topic0 topic3 from to)). split; [done|]. unfold id.
      induction (ld_logs n address topic0 topic3 from to); constructor; [|done]. by split_and!.
  - intros n req raw Hb Ha. exists (fst (ld_send n raw)). split; [|done]. eapply (Hrs _ n req _ show_hex). rewrite (serve_asks _ _ _ _ Ha).
    change (serve n _) with (let '(l, r) := ld_send n (hex_arg (show_hex raw)) in (l, respond show_hex r)). rewrite hex_arg_show by done.
    unfold id. by destruct (ld_send n raw).
Qed.
End node.

(** ** Theorem *)

(** C27: the client is transparent.  Over any node that answers as the JSON-RPC documentation
    says, whatever the ledger behind it holds, every query of the live signer and of the verifiers
    returns the ledger's own value at the block the code means: the nonce with the pending
    transactions counted, the balance and the call at the latest block, the block of the
    [finalized] tag, the [NewSwap] logs paying the recipient from a block to the latest, the gas
    price, the gas estimate, the head and the receipt.  The ledger stays as it was, and a refusal
    comes back as the node's message under the method's name.  A broadcast hands the ledger
    exactly the signed bytes and returns the hash the ledger assigns.  Each call advances the
    request id by one. *)
Theorem polygon_client_exact `{K : Keccak} `{!KeccakLaws K} {N L : Type} `{P : HttpPost N} `{LD : Ledger L}
    (json_text : Json -> list Z) (behind : N -> L) (c : HttpPolygonRpc N)
    (address from data htlc recipient raw tx : bytes) (block : Z) :
  let l := behind (hp_agent c) in
  let chain := http_live_chain json_text in
  EthNode (hp_url c) behind -> ledger_ok l ->
  bytes_ok address -> bytes_ok from -> bytes_ok data -> bytes_ok htlc -> bytes_ok recipient ->
  bytes_ok raw -> bytes_ok tx -> uN 64 block ->
  queried behind c (lc_gas_price (LiveChain := chain) c) (Ok (ld_gas_price l))
  /\ queried behind c (lc_transaction_count (LiveChain := chain) c address) (Ok (ld_count l Pending address))
  /\ queried behind c (lc_balance (LiveChain := chain) c address) (Ok (ld_balance l Latest address))
  /\ queried behind c (lc_head (LiveChain := chain) c) (Ok (ld_head l))
  /\ queried behind c (lc_receipt (LiveChain := chain) c tx)
       (Ok ((fun '(ok, n) => mkEvmReceipt (addr_hex tx) ok n) <$> ld_receipt l tx))
  /\ queried behind c (lc_call (LiveChain := chain) c address data)
       (match ld_call l Latest address data with inr out => Ok out | inl m => Err (EvmRpc (chars "eth_call") m) end)
  /\ queried behind c (http_estimate_gas json_text c from address data)
       (match ld_estimate l from address data with inr g => Ok g | inl m => Err (EvmRpc (chars "eth_estimateGas") m) end)
  /\ queried behind c (finalized_block_number json_text c)
       (match ld_block l Finalized with Some n => Ok n | None => Err (EvmBadResponse (chars "eth_getBlockByNumber(finalized)")) end)
  /\ queried behind c (http_new_swap_logs_to json_text c htlc recipient block)
       (Ok (omap log_view (ld_logs l htlc new_swap_topic0 (Some (repeat 0 12 ++ recipient)) block Latest)))
  /\ exists n', behind n' = fst (ld_send l raw)
     /\ lc_send_raw (LiveChain := chain) c raw =
        (client_after c n', match snd (ld_send l raw) with
                            | inr hash => Ok (addr_hex hash)
                            | inl m => Err (EvmRpc (chars "eth_sendRawTransaction") m)
                            end).
Proof.
  intros l chain Hnode [] Ha Hf Hd Hh Hrec Hraw Htx Hb.
  assert (bytes_ok new_swap_topic0) by apply keccak256_ok. unfold l, chain in *.
  cbn [http_live_chain lc_gas_price lc_transaction_count lc_balance lc_head lc_receipt lc_call lc_send_raw].
  split_and!; [apply gas_price_call|apply count_call|apply balance_call|apply head_call|apply receipt_call|apply call_call|apply estimate_call
              |apply finalized_call|apply logs_call|]; eauto.
  - apply Forall_app. split; [by repeat constructor|done].
  - destruct (send_call json_text behind c Hnode raw Hraw) as (n' & E & Hn'). eauto.
Qed.

(** A ledger of one account, whose broadcasts it keeps; they count as pending only. *)
Definition toy_ledger : Ledger (list (list Z)) := {|
  ld_gas_price _ := 30000000000;
  ld_count l t _ := if bool_decide (t = Pending) then Z.min 5 (len l) else 0;
  ld_balance _ _ _ := 10 ^ 20;
  ld_estimate _ _ _ _ := inl (chars "execution reverted");
  ld_send l raw := (l ++ [raw], inr (repeat 7 32));
  ld_receipt l _ := Some (true, 0x1234);
  ld_call _ _ _ _ := inr [];
  ld_head _ := 0x1240;
  ld_block _ t := match t with Finalized => Some 0x1238 | Latest => Some 0x1240 | _ => None end;
  ld_logs _ _ _ _ _ _ := [mkLedgerLog [repeat 1 32; repeat 2 32] [0; 255] 0x1230 (repeat 9 32)]
|}.

Lemma toy_ledger_ok l : ledger_ok (LD := toy_ledger) l.
Proof.
  constructor; try (unfold uN; cbn; lia).
  - intros t a. unfold uN. cbn. case_bool_decide; unfold len; lia.
  - intros f t d g. cbn. discriminate.
  - intros tx ok n. cbn. intros [= <- <-]. unfold uN. lia.
  - intros t a d out. cbn. intros [= <-]. constructor.
  - intros t n. cbn. unfold uN. destruct t; intros [=]; lia.
  - intros a t0 t3 n t. cbn. rewrite Forall_singleton. unfold log_ok. cbn [lg_topics lg_data lg_block lg_tx].
    rewrite !Forall_cons, Forall_nil. split_and!; try done; try (apply bytes_okb_ok; vm_compute; reflexivity); unfold uN; lia.
Qed.

Lemma polygon_client_exact_witness :
  let c := mkHttpPolygonRpc DEFAULT_AMOY_RPC_URL ([[0xf8]] : list (list Z)) 1 in
  let chain := http_live_chain (P := node_post (LD := toy_ledger)) (fun _ => []) in
  (exists c', finalized_block_number (P := node_post (LD := toy_ledger)) (fun _ => []) c = (c', Ok 0x1238))
  /\ (exists c', lc_transaction_count (LiveChain := chain) c [] = (c', Ok 1))
  /\ exists c', lc_send_raw (LiveChain := chain) c [0xf8; 0x6c] = (c', Ok (addr_hex (repeat 7 32))) /\ hp_agent c' = [[0xf8]; [0xf8; 0x6c]].
Proof.
  intros c chain.
  destruct (@polygon_client_exact ToyKeccak _ _ _ (node_post (LD := toy_ledger)) toy_ledger (fun _ => []) id c [] [] [] [] [] [0xf8; 0x6c] [] 0)
    as (_ & (n1 & H1 & _) & _ & _ & _ & _ & _ & (n2 & H2 & _) & _ & (n3 & Hn3 & H3)); [| |try (apply bytes_okb_ok; vm_compute; reflexivity)..|].
  - apply serve_documented.
  - apply toy_ledger_ok.
  - unfold uN. lia.
  - split_and!; [by eexists; exact H2|by eexists; exact H1|]. eexists. split; [exact H3|]. exact Hn3.
Defined.
