(* ===== verification/NimmeshHtlc.v ===== *)
(** * NimmeshHtlc: the escrow contract ([contracts/src/NimmeshHtlc.sol])

    The contract as it is deployed: its storage, its events and errors, its external functions
    and the dispatch of calldata to them, over any ERC-20 token ([IERC20]).  A transaction that
    reverts leaves the state as it was.  The token is called last and cannot call back, as USDC
    has no hooks.  The theorem is that the slot of a swap is the leg of [swap_usdc_leg.rs]: under
    any transactions of anybody, and call by call for the calldata of [evm_abi.rs]. *)

From stdpp Require Import base list gmap strings relations.
From Stdlib Require Import ZArith Lia.
From S2P Require Import Prelude Packet Crypto Address Gateway SwapLeg Evm UsdcLeg EvmVerifier.
Open Scope Z_scope.

(** ** The ABI *)

Inductive AbiType : Type := TAddress | TUint256 | TUint8 | TBytes32.
Inductive AbiValue : Type := VAddress (a : bytes) | VUint (n : Z) | VBytes32 (b : bytes).

(** A word: an address and a [uint8] must be in range. *)
Definition abi_word (t : AbiType) (w : bytes) : option AbiValue :=
  match t with
  | TAddress => if bool_decide (take 12 w = replicate 12 0) then Some (VAddress (drop 12 w)) else None
  | TUint256 => Some (VUint (from_be w))
  | TUint8 => if from_be w <? 256 then Some (VUint (from_be w)) else None
  | TBytes32 => Some (VBytes32 w)
  end.

(** The parameters of a call; more data may follow. *)
Fixpoint abi_decode (ts : list AbiType) (data : bytes) : option (list AbiValue) :=
  match ts with
  | [] => Some []
  | t :: ts => if len data <? 32 then None else
      v ← abi_word t (take 32 data); vs ← abi_decode ts (drop 32 data); Some (v :: vs)
  end.

(** [abi.encode] of static values *)
Definition abi_encode (vs : list AbiValue) : bytes :=
  vs ≫= (fun v => match v with VAddress a => replicate 12 0 ++ a | VUint n => be_bytes 32 n | VBytes32 b => b end).

(** [abi.encodePacked]: an address takes 20 bytes *)
Definition encodePacked (vs : list AbiValue) : bytes :=
  vs ≫= (fun v => match v with VAddress a => a | VUint n => be_bytes 32 n | VBytes32 b => b end).

Definition address0 : bytes := replicate 20 0.

(** ** The contract *)

Inductive State : Type := StNone | StLive | StClaimed | StRefunded.

#[export] Instance State_eq_dec : EqDecision State.
Proof. solve_decision. Defined.

(** The number of an enum constant *)
Definition state_num (s : State) : Z := match s with StNone => 0 | StLive => 1 | StClaimed => 2 | StRefunded => 3 end.

Record Swap : Type := mkSwap {
  sw_sender : bytes;
  sw_receiver : bytes;
  sw_amount : Z;
  sw_hashlock : bytes;
  sw_timelock : Z;
  sw_state : State
}.

Inductive HtlcEvent : Type :=
| NewSwap (swapId sender receiver : bytes) (amount : Z) (hashlock : bytes) (timelock : Z)
| Withdrawn (swapId secret : bytes)
| Refunded (swapId : bytes).

(** The errors of the contract; [Reverted] is a revert without one: bad calldata, or a call
    into the token that reverts. *)
Inductive HtlcError : Type :=
| ZeroReceiver
| ZeroAmount
| TimelockNotFuture (timelock nowTs : Z)
| SwapAlreadyExists (swapId : bytes)
| UnknownSwap (swapId : bytes)
| NotLive (swapId : bytes)
| WrongSecret
| HtlcClaimWindowClosed (timelock nowTs : Z)
| HtlcTimeoutNotReached (timelock nowTs : Z)
| TransferFailed
| Reverted.

(** The token, with [msg.sender] of the call first; [None] is a revert. *)
Class IERC20 (T : Type) : Type := {
  transfer : T -> bytes -> bytes -> Z -> option (T * bool);
  transferFrom : T -> bytes -> bytes -> bytes -> Z -> option (T * bool);
  permit : T -> bytes -> bytes -> Z -> Z -> Z -> bytes -> bytes -> option T
}.

Record Htlc (T : Type) : Type := mkHtlcContract {
  hc_address : bytes;
  hc_token_address : bytes;
  hc_trustedForwarder : bytes;
  hc_swaps : gmap bytes Swap;
  hc_events : list HtlcEvent;
  hc_token : T
}.
Arguments mkHtlcContract {T}.
Arguments hc_address {T}.
Arguments hc_token_address {T}.
Arguments hc_trustedForwarder {T}.
Arguments hc_swaps {T}.
Arguments hc_events {T}.
Arguments hc_token {T}.

(** A transaction to the contract: [msg.sender], [msg.data], [msg.value], [block.timestamp] *)
Record Tx : Type := mkTx { tx_sender : bytes; tx_data : bytes; tx_value : Z; tx_time : Z }.

(** The calls, decoded *)
Inductive HtlcCall : Type :=
| CNewSwap (receiver : bytes) (amount : Z) (hashlock : bytes) (timelock : Z)
| CNewSwapWithPermit (receiver : bytes) (amount : Z) (hashlock : bytes) (timelock deadline v : Z) (r s : bytes)
| CWithdraw (swapId secret : bytes)
| CRefund (swapId : bytes)
| CSwapIdFor (sender receiver : bytes) (amount : Z) (hashlock : bytes) (timelock : Z)
| CGetSwap (swapId : bytes)
| CIsTrustedForwarder (forwarder : bytes)
| CToken
| CTrustedForwarder.

Definition empty_swap : Swap := mkSwap address0 address0 0 (replicate 32 0) 0 StNone.

Definition with_state (s : Swap) (st : State) : Swap :=
  mkSwap (sw_sender s) (sw_receiver s) (sw_amount s) (sw_hashlock s) (sw_timelock s) st.

Section contract.
Context `{C : Crypto} `{K : Keccak} {T : Type} `{TK : IERC20 T}.

Definition deploy (address usdc forwarder : bytes) (token : T) : Htlc T := mkHtlcContract address usdc forwarder ∅ [] token.

(** A slot that was never written reads as zeros. *)
Definition slot (c : Htlc T) (swapId : bytes) : Swap := default empty_swap (hc_swaps c !! swapId).

(** The write of a slot and the event, then the call into the token, whose answer is checked *)
Definition write_and_pay (c : Htlc T) (swapId : bytes) (s : Swap) (e : HtlcEvent) (paid : option (T * bool)) : res HtlcError (Htlc T) :=
  match paid with
  | Some (t, true) => Ok (mkHtlcContract (hc_address c) (hc_token_address c) (hc_trustedForwarder c) (<[swapId := s]> (hc_swaps c)) (hc_events c ++ [e]) t)
  | Some (_, false) => Err TransferFailed
  | None => Err Reverted
  end.

Definition swapIdFor (sender receiver : bytes) (amount : Z) (hashlock : bytes) (timelock : Z) : bytes :=
  keccak256 (encodePacked [VAddress sender; VAddress receiver; VUint amount; VBytes32 hashlock; VUint timelock]).

Definition _newSwap (c : Htlc T) (now : Z) (funder receiver : bytes) (amount : Z) (hashlock : bytes) (timelock : Z)
  : res HtlcError (Htlc T * bytes) :=
  if bool_decide (receiver = address0) then Err ZeroReceiver else
  if amount =? 0 then Err ZeroAmount else
  if timelock <=? now then Err (TimelockNotFuture timelock now) else
  let swapId := swapIdFor funder receiver amount hashlock timelock in
  if negb (bool_decide (sw_state (slot c swapId) = StNone)) then Err (SwapAlreadyExists swapId) else
  let? c' := write_and_pay c swapId (mkSwap funder receiver amount hashlock timelock StLive)
               (NewSwap swapId funder receiver amount hashlock timelock)
               (transferFrom (hc_token c) (hc_address c) funder (hc_address c) amount) in
  Ok (c', swapId).

(** ERC-2771 *)
Definition _msgSender (forwarder : bytes) (tx : Tx) : bytes :=
  if bool_decide (tx_sender tx = forwarder) && negb (bool_decide (forwarder = address0)) && (20 <=? len (tx_data tx))
  then drop (length (tx_data tx) - 20) (tx_data tx) else tx_sender tx.

Definition newSwap (c : Htlc T) (tx : Tx) (receiver : bytes) (amount : Z) (hashlock : bytes) (timelock : Z) : res HtlcError (Htlc T * bytes) :=
  _newSwap c (tx_time tx) (_msgSender (hc_trustedForwarder c) tx) receiver amount hashlock timelock.

(** A permit that reverts is ignored. *)
Definition newSwapWithPermit (c : Htlc T) (tx : Tx) (receiver : bytes) (amount : Z) (hashlock : bytes) (timelock deadline v : Z) (r s : bytes)
  : res HtlcError (Htlc T * bytes) :=
  let funder := _msgSender (hc_trustedForwarder c) tx in
  let token := default (hc_token c) (permit (hc_token c) funder (hc_address c) amount deadline v r s) in
  _newSwap (mkHtlcContract (hc_address c) (hc_token_address c) (hc_trustedForwarder c) (hc_swaps c) (hc_events c) token)
    (tx_time tx) funder receiver amount hashlock timelock.

Definition withdraw (c : Htlc T) (now : Z) (swapId secret : bytes) : res HtlcError (Htlc T) :=
  let s := slot c swapId in
  if bool_decide (sw_state s = StNone) then Err (UnknownSwap swapId) else
  if negb (bool_decide (sw_state s = StLive)) then Err (NotLive swapId) else
  if negb (bool_decide (sha256 (encodePacked [VBytes32 secret]) = sw_hashlock s)) then Err WrongSecret else
  if now >? sw_timelock s then Err (HtlcClaimWindowClosed (sw_timelock s) now) else
  write_and_pay c swapId (with_state s StClaimed) (Withdrawn swapId secret)
    (transfer (hc_token c) (hc_address c) (sw_receiver s) (sw_amount s)).

Definition refund_swap (c : Htlc T) (now : Z) (swapId : bytes) : res HtlcError (Htlc T) :=
  let s := slot c swapId in
  if bool_decide (sw_state s = StNone) then Err (UnknownSwap swapId) else
  if negb (bool_decide (sw_state s = StLive)) then Err (NotLive swapId) else
  if now <=? sw_timelock s then Err (HtlcTimeoutNotReached (sw_timelock s) now) else
  write_and_pay c swapId (with_state s StRefunded) (Refunded swapId)
    (transfer (hc_token c) (hc_address c) (sw_sender s) (sw_amount s)).

Definition getSwap (c : Htlc T) (swapId : bytes) : list AbiValue :=
  let s := slot c swapId in
  [VAddress (sw_sender s); VAddress (sw_receiver s); VUint (sw_amount s); VBytes32 (sw_hashlock s); VUint (sw_timelock s); VUint (state_num (sw_state s))].

Definition isTrustedForwarder (c : Htlc T) (forwarder : bytes) : bool :=
  negb (bool_decide (forwarder = address0)) && bool_decide (forwarder = hc_trustedForwarder c).

(** The external functions, which the dispatcher tells apart by their selectors *)
Definition external_functions : list (str * list AbiType * (list AbiValue -> option HtlcCall)) := [
  (chars "newSwap(address,uint256,bytes32,uint256)", [TAddress; TUint256; TBytes32; TUint256],
     fun vs => match vs with [VAddress r; VUint a; VBytes32 h; VUint t] => Some (CNewSwap r a h t) | _ => None end);
  (chars "newSwapWithPermit(address,uint256,bytes32,uint256,uint256,uint8,bytes32,bytes32)",
     [TAddress; TUint256; TBytes32; TUint256; TUint256; TUint8; TBytes32; TBytes32],
     fun vs => match vs with
               | [VAddress r; VUint a; VBytes32 h; VUint t; VUint d; VUint v; VBytes32 r'; VBytes32 s] => Some (CNewSwapWithPermit r a h t d v r' s)
               | _ => None end);
  (chars "withdraw(bytes32,bytes32)", [TBytes32; TBytes32],
     fun vs => match vs with [VBytes32 i; VBytes32 s] => Some (CWithdraw i s) | _ => None end);
  (chars "refund(bytes32)", [TBytes32], fun vs => match vs with [VBytes32 i] => Some (CRefund i) | _ => None end);
  (chars "swapIdFor(address,address,uint256,bytes32,uint256)", [TAddress; TAddress; TUint256; TBytes32; TUint256],
     fun vs => match vs with [VAddress s; VAddress r; VUint a; VBytes32 h; VUint t] => Some (CSwapIdFor s r a h t) | _ => None end);
  (chars "getSwap(bytes32)", [TBytes32], fun vs => match vs with [VBytes32 i] => Some (CGetSwap i) | _ => None end);
  (chars "isTrustedForwarder(address)", [TAddress], fun vs => match vs with [VAddress a] => Some (CIsTrustedForwarder a) | _ => None end);
  (chars "token()", [], fun _ => Some CToken);
  (chars "trustedForwarder()", [], fun _ => Some CTrustedForwarder) ].

Definition selector_of (f : str * list AbiType * (list AbiValue -> option HtlcCall)) : bytes := function_selector f.1.1.

Definition decode_call (data : bytes) : option HtlcCall :=
  if len data <? 4 then None else
  '(_, ts, mk) ← List.find (fun f => bool_decide (selector_of f = take 4 data)) external_functions;
  vs ← abi_decode ts (drop 4 data); mk vs.

Definition exec (c : Htlc T) (tx : Tx) (call : HtlcCall) : res HtlcError (Htlc T * bytes) :=
  match call with
  | CNewSwap r a h t => let? x := newSwap c tx r a h t in Ok (x.1, abi_encode [VBytes32 x.2])
  | CNewSwapWithPermit r a h t d v r' s => let? x := newSwapWithPermit c tx r a h t d v r' s in Ok (x.1, abi_encode [VBytes32 x.2])
  | CWithdraw i s => let? c' := withdraw c (tx_time tx) i s in Ok (c', [])
  | CRefund i => let? c' := refund_swap c (tx_time tx) i in Ok (c', [])
  | CSwapIdFor s r a h t => Ok (c, abi_encode [VBytes32 (swapIdFor s r a h t)])
  | CGetSwap i => Ok (c, abi_encode (getSwap c i))
  | CIsTrustedForwarder a => Ok (c, abi_encode [VUint (if isTrustedForwarder c a then 1 else 0)])
  | CToken => Ok (c, abi_encode [VAddress (hc_token_address c)])
  | CTrustedForwarder => Ok (c, abi_encode [VAddress (hc_trustedForwarder c)])
  end.

(** A transaction: the state after it, and what it returns; no function is payable. *)
Definition htlc_tx (c : Htlc T) (tx : Tx) : Htlc T * res HtlcError bytes :=
  match (if tx_value tx =? 0 then match decode_call (tx_data tx) with Some call => exec c tx call | None => Err Reverted end else Err Reverted) with
  | Ok (c', out) => (c', Ok out)
  | Err e => (c, Err e)
  | Panic => (c, Panic)
  end.

Definition htlc_run (c : Htlc T) (txs : list Tx) : Htlc T := foldl (fun c tx => (htlc_tx c tx).1) c txs.

(** An event as a log: the topics and the data *)
Definition log_of (e : HtlcEvent) : list bytes * bytes :=
  match e with
  | NewSwap i s r a h t =>
      ([keccak256 (chars "NewSwap(bytes32,address,address,uint256,bytes32,uint256)"); i; replicate 12 0 ++ s; replicate 12 0 ++ r],
       abi_encode [VUint a; VBytes32 h; VUint t])
  | Withdrawn i x => ([keccak256 (chars "Withdrawn(bytes32,bytes32)"); i], abi_encode [VBytes32 x])
  | Refunded i => ([keccak256 (chars "Refunded(bytes32)"); i], [])
  end.
End contract.

(** ** Words *)

Lemma from_be_zeros n l : from_be (replicate n 0 ++ l) = from_be l.
Proof. induction n as [|n IH]; [done|]. cbn [replicate app]. rewrite from_be_cons, IH. lia. Qed.

Lemma word_u256_value v : uN 64 v -> from_be (word_u256 v) = v.
Proof. intros H. unfold word_u256. rewrite from_be_zeros. by apply from_be_be_bytes. Qed.

(** The code's word, 24 zeros and a [u64], is the [uint256]. *)
Lemma word_u256_uint v : uN 64 v -> be_bytes 32 v = word_u256 v.
Proof.
  intros H. assert (Hb : bytes_ok (word_u256 v)) by (apply bytes_ok_app; split; [by repeat constructor|apply be_bytes_ok]).
  rewrite <- (be_bytes_from_be _ Hb), word_u256_value by done. reflexivity.
Qed.

Lemma swap_id_agrees `{K : Keccak} sender receiver amount hashlock timelock : uN 64 amount -> uN 64 timelock ->
  encodePacked [VAddress sender; VAddress receiver; VUint amount; VBytes32 hashlock; VUint timelock] = swap_id_packed sender receiver amount hashlock timelock.
Proof.
  intros Ha Ht. unfold encodePacked, swap_id_packed. cbn -[be_bytes]. by rewrite app_nil_r, !word_u256_uint.
Qed.

(** What a decoded value is *)
Definition value_ok (t : AbiType) (v : AbiValue) : Prop :=
  match t, v with
  | TAddress, VAddress a => array_ok 20 a
  | TUint256, VUint n | TUint8, VUint n => 0 <= n < 256 ^ 32
  | TBytes32, VBytes32 b => array_ok 32 b
  | _, _ => False
  end.

Lemma array_ok_drop n m b : array_ok n b -> 0 <= m <= n -> array_ok (n - m) (drop (Z.to_nat m) b).
Proof. intros [Hl Hb] Hm. split; [unfold len in *; rewrite length_drop; lia|by apply bytes_ok_drop]. Qed.

Lemma abi_word_ok t w v : array_ok 32 w -> abi_word t w = Some v -> value_ok t v.
Proof.
  intros Hw. pose proof (from_be_bound w (proj2 Hw)) as Hf. rewrite (proj1 Hw) in Hf. destruct t; cbn; repeat case_match; intros [= <-]; try done.
  exact (array_ok_drop 32 12 w Hw ltac:(lia)).
Qed.

Lemma abi_decode_ok ts : forall data vs, bytes_ok data -> abi_decode ts data = Some vs -> Forall2 value_ok ts vs.
Proof.
  induction ts as [|t ts IH]; intros data vs Hb; cbn -[Z.ltb]; [intros [= <-]; constructor|].
  destruct (Z.ltb_spec (len data) 32) as [|Hl]; [discriminate|].
  destruct (abi_word t (take 32 data)) as [v|] eqn:Ew; [|discriminate]. cbn. destruct (abi_decode ts (drop 32 data)) as [vs'|] eqn:Ed; [|discriminate].
  intros [= <-]. constructor; [|eapply IH; [|exact Ed]; by apply bytes_ok_drop].
  eapply abi_word_ok; [|exact Ew]. split; [unfold len in *; rewrite length_take; lia|by apply bytes_ok_take].
Qed.

(** One more word *)
Lemma abi_decode_word t w ts rest v : len w = 32 -> abi_word t w = Some v ->
  abi_decode (t :: ts) (w ++ rest) = (vs ← abi_decode ts rest; Some (v :: vs)).
Proof.
  intros Hl Hv. assert (length w = 32%nat) as Hn by (unfold len in Hl; lia). cbn -[Z.ltb].
  rewrite take_app_length', drop_app_length' by done. rewrite Hv. destruct (Z.ltb_spec (len (w ++ rest)) 32); [|done].
  rewrite len_app in *. pose proof (len_nonneg rest). lia.
Qed.

Lemma abi_word_address a : len a = 20 -> abi_word TAddress (word_address a) = Some (VAddress a).
Proof. intros H. cbn. by rewrite bool_decide_true. Qed.

Lemma abi_word_uint v : uN 64 v -> abi_word TUint256 (word_u256 v) = Some (VUint v).
Proof. intros H. cbn [abi_word]. by rewrite word_u256_value. Qed.

(** ** The dispatcher on the calldata of the code *)

Lemma find_unique {A B} `{EqDecision B} (g : A -> B) (l : list A) x : NoDup (map g l) -> x ∈ l ->
  List.find (fun y => bool_decide (g y = g x)) l = Some x.
Proof.
  intros Hn Hx. induction l as [|y l IH]; [by apply not_elem_of_nil in Hx|]. cbn [map] in Hn. apply NoDup_cons in Hn as [Hy Hn]. cbn [List.find].
  apply elem_of_cons in Hx as [->|Hx]; [by rewrite bool_decide_true|]. rewrite bool_decide_false; [by apply IH|].
  intros E. apply Hy. rewrite E. by apply list_elem_of_fmap_2.
Qed.

(** The compiler refuses a contract two of whose functions have one selector. *)
Definition selectors_distinct `{K : Keccak} : Prop := NoDup (map selector_of external_functions).

Section dispatch.
Context `{K : Keccak} `{!KeccakLaws K} (Hsel : selectors_distinct).

Lemma decode_call_to sig ts mk args vs :
  (sig, ts, mk) ∈ external_functions -> abi_decode ts args = Some vs -> decode_call (calldata sig ++ args) = mk vs.
Proof.
  intros Hf Hd. unfold decode_call. assert (Hl : length (calldata sig) = 4%nat).
  { unfold calldata, function_selector. rewrite length_take. destruct (keccak256_ok (as_bytes sig)) as [H _]. unfold len in H. lia. }
  destruct (Z.ltb_spec (len (calldata sig ++ args)) 4); [unfold len in *; rewrite length_app in *; lia|].
  rewrite take_app_length', drop_app_length' by done.
  rewrite (find_unique selector_of external_functions (sig, ts, mk) Hsel Hf). cbn [mbind option_bind]. by rewrite Hd.
Qed.

Lemma decode_new_swap receiver amount hashlock timelock : len receiver = 20 -> uN 64 amount -> len hashlock = 32 -> uN 64 timelock ->
  decode_call (htlc_new_swap receiver amount hashlock timelock) = Some (CNewSwap receiver amount hashlock timelock).
Proof.
  intros Hr Ha Hh Ht. unfold htlc_new_swap.
  erewrite (decode_call_to _ _ _ _ [VAddress receiver; VUint amount; VBytes32 hashlock; VUint timelock]); [|by apply list_elem_of_lookup_2 with 0%nat|]; [reflexivity|].
  erewrite abi_decode_word; [|by apply word_address_len|by apply abi_word_address].
  erewrite abi_decode_word; [|by apply word_u256_len|by apply abi_word_uint]. erewrite abi_decode_word; [|done|reflexivity].
  rewrite <- (app_nil_r (word_u256 timelock)). by erewrite abi_decode_word; [|by apply word_u256_len|by apply abi_word_uint].
Qed.

Lemma decode_withdraw id secret : len id = 32 -> len secret = 32 -> decode_call (htlc_withdraw id secret) = Some (CWithdraw id secret).
Proof.
  intros Hi Hs. unfold htlc_withdraw. erewrite (decode_call_to _ _ _ _ [VBytes32 id; VBytes32 secret]); [|by apply list_elem_of_lookup_2 with 2%nat|]; [reflexivity|].
  erewrite abi_decode_word; [|done|reflexivity]. rewrite <- (app_nil_r secret) at 1. by erewrite abi_decode_word; [|done|reflexivity].
Qed.

Lemma decode_refund id : len id = 32 -> decode_call (htlc_refund id) = Some (CRefund id).
Proof.
  intros Hi. unfold htlc_refund. erewrite (decode_call_to _ _ _ _ [VBytes32 id]); [|by apply list_elem_of_lookup_2 with 3%nat|]; [reflexivity|].
  rewrite <- (app_nil_r id) at 1. by erewrite abi_decode_word; [|done|reflexivity].
Qed.

Lemma decode_get_swap id : len id = 32 -> decode_call (get_swap_calldata id) = Some (CGetSwap id).
Proof.
  intros Hi. unfold get_swap_calldata. change (function_selector ?s) with (calldata s).
  erewrite (decode_call_to _ _ _ _ [VBytes32 id]); [|by apply list_elem_of_lookup_2 with 5%nat|]; [reflexivity|].
  rewrite <- (app_nil_r id) at 1. by erewrite abi_decode_word; [|done|reflexivity].
Qed.
End dispatch.

(** ** The slot of a swap and the leg *)

Definition state_of (o : LegOutcome) : State :=
  match o with Unfunded => StNone | LegFunded => StLive | LegClaimed => StClaimed | LegRefunded => StRefunded end.

(** The slot a leg stands for *)
Definition leg_slot (l : UsdcLeg) : option Swap :=
  (fun s => mkSwap (ul_sender l) (ul_receiver l) (h_amount (us_params s)) (h_hashlock (us_params s)) (h_timeout (us_params s)) (state_of (ul_outcome l)))
  <$> ul_state l.

(** The terms the code would fund *)
Record terms_ok (sender receiver hashlock : bytes) (amount timelock : Z) : Prop := {
  tm_sender : array_ok 20 sender;
  tm_receiver : array_ok 20 receiver;
  tm_hashlock : array_ok 32 hashlock;
  tm_amount : uN 64 amount;
  tm_timelock : uN 64 timelock;
  tm_someone : receiver <> address0;
  tm_something : amount <> 0
}.

Definition tx_ok (tx : Tx) : Prop := array_ok 20 (tx_sender tx) /\ bytes_ok (tx_data tx).

(** The string a transaction that creates a swap hashes *)
Definition creates `{K : Keccak} (forwarder : bytes) (tx : Tx) : option bytes :=
  match decode_call (tx_data tx) with
  | Some (CNewSwap r a h t) | Some (CNewSwapWithPermit r a h t _ _ _ _) =>
      Some (encodePacked [VAddress (_msgSender forwarder tx); VAddress r; VUint a; VBytes32 h; VUint t])
  | _ => None
  end.

Definition call_ok (call : HtlcCall) : Prop :=
  match call with
  | CNewSwap r a h t | CNewSwapWithPermit r a h t _ _ _ _ => array_ok 20 r /\ 0 <= a < 256 ^ 32 /\ array_ok 32 h /\ 0 <= t < 256 ^ 32
  | _ => True
  end.

Lemma decode_call_ok `{K : Keccak} data call : bytes_ok data -> decode_call data = Some call -> call_ok call.
Proof.
  intros Hb. unfold decode_call. destruct (_ <? _); [discriminate|]. destruct (List.find _ _) as [[[sig ts] mk]|] eqn:Ef; [|discriminate].
  cbn [mbind option_bind]. destruct (abi_decode ts _) as [vs|] eqn:Ed; [|discriminate]. cbn [mbind option_bind].
  apply abi_decode_ok in Ed; [|by apply bytes_ok_drop]. apply find_some in Ef as [Hin _]. unfold external_functions in Hin. cbn [In] in Hin.
  repeat (destruct Hin as [Hin|Hin]; [injection Hin as <- <- <-; intros Hm; repeat case_match; simplify_eq; try done;
    rewrite ?Forall2_cons in Ed; cbn in Ed; cbn; tauto|]). done.
Qed.

Lemma msgSender_ok forwarder tx : tx_ok tx -> array_ok 20 (_msgSender forwarder tx).
Proof.
  intros [H1 H2]. unfold _msgSender. destruct (_ && _ && _) eqn:E; [|done]. apply andb_true_iff in E as [_ E]. bool_prop.
  split; [unfold len in *; rewrite length_drop; lia|by apply bytes_ok_drop].
Qed.

Lemma packed_inj s r a h t s' r' a' h' t' :
  array_ok 20 s -> array_ok 20 r -> 0 <= a < 256 ^ 32 -> array_ok 32 h -> 0 <= t < 256 ^ 32 ->
  array_ok 20 s' -> array_ok 20 r' -> 0 <= a' < 256 ^ 32 -> array_ok 32 h' -> 0 <= t' < 256 ^ 32 ->
  encodePacked [VAddress s; VAddress r; VUint a; VBytes32 h; VUint t] = encodePacked [VAddress s'; VAddress r'; VUint a'; VBytes32 h'; VUint t'] ->
  s = s' /\ r = r' /\ a = a' /\ h = h' /\ t = t'.
Proof.
  intros [Hs _] [Hr _] Ha [Hh _] Ht [Hs' _] [Hr' _] Ha' [Hh' _] Ht'. unfold encodePacked. cbn -[be_bytes]. rewrite !app_nil_r. intros E.
  do 4 (apply app_len_inj in E as [?H E]; [|rewrite ?len_be_bytes; congruence]).
  split_and!; try done; by eapply (be_bytes_inj 32).
Qed.

Section slot.
Context `{C : Crypto} `{K : Keccak} `{!KeccakLaws K} {T : Type} `{TK : IERC20 T}.
Context (sender receiver hashlock : bytes) (amount timelock : Z) (Hterms : terms_ok sender receiver hashlock amount timelock).
Abbreviation id := (usdc_swap_id sender receiver amount hashlock timelock).
Abbreviation p := (mkHtlc hashlock amount timelock).

(** A step of the leg, on these terms *)
Definition leg_step (l l' : UsdcLeg) : Prop :=
  exists o, leg_op l o = Ok l' /\ match o with OpFund q => q = p | _ => True end.

(** The leg of the swap: with the parties and, once funded, the terms and the id *)
Definition leg_wf (l : UsdcLeg) : Prop :=
  ul_sender l = sender /\ ul_receiver l = receiver
  /\ (ul_outcome l = Unfunded /\ ul_state l = None \/ ul_outcome l <> Unfunded /\ ul_state l = Some (mkUsdcState id p)).

Lemma leg_step_wf l l' : leg_wf l -> leg_step l l' -> leg_wf l'.
Proof.
  intros (E1 & E2 & Hs) (o & Ho & Hp). destruct l as [s r q o' x]. cbn in E1, E2, Hs. subst s r. destruct o as [q'|x' h|h]; cbn in Ho.
  - subst q'. unfold usdc_fund in Ho. run Ho. split_and!; [done..|]. right. by split.
  - unfold usdc_claim in Ho. cbn in Ho. destruct o'; try discriminate. destruct Hs as [[[=] _]|[_ ->]]. run Ho. split_and!; [done..|]. right. by split.
  - unfold usdc_refund in Ho. cbn in Ho. destruct o'; try discriminate. destruct Hs as [[[=] _]|[_ ->]]. run Ho. split_and!; [done..|]. right. by split.
Qed.

Lemma swapIdFor_id : swapIdFor sender receiver amount hashlock timelock = id.
Proof. unfold swapIdFor, usdc_swap_id. by rewrite swap_id_agrees by apply Hterms. Qed.

(** The contract's slot is the leg's. *)
Definition tracks (c : Htlc T) (l : UsdcLeg) : Prop := leg_wf l /\ hc_swaps c !! id = leg_slot l.

Lemma tracks_slot c l : tracks c l ->
  ul_outcome l = Unfunded /\ ul_state l = None /\ slot c id = empty_swap
  \/ ul_outcome l <> Unfunded /\ ul_state l = Some (mkUsdcState id p) /\ slot c id = mkSwap sender receiver amount hashlock timelock (state_of (ul_outcome l)).
Proof.
  intros [(E1 & E2 & Hs) E]. unfold slot. rewrite E. unfold leg_slot. rewrite E1, E2. destruct Hs as [[Ho ->]|[Ho ->]]; [by left|by right].
Qed.

(** A call that succeeds writes one slot, and takes the token's new state. *)
Lemma write_and_pay_ok (c : Htlc T) i s e paid c' : write_and_pay c i s e paid = Ok c' -> hc_swaps c' = <[i := s]> (hc_swaps c).
Proof. unfold write_and_pay. destruct paid as [[t []]|]; intros [= <-]. done. Qed.

(** The claim, as the contract and the leg take it *)
Lemma withdraw_tracks c l now secret : tracks c l ->
  withdraw c now id secret =
  match usdc_claim l secret now with
  | Ok _ => write_and_pay c id (mkSwap sender receiver amount hashlock timelock StClaimed) (Withdrawn id secret)
              (transfer (hc_token c) (hc_address c) receiver amount)
  | Err WrongPreimage => Err WrongSecret
  | Err (ClaimWindowClosed t n) => Err (HtlcClaimWindowClosed t n)
  | Err _ => Err (if bool_decide (ul_outcome l = Unfunded) then UnknownSwap id else NotLive id)
  | Panic => Panic
  end.
Proof.
  intros Ht. unfold withdraw, usdc_claim. destruct (tracks_slot c l Ht) as [(Ho & Hs & ->)|(Ho & Hs & ->)].
  - by rewrite Ho.
  - rewrite Hs. cbn [sw_state sw_hashlock sw_timelock sw_receiver sw_amount us_params h_hashlock h_timeout].
    change (encodePacked [VBytes32 secret]) with (secret ++ []). rewrite app_nil_r.
    destruct (ul_outcome l); [done|..]; cbn; repeat case_match; done.
Qed.

Lemma refund_tracks c l now : tracks c l ->
  refund_swap c now id =
  match usdc_refund l now with
  | Ok _ => write_and_pay c id (mkSwap sender receiver amount hashlock timelock StRefunded) (Refunded id)
              (transfer (hc_token c) (hc_address c) sender amount)
  | Err (LegTimeoutNotReached t n) => Err (HtlcTimeoutNotReached t n)
  | Err _ => Err (if bool_decide (ul_outcome l = Unfunded) then UnknownSwap id else NotLive id)
  | Panic => Panic
  end.
Proof.
  intros Ht. unfold refund_swap, usdc_refund. destruct (tracks_slot c l Ht) as [(Ho & Hs & ->)|(Ho & Hs & ->)].
  - by rewrite Ho.
  - rewrite Hs. cbn [sw_state sw_timelock sw_sender sw_amount us_params h_timeout]. destruct (ul_outcome l); [done|..]; cbn; repeat case_match; done.
Qed.

Lemma new_swap_tracks c l now : tracks c l -> now < timelock ->
  _newSwap c now sender receiver amount hashlock timelock =
  match usdc_fund l p with
  | Ok _ => let? c' := write_and_pay c id (mkSwap sender receiver amount hashlock timelock StLive) (NewSwap id sender receiver amount hashlock timelock)
                         (transferFrom (hc_token c) (hc_address c) sender (hc_address c) amount) in Ok (c', id)
  | Err _ => Err (SwapAlreadyExists id)
  | Panic => Panic
  end.
Proof.
  intros Ht Hn. unfold _newSwap, usdc_fund. rewrite bool_decide_false by apply Hterms. rewrite (proj2 (Z.eqb_neq _ _) (tm_something _ _ _ _ _ Hterms)).
  destruct (Z.leb_spec timelock now); [lia|]. rewrite swapIdFor_id.
  destruct (tracks_slot c l Ht) as [(Ho & Hs & ->)|(Ho & Hs & ->)]; [by rewrite Ho|].
  rewrite bool_decide_false by (cbn; by destruct (ul_outcome l)). by rewrite bool_decide_false.
Qed.

Lemma terms_wide : 0 <= amount < 256 ^ 32 /\ 0 <= timelock < 256 ^ 32.
Proof. destruct Hterms as [_ _ _ Ha Ht _ _]. unfold uN in *. lia. Qed.

(** No two strings hashed for a slot collide with the terms of this one. *)
Definition no_collision (forwarder : bytes) (tx : Tx) : Prop :=
  forall x, creates forwarder tx = Some x -> keccak256 x = id -> x = swap_id_packed sender receiver amount hashlock timelock.

(** A leg that takes a step keeps up with a slot that is written. *)
Lemma tracks_write (c c' : Htlc T) l l' s e paid : tracks c l -> leg_step l l' -> leg_slot l' = Some s ->
  write_and_pay c id s e paid = Ok c' -> exists l', rtc leg_step l l' /\ tracks c' l'.
Proof.
  intros [Hwf _] Hs Hl Hw. exists l'. split; [by apply rtc_once|]. split; [by eapply leg_step_wf|].
  by rewrite (write_and_pay_ok _ _ _ _ _ _ Hw), lookup_insert_eq, Hl.
Qed.

Lemma tracks_other (c c' : Htlc T) l i s e paid : tracks c l -> i <> id -> write_and_pay c i s e paid = Ok c' -> tracks c' l.
Proof. intros [Hwf E] Hi Hw. split; [done|]. by rewrite (write_and_pay_ok _ _ _ _ _ _ Hw), lookup_insert_ne. Qed.

(** Whoever creates a slot: this one, with its terms, or another *)
Lemma new_swap_any (c c' : Htlc T) l now funder r a h t i : tracks c l ->
  (swapIdFor funder r a h t = id -> funder = sender /\ r = receiver /\ a = amount /\ h = hashlock /\ t = timelock) ->
  _newSwap c now funder r a h t = Ok (c', i) -> exists l', rtc leg_step l l' /\ tracks c' l'.
Proof.
  intros Ht Hid E. destruct (decide (swapIdFor funder r a h t = id)) as [Ei|Hne].
  - destruct (Hid Ei) as (-> & -> & -> & -> & ->).
    assert (Hn : now < timelock). { revert E. unfold _newSwap. repeat case_match; try discriminate. intros _. lia. }
    rewrite (new_swap_tracks c l now Ht Hn) in E. destruct (usdc_fund l p) as [l'|e|] eqn:Ef; [|discriminate..].
    destruct (write_and_pay _ _ _ _ _) as [c1|e|] eqn:Ew; [|discriminate..]. injection E as -> _.
    eapply (tracks_write c c' l l'); [done|by exists (OpFund p)| |exact Ew].
    destruct Ht as [(E1 & E2 & _) _]. unfold usdc_fund in Ef. run Ef. unfold leg_slot. cbn. congruence.
  - exists l. split; [done|]. unfold _newSwap in E. repeat case_match; try discriminate. simplify_eq. by eapply tracks_other.
Qed.

Lemma withdraw_any (c c' : Htlc T) l now i secret : tracks c l -> withdraw c now i secret = Ok c' -> exists l', rtc leg_step l l' /\ tracks c' l'.
Proof.
  intros Ht E. destruct (decide (i = id)) as [->|Hne].
  - rewrite (withdraw_tracks c l now secret Ht) in E. destruct (usdc_claim l secret now) as [l'|e|] eqn:Ef; [|by destruct e|done].
    eapply (tracks_write c c' l l'); [done|by exists (OpClaim secret now)| |exact E].
    destruct Ht as [(E1 & E2 & Hs) _]. unfold usdc_claim in Ef. destruct (ul_outcome l); try discriminate. destruct Hs as [[[=] _]|[_ Hs]].
    rewrite Hs in Ef. run Ef. unfold leg_slot. cbn. congruence.
  - exists l. split; [done|]. unfold withdraw in E. repeat case_match; try discriminate. by eapply tracks_other.
Qed.

Lemma refund_any (c c' : Htlc T) l now i : tracks c l -> refund_swap c now i = Ok c' -> exists l', rtc leg_step l l' /\ tracks c' l'.
Proof.
  intros Ht E. destruct (decide (i = id)) as [->|Hne].
  - rewrite (refund_tracks c l now Ht) in E. destruct (usdc_refund l now) as [l'|e|] eqn:Ef; [|by destruct e|done].
    eapply (tracks_write c c' l l'); [done|by exists (OpRefund now)| |exact E].
    destruct Ht as [(E1 & E2 & Hs) _]. unfold usdc_refund in Ef. destruct (ul_outcome l); try discriminate. destruct Hs as [[[=] _]|[_ Hs]].
    rewrite Hs in Ef. run Ef. unfold leg_slot. cbn. congruence.
  - exists l. split; [done|]. unfold refund_swap in E. repeat case_match; try discriminate. by eapply tracks_other.
Qed.

Lemma create_terms (c : Htlc T) tx r a h t : tx_ok tx -> no_collision (hc_trustedForwarder c) tx -> call_ok (CNewSwap r a h t) ->
  creates (hc_trustedForwarder c) tx = Some (encodePacked [VAddress (_msgSender (hc_trustedForwarder c) tx); VAddress r; VUint a; VBytes32 h; VUint t]) ->
  swapIdFor (_msgSender (hc_trustedForwarder c) tx) r a h t = id ->
  _msgSender (hc_trustedForwarder c) tx = sender /\ r = receiver /\ a = amount /\ h = hashlock /\ t = timelock.
Proof.
  intros Htx Hno (Hr & Ha & Hh & Ht) Hc Hid. destruct terms_wide as [Hwa Hwt]. destruct Hterms.
  apply packed_inj; try done; [by apply msgSender_ok|]. rewrite (swap_id_agrees sender receiver amount hashlock timelock) by done. by apply Hno.
Qed.

(** Whatever the transaction and whoever sends it, the leg keeps up. *)
Lemma tx_tracks (c : Htlc T) l tx : tracks c l -> tx_ok tx -> no_collision (hc_trustedForwarder c) tx ->
  exists l', rtc leg_step l l' /\ tracks (htlc_tx c tx).1 l'.
Proof.
  intros Ht Htx Hno. unfold htlc_tx. destruct (tx_value tx =? 0); [|by exists l].
  destruct (decode_call (tx_data tx)) as [call|] eqn:Ed; [|by exists l]. pose proof (decode_call_ok _ _ (proj2 Htx) Ed) as Hok.
  assert (Hcr := create_terms c tx). unfold creates in Hcr. rewrite Ed in Hcr.
  destruct call as [r a h t|r a h t d v r' s'|i x|i| | | | |]; cbn [exec]; try (by exists l).
  - unfold newSwap. destruct (_newSwap _ _ _ _ _ _ _) as [[c' i]|e|] eqn:E; [|by exists l..]. cbn. eapply new_swap_any; [done| |exact E]. intros; by apply Hcr.
  - unfold newSwapWithPermit. destruct (_newSwap _ _ _ _ _ _ _) as [[c' i]|e|] eqn:E; [|by exists l..]. cbn. eapply new_swap_any; [| |exact E]; [exact Ht|].
    intros; by apply Hcr.
  - destruct (withdraw _ _ _ _) as [c'|e|] eqn:E; [|by exists l..]. cbn. by eapply withdraw_any.
  - destruct (refund_swap _ _ _) as [c'|e|] eqn:E; [|by exists l..]. cbn. by eapply refund_any.
Qed.

Lemma write_and_pay_forwarder (c : Htlc T) i s e paid c' : write_and_pay c i s e paid = Ok c' -> hc_trustedForwarder c' = hc_trustedForwarder c.
Proof. unfold write_and_pay. destruct paid as [[t []]|]; intros [= <-]. done. Qed.

Lemma tx_forwarder (c : Htlc T) tx : hc_trustedForwarder (htlc_tx c tx).1 = hc_trustedForwarder c.
Proof.
  unfold htlc_tx. destruct (tx_value tx =? 0); [|done]. destruct (decode_call _) as [[]|]; cbn [exec]; try done;
    unfold newSwap, newSwapWithPermit, _newSwap, withdraw, refund_swap;
    repeat (case_match; try discriminate; simplify_eq; try done);
    match goal with H : write_and_pay _ _ _ _ _ = Ok _ |- _ => exact (write_and_pay_forwarder _ _ _ _ _ _ H) end.
Qed.

Lemma run_forwarder txs : forall c : Htlc T, hc_trustedForwarder (htlc_run c txs) = hc_trustedForwarder c.
Proof. induction txs as [|tx txs IH]; intros c; [done|]. cbn [htlc_run foldl]. fold (htlc_run (htlc_tx c tx).1 txs). by rewrite IH, tx_forwarder. Qed.

Lemma run_tracks txs : forall (c : Htlc T) l, tracks c l -> Forall tx_ok txs -> Forall (no_collision (hc_trustedForwarder c)) txs ->
  exists l', rtc leg_step l l' /\ tracks (htlc_run c txs) l'.
Proof.
  induction txs as [|tx txs IH]; intros c l Ht Hok Hno; [by exists l|]. apply Forall_cons in Hok as [H1 Hok]. apply Forall_cons in Hno as [H2 Hno].
  destruct (tx_tracks c l tx Ht H1 H2) as (l1 & Hs & Ht1). destruct (IH _ l1 Ht1 Hok) as (l2 & Hs2 & Ht2); [by rewrite tx_forwarder|].
  exists l2. split; [by etrans|done].
Qed.
End slot.

(** ** Theorem *)

Section equivalence.
Context `{C : Crypto} `{K : Keccak} `{!KeccakLaws K} {T : Type} `{TK : IERC20 T}.

(** What the contract becomes when the leg becomes [l'] and the token has answered *)
Definition becomes (c : Htlc T) (swapId : bytes) (l' : UsdcLeg) (e : HtlcEvent) (paid : option (T * bool)) (out : bytes) : Htlc T * res HtlcError bytes :=
  match paid with
  | Some (t, true) =>
      (mkHtlcContract (hc_address c) (hc_token_address c) (hc_trustedForwarder c) (partial_alter (fun _ => leg_slot l') swapId (hc_swaps c))
         (hc_events c ++ [e]) t, Ok out)
  | Some (_, false) => (c, Err TransferFailed)
  | None => (c, Err Reverted)
  end.

(** A slot that is not live: never created, or resolved *)
Definition not_funded (l : UsdcLeg) (swapId : bytes) : HtlcError :=
  if bool_decide (ul_outcome l = Unfunded) then UnknownSwap swapId else NotLive swapId.

Lemma becomes_pay (c : Htlc T) swapId l' s e paid out : leg_slot l' = Some s ->
  match (let? c' := write_and_pay c swapId s e paid in Ok (c', out)) with
  | Ok (c', out) => (c', Ok out) | Err e => (c, Err e) | Panic => (c, Panic) end = becomes c swapId l' e paid out.
Proof. intros Hl. unfold write_and_pay, becomes. destruct paid as [[t []]|]; [|done..]. by rewrite Hl. Qed.

Lemma get_swap_state (s : Swap) : len (sw_sender s) = 20 -> len (sw_receiver s) = 20 -> len (sw_hashlock s) = 32 ->
  decode_get_swap_state (abi_encode [VAddress (sw_sender s); VAddress (sw_receiver s); VUint (sw_amount s); VBytes32 (sw_hashlock s);
    VUint (sw_timelock s); VUint (state_num (sw_state s))]) = Some (state_num (sw_state s)).
Proof.
  intros H1 H2 H3. unfold abi_encode. cbn -[be_bytes replicate app]. rewrite app_nil_r, <- !app_assoc.
  set (pre := replicate 12 0 ++ sw_sender s ++ replicate 12 0 ++ sw_receiver s ++ be_bytes 32 (sw_amount s) ++ sw_hashlock s ++ be_bytes 32 (sw_timelock s)).
  assert (Hp : length pre = 160%nat) by (unfold pre, len in *; rewrite !length_app, !length_be_bytes, !length_replicate; lia).
  match goal with |- decode_get_swap_state ?b = _ => replace b with (pre ++ be_bytes 32 (state_num (sw_state s))) by (unfold pre; by rewrite <- !app_assoc) end.
  unfold decode_get_swap_state. destruct (Z.ltb_spec (len (pre ++ be_bytes 32 (state_num (sw_state s)))) (6 * 32)) as [Hlt|_].
  { exfalso. unfold len in Hlt. rewrite length_app, length_be_bytes in Hlt. lia. }
  rewrite drop_app_length', take_ge by (rewrite ?length_be_bytes; lia || done). by destruct (sw_state s).
Qed.

Lemma new_swap_log amount hashlock timelock : uN 64 amount -> uN 64 timelock -> len hashlock = 32 ->
  decode_new_swap_data (abi_encode [VUint amount; VBytes32 hashlock; VUint timelock]) = Some (amount, hashlock, timelock).
Proof.
  intros Ha Ht Hh. unfold abi_encode. cbn -[be_bytes app]. rewrite app_nil_r, !word_u256_uint by done.
  assert (Hw : forall v, uN 64 v -> word_u64 (word_u256 v) = Some v).
  { intros v Hv. unfold word_u64. rewrite word_u256_len. unfold word_u256. rewrite take_app_length', drop_app_length' by done. cbn -[be_bytes from_be]. by rewrite from_be_be_bytes. }
  assert (Hl : forall v, length (word_u256 v) = 32%nat) by done. assert (Hn : length hashlock = 32%nat) by (unfold len in Hh; lia).
  unfold decode_new_swap_data. rewrite (proj2 (Z.eqb_eq (len _) 96)) by (unfold len; rewrite !length_app, !Hl; lia). cbn [negb].
  rewrite (take_app_length' (word_u256 amount)), (drop_app_length' (word_u256 amount)), (take_app_length' hashlock) by done.
  replace (drop 64 (word_u256 amount ++ hashlock ++ word_u256 timelock)) with (word_u256 timelock); [by rewrite !Hw|].
  rewrite app_assoc, drop_app_length' by (rewrite length_app, Hl; lia). done.
Qed.

Section calls.
Context (sender receiver hashlock : bytes) (amount timelock : Z) (Hterms : terms_ok sender receiver hashlock amount timelock) (Hsel : selectors_distinct).
Abbreviation swapId := (usdc_swap_id sender receiver amount hashlock timelock).
Context (c : Htlc T) (l : UsdcLeg) (Ht : tracks sender receiver hashlock amount timelock c l).

Lemma swapId_len : len swapId = 32.
Proof. apply keccak256_ok. Qed.

Lemma fund_tx now : now < timelock -> sender <> hc_trustedForwarder c ->
  htlc_tx c (mkTx sender (htlc_new_swap receiver amount hashlock timelock) 0 now) =
  match usdc_fund l (mkHtlc hashlock amount timelock) with
  | Ok l' => becomes c swapId l' (NewSwap swapId sender receiver amount hashlock timelock)
               (transferFrom (hc_token c) (hc_address c) sender (hc_address c) amount) swapId
  | _ => (c, Err (SwapAlreadyExists swapId))
  end.
Proof.
  intros Hn Hf. pose proof Hterms as [[Hls _] [Hlr _] [Hlh _] Ha Htl Hne Hnz]. unfold htlc_tx. cbn [tx_value tx_data Z.eqb].
  rewrite decode_new_swap by done. cbn [exec]. unfold newSwap. cbn [tx_time].
  assert (_msgSender (hc_trustedForwarder c) (mkTx sender (htlc_new_swap receiver amount hashlock timelock) 0 now) = sender) as ->
    by (unfold _msgSender; cbn [tx_sender]; by rewrite bool_decide_false).
  rewrite (new_swap_tracks _ _ _ _ _ Hterms c l now Ht Hn). destruct (usdc_fund l _) as [l'|e|] eqn:Ef; [|done|].
  - assert (Hl : leg_slot l' = Some (mkSwap sender receiver amount hashlock timelock StLive)).
    { destruct Ht as [(E1 & E2 & _) _]. unfold usdc_fund in Ef. run Ef. unfold leg_slot. cbn. congruence. }
    rewrite <- (becomes_pay c swapId l' _ _ _ _ Hl). destruct (write_and_pay _ _ _ _ _); [|done..]. cbn. by rewrite app_nil_r.
  - unfold usdc_fund in Ef. by destruct (negb _).
Qed.

Lemma claim_tx caller secret now : len secret = 32 ->
  htlc_tx c (mkTx caller (htlc_withdraw swapId secret) 0 now) =
  match usdc_claim l secret now with
  | Ok l' => becomes c swapId l' (Withdrawn swapId secret) (transfer (hc_token c) (hc_address c) receiver amount) []
  | Err WrongPreimage => (c, Err WrongSecret)
  | Err (ClaimWindowClosed t n) => (c, Err (HtlcClaimWindowClosed t n))
  | _ => (c, Err (not_funded l swapId))
  end.
Proof.
  intros Hs. unfold htlc_tx. cbn [tx_value tx_data Z.eqb]. rewrite decode_withdraw by (try apply swapId_len; done). cbn [exec tx_time].
  rewrite (withdraw_tracks _ _ _ _ _ c l now secret Ht). destruct (usdc_claim l secret now) as [l'|e|] eqn:Ef; [|by destruct e|].
  - assert (Hl : leg_slot l' = Some (mkSwap sender receiver amount hashlock timelock StClaimed)).
    { destruct Ht as [(E1 & E2 & Hw) _]. unfold usdc_claim in Ef. destruct (ul_outcome l); try discriminate. destruct Hw as [[[=] _]|[_ Hw]].
      rewrite Hw in Ef. run Ef. unfold leg_slot. cbn. congruence. }
    apply (becomes_pay c swapId l' _ _ _ _ Hl).
  - unfold usdc_claim in Ef. repeat case_match; discriminate.
Qed.

Lemma refund_tx caller now :
  htlc_tx c (mkTx caller (htlc_refund swapId) 0 now) =
  match usdc_refund l now with
  | Ok l' => becomes c swapId l' (Refunded swapId) (transfer (hc_token c) (hc_address c) sender amount) []
  | Err (LegTimeoutNotReached t n) => (c, Err (HtlcTimeoutNotReached t n))
  | _ => (c, Err (not_funded l swapId))
  end.
Proof.
  unfold htlc_tx. cbn [tx_value tx_data Z.eqb]. rewrite decode_refund by (try apply swapId_len; done). cbn [exec tx_time].
  rewrite (refund_tracks _ _ _ _ _ c l now Ht). destruct (usdc_refund l now) as [l'|e|] eqn:Ef; [|by destruct e|].
  - assert (Hl : leg_slot l' = Some (mkSwap sender receiver amount hashlock timelock StRefunded)).
    { destruct Ht as [(E1 & E2 & Hw) _]. unfold usdc_refund in Ef. destruct (ul_outcome l); try discriminate. destruct Hw as [[[=] _]|[_ Hw]].
      rewrite Hw in Ef. run Ef. unfold leg_slot. cbn. congruence. }
    apply (becomes_pay c swapId l' _ _ _ _ Hl).
  - unfold usdc_refund in Ef. repeat case_match; discriminate.
Qed.

Lemma get_swap_tx caller now : exists out, htlc_tx c (mkTx caller (get_swap_calldata swapId) 0 now) = (c, Ok out)
  /\ decode_get_swap_state out =
     Some (match ul_outcome l with Unfunded => 0 | LegFunded => STATE_LIVE | LegClaimed => STATE_CLAIMED | LegRefunded => 3 end).
Proof.
  unfold htlc_tx. cbn [tx_value tx_data Z.eqb]. rewrite decode_get_swap by (try apply swapId_len; done). cbn [exec].
  eexists. split; [reflexivity|]. unfold getSwap. pose proof Hterms as [[Hls _] [Hlr _] [Hlh _] _ _ _ _].
  rewrite get_swap_state; destruct (tracks_slot _ _ _ _ _ c l Ht) as [(Ho & _ & ->)|(Ho & _ & ->)]; try done; cbn; by destruct (ul_outcome l).
Qed.
End calls.

End equivalence.

Lemma live_claim `{C : Crypto} l s r a h t secret now : leg_slot l = Some (mkSwap s r a h t StLive) -> sha256 secret = h ->
  usdc_claim l secret now =
  if now >? t then Err (ClaimWindowClosed t now) else Ok (mkUsdcLeg (ul_sender l) (ul_receiver l) (ul_state l) LegClaimed (Some secret)).
Proof.
  unfold leg_slot, usdc_claim. destruct (ul_state l) as [[i [h' a' t']]|]; [|discriminate]. cbn. intros [= <- <- <- <- <- Ho] E.
  destruct (ul_outcome l); try discriminate. rewrite bool_decide_true by done. cbn. by destruct (now >? t').
Qed.

(** A concrete digest whose first bytes depend on all of a short message *)
Definition MixedKeccak : Keccak := {| keccak256 := fun x => be_bytes 32 ((from_be (1 :: x) * 3 ^ 160) mod (2 ^ 255 - 19)) |}.

Lemma MixedKeccakLaws : KeccakLaws MixedKeccak.
Proof. split. intros x. split; [apply len_be_bytes | apply be_bytes_ok]. Qed.

(** A token that holds what the contract was paid *)
Definition toy_token : IERC20 Z := {|
  transfer t _ _ v := if v <=? t then Some (t - v, true) else None;
  transferFrom t _ _ _ v := Some (t + v, true);
  permit _ _ _ _ _ _ _ _ := None
|}.

Definition sample_secret : bytes := replicate 32 9.
Definition sample_contract : Htlc Z :=
  htlc_run (C := ToyCrypto) (K := MixedKeccak) (TK := toy_token) (deploy (replicate 20 1) (replicate 20 2) address0 0)
    [mkTx (replicate 20 3) (htlc_new_swap (K := MixedKeccak) (replicate 20 4) 5000000 (sha256 (Crypto := ToyCrypto) sample_secret) 100) 0 50].
Definition sample_id : bytes := usdc_swap_id (K := MixedKeccak) (replicate 20 3) (replicate 20 4) 5000000 (sha256 (Crypto := ToyCrypto) sample_secret) 100.

