(* ===== verification/SwapBuilder.v ===== *)
(** * SwapBuilder: the transaction builders of the NIM leg ([swap_builder.rs])

    The seam that turns a step of a swap into a signed transaction of the NIM chain,
    and its gated Bitcoin stub. *)

From stdpp Require Import base list strings.
From Stdlib Require Import ZArith Lia.
From S2P Require Import Prelude Packet Crypto SwapWire SwapSession NimTx NimHtlc.
Open Scope Z_scope.

Definition TESTNET_NETWORK_ID : Z := 5.

Record FundingTerms : Type := mkFundingTerms {
  ft_hashlock : bytes;
  ft_amount : Z;
  ft_timeout : Z;
  ft_recipient : bytes;
  ft_validity_start_height : Z
}.

Inductive LegBuildError : Type :=
| Gated (chain needs : string)
| BadField (reason : string)
| LegBadKeyMaterial.

Class LegBuilder (L : Type) : Type := {
  leg_id : L -> SwapLegId;
  build_funding : L -> FundingTerms -> res LegBuildError bytes;
  build_claim : L -> bytes -> bytes -> Z -> res LegBuildError bytes;
  build_refund : L -> bytes -> Z -> res LegBuildError bytes
}.

Record NimiqLeg : Type := mkNimiqLeg { nl_key : EnclaveKey; nl_network_id : Z }.

Definition nimiq_leg_new (key : EnclaveKey) : NimiqLeg := mkNimiqLeg key TESTNET_NETWORK_ID.

Section builder.
Context `{C : Crypto}.

(** [NimiqLeg::public_key], [address] and [sign] *)
Definition nim_public_key (l : NimiqLeg) : res LegBuildError bytes :=
  ok_or (try_array 32 (ek_public_key (nl_key l))) LegBadKeyMaterial.

Definition nim_address (l : NimiqLeg) : res LegBuildError bytes :=
  let? pk := nim_public_key l in Ok (address_of pk).

Definition nim_sign (l : NimiqLeg) (content : bytes) : res LegBuildError bytes :=
  ok_or (try_array 64 (ek_sign_content (nl_key l) content)) LegBadKeyMaterial.

(** [decode_creation_wire(funded_tx).ok_or(BadField)] *)
Definition decode_funding (funded_tx : bytes) : res LegBuildError HtlcCreation :=
  match decode_creation_wire funded_tx with
  | Ok (Some c) => Ok c
  | Ok None => Err (BadField "funded_tx is not a valid NIM HTLC funding tx")
  | _ => Panic
  end.

Definition nim_build_funding (l : NimiqLeg) (t : FundingTerms) : res LegBuildError bytes :=
  let? public_key := nim_public_key l in
  let funder := address_of public_key in
  let? recipient := ok_or (try_array 20 (ft_recipient t)) (BadField "NIM recipient must be 20 raw address bytes") in
  let creation := mkCreation funder (mkHtlcData funder recipient HaSha256 (ft_hashlock t) 1 (ft_timeout t))
                    (ft_amount t) 0 (ft_validity_start_height t) (nl_network_id l) in
  let? signature := ok_or (try_array 64 (ek_sign_content (nl_key l) (creation_content creation))) LegBadKeyMaterial in
  Ok (creation_wire creation (signature_proof_single_sig public_key signature)).

Definition nim_build_claim (l : NimiqLeg) (funded_tx preimage : bytes) (vsh : Z) : res LegBuildError bytes :=
  let? creation := decode_funding funded_tx in
  let? public_key := nim_public_key l in
  let d := hc_data creation in
  if negb (bool_decide (address_of public_key = hd_recipient d)) then
    Err (BadField "this key is not the HTLC recipient (claimant)") else
  let redeem := mkRedeem (contract_address creation) (hd_recipient d) (hc_value creation) 0 vsh
                  (hc_network_id creation) in
  let? sig := nim_sign l (redeem_content redeem) in
  Ok (redeem_wire redeem (regular_transfer_proof (hd_hash_algorithm d) (hd_hash_root d) preimage public_key sig)).

Definition nim_build_refund (l : NimiqLeg) (funded_tx : bytes) (vsh : Z) : res LegBuildError bytes :=
  let? creation := decode_funding funded_tx in
  let? public_key := nim_public_key l in
  let d := hc_data creation in
  if negb (bool_decide (address_of public_key = hd_sender d)) then
    Err (BadField "this key is not the HTLC sender (refunder)") else
  let redeem := mkRedeem (contract_address creation) (hd_sender d) (hc_value creation) 0 vsh
                  (hc_network_id creation) in
  let? sig := nim_sign l (redeem_content redeem) in
  Ok (redeem_wire redeem (timeout_resolve_proof public_key sig)).

#[export] Instance NimiqLeg_builder : LegBuilder NimiqLeg := {|
  leg_id := fun _ => LegNim;
  build_funding := nim_build_funding;
  build_claim := nim_build_claim;
  build_refund := nim_build_refund
|}.
End builder.

(** [BitcoinLeg], a unit struct *)
Inductive BitcoinLeg : Type := BitcoinLeg_.

Definition BTC_NEEDS : string :=
  "a Bitcoin node/RPC, real funds, and a P2WSH-HTLC signer/watcher (mainnet is Andjroo-only)".

#[export] Instance BitcoinLeg_builder : LegBuilder BitcoinLeg := {|
  leg_id := fun _ => LegCounterparty;
  build_funding := fun _ _ => Err (Gated "bitcoin" BTC_NEEDS);
  build_claim := fun _ _ _ _ => Err (Gated "bitcoin" BTC_NEEDS);
  build_refund := fun _ _ _ => Err (Gated "bitcoin" BTC_NEEDS)
|}.

(** ** What the two sides build *)

(** A key whose material has the sizes of Ed25519. *)
Record key_ok (k : EnclaveKey) : Prop := {
  ko_public : array_ok 32 (ek_public_key k);
  ko_sign : forall m, array_ok 64 (ek_sign_content k m)
}.

Record funding_ok (t : FundingTerms) : Prop := {
  fo_hashlock : array_ok 32 (ft_hashlock t);
  fo_amount : uN 64 (ft_amount t);
  fo_timeout : uN 64 (ft_timeout t);
  fo_recipient : array_ok 20 (ft_recipient t);
  fo_vsh : uN 32 (ft_validity_start_height t)
}.

Section spec.
Context `{C : Crypto} `{!CryptoLaws C}.

(** The contract that the terms describe, funded by the key of a leg *)
Definition creation_of (l : NimiqLeg) (t : FundingTerms) : HtlcCreation :=
  let funder := address_of (ek_public_key (nl_key l)) in
  mkCreation funder (mkHtlcData funder (ft_recipient t) HaSha256 (ft_hashlock t) 1 (ft_timeout t))
    (ft_amount t) 0 (ft_validity_start_height t) (nl_network_id l).

(** A redemption of all of it, to [to] *)
Definition redeem_of (c : HtlcCreation) (to : bytes) (vsh : Z) : HtlcRedeem :=
  mkRedeem (contract_address c) to (hc_value c) 0 vsh (hc_network_id c).

Lemma try_array_len n b : len b = Z.of_nat n -> try_array n b = Some b.
Proof. intros H. apply try_array_length. unfold len in H. lia. Qed.

Lemma nim_public_key_ok l : key_ok (nl_key l) -> nim_public_key l = Ok (ek_public_key (nl_key l)).
Proof. intros [[Hl _] _]. unfold nim_public_key. now rewrite (try_array_len 32). Qed.

Lemma nim_sign_ok l m : key_ok (nl_key l) -> nim_sign l m = Ok (ek_sign_content (nl_key l) m).
Proof. intros [_ Hs]. destruct (Hs m) as [Hl _]. unfold nim_sign. now rewrite (try_array_len 64). Qed.

Lemma creation_of_ok l t : key_ok (nl_key l) -> uN 8 (nl_network_id l) -> funding_ok t -> creation_ok (creation_of l t).
Proof.
  intros Hk Hn [F1 F2 F3 F4 F5]. pose proof (address_ok (ek_public_key (nl_key l))) as Ha.
  split; cbn; auto; [|unfold uN; lia]. split; cbn; auto. unfold uN. lia.
Qed.

Lemma nim_funding_wire l t : key_ok (nl_key l) -> funding_ok t ->
  nim_build_funding l t = Ok (creation_wire (creation_of l t)
    (signature_proof_single_sig (ek_public_key (nl_key l)) (ek_sign_content (nl_key l) (creation_content (creation_of l t))))).
Proof.
  intros Hk Ht. unfold nim_build_funding. rewrite nim_public_key_ok by exact Hk. destruct (fo_recipient _ Ht) as [Hr _].
  rewrite (try_array_len 20) by exact Hr. cbn [ok_or]. destruct (ko_sign _ Hk (creation_content (creation_of l t))) as [Hs _].
  fold (creation_of l t). now rewrite (try_array_len 64) by exact Hs.
Qed.

Lemma decode_funding_wire c proof : creation_ok c -> decode_funding (creation_wire c proof) = Ok c.
Proof. intros Hc. unfold decode_funding. now rewrite decode_creation_at. Qed.

Lemma nim_claim_wire c proof l preimage vsh : creation_ok c -> key_ok (nl_key l) ->
  let pk := ek_public_key (nl_key l) in
  let d := hc_data c in
  nim_build_claim l (creation_wire c proof) preimage vsh =
  if bool_decide (address_of pk = hd_recipient d) then
    let r := redeem_of c (hd_recipient d) vsh in
    Ok (redeem_wire r (regular_transfer_proof (hd_hash_algorithm d) (hd_hash_root d) preimage pk
                         (ek_sign_content (nl_key l) (redeem_content r))))
  else Err (BadField "this key is not the HTLC recipient (claimant)").
Proof.
  intros Hc Hk pk d. unfold nim_build_claim. rewrite (decode_funding_wire _ _ Hc), (nim_public_key_ok l Hk).
  fold pk d. destruct (bool_decide _); [|reflexivity]. cbn [negb]. now rewrite nim_sign_ok.
Qed.

Lemma nim_refund_wire c proof l vsh : creation_ok c -> key_ok (nl_key l) ->
  let pk := ek_public_key (nl_key l) in
  let d := hc_data c in
  nim_build_refund l (creation_wire c proof) vsh =
  if bool_decide (address_of pk = hd_sender d) then
    let r := redeem_of c (hd_sender d) vsh in
    Ok (redeem_wire r (timeout_resolve_proof pk (ek_sign_content (nl_key l) (redeem_content r))))
  else Err (BadField "this key is not the HTLC sender (refunder)").
Proof.
  intros Hc Hk pk d. unfold nim_build_refund. rewrite (decode_funding_wire _ _ Hc), (nim_public_key_ok l Hk).
  fold pk d. destruct (bool_decide _); [|reflexivity]. cbn [negb]. now rewrite nim_sign_ok.
Qed.
End spec.

(** ** Properties *)

(** C30: the transactions of the NIM leg fit together.  From agreed terms the funder
    builds one funding transaction for exactly those terms.  From its bytes alone,
    the claimant builds the transaction that moves the whole amount of exactly that
    contract to the agreed recipient and shows the preimage under the agreed hashlock,
    and the funder the one that takes it back after the timeout; a key that is neither
    is refused on both paths.  On arbitrary bytes instead of a funding transaction no
    builder panics. *)
Theorem nim_leg_exact `{C : Crypto} `{CL : !CryptoLaws C} (l : NimiqLeg) (t : FundingTerms)
    (Hk : key_ok (nl_key l)) (Hn : uN 8 (nl_network_id l)) (Ht : funding_ok t) :
  let c := creation_of l t in
  exists wire, build_funding l t = Ok wire /\ decode_creation_wire wire = Ok (Some c)
    /\ (forall l' preimage vsh, key_ok (nl_key l') ->
          let pk := ek_public_key (nl_key l') in
          build_claim l' wire preimage vsh =
          if bool_decide (address_of pk = ft_recipient t) then
            let r := redeem_of c (ft_recipient t) vsh in
            Ok (redeem_wire r (regular_transfer_proof HaSha256 (ft_hashlock t) preimage pk
                                 (ek_sign_content (nl_key l') (redeem_content r))))
          else Err (BadField "this key is not the HTLC recipient (claimant)"))
    /\ (forall l' vsh, key_ok (nl_key l') ->
          let pk := ek_public_key (nl_key l') in
          build_refund l' wire vsh =
          if bool_decide (address_of pk = address_of (ek_public_key (nl_key l))) then
            let r := redeem_of c (address_of (ek_public_key (nl_key l))) vsh in
            Ok (redeem_wire r (timeout_resolve_proof pk (ek_sign_content (nl_key l') (redeem_content r))))
          else Err (BadField "this key is not the HTLC sender (refunder)"))
    /\ (forall (l' : NimiqLeg) junk preimage vsh, build_claim l' junk preimage vsh <> Panic /\ build_refund l' junk vsh <> Panic).
Proof.
  intros c. pose proof (creation_of_ok l t Hk Hn Ht) as Hc.
  eexists. split; [exact (nim_funding_wire l t Hk Ht)|]. split; [now apply decode_creation_at|].
  split_and!.
  - intros l' preimage vsh Hk' pk. exact (nim_claim_wire _ _ l' preimage vsh Hc Hk').
  - intros l' vsh Hk' pk. exact (nim_refund_wire _ _ l' vsh Hc Hk').
  - intros l' junk preimage vsh. cbn [build_claim build_refund NimiqLeg_builder].
    unfold nim_build_claim, nim_build_refund, decode_funding, nim_public_key, nim_sign, ok_or.
    destruct (decode_creation_total junk) as [[c'|] ->];
    split; repeat (case_goal; try discriminate); discriminate.
Qed.

Definition sample_nim_leg (seed : Z) : NimiqLeg := nimiq_leg_new (in_memory_key (replicate 32 seed)).

Definition sample_funding : FundingTerms :=
  mkFundingTerms (replicate 32 7) 200000 5000000 (address_of (ek_public_key (nl_key (sample_nim_leg 4)))) 100.

Lemma sample_key_ok seed : key_ok (nl_key (sample_nim_leg seed)).
Proof. split; [apply public_ok | intros m; apply sign_ok]. Qed.

Lemma nim_leg_exact_witness :
  exists wire, build_funding (sample_nim_leg 3) sample_funding = Ok wire
    /\ is_ok (build_claim (sample_nim_leg 4) wire (replicate 32 1) 200) = true
    /\ build_claim (sample_nim_leg 5) wire (replicate 32 1) 200
       = Err (BadField "this key is not the HTLC recipient (claimant)").
Proof.
  assert (Hf : funding_ok sample_funding).
  { split; try (cbn; unfold uN; lia); (split; [reflexivity | apply bytes_okb_ok; vm_compute; reflexivity]). }
  destruct (nim_leg_exact (sample_nim_leg 3) sample_funding (sample_key_ok 3) ltac:(cbn; unfold uN, TESTNET_NETWORK_ID; lia) Hf)
    as (wire & Hw & _ & Hc & _).
  exists wire. split; [exact Hw|]. rewrite (Hc (sample_nim_leg 4) _ _ (sample_key_ok 4)), (Hc (sample_nim_leg 5) _ _ (sample_key_ok 5)).
  vm_compute. auto.
Defined.
