(* ===== verification/BtcHtlc.v ===== *)
(** * BtcHtlc: the transactions of the Bitcoin leg ([btc.rs], [swap_btc_leg.rs])

    Script assembly, addresses, the signature hash, DER and the consensus encoding are
    the [bitcoin] crate: the class [BitcoinLib].  What the core decides is here: which
    script it locks, which inputs, outputs, lock time, sequence and witness it spends
    with, and how it reads a secret off a claim. *)

From stdpp Require Import base list countable strings.
From Stdlib Require Import ZArith Lia.
From S2P Require Import Prelude Packet Crypto Address.
Open Scope Z_scope.

Definition HASH_LEN : Z := 32.
Definition COMPRESSED_PUBKEY_LEN : Z := 33.
Definition DUST_LIMIT_SAT : Z := 546.

(** ** The crate *)

Inductive Opcode : Type :=
| OP_IF | OP_SHA256 | OP_EQUALVERIFY | OP_CHECKSIG | OP_ELSE | OP_CLTV | OP_DROP | OP_ENDIF.

(** A call of the script builder *)
Inductive ScriptPush : Type :=
| PushOpcode (o : Opcode)
| PushSlice (b : bytes)
| PushInt (n : Z).

Inductive BtcNetwork : Type := BtcMainnet | BtcTestnet | BtcSignet | BtcRegtest.

Record TxIn : Type := mkTxIn {
  ti_txid : bytes;
  ti_vout : Z;
  ti_script_sig : bytes;
  ti_sequence : Z;
  ti_witness : list bytes
}.

Record TxOut : Type := mkTxOutput { txo_value : Z; txo_script_pubkey : bytes }.

Record BtcTransaction : Type := mkBtcTx {
  bt_version : Z;
  bt_lock_time : Z;
  bt_input : list TxIn;
  bt_output : list TxOut
}.

Class BitcoinLib : Type := {
  (** [Builder::into_script] of the pushes in order *)
  into_script : list ScriptPush -> bytes;
  (** [Address::p2wsh(script, network)], as text and as its [script_pubkey()] *)
  p2wsh_text : bytes -> BtcNetwork -> str;
  p2wsh_script : bytes -> BtcNetwork -> bytes;
  (** [SighashCache::new(tx).p2wsh_signature_hash(0, redeem, amount, All)] *)
  p2wsh_signature_hash : BtcTransaction -> bytes -> Z -> option bytes;
  (** [Signature::from_der], then [normalize_s] and [serialize_der] *)
  der_low_s : bytes -> option bytes;
  (** The consensus encoding *)
  tx_serialize : BtcTransaction -> bytes;
  tx_deserialize : bytes -> option BtcTransaction
}.

(** A transaction with an input decodes to itself. *)
Class BitcoinLaws (B : BitcoinLib) : Prop := {
  deserialize_serialize tx : bt_input tx <> [] -> tx_deserialize (tx_serialize tx) = Some tx
}.

(** The [BtcEnclaveKey] seam *)
Record BtcEnclaveKey : Type := mkBtcKey { bk_public_key : bytes; bk_sign_sighash : bytes -> bytes }.

Inductive BtcError : Type :=
| BtcBadKey
| BtcBadLocktime
| BtcSighash
| BtcBadSignature
| FeeExceedsValue
| DustOutput (have min : Z).

Record FundedHtlc : Type := mkFunded { fh_txid : bytes; fh_vout : Z; fh_value_sat : Z }.

Record BtcHtlcParams : Type := mkBtcParams {
  bp_hash_root : bytes;
  bp_recipient_pubkey : bytes;
  bp_sender_pubkey : bytes;
  bp_cltv_locktime : Z
}.

Section btc.
Context `{B : BitcoinLib}.

(** ** The contract *)

Definition redeem_pushes (p : BtcHtlcParams) : list ScriptPush :=
  [PushOpcode OP_IF; PushOpcode OP_SHA256; PushSlice (bp_hash_root p); PushOpcode OP_EQUALVERIFY;
   PushSlice (bp_recipient_pubkey p); PushOpcode OP_CHECKSIG;
   PushOpcode OP_ELSE; PushInt (bp_cltv_locktime p); PushOpcode OP_CLTV; PushOpcode OP_DROP;
   PushSlice (bp_sender_pubkey p); PushOpcode OP_CHECKSIG; PushOpcode OP_ENDIF].

Definition redeem_script (p : BtcHtlcParams) : bytes := into_script (redeem_pushes p).

Definition p2wsh_address (p : BtcHtlcParams) (n : BtcNetwork) : str := p2wsh_text (redeem_script p) n.

Definition script_pubkey (p : BtcHtlcParams) (n : BtcNetwork) : bytes := p2wsh_script (redeem_script p) n.

(** ** Spending *)

Definition sign_spend (p : BtcHtlcParams) (funded : FundedHtlc) (dest_spk : bytes) (payout_sat locktime sequence : Z)
    (branch : list bytes) (key : BtcEnclaveKey) : res BtcError bytes :=
  let redeem := redeem_script p in
  let tx witness := mkBtcTx 2 locktime [mkTxIn (fh_txid funded) (fh_vout funded) [] sequence witness]
                      [mkTxOutput payout_sat dest_spk] in
  let? sighash := ok_or (p2wsh_signature_hash (tx []) redeem (fh_value_sat funded)) BtcSighash in
  let? sig := ok_or (der_low_s (bk_sign_sighash key sighash)) BtcBadSignature in
  Ok (tx_serialize (tx ([sig ++ [1]] ++ branch ++ [redeem]))).

Definition claim_tx_with_key (p : BtcHtlcParams) (funded : FundedHtlc) (preimage dest_spk : bytes) (payout_sat : Z)
    (key : BtcEnclaveKey) : res BtcError bytes :=
  sign_spend p funded dest_spk payout_sat 0 0xffffffff [preimage; [1]] key.

Definition refund_tx_with_key (p : BtcHtlcParams) (funded : FundedHtlc) (dest_spk : bytes) (payout_sat : Z)
    (key : BtcEnclaveKey) : res BtcError bytes :=
  if (bp_cltv_locktime p <? 0) || (2 ^ 32 <=? bp_cltv_locktime p) then Err BtcBadLocktime else
  sign_spend p funded dest_spk payout_sat (bp_cltv_locktime p) 0xfffffffe [[]] key.

Definition extract_preimage (claim_tx : bytes) : option bytes :=
  tx ← tx_deserialize claim_tx;
  i ← head (bt_input tx);
  item ← ti_witness i !! 1%nat;
  try_array 32 item.

(** ** One node's leg ([swap_btc_leg.rs]) *)

Record BtcSwapLeg : Type := mkBtcLeg {
  bl_htlc : BtcHtlcParams;
  bl_network : BtcNetwork;
  bl_key : BtcEnclaveKey;
  bl_payout_spk : bytes;
  bl_fee_sat : Z
}.

Definition btc_leg_new (hashlock claimant_pubkey funder_pubkey : bytes) (cltv_locktime : Z) (network : BtcNetwork)
    (key : BtcEnclaveKey) (payout_spk : bytes) (fee_sat : Z) : BtcSwapLeg :=
  mkBtcLeg (mkBtcParams hashlock claimant_pubkey funder_pubkey cltv_locktime) network key payout_spk fee_sat.

Definition htlc_address (l : BtcSwapLeg) : str := p2wsh_address (bl_htlc l) (bl_network l).

Definition leg_script_pubkey (l : BtcSwapLeg) : bytes := script_pubkey (bl_htlc l) (bl_network l).

Definition payout (l : BtcSwapLeg) (funded : FundedHtlc) : res BtcError Z :=
  if fh_value_sat funded <? bl_fee_sat l then Err FeeExceedsValue else
  let payout := fh_value_sat funded - bl_fee_sat l in
  if payout <? DUST_LIMIT_SAT then Err (DustOutput payout DUST_LIMIT_SAT) else Ok payout.

Definition btc_build_claim (l : BtcSwapLeg) (funded : FundedHtlc) (preimage : bytes) : res BtcError bytes :=
  let? payout := payout l funded in
  claim_tx_with_key (bl_htlc l) funded preimage (bl_payout_spk l) payout (bl_key l).

Definition btc_build_refund (l : BtcSwapLeg) (funded : FundedHtlc) : res BtcError bytes :=
  let? payout := payout l funded in
  refund_tx_with_key (bl_htlc l) funded (bl_payout_spk l) payout (bl_key l).
End btc.

(** ** A concrete crate *)

#[export] Instance Opcode_eq_dec : EqDecision Opcode.
Proof. solve_decision. Defined.

#[export] Instance TxIn_eq_dec : EqDecision TxIn.
Proof. solve_decision. Defined.

#[export] Instance TxOut_eq_dec : EqDecision TxOut.
Proof. solve_decision. Defined.

#[export] Instance TxIn_countable : Countable TxIn.
Proof.
  refine (inj_countable' (fun i => (ti_txid i, ti_vout i, ti_script_sig i, ti_sequence i, ti_witness i))
            (fun p => let '(a, b, c, d, e) := p in mkTxIn a b c d e) _).
  now intros [].
Defined.

#[export] Instance TxOut_countable : Countable TxOut.
Proof.
  refine (inj_countable' (fun o => (txo_value o, txo_script_pubkey o)) (fun p => mkTxOutput p.1 p.2) _).
  now intros [].
Defined.

(** Transactions are encoded by their number; scripts by their slices. *)
Definition toy_push (p : ScriptPush) : bytes :=
  match p with PushOpcode _ => [] | PushSlice b => b | PushInt n => [n] end.

Definition toy_decode (l : bytes) : option BtcTransaction :=
  match l with
  | [Zpos n] =>
      t ← decode (A := Z * Z * list TxIn * list TxOut) n;
      Some (mkBtcTx t.1.1.1 t.1.1.2 t.1.2 t.2)
  | _ => None
  end.

#[export] Instance ToyBitcoin : BitcoinLib := {|
  into_script := fun l => concat (map toy_push l);
  p2wsh_text := fun _ _ => chars "tb1q";
  p2wsh_script := fun b _ => [0; 32] ++ b;
  p2wsh_signature_hash := fun tx _ _ => Some (fit 32 [bt_version tx; bt_lock_time tx]);
  der_low_s := fun b => match b with [] => None | _ => Some b end;
  tx_serialize := fun tx => [Zpos (encode (bt_version tx, bt_lock_time tx, bt_input tx, bt_output tx))];
  tx_deserialize := toy_decode
|}.

#[export] Instance ToyBitcoinLaws : BitcoinLaws ToyBitcoin.
Proof.
  split. intros [v t i o] _. cbn [tx_deserialize tx_serialize ToyBitcoin toy_decode]. rewrite decode_encode.
  reflexivity.
Qed.

(** ** What a spend carries *)

Section spec.
Context `{B : BitcoinLib} `{!BitcoinLaws B}.

Lemma sign_spend_decodes p f spk out lt sq branch key tx :
  sign_spend p f spk out lt sq branch key = Ok tx ->
  exists sig, tx_deserialize tx = Some (mkBtcTx 2 lt
    [mkTxIn (fh_txid f) (fh_vout f) [] sq ([sig ++ [1]] ++ branch ++ [redeem_script p])] [mkTxOutput out spk]).
Proof.
  unfold sign_spend. intros E. destruct (p2wsh_signature_hash _ _ _) as [h|]; [|discriminate]. cbn [ok_or] in E.
  destruct (der_low_s _) as [sig|]; [|discriminate]. cbn [ok_or] in E. injection E as <-. exists sig.
  now rewrite deserialize_serialize.
Qed.

Lemma extract_spend p f spk out lt sq item branch key tx :
  sign_spend p f spk out lt sq (item :: branch) key = Ok tx -> extract_preimage tx = try_array 32 item.
Proof. intros (sig & E)%sign_spend_decodes. unfold extract_preimage. now rewrite E. Qed.

Lemma payout_ok l f v : payout l f = Ok v -> v = fh_value_sat f - bl_fee_sat l /\ DUST_LIMIT_SAT <= v.
Proof. unfold payout. intros H. run H. auto. Qed.

Lemma claim_shows l f preimage tx : len preimage = 32 -> btc_build_claim l f preimage = Ok tx ->
  extract_preimage tx = Some preimage.
Proof.
  unfold btc_build_claim. intros Hl H. destruct (payout l f) as [v| |]; try discriminate.
  rewrite (extract_spend _ _ _ _ _ _ preimage [[1]] _ _ H). apply try_array_length. unfold len in Hl. lia.
Qed.
End spec.

(** ** Properties *)

(** C31: the claim of the Bitcoin leg publishes the secret and nothing else does.
    Every claim the leg builds spends exactly the funded output under the leg's own
    contract, pays its value less the fee, not dust, to the node's own script, and
    whoever sees its bytes reads the preimage out of them; a refund is locked until
    the contract's own lock time with a sequence that enforces it, and no preimage is
    read out of it. *)
Theorem btc_claim_publishes `{B : BitcoinLib} `{BL : !BitcoinLaws B} (l : BtcSwapLeg) (f : FundedHtlc) :
  (forall preimage tx, len preimage = 32 -> btc_build_claim l f preimage = Ok tx ->
     extract_preimage tx = Some preimage
     /\ exists t i, tx_deserialize tx = Some t /\ bt_input t = [i] /\ bt_lock_time t = 0
          /\ ti_txid i = fh_txid f /\ ti_vout i = fh_vout f
          /\ last (ti_witness i) = Some (redeem_script (bl_htlc l))
          /\ bt_output t = [mkTxOutput (fh_value_sat f - bl_fee_sat l) (bl_payout_spk l)]
          /\ DUST_LIMIT_SAT <= fh_value_sat f - bl_fee_sat l)
  /\ (forall tx, btc_build_refund l f = Ok tx ->
     extract_preimage tx = None
     /\ exists t i, tx_deserialize tx = Some t /\ bt_input t = [i]
          /\ bt_lock_time t = bp_cltv_locktime (bl_htlc l) /\ uN 32 (bt_lock_time t) /\ ti_sequence i < 0xffffffff
          /\ ti_txid i = fh_txid f /\ ti_vout i = fh_vout f
          /\ last (ti_witness i) = Some (redeem_script (bl_htlc l))
          /\ bt_output t = [mkTxOutput (fh_value_sat f - bl_fee_sat l) (bl_payout_spk l)]).
Proof.
  split.
  - intros preimage tx Hl H. split; [exact (claim_shows l f preimage tx Hl H)|]. unfold btc_build_claim in H.
    destruct (payout l f) as [v| |] eqn:Ep; try discriminate. apply payout_ok in Ep as [-> Hd].
    apply sign_spend_decodes in H as (sig & ->). do 2 eexists. repeat split; auto.
  - intros tx H. unfold btc_build_refund, refund_tx_with_key in H.
    destruct (payout l f) as [v| |] eqn:Ep; try discriminate. apply payout_ok in Ep as [-> _].
    destruct ((_ <? 0) || _) eqn:Eb; [discriminate|]. apply orb_false_iff in Eb as [?%Z.ltb_ge ?%Z.leb_gt].
    split; [exact (extract_spend _ _ _ _ _ _ [] [] _ _ H)|].
    apply sign_spend_decodes in H as (sig & ->). do 2 eexists. repeat split; auto.
Qed.

Definition sample_btc_leg : BtcSwapLeg :=
  btc_leg_new (replicate 32 7) (replicate 33 17) (replicate 33 34) 1700000000 BtcTestnet
    (mkBtcKey (replicate 33 17) (fun h => 17 :: h)) (replicate 22 5) 500.

Definition sample_funded : FundedHtlc := mkFunded (replicate 32 1) 0 90000.

Lemma btc_claim_publishes_witness : exists tx,
  btc_build_claim (B := ToyBitcoin) sample_btc_leg sample_funded (replicate 32 9) = Ok tx
  /\ extract_preimage (B := ToyBitcoin) tx = Some (replicate 32 9).
Proof.
  eexists. split; [reflexivity|].
  exact (proj1 (proj1 (btc_claim_publishes (B := ToyBitcoin) sample_btc_leg sample_funded) (replicate 32 9) _ eq_refl eq_refl)).
Defined.
