(* ===== verification/SwapEngine.v ===== *)
(** * SwapEngine: one side of a NIM/BTC swap ([swap_engine.rs], [swap_sim.rs])

    The orchestrator over the state machine, the NIM builder and the Bitcoin leg, and
    the simulator that steps two of them against each other.  A [&mut self] method is
    a function to the new engine and its result: the state machine moves before a
    transaction is built, so an engine can change although the call fails. *)

From stdpp Require Import base list strings sets.
From Stdlib Require Import ZArith Lia.
From S2P Require Import Prelude Packet Crypto SwapWire Swap SwapIntent FundingVerify Address SwapSession NimTx NimHtlc SwapBuilder BtcHtlc.
Open Scope Z_scope.

Record SwapConfig : Type := mkSwapConfig {
  cf_terms : SwapTerms;
  cf_nim : NimiqLeg;
  cf_btc : BtcSwapLeg;
  cf_nim_amount : Z;
  cf_btc_amount_sat : Z;
  cf_counterparty_nim_address : bytes
}.

Inductive SwapEffect : Type :=
| EffBroadcast (leg : SwapLegId) (tx : bytes)
| FundBtcAddress (address : str) (amount_sat : Z).

Inductive EngineError : Type :=
| EngSwap (e : SwapError)
| EngNimLeg (e : LegBuildError)
| EngBtcLeg (e : BtcError)
| MissingInput (what : string)
| BadPreimage
| FundingUnverified (r : FundingRejected).

Record SwapEngine : Type := mkEngine {
  en_swap : Swap;
  en_nim : NimiqLeg;
  en_btc : BtcSwapLeg;
  en_nim_amount : Z;
  en_btc_amount_sat : Z;
  en_counterparty_nim_address : bytes;
  en_secret : option bytes;
  en_nim_funding_wire : option bytes;
  en_btc_funding : option FundedHtlc
}.

Definition from_config (c : SwapConfig) (r : SwapRole) (secret : option bytes) : SwapEngine :=
  mkEngine (swap_new r (cf_terms c)) (cf_nim c) (cf_btc c) (cf_nim_amount c) (cf_btc_amount_sat c)
    (cf_counterparty_nim_address c) secret None None.

Definition new_initiator (c : SwapConfig) (secret : bytes) : SwapEngine := from_config c Initiator (Some secret).
Definition new_responder (c : SwapConfig) : SwapEngine := from_config c Responder None.

(** Assignments to a field *)
Definition set_swap (e : SwapEngine) (s : Swap) : SwapEngine :=
  mkEngine s (en_nim e) (en_btc e) (en_nim_amount e) (en_btc_amount_sat e) (en_counterparty_nim_address e)
    (en_secret e) (en_nim_funding_wire e) (en_btc_funding e).
Definition set_secret (e : SwapEngine) (x : bytes) : SwapEngine :=
  mkEngine (en_swap e) (en_nim e) (en_btc e) (en_nim_amount e) (en_btc_amount_sat e) (en_counterparty_nim_address e)
    (Some x) (en_nim_funding_wire e) (en_btc_funding e).
Definition set_nim_funding (e : SwapEngine) (w : bytes) : SwapEngine :=
  mkEngine (en_swap e) (en_nim e) (en_btc e) (en_nim_amount e) (en_btc_amount_sat e) (en_counterparty_nim_address e)
    (en_secret e) (Some w) (en_btc_funding e).
Definition set_btc_funding (e : SwapEngine) (f : FundedHtlc) : SwapEngine :=
  mkEngine (en_swap e) (en_nim e) (en_btc e) (en_nim_amount e) (en_btc_amount_sat e) (en_counterparty_nim_address e)
    (en_secret e) (en_nim_funding_wire e) (Some f).

(** [self.swap.m(..).map_err(EngineError::Swap)?], then the rest *)
Definition after {A X} (e : SwapEngine) (r : res SwapError (Swap * A)) (k : SwapEngine -> A -> SwapEngine * res EngineError X)
  : SwapEngine * res EngineError X :=
  match r with
  | Ok (s, a) => k (set_swap e s) a
  | Err er => (e, Err (EngSwap er))
  | Panic => (e, Panic)
  end.

Section engine.
Context `{C : Crypto} `{B : BitcoinLib}.

Definition engine_phase (e : SwapEngine) : SwapPhase := phase (en_swap e).
Definition engine_role (e : SwapEngine) : SwapRole := role (en_swap e).
Definition engine_hashlock (e : SwapEngine) : bytes := bp_hash_root (bl_htlc (en_btc e)).
Definition btc_htlc_address (e : SwapEngine) : str := htlc_address (en_btc e).

Definition engine_accept (e : SwapEngine) (head : Z) (params : LadderParams) : SwapEngine * res EngineError unit :=
  after e (accept (en_swap e) head params) (fun e _ => (e, Ok tt)).

Definition nim_expectation (e : SwapEngine) : HtlcExpectation :=
  mkExpect LegNim (engine_hashlock e) (en_nim_amount e) (nim_timeout (terms (en_swap e)))
    (en_counterparty_nim_address e) 0.

Definition engine_observe_initiator_funded (e : SwapEngine) (wire : bytes) (observed : FundingObservation)
    (min_confirmations : Z) : SwapEngine * res EngineError unit :=
  match require_funded observed (nim_expectation e) min_confirmations with
  | Ok _ => after e (observe_initiator_funded (en_swap e)) (fun e _ => (set_nim_funding e wire, Ok tt))
  | Err r => (e, Err (FundingUnverified r))
  | Panic => (e, Panic)
  end.

Definition engine_fund (e : SwapEngine) (head : Z) (params : LadderParams) (vsh : Z)
  : SwapEngine * res EngineError SwapEffect :=
  after e (fund (en_swap e) head params) (fun e action =>
    match action with
    | FundLeg LegNim timeout =>
        match build_funding (en_nim e) (mkFundingTerms (engine_hashlock e) (en_nim_amount e) timeout
                                          (en_counterparty_nim_address e) vsh) with
        | Ok wire => (set_nim_funding e wire, Ok (EffBroadcast LegNim wire))
        | Err er => (e, Err (EngNimLeg er))
        | Panic => (e, Panic)
        end
    | FundLeg LegCounterparty _ => (e, Ok (FundBtcAddress (htlc_address (en_btc e)) (en_btc_amount_sat e)))
    | _ => (e, Panic)
    end).

Definition btc_expectation (e : SwapEngine) : HtlcExpectation :=
  mkExpect LegCounterparty (engine_hashlock e) (en_btc_amount_sat e) (counterparty_timeout (terms (en_swap e))) [] 0.

Definition observe_btc_funded (e : SwapEngine) (funded : FundedHtlc) (observed : FundingObservation)
    (min_confirmations : Z) : SwapEngine * res EngineError unit :=
  match require_funded observed (btc_expectation e) min_confirmations with
  | Ok _ => after e (observe_counterparty_funded (en_swap e)) (fun e _ => (set_btc_funding e funded, Ok tt))
  | Err r => (e, Err (FundingUnverified r))
  | Panic => (e, Panic)
  end.

Definition observe_nim_funded (e : SwapEngine) (own_btc_funding : FundedHtlc) : SwapEngine * res EngineError unit :=
  after e (observe_counterparty_funded (en_swap e)) (fun e _ => (set_btc_funding e own_btc_funding, Ok tt)).

Definition reveal_and_claim_btc (e : SwapEngine) (head : Z) (params : LadderParams)
  : SwapEngine * res EngineError SwapEffect :=
  after e (reveal_and_claim (en_swap e) head params) (fun e _ =>
    match en_secret e with
    | None => (e, Err (MissingInput "initiator has no secret"))
    | Some secret =>
        match en_btc_funding e with
        | None => (e, Err (MissingInput "BTC funding not observed"))
        | Some funded =>
            match btc_build_claim (en_btc e) funded secret with
            | Ok tx => (e, Ok (EffBroadcast LegCounterparty tx))
            | Err er => (e, Err (EngBtcLeg er))
            | Panic => (e, Panic)
            end
        end
    end).

Definition claim_nim_from_btc_claim (e : SwapEngine) (btc_claim_tx : bytes) (vsh : Z)
  : SwapEngine * res EngineError SwapEffect :=
  match extract_preimage btc_claim_tx with
  | None => (e, Err (MissingInput "no preimage in the BTC claim"))
  | Some secret =>
      if negb (bool_decide (sha256 secret = engine_hashlock e)) then (e, Err BadPreimage) else
      after e (observe_secret (en_swap e)) (fun e _ =>
        let e := set_secret e secret in
        match en_nim_funding_wire e with
        | None => (e, Err (MissingInput "NIM funding wire not observed"))
        | Some funding =>
            match build_claim (en_nim e) funding secret vsh with
            | Ok tx => (e, Ok (EffBroadcast LegNim tx))
            | Err er => (e, Err (EngNimLeg er))
            | Panic => (e, Panic)
            end
        end)
  end.

Definition engine_observe_settled (e : SwapEngine) : SwapEngine * res EngineError unit :=
  after e (observe_settled (en_swap e)) (fun e _ => (e, Ok tt)).

Definition engine_abort (e : SwapEngine) : SwapEngine * res EngineError unit :=
  after e (abort (en_swap e)) (fun e _ => (e, Ok tt)).

Definition engine_refund (e : SwapEngine) (head vsh : Z) : SwapEngine * res EngineError SwapEffect :=
  after e (refund_after_timeout (en_swap e) head) (fun e action =>
    match action with
    | RefundLeg LegNim =>
        match en_nim_funding_wire e with
        | None => (e, Err (MissingInput "no NIM funding to refund"))
        | Some funding =>
            match build_refund (en_nim e) funding vsh with
            | Ok tx => (e, Ok (EffBroadcast LegNim tx))
            | Err er => (e, Err (EngNimLeg er))
            | Panic => (e, Panic)
            end
        end
    | RefundLeg LegCounterparty =>
        match en_btc_funding e with
        | None => (e, Err (MissingInput "no BTC funding to refund"))
        | Some funded =>
            match btc_build_refund (en_btc e) funded with
            | Ok tx => (e, Ok (EffBroadcast LegCounterparty tx))
            | Err er => (e, Err (EngBtcLeg er))
            | Panic => (e, Panic)
            end
        end
    | _ => (e, Panic)
    end).
End engine.

(** ** The simulator ([swap_sim.rs]) *)

Definition HEAD_MS : Z := 1000000000000.
Definition T_B_MS : Z := HEAD_MS + 3600000.
Definition T_A_MS : Z := HEAD_MS + 7200000.
Definition NIM_AMOUNT : Z := 280000000.
Definition BTC_AMOUNT : Z := 120000.
Definition BTC_FEE : Z := 500.
Definition VSH : Z := 100.
Definition TOTAL_STEPS : Z := 5.

Record SwapSnapshot : Type := mkSnapshot {
  sn_step : Z;
  sn_total : Z;
  sn_label : string;
  sn_initiator_phase : SwapPhase;
  sn_responder_phase : SwapPhase;
  sn_nim_locked : bool;
  sn_btc_locked : bool;
  sn_secret_revealed : bool;
  sn_refunded : bool;
  sn_last_tx_id : option str;
  sn_btc_htlc_address : str;
  sn_done : bool
}.

Record SwapSim : Type := mkSwapSim {
  ss_initiator : SwapEngine;
  ss_responder : SwapEngine;
  ss_ladder : LadderParams;
  ss_btc_htlc_address : str;
  ss_step : Z;
  ss_nim_funding : option bytes;
  ss_btc_funding : option FundedHtlc;
  ss_btc_claim : option bytes;
  ss_last_tx_id : option str;
  ss_secret_revealed : bool;
  ss_refunded : bool
}.

Definition sim_missing (what : string) : EngineError := MissingInput what.

Definition expect_broadcast (eff : SwapEffect) (leg : SwapLegId) : res EngineError bytes :=
  match eff with
  | EffBroadcast l tx => if bool_decide (l = leg) then Ok tx else Err (MissingInput "unexpected effect for this step")
  | _ => Err (MissingInput "unexpected effect for this step")
  end.

Definition sim_txid : bytes := replicate 32 0xab.

Definition sim_funded : FundedHtlc := mkFunded sim_txid 0 BTC_AMOUNT.

(** The first four bytes of the hash, in hex *)
Definition sim_tx_id `{Crypto} (tx : bytes) : str := bytes_to_hex (take 4 (sha256 tx)).

Definition snapshot (s : SwapSim) : SwapSnapshot :=
  let label :=
    if ss_refunded s then "Refunded — funds safe"
    else if ss_step s =? 0 then "Ready"
    else if ss_step s =? 1 then "Proposing swap"
    else if ss_step s =? 2 then "Locking up NIM"
    else if ss_step s =? 3 then "Waiting for Bitcoin"
    else if ss_step s =? 4 then "Claiming Bitcoin"
    else "Settling" in
  mkSnapshot (ss_step s) TOTAL_STEPS label%string (engine_phase (ss_initiator s)) (engine_phase (ss_responder s))
    (3 <=? ss_step s) (5 <=? ss_step s) (ss_secret_revealed s) (ss_refunded s) (ss_last_tx_id s)
    (ss_btc_htlc_address s)
    (bool_decide (engine_phase (ss_initiator s) = Settled) && bool_decide (engine_phase (ss_responder s) = Settled)).

(** The mutable part of the simulator, for the steps *)
Record SimParts : Type := mkParts {
  p_ini : SwapEngine;
  p_res : SwapEngine;
  p_nim_funding : option bytes;
  p_btc_funding : option FundedHtlc;
  p_btc_claim : option bytes;
  p_last : option str;
  p_shown : bool
}.

Definition parts_of (s : SwapSim) : SimParts :=
  mkParts (ss_initiator s) (ss_responder s) (ss_nim_funding s) (ss_btc_funding s) (ss_btc_claim s) (ss_last_tx_id s)
    (ss_secret_revealed s).

Definition with_parts (s : SwapSim) (p : SimParts) (step : Z) (refunded : bool) : SwapSim :=
  mkSwapSim (p_ini p) (p_res p) (ss_ladder s) (ss_btc_htlc_address s) step (p_nim_funding p) (p_btc_funding p)
    (p_btc_claim p) (p_last p) (p_shown p) refunded.

Definition put_ini (p : SimParts) (e : SwapEngine) : SimParts :=
  mkParts e (p_res p) (p_nim_funding p) (p_btc_funding p) (p_btc_claim p) (p_last p) (p_shown p).
Definition put_res (p : SimParts) (e : SwapEngine) : SimParts :=
  mkParts (p_ini p) e (p_nim_funding p) (p_btc_funding p) (p_btc_claim p) (p_last p) (p_shown p).

(** [self.initiator.m(..)?] and [self.responder.m(..)?], then the rest *)
Definition ini {X} (p : SimParts) (m : SwapEngine * res EngineError X) (k : SimParts -> X -> SimParts * res EngineError unit)
  : SimParts * res EngineError unit :=
  let p := put_ini p m.1 in
  match m.2 with Ok x => k p x | Err e => (p, Err e) | Panic => (p, Panic) end.
Definition rsp {X} (p : SimParts) (m : SwapEngine * res EngineError X) (k : SimParts -> X -> SimParts * res EngineError unit)
  : SimParts * res EngineError unit :=
  let p := put_res p m.1 in
  match m.2 with Ok x => k p x | Err e => (p, Err e) | Panic => (p, Panic) end.
Definition pure {X} (p : SimParts) (r : res EngineError X) (k : X -> SimParts * res EngineError unit)
  : SimParts * res EngineError unit :=
  match r with Ok x => k x | Err e => (p, Err e) | Panic => (p, Panic) end.

Section sim.
Context `{C : Crypto} `{B : BitcoinLib}.

(** [InMemoryBtcEnclaveKey] of a seed, and the payout script of a public key *)
Context (btc_key : Z -> BtcEnclaveKey) (p2wpkh_spk : bytes -> BtcNetwork -> bytes).

Definition sim_nim_addr (seed : Z) : bytes := address_of (ed25519_public (replicate 32 seed)).

Definition sim_btc_leg (node_seed : Z) : BtcSwapLeg :=
  btc_leg_new (sha256 (replicate 32 0x42)) (bk_public_key (btc_key 0x11)) (bk_public_key (btc_key 0x22))
    (T_B_MS / 1000) BtcTestnet (btc_key node_seed) (p2wpkh_spk (bk_public_key (btc_key node_seed)) BtcTestnet) BTC_FEE.

Definition sim_terms : SwapTerms := mkTerms T_A_MS T_B_MS.

Definition sim_new : SwapSim :=
  let initiator := new_initiator
    (mkSwapConfig sim_terms (nimiq_leg_new (in_memory_key (replicate 32 3))) (sim_btc_leg 0x11) NIM_AMOUNT BTC_AMOUNT
       (sim_nim_addr 4)) (replicate 32 0x42) in
  let responder := new_responder
    (mkSwapConfig sim_terms (nimiq_leg_new (in_memory_key (replicate 32 4))) (sim_btc_leg 0x22) NIM_AMOUNT BTC_AMOUNT []) in
  mkSwapSim initiator responder (mkLadder 1800000 1800000) (btc_htlc_address initiator) 0 None None None None false false.

(** The body of [step], by the number of the step *)
Definition step_body (s : SwapSim) : SimParts * res EngineError unit :=
  let p := parts_of s in
  let ladder := ss_ladder s in
  if ss_step s =? 0 then
    ini p (engine_accept (p_ini p) HEAD_MS ladder) (fun p _ =>
    rsp p (engine_accept (p_res p) HEAD_MS ladder) (fun p _ => (p, Ok tt)))
  else if ss_step s =? 1 then
    ini p (engine_fund (p_ini p) HEAD_MS ladder VSH) (fun p eff =>
    pure p (expect_broadcast eff LegNim) (fun wire =>
      (mkParts (p_ini p) (p_res p) (Some wire) (p_btc_funding p) (p_btc_claim p) (Some (sim_tx_id wire)) (p_shown p), Ok tt)))
  else if ss_step s =? 2 then
    pure p (ok_or (p_nim_funding p) (sim_missing "nim funding")) (fun wire =>
    rsp p (engine_observe_initiator_funded (p_res p) wire (Found NIM_AMOUNT T_A_MS 1) 1) (fun p _ =>
    rsp p (engine_fund (p_res p) HEAD_MS ladder VSH) (fun p _ =>
    ini p (observe_btc_funded (p_ini p) sim_funded (Found BTC_AMOUNT T_B_MS 1) 1) (fun p _ =>
    rsp p (observe_nim_funded (p_res p) sim_funded) (fun p _ =>
      (mkParts (p_ini p) (p_res p) (p_nim_funding p) (Some sim_funded) (p_btc_claim p) (p_last p) (p_shown p), Ok tt))))))
  else if ss_step s =? 3 then
    ini p (reveal_and_claim_btc (p_ini p) HEAD_MS ladder) (fun p eff =>
    pure p (expect_broadcast eff LegCounterparty) (fun claim =>
      (mkParts (p_ini p) (p_res p) (p_nim_funding p) (p_btc_funding p) (Some claim) (Some (sim_tx_id claim)) true, Ok tt)))
  else
    pure p (ok_or (p_btc_claim p) (sim_missing "btc claim")) (fun claim =>
    rsp p (claim_nim_from_btc_claim (p_res p) claim VSH) (fun p eff =>
    pure p (expect_broadcast eff LegNim) (fun nim_claim =>
    let p := mkParts (p_ini p) (p_res p) (p_nim_funding p) (p_btc_funding p) (p_btc_claim p) (Some (sim_tx_id nim_claim))
               (p_shown p) in
    ini p (engine_observe_settled (p_ini p)) (fun p _ =>
    rsp p (engine_observe_settled (p_res p)) (fun p _ => (p, Ok tt)))))).

(** [SwapSim::step] *)
Definition sim_step (s : SwapSim) : SwapSim * res EngineError SwapSnapshot :=
  if 5 <=? ss_step s then (s, Ok (snapshot s)) else
  let '(p, r) := step_body s in
  match r with
  | Ok _ => let s := with_parts s p (ss_step s + 1) (ss_refunded s) in (s, Ok (snapshot s))
  | Err e => (with_parts s p (ss_step s) (ss_refunded s), Err e)
  | Panic => (with_parts s p (ss_step s) (ss_refunded s), Panic)
  end.

Definition stall_and_refund (s : SwapSim) : SwapSim * res EngineError SwapSnapshot :=
  let p := parts_of s in
  let '(p, r) :=
    ini p (engine_refund (p_ini p) (T_A_MS + 1) VSH) (fun p eff =>
    pure p (expect_broadcast eff LegNim) (fun _ =>
    rsp p (engine_refund (p_res p) (T_B_MS + 1) VSH) (fun p eff =>
    pure p (expect_broadcast eff LegCounterparty) (fun tx =>
      (mkParts (p_ini p) (p_res p) (p_nim_funding p) (p_btc_funding p) (p_btc_claim p) (Some (sim_tx_id tx)) (p_shown p),
       Ok tt))))) in
  match r with
  | Ok _ => let s := with_parts s p (ss_step s) true in (s, Ok (snapshot s))
  | Err e => (with_parts s p (ss_step s) (ss_refunded s), Err e)
  | Panic => (with_parts s p (ss_step s) (ss_refunded s), Panic)
  end.
End sim.

(** ** Calls *)

Inductive EngineOp : Type :=
| OAccept (head : Z)
| OObserveInitiatorFunded (wire : bytes) (observed : FundingObservation) (min_confirmations : Z)
| OFund (head vsh : Z)
| OObserveBtcFunded (funded : FundedHtlc) (observed : FundingObservation) (min_confirmations : Z)
| OObserveNimFunded (own : FundedHtlc)
| OReveal (head : Z)
| OClaimNim (btc_claim_tx : bytes) (vsh : Z)
| OSettled
| OAbort
| ORefund (head vsh : Z).

Definition no_effect {A} (r : SwapEngine * res EngineError unit) : SwapEngine * res EngineError (option A) :=
  (r.1, match r.2 with Ok _ => Ok None | Err e => Err e | Panic => Panic end).

Definition an_effect {A} (r : SwapEngine * res EngineError A) : SwapEngine * res EngineError (option A) :=
  (r.1, match r.2 with Ok a => Ok (Some a) | Err e => Err e | Panic => Panic end).

Section calls.
Context `{C : Crypto} `{B : BitcoinLib} (params : LadderParams).

Definition engine_call (e : SwapEngine) (o : EngineOp) : SwapEngine * res EngineError (option SwapEffect) :=
  match o with
  | OAccept h => no_effect (engine_accept e h params)
  | OObserveInitiatorFunded w obs n => no_effect (engine_observe_initiator_funded e w obs n)
  | OFund h vsh => an_effect (engine_fund e h params vsh)
  | OObserveBtcFunded f obs n => no_effect (observe_btc_funded e f obs n)
  | OObserveNimFunded f => no_effect (observe_nim_funded e f)
  | OReveal h => an_effect (reveal_and_claim_btc e h params)
  | OClaimNim tx vsh => an_effect (claim_nim_from_btc_claim e tx vsh)
  | OSettled => no_effect (engine_observe_settled e)
  | OAbort => no_effect (engine_abort e)
  | ORefund h vsh => an_effect (engine_refund e h vsh)
  end.

(** The calls made, with what each returned *)
Inductive calls (e0 : SwapEngine) : list (EngineOp * res EngineError (option SwapEffect)) -> SwapEngine -> Prop :=
| calls_nil : calls e0 [] e0
| calls_snoc log e o :
    calls e0 log e -> calls e0 (log ++ [(o, (engine_call e o).2)]) (engine_call e o).1.

(** What no call changes *)
Definition same_engine (e e' : SwapEngine) : Prop :=
  en_nim e' = en_nim e /\ en_btc e' = en_btc e /\ en_nim_amount e' = en_nim_amount e
  /\ en_btc_amount_sat e' = en_btc_amount_sat e /\ en_counterparty_nim_address e' = en_counterparty_nim_address e
  /\ role (en_swap e') = role (en_swap e) /\ terms (en_swap e') = terms (en_swap e).

(** The machine event of a call *)
Definition event_of_op (o : EngineOp) : SwapEvent :=
  match o with
  | OAccept h => EvAccept h
  | OObserveInitiatorFunded _ _ _ => EvObserveInitiatorFunded
  | OFund h _ => EvFund h
  | OObserveBtcFunded _ _ _ | OObserveNimFunded _ => EvObserveCounterpartyFunded
  | OReveal h => EvReveal h
  | OClaimNim _ _ => EvObserveSecret
  | OSettled => EvObserveSettled
  | OAbort => EvAbort
  | ORefund h _ => EvRefund h
  end.

(** One call: the machine of the engine stays, and then the call failed, or makes the
    event of the call. *)
Definition call_spec (e : SwapEngine) (o : EngineOp) (r : SwapEngine * res EngineError (option SwapEffect)) : Prop :=
  same_engine e r.1
  /\ ((r.1 = e /\ exists er, r.2 = Err er)
      \/ exists act, apply_event params (en_swap e) (event_of_op o) = Ok (en_swap r.1, act)).
End calls.

(** ** One call *)

Section one.
Context `{C : Crypto} `{B : BitcoinLib} (params : LadderParams).

Lemma machine_no_panic s ev : apply_event params s ev <> Panic.
Proof.
  destruct ev; simpl; unfold quiet, accept, observe_initiator_funded, fund, observe_counterparty_funded,
    reveal_and_claim, observe_secret, observe_settled, forfeit_claim, abort, refund_after_timeout;
    repeat (case_goal; try discriminate); discriminate.
Qed.

Lemma nim_funding_no_panic l t : nim_build_funding l t <> Panic.
Proof. unfold nim_build_funding, nim_public_key, ok_or. repeat (case_goal; try discriminate). Qed.

Lemma nim_redeem_no_panic l w x vsh : nim_build_claim l w x vsh <> Panic /\ nim_build_refund l w vsh <> Panic.
Proof.
  unfold nim_build_claim, nim_build_refund, decode_funding, nim_public_key, nim_sign, ok_or.
  destruct (decode_creation_total w) as [[c|] ->]; split; repeat (case_goal; try discriminate); discriminate.
Qed.

Lemma btc_spend_no_panic l f x : btc_build_claim l f x <> Panic /\ btc_build_refund l f <> Panic.
Proof.
  unfold btc_build_claim, btc_build_refund, claim_tx_with_key, refund_tx_with_key, sign_spend, payout, ok_or.
  split; repeat (case_goal; try discriminate).
Qed.

(** The shape of every call: a machine event, and then work on its success. *)
Lemma after_spec {A X} e ev (r : res SwapError (Swap * A)) (k : SwapEngine -> A -> SwapEngine * res EngineError X) (f : A -> SwapAction) :
  apply_event params (en_swap e) ev = (let? (s, a) := r in Ok (s, f a)) ->
  (forall s a, r = Ok (s, a) -> let e1 := (k (set_swap e s) a).1 in
     en_swap e1 = s /\ same_engine (set_swap e s) e1 /\ (k (set_swap e s) a).2 <> Panic) ->
  let r' := after e r k in
  r'.2 <> Panic /\ same_engine e r'.1
  /\ ((r'.1 = e /\ exists er, r'.2 = Err er) \/ exists act, apply_event params (en_swap e) ev = Ok (en_swap r'.1, act)).
Proof.
  intros Hev Hk. pose proof (machine_no_panic (en_swap e) ev) as Hp. unfold after.
  destruct r as [[s a]|er|]; [|cbn; split_and!; try discriminate; [unfold same_engine; auto 10 | left; eauto] | congruence].
  destruct (Hk s a eq_refl) as (Hs & Hsame & Hn). cbn in Hev |- *. split; [exact Hn|].
  pose proof (apply_event_static _ _ _ _ _ Hev) as [Hr Ht]. split.
  - destruct Hsame as (? & ? & ? & ? & ? & ? & ?). cbn in *. unfold same_engine. split_and!; congruence.
  - right. exists (f a). now rewrite Hs.
Qed.

Lemma bind_eta (r : res SwapError (Swap * SwapAction)) : r = let? (s, a) := r in Ok (s, a).
Proof. now destruct r as [[s a]| |]. Qed.

(** The work after a move keeps the machine and the rest of the engine. *)
Ltac call_tac := cbn; split_and!; auto; unfold same_engine; cbn; auto 10; try discriminate.

Lemma call_quiet e ev (r : res SwapError (Swap * unit)) (k : SwapEngine -> unit -> SwapEngine * res EngineError unit) :
  apply_event params (en_swap e) ev = quiet r ->
  (forall s, r = Ok (s, tt) -> let e1 := (k (set_swap e s) tt).1 in
     en_swap e1 = s /\ same_engine (set_swap e s) e1 /\ (k (set_swap e s) tt).2 <> Panic) ->
  let r' := no_effect (A := SwapEffect) (after e r k) in
  r'.2 <> Panic /\ same_engine e r'.1
  /\ ((r'.1 = e /\ exists er, r'.2 = Err er) \/ exists act, apply_event params (en_swap e) ev = Ok (en_swap r'.1, act)).
Proof.
  intros Hev Hk. destruct (after_spec e ev r k (fun _ => ActNone) Hev) as (Hp & Hs & Hc).
  - intros s [] Hr. exact (Hk s Hr).
  - unfold no_effect. cbn. split_and!; auto; [destruct (after e r k).2; try discriminate; congruence|].
    destruct Hc as [[He (er & Her)]|Hc]; [left; split; [exact He|]; rewrite Her; eauto | right; exact Hc].
Qed.

Lemma call_act e ev (r : res SwapError (Swap * SwapAction)) (k : SwapEngine -> SwapAction -> SwapEngine * res EngineError SwapEffect) :
  apply_event params (en_swap e) ev = r ->
  (forall s a, r = Ok (s, a) -> let e1 := (k (set_swap e s) a).1 in
     en_swap e1 = s /\ same_engine (set_swap e s) e1 /\ (k (set_swap e s) a).2 <> Panic) ->
  let r' := an_effect (after e r k) in
  r'.2 <> Panic /\ same_engine e r'.1
  /\ ((r'.1 = e /\ exists er, r'.2 = Err er) \/ exists act, apply_event params (en_swap e) ev = Ok (en_swap r'.1, act)).
Proof.
  intros Hev Hk. destruct (after_spec e ev r k id) as (Hp & Hs & Hc); [rewrite Hev; apply bind_eta | exact Hk|].
  unfold an_effect. cbn. split_and!; auto; [destruct (after e r k).2; try discriminate; congruence|].
  destruct Hc as [[He (er & Her)]|Hc]; [left; split; [exact He|]; rewrite Her; eauto | right; exact Hc].
Qed.

Lemma require_funded_no_panic obs x n : require_funded obs x n <> Panic.
Proof. unfold require_funded. repeat (case_goal; try discriminate). Qed.

Lemma engine_call_spec e o : (engine_call params e o).2 <> Panic /\ call_spec params e o (engine_call params e o).
Proof.
  unfold call_spec. destruct o; cbn [engine_call event_of_op].
  - apply call_quiet; [reflexivity|]. intros s _. call_tac.
  - unfold engine_observe_initiator_funded. pose proof (require_funded_no_panic observed (nim_expectation e) min_confirmations).
    destruct (require_funded _ _ _) as [c|r|]; [|cbn; split_and!; [discriminate|call_tac..|left; eauto]|congruence].
    apply call_quiet; [reflexivity|]. intros s _. call_tac.
  - apply call_act; [reflexivity|]. intros s a Ha.
    assert (Hf : exists l t, a = FundLeg l t) by (unfold fund in Ha; run Ha; eauto).
    destruct Hf as ([] & t & ->); [|call_tac]. cbn [build_funding NimiqLeg_builder].
    pose proof (nim_funding_no_panic (en_nim (set_swap e s)) (mkFundingTerms (engine_hashlock (set_swap e s))
      (en_nim_amount (set_swap e s)) t (en_counterparty_nim_address (set_swap e s)) vsh)) as Hn.
    destruct (nim_build_funding _ _); [call_tac..|congruence].
  - unfold observe_btc_funded. pose proof (require_funded_no_panic observed (btc_expectation e) min_confirmations).
    destruct (require_funded _ _ _) as [c|r|]; [|cbn; split_and!; [discriminate|call_tac..|left; eauto]|congruence].
    apply call_quiet; [reflexivity|]. intros s _. call_tac.
  - apply call_quiet; [reflexivity|]. intros s _. call_tac.
  - apply call_act; [reflexivity|]. intros s a _. destruct (en_secret (set_swap e s)) as [x|]; [|call_tac].
    destruct (en_btc_funding (set_swap e s)) as [f|]; [|call_tac].
    destruct (btc_spend_no_panic (en_btc (set_swap e s)) f x) as [Hn _].
    destruct (btc_build_claim _ _ _); [call_tac..|congruence].
  - unfold claim_nim_from_btc_claim. destruct (extract_preimage btc_claim_tx) as [x|];
      [|cbn; split_and!; [discriminate|call_tac..|left; eauto]].
    destruct (negb _); [cbn; split_and!; [discriminate|call_tac..|left; eauto]|].
    apply call_act; [reflexivity|]. intros s a _. cbn zeta.
    destruct (en_nim_funding_wire (set_secret (set_swap e s) x)) as [w|]; [|call_tac].
    cbn [build_claim NimiqLeg_builder].
    destruct (nim_redeem_no_panic (en_nim (set_secret (set_swap e s) x)) w x vsh) as [Hn _].
    destruct (nim_build_claim _ _ _ _); [call_tac..|congruence].
  - apply call_quiet; [reflexivity|]. intros s _. call_tac.
  - apply call_quiet; [reflexivity|]. intros s _. call_tac.
  - apply call_act; [reflexivity|]. intros s a Ha.
    assert (Hf : exists l, a = RefundLeg l) by (unfold refund_after_timeout in Ha; run Ha; eauto).
    destruct Hf as ([] & ->).
    + destruct (en_nim_funding_wire (set_swap e s)) as [w|]; [|call_tac]. cbn [build_refund NimiqLeg_builder].
      destruct (nim_redeem_no_panic (en_nim (set_swap e s)) w [] vsh) as [_ Hn].
      destruct (nim_build_refund _ _ _); [call_tac..|congruence].
    + destruct (en_btc_funding (set_swap e s)) as [f|]; [|call_tac].
      destruct (btc_spend_no_panic (en_btc (set_swap e s)) f []) as [_ Hn].
      destruct (btc_build_refund _ _); [call_tac..|congruence].
Qed.
End one.

(** ** Sequences of calls *)

Section runs.
Context `{C : Crypto} `{B : BitcoinLib} (params : LadderParams).

(** A call reported a funding of the other leg that passed the gate. *)
Definition nim_gate (e : SwapEngine) (log : list (EngineOp * res EngineError (option SwapEffect))) : Prop :=
  exists w obs n d, (OObserveInitiatorFunded w obs n, Ok None) ∈ log /\ require_funded obs (nim_expectation e) n = Ok d.

Definition btc_gate (e : SwapEngine) (log : list (EngineOp * res EngineError (option SwapEffect))) : Prop :=
  (exists f obs n d, (OObserveBtcFunded f obs n, Ok None) ∈ log /\ require_funded obs (btc_expectation e) n = Ok d)
  \/ exists f, (OObserveNimFunded f, Ok None) ∈ log.

Lemma expectations_same e e' : same_engine e e' ->
  nim_expectation e' = nim_expectation e /\ btc_expectation e' = btc_expectation e.
Proof.
  intros (_ & Hb & H1 & H2 & H3 & _ & Ht). unfold nim_expectation, btc_expectation, engine_hashlock.
  now rewrite Hb, H1, H2, H3, Ht.
Qed.

Lemma gates_grow e e' log x : same_engine e e' ->
  (nim_gate e log -> nim_gate e' (log ++ [x])) /\ (btc_gate e log -> btc_gate e' (log ++ [x])).
Proof.
  intros [En Eb]%expectations_same. unfold nim_gate, btc_gate. rewrite En, Eb. split.
  - intros (w & obs & n & d & Hin & H). exists w, obs, n, d. split; [set_solver | exact H].
  - intros [(f & obs & n & d & Hin & H)|(f & Hin)]; [left; exists f, obs, n, d | right; exists f]; set_solver.
Qed.

Lemma same_trans e1 e2 e3 : same_engine e1 e2 -> same_engine e2 e3 -> same_engine e1 e3.
Proof. unfold same_engine. intros. intuition congruence. Qed.

(** Which calls bring the machine to the gated phases *)
Lemma gated_phases s o s' act : apply_event params s (event_of_op o) = Ok (s', act) ->
  (phase s' = InitiatorFunded -> exists w obs n, o = OObserveInitiatorFunded w obs n)
  /\ (phase s' = BothFunded -> (exists f obs n, o = OObserveBtcFunded f obs n) \/ exists f, o = OObserveNimFunded f).
Proof.
  intros Hev%apply_event_table. destruct o; cbn in Hev; split; intros Hph; eauto 6;
    decompose [and] Hev; congruence.
Qed.

(** A call that brings the machine to one of the two gated phases passed the gate. *)
Lemma call_gate e o log : let r := engine_call params e o in en_swap r.1 <> en_swap e ->
  (phase (en_swap r.1) = InitiatorFunded -> nim_gate r.1 (log ++ [(o, r.2)]))
  /\ (phase (en_swap r.1) = BothFunded -> btc_gate r.1 (log ++ [(o, r.2)])).
Proof.
  intros r Hne. destruct (engine_call_spec params e o) as (_ & Hsame & Hcall). fold r in Hsame, Hcall.
  destruct Hcall as [[He _]|(act & Hev)]; [congruence|]. apply gated_phases in Hev as [Hn Hb].
  destruct (expectations_same _ _ Hsame) as [En Eb]. unfold nim_gate, btc_gate. rewrite En, Eb. clear En Eb Hsame.
  split; intros Hph; [destruct (Hn Hph) as (w & obs & n & ->) | destruct (Hb Hph) as [(f & obs & n & ->)|(f & ->)]];
    clear Hn Hb Hph; subst r; cbn in Hne |- *.
  - unfold engine_observe_initiator_funded in *.
    destruct (require_funded obs (nim_expectation e) n) as [d| |] eqn:Er; [|now destruct Hne..].
    exists w, obs, n, d. split; [|exact Er].
    destruct (observe_initiator_funded (en_swap e)) as [[s []]|er|]; cbn in *; [set_solver | now destruct Hne..].
  - left. unfold observe_btc_funded in *.
    destruct (require_funded obs (btc_expectation e) n) as [d| |] eqn:Er; [|now destruct Hne..].
    exists f, obs, n, d. split; [|exact Er].
    destruct (observe_counterparty_funded (en_swap e)) as [[s []]|er|]; cbn in *; [set_solver | now destruct Hne..].
  - right. exists f. unfold observe_nim_funded in *.
    destruct (observe_counterparty_funded (en_swap e)) as [[s []]|er|]; cbn in *; [set_solver | now destruct Hne..].
Qed.

(** What a sequence of calls keeps *)
Record calls_inv (e0 : SwapEngine) (log : list (EngineOp * res EngineError (option SwapEffect))) (e : SwapEngine) : Prop := {
  ci_same : same_engine e0 e;
  ci_run : exists tr, run params (en_swap e0) tr (en_swap e);
  ci_total : forall o r, (o, r) ∈ log -> r <> Panic;
  ci_nim : phase (en_swap e) = InitiatorFunded -> nim_gate e log;
  ci_btc : phase (en_swap e) = BothFunded -> btc_gate e log;
  ci_funds : forall o a n, (o, Ok (Some (FundBtcAddress a n))) ∈ log -> nim_gate e log;
  ci_reveals : forall h eff, (OReveal h, Ok (Some eff)) ∈ log -> btc_gate e log
}.

Lemma fund_btc_from e o a n : (engine_call params e o).2 = Ok (Some (FundBtcAddress a n)) ->
  phase (en_swap e) = InitiatorFunded.
Proof.
  destruct (engine_call_spec params e o) as (_ & _ & Hcall). intros Hr.
  destruct Hcall as [[_ (er & He)]|(act & Hev)]; [congruence|]. apply apply_event_table in Hev.
  destruct o; cbn in Hr, Hev; try (unfold no_effect in Hr; cbn in Hr; destruct (_.2) in Hr; discriminate).
  - unfold an_effect, engine_fund, after in Hr. unfold fund in Hr.
    destruct Hev as (Hp & _). destruct (role (en_swap e)) eqn:Hrole; [|exact Hp].
    exfalso. cbn [snd] in Hr. unfold own_leg in Hr. rewrite Hrole in Hr. run Hr.
  - exfalso. unfold an_effect, reveal_and_claim_btc, after in Hr. cbn [snd] in Hr. run Hr.
  - exfalso. unfold an_effect, claim_nim_from_btc_claim, after in Hr. cbn [snd] in Hr. run Hr.
  - exfalso. unfold an_effect, engine_refund, after in Hr. cbn [snd] in Hr. run Hr.
Qed.

Lemma reveal_from e h eff : (engine_call params e (OReveal h)).2 = Ok (Some eff) -> phase (en_swap e) = BothFunded.
Proof.
  destruct (engine_call_spec params e (OReveal h)) as (_ & _ & Hcall). intros Hr.
  destruct Hcall as [[_ (er & He)]|(act & Hev)]; [congruence|]. now apply apply_event_table in Hev as (_ & Hp & _).
Qed.

Lemma calls_inv_run e0 log e : calls params e0 log e ->
  (phase (en_swap e0) = Proposed) -> calls_inv e0 log e.
Proof.
  intros Hc Hp0. induction Hc as [|log e o Hc IH].
  { split; try (intros; exfalso; set_solver); [unfold same_engine; auto 10 | exists []; constructor | congruence..]. }
  destruct IH as [Hs (tr & Hrun) Ht Hn Hb Hf Hr]. destruct (engine_call_spec params e o) as (Hnp & Hsame & Hcall).
  destruct (gates_grow e (engine_call params e o).1 log (o, (engine_call params e o).2) Hsame) as [Gn Gb].
  pose proof (call_gate e o log) as Hg. cbn zeta in Hg. split.
  - eapply same_trans; eauto.
  - destruct Hcall as [[-> _]|(act & Hev)]; [eauto|]. eexists. eapply run_snoc; eauto.
  - intros o' r [Hin|Heq%list_elem_of_singleton]%elem_of_app; [eauto|]. injection Heq as _ ->. exact Hnp.
  - intros Hph. destruct (decide (en_swap (engine_call params e o).1 = en_swap e)) as [Eq|Hne];
      [apply Gn, Hn; congruence | now apply Hg].
  - intros Hph. destruct (decide (en_swap (engine_call params e o).1 = en_swap e)) as [Eq|Hne];
      [apply Gb, Hb; congruence | now apply Hg].
  - intros o' a n [Hin|Heq%list_elem_of_singleton]%elem_of_app; [eapply Gn, Hf; eauto|].
    injection Heq as <- Heq. symmetry in Heq. apply fund_btc_from in Heq. auto.
  - intros h eff [Hin|Heq%list_elem_of_singleton]%elem_of_app; [eapply Gb, Hr; eauto|].
    injection Heq as <- Heq. symmetry in Heq. apply reveal_from in Heq. auto.
Qed.
End runs.

(** ** A swap of the simulator *)

Section simulation.
Context `{C : Crypto} `{!CryptoLaws C} `{B : BitcoinLib} `{!BitcoinLaws B}.
Context (btc_key : Z -> BtcEnclaveKey) (p2wpkh_spk : bytes -> BtcNetwork -> bytes).

(** The crate computes every signature hash the leg asks for, and the key's answer to
    it is a signature. *)
Hypothesis signable : forall seed tx redeem v, exists h sig,
  p2wsh_signature_hash tx redeem v = Some h /\ der_low_s (bk_sign_sighash (btc_key seed) h) = Some sig.

Lemma sim_key_ok seed : key_ok (in_memory_key (replicate 32 seed)).
Proof. split; [apply public_ok | intros m; apply sign_ok]. Qed.

Definition sim_funding_terms : FundingTerms :=
  mkFundingTerms (sha256 (replicate 32 0x42)) NIM_AMOUNT T_A_MS (sim_nim_addr 4) VSH.

Lemma sim_funding_ok : funding_ok sim_funding_terms.
Proof.
  split; cbn [ft_hashlock ft_amount ft_timeout ft_recipient ft_validity_start_height sim_funding_terms];
    [apply sha256_ok | | | apply address_ok |]; unfold uN, NIM_AMOUNT, T_A_MS, HEAD_MS, VSH; lia.
Qed.

Definition sim_creation : HtlcCreation := creation_of (nimiq_leg_new (in_memory_key (replicate 32 3))) sim_funding_terms.

Lemma sim_creation_ok : creation_ok sim_creation.
Proof.
  apply creation_of_ok; [apply sim_key_ok | cbn; unfold uN, TESTNET_NETWORK_ID; lia | apply sim_funding_ok].
Qed.

Definition sim_nim_wire : bytes :=
  creation_wire sim_creation (signature_proof_single_sig (ed25519_public (replicate 32 3))
                                (ed25519_sign (replicate 32 3) (creation_content sim_creation))).

Lemma sim_builds_funding : build_funding (nimiq_leg_new (in_memory_key (replicate 32 3))) sim_funding_terms = Ok sim_nim_wire.
Proof. exact (nim_funding_wire (nimiq_leg_new (in_memory_key (replicate 32 3))) _ (sim_key_ok 3) sim_funding_ok). Qed.

Lemma sim_builds_claim preimage : exists tx,
  build_claim (nimiq_leg_new (in_memory_key (replicate 32 4))) sim_nim_wire preimage VSH = Ok tx.
Proof.
  eexists. etransitivity; [exact (nim_claim_wire _ _ (nimiq_leg_new (in_memory_key (replicate 32 4))) preimage VSH sim_creation_ok (sim_key_ok 4))|].
  rewrite bool_decide_true by reflexivity. reflexivity.
Qed.

Lemma sim_builds_refund : exists tx,
  build_refund (nimiq_leg_new (in_memory_key (replicate 32 3))) sim_nim_wire VSH = Ok tx.
Proof.
  eexists. etransitivity; [exact (nim_refund_wire _ _ (nimiq_leg_new (in_memory_key (replicate 32 3))) VSH sim_creation_ok (sim_key_ok 3))|].
  rewrite bool_decide_true by reflexivity. reflexivity.
Qed.

Lemma sim_builds_btc seed : (exists tx, btc_build_claim (sim_btc_leg btc_key p2wpkh_spk seed) sim_funded (replicate 32 0x42) = Ok tx)
  /\ exists tx, btc_build_refund (sim_btc_leg btc_key p2wpkh_spk seed) sim_funded = Ok tx.
Proof.
  unfold btc_build_claim, btc_build_refund, payout, claim_tx_with_key, refund_tx_with_key, sign_spend.
  cbn [sim_btc_leg btc_leg_new bl_fee_sat bl_htlc bl_payout_spk bl_key bp_cltv_locktime fh_value_sat fh_txid fh_vout sim_funded].
  change (BTC_AMOUNT <? BTC_FEE) with false. change (BTC_AMOUNT - BTC_FEE <? DUST_LIMIT_SAT) with false. cbv beta iota.
  change ((T_B_MS / 1000 <? 0) || (2 ^ 32 <=? T_B_MS / 1000)) with false. cbv beta iota.
  split; (match goal with |- context [p2wsh_signature_hash ?t ?r ?v] => destruct (signable seed t r v) as (h & sig & -> & Hs) end);
    cbn [ok_or]; rewrite Hs; cbn [ok_or]; eauto.
Qed.

(** The two engines of the simulator, by phase and what they have recorded *)
Definition sim_ini (ph : SwapPhase) (w : option bytes) (f : option FundedHtlc) : SwapEngine :=
  mkEngine (mkSwap Initiator sim_terms ph) (nimiq_leg_new (in_memory_key (replicate 32 3))) (sim_btc_leg btc_key p2wpkh_spk 0x11)
    NIM_AMOUNT BTC_AMOUNT (sim_nim_addr 4) (Some (replicate 32 0x42)) w f.
Definition sim_rsp (ph : SwapPhase) (x : option bytes) (w : option bytes) (f : option FundedHtlc) : SwapEngine :=
  mkEngine (mkSwap Responder sim_terms ph) (nimiq_leg_new (in_memory_key (replicate 32 4))) (sim_btc_leg btc_key p2wpkh_spk 0x22)
    NIM_AMOUNT BTC_AMOUNT [] x w f.

Definition sim_ladder : LadderParams := mkLadder 1800000 1800000.

Lemma ini_funds : engine_fund (sim_ini Accepted None None) HEAD_MS sim_ladder VSH
  = (sim_ini SelfFunded (Some sim_nim_wire) None, Ok (EffBroadcast LegNim sim_nim_wire)).
Proof.
  unfold engine_fund, after.
  change (fund (en_swap (sim_ini Accepted None None)) HEAD_MS sim_ladder)
    with (@Ok SwapError _ (mkSwap Initiator sim_terms SelfFunded, FundLeg LegNim T_A_MS)).
  cbv beta iota.
  change (mkFundingTerms (engine_hashlock _) _ T_A_MS _ VSH) with sim_funding_terms.
  cbn [en_nim set_swap sim_ini]. rewrite sim_builds_funding. reflexivity.
Qed.

Lemma ini_claims : exists tx,
  reveal_and_claim_btc (sim_ini BothFunded (Some sim_nim_wire) (Some sim_funded)) HEAD_MS sim_ladder
    = (sim_ini Revealed (Some sim_nim_wire) (Some sim_funded), Ok (EffBroadcast LegCounterparty tx))
  /\ extract_preimage tx = Some (replicate 32 0x42).
Proof.
  destruct (sim_builds_btc 0x11) as [(tx & Htx) _]. exists tx. split.
  - unfold reveal_and_claim_btc, after.
    change (reveal_and_claim (en_swap (sim_ini BothFunded _ _)) HEAD_MS sim_ladder)
      with (@Ok SwapError _ (mkSwap Initiator sim_terms Revealed, ClaimLeg LegCounterparty)).
    cbn [en_secret en_btc_funding en_btc set_swap sim_ini]. rewrite Htx. reflexivity.
  - now apply (claim_shows (sim_btc_leg btc_key p2wpkh_spk 0x11) sim_funded).
Qed.

Lemma rsp_claims claim : extract_preimage claim = Some (replicate 32 0x42) ->
  exists tx, claim_nim_from_btc_claim (sim_rsp BothFunded None (Some sim_nim_wire) (Some sim_funded)) claim VSH
    = (sim_rsp Revealed (Some (replicate 32 0x42)) (Some sim_nim_wire) (Some sim_funded), Ok (EffBroadcast LegNim tx)).
Proof.
  intros Hx. destruct (sim_builds_claim (replicate 32 0x42)) as [tx Htx]. exists tx.
  unfold claim_nim_from_btc_claim. rewrite Hx. rewrite bool_decide_true by reflexivity. cbn [negb]. unfold after.
  change (observe_secret (en_swap (sim_rsp BothFunded _ _ _)))
    with (@Ok SwapError _ (mkSwap Responder sim_terms Revealed, ClaimLeg LegNim)).
  cbn [en_nim_funding_wire en_nim set_secret set_swap sim_rsp]. rewrite Htx. reflexivity.
Qed.

Lemma ini_refunds : exists tx, engine_refund (sim_ini BothFunded (Some sim_nim_wire) (Some sim_funded)) (T_A_MS + 1) VSH
  = (sim_ini Refunded (Some sim_nim_wire) (Some sim_funded), Ok (EffBroadcast LegNim tx)).
Proof.
  destruct sim_builds_refund as [tx Htx]. exists tx. unfold engine_refund, after.
  change (refund_after_timeout (en_swap (sim_ini BothFunded _ _)) (T_A_MS + 1))
    with (@Ok SwapError _ (mkSwap Initiator sim_terms Refunded, RefundLeg LegNim)).
  cbn [en_nim_funding_wire en_nim set_swap sim_ini]. rewrite Htx. reflexivity.
Qed.

Lemma rsp_refunds : exists tx, engine_refund (sim_rsp BothFunded None (Some sim_nim_wire) (Some sim_funded)) (T_B_MS + 1) VSH
  = (sim_rsp Refunded None (Some sim_nim_wire) (Some sim_funded), Ok (EffBroadcast LegCounterparty tx)).
Proof.
  destruct (sim_builds_btc 0x22) as [_ [tx Htx]]. exists tx. unfold engine_refund, after.
  change (refund_after_timeout (en_swap (sim_rsp BothFunded _ _ _)) (T_B_MS + 1))
    with (@Ok SwapError _ (mkSwap Responder sim_terms Refunded, RefundLeg LegCounterparty)).
  cbn [en_btc_funding en_btc set_swap sim_rsp]. rewrite Htx. reflexivity.
Qed.

Definition sim_at (step : Z) (i r : SwapEngine) (nf : option bytes) (bf : option FundedHtlc) (cl : option bytes)
    (last : option str) (shown refunded : bool) : SwapSim :=
  mkSwapSim i r sim_ladder (htlc_address (sim_btc_leg btc_key p2wpkh_spk 0x11)) step nf bf cl last shown refunded.

(** The simulator after three steps, when both legs are locked *)
Definition sim_locked : SwapSim :=
  sim_at 3 (sim_ini BothFunded (Some sim_nim_wire) (Some sim_funded))
    (sim_rsp BothFunded None (Some sim_nim_wire) (Some sim_funded)) (Some sim_nim_wire) (Some sim_funded) None
    (Some (sim_tx_id sim_nim_wire)) false false.

Definition sim_steps (n : nat) (s : SwapSim) : SwapSim := Nat.iter n (fun s => (sim_step s).1) s.

Lemma sim_locks : sim_steps 3 (sim_new btc_key p2wpkh_spk) = sim_locked
  /\ is_ok (sim_step (sim_new btc_key p2wpkh_spk)).2 = true.
Proof.
  set (s1 := sim_at 1 (sim_ini Accepted None None) (sim_rsp Accepted None None None) None None None None false false).
  assert (E1 : sim_step (sim_new btc_key p2wpkh_spk) = (s1, Ok (snapshot s1))) by reflexivity.
  set (s2 := sim_at 2 (sim_ini SelfFunded (Some sim_nim_wire) None) (sim_rsp Accepted None None None) (Some sim_nim_wire) None None
               (Some (sim_tx_id sim_nim_wire)) false false).
  assert (E2 : (sim_step s1).1 = s2).
  { unfold sim_step, step_body. subst s1. cbn [sim_at ss_step Z.leb Z.eqb Z.compare Pos.compare Pos.compare_cont parts_of ss_initiator p_ini ss_ladder].
    rewrite ini_funds. reflexivity. }
  assert (E3 : (sim_step s2).1 = sim_locked) by reflexivity.
  split; [|now rewrite E1]. unfold sim_steps. cbn [Nat.iter nat_rect]. rewrite E1. cbn [fst]. now rewrite E2.
Qed.

Lemma sim_finishes : exists s4 s5, sim_step sim_locked = (s4, Ok (snapshot s4)) /\ sim_step s4 = (s5, Ok (snapshot s5))
  /\ ss_step s5 = 5 /\ sn_done (snapshot s5) = true /\ ss_secret_revealed s5 = true
  /\ en_secret (ss_responder s5) = Some (replicate 32 0x42).
Proof.
  destruct ini_claims as (claim & Hc & Hx). destruct (rsp_claims claim Hx) as (tx & Ht).
  set (s4 := sim_at 4 (sim_ini Revealed (Some sim_nim_wire) (Some sim_funded))
    (sim_rsp BothFunded None (Some sim_nim_wire) (Some sim_funded)) (Some sim_nim_wire) (Some sim_funded) (Some claim)
    (Some (sim_tx_id claim)) true false).
  set (s5 := sim_at 5 (sim_ini Settled (Some sim_nim_wire) (Some sim_funded))
    (sim_rsp Settled (Some (replicate 32 0x42)) (Some sim_nim_wire) (Some sim_funded)) (Some sim_nim_wire) (Some sim_funded)
    (Some claim) (Some (sim_tx_id tx)) true false).
  exists s4, s5. split; [|split; [|auto]].
  - unfold sim_step, step_body. cbn [sim_locked sim_at ss_step Z.leb Z.eqb Z.compare Pos.compare Pos.compare_cont Pos.eqb parts_of ss_initiator p_ini ss_ladder].
    rewrite Hc. reflexivity.
  - unfold sim_step, step_body. subst s4.
    cbn [sim_at ss_step Z.leb Z.eqb Z.compare Pos.compare Pos.compare_cont Pos.eqb parts_of ss_btc_claim p_btc_claim ok_or pure ss_responder p_res].
    rewrite Ht. reflexivity.
Qed.

Lemma sim_refunds : exists s, stall_and_refund sim_locked = (s, Ok (snapshot s))
  /\ engine_phase (ss_initiator s) = Refunded /\ engine_phase (ss_responder s) = Refunded
  /\ ss_secret_revealed s = false /\ en_secret (ss_responder s) = None.
Proof.
  destruct ini_refunds as (t1 & H1), rsp_refunds as (t2 & H2).
  exists (sim_at 3 (sim_ini Refunded (Some sim_nim_wire) (Some sim_funded))
    (sim_rsp Refunded None (Some sim_nim_wire) (Some sim_funded)) (Some sim_nim_wire) (Some sim_funded) None
    (Some (sim_tx_id t2)) false true).
  split; [|auto]. unfold stall_and_refund. cbn [sim_locked sim_at parts_of ss_initiator p_ini]. rewrite H1.
  cbn [ini fst snd pure expect_broadcast]. rewrite bool_decide_true by reflexivity.
  change (p_res (parts_of sim_locked)) with (sim_rsp BothFunded None (Some sim_nim_wire) (Some sim_funded)).
  cbn [put_ini p_res]. cbn [pure].
  change (p_res (parts_of sim_locked)) with (sim_rsp BothFunded None (Some sim_nim_wire) (Some sim_funded)).
  rewrite H2. reflexivity.
Qed.
End simulation.

(** ** Properties *)

(** Every call of the orchestrator is a move of the verified machine, behind the
    funding gates.  For every configuration and every sequence of calls on a fresh
    engine, in any order, with any arguments and observations, failed ones included:
    no call panics; the phase is that of a run of the swap machine on the agreed terms;
    a responder asks for its Bitcoin to be locked only after a call reported a NIM
    funding that locks the agreed amount until the agreed timeout at the required
    depth; and the claim that shows the secret is built only after a call reported a
    Bitcoin funding that does, or after the responder's own confirmation, which checks
    nothing, was called. *)
Theorem engine_gated `{C : Crypto} `{B : BitcoinLib} (params : LadderParams) (c : SwapConfig) (r : SwapRole)
    (secret : option bytes) (log : list (EngineOp * res EngineError (option SwapEffect))) (e : SwapEngine)
    (Hrun : calls params (from_config c r secret) log e) :
  (forall o x, (o, x) ∈ log -> x <> Panic)
  /\ (exists tr, run params (swap_new r (cf_terms c)) tr (en_swap e))
  /\ (forall o a n, (o, Ok (Some (FundBtcAddress a n))) ∈ log ->
        exists w obs k d, (OObserveInitiatorFunded w obs k, Ok None) ∈ log
          /\ require_funded obs (mkExpect LegNim (bp_hash_root (bl_htlc (cf_btc c))) (cf_nim_amount c)
               (nim_timeout (cf_terms c)) (cf_counterparty_nim_address c) 0) k = Ok d)
  /\ (forall h eff, (OReveal h, Ok (Some eff)) ∈ log ->
        (exists f obs k d, (OObserveBtcFunded f obs k, Ok None) ∈ log
          /\ require_funded obs (mkExpect LegCounterparty (bp_hash_root (bl_htlc (cf_btc c))) (cf_btc_amount_sat c)
               (counterparty_timeout (cf_terms c)) [] 0) k = Ok d)
        \/ exists f, (OObserveNimFunded f, Ok None) ∈ log).
Proof.
  destruct (calls_inv_run params _ _ _ Hrun eq_refl) as [Hs Hr Ht _ _ Hf Hv].
  destruct (expectations_same _ _ Hs) as [En Eb]. split_and!; [exact Ht | exact Hr | |].
  - intros o a n Hin. specialize (Hf o a n Hin). unfold nim_gate in Hf. rewrite En in Hf. exact Hf.
  - intros h eff Hin. specialize (Hv h eff Hin). unfold btc_gate in Hv. rewrite Eb in Hv. exact Hv.
Qed.

(** A swap of two engines completes.  For every crate and keys that can sign: the
    simulator reaches both legs locked in three steps; two more settle both engines,
    and the responder then holds the initiator's secret although no call gave it to
    it, only the bytes of the Bitcoin claim; and instead of those two steps both
    engines can take their own leg back, each with a transaction it has built, and
    then no secret was shown. *)
Theorem sim_settles_or_refunds `{C : Crypto} `{CL : !CryptoLaws C} `{B : BitcoinLib} `{BL : !BitcoinLaws B}
    (btc_key : Z -> BtcEnclaveKey) (p2wpkh_spk : bytes -> BtcNetwork -> bytes)
    (Hsign : forall seed tx redeem v, exists h sig,
       p2wsh_signature_hash tx redeem v = Some h /\ der_low_s (bk_sign_sighash (btc_key seed) h) = Some sig) :
  let s3 := sim_steps 3 (sim_new btc_key p2wpkh_spk) in
  sn_initiator_phase (snapshot s3) = BothFunded /\ sn_responder_phase (snapshot s3) = BothFunded
  /\ en_secret (ss_responder s3) = None
  /\ (let s5 := sim_steps 2 s3 in
      sn_done (snapshot s5) = true /\ sn_step (snapshot s5) = TOTAL_STEPS /\ sim_step s5 = (s5, Ok (snapshot s5))
      /\ en_secret (ss_responder s5) = en_secret (ss_initiator s3))
  /\ exists s, stall_and_refund s3 = (s, Ok (snapshot s)) /\ sn_initiator_phase (snapshot s) = Refunded
       /\ sn_responder_phase (snapshot s) = Refunded /\ sn_secret_revealed (snapshot s) = false
       /\ en_secret (ss_responder s) = None.
Proof.
  cbn zeta. destruct (sim_locks btc_key p2wpkh_spk) as [-> _]. do 3 (split; [reflexivity|]). split.
  - destruct (sim_finishes btc_key p2wpkh_spk Hsign) as (s4 & s5 & E4 & E5 & H5 & Hd & _ & Hx).
    unfold sim_steps. cbn [Nat.iter nat_rect]. rewrite E4. cbn [fst]. rewrite E5. cbn [fst].
    split_and!; [exact Hd | exact H5 | | exact Hx]. unfold sim_step. rewrite H5. reflexivity.
  - destruct (sim_refunds btc_key p2wpkh_spk Hsign) as (s & E & H1 & H2 & H3 & H4). exists s. auto.
Qed.

(** A key of the toy crate, whose signature of a hash is the hash *)
Definition toy_btc_key (seed : Z) : BtcEnclaveKey := mkBtcKey (replicate 33 seed) (fun h => seed :: h).

Lemma sim_settles_or_refunds_witness :
  sn_done (snapshot (sim_steps 2 (sim_steps 3 (sim_new (C := ToyCrypto) (B := ToyBitcoin) toy_btc_key (fun pk _ => pk))))) = true
  /\ exists s, stall_and_refund (sim_steps 3 (sim_new (C := ToyCrypto) (B := ToyBitcoin) toy_btc_key (fun pk _ => pk)))
               = (s, Ok (snapshot s)) /\ sn_responder_phase (snapshot s) = Refunded.
Proof.
  assert (Hs : forall seed tx redeem v, exists h sig,
    p2wsh_signature_hash tx redeem v = Some h /\ der_low_s (bk_sign_sighash (toy_btc_key seed) h) = Some sig).
  { intros seed tx redeem v. do 2 eexists. split; reflexivity. }
  destruct (sim_settles_or_refunds (C := ToyCrypto) (B := ToyBitcoin) toy_btc_key (fun pk _ => pk) Hs)
    as (_ & _ & _ & (Hd & _) & (s & Er & _ & Hr & _)).
  split; [exact Hd | exists s; auto].
Defined.

Definition sample_calls : list EngineOp :=
  [OAccept HEAD_MS; OFund HEAD_MS VSH; OObserveInitiatorFunded [1] (Found NIM_AMOUNT T_A_MS 1) 2;
   OObserveInitiatorFunded [1] (Found NIM_AMOUNT T_A_MS 3) 2; OFund HEAD_MS VSH].

Definition run_calls (e : SwapEngine) (ops : list EngineOp)
  : list (EngineOp * res EngineError (option SwapEffect)) * SwapEngine :=
  foldl (fun '(log, e) o => let r := engine_call (C := ToyCrypto) (B := ToyBitcoin) (mkLadder 1800000 1800000) e o in
                            (log ++ [(o, r.2)], r.1)) ([], e) ops.

Lemma run_calls_ok e ops : calls (mkLadder 1800000 1800000) e (run_calls e ops).1 (run_calls e ops).2.
Proof.
  unfold run_calls. induction ops as [|o ops IH] using rev_ind; [constructor|]. rewrite foldl_app. cbn [foldl].
  destruct (foldl _ _ ops) as [log e']. cbn [fst snd] in *. now apply calls_snoc.
Qed.

Definition sample_config : SwapConfig :=
  mkSwapConfig sim_terms (sample_nim_leg 4) (sim_btc_leg (C := ToyCrypto) toy_btc_key (fun pk _ => pk) 0x22) NIM_AMOUNT BTC_AMOUNT [].

(** The second call comes too early, the third is too shallow, the last is answered. *)
Lemma engine_gated_witness :
  exists x, (OFund HEAD_MS VSH, Ok (Some (FundBtcAddress x BTC_AMOUNT))) ∈ (run_calls (new_responder sample_config) sample_calls).1
  /\ exists w obs k, (OObserveInitiatorFunded w obs k, Ok None) ∈ (run_calls (new_responder sample_config) sample_calls).1.
Proof.
  exists (htlc_address (B := ToyBitcoin) (cf_btc sample_config)).
  assert (Hin : (OFund HEAD_MS VSH, Ok (Some (FundBtcAddress (htlc_address (B := ToyBitcoin) (cf_btc sample_config)) BTC_AMOUNT)))
                ∈ (run_calls (new_responder sample_config) sample_calls).1).
  { vm_compute. do 4 apply list_elem_of_further. apply list_elem_of_here. }
  split; [exact Hin|].
  destruct (engine_gated (C := ToyCrypto) (B := ToyBitcoin) _ sample_config Responder None _ _
              (run_calls_ok (new_responder sample_config) sample_calls)) as (_ & _ & Hf & _).
  destruct (Hf _ _ _ Hin) as (w & obs & k & d & Hw & _). exists w, obs, k. exact Hw.
Defined.

(** ** A failed build is final *)

(** The machine can make no further move that asks for a transaction. *)
Definition no_exit (s : Swap) : bool :=
  is_terminal (phase s) || (bool_decide (role s = Responder) && bool_decide (phase s = Revealed)).

Lemma no_exit_step params s ev s' act : no_exit s = true -> apply_event params s ev = Ok (s', act) ->
  no_exit s' = true /\ act = ActNone.
Proof.
  unfold no_exit. intros Hs Hev. pose proof (apply_event_static _ _ _ _ _ Hev) as [Hr _]. apply apply_event_table in Hev.
  rewrite Hr. destruct s as [rl t ph]. cbn [role phase terms] in *.
  destruct ev; cbn in Hev; destruct rl, ph; cbn in Hs; try discriminate Hs; decompose [and] Hev; try congruence;
    try (exfalso; tauto);
    repeat match goal with H : phase s' = _ |- _ => rewrite H end; auto; cbn in *; try congruence; exfalso; auto.
Qed.

Section final.
Context `{C : Crypto} `{B : BitcoinLib} (params : LadderParams).

(** A call with an effect makes a move that asks for a transaction. *)
Lemma effect_moves e o eff : (engine_call params e o).2 = Ok (Some eff) ->
  exists s' act, apply_event params (en_swap e) (event_of_op o) = Ok (s', act) /\ act <> ActNone.
Proof.
  intros Hr. destruct (engine_call_spec params e o) as (_ & _ & Hcall).
  destruct Hcall as [[_ (er & He)]|(act & Hev)]; [congruence|].
  destruct o; cbn in Hr; try (unfold no_effect in Hr; cbn in Hr; destruct (_.2) in Hr; discriminate).
  all: do 2 eexists; split; [exact Hev|]; apply apply_event_table in Hev; cbn in Hev; decompose [and] Hev; congruence.
Qed.

Lemma no_exit_calls e log e' : no_exit (en_swap e) = true -> calls params e log e' ->
  no_exit (en_swap e') = true /\ forall o eff, (o, Ok (Some eff)) ∉ log.
Proof.
  intros He Hc. induction Hc as [|log e1 o Hc [H1 IH]]; [split; [exact He | set_solver]|].
  destruct (engine_call_spec params e1 o) as (_ & _ & Hcall). split.
  - destruct Hcall as [[-> _]|(act & Hev)]; [exact H1 | exact (proj1 (no_exit_step _ _ _ _ _ H1 Hev))].
  - intros o' eff [Hin|Heq%list_elem_of_singleton]%elem_of_app; [exact (IH _ _ Hin)|].
    injection Heq as _ Heq. symmetry in Heq. destruct (effect_moves _ _ _ Heq) as (s' & act & Hev & Hne).
    now apply (no_exit_step _ _ _ _ _ H1) in Hev as [_ ->].
Qed.
End final.

(** A step of the orchestrator that fails to build its transaction cannot be
    repeated.  The module says that every funded phase keeps a timeout refund.  A
    responder whose Bitcoin is locked, but whose wallet has not reported the outpoint
    yet, and that asks for the refund past its timeout gets an error, and the machine
    is then in [Refunded]: whatever it is told afterwards, and whatever its keys, no
    call ever returns a transaction again.  The same holds of a responder whose key
    fails once while it builds the claim of the NIM leg, although the secret is public
    and the Bitcoin taken. *)
Theorem engine_failure_is_final `{C : Crypto} `{B : BitcoinLib} (params : LadderParams) (e : SwapEngine)
    (Hrole : engine_role e = Responder) :
  (forall head vsh, engine_phase e = SelfFunded -> en_btc_funding e = None ->
     counterparty_timeout (terms (en_swap e)) < head ->
     let '(e', r) := engine_refund e head vsh in
     r = Err (MissingInput "no BTC funding to refund") /\ engine_phase e' = Refunded
     /\ forall e1 log e2, en_swap e1 = en_swap e' -> calls params e1 log e2 -> forall o eff, (o, Ok (Some eff)) ∉ log)
  /\ (forall tx vsh x w er, engine_phase e = BothFunded -> extract_preimage tx = Some x -> sha256 x = engine_hashlock e ->
     en_nim_funding_wire e = Some w -> build_claim (en_nim e) w x vsh = Err er ->
     let '(e', r) := claim_nim_from_btc_claim e tx vsh in
     r = Err (EngNimLeg er) /\ engine_phase e' = Revealed
     /\ forall e1 log e2, en_swap e1 = en_swap e' -> calls params e1 log e2 -> forall o eff, (o, Ok (Some eff)) ∉ log).
Proof.
  unfold engine_role, engine_phase in *. destruct e as [[rl t ph] nim btc na ba addr sec w0 f0]. cbn in Hrole. subst rl.
  split.
  - intros head vsh Hp Hf Ht. cbn in Hp, Hf, Ht. subst ph f0. unfold engine_refund, after, refund_after_timeout.
    cbn [en_swap role phase terms has_funds_locked negb orb own_timeout].
    destruct (Z.leb_spec head (counterparty_timeout t)); [lia|]. cbn. split_and!; [reflexivity..|].
    intros e1 log e2 He1 Hc. apply (no_exit_calls params e1 log e2); [now rewrite He1 | exact Hc].
  - intros tx vsh x w er Hp Hx Hh Hw Hb. cbn in Hp, Hw, Hb. subst ph w0. unfold claim_nim_from_btc_claim. rewrite Hx.
    rewrite bool_decide_true by exact Hh. cbn. rewrite Hb. split_and!; [reflexivity..|].
    intros e1 log e2 He1 Hc. apply (no_exit_calls params e1 log e2); [now rewrite He1 | exact Hc].
Qed.

Lemma engine_failure_is_final_witness :
  let e := (run_calls (new_responder sample_config) sample_calls).2 in
  engine_phase e = SelfFunded
  /\ (engine_refund (C := ToyCrypto) (B := ToyBitcoin) e (T_B_MS + 1) VSH).2 = Err (MissingInput "no BTC funding to refund").
Proof.
  split; [vm_compute; reflexivity|].
  destruct (engine_failure_is_final (C := ToyCrypto) (B := ToyBitcoin) (mkLadder 1800000 1800000)
    (run_calls (new_responder sample_config) sample_calls).2 ltac:(vm_compute; reflexivity)) as [H _].
  specialize (H (T_B_MS + 1) VSH ltac:(vm_compute; reflexivity) ltac:(vm_compute; reflexivity) ltac:(vm_compute; reflexivity)).
  destruct (engine_refund _ _ _) as [e' r]. exact (proj1 H).
Defined.
