(* ===== verification/Engine.v ===== *)
(** * Engine: the worker of a mesh node ([engine.rs], [node.rs] and the engine glue of
    [balance.rs], [tx_history.rs], [beacon.rs], [chat.rs], [fragment.rs],
    [pending_retry.rs], [swap_node.rs], [swap_fast_tick.rs])

    The worker thread takes one job at a time from its queue.  A handler is a
    computation over the node: it reads and updates the shared context and the
    worker's own state, appends to the log of what the node did to the outside
    (frames handed to the radio, transactions handed to the gateway), and either
    returns or panics.  A panic keeps what was done before it, as [catch_unwind]
    around a job does.

    The clock is [Instant::elapsed]: each reading is the next of a non-decreasing
    sequence.  A [HashSet] of peers is iterated in some order, here that of
    [elements].  Callbacks of the radio shim that touch the shared context between
    jobs are events of their own. *)

From stdpp Require Import base list gmap strings.
From Stdlib Require Import ZArith Lia.
From S2P Require Import Prelude Packet Codec Envelope SwapWire SwapIntent Crypto FundingVerify SwapSession SwapNode Dedup Fragment Gcs Relay StoreForward Beacon Settlement Balance Chat Address NimTx Gateway.
Open Scope Z_scope.

Definition RELAY_CACHE_CAP : Z := 2048.
Definition GATEWAY_CACHE_CAP : Z := 1024.

(** Milliseconds since the worker started: the k-th reading. *)
Class Clock : Type := {
  clock : nat -> Z;
  clock_mono : forall i j, (i <= j)%nat -> clock i <= clock j;
  clock_u64 : forall i, uN 64 (clock i)
}.

Abbreviation RelayKey := (Z * list Z * Z)%type.

Definition relay_key (p : Packet) : RelayKey := (mt_to_u8 (msg_type p), sender_id p, timestamp_ms p).

(** The observability counters of the context *)
Inductive Counter : Type :=
| Forwarded | SendAttempts | SendOk | SendFail | RecentStored | RsrSent | RsrReceived
| BeaconEmitted | ExpiredDropped | VerifyDropped | RateLimited | StopAfterAck | BalanceAnswered
| HistoryAnswered.

#[export] Instance Counter_eq_dec : EqDecision Counter.
Proof. solve_decision. Defined.

(** What the node does to the outside *)
Inductive Effect : Type :=
| Send (peer : string) (frame : bytes)
| Submit (ctx : SubmitContext).

(** A unit of work of the worker *)
Inductive Job : Type :=
| Inbound (src : option string) (frame : bytes)
| LocalTx (tx_wire : bytes)
| RequestSync
| SyncTick
| BeaconTick
| SwapFastTick
| BalanceQuery (address : bytes)
| HistoryQuery (address : bytes)
| ChatJob (payload : bytes)
| StopAdvertising
| Shutdown.

(** [to_sender_id] and [to_tx_id]: truncate or pad with zeros *)
Definition widen (n : nat) (b : bytes) : bytes := take n b ++ replicate (n - length b) 0.

Definition to_sender_id (b : bytes) : bytes := widen 8 b.
Definition to_tx_id (b : bytes) : bytes := widen 32 b.

Section engine.
Context {C : Crypto} {V : Type} {FV : FundingVerifier V} {S : Type} {SG : SwapSigner S}
  {R : Type} {RR : RelayRng R} {G : Type} {MG : MeshGateway G} {CK : Clock}.

(** ** The state *)

(** [WorkerCtx]: the radio is the log of sends; the discovery counters ([intent_metrics]) and the
    phase mirror for the app ([swaps]), which no handler reads, are left out. *)
Record WorkerCtx : Type := mkCtx {
  c_sender_id : bytes;
  c_network : NetworkId;
  c_gateway : option G;
  c_peers : gset string;
  c_ledger : SettlementLedger;
  c_head : HeadCache;
  c_balances : BalanceCache;
  c_history : HistoryCache;
  c_chat : ChatLog;
  c_seq : Z;
  c_citizen : CitizenState;
  c_counters : Counter -> Z
}.

Record WorkerState : Type := mkState {
  t_relay_seen : DedupCache (K := RelayKey);
  t_gateway_seen : DedupCache (K := list Z);
  t_policy : RelayPolicy R;
  t_reassembler : Reassembler;
  t_recent : RecentCache;
  t_sync : SyncScheduler;
  t_beacon : BeaconScheduler;
  t_last_beacon : option HeadBeacon;
  t_beacon_rpc_backoff : Z;
  t_verify_before_relay : bool;
  t_limiter : PeerRateLimiter;
  t_acked : DedupCache (K := list Z);
  t_pending : PendingRetry;
  t_swap : @SwapNode.WorkerState V S
}.

(** The node, the number of clock readings so far and the log of its effects. *)
Record Node : Type := mkNode {
  n_ctx : WorkerCtx;
  n_state : WorkerState;
  n_reads : nat;
  n_log : list Effect
}.

Definition with_ctx (n : Node) (c : WorkerCtx) : Node := mkNode c (n_state n) (n_reads n) (n_log n).
Definition with_state (n : Node) (t : WorkerState) : Node := mkNode (n_ctx n) t (n_reads n) (n_log n).

Definition set_gateway (v : option G) (n : Node) : Node :=
  let c := n_ctx n in
  with_ctx n (mkCtx (c_sender_id c) (c_network c) v (c_peers c) (c_ledger c) (c_head c) (c_balances
    c) (c_history c) (c_chat c) (c_seq c) (c_citizen c) (c_counters c)).
Definition set_peers (v : gset string) (n : Node) : Node :=
  let c := n_ctx n in
  with_ctx n (mkCtx (c_sender_id c) (c_network c) (c_gateway c) v (c_ledger c) (c_head c)
    (c_balances c) (c_history c) (c_chat c) (c_seq c) (c_citizen c) (c_counters c)).
Definition set_ledger (v : SettlementLedger) (n : Node) : Node :=
  let c := n_ctx n in
  with_ctx n (mkCtx (c_sender_id c) (c_network c) (c_gateway c) (c_peers c) v (c_head c) (c_balances
    c) (c_history c) (c_chat c) (c_seq c) (c_citizen c) (c_counters c)).
Definition set_head (v : HeadCache) (n : Node) : Node :=
  let c := n_ctx n in
  with_ctx n (mkCtx (c_sender_id c) (c_network c) (c_gateway c) (c_peers c) (c_ledger c) v
    (c_balances c) (c_history c) (c_chat c) (c_seq c) (c_citizen c) (c_counters c)).
Definition set_balances (v : BalanceCache) (n : Node) : Node :=
  let c := n_ctx n in
  with_ctx n (mkCtx (c_sender_id c) (c_network c) (c_gateway c) (c_peers c) (c_ledger c) (c_head c)
    v (c_history c) (c_chat c) (c_seq c) (c_citizen c) (c_counters c)).
Definition set_history (v : HistoryCache) (n : Node) : Node :=
  let c := n_ctx n in
  with_ctx n (mkCtx (c_sender_id c) (c_network c) (c_gateway c) (c_peers c) (c_ledger c) (c_head c)
    (c_balances c) v (c_chat c) (c_seq c) (c_citizen c) (c_counters c)).
Definition set_chat (v : ChatLog) (n : Node) : Node :=
  let c := n_ctx n in
  with_ctx n (mkCtx (c_sender_id c) (c_network c) (c_gateway c) (c_peers c) (c_ledger c) (c_head c)
    (c_balances c) (c_history c) v (c_seq c) (c_citizen c) (c_counters c)).
Definition set_seq (v : Z) (n : Node) : Node :=
  let c := n_ctx n in
  with_ctx n (mkCtx (c_sender_id c) (c_network c) (c_gateway c) (c_peers c) (c_ledger c) (c_head c)
    (c_balances c) (c_history c) (c_chat c) v (c_citizen c) (c_counters c)).
Definition set_citizen (v : CitizenState) (n : Node) : Node :=
  let c := n_ctx n in
  with_ctx n (mkCtx (c_sender_id c) (c_network c) (c_gateway c) (c_peers c) (c_ledger c) (c_head c)
    (c_balances c) (c_history c) (c_chat c) (c_seq c) v (c_counters c)).
Definition set_counters (v : Counter -> Z) (n : Node) : Node :=
  let c := n_ctx n in
  with_ctx n (mkCtx (c_sender_id c) (c_network c) (c_gateway c) (c_peers c) (c_ledger c) (c_head c)
    (c_balances c) (c_history c) (c_chat c) (c_seq c) (c_citizen c) v).

Definition set_relay_seen (v : DedupCache (K := RelayKey)) (n : Node) : Node :=
  let t := n_state n in
  with_state n (mkState v (t_gateway_seen t) (t_policy t) (t_reassembler t) (t_recent t) (t_sync t)
    (t_beacon t) (t_last_beacon t) (t_beacon_rpc_backoff t) (t_verify_before_relay t) (t_limiter t)
    (t_acked t) (t_pending t) (t_swap t)).
Definition set_gateway_seen (v : DedupCache (K := list Z)) (n : Node) : Node :=
  let t := n_state n in
  with_state n (mkState (t_relay_seen t) v (t_policy t) (t_reassembler t) (t_recent t) (t_sync t)
    (t_beacon t) (t_last_beacon t) (t_beacon_rpc_backoff t) (t_verify_before_relay t) (t_limiter t)
    (t_acked t) (t_pending t) (t_swap t)).
Definition set_policy (v : RelayPolicy R) (n : Node) : Node :=
  let t := n_state n in
  with_state n (mkState (t_relay_seen t) (t_gateway_seen t) v (t_reassembler t) (t_recent t) (t_sync
    t) (t_beacon t) (t_last_beacon t) (t_beacon_rpc_backoff t) (t_verify_before_relay t) (t_limiter
    t) (t_acked t) (t_pending t) (t_swap t)).
Definition set_reassembler (v : Reassembler) (n : Node) : Node :=
  let t := n_state n in
  with_state n (mkState (t_relay_seen t) (t_gateway_seen t) (t_policy t) v (t_recent t) (t_sync t)
    (t_beacon t) (t_last_beacon t) (t_beacon_rpc_backoff t) (t_verify_before_relay t) (t_limiter t)
    (t_acked t) (t_pending t) (t_swap t)).
Definition set_recent (v : RecentCache) (n : Node) : Node :=
  let t := n_state n in
  with_state n (mkState (t_relay_seen t) (t_gateway_seen t) (t_policy t) (t_reassembler t) v (t_sync
    t) (t_beacon t) (t_last_beacon t) (t_beacon_rpc_backoff t) (t_verify_before_relay t) (t_limiter
    t) (t_acked t) (t_pending t) (t_swap t)).
Definition set_sync (v : SyncScheduler) (n : Node) : Node :=
  let t := n_state n in
  with_state n (mkState (t_relay_seen t) (t_gateway_seen t) (t_policy t) (t_reassembler t) (t_recent
    t) v (t_beacon t) (t_last_beacon t) (t_beacon_rpc_backoff t) (t_verify_before_relay t)
    (t_limiter t) (t_acked t) (t_pending t) (t_swap t)).
Definition set_beacon (v : BeaconScheduler) (n : Node) : Node :=
  let t := n_state n in
  with_state n (mkState (t_relay_seen t) (t_gateway_seen t) (t_policy t) (t_reassembler t) (t_recent
    t) (t_sync t) v (t_last_beacon t) (t_beacon_rpc_backoff t) (t_verify_before_relay t) (t_limiter
    t) (t_acked t) (t_pending t) (t_swap t)).
Definition set_last_beacon (v : option HeadBeacon) (n : Node) : Node :=
  let t := n_state n in
  with_state n (mkState (t_relay_seen t) (t_gateway_seen t) (t_policy t) (t_reassembler t) (t_recent
    t) (t_sync t) (t_beacon t) v (t_beacon_rpc_backoff t) (t_verify_before_relay t) (t_limiter t)
    (t_acked t) (t_pending t) (t_swap t)).
Definition set_beacon_rpc_backoff (v : Z) (n : Node) : Node :=
  let t := n_state n in
  with_state n (mkState (t_relay_seen t) (t_gateway_seen t) (t_policy t) (t_reassembler t) (t_recent
    t) (t_sync t) (t_beacon t) (t_last_beacon t) v (t_verify_before_relay t) (t_limiter t) (t_acked
    t) (t_pending t) (t_swap t)).
Definition set_limiter (v : PeerRateLimiter) (n : Node) : Node :=
  let t := n_state n in
  with_state n (mkState (t_relay_seen t) (t_gateway_seen t) (t_policy t) (t_reassembler t) (t_recent
    t) (t_sync t) (t_beacon t) (t_last_beacon t) (t_beacon_rpc_backoff t) (t_verify_before_relay t)
    v (t_acked t) (t_pending t) (t_swap t)).
Definition set_acked (v : DedupCache (K := list Z)) (n : Node) : Node :=
  let t := n_state n in
  with_state n (mkState (t_relay_seen t) (t_gateway_seen t) (t_policy t) (t_reassembler t) (t_recent
    t) (t_sync t) (t_beacon t) (t_last_beacon t) (t_beacon_rpc_backoff t) (t_verify_before_relay t)
    (t_limiter t) v (t_pending t) (t_swap t)).
Definition set_pending (v : PendingRetry) (n : Node) : Node :=
  let t := n_state n in
  with_state n (mkState (t_relay_seen t) (t_gateway_seen t) (t_policy t) (t_reassembler t) (t_recent
    t) (t_sync t) (t_beacon t) (t_last_beacon t) (t_beacon_rpc_backoff t) (t_verify_before_relay t)
    (t_limiter t) (t_acked t) v (t_swap t)).
Definition set_swap (v : @SwapNode.WorkerState V S) (n : Node) : Node :=
  let t := n_state n in
  with_state n (mkState (t_relay_seen t) (t_gateway_seen t) (t_policy t) (t_reassembler t) (t_recent
    t) (t_sync t) (t_beacon t) (t_last_beacon t) (t_beacon_rpc_backoff t) (t_verify_before_relay t)
    (t_limiter t) (t_acked t) (t_pending t) v).

Definition tick_clock (n : Node) : Node := mkNode (n_ctx n) (n_state n) (Datatypes.S (n_reads n)) (n_log n).
Definition emit (e : Effect) (n : Node) : Node := mkNode (n_ctx n) (n_state n) (n_reads n) (n_log n ++ [e]).

(** [WorkerCtx::new] and [WorkerState::new]; [seq] is the clock seed. *)
Definition ctx_new (sender : bytes) (gateway : option G) (network : NetworkId) (seq : Z) : WorkerCtx :=
  mkCtx sender network gateway ∅ ∅ (head_cache_new (wire_id network)) (balance_cache_for (wire_id network))
    ∅ [] seq citizen_new (fun _ => 0).

Definition state_new (policy : RelayPolicy R) (verify : bool) (swap : option (@SwapSession V))
    (signer : option S) : WorkerState :=
  mkState (dedup_new RELAY_CACHE_CAP) (dedup_new GATEWAY_CACHE_CAP) policy ∅ recent_new None None None 0
    verify limiter_new (dedup_new GATEWAY_CACHE_CAP) [] (mkWorker swap signer intent_state_new).

Definition node_new (sender : bytes) (gateway : option G) (policy : RelayPolicy R) (verify : bool)
    (swap : option (@SwapSession V)) (signer : option S) (network : NetworkId) (seq : Z) : Node :=
  mkNode (ctx_new (to_sender_id sender) gateway network seq) (state_new policy verify swap signer) 0 [].

(** ** Computations over the node *)

(** [None] is a panic; the node is what it was when it happened. *)
Definition M (A : Type) : Type := Node -> Node * option A.

#[export] Instance M_ret : MRet M := fun A a n => (n, Some a).
#[export] Instance M_bind : MBind M := fun A B k m n =>
  match m n with
  | (n, Some a) => k a n
  | (n, None) => (n, None)
  end.

Definition skip : M unit := mret tt.
Definition panic {A} : M A := fun n => (n, None).
Definition gets {A} (f : Node -> A) : M A := fun n => (n, Some (f n)).
Definition this : M Node := gets (fun n => n).
Definition modify (f : Node -> Node) : M unit := fun n => (f n, Some tt).

(** A decoder that may panic; an error is no value. *)
Definition decoded {E A} (r : res E A) : M (option A) :=
  match r with Ok a => mret (Some a) | Err _ => mret None | Panic => panic end.

Fixpoint for_each {A} (l : list A) (f : A -> M unit) : M unit :=
  match l with [] => skip | x :: l => f x;; for_each l f end.

(** [st.now_ms()] *)
Definition now_ms : M Z := t ← gets (fun n => clock (n_reads n)); modify tick_clock;; mret t.

(** [fetch_add(1, Relaxed)] of a counter *)
Definition bump (k : Counter) : M unit :=
  modify (fun n => set_counters (fun k' => if decide (k' = k) then wrapN 64 (c_counters (n_ctx n) k' + 1)
                                           else c_counters (n_ctx n) k') n).

Definition peer_degree : M Z := gets (fun n => Z.of_nat (size (c_peers (n_ctx n)))).
Definition cached_head : M (option Z) := gets (fun n => head_latest (c_head (n_ctx n))).

(** [st.relay_seen.insert(relay_key(..))] *)
Definition mark_seen (k : RelayKey) : M bool :=
  n ← this;
  let '(d, fresh) := dedup_insert (t_relay_seen (n_state n)) k in
  modify (set_relay_seen d);; mret fresh.

Definition cache_head (b : HeadBeacon) : M unit :=
  modify (fun n => set_head (head_accept (c_head (n_ctx n)) b).1 n).

Definition cache_balance (r : BalanceResponse) : M unit :=
  modify (fun n => set_balances (balance_observe (c_balances (n_ctx n)) r).1 n).

Definition cache_history (r : HistoryResponse) : M unit :=
  modify (fun n => set_history (history_observe (c_history (n_ctx n)) r (wire_id (c_network (n_ctx n)))).1 n).

Definition record (tx_id : bytes) (d : SettlementDirection) : M unit :=
  modify (fun n => set_ledger (ledger_record (c_ledger (n_ctx n)) tx_id d) n).

Definition settle (tx_id : bytes) (s : PaymentStatus) : M unit :=
  modify (fun n => set_ledger (ledger_settle (c_ledger (n_ctx n)) tx_id s) n).

Definition next_seq : M Z :=
  s ← gets (fun n => c_seq (n_ctx n)); modify (set_seq (wrapN 64 (s + 1)));; mret s.

Definition build_packet (mt : MessageType) (payload : bytes) : M Packet :=
  sender ← gets (fun n => c_sender_id (n_ctx n));
  ts ← next_seq;
  let p := packet_new mt sender payload in
  mret (mkPacket (version p) (msg_type p) DEFAULT_TTL ts (flags p) (Packet.sender_id p)
          (Some BROADCAST_RECIPIENT) (Packet.payload p) (signature p)).

(** One write of the radio *)
Definition unicast (peer : string) (frame : bytes) : M unit :=
  bump SendAttempts;; modify (emit (Send peer frame)).

Definition flood_excluding (frame : bytes) (exclude : option string) : M unit :=
  peers ← gets (fun n => elements (c_peers (n_ctx n)));
  for_each peers (fun peer =>
    if decide (Some peer = exclude) then skip else unicast peer frame).

Definition flood (frame : bytes) : M unit := flood_excluding frame None.

Definition remember (p : Packet) : M unit :=
  now ← now_ms;
  n ← this;
  let '(rc, fresh) := recent_insert (t_recent (n_state n)) (packet_id p) p now in
  modify (set_recent rc);; if fresh : bool then bump RecentStored else skip.

(** [if let Ok(bytes) = encode(&packet) { flood }] *)
Definition flood_packet (p : Packet) : M unit :=
  o ← decoded (encode p);
  match o with Some frame => flood frame | None => skip end.

(** A packet this node originates: its echo is marked as seen and it is kept for
    gossip-sync ([flood_swap_reply] and the query floods share this shape). *)
Definition originate (mt : MessageType) (payload : bytes) : M unit :=
  p ← build_packet mt payload;
  mark_seen (relay_key p);;
  remember p;;
  flood_packet p.

Definition with_ttl (p : Packet) (t : Z) : Packet :=
  mkPacket (version p) (msg_type p) t (timestamp_ms p) (flags p) (Packet.sender_id p) (recipient_id p)
    (Packet.payload p) (signature p).

Definition with_rsr (p : Packet) (b : bool) : Packet :=
  mkPacket (version p) (msg_type p) (ttl p) (timestamp_ms p)
    (mkFlags (is_compressed (flags p)) (has_route (flags p)) b) (Packet.sender_id p) (recipient_id p)
    (Packet.payload p) (signature p).

Definition allowed (mt : MessageType) : M bool :=
  degree ← peer_degree;
  n ← this;
  let '(b, p) := relay_allowed (c_citizen (n_ctx n)) degree mt (t_policy (n_state n)) in
  modify (set_policy p);; mret b.

Definition relay_onward (p : Packet) (src : option string) : M unit :=
  ok ← allowed (msg_type p);
  if negb ok then skip else
  match relayed_ttl (ttl p) with
  | None => skip
  | Some t =>
      let p := with_ttl p t in
      modify (fun n => set_policy (apply_jitter (t_policy (n_state n))) n);;
      o ← decoded (encode p);
      match o with
      | Some frame =>
          bump Forwarded;;
          modify (fun n => set_citizen (note_relay (c_citizen (n_ctx n)) (msg_type p)) n);;
          flood_excluding frame src
      | None => skip
      end
  end.

(** The first-seen gate every handler opens with *)
Definition first_seen (p : Packet) (k : M unit) : M unit :=
  fresh ← mark_seen (relay_key p);
  if negb fresh then skip else k.

(** Run a call of the gateway, if the node has one. *)
Definition ask_gateway {A} (call : G -> G * A) : M (option A) :=
  n ← this;
  match c_gateway (n_ctx n) with
  | None => mret None
  | Some g => let '(g, a) := call g in modify (set_gateway (Some g));; mret (Some a)
  end.

(** ** Payments *)

Definition tx_id_of (e : NimiqEnvelope) : bytes :=
  match tx_id e with Some id => id | None => mock_tx_id (tx_wire e) end.

Definition has_gateway : M bool :=
  gets (fun n => match c_gateway (n_ctx n) with Some _ => true | None => false end).

(** [st.gateway_seen.insert(tx_id)]: whether the id is new *)
Definition claim_submission (id : bytes) : M bool :=
  n ← this;
  let '(d, fresh) := dedup_insert (t_gateway_seen (n_state n)) id in
  modify (set_gateway_seen d);;
  mret fresh.

(** [gw.submit_validated(submit_ctx)], which the log records *)
Definition submit_call (sub : SubmitContext) : M (option (res MeshError Receipt)) :=
  modify (emit (Submit sub));;
  ask_gateway (fun g => submit_validated g sub).

(** [if st.gateway_seen.insert(tx_id) { .. submit_validated .. }]; [None] is no call *)
Definition submit_new (sub : SubmitContext) : M (option (res MeshError Receipt)) :=
  fresh ← claim_submission (su_tx_id sub);
  if negb fresh then mret None else submit_call sub.

(** Submit once per id, and flood the receipt. *)
Definition gateway_submit (env : NimiqEnvelope) (id : bytes) : M unit :=
  gw ← has_gateway;
  if negb gw then skip else
  let sub := mkSubmit id (tx_wire env) (network_id env) (valid_until env) in
  r ← submit_new sub;
  match r with
  | Some (Ok receipt) =>
      reply ← build_packet MtNimiqTxReceipt (encode_receipt (rc_tx_id receipt) (rc_status receipt));
      mark_seen (relay_key reply);;
      flood_packet reply
  | Some Panic => panic
  | _ => skip
  end.

Definition handle_tx (p : Packet) (src : option string) : M unit :=
  first_seen p (
  head ← cached_head;
  if is_expired head (tx_valid_until p) then bump ExpiredDropped else
  env ← decoded (decode_envelope (Packet.payload p));
  n ← this;
  if t_verify_before_relay (n_state n)
     && negb (match env with Some e => verify_basic_wire (tx_wire e) | None => false end)
  then bump VerifyDropped else
  if match env with Some e => dedup_contains (t_acked (n_state n)) (tx_id_of e) | None => false end
  then bump StopAfterAck else
  remember p;;
  match env with Some e => gateway_submit e (tx_id_of e) | None => skip end;;
  relay_onward p src).

Definition handle_receipt (p : Packet) (src : option string) : M unit :=
  first_seen p (
  remember p;;
  o ← decoded (decode_receipt (Packet.payload p));
  match o with
  | Some (Some (id, status)) =>
      settle id (payment_status status);;
      modify (fun n => set_pending (pending_clear (t_pending (n_state n)) id) n);;
      modify (fun n => set_acked (dedup_insert (t_acked (n_state n)) id).1 n)
  | _ => skip
  end;;
  relay_onward p src).

Definition flood_local_tx (wire : bytes) : M unit :=
  let id := mock_tx_id wire in
  head ← cached_head;
  n ← this;
  let vu := match head with Some h => Some (sat_add 32 h VALIDITY_WINDOW) | None => None end in
  let env := mkEnvelope wire (wire_id (c_network (n_ctx n))) vu (Some id) (enc_memo (envelope_new wire)) true in
  o ← decoded (encode_envelope env);
  match o with
  | None => skip
  | Some payload =>
      p ← build_packet MtNimiqTx payload;
      mark_seen (relay_key p);;
      remember p;;
      record id Outgoing;;
      o ← decoded (encode p);
      match o with
      | None => skip
      | Some frame =>
          now ← now_ms;
          degree ← peer_degree;
          modify (fun n => set_pending (pending_remember (t_pending (n_state n)) id frame vu now
                                          (degree >? 0)) n);;
          flood frame
      end
  end.

(** ** Head beacons *)

Definition emit_head_beacon : M unit :=
  n ← this;
  match c_gateway (n_ctx n) with
  | None => skip
  | Some g =>
      now ← now_ms;
      let '(due, sched) := beacon_due (t_beacon (n_state n)) now in
      modify (set_beacon sched);;
      if negb due then skip else
      let '(g', r) := head_beacon g in
      let live := match r with Ok o => o | _ => None end in
      let '(b, last, backoff, called) :=
        select_beacon (fun _ => live) (t_last_beacon (n_state n)) (t_beacon_rpc_backoff (n_state n)) in
      (if called : bool then modify (set_gateway (Some g')) else skip);;
      if called && match r with Panic => true | _ => false end then panic else
      modify (set_last_beacon last);;
      modify (set_beacon_rpc_backoff backoff);;
      match b with
      | None => skip
      | Some b =>
          cache_head b;;
          p ← build_packet MtNimiqHeadBeacon (encode_beacon b);
          mark_seen (relay_key p);;
          remember p;;
          bump BeaconEmitted;;
          flood_packet p
      end
  end.

Definition handle_head_beacon (p : Packet) (src : option string) : M unit :=
  first_seen p (
  o ← decoded (decode_beacon (Packet.payload p));
  match o with Some (Some b) => cache_head b | _ => skip end;;
  remember p;;
  relay_onward p src).

(** ** Balances and histories *)

(** [address.to_user_friendly()] *)
Definition user_friendly (a : bytes) : M (list Z) :=
  match to_user_friendly a with Ok s => mret s | _ => panic end.

(** A call of the gateway that may panic; [None] is no gateway or no answer. *)
Definition ask_answer {A} (call : G -> G * res unit (option A)) : M (option A) :=
  r ← ask_gateway call;
  match r with
  | Some (Ok o) => mret o
  | Some Panic => panic
  | _ => mret None
  end.

Definition answer_balance (address : bytes) : M unit :=
  s ← user_friendly address;
  o ← ask_answer (fun g => balance_of g s);
  match o with
  | None => skip
  | Some a =>
      let resp := mkBalanceResponse address (ba_balance a) (ba_head_height a) (ba_network_id a) in
      cache_balance resp;;
      reply ← build_packet MtNimiqBalanceResponse (encode_balance_response resp);
      mark_seen (relay_key reply);;
      remember reply;;
      bump BalanceAnswered;;
      flood_packet reply
  end.

Definition handle_balance_query (p : Packet) (src : option string) : M unit :=
  first_seen p (
  remember p;;
  gw ← has_gateway;
  (if gw : bool then match decode_balance_query (Packet.payload p) with Some a => answer_balance a | None => skip end
   else skip);;
  relay_onward p src).

Definition handle_balance_response (p : Packet) (src : option string) : M unit :=
  first_seen p (
  o ← decoded (decode_balance_response (Packet.payload p));
  match o with Some (Some r) => cache_balance r | _ => skip end;;
  remember p;;
  relay_onward p src).

Definition answer_history (address : bytes) : M unit :=
  s ← user_friendly address;
  o ← ask_answer (fun g => history_of g s);
  match o with
  | None => skip
  | Some resp =>
      cache_history resp;;
      seq ← next_seq;
      sender ← gets (fun n => c_sender_id (n_ctx n));
      let frag_id := zip_with Z.lxor (be_bytes 8 seq) sender in
      for_each (fragment_message (mt_to_u8 MtNimiqTxHistoryResponse) (encode_history_response resp)
                  HISTORY_FRAGMENT_CHUNK frag_id)
        (originate MtFragment);;
      bump HistoryAnswered
  end.

Definition handle_history_query (p : Packet) (src : option string) : M unit :=
  first_seen p (
  remember p;;
  gw ← has_gateway;
  (if gw : bool then match decode_history_query (Packet.payload p) with Some a => answer_history a | None => skip end
   else skip);;
  relay_onward p src).

Definition handle_history_response (p : Packet) (src : option string) : M unit :=
  first_seen p (
  o ← decoded (decode_history_response (Packet.payload p));
  match o with Some (Some r) => cache_history r | _ => skip end;;
  remember p;;
  relay_onward p src).

Definition flood_local_balance_query (address : bytes) : M unit :=
  originate MtNimiqBalanceQuery (encode_balance_query address).

Definition flood_local_history_query (address : bytes) : M unit :=
  originate MtNimiqTxHistoryQuery (encode_history_query address).

(** ** Chat *)

Definition push_chat (e : ChatEntry) : M unit :=
  modify (fun n => set_chat (chat_push (c_chat (n_ctx n)) e) n).

Definition flood_local_chat (payload : bytes) : M unit :=
  o ← decoded (decode_chat payload);
  match o with
  | None => skip
  | Some (ts, nick, text) =>
      p ← build_packet MtChat payload;
      mark_seen (relay_key p);;
      remember p;;
      push_chat (mkChat (Packet.sender_id p) (timestamp_ms p) nick text ts true);;
      flood_packet p
  end.

Definition handle_chat_packet (p : Packet) (src : option string) : M unit :=
  first_seen p (
  remember p;;
  o ← decoded (decode_chat (Packet.payload p));
  n ← this;
  match o with
  | Some (ts, nick, text) =>
      push_chat (mkChat (Packet.sender_id p) (timestamp_ms p) nick text ts
                   (bool_decide (Packet.sender_id p = c_sender_id (n_ctx n))))
  | None => skip
  end;;
  relay_onward p src).

(** ** Swaps *)

(** Run a step of the swap driver and flood what it replies. *)
Definition swap_step (e : NodeEvent V) : M unit :=
  n ← this;
  let '(w, r) := node_apply (t_swap (n_state n)) e in
  modify (set_swap w);;
  match r with
  | Ok replies => for_each replies (fun '(mt, payload) => originate mt payload)
  | Err e => match e with end
  | Panic => panic
  end.

Definition participant : M bool :=
  gets (fun n => match w_swap (t_swap (n_state n)) with Some _ => true | None => false end).

(** Whether a packet is a swap intent whose expiry the head has passed. *)
Definition stale_intent (p : Packet) (head : option Z) : M bool :=
  match msg_type p with
  | MtSwapIntent =>
      o ← decoded (decode_intent (Packet.payload p));
      mret (match o with Some i => negb (is_fresh i (default 0 head)) | None => false end)
  | _ => mret false
  end.

Definition handle_swap_packet (p : Packet) (src : option string) : M unit :=
  first_seen p (
  remember p;;
  head ← cached_head;
  stale ← stale_intent p head;
  if stale : bool then skip else
  part ← participant;
  (if part : bool then
     match msg_type p, from_message_type (msg_type p) with
     | MtSwapIntent, _ =>
         swap_step (NeIntent (Packet.sender_id p) (Packet.payload p) head)
     | _, Some kind => swap_step (NeMessage kind (Packet.payload p) head)
     | _, None => skip
     end
   else skip);;
  relay_onward p src).

Definition gc_tick_job : M unit :=
  head ← cached_head;
  degree ← peer_degree;
  swap_step (NeGcTick head degree).

Definition fast_tick_job : M unit :=
  now ← now_ms;
  head ← cached_head;
  swap_step (NeFastTick now head).

(** ** Fragments, dispatch and the inbound path *)

Definition accept_fragment (f : Fragment) (now : Z) : M (option (Z * bytes)) :=
  n ← this;
  let '(r, out) := reassembler_accept (t_reassembler (n_state n)) f now in
  modify (set_reassembler r);; mret out.

Definition handle_fragment (dispatch : Packet -> M unit) (p : Packet) (src : option string) : M unit :=
  first_seen p (
  remember p;;
  parsed ← decoded (parse_fragment (Packet.payload p));
  now ← now_ms;
  relay_onward p src;;
  match parsed with
  | Some (Some f) =>
      out ← accept_fragment f now;
      match out with
      | Some (original_type, payload) =>
          match mt_from_u8 original_type with
          | Some mt =>
              now ← now_ms;
              let q := packet_new mt (replicate 8 0) payload in
              dispatch (mkPacket (version q) mt 0 now (flags q) (Packet.sender_id q) None payload None)
          | None => skip
          end
      | None => skip
      end
  | _ => skip
  end).

(** A reassembled fragment goes through the dispatcher again: the recursion ends
    because every level consumes a fragment header (see [dispatch_fuel]). *)
Fixpoint dispatch_packet (fuel : nat) (p : Packet) (src : option string) : M unit :=
  match fuel with
  | O => panic
  | Datatypes.S fuel =>
      match msg_type p with
      | MtNimiqTx => handle_tx p src
      | MtNimiqTxReceipt => handle_receipt p src
      | MtNimiqHeadBeacon => handle_head_beacon p src
      | MtNimiqBalanceQuery => handle_balance_query p src
      | MtNimiqBalanceResponse => handle_balance_response p src
      | MtNimiqTxHistoryQuery => handle_history_query p src
      | MtNimiqTxHistoryResponse => handle_history_response p src
      | MtFragment => handle_fragment (fun q => dispatch_packet fuel q None) p src
      | MtSwapPropose | MtSwapAccept | MtSwapFundingProof | MtSwapPreimageReveal | MtSwapAbort
      | MtSwapIntent => handle_swap_packet p src
      | MtChat => handle_chat_packet p src
      | _ => first_seen p (remember p;; relay_onward p src)
      end
  end.

Definition dispatch_fuel (n : Node) (p : Packet) : nat :=
  Datatypes.S (Z.to_nat (held (t_reassembler (n_state n)) + len (Packet.payload p))).

Definition dispatch (p : Packet) (src : option string) : M unit :=
  n ← this; dispatch_packet (dispatch_fuel n p) p src.

(** [st.recent.missing(&filter, st.now_ms())] *)
Definition take_missing (filter : GcsFilter) : M (list Packet) :=
  now ← now_ms;
  n ← this;
  let '(ms, rc) := missing (t_recent (n_state n)) filter now in
  modify (set_recent rc);; mret ms.

(** One turn of the loop of [handle_request_sync] *)
Definition reply_rsr (src : string) (m : Packet) : M unit :=
  o ← decoded (encode (with_rsr m true));
  match o with Some frame => unicast src frame;; bump RsrSent | None => skip end.

Definition handle_request_sync (p : Packet) (src : option string) : M unit :=
  match src with
  | None => skip
  | Some src =>
      match gcs_from_bytes (Packet.payload p) with
      | None => skip
      | Some filter =>
          ms ← take_missing filter;
          for_each ms (reply_rsr src)
      end
  end.

Definition rate_ok (src : option string) : M bool :=
  match src with
  | None => mret true
  | Some peer =>
      now ← now_ms;
      n ← this;
      let '(ok, l) := limiter_allow (t_limiter (n_state n)) peer now in
      modify (set_limiter l);; mret ok
  end.

Definition process_inbound (src : option string) (frame : bytes) : M unit :=
  ok ← rate_ok src;
  if negb ok then bump RateLimited else
  o ← decoded (decode frame);
  match o with
  | None => skip
  | Some p =>
      if is_rsr (flags p) then
        bump RsrReceived;;
        dispatch (with_ttl (with_rsr p false) 0) None
      else if decide (msg_type p = MtRequestSync) then handle_request_sync p src
      else dispatch p src
  end.

(** ** Maintenance *)

(** [st.recent.build_filter(st.now_ms())] *)
Definition take_filter : M GcsFilter :=
  now ← now_ms;
  n ← this;
  let '(f, rc) := build_filter (t_recent (n_state n)) now in
  modify (set_recent rc);; mret f.

Definition emit_request_sync : M unit :=
  f ← take_filter;
  p ← build_packet MtRequestSync (gcs_to_bytes f);
  flood_packet (with_ttl p 0).

Definition pending_retry_tick : M unit :=
  now ← now_ms;
  head ← cached_head;
  degree ← peer_degree;
  n ← this;
  let '(p, l, out) := pending_tick (t_pending (n_state n)) (c_ledger (n_ctx n)) head now (degree >? 0) in
  modify (set_pending p);;
  modify (set_ledger l);;
  for_each out flood.

Definition maintenance_tick : M unit :=
  now ← now_ms;
  n ← this;
  let '(due, s) := sync_due (t_sync (n_state n)) now in
  modify (set_sync s);;
  (if due : bool then emit_request_sync else skip);;
  pending_retry_tick.

Definition stop_advertising_job : M unit :=
  swap_step NeStop.

(** One turn of the loop of [run_worker] *)
Definition run_job (j : Job) : M unit :=
  match j with
  | Inbound src frame => process_inbound src frame;; fast_tick_job
  | LocalTx wire => flood_local_tx wire
  | RequestSync => emit_request_sync
  | SyncTick => maintenance_tick;; gc_tick_job
  | BeaconTick => emit_head_beacon;; maintenance_tick;; gc_tick_job
  | SwapFastTick => fast_tick_job
  | BalanceQuery a => flood_local_balance_query a
  | HistoryQuery a => flood_local_history_query a
  | ChatJob payload => flood_local_chat payload
  | StopAdvertising => stop_advertising_job
  | Shutdown => skip
  end.

(** ** The node in its surroundings *)

(** A job of the queue, or a callback that touches the shared context, or the
    chain behind the funding verifier moving on. *)
Inductive Event : Type :=
| EvJob (j : Job)
| EvPeerConnected (peer : string)
| EvPeerDisconnected (peer : string)
| EvSendResult (ok : bool)
| EvWatchIncoming (tx_id : bytes)
| EvBattery (level : Z) (charging : bool)
| EvChain (v : V).

(** [catch_unwind] around a job *)
Definition catch (m : M unit) (n : Node) : Node := (m n).1.

Definition apply_event (n : Node) (e : Event) : Node :=
  match e with
  | EvJob j => catch (run_job j) n
  | EvPeerConnected peer => set_peers ({[ peer ]} ∪ c_peers (n_ctx n)) n
  | EvPeerDisconnected peer => set_peers (c_peers (n_ctx n) ∖ {[ peer ]}) n
  | EvSendResult ok => catch (bump (if ok then SendOk else SendFail)) n
  | EvWatchIncoming id => catch (record (to_tx_id id) Incoming) n
  | EvBattery level charging => set_citizen (set_battery (c_citizen (n_ctx n)) level charging) n
  | EvChain v => catch (swap_step (NeChain v)) n
  end.

(** The jobs after a [Shutdown] are never taken; a run is a list without one. *)
Definition run_events (n : Node) (es : list Event) : Node := foldl apply_event n es.
End engine.
