(* ===== verification/EngineLogic.v ===== *)
(** * EngineLogic: reasoning about the worker

    A handler is long, but what it does to the node is a sequence of a few
    primitive actions: mark a packet as seen, keep it for gossip-sync, relay it,
    originate a packet, settle a payment, claim a submission, advance the swap
    driver, take in a fragment.  A predicate of the node is [closed] when each of
    these keeps it; the theorem of this file is that every job then keeps it, and
    that no job panics if the gateway's calls do not.  The properties of the node
    are instances. *)

From stdpp Require Import base list gmap strings.
From Stdlib Require Import ZArith Lia.
From S2P Require Import Prelude Packet Codec Envelope SwapWire SwapIntent Crypto FundingVerify SwapSession SwapNode Dedup Fragment Gcs Relay StoreForward Beacon Settlement Balance Chat Address NimTx Gateway Engine.
Open Scope Z_scope.

Create HintDb engine.

(** The calls of a gateway return (they may fail, but they do not panic). *)
Class GatewayTotal (G : Type) `{MeshGateway G} : Prop := {
  submit_total : forall g ctx, (submit_validated g ctx).2 <> Panic;
  beacon_total : forall g, (head_beacon g).2 <> Panic;
  balance_total : forall g s, (balance_of g s).2 <> Panic;
  history_total : forall g s, (history_of g s).2 <> Panic
}.

Section logic.
Context {C : Crypto} {V : Type} {FV : FundingVerifier V} {S : Type} {SG : SwapSigner S}
  {R : Type} {RR : RelayRng R} {G : Type} {MG : MeshGateway G} {CK : Clock}.

Abbreviation Nd := (@Node V S R G).
Abbreviation Mo := (@M V S R G).

(** ** Triples *)

(** [may_panic] says whether a panic is allowed; [J h] is the predicate to keep,
    [h] a bound on the bytes the reassembler holds. *)
Section triples.
Context (may_panic : Prop) (J : Z -> Nd -> Prop).

Definition tri {A} (P : Nd -> Prop) (m : Mo A) (Q : A -> Nd -> Prop) : Prop :=
  forall n, P n ->
  match m n with
  | (n', Some a) => Q a n'
  | (n', None) => may_panic /\ exists h, J h n'
  end.

(** The predicate is kept, and the value is as described. *)
Definition keeps {A} (h : Z) (m : Mo A) (Q : A -> Prop) : Prop :=
  tri (J h) m (fun a n => Q a /\ J h n).

Lemma tri_ret {A} (a : A) (Q : A -> Nd -> Prop) : tri (Q a) (mret a) Q.
Proof. intros n H. exact H. Qed.

Lemma tri_bind {A B} (m : Mo A) (k : A -> Mo B) P Q Q' :
  tri P m Q -> (forall a, tri (Q a) (k a) Q') -> tri P (m ≫= k) Q'.
Proof.
  intros Hm Hk n Hn. specialize (Hm n Hn). unfold mbind, M_bind.
  destruct (m n) as [n' [a|]]; [exact (Hk a n' Hm) | exact Hm].
Qed.

Lemma tri_pre {A} (m : Mo A) (P P' : Nd -> Prop) Q : tri P m Q -> (forall n, P' n -> P n) -> tri P' m Q.
Proof. intros H HP n Hn. exact (H n (HP n Hn)). Qed.

Lemma tri_post {A} (m : Mo A) P (Q Q' : A -> Nd -> Prop) :
  tri P m Q -> (forall a n, Q a n -> Q' a n) -> tri P m Q'.
Proof. intros H HQ n Hn. specialize (H n Hn). destruct (m n) as [n' [a|]]; auto. Qed.

Lemma keeps_bind {A B} h (m : Mo A) (k : A -> Mo B) (Q : A -> Prop) Q' :
  keeps h m Q -> (forall a, Q a -> keeps h (k a) Q') -> keeps h (m ≫= k) Q'.
Proof.
  intros Hm Hk. eapply tri_bind; [exact Hm|]. intros a n [Ha Hn]. exact (Hk a Ha n Hn).
Qed.

Lemma keeps_ret {A} h (a : A) (Q : A -> Prop) : Q a -> keeps h (mret a) Q.
Proof. intros H n Hn. now split. Qed.

Lemma keeps_skip h (Q : unit -> Prop) : Q tt -> keeps h skip Q.
Proof. apply keeps_ret. Qed.

Lemma keeps_panic {A} h (Q : A -> Prop) : may_panic -> keeps h panic Q.
Proof. intros H n Hn. split; [exact H | exists h; exact Hn]. Qed.

Lemma keeps_gets {A} h (f : Nd -> A) : keeps h (gets f) (fun _ => True).
Proof. intros n Hn. now split. Qed.

Lemma keeps_modify h (f : Nd -> Nd) (Q : unit -> Prop) :
  Q tt -> (forall n, J h n -> J h (f n)) -> keeps h (modify f) Q.
Proof. intros HQ H n Hn. split; auto. Qed.

(** A read-modify-write. *)
Lemma keeps_this {A} h (k : Nd -> Mo A) Q :
  (forall n, J h n -> match k n n with
                      | (n', Some a) => Q a /\ J h n'
                      | (n', None) => may_panic /\ exists h, J h n' end) ->
  keeps h (this ≫= k) Q.
Proof. intros H n Hn. exact (H n Hn). Qed.

Lemma keeps_weaken {A} h (m : Mo A) (Q Q' : A -> Prop) :
  keeps h m Q -> (forall a, Q a -> Q' a) -> keeps h m Q'.
Proof. intros H HQ. eapply tri_post; [exact H|]. intros a n [Ha Hn]; auto. Qed.

Lemma keeps_for_each {A} h (l : list A) (f : A -> Mo unit) :
  (forall x, x ∈ l -> keeps h (f x) (fun _ => True)) -> keeps h (for_each l f) (fun _ => True).
Proof.
  induction l as [|x l IH]; intros H; [now apply keeps_skip|]. simpl. eapply keeps_bind.
  - apply H. left.
  - intros _ _. apply IH. intros y Hy. apply H. now right.
Qed.

Lemma keeps_decoded {E A} h (r : res E A) :
  (r = Panic -> may_panic) ->
  keeps h (decoded r) (fun o => forall a, o = Some a -> r = Ok a).
Proof.
  intros H. destruct r as [a|e|]; simpl.
  - apply keeps_ret. now intros a' [= ->].
  - apply keeps_ret. discriminate.
  - now apply keeps_panic, H.
Qed.
End triples.

(** ** Predicates closed under the primitive actions *)

(** [own] holds of the packets the node builds, [rel] of the packets and source
    links its handlers are run on. *)
Record closed (may_panic : Prop) (own : Packet -> Prop) (rel : Packet -> option string -> Prop)
    (J : Z -> Nd -> Prop) : Prop := {
  cl_mono : forall h h' n, h <= h' -> J h n -> J h' n;
  cl_held : forall h n, J h n -> J (held (t_reassembler (n_state n))) n;
  cl_clock : forall h n, J h n -> J h (tick_clock n);
  cl_bump : forall h k, keeps may_panic J h (bump k) (fun _ => True);
  cl_seen : forall h k, keeps may_panic J h (mark_seen k) (fun _ => True);
  cl_head : forall h b, keeps may_panic J h (cache_head b) (fun _ => True);
  cl_balance : forall h r, keeps may_panic J h (cache_balance r) (fun _ => True);
  cl_history : forall h r, keeps may_panic J h (cache_history r) (fun _ => True);
  cl_chat : forall h e, keeps may_panic J h (push_chat e) (fun _ => True);
  cl_record : forall h id d, keeps may_panic J h (record id d) (fun _ => True);
  cl_settle : forall h id s, keeps may_panic J h (settle id s) (fun _ => True);
  cl_clear : forall h id n, J h n -> J h (set_pending (pending_clear (t_pending (n_state n)) id) n);
  cl_ack : forall h id n, J h n -> J h (set_acked (dedup_insert (t_acked (n_state n)) id).1 n);
  cl_seq : forall h, keeps may_panic J h next_seq (fun _ => True);
  cl_build : forall h mt pl, keeps may_panic J h (build_packet mt pl) own;
  cl_own_ttl0 : forall p, own p -> own (with_ttl p 0);
  cl_flood : forall h p f, own p -> encode p = Ok f -> keeps may_panic J h (flood f) (fun _ => True);
  cl_keep_own : forall h p, own p -> keeps may_panic J h (remember p) (fun _ => True);
  cl_keep : forall h p src, rel p src -> keeps may_panic J h (remember p) (fun _ => True);
  cl_relay : forall h p src, rel p src -> keeps may_panic J h (relay_onward p src) (fun _ => True);
  cl_zero : forall p, ttl p = 0 -> version p = VERSION -> rel p None;
  cl_pend : forall h p f id vu now d n, own p -> encode p = Ok f -> J h n ->
    J h (set_pending (pending_remember (t_pending (n_state n)) id f vu now d) n);
  cl_retry : forall h, keeps may_panic J h pending_retry_tick (fun _ => True);
  cl_submit : forall h sub, keeps may_panic J h (submit_new sub) (fun o => forall a, o = Some a -> exists g, (submit_validated g sub).2 = a);
  cl_gateway : forall h g n, J h n -> J h (set_gateway (Some g) n);
  cl_beacon : forall h v n, J h n -> J h (set_beacon v n);
  cl_last : forall h v n, J h n -> J h (set_last_beacon v n);
  cl_backoff : forall h v n, J h n -> J h (set_beacon_rpc_backoff v n);
  cl_swap : forall h e n, J h n -> J h (set_swap (node_apply (t_swap (n_state n)) e).1 n);
  cl_filter : forall h, keeps may_panic J h take_filter (fun _ => True);
  cl_missing : forall h p src f, rel p (Some src) -> msg_type p = MtRequestSync ->
    keeps may_panic J h (ms ← take_missing f; for_each ms (reply_rsr src)) (fun _ => True);
  cl_rate : forall h src, keeps may_panic J h (rate_ok src) (fun _ => True);
  cl_sync : forall h v n, J h n -> J h (set_sync v n);
  cl_accept : forall h f now, bytes_ok (f_chunk f) ->
    tri may_panic J (J h) (accept_fragment f now) (fun o n =>
      match o with
      | None => J (h + len (f_chunk f)) n
      | Some (_, pl) => bytes_ok pl /\ len pl <= h + len (f_chunk f) /\ J (h + len (f_chunk f) - len pl) n
      end)
}.

Arguments cl_mono {_ _ _ _} _.
Arguments cl_held {_ _ _ _} _.
Arguments cl_clock {_ _ _ _} _.
Arguments cl_bump {_ _ _ _} _.
Arguments cl_seen {_ _ _ _} _.
Arguments cl_head {_ _ _ _} _.
Arguments cl_balance {_ _ _ _} _.
Arguments cl_history {_ _ _ _} _.
Arguments cl_chat {_ _ _ _} _.
Arguments cl_record {_ _ _ _} _.
Arguments cl_settle {_ _ _ _} _.
Arguments cl_clear {_ _ _ _} _.
Arguments cl_ack {_ _ _ _} _.
Arguments cl_seq {_ _ _ _} _.
Arguments cl_build {_ _ _ _} _.
Arguments cl_own_ttl0 {_ _ _ _} _.
Arguments cl_flood {_ _ _ _} _.
Arguments cl_keep_own {_ _ _ _} _.
Arguments cl_keep {_ _ _ _} _.
Arguments cl_relay {_ _ _ _} _.
Arguments cl_zero {_ _ _ _} _.
Arguments cl_pend {_ _ _ _} _.
Arguments cl_retry {_ _ _ _} _.
Arguments cl_submit {_ _ _ _} _.
Arguments cl_gateway {_ _ _ _} _.
Arguments cl_beacon {_ _ _ _} _.
Arguments cl_last {_ _ _ _} _.
Arguments cl_backoff {_ _ _ _} _.
Arguments cl_swap {_ _ _ _} _.
Arguments cl_filter {_ _ _ _} _.
Arguments cl_missing {_ _ _ _} _.
Arguments cl_rate {_ _ _ _} _.
Arguments cl_sync {_ _ _ _} _.
Arguments cl_accept {_ _ _ _} _.

Section jobs.
Context (may_panic : Prop) (own : Packet -> Prop) (rel : Packet -> option string -> Prop)
  (J : Z -> Nd -> Prop) (CL : closed may_panic own rel J) (HG : may_panic \/ GatewayTotal G).

Abbreviation keep h m := (keeps may_panic J h m (fun _ => True)).

#[local] Hint Resolve keeps_skip : engine.
#[local] Hint Extern 1 (keeps _ _ _ _ _) =>
  first [ apply (cl_bump CL) | apply (cl_seen CL) | apply (cl_head CL) | apply (cl_balance CL)
        | apply (cl_history CL) | apply (cl_chat CL) | apply (cl_record CL) | apply (cl_settle CL)
        | apply (cl_seq CL) | apply (cl_build CL) | apply (cl_retry CL)
        | apply (cl_filter CL) | apply (cl_rate CL) ] : engine.
#[local] Hint Extern 2 (keeps _ _ _ (remember _) _) => eapply (cl_keep_own CL) : engine.
#[local] Hint Extern 3 (keeps _ _ _ (remember _) _) => eapply (cl_keep CL) : engine.
#[local] Hint Extern 2 (keeps _ _ _ (relay_onward _ _) _) => eapply (cl_relay CL) : engine.

Lemma keep_now h : keep h now_ms.
Proof. intros n Hn. split; [exact I | now apply (cl_clock CL)]. Qed.

Lemma keep_degree h : keep h peer_degree.
Proof. apply keeps_gets. Qed.

Lemma keep_cached_head h : keep h cached_head.
Proof. apply keeps_gets. Qed.

Lemma keep_encode h p :
  keeps may_panic J h (decoded (encode p)) (fun o => forall f, o = Some f -> encode p = Ok f).
Proof. apply keeps_decoded. intros E. now apply encode_no_panic in E. Qed.

Lemma keep_flood_packet h p : own p -> keep h (flood_packet p).
Proof.
  intros Hp. eapply keeps_bind; [apply keep_encode|]. intros [f|] Hf; [|now apply keeps_skip].
  eapply (cl_flood CL); eauto.
Qed.

Lemma keep_first_seen h p k : keep h k -> keep h (first_seen p k).
Proof.
  intros Hk. eapply keeps_bind; [apply (cl_seen CL)|]. intros [] _; simpl; [exact Hk|].
  now apply keeps_skip.
Qed.

Lemma keep_has_gateway h : keep h has_gateway.
Proof. apply keeps_gets. Qed.

(** A call of the gateway; what it returns is the second part of some call. *)
Lemma keep_ask {A} h (call : G -> G * A) :
  keeps may_panic J h (ask_gateway call) (fun o => forall a, o = Some a -> exists g, (call g).2 = a).
Proof.
  intros n Hn. unfold ask_gateway, this, gets, modify, mbind, M_bind, mret, M_ret.
  destruct (c_gateway (n_ctx n)) as [g|]; [|split; [discriminate | exact Hn]].
  destruct (call g) as [g' a] eqn:E. split; [|now apply (cl_gateway CL)].
  intros a' [= <-]. exists g. now rewrite E.
Qed.

Lemma keep_answer {A} h (call : G -> G * res unit (option A)) :
  (may_panic \/ forall g, (call g).2 <> Panic) -> keep h (ask_answer call).
Proof.
  intros Hc. eapply keeps_bind; [apply keep_ask|]. intros [[o|e|]|] Ha; try now apply keeps_ret.
  apply keeps_panic. destruct Hc as [?|Hc]; [assumption|]. destruct (Ha _ eq_refl) as [g Hg].
  now apply Hc in Hg.
Qed.

#[local] Hint Resolve keep_now keep_degree keep_cached_head keep_encode keep_flood_packet keep_first_seen
  keep_has_gateway : engine.

(** Walk through a handler: every action by its lemma, every branch. *)
Ltac walk :=
  repeat match goal with
  | |- forall _, _ => intro
  | H : _ /\ _ |- _ => destruct H
  | |- keeps _ _ _ (first_seen _ _) _ => apply keep_first_seen
  | |- keeps _ _ _ (skip ≫= _) _ =>
      eapply keeps_bind; [now apply (keeps_skip _ _ _ (fun _ => True)) | intros _ _]
  | |- keeps _ _ _ ((match ?x with _ => _ end) ≫= _) _ => destruct x eqn:?
  | |- keeps _ _ _ (_ ≫= _) _ => eapply keeps_bind; [solve [eauto with engine] | intros ? ?]
  | |- keeps _ _ _ skip _ => now apply keeps_skip
    | |- keeps _ _ _ (match ?x with _ => _ end) _ => destruct x eqn:?
  | |- keeps _ _ _ _ _ => solve [eauto with engine]
  end.

Lemma keep_originate h mt pl : keep h (originate mt pl).
Proof. unfold originate. walk. Qed.

#[local] Hint Resolve keep_originate : engine.

Lemma keep_gateway_submit h env id : keep h (gateway_submit env id).
Proof.
  unfold gateway_submit. walk. eapply keeps_bind; [apply (cl_submit CL)|]. intros [[r|e|]|] Hr; walk.
  apply keeps_panic. destruct HG as [?|HT]; [assumption|]. destruct (Hr _ eq_refl) as [g Hg].
  now apply submit_total in Hg.
Qed.

#[local] Hint Resolve keep_gateway_submit : engine.

Lemma keep_tx h p src : rel p src -> bytes_ok (Packet.payload p) -> keep h (handle_tx p src).
Proof.
  intros Hp Hb. unfold handle_tx. walk.
  eapply keeps_bind.
  { apply keeps_decoded. intros E. now apply (proj1 (decode_envelope_sound _ Hb)) in E. }
  intros env _. eapply keeps_bind; [apply keeps_gets|]. walk.
Qed.

Lemma keep_receipt h p src : rel p src -> keep h (handle_receipt p src).
Proof.
  intros Hp. unfold handle_receipt. walk.
  eapply keeps_bind; [apply keeps_decoded; intros E; now apply decode_receipt_total in E|].
  intros [[[id st]|]|] _; walk; auto.
  - eapply keeps_bind; [|intros _ _; walk]. eapply keeps_bind; [apply (cl_settle CL)|intros _ _].
    eapply keeps_bind; [apply (keeps_modify _ _ _ _ (fun _ => True)); [exact I | apply (cl_clear CL)]|].
    intros _ _. apply (keeps_modify _ _ _ _ (fun _ => True)); [exact I | apply (cl_ack CL)].
Qed.

Lemma keep_local_tx h wire : keep h (flood_local_tx wire).
Proof.
  unfold flood_local_tx. walk. eapply keeps_bind; [apply keeps_gets|]. intros n _.
  eapply keeps_bind; [apply keeps_decoded; intros E; now apply encode_envelope_no_panic in E|].
  intros [pl|] _; walk. eapply keeps_bind; [|intros _ _; eapply (cl_flood CL); eauto].
  apply (keeps_modify _ _ _ _ (fun _ => True)); [exact I|]. intros n' Hn'. eapply (cl_pend CL); eauto.
Qed.

Lemma keep_set {B} h (f : B -> Nd -> Nd) v :
  (forall n, J h n -> J h (f v n)) -> keep h (modify (f v)).
Proof. now apply (keeps_modify _ _ _ _ (fun _ => True)). Qed.

Lemma keep_emit_beacon h : keep h emit_head_beacon.
Proof.
  unfold emit_head_beacon. eapply keeps_bind; [apply keeps_gets|]. intros n _.
  destruct (c_gateway (n_ctx n)) as [g|]; [|walk]. eapply keeps_bind; [apply keep_now|]. intros now _.
  destruct (beacon_due _ _) as [due sched].
  eapply keeps_bind; [apply keep_set, (cl_beacon CL)|]. intros _ _. destruct due; cbn [negb]; [|walk].
  destruct (head_beacon g) as [g' r] eqn:Eg.
  destruct (select_beacon _ _ _) as [[[b last] backoff] called].
  apply (keeps_bind _ _ _ _ _ (fun _ => True)).
  { destruct called; [apply keep_set, (cl_gateway CL) | now apply keeps_skip]. }
  intros _ _.
  destruct (called && _) eqn:Ep.
  { apply keeps_panic. destruct HG as [?|HT]; [assumption|]. destruct r; rewrite ?andb_false_r in Ep; try discriminate.
    pose proof (beacon_total g) as H. rewrite Eg in H. now destruct H. }
  eapply keeps_bind; [apply keep_set, (cl_last CL)|]. intros _ _.
  eapply keeps_bind; [apply keep_set, (cl_backoff CL)|]. intros _ _. walk.
Qed.

Lemma keep_head_beacon h p src : rel p src -> keep h (handle_head_beacon p src).
Proof.
  intros Hp. unfold handle_head_beacon. walk.
  eapply keeps_bind; [apply keeps_decoded; intros E; now apply decode_beacon_total in E|]. walk.
Qed.

Lemma keep_user_friendly h a :
  array_ok 20 a -> keeps may_panic J h (user_friendly a) (fun _ => True).
Proof.
  intros Ha. unfold user_friendly. destruct (user_friendly_roundtrip a Ha) as (s & -> & _).
  now apply keeps_ret.
Qed.

Lemma keep_answer_balance h a : array_ok 20 a -> keep h (answer_balance a).
Proof.
  intros Ha. unfold answer_balance. eapply keeps_bind; [now apply keep_user_friendly|]. intros s _.
  eapply keeps_bind; [apply keep_answer; destruct HG as [?|HT]; [now left | right; intros; apply balance_total]|].
  walk.
Qed.

Lemma keep_answer_history h a : array_ok 20 a -> keep h (answer_history a).
Proof.
  intros Ha. unfold answer_history. eapply keeps_bind; [now apply keep_user_friendly|]. intros s _.
  eapply keeps_bind; [apply keep_answer; destruct HG as [?|HT]; [now left | right; intros; apply history_total]|].
  intros [r|] _; walk. eapply keeps_bind; [apply keeps_gets|]. intros sender _.
  eapply keeps_bind; [|walk]. apply keeps_for_each. walk.
Qed.

Lemma query_address b a : bytes_ok b -> decode_balance_query b = Some a -> array_ok 20 a.
Proof. unfold decode_balance_query. intros Hb. destruct (Z.eqb_spec (len b) BALANCE_QUERY_LEN); [|discriminate]. now intros [= <-]. Qed.

#[local] Hint Resolve query_address keep_answer_balance keep_answer_history : engine.

Lemma keep_balance_query h p src :
  rel p src -> bytes_ok (Packet.payload p) -> keep h (handle_balance_query p src).
Proof.
  intros Hp Hb. unfold handle_balance_query. walk.
Qed.

Lemma keep_balance_response h p src : rel p src -> keep h (handle_balance_response p src).
Proof.
  intros Hp. unfold handle_balance_response. walk.
  eapply keeps_bind; [apply keeps_decoded; intros E; now apply decode_balance_total in E|]. walk.
Qed.

Lemma keep_history_query h p src :
  rel p src -> bytes_ok (Packet.payload p) -> keep h (handle_history_query p src).
Proof.
  intros Hp Hb. unfold handle_history_query. walk.
Qed.

Lemma keep_history_response h p src :
  rel p src -> bytes_ok (Packet.payload p) -> keep h (handle_history_response p src).
Proof.
  intros Hp Hb. unfold handle_history_response. walk.
  eapply keeps_bind; [apply keeps_decoded; intros E; now apply decode_history_total in E|]. walk.
Qed.

Lemma keep_chat h p src : rel p src -> bytes_ok (Packet.payload p) -> keep h (handle_chat_packet p src).
Proof.
  intros Hp Hb. unfold handle_chat_packet. walk.
  eapply keeps_bind.
  { apply keeps_decoded. intros E. pose proof (decode_chat_spec _ Hb) as Hs. rewrite E in Hs. contradiction. }
  intros o _. eapply keeps_bind; [apply keeps_gets|]. intros n _. walk.
Qed.

Lemma keep_local_chat h pl : bytes_ok pl -> keep h (flood_local_chat pl).
Proof.
  intros Hb. unfold flood_local_chat. eapply keeps_bind; [|walk].
  apply keeps_decoded. intros E. pose proof (decode_chat_spec _ Hb) as Hs. rewrite E in Hs. contradiction.
Qed.

Lemma keep_swap_step h e : swap_payload_ok e -> keep h (swap_step e).
Proof.
  intros Hb. unfold swap_step. apply keeps_this. intros n Hn. pose proof (node_apply_total (t_swap (n_state n)) e Hb) as Ht.
  destruct (node_apply (t_swap (n_state n)) e) as [w [replies|[]|]] eqn:E; [|now contradict Ht].
  assert (Hk : keep h (for_each replies (fun '(mt, pl) => originate mt pl))).
  { apply keeps_for_each. intros [mt pl] _. apply keep_originate. }
  apply (Hk (set_swap w n)). replace w with (node_apply (t_swap (n_state n)) e).1 by now rewrite E.
  now apply (cl_swap CL).
Qed.

Lemma keep_participant h : keep h participant.
Proof. apply keeps_gets. Qed.

Lemma keep_stale h p head : bytes_ok (Packet.payload p) -> keep h (stale_intent p head).
Proof.
  intros Hb. unfold stale_intent. destruct (msg_type p); try now apply keeps_ret.
  eapply keeps_bind; [|intros; now apply keeps_ret].
  apply keeps_decoded. intros E. pose proof (decode_intent_spec _ Hb) as Hs. rewrite E in Hs. contradiction.
Qed.

#[local] Hint Resolve keep_swap_step keep_participant keep_stale : engine.

Lemma keep_swap_packet h p src :
  rel p src -> bytes_ok (Packet.payload p) -> keep h (handle_swap_packet p src).
Proof. intros Hp Hb. unfold handle_swap_packet. walk. Qed.

Lemma keep_gc_tick h : keep h gc_tick_job.
Proof. unfold gc_tick_job. walk. Qed.

Lemma keep_fast_tick h : keep h fast_tick_job.
Proof. unfold fast_tick_job. walk. Qed.

Lemma keep_request_sync h p src : rel p src -> msg_type p = MtRequestSync -> keep h (handle_request_sync p src).
Proof.
  intros Hp Ht. unfold handle_request_sync. destruct src as [src|]; [|walk].
  destruct (gcs_from_bytes _); [|walk]. now apply (cl_missing CL h p).
Qed.

Lemma keep_emit_sync h : keep h emit_request_sync.
Proof. unfold emit_request_sync. walk. apply keep_flood_packet. now apply (cl_own_ttl0 CL). Qed.

#[local] Hint Resolve keep_gc_tick keep_fast_tick keep_request_sync keep_emit_sync : engine.

Lemma keep_maintenance h : keep h maintenance_tick.
Proof.
  unfold maintenance_tick. eapply keeps_bind; [apply keep_now|]. intros now _.
  eapply keeps_bind; [apply keeps_gets|]. intros n _. destruct (sync_due _ _) as [due s].
  eapply keeps_bind; [apply keep_set, (cl_sync CL)|]. intros _ _. walk.
Qed.

(** ** Dispatch *)

Abbreviation upto h m := (tri may_panic J (J h) m (fun _ n => exists h', J h' n)).

Lemma keep_upto {A} h (m : Mo A) : keep h m -> upto h m.
Proof. intros H. eapply tri_post; [exact H|]. intros a n [_ Hn]. eauto. Qed.

Lemma upto_bind {A} h (m : Mo A) (Q : A -> Prop) (k : A -> Mo unit) :
  keeps may_panic J h m Q -> (forall a, Q a -> upto h (k a)) -> upto h (m ≫= k).
Proof. intros Hm Hk. eapply tri_bind; [exact Hm|]. intros a n [Ha Hn]. exact (Hk a Ha n Hn). Qed.

Lemma keep_fragment h p src (dispatch : Packet -> Mo unit) :
  rel p src -> bytes_ok (Packet.payload p) ->
  (forall h' q, rel q None -> bytes_ok (Packet.payload q) -> 0 <= h' ->
     h' + len (Packet.payload q) < h + len (Packet.payload p) -> upto h' (dispatch q)) ->
  upto h (handle_fragment dispatch p src).
Proof.
  intros Hp Hb Hd. unfold handle_fragment, first_seen.
  eapply upto_bind; [apply (cl_seen CL)|]. intros [] _; cbn [negb]; [|apply keep_upto; walk].
  eapply upto_bind; [eapply (cl_keep CL); eauto|]. intros _ _.
  eapply upto_bind; [apply keeps_decoded; intros E; now apply parse_fragment_total in E|]. intros o Ho.
  eapply upto_bind; [apply keep_now|]. intros now _.
  eapply upto_bind; [eapply (cl_relay CL); eauto|]. intros _ _.
  destruct o as [[f|]|]; [|apply keep_upto; walk..]. specialize (Ho _ eq_refl).
  destruct (parse_fragment_chunk _ _ Hb Ho) as [Hc Hl].
  eapply tri_bind; [apply (cl_accept CL h f now Hc)|]. intros [[ty pl]|]; [|apply keep_upto; walk].
  intros n (Hpl & Hle & Hn). destruct (mt_from_u8 ty) as [mt|]; [|cbn; eauto].
  assert (Hgo : upto (h + len (f_chunk f) - len pl)
    (now0 ← now_ms; let q := packet_new mt (replicate 8 0) pl in
     dispatch (mkPacket (version q) mt 0 now0 (flags q) (Packet.sender_id q) None pl None))).
  { eapply upto_bind; [apply keep_now|]. intros now' _. apply Hd; cbn; auto; [|lia|].
    - now apply (cl_zero CL).
    - unfold FRAGMENT_HEADER_LEN, FRAGMENT_ID_LEN in Hl. lia. }
  exact (Hgo n Hn).
Qed.

(** Enough fuel: the bytes held and the bytes of the payload. *)
Lemma keep_dispatch_packet fuel : forall h p src,
  rel p src -> bytes_ok (Packet.payload p) -> 0 <= h -> h + len (Packet.payload p) < Z.of_nat fuel ->
  upto h (dispatch_packet fuel p src).
Proof.
  induction fuel as [|fuel IH]; intros h p src Hp Hb Hh Hf;
    [pose proof (len_nonneg (Packet.payload p)); lia|].
  cbn [dispatch_packet]. destruct (msg_type p);
    try (apply keep_upto; eauto using keep_tx, keep_receipt, keep_head_beacon, keep_balance_query,
           keep_balance_response, keep_history_query, keep_history_response, keep_swap_packet, keep_chat; fail);
    try (apply keep_upto; walk; fail).
  apply keep_fragment; auto. intros h' q Hq Hqb Hh' Hlt. apply IH; auto. lia.
Qed.

Lemma keep_dispatch h p src : rel p src -> bytes_ok (Packet.payload p) -> upto h (dispatch p src).
Proof.
  intros Hp Hb n Hn. unfold dispatch, this, gets, mbind, M_bind.
  pose proof (held_nonneg (t_reassembler (n_state n))). pose proof (len_nonneg (Packet.payload p)).
  apply (keep_dispatch_packet (dispatch_fuel n p) (held (t_reassembler (n_state n)))); auto.
  - unfold dispatch_fuel. lia.
  - now apply (cl_held CL h).
Qed.

(** What a job brings with it: frames are bytes, and the packet a frame decodes to
    is one the relay clause covers. *)
Definition job_ok (j : Job) : Prop :=
  match j with
  | Inbound src frame =>
      bytes_ok frame /\ forall p, decode frame = Ok p -> is_rsr (flags p) = false -> rel p src
  | ChatJob pl => bytes_ok pl
  | _ => True
  end.

Lemma keep_inbound h src frame : job_ok (Inbound src frame) -> upto h (process_inbound src frame).
Proof.
  intros [Hb Hrel]. unfold process_inbound.
  eapply upto_bind; [apply (cl_rate CL)|]. intros [] _; cbn [negb]; [|apply keep_upto; walk].
  eapply upto_bind; [apply keeps_decoded; intros E; now apply decode_no_panic in E|]. intros [p|] Hd;
    [|apply keep_upto; walk].
  specialize (Hd _ eq_refl). destruct (decode_inv _ _ Hb Hd) as (Hp & Hv & _).
  pose proof (pk_payload _ Hp) as Hpl. destruct (is_rsr (flags p)) eqn:Er.
  - eapply upto_bind; [apply (cl_bump CL)|]. intros _ _. apply keep_dispatch; [now apply (cl_zero CL) | exact Hpl].
  - destruct (decide _); [apply keep_upto; eauto with engine|]. apply keep_dispatch; auto.
Qed.

Lemma upto_then {A} h (m : Mo A) (k : A -> Mo unit) :
  upto h m -> (forall h' a, keep h' (k a)) -> upto h (m ≫= k).
Proof.
  intros Hm Hk. eapply tri_bind; [exact Hm|]. intros a n [h' Hn].
  exact (keep_upto h' (k a) (Hk h' a) n Hn).
Qed.

Lemma keep_job h j : job_ok j -> upto h (run_job j).
Proof.
  destruct j as [src frame| | | | | | | | | |]; intros Hj; cbn [run_job];
    [eapply upto_then; [now apply keep_inbound | intros; apply keep_fast_tick]|..];
    apply keep_upto; unfold flood_local_balance_query, flood_local_history_query, stop_advertising_job;
    eauto using keep_local_tx, keep_local_chat with engine;
    repeat (eapply keeps_bind; [eauto using keep_maintenance, keep_emit_beacon with engine | intros _ _]);
    eauto with engine.
Qed.

(** A job keeps a closed predicate, whether it returns or panics; and it returns
    when panics are ruled out. *)
Lemma job_keeps h j n :
  job_ok j -> J h n ->
  (exists h', J h' (catch (run_job j) n)) /\ (~ may_panic -> (run_job j n).2 = Some tt).
Proof.
  intros Hj Hn. pose proof (keep_job h j Hj n Hn) as H. unfold catch.
  destruct (run_job j n) as [n' [[]|]]; simpl; [split; [exact H | reflexivity]|].
  destruct H as [Hp Hh]. split; [exact Hh | contradiction].
Qed.
End jobs.

(** ** The primitive actions on the state *)

(** The frames of a flood, in the order they are handed to the radio. *)
Definition sends (frame : bytes) (exclude : option string) (peers : gset string) : list Effect :=
  map (fun p => Send p frame) (filter (fun p => Some p <> exclude) (elements peers)).

Definition with_log (n : Nd) (es : list Effect) : Nd := mkNode (n_ctx n) (n_state n) (n_reads n) es.

Definition log_more (es : list Effect) (n : Nd) : Nd := with_log n (n_log n ++ es).

Lemma flood_spec frame ex (n : Nd) :
  exists cnt, flood_excluding frame ex n
    = (set_counters cnt (log_more (sends frame ex (c_peers (n_ctx n))) n), Some tt).
Proof.
  unfold flood_excluding, gets, mbind, M_bind, sends.
  generalize (elements (c_peers (n_ctx n))) as l. intros l. revert n.
  induction l as [|peer l IH]; intros n.
  - exists (c_counters (n_ctx n)). unfold log_more, with_log, set_counters, with_ctx. simpl.
    rewrite app_nil_r. now destruct n as [[] ? ? ?].
  - cbn [for_each]. unfold mbind, M_bind. rewrite filter_cons.
    destruct (decide (Some peer = ex)) as [Hex|Hne].
    + destruct (decide (Some peer <> ex)) as [?|_]; [contradiction|]. apply IH.
    + destruct (decide (Some peer <> ex)) as [_|?]; [|contradiction].
      specialize (IH (emit (Send peer frame)
        (set_counters (fun k => if decide (k = SendAttempts) then wrapN 64 (c_counters (n_ctx n) k + 1)
                                else c_counters (n_ctx n) k) n))).
      destruct IH as [cnt IH]. exists cnt. etransitivity; [exact IH|]. f_equal.
      unfold log_more, with_log, set_counters, with_ctx, emit.
      cbn. rewrite <- app_assoc. reflexivity.
Qed.

Lemma remember_spec p (n : Nd) :
  exists cnt, remember p n
    = (set_counters cnt (set_recent (recent_insert (t_recent (n_state n)) (packet_id p) p (clock (n_reads n))).1
         (tick_clock n)), Some tt).
Proof.
  unfold remember, now_ms, this, gets, modify, mbind, M_bind, mret, M_ret. cbn.
  destruct (recent_insert _ _ _ _) as [rc []]; cbn.
  - eexists. reflexivity.
  - exists (c_counters (n_ctx n)). now destruct n as [[] ? ? ?].
Qed.

(** What relaying a packet does: it draws from the policy, counts, and sends the
    copy with the lowered TTL, or nothing. *)
Lemma relay_spec p src (n : Nd) :
  exists cnt cz pol es,
    relay_onward p src n = (set_counters cnt (set_citizen cz (set_policy pol (log_more es n))), Some tt)
    /\ (es = [] \/ exists t f, relayed_ttl (ttl p) = Some t /\ encode (with_ttl p t) = Ok f
                             /\ es = sends f src (c_peers (n_ctx n))).
Proof.
  unfold relay_onward, allowed, peer_degree, this, gets, modify, mbind, M_bind, mret, M_ret, bump. cbn.
  assert (Hnone : forall pol, exists cnt cz pol' es, (set_policy pol n, Some tt)
            = (set_counters cnt (set_citizen cz (set_policy pol' (log_more es n))), Some tt) /\ es = []).
  { intros pol. exists (c_counters (n_ctx n)), (c_citizen (n_ctx n)), pol, []. split; [|reflexivity].
    unfold log_more, with_log. rewrite app_nil_r. now destruct n as [[] [] ? ?]. }
  destruct (relay_allowed _ _ _ _) as [[] pol]; cbn;
    [|destruct (Hnone pol) as (?&?&?&?&H&?); eauto 8].
  destruct (relayed_ttl (ttl p)) as [t|] eqn:Et;
    [|destruct (Hnone pol) as (?&?&?&?&H&?); eauto 8].
  destruct (encode (with_ttl p t)) as [f|e|] eqn:Ef; cbn.
  - match goal with |- context [flood_excluding f src ?m] => destruct (flood_spec f src m) as [cnt ->] end.
    do 3 eexists. exists (sends f src (c_peers (n_ctx n))). split; [|eauto 6]. reflexivity.
  - destruct (Hnone (apply_jitter pol)) as (cnt&cz&pol'&es&H&He).
    exists cnt, cz, pol', es. split; [|now left]. exact H.
  - now apply encode_no_panic in Ef.
Qed.

(** The packet [build_packet] makes. *)
Definition built (mt : MessageType) (pl : bytes) (n : Nd) : Packet :=
  mkPacket VERSION mt DEFAULT_TTL (c_seq (n_ctx n)) flags_default (c_sender_id (n_ctx n))
    (Some BROADCAST_RECIPIENT) pl None.

(** A predicate stable under each update the actions are made of. *)
Record stable (own : Packet -> Prop) (rel : Packet -> option string -> Prop) (J : Z -> Nd -> Prop) : Prop := {
  st_mono : forall h h' n, h <= h' -> J h n -> J h' n;
  st_held : forall h n, J h n -> J (held (t_reassembler (n_state n))) n;
  st_zero : forall p, ttl p = 0 -> version p = VERSION -> rel p None;
  st_own : forall h mt pl n, J h n -> own (built mt pl n);
  st_own_ttl0 : forall p, own p -> own (with_ttl p 0);
  st_clock : forall h n, J h n -> J h (tick_clock n);
  st_counters : forall h v n, J h n -> J h (set_counters v n);
  st_policy : forall h v n, J h n -> J h (set_policy v n);
  st_citizen : forall h v n, J h n -> J h (set_citizen v n);
  st_seq : forall h v n, J h n -> J h (set_seq v n);
  st_gateway : forall h g n, J h n -> J h (set_gateway (Some g) n);
  st_beacon : forall h v n, J h n -> J h (set_beacon v n);
  st_last : forall h v n, J h n -> J h (set_last_beacon v n);
  st_backoff : forall h v n, J h n -> J h (set_beacon_rpc_backoff v n);
  st_sync : forall h v n, J h n -> J h (set_sync v n);
  st_seen : forall h k n, J h n -> J h (set_relay_seen (dedup_insert (t_relay_seen (n_state n)) k).1 n);
  st_head : forall h b n, J h n -> J h (set_head (head_accept (c_head (n_ctx n)) b).1 n);
  st_balance : forall h r n, J h n -> J h (set_balances (balance_observe (c_balances (n_ctx n)) r).1 n);
  st_history : forall h r n, J h n ->
    J h (set_history (history_observe (c_history (n_ctx n)) r (wire_id (c_network (n_ctx n)))).1 n);
  st_chat : forall h e n, J h n -> J h (set_chat (chat_push (c_chat (n_ctx n)) e) n);
  st_record : forall h id d n, J h n -> J h (set_ledger (ledger_record (c_ledger (n_ctx n)) id d) n);
  st_settle : forall h id x n, J h n -> J h (set_ledger (ledger_settle (c_ledger (n_ctx n)) id x) n);
  st_clear : forall h id n, J h n -> J h (set_pending (pending_clear (t_pending (n_state n)) id) n);
  st_ack : forall h id n, J h n -> J h (set_acked (dedup_insert (t_acked (n_state n)) id).1 n);
  st_pend : forall h p f id vu now d n, own p -> encode p = Ok f -> J h n ->
    J h (set_pending (pending_remember (t_pending (n_state n)) id f vu now d) n);
  st_swap : forall h e n, J h n -> J h (set_swap (node_apply (t_swap (n_state n)) e).1 n);
  st_send_own : forall h p f n, own p -> encode p = Ok f -> J h n ->
    J h (log_more (sends f None (c_peers (n_ctx n))) n);
  st_send_rel : forall h p src t f n, rel p src -> relayed_ttl (ttl p) = Some t ->
    encode (with_ttl p t) = Ok f -> J h n -> J h (log_more (sends f src (c_peers (n_ctx n))) n);
  st_keep : forall h p n, own p \/ (exists src, rel p src) -> J h n ->
    J h (set_recent (recent_insert (t_recent (n_state n)) (packet_id p) p (clock (n_reads n))).1 (tick_clock n));
  st_filter : forall h n, J h n ->
    J h (set_recent (build_filter (t_recent (n_state n)) (clock (n_reads n))).2 (tick_clock n));
  st_missing : forall h f n, J h n ->
    J h (set_recent (missing (t_recent (n_state n)) f (clock (n_reads n))).2 (tick_clock n))
    /\ forall m p src frame n', rel p (Some src) -> msg_type p = MtRequestSync -> m ∈ (missing (t_recent (n_state n)) f (clock (n_reads n))).1 ->
       encode (with_rsr m true) = Ok frame -> J h n' -> J h (log_more [Send src frame] n');
  st_rate : forall h peer n, J h n ->
    J h (set_limiter (limiter_allow (t_limiter (n_state n)) peer (clock (n_reads n))).2 (tick_clock n));
  st_retry : forall h head now peers n p l out, J h n ->
    pending_tick (t_pending (n_state n)) (c_ledger (n_ctx n)) head now peers = (p, l, out) ->
    J h (set_ledger l (set_pending p n))
    /\ forall f n', f ∈ out -> J h n' -> J h (log_more (sends f None (c_peers (n_ctx n'))) n');
  st_claim : forall h sub n, J h n ->
    let '(d, fresh) := dedup_insert (t_gateway_seen (n_state n)) (su_tx_id sub) in
    J h (log_more (if fresh then [Submit sub] else []) (set_gateway_seen d n));
  st_accept : forall h f now n, bytes_ok (f_chunk f) -> J h n ->
    let '(r, out) := reassembler_accept (t_reassembler (n_state n)) f now in
    match out with
    | None => J (h + len (f_chunk f)) (set_reassembler r n)
    | Some (_, pl) => bytes_ok pl /\ len pl <= h + len (f_chunk f)
        /\ J (h + len (f_chunk f) - len pl) (set_reassembler r n)
    end
}.

Section stable.
Context (may_panic : Prop) (own : Packet -> Prop) (rel : Packet -> option string -> Prop)
  (J : Z -> Nd -> Prop) (ST : stable own rel J).

Lemma log_more_nil (n : Nd) : log_more [] n = n.
Proof. unfold log_more, with_log. rewrite app_nil_r. now destruct n. Qed.

Lemma stable_flood h f (ex : option string) :
  (forall n, J h n -> J h (log_more (sends f ex (c_peers (n_ctx n))) n)) ->
  keeps may_panic J h (flood_excluding f ex) (fun _ => True).
Proof.
  intros H n Hn. destruct (flood_spec f ex n) as [cnt ->]. split; [exact I|].
  now apply (st_counters _ _ _ ST), H.
Qed.

Lemma stable_remember h p :
  own p \/ (exists src, rel p src) -> keeps may_panic J h (remember p) (fun _ => True).
Proof.
  intros H n Hn. destruct (remember_spec p n) as [cnt ->]. split; [exact I|].
  now apply (st_counters _ _ _ ST), (st_keep _ _ _ ST).
Qed.

Lemma stable_relay h p src : rel p src -> keeps may_panic J h (relay_onward p src) (fun _ => True).
Proof.
  intros Hp n Hn. destruct (relay_spec p src n) as (cnt & cz & pol & es & -> & Hes). split; [exact I|].
  apply (st_counters _ _ _ ST), (st_citizen _ _ _ ST), (st_policy _ _ _ ST).
  destruct Hes as [->|(t & f & Ht & Hf & ->)]; [now rewrite log_more_nil|].
  eapply (st_send_rel _ _ _ ST); eauto.
Qed.

Lemma stable_missing h p src f :
  rel p (Some src) -> msg_type p = MtRequestSync ->
  keeps may_panic J h (ms ← take_missing f; for_each ms (reply_rsr src)) (fun _ => True).
Proof.
  intros Hp Ht n Hn. unfold take_missing, now_ms, this, gets, modify, mbind, M_bind, mret, M_ret.
  change (t_recent (n_state (tick_clock n))) with (t_recent (n_state n)).
  destruct (st_missing _ _ _ ST h f n Hn) as [Hn' Hs].
  destruct (missing _ f _) as [ms rc]. cbn [fst snd] in *.
  assert (Hk : keeps may_panic J h (for_each ms (reply_rsr src)) (fun _ => True)); [|exact (Hk _ Hn')].
  apply keeps_for_each. intros m Hm. unfold reply_rsr.
  eapply keeps_bind; [apply keeps_decoded; intros E; now apply encode_no_panic in E|].
  intros [frame|] He; [|now apply keeps_skip]. specialize (He _ eq_refl).
  intros n' Hn''. split; [exact I|]. apply (st_counters _ _ _ ST).
  apply (Hs m p src frame); auto. now apply (st_counters _ _ _ ST).
Qed.

Lemma stable_rate h src : keeps may_panic J h (rate_ok src) (fun _ => True).
Proof.
  destruct src as [peer|]; [|now apply keeps_ret]. intros n Hn.
  unfold rate_ok, now_ms, this, gets, modify, mbind, M_bind, mret, M_ret.
  change (t_limiter (n_state (tick_clock n))) with (t_limiter (n_state n)).
  pose proof (st_rate _ _ _ ST h peer n Hn) as H. destruct (limiter_allow _ _ _). split; [exact I | exact H].
Qed.

Lemma stable_retry h : keeps may_panic J h pending_retry_tick (fun _ => True).
Proof.
  unfold pending_retry_tick. eapply (keeps_bind _ _ _ _ _ (fun _ => True)).
  { intros n Hn. split; [exact I | now apply (st_clock _ _ _ ST)]. }
  intros now _. eapply keeps_bind; [apply keeps_gets|]. intros head _.
  eapply keeps_bind; [apply keeps_gets|]. intros degree _. apply keeps_this. intros n Hn.
  destruct (pending_tick _ _ _ _ _) as [[p l] out] eqn:E.
  destruct (st_retry _ _ _ ST h _ _ _ n p l out Hn E) as [Hn' Hs].
  assert (Hk : keeps may_panic J h (for_each out flood) (fun _ => True)); [|exact (Hk _ Hn')].
  apply keeps_for_each. intros f Hf. apply stable_flood. intros n' Hn''. now apply Hs.
Qed.

Lemma stable_submit h sub :
  keeps may_panic J h (submit_new sub) (fun o => forall a, o = Some a -> exists g, (submit_validated g sub).2 = a).
Proof.
  intros n Hn. unfold submit_new, submit_call, claim_submission, ask_gateway, this, gets, modify, mbind, M_bind, mret, M_ret.
  pose proof (st_claim _ _ _ ST h sub n Hn) as H. destruct (dedup_insert _ _) as [d []]; cbn in *.
  - destruct (c_gateway (n_ctx n)) as [g|]; [|split; [discriminate | exact H]].
    destruct (submit_validated g sub) as [g' a] eqn:E. split; [|now apply (st_gateway _ _ _ ST)].
    intros a' [= <-]. exists g. now rewrite E.
  - split; [discriminate|]. now rewrite log_more_nil in H.
Qed.

Lemma stable_accept h f now :
  bytes_ok (f_chunk f) ->
  tri may_panic J (J h) (accept_fragment f now) (fun o n =>
    match o with
    | None => J (h + len (f_chunk f)) n
    | Some (_, pl) => bytes_ok pl /\ len pl <= h + len (f_chunk f) /\ J (h + len (f_chunk f) - len pl) n
    end).
Proof.
  intros Hf n Hn. pose proof (st_accept _ _ _ ST h f now n Hf Hn) as H.
  unfold accept_fragment, this, gets, modify, mbind, M_bind, mret, M_ret.
  destruct (reassembler_accept _ _ _) as [r out]. exact H.
Qed.

Theorem stable_closed : closed may_panic own rel J.
Proof.
  constructor; intros; try (destruct ST; eauto; fail);
    try (intros n0 Hn; split; [exact I | destruct ST; auto]; fail).
  - intros n Hn. pose proof (st_seen _ _ _ ST h k n Hn) as H.
    unfold mark_seen, this, gets, modify, mbind, M_bind, mret, M_ret.
    destruct (dedup_insert _ _). split; [exact I | exact H].
  - intros n Hn. split; [apply (st_own _ _ _ ST h mt pl n Hn) | now apply (st_seq _ _ _ ST)].
  - apply stable_flood. intros n Hn. eapply (st_send_own _ _ _ ST); eauto.
  - apply stable_remember. now left.
  - apply stable_remember. eauto.
  - now apply stable_relay.
  - apply stable_retry.
  - apply stable_submit.
  - intros n Hn. pose proof (st_filter _ _ _ ST h n Hn) as H.
    unfold take_filter, now_ms, this, gets, modify, mbind, M_bind, mret, M_ret.
    change (t_recent (n_state (tick_clock n))) with (t_recent (n_state n)).
    destruct (build_filter _ _). split; [exact I | exact H].
  - eapply stable_missing; eauto.
  - apply stable_rate.
  - now apply stable_accept.
Qed.
End stable.
End logic.
