(* ===== verification/EngineProps.v ===== *)
(** * EngineProps: what a mesh node guarantees

    Each property is an instance of the logic of [EngineLogic]: a predicate that is
    stable under the primitive updates holds after any run.  A run is any sequence
    of jobs, with any bytes off the radio, and of callbacks between them. *)

From stdpp Require Import base list gmap strings.
From Stdlib Require Import ZArith Lia.
From S2P Require Import Prelude Packet Codec Envelope SwapWire SwapIntent Crypto FundingVerify SwapCoordinator SwapSession SwapNode Dedup Fragment Gcs Relay StoreForward Beacon Settlement Balance Chat Address NimTx Gateway Engine EngineLogic.
Open Scope Z_scope.

Lemma recent_filter_ok c now : recent_ok c now -> recent_ok (build_filter c now).2 now.
Proof. apply recent_gc_ok. Qed.

Lemma recent_missing_ok c f now : recent_ok c now -> recent_ok (missing c f now).2 now.
Proof. apply recent_gc_ok. Qed.

Lemma dedup_insert_cap {K} `{Countable K} (c : DedupCache (K := K)) k :
  dc_capacity (dedup_insert c k).1 = dc_capacity c.
Proof. unfold dedup_insert. repeat case_goal; reflexivity. Qed.

Lemma chat_push_len l e : len l <= CHAT_LOG_CAP -> len (chat_push l e) <= CHAT_LOG_CAP.
Proof.
  intros H. rewrite chat_push_spec. destruct (decide _); [exact H|].
  unfold len, CHAT_LOG_CAP in *. rewrite length_drop, length_app. simpl. lia.
Qed.

Lemma Forall_filter {A} (P Q : A -> Prop) `{forall x, Decision (Q x)} l :
  Forall P l -> Forall P (filter Q l).
Proof. rewrite !Forall_forall. intros H' x [_ Hx]%list_elem_of_filter. auto. Qed.

Section node.
Context {C : Crypto} {V : Type} {FV : FundingVerifier V} {S : Type} {SG : SwapSigner S}
  {R : Type} {RR : RelayRng R} {G : Type} {MG : MeshGateway G} {CK : Clock}.

Abbreviation Nd := (@Node V S R G).

(** A dedup cache in order, of its capacity. *)
Definition cache_ok {K} `{Countable K} (cap : Z) (c : DedupCache (K := K)) : Prop :=
  dedup_ok c /\ dc_capacity c = cap.

Lemma cache_insert_ok {K} `{Countable K} cap (c : DedupCache (K := K)) k :
  cache_ok cap c -> cache_ok cap (dedup_insert c k).1.
Proof. intros [Ho Hc]. split; [now apply dedup_insert_ok | now rewrite dedup_insert_cap]. Qed.

Lemma cache_len {K} `{Countable K} cap (c : DedupCache (K := K)) : cache_ok cap c -> dedup_len c <= cap.
Proof.
  intros [[Hs Hn Hl _] <-]. unfold dedup_len. rewrite Hs, size_list_to_set by exact Hn. exact Hl.
Qed.

(** The tables of the worker, each within its bound, and the bytes in the
    reassembler are bytes. *)
Record state_ok (t : @WorkerState V S R) (now : Z) : Prop := {
  so_seen : cache_ok RELAY_CACHE_CAP (t_relay_seen t);
  so_gateway : cache_ok GATEWAY_CACHE_CAP (t_gateway_seen t);
  so_acked : cache_ok GATEWAY_CACHE_CAP (t_acked t);
  so_recent : recent_ok (t_recent t) now;
  so_flight : in_flight (t_reassembler t) <= MAX_IN_FLIGHT;
  so_chunks : chunks_ok (t_reassembler t);
  so_limiter : Z.of_nat (size (rl_buckets (t_limiter t))) <= MAX_TRACKED_PEERS;
  so_pending : pending_ok (t_pending t)
}.

Definition node_ok (n : Nd) : Prop :=
  state_ok (n_state n) (clock (n_reads n)) /\ len (c_chat (n_ctx n)) <= CHAT_LOG_CAP.

Definition bounded (h : Z) (n : Nd) : Prop := node_ok n /\ held (t_reassembler (n_state n)) <= h.

Lemma clock_later t i : state_ok t (clock i) -> state_ok t (clock (Datatypes.S i)).
Proof. intros []. constructor; auto. eapply recent_ok_later; [eassumption|]. apply clock_mono. lia. Qed.

(** Take the invariant apart, and close the parts an update left alone. *)
Ltac ok_parts :=
  intros; match goal with H : bounded _ _ |- _ => destruct H as [[[] ?] ?] end;
  split; [split; [constructor|]|]; try assumption.

Lemma recent_next rc i : recent_ok rc (clock i) -> recent_ok rc (clock (Datatypes.S i)).
Proof. intros H. eapply recent_ok_later; [exact H|]. apply clock_mono. lia. Qed.

Lemma bounded_stable : stable (fun _ => True) (fun _ _ => True) bounded.
Proof.
  constructor; try (intros; exact I); try (intros h v n H; exact H); try (intros h n H; exact H);
    try (intros; assumption); try (ok_parts; fail).
  - intros h h' n Hh [Hn Hl]. split; [exact Hn | lia].
  - intros h n [Hn _]. split; [exact Hn | reflexivity].
  - ok_parts. now apply recent_next.
  - ok_parts. now apply cache_insert_ok.
  - ok_parts. now apply chat_push_len.
  - ok_parts. now apply pending_clear_ok.
  - ok_parts. now apply cache_insert_ok.
  - ok_parts. now apply pending_remember_ok.
  - ok_parts. apply recent_next, recent_insert_ok; [assumption | apply clock_u64].
  - ok_parts. now apply recent_next, recent_filter_ok.
  - intros h f n Hn. split; [|intros; assumption]. ok_parts. now apply recent_next, recent_missing_ok.
  - ok_parts; [now apply recent_next | now apply allow_size].
  - intros h head now peers n p l out Hn E. split; [|intros; assumption].
    ok_parts. pose proof (pending_tick_ok (t_pending (n_state n)) (c_ledger (n_ctx n)) head now peers) as H'.
    rewrite E in H'. now apply H'.
  - intros h sub n Hn. destruct (dedup_insert _ _) as [d fresh] eqn:E. ok_parts.
    replace d with (dedup_insert (t_gateway_seen (n_state n)) (su_tx_id sub)).1 by now rewrite E.
    now apply cache_insert_ok.
  - intros h f now n Hf [[Hs Hc] Hl].
    pose proof (accept_held (t_reassembler (n_state n)) f now (so_chunks _ _ Hs) Hf) as Ha.
    pose proof (accept_size (t_reassembler (n_state n)) f now (so_flight _ _ Hs)) as Hz.
    destruct (reassembler_accept _ f now) as [r [[ty pl]|]]; destruct Ha as [Hr Ha]; cbn [fst] in Hz.
    + destruct Ha as [Hpl Hle]. pose proof (held_nonneg r). split_and!; [exact Hpl | lia|].
      destruct Hs. split; [split; [constructor|]|]; try assumption. cbn. lia.
    + destruct Hs. split; [split; [constructor|]|]; try assumption. cbn. lia.
Qed.

(** ** Runs *)

(** The bytes of a job are bytes. *)
Definition job_bytes (j : Job) : Prop :=
  match j with
  | Inbound _ frame => bytes_ok frame
  | ChatJob pl => bytes_ok pl
  | _ => True
  end.

Definition event_bytes (e : @Event V) : Prop := match e with EvJob j => job_bytes j | _ => True end.

Section runs.
Context (own : Packet -> Prop) (J : Z -> Nd -> Prop) (ST : stable own (fun _ _ => True) J)
  (Hpeers : forall h v n, J h n -> J h (set_peers v n)).

(** A predicate that is stable, and that peers coming and going keep, holds after
    any run. *)
Lemma event_keeps h e n : event_bytes e -> J h n -> exists h', J h' (apply_event n e).
Proof.
  intros He Hn. destruct e as [j|p|p|ok|id|lv ch|v]; cbn [apply_event].
  - apply (job_keeps True own _ J (stable_closed True _ _ _ ST) (or_introl I) h); [|exact Hn].
    destruct j; cbn in *; auto.
  - eauto.
  - eauto.
  - exists h. now apply (st_counters _ _ _ ST).
  - exists h. now apply (st_record _ _ _ ST).
  - exists h. now apply (st_citizen _ _ _ ST).
  - pose proof (keep_swap_step True _ _ J (stable_closed True _ _ _ ST) h (NeChain v) I n Hn) as H.
    unfold catch. destruct (swap_step _ n) as [n' [a|]]; [exists h; apply H | apply H].
Qed.

Lemma run_keeps es : forall h n, Forall event_bytes es -> J h n -> exists h', J h' (run_events n es).
Proof.
  induction es as [|e es IH]; intros h n Hes Hn; [eauto|]. inversion Hes; subst.
  destruct (event_keeps h e n) as [h' Hn']; auto. unfold run_events. cbn [foldl]. now apply (IH h').
Qed.
End runs.

Lemma node_new_ok sender gw policy verify swap signer network seq :
  bounded 0 (node_new sender gw policy verify swap signer network seq).
Proof.
  split; [split; [constructor|]|]; cbn;
    try (split; [apply dedup_new_ok | reflexivity]); try (vm_compute; congruence).
  - apply recent_new_ok.
  - constructor; [vm_compute; congruence | apply NoDup_nil_2].
Qed.

(** ** Submissions *)

(** The ids handed to the gateway, in order. *)
Definition submitted (log : list Effect) : list (list Z) :=
  omap (fun e => match e with Submit ctx => Some (su_tx_id ctx) | Send _ _ => None end) log.

Lemma submitted_sends log f ex peers : submitted (log ++ sends f ex peers) = submitted log.
Proof.
  unfold submitted, sends. rewrite omap_app. rewrite <- (app_nil_r (omap _ log)) at 2. f_equal.
  induction (filter _ _) as [|p l IH]; [reflexivity | exact IH].
Qed.

(** The cache of submitted ids holds the last [cap] of them, and equal ids are
    further apart than that. *)
Definition claims_ok (cap : nat) (order l : list (list Z)) : Prop :=
  order = drop (length l - cap) l
  /\ forall i j id, (i < j)%nat -> l !! i = Some id -> l !! j = Some id -> (cap < j - i)%nat.

Lemma claims_snoc cap order l id :
  (1 <= cap)%nat -> claims_ok cap order l -> id ∉ order ->
  claims_ok cap (drop (length order + 1 - cap) order ++ [id]) (l ++ [id]).
Proof.
  intros Hcap [-> Hd] Hid. split.
  - rewrite length_app, length_drop. cbn [length]. rewrite drop_drop, drop_app_le by lia. f_equal. f_equal. lia.
  - intros i j x Hij Hi Hj. apply lookup_app_Some in Hj as [Hj|[Hl Hj]].
    + rewrite lookup_app_l in Hi by (apply lookup_lt_Some in Hj; lia). eauto.
    + apply list_lookup_singleton_Some in Hj as [Hj0 <-].
      assert (j = length l) by lia. subst j.
      rewrite lookup_app_l in Hi by lia. destruct (decide (cap < length l - i)%nat) as [|Hge]; [assumption|].
      exfalso. apply Hid. apply list_elem_of_lookup. exists (i - (length l - cap))%nat.
      rewrite lookup_drop. rewrite <- Hi. f_equal. lia.
Qed.

Lemma window_nodup cap k (l : list (list Z)) :
  (forall i j id, (i < j)%nat -> l !! i = Some id -> l !! j = Some id -> (cap < j - i)%nat) ->
  NoDup (take (Datatypes.S cap) (drop k l)).
Proof.
  intros H. apply NoDup_alt. intros i j x Hi Hj.
  apply lookup_take_Some in Hi as [Hi Hil], Hj as [Hj Hjl]. rewrite lookup_drop in Hi, Hj.
  destruct (Nat.lt_trichotomy i j) as [Hlt|[->|Hlt]]; [|reflexivity|].
  - specialize (H (k + i) (k + j) x ltac:(lia) Hi Hj)%nat. lia.
  - specialize (H (k + j) (k + i) x ltac:(lia) Hj Hi)%nat. lia.
Qed.

Definition claims (h : Z) (n : Nd) : Prop :=
  bounded h n
  /\ claims_ok (Z.to_nat GATEWAY_CACHE_CAP) (dc_order (t_gateway_seen (n_state n))) (submitted (n_log n)).

Lemma claims_stable : stable (fun _ => True) (fun _ _ => True) claims.
Proof.
  pose proof bounded_stable as B.
  constructor; try (intros; exact I);
    try (intros; match goal with H : claims _ _ |- _ => destruct H as [Hb Hc] end; split;
         [destruct B; eauto | exact Hc || (cbn; rewrite submitted_sends; exact Hc)]; fail).
  - intros h f n [Hb Hc]. destruct (st_missing _ _ _ B h f n Hb) as [Hb' _].
    split; [split; [exact Hb' | exact Hc]|]. intros m p src frame n' _ _ _ _ [Hb2 Hc2].
    split; [exact Hb2|]. cbn. unfold submitted. rewrite omap_app, app_nil_r. exact Hc2.
  - intros h head now peers n p l out [Hb Hc] E.
    destruct (st_retry _ _ _ B h head now peers n p l out Hb E) as [Hb' Hs].
    split; [split; [exact Hb' | exact Hc]|]. intros f n' Hf [Hb2 Hc2].
    split; [now apply Hs | cbn; rewrite submitted_sends; exact Hc2].
  - intros h sub n [Hb Hc]. pose proof (st_claim _ _ _ B h sub n Hb) as Hb'.
    destruct Hb as [[Hs _] _]. destruct (so_gateway _ _ Hs) as [Hok Hcap].
    destruct (dedup_insert_spec (t_gateway_seen (n_state n)) (su_tx_id sub) Hok) as [[_ E]|[Hn E]];
      rewrite E in *; (split; [exact Hb'|]); cbn.
    + unfold submitted. rewrite omap_app, app_nil_r. exact Hc.
    + unfold submitted. rewrite omap_app. cbn.
      replace (Z.to_nat (len (dc_order (t_gateway_seen (n_state n))) + 1 - dc_capacity (t_gateway_seen (n_state n))))
        with (length (dc_order (t_gateway_seen (n_state n))) + 1 - Z.to_nat GATEWAY_CACHE_CAP)%nat
        by (rewrite Hcap; unfold len, GATEWAY_CACHE_CAP; lia).
      apply claims_snoc; [unfold GATEWAY_CACHE_CAP; lia | exact Hc | exact Hn].
  - intros h f now n Hf [Hb Hc]. pose proof (st_accept _ _ _ B h f now n Hf Hb) as H.
    destruct (reassembler_accept _ f now) as [r [[ty pl]|]]; [|split; [exact H | exact Hc]].
    destruct H as (H1 & H2 & H3). split_and!; [exact H1 | exact H2 | split; [exact H3 | exact Hc]].
Qed.

(** ** Progress *)

(** Tracked payments stay tracked, in their direction, and a final status is
    final. *)
Definition ledger_le (l l' : SettlementLedger) : Prop :=
  forall id x, l !! id = Some x ->
  exists y, l' !! id = Some y /\ se_direction y = se_direction x /\ (se_status x <> Pending -> y = x).

(** The head only rises, and stays on its network. *)
Definition head_le (c c' : HeadCache) : Prop :=
  hc_network_id c' = hc_network_id c
  /\ forall h, head_latest c = Some h -> exists h', head_latest c' = Some h' /\ h <= h'.

#[local] Instance ledger_le_pre : PreOrder ledger_le.
Proof.
  split.
  - intros l id x H. exists x. auto.
  - intros l1 l2 l3 H12 H23 id x H. destruct (H12 id x H) as (y & Hy & Hd & Hs).
    destruct (H23 id y Hy) as (z & Hz & Hd' & Hs'). exists z. split_and!; [assumption | congruence|].
    intros Hx. rewrite <- (Hs Hx). apply Hs'. now rewrite (Hs Hx).
Qed.

#[local] Instance head_le_pre : PreOrder head_le.
Proof.
  split; [intros c; split; [reflexivity | eauto with lia]|].
  intros c1 c2 c3 [Hn Ha] [Hn' Hb]. split; [congruence|]. intros h Hh.
  destruct (Ha h Hh) as (h' & Hh' & ?). destruct (Hb h' Hh') as (h'' & ? & ?). exists h''. split; [assumption | lia].
Qed.

Lemma record_le l id d : ledger_le l (ledger_record l id d).
Proof.
  intros id' x H. exists x. split_and!; auto. unfold ledger_record. destruct (l !! id) eqn:E; [exact H|].
  rewrite lookup_insert_ne; [exact H|]. intros <-. congruence.
Qed.

Lemma settle_le l id s : ledger_le l (ledger_settle l id s).
Proof.
  intros id' x H. unfold ledger_settle. destruct (l !! id) as [t|] eqn:E; [|eauto].
  destruct (se_status t) eqn:Es; [|eauto..]. destruct (decide (id = id')) as [<-|Hne].
  - rewrite E in H. injection H as <-. rewrite lookup_insert_eq. eexists. split_and!; [reflexivity..|].
    now rewrite Es.
  - rewrite lookup_insert_ne by exact Hne. eauto.
Qed.

Lemma retry_le p l head now peers p' l' out :
  pending_tick p l head now peers = (p', l', out) -> ledger_le l l'.
Proof.
  unfold pending_tick. set (ids := map _ _).
  assert (H : ledger_le l (foldl (fun l id => ledger_settle l id Failed) l ids)).
  { clearbody ids. revert l. induction ids as [|id ids IH]; intros l; cbn [foldl]; [reflexivity|].
    etransitivity; [apply settle_le | apply IH]. }
  destruct peers; cbn [negb]; [|intros [= _ <- _]; exact H].
  destruct (pending_flood _ _). intros [= _ <- _]. exact H.
Qed.

Lemma accept_head_le c b : head_le c (head_accept c b).1.
Proof.
  split; [apply head_accept_net|]. intros h H. destruct (head_accept_mono c b h H) as (h' & ? & ?). eauto.
Qed.

(** What has happened to a node since [n0]. *)
Record since (n0 n : Nd) : Prop := {
  si_sender : c_sender_id (n_ctx n) = c_sender_id (n_ctx n0);
  si_network : c_network (n_ctx n) = c_network (n_ctx n0);
  si_ledger : ledger_le (c_ledger (n_ctx n0)) (c_ledger (n_ctx n));
  si_head : head_le (c_head (n_ctx n0)) (c_head (n_ctx n));
  si_swap : exists es, node_run (t_swap (n_state n0)) es (t_swap (n_state n));
  si_log : exists es, n_log n = n_log n0 ++ es
}.

Lemma since_refl n : since n n.
Proof.
  constructor; try reflexivity; [exists []; constructor | exists []; now rewrite app_nil_r].
Qed.

Lemma since_more n0 n es : since n0 n -> since n0 (log_more es n).
Proof.
  intros [? ? ? ? ? [es' Hl]]. constructor; auto. exists (es' ++ es). cbn. now rewrite Hl, app_assoc.
Qed.

Lemma since_peers n0 n v : since n0 n -> since n0 (set_peers v n).
Proof. intros []. now constructor. Qed.

Definition progress (n0 : Nd) (h : Z) (n : Nd) : Prop := bounded h n /\ since n0 n.

Ltac since_parts := match goal with H : since _ _ |- _ => destruct H end; constructor; cbn; auto.

Lemma progress_stable n0 : stable (fun _ => True) (fun _ _ => True) (progress n0).
Proof.
  pose proof bounded_stable as B.
  constructor; try (intros; exact I);
    try (intros; match goal with H : progress _ _ _ |- _ => destruct H as [Hb Hc] end; split;
         [destruct B; eauto | (apply since_more; exact Hc) || (destruct Hc; constructor; assumption)]; fail).
  - intros h b n [Hb Hc]. split; [now apply (st_head _ _ _ B)|]. since_parts.
    etransitivity; [eassumption | apply accept_head_le].
  - intros h id d n [Hb Hc]. split; [now apply (st_record _ _ _ B)|]. since_parts.
    etransitivity; [eassumption | apply record_le].
  - intros h id x n [Hb Hc]. split; [now apply (st_settle _ _ _ B)|]. since_parts.
    etransitivity; [eassumption | apply settle_le].
  - intros h e n [Hb Hc]. split; [now apply (st_swap _ _ _ B)|]. since_parts.
    destruct si_swap0 as [es Hr]. exists (es ++ [e]). now constructor.
  - intros h f n [Hb Hc]. destruct (st_missing _ _ _ B h f n Hb) as [Hb' _].
    split; [split; [exact Hb' | since_parts]|]. intros m p src frame n' _ _ _ _ [Hb2 Hc2]. split; [exact Hb2 | now apply since_more].
  - intros h head now peers n p l out [Hb Hc] E.
    destruct (st_retry _ _ _ B h head now peers n p l out Hb E) as [Hb' Hs].
    split; [split; [exact Hb'|]|].
    + since_parts. etransitivity; [eassumption | eapply retry_le; eauto].
    + intros f n' Hf [Hb2 Hc2]. split; [now apply Hs | now apply since_more].
  - intros h sub n [Hb Hc]. pose proof (st_claim _ _ _ B h sub n Hb) as Hb'.
    destruct (dedup_insert _ _). split; [exact Hb' | apply since_more; since_parts].
  - intros h f now n Hf [Hb Hc]. pose proof (st_accept _ _ _ B h f now n Hf Hb) as H.
    destruct (reassembler_accept _ f now) as [r [[ty pl]|]]; [|split; [exact H | since_parts]].
    destruct H as (H1 & H2 & H3). split_and!; [exact H1 | exact H2 | split; [exact H3 | since_parts]].
Qed.

(** ** What goes out *)

(** A packet of this node's making. *)
Definition own (me : bytes) (p : Packet) : Prop :=
  Packet.sender_id p = me /\ recipient_id p = Some BROADCAST_RECIPIENT /\ version p = VERSION
  /\ is_rsr (flags p) = false /\ (ttl p = DEFAULT_TTL \/ ttl p = 0).

Definition own_frame (me : bytes) (f : bytes) : Prop := exists p, own me p /\ encode p = Ok f.

Lemma remember_bytes (P : bytes -> Prop) p id b vu now d :
  P b -> Forall (fun e => P (pd_bytes e)) p -> Forall (fun e => P (pd_bytes e)) (pending_remember p id b vu now d).
Proof.
  intros Hb Hp. unfold pending_remember. apply Forall_app; split; [|now repeat constructor].
  destruct (_ >=? _); [apply Forall_drop|]; now apply Forall_filter.
Qed.

Lemma flood_bytes (P : bytes -> Prop) now p :
  Forall (fun e => P (pd_bytes e)) p ->
  Forall (fun e => P (pd_bytes e)) (pending_flood now p).1 /\ Forall P (pending_flood now p).2.
Proof.
  induction 1 as [|e p He Hp [IH1 IH2]]; cbn [pending_flood]; [auto|].
  destruct (pending_flood now p) as [q out]. cbn [fst snd] in *. destruct (pending_due now e); cbn; auto.
Qed.

Lemma tick_bytes (P : bytes -> Prop) p l head now peers p' l' out :
  Forall (fun e => P (pd_bytes e)) p -> pending_tick p l head now peers = (p', l', out) ->
  Forall (fun e => P (pd_bytes e)) p' /\ Forall P out.
Proof.
  intros Hp. unfold pending_tick. set (q := filter _ p).
  assert (Hq : Forall (fun e => P (pd_bytes e)) q) by now apply Forall_filter.
  destruct peers; cbn [negb]; [|intros [= <- _ <-]; auto].
  pose proof (flood_bytes P now q Hq) as H. destruct (pending_flood now q). intros [= <- _ <-]. exact H.
Qed.

(** The payments kept for retry are frames of this node's making. *)
Definition mine (me : bytes) (h : Z) (n : Nd) : Prop :=
  bounded h n /\ c_sender_id (n_ctx n) = me /\ Forall (fun e => own_frame me (pd_bytes e)) (t_pending (n_state n)).

Lemma mine_stable me : stable (own me) (fun _ _ => True) (mine me).
Proof.
  pose proof bounded_stable as B.
  constructor; try (intros; exact I);
    try (intros; match goal with H : mine _ _ _ |- _ => destruct H as [Hb Hc] end; split;
         [destruct B; eauto | exact Hc]; fail).
  - intros h mt pl n (_ & Hs & _). repeat split; auto.
  - intros p (H1 & H2 & H3 & H4 & _). repeat split; auto.
  - intros h id n (Hb & Hs & Hp). split_and!; [now apply (st_clear _ _ _ B) | exact Hs|].
    now apply Forall_filter.
  - intros h p f id vu now d n Ho He (Hb & Hs & Hp).
    split_and!; [now apply (st_pend _ _ _ B h p) | exact Hs|].
    apply (remember_bytes (own_frame me)); [exists p; auto | exact Hp].
  - intros h f n [Hb Hc]. destruct (st_missing _ _ _ B h f n Hb) as [Hb' _].
    split; [split; [exact Hb' | exact Hc]|]. intros m p src frame n' _ _ _ _ H. exact H.
  - intros h head now peers n p l out (Hb & Hs & Hp) E.
    destruct (st_retry _ _ _ B h head now peers n p l out Hb E) as [Hb' _].
    split; [|intros f n' _ H; exact H].
    split_and!; [exact Hb' | exact Hs | eapply tick_bytes; eauto].
  - intros h sub n [Hb Hc]. pose proof (st_claim _ _ _ B h sub n Hb) as Hb'.
    destruct (dedup_insert _ _). split; [exact Hb' | exact Hc].
  - intros h f now n Hf [Hb Hc]. pose proof (st_accept _ _ _ B h f now n Hf Hb) as H.
    destruct (reassembler_accept _ f now) as [r [[ty pl]|]]; [|split; [exact H | exact Hc]].
    destruct H as (H1 & H2 & H3). split_and!; [exact H1 | exact H2 | split; [exact H3 | exact Hc]].
Qed.

Section inbound.
Context (me : bytes) (ps : gset string) (log0 : list Effect) (src : option string) (frame : bytes).

(** What a node may do on one inbound frame: hand a transaction to its gateway,
    send a frame of its own to a peer, send the packet on to the peers other than
    the source with its TTL lowered, answer a gossip request of the source. *)
Definition answers (e : Effect) : Prop :=
  match e with
  | Submit _ => True
  | Send peer f =>
      (peer ∈ ps /\ own_frame me f)
      \/ (peer ∈ ps /\ Some peer <> src
          /\ exists p t, decode frame = Ok p /\ is_rsr (flags p) = false /\ relayed_ttl (ttl p) = Some t
               /\ encode (with_ttl p t) = Ok f)
      \/ (Some peer = src /\ exists p m, decode frame = Ok p /\ msg_type p = MtRequestSync
               /\ encode (with_rsr m true) = Ok f)
  end.

Definition from_frame (p : Packet) (link : option string) : Prop :=
  (ttl p = 0 /\ link = None) \/ (decode frame = Ok p /\ is_rsr (flags p) = false /\ link = src).

Definition output (h : Z) (n : Nd) : Prop :=
  mine me h n /\ c_peers (n_ctx n) = ps /\ exists new, n_log n = log0 ++ new /\ Forall answers new.

Lemma output_more h n es : output h n -> mine me h (log_more es n) -> Forall answers es -> output h (log_more es n).
Proof.
  intros (_ & Hp & new & Hl & Hf) Hm He. split_and!; [exact Hm | exact Hp|].
  exists (new ++ es). cbn. rewrite Hl, <- app_assoc. split; [reflexivity|]. now apply Forall_app.
Qed.

Lemma sends_answers f ex :
  (forall peer, peer ∈ ps -> Some peer <> ex -> answers (Send peer f)) -> Forall answers (sends f ex ps).
Proof.
  intros H. apply Forall_map, Forall_forall. intros p [Hne Hp]%list_elem_of_filter.
  apply H; [now apply elem_of_elements | exact Hne].
Qed.

Lemma output_stable : stable (own me) from_frame output.
Proof.
  pose proof (mine_stable me) as B.
  constructor;
    try (intros; match goal with H : output _ _ |- _ => destruct H as [Hb Hc] end; split;
         [destruct B; eauto | exact Hc]; fail).
  - intros p Hp _. now left.
  - intros h mt pl n [Hm _]. exact (st_own _ _ _ B h mt pl n Hm).
  - apply (st_own_ttl0 _ _ _ B).
  - intros h p f n Ho He Hn. apply output_more; [exact Hn | exact (proj1 Hn)|].
    destruct Hn as (_ & -> & _). apply sends_answers. intros peer Hp _. left. split; [exact Hp | exists p; auto].
  - intros h p link t f n Hr Ht He Hn. apply output_more; [exact Hn | exact (proj1 Hn)|].
    destruct Hn as (_ & -> & _). destruct Hr as [[H0 _]|(Hd & Hs & ->)]; [rewrite H0 in Ht; discriminate|].
    apply sends_answers. intros peer Hp Hne. right. left. split_and!; [exact Hp | exact Hne | exists p, t; auto].
  - intros h f n [Hb Hc]. destruct (st_missing _ _ _ B h f n Hb) as [Hb' _].
    split; [split; [exact Hb' | exact Hc]|]. intros m p s' f' n' Hr Ht Hm He Hn.
    apply output_more; [exact Hn | exact (proj1 Hn)|]. constructor; [|constructor].
    destruct Hr as [[_ H0]|(Hd & Hs & Hl)]; [discriminate|]. right. right. eauto 6.
  - intros h head now peers n p l out [Hb Hc] E.
    pose proof (proj2 (tick_bytes (own_frame me) _ _ _ _ _ _ _ _ (proj2 (proj2 Hb)) E)) as Ho.
    destruct (st_retry _ _ _ B h head now peers n p l out Hb E) as [Hb' _].
    split; [split; [exact Hb' | exact Hc]|]. intros f n' Hf Hn. apply output_more; [exact Hn | exact (proj1 Hn)|].
    destruct Hn as (_ & -> & _). rewrite Forall_forall in Ho. apply sends_answers.
    intros peer Hp _. left. split; [exact Hp | now apply Ho].
  - intros h sub n Hn. pose proof (st_claim _ _ _ B h sub n (proj1 Hn)) as Hb'.
    destruct (dedup_insert _ _) as [d fresh]. apply output_more.
    + destruct Hn as (Hm & Hc). split; [|exact Hc]. exact Hb'.
    + exact Hb'.
    + destruct fresh; repeat constructor.
  - intros h f now n Hf [Hb Hc]. pose proof (st_accept _ _ _ B h f now n Hf Hb) as H.
    destruct (reassembler_accept _ f now) as [r [[ty pl]|]]; [|split; [exact H | exact Hc]].
    destruct H as (H1 & H2 & H3). split_and!; [exact H1 | exact H2 | split; [exact H3 | exact Hc]].
Qed.
End inbound.

(** ** Duplicates *)

Lemma dup_insert {K} `{Countable K} (c : DedupCache (K := K)) k :
  dedup_contains c k = true -> dedup_insert c k = (c, false).
Proof. intros H'. unfold dedup_insert. now rewrite H'. Qed.

Lemma dup_seen p k (n : Nd) :
  dedup_contains (t_relay_seen (n_state n)) (relay_key p) = true -> first_seen p k n = (n, Some tt).
Proof.
  intros H. unfold first_seen, mark_seen, this, gets, modify, mbind, M_bind, mret, M_ret.
  rewrite (dup_insert _ _ H). now destruct n as [? [] ? ?].
Qed.

Lemma dup_dispatch p src (n : Nd) :
  dedup_contains (t_relay_seen (n_state n)) (relay_key p) = true -> dispatch p src n = (n, Some tt).
Proof.
  intros H. unfold dispatch, this, gets, mbind, M_bind, dispatch_fuel. cbn [dispatch_packet].
  destruct (msg_type p); now apply dup_seen.
Qed.
End node.

(** ** Properties *)

Section properties.
Context {C : Crypto} {V : Type} {FV : FundingVerifier V} {S : Type} {SG : SwapSigner S}
  {R : Type} {RR : RelayRng R} {G : Type} {MG : MeshGateway G} {CK : Clock}.

(** C10: the worker never panics and always finishes.  After any run, with any bytes
    off the radio, every job runs to its end: no decoder, slice or conversion on
    its path panics, and the recursion of the dispatcher into reassembled fragments
    of fragments is over before the bytes held and received are used up.  The swap
    driver is part of the job, with its decoders and encoders; the operations of a
    coordinator whose result the session drops do not panic either.  The calls of the
    gateway are assumed to return. *)
Theorem worker_never_panics (HG : GatewayTotal G) (sender : bytes) (gw : option G) (policy : RelayPolicy R)
    (verify : bool) (swap : option (@SwapSession V)) (signer : option S) (network : NetworkId) (seq : Z)
    (es : list (@Event V)) (j : Job)
    (Hes : Forall event_bytes es) (Hj : job_bytes j) :
  (run_job j (run_events (node_new sender gw policy verify swap signer network seq) es)).2 = Some tt
  /\ forall c (op : @CoordOp V), apply_op c op <> Panic.
Proof.
  split; [|exact apply_op_total].
  destruct (run_keeps _ _ bounded_stable (fun h v n H => H) es 0 _ Hes
              (node_new_ok sender gw policy verify swap signer network seq)) as [h Hn].
  apply (job_keeps False _ _ _ (stable_closed False _ _ _ bounded_stable) (or_intror HG) h j _); auto.
  destruct j; cbn in *; auto.
Qed.

(** C32: the tables of a node that are capped stay within their caps.  After any run,
    whatever was received, the caches of seen packets, submitted and acknowledged
    transactions hold at most 2048, 1024 and 1024 ids, the store for gossip-sync at
    most 1000 packets, the reassembler at most 128 messages, the rate limiter at most
    128 peers, the retry list at most 16 payments, and the chat log at most 200
    messages; the intent throttle counts at most 256 senders and none beyond four, the
    match window holds at most 64 candidates, and a swap session at most the maximum
    of its identity, or what it was restored with if that is more.  (The balance and
    history caches, the ledger of the node's own payments and the tombstones of a
    session have no cap in the code.) *)
Theorem node_tables_bounded (sender : bytes) (gw : option G) (policy : RelayPolicy R)
    (verify : bool) (swap : option (@SwapSession V)) (signer : option S) (network : NetworkId) (seq : Z)
    (es : list (@Event V)) (Hes : Forall event_bytes es) :
  let n := run_events (node_new sender gw policy verify swap signer network seq) es in
  let t := n_state n in
  let i := w_intents (t_swap t) in
  (dedup_len (t_relay_seen t) <= 2048 /\ dedup_len (t_gateway_seen t) <= 1024
   /\ dedup_len (t_acked t) <= 1024 /\ recent_len (t_recent t) <= 1000 /\ in_flight (t_reassembler t) <= 128
   /\ Z.of_nat (size (rl_buckets (t_limiter t))) <= 128 /\ len (t_pending t) <= 16
   /\ len (c_chat (n_ctx n)) <= 200)
  /\ Z.of_nat (size (th_counts (in_throttle i))) <= 256
  /\ (forall x k, th_counts (in_throttle i) !! x = Some k -> k <= 4)
  /\ len (im_candidates (in_matcher i)) <= 64
  /\ forall s, swap = Some s -> exists s', w_swap (t_swap t) = Some s'
       /\ session_len s' <= Z.max (session_len s) (id_max_concurrent_swaps (s_identity s)).
Proof.
  set (n0 := node_new sender gw policy verify swap signer network seq).
  assert (Hp : progress n0 0 n0) by (split; [apply node_new_ok | apply since_refl]).
  destruct (run_keeps _ _ (progress_stable n0) (fun h v n H => conj (proj1 H) (since_peers n0 n v (proj2 H)))
              es 0 n0 Hes Hp) as [h [[[Hs Hc] _] Hi]].
  destruct (si_swap _ _ Hi) as [evs Hr]. pose proof (node_run_tidy _ _ _ Hr intents_new_ok) as [Ht Hcap Hmax Hm].
  destruct Hs as [Hseen Hgw Hack Hrec Hfl _ Hlim Hpend]. split; [split_and!; auto|split_and!].
  - eapply cache_len; eauto.
  - eapply cache_len; eauto.
  - eapply cache_len; eauto.
  - unfold recent_len. rewrite (recent_size _ _ Hrec). apply (ro_len _ _ Hrec).
  - apply (po_len _ Hpend).
  - pose proof (throttle_size _ Ht) as H. rewrite Hmax in H. exact H.
  - intros x k Hk. pose proof (tk_count _ Ht x k Hk) as H. rewrite Hcap in H. apply H.
  - exact Hm.
  - intros s Hswap. apply (node_run_room _ _ _ s Hr). exact Hswap.
Qed.

(** C7: a gateway submits a transaction once.  In the list of everything a node ever
    handed to its gateway, any 1025 submissions in a row have distinct ids: only an
    id the bounded cache has forgotten is submitted again. *)
Theorem submissions_distinct (sender : bytes) (gw : option G) (policy : RelayPolicy R)
    (verify : bool) (swap : option (@SwapSession V)) (signer : option S) (network : NetworkId) (seq : Z)
    (es : list (@Event V)) (k : nat) (Hes : Forall event_bytes es) :
  NoDup (take 1025 (drop k
    (submitted (n_log (run_events (node_new sender gw policy verify swap signer network seq) es))))).
Proof.
  assert (H0 : claims 0 (node_new sender gw policy verify swap signer network seq)).
  { split; [apply node_new_ok|]. split; [reflexivity|]. intros ? ? ? _ H. discriminate. }
  destruct (run_keeps _ _ claims_stable (fun h v n H => H) es 0 _ Hes H0) as [h [_ [_ Hd]]].
  now apply window_nodup.
Qed.

(** C33: what a node does on one inbound frame.  Whatever happened before, everything
    a node hands to the radio while it processes a frame is a packet of its own
    (its sender id, to a connected peer), or the packet of the frame, with its TTL
    lowered and otherwise unchanged, to a connected peer other than the one it came
    from, or an answer to the source's gossip request, flagged so that it is not
    relayed; a gossip answer or a packet at the end of its TTL is never sent on. *)
Theorem inbound_answers (sender : bytes) (gw : option G) (policy : RelayPolicy R)
    (verify : bool) (swap : option (@SwapSession V)) (signer : option S) (network : NetworkId) (seq : Z)
    (es : list (@Event V)) (src : option string) (frame : bytes)
    (Hes : Forall event_bytes es) (Hf : bytes_ok frame) :
  let n := run_events (node_new sender gw policy verify swap signer network seq) es in
  exists new, n_log (catch (run_job (Inbound src frame)) n) = n_log n ++ new
    /\ Forall (answers (to_sender_id sender) (c_peers (n_ctx n)) src frame) new.
Proof.
  intros n.
  assert (H0 : mine (to_sender_id sender) 0 (node_new sender gw policy verify swap signer network seq)).
  { split_and!; [apply node_new_ok | reflexivity | constructor]. }
  destruct (run_keeps _ _ (mine_stable _) (fun h v n H => H) es 0 _ Hes H0) as [h Hn].
  assert (Ho : output (to_sender_id sender) (c_peers (n_ctx n)) (n_log n) src frame h n).
  { split_and!; [exact Hn | reflexivity|]. exists []. rewrite app_nil_r. auto. }
  pose proof (output_stable (V := V) (S := S) (R := R) (G := G) (to_sender_id sender) (c_peers (n_ctx n)) (n_log n) src frame) as ST.
  destruct (job_keeps True _ _ _ (stable_closed True _ _ _ ST) (or_introl I) h (Inbound src frame) n)
    as [[h' (_ & _ & Hnew)] _]; auto.
  split; [exact Hf|]. intros p Hd Hr. right. auto.
Qed.

(** A duplicate is inert.  A frame whose packet the node has seen changes
    nothing but the rate limiter, the clock and the counters: nothing is sent,
    submitted, settled, stored or shown a second time. *)
Theorem duplicate_inert (n : @Node V S R G) (src : option string) (frame : bytes) (p : Packet)
    (Hd : decode frame = Ok p) (Ht : msg_type p <> MtRequestSync)
    (Hs : dedup_contains (t_relay_seen (n_state n)) (relay_key p) = true) :
  exists lim cnt reads,
    process_inbound src frame n
    = (set_limiter lim (set_counters cnt (mkNode (n_ctx n) (n_state n) reads (n_log n))), Some tt).
Proof.
  assert (Hrate : exists lim reads ok,
    rate_ok src n = (set_limiter lim (mkNode (n_ctx n) (n_state n) reads (n_log n)), Some ok)).
  { destruct src as [peer|]; [|exists (t_limiter (n_state n)), (n_reads n), true; now destruct n as [? [] ? ?]].
    unfold rate_ok, now_ms, this, gets, modify, mbind, M_bind, mret, M_ret.
    destruct (limiter_allow _ _ _) as [ok lim]. eexists _, _, _. reflexivity. }
  destruct Hrate as (lim & reads & ok & Hr). unfold process_inbound, mbind at 1, M_bind at 1. rewrite Hr.
  set (m := set_limiter lim _). exists lim. destruct ok; cbn [negb]; [|eexists _, reads; reflexivity].
  unfold mbind at 1, M_bind at 1. rewrite Hd. cbn [decoded mret M_ret].
  destruct (is_rsr (flags p)); [|destruct (decide _); [contradiction|]].
  - unfold bump, modify, mbind at 1, M_bind at 1. rewrite dup_dispatch by exact Hs. eexists _, reads. reflexivity.
  - rewrite dup_dispatch by exact Hs. exists (c_counters (n_ctx n)), reads. now destruct n as [[] [] ? ?].
Qed.

(** Payments and heads only move forward.  Over any part of a node's life a
    tracked payment stays tracked in its direction, one that is settled or failed
    stays so, the head it anchors to never falls, and the sender id and network
    never change. *)
Theorem payments_final (sender : bytes) (gw : option G) (policy : RelayPolicy R)
    (verify : bool) (swap : option (@SwapSession V)) (signer : option S) (network : NetworkId) (seq : Z)
    (es es' : list (@Event V)) (Hes : Forall event_bytes (es ++ es')) :
  let n0 := run_events (node_new sender gw policy verify swap signer network seq) es in
  let n := run_events n0 es' in
  ledger_le (c_ledger (n_ctx n0)) (c_ledger (n_ctx n)) /\ head_le (c_head (n_ctx n0)) (c_head (n_ctx n))
  /\ c_sender_id (n_ctx n) = to_sender_id sender /\ c_network (n_ctx n) = network.
Proof.
  apply Forall_app in Hes as [H1 H2]. intros n0 n.
  pose proof (node_new_ok sender gw policy verify swap signer network seq) as Hb.
  set (nn := node_new sender gw policy verify swap signer network seq) in *.
  assert (Hp : progress nn 0 nn) by (split; [exact Hb | apply since_refl]).
  destruct (run_keeps _ _ (progress_stable nn) (fun h v n H => conj (proj1 H) (since_peers nn n v (proj2 H)))
              es 0 nn H1 Hp) as [h [Hb0 Hs0]].
  destruct (run_keeps _ _ (progress_stable n0) (fun h v n H => conj (proj1 H) (since_peers n0 n v (proj2 H)))
              es' h n0 H2 (conj Hb0 (since_refl n0))) as [h' [_ Hs]].
  split_and!; [apply Hs | apply Hs | |].
  - etransitivity; [apply Hs|]. etransitivity; [apply Hs0 | reflexivity].
  - etransitivity; [apply Hs|]. etransitivity; [apply Hs0 | reflexivity].
Qed.

(** C11: the engine refines the swap driver.  Over any run, what happens to the swap
    part of a node, whatever else the node does, is a run of the driver of
    [swap_node.rs], and a session in it only moves by the session's own
    operations: the theorems on those runs are theorems on the running node. *)
Theorem engine_refines_swap (sender : bytes) (gw : option G) (policy : RelayPolicy R)
    (verify : bool) (s : @SwapSession V) (signer : Recorder S) (network : NetworkId) (seq : Z)
    (es : list (@Event V)) (Hes : Forall event_bytes es) :
  let n0 := node_new sender gw policy verify (Some s) (Some signer) network seq in
  let n := run_events n0 es in
  (exists evs, node_run (t_swap (n_state n0)) evs (t_swap (n_state n)))
  /\ exists s' ops, w_swap (t_swap (n_state n)) = Some s' /\ session_run s ops s'.
Proof.
  intros n0 n.
  assert (Hp : progress n0 0 n0) by (split; [apply node_new_ok | apply since_refl]).
  destruct (run_keeps _ _ (progress_stable n0) (fun h v n H => conj (proj1 H) (since_peers n0 n v (proj2 H)))
              es 0 n0 Hes Hp) as [h [_ Hs]].
  destruct (si_swap _ _ Hs) as [evs Hr]. split; [eauto|].
  destruct (node_run_sreach _ _ _ s Hr eq_refl) as (s' & Hs' & ops & Hops). eauto.
Qed.
End properties.

(** ** Concrete nodes *)

(** A clock that advances by a millisecond a reading. *)
#[export] Program Instance SteadyClock : Clock := {| clock := fun i => Z.min (Z.of_nat i) (2 ^ 64 - 1) |}.
Next Obligation. intros i j H. apply Z.min_le_compat_r. lia. Qed.
Next Obligation. intros i. unfold uN. lia. Qed.

#[export] Instance MockGateway_total : GatewayTotal MockGateway.
Proof. split; discriminate. Qed.

Abbreviation SampleNode := (@Node LedgerVerifier (Recorder MockSigner) XorShiftRng MockGateway).

Definition sample_policy : RelayPolicy XorShiftRng := policy_custom (xorshift_seeded 7).

Definition sample_origin : SampleNode :=
  node_new (replicate 8 1) None sample_policy false None None Testnet 100.

Definition sample_gateway : SampleNode :=
  node_new (replicate 8 2) (Some (mock_gateway_new Testnet)) sample_policy false None None Testnet 500.

(** A transaction of the origin, as a frame. *)
Definition sample_frame : bytes :=
  match n_log (run_events sample_origin [EvPeerConnected "gateway"; EvJob (LocalTx [1; 2; 3])]) with
  | [Send _ f] => f
  | _ => []
  end.

Definition sample_run : list (@Event LedgerVerifier) :=
  [EvPeerConnected "origin"; EvPeerConnected "other"; EvJob (Inbound (Some "origin") sample_frame);
   EvJob (Inbound (Some "other") sample_frame); EvJob BeaconTick].

Lemma sample_run_ok : Forall event_bytes sample_run.
Proof.
  assert (Hf : bytes_ok sample_frame) by (apply bytes_okb_ok; vm_compute; reflexivity).
  unfold sample_run. rewrite !Forall_cons. split_and!; (exact I || exact Hf || apply Forall_nil_2).
Qed.

Lemma worker_never_panics_witness :
  (run_job (Inbound None sample_frame) (run_events sample_gateway sample_run)).2 = Some tt.
Proof.
  refine (proj1 (worker_never_panics MockGateway_total (replicate 8 2) (Some (mock_gateway_new Testnet)) sample_policy false
           None None Testnet 500 sample_run (Inbound None sample_frame) sample_run_ok _)).
  apply bytes_okb_ok. vm_compute. reflexivity.
Defined.

Lemma node_tables_bounded_witness :
  dedup_len (t_relay_seen (n_state (run_events sample_gateway sample_run))) <= 2048.
Proof.
  exact (proj1 (proj1 (node_tables_bounded (replicate 8 2) (Some (mock_gateway_new Testnet)) sample_policy false
           None None Testnet 500 sample_run sample_run_ok))).
Defined.

(** The frame came twice, and was submitted once. *)
Lemma submissions_distinct_witness :
  submitted (n_log (run_events sample_gateway sample_run)) = [mock_tx_id [1; 2; 3]]
  /\ NoDup (take 1025 (drop 0 (submitted (n_log (run_events sample_gateway sample_run))))).
Proof.
  split; [vm_compute; reflexivity|].
  exact (submissions_distinct (replicate 8 2) (Some (mock_gateway_new Testnet)) sample_policy false
           None None Testnet 500 sample_run 0 sample_run_ok).
Defined.

(** The gateway answers with its receipt, and sends the transaction on to the other
    peer only. *)
Lemma inbound_answers_witness :
  let n := run_events sample_gateway (take 2 sample_run) in
  exists new, n_log (catch (run_job (Inbound (Some "origin") sample_frame)) n) = n_log n ++ new
    /\ Forall (answers (replicate 8 2) (c_peers (n_ctx n)) (Some "origin") sample_frame) new.
Proof.
  assert (Hes : Forall event_bytes (take 2 sample_run)) by exact (Forall_take _ 2 _ sample_run_ok).
  assert (Hf : bytes_ok sample_frame) by (apply bytes_okb_ok; vm_compute; reflexivity).
  exact (inbound_answers (replicate 8 2) (Some (mock_gateway_new Testnet)) sample_policy false
           None None Testnet 500 (take 2 sample_run) (Some "origin") sample_frame Hes Hf).
Defined.

(** The packet of [sample_frame]. *)
Definition sample_tx : Packet :=
  match decode sample_frame with
  | Ok p => p
  | _ => mkPacket 0 MtNimiqTx 0 0 flags_default [] None [] None
  end.

Lemma duplicate_inert_witness :
  let n := run_events sample_gateway sample_run in
  exists lim cnt reads,
    process_inbound (Some "other") sample_frame n
    = (set_limiter lim (set_counters cnt (mkNode (n_ctx n) (n_state n) reads (n_log n))), Some tt).
Proof.
  assert (Hd : decode sample_frame = Ok sample_tx) by (vm_compute; reflexivity).
  assert (Ht : msg_type sample_tx <> MtRequestSync) by (vm_compute; discriminate).
  assert (Hs : dedup_contains (t_relay_seen (n_state (run_events sample_gateway sample_run))) (relay_key sample_tx)
               = true) by (vm_compute; reflexivity).
  exact (duplicate_inert (run_events sample_gateway sample_run) (Some "other") sample_frame sample_tx Hd Ht Hs).
Defined.

Lemma payments_final_witness :
  ledger_le (c_ledger (n_ctx (run_events sample_origin [EvJob (LocalTx [1; 2; 3])])))
    (c_ledger (n_ctx (run_events (run_events sample_origin [EvJob (LocalTx [1; 2; 3])]) [EvJob SyncTick]))).
Proof.
  assert (Hes : Forall (@event_bytes LedgerVerifier) ([EvJob (LocalTx [1; 2; 3])] ++ [EvJob SyncTick])) by repeat constructor.
  exact (proj1 (payments_final (replicate 8 1) None sample_policy false None None Testnet 100
           [EvJob (LocalTx [1; 2; 3])] [EvJob SyncTick] Hes)).
Defined.

Lemma engine_refines_swap_witness :
  exists s' ops,
    w_swap (t_swap (n_state (run_events
      (@node_new LedgerVerifier (Recorder MockSigner) XorShiftRng MockGateway
         (replicate 8 3) None sample_policy false (Some sample_session) (Some (mkRecorder Mock [])) Testnet 9)
      [EvJob SyncTick]))) = Some s'
    /\ session_run sample_session ops s'.
Proof.
  assert (Hes : Forall (@event_bytes LedgerVerifier) [EvJob SyncTick]) by repeat constructor.
  exact (proj2 (engine_refines_swap (G := MockGateway) (replicate 8 3) None sample_policy false sample_session
           (mkRecorder Mock []) Testnet 9 [EvJob SyncTick] Hes)).
Defined.
