(* ===== verification/Payment.v ===== *)
(** * Payment: a payment over the mesh, from its origin to its settlement

    The origin floods a signed transaction; a gateway that hears it submits it and
    floods a receipt; the origin that hears the receipt settles the payment.  The
    theorem composes the three jobs on two nodes in whatever state they are. *)

From stdpp Require Import base list gmap strings.
From Stdlib Require Import ZArith Lia.
From S2P Require Import Prelude Packet Codec Envelope SwapWire SwapIntent Crypto FundingVerify SwapSession SwapNode Dedup Fragment Gcs Relay StoreForward Beacon Settlement Balance Chat Address NimTx Gateway Engine EngineLogic EngineProps.
Open Scope Z_scope.

Section payment.
Context {C : Crypto} {V : Type} {FV : FundingVerifier V} {S : Type} {SG : SwapSigner S}
  {R : Type} {RR : RelayRng R} {G : Type} {MG : MeshGateway G} {CK : Clock}.

Abbreviation Nd := (@Node V S R G).

Lemma run_bind {A B} (m : @M V S R G A) (k : A -> M B) n n' a :
  m n = (n', Some a) -> (m ≫= k) n = k a n'.
Proof. intros H. unfold mbind, M_bind. now rewrite H. Qed.

Lemma run_decoded {E A} (r : res E A) a (n : Nd) : r = Ok a -> decoded r n = (n, Some (Some a)).
Proof. now intros ->. Qed.

(** The first-seen gate on a packet that was not seen. *)
Lemma run_first_seen p k (n : Nd) :
  dedup_contains (t_relay_seen (n_state n)) (relay_key p) = false ->
  first_seen p k n = k (set_relay_seen (dedup_insert (t_relay_seen (n_state n)) (relay_key p)).1 n).
Proof.
  intros H. unfold first_seen, mark_seen, this, gets, modify, mbind, M_bind, mret, M_ret.
  destruct (dedup_insert _ _) as [d fresh] eqn:E. unfold dedup_insert in E. rewrite H in E.
  assert (fresh = true) as -> by (repeat case_hyp E; congruence). reflexivity.
Qed.

(** A frame of a peer within its rate. *)
Lemma run_inbound src frame p (n : Nd) :
  (limiter_allow (t_limiter (n_state n)) src (clock (n_reads n))).1 = true ->
  decode frame = Ok p -> is_rsr (flags p) = false -> msg_type p <> MtRequestSync ->
  process_inbound (Some src) frame n
  = dispatch p (Some src)
      (set_limiter (limiter_allow (t_limiter (n_state n)) src (clock (n_reads n))).2 (tick_clock n)).
Proof.
  intros Hr Hd Hs Ht. unfold process_inbound.
  assert (Hrate : rate_ok (Some src) n
    = (set_limiter (limiter_allow (t_limiter (n_state n)) src (clock (n_reads n))).2 (tick_clock n), Some true)).
  { unfold rate_ok, now_ms, this, gets, modify, mbind, M_bind, mret, M_ret.
    change (t_limiter (n_state (tick_clock n))) with (t_limiter (n_state n)).
    destruct (limiter_allow _ _ _) as [ok l]. cbn [fst snd] in *. now subst ok. }
  rewrite (run_bind _ _ _ _ _ Hrate). cbn [negb]. rewrite (run_bind _ _ _ _ _ (run_decoded _ _ _ Hd)).
  rewrite Hs. destruct (decide _); [contradiction | reflexivity].
Qed.

Lemma run_flood_packet p f (n : Nd) :
  encode p = Ok f ->
  exists cnt, flood_packet p n = (set_counters cnt (log_more (sends f None (c_peers (n_ctx n))) n), Some tt).
Proof.
  intros He. unfold flood_packet. rewrite (run_bind _ _ _ _ _ (run_decoded _ _ _ He)). apply flood_spec.
Qed.

Lemma run_build mt pl (n : Nd) :
  build_packet mt pl n = (set_seq (wrapN 64 (c_seq (n_ctx n) + 1)) n, Some (built mt pl n)).
Proof. reflexivity. Qed.

Lemma run_mark k (n : Nd) :
  exists b, mark_seen k n = (set_relay_seen (dedup_insert (t_relay_seen (n_state n)) k).1 n, Some b).
Proof.
  unfold mark_seen, this, gets, modify, mbind, M_bind, mret, M_ret.
  destruct (dedup_insert _ _) as [d b]. now exists b.
Qed.

Lemma run_now (n : Nd) : now_ms n = (tick_clock n, Some (clock (n_reads n))).
Proof. reflexivity. Qed.

Lemma run_modify f (n : Nd) : modify f n = (f n, Some tt).
Proof. reflexivity. Qed.

Lemma run_gets {A} (f : Nd -> A) n : gets f n = (n, Some (f n)).
Proof. reflexivity. Qed.

(** Run the next action of a computation by its lemma. *)
Ltac act L := rewrite (run_bind _ _ _ _ _ L); cbv beta.

(** ** The origin *)

(** The envelope a node wraps its own transaction in. *)
Definition own_envelope (n : Nd) (wire : bytes) : NimiqEnvelope :=
  mkEnvelope wire (wire_id (c_network (n_ctx n)))
    (match head_latest (c_head (n_ctx n)) with Some h => Some (sat_add 32 h VALIDITY_WINDOW) | None => None end)
    (Some (mock_tx_id wire)) None true.

Lemma own_envelope_ok n wire :
  bytes_ok wire -> (forall h, head_latest (c_head (n_ctx n)) = Some h -> uN 32 h) -> env_ok (own_envelope n wire).
Proof.
  intros Hw Hh. constructor; cbn; auto; try discriminate.
  - unfold wire_id. destruct (c_network _); vm_compute; split; congruence.
  - intros v. destruct (head_latest _) as [h|] eqn:E; [|discriminate]. intros [= <-].
    specialize (Hh h eq_refl). unfold uN, sat_add, VALIDITY_WINDOW in *. lia.
  - intros i [= <-]. apply mock_tx_id_ok.
Qed.

Lemma built_ok mt pl (n : Nd) :
  array_ok 8 (c_sender_id (n_ctx n)) -> uN 64 (c_seq (n_ctx n)) -> bytes_ok pl -> packet_ok (built mt pl n).
Proof.
  intros Hs Hq Hb. constructor; cbn; auto; try discriminate; try (vm_compute; split; congruence).
  intros r [= <-]. split; [reflexivity | apply bytes_okb_ok; reflexivity].
Qed.

Lemma envelope_fits e b : env_ok e -> encode_envelope e = Ok b -> len b <= MAX_PAYLOAD_LEN /\ bytes_ok b.
Proof.
  intros He Hb. pose proof (envelope_cases e He) as H. rewrite Hb in H. destruct H as [_ H].
  split; [unfold MAX_PAYLOAD_LEN; lia | now apply (encode_envelope_bytes e)].
Qed.

(** What a node's links and its role depend on *)
Definition same_link (n n' : Nd) : Prop :=
  c_peers (n_ctx n') = c_peers (n_ctx n) /\ c_head (n_ctx n') = c_head (n_ctx n)
  /\ c_citizen (n_ctx n') = c_citizen (n_ctx n) /\ t_swap (n_state n') = t_swap (n_state n)
  /\ t_verify_before_relay (n_state n') = t_verify_before_relay (n_state n).

Lemma run_local_tx (a : Nd) wire :
  bytes_ok wire -> len wire <= 255 -> (forall h, head_latest (c_head (n_ctx a)) = Some h -> uN 32 h) ->
  exists pl f a1,
    encode_envelope (own_envelope a wire) = Ok pl
    /\ encode (built MtNimiqTx pl a) = Ok f
    /\ flood_local_tx wire a = (a1, Some tt)
    /\ n_log a1 = n_log a ++ sends f None (c_peers (n_ctx a))
    /\ c_ledger (n_ctx a1) = ledger_record (c_ledger (n_ctx a)) (mock_tx_id wire) Outgoing
    /\ t_relay_seen (n_state a1)
       = (dedup_insert (t_relay_seen (n_state a)) (relay_key (built MtNimiqTx pl a))).1
    /\ same_link a a1 /\ t_limiter (n_state a1) = t_limiter (n_state a) /\ t_policy (n_state a1) = t_policy (n_state a).
Proof.
  intros Hw Hl Hh. pose proof (own_envelope_ok a wire Hw Hh) as He.
  assert (Hpl : exists pl, encode_envelope (own_envelope a wire) = Ok pl).
  { pose proof (envelope_cases _ He) as H. destruct (encode_envelope _) as [pl|[]|]; eauto; try contradiction.
    destruct H as [(_ & -> & H)|(_ & H & _)]; [cbn in H; lia | now destruct H]. }
  destruct Hpl as [pl Hpl]. destruct (envelope_fits _ _ He Hpl) as [Hfit Hpb].
  assert (Hf : exists f, encode (built MtNimiqTx pl a) = Ok f).
  { unfold encode. cbn [Packet.payload built]. destruct (Z.gtb_spec (len pl) MAX_PAYLOAD_LEN); [lia | eauto]. }
  destruct Hf as [f Hf]. exists pl, f. unfold flood_local_tx.
  act (run_gets (fun n : Nd => head_latest (c_head (n_ctx n))) a). act (run_gets (fun n : Nd => n) a).
  act (run_decoded _ _ a Hpl). act (run_build MtNimiqTx pl a).
  set (p := built MtNimiqTx pl a) in *. set (a0 := set_seq _ a).
  destruct (run_mark (relay_key p) a0) as [b Hm]. act Hm. set (a1 := set_relay_seen _ a0).
  destruct (remember_spec p a1) as [cnt Hr]. act Hr. set (a2 := set_counters cnt _).
  act (run_modify (fun n => set_ledger (ledger_record (c_ledger (n_ctx n)) (mock_tx_id wire) Outgoing) n) a2).
  set (a3 := set_ledger _ a2). act (run_decoded _ _ a3 Hf). act (run_now a3).
  act (run_gets (fun n : Nd => Z.of_nat (size (c_peers (n_ctx n)))) (tick_clock a3)).
  match goal with |- context [modify ?g] => act (run_modify g (tick_clock a3)) end.
  set (a4 := set_pending _ (tick_clock a3)). destruct (flood_spec f None a4) as [cnt' Hfl].
  eexists. split_and!; first [exact Hpl | exact Hf | exact Hfl | reflexivity | unfold same_link; split_and!; reflexivity].
Qed.

(** ** The gateway *)

(** The submission a gateway makes of an envelope that carries its id. *)
Definition submission (e : NimiqEnvelope) : SubmitContext :=
  mkSubmit (tx_id_of e) (tx_wire e) (network_id e) (valid_until e).

(** A gateway ready for a transaction it has not seen. *)
Record ready (g : Nd) (gw : G) (e : NimiqEnvelope) (p : Packet) : Prop := {
  rd_gateway : c_gateway (n_ctx g) = Some gw;
  rd_unseen : dedup_contains (t_relay_seen (n_state g)) (relay_key p) = false;
  rd_unclaimed : dedup_contains (t_gateway_seen (n_state g)) (tx_id_of e) = false;
  rd_unacked : dedup_contains (t_acked (n_state g)) (tx_id_of e) = false;
  rd_open : is_expired (head_latest (c_head (n_ctx g))) (valid_until e) = false;
  rd_verified : t_verify_before_relay (n_state g) = true -> verify_basic_wire (tx_wire e) = true
}.

Lemma run_submit_new sub (n : Nd) gw :
  c_gateway (n_ctx n) = Some gw -> dedup_contains (t_gateway_seen (n_state n)) (su_tx_id sub) = false ->
  submit_new sub n
  = (set_gateway (Some (submit_validated gw sub).1)
       (emit (Submit sub) (set_gateway_seen (dedup_insert (t_gateway_seen (n_state n)) (su_tx_id sub)).1 n)),
     Some (Some (submit_validated gw sub).2)).
Proof.
  intros Hg H. unfold submit_new, submit_call, claim_submission, ask_gateway, this, gets, modify, mbind, M_bind, mret, M_ret.
  destruct (dedup_insert _ _) as [d fresh] eqn:E. unfold dedup_insert in E. rewrite H in E.
  assert (fresh = true) as -> by (repeat case_hyp E; congruence). cbn [negb].
  change (c_gateway (n_ctx (emit _ _))) with (c_gateway (n_ctx n)). rewrite Hg. now destruct (submit_validated gw sub).
Qed.

(** The packet a gateway answers with. *)
Definition receipt_packet (g : Nd) (id : bytes) (s : ReceiptStatus) : Packet :=
  built MtNimiqTxReceipt (encode_receipt id s) g.

Lemma run_gateway_submit (n : Nd) gw e rc f :
  c_gateway (n_ctx n) = Some gw ->
  dedup_contains (t_gateway_seen (n_state n)) (tx_id_of e) = false ->
  (submit_validated gw (submission e)).2 = Ok rc ->
  encode (receipt_packet n (rc_tx_id rc) (rc_status rc)) = Ok f ->
  exists n', gateway_submit e (tx_id_of e) n = (n', Some tt)
    /\ n_log n' = n_log n ++ [Submit (submission e)] ++ sends f None (c_peers (n_ctx n)) /\ same_link n n'
    /\ c_gateway (n_ctx n') = Some (submit_validated gw (submission e)).1.
Proof.
  intros Hg Hc Hs Hf. unfold gateway_submit. fold (submission e).
  act (run_gets (fun n : Nd => match c_gateway (n_ctx n) with Some _ => true | None => false end) n).
  rewrite Hg. cbn [negb]. act (run_submit_new (submission e) n gw Hg Hc). rewrite Hs. set (n2 := set_gateway _ _).
  act (run_build MtNimiqTxReceipt (encode_receipt (rc_tx_id rc) (rc_status rc)) n2).
  set (n3 := set_seq _ n2). set (r := built _ _ n2). destruct (run_mark (relay_key r) n3) as [b Hm]. act Hm.
  set (n4 := set_relay_seen _ n3). destruct (run_flood_packet r f n4 Hf) as [cnt Hfl].
  eexists. split_and!; [exact Hfl | cbn; now rewrite <- app_assoc | unfold same_link; split_and!; reflexivity | reflexivity].
Qed.

Lemma run_tx (n : Nd) gw e p src rc f :
  ready n gw e p -> decode_envelope (Packet.payload p) = Ok e ->
  (submit_validated gw (submission e)).2 = Ok rc ->
  encode (receipt_packet n (rc_tx_id rc) (rc_status rc)) = Ok f ->
  exists n' more, handle_tx p src n = (n', Some tt)
    /\ n_log n' = n_log n ++ [Submit (submission e)] ++ sends f None (c_peers (n_ctx n)) ++ more
    /\ (more = [] \/ exists f', more = sends f' src (c_peers (n_ctx n))) /\ t_swap (n_state n') = t_swap (n_state n)
    /\ c_gateway (n_ctx n') = Some (submit_validated gw (submission e)).1.
Proof.
  intros [Hg Hu Hc Ha Ho Hv] Hd Hs Hf. unfold handle_tx. rewrite (run_first_seen p _ n Hu).
  set (n0 := set_relay_seen _ n). act (run_gets (fun n : Nd => head_latest (c_head (n_ctx n))) n0).
  assert (Hvu : tx_valid_until p = valid_until e) by (unfold tx_valid_until; now rewrite Hd).
  change (c_head (n_ctx n0)) with (c_head (n_ctx n)). rewrite Hvu, Ho. act (run_decoded _ _ n0 Hd). act (run_gets (fun n : Nd => n) n0).
  assert (Hver : t_verify_before_relay (n_state n0) && negb (verify_basic_wire (tx_wire e)) = false).
  { destruct (t_verify_before_relay (n_state n)) eqn:E; [|exact (f_equal (fun b => b && _) E)].
    rewrite (Hv eq_refl). apply andb_false_r. }
  rewrite Hver. change (t_acked (n_state n0)) with (t_acked (n_state n)). rewrite Ha.
  destruct (remember_spec p n0) as [cnt Hr]. act Hr. set (n1 := set_counters cnt _).
  destruct (run_gateway_submit n1 gw e rc f Hg Hc Hs Hf) as (n2 & Hn2 & Hl2 & (Hp2 & _ & _ & Hw2 & _) & Hg2). act Hn2.
  destruct (relay_spec p src n2) as (cnt' & cz & pol & es & Hrel & Hes).
  eexists _, es. split; [exact Hrel|]. cbn. rewrite Hl2. change (n_log n1) with (n_log n). change (c_peers (n_ctx n1)) with (c_peers (n_ctx n)).
  split_and!; [now rewrite <- !app_assoc | | exact Hw2 | exact Hg2]. destruct Hes as [->|(t & f' & _ & _ & ->)]; [now left | right].
  exists f'. now rewrite Hp2.
Qed.

(** ** The origin again *)

Lemma run_receipt (n : Nd) p src id s :
  dedup_contains (t_relay_seen (n_state n)) (relay_key p) = false ->
  decode_receipt (Packet.payload p) = Ok (Some (id, s)) ->
  exists n', handle_receipt p src n = (n', Some tt)
    /\ c_ledger (n_ctx n') = ledger_settle (c_ledger (n_ctx n)) id (payment_status s)
    /\ t_pending (n_state n') = pending_clear (t_pending (n_state n)) id.
Proof.
  intros Hu Hd. unfold handle_receipt. rewrite (run_first_seen p _ n Hu). set (n0 := set_relay_seen _ n).
  destruct (remember_spec p n0) as [cnt Hr]. act Hr. set (n1 := set_counters cnt _).
  act (run_decoded _ _ n1 Hd).
  match goal with |- exists n', (?m ≫= ?k) ?n = _ /\ _ =>
    pose proof (eq_refl : m n = ((m n).1, Some tt)) as Hm end. act Hm.
  match goal with |- context [relay_onward p src ?n2] =>
    destruct (relay_spec p src n2) as (cnt' & cz & pol & es & Hrel & _) end.
  eexists. split; [exact Hrel|]. split; reflexivity.
Qed.

(** Whatever the rest of an inbound job does, payments only move forward. *)
Lemma job_since (n : Nd) h j :
  bounded h n -> job_bytes j -> since n (catch (run_job j) n) /\ exists h', bounded h' (catch (run_job j) n).
Proof.
  intros Hn Hj. destruct (job_keeps True _ _ _ (stable_closed True _ _ _ (progress_stable n)) (or_introl I) h j n)
    as [[h' [Hb Hs]] _]; [destruct j; cbn in *; auto | split; [exact Hn | apply since_refl] | eauto].
Qed.

Lemma fast_since (n : Nd) h : bounded h n -> since n (fast_tick_job n).1.
Proof.
  intros Hn. pose proof (keep_fast_tick True _ _ _ (stable_closed True _ _ _ (progress_stable n)) h n) as H.
  destruct (fast_tick_job n) as [n' [a|]]; [apply H; split; [exact Hn | apply since_refl]|].
  destruct H as [_ [h' [_ H]]]; [split; [exact Hn | apply since_refl] | exact H].
Qed.

Lemma inbound_bounded (n : Nd) h src frame :
  bounded h n -> bytes_ok frame -> exists h', bounded h' (process_inbound src frame n).1.
Proof.
  intros Hn Hf.
  pose proof (keep_inbound True _ _ _ (stable_closed True _ _ _ bounded_stable) (or_introl I) h src frame
                (conj Hf (fun _ _ _ => I)) n Hn) as H.
  destruct (process_inbound src frame n) as [n' [x|]]; [exact H | exact (proj2 H)].
Qed.

(** An inbound job whose frame is processed to the end: the rest only moves
    forward. *)
Lemma inbound_job (n n' : Nd) h src frame :
  bounded h n -> bytes_ok frame -> process_inbound src frame n = (n', Some tt) ->
  since n' (catch (run_job (Inbound src frame)) n).
Proof.
  intros Hn Hf Hp. destruct (inbound_bounded n h src frame Hn Hf) as [h' Hb]. rewrite Hp in Hb.
  unfold catch. cbn [run_job]. rewrite (run_bind _ _ _ _ _ Hp). exact (fast_since n' h' Hb).
Qed.

Lemma node_bounded (n : Nd) : node_ok n -> bounded (held (t_reassembler (n_state n))) n.
Proof. intros H. split; [exact H | reflexivity]. Qed.

Lemma insert_other {K} `{Countable K} (c : DedupCache (K := K)) k k' :
  k' <> k -> dedup_contains c k' = false -> dedup_contains (dedup_insert c k).1 k' = false.
Proof.
  unfold dedup_insert, dedup_contains. intros Hne Hc. apply bool_decide_eq_false in Hc.
  destruct (bool_decide (k ∈ dc_set c)); [now apply bool_decide_eq_false|].
  repeat case_goal; cbn; apply bool_decide_eq_false; set_solver.
Qed.

Lemma sends_elem f peer (ps : gset string) : peer ∈ ps -> Send peer f ∈ sends f None ps.
Proof.
  intros H'. unfold sends. apply list_elem_of_fmap. exists peer. split; [reflexivity|].
  apply list_elem_of_filter. split; [discriminate | now apply elem_of_elements].
Qed.

Lemma encode_bytes p f : packet_ok p -> encode p = Ok f -> bytes_ok f.
Proof.
  unfold encode. intros Hp. destruct (_ >? _); [discriminate|]. intros [= <-].
  pose proof (encode_unpadded_bytes p Hp) as Hb. unfold apply_padding.
  repeat case_goal; auto. apply bytes_ok_app. split; [exact Hb|].
  apply Forall_replicate. now apply Z.mod_pos_bound.
Qed.

(** A gateway that hears a transaction, to the end of the job. *)
Lemma gateway_hears (g : Nd) gw e p src frame rc r :
  node_ok g -> packet_ok p -> version p = VERSION -> is_rsr (flags p) = false -> msg_type p = MtNimiqTx ->
  encode p = Ok frame -> decode_envelope (Packet.payload p) = Ok e -> ready g gw e p ->
  (limiter_allow (t_limiter (n_state g)) src (clock (n_reads g))).1 = true ->
  (submit_validated gw (submission e)).2 = Ok rc ->
  encode (receipt_packet g (rc_tx_id rc) (rc_status rc)) = Ok r ->
  let g1 := catch (run_job (Inbound (Some src) frame)) g in
  Submit (submission e) ∈ n_log g1 /\ (forall peer, peer ∈ c_peers (n_ctx g) -> Send peer r ∈ n_log g1).
Proof.
  intros Hg Hp Hv Hrsr Ht Hf Hd Hready Hrate Hsub Hr.
  pose proof (run_inbound src frame p g Hrate (encode_decode _ _ Hp Hv Hf) Hrsr ltac:(congruence)) as Hrun.
  set (g0 := set_limiter _ _) in Hrun. assert (Hready0 : ready g0 gw e p) by (destruct Hready; now constructor).
  destruct (run_tx g0 gw e p (Some src) rc r Hready0 Hd Hsub Hr) as (g' & more & Hg' & Hl & _).
  assert (Hgp : process_inbound (Some src) frame g = (g', Some tt)).
  { rewrite Hrun. unfold dispatch, dispatch_fuel. act (run_gets (fun n : Nd => n) g0).
    cbn [dispatch_packet]. now rewrite Ht. }
  destruct (si_log _ _ (inbound_job g g' _ _ _ (node_bounded g Hg) (encode_bytes _ _ Hp Hf) Hgp)) as [es Hes].
  cbv zeta. rewrite Hes, Hl. change (c_peers (n_ctx g0)) with (c_peers (n_ctx g)). split; [|intros peer Hpeer];
    apply elem_of_app; left; apply elem_of_app; right; [left | right].
  apply elem_of_app. left. now apply sends_elem.
Qed.

(** A node that hears a receipt for a payment it tracks, to the end of the job. *)
Lemma origin_hears (a : Nd) h p src frame id s d :
  bounded h a -> packet_ok p -> version p = VERSION -> is_rsr (flags p) = false -> msg_type p = MtNimiqTxReceipt ->
  encode p = Ok frame -> decode_receipt (Packet.payload p) = Ok (Some (id, s)) ->
  (limiter_allow (t_limiter (n_state a)) src (clock (n_reads a))).1 = true ->
  dedup_contains (t_relay_seen (n_state a)) (relay_key p) = false ->
  c_ledger (n_ctx a) !! id = Some (mkSettlement Pending d) ->
  c_ledger (n_ctx (catch (run_job (Inbound (Some src) frame)) a)) !! id = Some (mkSettlement (payment_status s) d).
Proof.
  intros Ha Hp Hv Hrsr Ht Hf Hd Hrate Hu Hl.
  pose proof (run_inbound src frame p a Hrate (encode_decode _ _ Hp Hv Hf) Hrsr ltac:(congruence)) as Hrun.
  set (a0 := set_limiter _ _) in Hrun.
  destruct (run_receipt a0 p (Some src) id s Hu Hd) as (a' & Ha' & Hled & _).
  assert (Hap : process_inbound (Some src) frame a = (a', Some tt)).
  { rewrite Hrun. unfold dispatch, dispatch_fuel. act (run_gets (fun n : Nd => n) a0).
    cbn [dispatch_packet]. now rewrite Ht. }
  pose proof (inbound_job a a' h _ _ Ha (encode_bytes _ _ Hp Hf) Hap) as Hs.
  destruct (si_ledger _ _ Hs id (mkSettlement (payment_status s) d)) as (y & Hy & _ & Hfin).
  - rewrite Hled. change (c_ledger (n_ctx a0)) with (c_ledger (n_ctx a)).
    rewrite ledger_settle_lookup, Hl, decide_True by reflexivity. reflexivity.
  - rewrite (Hfin ltac:(destruct s; discriminate)) in Hy. exact Hy.
Qed.

(** The receipt a gateway answers with is a frame. *)
Lemma receipt_frame (g : Nd) id s :
  array_ok 8 (c_sender_id (n_ctx g)) -> uN 64 (c_seq (n_ctx g)) -> array_ok 32 id ->
  packet_ok (receipt_packet g id s) /\ exists r, encode (receipt_packet g id s) = Ok r.
Proof.
  intros Hs Hq [Hl Hb]. assert (Hrl : len (encode_receipt id s) = 33).
  { unfold encode_receipt. rewrite len_app, Hl. reflexivity. }
  split; [|unfold encode, receipt_packet; cbn [Packet.payload built]; rewrite Hrl; cbn; eauto].
  apply built_ok; [exact Hs | exact Hq|]. apply bytes_ok_app. split; [exact Hb|].
  destruct s; now apply bytes_okb_ok.
Qed.
End payment.

(** ** Properties *)

Section properties.
Context {C : Crypto} {V : Type} {FV : FundingVerifier V} {S : Type} {SG : SwapSigner S}
  {R : Type} {RR : RelayRng R} {G : Type} {MG : MeshGateway G} {CK : Clock}.

(** A payment reaches the chain and settles.  Take any two nodes in order: an
    origin that does not track the payment yet, and a gateway that has not seen it,
    is within the link's rate, and whose gateway accepts the submission.  The frame
    the origin floods makes the gateway submit exactly the signed bytes, for the
    origin's network and validity window, and flood a receipt; and that receipt,
    back at the origin, settles the payment. *)
Theorem payment_settles (a g : @Node V S R G) (gw : G) (wire : bytes) (pa pg : string)
    (Ha : node_ok a) (Hg : node_ok g)
    (Hw : bytes_ok wire) (Hl : len wire <= 255)
    (Hhead : forall h, head_latest (c_head (n_ctx a)) = Some h -> uN 32 h)
    (Hsa : array_ok 8 (c_sender_id (n_ctx a))) (Hqa : uN 64 (c_seq (n_ctx a)))
    (Hsg : array_ok 8 (c_sender_id (n_ctx g))) (Hqg : uN 64 (c_seq (n_ctx g)))
    (Hnew : c_ledger (n_ctx a) !! mock_tx_id wire = None)
    (Hready : ready g gw (own_envelope a wire) (built MtNimiqTx [] a))
    (Hrate : (limiter_allow (t_limiter (n_state g)) pa (clock (n_reads g))).1 = true)
    (Hsub : (submit_validated gw (submission (own_envelope a wire))).2
            = Ok (mkReceipt (mock_tx_id wire) RAccepted))
    (Hback : dedup_contains (t_relay_seen (n_state a)) (relay_key (built MtNimiqTxReceipt [] g)) = false)
    (Hrate' : let a1 := catch (run_job (LocalTx wire)) a in
              (limiter_allow (t_limiter (n_state a1)) pg (clock (n_reads a1))).1 = true) :
  exists f r,
    let a1 := catch (run_job (LocalTx wire)) a in
    let g1 := catch (run_job (Inbound (Some pa) f)) g in
    let a2 := catch (run_job (Inbound (Some pg) r)) a1 in
    (forall peer, peer ∈ c_peers (n_ctx a) -> Send peer f ∈ n_log a1)
    /\ Submit (submission (own_envelope a wire)) ∈ n_log g1
    /\ (forall peer, peer ∈ c_peers (n_ctx g) -> Send peer r ∈ n_log g1)
    /\ c_ledger (n_ctx a2) !! mock_tx_id wire = Some (mkSettlement Settled Outgoing).
Proof.
  destruct (run_local_tx a wire Hw Hl Hhead) as (pl & f & a1 & Hpl & Hf & Ha1 & Hlog1 & Hled1 & Hseen1 & _).
  pose proof (own_envelope_ok a wire Hw Hhead) as He. destruct (envelope_fits _ _ He Hpl) as [_ Hpb].
  pose proof (built_ok MtNimiqTx pl a Hsa Hqa Hpb) as Hp. pose proof (mock_tx_id_ok wire) as Hid.
  destruct (receipt_frame g _ RAccepted Hsg Hqg Hid) as [Hr [r Hre]]. exists f, r.
  destruct (job_since a _ (LocalTx wire) (node_bounded a Ha) I) as [_ [h1 Hb1]].
  assert (Hc1 : catch (run_job (LocalTx wire)) a = a1) by (unfold catch; cbn [run_job]; now rewrite Ha1).
  cbv zeta in *. rewrite Hc1 in *.
  destruct (gateway_hears g gw (own_envelope a wire) (built MtNimiqTx pl a) pa f (mkReceipt (mock_tx_id wire) RAccepted) r)
    as [Hsubmit Hsend]; auto.
  { now apply envelope_decode. }
  { destruct Hready. now constructor. }
  split_and!; [|exact Hsubmit | exact Hsend|].
  - intros peer Hpeer. rewrite Hlog1. apply elem_of_app. right. now apply sends_elem.
  - apply (origin_hears a1 h1 (receipt_packet g (mock_tx_id wire) RAccepted) pg r _ RAccepted Outgoing); auto;
      try exact (decode_receipt_at _ 0 (proj1 Hid)).
    + rewrite Hseen1. apply insert_other; [discriminate | exact Hback].
    + rewrite Hled1, ledger_record_lookup, Hnew, decide_True by reflexivity. reflexivity.
Qed.
End properties.

(** ** A concrete payment *)

Definition payer : SampleNode := apply_event sample_origin (EvPeerConnected "gateway").

Definition payee_gateway : SampleNode := apply_event sample_gateway (EvPeerConnected "origin").

Lemma payment_settles_witness :
  exists f r,
    let a1 := catch (run_job (LocalTx [1; 2; 3])) payer in
    let g1 := catch (run_job (Inbound (Some "origin") f)) payee_gateway in
    let a2 := catch (run_job (Inbound (Some "gateway") r)) a1 in
    (forall peer, peer ∈ c_peers (n_ctx payer) -> Send peer f ∈ n_log a1)
    /\ Submit (submission (own_envelope payer [1; 2; 3])) ∈ n_log g1
    /\ (forall peer, peer ∈ c_peers (n_ctx payee_gateway) -> Send peer r ∈ n_log g1)
    /\ c_ledger (n_ctx a2) !! mock_tx_id [1; 2; 3] = Some (mkSettlement Settled Outgoing).
Proof.
  assert (Ha : node_ok payer) by exact (proj1 (node_new_ok _ _ _ _ _ _ _ _)).
  assert (Hg : node_ok payee_gateway) by exact (proj1 (node_new_ok _ _ _ _ _ _ _ _)).
  apply (payment_settles payer payee_gateway (mock_gateway_new Testnet) [1; 2; 3] "origin" "gateway" Ha Hg).
  1: now apply bytes_okb_ok.
  1: now vm_compute.
  1: discriminate.
  1-4: (split; [vm_compute; reflexivity | apply bytes_okb_ok; vm_compute; reflexivity]) || (vm_compute; split; congruence).
  2: split; (vm_compute; reflexivity) || discriminate.
  all: vm_compute; reflexivity.
Defined.
