(* ===== verification/MockRadio.v ===== *)
(** * MockRadio: a mesh of nodes over a simulated radio ([mock_radio.rs], [radio.rs])

    The ether carries one transmission at a time, in the order the radios handed them over,
    and cuts or drops it; the harness owns the nodes.  The worker of each node, its radio and
    the delivery thread of the ether are three kinds of threads; a run of the mesh is any
    interleaving of their steps with calls from outside.  A worker hands the sends of a job to
    its radio one by one before it takes the next job.  The sleeps for the latency, the drain
    barriers of the tests and the drop of a node by its owner are left out: the harness keeps
    its nodes, so a weak reference to one is its peer id. *)

From stdpp Require Import base list gmap strings sets relations.
From Stdlib Require Import ZArith Lia SpecFloat.
From S2P Require Import Prelude Packet Codec Envelope SwapWire SwapIntent Crypto FundingVerify SwapSession SwapNode Dedup Fragment Gcs Relay StoreForward Beacon Settlement Balance Chat Address NimTx Gateway Engine EngineLogic EngineProps.
Open Scope Z_scope.

(** ** The ether *)

Record Transmit : Type := mkTransmit {
  tm_src_peer : string;
  tm_src_node : option string;
  tm_dst_peer : string;
  tm_bytes : bytes
}.

Record EtherConfig : Type := mkEtherConfig {
  ec_latency : Z;
  ec_loss : spec_float;
  ec_partitions : gset (string * string)
}.

Definition config_default : EtherConfig := mkEtherConfig 0 (f64_of 0) ∅.

(** [EtherInner] without the registry, which is the domain of the harness's nodes; [me_open]
    says whether the sending half of the channel is there. *)
Record MockEther : Type := mkEther {
  me_config : EtherConfig;
  me_queue : list Transmit;
  me_open : bool;
  me_rng : Z;
  me_enqueued : Z
}.

Definition ether_new : MockEther := mkEther config_default [] true 0x9E3779B97F4A7C15 0.

Definition roll_loss (rng : Z) (loss : spec_float) : bool * Z :=
  if SFleb loss (f64_of 0) then (false, rng) else
  if SFleb (f64_of 1) loss then (true, rng) else
  let x := xor_shl (xor_shr (xor_shl rng 13) 7) 17 in
  (SFltb (f64_div (f64_of x) (f64_of (2 ^ 64 - 1))) loss, x).

(** [fetch_add] counts whether or not the channel is open. *)
Definition enqueue (e : MockEther) (t : Transmit) : MockEther :=
  mkEther (me_config e) (if me_open e then me_queue e ++ [t] else me_queue e) (me_open e) (me_rng e)
    (wrapN 64 (me_enqueued e + 1)).

Definition with_config (e : MockEther) (c : EtherConfig) : MockEther :=
  mkEther c (me_queue e) (me_open e) (me_rng e) (me_enqueued e).

Definition set_latency (e : MockEther) (latency : Z) : MockEther :=
  with_config e (mkEtherConfig latency (ec_loss (me_config e)) (ec_partitions (me_config e))).

Definition set_loss (e : MockEther) (loss : spec_float) : MockEther :=
  with_config e (mkEtherConfig (ec_latency (me_config e)) (f64_clamp loss (f64_of 0) (f64_of 1)) (ec_partitions (me_config e))).

Definition partition (e : MockEther) (a b : string) : MockEther :=
  with_config e (mkEtherConfig (ec_latency (me_config e)) (ec_loss (me_config e))
                   ({[(a, b); (b, a)]} ∪ ec_partitions (me_config e))).

Definition heal (e : MockEther) (a b : string) : MockEther :=
  with_config e (mkEtherConfig (ec_latency (me_config e)) (ec_loss (me_config e))
                   (ec_partitions (me_config e) ∖ {[(a, b); (b, a)]})).

(** [MockEther::shutdown] drops the sender; the thread still drains the queue. *)
Definition ether_shutdown (e : MockEther) : MockEther :=
  mkEther (me_config e) (me_queue e) false (me_rng e) (me_enqueued e).

(** What the outside does to the ether *)
Inductive EtherOp : Type :=
| OpLatency (latency : Z)
| OpLoss (loss : spec_float)
| OpPartition (a b : string)
| OpHeal (a b : string)
| OpShutdown.

Definition ether_apply (e : MockEther) (op : EtherOp) : MockEther :=
  match op with
  | OpLatency l => set_latency e l
  | OpLoss x => set_loss e x
  | OpPartition a b => partition e a b
  | OpHeal a b => heal e a b
  | OpShutdown => ether_shutdown e
  end.

(** ** The radio *)

Record MockRadio : Type := mkRadio {
  mr_peer_id : string;
  mr_node : option string;
  mr_advertising : bool;
  mr_scanning : bool;
  mr_stopped : bool
}.

Definition radio_new (peer : string) : MockRadio := mkRadio peer None false false false.
Definition bind (r : MockRadio) (node : string) : MockRadio :=
  mkRadio (mr_peer_id r) (Some node) (mr_advertising r) (mr_scanning r) (mr_stopped r).
Definition start_advertising (r : MockRadio) : MockRadio :=
  mkRadio (mr_peer_id r) (mr_node r) true (mr_scanning r) (mr_stopped r).
Definition start_scanning (r : MockRadio) : MockRadio :=
  mkRadio (mr_peer_id r) (mr_node r) (mr_advertising r) true (mr_stopped r).
Definition is_up (r : MockRadio) : bool := mr_advertising r && mr_scanning r.
Definition stop (r : MockRadio) : MockRadio := mkRadio (mr_peer_id r) (mr_node r) false false true.

Definition radio_send (r : MockRadio) (e : MockEther) (peer : string) (frame : bytes) : MockEther :=
  if mr_stopped r then e else enqueue e (mkTransmit (mr_peer_id r) (mr_node r) peer frame).

(** [RelayPolicy::deterministic] *)
Definition policy_deterministic : RelayPolicy XorShiftRng := policy_custom (xorshift_seeded 0xD1CE5EED).

(** ** The harness *)

Section mesh.
Context {C : Crypto} {V : Type} {FV : FundingVerifier V} {S : Type} {SG : SwapSigner S}
  {G : Type} {MG : MeshGateway G} {CK : Clock}.

Abbreviation Nd := (@Node V S XorShiftRng G).

(** A [MeshNode] with its radio: the queue of its worker, whether the queue takes jobs,
    whether the worker runs, and how many effects of the node were handed to the radio *)
Record MeshNode : Type := mkMeshNode {
  mn_node : Nd;
  mn_radio : MockRadio;
  mn_jobs : list Job;
  mn_open : bool;
  mn_alive : bool;
  mn_sent : nat
}.

Record MeshHarness : Type := mkHarness { mh_ether : MockEther; mh_nodes : gmap string MeshNode }.

Definition harness_new : MeshHarness := mkHarness ether_new ∅.

Definition put (h : MeshHarness) (peer : string) (m : MeshNode) : MeshHarness :=
  mkHarness (mh_ether h) (<[peer := m]> (mh_nodes h)).
Definition with_ether (h : MeshHarness) (e : MockEther) : MeshHarness := mkHarness e (mh_nodes h).
Definition with_node (m : MeshNode) (n : Nd) : MeshNode :=
  mkMeshNode n (mn_radio m) (mn_jobs m) (mn_open m) (mn_alive m) (mn_sent m).
Definition with_radio (m : MeshNode) (r : MockRadio) : MeshNode :=
  mkMeshNode (mn_node m) r (mn_jobs m) (mn_open m) (mn_alive m) (mn_sent m).

(** [MeshNode::build] around a node and an unbound radio: the radio is brought up. *)
Definition mesh_node_new (n : Nd) (r : MockRadio) : MeshNode :=
  mkMeshNode n (start_scanning (start_advertising r)) [] true true 0.

Definition attach (h : MeshHarness) (peer : string) (m : MeshNode) : MeshHarness :=
  put h peer (with_radio m (bind (mn_radio m) peer)).

(** [seq] is the clock seed of the node. *)
Definition add_node (h : MeshHarness) (peer : string) (sender : bytes) (seq : Z) : MeshHarness :=
  attach h peer (mesh_node_new (node_new sender None policy_deterministic false None None Testnet seq) (radio_new peer)).

Definition add_verifying_node (h : MeshHarness) (peer : string) (sender : bytes) (seq : Z) : MeshHarness :=
  attach h peer (mesh_node_new (node_new sender None policy_deterministic true None None Testnet seq) (radio_new peer)).

Definition add_gateway (h : MeshHarness) (peer : string) (sender : bytes) (gateway : G) (seq : Z) : MeshHarness :=
  attach h peer (mesh_node_new (node_new sender (Some gateway) policy_deterministic false None None Testnet seq) (radio_new peer)).

(** [adopt]: a node built elsewhere, with the radio it was built with *)
Definition adopt (h : MeshHarness) (peer : string) (m : MeshNode) : MeshHarness := attach h peer m.

(** A callback on a node: a job goes to its queue, if it is open; the others touch its
    context at once. *)
Definition node_event (m : MeshNode) (e : @Event V) : MeshNode :=
  match e with
  | EvJob j => if mn_open m then mkMeshNode (mn_node m) (mn_radio m) (mn_jobs m ++ [j]) (mn_open m) (mn_alive m) (mn_sent m) else m
  | _ => with_node m (apply_event (mn_node m) e)
  end.

Definition at_node (h : MeshHarness) (peer : string) (f : MeshNode -> MeshNode) : MeshHarness :=
  match mh_nodes h !! peer with Some m => put h peer (f m) | None => h end.

Definition connect (h : MeshHarness) (a b : string) : MeshHarness :=
  match mh_nodes h !! a, mh_nodes h !! b with
  | Some _, Some _ =>
      let h := at_node h a (fun m => node_event m (EvPeerConnected b)) in
      at_node h b (fun m => node_event m (EvPeerConnected a))
  | _, _ => h
  end.

(** [do_shutdown]: the first call closes the queue behind a [Shutdown] job. *)
Definition shutdown_node (m : MeshNode) : MeshNode :=
  if mn_open m then mkMeshNode (mn_node m) (mn_radio m) (mn_jobs m ++ [Shutdown]) false (mn_alive m) (mn_sent m) else m.

(** Its end, once the worker is joined: the radio is released. *)
Definition release_node (m : MeshNode) : MeshNode :=
  if negb (mn_open m) && negb (mn_alive m) && (mn_sent m =? length (n_log (mn_node m)))%nat
  then with_radio m (stop (mn_radio m)) else m.

(** ** Steps *)

(** One turn of the worker's loop, when the sends of the last one are out *)
Definition work (h : MeshHarness) (peer : string) : MeshHarness :=
  match mh_nodes h !! peer with
  | None => h
  | Some m =>
      if mn_alive m && (mn_sent m =? length (n_log (mn_node m)))%nat then
        match mn_jobs m with
        | [] => h
        | Shutdown :: js => put h peer (mkMeshNode (mn_node m) (mn_radio m) js (mn_open m) false (mn_sent m))
        | j :: js =>
            put h peer (mkMeshNode (catch (run_job j) (mn_node m)) (mn_radio m) js (mn_open m) (mn_alive m) (mn_sent m))
        end
      else h
  end.

(** The next effect of a node: a frame goes to its radio; a submission was made in the job. *)
Definition send_next (h : MeshHarness) (peer : string) : MeshHarness :=
  match mh_nodes h !! peer with
  | None => h
  | Some m =>
      let m' := mkMeshNode (mn_node m) (mn_radio m) (mn_jobs m) (mn_open m) (mn_alive m) (Datatypes.S (mn_sent m)) in
      match n_log (mn_node m) !! mn_sent m with
      | None => h
      | Some (Submit _) => put h peer m'
      | Some (Send dst frame) => put (with_ether h (radio_send (mn_radio m) (mh_ether h) dst frame)) peer m'
      end
  end.

(** One turn of the delivery thread *)
Definition deliver (h : MeshHarness) : MeshHarness :=
  let e := mh_ether h in
  match me_queue e with
  | [] => h
  | t :: q =>
      let cfg := me_config e in
      let blocked := bool_decide ((tm_src_peer t, tm_dst_peer t) ∈ ec_partitions cfg) in
      let '(lost, rng) := if blocked then (true, me_rng e) else roll_loss (me_rng e) (ec_loss cfg) in
      let delivered := negb lost in
      let h := with_ether h (mkEther cfg q (me_open e) rng (me_enqueued e)) in
      let h := if delivered then at_node h (tm_dst_peer t) (fun m => node_event m (EvJob (Inbound (Some (tm_src_peer t)) (tm_bytes t)))) else h in
      match tm_src_node t with
      | Some src => at_node h src (fun m => node_event m (EvSendResult delivered))
      | None => h
      end
  end.

Inductive MeshEvent : Type :=
| MeWork (peer : string)
| MeSend (peer : string)
| MeDeliver
| MeCall (peer : string) (e : @Event V)
| MeConnect (a b : string)
| MeEther (op : EtherOp)
| MeShutdown (peer : string)
| MeRelease (peer : string).

Definition mesh_step (h : MeshHarness) (e : MeshEvent) : MeshHarness :=
  match e with
  | MeWork peer => work h peer
  | MeSend peer => send_next h peer
  | MeDeliver => deliver h
  | MeCall peer e => at_node h peer (fun m => node_event m e)
  | MeConnect a b => connect h a b
  | MeEther op => with_ether h (ether_apply (mh_ether h) op)
  | MeShutdown peer => at_node h peer shutdown_node
  | MeRelease peer => at_node h peer release_node
  end.

Definition mesh_run (h : MeshHarness) (es : list MeshEvent) : MeshHarness := foldl mesh_step h es.

(** A step of one of the threads *)
Definition internal (e : MeshEvent) : Prop :=
  match e with MeWork _ | MeSend _ | MeDeliver => True | _ => False end.

(** ** Every interleaving *)

(** A fresh harness: each node has its own radio, and nothing was sent yet. *)
Definition fresh_node (peer : string) (m : MeshNode) : Prop :=
  mr_peer_id (mn_radio m) = peer /\ mr_node (mn_radio m) = Some peer
  /\ mn_jobs m = [] /\ mn_sent m = 0%nat /\ n_log (mn_node m) = [].

Definition fresh_harness (h : MeshHarness) : Prop :=
  me_queue (mh_ether h) = [] /\ map_Forall fresh_node (mh_nodes h).

(** Frames reach a node through the ether only. *)
Definition outside (e : MeshEvent) : Prop :=
  match e with MeCall _ (EvJob (Inbound _ _)) => False | _ => True end.

(** The node at [src] has handed the frame for [dst] to its radio. *)
Definition said (h : MeshHarness) (src dst : string) (f : bytes) : Prop :=
  exists m, mh_nodes h !! src = Some m /\ Send dst f ∈ n_log (mn_node m).

Definition heard (h : MeshHarness) (peer : string) (j : Job) : Prop :=
  match j with
  | Inbound (Some src) f => said h src peer f
  | Inbound None _ => False
  | _ => True
  end.

(** The life of a node from [n0] on: a run of the engine, on frames its peers sent it. *)
Definition lived (h : MeshHarness) (peer : string) (n0 n : Nd) : Prop :=
  exists evs, n = run_events n0 evs /\ forall j, EvJob j ∈ evs -> heard h peer j.

Record traced (h0 h : MeshHarness) : Prop := mkTraced {
  tr_queue : forall t, t ∈ me_queue (mh_ether h) -> said h (tm_src_peer t) (tm_dst_peer t) (tm_bytes t);
  tr_nodes : forall peer m, mh_nodes h !! peer = Some m ->
    mr_peer_id (mn_radio m) = peer /\ Forall (heard h peer) (mn_jobs m)
    /\ exists m0, mh_nodes h0 !! peer = Some m0 /\ lived h peer (mn_node m0) (mn_node m)
}.

(** *** A computation of the node only adds to its log *)

Definition grows {A} (m : @M V S XorShiftRng G A) : Prop := forall n, exists es, n_log (m n).1 = n_log n ++ es.

Lemma grows_ret {A} (a : A) : grows (mret a).
Proof. intros n. exists []. by rewrite app_nil_r. Qed.
Lemma grows_skip : grows skip.
Proof. apply grows_ret. Qed.
Lemma grows_panic {A} : grows (A := A) panic.
Proof. intros n. exists []. by rewrite app_nil_r. Qed.
Lemma grows_gets {A} (f : Nd -> A) : grows (gets f).
Proof. intros n. exists []. by rewrite app_nil_r. Qed.
Lemma grows_modify f : (forall n, n_log (f n) = n_log n) -> grows (modify f).
Proof. intros H n. exists []. cbn. by rewrite app_nil_r. Qed.
Lemma grows_emit e : grows (modify (emit e)).
Proof. intros n. by exists [e]. Qed.
Lemma grows_bind {A B} (m : @M V S XorShiftRng G A) (k : A -> M B) : grows m -> (forall a, grows (k a)) -> grows (m ≫= k).
Proof.
  intros Hm Hk n. unfold mbind, M_bind. destruct (Hm n) as [es He]. destruct (m n) as [n' [a|]]; cbn in *; [|eauto].
  destruct (Hk a n') as [es' ->]. exists (es ++ es'). by rewrite He, app_assoc.
Qed.
Lemma grows_for_each {A} (l : list A) f : (forall x, grows (f x)) -> grows (for_each l f).
Proof. intros H. induction l; [apply grows_skip|]. by apply grows_bind. Qed.
Lemma grows_decoded {E A} (r : res E A) : grows (decoded r).
Proof. destruct r; [apply grows_ret..|apply grows_panic]. Qed.

(** Walk through a handler. *)
Ltac grow :=
  repeat match goal with
  | |- forall _, _ => intro
  | |- grows (mret _) => apply grows_ret
  | |- grows skip => apply grows_skip
  | |- grows panic => apply grows_panic
  | |- grows (gets _) => apply grows_gets
  | |- grows this => apply grows_gets
  | |- grows (modify (emit _)) => apply grows_emit
  | |- grows (modify _) => apply grows_modify; intros; reflexivity
  | |- grows (decoded _) => apply grows_decoded
  | |- grows (for_each _ _) => apply grows_for_each
  | |- grows (match ?x with _ => _ end) => destruct x
  | |- grows (_ ≫= _) => apply grows_bind
  | |- grows _ => solve [eauto with grows]
  end.

Create HintDb grows.

Lemma grows_bump k : grows (bump k).
Proof. unfold bump. grow. Qed.
Lemma grows_now : grows now_ms.
Proof. unfold now_ms. grow. Qed.
Lemma grows_seen k : grows (mark_seen k).
Proof. unfold mark_seen. grow. Qed.
#[local] Hint Resolve grows_bump grows_now grows_seen : grows.
Lemma grows_remember p : grows (remember p).
Proof. unfold remember. grow. Qed.
Lemma grows_flood f o : grows (flood_excluding f o).
Proof. unfold flood_excluding, unicast. grow. Qed.
#[local] Hint Resolve grows_remember grows_flood : grows.
Lemma grows_flood_packet p : grows (flood_packet p).
Proof. unfold flood_packet, flood. grow. Qed.
Lemma grows_build mt pl : grows (build_packet mt pl).
Proof. unfold build_packet, next_seq. grow. Qed.
#[local] Hint Resolve grows_flood_packet grows_build : grows.
Lemma grows_relay p src : grows (relay_onward p src).
Proof. unfold relay_onward, allowed, peer_degree. grow. Qed.
Lemma grows_originate mt pl : grows (originate mt pl).
Proof. unfold originate. grow. Qed.
#[local] Hint Resolve grows_relay grows_originate : grows.
Lemma grows_first_seen p k : grows k -> grows (first_seen p k).
Proof. intros H. unfold first_seen. grow. Qed.
Lemma grows_ask {A} (call : G -> G * A) : grows (ask_gateway call).
Proof. unfold ask_gateway. grow. Qed.
#[local] Hint Resolve grows_first_seen grows_ask : grows.
Lemma grows_swap_step e : grows (swap_step e).
Proof. unfold swap_step. grow. Qed.
#[local] Hint Resolve grows_swap_step : grows.
Lemma grows_tx p src : grows (handle_tx p src).
Proof. apply grows_first_seen. unfold cached_head, gateway_submit, submit_new, submit_call, has_gateway, claim_submission. grow. Qed.
Lemma grows_receipt p src : grows (handle_receipt p src).
Proof. apply grows_first_seen. unfold settle. grow. Qed.
Lemma grows_local_tx w : grows (flood_local_tx w).
Proof. unfold flood_local_tx, cached_head, record, peer_degree, flood. grow. Qed.
Lemma grows_emit_beacon : grows emit_head_beacon.
Proof. unfold emit_head_beacon, cache_head. grow. Qed.
Lemma grows_head_beacon p src : grows (handle_head_beacon p src).
Proof. apply grows_first_seen. unfold cache_head. grow. Qed.
Lemma grows_balance_query p src : grows (handle_balance_query p src).
Proof. apply grows_first_seen. unfold has_gateway, answer_balance, user_friendly, ask_answer, cache_balance. grow. Qed.
Lemma grows_balance_response p src : grows (handle_balance_response p src).
Proof. apply grows_first_seen. unfold cache_balance. grow. Qed.
Lemma grows_history_query p src : grows (handle_history_query p src).
Proof. apply grows_first_seen. unfold has_gateway, answer_history, user_friendly, ask_answer, cache_history, next_seq. grow. Qed.
Lemma grows_history_response p src : grows (handle_history_response p src).
Proof. apply grows_first_seen. unfold cache_history. grow. Qed.
Lemma grows_local_chat pl : grows (flood_local_chat pl).
Proof. unfold flood_local_chat, push_chat. grow. Qed.
Lemma grows_chat p src : grows (handle_chat_packet p src).
Proof. apply grows_first_seen. unfold push_chat. grow. Qed.
Lemma grows_swap_packet p src : grows (handle_swap_packet p src).
Proof. apply grows_first_seen. unfold cached_head, stale_intent, participant. grow. Qed.
#[local] Hint Resolve grows_tx grows_receipt grows_local_tx grows_emit_beacon grows_head_beacon grows_balance_query
  grows_balance_response grows_history_query grows_history_response grows_local_chat grows_chat grows_swap_packet : grows.

Lemma grows_dispatch fuel : forall p src, grows (dispatch_packet fuel p src).
Proof.
  induction fuel as [|fuel IH]; intros p src; cbn [dispatch_packet]; [apply grows_panic|].
  destruct (msg_type p); eauto with grows; apply grows_first_seen; unfold accept_fragment; grow.
Qed.
#[local] Hint Resolve grows_dispatch : grows.

Lemma grows_inbound src f : grows (process_inbound src f).
Proof.
  unfold process_inbound, rate_ok, dispatch, handle_request_sync, take_missing, reply_rsr, unicast. grow.
Qed.
Lemma grows_maintenance : grows maintenance_tick.
Proof. unfold maintenance_tick, emit_request_sync, take_filter, pending_retry_tick, cached_head, peer_degree, flood. grow. Qed.
#[local] Hint Resolve grows_inbound grows_maintenance : grows.

Lemma grows_job j : grows (run_job j).
Proof.
  destruct j; cbn [run_job]; unfold emit_request_sync, take_filter, gc_tick_job, fast_tick_job, flood_local_balance_query,
    flood_local_history_query, stop_advertising_job, cached_head, peer_degree; grow.
Qed.

Lemma event_log (n : Nd) (e : @Event V) : exists es, n_log (apply_event n e) = n_log n ++ es.
Proof.
  assert (H0 : exists es, n_log n = n_log n ++ es) by (exists []; by rewrite app_nil_r).
  destruct e; cbn [apply_event]; try exact H0; unfold catch; apply grows_job.
Qed.

Lemma run_log es : forall n : Nd, exists l, n_log (run_events n es) = n_log n ++ l.
Proof.
  induction es as [|e es IH]; intros n; [exists []; cbn; by rewrite app_nil_r|].
  destruct (IH (apply_event n e)) as [l Hl], (event_log n e) as [l' Hl']. exists (l' ++ l). rewrite app_assoc, <- Hl'. exact Hl.
Qed.

(** *** What was said stays said *)

Definition mesh_le (h h' : MeshHarness) : Prop := forall src dst f, said h src dst f -> said h' src dst f.

Lemma heard_le h h' peer j : mesh_le h h' -> heard h peer j -> heard h' peer j.
Proof. intros Hle. destruct j as [[src|] f| | | | | | | | | |]; auto; apply Hle. Qed.

Lemma lived_le h h' peer n0 n : mesh_le h h' -> lived h peer n0 n -> lived h' peer n0 n.
Proof. intros Hle (evs & Hr & Hh). exists evs. split; [exact Hr|]. intros j Hj. eapply heard_le; eauto. Qed.

(** One node moves on, and the ether with it. *)
Lemma traced_put h0 h eth peer m m' :
  traced h0 h -> mh_nodes h !! peer = Some m -> mr_peer_id (mn_radio m') = mr_peer_id (mn_radio m) ->
  lived h peer (mn_node m) (mn_node m') -> Forall (heard h peer) (mn_jobs m') ->
  (forall t, t ∈ me_queue eth -> t ∈ me_queue (mh_ether h) \/ (tm_src_peer t = peer /\ Send (tm_dst_peer t) (tm_bytes t) ∈ n_log (mn_node m'))) ->
  traced h0 (put (with_ether h eth) peer m').
Proof.
  intros [Hq Hn] Hm Hid Hl Hj He. set (h' := put _ _ _).
  assert (Hlog : forall e, e ∈ n_log (mn_node m) -> e ∈ n_log (mn_node m')).
  { destruct Hl as (evs & -> & _). intros e Hx. destruct (run_log evs (mn_node m)) as [l ->]. apply elem_of_app. by left. }
  assert (Hle : mesh_le h h').
  { intros src dst f (x & Hx & Hs). unfold said, h', put, with_ether. cbn. destruct (decide (peer = src)) as [<-|Hne].
    - exists m'. rewrite lookup_insert_eq. simplify_eq. auto.
    - exists x. by rewrite lookup_insert_ne. }
  constructor.
  - intros t Ht. cbn in Ht. destruct (He t Ht) as [Hold|[<- Hs]]; [by apply Hle, Hq|]. exists m'. split; [|exact Hs]. cbn. by rewrite lookup_insert_eq.
  - intros p x. unfold h' at 1, put. cbn. destruct (decide (peer = p)) as [<-|Hne]; [rewrite lookup_insert_eq; intros [= <-]|rewrite lookup_insert_ne by done; intros Hx].
    + destruct (Hn peer m Hm) as (H1 & H2 & m0 & H3 & evs0 & H4 & H5). split_and!; [congruence| |].
      * eapply Forall_impl; [exact Hj|]. intros j. by apply heard_le.
      * exists m0. split; [exact H3|]. destruct Hl as (evs & Hr & Hh). exists (evs0 ++ evs). split.
        -- rewrite Hr, H4. unfold run_events. by rewrite foldl_app.
        -- intros j [Hx|Hx]%elem_of_app; eapply heard_le; eauto.
    + destruct (Hn p x Hx) as (H1 & H2 & m0 & H3 & H4). split_and!; [done| |exists m0; split; [done|by eapply lived_le]].
      eapply Forall_impl; [exact H2|]. intros j. by apply heard_le.
Qed.

Lemma lived_refl h peer n : lived h peer n n.
Proof. exists []. split; [done|]. intros j Hj. inversion Hj. Qed.

Lemma lived_one h peer n e : (forall j, e = EvJob j -> heard h peer j) -> lived h peer n (apply_event n e).
Proof. intros H. exists [e]. split; [done|]. intros j Hj%list_elem_of_singleton. by apply H. Qed.

Lemma put_self h eth peer m : put (with_ether h eth) peer m = with_ether (put h peer m) eth.
Proof. done. Qed.

Lemma with_ether_id h : with_ether h (mh_ether h) = h.
Proof. by destruct h. Qed.

(** A callback at one node *)
Lemma traced_event h0 h peer e :
  traced h0 h -> (forall j, e = EvJob j -> heard h peer j) -> traced h0 (at_node h peer (fun m => node_event m e)).
Proof.
  intros Ht He. unfold at_node. destruct (mh_nodes h !! peer) as [m|] eqn:Hm; [|exact Ht].
  rewrite <- (with_ether_id h) at 1. destruct (tr_nodes _ _ Ht peer m Hm) as (_ & Hj & _).
  eapply traced_put; [exact Ht|exact Hm| | | |intros t Hx; by left].
  - destruct e; cbn; try done. by destruct (mn_open m).
  - unfold node_event. destruct e; cbn [mn_node with_node]; try (apply lived_one; discriminate).
    destruct (mn_open m); apply lived_refl.
  - destruct e as [j| | | | | |]; try exact Hj. cbn. destruct (mn_open m); [|exact Hj]. cbn.
    apply Forall_app. split; [exact Hj|]. apply Forall_singleton. by apply He.
Qed.

Lemma traced_deliver h0 h : traced h0 h -> traced h0 (deliver h).
Proof.
  intros Ht. unfold deliver. destruct (me_queue (mh_ether h)) as [|t q] eqn:Eq; [exact Ht|].
  destruct (if bool_decide _ then _ else _) as [lost rng].
  set (h1 := with_ether h _). assert (H1 : traced h0 h1).
  { destruct Ht as [Hq Hn]. constructor; [|exact Hn]. intros x Hx. apply Hq. rewrite Eq. by right. }
  assert (Hs : said h1 (tm_src_peer t) (tm_dst_peer t) (tm_bytes t)) by (apply (tr_queue _ _ Ht); rewrite Eq; by left).
  set (h2 := if negb lost then _ else _). assert (H2 : traced h0 h2).
  { unfold h2. destruct (negb lost); [|exact H1]. apply traced_event; [exact H1|]. intros j [= <-]. exact Hs. }
  destruct (tm_src_node t); [|exact H2]. apply traced_event; [exact H2|]. discriminate.
Qed.

Lemma traced_work h0 h peer : traced h0 h -> traced h0 (work h peer).
Proof.
  intros Ht. unfold work. destruct (mh_nodes h !! peer) as [m|] eqn:Hm; [|exact Ht].
  destruct (_ && _); [|exact Ht]. destruct (tr_nodes _ _ Ht peer m Hm) as (_ & Hj & _).
  destruct (mn_jobs m) as [|j js]; [exact Ht|]. apply Forall_cons in Hj as [Hj Hjs].
  rewrite <- (with_ether_id h). assert (Hl : lived h peer (mn_node m) (catch (run_job j) (mn_node m))).
  { apply (lived_one h peer (mn_node m) (EvJob j)). by intros ? [= <-]. }
  destruct j; (eapply traced_put; [exact Ht|exact Hm|done|first [exact Hl|apply lived_refl]|exact Hjs|intros t Hx; by left]).
Qed.

Lemma traced_send h0 h peer : traced h0 h -> traced h0 (send_next h peer).
Proof.
  intros Ht. unfold send_next. destruct (mh_nodes h !! peer) as [m|] eqn:Hm; [|exact Ht].
  destruct (tr_nodes _ _ Ht peer m Hm) as (Hid & Hj & _).
  destruct (n_log (mn_node m) !! mn_sent m) as [[dst f|ctx]|] eqn:El; [| |exact Ht].
  - eapply traced_put; eauto using lived_refl. intros t. unfold radio_send.
    destruct (mr_stopped (mn_radio m)); [by left|]. unfold enqueue. cbn. destruct (me_open (mh_ether h)); [|by left].
    intros [Hx|Hx%list_elem_of_singleton]%elem_of_app; [by left|]. right. subst t. split; [exact Hid|]. by eapply list_elem_of_lookup_2.
  - rewrite <- (with_ether_id h) at 1. eapply traced_put; eauto using lived_refl.
Qed.

Lemma traced_at h0 h peer f :
  traced h0 h -> (forall m, mr_peer_id (mn_radio (f m)) = mr_peer_id (mn_radio m) /\ mn_node (f m) = mn_node m
                        /\ forall j, j ∈ mn_jobs (f m) -> j ∈ mn_jobs m \/ j = Shutdown) ->
  traced h0 (at_node h peer f).
Proof.
  intros Ht Hf. unfold at_node. destruct (mh_nodes h !! peer) as [m|] eqn:Hm; [|exact Ht].
  destruct (tr_nodes _ _ Ht peer m Hm) as (Hid & Hj & _). destruct (Hf m) as (H1 & H2 & H3).
  rewrite <- (with_ether_id h) at 1. eapply traced_put; eauto; [rewrite H2; apply lived_refl|].
  apply Forall_forall. intros j [Hx| ->]%H3; [|exact I]. revert Hx. by apply Forall_forall.
Qed.

Lemma traced_step h0 h e : outside e -> traced h0 h -> traced h0 (mesh_step h e).
Proof.
  intros Ho Ht. destruct e as [peer|peer| |peer e|a b|op|peer|peer]; cbn [mesh_step].
  - by apply traced_work.
  - by apply traced_send.
  - by apply traced_deliver.
  - apply traced_event; [exact Ht|]. intros j ->. by destruct j.
  - unfold connect. destruct (mh_nodes h !! a), (mh_nodes h !! b); try exact Ht. apply traced_event; [|discriminate]. by apply traced_event.
  - destruct Ht as [Hq Hn]. constructor; [|exact Hn]. destruct op; exact Hq.
  - apply traced_at; [exact Ht|]. intros m. unfold shutdown_node. destruct (mn_open m); cbn; split_and!; auto.
    intros j [Hx|Hx%list_elem_of_singleton]%elem_of_app; auto.
  - apply traced_at; [exact Ht|]. intros m. unfold release_node. destruct (_ && _); cbn; auto.
Qed.

Lemma traced_fresh h : fresh_harness h -> traced h h.
Proof.
  intros [Hq Hn]. constructor; [rewrite Hq; intros t Ht; inversion Ht|]. intros peer m Hm.
  destruct (Hn peer m Hm) as (H1 & _ & H3 & _). rewrite H3. split_and!; [done|constructor|]. exists m. split; [done|apply lived_refl].
Qed.

Lemma attach_fresh h peer n :
  n_log n = [] -> fresh_harness h -> fresh_harness (attach h peer (mesh_node_new n (radio_new peer))).
Proof. intros Hl [Hq Hn]. split; [exact Hq|]. apply map_Forall_insert_2; [|exact Hn]. by split_and!. Qed.

Lemma connect_fresh h a b : fresh_harness h -> fresh_harness (connect h a b).
Proof.
  intros [Hq Hn]. unfold connect, at_node. destruct (mh_nodes h !! a) as [m|] eqn:Ea, (mh_nodes h !! b) as [m'|] eqn:Eb; try by split.
  cbn [put mh_nodes]. set (nodes := <[a := _]> _). assert (H1 : map_Forall fresh_node nodes).
  { apply map_Forall_insert_2; [|exact Hn]. exact (Hn a m Ea). }
  destruct (nodes !! b) as [x|] eqn:Ex; [|by split]. split; [exact Hq|]. apply map_Forall_insert_2; [|exact H1]. exact (H1 b x Ex).
Qed.

(** C9: a mesh is its nodes, and nothing comes from nowhere.  Take a fresh harness and any
    interleaving of its workers, radios and delivery thread with calls from outside (jobs,
    peers coming and going, loss, cuts, shutdowns).  At every moment the state of each node is
    a run of the node alone, as the theorems on one node take it, and every frame it has
    taken from a link, or that waits in its queue or in the air, is one the node at the other
    end of that link handed to its radio for it. *)
Theorem mesh_projects (h0 : MeshHarness) (es : list MeshEvent) (Hf : fresh_harness h0) (Ho : Forall outside es) :
  let h := mesh_run h0 es in
  (forall t, t ∈ me_queue (mh_ether h) -> said h (tm_src_peer t) (tm_dst_peer t) (tm_bytes t))
  /\ forall peer m, mh_nodes h !! peer = Some m ->
       (forall src f, Inbound (Some src) f ∈ mn_jobs m -> said h src peer f)
       /\ exists m0 evs, mh_nodes h0 !! peer = Some m0 /\ mn_node m = run_events (mn_node m0) evs
            /\ forall src f, EvJob (Inbound (Some src) f) ∈ evs -> said h src peer f.
Proof.
  intros h. assert (Ht : traced h0 h).
  { unfold h, mesh_run. clear h. pose proof (traced_fresh h0 Hf) as H. revert H. generalize h0 at 2 4.
    induction Ho as [|e es He Hes IH]; intros h1 H; cbn [foldl]; [exact H|]. apply IH. by apply traced_step. }
  destruct Ht as [Hq Hn]. split; [exact Hq|]. intros peer m Hm. destruct (Hn peer m Hm) as (_ & Hj & m0 & H0 & evs & Hr & Hh). split.
  - intros src f Hx. exact (proj1 (Forall_forall _ _) Hj _ Hx).
  - exists m0, evs. split_and!; [done..|]. intros src f Hx. exact (Hh _ Hx).
Qed.
End mesh.

(** Two nodes over a lossy link that is cut for a while *)
Abbreviation SampleMesh := (@MeshHarness LedgerVerifier (Recorder MockSigner) MockGateway).

Definition sample_mesh : SampleMesh :=
  connect (add_gateway (add_node harness_new "origin" (replicate 8 1) 100) "gateway" (replicate 8 2) (mock_gateway_new Testnet) 500)
    "origin" "gateway".

Lemma mesh_projects_witness :
  let es := [MeEther (OpPartition "origin" "gateway"); MeCall "origin" (EvJob (LocalTx [1; 2; 3])); MeWork "origin"; MeSend "origin"; MeDeliver;
             MeEther (OpHeal "origin" "gateway"); MeCall "origin" (EvJob RequestSync); MeWork "origin"; MeSend "origin"; MeDeliver] in
  let h := mesh_run sample_mesh es in
  exists m f, mh_nodes h !! "gateway" = Some m /\ mn_jobs m = [Inbound (Some "origin") f] /\ said h "origin" "gateway" f.
Proof.
  intros es h.
  assert (Hf : fresh_harness sample_mesh) by (apply connect_fresh, attach_fresh, attach_fresh; [done..|]; split; [done|apply map_Forall_empty]).
  assert (Ho : Forall outside es) by repeat constructor.
  destruct (mesh_projects sample_mesh es Hf Ho) as [_ H].
  destruct (mh_nodes h !! "gateway") as [m|] eqn:Em; [|exfalso; revert Em; vm_compute; discriminate].
  assert (Hj : exists f, mn_jobs m = [Inbound (Some "origin") f]).
  { apply (f_equal (fun o => match o with Some m => mn_jobs m | None => [] end)) in Em. rewrite <- Em. vm_compute. eauto. }
  destruct Hj as [f Hj]. exists m, f. split_and!; [done..|]. apply (proj1 (H "gateway" m Em)). rewrite Hj. left.
Defined.
