(* ===== verification/Mesh.v ===== *)
(** * Mesh: following one frame through a mesh

    In the harness of [MockRadio], while one frame is in motion every interleaving of the
    threads makes the same steps.  This file has the reasoning: steps that are forced, one hop,
    what a node does exactly with a frame it carries, and the way along a line of relays. *)

From stdpp Require Import base list gmap strings sets relations.
From Stdlib Require Import ZArith Lia SpecFloat.
From S2P Require Import Prelude Packet Codec Envelope SwapWire SwapIntent Crypto FundingVerify SwapSession SwapNode Dedup Fragment Gcs Relay StoreForward Beacon Settlement Balance Chat Address NimTx Gateway Engine EngineLogic EngineProps Payment MockRadio.
Open Scope Z_scope.

Section forced.
Context {C : Crypto} {V : Type} {FV : FundingVerifier V} {S : Type} {SG : SwapSigner S}
  {G : Type} {MG : MeshGateway G} {CK : Clock}.

Abbreviation Nd := (@Node V S XorShiftRng G).
Abbreviation Hs := (@MeshHarness V S G).

(** ** Forced steps *)

Definition idle (m : @MeshNode V S G) : Prop := mn_jobs m = [] /\ mn_sent m = length (n_log (mn_node m)).

(** No thread has anything to do. *)
Definition quiescent (h : Hs) : Prop := me_queue (mh_ether h) = [] /\ map_Forall (fun _ => idle) (mh_nodes h).

(** Some thread can take the step, and no thread can take another. *)
Definition forced (h h' : Hs) : Prop :=
  (exists e, internal e /\ mesh_step h e = h') /\ forall e, internal e -> mesh_step h e = h \/ mesh_step h e = h'.

Lemma still_work (h : Hs) p : (forall m, mh_nodes h !! p = Some m -> mn_jobs m = []) -> work h p = h.
Proof. intros H. unfold work. destruct (mh_nodes h !! p) as [m|]; [|done]. rewrite (H m eq_refl). by destruct (_ && _). Qed.

Lemma still_send (h : Hs) p :
  (forall m, mh_nodes h !! p = Some m -> mn_sent m = length (n_log (mn_node m))) -> send_next h p = h.
Proof.
  intros H. unfold send_next. destruct (mh_nodes h !! p) as [m|]; [|done]. rewrite (H m eq_refl).
  by rewrite lookup_ge_None_2.
Qed.

Lemma still_deliver (h : Hs) : me_queue (mh_ether h) = [] -> deliver h = h.
Proof. intros H. unfold deliver. by rewrite H. Qed.

Lemma quiescent_still h e : quiescent h -> internal e -> mesh_step h e = h.
Proof.
  intros [Hq Hn] He. destruct e; try done; cbn [mesh_step];
    [apply still_work|apply still_send|by apply still_deliver]; intros m Hm; by apply (Hn _ m Hm).
Qed.

(** Whatever the threads do, they are on the way to where the forced steps lead. *)
Lemma forced_run h h' es : rtc forced h h' -> quiescent h' -> Forall internal es -> rtc forced (mesh_run h es) h'.
Proof.
  intros Hr Hq Hes. revert h Hr. induction Hes as [|e es He Hes IH]; intros h Hr; [exact Hr|]. cbn [mesh_run foldl]. apply IH.
  destruct Hr as [h|h h1 h2 Hf Hr]; [rewrite (quiescent_still h e Hq He); apply rtc_refl|].
  destruct (proj2 Hf e He) as [E|E]; rewrite E; [by eapply rtc_l|done].
Qed.

Lemma forced_end h h' : rtc forced h h' -> quiescent h -> h = h'.
Proof.
  induction 1 as [|h h1 h2 [(e & He & <-) _] _ IH]; intros Hq; [done|]. rewrite (quiescent_still h e Hq He) in IH. by apply IH.
Qed.

Lemma forced_reach h h' : rtc forced h h' -> exists es, Forall internal es /\ mesh_run h es = h'.
Proof.
  induction 1 as [|h h1 h2 [(e & He & <-) _] _ (es & Hes & IH)]; [by exists []|]. exists (e :: es). split; [by constructor|exact IH].
Qed.

(** ** One hop *)

Context (cfg : EtherConfig).

(** An ether with nothing in the air *)
Definition calm (e : MockEther) : Prop := me_config e = cfg /\ me_queue e = [] /\ me_open e = true.

(** A running node with its radio, all its sends out *)
Definition up (peer : string) (n : Nd) (js : list Job) : @MeshNode V S G :=
  mkMeshNode n (mkRadio peer (Some peer) true true false) js true true (length (n_log n)).

Definition idle_but (h : Hs) (u : string) : Prop :=
  forall p m, mh_nodes h !! p = Some m -> p <> u -> idle m.

(** Only the node at [u] may move, by work or by a send. *)
Lemma forced_at h u h' :
  me_queue (mh_ether h) = [] -> idle_but h u ->
  (work h u = h' /\ send_next h u = h) \/ (send_next h u = h' /\ work h u = h) -> forced h h'.
Proof.
  intros Hq Hi Hu. split; [destruct Hu as [[H _]|[H _]]; [exists (MeWork u)|exists (MeSend u)]; by split|].
  intros e He. destruct e as [p|p| | | | | |]; try done; cbn [mesh_step]; [| |left; by apply still_deliver].
  - destruct (decide (p = u)) as [->|Hne]; [destruct Hu as [[H1 _]|[_ H1]]; rewrite H1; auto|].
    left. apply still_work. intros m Hm. by apply (Hi p m).
  - destruct (decide (p = u)) as [->|Hne]; [destruct Hu as [[_ H1]|[H1 _]]; rewrite H1; auto|].
    left. apply still_send. intros m Hm. by apply (Hi p m).
Qed.

Lemma forced_air h t h' :
  me_queue (mh_ether h) = [t] -> map_Forall (fun _ => idle) (mh_nodes h) -> deliver h = h' -> forced h h'.
Proof.
  intros Hq Hi Hd. split; [by exists MeDeliver|].
  intros e He. destruct e as [p|p| | | | | |]; try done; cbn [mesh_step]; [left; apply still_work|left; apply still_send|by right];
    intros m Hm; by apply (Hi p m).
Qed.

(** The worker at [u] takes its job. *)
Lemma work_step h u n j n1 :
  mh_nodes h !! u = Some (up u n [j]) -> j <> Shutdown -> calm (mh_ether h) -> idle_but h u -> catch (run_job j) n = n1 ->
  forced h (put h u (mkMeshNode n1 (mn_radio (up u n [])) [] true true (length (n_log n)))).
Proof.
  intros Hu Hj (_ & Hq & _) Hi <-. apply (forced_at h u); [done..|]. left. split.
  - unfold work. rewrite Hu. cbn [up mn_alive mn_sent mn_node mn_jobs andb]. rewrite Nat.eqb_refl. by destruct j.
  - apply still_send. rewrite Hu. by intros m [= <-].
Qed.

(** The node at [u] has sent [k] of its effects and has no job. *)
Definition halfway (u : string) (n : Nd) (k : nat) : @MeshNode V S G :=
  mkMeshNode n (mkRadio u (Some u) true true false) [] true true k.

Lemma submit_step h u n k ctx :
  mh_nodes h !! u = Some (halfway u n k) -> n_log n !! k = Some (Submit ctx) -> calm (mh_ether h) -> idle_but h u ->
  forced h (put h u (halfway u n (Datatypes.S k))).
Proof.
  intros Hu Hk (_ & Hq & _) Hi. apply (forced_at h u); [done..|]. right. split.
  - unfold send_next. rewrite Hu. cbn [halfway mn_node mn_sent]. by rewrite Hk.
  - apply still_work. rewrite Hu. by intros m [= <-].
Qed.

Lemma send_step h u n k v f :
  mh_nodes h !! u = Some (halfway u n k) -> n_log n !! k = Some (Send v f) -> calm (mh_ether h) -> idle_but h u ->
  forced h (put (with_ether h (enqueue (mh_ether h) (mkTransmit u (Some u) v f))) u (halfway u n (Datatypes.S k))).
Proof.
  intros Hu Hk (_ & Hq & _) Hi. apply (forced_at h u); [done..|]. right. split.
  - unfold send_next. rewrite Hu. cbn [halfway mn_node mn_sent mn_radio]. by rewrite Hk.
  - apply still_work. rewrite Hu. by intros m [= <-].
Qed.

Definition submits (es : list Effect) : Prop := Forall (fun e => match e with Submit _ => True | Send _ _ => False end) es.

(** The effects of a job that only submits. *)
Lemma submit_steps h u n pre : forall k,
  mh_nodes h !! u = Some (halfway u n k) -> calm (mh_ether h) -> idle_but h u -> submits pre ->
  (forall i e, pre !! i = Some e -> n_log n !! (k + i)%nat = Some e) ->
  rtc forced h (put h u (halfway u n (k + length pre))).
Proof.
  revert h. induction pre as [|e pre IH]; intros h k Hu Hc Hi Hp Hl.
  - rewrite Nat.add_0_r. unfold put. rewrite insert_id by done. destruct h; apply rtc_refl.
  - apply Forall_cons in Hp as [He Hp]. destruct e as [|ctx]; [done|].
    assert (Hk : n_log n !! k = Some (Submit ctx)) by (rewrite <- (Hl 0%nat (Submit ctx) eq_refl); f_equal; lia).
    eapply rtc_l; [by eapply submit_step|]. set (h1 := put h u _).
    assert (E : put h u (halfway u n (k + length (Submit ctx :: pre))) = put h1 u (halfway u n (Datatypes.S k + length pre))).
    { unfold h1, put. cbn [mh_nodes mh_ether]. rewrite insert_insert_eq. cbn [length]. f_equal. f_equal. f_equal. lia. }
    rewrite E. apply IH; [|done| |done|].
    + unfold h1, put. cbn. by rewrite lookup_insert_eq.
    + intros p m. unfold h1, put. cbn. intros Hm Hne. rewrite lookup_insert_ne in Hm by done. by apply (Hi p m).
    + intros i e Hx. rewrite <- (Hl (Datatypes.S i) e Hx). f_equal. lia.
Qed.

(** The worker at [u] takes its job, which submits and at most then sends one frame to [v];
    the frame is delivered. *)
Lemma work_submits h u n j n1 pre rest :
  mh_nodes h !! u = Some (up u n [j]) -> j <> Shutdown -> calm (mh_ether h) -> idle_but h u ->
  catch (run_job j) n = n1 -> n_log n1 = n_log n ++ pre ++ rest -> submits pre ->
  exists h1, rtc forced h h1 /\ mh_ether h1 = mh_ether h
    /\ mh_nodes h1 = <[u := halfway u n1 (length (n_log n) + length pre)]> (mh_nodes h).
Proof.
  intros Hu Hj Hc Hi Hr Hl Hp. eexists. split.
  - eapply rtc_l; [by eapply work_step|]. set (h0 := put h u _). apply (submit_steps h0 u n1 pre (length (n_log n))); [|done| |done|].
    + unfold h0, put. cbn. by rewrite lookup_insert_eq.
    + intros p m. unfold h0, put. cbn. intros Hm Hne. rewrite lookup_insert_ne in Hm by done. by apply (Hi p m).
    + intros i e He. rewrite Hl, lookup_app_r by lia. 
      replace (length (n_log n) + i - length (n_log n))%nat with i by lia. by apply lookup_app_l_Some.
  - split; [done|]. cbn. by rewrite insert_insert_eq.
Qed.

Lemma idle_insert h u m : idle_but h u -> idle m -> map_Forall (fun _ => idle) (<[u := m]> (mh_nodes h)).
Proof.
  intros Hi Hm p x. destruct (decide (p = u)) as [->|Hne]; [rewrite lookup_insert_eq; by intros [= <-]|].
  rewrite lookup_insert_ne by done. intros Hx. by apply (Hi p x).
Qed.

Lemma halt h u n j n1 pre :
  mh_nodes h !! u = Some (up u n [j]) -> j <> Shutdown -> calm (mh_ether h) -> idle_but h u ->
  catch (run_job j) n = n1 -> n_log n1 = n_log n ++ pre -> submits pre ->
  exists h', rtc forced h h' /\ quiescent h' /\ mh_nodes h' = <[u := up u n1 []]> (mh_nodes h).
Proof.
  intros Hu Hj Hc Hi Hr Hl Hp. destruct (work_submits h u n j n1 pre []) as (h1 & H1 & H2 & H3); rewrite ?app_nil_r; auto.
  exists h1. assert (E : mh_nodes h1 = <[u := up u n1 []]> (mh_nodes h)) by (rewrite H3; unfold up, halfway; by rewrite Hl, length_app).
  split_and!; [done| |done]. split; [rewrite H2; apply Hc|]. rewrite E. by apply idle_insert.
Qed.

Context (Hloss : SFleb (ec_loss cfg) (f64_of 0) = true).

(** A node that has learnt the fate of a send *)
Definition told (n : Nd) : Nd := apply_event n (EvSendResult true).

Lemma at_node_some (h : Hs) p f m : mh_nodes h !! p = Some m -> at_node h p f = put h p (f m).
Proof. intros H. unfold at_node. by rewrite H. Qed.

Lemma hop h u v n j n1 pre f nv :
  mh_nodes h !! u = Some (up u n [j]) -> j <> Shutdown -> calm (mh_ether h) -> idle_but h u ->
  catch (run_job j) n = n1 -> n_log n1 = n_log n ++ pre ++ [Send v f] -> submits pre ->
  u <> v -> (u, v) ∉ ec_partitions cfg -> mh_nodes h !! v = Some (up v nv []) ->
  exists h', rtc forced h h' /\ calm (mh_ether h') /\ idle_but h' v
    /\ mh_nodes h' = <[u := up u (told n1) []]> (<[v := up v nv [Inbound (Some u) f]]> (mh_nodes h)).
Proof.
  intros Hu Hj Hc Hi Hr Hl Hp Huv Hcut Hv.
  destruct (work_submits h u n j n1 pre [Send v f]) as (h1 & H1 & H2 & H3); auto.
  set (k := (length (n_log n) + length pre)%nat) in *.
  assert (Hk : n_log n1 !! k = Some (Send v f)).
  { rewrite Hl, app_assoc, lookup_app_r by (rewrite length_app; lia). rewrite length_app. by replace (k - _)%nat with 0%nat by lia. }
  assert (Hi1 : idle_but h1 u) by (intros p m; rewrite H3; intros Hm Hne; rewrite lookup_insert_ne in Hm by done; by apply (Hi p m)).
  assert (Hu1 : mh_nodes h1 !! u = Some (halfway u n1 k)) by (rewrite H3; apply lookup_insert_eq).
  pose proof (send_step h1 u n1 k v f Hu1 Hk ltac:(by rewrite H2) Hi1) as F2. rewrite H2 in F2. set (t := mkTransmit u (Some u) v f) in *.
  set (h2 := put _ _ _) in F2. destruct Hc as (Hcfg & Hq & Hopen).
  assert (E : halfway u n1 (Datatypes.S k) = up u n1 []).
  { unfold halfway, up. rewrite Hl, !length_app. cbn [length]. f_equal. lia. }
  assert (Hn2 : mh_nodes h2 = <[u := up u n1 []]> (mh_nodes h)) by (unfold h2; cbn; by rewrite E, H3, insert_insert_eq).
  assert (Hq2 : me_queue (mh_ether h2) = [t]) by (unfold h2; cbn; by rewrite Hopen, Hq).
  assert (Hi2 : map_Forall (fun _ => idle) (mh_nodes h2)) by (rewrite Hn2; by apply idle_insert).
  assert (Hcfg2 : me_config (mh_ether h2) = cfg /\ me_open (mh_ether h2) = true) by (unfold h2; cbn; by split).
  destruct Hcfg2 as [Hcfg2 Hopen2]. clearbody h2.
  pose proof (forced_air h2 t (deliver h2) Hq2 Hi2 eq_refl) as F3. exists (deliver h2).
  split; [etransitivity; [exact H1|]; eapply rtc_l; [exact F2|]; by apply rtc_once|].
  assert (Hd : calm (mh_ether (deliver h2)) /\ mh_nodes (deliver h2) = <[u := up u (told n1) []]> (<[v := up v nv [Inbound (Some u) f]]> (mh_nodes h))).
  { unfold deliver. rewrite Hq2. cbn [tm_src_peer tm_dst_peer tm_src_node tm_bytes t].
    rewrite Hcfg2.
    rewrite bool_decide_false by done. unfold roll_loss. rewrite Hloss. cbn [negb].
    rewrite (at_node_some _ v _ (up v nv [])) by (cbn; by rewrite Hn2, lookup_insert_ne).
    rewrite (at_node_some _ u _ (up u n1 [])) by (cbn; by rewrite lookup_insert_ne, Hn2, lookup_insert_eq). split.
    - unfold calm. cbn. by split_and!.
    - cbn [put with_ether mh_nodes]. rewrite Hn2, (insert_insert_ne _ v u), insert_insert_eq by done. reflexivity. }
  destruct Hd as [Hd1 Hd2]. split_and!; [done| |done].
  intros p m. rewrite Hd2. intros Hm Hne. destruct (decide (p = u)) as [->|]; [rewrite lookup_insert_eq in Hm; by simplify_eq|].
  rewrite !lookup_insert_ne in Hm by done. by apply (Hi p m).
Qed.
End forced.

Section carriers.
Context {C : Crypto} {V : Type} {FV : FundingVerifier V} {S : Type} {SG : SwapSigner S}
  {G : Type} {MG : MeshGateway G} {CK : Clock}.

Abbreviation Nd := (@Node V S XorShiftRng G).

(** ** What a node does with a frame it carries *)

(** A node on mains power with few peers, and no swaps: it carries what it hears. *)
Record carrier (peers : gset string) (n : Nd) : Prop := mkCarrier {
  cr_peers : c_peers (n_ctx n) = peers;
  cr_posture : posture (c_citizen (n_ctx n)) = PostureFull;
  cr_swap : w_swap (t_swap (n_state n)) = None;
  cr_sparse : Z.of_nat (size peers) < rp_threshold (t_policy (n_state n));
  cr_rates : default_rates (t_limiter (n_state n))
}.

(** The node does not stop the transaction of [e]: its window is open at the head the node
    goes by, and a node that checks signatures finds this one good. *)
Record passes (e : NimiqEnvelope) (n : Nd) : Prop := mkPasses {
  ps_open : is_expired (head_latest (c_head (n_ctx n))) (valid_until e) = false;
  ps_signed : t_verify_before_relay (n_state n) = true -> verify_basic_wire (tx_wire e) = true
}.

Lemma vets_pass e (n : Nd) : passes e n -> t_verify_before_relay (n_state n) && negb (verify_basic_wire (tx_wire e)) = false.
Proof. intros [_ H]. destruct (t_verify_before_relay _); [|done]. by rewrite H. Qed.

(** What goes out for a packet heard from [src] *)
Definition onward (p : Packet) (src : option string) (peers : gset string) : list Effect :=
  match relayed_ttl (ttl p) with
  | Some t => match encode (with_ttl p t) with Ok f => sends f src peers | _ => [] end
  | None => []
  end.

(** What relaying and a tick leave alone *)
Definition kept (n n' : Nd) : Prop :=
  t_limiter (n_state n') = t_limiter (n_state n) /\ t_relay_seen (n_state n') = t_relay_seen (n_state n)
  /\ t_acked (n_state n') = t_acked (n_state n)
  /\ c_ledger (n_ctx n') = c_ledger (n_ctx n) /\ c_gateway (n_ctx n') = c_gateway (n_ctx n).

Lemma run_relay p src (n : Nd) peers :
  carrier peers n ->
  exists n', relay_onward p src n = (n', Some tt) /\ n_log n' = n_log n ++ onward p src peers /\ carrier peers n' /\ kept n n'.
Proof.
  intros Hc. destruct Hc as [Hp Hpo Hw Hs Hr].
  unfold relay_onward, allowed, peer_degree, this, gets, modify, mbind, M_bind, mret, M_ret.
  assert (Ha : relay_allowed (c_citizen (n_ctx n)) (Z.of_nat (size (c_peers (n_ctx n)))) (msg_type p) (t_policy (n_state n))
               = (true, t_policy (n_state n))).
  { unfold relay_allowed. rewrite Hpo, Hp. cbn [relays_type negb probability_factor]. exact (should_relay_sparse _ _ Hs). }
  rewrite Ha. cbn [negb]. unfold onward.
  assert (Hjit : forall q : RelayPolicy XorShiftRng, rp_threshold (apply_jitter q) = rp_threshold q).
  { intros q. unfold apply_jitter, next_jitter. by destruct (in_range_ms _ _ _). }
  destruct (relayed_ttl (ttl p)) as [t|] eqn:Et; [|eexists; split; [reflexivity|]; cbn; rewrite app_nil_r; split_and!; done].
  destruct (encode (with_ttl p t)) as [f|e|] eqn:Ef; cbn [decoded mret M_ret panic].
  - unfold bump, modify. cbn beta iota.
    match goal with |- context [flood_excluding f src ?m] => destruct (flood_spec f src m) as [cnt ->] end.
    eexists. split; [reflexivity|]. cbn. rewrite Hp. split_and!; try done.
    constructor; cbn; auto; [|by rewrite Hjit]. revert Hpo. unfold note_relay, posture. by destruct (msg_type p).
  - eexists. split; [reflexivity|]. cbn. rewrite app_nil_r. split_and!; try done. constructor; cbn; auto. by rewrite Hjit.
  - by apply encode_no_panic in Ef.
Qed.

Lemma run_fast_none (n : Nd) :
  w_swap (t_swap (n_state n)) = None -> fast_tick_job n = (set_swap (t_swap (n_state n)) (tick_clock n), Some tt).
Proof.
  intros Hw. unfold fast_tick_job, now_ms, cached_head, swap_step, this, gets, modify, mbind, M_bind, mret, M_ret.
  cbn [node_apply]. unfold fast_tick. change (t_swap (n_state (tick_clock n))) with (t_swap (n_state n)). by rewrite Hw.
Qed.

Lemma run_fast (n : Nd) peers :
  carrier peers n ->
  exists n', fast_tick_job n = (n', Some tt) /\ n_log n' = n_log n /\ carrier peers n' /\ kept n n'.
Proof.
  intros Hc. exists (set_swap (t_swap (n_state n)) (tick_clock n)). split; [apply run_fast_none, Hc|]. destruct Hc. split_and!; done.
Qed.

Ltac act L := rewrite (run_bind _ _ _ _ _ L); cbv beta.

(** Updates a carrier is blind to *)
Lemma carrier_seen peers (n : Nd) d : carrier peers n -> carrier peers (set_relay_seen d n).
Proof. by intros []. Qed.

Lemma carrier_remember peers p (n : Nd) :
  carrier peers n -> exists n', remember p n = (n', Some tt) /\ n_log n' = n_log n /\ carrier peers n' /\ kept n n'.
Proof. intros []. destruct (remember_spec p n) as [cnt ->]. eexists. split; [reflexivity|]. split_and!; [done|by constructor|by unfold kept]. Qed.

(** A transaction at a node that is not a gateway *)
Lemma carry_tx p src (n : Nd) peers e :
  carrier peers n -> c_gateway (n_ctx n) = None -> dedup_contains (t_relay_seen (n_state n)) (relay_key p) = false ->
  decode_envelope (Packet.payload p) = Ok e -> passes e n -> dedup_contains (t_acked (n_state n)) (tx_id_of e) = false ->
  exists n', handle_tx p src n = (n', Some tt) /\ n_log n' = n_log n ++ onward p src peers /\ carrier peers n'
    /\ kept (set_relay_seen (dedup_insert (t_relay_seen (n_state n)) (relay_key p)).1 n) n'.
Proof.
  intros Hc Hg Hu Hd Hv Ha. unfold handle_tx. rewrite (run_first_seen p _ n Hu). set (n0 := set_relay_seen _ n).
  assert (H0 : carrier peers n0) by by apply carrier_seen. act (run_gets (fun n : Nd => head_latest (c_head (n_ctx n))) n0).
  assert (Hvu : tx_valid_until p = valid_until e) by (unfold tx_valid_until; by rewrite Hd).
  change (c_head (n_ctx n0)) with (c_head (n_ctx n)). rewrite Hvu, (ps_open _ _ Hv).
  act (run_decoded _ _ n0 Hd). act (run_gets (fun n : Nd => n) n0). change (t_verify_before_relay (n_state n0)) with (t_verify_before_relay (n_state n)). rewrite (vets_pass _ n Hv).
  change (t_acked (n_state n0)) with (t_acked (n_state n)). rewrite Ha.
  destruct (carrier_remember peers p n0 H0) as (n1 & Hr1 & Hl1 & Hc1 & Hk1). act Hr1.
  assert (Hs : gateway_submit e (tx_id_of e) n1 = (n1, Some tt)).
  { unfold gateway_submit. act (run_gets (fun n : Nd => match c_gateway (n_ctx n) with Some _ => true | None => false end) n1).
    destruct Hk1 as (_ & _ & _ & _ & ->). change (c_gateway (n_ctx n0)) with (c_gateway (n_ctx n)). by rewrite Hg. }
  act Hs. destruct (run_relay p src n1 peers Hc1) as (n2 & Hr2 & Hl2 & Hc2 & Hk2). exists n2.
  split_and!; [done|by rewrite Hl2, Hl1|done|]. unfold kept in *. intuition congruence.
Qed.

(** A receipt at any node *)
Lemma carry_receipt p src (n : Nd) peers id st :
  carrier peers n -> dedup_contains (t_relay_seen (n_state n)) (relay_key p) = false ->
  decode_receipt (Packet.payload p) = Ok (Some (id, st)) ->
  exists n', handle_receipt p src n = (n', Some tt) /\ n_log n' = n_log n ++ onward p src peers /\ carrier peers n'
    /\ c_ledger (n_ctx n') = ledger_settle (c_ledger (n_ctx n)) id (payment_status st)
    /\ t_limiter (n_state n') = t_limiter (n_state n) /\ c_gateway (n_ctx n') = c_gateway (n_ctx n)
    /\ t_relay_seen (n_state n') = (dedup_insert (t_relay_seen (n_state n)) (relay_key p)).1.
Proof.
  intros Hc Hu Hd. unfold handle_receipt. rewrite (run_first_seen p _ n Hu). set (n0 := set_relay_seen _ n).
  assert (H0 : carrier peers n0) by by apply carrier_seen.
  destruct (carrier_remember peers p n0 H0) as (n1 & Hr1 & Hl1 & Hc1 & Hk1). act Hr1. act (run_decoded _ _ n1 Hd).
  match goal with |- exists n', (?m ≫= ?k) ?n = _ /\ _ => pose proof (eq_refl : m n = ((m n).1, Some tt)) as Hm end. act Hm.
  match goal with |- context [relay_onward p src ?n2] => set (n3 := n2) end.
  assert (Hc3 : carrier peers n3) by (destruct Hc1; by constructor).
  destruct (run_relay p src n3 peers Hc3) as (n4 & Hr4 & Hl4 & Hc4 & Hk4). exists n4.
  assert (H3 : n_log n3 = n_log n1 /\ c_ledger (n_ctx n3) = ledger_settle (c_ledger (n_ctx n1)) id (payment_status st)
    /\ t_limiter (n_state n3) = t_limiter (n_state n1) /\ c_gateway (n_ctx n3) = c_gateway (n_ctx n1)
    /\ t_relay_seen (n_state n3) = t_relay_seen (n_state n1)) by (split_and!; reflexivity).
  destruct H3 as (L1 & L2 & L3 & L4 & L5), Hk4 as (K1 & K2 & _ & K4 & K5), Hk1 as (M1 & M2 & _ & M4 & M5).
  split_and!; [done|by rewrite Hl4, L1, Hl1|done|by rewrite K4, L2, M4|by rewrite K1, L3, M1|by rewrite K5, L4, M5|by rewrite K2, L5, M2].
Qed.

(** ** Whole jobs *)

Lemma untracked_other l src t q :
  q <> src -> rl_buckets l !! q = None -> rl_buckets (limiter_allow l src t).2 !! q = None.
Proof.
  intros Hne Hq. unfold limiter_allow. cbn [snd rl_buckets]. rewrite lookup_insert_ne by done.
  unfold limiter_evict_if_full. destruct (_ || _); [done|]. destruct (least_recent _); [|done]. by apply lookup_delete_None; right.
Qed.

(** A well-formed frame *)
Record framed (p : Packet) (frame : bytes) : Prop := mkFramed {
  fm_ok : packet_ok p;
  fm_version : version p = VERSION;
  fm_rsr : is_rsr (flags p) = false;
  fm_encode : encode p = Ok frame
}.

(** The node at the handler of a frame from a link it has not heard yet *)
Definition taken (n : Nd) (src : string) : Nd :=
  set_limiter (limiter_allow (t_limiter (n_state n)) src (clock (n_reads n))).2 (tick_clock n).

Lemma taken_carrier peers (n : Nd) src :
  carrier peers n -> carrier peers (taken n src).
Proof. by intros []; constructor. Qed.

Lemma taken_passes e (n : Nd) src : passes e n -> passes e (taken n src).
Proof. by intros []; constructor. Qed.

Lemma run_taken peers (n : Nd) src p frame n1 :
  carrier peers n -> rl_buckets (t_limiter (n_state n)) !! src = None -> framed p frame -> msg_type p <> MtRequestSync ->
  dispatch p (Some src) (taken n src) = (n1, Some tt) -> carrier peers n1 ->
  let n2 := catch (run_job (Inbound (Some src) frame)) n in n_log n2 = n_log n1 /\ carrier peers n2 /\ kept n1 n2.
Proof.
  intros Hc Hb [Hok Hv Hr He] Ht Hd Hc1 n2.
  destruct (allow_untracked (t_limiter (n_state n)) src (clock (n_reads n)) (cr_rates _ _ Hc) Hb) as (Hrate & _).
  assert (Hp : process_inbound (Some src) frame n = (n1, Some tt)).
  { rewrite (run_inbound src frame p n Hrate (encode_decode _ _ Hok Hv He) Hr Ht). exact Hd. }
  destruct (run_fast n1 peers Hc1) as (n3 & Hf & Hl & Hc3 & Hk).
  assert (E : n2 = n3) by (unfold n2, catch; cbn [run_job]; by rewrite (run_bind _ _ _ _ _ Hp), Hf).
  rewrite E. by split_and!.
Qed.

(** What is left of a node's ears after a frame: it knows the key, and the link. *)
Definition ears (n : Nd) (src : string) (k : RelayKey) (n' : Nd) : Prop :=
  (forall k', k' <> k -> dedup_contains (t_relay_seen (n_state n)) k' = false -> dedup_contains (t_relay_seen (n_state n')) k' = false)
  /\ (forall q, q <> src -> rl_buckets (t_limiter (n_state n)) !! q = None -> rl_buckets (t_limiter (n_state n')) !! q = None).

Lemma ears_intro (n n' : Nd) src k :
  t_limiter (n_state n') = t_limiter (n_state (taken n src)) ->
  t_relay_seen (n_state n') = (dedup_insert (t_relay_seen (n_state n)) k).1 -> ears n src k n'.
Proof.
  intros E1 E2. split; [intros k' Hk Hs; rewrite E2; by apply insert_other|].
  intros q Hq Hb. rewrite E1. by apply untracked_other.
Qed.

Lemma carry_tx_job peers (n : Nd) src p frame e :
  carrier peers n -> rl_buckets (t_limiter (n_state n)) !! src = None -> framed p frame ->
  c_gateway (n_ctx n) = None -> dedup_contains (t_relay_seen (n_state n)) (relay_key p) = false ->
  msg_type p = MtNimiqTx -> decode_envelope (Packet.payload p) = Ok e -> passes e n -> dedup_contains (t_acked (n_state n)) (tx_id_of e) = false ->
  let n2 := catch (run_job (Inbound (Some src) frame)) n in
  n_log n2 = n_log n ++ onward p (Some src) peers /\ carrier peers n2 /\ ears n src (relay_key p) n2
  /\ c_ledger (n_ctx n2) = c_ledger (n_ctx n).
Proof.
  intros Hc Hb Hf Hg Hu Ht Hd Hv Ha n2.
  destruct (carry_tx p (Some src) (taken n src) peers e (taken_carrier _ _ _ Hc) Hg Hu Hd (taken_passes _ _ src Hv) Ha) as (n1 & H1 & Hl1 & Hc1 & Hk1).
  destruct (run_taken peers n src p frame n1 Hc Hb Hf ltac:(by rewrite Ht)) as (Hl2 & Hc2 & Hk2); [|done|].
  { unfold dispatch, dispatch_fuel. act (run_gets (fun n : Nd => n) (taken n src)). cbn [dispatch_packet]. by rewrite Ht. }
  destruct Hk1 as (K1 & K2 & _ & K4 & _), Hk2 as (L1 & L2 & _ & L4 & _).
  split_and!; [unfold n2; by rewrite Hl2, Hl1|done| |unfold n2; by rewrite L4, K4].
  apply ears_intro; unfold n2; [by rewrite L1, K1|by rewrite L2, K2].
Qed.

Lemma carry_receipt_job peers (n : Nd) src p frame id st :
  carrier peers n -> rl_buckets (t_limiter (n_state n)) !! src = None -> framed p frame ->
  dedup_contains (t_relay_seen (n_state n)) (relay_key p) = false ->
  msg_type p = MtNimiqTxReceipt -> decode_receipt (Packet.payload p) = Ok (Some (id, st)) ->
  let n2 := catch (run_job (Inbound (Some src) frame)) n in
  n_log n2 = n_log n ++ onward p (Some src) peers /\ carrier peers n2
  /\ c_ledger (n_ctx n2) = ledger_settle (c_ledger (n_ctx n)) id (payment_status st).
Proof.
  intros Hc Hb Hf Hu Ht Hd n2.
  destruct (carry_receipt p (Some src) (taken n src) peers id st (taken_carrier _ _ _ Hc) Hu Hd) as (n1 & H1 & Hl1 & Hc1 & Hled & _).
  destruct (run_taken peers n src p frame n1 Hc Hb Hf ltac:(by rewrite Ht)) as (Hl2 & Hc2 & Hk2); [|done|].
  { unfold dispatch, dispatch_fuel. act (run_gets (fun n : Nd => n) (taken n src)). cbn [dispatch_packet]. by rewrite Ht. }
  destruct Hk2 as (_ & _ & _ & L4 & _).
  split_and!; [unfold n2; by rewrite Hl2, Hl1|done|unfold n2; by rewrite L4, Hled].
Qed.
End carriers.

Section travel.
Context {C : Crypto} {V : Type} {FV : FundingVerifier V} {S : Type} {SG : SwapSigner S}
  {G : Type} {MG : MeshGateway G} {CK : Clock}.

Abbreviation Nd := (@Node V S XorShiftRng G).
Abbreviation Hs := (@MeshHarness V S G).

(** ** A frame on its way along a line *)

(** The relays [xs] between [left] and [right], each idle and as [R] says of its neighbours *)
Fixpoint chain (R : string -> string -> Nd -> Prop) (h : Hs) (left : string) (xs : list string) (right : string) : Prop :=
  match xs with
  | [] => True
  | x :: xs => (exists n, mh_nodes h !! x = Some (up x n []) /\ R left (hd right xs) n) /\ chain R h x xs right
  end.

Fixpoint final (x : string) (xs : list string) : string := match xs with [] => x | y :: ys => final y ys end.

Lemma chain_frame R h h' left xs right :
  (forall p, p ∈ xs -> mh_nodes h' !! p = mh_nodes h !! p) -> chain R h left xs right -> chain R h' left xs right.
Proof.
  revert left. induction xs as [|x xs IH]; intros left Hf; [done|]. intros [(n & Hn & HR) Hc]. split.
  - exists n. split; [|done]. rewrite Hf; [done|left].
  - apply IH; [|done]. intros p Hp. apply Hf. by right.
Qed.

Lemma chain_snoc R h x xs left right :
  chain R h left (xs ++ [x]) right <->
  chain R h left xs x /\ exists n, mh_nodes h !! x = Some (up x n []) /\ R (final left xs) right n.
Proof.
  revert left. induction xs as [|y xs IH]; intros left; cbn [app chain final]; [tauto|]. rewrite IH.
  assert (E : hd right (xs ++ [x]) = hd x xs) by by destruct xs. rewrite E. tauto.
Qed.

Lemma final_snoc x y xs : final x (xs ++ [y]) = y.
Proof. revert x. induction xs as [|z xs IH]; intros x; [done|]. apply IH. Qed.

(** The line seen from its other end *)
Lemma chain_rev R h left xs right :
  chain R h left xs right -> chain (fun l r n => R r l n) h right (reverse xs) left.
Proof.
  revert left. induction xs as [|x xs IH]; intros left; [done|]. cbn [chain]. intros [(n & Hn & HR) Hc].
  rewrite reverse_cons. apply chain_snoc. split; [by apply IH|]. exists n. split; [done|].
  destruct xs as [|y ys]; [exact HR|]. rewrite reverse_cons, final_snoc. exact HR.
Qed.

Context (cfg : EtherConfig) (Hloss : SFleb (ec_loss cfg) (f64_of 0) = true).
Context (path : list string) (Hclear : forall p q, p ∈ path -> q ∈ path -> (p, q) ∉ ec_partitions cfg).
Context (F : Z -> bytes) (R R' : string -> string -> Nd -> Prop).
Context (Hstep : forall l r n t, l <> r -> R l r n -> 1 <= t <= 7 ->
  let n1 := catch (run_job (Inbound (Some l) (F t))) n in
  n_log n1 = n_log n ++ (if 2 <=? t then [Send r (F (t - 1))] else []) /\ R' l r (told n1)).

Lemma one_hop h left x n t z nz :
  mh_nodes h !! x = Some (up x n [Inbound (Some left) (F t)]) -> R left z n -> mh_nodes h !! z = Some (up z nz []) ->
  calm cfg (mh_ether h) -> idle_but h x -> left <> z -> x <> z -> x ∈ path -> z ∈ path -> 1 <= t <= 7 ->
  if 2 <=? t then
    exists h1 n1, rtc forced h h1 /\ calm cfg (mh_ether h1) /\ idle_but h1 z /\ R' left z n1
      /\ mh_nodes h1 = <[x := up x n1 []]> (<[z := up z nz [Inbound (Some x) (F (t - 1))]]> (mh_nodes h))
  else exists h', rtc forced h h' /\ quiescent h' /\ forall p, p <> x -> mh_nodes h' !! p = mh_nodes h !! p.
Proof.
  intros Hx HR Hz Hcalm Hidle Hlz Hxz Hpx Hpz Ht. destruct (Hstep left z n t Hlz HR Ht) as [Hl HR1]. destruct (2 <=? t).
  - destruct (hop cfg Hloss h x z n _ _ [] (F (t - 1)) nz Hx ltac:(done) Hcalm Hidle eq_refl Hl) as (h1 & H1 & H2 & H3 & H4); auto; [by constructor|].
    exists h1. eexists. split_and!; [done..|exact HR1|exact H4].
  - destruct (halt cfg h x n _ _ [] Hx ltac:(done) Hcalm Hidle eq_refl Hl) as (h' & H1 & H2 & H3); [by constructor|].
    exists h'. split_and!; auto. intros p Hp. rewrite H3, lookup_insert_ne; done.
Qed.

(** The frame moves along the relays until it reaches the end of the line or its last hop. *)
Lemma travel xs : forall h left x n t y ny,
  mh_nodes h !! x = Some (up x n [Inbound (Some left) (F t)]) -> R left (hd y xs) n ->
  chain R h x xs y -> mh_nodes h !! y = Some (up y ny []) -> calm cfg (mh_ether h) -> idle_but h x ->
  NoDup (left :: x :: xs ++ [y]) -> (forall p, p ∈ x :: xs ++ [y] -> p ∈ path) -> 1 <= t <= 7 ->
  if Z.of_nat (length xs) + 2 <=? t then
    exists h', rtc forced h h' /\ calm cfg (mh_ether h') /\ idle_but h' y
      /\ mh_nodes h' !! y = Some (up y ny [Inbound (Some (final x xs)) (F (t - 1 - Z.of_nat (length xs)))])
      /\ chain R' h' left (x :: xs) y
      /\ forall p, p ∉ x :: xs ++ [y] -> mh_nodes h' !! p = mh_nodes h !! p
  else
    exists h', rtc forced h h' /\ quiescent h' /\ forall p, p ∉ x :: xs -> mh_nodes h' !! p = mh_nodes h !! p.
Proof.
  induction xs as [|z xs IH]; intros h left x n t y ny Hx HR Hch Hy Hcalm Hidle Hnd Hpath Ht; cbn [app hd] in *;
    pose proof Hnd as Hnd'; rewrite !NoDup_cons, !not_elem_of_cons in Hnd'.
  - destruct Hnd' as ((_ & Hly & _) & (Hxy & _) & _). change (Z.of_nat (length []) + 2) with 2.
    pose proof (one_hop h left x n t y ny Hx HR Hy Hcalm Hidle Hly Hxy ltac:(set_solver) ltac:(set_solver) Ht) as H1. destruct (2 <=? t).
    + destruct H1 as (h' & n1 & H1 & H2 & H3 & H4 & H5). exists h'. rewrite H5. split_and!; auto.
      * rewrite lookup_insert_ne, lookup_insert_eq by done. do 4 f_equal. f_equal. cbn [length]. lia.
      * cbn. split; [|done]. exists n1. by rewrite H5, lookup_insert_eq.
      * intros p Hp. rewrite !not_elem_of_cons in Hp. by rewrite !lookup_insert_ne by naive_solver.
    + destruct H1 as (h' & H1 & H2 & H3). exists h'. split_and!; auto. intros p Hp. apply H3. set_solver.
  - destruct Hch as [(nz & Hz & HRz) Hch]. destruct Hnd' as ((Hlx & Hlz & Hl') & (Hxz & Hx') & (Hz' & _)).
    pose proof (one_hop h left x n t z nz Hx HR Hz Hcalm Hidle Hlz Hxz ltac:(set_solver) ltac:(set_solver) Ht) as H1.
    cbn [length]. destruct (Z.leb_spec 2 t).
    2: { destruct (Z.leb_spec (Z.of_nat (Datatypes.S (length xs)) + 2) t); [lia|]. destruct H1 as (h' & H1 & H2 & H3).
         exists h'. split_and!; auto. intros p Hp. apply H3. set_solver. }
    destruct H1 as (h1 & n1 & H1 & H2 & H3 & H4 & H5).
    assert (Hf1 : forall p, p <> x -> p <> z -> mh_nodes h1 !! p = mh_nodes h !! p) by (intros p ? ?; rewrite H5, !lookup_insert_ne by congruence; done).
    assert (Hin : forall p, p ∈ xs ++ [y] -> p <> x /\ p <> z) by (intros p Hp; split; intros ->; contradiction).
    assert (Hz1 : mh_nodes h1 !! z = Some (up z nz [Inbound (Some x) (F (t - 1))])) by (rewrite H5, lookup_insert_ne, lookup_insert_eq; done).
    assert (Hc1 : chain R h1 z xs y) by (eapply chain_frame; [|exact Hch]; intros p Hp; apply Hf1; apply Hin; set_solver).
    assert (Hy1 : mh_nodes h1 !! y = Some (up y ny [])) by (rewrite Hf1; [done|apply Hin; set_solver..]).
    assert (Hn1 : NoDup (x :: z :: xs ++ [y])) by (apply NoDup_cons in Hnd as [_ Hnd]; exact Hnd).
    pose proof (IH h1 x z nz (t - 1) y ny Hz1 HRz Hc1 Hy1 H2 H3 Hn1 ltac:(set_solver) ltac:(lia)) as IH1.
    destruct (Z.leb_spec (Z.of_nat (length xs) + 2) (t - 1)), (Z.leb_spec (Z.of_nat (Datatypes.S (length xs)) + 2) t); try lia.
    + destruct IH1 as (h' & G1 & G2 & G3 & G4 & G5 & G6). exists h'. split_and!; [by etransitivity|done..| | |].
      * rewrite G4. cbn [final]. do 4 f_equal. f_equal. lia.
      * split; [|exact G5]. exists n1. rewrite G6 by set_solver. by rewrite H5, lookup_insert_eq.
      * intros p Hp. rewrite G6 by set_solver. apply Hf1; set_solver.
    + destruct IH1 as (h' & G1 & G2 & G3). exists h'. split_and!; [by etransitivity|done|]. intros p Hp. rewrite G3 by set_solver. apply Hf1; set_solver.
Qed.

(** A node [u] puts the frame on the line. *)
Lemma send_along xs h u n j pre t y ny :
  mh_nodes h !! u = Some (up u n [j]) -> j <> Shutdown -> calm cfg (mh_ether h) -> idle_but h u ->
  n_log (catch (run_job j) n) = n_log n ++ pre ++ [Send (hd y xs) (F t)] -> submits pre ->
  chain R h u xs y -> mh_nodes h !! y = Some (up y ny []) -> NoDup (u :: xs ++ [y]) ->
  (forall p, p ∈ u :: xs ++ [y] -> p ∈ path) -> 1 <= t <= 7 ->
  let n1 := told (catch (run_job j) n) in
  if Z.of_nat (length xs) + 1 <=? t then
    exists h', rtc forced h h' /\ calm cfg (mh_ether h') /\ idle_but h' y /\ mh_nodes h' !! u = Some (up u n1 [])
      /\ mh_nodes h' !! y = Some (up y ny [Inbound (Some (final u xs)) (F (t - Z.of_nat (length xs)))]) /\ chain R' h' u xs y
  else exists h', rtc forced h h' /\ quiescent h' /\ mh_nodes h' !! u = Some (up u n1 []) /\ mh_nodes h' !! y = Some (up y ny []).
Proof.
  intros Hu Hj Hcalm Hidle Hl Hp Hch Hy Hnd Hpath Ht n1. pose proof Hnd as Hnd'. rewrite NoDup_cons in Hnd'. destruct Hnd' as [Hu' _].
  destruct xs as [|x xs]; cbn [hd app] in *.
  - destruct (hop cfg Hloss h u y n j _ pre (F t) ny Hu Hj Hcalm Hidle eq_refl Hl Hp ltac:(set_solver) ltac:(apply Hclear; apply Hpath; set_solver) Hy)
      as (h' & H1 & H2 & H3 & H4).
    change (Z.of_nat (length []) + 1) with 1. destruct (Z.leb_spec 1 t); [|lia]. exists h'. rewrite H4. split_and!; auto.
    + by rewrite lookup_insert_eq.
    + rewrite lookup_insert_ne, lookup_insert_eq by set_solver. do 4 f_equal. f_equal. cbn. lia.
  - assert (Hux2 : u ∉ x :: xs) by (clear -Hu'; set_solver).
    assert (Hyx : y ∉ x :: xs).
    { apply NoDup_cons in Hnd as [_ Hnd]. change (NoDup ((x :: xs) ++ [y])) in Hnd. apply NoDup_app in Hnd as (_ & Hd & _).
      intros Hin. apply (Hd y Hin). left. }
    destruct Hch as [(nx & Hx & HRx) Hch]. rewrite !not_elem_of_cons in Hu'. destruct Hu' as [Hux Hu'].
    destruct (hop cfg Hloss h u x n j _ pre (F t) nx Hu Hj Hcalm Hidle eq_refl Hl Hp Hux ltac:(apply Hclear; apply Hpath; set_solver) Hx)
      as (h1 & H1 & H2 & H3 & H4). apply NoDup_cons in Hnd as [Hu0 Hnd]. pose proof Hnd as Hnd1. apply NoDup_cons in Hnd1 as [Hx' _].
    assert (Hf : forall p, p ∈ xs ++ [y] -> mh_nodes h1 !! p = mh_nodes h !! p) by (intros p Hp'; rewrite H4, !lookup_insert_ne by set_solver; done).
    pose proof (travel xs h1 u x nx t y ny ltac:(rewrite H4, lookup_insert_ne, lookup_insert_eq by done; done) HRx
      ltac:(eapply chain_frame; [|exact Hch]; intros p Hp'; apply Hf; set_solver) ltac:(rewrite Hf by set_solver; done) H2 H3
      ltac:(by apply NoDup_cons) ltac:(set_solver) Ht) as HT.
    replace (Z.of_nat (length (x :: xs)) + 1) with (Z.of_nat (length xs) + 2) by (cbn [length]; lia).
    destruct (_ <=? t).
    + destruct HT as (h' & G1 & G2 & G3 & G4 & G5 & G6). exists h'. split_and!; [by etransitivity|done..| | |done].
      * rewrite G6 by exact Hu0. by rewrite H4, lookup_insert_eq.
      * rewrite G4. cbn [final]. do 4 f_equal. f_equal. cbn [length]. lia.
    + destruct HT as (h' & G1 & G2 & G3). exists h'.
      split_and!; [by etransitivity|done|rewrite G3 by exact Hux2; by rewrite H4, lookup_insert_eq|].
      rewrite G3 by exact Hyx. rewrite Hf by (apply elem_of_app; right; left). exact Hy.
Qed.
End travel.
