(* ===== verification/MeshLine.v ===== *)
(** * MeshLine: a payment over a line of relays, in every interleaving

    The harness of [MockRadio] with an origin, any number of relays in a line and a gateway
    at its end.  The theorem follows the transaction to the gateway and the receipt back, and
    shows where the hop cap ends the journey. *)

From stdpp Require Import base list gmap strings sets relations.
From Stdlib Require Import ZArith Lia SpecFloat.
From S2P Require Import Prelude Packet Codec Envelope SwapWire SwapIntent Crypto FundingVerify SwapSession SwapNode Dedup Fragment Gcs Relay StoreForward Beacon Settlement Balance Chat Address NimTx Gateway Engine EngineLogic EngineProps Payment MockRadio Mesh.
Open Scope Z_scope.

Section line.
Context {C : Crypto} {V : Type} {FV : FundingVerifier V} {S : Type} {SG : SwapSigner S}
  {G : Type} {MG : MeshGateway G} {CK : Clock}.

Abbreviation Nd := (@Node V S XorShiftRng G).
Abbreviation Hs := (@MeshHarness V S G).

(** ** The nodes of the line *)

Abbreviation unseen n k := (dedup_contains (t_relay_seen (n_state n)) k = false).
Abbreviation unheard n q := (rl_buckets (t_limiter (n_state n)) !! q = None).

(** A relay that has heard neither the transaction nor the receipt *)
Record fresh_relay (ktx krc : RelayKey) (id : bytes) (l r : string) (n : Nd) : Prop := mkFreshRelay {
  fr_carrier : carrier {[l; r]} n;
  fr_gateway : c_gateway (n_ctx n) = None;
  fr_tx : unseen n ktx;
  fr_receipt : unseen n krc;
  fr_left : unheard n l;
  fr_right : unheard n r;
  fr_acked : dedup_contains (t_acked (n_state n)) id = false
}.

(** A relay the transaction has passed *)
Record passed_relay (krc : RelayKey) (l r : string) (n : Nd) : Prop := mkPassedRelay {
  pr_carrier : carrier {[l; r]} n;
  pr_receipt : unseen n krc;
  pr_right : unheard n r
}.

Lemma told_carrier peers (n : Nd) : carrier peers n -> carrier peers (told n).
Proof. by intros []; constructor. Qed.

Lemma sends_other f l r : l <> r -> sends f (Some l) ({[l; r]} : gset string) = [Send r f].
Proof.
  intros Hne. unfold sends. assert (E : filter (fun p => Some p <> Some l) (elements ({[l; r]} : gset string)) = [r]).
  { apply Permutation_singleton_r. rewrite elements_disj_union, !elements_singleton by set_solver.
    rewrite filter_app, !filter_cons, !filter_nil. rewrite decide_False, decide_True by naive_solver. done. }
  by rewrite E.
Qed.

Lemma sends_none f l : sends f (Some l) ({[l]} : gset string) = [].
Proof. unfold sends. rewrite elements_singleton, filter_cons, filter_nil, decide_False; [done|naive_solver]. Qed.

Lemma sends_one f l : sends f None ({[l]} : gset string) = [Send l f].
Proof. unfold sends. rewrite elements_singleton, filter_cons, filter_nil, decide_True; done. Qed.

(** *** A packet at each of its hops *)

Section packet.
Context (p : Packet) (Hok : packet_ok p) (Hv : version p = VERSION) (Hrsr : is_rsr (flags p) = false)
  (Hfit : len (Packet.payload p) <= MAX_PAYLOAD_LEN).

Definition frame_at (t : Z) : bytes := match encode (with_ttl p t) with Ok f => f | _ => [] end.

Lemma frame_at_ok t : encode (with_ttl p t) = Ok (frame_at t).
Proof. unfold frame_at, encode. cbn [Packet.payload with_ttl]. destruct (Z.gtb_spec (len (Packet.payload p)) MAX_PAYLOAD_LEN); [lia|done]. Qed.

Lemma framed_at t : 0 <= t < 256 -> framed (with_ttl p t) (frame_at t).
Proof. intros Ht. constructor; [|done|done|apply frame_at_ok]. destruct Hok. by constructor. Qed.

Lemma relayed_next t : 1 <= t <= 7 -> relayed_ttl t = if 2 <=? t then Some (t - 1) else None.
Proof.
  intros Ht. destruct (Z.leb_spec 2 t).
  - apply relayed_ttl_spec. split; [done|]. rewrite Z.min_l; lia.
  - destruct (relayed_ttl t) as [t'|] eqn:E; [|done]. apply relayed_ttl_spec in E. lia.
Qed.

Lemma onward_line t l r :
  l <> r -> 1 <= t <= 7 -> onward (with_ttl p t) (Some l) {[l; r]} = if 2 <=? t then [Send r (frame_at (t - 1))] else [].
Proof.
  intros Hne Ht. unfold onward. cbn [ttl with_ttl]. rewrite relayed_next by done. destruct (2 <=? t); [|done].
  change (with_ttl (with_ttl p t) (t - 1)) with (with_ttl p (t - 1)). rewrite frame_at_ok. by apply sends_other.
Qed.

Lemma onward_end t l : onward (with_ttl p t) (Some l) {[l]} = [].
Proof. unfold onward. destruct (relayed_ttl _); [|done]. destruct (encode _); [apply sends_none|done..]. Qed.

Lemma relay_tx_step krc e l r n t :
  msg_type p = MtNimiqTx -> decode_envelope (Packet.payload p) = Ok e -> krc <> relay_key p ->
  l <> r -> fresh_relay (relay_key p) krc (tx_id_of e) l r n -> passes e n -> 1 <= t <= 7 ->
  let n1 := catch (run_job (Inbound (Some l) (frame_at t))) n in
  n_log n1 = n_log n ++ (if 2 <=? t then [Send r (frame_at (t - 1))] else []) /\ passed_relay krc l r (told n1).
Proof.
  intros Hty Hd Hk Hne [] Hvet Ht n1.
  destruct (carry_tx_job {[l; r]} n l (with_ttl p t) (frame_at t) e) as (H1 & H2 & [H3 H4] & _); auto; [apply framed_at; lia|].
  rewrite onward_line in H1 by done. split; [exact H1|]. constructor; [by apply told_carrier|apply H3; done|apply H4; done].
Qed.

Lemma relay_receipt_step id st l r n t :
  msg_type p = MtNimiqTxReceipt -> decode_receipt (Packet.payload p) = Ok (Some (id, st)) ->
  l <> r -> passed_relay (relay_key p) r l n -> 1 <= t <= 7 ->
  let n1 := catch (run_job (Inbound (Some l) (frame_at t))) n in
  n_log n1 = n_log n ++ (if 2 <=? t then [Send r (frame_at (t - 1))] else []) /\ True.
Proof.
  intros Hty Hd Hne [] Ht n1. replace ({[r; l]} : gset string) with ({[l; r]} : gset string) in * by set_solver.
  destruct (carry_receipt_job {[l; r]} n l (with_ttl p t) (frame_at t) id st) as (H1 & _); auto; [apply framed_at; lia|].
  rewrite onward_line in H1 by done. split; [exact H1|done].
Qed.

(** The gateway at the end of the line *)
Lemma gateway_step gw e l (n : Nd) t rc r :
  msg_type p = MtNimiqTx -> decode_envelope (Packet.payload p) = Ok e -> carrier {[l]} n -> unheard n l -> ready n gw e p ->
  (submit_validated gw (submission e)).2 = Ok rc -> encode (receipt_packet n (rc_tx_id rc) (rc_status rc)) = Ok r -> 0 <= t < 256 ->
  let n1 := catch (run_job (Inbound (Some l) (frame_at t))) n in
  n_log n1 = n_log n ++ [Submit (submission e)] ++ [Send l r] /\ c_gateway (n_ctx n1) = Some (submit_validated gw (submission e)).1.
Proof.
  intros Hty Hd Hc Hb Hr Hs He Ht n0. destruct (framed_at t Ht) as [Fok Fv Fr Fe].
  destruct (allow_untracked (t_limiter (n_state n)) l (clock (n_reads n)) (cr_rates _ _ Hc) Hb) as (Hrate & _).
  assert (Hr0 : ready (taken n l) gw e (with_ttl p t)) by (destruct Hr; by constructor).
  destruct (run_tx (taken n l) gw e (with_ttl p t) (Some l) rc r Hr0 Hd Hs He) as (n1 & more & H1 & Hl & Hm & Hw & Hgw).
  assert (Hp : process_inbound (Some l) (frame_at t) n = (n1, Some tt)).
  { rewrite (run_inbound l (frame_at t) (with_ttl p t) n Hrate (encode_decode _ _ Fok Fv Fe) Fr) by (cbn; by rewrite Hty).
    fold (taken n l). unfold dispatch, dispatch_fuel. rewrite (run_bind _ _ _ _ _ (run_gets (fun n : Nd => n) (taken n l))). cbv beta. cbn [dispatch_packet]. rewrite <- H1.
    cbn [msg_type with_ttl]. by rewrite Hty. }
  assert (Hwn : w_swap (t_swap (n_state n1)) = None) by (rewrite Hw; exact (cr_swap _ _ Hc)).
  assert (E : n0 = set_swap (t_swap (n_state n1)) (tick_clock n1)).
  { unfold n0, catch. cbn [run_job]. by rewrite (run_bind _ _ _ _ _ Hp), (run_fast_none n1 Hwn). }
  rewrite E. split; [|exact Hgw]. cbn -[sends].
  rewrite Hl. change (c_peers (n_ctx (taken n l))) with (c_peers (n_ctx n)) in *. rewrite (cr_peers _ _ Hc) in *. rewrite sends_one.
  destruct Hm as [->|[f' ->]]; [|rewrite sends_none]; by rewrite app_nil_r.
Qed.

(** The receipt back at the origin *)
Lemma origin_step id st l (n : Nd) t :
  msg_type p = MtNimiqTxReceipt -> decode_receipt (Packet.payload p) = Ok (Some (id, st)) ->
  carrier {[l]} n -> unheard n l -> unseen n (relay_key p) -> 0 <= t < 256 ->
  let n1 := catch (run_job (Inbound (Some l) (frame_at t))) n in
  n_log n1 = n_log n /\ c_ledger (n_ctx n1) = ledger_settle (c_ledger (n_ctx n)) id (payment_status st).
Proof.
  intros Hty Hd Hc Hb Hu Ht n1.
  destruct (carry_receipt_job {[l]} n l (with_ttl p t) (frame_at t) id st) as (H1 & _ & H2); auto; [by apply framed_at|].
  rewrite onward_end, app_nil_r in H1. by split.
Qed.
End packet.

(** ** The line *)

(** The keys of the two packets, from the nodes that make them *)
Definition tx_key (na : Nd) : RelayKey := relay_key (built MtNimiqTx [] na).
Definition receipt_key (ng : Nd) : RelayKey := relay_key (built MtNimiqTxReceipt [] ng).

(** An origin [a] with a payment to make, relays [rs] and a gateway [g], in a line; nothing
    else is going on. *)
Record line (h : Hs) (a : string) (rs : list string) (g : string) (na ng : Nd) (gw : G) (wire : bytes) : Prop := mkLine {
  ln_calm : me_queue (mh_ether h) = [] /\ me_open (mh_ether h) = true;
  ln_loss : SFleb (ec_loss (me_config (mh_ether h))) (f64_of 0) = true;
  ln_clear : forall p q, p ∈ a :: rs ++ [g] -> q ∈ a :: rs ++ [g] -> (p, q) ∉ ec_partitions (me_config (mh_ether h));
  ln_names : NoDup (a :: rs ++ [g]);
  ln_idle : idle_but h a;
  ln_origin : mh_nodes h !! a = Some (up a na [LocalTx wire]);
  ln_relays : chain (fresh_relay (tx_key na) (receipt_key ng) (mock_tx_id wire)) h a rs g;
  ln_gateway : mh_nodes h !! g = Some (up g ng []);
  ln_wire : bytes_ok wire /\ len wire <= 255;
  (** the origin *)
  ln_a_carrier : carrier {[hd g rs]} na;
  ln_a_id : array_ok 8 (c_sender_id (n_ctx na)) /\ uN 64 (c_seq (n_ctx na));
  ln_a_head : forall x, head_latest (c_head (n_ctx na)) = Some x -> uN 32 x;
  ln_a_new : c_ledger (n_ctx na) !! mock_tx_id wire = None;
  ln_a_ears : unseen na (receipt_key ng) /\ unheard na (hd g rs);
  (** the gateway *)
  ln_g_carrier : carrier {[final a rs]} ng;
  ln_g_id : array_ok 8 (c_sender_id (n_ctx ng)) /\ uN 64 (c_seq (n_ctx ng));
  ln_g_ears : unheard ng (final a rs);
  ln_g_gateway : c_gateway (n_ctx ng) = Some gw;
  ln_g_unseen : unseen ng (tx_key na);
  ln_g_unclaimed : dedup_contains (t_gateway_seen (n_state ng)) (mock_tx_id wire) = false;
  ln_g_unacked : dedup_contains (t_acked (n_state ng)) (mock_tx_id wire) = false
}.

(** No node stops the transaction. *)
Definition vetted (h : Hs) (e : NimiqEnvelope) : Prop := map_Forall (fun _ m => passes e (mn_node m)) (mh_nodes h).

Lemma chain_vetted R h l xs r e :
  vetted h e -> chain R h l xs r -> chain (fun l r n => R l r n /\ passes e n) h l xs r.
Proof.
  intros Hv. revert l. induction xs as [|x xs IH]; intros l; [done|]. intros [(n & Hn & HR) Hc]. split; [|by apply IH].
  exists n. split_and!; [done..|]. exact (Hv x _ Hn).
Qed.

Lemma line_ready h a rs g na ng gw wire :
  line h a rs g na ng gw wire -> vetted h (own_envelope na wire) -> ready ng gw (own_envelope na wire) (built MtNimiqTx [] na).
Proof.
  intros [] Hv. destruct (Hv g _ ln_gateway0). by constructor.
Qed.

(** The origin's own job *)
Lemma local_step (na : Nd) wire peer :
  bytes_ok wire -> len wire <= 255 -> (forall x, head_latest (c_head (n_ctx na)) = Some x -> uN 32 x) -> carrier {[peer]} na ->
  exists pl, encode_envelope (own_envelope na wire) = Ok pl
    /\ let n1 := catch (run_job (LocalTx wire)) na in
       n_log n1 = n_log na ++ [] ++ [Send peer (frame_at (built MtNimiqTx pl na) 7)] /\ carrier {[peer]} n1
       /\ c_ledger (n_ctx n1) = ledger_record (c_ledger (n_ctx na)) (mock_tx_id wire) Outgoing
       /\ (forall k, k <> tx_key na -> unseen na k -> unseen n1 k) /\ (forall q, unheard na q -> unheard n1 q).
Proof.
  intros Hw Hl Hh Hc. destruct (run_local_tx na wire Hw Hl Hh) as (pl & f & n1 & Hpl & Hf & Hr & Hlog & Hled & Hseen & (L1 & L2 & L3 & L4 & L5) & Hlim & Hpol).
  exists pl. split; [done|]. intros n2. assert (E : n2 = n1) by (unfold n2, catch; cbn [run_job]; by rewrite Hr). rewrite E.
  split_and!; [|destruct Hc; constructor; congruence|done| |].
  - rewrite Hlog, (cr_peers _ _ Hc), sends_one. do 3 f_equal. unfold frame_at. change (with_ttl (built MtNimiqTx pl na) 7) with (built MtNimiqTx pl na). by rewrite Hf.
  - intros k Hk Hu. rewrite Hseen. apply insert_other; [exact Hk|exact Hu].
  - intros q Hq. by rewrite Hlim.
Qed.

Lemma hd_reverse x xs : hd x (reverse xs) = final x xs.
Proof.
  revert x. induction xs as [|y ys IH]; intros x; [done|]. rewrite reverse_cons. cbn [final]. rewrite <- IH.
  by destruct (reverse ys).
Qed.

(** The way out: the transaction reaches the gateway, or has made its last hop. *)
Lemma line_out h a rs g na ng gw wire :
  line h a rs g na ng gw wire -> vetted h (own_envelope na wire) ->
  let cfg := me_config (mh_ether h) in
  exists pl na1,
    encode_envelope (own_envelope na wire) = Ok pl
    /\ carrier {[hd g rs]} na1 /\ unseen na1 (receipt_key ng) /\ unheard na1 (hd g rs)
    /\ c_ledger (n_ctx na1) !! mock_tx_id wire = Some (mkSettlement Pending Outgoing)
    /\ if (length rs <=? 6)%nat then
         exists h1, rtc forced h h1 /\ calm cfg (mh_ether h1) /\ idle_but h1 g /\ mh_nodes h1 !! a = Some (up a na1 [])
           /\ mh_nodes h1 !! g = Some (up g ng [Inbound (Some (final a rs)) (frame_at (built MtNimiqTx pl na) (7 - Z.of_nat (length rs)))])
           /\ chain (passed_relay (receipt_key ng)) h1 a rs g
       else exists h1, rtc forced h h1 /\ quiescent h1 /\ mh_nodes h1 !! a = Some (up a na1 []) /\ mh_nodes h1 !! g = Some (up g ng []).
Proof.
  intros [] Hvet cfg. destruct ln_wire0 as [Hw Hlw], ln_a_id0 as [Hsa Hqa], ln_a_ears0 as [Hak Hah].
  destruct (local_step na wire (hd g rs) Hw Hlw ln_a_head0 ln_a_carrier0) as (pl & Hpl & Hlog & Hc1 & Hled & Hk1 & Hh1).
  pose proof (own_envelope_ok na wire Hw ln_a_head0) as He.
  destruct (envelope_fits _ _ He Hpl) as [Hfit Hpb]. pose proof (built_ok MtNimiqTx pl na Hsa Hqa Hpb) as Hp.
  pose proof (envelope_decode _ _ He Hpl) as Hd. set (p := built MtNimiqTx pl na) in *.
  exists pl, (told (catch (run_job (LocalTx wire)) na)).
  split_and!; [done|by apply told_carrier|by apply Hk1|by apply Hh1| |].
  { etransitivity; [exact (f_equal (lookup (mock_tx_id wire)) Hled)|]. by rewrite ledger_record_lookup, ln_a_new0, decide_True. }
  assert (Hfwd : forall l r n t, l <> r -> fresh_relay (tx_key na) (receipt_key ng) (mock_tx_id wire) l r n /\ passes (own_envelope na wire) n -> 1 <= t <= 7 ->
    let n1 := catch (run_job (Inbound (Some l) (frame_at p t))) n in
    n_log n1 = n_log n ++ (if 2 <=? t then [Send r (frame_at p (t - 1))] else []) /\ passed_relay (receipt_key ng) l r (told n1)).
  { intros l r n t Hne [Hfr Hv] Ht. apply (relay_tx_step p Hp eq_refl eq_refl Hfit (receipt_key ng) _ l r n t eq_refl Hd ltac:(discriminate) Hne Hfr Hv Ht). }
  pose proof (send_along cfg ln_loss0 _ ln_clear0 (frame_at p) _ _ Hfwd rs h a na (LocalTx wire) [] 7 g ng ln_origin0 ltac:(done)
    ltac:(by destruct ln_calm0) ln_idle0 Hlog ltac:(constructor) (chain_vetted _ _ _ _ _ _ Hvet ln_relays0) ln_gateway0 ln_names0 ltac:(done) ltac:(lia)) as HF. cbv zeta in HF.
  destruct (Z.leb_spec (Z.of_nat (length rs) + 1) 7), (Nat.leb_spec (length rs) 6); try lia; exact HF.
Qed.

(** The way back: the gateway submits, and its receipt settles the payment. *)
Lemma line_back h h1 a rs g na ng gw wire st pl na1 :
  line h a rs g na ng gw wire -> vetted h (own_envelope na wire) ->
  (submit_validated gw (submission (own_envelope na wire))).2 = Ok (mkReceipt (mock_tx_id wire) st) -> (length rs <= 6)%nat -> encode_envelope (own_envelope na wire) = Ok pl ->
  carrier {[hd g rs]} na1 -> unseen na1 (receipt_key ng) -> unheard na1 (hd g rs) ->
  c_ledger (n_ctx na1) !! mock_tx_id wire = Some (mkSettlement Pending Outgoing) ->
  calm (me_config (mh_ether h)) (mh_ether h1) -> idle_but h1 g -> mh_nodes h1 !! a = Some (up a na1 []) ->
  mh_nodes h1 !! g = Some (up g ng [Inbound (Some (final a rs)) (frame_at (built MtNimiqTx pl na) (7 - Z.of_nat (length rs)))]) ->
  chain (passed_relay (receipt_key ng)) h1 a rs g ->
  exists h2 na2 ng2 r, rtc forced h1 h2 /\ quiescent h2 /\ mh_nodes h2 !! a = Some (up a na2 []) /\ mh_nodes h2 !! g = Some (up g ng2 [])
    /\ n_log ng2 = n_log ng ++ [Submit (submission (own_envelope na wire)); Send (final a rs) r]
    /\ c_gateway (n_ctx ng2) = Some (submit_validated gw (submission (own_envelope na wire))).1
    /\ c_ledger (n_ctx na2) !! mock_tx_id wire = Some (mkSettlement (payment_status st) Outgoing).
Proof.
  intros Hline Hvet Hans Hlen Hpl Hc1 Hk1 Hh1 Hled Hcalm Hidle Ha Hg Hch. pose proof (line_ready _ _ _ _ _ _ _ _ Hline Hvet) as Hready. destruct Hline.
  destruct ln_wire0 as [Hw Hlw], ln_a_id0 as [Hsa Hqa], ln_g_id0 as [Hsg Hqg].
  pose proof (own_envelope_ok na wire Hw ln_a_head0) as He.
  destruct (envelope_fits _ _ He Hpl) as [Hfit Hpb]. pose proof (built_ok MtNimiqTx pl na Hsa Hqa Hpb) as Hp.
  pose proof (envelope_decode _ _ He Hpl) as Hd. pose proof (mock_tx_id_ok wire) as Hid.
  destruct (receipt_frame ng _ st Hsg Hqg Hid) as [Hq [rf Hrf]].
  destruct (gateway_step _ Hp eq_refl eq_refl Hfit gw _ (final a rs) ng (7 - Z.of_nat (length rs)) _ rf eq_refl Hd ln_g_carrier0 ln_g_ears0
    ltac:(destruct Hready; by constructor) Hans Hrf ltac:(lia)) as [Hgl Hgw].
  set (q := receipt_packet ng (mock_tx_id wire) st) in *. set (j := Inbound _ _) in *.
  assert (Hqd : decode_receipt (Packet.payload q) = Ok (Some (mock_tx_id wire, st)))
    by (rewrite <- (receipt_code_from st) at 1; exact (decode_receipt_at _ _ (proj1 Hid))).
  assert (Hqfit : len (Packet.payload q) <= MAX_PAYLOAD_LEN).
  { unfold encode in Hrf. change (Packet.payload (receipt_packet ng _ _)) with (Packet.payload q) in Hrf.
    destruct (Z.gtb_spec (len (Packet.payload q)) MAX_PAYLOAD_LEN); [discriminate|lia]. }
  assert (Hq7 : rf = frame_at q 7) by (unfold frame_at; change (with_ttl q 7) with q; by rewrite Hrf).
  rewrite Hq7, <- hd_reverse in Hgl.
  pose proof (send_along (me_config (mh_ether h)) ln_loss0 _ ln_clear0 (frame_at q) (fun l r n => passed_relay (receipt_key ng) r l n) (fun _ _ _ => True)
    (fun l r n t Hne HR Ht => relay_receipt_step q Hq eq_refl eq_refl Hqfit _ _ l r n t eq_refl Hqd Hne HR Ht)
    (reverse rs) h1 g ng j [Submit (submission (own_envelope na wire))] 7 a na1 Hg ltac:(done) Hcalm Hidle Hgl ltac:(by constructor)
    (chain_rev _ _ _ _ _ Hch) Ha) as HB. cbv zeta in HB. rewrite length_reverse in HB.
  assert (Erev : g :: reverse rs ++ [a] = reverse (a :: rs ++ [g])) by (by rewrite reverse_cons, reverse_app).
  destruct (Z.leb_spec (Z.of_nat (length rs) + 1) 7); [|lia]. rewrite Erev in HB.
  destruct HB as (h2 & B1 & B2 & B3 & B4 & B5 & _); [by rewrite reverse_Permutation|intros x; by rewrite reverse_Permutation|lia|].
  assert (Ef : final g (reverse rs) = hd g rs) by (rewrite <- hd_reverse, reverse_involutive; done). rewrite Ef in B5.
  destruct (origin_step q Hq eq_refl eq_refl Hqfit (mock_tx_id wire) st (hd g rs) na1 (7 - Z.of_nat (length rs)) eq_refl Hqd Hc1 Hh1 Hk1 ltac:(lia)) as [Ol Os].
  destruct (halt _ h2 a na1 _ _ [] B5 ltac:(done) B2 B3 eq_refl ltac:(by rewrite app_nil_r)) as (h3 & T1 & T2 & T3); [by constructor|].
  eexists h3, _, _, _. rewrite T3. assert (Hag : a <> g) by (intros ->; apply NoDup_cons in ln_names0 as [Hn _]; apply Hn, elem_of_app; right; left).
  split_and!; [by etransitivity|done|apply lookup_insert_eq|by rewrite lookup_insert_ne| |exact Hgw|].
  - etransitivity; [exact Hgl|]. rewrite hd_reverse. reflexivity.
  - rewrite Os, ledger_settle_lookup, Hled, decide_True by done. reflexivity.
Qed.

(** A payment crosses a line of relays in every interleaving, up to the hop cap.  An origin,
    any number of relays that have heard nothing yet and a gateway whose chain answers [st]
    stand in a line of lossless links, and the origin has a payment to make that no node
    stops, be it for its signature or its window.  However the workers, radios and delivery
    thread are interleaved, the mesh can come to rest; and whenever it is at rest, with at most
    six relays the gateway has submitted exactly the origin's transaction, once, and the
    origin's payment has the fate the chain gave it; with more, the transaction died on its
    way: the gateway is as it was and the payment pending. *)
Theorem line_payment (h : Hs) (a : string) (rs : list string) (g : string) (na ng : Nd) (gw : G) (wire : bytes) (st : ReceiptStatus)
    (Hline : line h a rs g na ng gw wire) (Hvet : vetted h (own_envelope na wire))
    (Hans : (submit_validated gw (submission (own_envelope na wire))).2 = Ok (mkReceipt (mock_tx_id wire) st))
    (es : list (@MeshEvent V)) (Hes : Forall internal es) :
  let h' := mesh_run h es in
  (exists es', Forall internal es' /\ quiescent (mesh_run h' es'))
  /\ (quiescent h' ->
      exists ma mg, mh_nodes h' !! a = Some ma /\ mh_nodes h' !! g = Some mg
        /\ if (length rs <=? 6)%nat
           then (exists r, n_log (mn_node mg) = n_log ng ++ [Submit (submission (own_envelope na wire)); Send (final a rs) r])
                /\ c_gateway (n_ctx (mn_node mg)) = Some (submit_validated gw (submission (own_envelope na wire))).1
                /\ c_ledger (n_ctx (mn_node ma)) !! mock_tx_id wire = Some (mkSettlement (payment_status st) Outgoing)
           else mn_node mg = ng /\ c_ledger (n_ctx (mn_node ma)) !! mock_tx_id wire = Some (mkSettlement Pending Outgoing)).
Proof.
  intros h'. destruct (line_out h a rs g na ng gw wire Hline Hvet) as (pl & na1 & Hpl & Hc & Hk & Hh & Hl & Hout).
  destruct (length rs <=? 6)%nat eqn:E.
  - destruct Hout as (h1 & F1 & F2 & F3 & F4 & F5 & F6). apply Nat.leb_le in E.
    destruct (line_back h h1 a rs g na ng gw wire st pl na1) as (h2 & na2 & ng2 & r & B1 & B2 & B3 & B4 & B5 & B6 & B7); auto.
    pose proof (forced_run h h2 es (transitivity F1 B1) B2 Hes) as Hr. fold h' in Hr. split.
    + destruct (forced_reach h' h2 Hr) as (es' & H1 & H2). exists es'. by rewrite H2.
    + intros Hq. rewrite (forced_end h' h2 Hr Hq). eexists _, _. split_and!; [exact B3|exact B4|eauto|exact B6|exact B7].
  - destruct Hout as (h1 & F1 & F2 & F3 & F4). pose proof (forced_run h h1 es F1 F2 Hes) as Hr. fold h' in Hr. split.
    + destruct (forced_reach h' h1 Hr) as (es' & H1 & H2). exists es'. by rewrite H2.
    + intros Hq. rewrite (forced_end h' h1 Hr Hq). eexists _, _. split_and!; [exact F3|exact F4|done|exact Hl].
Qed.
End line.
