(* ===== verification/LiveDoor.v ===== *)
(** * LiveDoor: the constructors of live swap participants ([swap_live_ffi.rs],
    [swap_live_ffi_live_impl.rs], [swap_secret.rs] and the gate of [MeshNode::build])

    The signer wrappers (one funding per construction, the book of NIM locks), the refunder,
    the seed checks, and the four doors that assemble a session, a signer and a gateway and
    build the node.  The endpoints behind a URL, the key of a secp256k1 secret and the clocks
    are parameters; the guards on the URLs are the code's.  The store and the peer book that a
    door shares between the verifier and the signer are empty when it returns. *)

From stdpp Require Import base list gmap strings sets.
From Stdlib Require Import ZArith Lia.
From S2P Require Import Prelude Packet Crypto SwapWire Swap SwapIntent FundingVerify SwapMessages SwapCoordinator SwapSession SwapNode Relay Address NimTx Gateway NimHtlc NimVerifier Evm UsdcLeg EvmVerifier LiveSigner PolygonGateway Engine.
Open Scope Z_scope.

(** ** Seeds and secrets ([swap_secret.rs]) *)

Definition MIN_DISTINCT_BYTES : Z := 8.
Definition SECRET_MASTER_LABEL : bytes := chars "nimmesh-swap-secret-master-v1".
Definition SECRET_LABEL : bytes := chars "nimmesh-swap-secret-v1".

(** The count of distinct values: a value is counted when it is first seen. *)
Definition count_distinct (seed : bytes) : Z :=
  snd (foldl (fun '(seen, n) b => if bool_decide (b ∈ seen) then (seen, n) else (b :: seen, n + 1)) ([], 0) seed).

Definition check_seed_entropy (seed : bytes) : res (list Z) unit :=
  if forallb (fun b => b =? 0) seed then
    Err (chars "seed is all zeros " ++ [8212] ++
         chars " the CSPRNG almost certainly failed and its error was discarded; a zero seed makes every swap secret public-derivable")
  else if count_distinct seed <? MIN_DISTINCT_BYTES then
    Err (chars "seed has too few distinct byte values to have come from a CSPRNG (a stuck RNG or a hand-typed placeholder)")
  else Ok tt.

Definition secret_source `{Crypto} (seed : bytes) : bytes -> bytes :=
  let master := sha256 (seed ++ SECRET_MASTER_LABEL) in
  fun swap_id => sha256 (master ++ swap_id ++ SECRET_LABEL).

Definition sim_secret `{Crypto} (swap_id : bytes) : bytes :=
  sha256 (chars "NIMMESH-SIM-INTENT-SECRET-DO-NOT-USE-IN-PROD" ++ swap_id).

(** ** The FFI types *)

Definition MAX_LOCKS : Z := 32.
Definition REFUND_MARGIN_MS : Z := 60000.

Inductive LiveSwapFfiError : Type :=
| Unsupported
| BadInput (reason : list Z)
| Refused (reason : list Z)
| FfiTransport (reason : list Z).

Definition live_error_to_string (e : LiveSwapFfiError) : str :=
  match e with
  | Unsupported => chars "live swap unsupported: core built without polygon-gateway + gateway-rpc"
  | BadInput reason => chars "bad input: " ++ reason
  | Refused reason => chars "refused: " ++ reason
  | FfiTransport reason => chars "transport: " ++ reason
  end.

(** [str::trim] *)
Fixpoint trim_start (s : str) : str :=
  match s with c :: r => if is_whitespace c then trim_start r else s | [] => [] end.
Definition trim (s : str) : str := reverse (trim_start (reverse (trim_start s))).

Definition mainnet_htlc_if_armed (allowed : bool) (htlc_address : str) : res LiveSwapFfiError (list Z) :=
  if negb allowed then Err (Refused (chars "mainnet swap is disabled (mainnet_swap::MAINNET_SWAP_ENABLED = false)")) else
  let addr := trim htlc_address in
  if bool_decide (addr = []) then
    Err (Refused (chars "mainnet HTLC address is not set (mainnet_swap::MAINNET_HTLC_ADDRESS is empty)"))
  else Ok addr.

Definition mainnet_swap_reason : str :=
  match mainnet_htlc_if_armed (live_swap_allowed Mainnet) MAINNET_HTLC_ADDRESS with
  | Ok htlc => chars "armed " ++ [8212] ++ chars " real mainnet funds; escrow " ++ htlc
  | Err (Refused reason) => reason
  | Err e => live_error_to_string e
  | Panic => []
  end.

Record FfiLiveInitiatorConfig : Type := mkFfiInitiator {
  fi_nim_luna : Z;
  fi_usdc_micro : Z;
  fi_expiry_height : Z;
  fi_intent_seed : bytes;
  fi_evm_claim_address : bytes;
  fi_evm_gas_secret : bytes;
  fi_nim_rpc_url : list Z;
  fi_amoy_rpc_url : list Z;
  fi_htlc_address : list Z;
  fi_delta_safe_blocks : Z;
  fi_min_claim_window_blocks : Z
}.

Record FfiLiveResponderConfig : Type := mkFfiResponder {
  fr_usdc_micro : Z;
  fr_nim_luna : Z;
  fr_expiry_height : Z;
  fr_nim_claim_seed : bytes;
  fr_evm_funding_secret : bytes;
  fr_nim_rpc_url : list Z;
  fr_amoy_rpc_url : list Z;
  fr_htlc_address : list Z;
  fr_usdc_address : list Z;
  fr_delta_safe_blocks : Z;
  fr_min_claim_window_blocks : Z
}.

(** [FfiIntentAsset] is [Asset] under another name. *)
Record FfiStandingIntent : Type := mkStandingIntent {
  si_gives : Asset;
  si_counter_asset : Asset;
  si_nim_amount : Z;
  si_counter_amount : Z;
  si_expiry_height : Z;
  si_min_nim : Z;
  si_max_nim : Z
}.

Record FfiParticipantConfig : Type := mkParticipantConfig {
  pc_btc_pubkey : bytes;
  pc_btc_address : bytes;
  pc_max_concurrent_swaps : Z;
  pc_delta_safe_blocks : Z;
  pc_min_claim_window_blocks : Z;
  pc_standing_intent : option FfiStandingIntent;
  pc_intent_seed : bytes
}.

Inductive ParticipantInitError : Type :=
| InitBadInput (reason : list Z)
| InitGateway (reason : list Z).

Definition init_error_to_string (e : ParticipantInitError) : str :=
  match e with
  | InitBadInput reason => chars "bad input: " ++ reason
  | InitGateway reason => chars "gateway refused: " ++ reason
  end.

Record FfiNimLock : Type := mkNimLock {
  nl_contract : list Z;
  nl_value : Z;
  nl_timeout_ms : Z;
  nl_funding_tx_hash : list Z
}.

Abbreviation LiveLockBook := (list FfiNimLock).

(** [LiveLockBook::record] *)
Definition book_record (locks : LiveLockBook) (lock : FfiNimLock) : LiveLockBook :=
  if (MAX_LOCKS <=? len locks) || existsb (fun l => bool_decide (nl_contract l = nl_contract lock)) locks then locks
  else locks ++ [lock].

(** ** The signer wrappers *)

Record OneShotSigner (S : Type) : Type := mkOneShot { os_inner : S; os_fired : bool }.
Arguments mkOneShot {S}.
Arguments os_inner {S}.
Arguments os_fired {S}.

Record LockRecordingSigner (S : Type) : Type := mkLockRecording { lk_inner : S; lk_book : LiveLockBook }.
Arguments mkLockRecording {S}.
Arguments lk_inner {S}.
Arguments lk_book {S}.

Section wrappers.
Context `{C : Crypto} {S : Type} `{SG : SwapSigner S}.

Definition one_shot_new (inner : S) : OneShotSigner S := mkOneShot inner false.

Definition one_shot_build_funding (s : OneShotSigner S) (ctx : SwapContext) (leg : SwapLegId)
  : OneShotSigner S * option (bytes * bytes) :=
  if os_fired s then (s, None) else
  let '(inner, out) := build_funding (os_inner s) ctx leg in
  (mkOneShot inner (match out with Some _ => true | None => os_fired s end), out).

#[export] Instance OneShot_signer : SwapSigner (OneShotSigner S) := {|
  build_funding := one_shot_build_funding;
  build_claim s ctx secret := let '(inner, out) := build_claim (os_inner s) ctx secret in (mkOneShot inner (os_fired s), out);
  note_peer s swap_id nim chain := mkOneShot (note_peer (os_inner s) swap_id nim chain) (os_fired s);
  is_live s := is_live (os_inner s)
|}.

Definition lock_recording_new (inner : S) (book : LiveLockBook) : LockRecordingSigner S := mkLockRecording inner book.

(** The lock of a creation *)
Definition lock_of (c : HtlcCreation) : FfiNimLock :=
  mkNimLock (match to_user_friendly (contract_address c) with Ok s => s | _ => [] end) (hc_value c) (hd_timeout (hc_data c))
    (bytes_to_hex (creation_hash c)).

Definition record_wire (book : LiveLockBook) (wire : bytes) : LiveLockBook :=
  match decode_creation_wire wire with Ok (Some creation) => book_record book (lock_of creation) | _ => book end.

Definition lock_build_funding (s : LockRecordingSigner S) (ctx : SwapContext) (leg : SwapLegId)
  : LockRecordingSigner S * option (bytes * bytes) :=
  let '(inner, out) := build_funding (lk_inner s) ctx leg in
  (mkLockRecording inner
     (match leg, out with LegNim, Some (wire, _) => record_wire (lk_book s) wire | _, _ => lk_book s end), out).

#[export] Instance LockRecording_signer : SwapSigner (LockRecordingSigner S) := {|
  build_funding := lock_build_funding;
  build_claim s ctx secret := let '(inner, out) := build_claim (lk_inner s) ctx secret in (mkLockRecording inner (lk_book s), out);
  note_peer s swap_id nim chain := mkLockRecording (note_peer (lk_inner s) swap_id nim chain) (lk_book s);
  is_live s := is_live (lk_inner s)
|}.
End wrappers.

(** ** The refunder *)

Inductive FfiRefundOutcome : Type :=
| Refunded (tx_hash : list Z)
| AlreadyResolved
| StillLocked (until_ms : Z).

(** [{e:?}] of an address error *)
Definition address_error_debug (e : AddressError) : str :=
  match e with
  | WrongLength n => chars "WrongLength(" ++ decimal n ++ chars ")"
  | MissingPrefix => chars "MissingPrefix"
  | BadChecksum => chars "BadChecksum"
  | BadBase32Char c => chars "BadBase32Char('" ++ [c] ++ chars "')"
  end.

Section refunder.
Context `{C : Crypto} {N : Type} `{RPC : GatewayRpc N}.

Record NimHtlcRefunder : Type := mkRefunder {
  nr_key : EnclaveKey;
  nr_rpc : N;
  nr_network : NetworkId;
  (** [(self.clock_ms)()] at the call *)
  nr_clock_ms : Z
}.

Definition from_parts_on (key : EnclaveKey) (rpc : N) (network : NetworkId) (now_ms : Z) : NimHtlcRefunder :=
  mkRefunder key rpc network now_ms.
Definition from_parts (key : EnclaveKey) (rpc : N) (now_ms : Z) : NimHtlcRefunder := from_parts_on key rpc Testnet now_ms.

Definition nr_with_rpc (r : NimHtlcRefunder) (rpc : N) : NimHtlcRefunder :=
  mkRefunder (nr_key r) rpc (nr_network r) (nr_clock_ms r).

Definition transport {A} (r : res RpcError A) : res LiveSwapFfiError A :=
  match r with Ok v => Ok v | Err e => Err (FfiTransport (rpc_error_to_string e)) | Panic => Panic end.

(** The redeem of [refund] *)
Definition refund_redeem (r : NimHtlcRefunder) (contract pk : bytes) (balance head : Z) : HtlcRedeem :=
  mkRedeem contract (address_of pk) balance 0 head (wire_id (nr_network r)).

(** From the due time on: sign and broadcast *)
Definition refund_send (r : NimHtlcRefunder) (contract : bytes) (balance : Z)
  : NimHtlcRefunder * res LiveSwapFfiError FfiRefundOutcome :=
  match try_array 32 (ek_public_key (nr_key r)) with
  | None => (r, Err (BadInput (chars "enclave public key is not 32 bytes")))
  | Some pk =>
      let '(rpc, h) := Gateway.block_number (nr_rpc r) in
      let r := nr_with_rpc r rpc in
      match transport h with
      | Ok head =>
          let redeem := refund_redeem r contract pk balance head in
          match try_array 64 (ek_sign_content (nr_key r) (redeem_content redeem)) with
          | None => (r, Err (BadInput (chars "enclave signature is not 64 bytes")))
          | Some signature =>
              let wire := redeem_wire redeem (timeout_resolve_proof pk signature) in
              let '(rpc, s) := Gateway.send_raw_transaction (nr_rpc r) (bytes_to_hex wire) in
              (nr_with_rpc r rpc, let? _ := transport s in Ok (Refunded (bytes_to_hex (redeem_hash redeem))))
          end
      | Err e => (r, Err e)
      | Panic => (r, Panic)
      end
  end.

Definition refund (r : NimHtlcRefunder) (lock : FfiNimLock) : NimHtlcRefunder * res LiveSwapFfiError FfiRefundOutcome :=
  match from_user_friendly (nl_contract lock) with
  | Err e => (r, Err (BadInput (chars "bad contract address: " ++ address_error_debug e)))
  | Panic => (r, Panic)
  | Ok contract =>
      let '(rpc, a) := get_account (nr_rpc r) (nl_contract lock) in
      let r := nr_with_rpc r rpc in
      match transport a with
      | Err e => (r, Err e)
      | Panic => (r, Panic)
      | Ok acct =>
          let balance := match acct with Some acct => ra_balance acct | None => 0 end in
          if balance =? 0 then (r, Ok AlreadyResolved) else
          let due := sat_add 64 (nl_timeout_ms lock) REFUND_MARGIN_MS in
          if nr_clock_ms r <=? due then (r, Ok (StillLocked due)) else
          refund_send r contract balance
      end
  end.
End refunder.
Arguments NimHtlcRefunder N : clear implicits.

(** ** The doors *)

Definition bad (reason : str) : LiveSwapFfiError := BadInput reason.

Definition ok_or_bad {A} (o : option A) (reason : str) : res LiveSwapFfiError A :=
  match o with Some v => Ok v | None => Err (bad reason) end.

Definition seed32 (b : bytes) (what : str) : res LiveSwapFfiError bytes :=
  let? seed := ok_or_bad (try_array 32 b) (what ++ chars " must be 32 bytes") in
  match check_seed_entropy seed with
  | Ok _ => Ok seed
  | Err why => Err (bad (what ++ chars ": " ++ why))
  | Panic => Panic
  end.

Definition evm_addr (s what : str) : res LiveSwapFfiError bytes :=
  ok_or_bad (match hex_to_bytes (as_bytes (trim s)) with Ok b => try_array 20 b | _ => None end)
    (what ++ chars " must be a 20-byte 0x-hex address").

Definition live_ladder (delta window : Z) : LadderParams :=
  mkLadder (if delta =? 0 then delta_safe_blocks ladder_default else delta)
    (if window =? 0 then min_claim_window_blocks ladder_default else window).

Definition btc_pubkey_filler `{Crypto} (seed : bytes) : bytes :=
  2 :: sha256 (seed ++ chars "nimmesh-live-btc-pubkey-filler-v1").

Definition build_live_intent_on `{Crypto} (gives : Asset) (nim_luna usdc_micro expiry_height : Z) (seed evm_address : bytes)
    (network : NetworkId) : res LiveSwapFfiError SwapIntent :=
  if (nim_luna =? 0) || (usdc_micro =? 0) then Err (bad (chars "trade amounts must be non-zero")) else
  if expiry_height =? 0 then Err (bad (chars "expiry_height must be non-zero")) else
  match gives with
  | ABtc => Err (bad (chars "live pair is NIM" ++ [8644] ++ chars "USDC only"))
  | _ =>
      Ok (sign_intent (mkIntent gives AUsdc nim_luna usdc_micro expiry_height 0 (2 ^ 64 - 1) (replicate 32 0) (replicate 20 0)
                         (btc_pubkey_filler seed) evm_address evm_address (wire_id network) (replicate 64 0)) seed)
  end.

Definition build_live_intent `{Crypto} (gives : Asset) (nim_luna usdc_micro expiry_height : Z) (seed evm_address : bytes)
  : res LiveSwapFfiError SwapIntent :=
  build_live_intent_on gives nim_luna usdc_micro expiry_height seed evm_address Testnet.

Record MainnetMoneyPath : Type := mkMoneyPath {
  mp_htlc : bytes;
  mp_usdc : bytes;
  mp_evm_chain_id : Z;
  mp_confirm_policy : ConfirmationPolicy;
  mp_caps : SwapCaps;
  mp_network : NetworkId
}.

Definition mainnet_money_path (htlc_address : str) : res LiveSwapFfiError MainnetMoneyPath :=
  let? htlc := evm_addr htlc_address (chars "MAINNET_HTLC_ADDRESS") in
  let? usdc := evm_addr NATIVE_USDC_POLYGON_MAINNET (chars "NATIVE_USDC_POLYGON_MAINNET") in
  Ok (mkMoneyPath htlc usdc POLYGON_MAINNET_CHAIN_ID mainnet_defaults mainnet_first_swap Mainnet).

Section li.
Context {N A : Type}.
(** [LiveInitiatorSigner::with_evm_chain_id] *)
Definition li_with_evm_chain_id (s : LiveInitiatorSigner (N:=N) (A:=A)) (chain_id : Z) : LiveInitiatorSigner :=
  mkLiveInitiator (li_cfg s) (li_nim_rpc s) (li_amoy s) (li_store s) (li_peer_book s) (li_clock_ms s) chain_id (li_last_claim s).
End li.

Section doors.
Context `{C : Crypto} `{K : Keccak} {N A : Type} `{RPC : GatewayRpc N} `{LC : LiveChain A} `{AC : AmoyChain A}
  `{U : Unicode} {R : Type} `{RR : RelayRng R} `{CK : Clock}.

(** The endpoint behind a URL, the key of a secp256k1 secret, the clocks and the policy of
    the build *)
Context (nim_connect : str -> N) (amoy_connect : str -> A) (evm_from_secret : bytes -> option LocalEvmKey)
  (now_ms now_s : Z) (policy : RelayPolicy R) (seq : Z).

(** [LiveSwapFfiError::Refused] of a client error *)
Definition refused_nim {B} (r : res RpcError B) : res LiveSwapFfiError B :=
  match r with Ok v => Ok v | Err e => Err (Refused (rpc_error_to_string e)) | Panic => Panic end.
Definition refused_evm {B} (r : res EvmRpcError B) : res LiveSwapFfiError B :=
  match r with Ok v => Ok v | Err e => Err (Refused (evm_error_to_string e)) | Panic => Panic end.

(** [HttpGatewayRpc::new], [new_mainnet] and [HttpPolygonRpc::new], [new_mainnet] at this seam *)
Definition nim_client (network : NetworkId) (url : str) : res RpcError N :=
  match network with
  | Testnet => let? _ := guard_testnet url Testnet in Ok (nim_connect url)
  | Mainnet => let? _ := guard_mainnet url in Ok (nim_connect url)
  end.
Definition amoy_client (network : NetworkId) (url : str) : res EvmRpcError A :=
  match network with
  | Testnet => let? _ := guard_amoy url in Ok (amoy_connect url)
  | Mainnet => let? _ := guard_polygon_mainnet url in Ok (amoy_connect url)
  end.

(** [swap_participant_ffi::build_testnet_gateway] *)
Definition gateway_refused {B} (r : res RpcError B) : res ParticipantInitError B :=
  match r with Ok v => Ok v | Err e => Err (InitGateway (rpc_error_to_string e)) | Panic => Panic end.
Definition build_testnet_gateway (url : str) : res ParticipantInitError (RpcGateway N) :=
  let? rpc := gateway_refused (nim_client Testnet url) in Ok (rpc_gateway_new rpc).
Definition build_mainnet_gateway (url : str) : res ParticipantInitError (RpcGateway N) :=
  let? rpc := gateway_refused (nim_client Mainnet url) in Ok (rpc_gateway_new_mainnet rpc).

(** The optional hop of a door *)
Definition optional_gateway (build : str -> res ParticipantInitError (RpcGateway N)) (url : option (list Z))
  : res ParticipantInitError (option (RpcGateway N)) :=
  match url with None => Ok None | Some url => let? g := build url in Ok (Some g) end.
Definition refused_init {B} (r : res ParticipantInitError B) : res LiveSwapFfiError B :=
  match r with Ok v => Ok v | Err e => Err (Refused (init_error_to_string e)) | Panic => Panic end.

(** *** [MeshNode::build]: the money-path gate, then the node *)

Definition mesh_node_build {E V S} `{FV : FundingVerifier V} `{SG : SwapSigner S} (sender_id : bytes)
    (gateway : option (RpcGateway N)) (verify_before_relay : bool) (swap : option (@SwapSession V)) (signer : option S)
    (network : NetworkId) : res E (@Engine.Node V S R (RpcGateway N)) :=
  let node := node_new sender_id gateway policy verify_before_relay swap signer network seq in
  if match signer with Some s => is_live s | None => false end then
    if negb (live_swap_allowed network) then Panic else
    match swap with
    | None => Panic
    | Some session => match live_safety session with Ok _ => Ok node | _ => Panic end
    end
  else Ok node.

(** [live_safety] at a door *)
Definition door_safety {V} `{FV : FundingVerifier V} (session : @SwapSession V) : res LiveSwapFfiError unit :=
  match live_safety session with
  | Ok _ => Ok tt
  | Err reason => Err (bad (chars "live-safety refused: " ++ chars reason))
  | Panic => Panic
  end.

(** The assembly of a door: what [MeshNode::build] is called with *)
Record Assembly (V S : Type) : Type := mkAssembly {
  as_session : @SwapSession V;
  as_signer : S;
  as_gateway : option (RpcGateway N);
  as_network : NetworkId
}.

Abbreviation InitiatorSigner := (OneShotSigner (LockRecordingSigner (LiveInitiatorSigner (N:=N) (A:=A)))).
Abbreviation ResponderSigner := (OneShotSigner (LiveResponderSigner (N:=N) (A:=A))).

(** The identity every live door builds from its intent *)
Definition live_identity (intent : SwapIntent) (evm : bytes) : NodeIdentity :=
  mkIdentity (i_nim_address intent) evm (i_btc_pubkey intent) accept_all 1 (Some intent).

Definition initiator_session (seed claim_addr htlc : bytes) (intent : SwapIntent) (amoy : A) (delta window : Z)
    (confirm : ConfirmationPolicy) (caps : option SwapCaps) : @SwapSession (AmoyHtlcSwapVerifier A) :=
  session_new (live_identity intent claim_addr) (live_ladder delta window)
    (amoy_verifier_new amoy htlc claim_addr polygon_store_new now_s) (Some (in_memory_key seed)) confirm AUsdc
    (secret_source seed) false caps.

Definition responder_session (claim_seed evm : bytes) (intent : SwapIntent) (verifier : @NimHtlcVerifier N) (delta window : Z)
    (confirm : ConfirmationPolicy) (caps : option SwapCaps) : @SwapSession (@NimHtlcVerifier N) :=
  session_new (live_identity intent evm) (live_ladder delta window) verifier None confirm AUsdc
    (secret_source claim_seed) false caps.

(** *** The testnet doors *)

Definition assemble_initiator (nim_funding_key : EnclaveKey) (lock_book : LiveLockBook) (config : FfiLiveInitiatorConfig)
    (gateway_rpc_url : option (list Z)) : res LiveSwapFfiError (Assembly (AmoyHtlcSwapVerifier A) InitiatorSigner) :=
  let? seed := seed32 (fi_intent_seed config) (chars "intent_seed") in
  let? gas_secret := seed32 (fi_evm_gas_secret config) (chars "evm_gas_secret") in
  let? claim_addr := ok_or_bad (try_array 20 (fi_evm_claim_address config)) (chars "evm_claim_address must be 20 bytes") in
  let? evm_gas_key := ok_or_bad (evm_from_secret gas_secret) (chars "evm_gas_secret is not a valid secp256k1 scalar") in
  let? htlc := evm_addr (fi_htlc_address config) (chars "htlc_address") in
  let? nim_rpc := refused_nim (nim_client Testnet (fi_nim_rpc_url config)) in
  let? amoy := refused_evm (amoy_client Testnet (fi_amoy_rpc_url config)) in
  let? intent := build_live_intent ANim (fi_nim_luna config) (fi_usdc_micro config) (fi_expiry_height config) seed claim_addr in
  let session := initiator_session seed claim_addr htlc intent amoy (fi_delta_safe_blocks config)
                   (fi_min_claim_window_blocks config) testnet_defaults None in
  let? _ := door_safety session in
  let signer := live_initiator_new (mkInitiatorConfig nim_funding_key evm_gas_key htlc gas_default poll_default)
                  nim_rpc amoy polygon_store_new ∅ now_ms in
  let signer := one_shot_new (lock_recording_new signer lock_book) in
  let? gateway := refused_init (optional_gateway build_testnet_gateway gateway_rpc_url) in
  Ok (mkAssembly _ _ session signer gateway Testnet).

Definition assemble_responder (config : FfiLiveResponderConfig) (gateway_rpc_url : option (list Z))
  : res LiveSwapFfiError (Assembly (@NimHtlcVerifier N) ResponderSigner) :=
  let? claim_seed := seed32 (fr_nim_claim_seed config) (chars "nim_claim_seed") in
  let? evm_secret := seed32 (fr_evm_funding_secret config) (chars "evm_funding_secret") in
  let? evm_key := ok_or_bad (evm_from_secret evm_secret) (chars "evm_funding_secret is not a valid secp256k1 scalar") in
  let evm_funded := key_address evm_key in
  let? htlc := evm_addr (fr_htlc_address config) (chars "htlc_address") in
  let? usdc := evm_addr (fr_usdc_address config) (chars "usdc_address") in
  let? nim_rpc := refused_nim (nim_client Testnet (fr_nim_rpc_url config)) in
  let? amoy := refused_evm (amoy_client Testnet (fr_amoy_rpc_url config)) in
  let? intent := build_live_intent AUsdc (fr_nim_luna config) (fr_usdc_micro config) (fr_expiry_height config) claim_seed evm_funded in
  let session := responder_session claim_seed evm_funded intent (nim_verifier_new nim_rpc ∅ now_ms)
                   (fr_delta_safe_blocks config) (fr_min_claim_window_blocks config) testnet_defaults None in
  let? _ := door_safety session in
  let signer := live_responder_new (mkResponderConfig evm_key htlc usdc (in_memory_key claim_seed) gas_default poll_default)
                  nim_rpc amoy ∅ ∅ now_s in
  let signer := one_shot_new signer in
  let? gateway := refused_init (optional_gateway build_testnet_gateway gateway_rpc_url) in
  Ok (mkAssembly _ _ session signer gateway Testnet).

(** *** The mainnet doors *)

Definition assemble_initiator_mainnet (nim_funding_key : EnclaveKey) (lock_book : LiveLockBook) (config : FfiLiveInitiatorConfig)
    (gateway_rpc_url : option (list Z)) (htlc_address : str)
  : res LiveSwapFfiError (Assembly (AmoyHtlcSwapVerifier A) InitiatorSigner * MainnetMoneyPath) :=
  let? money := mainnet_money_path htlc_address in
  let? seed := seed32 (fi_intent_seed config) (chars "intent_seed") in
  let? gas_secret := seed32 (fi_evm_gas_secret config) (chars "evm_gas_secret") in
  let? claim_addr := ok_or_bad (try_array 20 (fi_evm_claim_address config)) (chars "evm_claim_address must be 20 bytes") in
  let? evm_gas_key := ok_or_bad (evm_from_secret gas_secret) (chars "evm_gas_secret is not a valid secp256k1 scalar") in
  let? nim_rpc := refused_nim (nim_client Mainnet (fi_nim_rpc_url config)) in
  let? amoy := refused_evm (amoy_client Mainnet (fi_amoy_rpc_url config)) in
  let? intent := build_live_intent_on ANim (fi_nim_luna config) (fi_usdc_micro config) (fi_expiry_height config) seed claim_addr
                   (mp_network money) in
  let session := initiator_session seed claim_addr (mp_htlc money) intent amoy (fi_delta_safe_blocks config)
                   (fi_min_claim_window_blocks config) (mp_confirm_policy money) (Some (mp_caps money)) in
  let? _ := door_safety session in
  let signer := live_initiator_new (mkInitiatorConfig nim_funding_key evm_gas_key (mp_htlc money) gas_default poll_default)
                  nim_rpc amoy polygon_store_new ∅ now_ms in
  let signer := li_with_evm_chain_id signer (mp_evm_chain_id money) in
  let signer := one_shot_new (lock_recording_new signer lock_book) in
  let? gateway := refused_init (optional_gateway build_mainnet_gateway gateway_rpc_url) in
  Ok (mkAssembly _ _ session signer gateway (mp_network money), money).

Definition assemble_responder_mainnet (config : FfiLiveResponderConfig) (gateway_rpc_url : option (list Z)) (htlc_address : str)
  : res LiveSwapFfiError (Assembly (@NimHtlcVerifier N) ResponderSigner * MainnetMoneyPath) :=
  let? money := mainnet_money_path htlc_address in
  let? claim_seed := seed32 (fr_nim_claim_seed config) (chars "nim_claim_seed") in
  let? evm_secret := seed32 (fr_evm_funding_secret config) (chars "evm_funding_secret") in
  let? evm_key := ok_or_bad (evm_from_secret evm_secret) (chars "evm_funding_secret is not a valid secp256k1 scalar") in
  let evm_funded := key_address evm_key in
  let? nim_rpc := refused_nim (nim_client Mainnet (fr_nim_rpc_url config)) in
  let? amoy := refused_evm (amoy_client Mainnet (fr_amoy_rpc_url config)) in
  let? intent := build_live_intent_on AUsdc (fr_nim_luna config) (fr_usdc_micro config) (fr_expiry_height config) claim_seed
                   evm_funded (mp_network money) in
  let session := responder_session claim_seed evm_funded intent (nim_verifier_new_mainnet nim_rpc ∅ now_ms)
                   (fr_delta_safe_blocks config) (fr_min_claim_window_blocks config) (mp_confirm_policy money) (Some (mp_caps money)) in
  let? _ := door_safety session in
  let signer := live_responder_new (mkResponderConfig evm_key (mp_htlc money) (mp_usdc money) (in_memory_key claim_seed)
                  gas_default poll_default) nim_rpc amoy ∅ ∅ now_s in
  let signer := one_shot_new (lr_with_evm_chain_id signer (mp_evm_chain_id money)) in
  let? gateway := refused_init (optional_gateway build_mainnet_gateway gateway_rpc_url) in
  Ok (mkAssembly _ _ session signer gateway (mp_network money), money).

(** *** The constructors *)

Definition build_assembly {V S} `{FV : FundingVerifier V} `{SG : SwapSigner S} (sender_id : bytes) (a : Assembly V S)
  : res LiveSwapFfiError (@Engine.Node V S R (RpcGateway N)) :=
  mesh_node_build sender_id (as_gateway _ _ a) true (Some (as_session _ _ a)) (Some (as_signer _ _ a)) (as_network _ _ a).

Definition build_initiator (sender_id : bytes) (key : EnclaveKey) (book : LiveLockBook) (config : FfiLiveInitiatorConfig)
    (url : option (list Z)) : res LiveSwapFfiError Node :=
  let? a := assemble_initiator key book config url in build_assembly sender_id a.

Definition build_responder (sender_id : bytes) (config : FfiLiveResponderConfig) (url : option (list Z))
  : res LiveSwapFfiError Node :=
  let? a := assemble_responder config url in build_assembly sender_id a.

Definition build_initiator_mainnet (sender_id : bytes) (key : EnclaveKey) (book : LiveLockBook) (config : FfiLiveInitiatorConfig)
    (url : option (list Z)) : res LiveSwapFfiError Node :=
  let? htlc := mainnet_htlc_if_armed (live_swap_allowed Mainnet) MAINNET_HTLC_ADDRESS in
  let? (a, _) := assemble_initiator_mainnet key book config url htlc in build_assembly sender_id a.

Definition build_responder_mainnet (sender_id : bytes) (config : FfiLiveResponderConfig) (url : option (list Z))
  : res LiveSwapFfiError Node :=
  let? htlc := mainnet_htlc_if_armed (live_swap_allowed Mainnet) MAINNET_HTLC_ADDRESS in
  let? (a, _) := assemble_responder_mainnet config url htlc in build_assembly sender_id a.

(** [NimHtlcRefunder::new] and [new_mainnet] *)
Definition refunder_new (key : EnclaveKey) (url : str) : res LiveSwapFfiError (NimHtlcRefunder N) :=
  let? rpc := refused_nim (nim_client Testnet url) in Ok (from_parts key rpc now_ms).
Definition refunder_new_mainnet (key : EnclaveKey) (url : str) : res LiveSwapFfiError (NimHtlcRefunder N) :=
  let? rpc := refused_nim (nim_client Mainnet url) in Ok (from_parts_on key rpc Mainnet now_ms).

Definition evm_address_for_secret (secret : bytes) : res LiveSwapFfiError (list Z) :=
  let? seed := ok_or_bad (try_array 32 secret) (chars "secret must be 32 bytes") in
  let? key := ok_or_bad (evm_from_secret seed) (chars "secret is not a valid secp256k1 scalar") in
  Ok (addr_hex (key_address key)).

(** *** The participant without funds ([swap_participant_ffi.rs]) *)

Definition build_signed_intent (cfg : FfiStandingIntent) (btc_pubkey btc_address seed : bytes) : res ParticipantInitError SwapIntent :=
  let coherent := match si_gives cfg with
                  | ANim => negb (bool_decide (si_counter_asset cfg = ANim))
                  | _ => bool_decide (si_counter_asset cfg = si_gives cfg)
                  end in
  if negb coherent then Err (InitBadInput (chars "gives/counter_asset are contradictory")) else
  if (si_nim_amount cfg =? 0) || (si_counter_amount cfg =? 0) then Err (InitBadInput (chars "intent amounts must be non-zero")) else
  if si_min_nim cfg >? si_max_nim cfg then Err (InitBadInput (chars "min_nim exceeds max_nim")) else
  Ok (sign_intent (mkIntent (si_gives cfg) (si_counter_asset cfg) (si_nim_amount cfg) (si_counter_amount cfg) (si_expiry_height cfg)
                     (si_min_nim cfg) (si_max_nim cfg) (replicate 32 0) (replicate 20 0) btc_pubkey btc_address (replicate 20 0)
                     (wire_id Testnet) (replicate 64 0)) seed).

Definition new_swap_participant (sender_id : bytes) (config : FfiParticipantConfig) (url : option (list Z))
  : res ParticipantInitError Node :=
  match try_array 32 (pc_intent_seed config) with
  | None => Err (InitBadInput (chars "intent_seed must be 32 bytes"))
  | Some seed =>
  match check_seed_entropy seed with
  | Panic => Panic
  | Err why => Err (InitBadInput (chars "intent_seed: " ++ why))
  | Ok _ =>
  match try_array 33 (pc_btc_pubkey config) with
  | None => Err (InitBadInput (chars "btc_pubkey must be 33 bytes"))
  | Some btc_pubkey =>
      if bool_decide (pc_btc_address config = []) || (64 <? len (pc_btc_address config))
      then Err (InitBadInput (chars "btc_address must be 1..=64 bytes")) else
      if (pc_min_claim_window_blocks config =? 0) || (pc_delta_safe_blocks config =? 0)
      then Err (InitBadInput (chars "ladder blocks must be non-zero")) else
      let? standing := match pc_standing_intent config with
                       | None => Ok None
                       | Some c => let? i := build_signed_intent c btc_pubkey (pc_btc_address config) seed in Ok (Some i)
                       end in
      let key := in_memory_key seed in
      let identity := mkIdentity (address_of (ek_public_key key)) (pc_btc_address config) btc_pubkey accept_all
                        (if pc_max_concurrent_swaps config =? 0 then DEFAULT_MAX_CONCURRENT_SWAPS else pc_max_concurrent_swaps config)
                        standing in
      let session := session_new identity (mkLadder (pc_delta_safe_blocks config) (pc_min_claim_window_blocks config))
                       AcceptAll (Some key) testnet_defaults ABtc (secret_source seed) false None in
      let? gateway := optional_gateway build_testnet_gateway url in
      mesh_node_build sender_id gateway true (Some session) (Some Mock) Testnet
  end end end.
End doors.

(** ** Theorems: the latch *)

(** The calls a driver makes of a signer, and what each returns *)
Inductive SignerCall : Type :=
| CallFund (ctx : SwapContext) (leg : SwapLegId)
| CallClaim (ctx : SwapContext) (secret : list Z)
| CallNote (swap_id nim chain : list Z).

Section calls.
Context {S : Type} `{SG : SwapSigner S}.

Definition signer_call (s : S) (c : SignerCall) : S * option (list Z * list Z) :=
  match c with
  | CallFund ctx leg => build_funding s ctx leg
  | CallClaim ctx secret => build_claim s ctx secret
  | CallNote swap_id nim chain => (note_peer s swap_id nim chain, None)
  end.

(** The fundings a run of calls reports *)
Fixpoint fundings (s : S) (l : list SignerCall) : list (list Z * list Z) :=
  match l with
  | [] => []
  | c :: l =>
      let '(s, r) := signer_call s c in
      match c, r with CallFund _ _, Some x => x :: fundings s l | _, _ => fundings s l end
  end.
End calls.

Section latch.
Context {S : Type} `{SG : SwapSigner S}.

Lemma fired_stays (s : OneShotSigner S) c : os_fired s = true -> os_fired (signer_call s c).1 = true.
Proof.
  intros H. destruct c; cbn.
  - unfold one_shot_build_funding. by rewrite H.
  - by destruct (build_claim _ _ _).
  - done.
Qed.

Lemma fired_funds_nothing (s : OneShotSigner S) l : os_fired s = true -> fundings s l = [].
Proof.
  revert s. induction l as [|c l IH]; intros s H; [done|]. cbn [fundings].
  pose proof (fired_stays s c H) as Hf. destruct (signer_call s c) as [s' r] eqn:E. cbn in Hf.
  destruct c; [|by apply IH..]. cbn in E. unfold one_shot_build_funding in E. rewrite H in E. simplify_eq. by apply IH.
Qed.

(** Whatever calls are made of it, in whatever order, a latched signer reports at most one
    funding, and its inner signer is not called for another. *)
Theorem one_shot_funds_once (inner : S) (l : list SignerCall) : (length (fundings (one_shot_new inner) l) <= 1)%nat.
Proof.
  unfold one_shot_new. generalize false. intros b. revert inner b. induction l as [|c l IH]; intros inner b; cbn [fundings length]; [lia|].
  destruct (signer_call (mkOneShot inner b) c) as [[i f] r] eqn:E. destruct c; [|by apply IH..].
  cbn in E. unfold one_shot_build_funding in E. cbn in E. destruct b; [simplify_eq; by apply IH|].
  destruct (build_funding inner ctx leg) as [i2 [x|]]; simplify_eq; [|by apply IH].
  rewrite fired_funds_nothing by done. cbn. lia.
Qed.
End latch.

(** ** Theorems: no NIM is stranded *)

Section refunds.
Context `{C : Crypto} `{!CryptoLaws C} `{K : Keccak} {N A : Type} `{RPC : GatewayRpc N} `{LC : LiveChain A}.
Implicit Types r : NimHtlcRefunder (Taped N).

Lemma account_tape (t t' : Taped N) x o : get_account t x = (t', o) -> tp_sent t' = tp_sent t.
Proof. cbn. unfold on_tape. by intros [= <- _]. Qed.

Lemma head_tape (t t' : Taped N) o : Gateway.block_number t = (t', o) -> tp_sent t' = tp_sent t.
Proof. cbn. unfold on_tape. by intros [= <- _]. Qed.

(** From the due time on at most one transaction leaves: the whole balance to the key's address. *)
Lemma refund_send_spec r contract balance r' out : refund_send r contract balance = (r', out) ->
  (tp_sent (nr_rpc r') = tp_sent (nr_rpc r) /\ forall h, out <> Ok (Refunded h))
  \/ exists head, let pk := ek_public_key (nr_key r) in
       let redeem := mkRedeem contract (address_of pk) balance 0 head (wire_id (nr_network r)) in
       tp_sent (nr_rpc r') = tp_sent (nr_rpc r)
         ++ [bytes_to_hex (redeem_wire redeem (timeout_resolve_proof pk (ek_sign_content (nr_key r) (redeem_content redeem))))]
       /\ forall o, out = Ok o -> o = Refunded (bytes_to_hex (redeem_hash redeem)).
Proof.
  unfold refund_send. destruct (try_array 32 _) as [pk|] eqn:Ek; [|intros [= <- <-]; left; by split].
  apply try_array_inv in Ek as [-> _]. destruct (Gateway.block_number _) as [t o] eqn:Eb. apply head_tape in Eb.
  destruct (transport o) as [head|e|]; [|intros [= <- <-]; left; by split..]. cbn [nr_key nr_with_rpc].
  destruct (try_array 64 _) as [sg|] eqn:Es; [|intros [= <- <-]; left; by split]. apply try_array_inv in Es as [-> _].
  unfold refund_redeem. cbn [nr_rpc nr_network nr_with_rpc].
  destruct (Gateway.send_raw_transaction _ _) as [t2 o2] eqn:E2. intros H. apply pair_equal_spec in H as [<- <-]. right. exists head.
  cbn [nr_rpc nr_with_rpc]. revert E2. cbn [Gateway.send_raw_transaction Taped_rpc]. destruct (Gateway.send_raw_transaction (tp_world t) _) as [w o3].
  intros E2. apply pair_equal_spec in E2 as [<- <-]. cbn [tp_sent]. rewrite Eb. split; [done|].
  intros o1. destruct (transport o3); [|discriminate..]. intros H. by apply (f_equal (fun x => match x with Ok v => v | _ => o1 end)) in H.
Qed.

(** A funding the initiator reports: the contract it created *)
Lemma fund_nim_reports (i i' : LiveInitiatorSigner (N:=N) (A:=A)) ctx wire id : fund_nim i ctx = (i', Some (wire, id)) ->
  exists peer head timeout_ms,
    let pk := ek_public_key (ic_nim_key (li_cfg i)) in
    let creation := nim_creation pk peer ctx timeout_ms head in
    li_peer_book i !! cx_swap_id ctx = Some peer /\ (Gateway.block_number (li_nim_rpc i)).2 = Ok head /\ length pk = 32%nat
    /\ li_clock_ms i < timeout_ms <= wrapN 64 (li_clock_ms i + MAX_LEG_TIMELOCK_AHEAD_S * 1000)
    /\ wire = creation_wire creation (signature_proof_single_sig pk (ek_sign_content (ic_nim_key (li_cfg i)) (creation_content creation))).
Proof.
  unfold fund_nim. destruct (live_swap_allowed_wire _); cbn [negb]; [|discriminate].
  destruct (li_peer_book i !! _) as [peer|] eqn:Ep; [|discriminate].
  destruct (Gateway.block_number _) as [t1 [head| |]] eqn:Eb; [|discriminate..]. cbn [li_cfg li_clock_ms li_with_nim li_nim_rpc].
  destruct (try_array 32 _) as [pk|] eqn:Ek; [|discriminate]. apply try_array_inv in Ek as [-> Hl].
  destruct (_ || _) eqn:Et; [discriminate|]. apply orb_false_iff in Et as [Et1%Z.leb_gt Et2%Z.ltb_ge].
  destruct (try_array 64 _) as [sg|] eqn:Es; [|discriminate]. apply try_array_inv in Es as [-> _].
  destruct (broadcast_nim _ _ _) as [t2 [|]]; [|discriminate]. intros H.
  apply pair_equal_spec in H as [_ H]. exists peer, head, (nim_htlc_timeout_ms (nim_timeout (cx_terms ctx)) (cx_term_anchor ctx) (li_clock_ms i)).
  split_and!; [done|done|done|lia|lia|].
  apply (f_equal (fun o => match o with Some (w, _) => w | None => [] end)) in H. by rewrite <- H.
Qed.

Lemma nim_creation_ok (pk : bytes) (peer : PeerAddressing) ctx timeout_ms head :
  array_ok 20 (pa_nim_address peer) -> array_ok 32 (cx_hashlock ctx) -> uN 64 (cx_give_amount ctx) -> uN 8 (cx_network_id ctx) ->
  uN 64 timeout_ms -> uN 32 head -> creation_ok (nim_creation pk peer ctx timeout_ms head).
Proof.
  intros. split; [apply address_ok|split; [apply address_ok|done|done|unfold uN; cbn; lia|done]|done|unfold uN; cbn; lia|done|done].
Qed.

Lemma record_room book lock : len book < 32 ->
  book_record book lock = book ++ [lock] \/ book_record book lock = book /\ exists l, l ∈ book /\ nl_contract l = nl_contract lock.
Proof.
  intros Hl. unfold book_record, MAX_LOCKS. rewrite (proj2 (Z.leb_gt _ _)) by done. cbn [orb].
  destruct (existsb _ book) eqn:E; [right|by left]. apply existsb_exists in E as (l & Hin%list_elem_of_In & Hc%bool_decide_eq_true). eauto.
Qed.

Lemma record_full book lock : 32 <= len book -> book_record book lock = book.
Proof. intros Hl. unfold book_record, MAX_LOCKS. by rewrite (proj2 (Z.leb_le _ _)) by done. Qed.

(** The refund of a recorded lock, on every branch *)
Lemma refund_spec r (c : HtlcCreation) r' out : refund r (lock_of c) = (r', out) ->
  let due := sat_add 64 (hd_timeout (hc_data c)) REFUND_MARGIN_MS in
  let balance := match (get_account (nr_rpc r) (nl_contract (lock_of c))).2 with
                 | Ok (Some a) => Some (ra_balance a) | Ok None => Some 0 | _ => None end in
  match balance with
  | None => tp_sent (nr_rpc r') = tp_sent (nr_rpc r) /\ forall o, out <> Ok o
  | Some b =>
      if b =? 0 then tp_sent (nr_rpc r') = tp_sent (nr_rpc r) /\ out = Ok AlreadyResolved
      else if nr_clock_ms r <=? due then tp_sent (nr_rpc r') = tp_sent (nr_rpc r) /\ out = Ok (StillLocked due)
      else (tp_sent (nr_rpc r') = tp_sent (nr_rpc r) /\ forall h, out <> Ok (Refunded h))
           \/ exists head, let pk := ek_public_key (nr_key r) in
                let redeem := mkRedeem (contract_address c) (address_of pk) b 0 head (wire_id (nr_network r)) in
                tp_sent (nr_rpc r') = tp_sent (nr_rpc r)
                  ++ [bytes_to_hex (redeem_wire redeem (timeout_resolve_proof pk (ek_sign_content (nr_key r) (redeem_content redeem))))]
                /\ forall o, out = Ok o -> o = Refunded (bytes_to_hex (redeem_hash redeem))
  end.
Proof.
  unfold refund, lock_of. cbn [nl_contract nl_timeout_ms].
  destruct (user_friendly_roundtrip (contract_address c) (contract_address_ok c)) as (s & -> & ->).
  destruct (get_account _ _) as [t o] eqn:Ea. apply account_tape in Ea. cbn [snd].
  destruct o as [[acct|]|e|]; cbn [transport]; [| |intros [= <- <-]; by split..].
  - cbn [nr_clock_ms nr_with_rpc]. destruct (Z.eqb_spec (ra_balance acct) 0); [intros [= <- <-]; by split|].
    destruct (_ <=? _); [intros [= <- <-]; by split|]. intros H. apply refund_send_spec in H. cbn [nr_rpc nr_with_rpc nr_key nr_network] in H.
    rewrite Ea in H. exact H.
  - intros [= <- <-]. by split.
Qed.

(** C18: every NIM lock a live initiator reports can be taken back while the book has room.  Let
    the signer of an initiator door report a funding.  Then the wire it reports is a contract for
    the swap's amount under the swap's hashlock, funded by the wallet, and the latch is set, so no
    further funding is made; while the app's book holds fewer than 32 locks it gains the lock of
    that contract (or has one of the same contract), and a full book stays as it is, without this
    lock.  A refunder over the same wallet, given the lock, sends nothing before the lock time and
    a minute, nothing once the contract is empty, and otherwise at most one transaction: a timeout
    resolve of exactly that contract, for everything it holds, to the address that funded it; and
    it reports a refund only for that transaction. *)
Theorem nim_lock_refundable (s s' : OneShotSigner (LockRecordingSigner (LiveInitiatorSigner (N:=N) (A:=A)))) (ctx : SwapContext)
    (wire id : bytes) (i := lk_inner (os_inner s)) (book := lk_book (os_inner s))
    (Hpeer : forall peer, li_peer_book i !! cx_swap_id ctx = Some peer -> array_ok 20 (pa_nim_address peer))
    (Hhead : forall h, (Gateway.block_number (li_nim_rpc i)).2 = Ok h -> uN 32 h)
    (Hlock : array_ok 32 (cx_hashlock ctx)) (Hgive : uN 64 (cx_give_amount ctx)) (Hnet : uN 8 (cx_network_id ctx))
    (Hclock : 0 <= li_clock_ms i)
    (Hfund : build_funding s ctx LegNim = (s', Some (wire, id))) :
  exists c,
    decode_creation_wire wire = Ok (Some c) /\ hc_value c = cx_give_amount ctx /\ hd_hash_root (hc_data c) = cx_hashlock ctx
    /\ hc_funder c = address_of (ek_public_key (ic_nim_key (li_cfg i)))
    /\ (len book < 32 -> lk_book (os_inner s') = book ++ [lock_of c]
          \/ lk_book (os_inner s') = book /\ exists l, l ∈ book /\ nl_contract l = nl_contract (lock_of c))
    /\ (32 <= len book -> lk_book (os_inner s') = book) /\ os_fired s' = true
    /\ forall r r' out, nr_key r = ic_nim_key (li_cfg i) -> refund r (lock_of c) = (r', out) ->
         let balance := match (get_account (nr_rpc r) (nl_contract (lock_of c))).2 with
                        | Ok (Some a) => Some (ra_balance a) | Ok None => Some 0 | _ => None end in
         let sends := tp_sent (nr_rpc r') in
         (balance = Some 0 -> sends = tp_sent (nr_rpc r) /\ out = Ok AlreadyResolved)
         /\ (nr_clock_ms r <= hd_timeout (hc_data c) -> sends = tp_sent (nr_rpc r) /\ forall h, out <> Ok (Refunded h))
         /\ (sends = tp_sent (nr_rpc r) /\ (forall h, out <> Ok (Refunded h))
             \/ exists b head, let redeem := mkRedeem (contract_address c) (hc_funder c) b 0 head (wire_id (nr_network r)) in
                  balance = Some b /\ b <> 0 /\ hd_timeout (hc_data c) < nr_clock_ms r
                  /\ sends = tp_sent (nr_rpc r) ++ [bytes_to_hex (redeem_wire redeem
                       (timeout_resolve_proof (ek_public_key (nr_key r)) (ek_sign_content (nr_key r) (redeem_content redeem))))]
                  /\ forall o, out = Ok o -> o = Refunded (bytes_to_hex (redeem_hash redeem))).
Proof.
  cbn in Hfund. unfold one_shot_build_funding in Hfund. destruct (os_fired s) eqn:Ef; [discriminate|]. cbn in Hfund.
  unfold lock_build_funding in Hfund. cbn in Hfund. fold i book in Hfund.
  destruct (fund_nim i ctx) as [i' [[w x]|]] eqn:En; [|discriminate].
  apply pair_equal_spec in Hfund as [<- Hw]. assert (w = wire) as -> by congruence. clear Hw.
  pose proof (f_equal snd En) as E2. cbn in E2.
  apply fund_nim_reports in En as (peer & head & tm & Ep & Eh & Hpk & Ht & Ew).
  set (c := nim_creation _ peer ctx tm head) in *.
  assert (Hc : creation_ok c).
  { apply nim_creation_ok; eauto. unfold uN, wrapN in *. pose proof (Z.mod_pos_bound (li_clock_ms i + MAX_LEG_TIMELOCK_AHEAD_S * 1000) (2 ^ 64)). lia. }
  assert (Hd : decode_creation_wire wire = Ok (Some c)) by (rewrite Ew; by apply decode_creation_at).
  exists c. cbn [os_inner lk_book]. unfold record_wire. rewrite Hd. split_and!; [done..|apply record_room|apply record_full|done|].
  intros r r' out Hk Hr. apply refund_spec in Hr. cbv zeta in *. rewrite Hk in *.
  set (bal := match _ with Ok (Some a) => Some (ra_balance a) | _ => _ end) in *.
  assert (Htm : uN 64 tm) by apply Hc. unfold uN in Htm. unfold sat_add, REFUND_MARGIN_MS in Hr. cbn [hd_timeout hc_data nim_creation c] in Hr |- *.
  destruct bal as [b|]; [|destruct Hr as [-> Hr]; split_and!; [discriminate|by split|left; by split]].
  destruct (b =? 0) eqn:Hb; bool_prop; [destruct Hr as [-> ->]; split_and!; [done|by split|left; by split]|].
  destruct (Z.leb_spec (nr_clock_ms r) (Z.min (2 ^ 64 - 1) (tm + 60000))); [destruct Hr as [-> ->]; split_and!; [congruence|by split|left; by split]|].
  split_and!; [congruence|lia|]. destruct Hr as [Hr|(hd & H1 & H2)]; [by left|right]. exists b, hd. split_and!; [done|done|lia|exact H1|exact H2].
Qed.
End refunds.

Definition sample_initiator : OneShotSigner (LockRecordingSigner (LiveInitiatorSigner (N:=MockRpc) (A:=unit))) :=
  one_shot_new (lock_recording_new
    (live_initiator_new (mkInitiatorConfig (in_memory_key (replicate 32 3)) (rc_evm_key sample_live_config) (replicate 20 12) gas_default poll_default)
       (mock_rpc_new 500) tt polygon_store_new sample_live_book 1000000) []).

Lemma nim_lock_refundable_witness :
  exists c, lk_book (os_inner (build_funding sample_initiator sample_ctx LegNim).1) = [lock_of c].
Proof.
  destruct (build_funding sample_initiator sample_ctx LegNim) as [s' r] eqn:E.
  destruct r as [[wire id]|]; [|exfalso; vm_compute in E; discriminate E].
  destruct (nim_lock_refundable sample_initiator s' sample_ctx wire id) as (c & _ & _ & _ & _ & Hb & _);
    [..|exists c; destruct (Hb eq_refl) as [Hb'|(_ & l & Hl & _)]; [exact Hb'|by apply not_elem_of_nil in Hl]].
  - intros peer Hp. vm_compute in Hp. assert (peer = sample_live_peer) as -> by (vm_compute; congruence). split; [done|].
    apply bytes_okb_ok. vm_compute. reflexivity.
  - intros h Hh. vm_compute in Hh. assert (h = 500) as -> by congruence. unfold uN. lia.
  - split; [done|]. apply bytes_okb_ok. vm_compute. reflexivity.
  - vm_compute. split; congruence.
  - vm_compute. split; congruence.
  - vm_compute. congruence.
  - exact E.
Defined.

(** ** A construction that funds twice *)

(** A Nimiq node whose answers to a broadcast are lost, and which does not list the
    transaction yet *)
Inductive LossyRpc : Type := Lossy.

#[export] Instance LossyRpc_rpc : GatewayRpc LossyRpc := {|
  Gateway.block_number := fun t => (t, Ok 500);
  latest_block := fun t => (t, Ok (mkRpcHead 500 (replicate 32 0)));
  get_account := fun t _ => (t, Ok None);
  Gateway.send_raw_transaction := fun t _ => (t, Err (Transport (chars "timed out")));
  get_transaction := fun t _ => (t, Ok None);
  get_transactions := fun t _ _ => (t, Ok [])
|}.

Section li_clock.
Context {N A : Type}.
(** [LiveInitiatorSigner::with_clock] *)
Definition li_with_clock (s : LiveInitiatorSigner (N:=N) (A:=A)) (now_ms : Z) : LiveInitiatorSigner :=
  mkLiveInitiator (li_cfg s) (li_nim_rpc s) (li_amoy s) (li_store s) (li_peer_book s) now_ms (li_evm_chain_id s) (li_last_claim s).
End li_clock.

Section lossy.
Context `{C : Crypto} `{!CryptoLaws C} `{K : Keccak} {A : Type} `{LC : LiveChain A}.
Implicit Types i : LiveInitiatorSigner (N:=Taped LossyRpc) (A:=A).

Definition lossy_wire i (ctx : SwapContext) (peer : PeerAddressing) (timeout_ms : Z) : bytes :=
  let key := ic_nim_key (li_cfg i) in
  let c := nim_creation (ek_public_key key) peer ctx timeout_ms 500 in
  creation_wire c (signature_proof_single_sig (ek_public_key key) (ek_sign_content key (creation_content c))).

(** One call at such a node *)
Lemma fund_nim_lossy i ctx peer :
  live_swap_allowed_wire (cx_network_id ctx) = true -> li_peer_book i !! cx_swap_id ctx = Some peer ->
  length (ek_public_key (ic_nim_key (li_cfg i))) = 32%nat ->
  (forall m, length (ek_sign_content (ic_nim_key (li_cfg i)) m) = 64%nat) ->
  let d := nim_timeout (cx_terms ctx) - cx_term_anchor ctx in
  0 < d <= MAX_LEG_TIMELOCK_AHEAD_S -> 0 <= li_clock_ms i -> li_clock_ms i + MAX_LEG_TIMELOCK_AHEAD_S * 1000 < 2 ^ 64 ->
  fund_nim i ctx = (li_with_nim i (mkTaped Lossy (tp_sent (li_nim_rpc i)
      ++ [bytes_to_hex (lossy_wire i ctx peer (li_clock_ms i + d * 1000))])), None).
Proof.
  intros Hn Hp Hk Hs d Hd H0 H1. unfold fund_nim. rewrite Hn, Hp. cbn [negb]. cbn [Gateway.block_number Taped_rpc on_tape LossyRpc_rpc fst snd].
  cbn [li_cfg li_clock_ms li_with_nim li_nim_rpc]. rewrite (try_array_length _ _ Hk).
  assert (Et : nim_htlc_timeout_ms (nim_timeout (cx_terms ctx)) (cx_term_anchor ctx) (li_clock_ms i) = li_clock_ms i + d * 1000)
    by (unfold nim_htlc_timeout_ms, sat_add, sat_mul, sat_sub, d, MAX_LEG_TIMELOCK_AHEAD_S in *; lia).
  rewrite Et. assert (Ew : wrapN 64 (li_clock_ms i + MAX_LEG_TIMELOCK_AHEAD_S * 1000) = li_clock_ms i + MAX_LEG_TIMELOCK_AHEAD_S * 1000)
    by (unfold wrapN; apply Z.mod_small; unfold MAX_LEG_TIMELOCK_AHEAD_S in *; lia). rewrite Ew.
  rewrite (proj2 (Z.leb_gt _ _)), (proj2 (Z.ltb_ge _ _)) by lia. cbn [orb]. rewrite (try_array_length _ _ (Hs _)).
  by destruct (tp_world (li_nim_rpc i)).
Qed.

(** A failed funding leaves the wrappers as they are. *)
Lemma latched_failed i i' ctx book : fund_nim i ctx = (i', None) ->
  build_funding (mkOneShot (mkLockRecording i book) false) ctx LegNim = (mkOneShot (mkLockRecording i' book) false, None).
Proof. intros H. cbn. unfold one_shot_build_funding. cbn. unfold lock_build_funding. cbn. by rewrite H. Qed.
End lossy.

Lemma latched_failed_usdc `{C : Crypto} `{K : Keccak} {A N : Type} `{LC : LiveChain A} `{RPC : GatewayRpc N}
    (s s' : LiveResponderSigner (N:=N) (A:=A)) ctx : fund_usdc s ctx = (s', None) ->
  build_funding (mkOneShot s false) ctx LegCounterparty = (mkOneShot s' false, None).
Proof. intros H. cbn. unfold one_shot_build_funding. cbn. by rewrite H. Qed.

(** C40: the latch does not bound what one construction funds.  It is set by a funding that is
    reported, and a broadcast whose answer is lost is not.  A NIM-giver whose node drops the
    answers broadcasts a contract on every retry, each with its own lock time, hence its own
    address, while the latch stays open and the book of locks stays empty, so that the app cannot
    refund any of them; a USDC-giver whose [newSwap] is mined after the poll has given up
    escrows on every retry. *)
Theorem latched_signer_funds_twice `{C : Crypto} `{!CryptoLaws C} `{K : Keccak} {A N : Type} `{LC : LiveChain A} `{RPC : GatewayRpc N}
    (icfg : LiveInitiatorConfig) (rcfg : LiveResponderConfig) (amoy : A) (rpc : N) (pstore : PolygonFundingStore) (nstore : NimFundingStore)
    (book : PeerBook) (now1 now2 : Z) (ctx : SwapContext) (peer : PeerAddressing)
    (da := nim_timeout (cx_terms ctx) - cx_term_anchor ctx) (db := counterparty_timeout (cx_terms ctx) - cx_term_anchor ctx)
    (Hnet : live_swap_allowed_wire (cx_network_id ctx) = true) (Hpeer : book !! cx_swap_id ctx = Some peer)
    (Hnim : array_ok 20 (pa_nim_address peer)) (Hevm : length (pa_chain_address peer) = 20%nat)
    (Hkey : length (ek_public_key (ic_nim_key icfg)) = 32%nat) (Hsig : forall m, length (ek_sign_content (ic_nim_key icfg) m) = 64%nat)
    (Hlock : array_ok 32 (cx_hashlock ctx)) (Hgive : uN 64 (cx_give_amount ctx))
    (Hda : 0 < da <= MAX_LEG_TIMELOCK_AHEAD_S) (Hdb : 0 < db <= MAX_LEG_TIMELOCK_AHEAD_S)
    (Hnow : 0 <= now1 < now2) (Hmax : now2 + MAX_LEG_TIMELOCK_AHEAD_S * 1000 < 2 ^ 64) :
  (let s0 := one_shot_new (lock_recording_new (live_initiator_new icfg (mkTaped Lossy []) amoy pstore book now1) []) in
   let '(s1, r1) := build_funding s0 ctx LegNim in
   let s1 := mkOneShot (mkLockRecording (li_with_clock (lk_inner (os_inner s1)) now2) (lk_book (os_inner s1))) (os_fired s1) in
   let '(s2, r2) := build_funding s1 ctx LegNim in
   r1 = None /\ r2 = None /\ os_fired s2 = false /\ lk_book (os_inner s2) = []
   /\ exists w1 w2 c1 c2, tp_sent (li_nim_rpc (lk_inner (os_inner s2))) = [bytes_to_hex w1; bytes_to_hex w2]
        /\ decode_creation_wire w1 = Ok (Some c1) /\ decode_creation_wire w2 = Ok (Some c2)
        /\ hc_value c1 = cx_give_amount ctx /\ hc_value c2 = cx_give_amount ctx /\ hd_timeout (hc_data c1) <> hd_timeout (hc_data c2))
  /\ (let s0 := one_shot_new (live_responder_new rcfg rpc (mkSlow []) nstore book now1) in
      let '(s1, r1) := build_funding s0 ctx LegCounterparty in
      let s1 := mkOneShot (lr_with_clock (os_inner s1) now2) (os_fired s1) in
      let '(s2, r2) := build_funding s1 ctx LegCounterparty in
      let i := os_inner s0 in
      r1 = None /\ r2 = None /\ os_fired s2 = false
      /\ sc_sent (lr_amoy (os_inner s2)) = slow_pair i ctx (pa_chain_address peer) 0 (now1 + db)
                                            ++ slow_pair i ctx (pa_chain_address peer) 2 (now2 + db)).
Proof.
  cbv zeta. unfold one_shot_new, lock_recording_new. cbn [os_inner]. split.
  - erewrite latched_failed by (apply (fund_nim_lossy _ _ peer); unfold da in *; cbn; done || lia). cbn [os_fired os_inner lk_inner lk_book].
    erewrite latched_failed by (apply (fund_nim_lossy _ _ peer); unfold da in *; cbn; done || lia). cbn [os_fired os_inner lk_inner lk_book].
    split_and!; [done..|]. cbn [li_nim_rpc li_with_nim li_with_clock tp_sent live_initiator_new app li_clock_ms].
    do 2 eexists. exists (nim_creation (ek_public_key (ic_nim_key icfg)) peer ctx (now1 + da * 1000) 500),
      (nim_creation (ek_public_key (ic_nim_key icfg)) peer ctx (now2 + da * 1000) 500).
    assert (uN 8 (cx_network_id ctx)) by (unfold live_swap_allowed_wire, uN in *; repeat case_match; bool_prop; cbn in *; done || lia).
    split_and!; [reflexivity|apply decode_creation_at, nim_creation_ok|apply decode_creation_at, nim_creation_ok|done|done|cbn; lia];
      first [done|unfold uN, MAX_LEG_TIMELOCK_AHEAD_S in *; lia].
  - erewrite latched_failed_usdc by (apply (fund_usdc_slow _ _ peer); unfold db, MAX_LEG_TIMELOCK_AHEAD_S in *; cbn; done || lia). cbn [os_fired os_inner].
    erewrite latched_failed_usdc by (apply (fund_usdc_slow _ _ peer); unfold db, MAX_LEG_TIMELOCK_AHEAD_S in *; cbn; done || lia). done.
Qed.

Definition sample_initiator_config : LiveInitiatorConfig :=
  mkInitiatorConfig (rc_nim_claim_key sample_live_config) (rc_evm_key sample_live_config) (replicate 20 12) gas_default poll_default.

Lemma latched_signer_funds_twice_witness :
  let s0 := one_shot_new (lock_recording_new
              (live_initiator_new sample_initiator_config (mkTaped Lossy []) tt polygon_store_new sample_live_book 1000000) []) in
  (build_funding s0 sample_ctx LegNim).2 = None.
Proof.
  assert (H := latched_signer_funds_twice sample_initiator_config sample_live_config tt Sample polygon_store_new ∅ sample_live_book
    1000000 1000600 sample_ctx sample_live_peer eq_refl ltac:(vm_compute; reflexivity)
    ltac:(split; [done|apply bytes_okb_ok; vm_compute; reflexivity]) eq_refl eq_refl (fun _ => eq_refl) ltac:(split; [done|apply bytes_okb_ok; vm_compute; reflexivity])
    ltac:(vm_compute; split; congruence) ltac:(vm_compute; split; congruence) ltac:(vm_compute; split; congruence) ltac:(lia) ltac:(vm_compute; reflexivity)).
  destruct H as [H _]. cbv zeta in *. destruct (build_funding _ _ _) as [s1 r1]. destruct (build_funding _ _ _) as [s2 r2]. apply H.
Defined.

(** ** Theorems: the doors *)

Section pinned.
Context `{C : Crypto} `{!CryptoLaws C} `{K : Keccak} {N A : Type} `{RPC : GatewayRpc N} `{LC : LiveChain A} `{AC : AmoyChain A}
  `{U : Unicode} {R : Type} `{RR : RelayRng R} `{CK : Clock}
  (nim_connect : list Z -> N) (amoy_connect : list Z -> A) (evm_from_secret : list Z -> option LocalEvmKey)
  (now_ms now_s : Z) (policy : RelayPolicy R) (seq : Z).

(** What every live door builds a session with: it passes the money-path gate, its policies are
    those of the network, it runs one swap, and it advertises the configured trade on the
    network, signed by the session's own key. *)
Definition session_pinned {V} `{FV : FundingVerifier V} (s : @SwapSession V) (network : NetworkId) (confirm : ConfirmationPolicy)
    (caps : option SwapCaps) (nim_luna usdc_micro : Z) : Prop :=
  live_safety s = Ok tt /\ s_confirm_policy s = confirm /\ s_caps s = caps /\ s_counterparty_chain s = AUsdc
  /\ id_max_concurrent_swaps (s_identity s) = 1
  /\ exists i, id_standing_intent (s_identity s) = Some i /\ verify_authentic i = true /\ i_nim_address i = id_nim_address (s_identity s)
       /\ i_network_id i = wire_id network /\ i_nim_amount i = nim_luna /\ i_btc_amount i = usdc_micro
       /\ nim_luna <> 0 /\ usdc_micro <> 0.

Definition runs {V S} (n : @Engine.Node V S R (RpcGateway N)) (network : NetworkId) (s : @SwapSession V) (g : S) : Prop :=
  c_network (n_ctx n) = network /\ w_swap (t_swap (n_state n)) = Some s /\ w_signer (t_swap (n_state n)) = Some g.

Lemma live_intent_spec gives luna micro expiry seed evm network i :
  build_live_intent_on gives luna micro expiry seed evm network = Ok i ->
  verify_authentic i = true /\ i_network_id i = wire_id network /\ i_nim_amount i = luna /\ i_btc_amount i = micro
  /\ luna <> 0 /\ micro <> 0.
Proof.
  unfold build_live_intent_on. destruct (_ || _) eqn:E; [discriminate|]. apply orb_false_iff in E as [E1%Z.eqb_neq E2%Z.eqb_neq].
  destruct (expiry =? 0); [discriminate|].
  assert (Hs : forall x, verify_authentic (sign_intent x seed) = true).
  { intros x. unfold verify_authentic, sign_intent. simpl. unfold bytes_eqb. rewrite bool_decide_eq_true_2 by reflexivity. simpl. apply verify_sign. }
  destruct gives; intros H; try discriminate; match type of H with Ok ?x = _ => assert (i = x) as -> by congruence end; split_and!; try done; apply Hs.
Qed.

Lemma door_safety_ok {V} `{FV : FundingVerifier V} (s : @SwapSession V) x : door_safety s = Ok x -> live_safety s = Ok tt.
Proof. unfold door_safety. by destruct (live_safety s) as [[]| |]. Qed.

(** A door's assembly that passed the gate is built, on a network the switch allows. *)
Lemma build_assembly_ok {V S} `{FV : FundingVerifier V} `{SG : SwapSigner S} sender (a : Assembly (N:=N) V S) :
  live_safety (as_session _ _ a) = Ok tt -> is_live (as_signer _ _ a) = true ->
  exists n, build_assembly policy seq sender a = Ok n /\ runs n (as_network _ _ a) (as_session _ _ a) (as_signer _ _ a).
Proof.
  intros Hs Hl. unfold build_assembly, mesh_node_build. rewrite Hl, Hs.
  assert (live_swap_allowed (as_network _ _ a) = true) as -> by (by destruct (as_network _ _ a)). cbn [negb]. eexists. split; [done|]. by split_and!.
Qed.

(** A door is its assembly, then the build. *)
Lemma assembly_door {V S} `{FV : FundingVerifier V} `{SG : SwapSigner S} sender (c : res LiveSwapFfiError (Assembly (N:=N) V S)) :
  c <> Panic -> (forall a, c = Ok a -> live_safety (as_session _ _ a) = Ok tt /\ is_live (as_signer _ _ a) = true) ->
  (let? a := c in build_assembly policy seq sender a) <> Panic
  /\ forall n, (let? a := c in build_assembly policy seq sender a) = Ok n ->
       exists a, c = Ok a /\ runs n (as_network _ _ a) (as_session _ _ a) (as_signer _ _ a).
Proof.
  intros Hp Ha. destruct c as [a|e|]; [|done..]. destruct (Ha a eq_refl) as [Hs Hl].
  destruct (build_assembly_ok sender a Hs Hl) as (n & -> & Hr). split; [done|]. intros n' [= <-]. by exists a.
Qed.

(** *** No step of a door panics *)


Lemma bind_total {E B D} (c : res E B) (k : B -> res E D) :
  c <> Panic -> (forall x, c = Ok x -> k x <> Panic) -> (let? x := c in k x) <> Panic.
Proof. destruct c; [|done..]. intros _ H. by apply H. Qed.

Lemma seed32_total b what : seed32 b what <> Panic.
Proof. unfold seed32, ok_or_bad, check_seed_entropy. by repeat case_match. Qed.
Lemma ok_or_bad_total {B} (o : option B) what : ok_or_bad o what <> Panic.
Proof. by destruct o. Qed.
Lemma money_path_total htlc : mainnet_money_path htlc <> Panic.
Proof. unfold mainnet_money_path, evm_addr. apply bind_total; [apply ok_or_bad_total|]. intros x _. apply bind_total; [apply ok_or_bad_total|done]. Qed.
Lemma nim_client_total network url : refused_nim (nim_client nim_connect network url) <> Panic.
Proof. unfold nim_client, guard_testnet, guard_mainnet. destruct network; repeat case_match; simplify_eq; done. Qed.
Lemma amoy_client_total network url : refused_evm (amoy_client amoy_connect network url) <> Panic.
Proof. unfold amoy_client, guard_amoy, guard_polygon_mainnet. destruct network; repeat case_match; simplify_eq; done. Qed.
Lemma live_intent_total gives luna micro expiry seed evm network : build_live_intent_on gives luna micro expiry seed evm network <> Panic.
Proof. unfold build_live_intent_on. by repeat case_match. Qed.
Lemma door_safety_total {V} `{FV : FundingVerifier V} (s : @SwapSession V) : door_safety s <> Panic.
Proof. unfold door_safety, live_safety. by repeat case_match. Qed.
Lemma gateway_total network url :
  refused_init (optional_gateway (match network with Testnet => build_testnet_gateway nim_connect | Mainnet => build_mainnet_gateway nim_connect end) url) <> Panic.
Proof.
  unfold optional_gateway. destruct url as [url|]; [|done]. destruct network; unfold build_testnet_gateway, build_mainnet_gateway;
    [pose proof (nim_client_total Testnet url) as H|pose proof (nim_client_total Mainnet url) as H]; destruct (nim_client _ _ _); done.
Qed.
End pinned.

Create HintDb no_panic.
#[local] Hint Resolve seed32_total ok_or_bad_total money_path_total nim_client_total amoy_client_total live_intent_total door_safety_total : no_panic.

(** Invert a door that returned: one equation per step. *)
Ltac door_steps H :=
  repeat match type of H with
  | match ?c with Ok _ => _ | Err _ => _ | Panic => _ end = Ok _ => let E := fresh "E" in destruct c eqn:E; [|discriminate H..]
  end.

(** The escrow contract and the token of the mainnet path, as the bytes of the two constants *)
Definition mainnet_escrow : list Z :=
  [0x84; 0x26; 0x17; 0xEE; 0x53; 0x65; 0xFB; 0xA5; 0x89; 0x50; 0x9C; 0x7F; 0xFF; 0x1F; 0xD3; 0xDB; 0x30; 0xA2; 0x91; 0x77].
Definition native_usdc : list Z :=
  [0x3C; 0x49; 0x9C; 0x54; 0x2C; 0xEF; 0x5E; 0x38; 0x11; 0xE1; 0x19; 0x2C; 0xE7; 0x0D; 0x8C; 0xC0; 0x3D; 0x5C; 0x33; 0x59].

Lemma armed : mainnet_htlc_if_armed (live_swap_allowed Mainnet) MAINNET_HTLC_ADDRESS = Ok MAINNET_HTLC_ADDRESS.
Proof. vm_compute. reflexivity. Qed.

Lemma money_path_pinned :
  mainnet_money_path MAINNET_HTLC_ADDRESS = Ok (mkMoneyPath mainnet_escrow native_usdc 137 mainnet_defaults mainnet_first_swap Mainnet).
Proof. vm_compute. reflexivity. Qed.

Section door_theorems.
Context `{C : Crypto} `{!CryptoLaws C} `{K : Keccak} {N A : Type} `{RPC : GatewayRpc N} `{LC : LiveChain A} `{AC : AmoyChain A}
  `{U : Unicode} {R : Type} `{RR : RelayRng R} `{CK : Clock}
  (nim_connect : list Z -> N) (amoy_connect : list Z -> A) (evm_from_secret : list Z -> option LocalEvmKey)
  (now_ms now_s : Z) (policy : RelayPolicy R) (seq : Z).

Let initiator_door := build_initiator_mainnet nim_connect amoy_connect evm_from_secret now_ms now_s policy seq.
Let responder_door := build_responder_mainnet nim_connect amoy_connect evm_from_secret now_ms now_s policy seq.

Lemma seed32_ok b what x : seed32 b what = Ok x -> x = b /\ check_seed_entropy b = Ok tt.
Proof.
  unfold seed32, ok_or_bad. destruct (try_array 32 b) as [y|] eqn:E; [|discriminate]. apply try_array_inv in E as [-> _].
  destruct (check_seed_entropy b) as [[]| |]; by intros [= <-].
Qed.

Lemma array_ok_or_bad n b what x : ok_or_bad (try_array n b) what = Ok x -> x = b.
Proof. unfold ok_or_bad. destruct (try_array n b) as [y|] eqn:E; [|discriminate]. apply try_array_inv in E as [-> _]. by intros [= <-]. Qed.

Lemma nim_client_mainnet u x : refused_nim (nim_client nim_connect Mainnet u) = Ok x -> guard_mainnet u = Ok tt.
Proof. unfold nim_client. by destruct (guard_mainnet u) as [[]| |]. Qed.

Lemma amoy_client_mainnet u x : refused_evm (amoy_client amoy_connect Mainnet u) = Ok x -> guard_polygon_mainnet u = Ok tt.
Proof. unfold amoy_client. by destruct (guard_polygon_mainnet u) as [[]| |]. Qed.

Lemma initiator_assembled key book cfg u a m :
  assemble_initiator_mainnet nim_connect amoy_connect evm_from_secret now_ms now_s key book cfg u MAINNET_HTLC_ADDRESS = Ok (a, m) ->
  let s := as_session _ _ a in let g := as_signer _ _ a in
  as_network _ _ a = Mainnet
  /\ session_pinned s Mainnet mainnet_defaults (Some mainnet_first_swap) (fi_nim_luna cfg) (fi_usdc_micro cfg)
  /\ av_htlc (s_verifier s) = mainnet_escrow /\ av_own_claim_address (s_verifier s) = fi_evm_claim_address cfg
  /\ os_fired g = false /\ lk_book (os_inner g) = book
  /\ (let i := lk_inner (os_inner g) in
      ic_htlc (li_cfg i) = mainnet_escrow /\ ic_nim_key (li_cfg i) = key /\ li_evm_chain_id i = 137)
  /\ guard_mainnet (fi_nim_rpc_url cfg) = Ok tt /\ guard_polygon_mainnet (fi_amoy_rpc_url cfg) = Ok tt
  /\ check_seed_entropy (fi_intent_seed cfg) = Ok tt.
Proof.
  unfold assemble_initiator_mainnet. rewrite money_path_pinned. cbv beta iota. intros H. door_steps H.
  apply seed32_ok in E as [-> Hs]. apply array_ok_or_bad in E1 as ->. apply nim_client_mainnet in E3. apply amoy_client_mainnet in E4.
  apply live_intent_spec in E5 as (Hi & Hnet & Hl & Hm & H0 & H1). apply door_safety_ok in E6.
  match type of H with Ok (?x, _) = _ => assert (a = x) as -> by congruence end. cbv zeta.
  split_and!; try done. unfold session_pinned. split_and!; try done. eexists. split_and!; try done; congruence.
Qed.

Lemma responder_assembled cfg u a m :
  assemble_responder_mainnet nim_connect amoy_connect evm_from_secret now_ms now_s cfg u MAINNET_HTLC_ADDRESS = Ok (a, m) ->
  let s := as_session _ _ a in let g := as_signer _ _ a in
  as_network _ _ a = Mainnet
  /\ session_pinned s Mainnet mainnet_defaults (Some mainnet_first_swap) (fr_nim_luna cfg) (fr_usdc_micro cfg)
  /\ nv_network_id (s_verifier s) = wire_id Mainnet /\ os_fired g = false
  /\ (let r := os_inner g in
      rc_htlc (lr_cfg r) = mainnet_escrow /\ rc_usdc (lr_cfg r) = native_usdc /\ lr_evm_chain_id r = 137
      /\ rc_nim_claim_key (lr_cfg r) = in_memory_key (fr_nim_claim_seed cfg))
  /\ guard_mainnet (fr_nim_rpc_url cfg) = Ok tt /\ guard_polygon_mainnet (fr_amoy_rpc_url cfg) = Ok tt
  /\ check_seed_entropy (fr_nim_claim_seed cfg) = Ok tt.
Proof.
  unfold assemble_responder_mainnet. rewrite money_path_pinned. cbv beta iota. intros H. door_steps H.
  apply seed32_ok in E as [-> Hs]. apply nim_client_mainnet in E2. apply amoy_client_mainnet in E3.
  apply live_intent_spec in E4 as (Hi & Hnet & Hl & Hm & H0 & H1). apply door_safety_ok in E5.
  match type of H with Ok (?x, _) = _ => assert (a = x) as -> by congruence end. cbv zeta.
  split_and!; try done. unfold session_pinned. split_and!; try done. eexists. split_and!; try done; congruence.
Qed.

Lemma assemble_total key book icfg rcfg u :
  assemble_initiator_mainnet nim_connect amoy_connect evm_from_secret now_ms now_s key book icfg u MAINNET_HTLC_ADDRESS <> Panic
  /\ assemble_responder_mainnet nim_connect amoy_connect evm_from_secret now_ms now_s rcfg u MAINNET_HTLC_ADDRESS <> Panic.
Proof.
  unfold assemble_initiator_mainnet, assemble_responder_mainnet.
  split; repeat (apply bind_total; [auto with no_panic; try exact (gateway_total nim_connect Mainnet u)|intros ? _; cbv zeta]); done.
Qed.

(** C17: the mainnet doors pin the money path.  Whatever the caller configures, neither door panics:
    it refuses with an error, or it returns a node on mainnet whose session passes the money-path
    gate, with the mainnet confirmation depths and the first-swap caps, one swap at a time, and an
    authentic advertisement of the configured trade stamped with mainnet.  The initiator's verifier
    and signer and the responder's signer use the escrow contract of the code, the signer's
    transactions carry chain id 137 and the token is native USDC, not what the configuration names;
    the responder's verifier is pinned to mainnet contracts; the signer is latched and has not fired, and
    the lock book is the caller's; both RPC urls passed the mainnet guards, and the seeds the entropy check. *)
Theorem mainnet_doors_pinned (sender : bytes) (key : EnclaveKey) (book : LiveLockBook) (icfg : FfiLiveInitiatorConfig)
    (rcfg : FfiLiveResponderConfig) (url : option (list Z)) :
  initiator_door sender key book icfg url <> Panic /\ responder_door sender rcfg url <> Panic
  /\ (forall n, initiator_door sender key book icfg url = Ok n ->
        exists s g, runs n Mainnet s g
          /\ session_pinned s Mainnet mainnet_defaults (Some mainnet_first_swap) (fi_nim_luna icfg) (fi_usdc_micro icfg)
          /\ av_htlc (s_verifier s) = mainnet_escrow /\ av_own_claim_address (s_verifier s) = fi_evm_claim_address icfg
          /\ os_fired g = false /\ lk_book (os_inner g) = book
          /\ (let i := lk_inner (os_inner g) in
              ic_htlc (li_cfg i) = mainnet_escrow /\ ic_nim_key (li_cfg i) = key /\ li_evm_chain_id i = 137)
          /\ guard_mainnet (fi_nim_rpc_url icfg) = Ok tt /\ guard_polygon_mainnet (fi_amoy_rpc_url icfg) = Ok tt
          /\ check_seed_entropy (fi_intent_seed icfg) = Ok tt)
  /\ (forall n, responder_door sender rcfg url = Ok n ->
        exists s g, runs n Mainnet s g
          /\ session_pinned s Mainnet mainnet_defaults (Some mainnet_first_swap) (fr_nim_luna rcfg) (fr_usdc_micro rcfg)
          /\ nv_network_id (s_verifier s) = wire_id Mainnet /\ os_fired g = false
          /\ (let r := os_inner g in
              rc_htlc (lr_cfg r) = mainnet_escrow /\ rc_usdc (lr_cfg r) = native_usdc /\ lr_evm_chain_id r = 137
              /\ rc_nim_claim_key (lr_cfg r) = in_memory_key (fr_nim_claim_seed rcfg))
          /\ guard_mainnet (fr_nim_rpc_url rcfg) = Ok tt /\ guard_polygon_mainnet (fr_amoy_rpc_url rcfg) = Ok tt
          /\ check_seed_entropy (fr_nim_claim_seed rcfg) = Ok tt).
Proof.
  unfold initiator_door, responder_door, build_initiator_mainnet, build_responder_mainnet. rewrite armed. cbv beta iota.
  destruct (assemble_total key book icfg rcfg url) as [Ti Tr].
  assert (Hi : forall a m, assemble_initiator_mainnet nim_connect amoy_connect evm_from_secret now_ms now_s key book icfg url MAINNET_HTLC_ADDRESS = Ok (a, m) ->
    exists n, build_assembly policy seq sender a = Ok n /\ runs n Mainnet (as_session _ _ a) (as_signer _ _ a)).
  { intros a m E. apply initiator_assembled in E as (En & (Hs & _) & _). rewrite <- En. by apply build_assembly_ok. }
  assert (Hr : forall a m, assemble_responder_mainnet nim_connect amoy_connect evm_from_secret now_ms now_s rcfg url MAINNET_HTLC_ADDRESS = Ok (a, m) ->
    exists n, build_assembly policy seq sender a = Ok n /\ runs n Mainnet (as_session _ _ a) (as_signer _ _ a)).
  { intros a m E. apply responder_assembled in E as (En & (Hs & _) & _). rewrite <- En. by apply build_assembly_ok. }
  split_and!.
  - apply bind_total; [done|]. intros [a m] E. by destruct (Hi a m E) as (n & -> & _).
  - apply bind_total; [done|]. intros [a m] E. by destruct (Hr a m E) as (n & -> & _).
  - intros n H. destruct (assemble_initiator_mainnet _ _ _ _ _ _ _ _ _ _) as [[a m]|e|] eqn:E; [|discriminate..].
    destruct (Hi a m eq_refl) as (n' & Hb & Hn). rewrite Hb in H. injection H as <-. apply initiator_assembled in E as (_ & E). eauto.
  - intros n H. destruct (assemble_responder_mainnet _ _ _ _ _ _ _ _) as [[a m]|e|] eqn:E; [|discriminate..].
    destruct (Hr a m eq_refl) as (n' & Hb & Hn). rewrite Hb in H. injection H as <-. apply responder_assembled in E as (_ & E). eauto.
Qed.
(** *** The testnet doors *)

Let testnet_initiator := assemble_initiator nim_connect amoy_connect evm_from_secret now_ms now_s.
Let testnet_responder := assemble_responder nim_connect amoy_connect evm_from_secret now_ms now_s.

Lemma testnet_assembled key book icfg rcfg u :
  (testnet_initiator key book icfg u <> Panic /\ testnet_responder rcfg u <> Panic)
  /\ (forall a, testnet_initiator key book icfg u = Ok a -> as_network _ _ a = Testnet /\ os_fired (as_signer _ _ a) = false
       /\ session_pinned (as_session _ _ a) Testnet testnet_defaults None (fi_nim_luna icfg) (fi_usdc_micro icfg))
  /\ (forall a, testnet_responder rcfg u = Ok a -> as_network _ _ a = Testnet /\ os_fired (as_signer _ _ a) = false
       /\ session_pinned (as_session _ _ a) Testnet testnet_defaults None (fr_nim_luna rcfg) (fr_usdc_micro rcfg)).
Proof.
  unfold testnet_initiator, testnet_responder, assemble_initiator, assemble_responder, evm_addr, build_live_intent. split_and!.
  1, 2: repeat (apply bind_total; [auto with no_panic; try exact (gateway_total nim_connect Testnet u)|intros ? _; cbv zeta]); done.
  - intros a H. door_steps H. apply live_intent_spec in E6 as (Hi & Hnet & Hl & Hm & H0 & H1). apply door_safety_ok in E7.
    match type of H with Ok ?x = _ => assert (a = x) as -> by congruence end. unfold session_pinned.
    split_and!; try done. eexists. split_and!; try done; congruence.
  - intros a H. door_steps H. apply live_intent_spec in E6 as (Hi & Hnet & Hl & Hm & H0 & H1). apply door_safety_ok in E7.
    match type of H with Ok ?x = _ => assert (a = x) as -> by congruence end. unfold session_pinned.
    split_and!; try done. eexists. split_and!; try done; congruence.
Qed.

(** The testnet doors never panic either, and what they build is on testnet, passes the
    money-path gate with the testnet depths, and is latched; the seed check and the guards refuse
    with an error. *)
Theorem testnet_doors_gated (sender : bytes) (key : EnclaveKey) (book : LiveLockBook) (icfg : FfiLiveInitiatorConfig)
    (rcfg : FfiLiveResponderConfig) (url : option (list Z)) :
  let initiator := build_initiator nim_connect amoy_connect evm_from_secret now_ms now_s policy seq sender key book icfg url in
  let responder := build_responder nim_connect amoy_connect evm_from_secret now_ms now_s policy seq sender rcfg url in
  initiator <> Panic /\ responder <> Panic
  /\ (forall n, initiator = Ok n -> exists s g, runs n Testnet s g /\ os_fired g = false
       /\ session_pinned s Testnet testnet_defaults None (fi_nim_luna icfg) (fi_usdc_micro icfg))
  /\ (forall n, responder = Ok n -> exists s g, runs n Testnet s g /\ os_fired g = false
       /\ session_pinned s Testnet testnet_defaults None (fr_nim_luna rcfg) (fr_usdc_micro rcfg)).
Proof.
  destruct (testnet_assembled key book icfg rcfg url) as ((Ti & Tr) & Hi & Hr).
  destruct (assembly_door policy seq sender _ Ti) as [Pi Oi]; [intros a E; apply Hi in E as (_ & _ & Hs & _); by split|].
  destruct (assembly_door policy seq sender _ Tr) as [Pr Or]; [intros a E; apply Hr in E as (_ & _ & Hs & _); by split|].
  split_and!; [exact Pi|exact Pr|..].
  - intros n H. destruct (Oi n H) as (a & E & Hru). apply Hi in E as (Hn & ? & ?). rewrite Hn in Hru. eauto.
  - intros n H. destruct (Or n H) as (a & E & Hru). apply Hr in E as (Hn & ? & ?). rewrite Hn in Hru. eauto.
Qed.
End door_theorems.

#[export] Instance Quiet_chain : AmoyChain unit := {|
  amoy_reads := {| EvmVerifier.eth_call := fun _ _ _ => Ok []; new_swap_logs_to := fun _ _ _ _ => Ok []; evm_head := fun _ => Ok 200; finalized_head := fun _ => Ok 190 |};
  receipt := fun _ _ => Ok None
|}.

Definition sample_seed : list Z := map Z.of_nat (List.seq 1 32).

Definition sample_ffi_initiator : FfiLiveInitiatorConfig :=
  mkFfiInitiator 4000000 3000000 9000 sample_seed (replicate 20 22) sample_seed (chars "https://rpc.nimiqwatch.com")
    (chars "https://polygon.drpc.org") (chars "0xdeadbeef") 0 0.

Definition sample_ffi_responder : FfiLiveResponderConfig :=
  mkFfiResponder 3000000 4000000 9000 sample_seed sample_seed (chars "https://rpc.nimiqwatch.com")
    (chars "https://polygon.drpc.org") (chars "0xdeadbeef") (chars "0xdeadbeef") 0 0.

(** A mainnet initiator is built although its configuration names another contract, and its
    signer uses the contract of the code. *)
Lemma mainnet_doors_pinned_witness :
  exists n (g : OneShotSigner (LockRecordingSigner (LiveInitiatorSigner (N:=MockRpc) (A:=unit)))),
    build_initiator_mainnet (fun _ => mock_rpc_new 500) (fun _ => tt) (fun _ => Some (rc_evm_key sample_live_config)) 1000 1 (policy_custom tt) 0
      [1] (in_memory_key sample_seed) [] sample_ffi_initiator None = Ok n
    /\ w_signer (t_swap (n_state n)) = Some g /\ ic_htlc (li_cfg (lk_inner (os_inner g))) = mainnet_escrow.
Proof.
  destruct (mainnet_doors_pinned (fun _ => mock_rpc_new 500) (fun _ => tt) (fun _ => Some (rc_evm_key sample_live_config)) 1000 1 (policy_custom tt) 0
    [1] (in_memory_key sample_seed) [] sample_ffi_initiator sample_ffi_responder None) as (_ & _ & Hi & _).
  destruct (build_initiator_mainnet _ _ _ _ _ _ _ _ _ _ _ _) as [n|e|] eqn:E; [|exfalso; vm_compute in E; discriminate E..].
  destruct (Hi n eq_refl) as (s & g & (_ & _ & Hg) & _ & _ & _ & _ & _ & (Hh & _) & _). by exists n, g.
Defined.
