(* ===== verification/UsdcSend.v ===== *)
(** * UsdcSend: the standalone USDC send ([usdc_send_ffi.rs])

    The armed gate, the preflight on the sender's USDC and POL, and the one transfer that is
    signed and broadcast, over any Polygon endpoint; and the composition with the JSON-RPC
    client of [PolygonGateway] over a node of [EthNode]. *)

From stdpp Require Import base list strings.
From Stdlib Require Import ZArith Lia.
From S2P Require Import Prelude Packet Crypto Address NimTx Gateway Evm EvmVerifier LiveSigner PolygonGateway EthNode LiveDoor.
Open Scope Z_scope.

Definition USDC_SEND_MIN_GAS_PRICE_WEI : Z := 30000000000.
Definition USDC_SEND_MAX_GAS_PRICE_WEI : Z := 100000000000.
Definition USDC_TRANSFER_GAS_FALLBACK : Z := 120000.
Definition USDC_TRANSFER_GAS_MAX : Z := 200000.

Record FfiUsdcSendConfig : Type := mkUsdcSend {
  us_source_secret : bytes;
  us_to_address : list Z;
  us_amount_micro : Z;
  us_rpc_url : list Z
}.

Record FfiUsdcSendResult : Type := mkUsdcSent {
  ur_tx_hash : list Z;
  ur_from_address : list Z;
  ur_amount_micro : Z;
  ur_gas_limit : Z;
  ur_gas_price_wei : Z
}.

(** The calls of [AmoyChain] the send makes: those of a live signer, and the gas estimate *)
Class SendChain (A : Type) : Type := {
  send_live :: LiveChain A;
  sc_estimate_gas : A -> bytes -> bytes -> bytes -> A * res EvmRpcError Z
}.

Definition word_to_u128 (word : bytes) : option Z :=
  if negb (len word =? 32) || existsb (fun b => negb (b =? 0)) (take 16 word) then None
  else Some (from_be (drop 16 word)).

(** The estimate with its buffer, clamped, or the fallback *)
Definition transfer_gas_limit (estimate : option Z) : Z :=
  match estimate with
  | Some est => clamp (sat_add 64 est (est / 4)) 21000 USDC_TRANSFER_GAS_MAX
  | None => USDC_TRANSFER_GAS_FALLBACK
  end.

(** [saturating_mul] of two [u128]s *)
Definition gas_budget (gas_limit gas_price : Z) : Z := Z.min (2 ^ 128 - 1) (gas_limit * gas_price).

(** [map_err(transport)] *)
Definition evm_transport {B} (r : res EvmRpcError B) : res LiveSwapFfiError B :=
  match r with Ok v => Ok v | Err e => Err (FfiTransport (evm_error_to_string e)) | Panic => Panic end.

(** Sequence a call on the endpoint with what follows it, an error or a panic ending the send *)
Definition then_call {A B D} (x : A * res EvmRpcError B) (k : A -> B -> A * res LiveSwapFfiError D) : A * res LiveSwapFfiError D :=
  let '(a, r) := x in
  match evm_transport r with Ok v => k a v | Err e => (a, Err e) | Panic => (a, Panic) end.

Section send.
Context `{K : Keccak} {A : Type} `{SC : SendChain A}.

Definition build_and_broadcast_usdc (chain : A) (key : LocalEvmKey) (usdc_token to : bytes) (amount_micro chain_id : Z)
  : A * res LiveSwapFfiError FfiUsdcSendResult :=
  if amount_micro =? 0 then (chain, Err (bad (chars "amount must be non-zero"))) else
  if bool_decide (to = replicate 20 0) then (chain, Err (bad (chars "recipient address must not be zero"))) else
  let from := key_address key in
  then_call (lc_call chain usdc_token (erc20_balance_of from)) (fun chain bal_word =>
  match word_to_u128 bal_word with
  | None => (chain, Err (bad (chars "malformed balanceOf response")))
  | Some balance =>
      if balance <? amount_micro then
        (chain, Err (bad (chars "amount " ++ decimal amount_micro ++ chars " exceeds USDC balance " ++ decimal balance))) else
      then_call (lc_transaction_count chain from) (fun chain nonce =>
      then_call (lc_gas_price chain) (fun chain price =>
      let gas_price := clamp price USDC_SEND_MIN_GAS_PRICE_WEI USDC_SEND_MAX_GAS_PRICE_WEI in
      let data := erc20_transfer to amount_micro in
      let '(chain, est) := sc_estimate_gas chain from usdc_token data in
      match est with
      | Panic => (chain, Panic)
      | _ =>
          let gas_limit := transfer_gas_limit (match est with Ok e => Some e | _ => None end) in
          let budget := gas_budget gas_limit gas_price in
          then_call (lc_balance chain from) (fun chain pol =>
          if pol <? budget then
            (chain, Err (bad (chars "insufficient POL for gas: need " ++ decimal budget ++ chars " wei, have " ++ decimal pol))) else
          let raw := sign_with (live_tx chain_id nonce gas_price gas_limit usdc_token data) key in
          then_call (lc_send_raw chain raw) (fun chain tx_hash =>
          (chain, Ok (mkUsdcSent tx_hash (addr_hex from) amount_micro gas_limit gas_price))))
      end))
  end).

(** [live::send]: the armed gate, the inputs, the guarded client *)
Definition send_usdc_mainnet (connect : list Z -> A) (evm_from_secret : bytes -> option LocalEvmKey) (config : FfiUsdcSendConfig)
  : option A * res LiveSwapFfiError FfiUsdcSendResult :=
  match (let? _ := mainnet_htlc_if_armed (live_swap_allowed Mainnet) MAINNET_HTLC_ADDRESS in
         let? secret := ok_or_bad (try_array 32 (us_source_secret config)) (chars "source_secret must be 32 bytes") in
         let? key := ok_or_bad (evm_from_secret secret) (chars "source_secret is not a valid secp256k1 scalar") in
         let? to := evm_addr (us_to_address config) (chars "to_address") in
         let? usdc := evm_addr NATIVE_USDC_POLYGON_MAINNET (chars "NATIVE_USDC_POLYGON_MAINNET") in
         let? chain := refused_evm (let? _ := guard_polygon_mainnet (us_rpc_url config) in Ok (connect (us_rpc_url config))) in
         Ok (key, to, usdc, chain)) with
  | Ok (key, to, usdc, chain) =>
      let '(chain, r) := build_and_broadcast_usdc chain key usdc to (us_amount_micro config) POLYGON_MAINNET_CHAIN_ID in (Some chain, r)
  | Err e => (None, Err e)
  | Panic => (None, Panic)
  end.
End send.

(** The client as such an endpoint *)
Definition http_send_chain {N} `{HttpPost N} (json_text : Json -> list Z) : SendChain (HttpPolygonRpc N) := {|
  send_live := http_live_chain json_text;
  sc_estimate_gas := http_estimate_gas json_text
|}.

(** ** Theorem *)

(** *** A signed transaction is bytes *)

Lemma strip_zeros_spec b : bytes_ok b -> bytes_ok (strip_zeros b) /\ len (strip_zeros b) <= len b.
Proof.
  induction 1 as [|x b Hx Hb IH]; [by split; [constructor|]|].
  destruct x as [|x|x]; cbn [strip_zeros]; [|split; [by constructor|lia]..].
  destruct IH as [H1 H2]. split; [done|]. unfold len in *. cbn [length]. lia.
Qed.

Lemma minimal_be_spec v : bytes_ok (minimal_be v) /\ len (minimal_be v) <= 8.
Proof.
  unfold minimal_be. case_match; [split; [constructor|by cbn]|].
  destruct (strip_zeros_spec (be_bytes 8 v) (be_bytes_ok 8 v)) as [H1 H2]. split; [done|]. by rewrite len_be_bytes in H2.
Qed.

Lemma rlp_length_bytes n offset : 0 <= n -> 0 <= offset <= 0xc0 -> bytes_ok (rlp_length n offset).
Proof.
  intros Hn Ho. unfold rlp_length. destruct (Z.ltb_spec n 56).
  - apply bytes_ok_cons. split; [unfold uN; lia|constructor].
  - destruct (minimal_be_spec n) as [H1 H2]. apply bytes_ok_cons. split; [unfold uN, len in *; lia|done].
Qed.

Lemma rlp_bytes_bytes b : bytes_ok b -> bytes_ok (rlp_bytes b).
Proof.
  intros Hb. assert (bytes_ok (rlp_length (len b) 0x80 ++ b)) by (apply bytes_ok_app; split; [apply rlp_length_bytes; unfold len; lia|done]).
  unfold rlp_bytes. repeat case_match; done.
Qed.

Lemma rlp_list_bytes l : Forall bytes_ok l -> bytes_ok (rlp_list l).
Proof.
  intros Hl. unfold rlp_list. apply bytes_ok_app. split.
  - apply rlp_length_bytes; [|lia]. clear. induction l; cbn; [lia|unfold len in *; lia].
  - induction Hl; [constructor|]. cbn. by apply bytes_ok_app.
Qed.

(** A key whose signatures are bytes *)
Definition signs_bytes (key : LocalEvmKey) : Prop := forall h, let '(r, s, _) := lk_sign key h in bytes_ok r /\ bytes_ok s.

Lemma sign_with_bytes `{K : Keccak} (t : LegacyTx) key : signs_bytes key -> bytes_ok (lt_to t) -> bytes_ok (lt_data t) -> bytes_ok (sign_with t key).
Proof.
  intros Hk Ht Hd. unfold sign_with. cbn [sign_hash LocalEvmKey_signer]. specialize (Hk (signing_hash t)).
  destruct (lk_sign key (signing_hash t)) as [[r s] v]. destruct Hk as [Hr Hs].
  apply rlp_list_bytes. rewrite !Forall_cons, Forall_nil. unfold rlp_u64, rlp_int.
  split_and!; first [exact I|apply rlp_bytes_bytes]; try done; first [apply minimal_be_spec|by apply strip_zeros_spec].
Qed.

Section exact.
Context `{K : Keccak} `{!KeccakLaws K} {N L : Type} `{P : HttpPost N} `{LD : Ledger L} (json_text : Json -> list Z) (behind : N -> L).

(** The terms of the send on a ledger: its nonce, price and gas limit; [None] when a check fails *)
Definition ledger_preflight (l : L) (from usdc to : bytes) (amount : Z) : option (Z * Z * Z) :=
  if (amount =? 0) || bool_decide (to = replicate 20 0) then None else
  match ld_call l Latest usdc (erc20_balance_of from) with
  | inl _ => None
  | inr w =>
      balance ← word_to_u128 w;
      if balance <? amount then None else
      let price := clamp (ld_gas_price l) USDC_SEND_MIN_GAS_PRICE_WEI USDC_SEND_MAX_GAS_PRICE_WEI in
      let limit := transfer_gas_limit (match ld_estimate l from usdc (erc20_transfer to amount) with inr e => Some e | inl _ => None end) in
      if ld_balance l Latest from <? gas_budget limit price then None else Some (ld_count l Pending from, price, limit)
  end.

Lemma key_address_bytes (key : LocalEvmKey) : bytes_ok (key_address key).
Proof. unfold key_address, evm_address. apply bytes_ok_drop, keccak256_ok. Qed.

Lemma calldata_bytes signature : bytes_ok (calldata signature).
Proof. unfold calldata, function_selector. apply bytes_ok_take, keccak256_ok. Qed.

Lemma transfer_bytes to amount : bytes_ok to -> bytes_ok (erc20_transfer to amount).
Proof.
  intros Ht. unfold erc20_transfer, word_address, word_u256.
  rewrite !bytes_ok_app. split_and!; [apply calldata_bytes|by repeat constructor|done|by repeat constructor|apply be_bytes_ok].
Qed.

Lemma balance_of_bytes owner : bytes_ok owner -> bytes_ok (erc20_balance_of owner).
Proof.
  intros Ho. unfold erc20_balance_of, word_address. rewrite !bytes_ok_app. split_and!; [apply calldata_bytes|by repeat constructor|done].
Qed.

Lemma gas_limit_range e : 21000 <= transfer_gas_limit e <= USDC_TRANSFER_GAS_MAX.
Proof. unfold transfer_gas_limit, clamp, USDC_TRANSFER_GAS_FALLBACK, USDC_TRANSFER_GAS_MAX. destruct e; lia. Qed.

(** A query among the calls of the send *)
Lemma then_queried {B D} (c : HttpPolygonRpc N) x r (k : HttpPolygonRpc N -> B -> HttpPolygonRpc N * res LiveSwapFfiError D)
    (Post : HttpPolygonRpc N * res LiveSwapFfiError D -> Prop) :
  queried behind c x r ->
  (forall c', hp_url c' = hp_url c -> behind (hp_agent c') = behind (hp_agent c) ->
     Post (match evm_transport r with Ok v => k c' v | Err e => (c', Err e) | Panic => (c', Panic) end)) ->
  Post (then_call x k).
Proof. intros (n' & -> & Hn) Hk. by apply (Hk (client_after c n')). Qed.

(** The last two steps: the POL check and the broadcast *)
Lemma broadcast_exact (c : HttpPolygonRpc N) (key : LocalEvmKey) (usdc to : bytes) (amount nonce price limit : Z)
    (l := behind (hp_agent c)) (from := key_address key) (data := erc20_transfer to amount)
    (raw := sign_with (polygon_mainnet nonce price limit usdc 0 data) key) :
  EthNode (hp_url c) behind -> ledger_ok l -> bytes_ok usdc -> bytes_ok to -> signs_bytes key ->
  let '(c', r) := then_call (get_balance json_text c (addr_hex from)) (fun c pol =>
      if pol <? gas_budget limit price then
        (c, Err (bad (chars "insufficient POL for gas: need " ++ decimal (gas_budget limit price) ++ chars " wei, have " ++ decimal pol))) else
      then_call (send_raw_transaction json_text c (addr_hex (sign_with (live_tx POLYGON_MAINNET_CHAIN_ID nonce price limit usdc data) key)))
        (fun c tx_hash => (c, Ok (mkUsdcSent tx_hash (addr_hex from) amount limit price)))) in
  if ld_balance l Latest from <? gas_budget limit price then behind (hp_agent c') = l /\ exists e, r = Err e
  else behind (hp_agent c') = (ld_send l raw).1
       /\ r = match (ld_send l raw).2 with
              | inr hash => Ok (mkUsdcSent (addr_hex hash) (addr_hex from) amount limit price)
              | inl m => Err (FfiTransport (chars "eth_sendRawTransaction: " ++ m))
              end.
Proof.
  intros Hnode Hl Hu Ht Hkey. pose proof (key_address_bytes key) as Hf. pose proof (transfer_bytes to amount Ht) as Hd.
  apply (then_queried c _ (Ok (ld_balance l Latest from))); [apply balance_call; [done..|apply Hl]|]. intros c1 Hu1 Hb1. cbn [evm_transport].
  destruct (_ <? _); [eauto|].
  destruct (send_call json_text behind c1) with (raw := raw) as (n' & E & Hn'); [by rewrite Hu1|by apply sign_with_bytes|].
  change (sign_with (live_tx _ _ _ _ _ _) _) with raw. rewrite E. rewrite Hb1 in *. fold l in Hn' |- *.
  destruct (ld_send l raw) as [l' [m|h]]; cbn [then_call answer evm_transport fst snd hp_agent client_after] in *; by split.
Qed.

Lemma budget_covers limit price pol : 21000 <= limit <= USDC_TRANSFER_GAS_MAX ->
  USDC_SEND_MIN_GAS_PRICE_WEI <= price <= USDC_SEND_MAX_GAS_PRICE_WEI -> gas_budget limit price <= pol -> limit * price <= pol.
Proof.
  unfold gas_budget, USDC_TRANSFER_GAS_MAX, USDC_SEND_MIN_GAS_PRICE_WEI, USDC_SEND_MAX_GAS_PRICE_WEI. intros Hl Hp Hb.
  assert (limit * price <= 200000 * 100000000000) by (apply Z.mul_le_mono_nonneg; lia). lia.
Qed.

(** C20: the USDC send moves exactly what was asked, once.  Through the client, any node that
    answers as documented and the ledger behind it: the send passes its checks exactly when the
    amount and the recipient are not zero, the token reports at least the amount for the sender,
    and the sender's POL covers the gas; then the ledger receives one transaction, the signed
    transfer of exactly the amount to the recipient in the token, on chain 137, at the sender's
    nonce (pending transactions counted), at 30 to 100 gwei and 21,000 to 200,000 gas; the result
    names the hash the ledger assigned, or its refusal.  Otherwise the ledger is untouched and the
    send returns an error.  It never panics. *)
Theorem usdc_send_exact (c : HttpPolygonRpc N) (key : LocalEvmKey) (usdc to : bytes) (amount : Z)
    (l := behind (hp_agent c)) (from := key_address key) (Hnode : EthNode (hp_url c) behind)
    (Hl : ledger_ok l) (Hu : bytes_ok usdc) (Ht : bytes_ok to) (Hkey : signs_bytes key) :
  let '(c', r) := build_and_broadcast_usdc (SC := http_send_chain json_text) c key usdc to amount POLYGON_MAINNET_CHAIN_ID in
  match ledger_preflight l from usdc to amount with
  | None => behind (hp_agent c') = l /\ exists e, r = Err e
  | Some (nonce, price, limit) =>
      let raw := sign_with (polygon_mainnet nonce price limit usdc 0 (erc20_transfer to amount)) key in
      USDC_SEND_MIN_GAS_PRICE_WEI <= price <= USDC_SEND_MAX_GAS_PRICE_WEI /\ 21000 <= limit <= USDC_TRANSFER_GAS_MAX
      /\ limit * price <= ld_balance l Latest from
      /\ behind (hp_agent c') = (ld_send l raw).1
      /\ r = match (ld_send l raw).2 with
             | inr hash => Ok (mkUsdcSent (addr_hex hash) (addr_hex from) amount limit price)
             | inl m => Err (FfiTransport (chars "eth_sendRawTransaction: " ++ m))
             end
  end.
Proof.
  pose proof (key_address_bytes key) as Hf. pose proof (transfer_bytes to amount Ht) as Hd. pose proof (balance_of_bytes _ Hf) as Hc.
  unfold build_and_broadcast_usdc, ledger_preflight. fold from.
  destruct (amount =? 0); [cbn; eauto|]. case_bool_decide; [cbn; eauto|]. cbn [orb].
  cbn [lc_call lc_transaction_count lc_gas_price lc_balance lc_send_raw sc_estimate_gas send_live http_send_chain http_live_chain].
  eapply then_queried; [apply call_call; [done..|intros; by eapply ok_call]|]. fold l. intros c1 Hu1 Hb1.
  destruct (ld_call l Latest usdc (erc20_balance_of from)) as [m|w]; [cbn; eauto|].
  cbn [answer evm_transport id mbind option_bind]. destruct (word_to_u128 w) as [b|]; [|cbn; eauto]. cbn [mbind option_bind].
  destruct (b <? amount); [cbn; eauto|]. rewrite <- Hu1 in Hnode. fold l in Hb1.
  eapply then_queried; [apply count_call; [done..|rewrite Hb1; apply Hl]|]. rewrite Hb1. intros c2 Hu2 Hb2. rewrite <- Hu2 in Hnode.
  cbn [evm_transport]. eapply then_queried; [apply gas_price_call; [done|rewrite Hb2; apply Hl]|]. rewrite Hb2. intros c3 Hu3 Hb3. rewrite <- Hu3 in Hnode.
  cbn [evm_transport].
  destruct (estimate_call json_text behind c3 Hnode from usdc (erc20_transfer to amount)) as (n4 & -> & Hb4);
    [done..|rewrite Hb3; intros; by eapply ok_estimate|]. rewrite Hb3 in *.
  set (price := clamp _ _ _). set (est := ld_estimate l from usdc (erc20_transfer to amount)).
  set (limit := transfer_gas_limit (match est with inr e => Some e | inl _ => None end)).
  pose proof (broadcast_exact (client_after c3 n4) key usdc to amount (ld_count l Pending from) price limit) as Hlast.
  cbn [client_after hp_agent hp_url] in Hlast. rewrite Hb4 in Hlast. specialize (Hlast Hnode Hl Hu Ht Hkey). fold from in Hlast.
  pose proof (gas_limit_range (match est with inr e => Some e | inl _ => None end)) as Hlim. fold limit in Hlim.
  assert (Hpr : USDC_SEND_MIN_GAS_PRICE_WEI <= price <= USDC_SEND_MAX_GAS_PRICE_WEI)
    by (unfold price, clamp, USDC_SEND_MIN_GAS_PRICE_WEI, USDC_SEND_MAX_GAS_PRICE_WEI; lia).
  assert (Hest : (match (match est with inr v => Ok v | inl m => Err (EvmRpc (chars "eth_estimateGas") m) end : res EvmRpcError Z) with
                  | Ok e => Some e | _ => None end) = match est with inr e => Some e | inl _ => None end) by (by destruct est).
  unfold answer. cbv beta delta [id]. rewrite Hest. fold limit.
  assert (Hm : forall X (x y : X), match (match est with inr v => Ok v | inl m => Err (EvmRpc (chars "eth_estimateGas") m) end : res EvmRpcError Z)
                with Panic => x | _ => y end = y) by (intros; by destruct est).
  rewrite Hm. destruct (then_call _ _) as [c' r]. destruct (ld_balance l Latest from <? gas_budget limit price) eqn:Eb; [exact Hlast|].
  bool_prop. destruct Hlast as [H1 H2]. split_and!; try done; try lia. eapply budget_covers; done.
Qed.
End exact.

(** A ledger whose account holds 25 USDC and 100 POL *)
Definition funded_ledger : Ledger (list (list Z)) := {|
  ld_gas_price _ := 280000000000;
  ld_count l t _ := if bool_decide (t = Pending) then Z.min 9 (len l) else 0;
  ld_balance _ t _ := if bool_decide (t = Latest) then 10 ^ 20 else 0;
  ld_estimate _ _ _ _ := inr 61000;
  ld_send l raw := (l ++ [raw], inr (replicate 32 7));
  ld_receipt _ _ := None;
  ld_call _ _ _ _ := inr (replicate 24 0 ++ be_bytes 8 25000000);
  ld_head _ := 0x1240;
  ld_block _ _ := Some 0x1238;
  ld_logs _ _ _ _ _ _ := []
|}.

Lemma funded_ledger_ok l : ledger_ok (LD := funded_ledger) l.
Proof.
  constructor; try (unfold uN; cbn; lia).
  - intros t a. unfold uN. cbn. case_bool_decide; unfold len; lia.
  - intros t a. unfold uN. cbn. case_bool_decide; lia.
  - intros f t d g. cbn. intros [= <-]. unfold uN. lia.
  - intros tx ok n. cbn. discriminate.
  - intros t a d out. cbn. intros [= <-]. apply bytes_okb_ok. reflexivity.
  - intros t n. cbn. intros [= <-]. unfold uN. lia.
  - intros a t0 t3 n t. cbn. constructor.
Qed.

Definition sample_send_key : LocalEvmKey := mkEvmKey (replicate 64 6) (fun _ => (replicate 32 1, replicate 32 2, 0)).

Lemma usdc_send_exact_witness :
  let c := mkHttpPolygonRpc (chars "https://polygon.drpc.org") ([] : list (list Z)) 1 in
  let '(c', r) := build_and_broadcast_usdc (SC := http_send_chain (H := node_post (LD := funded_ledger)) (fun _ => [])) c sample_send_key
                    native_usdc (replicate 20 9) 1500000 POLYGON_MAINNET_CHAIN_ID in
  len (hp_agent c') = 1 /\ r = Ok (mkUsdcSent (addr_hex (replicate 32 7)) (addr_hex (key_address sample_send_key)) 1500000 76250 100000000000).
Proof.
  intros c.
  assert (H := @usdc_send_exact ToyKeccak _ _ _ (node_post (LD := funded_ledger)) funded_ledger (fun _ => []) id c sample_send_key native_usdc
                 (replicate 20 9) 1500000 (serve_documented (LD := funded_ledger) _) (funded_ledger_ok _)).
  destruct (build_and_broadcast_usdc _ _ _ _ _ _) as [c' r].
  assert (E : ledger_preflight (LD := funded_ledger) (hp_agent c) (key_address sample_send_key) native_usdc (replicate 20 9) 1500000
              = Some (0, 100000000000, 76250)) by (vm_compute; reflexivity).
  cbv zeta in H. unfold id in H. rewrite E in H. set (raw := sign_with _ _) in H. clearbody raw.
  destruct H as (_ & _ & _ & H1 & H2); [..|split; [by rewrite H1|exact H2]].
  - apply bytes_okb_ok. reflexivity.
  - apply bytes_okb_ok. reflexivity.
  - intros h. cbn. split; apply bytes_okb_ok; reflexivity.
Defined.

(** The door reaches an endpoint only through the mainnet guard, and then sends the code's
    token on chain 137, whatever the configuration. *)
Theorem send_door_pinned `{K : Keccak} {A : Type} `{SC : SendChain A} (connect : list Z -> A)
    (evm_from_secret : list Z -> option LocalEvmKey) (config : FfiUsdcSendConfig) :
  match send_usdc_mainnet connect evm_from_secret config with
  | (None, r) => exists e, r = Err e
  | (Some chain, r) => guard_polygon_mainnet (us_rpc_url config) = Ok tt
      /\ exists key to, evm_from_secret (us_source_secret config) = Some key
           /\ evm_addr (us_to_address config) (chars "to_address") = Ok to
           /\ build_and_broadcast_usdc (connect (us_rpc_url config)) key native_usdc to (us_amount_micro config) 137 = (chain, r)
  end.
Proof.
  unfold send_usdc_mainnet. rewrite armed. cbv beta iota.
  assert (Hu : evm_addr NATIVE_USDC_POLYGON_MAINNET (chars "NATIVE_USDC_POLYGON_MAINNET") = Ok native_usdc) by (vm_compute; reflexivity). rewrite Hu.
  destruct (try_array 32 _) as [sec|] eqn:Es; [|cbn; eauto]. apply try_array_inv in Es as [-> _]. cbn [ok_or_bad].
  destruct (evm_from_secret _) as [key|] eqn:Ek; [|cbn; eauto]. cbn [ok_or_bad].
  unfold evm_addr at 1. destruct (match hex_to_bytes _ with Ok b => _ | _ => _ end) as [to|] eqn:Et; [|cbn; eauto]. cbn [ok_or_bad].
  destruct (guard_polygon_mainnet _) as [[]|e|] eqn:Eg; cbn [refused_evm].
  - destruct (build_and_broadcast_usdc _ _ _ _ _ _) as [chain r] eqn:E. split; [done|]. exists key, to. unfold evm_addr. rewrite Et. split_and!; [done..|exact E].
  - eauto.
  - exfalso. revert Eg. unfold guard_polygon_mainnet. destruct (existsb _ _); discriminate.
Qed.
