(* ===== verification/NimRpc.v ===== *)
(** * NimRpc: the Nimiq JSON-RPC client ([rpc.rs], module [http])

    [HttpGatewayRpc] over any HTTP transport, as an instance of the [GatewayRpc] interface
    that the gateway, the NIM verifier, the live signers and the refunder run against; what the
    Albatross JSON-RPC documentation says of a node ([NimNode]), the client over any transport
    for which that holds, and a server in front of a ledger, which is one ([serve_nim]). *)

From stdpp Require Import base list strings.
From Stdlib Require Import ZArith Lia.
From S2P Require Import Prelude Packet Crypto SwapWire Address NimTx Gateway RequestUri NimHtlc SwapSession PolygonGateway EthNode LiveDoor.
Open Scope Z_scope.

(** [Value::as_u64] *)
Definition as_u64 (v : Json) : option Z :=
  match v with JNum n => if (0 <=? n) && (n <? 2 ^ 64) then Some n else None | _ => None end.

Record HttpGatewayRpc (N : Type) : Type := mkHttpGatewayRpc { hg_url : list Z; hg_agent : N }.
Arguments mkHttpGatewayRpc {N}.
Arguments hg_url {N}.
Arguments hg_agent {N}.

Section client.
Context {N : Type} `{P : HttpPost N} (json_text : Json -> list Z).

Definition http_gateway_new (url : str) (network : NetworkId) (agent : N) : res RpcError (HttpGatewayRpc N) :=
  let? _ := guard_testnet url network in Ok (mkHttpGatewayRpc url agent).

Definition http_gateway_new_mainnet (url : str) (agent : N) : res RpcError (HttpGatewayRpc N) :=
  let? _ := guard_mainnet url in Ok (mkHttpGatewayRpc url agent).

(** [expect] on the constructor *)
Definition testnet_default (agent : N) : res RpcError (HttpGatewayRpc N) :=
  match http_gateway_new DEFAULT_TESTNET_RPC_URL Testnet agent with Ok c => Ok c | _ => Panic end.

(** The answer of a node: the error object, or [result.data], or [result], or null *)
Definition unwrap_result (method : str) (value : Json) : res RpcError Json :=
  let result := jget (chars "result") value in
  let ok := Ok (match (match result with Some r => jget (chars "data") r | None => None end) with
                | Some d => d
                | None => match result with Some r => r | None => JNull end
                end) in
  match jget (chars "error") value with
  | Some err => if is_null err then ok else Err (Rpc method (json_text err))
  | None => ok
  end.

(** [HttpGatewayRpc::call] *)
Definition nim_call (c : HttpGatewayRpc N) (method : str) (params : Json) : HttpGatewayRpc N * res RpcError Json :=
  let '(agent, o) := http_post (hg_agent c) (hg_url c) (json_rpc_request method params 1) in
  (mkHttpGatewayRpc (hg_url c) agent,
   match o with
   | PostJson v => unwrap_result method v
   | PostBody e => Err (Transport e)
   | PostStatus status => Err (Http status method)
   | PostTransport e => Err (Transport e)
   end).

(** [as_u64().map(|n| n as u32)] of a field *)
Definition u32_field (k : str) (v : Json) : option Z := x ← jget k v; n ← as_u64 x; Some (wrapN 32 n).
Definition u64_field_or_0 (k : str) (v : Json) : Z := match (x ← jget k v; as_u64 x) with Some n => n | None => 0 end.

(** One typed call *)
Definition typed {A} (c : HttpGatewayRpc N) (method : str) (params : Json) (parse : Json -> res RpcError A)
  : HttpGatewayRpc N * res RpcError A :=
  let '(c, r) := nim_call c method params in (c, let? v := r in parse v).

Definition parse_block_height (v : Json) : res RpcError Z :=
  match as_u64 v with Some n => Ok (wrapN 32 n) | None => Err (BadResponse (chars "getBlockNumber")) end.

Definition parse_latest_block (v : Json) : res RpcError RpcHead :=
  match (height ← u32_field (chars "number") v;
         hash_hex ← str_field (chars "hash") v;
         b ← match hex_to_bytes (as_bytes hash_hex) with Ok b => Some b | _ => None end;
         hash ← try_array 32 b;
         Some (mkRpcHead height hash)) with
  | Some h => Ok h
  | None => Err (BadResponse (chars "getLatestBlock"))
  end.

Definition parse_account (v : Json) : res RpcError (option RpcAccount) :=
  if is_null v then Ok None else
  Ok (Some (mkRpcAccount (u64_field_or_0 (chars "balance") v)
              (match str_field (chars "type") v with Some t => t | None => chars "basic" end) (str_field (chars "address") v))).

Definition parse_sent (v : Json) : res RpcError (list Z) :=
  match as_str v with Some s => Ok s | None => Err (BadResponse (chars "sendRawTransaction")) end.

Definition parse_history_row (t : Json) : option RpcHistoryTx :=
  hash ← str_field (chars "hash") t;
  from ← str_field (chars "from") t;
  to ← str_field (chars "to") t;
  Some (mkRpcHistoryTx hash from to (u64_field_or_0 (chars "value") t) (u64_field_or_0 (chars "timestamp") t)
          (u32_field (chars "blockNumber") t)).

Definition parse_history (v : Json) : res RpcError (list RpcHistoryTx) :=
  match as_array v with Some arr => Ok (omap parse_history_row arr) | None => Err (BadResponse (chars "getTransactionsByAddress")) end.

Definition parse_transaction (v : Json) : res RpcError (option RpcTransaction) :=
  if is_null v then Ok None else
  Ok (Some (mkRpcTransaction (match str_field (chars "hash") v with Some h => h | None => [] end)
              (u32_field (chars "blockNumber") v) (u32_field (chars "confirmations") v))).

Definition http_gateway_rpc : GatewayRpc (HttpGatewayRpc N) := {|
  Gateway.block_number c := typed c (chars "getBlockNumber") (JArr []) parse_block_height;
  latest_block c := typed c (chars "getLatestBlock") (JArr [JBool false]) parse_latest_block;
  get_account c address := typed c (chars "getAccountByAddress") (JArr [JStr address]) parse_account;
  Gateway.send_raw_transaction c raw_hex := typed c (chars "sendRawTransaction") (JArr [JStr raw_hex]) parse_sent;
  get_transaction c hash := typed c (chars "getTransactionByHash") (JArr [JStr hash]) parse_transaction;
  get_transactions c address max := typed c (chars "getTransactionsByAddress") (JArr [JStr address; JNum max; JNull]) parse_history
|}.
End client.

(** ** A Nimiq node *)

(** What a node holds; a refusal is a message. *)
Class NimLedger (L : Type) : Type := {
  nd_head : L -> RpcHead;
  nd_account : L -> list Z -> list Z + RpcAccount;
  nd_send : L -> list Z -> L * (list Z + list Z);
  nd_transaction : L -> list Z -> list Z + RpcTransaction;
  nd_history : L -> list Z -> Z -> list Z + list RpcHistoryTx
}.

(** An answer: the payload under [result.data], and no error *)
Definition data_is (resp v : Json) : Prop :=
  (exists r, jget (chars "result") resp = Some r /\ jget (chars "data") r = Some v)
  /\ (jget (chars "error") resp = None \/ jget (chars "error") resp = Some JNull).

(** An optional field: absent, or null, when there is no value *)
Definition opt_doc {A} (show : A -> Json) (k : str) (o : option A) (v : Json) : Prop :=
  match o with Some n => jget k v = Some (show n) | None => jget k v = None \/ jget k v = Some JNull end.

(** The objects, by the fields they have; they may have others. *)
Definition head_doc (h : RpcHead) (v : Json) : Prop :=
  jget (chars "number") v = Some (JNum (rd_height h)) /\ jget (chars "hash") v = Some (JStr (bytes_to_hex (rd_hash h))).
Definition account_doc (a : RpcAccount) (v : Json) : Prop :=
  jget (chars "balance") v = Some (JNum (ra_balance a)) /\ jget (chars "type") v = Some (JStr (ra_account_type a))
  /\ opt_doc JStr (chars "address") (ra_address a) v.
Definition transaction_doc (t : RpcTransaction) (v : Json) : Prop :=
  jget (chars "hash") v = Some (JStr (rt_hash t)) /\ opt_doc JNum (chars "blockNumber") (rt_block_number t) v
  /\ opt_doc JNum (chars "confirmations") (rt_confirmations t) v.
Definition history_doc (t : RpcHistoryTx) (v : Json) : Prop :=
  jget (chars "hash") v = Some (JStr (rh_hash t)) /\ jget (chars "from") v = Some (JStr (rh_from t))
  /\ jget (chars "to") v = Some (JStr (rh_to t)) /\ jget (chars "value") v = Some (JNum (rh_value t))
  /\ jget (chars "timestamp") v = Some (JNum (rh_timestamp_ms t)) /\ opt_doc JNum (chars "blockNumber") (rh_block_number t) v.
Definition page_doc (rows : list RpcHistoryTx) (v : Json) : Prop := exists vs, v = JArr vs /\ Forall2 history_doc rows vs.

Section documented.
Context {N L : Type} `{P : HttpPost N} `{LD : NimLedger L} (url : list Z) (behind : N -> L).

(** The node in [n] answers with a document, or with an error object that has the message, and
    is in [n'] afterwards. *)
Definition nim_answers {A} (n : N) (req : Json) (n' : N) (doc : A -> Json -> Prop) (r : list Z + A) : Prop :=
  exists resp, http_post n url req = (n', PostJson resp)
    /\ match r with inr a => exists v, data_is resp v /\ doc a v | inl m => error_is resp m end.

Definition nim_reads {A} (n : N) (req : Json) (doc : A -> Json -> Prop) (r : list Z + A) : Prop :=
  exists n', nim_answers n req n' doc r /\ behind n' = behind n.

(** What the documentation says of each method the client uses, for every state of the node
    and every argument.  An account or a transaction the node cannot give is an error object. *)
Record NimNode : Prop := {
  nim_block_number : forall n req, asks req (chars "getBlockNumber") [] ->
    nim_reads n req (fun h v => v = JNum h) (inr (rd_height (nd_head (behind n))));
  nim_latest_block : forall n req body, asks req (chars "getLatestBlock") [JBool body] -> nim_reads n req head_doc (inr (nd_head (behind n)));
  nim_account : forall n req a, asks req (chars "getAccountByAddress") [JStr a] -> nim_reads n req account_doc (nd_account (behind n) a);
  nim_transaction : forall n req h, asks req (chars "getTransactionByHash") [JStr h] ->
    nim_reads n req transaction_doc (nd_transaction (behind n) h);
  nim_history : forall n req a max, asks req (chars "getTransactionsByAddress") [JStr a; JNum max; JNull] ->
    nim_reads n req page_doc (nd_history (behind n) a max);
  nim_send : forall n req raw, asks req (chars "sendRawTransaction") [JStr raw] ->
    exists n', nim_answers n req n' (fun h v => v = JStr h) (snd (nd_send (behind n) raw)) /\ behind n' = fst (nd_send (behind n) raw)
}.
End documented.
Arguments NimNode {N L P LD} url behind.

(** *** The parsers on the documents *)

Definition opt_u32 (o : option Z) : Prop := match o with Some n => uN 32 n | None => True end.
Definition history_ok (t : RpcHistoryTx) : Prop := uN 64 (rh_value t) /\ uN 64 (rh_timestamp_ms t) /\ opt_u32 (rh_block_number t).

Lemma as_u64_ok n : uN 64 n -> as_u64 (JNum n) = Some n.
Proof. intros [H1 H2]. cbn -[Z.pow]. by rewrite (proj2 (Z.leb_le _ _) H1), (proj2 (Z.ltb_lt _ _) H2). Qed.

Lemma u32_u64 n : uN 32 n -> uN 64 n /\ wrapN 32 n = n.
Proof. unfold uN, wrapN. intros. split; [lia|]. apply Z.mod_small. lia. Qed.

Lemma u32_field_num k v n : jget k v = Some (JNum n) -> uN 32 n -> u32_field k v = Some n.
Proof. intros E H. unfold u32_field. rewrite E. apply u32_u64 in H as [H1 H2]. cbn [mbind option_bind]. rewrite as_u64_ok by done. cbn. by rewrite H2. Qed.

Lemma u32_field_opt k v o : opt_doc JNum k o v -> opt_u32 o -> u32_field k v = o.
Proof. destruct o as [n|]; intros E H; [by apply u32_field_num|]. unfold u32_field. by destruct E as [-> | ->]. Qed.

Lemma u64_field_num k v n : jget k v = Some (JNum n) -> uN 64 n -> u64_field_or_0 k v = n.
Proof. intros E H. unfold u64_field_or_0. rewrite E. cbn [mbind option_bind]. by rewrite as_u64_ok. Qed.

Lemma str_field_opt k v o : opt_doc JStr k o v -> str_field k v = o.
Proof. unfold str_field. destruct o; [by intros ->|by intros [-> | ->]]. Qed.

Lemma str_field_str k v s : jget k v = Some (JStr s) -> str_field k v = Some s.
Proof. unfold str_field. by intros ->. Qed.

Lemma field_not_null k v x : jget k v = Some x -> is_null v = false.
Proof. by destruct v. Qed.

Lemma parse_height_doc n : uN 32 n -> parse_block_height (JNum n) = Ok n.
Proof. intros H. apply u32_u64 in H as [H1 H2]. unfold parse_block_height. by rewrite as_u64_ok, H2. Qed.

Lemma parse_latest_doc (h : RpcHead) v : uN 32 (rd_height h) -> array_ok 32 (rd_hash h) -> head_doc h v -> parse_latest_block v = Ok h.
Proof.
  intros Hn Ha [E1 E2]. pose proof (proj2 Ha) as Hb. unfold parse_latest_block.
  rewrite (u32_field_num _ _ _ E1 Hn), (str_field_str _ _ _ E2). cbn [mbind option_bind].
  rewrite as_bytes_ascii by (eapply Forall_impl; [by apply hex_ascii|]; cbn; lia).
  rewrite hex_roundtrip by done. cbn [mbind option_bind]. rewrite try_array_ok by done. cbn [mbind option_bind]. by destruct h.
Qed.

Lemma parse_account_doc (a : RpcAccount) v : uN 64 (ra_balance a) -> account_doc a v -> parse_account v = Ok (Some a).
Proof.
  intros H (E1 & E2 & E3). unfold parse_account.
  rewrite (field_not_null _ _ _ E1), (u64_field_num _ _ _ E1 H), (str_field_str _ _ _ E2), (str_field_opt _ _ _ E3). by destruct a.
Qed.

Lemma parse_transaction_doc (t : RpcTransaction) v : opt_u32 (rt_block_number t) -> opt_u32 (rt_confirmations t) -> transaction_doc t v ->
  parse_transaction v = Ok (Some t).
Proof.
  intros H1 H2 (E1 & E2 & E3). unfold parse_transaction.
  rewrite (field_not_null _ _ _ E1), (str_field_str _ _ _ E1), (u32_field_opt _ _ _ E2 H1), (u32_field_opt _ _ _ E3 H2). by destruct t.
Qed.

Lemma parse_row_doc (t : RpcHistoryTx) v : history_ok t -> history_doc t v -> parse_history_row v = Some t.
Proof.
  intros (H1 & H2 & H3) (E1 & E2 & E3 & E4 & E5 & E6). unfold parse_history_row.
  rewrite (str_field_str _ _ _ E1), (str_field_str _ _ _ E2), (str_field_str _ _ _ E3). cbn [mbind option_bind].
  rewrite (u64_field_num _ _ _ E4 H1), (u64_field_num _ _ _ E5 H2), (u32_field_opt _ _ _ E6 H3). by destruct t.
Qed.

Lemma parse_history_doc (rows : list RpcHistoryTx) v : Forall history_ok rows -> page_doc rows v -> parse_history v = Ok rows.
Proof.
  intros H (vs & -> & Hd). unfold parse_history. cbn [as_array]. f_equal.
  induction Hd as [|t v rows vs Ht Hd IH]; [done|]. apply Forall_cons in H as [H1 H]. cbn [omap list_omap]. by rewrite (parse_row_doc t v H1 Ht), IH.
Qed.

(** *** The client over such a node *)

Section exact.
Context {N L : Type} `{P : HttpPost N} `{LD : NimLedger L} (json_text : Json -> list Z) (behind : N -> L).

(** What a ledger reports is within the widths of the interface. *)
Record nim_ledger_ok (l : L) : Prop := mkNimLedgerOk {
  nk_head : uN 32 (rd_height (nd_head l)) /\ array_ok 32 (rd_hash (nd_head l));
  nk_account : forall a x, nd_account l a = inr x -> uN 64 (ra_balance x);
  nk_transaction : forall h x, nd_transaction l h = inr x -> opt_u32 (rt_block_number x) /\ opt_u32 (rt_confirmations x);
  nk_history : forall a m rows, nd_history l a m = inr rows -> Forall history_ok rows
}.

(** The client after a call that left the node in [n] *)
Definition nim_after (c : HttpGatewayRpc N) (n : N) : HttpGatewayRpc N := mkHttpGatewayRpc (hg_url c) n.

(** A call that left the node in [n']: the value, or the node's error object under the method's name *)
Definition nim_returns {A B} (c : HttpGatewayRpc N) (n' : N) (method : str) (view : A -> B) (r : list Z + A)
    (x : HttpGatewayRpc N * res RpcError B) : Prop :=
  match r with
  | inr a => x = (nim_after c n', Ok (view a))
  | inl m => exists err, jget (chars "message") err = Some (JStr m) /\ x = (nim_after c n', Err (Rpc method (json_text err)))
  end.

(** One that left the ledger as it was *)
Definition nim_queried {A B} (c : HttpGatewayRpc N) (method : str) (view : A -> B) (r : list Z + A) (x : HttpGatewayRpc N * res RpcError B) : Prop :=
  exists n', nim_returns c n' method view r x /\ behind n' = behind (hg_agent c).

Lemma unwrap_data method resp v : data_is resp v -> unwrap_result json_text method resp = Ok v.
Proof. intros ((r & E1 & E2) & E3). unfold unwrap_result. rewrite E1, E2. by destruct E3 as [-> | ->]. Qed.

Lemma unwrap_error method resp m : error_is resp m ->
  exists err, jget (chars "message") err = Some (JStr m) /\ unwrap_result json_text method resp = Err (Rpc method (json_text err)).
Proof.
  intros (err & He & Hm). exists err. split; [done|]. unfold unwrap_result. by rewrite He, (field_not_null _ _ _ Hm).
Qed.

Lemma typed_answers {A B} (c : HttpGatewayRpc N) n' method params (parse : Json -> res RpcError B) (doc : A -> Json -> Prop) (view : A -> B)
    (r : list Z + A) :
  nim_answers (hg_url c) (hg_agent c) (json_rpc_request method params 1) n' doc r ->
  (forall a v, r = inr a -> doc a v -> parse v = Ok (view a)) ->
  nim_returns c n' method view r (typed json_text c method params parse).
Proof.
  intros (resp & Hp & Hr) Hv. unfold typed, nim_call. rewrite Hp. destruct r as [m|a]; cbn [nim_returns].
  - destruct (unwrap_error method resp m Hr) as (err & Hm & ->). by exists err.
  - destruct Hr as (v & Hd & Hdoc). rewrite (unwrap_data method resp v Hd). by rewrite (Hv a v).
Qed.

Context (c : HttpGatewayRpc N) (Hnode : NimNode (hg_url c) behind).
Abbreviation l := (behind (hg_agent c)).

Lemma request_asks method params : asks (json_rpc_request method (JArr params) 1) method params.
Proof. by split_and!; [..|eexists]. Qed.

Lemma query_typed {A B} method params (parse : Json -> res RpcError B) (doc : A -> Json -> Prop) (view : A -> B) (r : list Z + A) :
  nim_reads (hg_url c) behind (hg_agent c) (json_rpc_request method (JArr params) 1) doc r ->
  (forall a v, r = inr a -> doc a v -> parse v = Ok (view a)) ->
  nim_queried c method view r (typed json_text c method (JArr params) parse).
Proof. intros (n' & Ha & Hb) Hv. exists n'. split; [|done]. by eapply typed_answers. Qed.

Lemma nim_height_call : uN 32 (rd_height (nd_head l)) ->
  nim_queried c (chars "getBlockNumber") id (inr (rd_height (nd_head l))) (Gateway.block_number (GatewayRpc := http_gateway_rpc json_text) c).
Proof.
  intros H. eapply query_typed; [apply (nim_block_number _ _ Hnode), request_asks|]. intros a v [= <-] ->. by apply parse_height_doc.
Qed.

Lemma nim_send_call raw : exists n',
  nim_returns c n' (chars "sendRawTransaction") id (snd (nd_send l raw)) (Gateway.send_raw_transaction (GatewayRpc := http_gateway_rpc json_text) c raw)
  /\ behind n' = fst (nd_send l raw).
Proof.
  destruct (nim_send _ _ Hnode (hg_agent c) _ raw (request_asks _ _)) as (n' & Ha & Hb). exists n'. split; [|done].
  eapply typed_answers; [exact Ha|]. by intros a v _ ->.
Qed.
End exact.
Arguments nim_ledger_ok {L LD} l.

(** *** A server in front of a ledger *)

Section node.
Context {L : Type} `{LD : NimLedger L}.

Definition data_response (v : Json) : Json :=
  JObj [(chars "jsonrpc", JStr (chars "2.0")); (chars "result", JObj [(chars "data", v); (chars "metadata", JNull)])].
Definition nim_error (message : str) : Json :=
  JObj [(chars "jsonrpc", JStr (chars "2.0")); (chars "error", JObj [(chars "code", JNum (-32603)); (chars "message", JStr message)])].
Definition nim_respond {A} (show : A -> Json) (r : list Z + A) : Json :=
  match r with inr v => data_response (show v) | inl m => nim_error m end.

Definition show_opt {A} (show : A -> Json) (o : option A) : Json := match o with Some n => show n | None => JNull end.
Definition show_head (h : RpcHead) : Json :=
  JObj [(chars "number", JNum (rd_height h)); (chars "hash", JStr (bytes_to_hex (rd_hash h)))].
Definition show_account (a : RpcAccount) : Json :=
  JObj [(chars "balance", JNum (ra_balance a)); (chars "type", JStr (ra_account_type a)); (chars "address", show_opt JStr (ra_address a))].
Definition show_transaction (t : RpcTransaction) : Json :=
  JObj [(chars "hash", JStr (rt_hash t)); (chars "blockNumber", show_opt JNum (rt_block_number t));
        (chars "confirmations", show_opt JNum (rt_confirmations t))].
Definition show_history (t : RpcHistoryTx) : Json :=
  JObj [(chars "hash", JStr (rh_hash t)); (chars "from", JStr (rh_from t)); (chars "to", JStr (rh_to t));
        (chars "value", JNum (rh_value t)); (chars "timestamp", JNum (rh_timestamp_ms t)); (chars "blockNumber", show_opt JNum (rh_block_number t))].

Definition serve_nim (l : L) (req : Json) : L * Json :=
  let named s := bool_decide (str_field (chars "method") req = Some (chars s)) in
  match p ← jget (chars "params") req; as_array p with
  | Some [] =>
      if named "getBlockNumber" then (l, data_response (JNum (rd_height (nd_head l)))) else (l, nim_error (chars "method not found"))
  | Some [JBool _] =>
      if named "getLatestBlock" then (l, data_response (show_head (nd_head l))) else (l, nim_error (chars "method not found"))
  | Some [JStr a] =>
      if named "getAccountByAddress" then (l, nim_respond show_account (nd_account l a))
      else if named "sendRawTransaction" then let '(l, r) := nd_send l a in (l, nim_respond JStr r)
      else if named "getTransactionByHash" then (l, nim_respond show_transaction (nd_transaction l a))
      else (l, nim_error (chars "method not found"))
  | Some [JStr a; JNum max; JNull] =>
      if named "getTransactionsByAddress" then (l, nim_respond (fun rows => JArr (map show_history rows)) (nd_history l a max))
      else (l, nim_error (chars "method not found"))
  | _ => (l, nim_error (chars "invalid request"))
  end.

#[export] Instance nim_node_post : HttpPost L := {| http_post l _ req := let '(l, v) := serve_nim l req in (l, PostJson v) |}.

Lemma serve_nim_asks l req method params : asks req method params ->
  serve_nim l req = serve_nim l (JObj [(chars "method", JStr method); (chars "params", JArr params)]).
Proof. intros (_ & Hm & Hp & _). unfold serve_nim, str_field. rewrite Hm, Hp. reflexivity. Qed.

Lemma show_opt_doc {A} (show : A -> Json) k o v : jget k v = Some (show_opt show o) -> opt_doc show k o v.
Proof. destruct o; cbn; auto. Qed.

Lemma serve_nim_documented url : NimNode url (@id L).
Proof.
  assert (Ha : forall A n req n' (doc : A -> Json -> Prop) (show : A -> Json) r, serve_nim n req = (n', nim_respond show r) ->
            (forall a, r = inr a -> doc a (show a)) -> nim_answers url n req n' doc r).
  { intros A n req n' doc show r E Hd. exists (nim_respond show r). cbn. rewrite E. split; [done|].
    destruct r as [m|a]; [by eexists|]. exists (show a). split; [|by apply Hd]. split; [by eexists|by left]. }
  assert (Hq : forall A n req (doc : A -> Json -> Prop) (show : A -> Json) r, serve_nim n req = (n, nim_respond show r) ->
            (forall a, r = inr a -> doc a (show a)) -> nim_reads url id n req doc r).
  { intros A n req doc show r E Hd. exists n. split; [|done]. by eapply Ha. }
  constructor.
  - intros n req H. apply (Hq _ _ _ _ JNum); [by rewrite (serve_nim_asks _ _ _ _ H)|done].
  - intros n req body H. apply (Hq _ _ _ _ show_head); [by rewrite (serve_nim_asks _ _ _ _ H)|done].
  - intros n req a H. apply (Hq _ _ _ _ show_account); [by rewrite (serve_nim_asks _ _ _ _ H)|].
    intros x _. split_and!; [done..|]. by apply show_opt_doc.
  - intros n req h H. apply (Hq _ _ _ _ show_transaction); [by rewrite (serve_nim_asks _ _ _ _ H)|].
    intros x _. split_and!; [done|by apply show_opt_doc..].
  - intros n req a max H. apply (Hq _ _ _ _ (fun rows => JArr (map show_history rows))); [by rewrite (serve_nim_asks _ _ _ _ H)|].
    intros rows _. exists (map show_history rows). split; [done|]. induction rows; constructor; [|done]. split_and!; [done..|]. by apply show_opt_doc.
  - intros n req raw H. exists (fst (nd_send n raw)). split; [|done]. apply (Ha _ _ _ _ _ JStr); [|done]. rewrite (serve_nim_asks _ _ _ _ H).
    change (serve_nim n _) with (let '(l, r) := nd_send n raw in (l, nim_respond JStr r)). unfold id. by destruct (nd_send n raw).
Qed.

(** Over this server, as equations *)
Lemma nim_send_exact (json_text : Json -> list Z) (c : HttpGatewayRpc L) raw_hex :
  exists text, Gateway.send_raw_transaction (GatewayRpc := http_gateway_rpc json_text) c raw_hex =
  (nim_after c (fst (nd_send (hg_agent c) raw_hex)),
   match snd (nd_send (hg_agent c) raw_hex) with inr h => Ok h | inl m => Err (Rpc (chars "sendRawTransaction") text) end).
Proof.
  destruct (nim_send_call json_text id c (serve_nim_documented _) raw_hex) as (n' & Hr & Hn). unfold id in *. rewrite <- Hn.
  destruct (snd (nd_send (hg_agent c) raw_hex)) as [m|h]; cbn [nim_returns] in Hr; [|by exists []].
  destruct Hr as (err & _ & ->). by eexists.
Qed.

Lemma nim_height_exact (json_text : Json -> list Z) (c : HttpGatewayRpc L) :
  nim_ledger_ok (hg_agent c) ->
  Gateway.block_number (GatewayRpc := http_gateway_rpc json_text) c = (nim_after c (hg_agent c), Ok (rd_height (nd_head (hg_agent c)))).
Proof.
  intros Hl. destruct (nim_height_call json_text id c (serve_nim_documented _)) as (n' & Hr & Hn); [apply Hl|]. unfold id in *. subst n'. exact Hr.
Qed.
End node.


(** A ledger of one account, which keeps what it is sent *)
Definition toy_nim_ledger : NimLedger (list (list Z)) := {|
  nd_head _ := mkRpcHead 4000000 (repeat 7 32);
  nd_account l a := inr (mkRpcAccount 250000 (chars "htlc") (Some a));
  nd_send l raw := (l ++ [raw], inr (chars "cafe"));
  nd_transaction l h := if bool_decide (l = []) then inl (chars "Transaction not found") else inr (mkRpcTransaction h (Some 3999999) None);
  nd_history _ a _ := inr [mkRpcHistoryTx (chars "cafe") a a 250000 1700000000000 None]
|}.

Lemma toy_nim_ledger_ok l : nim_ledger_ok (LD := toy_nim_ledger) l.
Proof.
  constructor.
  - split; [unfold uN; cbn; lia|split; [done|apply bytes_okb_ok; vm_compute; reflexivity]].
  - intros a x. cbn -[chars]. intros [= <-]. unfold uN. cbn. lia.
  - intros h x. cbn. case_bool_decide; [discriminate|]. intros [= <-]. unfold opt_u32, uN. cbn. lia.
  - intros a m rows. cbn -[chars]. intros [= <-]. rewrite Forall_singleton. unfold history_ok, opt_u32, uN. cbn. lia.
Qed.


(** ** Any transport *)

Lemma as_u64_range v n : as_u64 v = Some n -> uN 64 n.
Proof. destruct v; cbn -[Z.pow]; try discriminate. destruct (_ && _) eqn:E; [|discriminate]. intros [= <-]. bool_prop. unfold uN. lia. Qed.

Lemma u64_field_range k v : uN 64 (u64_field_or_0 k v).
Proof.
  unfold u64_field_or_0. destruct (x ← jget k v; as_u64 x) as [n|] eqn:E; [|unfold uN; lia].
  destruct (jget k v); [|discriminate]. by eapply as_u64_range.
Qed.

Lemma parse_row_ok t r : parse_history_row t = Some r -> row_ok r.
Proof.
  unfold parse_history_row. intros E.
  destruct (str_field (chars "hash") t); cbn [mbind option_bind] in E; [|discriminate].
  destruct (str_field (chars "from") t); cbn [mbind option_bind] in E; [|discriminate].
  destruct (str_field (chars "to") t); cbn [mbind option_bind] in E; [|discriminate].
  apply (f_equal (default r)) in E. cbn [default from_option id] in E. rewrite <- E. split; apply u64_field_range.
Qed.

(** Whatever a transport answers, the client keeps to the types of its interface, so what is
    proved over [RpcTyped] holds of it. *)
#[export] Instance http_rpc_typed {N} `{P : HttpPost N} (json_text : Json -> list Z) :
  @RpcTyped (HttpGatewayRpc N) (http_gateway_rpc json_text).
Proof.
  constructor; unfold http_gateway_rpc, Gateway.block_number, get_transactions, typed.
  - intros c c' h. destruct (nim_call _ _ _ _) as [c1 r]. intros [_ E]%pair_equal_spec. destruct r as [v| |]; try discriminate.
    revert E. cbv beta iota. unfold parse_block_height. destruct (as_u64 v) as [n|]; [|discriminate]. intros [= <-]. unfold uN, wrapN. apply Z.mod_pos_bound. lia.
  - intros c c' a m rows. destruct (nim_call _ _ _ _) as [c1 r]. intros [_ E]%pair_equal_spec. destruct r as [v| |]; try discriminate.
    revert E. cbv beta iota. unfold parse_history. destruct (as_array v) as [arr|]; [|discriminate]. intros [= <-].
    apply Forall_forall. intros x (t & Ht & Hx)%list_elem_of_omap. by eapply parse_row_ok.
Qed.

(** ** An answer without a result *)

(** A transport whose answers carry neither a result nor an error *)
Definition silent_post : HttpPost unit := {| http_post n _ _ := (n, PostJson (JObj [])) |}.

(** The account query reads a malformed answer as an absent account, and the refunder then
    reports the lock as resolved.  Over an endpoint that answers every request with an object
    that has no [result], whatever contract the lock names and whenever it is asked,
    [refund] answers [AlreadyResolved], on which the app forgets the lock; the block queries of
    the same client refuse the same answer. *)
Theorem empty_answer_resolves_lock `{Crypto} (json_text : Json -> list Z) (key : EnclaveKey) (url : list Z) (network : NetworkId)
    (now_ms : Z) (lock : FfiNimLock) (contract : bytes) :
  let rpc := http_gateway_rpc (P := silent_post) json_text in
  let c := mkHttpGatewayRpc url tt in
  from_user_friendly (nl_contract lock) = Ok contract ->
  snd (refund (RPC := rpc) (from_parts_on key c network now_ms) lock) = Ok AlreadyResolved
  /\ snd (Gateway.block_number (GatewayRpc := rpc) c) = Err (BadResponse (chars "getBlockNumber"))
  /\ snd (latest_block (GatewayRpc := rpc) c) = Err (BadResponse (chars "getLatestBlock"))
  /\ snd (get_transactions (GatewayRpc := rpc) c (nl_contract lock) 10) = Err (BadResponse (chars "getTransactionsByAddress")).
Proof.
  intros rpc c Hc. split; [|split_and!; reflexivity].
  unfold refund. rewrite Hc. reflexivity.
Qed.

Lemma empty_answer_resolves_lock_witness :
  let lock := mkNimLock (NQ ++ chars "95ARU6CQ8U38N8B8D6ESVQR12V0RAYV8D6") 250000 1700000000000 [] in
  snd (refund (C := ToyCrypto) (RPC := http_gateway_rpc (P := silent_post) (fun _ => []))
         (from_parts_on (mkEnclave (repeat 1 32) (fun _ => repeat 2 64)) (mkHttpGatewayRpc DEFAULT_TESTNET_RPC_URL tt) Testnet 1700000000001) lock) = Ok AlreadyResolved.
Proof.
  intros lock.
  apply (empty_answer_resolves_lock (H := ToyCrypto) (fun _ => []) (mkEnclave (repeat 1 32) (fun _ => repeat 2 64)) DEFAULT_TESTNET_RPC_URL Testnet 1700000000001 lock
           (match from_user_friendly (nl_contract lock) with Ok a => a | _ => [] end)).
  vm_compute. reflexivity.
Defined.
