(* ===== verification/NodeFfi.v ===== *)
(** * NodeFfi: what the app calls on a node ([node.rs], [gateway_ffi.rs] and the exported blocks of
    [chat.rs], [tx_history.rs], [swap_fast_tick.rs] and [lib.rs])

    A call on the [MeshNode] of [MockRadio] either puts one job into the worker's queue and
    returns, or touches or reads the shared context.  A method that changes the node returns it;
    a call that parses an address can panic where the parser does (see [Address]). *)

From stdpp Require Import base list gmap strings sets.
From Stdlib Require Import ZArith Lia.
From S2P Require Import Prelude Packet SwapWire SwapIntent Crypto FundingVerify SwapSession SwapNode Dedup Relay Beacon Settlement Balance Chat Address NimTx Gateway Engine MockRadio PolygonGateway NimRpc.
Open Scope Z_scope.

(** ** Small exports of the crate *)

(** [Ok] and [Err] of the parser; it does not panic on hex. *)
Definition verify_signed_tx_hex `{Crypto} (raw_hex : str) : bool :=
  match hex_to_bytes (as_bytes raw_hex) with Ok wire => verify_basic_wire wire | _ => false end.

Definition default_network : NetworkId := Testnet.
Definition network_wire_id (n : NetworkId) : Z := wire_id n.
Definition network_is_loop_safe (n : NetworkId) : bool := is_loop_safe n.
Definition echo_bytes (payload : bytes) : bytes := payload.

(** ** The provider seam ([provider.rs]): a radio and a gateway behind one handle *)

Inductive ProviderKind : Type := KindMock | KindReal.

Record MeshProvider (R G : Type) : Type := mkProvider { pv_kind : ProviderKind; pv_radio : R; pv_gateway : G }.
Arguments mkProvider {R G} _ _ _.
Arguments pv_kind {R G} _.
Arguments pv_radio {R G} _.
Arguments pv_gateway {R G} _.

Definition provider_mock {R G} (radio : R) (gateway : G) : MeshProvider R G := mkProvider KindMock radio gateway.
Definition provider_real {R G} : res MeshError (MeshProvider R G) := Err NotStarted.

Section calls.
Context {C : Crypto} {V : Type} {FV : FundingVerifier V} {S : Type} {SG : SwapSigner S}
  {G : Type} {MG : MeshGateway G} {CK : Clock}.

Abbreviation Nd := (@Node V S XorShiftRng G).
Abbreviation Mn := (@MeshNode V S G).

(** ** Constructors *)

(** [RelayPolicy::production]: the generator is seeded from the clock. *)
Definition policy_production (seed : Z) : RelayPolicy XorShiftRng := policy_custom (xorshift_seeded seed).

(** [build] without a live signer, whose gate is in [LiveDoor]; [seq] is the clock seed of the
    sequence numbers. *)
Definition build_node (sender_id : bytes) (radio : MockRadio) (gateway : option G) (policy : RelayPolicy XorShiftRng)
    (verify_before_relay : bool) (network : NetworkId) (seq : Z) : Mn :=
  mesh_node_new (node_new sender_id gateway policy verify_before_relay None None network seq) radio.

Definition new (sender_id : bytes) (radio : MockRadio) (seed seq : Z) : Mn :=
  build_node sender_id radio None (policy_production seed) true Testnet seq.

Definition new_on_network (sender_id : bytes) (radio : MockRadio) (network : NetworkId) (seed seq : Z) : Mn :=
  build_node sender_id radio None (policy_production seed) true network seq.

(** ** Callbacks of the radio *)

(** A job to the queue, if the node is not shut down *)
Definition enqueue_job (m : Mn) (j : Job) : Mn := node_event m (EvJob j).

Definition on_peer_connected (m : Mn) (peer_id : string) : Mn := node_event m (EvPeerConnected peer_id).
Definition on_peer_disconnected (m : Mn) (peer_id : string) : Mn := node_event m (EvPeerDisconnected peer_id).
Definition enqueue_inbound (m : Mn) (src : option string) (frame : bytes) : Mn := enqueue_job m (Inbound src frame).
Definition on_packet_received (m : Mn) (frame : bytes) : Mn := enqueue_inbound m None frame.
Definition on_packet_received_from (m : Mn) (peer_id : string) (frame : bytes) : Mn := enqueue_inbound m (Some peer_id) frame.
Definition on_send_result (m : Mn) (peer_id : string) (ok : bool) : Mn := node_event m (EvSendResult ok).

(** ** Payments *)

Definition submit_local_tx (m : Mn) (tx_wire : bytes) : Mn * bytes := (enqueue_job m (LocalTx tx_wire), mock_tx_id tx_wire).

Definition submit_signed_transfer (m : Mn) (signed_transfer : SignedTransfer) : Mn * bytes :=
  match signed_transfer_wire signed_transfer with
  | Ok wire => submit_local_tx m wire
  | _ => (m, [])
  end.

Abbreviation ctx m := (n_ctx (mn_node m)).

Definition payment_status_of (m : Mn) (tx_id : bytes) : PaymentStatus := ledger_status (c_ledger (ctx m)) (to_tx_id tx_id).
Definition settlement (m : Mn) (tx_id : bytes) : option Settlement := ledger_settlement (c_ledger (ctx m)) (to_tx_id tx_id).
Definition watch_incoming (m : Mn) (tx_id : bytes) : Mn := node_event m (EvWatchIncoming tx_id).

Definition head_height (m : Mn) : option Z := head_latest (c_head (ctx m)).

(** The head is read first: without one the recipient is not looked at. *)
Definition anchored_intent (m : Mn) (recipient : str) (value : Z) : option TransferIntent :=
  head ← head_height m; Some (mkTransferIntent recipient value head (c_network (ctx m))).

(** ** Polls *)

Definition request_sync (m : Mn) : Mn := enqueue_job m RequestSync.
Definition poll_sync (m : Mn) : Mn := enqueue_job m SyncTick.
Definition poll_beacon (m : Mn) : Mn := enqueue_job m BeaconTick.
Definition enqueue_swap_fast_tick (m : Mn) : Mn := enqueue_job m SwapFastTick.
Definition poll_swap_fast (m : Mn) : Mn := enqueue_swap_fast_tick m.
Definition stop_advertising (m : Mn) : Mn := enqueue_job m StopAdvertising.
Definition shutdown (m : Mn) : Mn := shutdown_node m.

(** ** Reads over the mesh *)

Definition query_balance (m : Mn) (address : str) : res unit Mn :=
  match from_user_friendly address with
  | Ok addr => Ok (enqueue_job m (BalanceQuery addr))
  | Err _ => Ok m
  | Panic => Panic
  end.

Definition cached_balance (m : Mn) (address : str) : res unit (option CachedBalance) :=
  match from_user_friendly address with
  | Ok addr => Ok (balance_get (c_balances (ctx m)) addr)
  | Err _ => Ok None
  | Panic => Panic
  end.

Definition enqueue_history_query (m : Mn) (address : bytes) : Mn := enqueue_job m (HistoryQuery address).

Definition query_tx_history (m : Mn) (address : str) : res unit Mn :=
  match from_user_friendly address with
  | Ok addr => Ok (enqueue_history_query m addr)
  | Err _ => Ok m
  | Panic => Panic
  end.

Record FfiTxRecord : Type := mkFfiTxRecord {
  fx_hash : str;
  fx_counterparty : str;
  fx_value_luna : Z;
  fx_timestamp_ms : Z;
  fx_incoming : bool;
  fx_confirmed : bool;
  fx_head_height : Z
}.

Definition ffi_record (head : Z) (r : TxHistoryRecord) : res unit FfiTxRecord :=
  match to_user_friendly (hr_counterparty r) with
  | Ok counterparty =>
      Ok (mkFfiTxRecord (bytes_to_hex (hr_hash r)) counterparty (hr_value r) (hr_timestamp_ms r) (incoming r) (confirmed r) head)
  | _ => Panic
  end.

Fixpoint ffi_records (head : Z) (rs : list TxHistoryRecord) : res unit (list FfiTxRecord) :=
  match rs with
  | [] => Ok []
  | r :: rs => let? x := ffi_record head r in let? xs := ffi_records head rs in Ok (x :: xs)
  end.

Definition cached_tx_history (m : Mn) (address : str) : res unit (list FfiTxRecord) :=
  match from_user_friendly address with
  | Ok addr => match history_get (c_history (ctx m)) addr with
               | Some resp => ffi_records (hs_head_height resp) (hs_records resp)
               | None => Ok []
               end
  | Err _ => Ok []
  | Panic => Panic
  end.

(** ** Status *)

Definition peer_count (m : Mn) : Z := wrapN 32 (Z.of_nat (size (c_peers (ctx m)))).

Definition reachability (m : Mn) : Reachability :=
  assess_reachability (match c_gateway (ctx m) with Some _ => true | None => false end) (peer_count m)
    (match head_height m with Some _ => true | None => false end).

Definition blocks_left (m : Mn) (valid_until : Z) : option Z := blocks_until_expiry (head_height m) (Some valid_until).
Definition secs_left (m : Mn) (valid_until : Z) : option Z := secs_until_expiry (head_height m) (Some valid_until).

Definition report_battery (m : Mn) (level_pct : Z) (charging : bool) : Mn := node_event m (EvBattery level_pct charging).

Record RelayStats : Type := mkRelayStats { rs_payments_relayed : Z; rs_packets_relayed : Z; rs_posture : RelayPosture }.

Definition relay_stats (m : Mn) : RelayStats :=
  mkRelayStats (cz_payments_relayed (c_citizen (ctx m))) (c_counters (ctx m) Forwarded) (posture (c_citizen (ctx m))).

(** ** Chat *)

(** The strings are given as their UTF-8 bytes. *)
Definition enqueue_chat (m : Mn) (payload : bytes) : Mn := enqueue_job m (ChatJob payload).

Definition send_chat (m : Mn) (nickname text : bytes) (timestamp_ms : Z) : Mn * bool :=
  match encode_chat nickname text timestamp_ms with
  | Some payload => (enqueue_chat m payload, true)
  | None => (m, false)
  end.

Record FfiChatMessage : Type := mkFfiChat { fc_id : str; fc_nickname : bytes; fc_text : bytes; fc_timestamp_ms : Z; fc_mine : bool }.

Definition chat_messages (m : Mn) : list FfiChatMessage :=
  map (fun e => mkFfiChat (bytes_to_hex (ch_sender e) ++ chars "-" ++ decimal (ch_seq e)) (ch_nickname e) (ch_text e) (ch_timestamp_ms e) (ch_mine e))
    (c_chat (ctx m)).
End calls.

(** ** The gateway's constructors, with the HTTP client ([gateway_ffi.rs]) *)

Inductive GatewayInitError : Type := GwUnsupported | GwRpc (reason : str).

Definition gateway_init_error_to_string (e : GatewayInitError) : str :=
  match e with
  | GwUnsupported => chars "gateway unsupported: core built without the gateway-rpc feature"
  | GwRpc reason => chars "gateway rpc refused: " ++ reason
  end.

Section gateway_ctors.
Context {C : Crypto} {V : Type} {FV : FundingVerifier V} {S : Type} {SG : SwapSigner S} {CK : Clock} {N : Type}.

Abbreviation Gw := (RpcGateway (HttpGatewayRpc N)).

(** [map_err] of the client's refusal *)
Definition gateway_rpc {A} (r : res RpcError A) : res GatewayInitError A :=
  match r with Ok a => Ok a | Err e => Err (GwRpc (rpc_error_to_string e)) | Panic => Panic end.

(** [gateway_rpc_feature] says whether the feature is compiled in; [agent] is the HTTP agent. *)
Definition new_gateway (gateway_rpc_feature : bool) (agent : N) (sender_id : bytes) (radio : MockRadio) (rpc_url : str) (seed seq : Z)
  : res GatewayInitError (@MeshNode V S Gw) :=
  if gateway_rpc_feature then
    let? rpc := gateway_rpc (http_gateway_new rpc_url Testnet agent) in
    Ok (build_node sender_id radio (Some (rpc_gateway_new rpc)) (policy_production seed) true Testnet seq)
  else Err GwUnsupported.

Definition new_gateway_mainnet (gateway_rpc_feature : bool) (agent : N) (sender_id : bytes) (radio : MockRadio) (rpc_url : str) (seed seq : Z)
  : res GatewayInitError (@MeshNode V S Gw) :=
  if gateway_rpc_feature then
    let? rpc := gateway_rpc (http_gateway_new_mainnet rpc_url agent) in
    Ok (build_node sender_id radio (Some (rpc_gateway_new_mainnet rpc)) (policy_production seed) true Mainnet seq)
  else Err GwUnsupported.
End gateway_ctors.
