(* ===== verification/Landing.v ===== *)
(** * Landing: from the app's signature to the ledger

    The parts together: a transfer anchored to the head the node has heard, signed by the app's
    key, submitted to its node, carried over a line of relays that check signatures, broadcast
    by a gateway over its HTTP client to the Nimiq node, and the receipt back at the payer. *)

From stdpp Require Import base list gmap strings sets relations.
From Stdlib Require Import ZArith Lia SpecFloat.
From S2P Require Import Prelude Packet Codec Envelope SwapWire SwapIntent Crypto FundingVerify SwapSession SwapNode Dedup Fragment Gcs Relay StoreForward Beacon Settlement Balance Chat Address NimTx Gateway Engine EngineLogic EngineProps Payment MockRadio Mesh MeshLine PolygonGateway NimRpc NodeFfi.
Open Scope Z_scope.

Lemma to_tx_id_whole b : len b = 32 -> to_tx_id b = b.
Proof.
  unfold len, to_tx_id, widen. intros H. rewrite take_ge by lia. replace (32 - length b)%nat with 0%nat by lia. apply app_nil_r.
Qed.

Section landing.
Context {C : Crypto} {CL : CryptoLaws C} {U : Unicode} {V : Type} {FV : FundingVerifier V} {S : Type} {SG : SwapSigner S} {CK : Clock}
  {L : Type} {LD : NimLedger L} (json_text : Json -> list Z).

#[local] Instance device_rpc : GatewayRpc (HttpGatewayRpc L) := http_gateway_rpc json_text.

Abbreviation Gw := (RpcGateway (HttpGatewayRpc L)).
Abbreviation Hs := (@MeshHarness V S Gw).

(** What the chain makes of a transaction that reaches the gateway: refused for its network,
    expired, or handed to the ledger, which takes it or does not. *)
Definition fate (l : L) (gateway_network network : Z) (valid_until : option Z) (wire : bytes) : L * ReceiptStatus :=
  if negb (network =? gateway_network) then (l, RFailed) else
  if is_expired (Some (rd_height (nd_head l))) valid_until then (l, RExpired) else
  let '(l, r) := nd_send l (bytes_to_hex wire) in (l, match r with inr _ => RAccepted | inl _ => RFailed end).

Definition device_gateway (url : list Z) (l : L) (network : Z) : Gw := mkRpcGateway (mkHttpGatewayRpc url l) network.

(** The gateway over the HTTP client makes of a submission what the chain makes of it. *)
Lemma gateway_fate url l gid (e : NimiqEnvelope) :
  nim_ledger_ok l ->
  let f := fate l gid (network_id e) (valid_until e) (tx_wire e) in
  submit_validated (device_gateway url l gid) (submission e) = (device_gateway url f.1 gid, Ok (mkReceipt (tx_id_of e) f.2)).
Proof.
  intros Hl f. unfold f, fate. cbn [submit_validated RpcGateway_gateway].
  unfold rpc_submit_validated. cbn [submission su_network_id su_tx_id su_valid_until su_tx_wire rg_network_id device_gateway].
  destruct (_ =? _); [|reflexivity]. cbn [negb].
  assert (Hw : window_open (device_gateway url l gid) (valid_until e)
    = (device_gateway url l gid, Ok (negb (is_expired (Some (rd_height (nd_head l))) (valid_until e))))).
  { unfold window_open. destruct (valid_until e) as [vu|]; [|reflexivity]. cbn [rg_rpc device_gateway].
    unfold device_rpc. by rewrite (nim_height_exact json_text (mkHttpGatewayRpc url l) Hl). }
  rewrite Hw. destruct (is_expired _ _); [reflexivity|]. cbn [negb rg_rpc device_gateway].
  unfold device_rpc. destruct (nim_send_exact json_text (mkHttpGatewayRpc url l) (bytes_to_hex (tx_wire e))) as (text & ->). cbn [hg_agent]. by destruct (nd_send l _) as [l' [m|h]].
Qed.

(** No node of the mesh takes the transaction's window for closed. *)
Definition heads_open (h : Hs) (valid_until : option Z) : Prop :=
  map_Forall (fun _ m => is_expired (head_height m) valid_until = false) (mh_nodes h).

Lemma heads_vetted h e : heads_open h (valid_until e) -> verify_basic_wire (tx_wire e) = true -> vetted h e.
Proof. intros Hh Hv p m Hm. constructor; [exact (Hh p m Hm)|done]. Qed.

Lemma anchored_head (m : @MeshNode V S Gw) addr value height network :
  anchored_intent m addr value = Some (mkTransferIntent addr value height network) ->
  head_latest (c_head (n_ctx (mn_node m))) = Some height /\ c_network (n_ctx (mn_node m)) = network.
Proof. unfold anchored_intent, head_height. destruct (head_latest _); cbn [mbind option_bind]; [|discriminate]. intros [= -> ->]. done. Qed.

Lemma status_of (m : @MeshNode V S Gw) wire s :
  c_ledger (n_ctx (mn_node m)) !! mock_tx_id wire = Some (mkSettlement s Outgoing) -> payment_status_of m (mock_tx_id wire) = s.
Proof.
  intros H. unfold payment_status_of, ledger_status. rewrite to_tx_id_whole by apply mock_tx_id_ok. by rewrite H.
Qed.

(** C8: a payment the app signs reaches the ledger over the mesh, as it was signed.  Whatever
    the key, recipient, amount and head: the transfer anchored to the head its node has heard is
    signed into a transaction of exactly that recipient, amount, head and network; and on a
    mesh where the node stands in a line of relays that check signatures with a gateway at its
    end, over the HTTP client to a Nimiq node, once the signed transfer is submitted, in every
    interleaving of the threads the mesh can come to rest, and whenever it is at rest: with at
    most six relays the gateway has made one submission, the ledger is the one that was handed
    the hex of exactly this transaction (if it is the ledger's network and its window is open;
    otherwise it is untouched), and the payer, asking under the id the call returned, reads
    settled if the ledger took it and failed if it did not; with more relays the ledger is
    untouched and the payer reads pending. *)
Theorem signed_payment_lands (secret to : bytes) (value height : Z) (network : NetworkId)
    (Hto : array_ok 20 to) (Hvalue : uN 64 value) (Hheight : uN 32 height) :
  exists addr s wire d,
    to_user_friendly to = Ok addr
    /\ sign_transfer (in_memory_key secret) (mkTransferIntent addr value height network) = Ok s
    /\ signed_transfer_wire s = Ok wire
    /\ decode_basic_wire wire = Ok (Some d)
    /\ d_transfer d = mkTransfer (address_of (ed25519_public secret)) to value 0 height (wire_id network)
    /\ forall (h0 : Hs) (a : string) (rs : list string) (g : string) ma ng url (l : L) gid es,
       anchored_intent ma addr value = Some (mkTransferIntent addr value height network) ->
       let '(m1, id) := submit_signed_transfer ma s in
       let h := put h0 a m1 in
       let h' := mesh_run h es in
       let f := fate l gid (wire_id network) (Some (sg_valid_until_height s)) wire in
       line h a rs g (mn_node ma) ng (device_gateway url l gid) wire ->
       heads_open h (Some (sg_valid_until_height s)) -> nim_ledger_ok l -> Forall internal es ->
       (exists es', Forall internal es' /\ quiescent (mesh_run h' es'))
       /\ (quiescent h' ->
           exists ma' mg, mh_nodes h' !! a = Some ma' /\ mh_nodes h' !! g = Some mg
             /\ if (length rs <=? 6)%nat
                then c_gateway (n_ctx (mn_node mg)) = Some (device_gateway url f.1 gid)
                     /\ (exists sub r, n_log (mn_node mg) = n_log ng ++ [Submit sub; Send (final a rs) r] /\ su_tx_wire sub = wire)
                     /\ payment_status_of ma' id = payment_status f.2
                else mn_node mg = ng /\ payment_status_of ma' id = Pending).
Proof.
  destruct (signed_transfer_relayable secret to value height network Hto Hvalue Hheight)
    as (addr & s & wire & H1 & H2 & H3 & Hlen & Hver & Hvu & d & Hd & Ht).
  exists addr, s, wire, d. split_and!; [done..|]. intros h0 a rs g ma ng url l gid es Hanch.
  destruct (anchored_head _ _ _ _ _ Hanch) as [Hhead Hnet].
  unfold submit_signed_transfer. rewrite H3. cbn [submit_local_tx]. intros Hline Hopen Hl Hes.
  set (h := put h0 a _) in *. set (na := mn_node ma) in *.
  assert (He : valid_until (own_envelope na wire) = Some (sg_valid_until_height s)).
  { cbn [own_envelope valid_until]. by rewrite Hhead, Hvu. }
  assert (Hn : network_id (own_envelope na wire) = wire_id network) by (cbn; by rewrite <- Hnet).
  pose proof (gateway_fate url l gid (own_envelope na wire) Hl) as Hf. rewrite He, Hn in Hf. cbn [tx_wire own_envelope] in Hf.
  destruct (line_payment h a rs g na ng _ wire _ Hline (heads_vetted h _ ltac:(by rewrite He) Hver) (f_equal snd Hf) es Hes) as [Hrest Hq].
  split; [exact Hrest|]. intros Hquiet. destruct (Hq Hquiet) as (ma' & mg & Ha & Hg & Hout). exists ma', mg. split_and!; [done..|].
  destruct (length rs <=? 6)%nat.
  - destruct Hout as ((r & Hlog) & Hgw & Hled). split_and!; [|by eexists _, r|by apply status_of].
    rewrite Hgw. f_equal. exact (f_equal fst Hf).
  - destruct Hout as (Hgn & Hled). split; [done|by apply status_of].
Qed.
End landing.

(** ** A concrete mesh: a phone, two relays and a gateway over a ledger of one account *)

Abbreviation DeviceGateway := (RpcGateway (HttpGatewayRpc (list (list Z)))).
Abbreviation DeviceMesh := (@MeshHarness LedgerVerifier (Recorder MockSigner) DeviceGateway).

#[local] Instance toy_ledger : NimLedger (list (list Z)) := toy_nim_ledger.
#[local] Instance toy_rpc : GatewayRpc (HttpGatewayRpc (list (list Z))) := device_rpc (fun _ => []).
#[local] Instance toy_unicode : Unicode := ascii_unicode.

(** A node whose cache has heard a head *)
Definition with_head (h : DeviceMesh) (peer : string) (height : Z) : DeviceMesh :=
  at_node h peer (fun m => with_node m (set_head (mkHeadCache 5 (Some (mkBeacon height (replicate 32 9) 5))) (mn_node m))).

Definition device_mesh : DeviceMesh :=
  let h := attach harness_new "phone" (new (replicate 8 1) (radio_new "phone") 11 100) in
  let h := attach h "r1" (new (replicate 8 3) (radio_new "r1") 12 300) in
  let h := attach h "r2" (new (replicate 8 4) (radio_new "r2") 13 400) in
  let h := match new_gateway true ([] : list (list Z)) (replicate 8 2) (radio_new "gateway") DEFAULT_TESTNET_RPC_URL 14 500 with
           | Ok m => attach h "gateway" m
           | _ => h
           end in
  let h := connect (connect (connect h "phone" "r1") "r1" "r2") "r2" "gateway" in
  with_head (with_head (with_head h "phone" 3999000) "r1" 3999500) "gateway" 4000000.

Definition device_at (h : DeviceMesh) (peer : string) : @MeshNode LedgerVerifier (Recorder MockSigner) DeviceGateway :=
  match mh_nodes h !! peer with Some m => m | None => new [] (radio_new peer) 0 0 end.

Lemma device_at_some h peer m : mh_nodes h !! peer = Some m -> device_at h peer = m.
Proof. unfold device_at. by intros ->. Qed.

Definition phone_transfer (addr : list Z) : TransferIntent := mkTransferIntent addr 250000 3999000 Testnet.

(** One interleaving, with steps that find nothing to do *)
Definition device_schedule : list (@MeshEvent LedgerVerifier) :=
  [MeDeliver; MeWork "r2"; MeWork "phone"; MeSend "phone"; MeWork "r1"; MeDeliver; MeWork "r1"; MeSend "r1"; MeDeliver; MeWork "r2"; MeSend "r2";
   MeDeliver; MeWork "gateway"; MeSend "gateway"; MeSend "gateway"; MeDeliver; MeWork "r2"; MeSend "r2"; MeDeliver; MeWork "r1"; MeSend "r1";
   MeDeliver; MeWork "phone"; MeSend "phone"].

Ltac concrete := first [discriminate | vm_compute; reflexivity | split; [vm_compute; reflexivity | apply bytes_okb_ok; vm_compute; reflexivity]
  | vm_compute; split; congruence].

Lemma device_idle (h : DeviceMesh) u :
  bool_decide (map_Forall (fun p (m : @MeshNode LedgerVerifier (Recorder MockSigner) DeviceGateway) =>
    p = u \/ ((length (mn_jobs m) = 0)%nat /\ mn_sent m = length (n_log (mn_node m)))) (mh_nodes h)) = true -> idle_but h u.
Proof.
  intros H%bool_decide_eq_true p m Hm Hne. destruct (H p m Hm) as [|[H1 H2]]; [contradiction|]. split; [by apply nil_length_inv|exact H2].
Qed.

Lemma device_quiescent (h : DeviceMesh) :
  bool_decide (length (me_queue (mh_ether h)) = 0%nat
    /\ map_Forall (fun _ (m : @MeshNode LedgerVerifier (Recorder MockSigner) DeviceGateway) =>
         (length (mn_jobs m) = 0)%nat /\ mn_sent m = length (n_log (mn_node m))) (mh_nodes h)) = true -> quiescent h.
Proof.
  intros [H1 H2]%bool_decide_eq_true. split; [by apply nil_length_inv|]. intros p m Hm. destruct (H2 p m Hm). split; [by apply nil_length_inv|done].
Qed.

Definition phone_signed : res SignError SignedTransfer :=
  match to_user_friendly (replicate 20 3) with
  | Ok addr => sign_transfer (in_memory_key (replicate 32 7)) (phone_transfer addr)
  | _ => Panic
  end.

Definition phone_wire : bytes :=
  match phone_signed with Ok s => match signed_transfer_wire s with Ok w => w | _ => [] end | _ => [] end.

Definition device_submitted : DeviceMesh := put device_mesh "phone" (enqueue_job (device_at device_mesh "phone") (LocalTx phone_wire)).

Lemma device_line :
  line device_submitted "phone" ["r1"; "r2"] "gateway" (mn_node (device_at device_mesh "phone")) (mn_node (device_at device_mesh "gateway"))
    (device_gateway DEFAULT_TESTNET_RPC_URL [] 5) phone_wire.
Proof.
  constructor.
  - done.
  - done.
  - intros p q _ _. vm_compute. intros H. inversion H.
  - eapply (bool_decide_unpack _). vm_compute. exact I.
  - apply device_idle. vm_compute. reflexivity.
  - vm_compute. reflexivity.
  - split; [exists (mn_node (device_at device_mesh "r1"))|split; [exists (mn_node (device_at device_mesh "r2"))|exact I]];
      (split; [vm_compute; reflexivity|]); constructor; try concrete; constructor; concrete.
  - vm_compute. reflexivity.
  - split; [apply bytes_okb_ok; vm_compute; reflexivity|by vm_compute].
  - constructor; concrete.
  - split; concrete.
  - assert (E : head_latest (c_head (n_ctx (mn_node (device_at device_mesh "phone")))) = Some 3999000) by (vm_compute; reflexivity).
    rewrite E. intros x [= <-]. unfold uN. lia.
  - concrete.
  - split; concrete.
  - constructor; concrete.
  - split; concrete.
  - concrete.
  - concrete.
  - concrete.
  - concrete.
  - concrete.
Qed.

Lemma signed_payment_lands_witness :
  let h' := mesh_run device_submitted device_schedule in
  c_gateway (n_ctx (mn_node (device_at h' "gateway"))) = Some (device_gateway DEFAULT_TESTNET_RPC_URL [bytes_to_hex phone_wire] 5)
  /\ payment_status_of (device_at h' "phone") (mock_tx_id phone_wire) = Settled.
Proof.
  intros h'.
  assert (Ha : array_ok 20 (replicate 20 3)) by (split; [reflexivity | apply bytes_okb_ok; reflexivity]).
  assert (Hv : uN 64 250000) by (unfold uN; lia). assert (Hh : uN 32 3999000) by (unfold uN; lia).
  destruct (signed_payment_lands (V := LedgerVerifier) (S := Recorder MockSigner) (fun _ => []) (replicate 32 7) (replicate 20 3) 250000 3999000 Testnet Ha Hv Hh)
    as (addr & s & wire & d & H1 & H2 & H3 & _ & _ & H).
  assert (Es : phone_signed = Ok s) by (unfold phone_signed; rewrite H1; exact H2).
  assert (Ew : wire = phone_wire) by (unfold phone_wire; by rewrite Es, H3).
  assert (Evu : sg_valid_until_height s = 4006200).
  { assert (E : match phone_signed with Ok s => sg_valid_until_height s | _ => 0 end = 4006200) by (vm_compute; reflexivity).
    rewrite Es in E. exact E. }
  specialize (H device_mesh "phone" ["r1"; "r2"] "gateway" (device_at device_mesh "phone") (mn_node (device_at device_mesh "gateway"))
    DEFAULT_TESTNET_RPC_URL [] 5 device_schedule).
  assert (Hanch : anchored_intent (device_at device_mesh "phone") addr 250000 = Some (phone_transfer addr)) by reflexivity.
  specialize (H Hanch). unfold submit_signed_transfer in H. rewrite H3, Ew, Evu in H. cbn [submit_local_tx] in H.
  destruct H as [_ H].
  - exact device_line.
  - eapply (bool_decide_unpack _). vm_compute. exact I.
  - exact (toy_nim_ledger_ok _).
  - repeat constructor.
  - destruct H as (ma & mg & Hma & Hmg & Hgw & _ & Hst); [apply device_quiescent; vm_compute; reflexivity|].
    split; [rewrite (device_at_some _ _ _ Hmg : device_at h' "gateway" = mg), Hgw; vm_compute; reflexivity|].
    rewrite (device_at_some _ _ _ Hma : device_at h' "phone" = ma), Hst. vm_compute. reflexivity.
Defined.
