(* ===== verification/SwapFfi.v ===== *)
(** * SwapFfi: the app's handle on a NIM/BTC swap ([swap_ffi.rs])

    The facade over [SwapEngine]: inputs are parsed and measured, the engine is behind a mutex
    that a panic inside a call would poison, and its errors are flattened to text.  The text
    parsers of the [bitcoin] crate are parameters. *)

From stdpp Require Import base list strings sets.
From Stdlib Require Import ZArith Lia.
From S2P Require Import Prelude Packet Crypto SwapWire Swap SwapIntent FundingVerify Address SwapSession NimTx Gateway NimHtlc SwapBuilder BtcHtlc SwapEngine.
Open Scope Z_scope.

(** ** Types of the boundary *)

Inductive FfiBtcNetwork : Type := FfiTestnet | FfiSignet.

Definition btc_network_of (n : FfiBtcNetwork) : BtcNetwork := match n with FfiTestnet => BtcTestnet | FfiSignet => BtcSignet end.

Record FfiLadder : Type := mkFfiLadder { fl_delta_safe_ms : Z; fl_min_window_ms : Z }.

Definition ladder_of (l : FfiLadder) : LadderParams := mkLadder (fl_delta_safe_ms l) (fl_min_window_ms l).

Inductive FfiLeg : Type := FfiNim | FfiCounterparty.

Definition ffi_leg (l : SwapLegId) : FfiLeg := match l with LegNim => FfiNim | LegCounterparty => FfiCounterparty end.

Inductive FfiSwapRole : Type := FfiInitiator | FfiResponder.

Definition ffi_role (r : SwapRole) : FfiSwapRole := match r with Initiator => FfiInitiator | Responder => FfiResponder end.

Inductive FfiSwapEffect : Type :=
| FfiBroadcast (leg : FfiLeg) (tx : bytes)
| FfiFundBtcAddress (address : str) (amount_sat : Z).

Definition ffi_effect (e : SwapEffect) : FfiSwapEffect :=
  match e with
  | EffBroadcast leg tx => FfiBroadcast (ffi_leg leg) tx
  | FundBtcAddress address amount_sat => FfiFundBtcAddress address amount_sat
  end.

Inductive FfiSwapPhase : Type :=
| FpProposed | FpAccepted | FpInitiatorFunded | FpSelfFunded | FpBothFunded | FpRevealed | FpSettled | FpAborted | FpRefunded | FpLost.

Definition ffi_phase (p : SwapPhase) : FfiSwapPhase :=
  match p with
  | Proposed => FpProposed | Accepted => FpAccepted | InitiatorFunded => FpInitiatorFunded | SelfFunded => FpSelfFunded
  | BothFunded => FpBothFunded | Revealed => FpRevealed | Settled => FpSettled | Aborted => FpAborted
  | Refunded => FpRefunded | Lost => FpLost
  end.

Record FfiSwapParams : Type := mkFfiSwapParams {
  sp_nim_timeout_ms : Z;
  sp_counterparty_timeout_ms : Z;
  sp_hashlock : bytes;
  sp_claimant_btc_pubkey : bytes;
  sp_funder_btc_pubkey : bytes;
  sp_network : FfiBtcNetwork;
  sp_btc_payout_address : str;
  sp_btc_fee_sat : Z;
  sp_nim_amount : Z;
  sp_btc_amount_sat : Z;
  sp_counterparty_nim_address : bytes
}.

(** ** Errors as text *)

(** [{:?}] of the enums in the messages *)
Definition phase_debug (p : SwapPhase) : str :=
  match p with
  | Proposed => chars "Proposed" | Accepted => chars "Accepted" | InitiatorFunded => chars "InitiatorFunded" | SelfFunded => chars "SelfFunded"
  | BothFunded => chars "BothFunded" | Revealed => chars "Revealed" | Settled => chars "Settled" | Aborted => chars "Aborted"
  | Refunded => chars "Refunded" | Lost => chars "Lost"
  end.

Definition have_need (variant : string) (have need : Z) : str :=
  chars variant ++ chars " { have: " ++ decimal have ++ chars ", need: " ++ decimal need ++ chars " }".

Definition ladder_debug (v : LadderVerdict) : str :=
  match v with
  | LadderSafe => chars "Safe"
  | Inverted => chars "Inverted"
  | MarginTooThin h n => have_need "MarginTooThin" h n
  | WindowTooShort h n => have_need "WindowTooShort" h n
  end.

Definition reveal_debug (v : RevealVerdict) : str :=
  match v with RevealSafe => chars "Safe" | DeadlineTooClose h n => have_need "DeadlineTooClose" h n end.

Definition rejected_debug (r : FundingRejected) : str :=
  match r with
  | NotFundedYet => chars "NotFundedYet"
  | TooShallow h n => have_need "TooShallow" h n
  | Underfunded h n => have_need "Underfunded" h n
  | TimeoutTooShort h n => have_need "TimeoutTooShort" h n
  | RejMismatch MmHashlock => chars "Mismatch(Hashlock)"
  | RejMismatch MmRecipient => chars "Mismatch(Recipient)"
  end.

(** The double quote; the names of actions need no escape. *)
Definition quoted (s : str) : str := [34] ++ s ++ [34].

Definition swap_error_to_string (e : SwapError) : str :=
  match e with
  | IllegalTransition from action => chars "illegal swap action " ++ quoted (chars action) ++ chars " from phase " ++ phase_debug from
  | UnsafeLadder v => chars "refusing to fund: unsafe timelock ladder (" ++ ladder_debug v ++ chars ")"
  | RevealTooLate v => chars "refusing to reveal: past the reveal deadline (" ++ reveal_debug v ++ chars ")"
  | TimeoutNotReached timeout head => chars "refund not yet allowed: timeout " ++ decimal timeout ++ chars " > head " ++ decimal head
  end.

Definition leg_error_to_string (e : LegBuildError) : str :=
  match e with
  | Gated chain needs => chars chain ++ chars " leg is gated (needs:owner): " ++ chars needs
  | BadField reason => chars "bad field: " ++ chars reason
  | LegBadKeyMaterial => chars "enclave returned wrong-length key material"
  end.

Definition btc_error_to_string (e : BtcError) : str :=
  match e with
  | BtcBadKey => chars "invalid secp256k1 secret key"
  | BtcBadLocktime => chars "CLTV locktime does not fit a u32"
  | BtcSighash => chars "could not compute the BIP143 sighash"
  | BtcBadSignature => chars "key seam returned an unparseable signature"
  | FeeExceedsValue => chars "fee exceeds the funded value"
  | DustOutput have min => chars "payout " ++ decimal have ++ chars " sat is below the dust limit " ++ decimal min ++ chars " sat"
  end.

Definition engine_error_to_string (e : EngineError) : str :=
  match e with
  | EngSwap e => chars "swap state machine: " ++ swap_error_to_string e
  | EngNimLeg e => chars "nim leg: " ++ leg_error_to_string e
  | EngBtcLeg e => chars "btc leg: " ++ btc_error_to_string e
  | MissingInput what => chars "missing input: " ++ chars what
  | BadPreimage => chars "revealed preimage does not match the hashlock"
  | FundingUnverified r => chars "counterparty funding unverified: " ++ rejected_debug r
  end.

Inductive SwapEngineError : Type := Rejected (reason : str) | BadInput (reason : str).

Definition swap_engine_error_to_string (e : SwapEngineError) : str :=
  match e with
  | Rejected reason => chars "swap rejected: " ++ reason
  | BadInput reason => chars "bad input: " ++ reason
  end.

Definition from_engine_error (e : EngineError) : SwapEngineError := Rejected (engine_error_to_string e).

(** ** Inputs *)

Definition fixed (n : nat) (v : bytes) (what : string) : res SwapEngineError bytes :=
  match try_array n v with
  | Some b => Ok b
  | None => Err (BadInput (chars what ++ chars " must be " ++ decimal (Z.of_nat n) ++ chars " bytes, got " ++ decimal (len v)))
  end.

(** [i64::try_from(..).unwrap_or(i64::MAX)] of [div_ceil] *)
Definition cltv_seconds_from_ms (timeout_ms : Z) : Z :=
  let s := (timeout_ms + 999) / 1000 in if s <? 2 ^ 63 then s else 2 ^ 63 - 1.

(** [{network:?}] *)
Definition btc_network_debug (n : BtcNetwork) : str :=
  match n with BtcMainnet => chars "Bitcoin" | BtcTestnet => chars "Testnet" | BtcSignet => chars "Signet" | BtcRegtest => chars "Regtest" end.

(** The parsers of the crate; an error is its text. *)
Class BitcoinText : Type := {
  UncheckedAddress : Type;
  txid_from_str : str -> str + bytes;
  address_from_str : str -> str + UncheckedAddress;
  (** [require_network], then [script_pubkey] of the address *)
  require_network : UncheckedAddress -> BtcNetwork -> str + bytes
}.

(** The handle: [lock().expect(..)] panics once a call has panicked with the lock held. *)
Record SwapEngineHandle : Type := mkHandle { sh_inner : SwapEngine; sh_poisoned : bool }.

Section handle.
Context `{C : Crypto} `{B : BitcoinLib} `{T : BitcoinText}.

Definition parse_funded (txid : str) (vout value_sat : Z) : res SwapEngineError FundedHtlc :=
  match txid_from_str txid with
  | inr t => Ok (mkFunded t vout value_sat)
  | inl e => Err (BadInput (chars "bad txid: " ++ e))
  end.

Definition parse_payout (address : str) (network : BtcNetwork) : res SwapEngineError bytes :=
  match address_from_str address with
  | inl e => Err (BadInput (chars "bad BTC payout address: " ++ e))
  | inr a => match require_network a network with
             | inr spk => Ok spk
             | inl e => Err (BadInput (chars "payout address not valid on " ++ btc_network_debug network ++ chars ": " ++ e))
             end
  end.

Definition build_config (params : FfiSwapParams) (nim_key : EnclaveKey) (btc_key : BtcEnclaveKey) : res SwapEngineError SwapConfig :=
  let network := btc_network_of (sp_network params) in
  let? payout := parse_payout (sp_btc_payout_address params) network in
  let? hashlock := fixed 32 (sp_hashlock params) "hashlock" in
  let? claimant := fixed 33 (sp_claimant_btc_pubkey params) "claimant pubkey" in
  let? funder := fixed 33 (sp_funder_btc_pubkey params) "funder pubkey" in
  let btc := btc_leg_new hashlock claimant funder (cltv_seconds_from_ms (sp_counterparty_timeout_ms params)) network btc_key payout (sp_btc_fee_sat params) in
  Ok (mkSwapConfig (mkTerms (sp_nim_timeout_ms params) (sp_counterparty_timeout_ms params)) (nimiq_leg_new nim_key) btc
        (sp_nim_amount params) (sp_btc_amount_sat params) (sp_counterparty_nim_address params)).

Definition handle_new_initiator (params : FfiSwapParams) (nim_key : EnclaveKey) (btc_key : BtcEnclaveKey) (secret : bytes)
  : res SwapEngineError SwapEngineHandle :=
  let? secret := fixed 32 secret "secret" in
  let? config := build_config params nim_key btc_key in
  Ok (mkHandle (new_initiator config secret) false).

Definition handle_new_responder (params : FfiSwapParams) (nim_key : EnclaveKey) (btc_key : BtcEnclaveKey)
  : res SwapEngineError SwapEngineHandle :=
  let? config := build_config params nim_key btc_key in
  Ok (mkHandle (new_responder config) false).

(** ** Calls *)

(** A call with the lock held *)
Definition locked {A X} (h : SwapEngineHandle) (f : SwapEngine -> SwapEngine * res EngineError A) (into : A -> X)
  : SwapEngineHandle * res SwapEngineError X :=
  if sh_poisoned h then (h, Panic) else
  let '(e, r) := f (sh_inner h) in
  match r with
  | Ok a => (mkHandle e false, Ok (into a))
  | Err er => (mkHandle e false, Err (from_engine_error er))
  | Panic => (mkHandle e true, Panic)
  end.

(** A read with the lock held *)
Definition reading {X} (h : SwapEngineHandle) (f : SwapEngine -> X) : res SwapEngineError X :=
  if sh_poisoned h then Panic else Ok (f (sh_inner h)).

Definition handle_phase (h : SwapEngineHandle) : res SwapEngineError FfiSwapPhase := reading h (fun e => ffi_phase (engine_phase e)).
Definition handle_role (h : SwapEngineHandle) : res SwapEngineError FfiSwapRole := reading h (fun e => ffi_role (engine_role e)).
Definition handle_hashlock (h : SwapEngineHandle) : res SwapEngineError bytes := reading h engine_hashlock.
Definition handle_btc_htlc_address (h : SwapEngineHandle) : res SwapEngineError str := reading h btc_htlc_address.

Definition handle_accept (h : SwapEngineHandle) (head_ms : Z) (ladder : FfiLadder) :=
  locked h (fun e => engine_accept e head_ms (ladder_of ladder)) id.

Definition handle_observe_initiator_funded (h : SwapEngineHandle) (nim_funding_wire : bytes)
    (observed_amount observed_timeout confirmations min_confirmations : Z) :=
  locked h (fun e => engine_observe_initiator_funded e nim_funding_wire (Found observed_amount observed_timeout confirmations) min_confirmations) id.

Definition handle_fund (h : SwapEngineHandle) (head_ms : Z) (ladder : FfiLadder) (vsh : Z) :=
  locked h (fun e => engine_fund e head_ms (ladder_of ladder) vsh) ffi_effect.

(** [?] of the parser, before the lock is taken *)
Definition parsed {A X} (h : SwapEngineHandle) (r : res SwapEngineError A) (k : A -> SwapEngineHandle * res SwapEngineError X) :=
  match r with Ok a => k a | Err e => (h, Err e) | Panic => (h, Panic) end.

Definition handle_observe_btc_funded (h : SwapEngineHandle) (txid : str) (vout value_sat observed_timeout confirmations min_confirmations : Z) :=
  parsed h (parse_funded txid vout value_sat) (fun funded =>
    locked h (fun e => observe_btc_funded e funded (Found value_sat observed_timeout confirmations) min_confirmations) id).

Definition handle_observe_nim_funded (h : SwapEngineHandle) (txid : str) (vout value_sat : Z) :=
  parsed h (parse_funded txid vout value_sat) (fun funded => locked h (fun e => observe_nim_funded e funded) id).

Definition handle_reveal_and_claim_btc (h : SwapEngineHandle) (head_ms : Z) (ladder : FfiLadder) :=
  locked h (fun e => reveal_and_claim_btc e head_ms (ladder_of ladder)) ffi_effect.

Definition handle_claim_nim_from_btc_claim (h : SwapEngineHandle) (btc_claim_tx : bytes) (vsh : Z) :=
  locked h (fun e => claim_nim_from_btc_claim e btc_claim_tx vsh) ffi_effect.

Definition handle_observe_settled (h : SwapEngineHandle) := locked h engine_observe_settled id.
Definition handle_abort (h : SwapEngineHandle) := locked h engine_abort id.
Definition handle_refund (h : SwapEngineHandle) (head_ms vsh : Z) := locked h (fun e => engine_refund e head_ms vsh) ffi_effect.
End handle.

(** ** Any sequence of calls *)

Inductive FfiCall : Type :=
| FcAccept (head_ms : Z) (ladder : FfiLadder)
| FcObserveInitiatorFunded (wire : bytes) (amount timeout confirmations min_confirmations : Z)
| FcFund (head_ms : Z) (ladder : FfiLadder) (vsh : Z)
| FcObserveBtcFunded (txid : str) (vout value_sat timeout confirmations min_confirmations : Z)
| FcObserveNimFunded (txid : str) (vout value_sat : Z)
| FcReveal (head_ms : Z) (ladder : FfiLadder)
| FcClaimNim (btc_claim_tx : bytes) (vsh : Z)
| FcSettled
| FcAbort
| FcRefund (head_ms vsh : Z).

Section calls.
Context `{C : Crypto} `{B : BitcoinLib} `{T : BitcoinText}.

Definition plain (r : SwapEngineHandle * res SwapEngineError unit) : SwapEngineHandle * res SwapEngineError (option FfiSwapEffect) :=
  (r.1, let? _ := r.2 in Ok None).
Definition effect (r : SwapEngineHandle * res SwapEngineError FfiSwapEffect) : SwapEngineHandle * res SwapEngineError (option FfiSwapEffect) :=
  (r.1, let? x := r.2 in Ok (Some x)).

Definition handle_call (h : SwapEngineHandle) (c : FfiCall) : SwapEngineHandle * res SwapEngineError (option FfiSwapEffect) :=
  match c with
  | FcAccept head l => plain (handle_accept h head l)
  | FcObserveInitiatorFunded w a t k n => plain (handle_observe_initiator_funded h w a t k n)
  | FcFund head l vsh => effect (handle_fund h head l vsh)
  | FcObserveBtcFunded txid vout v t k n => plain (handle_observe_btc_funded h txid vout v t k n)
  | FcObserveNimFunded txid vout v => plain (handle_observe_nim_funded h txid vout v)
  | FcReveal head l => effect (handle_reveal_and_claim_btc h head l)
  | FcClaimNim tx vsh => effect (handle_claim_nim_from_btc_claim h tx vsh)
  | FcSettled => plain (handle_observe_settled h)
  | FcAbort => plain (handle_abort h)
  | FcRefund head vsh => effect (handle_refund h head vsh)
  end.

Abbreviation Log := (list (FfiCall * res SwapEngineError (option FfiSwapEffect))).

Inductive handle_calls (h0 : SwapEngineHandle) : Log -> SwapEngineHandle -> Prop :=
| hc_nil : handle_calls h0 [] h0
| hc_snoc log h c : handle_calls h0 log h -> handle_calls h0 (log ++ [(c, (handle_call h c).2)]) (handle_call h c).1.

(** The engine's call behind a call of the app; [None] when the input does not parse *)
Definition op_of (c : FfiCall) : option EngineOp :=
  match c with
  | FcAccept head _ => Some (OAccept head)
  | FcObserveInitiatorFunded w a t k n => Some (OObserveInitiatorFunded w (Found a t k) n)
  | FcFund head _ vsh => Some (OFund head vsh)
  | FcObserveBtcFunded txid vout v t k n =>
      match txid_from_str txid with inr x => Some (OObserveBtcFunded (mkFunded x vout v) (Found v t k) n) | inl _ => None end
  | FcObserveNimFunded txid vout v => match txid_from_str txid with inr x => Some (OObserveNimFunded (mkFunded x vout v)) | inl _ => None end
  | FcReveal head _ => Some (OReveal head)
  | FcClaimNim tx vsh => Some (OClaimNim tx vsh)
  | FcSettled => Some OSettled
  | FcAbort => Some OAbort
  | FcRefund head vsh => Some (ORefund head vsh)
  end.

(** The ladder a call is given; the other calls need none *)
Definition call_ladder (c : FfiCall) : LadderParams :=
  match c with FcAccept _ l | FcFund _ l _ | FcReveal _ l => ladder_of l | _ => mkLadder 0 0 end.

Definition ffi_result (r : res EngineError (option SwapEffect)) : res SwapEngineError (option FfiSwapEffect) :=
  match r with Ok o => Ok (ffi_effect <$> o) | Err e => Err (from_engine_error e) | Panic => Panic end.

Lemma locked_no_effect e (f : SwapEngine -> SwapEngine * res EngineError unit) :
  (f e).2 <> Panic ->
  plain (locked (mkHandle e false) f id) = (mkHandle (no_effect (A := SwapEffect) (f e)).1 false, ffi_result (no_effect (f e)).2).
Proof. unfold plain, locked, no_effect. cbn [sh_poisoned sh_inner]. destruct (f e) as [e' [[]| |]]; cbn; congruence. Qed.

Lemma locked_effect e (f : SwapEngine -> SwapEngine * res EngineError SwapEffect) :
  (f e).2 <> Panic ->
  effect (locked (mkHandle e false) f ffi_effect) = (mkHandle (an_effect (f e)).1 false, ffi_result (an_effect (f e)).2).
Proof. unfold effect, locked, an_effect. cbn [sh_poisoned sh_inner]. destruct (f e) as [e' [x| |]]; cbn; congruence. Qed.

Lemma an_effect_total {A} (r : SwapEngine * res EngineError A) : (an_effect r).2 <> Panic -> r.2 <> Panic.
Proof. unfold an_effect. by destruct r as [e [| |]]. Qed.
Lemma no_effect_total (r : SwapEngine * res EngineError unit) : (no_effect (A := SwapEffect) r).2 <> Panic -> r.2 <> Panic.
Proof. unfold no_effect. by destruct r as [e [| |]]. Qed.

(** A call is the engine's call with the ladder it was given, its errors as text; a call whose
    input does not parse changes nothing; none panics. *)
Lemma handle_call_spec e c :
  handle_call (mkHandle e false) c =
  match op_of c with
  | Some o => let r := engine_call (call_ladder c) e o in (mkHandle r.1 false, ffi_result r.2)
  | None => (mkHandle e false, (handle_call (mkHandle e false) c).2)
  end
  /\ (handle_call (mkHandle e false) c).2 <> Panic.
Proof.
  assert (H : handle_call (mkHandle e false) c =
    match op_of c with
    | Some o => let r := engine_call (call_ladder c) e o in (mkHandle r.1 false, ffi_result r.2)
    | None => (mkHandle e false, (handle_call (mkHandle e false) c).2)
    end).
  { destruct c; cbn [op_of]; unfold handle_call, handle_observe_btc_funded, handle_observe_nim_funded, parse_funded;
      try (destruct (txid_from_str txid); [reflexivity|]); cbn [parsed];
      first [apply locked_no_effect, no_effect_total | apply locked_effect, an_effect_total];
      first [ exact (proj1 (engine_call_spec (mkLadder 0 0) e (OObserveInitiatorFunded wire (Found amount timeout confirmations) min_confirmations)))
            | exact (proj1 (engine_call_spec (ladder_of ladder) e (OAccept head_ms)))
            | exact (proj1 (engine_call_spec (ladder_of ladder) e (OFund head_ms vsh)))
            | exact (proj1 (engine_call_spec (ladder_of ladder) e (OReveal head_ms)))
            | exact (proj1 (engine_call_spec (mkLadder 0 0) e (OObserveBtcFunded _ _ _)))
            | exact (proj1 (engine_call_spec (mkLadder 0 0) e (OObserveNimFunded _)))
            | exact (proj1 (engine_call_spec (mkLadder 0 0) e (OClaimNim btc_claim_tx vsh)))
            | exact (proj1 (engine_call_spec (mkLadder 0 0) e OSettled))
            | exact (proj1 (engine_call_spec (mkLadder 0 0) e OAbort))
            | exact (proj1 (engine_call_spec (mkLadder 0 0) e (ORefund head_ms vsh))) ]. }
  split; [exact H|]. rewrite H. destruct (op_of c) as [o|] eqn:Eo.
  - pose proof (proj1 (engine_call_spec (call_ladder c) e o)) as Hn. cbn [snd]. destruct (engine_call _ _ _).2; cbn; congruence.
  - destruct c; cbn in Eo; try discriminate; cbn [snd]; unfold handle_call, handle_observe_btc_funded, handle_observe_nim_funded, parse_funded;
      destruct (txid_from_str txid); cbn; congruence.
Qed.

(** *** What the calls keep *)

(** A call reported a NIM funding of the agreed amount until the agreed time, deep enough. *)
Definition nim_reported (e : SwapEngine) (log : Log) : Prop :=
  exists w a t k n, (FcObserveInitiatorFunded w a t k n, Ok None) ∈ log
    /\ en_nim_amount e <= a /\ nim_timeout (terms (en_swap e)) <= t /\ n <= k.

(** A call reported such a Bitcoin funding, or the responder's own confirmation was called. *)
Definition btc_reported (e : SwapEngine) (log : Log) : Prop :=
  (exists txid vout v t k n, (FcObserveBtcFunded txid vout v t k n, Ok None) ∈ log
     /\ en_btc_amount_sat e <= v /\ counterparty_timeout (terms (en_swap e)) <= t /\ n <= k)
  \/ exists txid vout v, (FcObserveNimFunded txid vout v, Ok None) ∈ log.

Lemma found_enough a t k x n d : require_funded (Found a t k) x n = Ok d -> x_min_amount x <= a /\ x_min_timeout x <= t /\ n <= k.
Proof. cbn. repeat (case_goal; try discriminate). intros _. bool_prop. lia. Qed.

Lemma reported_grow e e' log x : same_engine e e' ->
  (nim_reported e log -> nim_reported e' (log ++ [x])) /\ (btc_reported e log -> btc_reported e' (log ++ [x])).
Proof.
  intros (_ & _ & H1 & H2 & _ & _ & H3). unfold nim_reported, btc_reported. rewrite H1, H2, H3. split.
  - intros (w & a & t & k & n & Hin & H). exists w, a, t, k, n. split; [apply elem_of_app; by left|exact H].
  - intros [(i & o & v & t & k & n & Hin & H)|(i & o & v & Hin)]; [left; exists i, o, v, t, k, n|right; exists i, o, v];
      [split; [apply elem_of_app; by left|exact H]|apply elem_of_app; by left].
Qed.

Lemma ffi_result_none r : ffi_result r = Ok None <-> r = Ok None.
Proof. destruct r as [[|]| |]; cbn; split; congruence. Qed.

(** The gates of the engine, seen from the app *)
Lemma call_reported e c o log :
  op_of c = Some o -> let r := engine_call (call_ladder c) e o in en_swap r.1 <> en_swap e ->
  (phase (en_swap r.1) = InitiatorFunded -> nim_reported r.1 (log ++ [(c, ffi_result r.2)]))
  /\ (phase (en_swap r.1) = BothFunded -> btc_reported r.1 (log ++ [(c, ffi_result r.2)])).
Proof.
  intros Ho r Hne. destruct (call_gate (call_ladder c) e o [] Hne) as [Gn Gb]. fold r in Gn, Gb.
  assert (Hlast : forall (x : FfiCall * res SwapEngineError (option FfiSwapEffect)), x ∈ log ++ [x]) by (intros x; apply elem_of_app; right; left).
  split; intros Hph.
  - destruct (Gn Hph) as (w & obs & n & d & Hin%list_elem_of_singleton & Hf). injection Hin as Eo Hr. rewrite <- Eo in Ho.
    destruct c; cbn in Ho; try (destruct (txid_from_str _) in Ho); try discriminate. injection Ho as <- <- <-.
    apply found_enough in Hf. exists wire, amount, timeout, confirmations, min_confirmations. split; [|exact Hf].
    rewrite <- Hr. apply Hlast.
  - destruct (Gb Hph) as [(f & obs & n & d & Hin%list_elem_of_singleton & Hf)|(f & Hin%list_elem_of_singleton)]; injection Hin as Eo Hr; rewrite <- Eo in Ho;
      destruct c; cbn in Ho; try (destruct (txid_from_str _) in Ho); try discriminate; [left|right].
    + injection Ho as <- <- <-. apply found_enough in Hf.
      exists txid, vout, value_sat, timeout, confirmations, min_confirmations. split; [|exact Hf]. rewrite <- Hr. apply Hlast.
    + exists txid, vout, value_sat. rewrite <- Hr. apply Hlast.
Qed.

Record handle_inv (e0 : SwapEngine) (log : Log) (h : SwapEngineHandle) : Prop := mkHandleInv {
  hi_live : sh_poisoned h = false;
  hi_same : same_engine e0 (sh_inner h);
  hi_total : forall c r, (c, r) ∈ log -> r <> Panic;
  hi_nim : phase (en_swap (sh_inner h)) = InitiatorFunded -> nim_reported (sh_inner h) log;
  hi_btc : phase (en_swap (sh_inner h)) = BothFunded -> btc_reported (sh_inner h) log;
  hi_funds : forall c a n, (c, Ok (Some (FfiFundBtcAddress a n))) ∈ log ->
    nim_reported (sh_inner h) log /\ a = btc_htlc_address e0 /\ n = en_btc_amount_sat e0;
  hi_reveals : forall head l eff, (FcReveal head l, Ok (Some eff)) ∈ log -> btc_reported (sh_inner h) log
}.

(** What an engine asks the wallet for *)
Lemma fund_btc_address params e o a n :
  (engine_call params e o).2 = Ok (Some (FundBtcAddress a n)) -> a = btc_htlc_address e /\ n = en_btc_amount_sat e.
Proof.
  intros Hr. destruct o; cbn in Hr; try (unfold no_effect in Hr; cbn in Hr; destruct (_.2) in Hr; discriminate).
  - unfold an_effect, engine_fund, after in Hr. cbn [snd] in Hr. run Hr; cbn in *; try discriminate. by simplify_eq.
  - exfalso. unfold an_effect, reveal_and_claim_btc, after in Hr. cbn [snd] in Hr. run Hr.
  - exfalso. unfold an_effect, claim_nim_from_btc_claim, after in Hr. cbn [snd] in Hr. run Hr.
  - exfalso. unfold an_effect, engine_refund, after in Hr. cbn [snd] in Hr. run Hr.
Qed.

Lemma ffi_funds r a n : ffi_result r = Ok (Some (FfiFundBtcAddress a n)) -> r = Ok (Some (FundBtcAddress a n)).
Proof. destruct r as [[[]|]| |]; cbn; try discriminate. by intros [= -> ->]. Qed.

Lemma ffi_some r eff : ffi_result r = Ok (Some eff) -> exists x, r = Ok (Some x).
Proof. destruct r as [[x|]| |]; cbn; try discriminate. eauto. Qed.

Lemma unparsed_result e c : op_of c = None -> exists er, (handle_call (mkHandle e false) c).2 = Err er.
Proof.
  destruct c; cbn [op_of]; try discriminate; unfold handle_call, handle_observe_btc_funded, handle_observe_nim_funded, parse_funded;
    destruct (txid_from_str txid); cbn; try discriminate; eauto.
Qed.

(** One more call *)
Lemma handle_inv_call e0 log h c :
  handle_inv e0 log h -> handle_inv e0 (log ++ [(c, (handle_call h c).2)]) (handle_call h c).1.
Proof.
  intros [Hl Hs Ht Hn Hb Hf Hr]. destruct h as [e p]. cbn in Hl. subst p. cbn [sh_inner] in *.
  destruct (handle_call_spec e c) as [Ec Hnp]. destruct (op_of c) as [o|] eqn:Eo.
  - rewrite Ec in *. cbn zeta in *. cbn [fst snd] in *. set (r := engine_call (call_ladder c) e o) in *.
    destruct (engine_call_spec (call_ladder c) e o) as (_ & Hsame & _). fold r in Hsame.
    destruct (reported_grow e r.1 log (c, ffi_result r.2) Hsame) as [Gn Gb].
    pose proof (call_reported e c o log Eo) as Hg. cbn zeta in Hg. fold r in Hg.
    assert (Hcfg : btc_htlc_address e = btc_htlc_address e0 /\ en_btc_amount_sat e = en_btc_amount_sat e0).
    { destruct Hs as (_ & Hbtc & _ & Hamt & _). unfold btc_htlc_address. by rewrite Hbtc, Hamt. }
    constructor; cbn [sh_inner sh_poisoned]; [done|by eapply same_trans|..].
    + intros c' r' [Hin|Hx%list_elem_of_singleton]%elem_of_app; [eauto|]. by simplify_eq.
    + intros Hph. destruct (decide (en_swap r.1 = en_swap e)) as [Eq|Hne]; [apply Gn, Hn; congruence|by apply Hg].
    + intros Hph. destruct (decide (en_swap r.1 = en_swap e)) as [Eq|Hne]; [apply Gb, Hb; congruence|by apply Hg].
    + intros c' a n [Hin|Hx%list_elem_of_singleton]%elem_of_app; [destruct (Hf c' a n Hin) as (H1 & H2 & H3); auto|].
      injection Hx as -> Hx. symmetry in Hx. apply ffi_funds in Hx.
      destruct (fund_btc_address _ _ _ _ _ Hx) as [-> ->]. apply fund_btc_from in Hx. destruct Hcfg as [-> ->]. auto.
    + intros head l eff [Hin|Hx%list_elem_of_singleton]%elem_of_app; [by eapply Gb, Hr|].
      injection Hx as Ex Hx. symmetry in Hx. apply ffi_some in Hx as [x Hx]. rewrite <- Ex in Eo. cbn in Eo. injection Eo as Eo.
      unfold r in Hx. rewrite <- Eo in Hx. apply Gb, Hb. by eapply reveal_from.
  - destruct (unparsed_result e c Eo) as [er Her]. rewrite Her in *. rewrite Ec. cbn [fst snd].
    assert (Hse : same_engine e e) by (unfold same_engine; auto 10).
    destruct (reported_grow e e log (c, Err er) Hse) as [Gn Gb].
    constructor; cbn [sh_inner sh_poisoned]; auto.
    + intros c' r' [Hin|Hx%list_elem_of_singleton]%elem_of_app; [eauto|]. by simplify_eq.
    + intros c' a n [Hin|Hx%list_elem_of_singleton]%elem_of_app; [destruct (Hf c' a n Hin) as (H1 & H2 & H3); auto|discriminate].
    + intros head l eff [Hin|Hx%list_elem_of_singleton]%elem_of_app; [by eapply Gb, Hr|discriminate].
Qed.

Lemma handle_inv_run e0 log h :
  phase (en_swap e0) = Proposed -> handle_calls (mkHandle e0 false) log h -> handle_inv e0 log h.
Proof.
  intros Hp Hc. induction Hc as [|log h c Hc IH]; [|by apply handle_inv_call].
  constructor; cbn [sh_inner sh_poisoned]; try congruence; [unfold same_engine; auto 10|..]; intros; exfalso; by eapply not_elem_of_nil.
Qed.

(** A handle as the constructors make it *)
Definition handle_made (params : FfiSwapParams) (nim_key : EnclaveKey) (btc_key : BtcEnclaveKey) (h : SwapEngineHandle) : Prop :=
  (exists secret, handle_new_initiator params nim_key btc_key secret = Ok h) \/ handle_new_responder params nim_key btc_key = Ok h.

Lemma fixed_ok n v what b : fixed n v what = Ok b -> b = v.
Proof. unfold fixed, try_array. destruct (Nat.eqb _ _); [|discriminate]. by intros [= <-]. Qed.

Lemma handle_made_engine params nim_key btc_key h :
  handle_made params nim_key btc_key h ->
  exists spk e, h = mkHandle e false /\ phase (en_swap e) = Proposed
    /\ parse_payout (sp_btc_payout_address params) (btc_network_of (sp_network params)) = Ok spk
    /\ terms (en_swap e) = mkTerms (sp_nim_timeout_ms params) (sp_counterparty_timeout_ms params)
    /\ en_nim e = nimiq_leg_new nim_key
    /\ en_btc e = mkBtcLeg (mkBtcParams (sp_hashlock params) (sp_claimant_btc_pubkey params) (sp_funder_btc_pubkey params)
                              (cltv_seconds_from_ms (sp_counterparty_timeout_ms params)))
                    (btc_network_of (sp_network params)) btc_key spk (sp_btc_fee_sat params)
    /\ en_nim_amount e = sp_nim_amount params /\ en_btc_amount_sat e = sp_btc_amount_sat params
    /\ en_counterparty_nim_address e = sp_counterparty_nim_address params.
Proof.
  assert (Hc : forall c, build_config params nim_key btc_key = Ok c -> exists spk,
    parse_payout (sp_btc_payout_address params) (btc_network_of (sp_network params)) = Ok spk
    /\ c = mkSwapConfig (mkTerms (sp_nim_timeout_ms params) (sp_counterparty_timeout_ms params)) (nimiq_leg_new nim_key)
             (mkBtcLeg (mkBtcParams (sp_hashlock params) (sp_claimant_btc_pubkey params) (sp_funder_btc_pubkey params)
                (cltv_seconds_from_ms (sp_counterparty_timeout_ms params))) (btc_network_of (sp_network params)) btc_key spk (sp_btc_fee_sat params))
             (sp_nim_amount params) (sp_btc_amount_sat params) (sp_counterparty_nim_address params)).
  { intros c. unfold build_config. destruct (parse_payout _ _) as [spk| |]; [|discriminate..].
    destruct (fixed 32 _ _) as [x| |] eqn:E1; [|discriminate..]. destruct (fixed 33 (sp_claimant_btc_pubkey params) _) as [y| |] eqn:E2; [|discriminate..].
    destruct (fixed 33 (sp_funder_btc_pubkey params) _) as [z| |] eqn:E3; [|discriminate..]. apply fixed_ok in E1, E2, E3. subst.
    intros [= <-]. by exists spk. }
  intros [[secret H]|H]; unfold handle_new_initiator, handle_new_responder in H;
    [destruct (fixed 32 secret _) as [x| |]; [|discriminate..]|]; destruct (build_config _ _ _) as [c| |]; try discriminate;
    injection H as <-; destruct (Hc c eq_refl) as (spk & Hp & ->); eexists spk, _; split_and!; reflexivity || exact Hp.
Qed.
End calls.

(** The lock time in seconds is the timeout in milliseconds, rounded up; the cap is never met. *)
Lemma cltv_rounds_up t : uN 64 t -> t <= 1000 * cltv_seconds_from_ms t < t + 1000 /\ uN 63 (cltv_seconds_from_ms t).
Proof.
  unfold uN, cltv_seconds_from_ms. intros Ht.
  pose proof (Z.div_mod (t + 999) 1000 ltac:(lia)) as Hd. pose proof (Z.mod_pos_bound (t + 999) 1000 ltac:(lia)).
  assert (0 <= (t + 999) / 1000 < 2 ^ 63) by lia. destruct (Z.ltb_spec ((t + 999) / 1000) (2 ^ 63)); lia.
Qed.

(** ** Properties *)

(** C21: the app's handle is the engine, on the terms it was given, and cannot be wedged.  For
    all parameters a constructor takes and every sequence of calls, in any order, with any
    ladders, arguments and observations, failed ones included: no call panics and the lock is
    never poisoned; the Bitcoin contract is over the agreed hashlock and keys, on the agreed
    network, and its lock time in seconds is no earlier than the agreed timeout and less than a
    second later; the NIM leg signs for the test network and the terms stay those given; a call
    that asks the wallet to fund names the address of exactly this contract and the agreed
    amount, and comes only after a call reported a NIM funding of at least the agreed amount
    until the agreed time at the required depth; and a call answers with the claim that shows the
    secret only after a call reported such a Bitcoin funding, or after a plain
    [observe_nim_funded], meant for the responder's own funding, which checks nothing and which
    an initiator's handle takes too. *)
Theorem swap_handle_exact `{C : Crypto} `{B : BitcoinLib} `{T : BitcoinText} (params : FfiSwapParams) (nim_key : EnclaveKey) (btc_key : BtcEnclaveKey)
    (h0 h : SwapEngineHandle) (log : list (FfiCall * res SwapEngineError (option FfiSwapEffect)))
    (Htime : uN 64 (sp_counterparty_timeout_ms params)) (Hmade : handle_made params nim_key btc_key h0) (Hcalls : handle_calls h0 log h) :
  let e := sh_inner h in
  let contract := bl_htlc (en_btc e) in
  sh_poisoned h = false
  /\ (forall c r, (c, r) ∈ log -> r <> Panic)
  /\ bp_hash_root contract = sp_hashlock params /\ bp_recipient_pubkey contract = sp_claimant_btc_pubkey params
  /\ bp_sender_pubkey contract = sp_funder_btc_pubkey params /\ bl_network (en_btc e) = btc_network_of (sp_network params)
  /\ sp_counterparty_timeout_ms params <= 1000 * bp_cltv_locktime contract < sp_counterparty_timeout_ms params + 1000
  /\ nl_network_id (en_nim e) = TESTNET_NETWORK_ID
  /\ terms (en_swap e) = mkTerms (sp_nim_timeout_ms params) (sp_counterparty_timeout_ms params)
  /\ (forall c a n, (c, Ok (Some (FfiFundBtcAddress a n))) ∈ log ->
        a = p2wsh_address contract (btc_network_of (sp_network params)) /\ n = sp_btc_amount_sat params
        /\ exists w amount timeout k need, (FcObserveInitiatorFunded w amount timeout k need, Ok None) ∈ log
             /\ sp_nim_amount params <= amount /\ sp_nim_timeout_ms params <= timeout /\ need <= k)
  /\ (forall head l eff, (FcReveal head l, Ok (Some eff)) ∈ log ->
        (exists txid vout v timeout k need, (FcObserveBtcFunded txid vout v timeout k need, Ok None) ∈ log
           /\ sp_btc_amount_sat params <= v /\ sp_counterparty_timeout_ms params <= timeout /\ need <= k)
        \/ exists txid vout v, (FcObserveNimFunded txid vout v, Ok None) ∈ log).
Proof.
  destruct (handle_made_engine _ _ _ _ Hmade) as (spk & e0 & -> & Hp & _ & Ht & Hn & Hb & Ha & Hs & _).
  destruct (handle_inv_run e0 log h Hp Hcalls) as [Hl Hsame Htot _ _ Hf Hr].
  destruct Hsame as (En & Eb & Ea & Es & _ & _ & Et). intros e contract. unfold contract, e.
  destruct (cltv_rounds_up _ Htime) as [Hc _]. unfold nim_reported, btc_reported in Hf, Hr. rewrite Ea, Et, Ha, Hs, Ht in Hf.
  rewrite Es, Et, Hs, Ht in Hr. rewrite En, Eb, Et, Hb, Hn, Ht.
  split_and!; auto; try apply Hc.
  - intros c a n Hin. destruct (Hf c a n Hin) as (Hrep & -> & ->). unfold btc_htlc_address. rewrite Hb. split_and!; [done..|exact Hrep].
Qed.

(** ** A timeout that is said to be recorded *)

(** [observe_btc_funded] is said to record the observed timeout for completeness; it does not
    record it, and refuses the observation when it is below the agreed one.  Whatever the
    initiator's handle and however much is locked however deep, an observation whose timeout is
    short leaves it where it was. *)
Theorem short_timeout_refused `{C : Crypto} `{B : BitcoinLib} `{T : BitcoinText} (h : SwapEngineHandle) (txid : str) (vout value t k need : Z) (id : bytes) :
  sh_poisoned h = false -> txid_from_str txid = inr id ->
  t < counterparty_timeout (terms (en_swap (sh_inner h))) -> en_btc_amount_sat (sh_inner h) <= value ->
  handle_observe_btc_funded h txid vout value t k need
  = (h, Err (Rejected (chars "counterparty funding unverified: "
                       ++ have_need "TimeoutTooShort" t (counterparty_timeout (terms (en_swap (sh_inner h))))))).
Proof.
  intros Hl Ht Hlt Ha. destruct h as [e p]. cbn in Hl, Hlt, Ha. subst p.
  unfold handle_observe_btc_funded, parse_funded. rewrite Ht. cbn [parsed]. unfold locked, observe_btc_funded. cbn [sh_poisoned sh_inner].
  unfold btc_expectation, require_funded. cbn [x_min_amount x_min_timeout].
  destruct (Z.ltb_spec value (en_btc_amount_sat e)); [lia|]. destruct (Z.ltb_spec t (counterparty_timeout (terms (en_swap e)))); [reflexivity|lia].
Qed.

(** ** A concrete responder *)

#[local] Instance toy_text : BitcoinText := {|
  UncheckedAddress := bytes;
  txid_from_str s := inr s;
  address_from_str s := inr s;
  require_network a _ := inr a
|}.

Definition sample_params : FfiSwapParams :=
  mkFfiSwapParams T_A_MS (T_B_MS + 1) (replicate 32 5) (replicate 33 6) (replicate 33 7) FfiSignet (chars "tb1q") 500 NIM_AMOUNT BTC_AMOUNT [].

Definition sample_handle : SwapEngineHandle :=
  match handle_new_responder sample_params (in_memory_key (H := ToyCrypto) (replicate 32 4)) (toy_btc_key 0x22) with
  | Ok h => h
  | _ => mkHandle (new_responder sample_config) true
  end.

Definition sample_ladder : FfiLadder := mkFfiLadder 1800000 1800000.

Definition sample_ffi_calls : list FfiCall :=
  [FcFund HEAD_MS sample_ladder VSH; FcAccept HEAD_MS sample_ladder; FcObserveInitiatorFunded [1] NIM_AMOUNT T_A_MS 3 3; FcFund HEAD_MS sample_ladder VSH].

Definition run_ffi (h : SwapEngineHandle) (cs : list FfiCall) : list (FfiCall * res SwapEngineError (option FfiSwapEffect)) * SwapEngineHandle :=
  foldl (fun x c => (x.1 ++ [(c, (handle_call (C := ToyCrypto) (B := ToyBitcoin) x.2 c).2)], (handle_call (C := ToyCrypto) (B := ToyBitcoin) x.2 c).1)) ([], h) cs.

Lemma run_ffi_ok h cs : handle_calls (C := ToyCrypto) (B := ToyBitcoin) h (run_ffi h cs).1 (run_ffi h cs).2.
Proof.
  unfold run_ffi. induction cs as [|c cs IH] using rev_ind; [constructor|]. rewrite foldl_app. cbn [foldl].
  destruct (foldl _ _ cs) as [log h']. cbn [fst snd] in *. by apply hc_snoc.
Qed.

Lemma swap_handle_exact_witness :
  exists a, (FcFund HEAD_MS sample_ladder VSH, Ok (Some (FfiFundBtcAddress a BTC_AMOUNT))) ∈ (run_ffi sample_handle sample_ffi_calls).1
  /\ bp_cltv_locktime (bl_htlc (en_btc (sh_inner (run_ffi sample_handle sample_ffi_calls).2))) = 1000003601
  /\ exists w amount timeout k need, (FcObserveInitiatorFunded w amount timeout k need, Ok None) ∈ (run_ffi sample_handle sample_ffi_calls).1
     /\ NIM_AMOUNT <= amount.
Proof.
  set (a := htlc_address (B := ToyBitcoin) (en_btc (sh_inner sample_handle))).
  assert (Hin : (FcFund HEAD_MS sample_ladder VSH, Ok (Some (FfiFundBtcAddress a BTC_AMOUNT))) ∈ (run_ffi sample_handle sample_ffi_calls).1).
  { vm_compute. do 3 apply list_elem_of_further. apply list_elem_of_here. }
  assert (Htime : uN 64 (sp_counterparty_timeout_ms sample_params)) by (vm_compute; split; congruence).
  assert (Hmade : handle_made sample_params (in_memory_key (H := ToyCrypto) (replicate 32 4)) (toy_btc_key 0x22) sample_handle).
  { right. vm_compute. reflexivity. }
  destruct (swap_handle_exact (C := ToyCrypto) (B := ToyBitcoin) sample_params _ _ _ _ _ Htime Hmade (run_ffi_ok sample_handle sample_ffi_calls))
    as (_ & _ & _ & _ & _ & _ & Hc & _ & _ & Hf & _).
  exists a. split; [exact Hin|]. destruct (Hf _ _ _ Hin) as (_ & _ & w & am & t & k & n & Hw & Ham & _). split; [vm_compute; reflexivity|].
  exists w, am, t, k, n. split; [exact Hw|exact Ham].
Defined.
