(* ===== verification/BtcGateway.v ===== *)
(** * BtcGateway: the HTTP clients of the Bitcoin leg ([btc_gateway.rs], module [http_reads] of
    [btc_verifier.rs])

    The broadcast gateway and the reads client, over any HTTP transport and any JSON parser, and
    an esplora indexer in front of a chain, which they are measured against.  Bodies and URLs are
    lists of characters; a read takes the transport at one moment. *)

From stdpp Require Import base list strings.
From Stdlib Require Import ZArith Lia.
From S2P Require Import Prelude Packet Crypto SwapWire Swap SwapIntent FundingVerify Address SwapSession NimTx Gateway RequestUri SwapBuilder BtcHtlc SwapEngine BtcVerifier PolygonGateway LiveDoor NimRpc SwapFfi.
Open Scope Z_scope.

(** ** Text *)

(** [trim_end_matches('/')] *)
Definition trim_end_slash (s : str) : str :=
  reverse ((fix go (s : str) : str := match s with c :: r => if c =? 47 then go r else s | [] => [] end) (reverse s)).

(** [parse::<uN>()]: a sign, digits, no overflow *)
Definition parse_uint (bits : Z) (s : str) : option Z :=
  let s := match s with 43 :: r => r | _ => s end in
  if bool_decide (s = []) || negb (all_digits s) then None else
  let n := dval 0 s in if n <? 2 ^ bits then Some n else None.

(** [v["k"]]: null where there is no such field *)
Definition jfield (k : string) (v : Json) : Json := match jget (chars k) v with Some x => x | None => JNull end.
Definition as_bool (v : Json) : option bool := match v with JBool b => Some b | _ => None end.

(** ** Transport *)

Inductive TextOutcome : Type :=
| TextBody (body : str)
| TextUnreadable (e : str)
| TextStatus (status : Z) (body : option (list Z))
| TextTransport (e : str).

Class HttpText (N : Type) : Type := {
  http_get : N -> str -> TextOutcome;
  http_send : N -> str -> str -> N * TextOutcome
}.

(** ** The broadcast gateway ([btc_gateway.rs]) *)

Definition DEFAULT_SIGNET_API : str := chars "https://mempool.space/signet/api".

Record Utxo : Type := mkUtxo { ux_txid : str; ux_vout : Z; ux_value : Z; ux_confirmed : bool; ux_block_height : option Z }.

Inductive BtcGatewayError : Type :=
| NotSignet (url : str)
| BgHttp (status : Z) (what : string)
| BgTransport (reason : str)
| BgParse (reason : str).

Definition btc_gateway_error_to_string (e : BtcGatewayError) : str :=
  match e with
  | NotSignet url => chars "refused non-signet indexer: " ++ url
  | BgHttp status what => chars "btc indexer http " ++ decimal status ++ chars " (" ++ chars what ++ chars ")"
  | BgTransport reason => chars "btc indexer transport: " ++ reason
  | BgParse reason => chars "btc indexer parse: " ++ reason
  end.

Record BtcSignetGateway : Type := mkSignetGateway { bg_base : str }.

Definition signet_gateway_new (base : str) : res BtcGatewayError BtcSignetGateway :=
  let b := trim_end_slash base in
  let low := map to_ascii_lowercase b in
  if negb (contains low (chars "signet") || contains low (chars "testnet")) then Err (NotSignet b) else Ok (mkSignetGateway b).

Definition signet : BtcSignetGateway := mkSignetGateway DEFAULT_SIGNET_API.

Section clients.
Context {N : Type} `{H : HttpText N} (json_parse : str -> str + Json).

Definition signet_get (n : N) (g : BtcSignetGateway) (path : str) (what : string) : res BtcGatewayError str :=
  match http_get n (bg_base g ++ path) with
  | TextBody b => Ok b
  | TextUnreadable e => Err (BgTransport e)
  | TextStatus status _ => Err (BgHttp status what)
  | TextTransport e => Err (BgTransport e)
  end.

Definition signet_tip_height (n : N) (g : BtcSignetGateway) : res BtcGatewayError Z :=
  let? body := signet_get n g (chars "/blocks/tip/height") "tip" in
  ok_or (parse_uint 32 (trim body)) (BgParse (chars "tip height not a number")).

Definition broadcast (n : N) (g : BtcSignetGateway) (raw_hex : str) : N * res BtcGatewayError str :=
  let '(n, o) := http_send n (bg_base g ++ chars "/tx") raw_hex in
  (n, match o with
      | TextBody b => Ok (trim b)
      | TextUnreadable e => Err (BgTransport e)
      | TextStatus status body =>
          Err (BgParse (chars "broadcast rejected (http " ++ decimal status ++ chars "): " ++ trim (match body with Some b => b | None => [] end)))
      | TextTransport e => Err (BgTransport e)
      end).

Definition parse_utxo (u : Json) : Utxo :=
  mkUtxo (match as_str (jfield "txid" u) with Some s => s | None => [] end)
    (match as_u64 (jfield "vout" u) with Some n => wrapN 32 n | None => 0 end)
    (match as_u64 (jfield "value" u) with Some n => n | None => 0 end)
    (match as_bool (jfield "confirmed" (jfield "status" u)) with Some b => b | None => false end)
    (match as_u64 (jfield "block_height" (jfield "status" u)) with Some n => Some (wrapN 32 n) | None => None end).

Definition parse_utxos (body : str) : res BtcGatewayError (list Utxo) :=
  match json_parse body with
  | inl e => Err (BgParse e)
  | inr v => let? arr := ok_or (as_array v) (BgParse (chars "utxo response is not an array")) in Ok (map parse_utxo arr)
  end.

Definition address_utxos (n : N) (g : BtcSignetGateway) (address : str) : res BtcGatewayError (list Utxo) :=
  let? body := signet_get n g (chars "/address/" ++ address ++ chars "/utxo") "utxo" in parse_utxos body.

Definition tx_block_height (n : N) (g : BtcSignetGateway) (txid : str) : res BtcGatewayError (option Z) :=
  match signet_get n g (chars "/tx/" ++ txid) "tx" with
  | Err (BgHttp 404 _) => Ok None
  | Err e => Err e
  | Panic => Panic
  | Ok body =>
      match json_parse body with
      | inl e => Err (BgParse e)
      | inr v =>
          if bool_decide (as_bool (jfield "confirmed" (jfield "status" v)) = Some true)
          then Ok (match as_u64 (jfield "block_height" (jfield "status" v)) with Some h => Some (wrapN 32 h) | None => None end)
          else Ok None
      end
  end.

(** ** The reads client ([http_reads]) *)

Definition btc_reads_error_to_string (e : BtcReadsError) : str :=
  match e with
  | BtcBadBase url => chars "unrecognized btc indexer base: " ++ url
  | BtcTransport reason => chars "btc reads transport: " ++ reason
  | BtcParse reason => chars "btc reads parse: " ++ reason
  end.

Definition ALLOWED_HOSTS : list str := [chars "mempool.space"; chars "blockstream.info"].

(** The client with the network it reads from *)
Record HttpBitcoinReads : Type := mkHttpReads { hb_base : list Z; hb_net : N }.

Definition http_reads_new (net : N) (base : str) : res BtcReadsError HttpBitcoinReads :=
  let b := trim_end_slash base in
  let low := map to_ascii_lowercase b in
  let ok := starts_with low (chars "https://") && existsb (fun h => contains low h) ALLOWED_HOSTS in
  if negb ok then Err (BtcBadBase b) else Ok (mkHttpReads b net).

Definition mempool_space (net : N) (network : str) : res BtcReadsError HttpBitcoinReads :=
  let? suffix := (if bool_decide (network = chars "mainnet") then Ok []
                  else if bool_decide (network = chars "testnet") then Ok (chars "/testnet")
                  else if bool_decide (network = chars "signet") then Ok (chars "/signet")
                  else Err (BtcBadBase network)) in
  http_reads_new net (chars "https://mempool.space" ++ suffix ++ chars "/api").

Definition blockstream (net : N) (network : str) : res BtcReadsError HttpBitcoinReads :=
  let? suffix := (if bool_decide (network = chars "mainnet") then Ok []
                  else if bool_decide (network = chars "testnet") then Ok (chars "/testnet")
                  else Err (BtcBadBase network)) in
  http_reads_new net (chars "https://blockstream.info" ++ suffix ++ chars "/api").

Definition reads_get (r : HttpBitcoinReads) (path : str) : res BtcReadsError str :=
  match http_get (hb_net r) (hb_base r ++ path) with
  | TextBody b => Ok b
  | TextUnreadable e => Err (BtcTransport e)
  | TextStatus status _ => Err (BtcTransport (chars "http " ++ decimal status))
  | TextTransport e => Err (BtcTransport e)
  end.

Definition reads_json (body : str) : res BtcReadsError Json :=
  match json_parse body with inl e => Err (BtcParse e) | inr v => Ok v end.

Definition parse_status (v : Json) : BtcTxStatus :=
  mkTxStatus (match as_bool (jfield "confirmed" v) with Some b => b | None => false end) (as_u64 (jfield "block_height" v)).

Definition parse_outpoint (vin : Json) : option BtcOutpoint :=
  txid ← as_str (jfield "txid" vin); vout ← as_u64 (jfield "vout" vin); Some (mkOutpoint txid (wrapN 32 vout)).

Definition parse_txout (o : Json) : option BtcTxOut :=
  s ← as_str (jfield "scriptpubkey" o);
  spk ← match hex_to_bytes (as_bytes s) with Ok b => Some b | _ => None end;
  v ← as_u64 (jfield "value" o);
  Some (mkTxOut spk v).

Definition parse_address_tx (tx : Json) : BtcAddressTx :=
  mkAddressTx (match as_str (jfield "txid" tx) with Some s => s | None => [] end)
    (match as_array (jfield "vin" tx) with Some vins => omap parse_outpoint vins | None => [] end)
    (match as_array (jfield "vout" tx) with Some vouts => omap parse_txout vouts | None => [] end).

Definition http_address_txs (r : HttpBitcoinReads) (address : str) : res BtcReadsError (list BtcAddressTx) :=
  let? body := reads_get r (chars "/address/" ++ address ++ chars "/txs") in
  let? v := reads_json body in
  let? arr := ok_or (as_array v) (BtcParse (chars "address txs not an array")) in
  Ok (map parse_address_tx arr).

Definition http_tx_status (r : HttpBitcoinReads) (txid : str) : res BtcReadsError BtcTxStatus :=
  let? body := reads_get r (chars "/tx/" ++ txid ++ chars "/status") in
  let? v := reads_json body in
  Ok (parse_status v).

Definition http_tip_height (r : HttpBitcoinReads) : res BtcReadsError Z :=
  let? body := reads_get r (chars "/blocks/tip/height") in
  ok_or (parse_uint 64 (trim body)) (BtcParse (chars "tip height not a number")).

Definition http_bitcoin_reads : BitcoinReads HttpBitcoinReads := {|
  address_txs := http_address_txs;
  tx_status := http_tx_status;
  tip_height := http_tip_height
|}.
End clients.
Arguments HttpBitcoinReads N : clear implicits.

(** ** The documents of an esplora indexer *)

Definition show_height (h : option Z) : list (list Z * Json) :=
  match h with
  | Some h => [(chars "confirmed", JBool true); (chars "block_height", JNum h)]
  | None => [(chars "confirmed", JBool false)]
  end.
Definition show_status (h : option Z) : Json := JObj (show_height h).

Definition show_outpoint (o : BtcOutpoint) : Json := JObj [(chars "txid", JStr (bo_txid o)); (chars "vout", JNum (bo_vout o))].
Definition show_txout (o : BtcTxOut) : Json :=
  JObj [(chars "scriptpubkey", JStr (bytes_to_hex (to_scriptpubkey o))); (chars "value", JNum (to_value_sat o))].
Definition show_address_tx (t : BtcAddressTx) : Json :=
  JObj [(chars "txid", JStr (at_txid t)); (chars "vin", JArr (map show_outpoint (at_spends t))); (chars "vout", JArr (map show_txout (at_outputs t)))].
Definition show_utxo (u : Utxo) : Json :=
  JObj [(chars "txid", JStr (ux_txid u)); (chars "vout", JNum (ux_vout u)); (chars "value", JNum (ux_value u)); (chars "status", show_status (ux_block_height u))].

(** *** Reading them back *)

Lemma digits_no_space s : is_digits s -> Forall (fun c => is_whitespace c = false) s.
Proof.
  intros H. eapply Forall_impl; [exact H|]. intros c Hc. cbn beta in Hc. unfold is_whitespace. rewrite !orb_false_iff, !andb_false_iff, !Z.leb_gt, !Z.eqb_neq. lia.
Qed.

Lemma trim_start_id s : Forall (fun c => is_whitespace c = false) s -> trim_start s = s.
Proof. destruct 1 as [|c s Hc _]; [done|]. cbn. by rewrite Hc. Qed.

Lemma trim_id s : Forall (fun c => is_whitespace c = false) s -> trim s = s.
Proof.
  intros H. unfold trim. rewrite (trim_start_id s H), trim_start_id by (by apply Forall_reverse). apply reverse_involutive.
Qed.

(** A height as an indexer prints it *)
Lemma parse_height_text bits n : 0 <= bits <= 64 -> uN bits n -> parse_uint bits (trim (u64_to_string n)) = Some n.
Proof.
  intros Hb [Hn0 Hn]. assert (Hp : 2 ^ bits <= 2 ^ 64) by (apply Z.pow_le_mono_r; lia).
  destruct (digits_val 20 n) as (D1 & D2 & D3 & _); [change (10 ^ Z.of_nat 20) with 100000000000000000000; lia|lia|].
  fold (u64_to_string n) in D1, D2, D3. rewrite trim_id by by apply digits_no_space. unfold parse_uint.
  destruct (u64_to_string n) as [|c s] eqn:E; [cbn in D3; lia|].
  assert (Hc : 48 <= c) by (apply Forall_cons in D1; lia).
  assert (Es : (match c :: s with 43 :: r => r | _ => c :: s end) = c :: s).
  { repeat match goal with |- (match ?x with _ => _ end) = _ => destruct x; try reflexivity end; lia. }
  rewrite Es, all_digits_ok by exact D1. rewrite bool_decide_eq_false_2 by discriminate. cbn [orb negb]. rewrite D2.
  by rewrite (proj2 (Z.ltb_lt _ _) Hn).
Qed.

Lemma jfield_status k h : jfield k (show_status h) = match assoc (chars k) (show_height h) with Some v => v | None => JNull end.
Proof. reflexivity. Qed.

Lemma status_shown (h : option Z) : (match h with Some n => uN 64 n | None => True end) ->
  parse_status (show_status h) = mkTxStatus (bool_decide (is_Some h)) h.
Proof.
  intros Hh. destruct h as [n|]; [|done]. unfold parse_status. rewrite bool_decide_eq_true_2 by eauto.
  change (jfield "confirmed" (show_status (Some n))) with (JBool true). change (jfield "block_height" (show_status (Some n))) with (JNum n).
  by rewrite as_u64_ok.
Qed.

Lemma outpoint_shown o : uN 32 (bo_vout o) -> parse_outpoint (show_outpoint o) = Some o.
Proof.
  intros Ho. apply u32_u64 in Ho as [H1 H2]. unfold parse_outpoint. change (jfield "txid" (show_outpoint o)) with (JStr (bo_txid o)).
  change (jfield "vout" (show_outpoint o)) with (JNum (bo_vout o)). cbn [as_str mbind option_bind]. rewrite as_u64_ok by done. cbn. rewrite H2. by destruct o.
Qed.

Lemma txout_shown o : bytes_ok (to_scriptpubkey o) -> uN 64 (to_value_sat o) -> parse_txout (show_txout o) = Some o.
Proof.
  intros Hs Hv. unfold parse_txout. change (jfield "scriptpubkey" (show_txout o)) with (JStr (bytes_to_hex (to_scriptpubkey o))).
  change (jfield "value" (show_txout o)) with (JNum (to_value_sat o)). cbn [as_str mbind option_bind].
  rewrite as_bytes_ascii by (eapply Forall_impl; [by apply hex_ascii|]; cbn; lia). rewrite hex_roundtrip by done. cbn [mbind option_bind].
  rewrite as_u64_ok by done. cbn. by destruct o.
Qed.

(** The fields of a transaction are within the widths of the client's types. *)
Record address_tx_ok (t : BtcAddressTx) : Prop := mkAddressTxOk {
  ao_spends : Forall (fun o => uN 32 (bo_vout o)) (at_spends t);
  ao_outputs : Forall (fun o => bytes_ok (to_scriptpubkey o) /\ uN 64 (to_value_sat o)) (at_outputs t)
}.

Lemma omap_shown {A B} (show : A -> B) (parse : B -> option A) (P : A -> Prop) l :
  (forall x, P x -> parse (show x) = Some x) -> Forall P l -> omap parse (map show l) = l.
Proof. intros H. induction 1 as [|x l Hx Hl IH]; [done|]. cbn. by rewrite H, IH. Qed.

Lemma map_shown {A B} (show : A -> B) (parse : B -> A) (P : A -> Prop) l :
  (forall x, P x -> parse (show x) = x) -> Forall P l -> map parse (map show l) = l.
Proof. intros H. induction 1 as [|x l Hx Hl IH]; [done|]. cbn. by rewrite H, IH. Qed.

Lemma address_tx_shown t : address_tx_ok t -> parse_address_tx (show_address_tx t) = t.
Proof.
  intros [Hs Ho]. unfold parse_address_tx.
  change (jfield "txid" (show_address_tx t)) with (JStr (at_txid t)). change (jfield "vin" (show_address_tx t)) with (JArr (map show_outpoint (at_spends t))).
  change (jfield "vout" (show_address_tx t)) with (JArr (map show_txout (at_outputs t))). cbn [as_str as_array].
  rewrite (omap_shown _ _ _ _ outpoint_shown Hs), (omap_shown _ _ _ _ (fun o '(conj H1 H2) => txout_shown o H1 H2) Ho). by destruct t.
Qed.

Record utxo_ok (u : Utxo) : Prop := mkUtxoOk {
  uo_vout : uN 32 (ux_vout u);
  uo_value : uN 64 (ux_value u);
  uo_height : opt_u32 (ux_block_height u);
  uo_confirmed : ux_confirmed u = bool_decide (is_Some (ux_block_height u))
}.

Lemma utxo_shown u : utxo_ok u -> parse_utxo (show_utxo u) = u.
Proof.
  intros [Hn Hv Hh Hc]. apply u32_u64 in Hn as [Hn1 Hn2]. unfold parse_utxo.
  change (jfield "txid" (show_utxo u)) with (JStr (ux_txid u)). change (jfield "vout" (show_utxo u)) with (JNum (ux_vout u)).
  change (jfield "value" (show_utxo u)) with (JNum (ux_value u)). change (jfield "status" (show_utxo u)) with (show_status (ux_block_height u)).
  rewrite !as_u64_ok, Hn2 by done. destruct u as [txid vout value conf bh]. cbn [ux_txid ux_vout ux_value ux_confirmed ux_block_height as_str] in *. subst conf.
  destruct bh as [n|]; [|done]. apply u32_u64 in Hh as [H1 H2]. change (jfield "confirmed" (show_status (Some n))) with (JBool true).
  change (jfield "block_height" (show_status (Some n))) with (JNum n). rewrite as_u64_ok, H2 by done. cbn [as_bool].
  by rewrite bool_decide_eq_true_2 by eauto.
Qed.

(** ** An indexer in front of a chain *)

Section served.
Context {N : Type} `{H : HttpText N} (json_parse : str -> str + Json).

(** The answer to a path is a document that parses to [v]. *)
Definition answers (net : N) (base path : str) (v : Json) : Prop :=
  exists body, http_get net (base ++ path) = TextBody body /\ json_parse body = inr v.

(** What the broadcast gateway reads: a tip, the unspent outputs of an address, and of a
    transaction that it is unknown, unconfirmed or in a block *)
Record indexer_serves (net : N) (base : str) (tip : Z) (utxos : str -> list Utxo) (height : str -> option (option Z)) : Prop := mkIndexerServes {
  iv_tip : http_get net (base ++ chars "/blocks/tip/height") = TextBody (u64_to_string tip) /\ uN 32 tip;
  iv_utxos : forall a, answers net base (chars "/address/" ++ a ++ chars "/utxo") (JArr (map show_utxo (utxos a))) /\ Forall utxo_ok (utxos a);
  iv_tx : forall txid, match height txid with
    | None => exists body, http_get net (base ++ chars "/tx/" ++ txid) = TextStatus 404 body
    | Some h => answers net base (chars "/tx/" ++ txid) (JObj [(chars "txid", JStr txid); (chars "status", show_status h)]) /\ opt_u32 h
    end
}.

(** The broadcast gateway is transparent over such an indexer; a transaction it does not know
    reads as unconfirmed.  A broadcast posts the hex it was given under the base it was built
    with, and that base names a test network. *)
Theorem btc_gateway_exact (net : N) (g : BtcSignetGateway) base tip utxos height (address txid hex : str) :
  signet_gateway_new base = Ok g -> indexer_serves net (bg_base g) tip utxos height ->
  signet_tip_height net g = Ok tip /\ address_utxos json_parse net g address = Ok (utxos address)
  /\ tx_block_height json_parse net g txid = Ok (match height txid with Some (Some h) => Some h | _ => None end)
  /\ fst (broadcast net g hex) = fst (http_send net (bg_base g ++ chars "/tx") hex)
  /\ (forall t, snd (broadcast net g hex) = Ok t -> exists b, snd (http_send net (bg_base g ++ chars "/tx") hex) = TextBody b /\ t = trim b)
  /\ (contains (map to_ascii_lowercase (bg_base g)) (chars "signet") = true \/ contains (map to_ascii_lowercase (bg_base g)) (chars "testnet") = true).
Proof.
  intros Hnew [[Ht Htip] Hu Hx].
  assert (Hg : contains (map to_ascii_lowercase (bg_base g)) (chars "signet") = true \/ contains (map to_ascii_lowercase (bg_base g)) (chars "testnet") = true).
  { unfold signet_gateway_new in Hnew. destruct (contains _ (chars "signet")) eqn:E1, (contains _ (chars "testnet")) eqn:E2; try discriminate Hnew;
      injection Hnew as <-; auto. }
  split_and!; [| | | | |exact Hg].
  - unfold signet_tip_height, signet_get. rewrite Ht. by rewrite (parse_height_text 32 tip ltac:(lia) Htip).
  - destruct (Hu address) as [(body & Hb & Hp) Hok]. unfold address_utxos, signet_get. rewrite Hb. unfold parse_utxos. rewrite Hp. cbn [as_array ok_or].
    f_equal. exact (map_shown _ _ _ _ utxo_shown Hok).
  - specialize (Hx txid). unfold tx_block_height, signet_get. destruct (height txid) as [h|].
    + destruct Hx as [(body & Hb & Hp) Hh]. rewrite Hb, Hp. change (jfield "status" _) with (show_status h).
      destruct h as [n|]; [|done]. apply u32_u64 in Hh as [H1 H2]. change (jfield "confirmed" (show_status (Some n))) with (JBool true).
      change (jfield "block_height" (show_status (Some n))) with (JNum n). cbn [as_bool]. rewrite bool_decide_eq_true_2 by done. by rewrite as_u64_ok, H2.
    + destruct Hx as [body ->]. reflexivity.
  - unfold broadcast. by destruct (http_send _ _ _).
  - unfold broadcast. destruct (http_send _ _ _) as [n o]. cbn [snd]. intros t. destruct o; try discriminate. intros [= <-]. eauto.
Qed.

(** *** The reads of the verifier *)

(** The chain is within the widths of the client's types. *)
Record chain_typed (ch : BtcChain) : Prop := mkChainTyped {
  ct_txs : forall t h, (t, h) ∈ bc_txs ch -> address_tx_ok t /\ match h with Some n => uN 64 n | None => True end;
  ct_tip : uN 64 (bc_tip ch)
}.

(** The indexer's answers are the documents of the chain: for an address a page [listed] of its
    history, newest first, so that an output to the address is not shown without the
    transaction that spends it; for a transaction its status; and the tip. *)
Record esplora_serves (ch : BtcChain) (script_of : str -> bytes) (net : N) (base : str) (listed : str -> list BtcAddressTx) : Prop := mkEsploraServes {
  ev_txs : forall a, answers net base (chars "/address/" ++ a ++ chars "/txs") (JArr (map show_address_tx (listed a)));
  ev_listed : forall a t, t ∈ listed a -> exists h, (t, h) ∈ bc_txs ch;
  ev_spends : forall a t i value u h, t ∈ listed a -> at_outputs t !! i = Some (mkTxOut (script_of a) value) -> (u, h) ∈ bc_txs ch ->
    mkOutpoint (at_txid t) (wrapN 32 (Z.of_nat i)) ∈ at_spends u -> u ∈ listed a;
  ev_status : forall txid, answers net base (chars "/tx/" ++ txid ++ chars "/status") (show_status (height_of ch txid));
  ev_tip : http_get net (base ++ chars "/blocks/tip/height") = TextBody (u64_to_string (bc_tip ch))
}.

#[local] Instance device_reads : BitcoinReads (HttpBitcoinReads N) := http_bitcoin_reads json_parse.

Lemma height_of_typed ch txid : chain_typed ch -> match height_of ch txid with Some n => uN 64 n | None => True end.
Proof.
  intros Hc. unfold height_of. destruct (List.find _ _) as [[t h]|] eqn:E; [|done]. apply List.find_some in E as [Hin _].
  apply list_elem_of_In in Hin. exact (proj2 (ct_txs _ Hc _ _ Hin)).
Qed.

Lemma reads_exact ch script_of r listed a txid :
  chain_typed ch -> esplora_serves ch script_of (hb_net r) (hb_base r) listed ->
  address_txs r a = Ok (listed a) /\ tx_status r txid = Ok (mkTxStatus (bool_decide (is_Some (height_of ch txid))) (height_of ch txid))
  /\ tip_height r = Ok (bc_tip ch).
Proof.
  intros Hc [Htxs Hl _ Hs Ht]. cbn [address_txs tx_status tip_height device_reads http_bitcoin_reads]. split_and!.
  - destruct (Htxs a) as (body & Hb & Hp). unfold http_address_txs, reads_get, reads_json. rewrite Hb, Hp. cbn [as_array ok_or]. f_equal.
    assert (Hok : Forall address_tx_ok (listed a)) by (apply Forall_forall; intros t Hin; destruct (Hl a t Hin) as [h Hh]; exact (proj1 (ct_txs _ Hc _ _ Hh))).
    exact (map_shown _ _ _ _ address_tx_shown Hok).
  - destruct (Hs txid) as (body & Hb & Hp). unfold http_tx_status, reads_get, reads_json. rewrite Hb, Hp. f_equal. by apply status_shown, height_of_typed.
  - unfold http_tip_height, reads_get. rewrite Ht. by rewrite (parse_height_text 64 (bc_tip ch) ltac:(lia) (ct_tip _ Hc)).
Qed.

Lemma reads_honest ch script_of r listed :
  chain_typed ch -> esplora_serves ch script_of (hb_net r) (hb_base r) listed -> BtcHonest ch script_of r.
Proof.
  intros Hc Hs. pose proof (fun a txid => reads_exact ch script_of r listed a txid Hc Hs) as Hr. split.
  - intros a txs t E Hin. rewrite (proj1 (Hr a [])) in E. injection E as <-. by apply (ev_listed _ _ _ _ _ Hs a).
  - intros a txs t i value u h E Hin. rewrite (proj1 (Hr a [])) in E. injection E as <-. by apply (ev_spends _ _ _ _ _ Hs a).
  - intros txid s h E. rewrite (proj1 (proj2 (Hr [] txid))) in E. injection E as <-. unfold confirmed_at. cbn.
    case_bool_decide; [|discriminate]. unfold height_of. destruct (List.find _ _) as [[u k]|] eqn:E; [|discriminate]. intros ->.
    apply List.find_some in E as [Hu E]. apply list_elem_of_In in Hu. bool_prop. eauto.
  - intros t E. rewrite (proj2 (proj2 (Hr [] []))) in E. injection E as <-. lia.
Qed.

(** An output with the script is found by the scan. *)
Lemma scan_outputs_some spk txid outs : forall i acc,
  (is_Some acc.1 \/ exists o, o ∈ outs /\ to_scriptpubkey o = spk) -> is_Some (scan_outputs spk txid i outs acc).1.
Proof.
  induction outs as [|o outs IH]; intros i [f w] Hs; cbn [scan_outputs].
  - destruct Hs as [Hs|(o & Ho & _)]; [exact Hs|by apply not_elem_of_nil in Ho].
  - apply IH. case_bool_decide as E.
    + left. destruct f; cbn; eauto.
    + destruct Hs as [Hs|(x & [->|Hx]%elem_of_cons & Ex)]; [left; by destruct (is_p2wsh _)|contradiction|right; eauto].
Qed.

Lemma scan_txs_some spk txs t o :
  t ∈ txs -> o ∈ at_outputs t -> to_scriptpubkey o = spk -> is_Some (scan_txs spk txs).1.
Proof.
  unfold scan_txs. intros Ht Ho Eo.
  assert (Hgen : forall l acc, (is_Some acc.1 \/ t ∈ l) ->
    is_Some (foldl (fun acc tx => scan_outputs spk (at_txid tx) 0 (at_outputs tx) acc) acc l).1).
  { induction l as [|u l IH]; intros acc Hs; cbn [foldl].
    - destruct Hs as [Hs|Hs]; [exact Hs|by apply not_elem_of_nil in Hs].
    - apply IH. destruct Hs as [Hs|[->|Hs]%elem_of_cons]; [left; apply scan_outputs_some; by left| |by right].
      left. apply scan_outputs_some. right. eauto. }
  apply Hgen. by right.
Qed.

(** The one output of the chain with a script *)
Definition sole_output (txs : list BtcAddressTx) (spk : bytes) (t : BtcAddressTx) (i : nat) (value : Z) : Prop :=
  t ∈ txs /\ at_outputs t !! i = Some (mkTxOut spk value)
  /\ forall u j v, u ∈ txs -> at_outputs u !! j = Some (mkTxOut spk v) -> u = t /\ j = i.

Lemma scan_sole txs spk t i value : sole_output txs spk t i value ->
  exists w, scan_txs spk txs = (Some (at_txid t, wrapN 32 (Z.of_nat i), value), w).
Proof.
  intros (Ht & Ho & Hsole). pose proof (scan_txs_found spk txs) as Hf.
  destruct (scan_txs_some spk txs t (mkTxOut spk value) Ht) as [[[id vout] v] Es]; [by eapply list_elem_of_lookup_2|done|].
  destruct (scan_txs spk txs) as [f w]. cbn in Es, Hf. subst f. exists w.
  destruct (Hf _ _ _ eq_refl) as (u & j & Hu & <- & -> & Hj). destruct (Hsole u j v Hu Hj) as [-> ->].
  rewrite Ho in Hj. by simplify_eq.
Qed.
End served.

(** ** Properties *)

(** C14: over the HTTP client the Bitcoin gate says what the chain says.  Whatever the parser and
    the transport, if the primary indexer's answers are the esplora documents of a chain and the
    watched address stands for the watched script: a funding found at a positive depth is an
    output of that chain with exactly that script and the reported amount, unspent, and at least
    that deep.  And on the counterparty leg, under the agreed hashlock, when exactly one output
    the indexer lists has the script, it is in a block and nothing listed spends it, a verifier
    without a second source finds it, with its amount and its exact depth. *)
Theorem btc_http_funding_on_chain {N : Type} `{HT : HttpText N} (json_parse : str -> str + Json) (ch : BtcChain)
    (script_of : str -> bytes) (v : BtcHtlcVerifier (HttpBitcoinReads N)) (listed : str -> list BtcAddressTx) (x : HtlcExpectation)
    (Hwf : btc_chain_wf ch) (Htyped : chain_typed ch) (Haddr : script_of (bv_expected_addr v) = bv_expected_spk v)
    (Hserves : esplora_serves json_parse ch script_of (hb_net (bv_reads v)) (hb_base (bv_reads v)) listed) :
  let gate := observe (FundingVerifier := BtcHtlcVerifier_verifier (BR := http_bitcoin_reads json_parse)) v x in
  (forall a t d, gate = Found a t d -> 1 <= d ->
     bv_hashlock v = x_hashlock x /\ t = bv_cltv_locktime v
     /\ exists h, unspent_output ch (bv_expected_spk v) a h /\ d <= bc_tip ch - h + 1)
  /\ (forall t i value h, sole_output (listed (bv_expected_addr v)) (bv_expected_spk v) t i value -> (t, Some h) ∈ bc_txs ch ->
        (forall u, u ∈ listed (bv_expected_addr v) -> mkOutpoint (at_txid t) (wrapN 32 (Z.of_nat i)) ∉ at_spends u) ->
        x_leg x = LegCounterparty -> bv_hashlock v = x_hashlock x -> bv_secondary v = None -> bc_tip ch < 2 ^ 32 - 1 ->
        gate = Found value (bv_cltv_locktime v) (bc_tip ch - h + 1)).
Proof.
  intros gate. split.
  - intros a t d Hg Hd.
    exact (btc_funding_on_chain (BR := http_bitcoin_reads json_parse) ch script_of v x a t d Hwf (reads_honest json_parse ch _ _ listed Htyped Hserves) Haddr Hg Hd).
  - intros t i value h Hsole Hin Hfree Hx Hh Hsec Htip. unfold gate. cbn [observe BtcHtlcVerifier_verifier]. rewrite Hx. unfold observe_btc.
    rewrite bool_decide_true by exact Hh. cbn [negb].
    destruct (reads_exact json_parse ch script_of (bv_reads v) listed (bv_expected_addr v) (at_txid t) Htyped Hserves) as (E1 & E2 & E3).
    unfold device_reads in E1, E2, E3. rewrite E1. destruct (scan_sole _ _ _ _ _ Hsole) as [w ->].
    assert (Hsp : is_spent (listed (bv_expected_addr v)) (at_txid t) (wrapN 32 (Z.of_nat i)) = false).
    { destruct (is_spent _ _ _) eqn:E; [|done]. unfold is_spent in E. apply existsb_exists in E as (u & Hu & E). apply existsb_exists in E as (o & Ho & E).
      apply bool_decide_eq_true in E. subst o. exfalso. apply (Hfree u); by apply list_elem_of_In. }
    rewrite Hsp, E2, E3. unfold confirmed_at, btc_cross_read. cbn [ts_confirmed ts_block_height]. rewrite (height_of_spec _ _ _ Hwf Hin), Hsec.
    rewrite bool_decide_eq_true_2 by eauto. f_equal. pose proof (bw_height _ Hwf _ _ Hin) as Hbw.
    unfold clamp_u32, sat_add, sat_sub. rewrite Z.max_r, Z.min_r by lia. destruct (Z.ltb_spec (bc_tip ch - h + 1) (2 ^ 32)); lia.
Qed.

(** ** The gate over an agreed contract *)

(** [from_params]: the verifier that watches the contract of the agreed terms *)
Definition from_params `{B : BitcoinLib} {R} (reads : R) (params : BtcHtlcParams) (network : BtcNetwork) : BtcHtlcVerifier R :=
  btc_verifier_new reads (script_pubkey params network) (p2wsh_address params network) (bp_hash_root params) (Z.max (bp_cltv_locktime params) 0).

(** The verifier of a handle's contract, over the HTTP client, at any point of the handle's life,
    when the address of a contract stands for its script:
    a funding it finds is an unspent output of the chain that pays exactly the script both sides
    derive from the agreed parameters, and the lock time it reports is the agreed timeout in
    whole seconds, never earlier. *)
Theorem handle_contract_watched `{C : Crypto} `{B : BitcoinLib} `{T : BitcoinText} {N : Type} `{HT : HttpText N}
    (json_parse : str -> str + Json) (ch : BtcChain) (script_of : str -> bytes) (listed : str -> list BtcAddressTx) (reads : HttpBitcoinReads N)
    (params : FfiSwapParams) (nim_key : EnclaveKey) (btc_key : BtcEnclaveKey) (h0 h : SwapEngineHandle)
    (log : list (FfiCall * res SwapEngineError (option FfiSwapEffect))) (x : HtlcExpectation) (a t d : Z) :
  btc_chain_wf ch -> chain_typed ch -> esplora_serves json_parse ch script_of (hb_net reads) (hb_base reads) listed ->
  (forall p net, script_of (p2wsh_address p net) = script_pubkey p net) ->
  uN 64 (sp_counterparty_timeout_ms params) -> handle_made params nim_key btc_key h0 -> handle_calls h0 log h ->
  let leg := en_btc (sh_inner h) in
  observe (FundingVerifier := BtcHtlcVerifier_verifier (BR := http_bitcoin_reads json_parse)) (from_params reads (bl_htlc leg) (bl_network leg)) x = Found a t d ->
  1 <= d ->
  let agreed := mkBtcParams (sp_hashlock params) (sp_claimant_btc_pubkey params) (sp_funder_btc_pubkey params)
                  (cltv_seconds_from_ms (sp_counterparty_timeout_ms params)) in
  x_hashlock x = sp_hashlock params
  /\ sp_counterparty_timeout_ms params <= 1000 * t < sp_counterparty_timeout_ms params + 1000
  /\ exists height, unspent_output ch (script_pubkey agreed (btc_network_of (sp_network params))) a height /\ d <= bc_tip ch - height + 1.
Proof.
  intros Hwf Htyped Hserves Haddr Htime Hmade Hcalls leg Hg Hd agreed.
  destruct (handle_made_engine _ _ _ _ Hmade) as (spk & e0 & -> & Hp & _ & _ & _ & Hb & _).
  destruct (handle_inv_run e0 log h Hp Hcalls) as [_ (_ & Eb & _) _ _ _ _ _].
  assert (El : bl_htlc leg = agreed /\ bl_network leg = btc_network_of (sp_network params)) by (unfold leg; by rewrite Eb, Hb).
  destruct El as [El1 El2]. rewrite El1, El2 in Hg.
  destruct (btc_funding_on_chain (BR := http_bitcoin_reads json_parse) ch script_of (from_params reads agreed (btc_network_of (sp_network params))) x a t d Hwf
    (reads_honest json_parse ch script_of reads listed Htyped Hserves) (Haddr _ _) Hg Hd)
    as (Hh & -> & height & Hu & Hdepth).
  cbn in Hh. destruct (cltv_rounds_up _ Htime) as [Hc Hpos]. unfold uN in Hpos. split_and!; [done | cbn; lia.. | eauto].
Qed.

(** *** A chain of one funding *)

Definition toy_funding_tx : BtcAddressTx := mkAddressTx (chars "f1") [] [mkTxOut (0 :: 0x20 :: replicate 32 9) 120000].
Definition toy_btc_chain : BtcChain := mkBtcChain [(toy_funding_tx, Some 100)] 105.

(** The bodies are tags, which the parser knows. *)
Definition toy_json (body : list Z) : list Z + Json :=
  match body with
  | [1] => inr (JArr [show_address_tx toy_funding_tx])
  | [2] => inr (show_status (Some 100))
  | [3] => inr (show_status None)
  | _ => inl (chars "expected value")
  end.

(** The status of the funding, that of any other transaction, a list of transactions, the tip *)
Definition toy_get (url : list Z) : TextOutcome :=
  if bool_decide (url = DEFAULT_SIGNET_API ++ chars "/tx/" ++ chars "f1" ++ chars "/status") then TextBody [2] else
  match reverse url with
  | 115 :: 117 :: 116 :: _ => TextBody [3]
  | 115 :: 120 :: 116 :: _ => TextBody [1]
  | _ => TextBody (chars "105")
  end.

#[local] Instance toy_net : HttpText unit := {| http_get _ := toy_get; http_send n _ _ := (n, TextBody []) |}.

Definition toy_reads : HttpBitcoinReads unit := mkHttpReads DEFAULT_SIGNET_API tt.

Lemma toy_height txid : height_of toy_btc_chain txid = if bool_decide (txid = chars "f1") then Some 100 else None.
Proof.
  unfold height_of, toy_btc_chain. cbn [List.find bc_txs fst at_txid toy_funding_tx]. case_bool_decide as E1; case_bool_decide as E2; congruence.
Qed.

Lemma toy_serves script_of : esplora_serves toy_json toy_btc_chain script_of (hb_net toy_reads) (hb_base toy_reads) (fun _ => [toy_funding_tx]).
Proof.
  constructor.
  - intros a. exists [1]. split; [|reflexivity]. cbn [http_get toy_net hb_net toy_reads hb_base]. unfold toy_get. rewrite bool_decide_eq_false_2.
    + rewrite !reverse_app. reflexivity.
    + intros E. apply (f_equal reverse) in E. rewrite !reverse_app in E. vm_compute in E. discriminate.
  - intros _ t ->%list_elem_of_singleton. exists (Some 100). left.
  - intros _ t i value u h _ _ Hu Ho. apply list_elem_of_singleton in Hu. simplify_eq. cbn [at_spends toy_funding_tx] in Ho. by apply not_elem_of_nil in Ho.
  - intros txid. rewrite toy_height. unfold answers. cbn [http_get toy_net hb_net toy_reads hb_base]. unfold toy_get.
    destruct (decide (txid = chars "f1")) as [->|E].
    + exists [2]. split; vm_compute; reflexivity.
    + rewrite (bool_decide_eq_false_2 (txid = _)) by done. exists [3]. split; [|reflexivity]. rewrite bool_decide_eq_false_2.
      * rewrite !reverse_app. reflexivity.
      * intros E'. apply E. apply app_inv_head in E'. apply app_inv_head in E'. by apply app_inv_tail in E'.
  - vm_compute. reflexivity.
Qed.

Lemma toy_chain_ok : btc_chain_wf toy_btc_chain /\ chain_typed toy_btc_chain.
Proof.
  split; constructor.
  - intros t u h k Ht%list_elem_of_singleton Hu%list_elem_of_singleton _. by simplify_eq.
  - intros t h Ht%list_elem_of_singleton. simplify_eq. cbn. lia.
  - intros t h Ht%list_elem_of_singleton. simplify_eq. split; [|unfold uN; lia]. constructor; [constructor|]. apply Forall_singleton.
    split; [apply bytes_okb_ok; vm_compute; reflexivity|vm_compute; split; congruence].
  - unfold uN. cbn. lia.
Qed.

Lemma btc_http_funding_on_chain_witness :
  let v := btc_verifier_new toy_reads (0 :: 0x20 :: replicate 32 9) (chars "tb1q") (replicate 32 5) 1000003601 in
  observe (FundingVerifier := BtcHtlcVerifier_verifier (BR := http_bitcoin_reads toy_json)) v (mkExpect LegCounterparty (replicate 32 5) 120000 1000003601 [] 0)
  = Found 120000 1000003601 6.
Proof.
  intros v. destruct toy_chain_ok as [Hw Hc].
  destruct (btc_http_funding_on_chain toy_json toy_btc_chain (fun _ => 0 :: 0x20 :: replicate 32 9) v (fun _ => [toy_funding_tx])
    (mkExpect LegCounterparty (replicate 32 5) 120000 1000003601 [] 0) Hw Hc eq_refl (toy_serves _)) as [_ Hg].
  apply (Hg toy_funding_tx 0%nat 120000 100); try reflexivity.
  - split_and!; [left|reflexivity|]. intros u j w Hu Hj. apply list_elem_of_singleton in Hu. subst u. split; [done|].
    destruct j as [|j]; [done|]. discriminate Hj.
  - left.
  - intros u Hu. apply list_elem_of_singleton in Hu. subst u. apply not_elem_of_nil.
Defined.

(** ** The guard of the broadcast base *)

(** The guard looks for a word anywhere in the base: a base that leaves the test network's path
    again passes it. *)
Lemma signet_guard_takes_any_mention :
  signet_gateway_new (chars "https://mempool.space/testnet/../api") = Ok (mkSignetGateway (chars "https://mempool.space/testnet/../api"))
  /\ signet_gateway_new (chars "https://mempool.space/api") = Err (NotSignet (chars "https://mempool.space/api")).
Proof. split; vm_compute; reflexivity. Qed.
