(* ===== verification/Telemetry.v ===== *)
(** * Telemetry: what a node shows of itself ([tick_stats.rs], [swap_health.rs], [swap_mirror.rs])

    The heartbeats of the worker, the health of discovery and the mirror of the live swaps with
    their stopwatch.  The wall clock is an argument; [usize] is 64 bits wide and a sum that leaves
    it panics, as with overflow checks. *)

From stdpp Require Import base list gmap strings sorting.
From Stdlib Require Import ZArith Lia.
From S2P Require Import Prelude Packet Crypto SwapWire Swap SwapIntent FundingVerify SwapMessages SwapCoordinator SwapSession SwapNode Address Gateway Engine SwapFfi.
Open Scope Z_scope.

(** ** Heartbeats ([tick_stats.rs]) *)

Definition KIND_INBOUND : Z := 1.
Definition KIND_LOCAL_TX : Z := 2.
Definition KIND_REQUEST_SYNC : Z := 3.
Definition KIND_SYNC_TICK : Z := 4.
Definition KIND_BEACON_TICK : Z := 5.
Definition KIND_SWAP_FAST_TICK : Z := 6.
Definition KIND_BALANCE_QUERY : Z := 7.
Definition KIND_HISTORY_QUERY : Z := 8.
Definition KIND_CHAT : Z := 9.
Definition KIND_STOP_ADVERTISING : Z := 10.

Definition kind_of (j : Job) : Z :=
  match j with
  | Inbound _ _ => KIND_INBOUND
  | LocalTx _ => KIND_LOCAL_TX
  | RequestSync => KIND_REQUEST_SYNC
  | SyncTick => KIND_SYNC_TICK
  | BeaconTick => KIND_BEACON_TICK
  | SwapFastTick => KIND_SWAP_FAST_TICK
  | BalanceQuery _ => KIND_BALANCE_QUERY
  | HistoryQuery _ => KIND_HISTORY_QUERY
  | ChatJob _ => KIND_CHAT
  | StopAdvertising => KIND_STOP_ADVERTISING
  | Shutdown => 0
  end.

Record TickStats : Type := mkTicks {
  tk_jobs_started : Z;
  tk_jobs_finished : Z;
  tk_last_kind : Z;
  tk_last_started_ms : Z;
  tk_last_finished_ms : Z
}.

Definition ticks_new : TickStats := mkTicks 0 0 0 0 0.

Definition job_started (t : TickStats) (j : Job) (now : Z) : TickStats :=
  mkTicks (wrapN 64 (tk_jobs_started t + 1)) (tk_jobs_finished t) (kind_of j) now (tk_last_finished_ms t).

Definition job_finished (t : TickStats) (now : Z) : TickStats :=
  mkTicks (tk_jobs_started t) (wrapN 64 (tk_jobs_finished t + 1)) (tk_last_kind t) (tk_last_started_ms t) now.

Record FfiTickStats : Type := mkFfiTicks { ft_stats : TickStats; ft_now_ms : Z }.

Definition tick_snapshot (t : TickStats) (now : Z) : FfiTickStats := mkFfiTicks t now.

(** The worker's loop around its jobs: a job it takes is stamped, and again when it is done, if
    it ever is; a [Shutdown] leaves the loop before the stamps. *)
Inductive beat : Type := Took (j : Job) (now : Z) | Done (now : Z).

Definition beat_step (t : TickStats) (b : beat) : TickStats :=
  match b with Took j now => job_started t j now | Done now => job_finished t now end.

(** ** Discovery health ([swap_health.rs]) *)

Inductive DominantDrop : Type := DropNone | DropRate | DropExpiry | DropSignature | DropThrottle.

Definition drop_as_str (d : DominantDrop) : string :=
  match d with
  | DropNone => "none" | DropRate => "rate" | DropExpiry => "expiry" | DropSignature => "signature" | DropThrottle => "throttle"
  end.

Inductive DiscoveryStatus : Type := DsIdle | NoCounterpartiesYet | PossiblyUnderAttack | Healthy.

Definition status_as_str (s : DiscoveryStatus) : string :=
  match s with
  | DsIdle => "Idle" | NoCounterpartiesYet => "No counterparties yet" | PossiblyUnderAttack => "Possibly under attack" | Healthy => "Healthy"
  end.

Record DiscoveryHealth : Type := mkHealth {
  dh_total_dropped : Z;
  dh_match_rate_pct : Z;
  dh_dominant_drop : DominantDrop;
  dh_status : DiscoveryStatus
}.

(** [usize] arithmetic *)
Definition usize (n : Z) : res unit Z := if n <? 2 ^ 64 then Ok n else Panic.

(** [max_by_key]: the last of the greatest *)
Fixpoint max_by_key (best : option (Z * DominantDrop)) (l : list (Z * DominantDrop)) : option (Z * DominantDrop) :=
  match l with
  | [] => best
  | x :: l => max_by_key (match best with Some b => if fst x <? fst b then Some b else Some x | None => Some x end) l
  end.

(** The biggest single drop reason; the abuse reasons go last, so that a tie flags abuse. *)
Definition dominant_drop (dropped_rate dropped_expiry dropped_throttle dropped_signature : Z) : DominantDrop :=
  match max_by_key None (filter (fun x => 0 < fst x)
          [(dropped_expiry, DropExpiry); (dropped_rate, DropRate); (dropped_throttle, DropThrottle); (dropped_signature, DropSignature)]) with
  | Some (_, d) => d
  | None => DropNone
  end.

Definition discovery_health (seen matched dropped_rate dropped_expiry dropped_throttle dropped_signature : Z) : res unit DiscoveryHealth :=
  let? d := usize (dropped_rate + dropped_expiry) in
  let? d := usize (d + dropped_throttle) in
  let? total_dropped := usize (d + dropped_signature) in
  let? scaled := usize (matched * 100) in
  let? resolved := usize (matched + total_dropped) in
  let match_rate_pct := scaled / Z.max resolved 1 in
  let dominant_drop := dominant_drop dropped_rate dropped_expiry dropped_throttle dropped_signature in
  let status :=
    if seen =? 0 then DsIdle
    else if 0 <? matched then Healthy
    else match dominant_drop with DropSignature | DropThrottle => PossiblyUnderAttack | _ => NoCounterpartiesYet end in
  Ok (mkHealth total_dropped match_rate_pct dominant_drop status).

(** ** The mirror of the live swaps ([swap_mirror.rs]) *)

Record SwapVerifyNote : Type := mkNote { vn_text : list Z; vn_attempts : Z; vn_at_ms : Z }.

Record SwapMirror : Type := mkMirror {
  sm_phase : SwapPhase;
  sm_note : option SwapVerifyNote;
  sm_started_at_ms : Z;
  sm_settled_in_ms : Z
}.

Definition leg_word (leg : SwapLegId) (counter : Asset) : list Z :=
  match leg with
  | LegNim => chars "NIM"
  | LegCounterparty => match counter with AUsdc => chars "USDC" | ABtc => chars "BTC" | ANim => chars "NIM" end
  end.

(** The dash is U+2014. *)
Definition describe_verify (r : SwapRole) (leg : SwapLegId) (counter : Asset) (result : res CoordError unit) : list Z :=
  let cp := leg_word leg counter in
  match result with
  | Ok _ => match r with
            | Responder => chars "verified " ++ [0x2014] ++ chars " funding " ++ leg_word LegCounterparty counter
            | Initiator => chars "verified " ++ [0x2014] ++ chars " revealing S"
            end
  | Err (SwapCoordinator.FundingUnverified r) =>
      match r with
      | NotFundedYet => cp ++ chars " not funded yet"
      | TooShallow have need => cp ++ chars " too shallow " ++ decimal have ++ chars "/" ++ decimal need
      | Underfunded have need => cp ++ chars " underfunded " ++ decimal have ++ chars "/" ++ decimal need
      | TimeoutTooShort _ _ => cp ++ chars " timeout too short"
      | RejMismatch MmHashlock => cp ++ chars " hashlock mismatch"
      | RejMismatch MmRecipient => cp ++ chars " recipient mismatch"
      end
  | _ => cp ++ chars " not ready"
  end.

Abbreviation Mirror := (gmap (list Z) SwapMirror).

Section mirror.
Context {V : Type}.
Abbreviation Session := (SwapSession (V:=V)).

(** What the session's table of notes adds to the counts it keeps: the last verdict's text and
    its time *)
Abbreviation Verdicts := (gmap (list Z) (list Z * Z)).

Definition verify_note (s : Session) (verdicts : Verdicts) (id : list Z) : option SwapVerifyNote :=
  (fun attempts => let '(text, at_ms) := default ([], 0) (verdicts !! id) in mkNote text attempts at_ms) <$> (s_verify_notes s !! id).

(** One entry of the rebuilt map: the timing of the previous one is carried over. *)
Definition mirror_entry (now : Z) (prev : option SwapMirror) (phase : SwapPhase) (note : option SwapVerifyNote) : SwapMirror :=
  let '(started, settled) := match prev with Some m => (sm_started_at_ms m, sm_settled_in_ms m) | None => (now, 0) end in
  let settled := if bool_decide (phase = Settled) && (settled =? 0) then Z.max (sat_sub now started) 1 else settled in
  mkMirror phase note started settled.

Definition sync_swap_phases (map_ : Mirror) (session : option Session) (verdicts : Verdicts) (now : Z) : Mirror :=
  match session with
  | None => ∅
  | Some s => foldl (fun m '(id, phase) => <[id := mirror_entry now (map_ !! id) phase (verify_note s verdicts id)]> m) ∅ (phases s)
  end.

(** One worker turn's refresh: the session it leaves, the verdicts and the clock *)
Record turn : Type := mkTurn { tn_session : option Session; tn_verdicts : Verdicts; tn_now : Z }.

Definition sync_turns (l : list turn) (m : Mirror) : Mirror :=
  foldl (fun m t => sync_swap_phases m (tn_session t) (tn_verdicts t) (tn_now t)) m l.

Definition turn_phase (id : list Z) (t : turn) : option SwapPhase :=
  s ← tn_session t; c_phase <$> (s_coordinators s !! id).

Definition turn_note (id : list Z) (t : turn) : option SwapVerifyNote :=
  s ← tn_session t; verify_note s (tn_verdicts t) id.

(** The readings of a swap since it last appeared: a turn without it forgets them. *)
Definition presence (id : list Z) (l : list turn) : list (Z * SwapPhase) :=
  foldl (fun r t => match turn_phase id t with Some p => r ++ [(tn_now t, p)] | None => [] end) [] l.

Fixpoint first_settled (r : list (Z * SwapPhase)) : option Z :=
  match r with
  | [] => None
  | (t, p) :: r => if bool_decide (p = Settled) then Some t else first_settled r
  end.

(** The stopwatch those readings should show *)
Definition stopwatch (r : list (Z * SwapPhase)) : option (Z * Z) :=
  match r with
  | [] => None
  | (t0, _) :: _ => Some (t0, match first_settled r with Some t => Z.max (sat_sub t t0) 1 | None => 0 end)
  end.

Lemma foldl_inserts_lookup {A B} (f : list Z -> A -> B) (l : list (list Z * A)) (id : list Z) : forall m : gmap (list Z) B,
  NoDup l.*1 ->
  foldl (fun m '(k, a) => <[k := f k a]> m) m l !! id
    = match (list_to_map l : gmap (list Z) A) !! id with Some a => Some (f id a) | None => m !! id end.
Proof.
  induction l as [|[k a] l IH]; intros m Hnd; [reflexivity |]. simpl in *. apply NoDup_cons in Hnd as [Hk Hnd].
  rewrite IH by done. destruct (decide (k = id)) as [-> |].
  - rewrite not_elem_of_list_to_map_1 by done. by rewrite !lookup_insert_eq.
  - by rewrite !lookup_insert_ne.
Qed.

(** The rebuilt map holds exactly the session's swaps. *)
Lemma sync_lookup m s v now id :
  sync_swap_phases m (Some s) v now !! id =
    (fun c => mirror_entry now (m !! id) (c_phase c) (verify_note s v id)) <$> (s_coordinators s !! id).
Proof.
  unfold sync_swap_phases, phases.
  rewrite (foldl_inserts_lookup (fun id phase => mirror_entry now (m !! id) phase (verify_note s v id))).
  - change (map _ (map_to_list (s_coordinators s))) with ((fun '(id, c) => (id, c_phase c)) <$> map_to_list (s_coordinators s)).
    rewrite (list_fmap_ext _ (prod_map (fun x => x) c_phase)) by (by intros ? [] ?).
    rewrite list_to_map_fmap, list_to_map_to_list, lookup_fmap. by destruct (s_coordinators s !! id).
  - rewrite <- list_fmap_compose. rewrite (list_fmap_ext _ fst) by (by intros ? [] ?). apply NoDup_fst_map_to_list.
Qed.

Lemma presence_snoc id l t :
  presence id (l ++ [t]) = match turn_phase id t with Some p => presence id l ++ [(tn_now t, p)] | None => [] end.
Proof. unfold presence. by rewrite foldl_app. Qed.

Lemma first_settled_snoc r t p :
  first_settled (r ++ [(t, p)]) =
    match first_settled r with Some u => Some u | None => if bool_decide (p = Settled) then Some t else None end.
Proof. induction r as [|[u q] r IH]; simpl; [done |]. by destruct (bool_decide (q = Settled)). Qed.

(** One more reading of a swap: the entry's times are the readings' stopwatch. *)
Lemma stopwatch_step now prev phase note r :
  stopwatch r = (fun e => (sm_started_at_ms e, sm_settled_in_ms e)) <$> prev ->
  let e := mirror_entry now prev phase note in
  stopwatch (r ++ [(now, phase)]) = Some (sm_started_at_ms e, sm_settled_in_ms e).
Proof.
  intros Hr. unfold mirror_entry. destruct prev as [e |], r as [| [t0 p0] r]; try (simplify_eq/=; done).
  - assert (Hs : t0 = sm_started_at_ms e /\
      match first_settled ((t0, p0) :: r) with Some t => Z.max (sat_sub t t0) 1 | None => 0 end = sm_settled_in_ms e)
      by (by injection Hr).
    destruct Hs as [Ht <-]. change (((t0, p0) :: r) ++ ?x) with ((t0, p0) :: (r ++ x)). unfold stopwatch.
    change ((t0, p0) :: (r ++ ?x)) with (((t0, p0) :: r) ++ x).
    rewrite first_settled_snoc, Ht. destruct (first_settled _) as [u |]; simpl.
    + destruct (Z.max (sat_sub u _) 1 =? 0) eqn:E; [lia |]. by rewrite andb_false_r.
    + by case_bool_decide.
  - simpl. by case_bool_decide.
Qed.

Lemma sync_turns_snoc l t m :
  sync_turns (l ++ [t]) m = sync_swap_phases (sync_turns l m) (tn_session t) (tn_verdicts t) (tn_now t).
Proof. unfold sync_turns. by rewrite foldl_app. Qed.

(** The settlement stopwatch: after any turns of the worker, the mirror of a node that started
    empty holds a swap exactly when the last turn's session does, with that session's phase and
    note; its start is the time of the first turn since the swap last appeared, and its settling
    time is 0 until a turn of that presence reads it settled, and from then on the distance of
    the first such turn, at least 1 -- whatever the wall clock did in between. *)
Theorem mirror_stopwatch (l : list turn) (t : turn) (id : list Z) :
  let m := sync_turns (l ++ [t]) ∅ in
  match turn_phase id t, m !! id with
  | None, None => True
  | Some p, Some e =>
      sm_phase e = p /\ sm_note e = turn_note id t
      /\ stopwatch (presence id (l ++ [t])) = Some (sm_started_at_ms e, sm_settled_in_ms e)
  | _, _ => False
  end.
Proof.
  cbv zeta. enough (H : forall l,
    stopwatch (presence id l) = (fun e => (sm_started_at_ms e, sm_settled_in_ms e)) <$> (sync_turns l ∅ !! id)).
  - rewrite presence_snoc, sync_turns_snoc. unfold turn_phase, turn_note. destruct (tn_session t) as [s |]; [| done].
    rewrite sync_lookup. simpl. destruct (s_coordinators s !! id) as [c |]; simpl; [| done]. split_and!.
    + unfold mirror_entry. by destruct (sync_turns l ∅ !! id).
    + unfold mirror_entry. by destruct (sync_turns l ∅ !! id).
    + apply stopwatch_step, H.
  - clear. induction l as [| t l IH] using rev_ind; [done |].
    rewrite presence_snoc, sync_turns_snoc. unfold turn_phase. destruct (tn_session t) as [s |]; [| done].
    rewrite sync_lookup. simpl. destruct (s_coordinators s !! id) as [c |]; simpl; [| done]. by apply stopwatch_step.
Qed.
End mirror.

Record FfiSwapMatch : Type := mkSwapMatch {
  fm_swap_id : list Z;
  fm_phase : FfiSwapPhase;
  fm_verify_note : list Z;
  fm_verify_attempts : Z;
  fm_verify_at_ms : Z;
  fm_started_at_ms : Z;
  fm_settled_in_ms : Z
}.

Definition swap_match (x : list Z * SwapMirror) : FfiSwapMatch :=
  let '(id, m) := x in
  mkSwapMatch (bytes_to_hex id) (ffi_phase (sm_phase m)) (match sm_note m with Some n => vn_text n | None => [] end)
    (match sm_note m with Some n => vn_attempts n | None => 0 end) (match sm_note m with Some n => vn_at_ms n | None => 0 end)
    (sm_started_at_ms m) (sm_settled_in_ms m).

(** The order of strings *)
Fixpoint str_le (a b : list Z) : bool :=
  match a, b with
  | [], _ => true
  | _ :: _, [] => false
  | x :: a, y :: b => (x <? y) || ((x =? y) && str_le a b)
  end.

Definition match_le (a b : FfiSwapMatch) : Prop := str_le (fm_swap_id a) (fm_swap_id b) = true.

#[export] Instance match_le_dec : RelDecision match_le.
Proof. intros a b. unfold match_le. apply _. Defined.

(** [entries] is the map in the order its table is walked. *)
Definition active_swaps (entries : list (list Z * SwapMirror)) : list FfiSwapMatch := merge_sort match_le (map swap_match entries).

(** ** What the readings mean *)

(** The worker's loop: jobs run one after the other, each stamped before and after, and perhaps
    one that has not come back. *)
Definition loop_beats (done : list (Job * Z * Z)) (running : option (Job * Z)) : list beat :=
  concat (map (fun '(j, t0, t1) => [Took j t0; Done t1]) done) ++ match running with Some (j, t0) => [Took j t0] | None => [] end.

Definition beats (t : TickStats) (l : list beat) : TickStats := foldl beat_step t l.

Lemma done_beats dn : forall t,
  0 <= tk_jobs_started t < 2 ^ 64 -> tk_jobs_finished t = tk_jobs_started t ->
  let t' := beats t (concat (map (fun '(j, t0, t1) => [Took j t0; Done t1]) dn)) in
  tk_jobs_started t' = wrapN 64 (tk_jobs_started t + len dn) /\ tk_jobs_finished t' = tk_jobs_started t'.
Proof.
  induction dn as [| [[j t0] t1] dn IH]; intros t Hb He; cbv zeta.
  - simpl. unfold len, wrapN. simpl. rewrite Z.add_0_r, Z.mod_small by done. done.
  - change (beats t _) with (beats (beat_step (beat_step t (Took j t0)) (Done t1)) (concat (map (fun '(j, t0, t1) => [Took j t0; Done t1]) dn))).
    destruct (IH (beat_step (beat_step t (Took j t0)) (Done t1))) as [H1 H2].
    + simpl. unfold wrapN. apply Z.mod_pos_bound. lia.
    + simpl. by rewrite He.
    + split; [| done]. rewrite H1. simpl. rewrite len_cons. unfold wrapN. rewrite Zplus_mod_idemp_l. f_equal. lia.
Qed.

(** The wedge is visible from outside: the started count is one ahead of the finished count, in
    64 bits, exactly while a job is running, and then the kind and the start time are that
    job's; with no job running the counts are equal. *)
Theorem wedge_visible (done : list (Job * Z * Z)) (running : option (Job * Z)) :
  let t := beats ticks_new (loop_beats done running) in
  tk_jobs_finished t = wrapN 64 (len done)
  /\ match running with
     | Some (j, t0) => tk_jobs_started t = wrapN 64 (tk_jobs_finished t + 1)
                       /\ tk_jobs_started t <> tk_jobs_finished t /\ tk_last_kind t = kind_of j /\ tk_last_started_ms t = t0
     | None => tk_jobs_started t = tk_jobs_finished t
     end.
Proof.
  cbv zeta. unfold loop_beats, beats. rewrite foldl_app.
  destruct (done_beats done ticks_new) as [H1 H2]; [simpl; lia | done |]. unfold beats in H1, H2.
  set (t := foldl beat_step ticks_new _) in *. clearbody t. change (tk_jobs_started ticks_new + len done) with (len done) in H1.
  destruct running as [[j t0] |]; simpl; rewrite H2, ?H1; [| done]. unfold wrapN. split_and!; try done.
  intros E. pose proof (Z.mod_pos_bound (len done) (2 ^ 64) ltac:(lia)) as Hb. set (n := len done mod 2 ^ 64) in *.
  destruct (decide (n = 2 ^ 64 - 1)) as [-> |]; [done |]. rewrite Z.mod_small in E by lia. lia.
Qed.

(** A reason dominates when no other has a greater count, a tie going to the likelier abuse. *)
Definition dominates (rate expiry throttle signature : Z) (d : DominantDrop) : Prop :=
  match d with
  | DropNone => rate + expiry + throttle + signature = 0
  | DropRate => 0 < rate /\ expiry <= rate /\ throttle < rate /\ signature < rate
  | DropExpiry => 0 < expiry /\ rate < expiry /\ throttle < expiry /\ signature < expiry
  | DropThrottle => 0 < throttle /\ rate <= throttle /\ expiry <= throttle /\ signature < throttle
  | DropSignature => 0 < signature /\ rate <= signature /\ expiry <= signature /\ throttle <= signature
  end.

Lemma dominant_drop_dominates rate expiry throttle signature :
  0 <= rate -> 0 <= expiry -> 0 <= throttle -> 0 <= signature ->
  dominates rate expiry throttle signature (dominant_drop rate expiry throttle signature).
Proof.
  intros. unfold dominant_drop, dominates.
  repeat (rewrite filter_cons; case_decide; cbn [fst] in *); rewrite filter_nil; cbn [max_by_key fst];
    repeat match goal with |- context [?a <? ?b] => destruct (Z.ltb_spec a b); cbn [max_by_key fst] end; simpl; lia.
Qed.

Lemma usize_ok n : n < 2 ^ 64 -> usize n = Ok n.
Proof. intros. unfold usize. by rewrite (proj2 (Z.ltb_lt _ _)). Qed.

(** Discovery health: while the counters' sums stay in 64 bits the reading exists; the total is
    the sum, the percentage is one, the dominant reason has the greatest count, and a node that
    has seen intents and matched none reads as possibly under attack exactly when forged
    signatures or throttling, together or apart, are at least as frequent as every other reason. *)
Theorem discovery_health_exact (seen matched rate expiry throttle signature : Z) :
  0 <= seen -> 0 <= matched -> 0 <= rate -> 0 <= expiry -> 0 <= throttle -> 0 <= signature ->
  matched * 100 < 2 ^ 64 -> matched + (rate + expiry + throttle + signature) < 2 ^ 64 ->
  exists h, discovery_health seen matched rate expiry throttle signature = Ok h
    /\ dh_total_dropped h = rate + expiry + throttle + signature
    /\ 0 <= dh_match_rate_pct h <= 100
    /\ dominates rate expiry throttle signature (dh_dominant_drop h)
    /\ (dh_status h = DsIdle <-> seen = 0)
    /\ (dh_status h = Healthy <-> seen <> 0 /\ 0 < matched)
    /\ (dh_status h = PossiblyUnderAttack <->
          seen <> 0 /\ matched = 0 /\ 0 < Z.max throttle signature /\ rate <= Z.max throttle signature /\ expiry <= Z.max throttle signature).
Proof.
  intros. unfold discovery_health.
  repeat (rewrite usize_ok by lia; simpl).
  eexists. split; [reflexivity |]. cbn [dh_total_dropped dh_match_rate_pct dh_dominant_drop dh_status].
  pose proof (dominant_drop_dominates rate expiry throttle signature ltac:(lia) ltac:(lia) ltac:(lia) ltac:(lia)) as Hd.
  split_and!; [lia | apply Z.div_pos; lia | apply Z.div_le_upper_bound; lia | done | ..];
    destruct (seen =? 0) eqn:Es, (0 <? matched) eqn:Em, (dominant_drop _ _ _ _); simpl in *; intuition (try done; lia).
Qed.

(** ** The listing *)

Lemma str_le_total a b : str_le a b = true \/ str_le b a = true.
Proof.
  revert b. induction a as [| x a IH]; intros [| y b]; simpl; auto. destruct (IH b) as [-> | ->];
    destruct (Z.lt_trichotomy x y) as [| [-> |]]; rewrite ?Z.eqb_refl, ?andb_true_r, ?orb_true_r; auto;
    [left | right | left | right]; by rewrite (proj2 (Z.ltb_lt _ _)).
Qed.

Lemma str_le_trans a b c : str_le a b = true -> str_le b c = true -> str_le a c = true.
Proof.
  revert b c. induction a as [| x a IH]; intros [| y b] [| z c]; simpl; try done.
  rewrite !orb_true_iff, !andb_true_iff, !Z.ltb_lt, !Z.eqb_eq. intros [|[-> ?]] [|[-> ?]]; try (left; lia). right. eauto.
Qed.

Lemma str_le_antisymm a b : str_le a b = true -> str_le b a = true -> a = b.
Proof.
  revert b. induction a as [| x a IH]; intros [| y b]; simpl; try done.
  rewrite !orb_true_iff, !andb_true_iff, !Z.ltb_lt, !Z.eqb_eq. intros [Hx | [-> Ha]] [Hy | [Hy Hb]]; try lia. f_equal. auto.
Qed.

#[local] Instance match_le_trans : Transitive match_le.
Proof. intros a b c. apply str_le_trans. Qed.

#[local] Instance match_le_total : Total match_le.
Proof. intros a b. apply str_le_total. Qed.

Lemma hex_id_inj a b : bytes_ok a -> bytes_ok b -> bytes_to_hex a = bytes_to_hex b -> a = b.
Proof. intros Ha Hb E. pose proof (hex_roundtrip a Ha) as H. rewrite E, hex_roundtrip in H by done. congruence. Qed.

(** The listing the app reads is a function of the mirror alone: however the table of swaps is
    walked, the same records come out, each swap once and in the order of their ids. *)
Theorem active_swaps_canonical (m : Mirror) (entries : list (list Z * SwapMirror)) :
  (forall id, is_Some (m !! id) -> bytes_ok id) -> entries ≡ₚ map_to_list m ->
  active_swaps entries = active_swaps (map_to_list m)
  /\ StronglySorted match_le (active_swaps entries)
  /\ active_swaps entries ≡ₚ map swap_match (map_to_list m) /\ NoDup (map fm_swap_id (active_swaps entries)).
Proof.
  intros Hok Hp.
  assert (Hperm : forall l, l ≡ₚ map_to_list m -> active_swaps l ≡ₚ map swap_match (map_to_list m)).
  { intros l Hl. unfold active_swaps. rewrite merge_sort_Permutation. by rewrite Hl. }
  assert (Hkey : forall e, e ∈ map swap_match (map_to_list m) -> exists id x, e = swap_match (id, x) /\ m !! id = Some x).
  { intros e (y & -> & Hy)%list_elem_of_fmap. destruct y as [id x]. apply elem_of_map_to_list in Hy. eauto. }
  split_and!.
  - apply (StronglySorted_unique_strong match_le).
    + intros a b Ha Hb Hab Hba. rewrite Hperm in Ha by done. rewrite Hperm in Hb by done.
      destruct (Hkey a Ha) as (i & x & -> & Hi), (Hkey b Hb) as (j & y & -> & Hj).
      pose proof (str_le_antisymm _ _ Hab Hba) as E. apply hex_id_inj in E; [| eauto..]. congruence.
    + apply StronglySorted_merge_sort; apply _.
    + apply StronglySorted_merge_sort; apply _.
    + by rewrite !Hperm.
  - apply StronglySorted_merge_sort; apply _.
  - by apply Hperm.
  - rewrite (Hperm entries Hp). change (NoDup (fm_swap_id <$> (swap_match <$> map_to_list m))).
    rewrite <- list_fmap_compose, (list_fmap_ext _ (bytes_to_hex ∘ fst)) by (by intros ? [] ?). rewrite list_fmap_compose.
    apply NoDup_fmap_2_strong; [| apply NoDup_fst_map_to_list].
    intros a b ([a' x] & -> & Ha)%list_elem_of_fmap ([b' y] & -> & Hb)%list_elem_of_fmap.
    apply elem_of_map_to_list in Ha, Hb. apply hex_id_inj; eauto.
Qed.
