(* ===== verification/Redaction.v ===== *)
(** * Redaction: how the records with key material print ([ffi_secret_redaction.rs])

    The [Debug] text of the four configurations that carry secrets into the core, character by
    character, and the theorem that this text is exactly their public view: it determines every
    public field and the lengths of the secrets, and depends on nothing else.  Which characters
    print as themselves is the standard library's Unicode table, a parameter. *)

From stdpp Require Import base list strings pretty.
From Stdlib Require Import ZArith Lia.
From S2P Require Import Prelude Packet Crypto SwapIntent Address Gateway PolygonGateway LiveDoor UsdcSend.
Open Scope Z_scope.

(** ** The formatter *)

Section debug.
Context (printable : Z -> bool).

(** [escape_debug] of one character inside a string: the characters with an escape of their own,
    then the printable ones, then the code in hexadecimal *)
Definition short_escape (c : Z) : option Z :=
  if c =? 0 then Some 48
  else if c =? 9 then Some 116
  else if c =? 13 then Some 114
  else if c =? 10 then Some 110
  else if (c =? 34) || (c =? 92) then Some c
  else None.

Definition escape_debug (c : Z) : str :=
  match short_escape c with
  | Some e => [92; e]
  | None => if printable c then [c] else [92; 117; 123] ++ hex_digits 6 c ++ [125]
  end.

Definition debug_str (s : str) : str := [34] ++ concat (map escape_debug s) ++ [34].

(** [Debug] of a [Vec<u8>] *)
Fixpoint comma_list (l : list str) : str :=
  match l with [] => [] | [x] => x | x :: l => x ++ chars ", " ++ comma_list l end.

Definition debug_bytes (b : bytes) : str := chars "[" ++ comma_list (map decimal b) ++ chars "]".

(** [f.debug_struct(name).field(..).finish()] with at least one field *)
Definition debug_field (nv : string * str) : str := chars (fst nv) ++ chars ": " ++ snd nv.

Definition debug_struct (name : string) (fields : list (string * str)) : str :=
  chars name ++ chars " { " ++ comma_list (map debug_field fields) ++ chars " }".

(** ** The records *)

Definition debug_redacted (n : Z) : str := chars "<redacted " ++ decimal n ++ chars " bytes>".

Definition debug_initiator (c : FfiLiveInitiatorConfig) : str :=
  debug_struct "FfiLiveInitiatorConfig"
    [ ("nim_luna", decimal (fi_nim_luna c)); ("usdc_micro", decimal (fi_usdc_micro c));
      ("expiry_height", decimal (fi_expiry_height c)); ("intent_seed", debug_redacted (len (fi_intent_seed c)));
      ("evm_claim_address", debug_bytes (fi_evm_claim_address c)); ("evm_gas_secret", debug_redacted (len (fi_evm_gas_secret c)));
      ("nim_rpc_url", debug_str (fi_nim_rpc_url c)); ("amoy_rpc_url", debug_str (fi_amoy_rpc_url c));
      ("htlc_address", debug_str (fi_htlc_address c)); ("delta_safe_blocks", decimal (fi_delta_safe_blocks c));
      ("min_claim_window_blocks", decimal (fi_min_claim_window_blocks c)) ].

Definition debug_responder (c : FfiLiveResponderConfig) : str :=
  debug_struct "FfiLiveResponderConfig"
    [ ("usdc_micro", decimal (fr_usdc_micro c)); ("nim_luna", decimal (fr_nim_luna c));
      ("expiry_height", decimal (fr_expiry_height c)); ("nim_claim_seed", debug_redacted (len (fr_nim_claim_seed c)));
      ("evm_funding_secret", debug_redacted (len (fr_evm_funding_secret c))); ("nim_rpc_url", debug_str (fr_nim_rpc_url c));
      ("amoy_rpc_url", debug_str (fr_amoy_rpc_url c)); ("htlc_address", debug_str (fr_htlc_address c));
      ("usdc_address", debug_str (fr_usdc_address c)); ("delta_safe_blocks", decimal (fr_delta_safe_blocks c));
      ("min_claim_window_blocks", decimal (fr_min_claim_window_blocks c)) ].

(** The derived forms of the advertised trade *)
Definition debug_asset (a : Asset) : str := chars (match a with ANim => "Nim" | ABtc => "Btc" | AUsdc => "Usdc" end).

Definition debug_standing (i : FfiStandingIntent) : str :=
  debug_struct "FfiStandingIntent"
    [ ("gives", debug_asset (si_gives i)); ("counter_asset", debug_asset (si_counter_asset i));
      ("nim_amount", decimal (si_nim_amount i)); ("counter_amount", decimal (si_counter_amount i));
      ("expiry_height", decimal (si_expiry_height i)); ("min_nim", decimal (si_min_nim i)); ("max_nim", decimal (si_max_nim i)) ].

Definition debug_option {A} (f : A -> str) (o : option A) : str :=
  match o with None => chars "None" | Some x => chars "Some(" ++ f x ++ chars ")" end.

Definition debug_participant (c : FfiParticipantConfig) : str :=
  debug_struct "FfiParticipantConfig"
    [ ("btc_pubkey", debug_bytes (pc_btc_pubkey c)); ("btc_address", debug_bytes (pc_btc_address c));
      ("max_concurrent_swaps", decimal (pc_max_concurrent_swaps c)); ("delta_safe_blocks", decimal (pc_delta_safe_blocks c));
      ("min_claim_window_blocks", decimal (pc_min_claim_window_blocks c));
      ("standing_intent", debug_option debug_standing (pc_standing_intent c)); ("intent_seed", debug_redacted (len (pc_intent_seed c))) ].

Definition debug_usdc_send (c : FfiUsdcSendConfig) : str :=
  debug_struct "FfiUsdcSendConfig"
    [ ("source_secret", debug_redacted (len (us_source_secret c))); ("to_address", debug_str (us_to_address c));
      ("amount_micro", decimal (us_amount_micro c)); ("rpc_url", debug_str (us_rpc_url c)) ].

(** ** The texts can be read back *)

(** A printer is delimited when its text, before anything that cannot continue it, says what was
    printed and where it ended. *)
Definition delimited {A} (ok : A -> Prop) (stop : str -> Prop) (f : A -> str) : Prop :=
  forall a b r r', ok a -> ok b -> stop r -> stop r' -> f a ++ r = f b ++ r' -> a = b /\ r = r'.

(** A decimal ends where the digits do. *)
Definition is_digit (c : Z) : Prop := 48 <= c <= 57.
Definition no_digit (r : str) : Prop := match r with [] => True | c :: _ => ~ is_digit c end.

Lemma span_eq (P : Z -> Prop) a : forall b r r',
  Forall P a -> Forall P b -> (match r with [] => True | c :: _ => ~ P c end) -> (match r' with [] => True | c :: _ => ~ P c end) ->
  a ++ r = b ++ r' -> a = b /\ r = r'.
Proof.
  induction a as [| x a IH]; intros [| y b] r r' Ha Hb Hr Hr' E; simpl in *.
  - done.
  - subst r. by apply Forall_cons in Hb as [].
  - subst r'. by apply Forall_cons in Ha as [].
  - injection E as -> E. apply Forall_cons in Ha as [], Hb as []. by destruct (IH b r r') as [-> ->].
Qed.

Lemma pretty_N_go_digits x : forall s, Forall is_digit (chars s) -> Forall is_digit (chars (pretty_N_go x s)).
Proof.
  induction (N.lt_wf_0 x) as [x _ IH]; intros s Hs. destruct (decide (x = 0%N)) as [-> |]; [by rewrite pretty_N_go_0 |].
  rewrite pretty_N_go_step by lia. apply IH; [apply N.div_lt; lia |].
  change (chars (String ?c s)) with (Z.of_N (Ascii.N_of_ascii c) :: chars s). constructor; [| done].
  unfold pretty_N_char, is_digit. repeat case_match; vm_compute; intuition discriminate.
Qed.

Lemma decimal_digits n : 0 <= n -> Forall is_digit (decimal n).
Proof.
  intros Hn. unfold decimal. destruct n as [| p | p]; [| | lia].
  - repeat constructor; vm_compute; intuition discriminate.
  - change (pretty (Z.pos p)) with (pretty (N.pos p)). unfold pretty, pretty_N. rewrite decide_False by done.
    apply pretty_N_go_digits. constructor.
Qed.

Lemma pretty_N_go_empty x : forall s, pretty_N_go x s = EmptyString -> s = EmptyString /\ x = 0%N.
Proof.
  induction (N.lt_wf_0 x) as [x _ IH]; intros s. destruct (decide (x = 0%N)) as [-> |]; [by rewrite pretty_N_go_0 |].
  rewrite pretty_N_go_step by lia. intros [E _]%IH; [done | apply N.div_lt; lia].
Qed.

Lemma decimal_head n : 0 <= n -> exists c t, decimal n = c :: t /\ is_digit c.
Proof.
  intros Hn. pose proof (decimal_digits n Hn) as Hd. destruct (decimal n) as [| c t] eqn:E; [| apply Forall_cons in Hd as []; eauto].
  exfalso. unfold decimal in E. destruct n as [| p | p]; [done | | lia].
  change (pretty (Z.pos p)) with (pretty (N.pos p)) in E. unfold pretty, pretty_N in E. rewrite decide_False in E by done.
  destruct (pretty_N_go (N.pos p) "") eqn:Ep; [by apply pretty_N_go_empty in Ep as [] | done].
Qed.

Lemma chars_inj s : forall t, chars s = chars t -> s = t.
Proof.
  induction s as [| c s IH]; intros [| d t] E; try done. change (Z.of_N (Ascii.N_of_ascii c) :: chars s = Z.of_N (Ascii.N_of_ascii d) :: chars t) in E.
  injection E as E1 E2. apply N2Z.inj in E1. rewrite <- (Ascii.ascii_N_embedding c), E1, Ascii.ascii_N_embedding. f_equal. auto.
Qed.

Lemma decimal_delimited : delimited (fun n => 0 <= n) no_digit decimal.
Proof.
  intros a b r r' Ha Hb Hr Hr' E. apply (span_eq is_digit) in E as [E ->]; auto using decimal_digits.
  split; [| done]. by apply chars_inj, pretty_Z_inj in E.
Qed.
Definition char_ok (c : Z) : Prop := 0 <= c < 0x110000.
Definition str_ok (s : str) : Prop := Forall char_ok s.

Lemma hex_digits_le turns c : 0 <= c -> Forall (fun x => x <= 102) (hex_digits turns c).
Proof.
  revert c. induction turns as [| turns IH]; intros c Hc; cbn [hex_digits]; [constructor |].
  assert (Hd : forall d, 0 <= d < 16 -> hex_digit d <= 102) by (intros; unfold hex_digit; case_match; lia).
  case_match; [repeat constructor; apply Hd; lia |].
  apply Forall_app. split; [apply IH, Z.div_pos; lia |]. repeat constructor. apply Hd, Z.mod_pos_bound. lia.
Qed.

Lemma hex_digits_delimited : delimited char_ok (fun r => match r with [] => True | c :: _ => ~ c <= 102 end) (hex_digits 6).
Proof.
  intros a b r r' Ha Hb Hr Hr' E. unfold char_ok in *. apply (span_eq (fun x => x <= 102)) in E as [E ->]; auto; [| apply hex_digits_le; lia..].
  split; [| done]. pose proof (hex_digits_read 24 6 a ltac:(lia) ltac:(lia)) as H1.
  rewrite E, hex_digits_read in H1 by lia. congruence.
Qed.

Lemma short_escape_spec c :
  match short_escape c with
  | Some e => e <> 117 /\ (forall d, short_escape d = Some e -> c = d)
  | None => c <> 34 /\ c <> 92
  end.
Proof.
  assert (H : forall c e, short_escape c = Some e ->
    (c = 0 /\ e = 48) \/ (c = 9 /\ e = 116) \/ (c = 13 /\ e = 114) \/ (c = 10 /\ e = 110) \/ (c = 34 /\ e = 34) \/ (c = 92 /\ e = 92)).
  { clear. intros c e. unfold short_escape. repeat case_match; intros; simplify_eq; bool_prop; lia. }
  destruct (short_escape c) as [e |] eqn:E.
  - split; [apply H in E; lia |]. intros d Hd. apply H in E, Hd. lia.
  - unfold short_escape in E. repeat case_match; try done. bool_prop. lia.
Qed.

Lemma escape_debug_delimited : delimited char_ok (fun _ => True) escape_debug.
Proof.
  intros a b r r' Ha Hb _ _ E. unfold escape_debug in E.
  pose proof (short_escape_spec a) as Sa. pose proof (short_escape_spec b) as Sb.
  destruct (short_escape a) as [e |] eqn:Ea, (short_escape b) as [f |] eqn:Eb;
    [| destruct (printable b) | destruct (printable a) | destruct (printable a), (printable b)];
    rewrite <- ?app_assoc in E; cbn [app] in E; try (injection E; intros; subst; naive_solver lia).
  injection E as E. apply hex_digits_delimited in E as [-> E]; simpl; try done; try lia.
  by injection E.
Qed.

(** A text is never taken for the closing quote. *)
Lemma escape_debug_open c r r' : escape_debug c ++ r <> 34 :: r'.
Proof.
  unfold escape_debug. pose proof (short_escape_spec c) as S. destruct (short_escape c); [done |].
  destruct (printable c); [| done]. intros E. injection E. lia.
Qed.

Lemma debug_str_delimited : delimited str_ok no_digit debug_str.
Proof.
  intros a b r r' Ha Hb _ _. unfold debug_str. rewrite <- !app_assoc. intros E%(inj _).
  revert b Ha Hb E. induction a as [| c a IH]; intros [| d b] Ha Hb E.
  - by injection E.
  - simpl in E. rewrite <- app_assoc in E. by apply eq_sym, escape_debug_open in E.
  - simpl in E. rewrite <- app_assoc in E. by apply escape_debug_open in E.
  - simpl in E. rewrite <- !app_assoc in E. apply Forall_cons in Ha as [Hc Ha], Hb as [Hd Hb].
    apply escape_debug_delimited in E as [-> E]; [| done..]. by destruct (IH b Ha Hb E) as [-> ->].
Qed.

Lemma debug_redacted_delimited : delimited (fun n => 0 <= n) no_digit debug_redacted.
Proof.
  intros a b r r' Ha Hb _ _ E. unfold debug_redacted in E. rewrite <- !app_assoc in E. apply (inj _) in E.
  apply decimal_delimited in E as [-> E]; [| done || (unfold no_digit, is_digit; simpl; lia)..]. by apply (inj _) in E.
Qed.

Lemma comma_list_app x l e :
  comma_list (x :: l) ++ e = x ++ match l with [] => e | _ => chars ", " ++ comma_list l ++ e end.
Proof. destruct l as [| y l]; [done |]. change (comma_list (x :: y :: l)) with (x ++ chars ", " ++ comma_list (y :: l)). by rewrite <- !app_assoc. Qed.

Lemma debug_bytes_delimited : delimited bytes_ok no_digit debug_bytes.
Proof.
  intros a b r r' Ha Hb _ _ E. unfold debug_bytes in E. rewrite <- !app_assoc in E. apply (inj _) in E.
  assert (Hd : forall x l e f, uN 8 x -> comma_list (map decimal (x :: l)) ++ e <> 93 :: f).
  { clear. intros x l e f Hx. cbn [map]. rewrite comma_list_app. destruct (decimal_head x ltac:(unfold uN in Hx; lia)) as (c & t & -> & Hc).
    intros E. injection E as ->. unfold is_digit in Hc. lia. }
  revert b Ha Hb E. induction a as [| x a IH]; intros [| y b] Ha Hb E.
  - split; [done |]. by injection E.
  - apply Forall_cons in Hb as [Hy _]. by apply eq_sym, (Hd y b) in E.
  - apply Forall_cons in Ha as [Hx _]. by apply (Hd x a) in E.
  - cbn [map] in E. rewrite !comma_list_app in E. apply Forall_cons in Ha as [Hx Ha], Hb as [Hy Hb].
    apply decimal_delimited in E as [-> E]; [| unfold uN in *; lia.. | destruct a; unfold no_digit, is_digit; cbn; lia | destruct b; unfold no_digit, is_digit; cbn; lia].
    destruct a, b; simpl map in E; try discriminate E; [split; [done |]; by injection E |].
    cbn [map] in IH. apply (inj _) in E. by destruct (IH _ Ha Hb E) as [-> ->].
Qed.

Lemma debug_asset_delimited : delimited (fun _ => True) no_digit debug_asset.
Proof. intros [] [] r r' _ _ _ _ E; try discriminate E; (split; [done |]); by apply (inj _) in E. Qed.

(** Two fields of the same name whose texts can be told apart *)
Definition apart (f g : string * str) : Prop :=
  fst f = fst g /\ forall r r', no_digit r -> no_digit r' -> snd f ++ r = snd g ++ r' -> snd f = snd g /\ r = r'.

Lemma delimited_apart {A} (ok : A -> Prop) f name a b : delimited ok no_digit f -> ok a -> ok b -> apart (name, f a) (name, f b).
Proof. intros H Ha Hb. split; [done |]. intros r r' Hr Hr' E. by destruct (H a b r r' Ha Hb Hr Hr' E) as [-> ->]. Qed.

Lemma fields_read fs gs : Forall2 apart fs gs -> forall r r',
  comma_list (map debug_field fs) ++ chars " }" ++ r = comma_list (map debug_field gs) ++ chars " }" ++ r' ->
  map snd fs = map snd gs /\ r = r'.
Proof.
  induction 1 as [| [n v] [m w] fs gs [En Hv] Hs IH]; intros r r' E; [split; [done |]; by injection E |].
  cbn [map fst snd] in *. subst m. rewrite !comma_list_app in E. change (debug_field (n, v)) with (chars n ++ chars ": " ++ v) in E. change (debug_field (n, w)) with (chars n ++ chars ": " ++ w) in E.
  rewrite <- !app_assoc in E. apply (inj _), (inj _) in E.
  apply Hv in E as [-> E]; [| destruct fs; unfold no_digit, is_digit; cbn; lia | destruct gs; unfold no_digit, is_digit; cbn; lia].
  destruct Hs as [| f g fs gs Hf Hs]; cbn [map] in *; [split; [done |]; by apply (inj _) in E |].
  apply (inj _) in E. by destruct (IH r r' E) as [-> ->].
Qed.

(** A struct's text says what the texts of its fields are, and where it ended. *)
Lemma debug_struct_read name fs gs r r' : Forall2 apart fs gs ->
  debug_struct name fs ++ r = debug_struct name gs ++ r' -> map snd fs = map snd gs /\ r = r'.
Proof. intros Hf E. unfold debug_struct in E. rewrite <- !app_assoc in E. do 2 apply (inj _) in E. by apply fields_read in E. Qed.

Definition standing_ok (i : FfiStandingIntent) : Prop :=
  0 <= si_nim_amount i /\ 0 <= si_counter_amount i /\ 0 <= si_expiry_height i /\ 0 <= si_min_nim i /\ 0 <= si_max_nim i.

(** A printer's text alone: what was printed *)
Lemma delimited_inj {A} (ok : A -> Prop) f a b : delimited ok no_digit f -> ok a -> ok b -> f a = f b -> a = b.
Proof. intros H Ha Hb E. apply (H a b [] []); simpl; auto. by rewrite E. Qed.

(** Reading a struct: the fields' printers are delimited, so equal texts have equal fields. *)
#[local] Hint Resolve decimal_delimited debug_str_delimited debug_redacted_delimited debug_bytes_delimited debug_asset_delimited : delim.

Ltac apart_fields :=
  repeat first [apply Forall2_nil_2 | apply Forall2_cons_2; [eapply delimited_apart; [solve [eauto with delim] | ..] |]].

Lemma same_cons {A} (x y : A) l m : x :: l = y :: m -> x = y /\ l = m.
Proof. intros E. by injection E. Qed.

Ltac same_fields E :=
  cbn [map snd] in E; repeat (apply same_cons in E as [? E]);
  repeat match goal with
         | H : decimal _ = decimal _ |- _ => apply (delimited_inj _ _ _ _ decimal_delimited) in H; [| tauto..]
         | H : debug_str _ = debug_str _ |- _ => apply (delimited_inj _ _ _ _ debug_str_delimited) in H; [| tauto..]
         | H : debug_bytes _ = debug_bytes _ |- _ => apply (delimited_inj _ _ _ _ debug_bytes_delimited) in H; [| tauto..]
         | H : debug_asset _ = debug_asset _ |- _ => apply (delimited_inj _ _ _ _ debug_asset_delimited) in H; [| done..]
         | H : debug_redacted _ = debug_redacted _ |- _ =>
             apply (delimited_inj _ _ _ _ debug_redacted_delimited) in H; [| apply len_nonneg..]
         end.

Lemma debug_standing_delimited : delimited standing_ok no_digit debug_standing.
Proof.
  intros i j r r' Hi Hj _ _ E. unfold standing_ok in Hi, Hj. unfold debug_standing in E.
  apply debug_struct_read in E as [E ->]; [| by apart_fields; try tauto].
  split; [| done]. same_fields E. destruct i, j; simpl in *; congruence.
Qed.

Lemma debug_option_delimited {A} (ok : A -> Prop) f : delimited ok no_digit f ->
  delimited (fun o => match o with Some x => ok x | None => True end) no_digit (debug_option f).
Proof.
  intros Hf [a |] [b |] r r' Ha Hb _ _ E; try discriminate E.
  - unfold debug_option in E. rewrite <- !app_assoc in E. apply (inj _) in E.
    apply Hf in E as [-> E]; [| done || (unfold no_digit, is_digit; cbn; lia)..]. split; [done |]. by apply (inj _) in E.
  - split; [done |]. by apply (inj _) in E.
Qed.

(** ** The door's configurations *)

Inductive door_config : Type :=
| CfgInitiator (c : FfiLiveInitiatorConfig)
| CfgResponder (c : FfiLiveResponderConfig)
| CfgParticipant (c : FfiParticipantConfig)
| CfgUsdcSend (c : FfiUsdcSendConfig).

Definition debug_config (c : door_config) : str :=
  match c with
  | CfgInitiator c => debug_initiator c
  | CfgResponder c => debug_responder c
  | CfgParticipant c => debug_participant c
  | CfgUsdcSend c => debug_usdc_send c
  end.

(** The same record with every byte of key material zeroed *)
Definition blank (b : bytes) : bytes := replicate (length b) 0.

Definition hide_secrets (c : door_config) : door_config :=
  match c with
  | CfgInitiator (mkFfiInitiator nim usdc expiry seed claim gas rpc amoy htlc delta window) =>
      CfgInitiator (mkFfiInitiator nim usdc expiry (blank seed) claim (blank gas) rpc amoy htlc delta window)
  | CfgResponder (mkFfiResponder usdc nim expiry seed secret rpc amoy htlc token delta window) =>
      CfgResponder (mkFfiResponder usdc nim expiry (blank seed) (blank secret) rpc amoy htlc token delta window)
  | CfgParticipant (mkParticipantConfig pubkey address cap delta window standing seed) =>
      CfgParticipant (mkParticipantConfig pubkey address cap delta window standing (blank seed))
  | CfgUsdcSend (mkUsdcSend secret to amount url) => CfgUsdcSend (mkUsdcSend (blank secret) to amount url)
  end.

(** The values the fields' types allow, of the public fields *)
Definition config_ok (c : door_config) : Prop :=
  match c with
  | CfgInitiator c =>
      0 <= fi_nim_luna c /\ 0 <= fi_usdc_micro c /\ 0 <= fi_expiry_height c /\ bytes_ok (fi_evm_claim_address c)
      /\ str_ok (fi_nim_rpc_url c) /\ str_ok (fi_amoy_rpc_url c) /\ str_ok (fi_htlc_address c)
      /\ 0 <= fi_delta_safe_blocks c /\ 0 <= fi_min_claim_window_blocks c
  | CfgResponder c =>
      0 <= fr_usdc_micro c /\ 0 <= fr_nim_luna c /\ 0 <= fr_expiry_height c
      /\ str_ok (fr_nim_rpc_url c) /\ str_ok (fr_amoy_rpc_url c) /\ str_ok (fr_htlc_address c) /\ str_ok (fr_usdc_address c)
      /\ 0 <= fr_delta_safe_blocks c /\ 0 <= fr_min_claim_window_blocks c
  | CfgParticipant c =>
      bytes_ok (pc_btc_pubkey c) /\ bytes_ok (pc_btc_address c) /\ 0 <= pc_max_concurrent_swaps c
      /\ 0 <= pc_delta_safe_blocks c /\ 0 <= pc_min_claim_window_blocks c
      /\ (match pc_standing_intent c with Some i => standing_ok i | None => True end)
  | CfgUsdcSend c => str_ok (us_to_address c) /\ 0 <= us_amount_micro c /\ str_ok (us_rpc_url c)
  end.

Lemma len_blank b : len (blank b) = len b.
Proof. unfold len, blank. by rewrite length_replicate. Qed.

Lemma blank_eq a b : len a = len b -> blank a = blank b.
Proof. unfold len, blank. intros E. by apply Nat2Z.inj in E as ->. Qed.

(** Nothing of a secret but its length reaches the text. *)
Lemma debug_hide c : debug_config (hide_secrets c) = debug_config c.
Proof.
  destruct c as [[] | [] | [] | []]; cbn [hide_secrets debug_config];
    unfold debug_initiator, debug_responder, debug_participant, debug_usdc_send;
    cbn [LiveDoor.fi_intent_seed LiveDoor.fi_evm_gas_secret LiveDoor.fr_nim_claim_seed LiveDoor.fr_evm_funding_secret
         LiveDoor.pc_intent_seed UsdcSend.us_source_secret]; by rewrite !len_blank.
Qed.

#[local] Hint Resolve debug_standing_delimited debug_option_delimited : delim.

Lemma debug_struct_inj name fs gs : Forall2 apart fs gs -> debug_struct name fs = debug_struct name gs -> map snd fs = map snd gs.
Proof. intros Hf E. apply (debug_struct_read name fs gs [] []); [done |]. by rewrite E. Qed.

Ltac read_config E :=
  apply debug_struct_inj in E; [| by apart_fields; try apply len_nonneg; try tauto];
  same_fields E;
  repeat match goal with H : len _ = len _ |- _ => apply blank_eq in H end.

(** C19: what an operator reads in a log is exactly the public view: two configurations print the same
    text if and only if they are the same kind of record with the same public fields and with
    secrets of the same lengths.  So no byte of a seed or a spending key reaches the text, and
    the redaction hides no public field: every endpoint, amount and address can be read off it. *)
Theorem config_text_exact (a b : door_config) :
  config_ok a -> config_ok b -> (debug_config a = debug_config b <-> hide_secrets a = hide_secrets b).
Proof.
  intros Ha Hb. split; [| intros E; by rewrite <- (debug_hide a), E, debug_hide].
  intros E. destruct a as [a | a | a | a], b as [b | b | b | b]; try discriminate E; cbn [debug_config config_ok] in *.
  - read_config E. destruct a, b; simpl in *. congruence.
  - read_config E. destruct a, b; simpl in *. congruence.
  - read_config E.
    match goal with H : debug_option _ _ = debug_option _ _ |- _ =>
      apply (delimited_inj _ _ _ _ (debug_option_delimited _ _ debug_standing_delimited)) in H; [| tauto..] end.
    destruct a, b; simpl in *. congruence.
  - read_config E. destruct a, b; simpl in *. congruence.
Qed.
End debug.

(** ** A sample: the characters of ASCII, and two sends that differ in their keys only *)

Definition ascii_printable (c : Z) : bool := (32 <=? c) && (c <? 127).

Definition sample_send (secret : bytes) : door_config :=
  CfgUsdcSend (mkUsdcSend secret (chars "0xab") 1500 (chars "https://r/" ++ [34; 10; 233])).

Example sample_send_text :
  debug_config ascii_printable (sample_send (repeat 7 32))
    = chars "FfiUsdcSendConfig { source_secret: <redacted 32 bytes>, to_address: " ++ [34] ++ chars "0xab" ++ [34]
      ++ chars ", amount_micro: 1500, rpc_url: " ++ [34] ++ chars "https://r/\" ++ [34] ++ chars "\n\u{e9}" ++ [34] ++ chars " }".
Proof. vm_compute. reflexivity. Qed.

Lemma sample_send_ok secret : config_ok (sample_send secret).
Proof. split_and!; [| simpl; lia |]; repeat constructor; vm_compute; intuition discriminate. Qed.

Lemma config_text_exact_witness :
  (debug_config ascii_printable (sample_send (repeat 7 32)) = debug_config ascii_printable (sample_send (repeat 8 32))
   <-> hide_secrets (sample_send (repeat 7 32)) = hide_secrets (sample_send (repeat 8 32)))
  /\ hide_secrets (sample_send (repeat 7 32)) = hide_secrets (sample_send (repeat 8 32))
  /\ hide_secrets (sample_send (repeat 7 32)) <> hide_secrets (sample_send (repeat 8 31)).
Proof.
  split; [apply (config_text_exact ascii_printable); apply sample_send_ok |]. split; [reflexivity | discriminate].
Defined.
