(* ===== verification/SwapSettles.v ===== *)
(** * SwapSettles: from two advertisements to two settled legs

    The parts of the swap stack on one page: a node that gives NIM hears the advertisement of one
    that gives the other asset, proposes, and the two exchange the messages of the protocol until
    neither has anything to say.  The nodes are the workers of [SwapNode], over any verifiers and
    signers; what the chains and the signers must do for the swap to settle is stated in
    [served]. *)

From stdpp Require Import base list gmap strings.
From Stdlib Require Import ZArith Lia.
From S2P Require Import Engine LiveDoor Relay Prelude Packet SwapWire Swap Crypto SwapIntent FundingVerify SwapMessages SwapCoordinator SwapSession SwapRecovery SwapNode NimTx Tlv.
Open Scope Z_scope.

(** ** Messages survive the wire *)

Lemma wire_ok k env :
  swap_env_ok env -> List.find (fun t => negb (has_field env t)) (required_fields k) = None ->
  opt_ok (fun v => len v <= 255) (e_counterparty_address env) -> opt_ok (fun v => len v <= 255) (e_tx_wire env) ->
  exists b, encode_swap env = Ok b /\ decode_swap k b = Ok env.
Proof.
  intros Hok Hf Ha Hw. pose proof (swap_items_short env Hok Ha Hw) as Hs. exists (concat (map tlv_bytes (swap_items env))).
  rewrite encode_swap_items, (push_items_ok _ _ _ Hs), decode_swap_items, Hf by done. done.
Qed.

(** One side of a swap, its fields written out *)
Abbreviation side r t p ctx sec peer lad cl := (mkCoordinator (mkSwap r t p) ctx sec peer lad cl).

(** ** The exchange *)

Section worker.
Context {C : Crypto} {V : Type} {FV : FundingVerifier V} {S : Type} {SG : SwapSigner S}.
Abbreviation Worker := (@WorkerState V S).

(** A node takes in what the other one said, message by message. *)
Fixpoint hear (w : Worker) (head : Z) (inbox : list (MessageType * bytes)) : Worker * res Empty_set (list (MessageType * bytes)) :=
  match inbox with
  | [] => quiet w
  | (t, b) :: inbox =>
      match from_message_type t with
      | Some kind =>
          then_do (handle_swap_message w (Some head) kind b) (fun w now =>
          then_do (hear w head inbox) (fun w rest => (w, Ok (now ++ rest))))
      | None => hear w head inbox
      end
  end.

Lemma hear_one w head t kind b w' o :
  from_message_type t = Some kind -> handle_swap_message w (Some head) kind b = (w', Ok o) -> hear w head [(t, b)] = (w', Ok o).
Proof. intros Ht Hh. cbn [hear]. rewrite Ht, Hh. cbn. by rewrite app_nil_r. Qed.

(** The worker holds a swap: its coordinator, the verifier and the signer as they are now *)
Definition holds (w : Worker) (id : bytes) (need_nim need_other : Z) (v : V) (g : S) (c : SwapCoordinator) : Prop :=
  w_signer w = Some g
  /\ exists s, w_swap w = Some s /\ s_coordinators s !! id = Some c /\ s_verifier s = v
       /\ required_for_leg (s_confirm_policy s) LegNim (s_counterparty_chain s) = need_nim
       /\ required_for_leg (s_confirm_policy s) LegCounterparty (s_counterparty_chain s) = need_other.

Lemma holds_record w id nn no v g c id' l : holds w id nn no v g c -> holds (record_last w id' l) id nn no v g c.
Proof.
  intros (Hg & s & Hs & Hc). unfold record_last. rewrite Hs. destruct (last l) as [[t p] |]; [| split; eauto].
  split; [done |]. eexists. split; [reflexivity | exact Hc].
Qed.

(** A message the worker can read: the session takes it, then the driver acts. *)
Lemma handle_read w s head kind b env s1 l w1 driven :
  w_swap w = Some s -> decode_swap kind b = Ok env -> on_message s kind b head = (s1, Ok l) ->
  drive_swap (with_swap w s1) kind b head = (w1, Ok driven) ->
  handle_swap_message w (Some head) kind b = (record_last w1 (e_swap_id env) (l ++ driven), Ok (l ++ driven)).
Proof.
  intros Hs Hd Hm Hr. unfold handle_swap_message. rewrite Hs. unfold live_headless. rewrite andb_false_r.
  change (default 0 (Some head)) with head. rewrite Hm. cbn [ok_of then_do]. rewrite Hr. cbn [then_do]. rewrite Hd. done.
Qed.

Definition fund_safe (t : SwapTerms) (head : Z) (lad : LadderParams) : Prop := ladder_is_safe (assess_ladder t head lad) = true.

Lemma ladder_safe_eq t head lad : fund_safe t head lad -> assess_ladder t head lad = LadderSafe.
Proof. unfold fund_safe. by destruct (assess_ladder t head lad). Qed.

Lemma reveal_safe_eq t head lad : fund_safe t head lad -> assess_reveal_deadline t head lad = RevealSafe.
Proof.
  intros (_ & _ & Hw)%ladder_safe_iff. apply (proj2 (reveal_safe_iff t head lad)) in Hw.
  by destruct (assess_reveal_deadline t head lad).
Qed.

(** The phases between which a side funds, and what it asks for *)
Definition fund_from (r : SwapRole) : SwapPhase := match r with Initiator => Accepted | Responder => InitiatorFunded end.
Definition fund_to (r : SwapRole) : SwapPhase := match r with Initiator => SelfFunded | Responder => BothFunded end.
Definition fund_leg (r : SwapRole) : SwapLegId := match r with Initiator => LegNim | Responder => LegCounterparty end.

Lemma coord_fund_ok r t ctx sec peer lad cl head wire txid : fund_safe t head lad ->
  coord_fund (side r t (fund_from r) ctx sec peer lad cl) head wire txid
    = Ok (side r t (fund_to r) ctx sec peer lad cl, tx_envelope (cx_swap_id ctx) (fund_leg r) wire txid).
Proof. intros Hl. unfold coord_fund, fund. destruct r; cbn [role phase c_swap c_ladder terms negb fund_from]; rewrite (ladder_safe_eq _ _ _ Hl); reflexivity. Qed.

(** The funding arms of the driver *)
Lemma drive_fund_ok w s id head r t ctx sec peer lad cl g g' wire txid b :
  w_swap w = Some s -> w_signer w = Some g ->
  s_coordinators s !! id = Some (side r t (fund_from r) ctx sec peer lad cl) -> cx_swap_id ctx = id ->
  fund_safe t head lad -> build_funding g ctx (fund_leg r) = (g', Some (wire, txid)) ->
  encode_swap (tx_envelope id (fund_leg r) wire txid) = Ok b ->
  drive_phase_action w id head
    = (mkWorker (Some (with_coords s (<[id := side r t (fund_to r) ctx sec peer lad cl]> (s_coordinators s)))) (Some g') (w_intents w),
       Ok [(MtSwapFundingProof, b)]).
Proof.
  intros Hs Hg Hc <- Hl Hb He. destruct w as [? ? i]. cbn in Hs, Hg. subst.
  assert (Hd : drive_fund (mkWorker (Some s) (Some g) i) (cx_swap_id ctx) head ctx (fund_leg r)
    = (mkWorker (Some (with_coords s (<[cx_swap_id ctx := side r t (fund_to r) ctx sec peer lad cl]> (s_coordinators s)))) (Some g') i,
       Ok [(MtSwapFundingProof, b)])).
  { unfold drive_fund, sign_funding. cbn [w_signer]. rewrite Hb. unfold coordinator. cbn [with_signer w_swap mbind option_bind].
    rewrite Hc, coord_fund_ok by done. cbn [ok_of then_do]. unfold send_env. by rewrite He. }
  unfold drive_phase_action, coordinator. cbn [w_swap mbind option_bind]. rewrite Hc. by destruct r.
Qed.

Lemma acceptance_roundtrip a : acceptance_from_envelope (acceptance_to_envelope a) = Some a.
Proof. by destruct a. Qed.

(** ** The five steps *)

(** The initiator takes the acceptance and funds the NIM leg. *)
Lemma initiator_on_accept w id nn no v g t ctx sec lad head a b g' wire txid b' :
  holds w id nn no v g (side Initiator t Proposed ctx sec None lad None) -> cx_swap_id ctx = id -> a_swap_id a = id ->
  decode_swap Accept b = Ok (acceptance_to_envelope a) -> fund_safe t head lad ->
  build_funding (note_peer g id (a_nim_address a) (a_btc_address a)) ctx LegNim = (g', Some (wire, txid)) ->
  encode_swap (tx_envelope id LegNim wire txid) = Ok b' ->
  exists w', handle_swap_message w (Some head) Accept b = (w', Ok [(MtSwapFundingProof, b')])
    /\ holds w' id nn no v g' (side Initiator t SelfFunded ctx sec (Some (a_btc_pubkey a)) lad None).
Proof.
  intros (Hg & s & Hs & Hc & Hv & Hn1 & Hn2) Hid Ha Hd Hl Hb He.
  set (c1 := side Initiator t Accepted ctx sec (Some (a_btc_pubkey a)) lad None).
  assert (Hr : recv_accept (side Initiator t Proposed ctx sec None lad None) (acceptance_to_envelope a) head = Ok (c1, tt)).
  { unfold recv_accept. rewrite acceptance_roundtrip. cbn [ok_or c_ctx]. rewrite Ha, Hid. unfold bytes_eqb. rewrite bool_decide_true by done.
    cbn [negb]. unfold accept. cbn [c_swap terms c_ladder]. rewrite (ladder_safe_eq _ _ _ Hl). reflexivity. }
  set (s1 := with_coords s (<[id := c1]> (s_coordinators s))).
  assert (Hm : on_message s Accept b head = (s1, Ok [])).
  { unfold on_message. rewrite Hd. replace (e_swap_id (acceptance_to_envelope a)) with id by (symmetry; exact Ha). by rewrite Hc, Hr. }
  assert (Hc1 : s_coordinators s1 !! id = Some c1) by apply lookup_insert_eq.
  assert (Hdr : drive_swap (with_swap w s1) Accept b head
    = (mkWorker (Some (with_coords s1 (<[id := side Initiator t SelfFunded ctx sec (Some (a_btc_pubkey a)) lad None]> (s_coordinators s1)))) (Some g') (w_intents w),
       Ok [(MtSwapFundingProof, b')])).
  { unfold drive_swap. rewrite Hd. cbn [ok_of then_do]. unfold report_peer, coordinator. cbn [with_swap w_swap mbind option_bind w_signer].
    replace (e_swap_id (acceptance_to_envelope a)) with id by (symmetry; exact Ha).
    rewrite Hc1, Hg, acceptance_roundtrip.
    eapply (drive_fund_ok (with_signer (with_swap w s1) _) s1 id head Initiator); [reflexivity | reflexivity | exact Hc1 | done..]. }
  eexists. split; [rewrite (handle_read _ _ _ _ _ _ _ _ _ _ Hs Hd Hm Hdr); reflexivity |].
  apply holds_record. split; [done |]. eexists. split; [reflexivity |]. split; [apply lookup_insert_eq | done].
Qed.

(** The context a responder makes of a proposal *)
Definition responder_ctx (i : NodeIdentity) (p : SwapProposal) (head : Z) : SwapContext :=
  {| cx_swap_id := p_swap_id p; cx_terms := p_terms p; cx_hashlock := p_hashlock p; cx_nim_address := id_nim_address i;
     cx_btc_address := id_btc_address i; cx_btc_pubkey := id_btc_pubkey i; cx_give_amount := p_give_amount p;
     cx_take_amount := p_take_amount p; cx_network_id := p_network_id p; cx_term_anchor := head |}.

Definition acceptance (i : NodeIdentity) (id : bytes) : SwapAcceptance :=
  mkAcceptance id (id_nim_address i) (id_btc_address i) (id_btc_pubkey i).

(** The responder takes a proposal it likes. *)
Lemma responder_on_propose w s g head p pk sg b b' :
  w_swap w = Some s -> w_signer w = Some g -> s_coordinators s !! p_swap_id p = None ->
  session_len s < id_max_concurrent_swaps (s_identity s) ->
  accepts (id_rate_policy (s_identity s)) (p_give_amount p) (p_take_amount p) = true ->
  within_caps s (p_give_amount p) (p_take_amount p) = true ->
  decode_swap Propose b = Ok (to_signed_envelope p pk sg) -> verify_envelope (to_signed_envelope p pk sg) = true ->
  fund_safe (p_terms p) head (s_ladder s) ->
  encode_swap (acceptance_to_envelope (acceptance (s_identity s) (p_swap_id p))) = Ok b' ->
  exists w', handle_swap_message w (Some head) Propose b = (w', Ok [(MtSwapAccept, b')])
    /\ holds w' (p_swap_id p) (required_for_leg (s_confirm_policy s) LegNim (s_counterparty_chain s))
         (required_for_leg (s_confirm_policy s) LegCounterparty (s_counterparty_chain s)) (s_verifier s)
         (note_peer g (p_swap_id p) (p_nim_address p) (p_btc_address p))
         (side Responder (p_terms p) Accepted (responder_ctx (s_identity s) p head) None (Some (p_btc_pubkey p)) (s_ladder s) None).
Proof.
  intros Hs Hg Hc Hlen Hrate Hcaps Hd Hv Hl He. set (env := to_signed_envelope p pk sg) in *.
  destruct (signed_proposal p pk sg) as (Hp & _ & _). fold env in Hp.
  set (c1 := side Responder (p_terms p) Accepted (responder_ctx (s_identity s) p head) None (Some (p_btc_pubkey p)) (s_ladder s) None).
  assert (Hid : e_swap_id env = p_swap_id p) by done.
  assert (Hr : recv_propose (new_responder (responder_ctx (s_identity s) p head) (s_ladder s)) env head
                 = Ok (c1, acceptance_to_envelope (acceptance (s_identity s) (p_swap_id p)))).
  { unfold recv_propose. rewrite Hv, Hp. cbn [negb ok_or new_responder c_ctx responder_ctx cx_swap_id cx_hashlock]. unfold bytes_eqb.
    rewrite !bool_decide_true by done. cbn [negb orb c_swap c_ladder]. unfold accept. cbn [swap_new phase terms cx_terms responder_ctx c_swap new_responder c_ladder].
    rewrite (ladder_safe_eq _ _ _ Hl). reflexivity. }
  set (s1 := with_coords s (<[p_swap_id p := c1]> (s_coordinators s))).
  assert (Hm : on_message s Propose b head = (s1, Ok [(MtSwapAccept, b')])).
  { unfold on_message. rewrite Hd. fold env. unfold on_propose. rewrite Hid, Hc, bool_decide_false by (by intros [? [=]]).
    destruct (Z.geb_spec (session_len s) (id_max_concurrent_swaps (s_identity s))); [lia |].
    rewrite Hp, Hrate, Hcaps. cbn [negb]. fold (responder_ctx (s_identity s) p head). rewrite Hr, He. done. }
  assert (Hc1 : s_coordinators s1 !! p_swap_id p = Some c1) by apply lookup_insert_eq.
  assert (Hdr : drive_swap (with_swap w s1) Propose b head
                  = (with_signer (with_swap w s1) (note_peer g (p_swap_id p) (p_nim_address p) (p_btc_address p)), Ok [])).
  { unfold drive_swap. rewrite Hd. cbn [ok_of then_do]. fold env. unfold report_peer, coordinator. cbn [with_swap w_swap mbind option_bind w_signer]. rewrite Hid.
    rewrite Hc1, Hg, Hp. unfold drive_phase_action, coordinator. cbn [with_signer with_swap w_swap mbind option_bind]. by rewrite Hc1. }
  eexists. split; [rewrite (handle_read _ _ _ _ _ _ _ _ _ _ Hs Hd Hm Hdr); reflexivity |].
  apply holds_record. split; [done |]. eexists. split; [reflexivity |]. split; [apply lookup_insert_eq | done].
Qed.

(** A side that waits for the other's funding, and what the sight of it makes of it *)
Definition waits_in (r : SwapRole) : SwapPhase := match r with Initiator => SelfFunded | Responder => Accepted end.
Definition seen_in (r : SwapRole) : SwapPhase := match r with Initiator => BothFunded | Responder => InitiatorFunded end.

(** The session takes a funding proof that its chain confirms. *)
Lemma session_on_proof s id r t ctx sec peer lad head leg wire txid b k :
  let c := side r t (waits_in r) ctx sec peer lad None in
  let v' := note_funding_wire (s_verifier s) leg wire in
  let x := counterparty_expectation c in
  s_coordinators s !! id = Some c -> decode_swap FundingProof b = Ok (tx_envelope id leg wire txid) ->
  require_funded (observe v' x) x (required_for_leg (s_confirm_policy s) (x_leg x) (s_counterparty_chain s)) = Ok k ->
  exists s1, on_message s FundingProof b head = (s1, Ok [])
    /\ s_coordinators s1 !! id = Some (side r t (seen_in r) ctx sec peer lad None) /\ s_verifier s1 = v'
    /\ s_confirm_policy s1 = s_confirm_policy s /\ s_counterparty_chain s1 = s_counterparty_chain s.
Proof.
  intros c v' x Hc Hd Hf. unfold on_message. rewrite Hd. cbn [tx_envelope e_swap_id swap_envelope_new set_leg set_tx_wire set_tx_id e_leg e_tx_wire]. rewrite Hc.
  assert (Hv : verify_and_observe_funding c v' (required_for_leg (s_confirm_policy s) (x_leg x) (s_counterparty_chain s))
                 = Ok (side r t (seen_in r) ctx sec peer lad None, tt)).
  { unfold verify_and_observe_funding. fold x. rewrite Hf. destruct r; reflexivity. }
  unfold verify_counterparty_funding. cbn [with_seen with_verifier s_coordinators s_confirm_policy s_counterparty_chain s_verifier].
  rewrite Hc. fold v' x. rewrite Hv. eexists. split; [reflexivity |]. split; [apply lookup_insert_eq | done].
Qed.

(** The responder takes the NIM funding and funds its own leg. *)
Lemma responder_on_proof w id nn no v g t ctx peer lad head wire txid b k g' wire' txid' b' :
  let c := side Responder t Accepted ctx None peer lad None in
  let v' := note_funding_wire v LegNim wire in
  holds w id nn no v g c -> cx_swap_id ctx = id ->
  decode_swap FundingProof b = Ok (tx_envelope id LegNim wire txid) ->
  require_funded (observe v' (counterparty_expectation c)) (counterparty_expectation c) nn = Ok k ->
  fund_safe t head lad -> build_funding g ctx LegCounterparty = (g', Some (wire', txid')) ->
  encode_swap (tx_envelope id LegCounterparty wire' txid') = Ok b' ->
  exists w', handle_swap_message w (Some head) FundingProof b = (w', Ok [(MtSwapFundingProof, b')])
    /\ holds w' id nn no v' g' (side Responder t BothFunded ctx None peer lad None).
Proof.
  intros c v' (Hg & s & Hs & Hc & Hv & Hn1 & Hn2) Hid Hd Hf Hl Hb He. unfold v' in *. rewrite <- Hv, <- Hn1 in Hf.
  destruct (session_on_proof s id Responder t ctx None peer lad head LegNim wire txid b k Hc Hd Hf) as (s1 & Hm & Hc1 & Hv1 & Hp1 & Hch1).
  assert (Hdr : drive_swap (with_swap w s1) FundingProof b head
    = (mkWorker (Some (with_coords s1 (<[id := side Responder t BothFunded ctx None peer lad None]> (s_coordinators s1)))) (Some g') (w_intents w),
       Ok [(MtSwapFundingProof, b')])).
  { unfold drive_swap. rewrite Hd. cbn [ok_of then_do]. unfold report_peer, coordinator. cbn [with_swap w_swap mbind option_bind w_signer].
    replace (e_swap_id (tx_envelope id LegNim wire txid)) with id by done. rewrite Hc1, Hg.
    eapply (drive_fund_ok (with_swap w s1) s1 id head Responder); [reflexivity | exact Hg | exact Hc1 | done..]. }
  eexists. split; [rewrite (handle_read _ _ _ _ _ _ _ _ _ _ Hs Hd Hm Hdr); reflexivity |].
  apply holds_record. split; [done |]. eexists. split; [reflexivity |]. split; [apply lookup_insert_eq |].
  cbn. by rewrite Hv1, Hv, Hp1, Hch1.
Qed.

(** The initiator takes the counterparty's funding, claims it and shows the secret. *)
Lemma initiator_on_proof w id nn no v g t ctx secret peer lad head wire txid b k g' wire' txid' b' :
  let c := side Initiator t SelfFunded ctx (Some secret) peer lad None in
  let v' := note_funding_wire v LegCounterparty wire in
  holds w id nn no v g c -> cx_swap_id ctx = id -> cx_terms ctx = t ->
  decode_swap FundingProof b = Ok (tx_envelope id LegCounterparty wire txid) ->
  require_funded (observe v' (counterparty_expectation c)) (counterparty_expectation c) no = Ok k ->
  fund_safe t head lad -> build_claim g ctx secret = (g', Some (wire', txid')) ->
  encode_swap (tx_envelope id LegCounterparty wire' txid') = Ok b' ->
  exists w', handle_swap_message w (Some head) FundingProof b = (w', Ok [(MtSwapPreimageReveal, b')])
    /\ holds w' id nn no v' g' (side Initiator t Settled ctx (Some secret) peer lad None).
Proof.
  intros c v' (Hg & s & Hs & Hc & Hv & Hn1 & Hn2) Hid Ht Hd Hf Hl Hb He. unfold v' in *. rewrite <- Hv, <- Hn2 in Hf.
  destruct (session_on_proof s id Initiator t ctx (Some secret) peer lad head LegCounterparty wire txid b k Hc Hd Hf) as (s1 & Hm & Hc1 & Hv1 & Hp1 & Hch1).
  assert (Hdr : drive_swap (with_swap w s1) FundingProof b head
    = (mkWorker (Some (with_coords s1 (<[id := side Initiator t Settled ctx (Some secret) peer lad None]> (s_coordinators s1)))) (Some g') (w_intents w),
       Ok [(MtSwapPreimageReveal, b')])).
  { unfold drive_swap. rewrite Hd. cbn [ok_of then_do]. unfold report_peer, coordinator. cbn [with_swap w_swap mbind option_bind w_signer].
    replace (e_swap_id (tx_envelope id LegCounterparty wire txid)) with id by done. rewrite Hc1, Hg.
    unfold drive_phase_action, coordinator. cbn [with_swap w_swap mbind option_bind]. rewrite Hc1. cbn [c_role c_phase c_swap role phase seen_in c_secret c_ctx].
    unfold drive_claim, coordinator. cbn [with_swap w_swap mbind option_bind]. rewrite Hc1. unfold reveal_deadline_ok. cbn [c_ctx c_ladder]. rewrite Ht, (reveal_safe_eq _ _ _ Hl).
    cbn [negb]. unfold sign_claim. cbn [with_swap w_signer]. rewrite Hg, Hb. cbn [with_signer with_swap w_swap mbind option_bind]. rewrite Hc1.
    unfold claim_and_reveal, reveal_and_claim. cbn [c_swap role phase terms c_ladder seen_in]. rewrite (reveal_safe_eq _ _ _ Hl).
    cbn [reveal_is_safe negb]. unfold on_swap at 1. cbn [map_err set_swap c_ctx]. rewrite Hid. unfold send_env. cbn [ok_of then_do]. rewrite He.
    match goal with |- context [settle ?c] => replace (settle c) with (@Ok CoordError _ (side Initiator t Settled ctx (Some secret) peer lad None, tt)) by done end.
    cbn [ok_of then_do]. unfold put_coordinator. cbn [with_signer with_swap w_swap w_signer w_intents with_coords s_coordinators]. by rewrite insert_insert_eq. }
  eexists. split; [rewrite (handle_read _ _ _ _ _ _ _ _ _ _ Hs Hd Hm Hdr); reflexivity |].
  apply holds_record. split; [done |]. eexists. split; [reflexivity |]. split; [apply lookup_insert_eq |].
  cbn. by rewrite Hv1, Hv, Hp1, Hch1.
Qed.

(** The responder takes the secret, claims the NIM and sees the claim confirmed. *)
Lemma responder_on_reveal w id nn no v g t ctx secret peer lad head rest txid b g' wire' txid' k :
  holds w id nn no v g (side Responder t BothFunded ctx None peer lad None) -> len secret = 32 -> sha256 secret = cx_hashlock ctx ->
  decode_swap PreimageReveal b = Ok (tx_envelope id LegCounterparty (secret ++ rest) txid) ->
  build_claim g ctx secret = (g', Some (wire', txid')) -> observe_claim v LegNim txid' = Included k -> nn <= k ->
  exists w', handle_swap_message w (Some head) PreimageReveal b = (w', Ok [])
    /\ holds w' id nn no v g' (side Responder t Settled ctx (Some secret) peer lad (Some txid')).
Proof.
  intros (Hg & s & Hs & Hc & Hv & Hn1 & Hn2) Hlen Hh Hd Hb Ho Hk.
  set (env := tx_envelope id LegCounterparty (secret ++ rest) txid) in *. assert (Hid : e_swap_id env = id) by done.
  assert (Hm : on_message s PreimageReveal b head = (s, Ok [])) by (unfold on_message; by rewrite Hd, Hid, Hc).
  assert (Hsec : revealed_secret env = Some secret).
  { unfold revealed_secret. cbn [env tx_envelope set_leg set_tx_wire e_tx_wire mbind option_bind]. rewrite len_app, Hlen.
    destruct (Z.leb_spec 32 (32 + len rest)) as [_ | H]; [| pose proof (len_nonneg rest); lia]. f_equal.
    replace 32%nat with (length secret) by (unfold len in Hlen; lia). apply take_app_length. }
  set (c1 := side Responder t Revealed ctx (Some secret) peer lad None).
  set (c2 := side Responder t Revealed ctx (Some secret) peer lad (Some txid')).
  set (c3 := side Responder t Settled ctx (Some secret) peer lad (Some txid')).
  assert (Htr : take_reveal (with_swap w s) env = (put_coordinator (with_swap w s) id c1, Ok tt)).
  { unfold take_reveal. rewrite Hsec, Hid. unfold coordinator. cbn [with_swap w_swap mbind option_bind]. rewrite Hc.
    unfold recv_reveal. cbn [c_ctx]. rewrite Hh. unfold bytes_eqb. rewrite bool_decide_true by done. reflexivity. }
  assert (Hdr : exists s3, drive_swap (with_swap w s) PreimageReveal b head = (mkWorker (Some s3) (Some g') (w_intents w), Ok [])
    /\ s_coordinators s3 !! id = Some c3 /\ s_verifier s3 = v /\ s_confirm_policy s3 = s_confirm_policy s /\ s_counterparty_chain s3 = s_counterparty_chain s).
  { unfold drive_swap. rewrite Hd. cbn [ok_of then_do]. replace (report_peer (with_swap w s) PreimageReveal env) with (with_swap w s)
      by (unfold report_peer; by destruct (coordinator _ _), (w_signer _)).
    rewrite Htr. cbn [then_do]. unfold put_coordinator. cbn [with_swap w_swap]. rewrite Hid.
    set (s1 := with_coords s (<[id := c1]> (s_coordinators s))). assert (Hc1 : s_coordinators s1 !! id = Some c1) by apply lookup_insert_eq.
    unfold drive_phase_action, coordinator. cbn [with_swap w_swap mbind option_bind w_signer w_intents]. rewrite Hc1.
    cbn [c1 c_role c_phase c_swap role phase c_secret c_ctx]. fold c1.
    unfold attempt_responder_claim, coordinator. cbn [with_swap w_swap mbind option_bind]. rewrite Hc1. cbn [c1 c_claim_tx]. rewrite bool_decide_false by (by intros [? [=]]).
    cbn [negb]. unfold sign_claim. cbn [with_swap w_signer]. rewrite Hg, Hb. cbn [with_signer with_swap w_swap w_intents mbind option_bind]. rewrite Hc1.
    unfold put_coordinator. cbn [with_signer with_swap w_swap w_signer w_intents]. change (note_claim_broadcast c1 txid') with c2.
    set (s2 := with_coords s1 (<[id := c2]> (s_coordinators s1))). assert (Hc2 : s_coordinators s2 !! id = Some c2) by apply lookup_insert_eq.
    unfold confirm_one. cbn [w_swap with_swap]. unfold confirm_claim. rewrite Hc2. cbn [mbind option_bind].
    replace (has_claim c2) with true by done. cbn [c2 c_claim_tx].
    replace (s_verifier s2) with v by (symmetry; exact Hv). rewrite Ho.
    replace (required_for_leg (s_confirm_policy s2) LegNim (s_counterparty_chain s2)) with nn by (symmetry; exact Hn1).
    destruct (Z.geb_spec k nn); [| lia]. cbn [fst]. replace (settle c2) with (@Ok CoordError _ (c3, tt)) by done.
    eexists. split; [reflexivity |]. split; [apply lookup_insert_eq |]. split; [exact Hv | done]. }
  destruct Hdr as (s3 & Hdr & Hc3 & Hv3 & Hp3 & Hch3).
  eexists. split; [rewrite (handle_read _ _ _ _ _ _ _ _ _ _ Hs Hd Hm Hdr); reflexivity |].
  apply holds_record. split; [done |]. exists s3. split_and!; [done.. | |]; by rewrite Hp3, Hch3.
Qed.

(** ** Discovery *)

(** A tick of a node without swaps, up to its match window *)
Lemma gc_tick_empty w s head peers :
  w_swap w = Some s -> s_coordinators s = ∅ -> s_pending s = ∅ -> s_funding_proof_seen s = ∅ -> s_verify_notes s = ∅ ->
  gc_tick w (Some head) peers
    = then_do (close_window w (Some head) head) (fun w out5 =>
      let '(w, out6) := readvertise_intent w peers head in (w, Ok (out5 ++ out6))).
Proof.
  intros Hs Hc Hp Hf Hn. destruct w as [? sg i], s; cbn in *; subst. reflexivity.
Qed.

(** The worker of a node that has just been built *)
Definition fresh_worker (s : @SwapSession V) (g : S) : Worker := mkWorker (Some s) (Some g) intent_state_new.

Definition fresh_session (s : @SwapSession V) : Prop :=
  s_coordinators s = ∅ /\ s_initiated_ever s = ∅ /\ s_pending s = ∅ /\ s_funding_proof_seen s = ∅ /\ s_verify_notes s = ∅.

(** An advertisement the node can trade against opens its match window. *)
Lemma intent_heard s g sender standing offer head :
  fresh_session s -> id_standing_intent (s_identity s) = Some standing -> 0 < id_max_concurrent_swaps (s_identity s) ->
  intent_ok offer -> len (i_btc_address offer) < 65536 -> is_fresh offer head = true -> verify_authentic offer = true ->
  would_initiate_against standing offer = true -> amount_compatible standing offer = true ->
  exists th, handle_intent_packet (fresh_worker s g) (Some head) sender (encode_intent offer)
    = (mkWorker (Some s) (Some g) (mkIntents th advertiser_new (mkMatcher [(derive_swap_id standing offer, offer)] 2) 0), Ok []).
Proof.
  intros (Hc & Hi & _) Hst Hmax Hok Hl Hf Hv Hw Ha.
  assert (Hd : decode_intent (encode_intent offer) = Ok offer).
  { pose proof (decode_encode_intent offer [] Hok Hl) as H. rewrite app_nil_r in H. apply H. by apply encode_intent_len. }
  unfold handle_intent_packet. rewrite Hd. cbn [ok_of then_do]. change (default 0 (Some head)) with head. rewrite Hf.
  unfold handle_intent. rewrite Hd. cbn [ok_of then_do fresh_worker w_swap]. unfold intent_candidate. rewrite Hv, Hst, Hw, Ha. cbn [negb orb].
  unfold session_len. rewrite Hc, map_size_empty. destruct (Z.geb_spec (Z.of_nat 0) (id_max_concurrent_swaps (s_identity s))); [lia |].
  rewrite lookup_empty, bool_decide_false by (by intros [? [=]]). unfold has_initiated. rewrite Hi, bool_decide_false by apply not_elem_of_empty.
  eexists. reflexivity.
Qed.

(** What the initiator proposes *)
Definition initiator_ctx (s : @SwapSession V) (standing : SwapIntent) (id : bytes) (head : Z) : SwapContext :=
  initiation_ctx standing id (s_secret_source s id) head.

Definition ctx_proposal (ctx : SwapContext) : SwapProposal :=
  {| p_swap_id := cx_swap_id ctx; p_hashlock := cx_hashlock ctx; p_give_amount := cx_give_amount ctx; p_take_amount := cx_take_amount ctx;
     p_terms := cx_terms ctx; p_nim_address := cx_nim_address ctx; p_btc_address := cx_btc_address ctx; p_btc_pubkey := cx_btc_pubkey ctx;
     p_network_id := cx_network_id ctx |}.

(** The window closes on the one candidate, and the node proposes. *)
Lemma window_proposes s g th adv id offer last head peers standing pk sg b :
  let w := mkWorker (Some s) (Some g) (mkIntents th adv (mkMatcher [(id, offer)] 2) last) in
  let ctx := initiator_ctx s standing id head in
  fresh_session s -> id_standing_intent (s_identity s) = Some standing -> 0 < id_max_concurrent_swaps (s_identity s) ->
  within_caps s (i_nim_amount standing) (i_btc_amount standing) = true ->
  sign_propose s (proposal_to_envelope (ctx_proposal ctx)) = to_signed_envelope (ctx_proposal ctx) pk sg ->
  encode_swap (to_signed_envelope (ctx_proposal ctx) pk sg) = Ok b ->
  exists w2 ads w3, gc_tick w (Some head) peers = (w2, Ok ads) /\ gc_tick w2 (Some head) peers = (w3, Ok [(MtSwapPropose, b)])
    /\ holds w3 id (required_for_leg (s_confirm_policy s) LegNim (s_counterparty_chain s))
         (required_for_leg (s_confirm_policy s) LegCounterparty (s_counterparty_chain s)) (s_verifier s) g
         (side Initiator (cx_terms ctx) Proposed ctx (Some (s_secret_source s id)) None (s_ladder s) None).
Proof.
  intros w ctx (Hc & Hi & Hp & Hf & Hn) Hst Hmax Hcaps Hsign He.
  rewrite (gc_tick_empty w s) by done.
  assert (H1 : close_window w (Some head) head = (mkWorker (Some s) (Some g) (mkIntents th adv (mkMatcher [(id, offer)] 1) last), Ok [])) by done.
  rewrite H1. cbn [then_do].
  assert (H2 : exists adv' ads, readvertise_intent (mkWorker (Some s) (Some g) (mkIntents th adv (mkMatcher [(id, offer)] 1) last)) peers head
    = (mkWorker (Some s) (Some g) (mkIntents th adv' (mkMatcher [(id, offer)] 1) peers), ads)).
  { unfold readvertise_intent. cbn [w_intents w_swap in_last_peer_count in_advertiser in_throttle in_matcher with_intents w_signer].
    rewrite Hc, bool_decide_true by done. cbn [negb]. rewrite Hst. destruct (is_fresh standing head); [| eauto].
    match goal with |- context [on_tick ?a] => destruct (on_tick a) as [adv' fire] end. eauto. }
  destruct H2 as (adv' & ads & H2). rewrite H2.
  set (w2 := mkWorker (Some s) (Some g) (mkIntents th adv' (mkMatcher [(id, offer)] 1) peers)). exists w2, ads.
  set (c := side Initiator (cx_terms ctx) Proposed ctx (Some (s_secret_source s id)) None (s_ladder s) None).
  set (s1 := record_action (add_initiator s id c) id MtSwapPropose b).
  assert (H3 : close_window w2 (Some head) head
    = (mkWorker (Some s1) (Some g) (mkIntents th adv' (mkMatcher [] 0) peers), Ok [(MtSwapPropose, b)])).
  { unfold close_window, live_headless. cbn [w2 w_intents in_matcher]. unfold matcher_tick. cbn [im_window im_candidates].
    change (1 =? 0) with false. change (1 - 1 >? 0) with false. change (1 - 1) with 0. cbv iota.
    cbn [matcher_best im_candidates fmap option_fmap option_map foldl fst].
    change (with_matcher w2 _) with (mkWorker (Some s) (Some g) (mkIntents th adv' (mkMatcher [] 0) peers)).
    unfold initiate_from_intent. cbn [w_swap]. rewrite Hst, Hc, lookup_empty, bool_decide_false by (by intros [? [=]]).
    unfold has_initiated, session_len. rewrite Hi, Hc, map_size_empty, bool_decide_false by apply not_elem_of_empty.
    destruct (Z.geb_spec (Z.of_nat 0) (id_max_concurrent_swaps (s_identity s))); [lia |]. cbn [orb]. rewrite Hcaps. cbn [negb].
    change (new_initiator _ _ _) with (c, proposal_to_envelope (ctx_proposal ctx)). cbv beta iota. unfold send_env. rewrite Hsign, He. reflexivity. }
  assert (H4 : readvertise_intent (mkWorker (Some s1) (Some g) (mkIntents th adv' (mkMatcher [] 0) peers)) peers head
    = (mkWorker (Some s1) (Some g) (mkIntents th (advertiser_reset (if peers >? peers then advertiser_reset adv' else adv')) (mkMatcher [] 0) peers), [])).
  { unfold readvertise_intent. cbn [w_intents w_swap in_last_peer_count in_advertiser in_throttle in_matcher with_intents w_signer].
    rewrite bool_decide_false; [reflexivity |]. apply insert_non_empty. }
  eexists. split; [done |]. rewrite (gc_tick_empty w2 s), H3 by done. cbn [then_do]. rewrite H4. split; [reflexivity |].
  split; [reflexivity |]. exists s1. split_and!; try done. apply lookup_insert_eq.
Qed.
End worker.

(** ** Two nodes *)

Section swap.
Context {C : Crypto} {CL : CryptoLaws C} {Vi Vr : Type} {FVi : FundingVerifier Vi} {FVr : FundingVerifier Vr}
  {Si Sr : Type} {SGi : SwapSigner Si} {SGr : SwapSigner Sr}.

(** They take turns, each at the head it knows, until one says nothing. *)
Fixpoint converse (heads : list Z) (initiator_listens : bool) (wi : @WorkerState Vi Si) (wr : @WorkerState Vr Sr) (inbox : list (MessageType * bytes))
  : @WorkerState Vi Si * @WorkerState Vr Sr * res Empty_set (list (MessageType * bytes)) :=
  match heads, inbox with
  | head :: heads, _ :: _ =>
      if initiator_listens then
        match hear wi head inbox with (wi, Ok out) => converse heads false wi wr out | (wi, r) => (wi, wr, r) end
      else
        match hear wr head inbox with (wr, Ok out) => converse heads true wi wr out | (wr, r) => (wi, wr, r) end
  | _, _ => (wi, wr, Ok inbox)
  end.

(** The nodes as they start, their standing intents, the head at which the initiator proposes and
    the one at which the responder reads the proposal *)
Context (si : @SwapSession Vi) (sr : @SwapSession Vr) (gi : Si) (gr : Sr) (ii ri : SwapIntent) (head head1 : Z).

Definition agreed_id : bytes := derive_swap_id ii ri.
Definition agreed_secret : bytes := s_secret_source si agreed_id.
Definition ctx_i : SwapContext := initiation_ctx ii agreed_id agreed_secret head.
Definition ctx_r : SwapContext := responder_ctx (s_identity sr) (ctx_proposal ctx_i) head1.
Definition need_i (leg : SwapLegId) : Z := required_for_leg (s_confirm_policy si) leg (s_counterparty_chain si).
Definition need_r (leg : SwapLegId) : Z := required_for_leg (s_confirm_policy sr) leg (s_counterparty_chain sr).

(** Two fresh nodes whose standing intents fit; [seed] is the key the initiator signs with. *)
Record offers_meet (seed : bytes) : Prop := mkMeet {
  om_fresh_i : fresh_session si;
  om_fresh_r : fresh_session sr;
  om_standing : id_standing_intent (s_identity si) = Some ii;
  om_ii : intent_ok ii /\ len (i_btc_address ii) <= 255;
  om_ri : intent_ok ri /\ len (i_btc_address ri) < 65536;
  om_fresh : is_fresh ri head = true;
  om_authentic : verify_authentic ri = true;
  om_match : would_initiate_against ii ri = true /\ amount_compatible ii ri = true;
  om_key : s_propose_signer si = Some (in_memory_key seed) /\ address_of (ed25519_public seed) = i_nim_address ii;
  om_room : 0 < id_max_concurrent_swaps (s_identity si) /\ 0 < id_max_concurrent_swaps (s_identity sr);
  om_caps : within_caps si (i_nim_amount ii) (i_btc_amount ii) = true /\ within_caps sr (i_nim_amount ii) (i_btc_amount ii) = true;
  om_rate : accepts (id_rate_policy (s_identity sr)) (i_nim_amount ii) (i_btc_amount ii) = true;
  om_secret : array_ok 32 agreed_secret;
  om_identity : array_ok 20 (id_nim_address (s_identity sr)) /\ bytes_ok (id_btc_address (s_identity sr))
                /\ len (id_btc_address (s_identity sr)) <= 255 /\ array_ok 33 (id_btc_pubkey (s_identity sr));
  om_head : 0 <= head /\ head + 10000 < 2 ^ 64
}.

(** What the signers return when asked, each state the next call's *)
Record signed_legs : Type := mkLegs {
  lg_i1 : Si; lg_i2 : Si; lg_r1 : Sr; lg_r2 : Sr;
  lg_nim_wire : list Z; lg_nim_tx : list Z;
  lg_other_wire : list Z; lg_other_tx : list Z;
  lg_claim_rest : list Z; lg_claim_tx : list Z;
  lg_nim_claim_wire : list Z; lg_nim_claim_tx : list Z
}.

(** A transaction blob fits its field. *)
Definition tx_ok (wire tx_id : bytes) : Prop := bytes_ok wire /\ len wire <= 255 /\ array_ok 32 tx_id.

(** The signers and the chains serve the swap: each signer builds the funding of its own leg and
    the claim of the other, the initiator's claim starting with the secret, and each verifier,
    told of the other's funding transaction, finds it sufficient and deep enough; the responder's
    sees its claim included that deep. *)
Record served (l : signed_legs) : Prop := mkServed {
  sv_fund_nim : build_funding (note_peer gi agreed_id (id_nim_address (s_identity sr)) (id_btc_address (s_identity sr))) ctx_i LegNim
      = (lg_i1 l, Some (lg_nim_wire l, lg_nim_tx l));
  sv_nim_ok : tx_ok (lg_nim_wire l) (lg_nim_tx l);
  sv_fund_other : build_funding (note_peer gr agreed_id (i_nim_address ii) (i_btc_address ii)) ctx_r LegCounterparty
      = (lg_r1 l, Some (lg_other_wire l, lg_other_tx l));
  sv_other_ok : tx_ok (lg_other_wire l) (lg_other_tx l);
  sv_claim : build_claim (lg_i1 l) ctx_i agreed_secret = (lg_i2 l, Some (agreed_secret ++ lg_claim_rest l, lg_claim_tx l));
  sv_claim_ok : tx_ok (agreed_secret ++ lg_claim_rest l) (lg_claim_tx l);
  sv_nim_claim : build_claim (lg_r1 l) ctx_r agreed_secret = (lg_r2 l, Some (lg_nim_claim_wire l, lg_nim_claim_tx l));
  sv_nim_seen : let x := mkExpect LegNim (sha256 agreed_secret) (i_nim_amount ii) (head + 10000) (id_nim_address (s_identity sr)) head1 in
      exists k, require_funded (observe (note_funding_wire (s_verifier sr) LegNim (lg_nim_wire l)) x) x (need_r LegNim) = Ok k;
  sv_other_seen : let x := mkExpect LegCounterparty (sha256 agreed_secret) (i_btc_amount ii) (head + 5000) (i_btc_pubkey ii) head in
      exists k, require_funded (observe (note_funding_wire (s_verifier si) LegCounterparty (lg_other_wire l)) x) x (need_i LegCounterparty) = Ok k;
  sv_claim_seen : exists k, observe_claim (note_funding_wire (s_verifier sr) LegNim (lg_nim_wire l)) LegNim (lg_nim_claim_tx l) = Included k
      /\ need_r LegNim <= k
}.

Lemma agreed_id_ok : array_ok 16 agreed_id.
Proof.
  unfold agreed_id, derive_swap_id. destruct (sha256_ok (i_nim_address ii ++ i_btc_pubkey ii ++ i_btc_pubkey ri)) as [Hl Hb].
  split; [| by apply bytes_ok_take]. change 16%nat with (Z.to_nat 16). apply len_take. lia.
Qed.

Lemma tx_travels k leg wire tx_id : k = FundingProof \/ k = PreimageReveal -> tx_ok wire tx_id ->
  exists b, encode_swap (tx_envelope agreed_id leg wire tx_id) = Ok b /\ decode_swap k b = Ok (tx_envelope agreed_id leg wire tx_id).
Proof.
  intros Hk (Hb & Hl & Ht). apply wire_ok; [| by destruct Hk as [-> | ->] | done | done].
  constructor; cbn; auto. apply agreed_id_ok.
Qed.

Lemma accept_travels seed : offers_meet seed ->
  exists b, encode_swap (acceptance_to_envelope (acceptance (s_identity sr) agreed_id)) = Ok b
    /\ decode_swap Accept b = Ok (acceptance_to_envelope (acceptance (s_identity sr) agreed_id)).
Proof.
  intros Hm. destruct (om_identity _ Hm) as (Ha & Hb & Hl & Hp). apply wire_ok; try done.
  constructor; cbn; auto. apply agreed_id_ok.
Qed.

(** The proposal is signed with the initiator's key, and travels. *)
Lemma propose_travels seed : offers_meet seed ->
  let pk := ed25519_public seed in
  let sg := ed25519_sign seed (signing_bytes (ctx_proposal ctx_i)) in
  let env := to_signed_envelope (ctx_proposal ctx_i) pk sg in
  sign_propose si (proposal_to_envelope (ctx_proposal ctx_i)) = env /\ verify_envelope env = true
  /\ exists b, encode_swap env = Ok b /\ decode_swap Propose b = Ok env.
Proof.
  intros Hm pk sg env. destruct (om_key _ Hm) as [Hk Ha]. split_and!.
  - unfold sign_propose. rewrite Hk, proposal_roundtrip. cbn [in_memory_key ek_public_key ek_sign_content].
    by rewrite (try_array_ok 32 _ (public_ok seed)), (try_array_ok 64 _ (sign_ok seed _)).
  - unfold env, verify_envelope. destruct (signed_proposal (ctx_proposal ctx_i) pk sg) as (Hp & -> & ->). rewrite Hp.
    unfold verify_signature, bytes_eqb. rewrite bool_decide_true by done. apply verify_sign.
  - destruct (om_ii _ Hm) as [[] Hl], (om_head _ Hm). apply wire_ok; try done.
    constructor; cbn; auto; try (unfold uN; lia); try apply agreed_id_ok; [apply sha256_ok | apply public_ok | apply sign_ok].
Qed.

(** The whole play: the second tick proposes, and the five messages are taken in. *)
Lemma swap_played (seed sender : bytes) (peers : Z) (head2 head3 head4 head5 : Z) (more : list Z) (l : signed_legs) :
  offers_meet seed -> served l ->
  Forall (fun t => fund_safe (cx_terms ctx_i) t (s_ladder si) /\ fund_safe (cx_terms ctx_i) t (s_ladder sr)) [head1; head2; head3; head4] ->
  exists w3 out wi wr,
    gc_tick (gc_tick (handle_intent_packet (fresh_worker si gi) (Some head) sender (encode_intent ri)).1 (Some head) peers).1 (Some head) peers = (w3, Ok out)
    /\ converse (head1 :: head2 :: head3 :: head4 :: head5 :: more) false w3 (fresh_worker sr gr) out = (wi, wr, Ok [])
    /\ holds wi agreed_id (need_i LegNim) (need_i LegCounterparty) (note_funding_wire (s_verifier si) LegCounterparty (lg_other_wire l)) (lg_i2 l)
         (side Initiator (cx_terms ctx_i) Settled ctx_i (Some agreed_secret) (Some (id_btc_pubkey (s_identity sr))) (s_ladder si) None)
    /\ holds wr agreed_id (need_r LegNim) (need_r LegCounterparty) (note_funding_wire (s_verifier sr) LegNim (lg_nim_wire l)) (lg_r2 l)
         (side Responder (cx_terms ctx_i) Settled ctx_r (Some agreed_secret) (Some (i_btc_pubkey ii)) (s_ladder sr) (Some (lg_nim_claim_tx l))).
Proof.
  intros Hmeet Hserved Hheads.
  destruct (propose_travels seed Hmeet) as (Hsign & Hver & b1 & He1 & Hd1). destruct (accept_travels seed Hmeet) as (b2 & He2 & Hd2).
  destruct (tx_travels FundingProof LegNim _ _ (or_introl eq_refl) (sv_nim_ok _ Hserved)) as (b3 & He3 & Hd3).
  destruct (tx_travels FundingProof LegCounterparty _ _ (or_introl eq_refl) (sv_other_ok _ Hserved)) as (b4 & He4 & Hd4).
  destruct (tx_travels PreimageReveal LegCounterparty _ _ (or_intror eq_refl) (sv_claim_ok _ Hserved)) as (b5 & He5 & Hd5).
  assert (Hh := Hheads). rewrite !Forall_cons in Hh. destruct Hh as ([_ L1] & [L2 _] & [_ L3] & [L4 _] & _).
  destruct (intent_heard si gi sender ii ri head) as [th H1]; try apply Hmeet. change (derive_swap_id ii ri) with agreed_id in H1. rewrite H1. cbn [fst].
  destruct (window_proposes si gi th advertiser_new agreed_id ri 0 head peers ii (ed25519_public seed) (ed25519_sign seed (signing_bytes (ctx_proposal ctx_i))) b1) as (w2 & ads & w3 & H2 & H3 & Hi3);
    try apply Hmeet; [exact Hsign | exact He1 |].
  rewrite H2. cbn [fst].
  destruct (responder_on_propose (fresh_worker sr gr) sr gr head1 (ctx_proposal ctx_i) (ed25519_public seed)
              (ed25519_sign seed (signing_bytes (ctx_proposal ctx_i))) b1 b2) as (r1 & R1 & Hr1); try done; try apply Hmeet.
  { rewrite (proj1 (om_fresh_r _ Hmeet)). apply lookup_empty. }
  { unfold session_len. rewrite (proj1 (om_fresh_r _ Hmeet)), map_size_empty. apply Hmeet. }
  destruct (initiator_on_accept w3 agreed_id (need_i LegNim) (need_i LegCounterparty) (s_verifier si) gi (cx_terms ctx_i) ctx_i (Some agreed_secret) (s_ladder si) head2
              (acceptance (s_identity sr) agreed_id) b2 _ _ _ b3 Hi3 eq_refl eq_refl Hd2 L2 (sv_fund_nim _ Hserved) He3) as (i4 & I4 & Hi4).
  destruct (sv_nim_seen _ Hserved) as [k1 K1]. destruct (sv_other_seen _ Hserved) as [k2 K2]. destruct (sv_claim_seen _ Hserved) as (k3 & K3 & Hk3).
  destruct (responder_on_proof r1 agreed_id (need_r LegNim) (need_r LegCounterparty) _ _ (cx_terms ctx_i) ctx_r _ (s_ladder sr) head3 _ _ b3 k1 _ _ _ b4
              Hr1 eq_refl Hd3 K1 L3 (sv_fund_other _ Hserved) He4) as (r2 & R2 & Hr2).
  destruct (initiator_on_proof i4 agreed_id (need_i LegNim) (need_i LegCounterparty) _ _ (cx_terms ctx_i) ctx_i agreed_secret _ (s_ladder si) head4 _ _ b4 k2 _ _ _ b5
              Hi4 eq_refl eq_refl Hd4 K2 L4 (sv_claim _ Hserved) He5) as (i5 & I5 & Hi5).
  destruct (responder_on_reveal r2 agreed_id (need_r LegNim) (need_r LegCounterparty) _ _ (cx_terms ctx_i) ctx_r agreed_secret _ (s_ladder sr) head5 _ _ b5 _ _ _ k3
              Hr2 (proj1 (om_secret _ Hmeet)) eq_refl Hd5 (sv_nim_claim _ Hserved) K3 Hk3) as (r3 & R3 & Hr3).
  exists w3, [(MtSwapPropose, b1)], i5, r3. split; [done |]. split; [| split; [exact Hi5 | exact Hr3]].
  cbn [converse]. erewrite hear_one; [| reflexivity | exact R1]. cbn [converse]. erewrite hear_one; [| reflexivity | exact I4].
  cbn [converse]. erewrite hear_one; [| reflexivity | exact R2]. cbn [converse]. erewrite hear_one; [| reflexivity | exact I5].
  cbn [converse]. erewrite hear_one; [| reflexivity | exact R3]. by destruct more.
Qed.

(** C6: two nodes whose advertisements fit settle their swap.  Whatever the verifiers and signers:
    when a fresh node that gives NIM hears the authentic, unexpired advertisement of a fresh node
    that gives what it asks for, at amounts, rates and caps both allow, then its second tick
    proposes; and if from there on each node takes in what the other said, at heads whose ladder
    is safe, while the signers build the four transactions and the chains show them, the exchange
    is over after five messages, with nothing left to say: both sides have settled the one swap
    they agreed, on the same hashlock, terms and amounts; the responder knows the secret; and each
    signer is in the state after one funding and one claim. *)
Theorem offers_settle (seed sender : bytes) (peers : Z) (head2 head3 head4 head5 : Z) (more : list Z) (l : signed_legs)
    (Hmeet : offers_meet seed) (Hserved : served l)
    (Hheads : Forall (fun t => fund_safe (cx_terms ctx_i) t (s_ladder si) /\ fund_safe (cx_terms ctx_i) t (s_ladder sr)) [head1; head2; head3; head4]) :
  let w1 := (handle_intent_packet (fresh_worker si gi) (Some head) sender (encode_intent ri)).1 in
  let w2 := (gc_tick w1 (Some head) peers).1 in
  exists w3 out wi wr, gc_tick w2 (Some head) peers = (w3, Ok out)
    /\ converse (head1 :: head2 :: head3 :: head4 :: head5 :: more) false w3 (fresh_worker sr gr) out = (wi, wr, Ok [])
    /\ holds wi agreed_id (need_i LegNim) (need_i LegCounterparty) (note_funding_wire (s_verifier si) LegCounterparty (lg_other_wire l)) (lg_i2 l)
         (side Initiator (cx_terms ctx_i) Settled ctx_i (Some agreed_secret) (Some (id_btc_pubkey (s_identity sr))) (s_ladder si) None)
    /\ holds wr agreed_id (need_r LegNim) (need_r LegCounterparty) (note_funding_wire (s_verifier sr) LegNim (lg_nim_wire l)) (lg_r2 l)
         (side Responder (cx_terms ctx_i) Settled ctx_r (Some agreed_secret) (Some (i_btc_pubkey ii)) (s_ladder sr) (Some (lg_nim_claim_tx l))).
Proof.
  destruct (swap_played seed sender peers head2 head3 head4 head5 more l Hmeet Hserved Hheads) as (w3 & out & wi & wr & Ht & Hplay).
  cbv zeta. rewrite Ht. eauto 6.
Qed.
End swap.

(** ** Nodes from the participant door *)

Section doors.
Context {C : Crypto} {CL : CryptoLaws C} {N R : Type} (nim_connect : list Z -> N) (policy : RelayPolicy R) (seq : Z).

(** What the door makes of a configuration with a standing intent *)
Lemma participant_made sender config url n trade :
  new_swap_participant nim_connect policy seq sender config url = Ok n -> pc_standing_intent config = Some trade ->
  exists i, build_signed_intent trade (pc_btc_pubkey config) (pc_btc_address config) (pc_intent_seed config) = Ok i
    /\ length (pc_btc_pubkey config) = 33%nat /\ len (pc_btc_address config) <= 64
    /\ t_swap (n_state n) = fresh_worker
         (session_new (mkIdentity (address_of (ed25519_public (pc_intent_seed config))) (pc_btc_address config) (pc_btc_pubkey config) accept_all
                         (if pc_max_concurrent_swaps config =? 0 then DEFAULT_MAX_CONCURRENT_SWAPS else pc_max_concurrent_swaps config) (Some i))
            (mkLadder (pc_delta_safe_blocks config) (pc_min_claim_window_blocks config))
            AcceptAll (Some (in_memory_key (pc_intent_seed config))) testnet_defaults ABtc (secret_source (pc_intent_seed config)) false None) Mock.
Proof.
  intros H Hst. unfold new_swap_participant in H. rewrite Hst in H.
  destruct (try_array 32 (pc_intent_seed config)) as [seed |] eqn:Es; [| discriminate].
  assert (seed = pc_intent_seed config) as -> by (unfold try_array in Es; by destruct (Nat.eqb _ _); simplify_eq).
  destruct (check_seed_entropy _); [| discriminate..].
  destruct (try_array 33 (pc_btc_pubkey config)) as [pk |] eqn:Ep; [| discriminate].
  assert (pk = pc_btc_pubkey config /\ length pk = 33%nat) as [-> Hpk]
    by (unfold try_array in Ep; destruct (Nat.eqb_spec (length (pc_btc_pubkey config)) 33); by simplify_eq).
  destruct (bool_decide _ || _) eqn:Ea; [discriminate |]. destruct (_ || _) eqn:El in H; [discriminate |].
  destruct (build_signed_intent _ _ _ _) as [i | |]; [| discriminate..]. exists i.
  destruct (optional_gateway _ _); [| discriminate..]. injection H as <-. apply orb_false_iff in Ea as [_ Ea]. split_and!; [done.. | lia | done].
Qed.

(** The values the fields' types allow *)
Definition config_typed (config : FfiParticipantConfig) (trade : FfiStandingIntent) : Prop :=
  pc_standing_intent config = Some trade /\ uN 64 (si_nim_amount trade) /\ uN 64 (si_counter_amount trade) /\ uN 64 (si_expiry_height trade)
  /\ uN 64 (si_min_nim trade) /\ uN 64 (si_max_nim trade) /\ bytes_ok (pc_btc_pubkey config) /\ bytes_ok (pc_btc_address config)
  /\ 0 <= pc_max_concurrent_swaps config.

Lemma intent_built config trade i :
  config_typed config trade -> length (pc_btc_pubkey config) = 33%nat ->
  build_signed_intent trade (pc_btc_pubkey config) (pc_btc_address config) (pc_intent_seed config) = Ok i ->
  intent_ok i /\ verify_authentic i = true /\ i_nim_address i = address_of (ed25519_public (pc_intent_seed config))
  /\ i_gives i = si_gives trade /\ i_counter_asset i = si_counter_asset trade /\ i_nim_amount i = si_nim_amount trade
  /\ i_btc_amount i = si_counter_amount trade /\ i_expiry_height i = si_expiry_height trade /\ i_min_nim i = si_min_nim trade
  /\ i_max_nim i = si_max_nim trade /\ i_btc_pubkey i = pc_btc_pubkey config /\ i_btc_address i = pc_btc_address config
  /\ i_network_id i = wire_id Testnet /\ 0 < si_counter_amount trade.
Proof.
  intros (_ & H1 & H2 & H3 & H4 & H5 & Hpk & Had & _) Hl H. unfold build_signed_intent in H.
  destruct (negb _); [discriminate |]. destruct (_ || _) eqn:Ez; [discriminate |]. destruct (_ >? _); [discriminate |]. injection H as <-.
  apply orb_false_iff in Ez as [_ Ez]. unfold uN in H2. split_and!; try done; [| | lia].
  - constructor; try done; cbn; try first [apply public_ok | apply address_ok | apply sign_ok].
    + split; [unfold len; by rewrite Hl | done].
    + split; [done |]. by apply bytes_okb_ok.
  - unfold verify_authentic, sign_intent, bytes_eqb. cbn. rewrite bool_decide_true by done. apply verify_sign.
Qed.

(** The simulated signers and the verifier that accepts everything serve any swap. *)
Definition sim_legs (id secret : bytes) : @signed_legs MockSigner MockSigner :=
  mkLegs Mock Mock Mock Mock (replicate 248 17) (sim_tx_id id 241) (replicate 120 34) (sim_tx_id id 242) [] (sim_tx_id id 243) secret (sim_tx_id id 243).

Lemma sim_tx_ok wire id tag : bytes_ok wire -> len wire <= 255 -> array_ok 16 id -> uN 8 tag -> tx_ok wire (sim_tx_id id tag).
Proof.
  intros Hw Hl [Hi Hb] Ht. split_and!; [done.. |]. unfold sim_tx_id. split; [rewrite len_app, Hi; by vm_compute |].
  apply bytes_ok_app. split; [done |]. by apply Forall_replicate.
Qed.

Lemma sim_served si sr ii ri head head1 :
  s_verifier si = AcceptAll -> s_verifier sr = AcceptAll -> s_confirm_policy si = testnet_defaults -> s_confirm_policy sr = testnet_defaults ->
  s_counterparty_chain si = ABtc -> s_counterparty_chain sr = ABtc -> intent_ok ii -> 0 <= head -> head + 10000 < 2 ^ 64 ->
  array_ok 32 (agreed_secret si ii ri) ->
  served si sr Mock Mock ii ri head head1 (sim_legs (agreed_id ii ri) (agreed_secret si ii ri)).
Proof.
  intros Vi Vr Pi Pr Ci Cr Oi Hh1 Hh2 [Hsl Hsb]. pose proof (agreed_id_ok ii ri) as Hid. pose proof (io_nim _ Oi) as Hn. pose proof (io_btc _ Oi) as Hb. unfold uN in Hn, Hb.
  constructor; cbn [sim_legs lg_i1 lg_i2 lg_r1 lg_r2 lg_nim_wire lg_nim_tx lg_other_wire lg_other_tx lg_claim_rest lg_claim_tx lg_nim_claim_wire lg_nim_claim_tx];
    rewrite ?app_nil_r; try done.
  - apply sim_tx_ok; [by apply bytes_okb_ok | by vm_compute | done | by vm_compute].
  - apply sim_tx_ok; [by apply bytes_okb_ok | by vm_compute | done | by vm_compute].
  - apply sim_tx_ok; [done | lia | done | by vm_compute].
  - cbn zeta. exists U32_MAX. unfold need_r. rewrite Pr, Cr. cbn [observe AcceptAll_verifier]. unfold require_funded. cbn [x_min_amount x_min_timeout].
    unfold U64_MAX. destruct (Z.ltb_spec (2 ^ 64 - 1) (i_nim_amount ii)); [lia |]. destruct (Z.ltb_spec (2 ^ 64 - 1) (head + 10000)); [lia |]. done.
  - cbn zeta. exists U32_MAX. unfold need_i. rewrite Pi, Ci. cbn [observe AcceptAll_verifier]. unfold require_funded. cbn [x_min_amount x_min_timeout].
    unfold U64_MAX. destruct (Z.ltb_spec (2 ^ 64 - 1) (i_btc_amount ii)); [lia |]. destruct (Z.ltb_spec (2 ^ 64 - 1) (head + 5000)); [lia |]. done.
  - exists U32_MAX. split; [done |]. unfold need_r. rewrite Pr, Cr. by vm_compute.
Qed.

(** Two trades that fit: one gives NIM for what the other gives, at a rate at least the one
    asked, in sizes both take. *)
Definition trades_fit (ti tr : FfiStandingIntent) : Prop :=
  si_gives ti = ANim /\ si_gives tr <> ANim /\ si_counter_asset ti = si_gives tr
  /\ si_nim_amount tr * si_counter_amount ti <= si_nim_amount ti * si_counter_amount tr
  /\ si_min_nim tr <= si_nim_amount ti <= si_max_nim tr /\ si_min_nim ti <= si_nim_amount tr <= si_max_nim ti.

(** Any two participants the app can build, whose trades fit, settle: when the one that gives NIM
    hears the other's advertisement in time, five messages later both phases read settled. *)
Theorem participants_settle sender_i sender_r ci cr url_i url_r ni nr ti tr sender head peers head1 head2 head3 head4 head5 i_r :
  new_swap_participant nim_connect policy seq sender_i ci url_i = Ok ni -> new_swap_participant nim_connect policy seq sender_r cr url_r = Ok nr ->
  config_typed ci ti -> config_typed cr tr -> trades_fit ti tr ->
  build_signed_intent tr (pc_btc_pubkey cr) (pc_btc_address cr) (pc_intent_seed cr) = Ok i_r ->
  0 <= head -> head + 10000 < 2 ^ 64 -> head <= si_expiry_height tr ->
  pc_delta_safe_blocks ci <= 5000 -> pc_delta_safe_blocks cr <= 5000 ->
  Forall (fun t => pc_min_claim_window_blocks ci <= head + 5000 - t /\ pc_min_claim_window_blocks cr <= head + 5000 - t) [head1; head2; head3; head4] ->
  let w1 := (handle_intent_packet (t_swap (n_state ni)) (Some head) sender (encode_intent i_r)).1 in
  let w2 := (gc_tick w1 (Some head) peers).1 in
  exists w3 out wi wr id, gc_tick w2 (Some head) peers = (w3, Ok out)
    /\ converse [head1; head2; head3; head4; head5] false w3 (t_swap (n_state nr)) out = (wi, wr, Ok [])
    /\ c_phase <$> coordinator wi id = Some Settled /\ c_phase <$> coordinator wr id = Some Settled.
Proof.
  intros Mi Mr Ti Tr (F1 & F2 & F3 & F4 & F5 & F6) Br H0 H1 Hexp Di Dr Hheads.
  destruct (participant_made _ _ _ _ _ Mi (proj1 Ti)) as (ii & Bi & Li & Ai & Wi).
  destruct (participant_made _ _ _ _ _ Mr (proj1 Tr)) as (ri & Br' & Lr & Ar & Wr). rewrite Br in Br'. injection Br' as <-.
  destruct (intent_built ci ti ii Ti Li Bi) as (Oi & _ & Ei1 & Ei2 & Ei3 & Ei4 & Ei5 & Ei6 & Ei7 & Ei8 & Ei9 & Ei10 & Ei11 & Pi).
  destruct (intent_built cr tr i_r Tr Lr Br) as (Or & Vr & Er1 & Er2 & Er3 & Er4 & Er5 & Er6 & Er7 & Er8 & Er9 & Er10 & Er11 & Pr).
  set (si := session_new _ _ AcceptAll _ _ _ (secret_source (pc_intent_seed ci)) _ _) in Wi.
  set (sr := session_new _ _ AcceptAll _ _ _ (secret_source (pc_intent_seed cr)) _ _) in Wr.
  destruct Ti as (_ & Ui1 & Ui2 & Ui3 & Ui4 & Ui5 & Ui6 & Ui7 & Ui8), Tr as (_ & Ur1 & Ur2 & Ur3 & Ur4 & Ur5 & Ur6 & Ur7 & Ur8).
  assert (Hmeet : offers_meet si sr ii i_r head (pc_intent_seed ci)).
  { constructor; try done; try (split; [done | lia]).
    - rewrite Ei10. split; [done | lia].
    - rewrite Er10. split; [done | lia].
    - unfold is_fresh. rewrite Er6. lia.
    - split.
      + unfold would_initiate_against. rewrite Ei2, Er2, Ei3, Ei11, Er11, Ei4, Ei5, Er4, Er5, F1, F3, !u64_product, Z.eqb_refl by done.
        rewrite bool_decide_true, bool_decide_false, bool_decide_true by done. cbn [negb andb].
        destruct (Z.gtb_spec (si_counter_amount ti) 0), (Z.gtb_spec (si_counter_amount tr) 0); lia.
      + unfold amount_compatible. rewrite Ei4, Er4, Ei7, Ei8, Er7, Er8. repeat (apply andb_true_iff; split); lia.
    - unfold DEFAULT_MAX_CONCURRENT_SWAPS in *. cbn. unfold DEFAULT_MAX_CONCURRENT_SWAPS. split; case_match; lia.
    - unfold accepts. cbn. rewrite Ei4, Ei5. destruct (Z.eqb_spec (si_counter_amount ti) 0); [lia |].
      rewrite Z.mul_0_r, Z.mul_1_r. apply Z.geb_le. unfold wrapN. rewrite Z.mod_0_l by done. apply Z.mod_pos_bound. lia.
    - apply sha256_ok.
    - split_and!; [apply address_ok | done | cbn; lia |]. split; [unfold len; cbn; by rewrite Lr | done]. }
  assert (Hsafe : forall lad t, delta_safe_blocks lad <= 5000 -> min_claim_window_blocks lad <= head + 5000 - t ->
    fund_safe (cx_terms (ctx_i si ii i_r head)) t lad).
  { intros lad t Hd Hw. apply ladder_safe_iff. cbn. unfold sat_sub. lia. }
  destruct (swap_played si sr Mock Mock ii i_r head head1 (pc_intent_seed ci) sender peers head2 head3 head4 head5 []
              (sim_legs (agreed_id ii i_r) (agreed_secret si ii i_r)) Hmeet) as (w3 & out & wi & wr & Ht & Hplay & Hi & Hr).
  { apply sim_served; try done. apply sha256_ok. }
  { eapply Forall_impl; [exact Hheads |]. intros t [H2 H3]. split; apply Hsafe; done. }
  cbv zeta. rewrite Wi, Wr. exists w3, out, wi, wr, (agreed_id ii i_r). split; [exact Ht |]. split; [exact Hplay |].
  destruct Hi as (_ & s1 & Hs1 & Hc1 & _), Hr as (_ & s2 & Hs2 & Hc2 & _). unfold coordinator. rewrite Hs1, Hs2. cbn [mbind option_bind].
  by rewrite Hc1, Hc2.
Qed.
End doors.

(** ** A sample: 500000 luna against 4000000 satoshi *)

Definition sample_seed_i : bytes := map (fun k => Z.of_nat k) (seq 1 32).
Definition sample_seed_r : bytes := map (fun k => Z.of_nat k) (seq 101 32).

Definition sample_ii : SwapIntent :=
  sign_intent (mkIntent ANim ABtc 500000 4000000 9000 1 1000000 [] [] (replicate 33 2) [98; 99] (replicate 20 3) 5 []) sample_seed_i.
Definition sample_ri : SwapIntent :=
  sign_intent (mkIntent ABtc ABtc 500000 4000000 9000 1 1000000 [] [] (replicate 33 3) [98; 97] (replicate 20 3) 5 []) sample_seed_r.

Definition sample_node (seed : bytes) (i : SwapIntent) : @SwapSession AcceptAllVerifier :=
  session_new (mkIdentity (i_nim_address i) (i_btc_address i) (i_btc_pubkey i) accept_all 16 (Some i)) ladder_default AcceptAll
    (Some (in_memory_key seed)) testnet_defaults ABtc (secret_source seed) false None.

Lemma sample_intents_ok : intent_ok sample_ii /\ intent_ok sample_ri.
Proof.
  split; constructor; try (split; vm_compute; congruence); try (split; [reflexivity | by apply bytes_okb_ok]); by apply bytes_okb_ok.
Qed.

Lemma sample_meet : offers_meet (sample_node sample_seed_i sample_ii) (sample_node sample_seed_r sample_ri) sample_ii sample_ri 1000 sample_seed_i.
Proof.
  destruct sample_intents_ok as [Hi Hr]. constructor; try done; try (vm_compute; done).
  - split; [reflexivity | by apply bytes_okb_ok].
  - split_and!; [| by apply bytes_okb_ok | by vm_compute |]; (split; [reflexivity | by apply bytes_okb_ok]).
Qed.

Lemma offers_settle_witness :
  exists w3 out wi wr,
    gc_tick (gc_tick (handle_intent_packet (fresh_worker (sample_node sample_seed_i sample_ii) Mock) (Some 1000) [9] (encode_intent sample_ri)).1
      (Some 1000) 1).1 (Some 1000) 1 = (w3, Ok out)
    /\ converse [1001; 1002; 1003; 1004; 1005] false w3 (fresh_worker (sample_node sample_seed_r sample_ri) Mock) out = (wi, wr, Ok [])
    /\ c_phase <$> coordinator wi (agreed_id sample_ii sample_ri) = Some Settled
    /\ c_phase <$> coordinator wr (agreed_id sample_ii sample_ri) = Some Settled.
Proof.
  pose proof (offers_settle (sample_node sample_seed_i sample_ii) (sample_node sample_seed_r sample_ri) Mock Mock sample_ii sample_ri 1000 1001
    sample_seed_i [9] 1 1002 1003 1004 1005 [] (sim_legs (agreed_id sample_ii sample_ri) (agreed_secret (sample_node sample_seed_i sample_ii) sample_ii sample_ri))
    sample_meet) as H.
  destruct H as (w3 & out & wi & wr & Ht & Hplay & (_ & s1 & Hs1 & Hc1 & _) & (_ & s2 & Hs2 & Hc2 & _)).
  - apply sim_served; try done; [apply sample_intents_ok | split; [reflexivity | by apply bytes_okb_ok]].
  - repeat constructor.
  - exists w3, out, wi, wr. split; [exact Ht |]. split; [exact Hplay |]. unfold coordinator. rewrite Hs1, Hs2. cbn [mbind option_bind].
    rewrite Hc1, Hc2. split; reflexivity.
Defined.
